(* ===== verification/_CoqProject ===== *)
-Q . S2P
Prelude.v
Memory.v
KString.v
Dtb.v
UString.v
UMalloc.v
UStdlib.v
UCtype.v
UFormat.v
UStdio.v
VBasic.v
Pmm.v
Vmm.v
Virtio.v
DList.v
Sched.v
Sync.v
Vma.v
Elf.v
ElfLoad.v
Heap.v
TtyState.v
Kernel.v
Vfs.v
Devfs.v
FatName.v
Fat.v
FatFile.v
FatDir.v
FatLookup.v
FatCreate.v
FatRemove.v
FatMount.v
VirtioDisk.v
Uaccess.v
Signal.v
Tty.v
Ramfb.v
TtyIo.v
TtyLine.v
VirtioInput.v
Fd.v
Cred.v
Pipe.v
Proc.v
Path.v
Exec.v
Mmap.v
Sysctl.v
Syscall.v
ULibc.v
