(* ===== verification/Prelude.v ===== *)
(** * Valerioedx: a verification development of the operating system

    Valerioedx is a small Unix-like system: a kernel for AArch64 with processes,
    signals, virtual memory, a virtual file system, FAT32 on a virtio disk,
    pipes and terminals, and a user C library with a few programs.  This library
    models the C code of the kernel and of the C library as executable
    functions and proves what makes each part correct.

    This file is the root and the prelude: machine integers, the error and
    state monad [M], lists updated by index, bit operations, the tactics and the
    hint databases [cint], [cint_rw].

    ** How the code is modelled

    - Integers are [Z].  Where the C code computes at a width the model applies
      [u8], [u16], [u32], [u64], [i32] or [i64], so wrap-around is part of every
      definition.
    - A function that changes state is of type [M S A]: [Done (a, s')], [Fault]
      (a null or dangling pointer, an index outside its array, a division by
      zero, fuel that has run out) or [Stuck] (a lock that is taken for ever).
      The theorems that a call is correct state [Done], so they include that it
      ends and does not fault.
    - Memory is a total function from addresses to bytes ([Memory]); kernel
      pointers are addresses of the direct map and go through [V2P], user
      pointers through the page tables of the process.  Kernel objects that are
      reached by pointers only through their fields (tasks, processes, areas,
      inodes, open files, pipes, terminals, cached pages, slabs) are maps from
      an address to a record; address 0 is NULL and has no record.  Objects
      whose layout matters (page tables, heap blocks of the user allocator,
      virtio rings, disk blocks, user structures) are bytes.
    - Spin locks are a bit of the state; taking a taken lock is [Stuck].  A call
      that sleeps is modelled by one pass of its loop: the pass tells whether the
      task has gone to sleep ([None], [false], [SysSwitch]), and runs again when
      the scheduler switches to it.
    - A local array that the code does not initialise is a variable [uninit] of
      the section; the results of [kmalloc] are taken from a list of addresses in
      the state, and may be 0.
    - Hardware, assembly and static addresses are parameters: the clocks, the
      device registers, the address of the frame buffer and of static objects.
      Cache and TLB maintenance, memory barriers and kernel messages that only
      inform have no effect on the modelled state and are left out.

    ** The files

    Base.
    - [Prelude]: this file.  [Memory]: bytes, little-endian loads and stores,
      equality of memories with its [Proper] instances.  [DList]: intrusive
      lists, used by [Sched], [Vma] and [Heap].
    - [KString]: [lib/src/string.c].  [Dtb]: [kernel/arch/aarch64/cpu/dtb.c].

    Memory management.
    - [Pmm]: [kernel/mm/pmm.c]; it implements the class [FrameAllocator].
    - [Vmm]: [kernel/mm/vmm.c] over any [FrameAllocator].
    - [Vma]: [kernel/mm/vma.c] over [Vmm].
    - [Heap]: [kernel/mm/heap.c], with its own [Module Heap].

    Threads and processes.
    - [Sched], [Sync]: [kernel/threading/sched.c], [sync.c].
    - [Kernel]: the state [kst] that the system calls share (scheduler, address
      spaces, inodes, files, pipes, terminals, page cache, memory) and the class
      [Drivers] of the operations an inode names.
    - [Signal]: [kernel/syscalls/kill.c].  [Proc]: [fork.c].  [Cred]:
      [getuid.c].  [Elf], [ElfLoad], [Exec]: [kernel/fs/elf.c] and
      [kernel/syscalls/exec.c].
    - [Uaccess]: the first half of [kernel/syscalls/write.c].  [Mmap]: [mmap.c],
      [time.c].  [Sysctl]: [sysctl.c].  [Syscall]: the dispatcher and the
      supervisor call of [exceptions.c].

    Files.
    - [Vfs]: [kernel/fs/vfs.c].  [Devfs]: [devfs.c].  [Fd]: [file.c], [dup.c],
      [write.c], [ioctl.c].  [Path]: [open.c], [mkdir.c], [chdir.c], [stat.c].
      [Pipe]: [pipe.c].
    - FAT32, [kernel/fs/fat32.c]: [FatName] (times and names), [Fat] (table and
      data, over the class [BlockDevice]), [FatDir] (directories, mount) are the
      code; [FatFile], [FatLookup], [FatCreate], [FatRemove], [FatMount] are the
      proofs on files, searches, creation, removal and the mount.
    - [Virtio]: the block driver, [firmware/virtio.c] and [virtio-blk.c], over
      the class [VirtioBlk] of the device; [VirtioDisk] makes it a
      [BlockDevice], so the file system's theorems hold of the disk.

    Console.
    - [TtyState], [Tty], [TtyIo]: [kernel/drivers/tty.c] over the class
      [Console]; [TtyLine] proves the line discipline.
    - [Ramfb]: [firmware/ramfb.c] and the output half of [firmware/uart.c];
      [cons_console] is the [Console] made of them.
    - [VirtioInput]: keyboard and mouse, over the class [InputDevice]; keys go to
      the terminal of [Tty].

    User space.
    - [UString], [UCtype]: [user/src/string.c], [ctype.c].  [UMalloc], [UStdlib]:
      [stdlib.c], over the class [Pager] of the kernel's answers to [mmap].
      [UFormat], [UStdio]: [stdio.c], over the class [Descriptors].
    - [ULibc]: the system-call functions ([unistd.c] and others) with the
      kernel's dispatcher below them.
    - [VBasic]: the BASIC interpreter, [user/programs/vbasic/vbasic.c].

    ** What the theorems show

    - Refinement of an abstract object: the terminal's line discipline is an
      editor of lines ([tty_edits_lines], [typed_line_is_read],
      [keyboard_types_lines]); the console is a grid of cells
      ([ramfb_putc_refines], [erase_below_scrolls]); a pipe is a bounded queue
      ([pipe_refines_queue]); the mouse is a queue of reports
      ([mouse_driver_refines]); a FAT directory is a list of entries
      ([fat32_lookup_refines]); the device tree is a tree
      ([dtb_get_property_finds]); buffered output is the text of the format
      ([vfprintf_sends]); the pid hash is a map ([pid_hash_is_map]).
    - Functional correctness, with the frame conditions: allocation
      ([pmm_alloc_frame_spec], [kmalloc_fresh_block], [kfree_releases_block],
      [malloc_contract], [free_contract], [realloc_contract]); mapping
      ([vmm_map_page_translates], [vma_unmap_exact], [vma_allocate_first_fit],
      [elf_load_correct]); files ([fat32_read_contents], [fat32_write_contents],
      [fat32_create_then_lookup], [fat32_unlink_removes],
      [fat32_mount_geometry]); scheduling ([schedule_picks_highest]); numbers,
      expressions and sorting ([strtoul_value], [expression_value],
      [program_sorted]).
    - Round trips: [vfs_write_then_read], [virtio_disk_stores],
      [copy_user_roundtrip], [signal_frame_roundtrip],
      [sscanf_reads_snprintf].
    - Invariants and safety: reference counts of open files
      ([fd_refs_preserved], [fork_shares_files]), run queues
      ([run_queues_are_lists]), the driver's rings ([virtio_init_ready]), the
      confinement of unprivileged processes ([unprivileged_confined]), the room
      of [vsnprintf] ([vsnprintf_bounded]).
    - Agreement of two sides: the library's system calls and the dispatcher
      ([calls_reach_kernel]), the vector copies and the copies by bytes
      ([vector_copy_bytewise]).
    - Termination on any input: [free_cluster_chain_terminates], and every
      theorem that states [Done].
    - Defects that the model exhibits are theorems too, where the effect is
      more than a missing test: [pipe_end_never_closed], [sysctl_writes_kernel],
      [vmm_map_page_oom_deadlock], [syscall_signal_swaps_result],
      [ungetc_at_end_lost], [malloc_misses_refusal] and others.

    ** Interfaces

    A client is verified against a class and the implementation discharges it:
    [FrameAllocator] (by [pmm_allocator]), [BlockDevice] (by [virtio_device]),
    [Console] (by [cons_console]), [Drivers], [VirtioBlk], [InputDevice],
    [Pager], [Descriptors].  The last five stand for code outside the sources
    (devices, the kernel seen from a program) or for function pointers; each has
    an example instance that the witnesses use.

    ** Fuel

    Loops that are not structural take a number of passes.
    - Strings: [str_fuel] (4096) bounds a kernel string, a page being the longest
      the code builds; a library routine on a string of [n] bytes needs [n + 1].
    - Chains: [proc_fuel], [task_fuel] are the number of objects and one.  A list
      of [n] areas, blocks or hash entries needs [n + 1].
    - FAT32: [fuel] counts the clusters visited; a chain without a cycle visits
      each at most once, so the number of clusters and two is enough, and
      [free_cluster_chain_terminates] shows that freeing ends even on a cycle.
    - The device tree: any fuel above [totalsize].  Number printing: 64 digits,
      the width of the numbers.  The terminal: [line_fuel], a line and one.
    - The interrupt handlers of [VirtioInput]: more than the events in the ring.
      The block device answers within [vb_delay] steps of its class.
    - The BASIC parser: a depth of three times the length of the text and three;
      [qsort]: the number of elements.

    ** Not modelled

    - [kernel/arch/aarch64/cpu/main.c], [boot.S], [switch.S], the vector table:
      start-up order, assembly, register saving.
    - [gic.c], [timer.c], [pl031.c], [fwcfg.c], the receive half of
      [firmware/uart.c], [drivers/uart.c], [virtio-rng.c]: reads and
      writes of device registers, whose effects are outside the sources.
    - [kernel/arch/x64], an unfinished port, with its text console.
    - The shell and the utilities of [user/utils], which call the C library.
    - Of modelled files: [process_create] and the start of the scheduler,
      the asynchronous mode of the block driver, which nothing uses,
      [ramfb_init], messages. *)
From Stdlib Require Export ZArith Lia Bool.
From stdpp Require Export gmap fin_maps.
From stdpp Require Export prelude.
#[export] Set Default Proof Using "Type".
Open Scope Z_scope.

(** ** Machine integers of the C source *)

(** [u8], [u16], [u32], [u64] truncate to the width of the unsigned C type,
    [i32], [i64] to the two's complement signed one. *)
Definition u8 (x : Z) : Z := x mod 2 ^ 8.
Definition u16 (x : Z) : Z := x mod 2 ^ 16.
Definition u32 (x : Z) : Z := x mod 2 ^ 32.
Definition u64 (x : Z) : Z := x mod 2 ^ 64.
Definition i8 (x : Z) : Z := (x + 2 ^ 7) mod 2 ^ 8 - 2 ^ 7.
Definition i32 (x : Z) : Z := (x + 2 ^ 31) mod 2 ^ 32 - 2 ^ 31.
Definition i64 (x : Z) : Z := (x + 2 ^ 63) mod 2 ^ 64 - 2 ^ 63.

(** [(u32)-1], the "no index" value of several components. *)
Definition U32_MAX : Z := 4294967295.
(** [(u64)-1]. *)
Definition U64_MAX : Z := 18446744073709551615.

Create HintDb cint.
Create Rewrite HintDb cint_rw.

Lemma u8_range x : 0 <= u8 x < 256.
Proof. apply Z.mod_pos_bound. lia. Qed.
Lemma u16_range x : 0 <= u16 x < 65536.
Proof. apply Z.mod_pos_bound. lia. Qed.
Lemma u32_range x : 0 <= u32 x < 4294967296.
Proof. apply Z.mod_pos_bound. lia. Qed.
Lemma u64_range x : 0 <= u64 x < 18446744073709551616.
Proof. apply Z.mod_pos_bound. lia. Qed.
Lemma i32_range x : - 2147483648 <= i32 x < 2147483648.
Proof. unfold i32. pose proof (Z.mod_pos_bound (x + 2^31) (2^32)). lia. Qed.

Lemma u8_id x : 0 <= x < 256 → u8 x = x.
Proof. intros. by apply Z.mod_small. Qed.
Lemma u16_id x : 0 <= x < 65536 → u16 x = x.
Proof. intros. by apply Z.mod_small. Qed.
Lemma u32_id x : 0 <= x < 4294967296 → u32 x = x.
Proof. intros. by apply Z.mod_small. Qed.
Lemma u64_id x : 0 <= x < 18446744073709551616 → u64 x = x.
Proof. intros. by apply Z.mod_small. Qed.
Lemma i32_id x : - 2147483648 <= x < 2147483648 → i32 x = x.
Proof. intros. unfold i32. rewrite Z.mod_small; lia. Qed.
Lemma i64_id x : - 9223372036854775808 <= x < 9223372036854775808 → i64 x = x.
Proof. intros. unfold i64. rewrite Z.mod_small; lia. Qed.

#[export] Hint Resolve u8_range u16_range u32_range u64_range i32_range : cint.
#[export] Hint Rewrite u8_id u16_id u32_id u64_id i32_id i64_id using lia : cint_rw.

(** [lia] extended to division and remainder by constants. *)
Ltac zlia := Z.to_euclidean_division_equations; lia.

(** ** Bit operations *)

(** The C test [x & f] used as a condition. *)
Definition has (x f : Z) : bool := negb (Z.land x f =? 0).

(** [x & ~m]. *)
Definition andnot (x m : Z) : Z := Z.land x (Z.lnot m).

Lemma land_ones_mod x n : 0 <= n → Z.land x (2 ^ n - 1) = x mod 2 ^ n.
Proof. intros. rewrite <- Z.land_ones by lia. by rewrite Z.ones_equiv. Qed.

Lemma andnot_ones x n : 0 <= n → andnot x (2 ^ n - 1) = x - x mod 2 ^ n.
Proof.
  intros Hn. unfold andnot.
  rewrite <- Z.ldiff_land.
  replace (2 ^ n - 1) with (Z.ones n) by (rewrite Z.ones_equiv; lia).
  rewrite Z.ldiff_ones_r, Z.shiftr_div_pow2, Z.shiftl_mul_pow2 by lia.
  pose proof (Z.div_mod x (2 ^ n)). lia.
Qed.

Lemma land_nonneg_l x y : 0 <= x → 0 <= Z.land x y.
Proof. intros. apply Z.land_nonneg. by left. Qed.

Lemma testbit_small x n i : 0 <= x < 2 ^ n → n <= i → Z.testbit x i = false.
Proof.
  intros Hx Hi. destruct (decide (x = 0)) as [->|]; [by rewrite Z.bits_0|].
  apply Z.bits_above_log2; [lia|].
  apply Z.lt_le_trans with n; [|done]. apply Z.log2_lt_pow2; lia.
Qed.

Lemma bits_range x n : 0 <= n → 0 <= x → (∀ i, n <= i → Z.testbit x i = false) → 0 <= x < 2 ^ n.
Proof.
  intros Hn Hx Hb. split; [done|]. destruct (decide (x = 0)) as [->|]; [lia|].
  apply Z.log2_lt_pow2; [lia|]. destruct (decide (Z.log2 x < n)); [done|].
  specialize (Hb (Z.log2 x) ltac:(lia)). rewrite Z.bit_log2 in Hb by lia. done.
Qed.

(** ** Arrays of the C source: accesses outside the array fault *)

Definition zget {A} (l : list A) (i : Z) : option A :=
  if decide (0 <= i) then l !! Z.to_nat i else None.
Definition zset {A} (l : list A) (i : Z) (v : A) : option (list A) :=
  if decide (0 <= i < Z.of_nat (length l)) then Some (<[Z.to_nat i := v]> l) else None.

Section arrays.
Context {A : Type}.
Implicit Types l : list A.

Lemma zget_Some_range l i x : zget l i = Some x → 0 <= i < Z.of_nat (length l).
Proof. unfold zget. case_decide; [|done]. intros ?%lookup_lt_Some. lia. Qed.

Lemma zget_is_Some l i : 0 <= i < Z.of_nat (length l) → is_Some (zget l i).
Proof. intros. unfold zget. rewrite decide_True by lia. apply lookup_lt_is_Some. lia. Qed.

Lemma zset_is_Some l i v :
  0 <= i < Z.of_nat (length l) → zset l i v = Some (<[Z.to_nat i := v]> l).
Proof. intros. unfold zset. by rewrite decide_True. Qed.

Lemma zset_Some l l' i v :
  zset l i v = Some l' → 0 <= i < Z.of_nat (length l) ∧ l' = <[Z.to_nat i := v]> l.
Proof. unfold zset. intros ?. case_decide; naive_solver. Qed.

Lemma zset_length l l' i v : zset l i v = Some l' → length l' = length l.
Proof. intros [_ ->]%zset_Some. apply length_insert. Qed.

Lemma zget_insert l i j v :
  0 <= i < Z.of_nat (length l) → 0 <= j →
  zget (<[Z.to_nat i := v]> l) j = if decide (i = j) then Some v else zget l j.
Proof.
  intros. unfold zget. rewrite !(decide_True (P := 0 <= j)) by lia.
  case_decide; subst.
  - apply list_lookup_insert_eq. lia.
  - apply list_lookup_insert_ne. lia.
Qed.
End arrays.

(** ** Outcomes of kernel code

    [Done] is a normal return; [Fault] an access the C standard leaves
    undefined (an index outside an array, a null or dangling dereference);
    [Stuck] a wait that can never end: acquiring a lock that this very thread
    already holds. *)
Inductive res (A : Type) : Type :=
| Done (a : A)
| Fault
| Stuck.
Arguments Done {A} _.
Arguments Fault {A}.
Arguments Stuck {A}.

(** Kernel code over a state [S]. *)
Definition M (S A : Type) : Type := S → res (A * S).

Definition ret {S A} (a : A) : M S A := λ s, Done (a, s).
Definition bind {S A B} (m : M S A) (k : A → M S B) : M S B := λ s,
  match m s with
  | Done (a, s') => k a s'
  | Fault => Fault
  | Stuck => Stuck
  end.
Definition gets {S A} (f : S → A) : M S A := λ s, Done (f s, s).
Definition modify {S} (f : S → S) : M S unit := λ s, Done (tt, f s).
Definition faultM {S A} : M S A := λ _, Fault.
Definition of_opt {S A} (o : option A) : M S A := λ s,
  match o with Some a => Done (a, s) | None => Fault end.

Declare Scope prog_scope.
Delimit Scope prog_scope with prog.
Notation "x <- c ;; k" := (bind c (λ x, k))
  (at level 60, c at next level, right associativity) : prog_scope.
Notation "c ;;; k" := (bind c (λ _, k))
  (at level 60, right associativity) : prog_scope.

(** Running code of one component on its part of a larger state. *)
Definition zoom {S T A} (get : T → S) (put : S → T → T) (m : M S A) : M T A := λ t,
  match m (get t) with
  | Done (a, s') => Done (a, put s' t)
  | Fault => Fault
  | Stuck => Stuck
  end.

(** A spinlock acquired twice by the same thread spins for ever: the waiting
    loop of [spinlock_acquire_irqsave] runs with interrupts disabled. *)
Definition spin_acquire {S} (lock : S → bool) (set_lock : bool → S → S) : M S unit := λ s,
  if lock s then Stuck else Done (tt, set_lock true s).
Definition spin_release {S} (set_lock : bool → S → S) : M S unit := modify (set_lock false).

(** [for] loops over a list of indices. *)
Fixpoint for_each {S A} (body : A → M S unit) (l : list A) : M S unit :=
  match l with
  | [] => ret tt
  | x :: l' => bind (body x) (λ _, for_each body l')
  end.

Lemma bind_Done {S A B} (m : M S A) (k : A → M S B) s a s' :
  m s = Done (a, s') → bind m k s = k a s'.
Proof. unfold bind. by intros ->. Qed.

Lemma bind_inv {S A B} (m : M S A) (k : A → M S B) s b t :
  bind m k s = Done (b, t) → ∃ a s', m s = Done (a, s') ∧ k a s' = Done (b, t).
Proof. unfold bind. destruct (m s) as [[a s']| |]; [eauto|done|done]. Qed.

Lemma for_each_app {S A} (body : A → M S unit) l1 l2 s :
  for_each body (l1 ++ l2) s = bind (for_each body l1) (λ _, for_each body l2) s.
Proof.
  revert s. induction l1 as [|x l1 IH]; intros s; [done|].
  cbn [app for_each]. specialize (IH). unfold bind in *.
  destruct (body x s) as [[[] s']| |]; [apply IH|done|done].
Qed.

(** Invariant rule for [for_each]. *)
Lemma for_each_inv {S A} (P : list A → S → Prop) (body : A → M S unit) :
  (∀ x l s, P (x :: l) s → ∃ s', body x s = Done (tt, s') ∧ P l s') →
  ∀ l s, P l s → ∃ s', for_each body l s = Done (tt, s') ∧ P [] s'.
Proof.
  intros Hstep l. induction l as [|x l IH]; intros s HP; simpl.
  - by exists s.
  - destruct (Hstep x l s HP) as (s1 & H1 & HP1).
    destruct (IH s1 HP1) as (s2 & H2 & HP2).
    exists s2. split; [|done]. by rewrite (bind_Done _ _ _ _ _ H1).
Qed.

(** ** Total correctness

    [runs_to m s P]: [m] returns from [s], with a result and a state in [P]. *)
Definition runs_to {S A} (m : M S A) (s : S) (P : A → S → Prop) : Prop :=
  match m s with Done (a, s') => P a s' | _ => False end.

Section runs_to.
Context {S : Type}.
Implicit Types s : S.

Lemma runs_to_inv {A} (m : M S A) s P : runs_to m s P → ∃ a s', m s = Done (a, s') ∧ P a s'.
Proof. unfold runs_to. destruct (m s) as [[a s']| |]; [eauto|done|done]. Qed.
Lemma runs_Done {A} (m : M S A) s a s' (P : A → S → Prop) : m s = Done (a, s') → P a s' → runs_to m s P.
Proof. unfold runs_to. by intros ->. Qed.
Lemma runs_ret {A} (a : A) s (P : A → S → Prop) : P a s → runs_to (ret a) s P.
Proof. done. Qed.
Lemma runs_bind {A B} (m : M S A) (k : A → M S B) s P :
  runs_to m s (λ a s', runs_to (k a) s' P) → runs_to (bind m k) s P.
Proof. unfold runs_to, bind. by destruct (m s) as [[a s']| |]. Qed.
Lemma runs_mono {A} (m : M S A) s (P Q : A → S → Prop) :
  runs_to m s P → (∀ a s', P a s' → Q a s') → runs_to m s Q.
Proof. unfold runs_to. destruct (m s) as [[a s']| |]; eauto. Qed.
Lemma runs_for_each {A} (I : S → Prop) (body : A → M S unit) l s :
  (∀ x s, I s → runs_to (body x) s (λ _, I)) → I s → runs_to (for_each body l) s (λ _, I).
Proof.
  intros Hb. revert s. induction l as [|x l IH]; intros s Hs; [done|].
  apply runs_bind. eapply runs_mono; [by apply Hb|]. auto.
Qed.
End runs_to.

(** One call, the last of a sequence or not: [H] is its triple. *)
Ltac rlast H := eapply runs_mono; [eapply H|cbv beta].
Ltac rstep H := apply runs_bind; rlast H.

(** [seqZ] at both ends. *)
Lemma seqZ_snoc a n : 0 <= n → seqZ a (n + 1) = seqZ a n ++ [a + n].
Proof.
  intros. rewrite seqZ_app by lia. f_equal.
Qed.

(** Symbolic execution: unfold the monad and reduce. *)
Ltac munfold := cbv beta iota zeta delta [bind ret gets modify faultM of_opt
  spin_acquire spin_release].
Ltac munfold_in H := cbv beta iota zeta delta [bind ret gets modify faultM of_opt
  spin_acquire spin_release] in H.

(** One step of symbolic execution through [bind]. *)
Lemma bind_bind {S A B C} (m : M S A) (k : A → M S B) (h : B → M S C) (x : S) : bind (bind m k) h x = bind m (λ a, bind (k a) h) x.
Proof. unfold bind. by destruct (m x) as [[a s']| |]. Qed.
Ltac mstep H := rewrite (bind_Done _ _ _ _ _ H).
Ltac mret := unfold bind at 1, ret at 1; cbv beta iota.

Lemma lor_range n x y : 0 <= n → 0 <= x < 2 ^ n → 0 <= y < 2 ^ n → 0 <= Z.lor x y < 2 ^ n.
Proof.
  intros Hn Hx Hy. apply bits_range; [done|apply Z.lor_nonneg; lia|].
  intros i Hi. by rewrite Z.lor_spec, (testbit_small x n), (testbit_small y n).
Qed.

Lemma shiftl_lor a b n : 0 <= n → 0 <= b < 2 ^ n → Z.lor (Z.shiftl a n) b = a * 2 ^ n + b.
Proof.
  intros Hn Hb. rewrite <- Z.shiftl_mul_pow2 by done. rewrite <- Z.lxor_lor, Z.add_nocarry_lxor; [done| |].
  all: apply Z.bits_inj'; intros i Hi; rewrite Z.land_spec, Z.bits_0; destruct (Z.ltb_spec i n) as [H|H];
    [by rewrite Z.shiftl_spec_low|by rewrite (testbit_small b n), andb_false_r].
Qed.

Lemma has_pow2 x n : 0 <= n → has x (2 ^ n) = Z.testbit x n.
Proof.
  intros Hn. unfold has. destruct (Z.testbit x n) eqn:Hb.
  - destruct (Z.eqb_spec (Z.land x (2 ^ n)) 0) as [He|]; [|done].
    assert (Z.testbit (Z.land x (2 ^ n)) n = false) as Hf by (by rewrite He, Z.bits_0).
    rewrite Z.land_spec, Hb, Z.pow2_bits_true in Hf by done. done.
  - rewrite (proj2 (Z.eqb_eq _ _)); [done|]. apply Z.bits_inj'. intros i Hi.
    rewrite Z.land_spec, Z.bits_0. destruct (decide (i = n)) as [->|]; [by rewrite Hb|].
    rewrite Z.pow2_bits_false by congruence. apply andb_false_r.
Qed.

Lemma mod_inj N a i j : 0 < N → (a + i) mod N = (a + j) mod N → i <= j < i + N → i = j.
Proof.
  intros HN Heq Hij. apply Z.cong_iff_ex in Heq as [d Hd]. assert (d = 0) as -> by nia. lia.
Qed.
