(* ===== verification/Memory.v ===== *)
(** Byte-addressed memory shared by the components: the physical memory seen
    through the linear map ([P2V]), kernel buffers and C strings.  A memory is
    a total function from addresses to bytes; multi-byte objects are stored
    little-endian, the byte order of the machine. *)
From S2P Require Export Prelude.

Definition mem : Type := Z → Z.

Definition upd (m : mem) (a v : Z) : mem := λ x, if x =? a then v else m x.

(** [n]-byte little-endian load and store. *)
Fixpoint load_le (m : mem) (a : Z) (n : nat) : Z :=
  match n with
  | O => 0
  | S n' => m a + 256 * load_le m (a + 1) n'
  end.
Fixpoint store_le (m : mem) (a : Z) (n : nat) (v : Z) : mem :=
  match n with
  | O => m
  | S n' => store_le (upd m a (v mod 256)) (a + 1) n' (v / 256)
  end.

Definition load16 m a := load_le m a 2.
Definition load32 m a := load_le m a 4.
Definition load64 m a := load_le m a 8.
Definition store16 m a v := store_le m a 2 v.
Definition store32 m a v := store_le m a 4 v.
Definition store64 m a v := store_le m a 8 v.

(** The bytes of memory [a .. a+n-1]. *)
Definition bytes_at (m : mem) (a : Z) (n : nat) : list Z :=
  map (λ i, m (a + Z.of_nat i)) (seq 0 n).

(** Memories are compared address by address. *)
Definition mem_eq (m1 m2 : mem) : Prop := ∀ a, m1 a = m2 a.
Definition mem_ok (m : mem) : Prop := ∀ a, 0 <= m a < 256.

#[export] Instance mem_eq_equiv : Equivalence mem_eq.
Proof.
  split.
  - by intros m a.
  - intros m1 m2 H a. by rewrite H.
  - intros m1 m2 m3 H1 H2 a. by rewrite H1, H2.
Qed.

#[export] Instance upd_proper : Proper (mem_eq ==> eq ==> eq ==> mem_eq) upd.
Proof. intros m1 m2 H a ? <- v ? <- x. unfold upd. by rewrite H. Qed.

#[export] Instance load_le_proper : Proper (mem_eq ==> eq ==> eq ==> eq) load_le.
Proof.
  intros m1 m2 H a ? <- n ? <-. revert a.
  induction n as [|n IH]; intros a; simpl; [done|]. by rewrite H, IH.
Qed.

#[export] Instance store_le_proper :
  Proper (mem_eq ==> eq ==> eq ==> eq ==> mem_eq) store_le.
Proof.
  intros m1 m2 H a ? <- n ? <- v ? <-. revert m1 m2 a v H.
  induction n as [|n IH]; intros m1 m2 a v H; simpl; [done|].
  apply IH. by rewrite H.
Qed.

#[export] Instance bytes_at_proper : Proper (mem_eq ==> eq ==> eq ==> eq) bytes_at.
Proof.
  intros m1 m2 H a ? <- n ? <-. unfold bytes_at. apply map_ext. intros. apply H.
Qed.

Lemma upd_eq m a v : upd m a v a = v.
Proof. unfold upd. by rewrite Z.eqb_refl. Qed.
Lemma upd_ne m a v x : x ≠ a → upd m a v x = m x.
Proof. unfold upd. intros. by rewrite (proj2 (Z.eqb_neq x a)). Qed.

Lemma upd_ok m a v : mem_ok m → 0 <= v < 256 → mem_ok (upd m a v).
Proof. intros Hm Hv x. unfold upd. by destruct (x =? a). Qed.

Lemma store_le_out m a n v x :
  x < a ∨ a + Z.of_nat n <= x → store_le m a n v x = m x.
Proof.
  revert m a v. induction n as [|n IH]; intros m a v Hx; simpl; [done|].
  rewrite IH by lia. apply upd_ne. lia.
Qed.

Lemma store_le_ok m a n v : mem_ok m → mem_ok (store_le m a n v).
Proof.
  revert m a v. induction n as [|n IH]; intros m a v Hm; simpl; [done|].
  apply IH, upd_ok; [done|]. apply Z.mod_pos_bound. lia.
Qed.

Lemma load_le_ext m1 m2 a n :
  (∀ x, a <= x < a + Z.of_nat n → m1 x = m2 x) → load_le m1 a n = load_le m2 a n.
Proof.
  revert a. induction n as [|n IH]; intros a H; simpl; [done|].
  rewrite (H a) by lia. rewrite (IH (a + 1)); [done|]. intros. apply H. lia.
Qed.

Lemma load_le_range m a n : mem_ok m → 0 <= load_le m a n < 256 ^ Z.of_nat n.
Proof.
  intros Hm. revert a. induction n as [|n IH]; intros a; simpl load_le; [lia|].
  rewrite Nat2Z.inj_succ, Z.pow_succ_r by lia.
  pose proof (Hm a). pose proof (IH (a + 1)). lia.
Qed.

Lemma load_store_le m a n v : load_le (store_le m a n v) a n = v mod 256 ^ Z.of_nat n.
Proof.
  revert m a v. induction n as [|n IH]; intros m a v; simpl load_le; simpl store_le.
  { by rewrite Z.mod_1_r. }
  rewrite IH, store_le_out by lia. rewrite upd_eq.
  rewrite Nat2Z.inj_succ, Z.pow_succ_r by lia.
  rewrite (Z.rem_mul_r v 256 (256 ^ Z.of_nat n)); lia.
Qed.

Lemma load_store_le_ne m a n v b k :
  b + Z.of_nat k <= a ∨ a + Z.of_nat n <= b → load_le (store_le m a n v) b k = load_le m b k.
Proof. intros H. apply load_le_ext. intros x Hx. apply store_le_out. lia. Qed.

Lemma bytes_at_length m a n : length (bytes_at m a n) = n.
Proof. unfold bytes_at. by rewrite length_map, length_seq. Qed.

Lemma bytes_at_lookup m a n i : (i < n)%nat → bytes_at m a n !! i = Some (m (a + Z.of_nat i)).
Proof.
  intros Hi. unfold bytes_at. rewrite list_lookup_fmap.
  by rewrite lookup_seq_lt by done.
Qed.

Lemma load64_store64 m a v :
  0 <= v < 2 ^ 64 → load64 (store64 m a v) a = v.
Proof. intros. unfold load64, store64. rewrite load_store_le. by apply Z.mod_small. Qed.

Lemma load64_store64_ne m a v b :
  b + 8 <= a ∨ a + 8 <= b → load64 (store64 m a v) b = load64 m b.
Proof. intros. apply load_store_le_ne. lia. Qed.

Lemma load64_range m a : mem_ok m → 0 <= load64 m a < 2 ^ 64.
Proof. intros Hm. apply (load_le_range m a 8 Hm). Qed.

#[export] Hint Resolve upd_ok store_le_ok : cint.

(** ** Transfers

    [wrote val dst b m0 m]: in [m] the bytes at [dst 0, dst 1, ...] are [val 0,
    val 1, ...], [b] of them, and nothing else has changed since [m0]; [moved]
    when these bytes come from [src 0, src 1, ...]. *)
Definition wrote (val dst : Z → Z) (b : Z) (m0 m : mem) : Prop :=
  (∀ i, 0 <= i < b → m (dst i) = val i) ∧ (∀ y, (∀ i, 0 <= i < b → y ≠ dst i) → m y = m0 y).
Definition moved (src dst : Z → Z) (b : Z) (m0 m : mem) : Prop := wrote (λ i, m0 (src i)) dst b m0 m.

Lemma wrote_0 val dst m : wrote val dst 0 m m.
Proof. split; [lia|done]. Qed.
Lemma moved_0 src dst m : moved src dst 0 m m.
Proof. apply wrote_0. Qed.
(** One more byte. *)
Lemma wrote_snoc val dst b m0 m : wrote val dst b m0 m → 0 <= b →
  (∀ i, 0 <= i < b → dst i ≠ dst b) → wrote val dst (b + 1) m0 (upd m (dst b) (val b)).
Proof.
  intros [Hm Ho] Hb Hinj. split.
  - intros i Hi. destruct (decide (i = b)) as [->|]; [by rewrite upd_eq|].
    rewrite upd_ne by (apply Hinj; lia). apply Hm. lia.
  - intros y Hy. rewrite upd_ne by (apply Hy; lia). apply Ho. intros i Hi. apply Hy. lia.
Qed.

(** ** Little-endian byte lists *)

Fixpoint le_bytes (n : nat) (v : Z) : list Z :=
  match n with O => [] | S n' => v mod 256 :: le_bytes n' (v / 256) end.
Fixpoint of_le (l : list Z) : Z :=
  match l with [] => 0 | b :: l' => b + 256 * of_le l' end.
Fixpoint put_bytes (m : mem) (a : Z) (l : list Z) : mem :=
  match l with [] => m | b :: l' => put_bytes (upd m a b) (a + 1) l' end.

Lemma le_bytes_length n v : length (le_bytes n v) = n.
Proof. revert v. induction n as [|n IH]; intros v; simpl; [done|]. by rewrite IH. Qed.
Lemma of_le_bytes n v : of_le (le_bytes n v) = v mod 256 ^ Z.of_nat n.
Proof.
  revert v. induction n as [|n IH]; intros v; simpl of_le; [by rewrite Z.mod_1_r|].
  rewrite IH, Nat2Z.inj_succ, Z.pow_succ_r by lia. rewrite (Z.rem_mul_r v 256 (256 ^ Z.of_nat n)); lia.
Qed.
Lemma put_bytes_out m a l x : x < a ∨ a + Z.of_nat (length l) <= x → put_bytes m a l x = m x.
Proof.
  revert m a. induction l as [|b l IH]; intros m a Hx; simpl in *; [done|]. rewrite IH by lia. apply upd_ne. lia.
Qed.
Lemma put_bytes_in m a l i : (i < length l)%nat → put_bytes m a l (a + Z.of_nat i) = nth i l 0.
Proof.
  revert m a i. induction l as [|b l IH]; intros m a i Hi; simpl in *; [lia|]. destruct i as [|i].
  - rewrite Z.add_0_r, put_bytes_out by lia. apply upd_eq.
  - replace (a + Z.of_nat (S i)) with (a + 1 + Z.of_nat i) by lia. apply IH. lia.
Qed.
Lemma bytes_at_put m a l : bytes_at (put_bytes m a l) a (length l) = l.
Proof.
  apply list_eq. intros i. destruct (decide (i < length l)%nat) as [Hi|Hi].
  - rewrite bytes_at_lookup, put_bytes_in by done. symmetry. rewrite nth_lookup.
    destruct (lookup_lt_is_Some_2 l i Hi) as [b ->]. done.
  - rewrite !lookup_ge_None_2; [done|lia|rewrite bytes_at_length; lia].
Qed.
Lemma bytes_at_ext m m' a n : (∀ x, a <= x < a + Z.of_nat n → m' x = m x) → bytes_at m' a n = bytes_at m a n.
Proof.
  intros H. unfold bytes_at. apply map_ext_in. intros i Hi%in_seq. apply H. lia.
Qed.
Lemma bytes_at_app m a n1 n2 : bytes_at m a (n1 + n2) = bytes_at m a n1 ++ bytes_at m (a + Z.of_nat n1) n2.
Proof.
  unfold bytes_at. rewrite seq_app, map_app. f_equal. replace (0 + n1)%nat with (n1 + 0)%nat by lia.
  rewrite <- fmap_add_seq. change (Nat.add n1 <$> seq 0 n2) with (map (Nat.add n1) (seq 0 n2)). rewrite map_map. apply map_ext. intros i. f_equal. lia.
Qed.

(** A contiguous piece of a transfer. *)
Lemma put_bytes_wrote val dst m0 l : ∀ b m a, wrote val dst b m0 m → 0 <= b →
  (∀ i, 0 <= i < Z.of_nat (length l) → dst (b + i) = a + i) →
  (∀ i, 0 <= i < Z.of_nat (length l) → val (b + i) = nth (Z.to_nat i) l 0) →
  (∀ i j, 0 <= i < b + Z.of_nat (length l) → 0 <= j < b + Z.of_nat (length l) → dst i = dst j → i = j) →
  wrote val dst (b + Z.of_nat (length l)) m0 (put_bytes m a l).
Proof.
  induction l as [|c l IH]; intros b m a Hw Hb Hdst Hval Hinj; simpl; [by rewrite Z.add_0_r|].
  cbn [length] in *. replace (b + Z.of_nat (S (length l))) with (b + 1 + Z.of_nat (length l)) by lia.
  pose proof (Hdst 0 ltac:(lia)) as Hd0. pose proof (Hval 0 ltac:(lia)) as Hv0. rewrite Z.add_0_r in Hd0, Hv0. simpl in Hv0.
  rewrite Z.add_0_r in Hd0. apply IH; [|lia|..].
  - rewrite <- Hd0, <- Hv0. apply wrote_snoc; [done|done|]. intros i Hi Heq. apply Hinj in Heq; lia.
  - intros i Hi. replace (b + 1 + i) with (b + (i + 1)) by lia. rewrite Hdst by lia. lia.
  - intros i Hi. replace (b + 1 + i) with (b + (i + 1)) by lia. rewrite Hval by lia.
    by replace (Z.to_nat (i + 1)) with (S (Z.to_nat i)) by lia.
  - intros i j Hi Hj. apply Hinj; lia.
Qed.
