(* ===== verification/KString.v ===== *)
(** The kernel's string and memory routines, [lib/src/string.c], on the byte
    memory of [Memory].  Counted loops recurse on their counter; loops that
    scan for a terminator take a fuel and return [None] when it runs out. *)
From S2P Require Export Prelude Memory.

(** ** Definitions *)

(** [s ? s : ""], read at offset [i]: a null string reads as empty. *)
Definition byte_at (m : mem) (s i : Z) : Z := if s =? 0 then 0 else m (s + i).

Fixpoint strlen_loop (fuel : nat) (m : mem) (str len : Z) : option Z :=
  match fuel with
  | O => None
  | S f => if m (str + len) =? 0 then Some len else strlen_loop f m str (len + 1)
  end.
Definition strlen (fuel : nat) (m : mem) (str : Z) : option Z :=
  if str =? 0 then Some 0 else strlen_loop fuel m str 0.

(** [(a > b) - (a < b)]. *)
Definition cmp3 (a b : Z) : Z := (if b <? a then 1 else 0) - (if a <? b then 1 else 0).

Fixpoint strcmp_loop (fuel : nat) (m : mem) (s1 s2 i : Z) : option Z :=
  match fuel with
  | O => None
  | S f =>
      let a := byte_at m s1 i in
      let b := byte_at m s2 i in
      if negb (a =? 0) && (a =? b) then strcmp_loop f m s1 s2 (i + 1)
      else Some (cmp3 a b)
  end.
Definition strcmp (fuel : nat) (m : mem) (s1 s2 : Z) : option Z := strcmp_loop fuel m s1 s2 0.

Fixpoint strncmp_loop (n : nat) (m : mem) (s1 s2 i : Z) : Z :=
  match n with
  | O => 0
  | S n' =>
      let a := byte_at m s1 i in
      let b := byte_at m s2 i in
      if negb (a =? b) then cmp3 a b
      else if a =? 0 then 0 else strncmp_loop n' m s1 s2 (i + 1)
  end.
Definition strncmp (m : mem) (s1 s2 n : Z) : Z := strncmp_loop (Z.to_nat n) m s1 s2 0.

(** [while (n--) *d++ = *s++]. *)
Fixpoint copy_fwd (n : nat) (m : mem) (d s : Z) : mem :=
  match n with
  | O => m
  | S n' => copy_fwd n' (upd m d (m s)) (d + 1) (s + 1)
  end.
(** [while (n--) *(--d) = *(--s)], with [d] and [s] past the last byte. *)
Fixpoint copy_bwd (n : nat) (m : mem) (d s : Z) : mem :=
  match n with
  | O => m
  | S n' => copy_bwd n' (upd m (d - 1) (m (s - 1))) (d - 1) (s - 1)
  end.

Definition memcpy (m : mem) (dest src n : Z) : mem := copy_fwd (Z.to_nat n) m dest src.

Fixpoint memset_loop (n : nat) (m : mem) (d c : Z) : mem :=
  match n with
  | O => m
  | S n' => memset_loop n' (upd m d (u8 c)) (d + 1) c
  end.
Definition memset (m : mem) (dest c n : Z) : mem := memset_loop (Z.to_nat n) m dest c.

Definition memmove (m : mem) (dest src n : Z) : mem :=
  if dest <? src then copy_fwd (Z.to_nat n) m dest src
  else copy_bwd (Z.to_nat n) m (dest + n) (src + n).

Fixpoint memcmp_loop (n : nat) (m : mem) (s1 s2 : Z) : Z :=
  match n with
  | O => 0
  | S n' =>
      if negb (m s1 =? m s2) then cmp3 (m s1) (m s2)
      else memcmp_loop n' m (s1 + 1) (s2 + 1)
  end.
Definition memcmp (m : mem) (s1 s2 n : Z) : Z := memcmp_loop (Z.to_nat n) m s1 s2.

(** [while (n && ( *d++ = *src++ )) n--]: the memory, the final [d] and [n]. *)
Fixpoint ncopy (n : nat) (m : mem) (d s : Z) : mem * Z * nat :=
  match n with
  | O => (m, d, O)
  | S n' =>
      let c := m s in
      let m' := upd m d c in
      if c =? 0 then (m', d + 1, S n') else ncopy n' m' (d + 1) (s + 1)
  end.
Definition strncpy (m : mem) (dest src n : Z) : mem :=
  let '(m', d, n') := ncopy (Z.to_nat n) m dest src in
  match n' with
  | O => m'
  | S k => memset_loop k m' d 0   (* while (--n) *d++ = 0 *)
  end.

Definition strncat (fuel : nat) (m : mem) (dest src n : Z) : option mem :=
  match strlen fuel m dest with
  | None => None
  | Some l =>
      let '(m', d, n') := ncopy (Z.to_nat n) m (dest + l) src in
      Some (match n' with O => m' | S _ => upd m' d 0 end)
  end.

(** [while (( *d++ = *src++ ))]. *)
Fixpoint zcopy (fuel : nat) (m : mem) (d s : Z) : option mem :=
  match fuel with
  | O => None
  | S f =>
      let c := m s in
      let m' := upd m d c in
      if c =? 0 then Some m' else zcopy f m' (d + 1) (s + 1)
  end.
Definition strcpy (fuel : nat) (m : mem) (dest src : Z) : option mem := zcopy fuel m dest src.
Definition strcat (fuel : nat) (m : mem) (dest src : Z) : option mem :=
  match strlen fuel m dest with
  | None => None
  | Some l => zcopy fuel m (dest + l) src
  end.

(** [strchr]: the address of the first [c], 0 (NULL) when there is none; the
    terminator itself is never matched. *)
Fixpoint strchr (fuel : nat) (m : mem) (str c : Z) : option Z :=
  match fuel with
  | O => None
  | S f =>
      if m str =? 0 then Some 0
      else if m str =? u8 c then Some str else strchr f m (str + 1) c
  end.

Fixpoint strrchr_loop (fuel : nat) (m : mem) (str c last : Z) : option Z :=
  match fuel with
  | O => None
  | S f =>
      if m str =? 0 then Some last
      else strrchr_loop f m (str + 1) c (if m str =? u8 c then str else last)
  end.
Definition strrchr (fuel : nat) (m : mem) (str c : Z) : option Z := strrchr_loop fuel m str c 0.

(** [while ( *str && strchr(delim, *str)) str++], and the negated test. *)
Fixpoint skip_delim (fuel : nat) (want : bool) (m : mem) (delim str : Z) : option Z :=
  match fuel with
  | O => None
  | S f =>
      if m str =? 0 then Some str
      else match strchr f m delim (m str) with
           | None => None
           | Some p =>
               if Bool.eqb (negb (p =? 0)) want then skip_delim f want m delim (str + 1)
               else Some str
           end
  end.

(** [strtok_r(str, delim, &save)]: the token (0 for NULL), the memory and
    the save pointer. *)
Definition strtok_r (fuel : nat) (m : mem) (str delim save : Z) : option (Z * mem * Z) :=
  let str := if str =? 0 then save else str in
  if str =? 0 then Some (0, m, save)
  else match skip_delim fuel true m delim str with
       | None => None
       | Some start =>
           if m start =? 0 then Some (0, m, save)
           else match skip_delim fuel false m delim start with
                | None => None
                | Some e =>
                    if m e =? 0 then Some (start, m, e)
                    else Some (start, upd m e 0, e + 1)
                end
       end.

(** ** C strings *)

(** [l] is the string stored at [p]: its bytes are non-zero and a zero byte
    follows. *)
Fixpoint cstr (m : mem) (p : Z) (l : list Z) : Prop :=
  match l with
  | [] => m p = 0
  | c :: l' => 0 < c < 256 ∧ m p = c ∧ cstr m (p + 1) l'
  end.

(** Lexicographic order on strings, as [-1], [0] or [1]. *)
Fixpoint lex (l1 l2 : list Z) : Z :=
  match l1, l2 with
  | [], [] => 0
  | [], _ :: _ => -1
  | _ :: _, [] => 1
  | a :: l1', b :: l2' => if a <? b then -1 else if b <? a then 1 else lex l1' l2'
  end.

Lemma cstr_ext m1 m2 p l :
  (∀ x, p <= x <= p + Z.of_nat (length l) → m1 x = m2 x) → cstr m1 p l → cstr m2 p l.
Proof.
  revert p. induction l as [|c l IH]; intros p Hx; simpl.
  - intros <-. symmetry. apply Hx. simpl. lia.
  - intros (Hc & Hp & Hl). split_and!; [lia..| |].
    + rewrite <- Hp. symmetry. apply Hx. simpl. lia.
    + apply IH; [|done]. intros x ?. apply Hx. simpl. lia.
Qed.

Lemma cstr_app m p l1 l2 :
  cstr m p (l1 ++ l2) ↔
  (Forall (λ c, 0 < c < 256) l1 ∧ (∀ i c, l1 !! i = Some c → m (p + Z.of_nat i) = c)) ∧
  cstr m (p + Z.of_nat (length l1)) l2.
Proof.
  revert p. induction l1 as [|c l1 IH]; intros p; simpl.
  { rewrite Z.add_0_r. split; [|tauto]. intros. split; [|done].
    split; [constructor|]. intros i c. by rewrite lookup_nil. }
  rewrite IH, Forall_cons.
  replace (p + Z.of_nat (S (length l1))) with (p + 1 + Z.of_nat (length l1)) by lia.
  split.
  - intros (Hc & Hp & (Hf & Hl) & H2). split; [|done]. split; [done|].
    intros [|i] c' Hi; simpl in Hi; simplify_eq.
    + by rewrite Z.add_0_r.
    + rewrite <- (Hl i c' Hi). f_equal. lia.
  - intros ((Hf & Hl) & H2). destruct Hf as [Hc Hf].
    split; [done|]. split; [|split; [split; [done|]|done]].
    + rewrite <- (Hl 0%nat c eq_refl). f_equal. lia.
    + intros i c' Hi. rewrite <- (Hl (S i) c' Hi). f_equal. lia.
Qed.

Lemma cstr_end m p l : cstr m p l → m (p + Z.of_nat (length l)) = 0.
Proof.
  intros H. rewrite <- (app_nil_r l) in H. by apply cstr_app in H as [_ H].
Qed.

Lemma strlen_loop_spec m l : ∀ fuel p k,
  cstr m (p + k) l → (length l < fuel)%nat →
  strlen_loop fuel m p k = Some (k + Z.of_nat (length l)).
Proof.
  induction l as [|c l IH]; intros [|f] p k Hl Hf; simpl in *; try lia.
  - rewrite Hl. simpl. f_equal. lia.
  - destruct Hl as (Hc & Hp & Hl). rewrite Hp.
    rewrite (proj2 (Z.eqb_neq c 0)) by lia.
    rewrite IH; [f_equal; lia| |lia]. by rewrite Z.add_assoc.
Qed.

Lemma strlen_cstr fuel m p l :
  p ≠ 0 → cstr m p l → (length l < fuel)%nat →
  strlen fuel m p = Some (Z.of_nat (length l)).
Proof.
  intros Hp Hl Hf. unfold strlen. rewrite (proj2 (Z.eqb_neq p 0)) by done.
  rewrite (strlen_loop_spec m l); [done| |done]. by rewrite Z.add_0_r.
Qed.

Lemma byte_at_nonnull m p i : p ≠ 0 → byte_at m p i = m (p + i).
Proof. intros. unfold byte_at. by rewrite (proj2 (Z.eqb_neq p 0)). Qed.

Lemma cmp3_pos a b : b < a → cmp3 a b = 1.
Proof. intros. unfold cmp3. rewrite (proj2 (Z.ltb_lt b a)), (proj2 (Z.ltb_ge a b)); lia. Qed.
Lemma cmp3_neg a b : a < b → cmp3 a b = -1.
Proof. intros. unfold cmp3. rewrite (proj2 (Z.ltb_ge b a)), (proj2 (Z.ltb_lt a b)); lia. Qed.
Lemma cmp3_refl a : cmp3 a a = 0.
Proof. unfold cmp3. by rewrite Z.ltb_irrefl. Qed.

Lemma strcmp_loop_spec m p1 p2 l1 : ∀ l2 fuel k,
  p1 ≠ 0 → p2 ≠ 0 → cstr m (p1 + k) l1 → cstr m (p2 + k) l2 → (length l1 < fuel)%nat →
  strcmp_loop fuel m p1 p2 k = Some (lex l1 l2).
Proof.
  induction l1 as [|a l1 IH]; intros l2 [|f] k H1 H2 Hl1 Hl2 Hf; simpl in *; try lia;
    rewrite !byte_at_nonnull by done.
  - rewrite Hl1. simpl. destruct l2 as [|b l2]; simpl in Hl2.
    + by rewrite Hl2.
    + destruct Hl2 as (Hb & -> & _). by rewrite cmp3_neg by lia.
  - destruct Hl1 as (Ha & -> & Hl1). rewrite (proj2 (Z.eqb_neq a 0)) by lia. simpl.
    destruct l2 as [|b l2]; simpl in Hl2.
    + rewrite Hl2. rewrite (proj2 (Z.eqb_neq a 0)) by lia. by rewrite cmp3_pos by lia.
    + destruct Hl2 as (Hb & -> & Hl2).
      destruct (Z.eqb_spec a b) as [->|Hab].
      * rewrite Z.ltb_irrefl. apply IH; rewrite ?Z.add_assoc; auto; lia.
      * destruct (Z.ltb_spec a b); [by rewrite cmp3_neg|].
        rewrite (proj2 (Z.ltb_lt b a)), cmp3_pos by lia. done.
Qed.

Lemma copy_fwd_spec n : ∀ m d s x,
  (d <= s ∨ s + Z.of_nat n <= d) →
  copy_fwd n m d s x = if decide (d <= x < d + Z.of_nat n) then m (s + (x - d)) else m x.
Proof.
  induction n as [|n IH]; intros m d s x Hd; simpl.
  { rewrite decide_False by lia. done. }
  rewrite IH by lia. unfold upd.
  repeat case_decide; repeat (match goal with |- context [?a =? ?b] =>
    destruct (Z.eqb_spec a b) end); try lia; try (f_equal; lia).
Qed.

Lemma copy_bwd_spec n : ∀ m d s x,
  s <= d →
  copy_bwd n m d s x =
    if decide (d - Z.of_nat n <= x < d) then m (s + (x - d)) else m x.
Proof.
  induction n as [|n IH]; intros m d s x Hd; simpl.
  { rewrite decide_False by lia. done. }
  rewrite IH by lia. unfold upd.
  repeat case_decide; repeat (match goal with |- context [?a =? ?b] =>
    destruct (Z.eqb_spec a b) end); try lia; try (f_equal; lia).
Qed.

Lemma memcpy_at m d s n x :
  0 <= n → (d <= s ∨ s + n <= d) →
  memcpy m d s n x = if decide (d <= x < d + n) then m (s + (x - d)) else m x.
Proof. intros Hn Hd. unfold memcpy. rewrite copy_fwd_spec, Z2Nat.id by lia. done. Qed.

Lemma memcpy_out m d s n x : x < d → memcpy m d s n x = m x.
Proof.
  unfold memcpy. revert m d s. induction (Z.to_nat n) as [|f IH]; intros m d s Hx; simpl; [done|].
  rewrite IH by lia. apply upd_ne. lia.
Qed.

Lemma memset_loop_spec n : ∀ m d c x,
  memset_loop n m d c x = if decide (d <= x < d + Z.of_nat n) then u8 c else m x.
Proof.
  induction n as [|n IH]; intros m d c x; simpl.
  { rewrite decide_False by lia. done. }
  rewrite IH. unfold upd. repeat case_decide; destruct (Z.eqb_spec x d); lia || done.
Qed.

Lemma memset_at m d c n x :
  0 <= n → memset m d c n x = if decide (d <= x < d + n) then u8 c else m x.
Proof. intros. unfold memset. rewrite memset_loop_spec, Z2Nat.id by lia. done. Qed.

Lemma memset_ok m d c n : mem_ok m → 0 <= n → mem_ok (memset m d c n).
Proof. intros Hm Hn x. rewrite memset_at by done. case_decide; [apply u8_range|apply Hm]. Qed.

(** The bounded copy loop shared by [strncpy] and [strncat]. *)
Lemma ncopy_spec l : ∀ n m d s,
  cstr m s l → (d + Z.of_nat n <= s ∨ s + Z.of_nat (length l) < d) →
  ∃ m' d' n', ncopy n m d s = (m', d', n') ∧
    (n' = n - length l)%nat ∧
    d' = d + Z.of_nat (Nat.min n (S (length l))) ∧
    ∀ x, m' x = if decide (d <= x < d') then nth (Z.to_nat (x - d)) l 0 else m x.
Proof.
  induction l as [|c l IH]; intros [|n] m d s Hl Hd; simpl in *.
  - do 3 eexists. split; [done|]. split; [lia|]. split; [lia|].
    intros x. rewrite decide_False by lia. done.
  - rewrite Hl. simpl. do 3 eexists. split; [done|]. split; [lia|]. split; [lia|].
    intros x. unfold upd. destruct (Z.eqb_spec x d) as [->|].
    + rewrite decide_True by lia. by rewrite Z.sub_diag.
    + rewrite decide_False by lia. done.
  - do 3 eexists. split; [done|]. split; [lia|]. split; [lia|].
    intros x. rewrite decide_False by lia. done.
  - destruct Hl as (Hc & -> & Hl). rewrite (proj2 (Z.eqb_neq c 0)) by lia.
    destruct (IH n (upd m d c) (d + 1) (s + 1)) as (m' & d' & n' & -> & Hn & Hd' & Hm); [|lia|].
    { eapply cstr_ext; [|done]. intros x Hx. symmetry. apply upd_ne. lia. }
    do 3 eexists. split; [done|]. split; [lia|]. split; [lia|].
    intros x. rewrite Hm. unfold upd. destruct (Z.eqb_spec x d) as [->|].
    + rewrite decide_False, decide_True by lia. by rewrite Z.sub_diag.
    + destruct (decide (d + 1 <= x < d')).
      * rewrite decide_True by lia.
        by replace (Z.to_nat (x - d)) with (S (Z.to_nat (x - (d + 1)))) by lia.
      * by rewrite decide_False by lia.
Qed.

Lemma strncpy_at m dest src n l x :
  0 <= n → cstr m src l → (dest + n <= src ∨ src + Z.of_nat (length l) < dest) →
  strncpy m dest src n x =
    if decide (dest <= x < dest + n) then nth (Z.to_nat (x - dest)) l 0 else m x.
Proof.
  intros Hn Hl Hd. unfold strncpy.
  destruct (ncopy_spec l (Z.to_nat n) m dest src Hl) as (m' & d' & n' & -> & Hn' & Hd' & Hm); [lia|].
  destruct n' as [|k].
  - rewrite Hm. repeat case_decide; lia || done.
  - rewrite memset_loop_spec, Hm. change (u8 0) with 0.
    repeat case_decide; try lia; try done.
    rewrite nth_overflow; [done|lia].
Qed.

Lemma strchr_cstr m l : ∀ fuel p c,
  0 < p → cstr m p l → (length l < fuel)%nat →
  ∃ q, strchr fuel m p c = Some q ∧ (q ≠ 0 ↔ u8 c ∈ l).
Proof.
  induction l as [|b l IH]; intros [|f] p c Hp Hl Hf; simpl in *; try lia.
  - rewrite Hl. exists 0. split; [done|]. rewrite list_elem_of_In. simpl. lia.
  - destruct Hl as (Hb & -> & Hl). rewrite (proj2 (Z.eqb_neq b 0)) by lia.
    destruct (Z.eqb_spec b (u8 c)) as [->|Hne].
    + exists p. split; [done|]. split; [|lia]. intros _. by left.
    + destruct (IH f (p + 1) c) as (q & -> & Hq); [lia|done|lia|].
      exists q. split; [done|]. rewrite Hq, elem_of_cons. intuition congruence.
Qed.

Lemma skip_delim_spec m ds delim (want : bool) b a : ∀ fuel p,
  0 < delim → cstr m delim ds → cstr m p (a ++ b) →
  Forall (λ c, if want then c ∈ ds else c ∉ ds) a →
  match b with [] => True | c :: _ => if want then c ∉ ds else c ∈ ds end →
  (length a + length ds + 1 < fuel)%nat →
  skip_delim fuel want m delim p = Some (p + Z.of_nat (length a)).
Proof.
  intros fuel p Hd Hds. revert fuel p.
  induction a as [|c a IH]; intros [|f] p Hp Ha Hb Hf; simpl in *; try lia.
  - rewrite Z.add_0_r. destruct b as [|c b]; simpl in Hp.
    { by rewrite Hp. }
    destruct Hp as (Hc & Hm & _). rewrite Hm, (proj2 (Z.eqb_neq c 0)) by lia.
    destruct (strchr_cstr m ds f delim c) as (q & -> & Hq); [done..|lia|].
    rewrite u8_id in Hq by lia.
    destruct (Z.eqb_spec q 0), want; simpl; try done; exfalso; tauto.
  - destruct Hp as (Hc & Hm & Hp). rewrite Hm, (proj2 (Z.eqb_neq c 0)) by lia.
    apply Forall_cons in Ha as [Hca Ha].
    destruct (strchr_cstr m ds f delim c) as (q & -> & Hq); [done..|lia|].
    rewrite u8_id in Hq by lia.
    assert (Bool.eqb (negb (q =? 0)) want = true) as ->.
    { destruct (Z.eqb_spec q 0), want; simpl; try done; exfalso; tauto. }
    rewrite IH by (done || lia). f_equal. lia.
Qed.

Lemma cstr_store_end m p l1 c l2 :
  cstr m p (l1 ++ c :: l2) →
  cstr (upd m (p + Z.of_nat (length l1)) 0) p l1.
Proof.
  intros [[Hf Hl] Hc]%cstr_app.
  rewrite <- (app_nil_r l1) at 2. apply cstr_app. split; [split|].
  - done.
  - intros i c' Hi. rewrite upd_ne; [by apply Hl|]. apply lookup_lt_Some in Hi. lia.
  - simpl. apply upd_eq.
Qed.

(** [strtok_r] splits off one token.  On a string made of delimiters, a
    non-empty run of other bytes and a rest, it returns the address of the run,
    terminates it in place, and saves the position from which the next call
    continues: the byte after the delimiter that ended the run, or the
    terminating zero when the string is used up. *)
Theorem strtok_r_token fuel m p delim save ds sk tok rest :
  0 < p → 0 < delim →
  cstr m delim ds → cstr m p (sk ++ tok ++ rest) →
  Forall (λ c, c ∈ ds) sk → Forall (λ c, c ∉ ds) tok → tok ≠ [] →
  match rest with [] => True | c :: _ => c ∈ ds end →
  (length sk + length tok + length ds + 1 < fuel)%nat →
  ∃ m' e, strtok_r fuel m p delim save = Some (p + Z.of_nat (length sk), m', e) ∧
    cstr m' (p + Z.of_nat (length sk)) tok ∧
    cstr m' e (tail rest) ∧
    ∀ x, x ≠ p + Z.of_nat (length sk + length tok) → m' x = m x.
Proof.
  intros Hp Hdl Hds Hs Hsk Htok Hne Hrest Hf. unfold strtok_r.
  rewrite (proj2 (Z.eqb_neq p 0)) by lia. rewrite (proj2 (Z.eqb_neq p 0)) by lia.
  rewrite (skip_delim_spec m ds delim true (tok ++ rest) sk) by
    (done || lia || (destruct tok; [done|]; by apply Forall_cons in Htok as [? _])).
  apply cstr_app in Hs as [_ Hs].
  set (q := p + Z.of_nat (length sk)) in *.
  assert (m q ≠ 0) as Hq.
  { destruct tok as [|c tok]; [done|]. destruct Hs as (? & -> & _). lia. }
  rewrite (proj2 (Z.eqb_neq (m q) 0)) by done.
  rewrite (skip_delim_spec m ds delim false rest tok) by (done || lia).
  destruct rest as [|c rest]; simpl tail.
  - rewrite app_nil_r in Hs. rewrite (cstr_end _ _ _ Hs). simpl.
    exists m, (q + Z.of_nat (length tok)). split_and!; [done|done| |done].
    simpl. by apply cstr_end.
  - pose proof Hs as [_ (Hc & -> & Hr)]%cstr_app.
    rewrite (proj2 (Z.eqb_neq c 0)) by lia.
    exists (upd m (q + Z.of_nat (length tok)) 0), (q + Z.of_nat (length tok) + 1).
    split_and!; [done|by eapply cstr_store_end| |].
    + eapply cstr_ext; [|done]. intros x Hx. symmetry. apply upd_ne. lia.
    + intros x Hx. apply upd_ne. subst q. lia.
Qed.

(** The path ["/a//b"] at address 100, the delimiter string ["/"] at 50. *)
Definition tok_mem : mem := λ x,
  if x =? 50 then 47 else if x =? 100 then 47 else if x =? 101 then 97
  else if x =? 102 then 47 else if x =? 103 then 47 else if x =? 104 then 98 else 0.

Lemma strtok_r_token_witness :
  ∃ m' e, strtok_r 9 tok_mem 100 50 0 = Some (101, m', e) ∧ cstr m' 101 [97] ∧
    cstr m' e [47; 98].
Proof.
  destruct (strtok_r_token 9 tok_mem 100 50 0 [47] [47] [97] [47; 47; 98])
    as (m' & e & H1 & H2 & H3 & _).
  - lia.
  - lia.
  - split; [lia|]. split; reflexivity.
  - simpl. split_and!; lia || reflexivity.
  - repeat constructor.
  - constructor; [|constructor]. intros H. apply list_elem_of_singleton in H. lia.
  - discriminate.
  - by left.
  - simpl. lia.
  - exists m', e. split_and!; assumption.
Defined.

(** [memmove] copies correctly whatever the overlap: after the call the
    destination holds the bytes the source had before it, and nothing else
    changed. *)
Theorem memmove_correct m dest src n x :
  0 <= n →
  memmove m dest src n x = if decide (dest <= x < dest + n) then m (src + (x - dest)) else m x.
Proof.
  intros Hn. unfold memmove. destruct (Z.ltb_spec dest src).
  - rewrite copy_fwd_spec, Z2Nat.id by lia. done.
  - rewrite copy_bwd_spec, Z2Nat.id by lia.
    replace (dest + n - n) with dest by lia.
    case_decide; [f_equal; lia|done].
Qed.

Lemma memmove_correct_witness : memmove (λ x, x) 12 10 5 16 = 14.
Proof. rewrite (memmove_correct (λ x, x) 12 10 5 16); [reflexivity|lia]. Defined.

(** [strcmp] decides the lexicographic order of two C strings. *)
Theorem strcmp_lex fuel m p1 p2 l1 l2 :
  p1 ≠ 0 → p2 ≠ 0 → cstr m p1 l1 → cstr m p2 l2 → (length l1 < fuel)%nat →
  strcmp fuel m p1 p2 = Some (lex l1 l2).
Proof.
  intros. unfold strcmp. apply strcmp_loop_spec; rewrite ?Z.add_0_r; done.
Qed.

Lemma strcmp_lex_witness : strcmp 5 tok_mem 101 104 = Some (lex [97; 47; 47; 98] [98]).
Proof.
  apply (strcmp_lex 5 tok_mem 101 104).
  - lia.
  - lia.
  - simpl. split_and!; lia || reflexivity.
  - simpl. split_and!; lia || reflexivity.
  - simpl. lia.
Defined.

Lemma lex_eq l1 l2 : lex l1 l2 = 0 ↔ l1 = l2.
Proof.
  revert l2. induction l1 as [|a l1 IH]; intros [|b l2]; simpl; try (split; congruence || lia).
  destruct (Z.ltb_spec a b); [split; [lia|intros; simplify_eq; lia]|].
  destruct (Z.ltb_spec b a); [split; [lia|intros; simplify_eq; lia]|].
  rewrite IH. split; [intros ->; f_equal; lia|by intros [= ]].
Qed.

(** [strncat] leaves its result without a terminator when the source has
    at least [n] characters: the byte after the [n] appended ones keeps its old
    value (the C library function writes a zero there). *)
Theorem strncat_unterminated fuel m dest src l1 l2 n m' :
  dest ≠ 0 → cstr m dest l1 → cstr m src l2 → (length l1 < fuel)%nat →
  0 < n <= Z.of_nat (length l2) → dest + Z.of_nat (length l1) + n <= src →
  strncat fuel m dest src n = Some m' →
  m' (dest + Z.of_nat (length l1) + n) = m (dest + Z.of_nat (length l1) + n) ∧
  ∀ i, 0 <= i < n → m' (dest + Z.of_nat (length l1) + i) = nth (Z.to_nat i) l2 0.
Proof.
  intros Hd H1 H2 Hf Hn Hs. unfold strncat. rewrite (strlen_cstr fuel m dest l1) by done.
  destruct (ncopy_spec l2 (Z.to_nat n) m (dest + Z.of_nat (length l1)) src H2)
    as (mc & d' & n' & -> & Hn' & Hd' & Hm); [lia|].
  assert (n' = 0)%nat as -> by lia. intros [= <-].
  split.
  - rewrite Hm, decide_False by lia. done.
  - intros i Hi. rewrite Hm, decide_True by lia. do 2 f_equal. lia.
Qed.

Lemma strncat_unterminated_witness :
  ∃ m', strncat 9 (upd tok_mem 22 7) 20 101 2 = Some m' ∧ m' 22 = 7.
Proof.
  eexists. split; [reflexivity|].
  apply (strncat_unterminated 9 (upd tok_mem 22 7) 20 101 [] [97; 47; 47; 98] 2).
  - lia.
  - reflexivity.
  - simpl. split_and!; lia || reflexivity.
  - simpl. lia.
  - simpl. lia.
  - simpl. lia.
  - reflexivity.
Defined.
