(* ===== verification/Dtb.v ===== *)
(** The flattened device tree reader, [kernel/arch/aarch64/cpu/dtb.c].

    The blob lies in the byte memory of [Memory]; the two statics of the file
    are the record [dtb].  Every loop of the file scans the blob, so all of
    them take one [fuel], and a blob of [totalsize] bytes is read with any
    fuel above [totalsize]: [dtb_get_property_finds] states the answer
    outright.  The specification is a tree ([dnode]) and the search on it
    ([dt_find]); [fdt_at] says that memory holds the tree in the flattened
    format, with any number of [FDT_NOP] tokens in between.  The console
    messages of [dtb_init] are left out. *)
From S2P Require Export Prelude Memory KString.

(** ** Definitions *)

Definition FDT_MAGIC : Z := 0xD00DFEED.
Definition FDT_BEGIN_NODE : Z := 1.
Definition FDT_END_NODE : Z := 2.
Definition FDT_PROP : Z := 3.
Definition FDT_NOP : Z := 4.
Definition FDT_END : Z := 9.

(** [fdt_header_t]: the fields the file reads. *)
Definition hdr_magic (m : mem) (h : Z) : Z := load32 m h.
Definition hdr_totalsize (m : mem) (h : Z) : Z := load32 m (h + 4).
Definition hdr_off_dt_struct (m : mem) (h : Z) : Z := load32 m (h + 8).
Definition hdr_off_dt_strings (m : mem) (h : Z) : Z := load32 m (h + 12).

(** The statics of the file. *)
Record dtb := mk_dtb { dtb_base : Z; strings_ptr : Z }.

Definition be2le32 (x : Z) : Z :=
  Z.lor (Z.lor (Z.land (Z.shiftr x 24) 0xFF) (Z.land (u32 (Z.shiftl x 8)) 0xFF0000))
    (Z.lor (Z.land (Z.shiftr x 8) 0xFF00) (Z.land (u32 (Z.shiftl x 24)) 0xFF000000)).

Definition be2le64 (x : Z) : Z :=
  let hi := be2le32 (u32 (Z.shiftr x 32)) in
  let lo := be2le32 (u32 (Z.land x 0xFFFFFFFF)) in
  Z.lor (u64 (Z.shiftl lo 32)) hi.

Definition dtb_init (m : mem) (g : dtb) (dtb_addr : Z) : dtb :=
  if negb (be2le32 (hdr_magic m dtb_addr) =? FDT_MAGIC) then g
  else mk_dtb dtb_addr (dtb_addr + be2le32 (hdr_off_dt_strings m dtb_addr)).

(** [(ptr + 3) & ~3]. *)
Definition align4 (ptr : Z) : Z := Z.land (ptr + 3) (Z.lnot 3).

Section Reader.
Context (fuel : nat) (m : mem).

Fixpoint skip_name_loop (n : nat) (ptr : Z) : option Z :=
  match n with
  | O => None
  | S n' => if m ptr =? 0 then Some ptr else skip_name_loop n' (ptr + 1)
  end.
Definition skip_node_name (ptr : Z) : option Z :=
  ptr ← skip_name_loop fuel ptr; Some (align4 (ptr + 1)).

(** The new [*iter], the new [*out_len] and the returned data (0 for NULL). *)
Fixpoint find_prop_loop (n : nat) (g : dtb) (target_prop out_len ptr : Z) : option (Z * Z * Z) :=
  match n with
  | O => None
  | S n' =>
      let token := be2le32 (load32 m ptr) in
      let ptr := ptr + 4 in
      if token =? FDT_PROP then
        let len := be2le32 (load32 m ptr) in
        let ptr := ptr + 4 in
        let nameoff := be2le32 (load32 m ptr) in
        let ptr := ptr + 4 in
        let prop_name := strings_ptr g + nameoff in
        let data := ptr in
        let ptr := align4 (ptr + len) in
        r ← strcmp fuel m prop_name target_prop;
        if r =? 0 then Some (ptr, len, data) else find_prop_loop n' g target_prop out_len ptr
      else if token =? FDT_NOP then find_prop_loop n' g target_prop out_len ptr
      else Some (ptr - 4, out_len, 0)
  end.
Definition find_prop_in_node (g : dtb) (iter target_prop out_len : Z) : option (Z * Z * Z) :=
  find_prop_loop fuel g target_prop out_len iter.

(** [while ( *temp_a && *temp_b && *temp_a == *temp_b)]: the final [temp_b]. *)
Fixpoint common_prefix (n : nat) (temp_a temp_b : Z) : option Z :=
  match n with
  | O => None
  | S n' =>
      if negb (m temp_a =? 0) && negb (m temp_b =? 0) && (m temp_a =? m temp_b)
      then common_prefix n' (temp_a + 1) (temp_b + 1) else Some temp_b
  end.
(** The "simple substring check". *)
Fixpoint name_matches (n : nat) (a b : Z) : option bool :=
  match n with
  | O => None
  | S n' =>
      if m a =? 0 then Some false
      else temp_b ← common_prefix fuel a b;
           if m temp_b =? 0 then Some true else name_matches n' (a + 1) b
  end.

Fixpoint get_property_loop (n : nat) (g : dtb) (node_name prop_name out_buf buf_len depth ptr : Z)
    : option (mem * Z) :=
  match n with
  | O => None
  | S n' =>
      let token := be2le32 (load32 m ptr) in
      let ptr := ptr + 4 in
      if token =? FDT_END then Some (m, 0)
      else if token =? FDT_BEGIN_NODE then
        let name := ptr in
        ptr ← skip_node_name ptr;
        is_match ← name_matches fuel name node_name;
        if is_match : bool then
          '(ptr, len, data) ← find_prop_in_node g ptr prop_name 0;
          if negb (data =? 0) then
            let copy_len := if len <? buf_len then len else buf_len in
            Some (memcpy m out_buf data copy_len, i32 copy_len)
          else get_property_loop n' g node_name prop_name out_buf buf_len (i32 (depth + 1)) ptr
        else get_property_loop n' g node_name prop_name out_buf buf_len (i32 (depth + 1)) ptr
      else if token =? FDT_END_NODE then
        get_property_loop n' g node_name prop_name out_buf buf_len (i32 (depth - 1)) ptr
      else if token =? FDT_PROP then
        let len := be2le32 (load32 m ptr) in
        get_property_loop n' g node_name prop_name out_buf buf_len depth (align4 (ptr + 4 + 4 + len))
      else get_property_loop n' g node_name prop_name out_buf buf_len depth ptr
  end.

(** [ptr = dtb_base + be2le32(header->off_dt_struct)]. *)
Definition struct_ptr (g : dtb) : Z := dtb_base g + be2le32 (hdr_off_dt_struct m (dtb_base g)).

(** [dtb_get_property]: the memory with the copied bytes and the returned length. *)
Definition dtb_get_property (g : dtb) (node_name prop_name out_buf buf_len : Z) : option (mem * Z) :=
  if dtb_base g =? 0 then Some (m, 0)
  else get_property_loop fuel g node_name prop_name out_buf buf_len 0 (struct_ptr g).

(** [get_root_cells]: the final [*addr_cells] and [*size_cells]; [names] are
    the addresses of the literals "#address-cells" and "#size-cells". *)
Definition get_root_cells (g : dtb) (address_cells_lit size_cells_lit : Z) : option (Z * Z) :=
  if dtb_base g =? 0 then Some (2, 2)
  else
    let ptr := struct_ptr g in
    if negb (be2le32 (load32 m ptr) =? FDT_BEGIN_NODE) then Some (2, 2)
    else
      ptr ← skip_node_name (ptr + 4);
      '(_, len, data) ← find_prop_in_node g ptr address_cells_lit 0;
      let addr_cells := if negb (data =? 0) && (len =? 4) then be2le32 (load32 m data) else 2 in
      '(_, len, data) ← find_prop_in_node g ptr size_cells_lit len;
      let size_cells := if negb (data =? 0) && (len =? 4) then be2le32 (load32 m data) else 2 in
      Some (addr_cells, size_cells).

(** The body [dtb_get_model] and [dtb_get_compatible] share: the memory and
    the returned length. *)
Definition copy_root_string (g : dtb) (prop_lit buf buf_len : Z) : option (mem * Z) :=
  if dtb_base g =? 0 then Some (m, 0)
  else
    let ptr := struct_ptr g in
    if negb (be2le32 (load32 m ptr) =? FDT_BEGIN_NODE) then Some (m, 0)
    else
      ptr ← skip_node_name (ptr + 4);
      '(_, len, data) ← find_prop_in_node g ptr prop_lit 0;
      if negb (data =? 0) && (0 <? len) then
        let copy_len := if len <? buf_len then len else u32 (buf_len - 1) in
        Some (upd (memcpy m buf data copy_len) (buf + copy_len) 0, i32 copy_len)
      else Some (m, 0).

Fixpoint cpu_count_loop (n : nat) (count ptr : Z) : option Z :=
  match n with
  | O => None
  | S n' =>
      let token := be2le32 (load32 m ptr) in
      let ptr := ptr + 4 in
      if token =? FDT_END then Some count
      else if token =? FDT_BEGIN_NODE then
        let name := ptr in
        ptr ← skip_node_name ptr;
        if (m name =? 99) && (m (name + 1) =? 112) && (m (name + 2) =? 117) && (m (name + 3) =? 64)
        then cpu_count_loop n' (i32 (count + 1)) ptr
        else cpu_count_loop n' count ptr
      else if token =? FDT_PROP then
        let len := be2le32 (load32 m ptr) in
        cpu_count_loop n' count (align4 (ptr + u32 (8 + len)))
      else cpu_count_loop n' count ptr
  end.
Definition dtb_get_cpu_count (g : dtb) : option Z :=
  if dtb_base g =? 0 then Some 1
  else count ← cpu_count_loop fuel 0 (struct_ptr g);
       Some (if negb (count =? 0) then count else 1).

End Reader.

Definition dtb_get_model fuel m g model_lit buf buf_len := copy_root_string fuel m g model_lit buf buf_len.
Definition dtb_get_compatible fuel m g compatible_lit buf buf_len :=
  copy_root_string fuel m g compatible_lit buf buf_len.

(** The string literals of the file, by their addresses. *)
Record dtb_lits := mk_lits {
  lit_address_cells : Z; lit_size_cells : Z; lit_reg : Z; lit_memory : Z; lit_cpu : Z; lit_clock : Z }.

(** The three callers of [dtb_get_property]; [buffer] is the address of their
    local array. *)
Definition dtb_get_reg (fuel : nat) (m : mem) (g : dtb) (L : dtb_lits) (buffer node_name : Z) : option Z :=
  '(addr_cells, _) ← get_root_cells fuel m g (lit_address_cells L) (lit_size_cells L);
  '(m, r) ← dtb_get_property fuel m g node_name (lit_reg L) buffer 16;
  Some (if negb (r =? 0) then
          if addr_cells =? 1 then be2le32 (load32 m buffer)
          else if addr_cells =? 2 then be2le64 (load64 m buffer) else 0
        else 0).

Definition dtb_get_memory_size (fuel : nat) (m : mem) (g : dtb) (L : dtb_lits) (buffer : Z) : option Z :=
  '(addr_cells, size_cells) ← get_root_cells fuel m g (lit_address_cells L) (lit_size_cells L);
  '(m, len) ← dtb_get_property fuel m g (lit_memory L) (lit_reg L) buffer 16;
  Some (if 0 <? len then
          let ptr := buffer + u32 (addr_cells * 4) in
          if size_cells =? 1 then be2le32 (load32 m ptr)
          else if size_cells =? 2 then be2le64 (load64 m ptr) else 0
        else 0).

Definition dtb_get_cpu_freq (fuel : nat) (m : mem) (g : dtb) (L : dtb_lits) (buffer : Z) : option Z :=
  '(m, r) ← dtb_get_property fuel m g (lit_cpu L) (lit_clock L) buffer 4;
  Some (if negb (r =? 0) then be2le32 (load32 m buffer) else 0).

(** ** The tree and its flattened form *)

(** The big-endian value of a byte string. *)
Definition be_val (l : list Z) : Z := fold_left (λ acc b, 256 * acc + b) l 0.
Definition be32 (m : mem) (a : Z) : Z := be_val (bytes_at m a 4).

Inductive dnode := DNode (name : list Z) (props : list (list Z * list Z)) (children : list dnode).

Fixpoint assoc (ps : list (list Z * list Z)) (prop : list Z) : option (list Z) :=
  match ps with
  | [] => None
  | (k, d) :: ps' => if decide (k = prop) then Some d else assoc ps' prop
  end.
Fixpoint prefixb (sub name : list Z) : bool :=
  match sub, name with
  | [], _ => true
  | _ :: _, [] => false
  | x :: sub', y :: name' => (x =? y) && prefixb sub' name'
  end.
(** Some non-empty suffix of [name] starts with [sub]. *)
Fixpoint contains (name sub : list Z) : bool :=
  match name with
  | [] => false
  | _ :: name' => prefixb sub name || contains name' sub
  end.
Section First.
Context {A B : Type} (f : A → option B).
Fixpoint first_some (l : list A) : option B :=
  match l with [] => None | x :: l' => match f x with Some b => Some b | None => first_some l' end end.
End First.

(** The property [prop] of the first node, in document order, whose name
    contains [node] and which has that property. *)
Fixpoint dt_find (t : dnode) (node prop : list Z) : option (list Z) :=
  match t with
  | DNode name props children =>
      match (if contains name node then assoc props prop else None) with
      | Some d => Some d
      | None => first_some (λ c, dt_find c node prop) children
      end
  end.
(** The number of nodes whose name starts with [pre]. *)
Fixpoint dt_count (pre : list Z) (t : dnode) : Z :=
  match t with
  | DNode name _ children => (if prefixb pre name then 1 else 0) + foldr Z.add 0 (map (dt_count pre) children)
  end.
Definition dt_props (t : dnode) : list (list Z * list Z) := match t with DNode _ ps _ => ps end.

Inductive item := IBegin (name : list Z) | IEnd | INop | IProp (name data : list Z).

Fixpoint flatten (t : dnode) : list item :=
  match t with
  | DNode name props children =>
      IBegin name :: map (λ p, IProp p.1 p.2) props ++ concat (map flatten children) ++ [IEnd]
  end.
Fixpoint strip_nops (l : list item) : list item :=
  match l with [] => [] | INop :: l' => strip_nops l' | i :: l' => i :: strip_nops l' end.

(** The next offset that is a multiple of four. *)
Definition pad4 (off : Z) : Z := (off + 3) / 4 * 4.

(** The items [l] lie at [p], in a blob of [base, lim) whose strings block is at [str]. *)
Fixpoint items_at (m : mem) (base str lim p : Z) (l : list item) : Prop :=
  match l with
  | [] => be32 m p = FDT_END ∧ p + 4 <= lim
  | IBegin name :: l' =>
      be32 m p = FDT_BEGIN_NODE ∧ cstr m (p + 4) name ∧
      items_at m base str lim (base + pad4 (p + 4 + Z.of_nat (length name) + 1 - base)) l'
  | IEnd :: l' => be32 m p = FDT_END_NODE ∧ items_at m base str lim (p + 4) l'
  | INop :: l' => be32 m p = FDT_NOP ∧ items_at m base str lim (p + 4) l'
  | IProp name data :: l' =>
      be32 m p = FDT_PROP ∧ be32 m (p + 4) = Z.of_nat (length data) ∧
      cstr m (str + be32 m (p + 8)) name ∧ str + be32 m (p + 8) + Z.of_nat (length name) < lim ∧
      bytes_at m (p + 12) (length data) = data ∧
      items_at m base str lim (base + pad4 (p + 12 + Z.of_nat (length data) - base)) l'
  end.

(** Memory holds the tree [t] as a flattened blob at [base]. *)
Definition fdt_at (m : mem) (base : Z) (t : dnode) : Prop :=
  mem_ok m ∧ 0 < base ∧ base mod 4 = 0 ∧ be32 m base = FDT_MAGIC ∧
  ∃ name its, strip_nops (IBegin name :: its) = flatten t ∧
    items_at m base (base + be32 m (base + 12)) (base + be32 m (base + 4)) (base + be32 m (base + 8))
      (IBegin name :: its).

(** *** Searching the items *)

(** The property in the run of properties at the head, and what follows the run. *)
Fixpoint node_prop (l : list item) (prop : list Z) : option (list Z) :=
  match l with
  | IProp k d :: l' => if decide (k = prop) then Some d else node_prop l' prop
  | INop :: l' => node_prop l' prop
  | _ => None
  end.
Fixpoint after_props (l : list item) : list item :=
  match l with
  | IProp _ _ :: l' | INop :: l' => after_props l'
  | _ => l
  end.
Fixpoint lookup_items (l : list item) (node prop : list Z) : option (list Z) :=
  match l with
  | [] => None
  | IBegin name :: l' =>
      match (if contains name node then node_prop l' prop else None) with
      | Some d => Some d
      | None => lookup_items l' node prop
      end
  | _ :: l' => lookup_items l' node prop
  end.
Fixpoint count_items (pre : list Z) (l : list item) : Z :=
  match l with
  | [] => 0
  | IBegin name :: l' => (if prefixb pre name then 1 else 0) + count_items pre l'
  | _ :: l' => count_items pre l'
  end.

(** ** Byte order *)

Lemma land_field y k : 0 <= k → Z.land y (Z.shiftl 255 k) = Z.shiftl (Z.land (Z.shiftr y k) 255) k.
Proof.
  intros Hk. apply Z.bits_inj'. intros i Hi. rewrite Z.land_spec, !Z.shiftl_spec, Z.land_spec by done.
  destruct (Z.ltb_spec i k); [by rewrite !(Z.testbit_neg_r _ (i - k)), !andb_false_r by lia|].
  rewrite Z.shiftr_spec by lia. f_equal. f_equal. lia.
Qed.
Lemma land_field_val y k : 0 <= k → Z.land y (Z.shiftl 255 k) = y / 2 ^ k mod 256 * 2 ^ k.
Proof.
  intros Hk. rewrite land_field, Z.shiftl_mul_pow2, Z.shiftr_div_pow2 by done.
  change 255 with (2 ^ 8 - 1). by rewrite land_ones_mod.
Qed.
Lemma be2le32_val b0 b1 b2 b3 : 0 <= b0 < 256 → 0 <= b1 < 256 → 0 <= b2 < 256 → 0 <= b3 < 256 →
  be2le32 (b0 + 256 * (b1 + 256 * (b2 + 256 * b3))) = 256 * (256 * (256 * b0 + b1) + b2) + b3.
Proof.
  intros H0 H1 H2 H3. unfold be2le32, u32. set (x := b0 + _).
  change 0xFF with (Z.shiftl 255 0). change 0xFF0000 with (Z.shiftl 255 16).
  change 0xFF00 with (Z.shiftl 255 8). change 0xFF000000 with (Z.shiftl 255 24).
  rewrite !land_field_val, !Z.shiftr_div_pow2, !Z.shiftl_mul_pow2 by lia.
  replace (x / 2 ^ 24 / 2 ^ 0 mod 256 * 2 ^ 0) with b3 by (subst x; zlia).
  replace ((x * 2 ^ 8) mod 2 ^ 32 / 2 ^ 16 mod 256 * 2 ^ 16) with (Z.shiftl b1 16) by (rewrite Z.shiftl_mul_pow2; subst x; zlia).
  replace (x / 2 ^ 8 / 2 ^ 8 mod 256 * 2 ^ 8) with (Z.shiftl b2 8) by (rewrite Z.shiftl_mul_pow2; subst x; zlia).
  replace ((x * 2 ^ 24) mod 2 ^ 32 / 2 ^ 24 mod 256 * 2 ^ 24) with (Z.shiftl b0 24) by (rewrite Z.shiftl_mul_pow2; subst x; zlia).
  replace (Z.lor (Z.lor b3 (Z.shiftl b1 16)) (Z.lor (Z.shiftl b2 8) (Z.shiftl b0 24)))
    with (Z.lor (Z.shiftl b0 24) (Z.lor (Z.shiftl b1 16) (Z.lor (Z.shiftl b2 8) b3))).
  2:{ apply Z.bits_inj'. intros i Hi. rewrite !Z.lor_spec. by repeat destruct (Z.testbit _ i). }
  rewrite (shiftl_lor b2 b3), (shiftl_lor b1), (shiftl_lor b0) by lia. lia.
Qed.
Lemma be2le32_load m a : mem_ok m → be2le32 (load32 m a) = be32 m a.
Proof.
  intros Hm. pose proof (Hm a). pose proof (Hm (a + 1)). pose proof (Hm (a + 1 + 1)). pose proof (Hm (a + 1 + 1 + 1)).
  unfold load32. cbn [load_le]. rewrite Z.mul_0_r, Z.add_0_r, be2le32_val by done.
  unfold be32, be_val, bytes_at. cbn [seq map fold_left].
  replace (a + Z.of_nat 0) with a by lia. replace (a + Z.of_nat 1) with (a + 1) by lia.
  replace (a + Z.of_nat 2) with (a + 1 + 1) by lia. replace (a + Z.of_nat 3) with (a + 1 + 1 + 1) by lia. lia.
Qed.
Lemma be32_range m a : mem_ok m → 0 <= be32 m a < 2 ^ 32.
Proof.
  intros Hm. unfold be32, be_val, bytes_at. cbn [seq map fold_left].
  pose proof (Hm (a + Z.of_nat 0)). pose proof (Hm (a + Z.of_nat 1)). pose proof (Hm (a + Z.of_nat 2)).
  pose proof (Hm (a + Z.of_nat 3)). lia.
Qed.
Lemma be_val_snoc l b : be_val (l ++ [b]) = 256 * be_val l + b.
Proof. unfold be_val. by rewrite fold_left_app. Qed.
Lemma be_val_app l1 l2 : be_val (l1 ++ l2) = be_val l1 * 256 ^ Z.of_nat (length l2) + be_val l2.
Proof.
  induction l2 as [|b l2 IH] using rev_ind; [rewrite app_nil_r; unfold be_val at 3; simpl; lia|].
  rewrite app_assoc, !be_val_snoc, IH, length_app, Nat2Z.inj_add, Z.pow_add_r by (simpl; lia).
  change (256 ^ Z.of_nat (length [b])) with 256. ring.
Qed.
Lemma load_le_app m a n1 n2 : load_le m a (n1 + n2) = load_le m a n1 + 256 ^ Z.of_nat n1 * load_le m (a + Z.of_nat n1) n2.
Proof.
  revert a. induction n1 as [|n IH]; intros a.
  - change (load_le m a 0) with 0. simpl. rewrite Z.add_0_r. destruct (load_le m a n2); lia.
  - cbn [load_le Nat.add]. rewrite IH, Nat2Z.inj_succ, Z.pow_succ_r by lia.
    replace (a + 1 + Z.of_nat n) with (a + Z.succ (Z.of_nat n)) by lia. ring.
Qed.
Lemma be2le64_load m a : mem_ok m → be2le64 (load64 m a) = be_val (bytes_at m a 8).
Proof.
  intros Hm. unfold be2le64, load64. change 8%nat with (4 + 4)%nat at 1 2. rewrite (load_le_app m a 4 4).
  pose proof (load_le_range m a 4 Hm) as H1. pose proof (load_le_range m (a + 4) 4 Hm) as H2.
  change (Z.of_nat 4) with 4 in *. change (256 ^ 4) with (2 ^ 32) in *.
  change (0xFFFFFFFF) with (2 ^ 32 - 1). rewrite land_ones_mod, Z.shiftr_div_pow2 by lia.
  replace ((load_le m a 4 + 2 ^ 32 * load_le m (a + 4) 4) / 2 ^ 32) with (load_le m (a + 4) 4) by zlia.
  replace ((load_le m a 4 + 2 ^ 32 * load_le m (a + 4) 4) mod 2 ^ 32) with (load_le m a 4) by zlia.
  rewrite !u32_id by lia. fold (load32 m a). fold (load32 m (a + 4)). rewrite !be2le32_load by done.
  pose proof (be32_range m a Hm). pose proof (be32_range m (a + 4) Hm). cbv zeta.
  rewrite u64_id by (rewrite Z.shiftl_mul_pow2 by lia; lia). rewrite shiftl_lor by lia.
  change 8%nat with (4 + 4)%nat. rewrite (bytes_at_app m a 4 4), be_val_app, bytes_at_length. unfold be32. by change (Z.of_nat 4) with 4.
Qed.

Lemma align4_pad base p : base mod 4 = 0 → align4 p = base + pad4 (p - base).
Proof.
  intros Hb. unfold align4, pad4.
  replace (Z.land (p + 3) (Z.lnot 3)) with ((p + 3) / 4 * 4); [zlia|].
  rewrite <- Z.ldiff_land. change (Z.ldiff (p + 3) 3) with (Z.ldiff (p + 3) (Z.ones 2)). rewrite Z.ldiff_ones_r, Z.shiftl_mul_pow2, Z.shiftr_div_pow2 by lia. done.
Qed.

(** ** Strings *)

Lemma skip_name_loop_spec m l : ∀ n p, cstr m p l → (length l < n)%nat →
  skip_name_loop m n p = Some (p + Z.of_nat (length l)).
Proof.
  induction l as [|c l IH]; intros [|n] p Hl Hn; simpl in *; try lia.
  - rewrite Hl. simpl. f_equal. lia.
  - destruct Hl as (Hc & -> & Hl). rewrite (proj2 (Z.eqb_neq c 0)) by lia.
    rewrite IH by (done || lia). f_equal. lia.
Qed.
Lemma skip_node_name_spec fuel m base p l : base mod 4 = 0 → cstr m p l → (length l < fuel)%nat →
  skip_node_name fuel m p = Some (base + pad4 (p + Z.of_nat (length l) + 1 - base)).
Proof.
  intros Hb Hl Hf. unfold skip_node_name. rewrite (skip_name_loop_spec m l) by done. simpl.
  by rewrite (align4_pad base) by done.
Qed.

Lemma common_prefix_spec m la : ∀ n a b lb, cstr m a la → cstr m b lb → (length la < n)%nat →
  ∃ q, common_prefix m n a b = Some q ∧ (m q =? 0) = prefixb lb la.
Proof.
  induction la as [|x la IH]; intros [|n] a b lb Ha Hb Hn; simpl in *; try lia.
  - rewrite Ha. simpl. exists b. split; [done|]. destruct lb as [|y lb]; simpl in Hb; [by rewrite Hb|].
    destruct Hb as (Hy & -> & _). simpl. apply Z.eqb_neq. lia.
  - destruct Ha as (Hx & Ea & Ha). rewrite Ea, (proj2 (Z.eqb_neq x 0)) by lia.
    destruct lb as [|y lb]; simpl in Hb |- *.
    + rewrite Hb. simpl. exists b. by rewrite Hb.
    + destruct Hb as (Hy & Eb & Hb). rewrite Eb, (proj2 (Z.eqb_neq y 0)) by lia. simpl.
      rewrite (Z.eqb_sym y x). destruct (Z.eqb_spec x y) as [->|Hne]; simpl.
      * apply (IH n (a + 1) (b + 1) lb Ha Hb). lia.
      * exists b. split; [done|]. rewrite Eb. apply Z.eqb_neq. lia.
Qed.
Lemma name_matches_spec fuel m la b lb : ∀ n a, cstr m a la → cstr m b lb →
  (length la < n)%nat → (length la < fuel)%nat → name_matches fuel m n a b = Some (contains la lb).
Proof.
  induction la as [|x la IH]; intros [|n] a Ha Hb Hn Hf; cbn [length] in *; try lia; cbn [name_matches].
  - cbn in Ha. by rewrite Ha.
  - destruct (common_prefix_spec m (x :: la) fuel a b lb Ha Hb) as (q & Hq & Hm); [cbn; lia|].
    rewrite Hq. destruct Ha as (Hx & -> & Ha). rewrite (proj2 (Z.eqb_neq x 0)) by lia.
    cbn [mbind option_bind]. rewrite Hm. cbn [contains]. destruct (prefixb lb (x :: la)); [done|].
    cbn [orb]. rewrite IH by (done || lia). done.
Qed.
Lemma strcmp_0 fuel m p1 p2 l1 l2 : p1 ≠ 0 → p2 ≠ 0 → cstr m p1 l1 → cstr m p2 l2 → (length l1 < fuel)%nat →
  ∃ r, strcmp fuel m p1 p2 = Some r ∧ (r =? 0) = bool_decide (l1 = l2).
Proof.
  intros. exists (lex l1 l2). split.
  - apply strcmp_loop_spec; rewrite ?Z.add_0_r; auto.
  - case_bool_decide as E; [by apply Z.eqb_eq, lex_eq|]. apply Z.eqb_neq. by rewrite lex_eq.
Qed.

(** ** The loops on the items *)

Lemma pad4_ge x : x <= pad4 x.
Proof. unfold pad4. zlia. Qed.
Lemma items_bound m base str lim l : ∀ p, items_at m base str lim p l → p + 4 * (1 + Z.of_nat (length l)) <= lim.
Proof.
  induction l as [|i l IH]; intros p; cbn [items_at length]; [lia|].
  destruct i as [name| | |name data].
  - intros (_ & _ & H%IH). pose proof (pad4_ge (p + 4 + Z.of_nat (length name) + 1 - base)). lia.
  - intros (_ & H%IH). lia.
  - intros (_ & H%IH). lia.
  - intros (_ & _ & _ & _ & _ & H%IH). pose proof (pad4_ge (p + 12 + Z.of_nat (length data) - base)). lia.
Qed.
Lemma items_name_bound m base str lim p name l :
  items_at m base str lim p (IBegin name :: l) → p + 4 + Z.of_nat (length name) < lim.
Proof.
  intros (_ & _ & H%items_bound). pose proof (pad4_ge (p + 4 + Z.of_nat (length name) + 1 - base)). lia.
Qed.
Lemma items_data_bound m base str lim p name data l :
  items_at m base str lim p (IProp name data :: l) → p + 12 + Z.of_nat (length data) <= lim.
Proof.
  intros (_ & _ & _ & _ & _ & H%items_bound). pose proof (pad4_ge (p + 12 + Z.of_nat (length data) - base)). lia.
Qed.

Section Items.
Context (fuel : nat) (m : mem) (base str lim : Z) (g : dtb).
Hypothesis Hm : mem_ok m.
Hypothesis Hbase : 0 < base.
Hypothesis Hal : base mod 4 = 0.
Hypothesis Hstr : base <= str.
Hypothesis Hg : strings_ptr g = str.
Hypothesis Hfuel : lim - base < Z.of_nat fuel.
Hypothesis Hlim : lim - base < 2 ^ 32.
Local Set Default Proof Using "All".

Lemma find_prop_loop_spec tp prop ol l : tp ≠ 0 → cstr m tp prop → ∀ n p, items_at m base str lim p l → base <= p →
  (length l < n)%nat →
  match node_prop l prop with
  | Some d => ∃ p' a, find_prop_loop fuel m n g tp ol p = Some (p', Z.of_nat (length d), a) ∧
      base < a ∧ a + Z.of_nat (length d) <= lim ∧ bytes_at m a (length d) = d
  | None => ∃ p', find_prop_loop fuel m n g tp ol p = Some (p', ol, 0) ∧
      items_at m base str lim p' (after_props l) ∧ base <= p'
  end.
Proof.
  intros Htp Hprop. induction l as [|i l IH]; intros [|n] p Hl Hp Hn; cbn [length] in *; try lia;
    cbn [find_prop_loop]; rewrite be2le32_load by done.
  { cbn [node_prop after_props]. pose proof Hl as [-> _]. exists p. split; [|done]. cbn. do 2 f_equal. f_equal. lia. }
  destruct i as [name| | |name data].
  - cbn [node_prop after_props]. pose proof Hl as (-> & _). exists p. split; [|done]. cbn. do 2 f_equal. f_equal. lia.
  - cbn [node_prop after_props]. pose proof Hl as (-> & _). exists p. split; [|done]. cbn. do 2 f_equal. f_equal. lia.
  - destruct Hl as (-> & Hl). cbn [node_prop after_props]. apply (IH n (p + 4) Hl); lia.
  - pose proof (items_data_bound _ _ _ _ _ _ _ _ Hl) as Hb.
    destruct Hl as (-> & Hlen & Hname & Hnb & Hd & Hl). cbn [Z.eqb FDT_PROP Pos.eqb].
    rewrite !be2le32_load by done. replace (p + 4 + 4) with (p + 8) by lia. replace (p + 8 + 4) with (p + 12) by lia.
    rewrite Hlen, Hg, (align4_pad base) by done.
    destruct (be32_range m (p + 8) Hm) as [Ho _].
    destruct (strcmp_0 fuel m (str + be32 m (p + 8)) tp name prop) as (r & -> & Hr); [lia|done..|lia|].
    cbn [mbind option_bind]. rewrite Hr. cbn [node_prop after_props].
    destruct (decide (name = prop)) as [E|E]; [rewrite bool_decide_eq_true_2 by done|rewrite bool_decide_eq_false_2 by done].
    + do 2 eexists. split; [done|]. split_and!; [lia|lia|done].
    + apply IH; [done| |lia]. pose proof (pad4_ge (p + 12 + Z.of_nat (length data) - base)). lia.
Qed.

Lemma lookup_after_props l node prop : lookup_items (after_props l) node prop = lookup_items l node prop.
Proof. clear. induction l as [|[| | |] l IH]; done. Qed.
Lemma after_props_length l : (length (after_props l) <= length l)%nat.
Proof. clear. induction l as [|[| | |] l IH]; simpl; lia. Qed.

(** What [dtb_get_property] returns for the answer [o]: the bytes copied, cut
    to the buffer, and their number. *)
Definition copied (out_buf buf_len : Z) (o : option (list Z)) (r : mem * Z) : Prop :=
  match o with
  | None => r = (m, 0)
  | Some d => r.2 = Z.min (Z.of_nat (length d)) buf_len ∧
      bytes_at r.1 out_buf (Z.to_nat r.2) = take (Z.to_nat r.2) d ∧
      (∀ x, x < out_buf ∨ out_buf + r.2 <= x → r.1 x = m x) ∧ mem_ok r.1
  end.

Lemma get_property_loop_spec nn node pp prop out_buf buf_len :
  cstr m nn node → pp ≠ 0 → cstr m pp prop → 0 <= buf_len < 2 ^ 31 →
  out_buf + buf_len <= base ∨ lim <= out_buf →
  ∀ n l depth p, items_at m base str lim p l → base <= p → (length l < n)%nat →
  ∃ r, get_property_loop fuel m n g nn pp out_buf buf_len depth p = Some r ∧
    copied out_buf buf_len (lookup_items l node prop) r.
Proof.
  intros Hnn Hpp Hprop Hlen Hout. induction n as [|n IH]; intros l depth p Hl Hp Hn; [lia|].
  cbn [get_property_loop]. rewrite be2le32_load by done. destruct l as [|i l]; cbn [length] in *.
  { destruct Hl as [-> _]. by eexists. }
  destruct i as [name| | |name data].
  - pose proof (items_name_bound _ _ _ _ _ _ _ Hl) as Hnb. destruct Hl as (-> & Hname & Hl). cbn [Z.eqb FDT_END FDT_BEGIN_NODE Pos.eqb].
    rewrite (skip_node_name_spec fuel m base (p + 4) name) by (done || lia). cbn [mbind option_bind].
    rewrite (name_matches_spec fuel m name nn node) by (done || lia). cbn [mbind option_bind lookup_items].
    pose proof (pad4_ge (p + 4 + Z.of_nat (length name) + 1 - base)) as Hpad.
    destruct (contains name node); [|apply IH; [done|lia..]].
    pose proof (items_bound _ _ _ _ _ _ Hl) as Hlb.
    pose proof (find_prop_loop_spec pp prop 0 l Hpp Hprop fuel _ Hl) as Hf.
    unfold find_prop_in_node. destruct (node_prop l prop) as [d|].
    + destruct Hf as (p' & a & -> & Ha & Had & Hd); [lia..|]. cbn [mbind option_bind].
      rewrite (proj2 (Z.eqb_neq a 0)) by lia. cbn [negb]. eexists. split; [done|]. cbn [copied fst snd].
      set (c := if Z.of_nat (length d) <? buf_len then _ else _).
      assert (c = Z.min (Z.of_nat (length d)) buf_len) as Hc by (subst c; case_match; lia).
      rewrite i32_id by lia. split; [done|]. split.
      * rewrite <- Hd. apply list_eq. intros i. destruct (decide (i < Z.to_nat c)%nat) as [Hi|Hi].
        -- rewrite lookup_take_lt by done. rewrite !bytes_at_lookup by lia.
           rewrite memcpy_at, decide_True by lia. do 2 f_equal. lia.
        -- rewrite lookup_take_ge by lia. apply lookup_ge_None. rewrite bytes_at_length. lia.
      * split; intros x; [intros Hx; by rewrite memcpy_at, decide_False by lia|].
        rewrite memcpy_at by lia. case_decide; apply Hm.
    + destruct Hf as (p' & -> & Hl' & Hp'); [lia..|]. cbn [mbind option_bind negb]. rewrite <- lookup_after_props.
      apply IH; [done|done|]. pose proof (after_props_length l). lia.
  - destruct Hl as (-> & Hl). cbn. apply IH; [done|lia..].
  - destruct Hl as (-> & Hl). cbn. apply IH; [done|lia..].
  - destruct Hl as (-> & Hlen' & _ & _ & _ & Hl). cbn [Z.eqb FDT_END FDT_BEGIN_NODE FDT_END_NODE FDT_PROP Pos.eqb].
    rewrite be2le32_load, Hlen', (align4_pad base) by done. cbn [lookup_items].
    replace (p + 4 + 4 + 4 + Z.of_nat (length data)) with (p + 12 + Z.of_nat (length data)) by lia.
    apply IH; [done| |lia]. pose proof (pad4_ge (p + 12 + Z.of_nat (length data) - base)). lia.
Qed.

Definition cpu_at : list Z := [99; 112; 117; 64].

Lemma prefix_cpu p name : cstr m p name →
  ((m p =? 99) && (m (p + 1) =? 112) && (m (p + 2) =? 117) && (m (p + 3) =? 64)) = prefixb cpu_at name.
Proof.
  clear. replace (p + 3) with (p + 1 + 1 + 1) by lia. replace (p + 2) with (p + 1 + 1) by lia. unfold cpu_at.
  intros H. destruct name as [|a name]; cbn [cstr] in H; [by rewrite H|]. destruct H as (_ & -> & H).
  cbn [prefixb]. rewrite (Z.eqb_sym 99). destruct (a =? 99); [|done]. cbn [andb].
  destruct name as [|b name]; cbn [cstr] in H; [by rewrite H|]. destruct H as (_ & -> & H).
  cbn [prefixb]. rewrite (Z.eqb_sym 112). destruct (b =? 112); [|done]. cbn [andb].
  destruct name as [|c name]; cbn [cstr] in H; [by rewrite H|]. destruct H as (_ & -> & H).
  cbn [prefixb]. rewrite (Z.eqb_sym 117). destruct (c =? 117); [|done]. cbn [andb].
  destruct name as [|d name]; cbn [cstr] in H; [by rewrite H|]. destruct H as (_ & -> & H).
  cbn [prefixb]. by rewrite (Z.eqb_sym 64), andb_true_r.
Qed.
Lemma count_items_range pre l : 0 <= count_items pre l <= Z.of_nat (length l).
Proof. clear. induction l as [|[| | |] l IH]; cbn [count_items length]; [lia| |lia..]. case_match; lia. Qed.

Lemma cpu_count_loop_spec : ∀ n l count p, items_at m base str lim p l → base <= p → (length l < n)%nat →
  0 <= count → count + Z.of_nat (length l) < 2 ^ 31 →
  cpu_count_loop fuel m n count p = Some (count + count_items cpu_at l).
Proof.
  induction n as [|n IH]; intros l count p Hl Hp Hn Hc Hcl; [lia|].
  cbn [cpu_count_loop]. rewrite be2le32_load by done. destruct l as [|i l]; cbn [length] in *.
  { destruct Hl as [-> _]. cbn. f_equal. lia. }
  destruct i as [name| | |name data].
  - pose proof (items_name_bound _ _ _ _ _ _ _ Hl) as Hnb. destruct Hl as (-> & Hname & Hl). cbn [Z.eqb FDT_END FDT_BEGIN_NODE Pos.eqb].
    rewrite (skip_node_name_spec fuel m base (p + 4) name) by (done || lia). cbn [mbind option_bind].
    rewrite (prefix_cpu _ _ Hname). cbn [count_items].
    pose proof (pad4_ge (p + 4 + Z.of_nat (length name) + 1 - base)) as Hpad.
    destruct (prefixb cpu_at name).
    + rewrite i32_id by lia. rewrite (IH l) by (done || lia). f_equal. lia.
    + rewrite (IH l) by (done || lia). f_equal.
  - destruct Hl as (-> & Hl). cbn. apply IH; [done|lia..].
  - destruct Hl as (-> & Hl). cbn. apply IH; [done|lia..].
  - pose proof (items_data_bound _ _ _ _ _ _ _ _ Hl) as Hb.
    destruct Hl as (-> & Hlen' & _ & _ & _ & Hl). cbn [Z.eqb FDT_END FDT_BEGIN_NODE FDT_PROP Pos.eqb].
    rewrite be2le32_load, Hlen', (align4_pad base) by done. cbn [count_items].
    rewrite u32_id by lia. replace (p + 4 + (8 + Z.of_nat (length data))) with (p + 12 + Z.of_nat (length data)) by lia.
    apply IH; [done| |lia..]. pose proof (pad4_ge (p + 12 + Z.of_nat (length data) - base)). lia.
Qed.
End Items.

(** ** The items of a tree *)

Lemma lookup_not_nop l node prop : lookup_items (strip_nops l) node prop = lookup_items l node prop.
Proof.
  assert (∀ l, node_prop (strip_nops l) prop = node_prop l prop) as Hn.
  { clear l. induction l as [|[| | |] l IH]; cbn; [done..|]. by rewrite IH. }
  induction l as [|[name| | |] l IH]; cbn; [done| |done..]. rewrite Hn, IH. done.
Qed.
Lemma node_prop_props ps rest prop : (∀ l' k d, rest = IProp k d :: l' → False) → (∀ l', rest = INop :: l' → False) →
  node_prop (map (λ p, IProp p.1 p.2) ps ++ rest) prop = assoc ps prop.
Proof.
  intros H1 H2. induction ps as [|[k d] ps IH]; cbn.
  - destruct rest as [|[| | |]]; cbn; [done..|by edestruct H2|by edestruct H1].
  - by rewrite IH.
Qed.
Lemma lookup_props ps rest node prop :
  lookup_items (map (λ p, IProp p.1 p.2) ps ++ rest) node prop = lookup_items rest node prop.
Proof. by induction ps as [|[k d] ps IH]. Qed.

Lemma flatten_head cs rest :
  (∀ l' k d, concat (map flatten cs) ++ IEnd :: rest = IProp k d :: l' → False) ∧
  (∀ l', concat (map flatten cs) ++ IEnd :: rest = INop :: l' → False).
Proof. destruct cs as [|[n ps cs'] cs]; cbn; split; intros; discriminate. Qed.

Lemma lookup_flatten node prop : ∀ t rest,
  lookup_items (flatten t ++ rest) node prop =
  match dt_find t node prop with Some d => Some d | None => lookup_items rest node prop end.
Proof.
  fix IH 1. intros [name ps cs] rest. cbn [flatten dt_find]. rewrite <- !app_comm_cons, <- !app_assoc. cbn [app lookup_items].
  destruct (flatten_head cs rest) as [H1 H2]. rewrite node_prop_props by done. clear H1 H2.
  destruct (if contains name node then assoc ps prop else None) as [d|]; [done|]. rewrite lookup_props.
  induction cs as [|c cs IHcs]; cbn [map concat first_some app lookup_items]; [done|].
  rewrite <- app_assoc, IH. destruct (dt_find c node prop); done.
Qed.

Lemma count_not_nop pre l : count_items pre (strip_nops l) = count_items pre l.
Proof. induction l as [|[name| | |] l IH]; cbn; [done| |done..]. by rewrite IH. Qed.
Lemma count_app pre l1 l2 : count_items pre (l1 ++ l2) = count_items pre l1 + count_items pre l2.
Proof. induction l1 as [|[name| | |] l1 IH]; cbn; [done| |done..]. rewrite IH. lia. Qed.
Lemma count_flatten pre : ∀ t, count_items pre (flatten t) = dt_count pre t.
Proof.
  fix IH 1. intros [name ps cs]. cbn [flatten dt_count count_items]. f_equal. rewrite !count_app. cbn.
  replace (count_items pre (map _ ps)) with 0 by (clear; by induction ps).
  induction cs as [|c cs IHcs]; cbn; [done|]. rewrite count_app, IH. lia.
Qed.

(** ** Correctness *)

(** A reader initialised on a blob: its statics. *)
Lemma dtb_init_at m g0 base t : fdt_at m base t →
  dtb_init m g0 base = mk_dtb base (base + be32 m (base + 12)).
Proof.
  intros (Hm & _ & _ & Hmag & _). unfold dtb_init, hdr_magic, hdr_off_dt_strings. rewrite !be2le32_load, Hmag by done. done.
Qed.

Section Blob.
Context (fuel : nat) (m : mem) (base : Z) (t : dnode) (g0 : dtb).
Hypothesis Hfdt : fdt_at m base t.
Hypothesis Hfuel : be32 m (base + 4) < Z.of_nat fuel.
Local Set Default Proof Using "All".
Let g := dtb_init m g0 base.

Lemma get_property_copied nn node pp prop out_buf buf_len :
  cstr m nn node → pp ≠ 0 → cstr m pp prop → 0 <= buf_len < 2 ^ 31 →
  out_buf + buf_len <= base ∨ base + be32 m (base + 4) <= out_buf →
  ∃ r, dtb_get_property fuel m g nn pp out_buf buf_len = Some r ∧ copied m out_buf buf_len (dt_find t node prop) r.
Proof.
  intros Hnn Hpp Hprop Hlen Hout. subst g. rewrite (dtb_init_at m g0 base t Hfdt).
  destruct Hfdt as (Hm & Hb & Hal & Hmag & name & its & Hits & Hat).
  unfold dtb_get_property, struct_ptr, hdr_off_dt_struct. cbn [dtb_base].
  rewrite (proj2 (Z.eqb_neq base 0)) by lia. rewrite be2le32_load by done.
  pose proof (be32_range m (base + 4) Hm). pose proof (be32_range m (base + 8) Hm). pose proof (be32_range m (base + 12) Hm).
  pose proof (items_bound _ _ _ _ _ _ Hat).
  replace (dt_find t node prop) with (lookup_items (IBegin name :: its) node prop).
  2:{ rewrite <- lookup_not_nop, Hits, <- (app_nil_r (flatten t)), lookup_flatten. by destruct (dt_find t node prop). }
  eapply (get_property_loop_spec fuel m base (base + be32 m (base + 12)) (base + be32 m (base + 4))); eauto; try lia.
Qed.

(** The root's property named by the string at [pp]. *)
Lemma root_prop_found pp prop ol : pp ≠ 0 → cstr m pp prop →
  negb (be2le32 (load32 m (struct_ptr m g)) =? FDT_BEGIN_NODE) = false ∧ (dtb_base g =? 0) = false ∧
  ∃ p, skip_node_name fuel m (struct_ptr m g + 4) = Some p ∧
  match assoc (dt_props t) prop with
  | Some d => ∃ p' a, find_prop_in_node fuel m g p pp ol = Some (p', Z.of_nat (length d), a) ∧
      base < a ∧ a + Z.of_nat (length d) <= base + be32 m (base + 4) ∧ bytes_at m a (length d) = d
  | None => ∃ p', find_prop_in_node fuel m g p pp ol = Some (p', ol, 0)
  end.
Proof.
  intros Hpp Hprop. subst g. rewrite (dtb_init_at m g0 base t Hfdt).
  destruct Hfdt as (Hm & Hb & Hal & Hmag & name & its & Hits & Hat).
  unfold struct_ptr, hdr_off_dt_struct. cbn [dtb_base]. rewrite (proj2 (Z.eqb_neq base 0)) by lia. rewrite !be2le32_load by done.
  pose proof (be32_range m (base + 4) Hm). pose proof (be32_range m (base + 8) Hm). pose proof (be32_range m (base + 12) Hm).
  pose proof (items_name_bound _ _ _ _ _ _ _ Hat). pose proof (items_bound _ _ _ _ _ _ Hat) as Hlb. destruct Hat as (-> & Hname & Hat).
  split_and!; [done..|]. rewrite (skip_node_name_spec fuel m base _ name) by (done || lia). eexists. split; [done|].
  set (p1 := base + pad4 _) in *. assert (base <= p1) by (pose proof (pad4_ge (base + be32 m (base + 8) + 4 + Z.of_nat (length name) + 1 - base)); lia).
  cbn [length] in Hlb.
  pose proof (find_prop_loop_spec fuel m base (base + be32 m (base + 12)) (base + be32 m (base + 4))
    (mk_dtb base (base + be32 m (base + 12))) Hm Hb Hal ltac:(lia) eq_refl
    ltac:(lia) ltac:(lia) pp prop ol its Hpp Hprop fuel p1 Hat ltac:(lia) ltac:(lia)) as Hf.
  replace (assoc (dt_props t) prop) with (node_prop its prop).
  - unfold find_prop_in_node. destruct (node_prop its prop); [done|]. destruct Hf as (p' & -> & _). by eexists.
  - cbn in Hits. destruct t as [tn ps cs]. cbn [flatten dt_props] in *. injection Hits as _ Hits.
    destruct (flatten_head cs []) as [H1' H2']. rewrite <- (node_prop_props ps _ prop H1' H2'), <- Hits. clear.
    induction its as [|[| | |] l IH]; cbn; [done..|]. by rewrite IH.
Qed.
End Blob.

Definition s_address_cells : list Z := [35;97;100;100;114;101;115;115;45;99;101;108;108;115].
Definition s_size_cells : list Z := [35;115;105;122;101;45;99;101;108;108;115].
Definition s_reg : list Z := [114;101;103].
Definition s_memory : list Z := [109;101;109;111;114;121].

(** The literals are strings in memory. *)
Definition lits_at (m : mem) (L : dtb_lits) : Prop :=
  (lit_address_cells L ≠ 0 ∧ cstr m (lit_address_cells L) s_address_cells) ∧
  (lit_size_cells L ≠ 0 ∧ cstr m (lit_size_cells L) s_size_cells) ∧
  (lit_reg L ≠ 0 ∧ cstr m (lit_reg L) s_reg) ∧ cstr m (lit_memory L) s_memory.

(** A cell count of the root, two when absent. *)
Definition root_cell (t : dnode) (prop : list Z) : Z :=
  match assoc (dt_props t) prop with
  | Some d => if decide (length d = 4%nat) then be_val d else 2
  | None => 2
  end.

Lemma bytes_at_sub m a n k j : (k + j <= n)%nat →
  bytes_at m (a + Z.of_nat k) j = take j (drop k (bytes_at m a n)).
Proof.
  intros H. replace n with (k + (j + (n - k - j)))%nat by lia. rewrite !bytes_at_app.
  rewrite drop_app_length' by (by rewrite bytes_at_length).
  by rewrite take_app_length' by (by rewrite bytes_at_length).
Qed.

Section Answers.
Context (fuel : nat) (m : mem) (base : Z) (t : dnode) (g0 : dtb) (L : dtb_lits).
Hypothesis Hfdt : fdt_at m base t.
Hypothesis Hfuel : be32 m (base + 4) < Z.of_nat fuel.
Hypothesis Hlits : lits_at m L.
Local Set Default Proof Using "All".
Let g := dtb_init m g0 base.

Lemma get_root_cells_spec :
  get_root_cells fuel m g (lit_address_cells L) (lit_size_cells L) =
  Some (root_cell t s_address_cells, root_cell t s_size_cells).
Proof.
  destruct Hlits as ((Ha & Hac) & (Hs & Hsc) & _). pose proof Hfdt as (Hm & Hb & _).
  destruct (root_prop_found fuel m base t g0 Hfdt Hfuel _ _ 0 Ha Hac) as (H1 & H2 & p & Hp & Hfa).
  unfold get_root_cells. fold g in H1, H2, Hp, Hfa. rewrite H2. cbv zeta. rewrite H1, Hp. cbn [mbind option_bind].
  assert (∀ ol, ∃ p' ol' a, find_prop_in_node fuel m g p (lit_size_cells L) ol = Some (p', ol', a) ∧
    (if negb (a =? 0) && (ol' =? 4) then be2le32 (load32 m a) else 2) = root_cell t s_size_cells) as Hsize.
  { intros ol. destruct (root_prop_found fuel m base t g0 Hfdt Hfuel _ _ ol Hs Hsc) as (_ & _ & q & Hq & Hfs).
    fold g in Hq, Hfs. rewrite Hp in Hq. injection Hq as <-. unfold root_cell.
    destruct (assoc (dt_props t) s_size_cells) as [d|].
    - destruct Hfs as (p' & a & -> & Ha' & _ & Hd). do 3 eexists. split; [done|].
      rewrite (proj2 (Z.eqb_neq a 0)), be2le32_load by (done || lia). cbn [negb andb].
      destruct (Z.eqb_spec (Z.of_nat (length d)) 4); destruct (decide (length d = 4%nat)) as [E|E]; try lia.
      unfold be32. by rewrite <- E, Hd.
    - destruct Hfs as (p' & ->). by do 3 eexists. }
  unfold root_cell at 1. destruct (assoc (dt_props t) s_address_cells) as [d|].
  - destruct Hfa as (p' & a & -> & Ha' & _ & Hd). cbn [mbind option_bind].
    destruct (Hsize (Z.of_nat (length d))) as (? & ? & ? & -> & E). cbn [mbind option_bind]. rewrite E. do 2 f_equal.
    rewrite (proj2 (Z.eqb_neq a 0)), be2le32_load by (done || lia). cbn [negb andb].
    destruct (Z.eqb_spec (Z.of_nat (length d)) 4); destruct (decide (length d = 4%nat)) as [E'|E']; try lia.
    unfold be32. by rewrite <- E', Hd.
  - destruct Hfa as (p' & ->). cbn [mbind option_bind]. destruct (Hsize 0) as (? & ? & ? & -> & E).
    cbn [mbind option_bind]. by rewrite E.
Qed.

(** The value of a group of cells of [reg] once it is copied to [buffer]. *)
Lemma copied_cells buffer d r k c : copied m buffer 16 (Some d) r →
  (c = 1 ∨ c = 2)%nat → (4 * (k + c) <= length d)%nat → (4 * (k + c) <= 16)%nat →
  (if Z.of_nat c =? 1 then be2le32 (load32 r.1 (buffer + Z.of_nat (4 * k)))
   else if Z.of_nat c =? 2 then be2le64 (load64 r.1 (buffer + Z.of_nat (4 * k))) else 0) =
  be_val (take (4 * c) (drop (4 * k) d)).
Proof using m.
  clear. intros (Hn & Hb & _ & Hok) Hc Hd H16.
  assert (bytes_at r.1 (buffer + Z.of_nat (4 * k)) (4 * c) = take (4 * c) (drop (4 * k) d)) as Hs.
  { rewrite (bytes_at_sub _ _ (Z.to_nat r.2)), Hb, skipn_firstn_comm, take_take by lia. f_equal. lia. }
  rewrite <- Hs. destruct Hc as [-> | ->]; cbn [Z.of_nat Z.eqb Pos.eqb Pos.of_succ_nat Pos.succ]; [by apply be2le32_load|by apply be2le64_load].
Qed.
End Answers.

(** *** A blob: two cells of address, one of size, a node [cpu@0] and a node [memory@0] *)
Definition ex_blob : list Z :=
  [208; 13; 254; 237; 0; 0; 0; 210; 0; 0; 0; 40; 0; 0; 0; 168; 0; 0; 0; 0; 0; 0; 0; 0; 0; 0; 0; 0;
   0; 0; 0; 0; 0; 0; 0; 0; 0; 0; 0; 0; 0; 0; 0; 1; 0; 0; 0; 0; 0; 0; 0; 3; 0; 0; 0; 4;
   0; 0; 0; 0; 0; 0; 0; 2; 0; 0; 0; 3; 0; 0; 0; 4; 0; 0; 0; 15; 0; 0; 0; 1; 0; 0; 0; 4;
   0; 0; 0; 1; 99; 112; 117; 64; 48; 0; 0; 0; 0; 0; 0; 3; 0; 0; 0; 4; 0; 0; 0; 27; 0; 0; 0; 0;
   0; 0; 0; 2; 0; 0; 0; 1; 109; 101; 109; 111; 114; 121; 64; 48; 0; 0; 0; 0; 0; 0; 0; 3; 0; 0; 0; 12;
   0; 0; 0; 27; 0; 0; 0; 0; 64; 0; 0; 0; 8; 0; 0; 0; 0; 0; 0; 2; 0; 0; 0; 2; 0; 0; 0; 9;
   35; 97; 100; 100; 114; 101; 115; 115; 45; 99; 101; 108; 108; 115; 0; 35; 115; 105; 122; 101; 45; 99; 101; 108; 108; 115; 0; 114;
   101; 103; 0; 99; 111; 109; 112; 97; 116; 105; 98; 108; 101; 0].
Definition ex_lit_bytes : list Z :=
  [35; 97; 100; 100; 114; 101; 115; 115; 45; 99; 101; 108; 108; 115; 0; 35; 115; 105; 122; 101; 45; 99; 101; 108; 108; 115; 0; 114;
   101; 103; 0; 109; 101; 109; 111; 114; 121; 0; 99; 112; 117; 64; 0; 99; 108; 111; 99; 107; 45; 102; 114; 101; 113; 117; 101; 110;
   99; 121; 0].
Definition ex_tree : dnode :=
  DNode [] [(s_address_cells, [0; 0; 0; 2]); (s_size_cells, [0; 0; 0; 1])]
    [DNode [99; 112; 117; 64; 48] [(s_reg, [0; 0; 0; 0])] [];
     DNode [109; 101; 109; 111; 114; 121; 64; 48] [(s_reg, [0; 0; 0; 0; 64; 0; 0; 0; 8; 0; 0; 0])] []].
(** The blob at 4096, the literals at 8192, the local array at 12288. *)
Definition ex_dtb_mem : mem := λ a,
  if (4096 <=? a) && (a <? 8192) then nth (Z.to_nat (a - 4096)) ex_blob 0
  else if (8192 <=? a) && (a <? 12288) then nth (Z.to_nat (a - 8192)) ex_lit_bytes 0 else 0.
Definition ex_lits : dtb_lits := mk_lits 8192 8207 8219 8223 8230 8235.

Lemma ex_dtb_mem_ok : mem_ok ex_dtb_mem.
Proof.
  assert (Forall (λ b, 0 <= b < 256) ex_blob) as H1 by (apply (bool_decide_eq_true_1 _); by vm_compute).
  assert (Forall (λ b, 0 <= b < 256) ex_lit_bytes) as H2 by (apply (bool_decide_eq_true_1 _); by vm_compute).
  assert (∀ l i, Forall (λ b, 0 <= b < 256) l → 0 <= nth i l 0 < 256) as Hn.
  { intros l i Hl. rewrite nth_lookup. destruct (l !! i) eqn:E; simpl; [|lia]. exact (Forall_lookup_1 _ _ _ _ Hl E). }
  intros a. unfold ex_dtb_mem. repeat case_match; [by apply Hn|by apply Hn|lia].
Qed.
Lemma ex_fdt_at : fdt_at ex_dtb_mem 4096 ex_tree.
Proof.
  split; [apply ex_dtb_mem_ok|]. split; [lia|]. split; [done|]. split; [by vm_compute|].
  exists [], [IProp s_address_cells [0;0;0;2]; IProp s_size_cells [0;0;0;1]; INop; IBegin [99;112;117;64;48]; IProp s_reg [0;0;0;0]; IEnd; IBegin [109;101;109;111;114;121;64;48]; IProp s_reg [0; 0; 0; 0; 64; 0; 0; 0; 8; 0; 0; 0]; IEnd; IEnd].
  split; [done|]. cbn [items_at cstr s_address_cells s_size_cells s_reg].
  repeat split; vm_compute; congruence || done.
Qed.
Lemma ex_lits_at : lits_at ex_dtb_mem ex_lits.
Proof. unfold lits_at. cbn [cstr s_address_cells s_size_cells s_reg s_memory]. repeat split; vm_compute; congruence || done. Qed.

(** ** Theorems *)

(** C16: [dtb_get_property] on a blob that holds the tree [t] always returns:
    it copies, cut to the caller's buffer, the property [prop] of the first
    node in document order whose name contains [node] and which has that
    property, and returns 0 with memory unchanged when there is none.  Any
    fuel above the blob's [totalsize] is enough. *)
Theorem dtb_get_property_finds fuel m base t g0 nn node pp prop out_buf buf_len :
  fdt_at m base t → be32 m (base + 4) < Z.of_nat fuel →
  cstr m nn node → pp ≠ 0 → cstr m pp prop → 0 <= buf_len < 2 ^ 31 →
  out_buf + buf_len <= base ∨ base + be32 m (base + 4) <= out_buf →
  ∃ r, dtb_get_property fuel m (dtb_init m g0 base) nn pp out_buf buf_len = Some r ∧
    match dt_find t node prop with
    | None => r = (m, 0)
    | Some d => r.2 = Z.min (Z.of_nat (length d)) buf_len ∧
        bytes_at r.1 out_buf (Z.to_nat r.2) = take (Z.to_nat r.2) d ∧
        ∀ x, x < out_buf ∨ out_buf + r.2 <= x → r.1 x = m x
    end.
Proof.
  intros Hfdt Hfuel Hnn Hpp Hprop Hlen Hout.
  destruct (get_property_copied fuel m base t g0 Hfdt Hfuel nn node pp prop out_buf buf_len Hnn Hpp Hprop Hlen Hout)
    as (r & -> & Hr).
  exists r. split; [done|]. destruct (dt_find t node prop); [|done]. destruct Hr as (? & ? & ? & _). done.
Qed.

Lemma dtb_get_property_finds_witness :
  ∃ r, dtb_get_property 512 ex_dtb_mem (dtb_init ex_dtb_mem (mk_dtb 0 0) 4096) (lit_memory ex_lits) (lit_reg ex_lits) 12288 16 = Some r ∧
    match dt_find ex_tree s_memory s_reg with
    | None => r = (ex_dtb_mem, 0)
    | Some d => r.2 = Z.min (Z.of_nat (length d)) 16 ∧
        bytes_at r.1 12288 (Z.to_nat r.2) = take (Z.to_nat r.2) d ∧
        ∀ x, x < 12288 ∨ 12288 + r.2 <= x → r.1 x = ex_dtb_mem x
    end.
Proof.
  apply (dtb_get_property_finds 512 ex_dtb_mem 4096 ex_tree (mk_dtb 0 0) _ s_memory _ s_reg 12288 16).
  - exact ex_fdt_at.
  - vm_compute. done.
  - apply ex_lits_at.
  - done.
  - apply ex_lits_at.
  - lia.
  - right. vm_compute. done.
Defined.

(** the size of physical memory the kernel boots with: the second group
    of cells of [reg] of the first node named like "memory", big-endian, in
    the widths the root declares. *)
Theorem dtb_memory_size_reads fuel m base t g0 L buffer d ac sc :
  fdt_at m base t → be32 m (base + 4) < Z.of_nat fuel → lits_at m L →
  buffer + 16 <= base ∨ base + be32 m (base + 4) <= buffer →
  dt_find t s_memory s_reg = Some d →
  root_cell t s_address_cells = Z.of_nat ac → root_cell t s_size_cells = Z.of_nat sc →
  (sc = 1 ∨ sc = 2)%nat → (4 * (ac + sc) <= length d)%nat → (4 * (ac + sc) <= 16)%nat →
  dtb_get_memory_size fuel m (dtb_init m g0 base) L buffer = Some (be_val (take (4 * sc) (drop (4 * ac) d))).
Proof.
  intros Hfdt Hfuel Hlits Hbuf Hd Hac Hsc Hsc12 Hlen H16. unfold dtb_get_memory_size.
  rewrite (get_root_cells_spec fuel m base t g0 L) by done. cbn [mbind option_bind]. rewrite Hac, Hsc.
  pose proof Hlits as (_ & _ & (Hr & Hrs) & Hms).
  destruct (get_property_copied fuel m base t g0 Hfdt Hfuel _ _ _ _ buffer 16 Hms Hr Hrs ltac:(lia) Hbuf) as ([m' n] & -> & Hc).
  rewrite Hd in Hc. cbn [mbind option_bind]. pose proof Hc as (Hn & _). cbn in Hn. rewrite (proj2 (Z.ltb_lt 0 n)) by lia.
  rewrite u32_id by lia. replace (Z.of_nat ac * 4) with (Z.of_nat (4 * ac)) by lia.
  by rewrite <- (copied_cells m buffer d (m', n) ac sc) by done.
Qed.

Lemma dtb_memory_size_reads_witness :
  dtb_get_memory_size 512 ex_dtb_mem (dtb_init ex_dtb_mem (mk_dtb 0 0) 4096) ex_lits 12288 = Some 0x08000000.
Proof.
  apply (dtb_memory_size_reads 512 ex_dtb_mem 4096 ex_tree (mk_dtb 0 0) ex_lits 12288
    [0; 0; 0; 0; 64; 0; 0; 0; 8; 0; 0; 0] 2 1).
  - exact ex_fdt_at.
  - vm_compute. done.
  - exact ex_lits_at.
  - right. vm_compute. done.
  - reflexivity.
  - reflexivity.
  - reflexivity.
  - by left.
  - simpl. lia.
  - lia.
Defined.

(** The base address of a device: the first group of cells of its [reg]. *)
Theorem dtb_get_reg_reads fuel m base t g0 L buffer nn node d ac :
  fdt_at m base t → be32 m (base + 4) < Z.of_nat fuel → lits_at m L → cstr m nn node →
  buffer + 16 <= base ∨ base + be32 m (base + 4) <= buffer →
  dt_find t node s_reg = Some d → root_cell t s_address_cells = Z.of_nat ac →
  (ac = 1 ∨ ac = 2)%nat → (4 * ac <= length d)%nat →
  dtb_get_reg fuel m (dtb_init m g0 base) L buffer nn = Some (be_val (take (4 * ac) d)).
Proof.
  intros Hfdt Hfuel Hlits Hnn Hbuf Hd Hac Hac12 Hlen. unfold dtb_get_reg.
  rewrite (get_root_cells_spec fuel m base t g0 L) by done. cbn [mbind option_bind]. rewrite Hac.
  pose proof Hlits as (_ & _ & (Hr & Hrs) & _).
  destruct (get_property_copied fuel m base t g0 Hfdt Hfuel _ _ _ _ buffer 16 Hnn Hr Hrs ltac:(lia) Hbuf) as ([m' n] & -> & Hc).
  rewrite Hd in Hc. cbn [mbind option_bind]. pose proof Hc as (Hn & _). cbn in Hn.
  rewrite (proj2 (Z.eqb_neq n 0)) by lia. cbn [negb].
  pose proof (copied_cells m buffer d (m', n) 0 ac Hc Hac12 ltac:(lia) ltac:(lia)) as He.
  cbn [fst] in He. rewrite Z.add_0_r, drop_0 in He. by rewrite He.
Qed.

(** The number of processors: the nodes whose name starts with "cpu@", and one
    when there is none. *)
Theorem dtb_cpu_count_counts fuel m base t g0 :
  fdt_at m base t → be32 m (base + 4) < Z.of_nat fuel →
  dtb_get_cpu_count fuel m (dtb_init m g0 base) =
  Some (if dt_count cpu_at t =? 0 then 1 else dt_count cpu_at t).
Proof.
  intros Hfdt Hfuel. rewrite (dtb_init_at m g0 base t Hfdt).
  destruct Hfdt as (Hm & Hb & Hal & Hmag & name & its & Hits & Hat).
  unfold dtb_get_cpu_count, struct_ptr, hdr_off_dt_struct. cbn [dtb_base].
  rewrite (proj2 (Z.eqb_neq base 0)), be2le32_load by (done || lia).
  pose proof (be32_range m (base + 4) Hm). pose proof (be32_range m (base + 8) Hm). pose proof (be32_range m (base + 12) Hm).
  pose proof (items_bound _ _ _ _ _ _ Hat).
  rewrite (cpu_count_loop_spec fuel m base (base + be32 m (base + 12)) (base + be32 m (base + 4))
    (mk_dtb base (base + be32 m (base + 12))) Hm Hb Hal ltac:(lia) eq_refl ltac:(lia) ltac:(lia)
    fuel (IBegin name :: its)) by (done || lia).
  cbn [mbind option_bind]. rewrite <- (count_not_nop cpu_at), Hits, count_flatten, Z.add_0_l. by destruct (_ =? 0).
Qed.

(** The model string: cut to the buffer and terminated inside it, when the
    buffer holds at least one byte. *)
Theorem dtb_model_terminated fuel m base t g0 pp prop buf buf_len d :
  fdt_at m base t → be32 m (base + 4) < Z.of_nat fuel → pp ≠ 0 → cstr m pp prop →
  0 < buf_len < 2 ^ 31 → buf + buf_len <= base ∨ base + be32 m (base + 4) <= buf →
  assoc (dt_props t) prop = Some d → d ≠ [] →
  let n := Z.min (Z.of_nat (length d)) (buf_len - 1) in
  ∃ m', dtb_get_model fuel m (dtb_init m g0 base) pp buf buf_len = Some (m', n) ∧
    bytes_at m' buf (Z.to_nat n) = take (Z.to_nat n) d ∧ m' (buf + n) = 0 ∧
    ∀ x, x < buf ∨ buf + buf_len <= x → m' x = m x.
Proof.
  intros Hfdt Hfuel Hpp Hprop Hlen Hout Hd Hne n. pose proof Hfdt as (_ & Hb & _).
  destruct (root_prop_found fuel m base t g0 Hfdt Hfuel pp prop 0 Hpp Hprop) as (H1 & H2 & p & Hp & Hf).
  rewrite Hd in Hf. destruct Hf as (p' & a & Hf & Ha & Had & Hbytes).
  unfold dtb_get_model, copy_root_string. rewrite H2. cbv zeta. rewrite H1, Hp. cbn [mbind option_bind]. rewrite Hf.
  cbn [mbind option_bind]. rewrite (proj2 (Z.eqb_neq a 0)) by lia. cbn [negb andb].
  destruct d as [|b d]; [done|]. set (l := Z.of_nat (length (b :: d))) in *.
  rewrite (proj2 (Z.ltb_lt 0 l)) by (subst l; cbn; lia). rewrite u32_id by lia.
  replace (if l <? buf_len then l else buf_len - 1) with n by (subst n; case_match; lia).
  rewrite i32_id by lia. eexists. split; [done|]. split_and!.
  - rewrite <- Hbytes. apply list_eq. intros i. destruct (decide (i < Z.to_nat n)%nat) as [Hi|Hi].
    + rewrite lookup_take_lt by done. rewrite !bytes_at_lookup by lia. rewrite upd_ne by lia.
      rewrite memcpy_at, decide_True by lia. do 2 f_equal. lia.
    + rewrite lookup_take_ge by lia. apply lookup_ge_None. rewrite bytes_at_length. lia.
  - apply upd_eq.
  - intros x Hx. rewrite upd_ne by lia. by rewrite memcpy_at, decide_False by lia.
Qed.
