(* ===== verification/UString.v ===== *)
(** The string and memory routines of the user C library,
    [user/src/string.c].  The routines differ from the kernel's ([KString]):
    [memcpy] and [memset] move sixteen bytes at a time through a vector
    register, comparisons return the difference of the bytes, [strchr] and
    [strrchr] also match the terminator, and only [strcmp] and [strncmp]
    accept null strings.  Counted loops recurse on their counter, scanning
    loops take a fuel and return [None] when it runs out. *)
From S2P Require Export Prelude Memory KString.

(** ** Definitions *)

Fixpoint memccpy_loop (n : nat) (m : mem) (d s uc i : Z) : mem * Z :=
  match n with
  | O => (m, 0)
  | S n' =>
      let m := upd m (d + i) (m (s + i)) in
      if m (d + i) =? uc then (m, d + i + 1) else memccpy_loop n' m d s uc (i + 1)
  end.
Definition memccpy (m : mem) (s1 s2 c n : Z) : mem * Z := memccpy_loop (Z.to_nat n) m s1 s2 (u8 c) 0.

Fixpoint memchr_loop (n : nat) (m : mem) (a c i : Z) : Z :=
  match n with
  | O => 0
  | S n' => if m (a + i) =? u8 c then a + i else memchr_loop n' m a c (i + 1)
  end.
Definition memchr (m : mem) (s c n : Z) : Z := memchr_loop (Z.to_nat n) m s c 0.

Fixpoint memcmp_loop (n : nat) (m : mem) (a1 a2 : Z) : Z :=
  match n with
  | O => 0
  | S n' => if negb (m a1 =? m a2) then i32 (m a1 - m a2) else memcmp_loop n' m (a1 + 1) (a2 + 1)
  end.
Definition memcmp (m : mem) (s1 s2 n : Z) : Z := memcmp_loop (Z.to_nat n) m s1 s2.

(** [while (n >= 16)]: a chunk is read whole, then written; the state is
    [d], [s] and [n]. *)
Fixpoint memcpy_chunks (f : nat) (m : mem) (d s n : Z) : mem * Z * Z * Z :=
  match f with
  | O => (m, d, s, n)
  | S f' =>
      if 16 <=? n then memcpy_chunks f' (put_bytes m d (bytes_at m s 16)) (d + 16) (s + 16) (n - 16)
      else (m, d, s, n)
  end.
Definition memcpy (m : mem) (s1 s2 n : Z) : mem :=
  let '(m, d, s, n) := memcpy_chunks (Z.to_nat n) m s1 s2 n in
  copy_fwd (Z.to_nat n) m d s.

Definition memmove (m : mem) (s1 s2 n : Z) : mem :=
  if s1 <? s2 then copy_fwd (Z.to_nat n) m s1 s2 else copy_bwd (Z.to_nat n) m (s1 + n) (s2 + n).

Fixpoint memset_chunks (f : nat) (m : mem) (a c n : Z) : mem * Z * Z :=
  match f with
  | O => (m, a, n)
  | S f' =>
      if 16 <=? n then memset_chunks f' (put_bytes m a (repeat (u8 c) 16)) (a + 16) c (n - 16)
      else (m, a, n)
  end.
Definition memset (m : mem) (s c n : Z) : mem :=
  let '(m, a, n) := memset_chunks (Z.to_nat n) m s c n in
  memset_loop (Z.to_nat n) m a c.

(** [while (( *d++ = *s++) != 0)]: the memory and the final [d]. *)
Fixpoint zcopy_end (fuel : nat) (m : mem) (d s : Z) : option (mem * Z) :=
  match fuel with
  | O => None
  | S f =>
      let c := m s in
      let m := upd m d c in
      if c =? 0 then Some (m, d + 1) else zcopy_end f m (d + 1) (s + 1)
  end.
Definition stpcpy (fuel : nat) (m : mem) (s1 s2 : Z) : option (mem * Z) :=
  '(m, d) ← zcopy_end fuel m s1 s2; Some (m, d - 1).
Definition strcpy (fuel : nat) (m : mem) (dest src : Z) : option mem :=
  '(m, _) ← zcopy_end fuel m dest src; Some m.

(** [for (; i < n && s[i] != 0; ++i) d[i] = s[i]]: the memory and [i]; [k] is [n - i]. *)
Fixpoint stpncpy_loop (k : nat) (m : mem) (d s i : Z) : mem * Z * nat :=
  match k with
  | O => (m, i, O)
  | S k' => if m (s + i) =? 0 then (m, i, S k') else stpncpy_loop k' (upd m (d + i) (m (s + i))) d s (i + 1)
  end.
Definition stpncpy (m : mem) (s1 s2 n : Z) : mem * Z :=
  let '(m, i, k) := stpncpy_loop (Z.to_nat n) m s1 s2 0 in
  (match k with
   | O => m
   | S k' => memset_loop k' (upd m (s1 + i) 0) (s1 + i + 1) 0
   end, s1 + n).

Fixpoint strlen_loop (fuel : nat) (m : mem) (s ret : Z) : option Z :=
  match fuel with
  | O => None
  | S f => if m (s + ret) =? 0 then Some ret else strlen_loop f m s (ret + 1)
  end.
Definition strlen (fuel : nat) (m : mem) (s : Z) : option Z := strlen_loop fuel m s 0.

(** [while ( *d) d++] *)
Fixpoint skip_to_end (fuel : nat) (m : mem) (d : Z) : option Z :=
  match fuel with
  | O => None
  | S f => if m d =? 0 then Some d else skip_to_end f m (d + 1)
  end.
Definition strcat (fuel : nat) (m : mem) (s1 s2 : Z) : option mem :=
  d ← skip_to_end fuel m s1; '(m, _) ← zcopy_end fuel m d s2; Some m.

Fixpoint strchr_loop (fuel : nat) (m : mem) (s c i : Z) : option Z :=
  match fuel with
  | O => None
  | S f =>
      if m (s + i) =? u8 c then Some (s + i)
      else if m (s + i) =? 0 then Some 0 else strchr_loop f m s c (i + 1)
  end.
Definition strchr (fuel : nat) (m : mem) (s c : Z) : option Z := strchr_loop fuel m s c 0.

Fixpoint strcmp_loop (fuel : nat) (m : mem) (s1 s2 i : Z) : option Z :=
  match fuel with
  | O => None
  | S f =>
      let a := byte_at m s1 i in
      let b := byte_at m s2 i in
      if negb (a =? 0) && (a =? b) then strcmp_loop f m s1 s2 (i + 1) else Some (i32 (a - b))
  end.
Definition strcmp (fuel : nat) (m : mem) (s1 s2 : Z) : option Z := strcmp_loop fuel m s1 s2 0.

(** [while ( *r)]: whether [*s] is among the rejected bytes. *)
Fixpoint in_set (fuel : nat) (m : mem) (c r : Z) : option bool :=
  match fuel with
  | O => None
  | S f => if m r =? 0 then Some false else if c =? m r then Some true else in_set f m c (r + 1)
  end.
Fixpoint strcspn_loop (n fuel : nat) (m : mem) (str reject s : Z) : option Z :=
  match n with
  | O => None
  | S n' =>
      if m s =? 0 then Some (s - str)
      else b ← in_set fuel m (m s) reject;
           if b : bool then Some (s - str) else strcspn_loop n' fuel m str reject (s + 1)
  end.
Definition strcspn (fuel : nat) (m : mem) (str reject : Z) : option Z := strcspn_loop fuel fuel m str reject str.

Definition strncat (fuel : nat) (m : mem) (dest src n : Z) : option mem :=
  l ← strlen fuel m dest;
  let '(m, d, n) := ncopy (Z.to_nat n) m (dest + l) src in
  Some (match n with O => m | S _ => upd m d 0 end).

Fixpoint strncmp_loop (n : nat) (m : mem) (s1 s2 i : Z) : Z :=
  match n with
  | O => 0
  | S n' =>
      let a := byte_at m s1 i in
      let b := byte_at m s2 i in
      if negb (a =? b) then i32 (a - b) else if a =? 0 then 0 else strncmp_loop n' m s1 s2 (i + 1)
  end.
Definition strncmp (m : mem) (s1 s2 n : Z) : Z := strncmp_loop (Z.to_nat n) m s1 s2 0.

Definition strncpy (m : mem) (dest src n : Z) : mem :=
  let '(m, d, n) := ncopy (Z.to_nat n) m dest src in
  match n with O => m | S k => memset_loop k m d 0 end.

(** [while ( *str && strchr(delim, *str))] and the negated test. *)
Fixpoint span_delim (n fuel : nat) (want : bool) (m : mem) (delim str : Z) : option Z :=
  match n with
  | O => None
  | S n' =>
      if m str =? 0 then Some str
      else p ← strchr fuel m delim (m str);
           if Bool.eqb (negb (p =? 0)) want then span_delim n' fuel want m delim (str + 1) else Some str
  end.
(** [strtok_r]: the token (0 for NULL), the memory and the save pointer. *)
Definition strtok_r (fuel : nat) (m : mem) (str delim save : Z) : option (Z * mem * Z) :=
  let str := if str =? 0 then save else str in
  if str =? 0 then Some (0, m, save)
  else
    start ← span_delim fuel fuel true m delim str;
    if m start =? 0 then Some (0, m, save)
    else
      e ← span_delim fuel fuel false m delim start;
      Some (if m e =? 0 then (start, m, e) else (start, upd m e 0, e + 1)).

Fixpoint strrchr_loop (fuel : nat) (m : mem) (p c last : Z) : option Z :=
  match fuel with
  | O => None
  | S f =>
      let last := if m p =? u8 c then p else last in
      if m p =? 0 then Some last else strrchr_loop f m (p + 1) c last
  end.
Definition strrchr (fuel : nat) (m : mem) (str c : Z) : option Z := strrchr_loop fuel m str c 0.

(** ** The vector loops *)

Lemma put_bytes_at_copy m d s n x : d + Z.of_nat n <= s ∨ s + Z.of_nat n <= d →
  put_bytes m d (bytes_at m s n) x = if decide (d <= x < d + Z.of_nat n) then m (s + (x - d)) else m x.
Proof.
  intros Hd. case_decide as Hx.
  - replace x with (d + Z.of_nat (Z.to_nat (x - d))) at 1 by lia. rewrite put_bytes_in by (rewrite bytes_at_length; lia).
    rewrite nth_lookup, bytes_at_lookup by lia. simpl. f_equal. lia.
  - apply put_bytes_out. rewrite bytes_at_length. lia.
Qed.
Lemma memcpy_chunks_spec f : ∀ m d s n, n <= Z.of_nat f → 0 <= n → d + n <= s ∨ s + n <= d →
  ∃ k m', 0 <= k ∧ memcpy_chunks f m d s n = (m', d + 16 * k, s + 16 * k, n - 16 * k) ∧ 0 <= n - 16 * k < 16 ∧
    ∀ x, m' x = if decide (d <= x < d + 16 * k) then m (s + (x - d)) else m x.
Proof.
  induction f as [|f IH]; intros m d s n Hf Hn Hd; cbn [memcpy_chunks].
  { exists 0, m. rewrite !Z.mul_0_r, !Z.add_0_r, Z.sub_0_r. split_and!; [lia|done|lia..|]. intros x. by rewrite decide_False by lia. }
  destruct (Z.leb_spec 16 n) as [Hle|Hlt].
  - destruct (IH (put_bytes m d (bytes_at m s 16)) (d + 16) (s + 16) (n - 16)) as (k & m' & Hk & -> & Hr & Hm); [lia..|].
    exists (k + 1), m'. split_and!; [lia| |lia..|].
    + f_equal; [f_equal; [f_equal|]|]; lia.
    + intros x. rewrite Hm. rewrite !put_bytes_at_copy by lia. change (Z.of_nat 16) with 16. repeat case_decide; try lia; try done; f_equal; lia.
  - exists 0, m. rewrite !Z.mul_0_r, !Z.add_0_r, Z.sub_0_r. split_and!; [lia|done|lia..|]. intros x. by rewrite decide_False by lia.
Qed.
Lemma memcpy_vec_at m d s n x : 0 <= n → d + n <= s ∨ s + n <= d →
  memcpy m d s n x = if decide (d <= x < d + n) then m (s + (x - d)) else m x.
Proof.
  intros Hn Hd. unfold memcpy. destruct (memcpy_chunks_spec (Z.to_nat n) m d s n) as (k & m' & Hk & -> & Hr & Hm); [lia..|].
  rewrite copy_fwd_spec, Z2Nat.id by lia. rewrite !Hm.
  repeat case_decide; try lia; try done; f_equal; lia.
Qed.
Lemma put_repeat m a c n x : put_bytes m a (repeat c n) x = if decide (a <= x < a + Z.of_nat n) then c else m x.
Proof.
  revert m a. induction n as [|n IH]; intros m a; simpl; [by rewrite decide_False by lia|].
  rewrite IH. unfold upd. repeat case_decide; destruct (Z.eqb_spec x a); lia || done.
Qed.
Lemma memset_chunks_spec f : ∀ m a c n, n <= Z.of_nat f → 0 <= n →
  ∃ k m', 0 <= k ∧ memset_chunks f m a c n = (m', a + 16 * k, n - 16 * k) ∧ 0 <= n - 16 * k < 16 ∧
    ∀ x, m' x = if decide (a <= x < a + 16 * k) then u8 c else m x.
Proof.
  induction f as [|f IH]; intros m a c n Hf Hn; cbn [memset_chunks].
  { exists 0, m. rewrite !Z.mul_0_r, !Z.add_0_r, Z.sub_0_r. split_and!; [lia|done|lia..|]. intros x. by rewrite decide_False by lia. }
  destruct (Z.leb_spec 16 n) as [Hle|Hlt].
  - destruct (IH (put_bytes m a (repeat (u8 c) 16)) (a + 16) c (n - 16)) as (k & m' & Hk & -> & Hr & Hm); [lia..|].
    exists (k + 1), m'. split_and!; [lia| |lia..|].
    + f_equal; [f_equal|]; lia.
    + intros x. rewrite Hm, put_repeat. change (Z.of_nat 16) with 16. repeat case_decide; lia || done.
  - exists 0, m. rewrite !Z.mul_0_r, !Z.add_0_r, Z.sub_0_r. split_and!; [lia|done|lia..|]. intros x. by rewrite decide_False by lia.
Qed.
Lemma memset_vec_at m a c n x : 0 <= n → memset m a c n x = if decide (a <= x < a + n) then u8 c else m x.
Proof.
  intros Hn. unfold memset. destruct (memset_chunks_spec (Z.to_nat n) m a c n) as (k & m' & Hk & -> & Hr & Hm); [lia..|].
  rewrite memset_loop_spec, Z2Nat.id by lia. rewrite Hm. repeat case_decide; lia || done.
Qed.

(** ** Strings *)

Lemma user_strlen_cstr m l : ∀ fuel p, cstr m p l → (length l < fuel)%nat → strlen fuel m p = Some (Z.of_nat (length l)).
Proof.
  unfold strlen. enough (∀ fuel p k, cstr m (p + k) l → (length l < fuel)%nat →
    strlen_loop fuel m p k = Some (k + Z.of_nat (length l))) as H.
  { intros fuel p Hl Hf. by rewrite H by (rewrite ?Z.add_0_r; done). }
  induction l as [|c l IH]; intros [|f] p k Hl Hf; simpl in *; try lia.
  - rewrite Hl. simpl. f_equal. lia.
  - destruct Hl as (Hc & -> & Hl). rewrite (proj2 (Z.eqb_neq c 0)) by lia.
    rewrite IH; [f_equal; lia| |lia]. by rewrite Z.add_assoc.
Qed.

(** [strchr] of a byte that is not the terminator. *)
Lemma user_strchr_cstr m l c : 0 < c < 256 → ∀ fuel p, cstr m p l → (length l < fuel)%nat →
  strchr fuel m p c = Some (match list_find (eq c) l with Some (i, _) => p + Z.of_nat i | None => 0 end).
Proof.
  intros Hc. unfold strchr. enough (∀ fuel p k, cstr m (p + k) l → (length l < fuel)%nat →
    strchr_loop fuel m p c k = Some (match list_find (eq c) l with Some (i, _) => p + k + Z.of_nat i | None => 0 end)) as H.
  { intros fuel p Hl Hf. rewrite H by (rewrite ?Z.add_0_r; done). by rewrite Z.add_0_r. }
  induction l as [|b l IH]; intros [|f] p k Hl Hf; cbn [cstr length strchr_loop list_find] in *; try lia.
  - rewrite Hl, u8_id, (proj2 (Z.eqb_neq 0 c)) by lia. done.
  - destruct Hl as (Hb & -> & Hl). rewrite u8_id by lia. destruct (Z.eqb_spec b c) as [->|Hne].
    + rewrite decide_True by done. f_equal. lia.
    + rewrite decide_False by congruence. rewrite (proj2 (Z.eqb_neq b 0)) by lia.
      rewrite IH by (rewrite ?Z.add_assoc; done || lia). destruct (list_find (eq c) l) as [[i ?]|]; simpl; [f_equal; lia|done].
Qed.

(** The first difference of two strings, as a difference of bytes. *)
Fixpoint diff (l1 l2 : list Z) : Z :=
  match l1, l2 with
  | [], [] => 0
  | [], b :: _ => - b
  | a :: _, [] => a
  | a :: l1', b :: l2' => if a =? b then diff l1' l2' else a - b
  end.
Lemma diff_sgn l1 l2 : Forall (λ c, 0 < c < 256) l1 → Forall (λ c, 0 < c < 256) l2 → Z.sgn (diff l1 l2) = lex l1 l2.
Proof.
  intros H1. revert l2. induction H1 as [|a l1 Ha H1 IH]; intros [|b l2] H2; simpl; [done|..].
  - apply Forall_cons in H2 as [Hb _]. apply Z.sgn_neg. lia.
  - apply Z.sgn_pos. lia.
  - apply Forall_cons in H2 as [Hb H2]. destruct (Z.eqb_spec a b) as [->|Hne].
    + rewrite Z.ltb_irrefl. by apply IH.
    + destruct (Z.ltb_spec a b); [apply Z.sgn_neg; lia|]. rewrite (proj2 (Z.ltb_lt b a)) by lia. apply Z.sgn_pos. lia.
Qed.
Lemma cstr_bytes m p l : cstr m p l → Forall (λ c, 0 < c < 256) l.
Proof. revert p. induction l as [|c l IH]; intros p; simpl; [constructor|]. intros (Hc & _ & Hl). constructor; [done|by eapply IH]. Qed.

Lemma strcmp_diff m p1 p2 l1 : ∀ l2 fuel k, p1 ≠ 0 → p2 ≠ 0 → cstr m (p1 + k) l1 → cstr m (p2 + k) l2 →
  (length l1 < fuel)%nat → strcmp_loop fuel m p1 p2 k = Some (diff l1 l2).
Proof.
  induction l1 as [|a l1 IH]; intros l2 [|f] k H1 H2 Hl1 Hl2 Hf; simpl in *; try lia; rewrite !byte_at_nonnull by done.
  - rewrite Hl1. simpl. destruct l2 as [|b l2]; simpl in Hl2; [by rewrite Hl2|]. destruct Hl2 as (Hb & -> & _).
    by rewrite i32_id by lia.
  - destruct Hl1 as (Ha & -> & Hl1). rewrite (proj2 (Z.eqb_neq a 0)) by lia. simpl. destruct l2 as [|b l2]; simpl in Hl2.
    + rewrite Hl2, (proj2 (Z.eqb_neq a 0)) by lia. rewrite i32_id by lia. f_equal. lia.
    + destruct Hl2 as (Hb & -> & Hl2). destruct (Z.eqb_spec a b) as [->|Hne]; [|by rewrite i32_id by lia].
      apply IH; rewrite ?Z.add_assoc; auto; lia.
Qed.

(** [strncmp] over the length of [l2]: zero exactly when [l1] starts with [l2]. *)
Lemma strncmp_prefix m p1 p2 l2 : ∀ l1 k, p1 ≠ 0 → p2 ≠ 0 → cstr m (p1 + k) l1 → cstr m (p2 + k) l2 →
  (strncmp_loop (length l2) m p1 p2 k = 0 ↔ l2 `prefix_of` l1).
Proof.
  induction l2 as [|b l2 IH]; intros l1 k H1 H2 Hl1 Hl2; cbn [length strncmp_loop].
  { split; [|done]. intros _. apply prefix_nil. }
  rewrite !byte_at_nonnull by done. destruct Hl2 as (Hb & -> & Hl2). destruct l1 as [|a l1]; cbn [cstr] in Hl1.
  - rewrite Hl1. rewrite (proj2 (Z.eqb_neq 0 b)) by lia. simpl. rewrite i32_id by lia. split; [lia|]. intros H%prefix_length. simpl in H. lia.
  - destruct Hl1 as (Ha & -> & Hl1). destruct (Z.eqb_spec a b) as [->|Hne]; simpl.
    + rewrite (proj2 (Z.eqb_neq b 0)) by lia. rewrite (IH l1 (k + 1)) by (rewrite ?Z.add_assoc; done).
      split; [intros; by apply prefix_cons|apply prefix_cons_inv_2].
    + rewrite i32_id by lia. split; [lia|]. intros H%prefix_cons_inv_1. lia.
Qed.

(** [strcpy] of a string whose target lies outside it. *)
Lemma zcopy_end_spec l : ∀ fuel m d s, cstr m s l → (length l < fuel)%nat →
  d + Z.of_nat (length l) < s ∨ s + Z.of_nat (length l) < d →
  ∃ m', zcopy_end fuel m d s = Some (m', d + Z.of_nat (length l) + 1) ∧ cstr m' d l ∧
    ∀ x, x < d ∨ d + Z.of_nat (length l) < x → m' x = m x.
Proof.
  induction l as [|c l IH]; intros [|f] m d s Hl Hf Hd; cbn [length cstr zcopy_end] in *; try lia.
  - rewrite Hl. simpl. eexists. split; [do 2 f_equal; lia|]. split; [apply upd_eq|]. intros x Hx. apply upd_ne. lia.
  - destruct Hl as (Hc & -> & Hl). rewrite (proj2 (Z.eqb_neq c 0)) by lia.
    destruct (IH f (upd m d c) (d + 1) (s + 1)) as (m' & -> & Hs & Ho); [|lia..|].
    { eapply cstr_ext; [|done]. intros x Hx. rewrite upd_ne; [done|lia]. }
    exists m'. split; [do 2 f_equal; lia|]. split.
    + split_and!; [lia..| |done]. rewrite Ho by lia. apply upd_eq.
    + intros x Hx. rewrite Ho by lia. apply upd_ne. lia.
Qed.

(** ** Theorems *)

(** C36: the vector [memcpy] and [memset] are the byte loops: for regions that
    do not overlap, [memcpy] leaves exactly the memory the kernel's byte-wise
    [memcpy] leaves, for every length, multiple of sixteen or not, and
    [memset] the memory the byte-wise [memset] leaves. *)
Theorem vector_copy_bytewise m d s c n :
  0 <= n → d + n <= s ∨ s + n <= d →
  (∀ x, memcpy m d s n x = KString.memcpy m d s n x) ∧ (∀ x, memset m d c n x = KString.memset m d c n x).
Proof.
  intros Hn Hd. split; intros x.
  - rewrite memcpy_vec_at by done. symmetry. apply KString.memcpy_at; lia.
  - rewrite memset_vec_at by done. symmetry. by apply KString.memset_at.
Qed.
Lemma vector_copy_bytewise_witness :
  (∀ x, memcpy (λ a, a mod 256) 100 50 37 x = KString.memcpy (λ a, a mod 256) 100 50 37 x) ∧
  (∀ x, memset (λ a, a mod 256) 100 7 37 x = KString.memset (λ a, a mod 256) 100 7 37 x).
Proof. apply (vector_copy_bytewise (λ a, a mod 256) 100 50 7 37); lia. Defined.

(** The sign of [strcmp] is the lexicographic order, as for the kernel's. *)
Theorem user_strcmp_sign fuel m p1 p2 l1 l2 : p1 ≠ 0 → p2 ≠ 0 → cstr m p1 l1 → cstr m p2 l2 → (length l1 < fuel)%nat →
  ∃ r, strcmp fuel m p1 p2 = Some r ∧ KString.strcmp fuel m p1 p2 = Some (Z.sgn r).
Proof.
  intros H1 H2 Hl1 Hl2 Hf. exists (diff l1 l2). split; [apply strcmp_diff; rewrite ?Z.add_0_r; done|].
  rewrite diff_sgn by (by eapply cstr_bytes). apply KString.strcmp_loop_spec; rewrite ?Z.add_0_r; done.
Qed.

(** [stpncpy] returns [s1 + n] even when the copied string is shorter, where
    the address of the terminator is due. *)
Example stpncpy_returns_end : ∃ m', stpncpy tok_mem 200 104 8 = (m', 208) ∧ m' 200 = 98 ∧ m' 201 = 0.
Proof. eexists. split; [reflexivity|]. by vm_compute. Qed.
