(* ===== verification/UMalloc.v ===== *)
(** The allocator of the user C library, the first half of
    [user/src/stdlib.c]: a doubly linked list of blocks, each a header
    [block_meta_t] followed by its payload, grown by anonymous mappings.

    The headers live in the byte memory of the process with the layout of the
    C structure, so that a store past a block would be seen by the allocator.
    The kernel answers the [mmap] calls; what it promises is the class
    [Pager], and [bump_pager] is a kernel that keeps the promise.  The list
    walk of [find_free_block] takes a fuel, the length of the list is enough. *)
From S2P Require Export Prelude Memory KString UString.
Local Open Scope prog_scope.

Definition ALIGNMENT : Z := 16.
Definition BLOCK_HEADER_SIZE : Z := 32.
Definition MAGIC : Z := 0xDEADBEEF.
Definition MAP_FAILED : Z := 2 ^ 64 - 1.

(** [ALIGN(size)], on [size_t]. *)
Definition ALIGN (size : Z) : Z := Z.land (u64 (size + (ALIGNMENT - 1))) (2 ^ 64 - 16).

(** The kernel as the allocator sees it: [pmmap len] is register [x0] after
    system call 197 with [len] bytes, private and anonymous; [pager_at o R]
    holds when exactly the regions [R] have been granted. *)
Class Pager (K : Type) := {
  pmmap : Z → M K Z;
  pager_at : K → list (Z * Z) → Prop;
  pmmap_spec o R len : pager_at o R → 0 < len <= 2 ^ 47 → len mod 4096 = 0 →
    ∃ r o', pmmap len o = Done (r, o') ∧
      (2 ^ 64 - 4096 < r < 2 ^ 64 ∧ pager_at o' R ∨
       4096 <= r ∧ r mod 4096 = 0 ∧ r + len <= 2 ^ 47 ∧
       (∀ a n, (a, n) ∈ R → a + n <= r ∨ r + len <= a) ∧ pager_at o' ((r, len) :: R))
}.

(** The statics of [stdlib.c], with the memory of the process and the kernel. *)
Record ust (K : Type) := mk_ust {
  um : mem;
  global_base : Z;
  environ : Z;
  env_alloc_map : Z;
  environ_malloced : Z;
  uos : K
}.
Arguments mk_ust {K}.
Arguments um {K}.
Arguments global_base {K}.
Arguments environ {K}.
Arguments env_alloc_map {K}.
Arguments environ_malloced {K}.
Arguments uos {K}.

Section Malloc.
Context {K : Type} `{!Pager K} (fuel : nat).
Implicit Types s : ust K.

Definition set_um (m : mem) s : ust K :=
  mk_ust m (global_base s) (environ s) (env_alloc_map s) (environ_malloced s) (uos s).
Definition set_base (b : Z) s : ust K := mk_ust (um s) b (environ s) (env_alloc_map s) (environ_malloced s) (uos s).

(** ** The code *)

Definition rd64 (a : Z) : M (ust K) Z := gets (λ s, load64 (um s) a).
Definition rd32 (a : Z) : M (ust K) Z := gets (λ s, load32 (um s) a).
Definition wr64 (a v : Z) : M (ust K) unit := modify (λ s, set_um (store64 (um s) a v) s).
Definition wr32 (a v : Z) : M (ust K) unit := modify (λ s, set_um (store32 (um s) a v) s).

(** The fields of [block_meta_t]. *)
Definition blk_size (b : Z) := rd64 b.
Definition blk_next (b : Z) := rd64 (b + 8).
Definition blk_prev (b : Z) := rd64 (b + 16).
Definition blk_free (b : Z) := rd32 (b + 24).
Definition blk_magic (b : Z) := rd32 (b + 28).
Definition set_size (b v : Z) := wr64 b v.
Definition set_next (b v : Z) := wr64 (b + 8) v.
Definition set_prev (b v : Z) := wr64 (b + 16) v.
Definition set_free (b v : Z) := wr32 (b + 24) v.
Definition set_magic (b v : Z) := wr32 (b + 28) v.

(** Anonymous pages arrive zeroed. *)
Definition zero_fill (m : mem) (a n : Z) : mem := λ x, if (a <=? x) && (x <? a + n) then 0 else m x.
Definition mmap (len : Z) : M (ust K) Z := λ s,
  match pmmap len (uos s) with
  | Done (r, o) =>
      Done (r, mk_ust (if r <? 2 ^ 63 then zero_fill (um s) r len else um s)
                 (global_base s) (environ s) (env_alloc_map s) (environ_malloced s) o)
  | Fault => Fault
  | Stuck => Stuck
  end.

Definition request_size (size : Z) : Z := u64 (u64 (u64 (size + BLOCK_HEADER_SIZE) + 4095) / 4096 * 4096).

Definition request_space (last size : Z) : M (ust K) Z :=
  let alloc_size := request_size size in
  block <- mmap alloc_size;;
  if block =? MAP_FAILED then ret 0
  else
    (if last =? 0 then ret tt else set_next last block);;;
    set_size block (u64 (alloc_size - BLOCK_HEADER_SIZE));;;
    set_next block 0;;;
    set_prev block last;;;
    set_free block 1;;;
    set_magic block MAGIC;;;
    ret block.

(** The block found (0 for none) and the final [*last]. *)
Fixpoint find_free_loop (n : nat) (size current last : Z) : M (ust K) (Z * Z) :=
  match n with
  | O => faultM
  | S n' =>
      if current =? 0 then ret (0, last)
      else
        f <- blk_free current;;
        sz <- blk_size current;;
        if negb (f =? 0) && (size <=? sz) then ret (current, last)
        else nx <- blk_next current;; find_free_loop n' size nx current
  end.
Definition find_free_block (last size : Z) : M (ust K) (Z * Z) :=
  b <- gets global_base;; find_free_loop fuel size b last.

Definition split_block (block size : Z) : M (ust K) unit :=
  sz <- blk_size block;;
  if u64 (size + BLOCK_HEADER_SIZE + ALIGNMENT) <=? sz then
    let new_block := u64 (block + BLOCK_HEADER_SIZE + size) in
    set_size new_block (u64 (sz - size - BLOCK_HEADER_SIZE));;;
    nx <- blk_next block;;
    set_next new_block nx;;;
    set_prev new_block block;;;
    set_free new_block 1;;;
    set_magic new_block MAGIC;;;
    nx <- blk_next new_block;;
    (if nx =? 0 then ret tt else set_prev nx new_block);;;
    set_size block size;;;
    set_next block new_block
  else ret tt.

Definition malloc (size : Z) : M (ust K) Z :=
  if size <=? 0 then ret 0
  else
    let aligned_size := ALIGN size in
    base <- gets global_base;;
    block <- (if base =? 0 then
                block <- request_space 0 aligned_size;;
                if block =? 0 then ret 0 else modify (set_base block);;; ret block
              else
                r <- find_free_block base aligned_size;;
                let '(block, last) := r in
                if block =? 0 then request_space last aligned_size
                else split_block block aligned_size;;; set_free block 0;;; ret block);;
    if block =? 0 then ret 0
    else
      f <- blk_free block;;
      (if negb (f =? 0) then split_block block aligned_size;;; set_free block 0 else ret tt);;;
      ret (u64 (block + BLOCK_HEADER_SIZE)).

(** The two coalescing steps of [free]. *)
Definition coalesce_next (block : Z) : M (ust K) unit :=
  nx <- blk_next block;;
  nfree <- (if nx =? 0 then ret 0 else blk_free nx);;
  if negb (nfree =? 0) then
    sz <- blk_size block;;
    if block + BLOCK_HEADER_SIZE + sz =? nx then
      nsz <- blk_size nx;;
      set_size block (u64 (sz + (BLOCK_HEADER_SIZE + nsz)));;;
      nn <- blk_next nx;;
      set_next block nn;;;
      if nn =? 0 then ret tt else set_prev nn block
    else ret tt
  else ret tt.
Definition coalesce_prev (block : Z) : M (ust K) unit :=
  pv <- blk_prev block;;
  pfree <- (if pv =? 0 then ret 0 else blk_free pv);;
  if negb (pfree =? 0) then
    psz <- blk_size pv;;
    if pv + BLOCK_HEADER_SIZE + psz =? block then
      sz <- blk_size block;;
      set_size pv (u64 (psz + (BLOCK_HEADER_SIZE + sz)));;;
      nx <- blk_next block;;
      set_next pv nx;;;
      if nx =? 0 then ret tt else set_prev nx pv
    else ret tt
  else ret tt.

Definition free (ptr : Z) : M (ust K) unit :=
  if ptr =? 0 then ret tt
  else
    let block := ptr - BLOCK_HEADER_SIZE in
    mg <- blk_magic block;;
    if negb (mg =? MAGIC) then ret tt
    else
      set_free block 1;;;
      coalesce_next block;;;
      coalesce_prev block.

Definition calloc (nelem elsize : Z) : M (ust K) Z :=
  let size := u64 (nelem * elsize) in
  ptr <- malloc size;;
  (if ptr =? 0 then ret tt else modify (λ s, set_um (memset (um s) ptr 0 size) s));;;
  ret ptr.

Definition realloc (ptr size : Z) : M (ust K) Z :=
  if ptr =? 0 then malloc size
  else if size =? 0 then free ptr;;; ret 0
  else
    let block := ptr - BLOCK_HEADER_SIZE in
    sz <- blk_size block;;
    if size <=? sz then ret ptr
    else
      new_ptr <- malloc size;;
      if new_ptr =? 0 then ret 0
      else
        sz <- blk_size block;;
        modify (λ s, set_um (memcpy (um s) new_ptr ptr sz) s);;;
        free ptr;;;
        ret new_ptr.

(** [strdup], of [string.c]. *)
Definition strdup (str : Z) : M (ust K) Z :=
  if str =? 0 then ret 0
  else
    m <- gets um;;
    l <- of_opt (strlen fuel m str);;
    let len := l + 1 in
    d <- malloc len;;
    if d =? 0 then ret 0
    else modify (λ s, set_um (memcpy (um s) d str len) s);;; ret d.

End Malloc.

(** ** The block list *)

Record blk := mk_blk { b_addr : Z; b_size : Z; b_free : bool }.
#[export] Instance blk_eq_dec : EqDecision blk.
Proof. solve_decision. Defined.
Definition b_end (b : blk) : Z := b_addr b + 32 + b_size b.

(** The header of [b] in memory, with its links. *)
Definition hdr_is (m : mem) (b : blk) (prev next : Z) : Prop :=
  load64 m (b_addr b) = b_size b ∧ load64 m (b_addr b + 8) = next ∧ load64 m (b_addr b + 16) = prev ∧
  load32 m (b_addr b + 24) = (if b_free b then 1 else 0) ∧ load32 m (b_addr b + 28) = MAGIC.

Definition hd_addr (bs : list blk) (n : Z) : Z := match bs with [] => n | b :: _ => b_addr b end.
Definition last_addr (bs : list blk) (p : Z) : Z := match last bs with None => p | Some b => b_addr b end.
Fixpoint bseg (m : mem) (p : Z) (bs : list blk) (n : Z) : Prop :=
  match bs with
  | [] => True
  | b :: bs' => hdr_is m b p (hd_addr bs' n) ∧ bseg m (b_addr b) bs' n
  end.

Definition blk_ok (b : blk) : Prop :=
  4096 <= b_addr b ∧ b_addr b mod 16 = 0 ∧ 0 <= b_size b ∧ b_size b mod 16 = 0 ∧ b_end b <= 2 ^ 47.
Definition sep (b c : blk) : Prop := b_end b <= b_addr c ∨ b_end c <= b_addr b.
Fixpoint apart (bs : list blk) : Prop :=
  match bs with [] => True | b :: bs' => Forall (sep b) bs' ∧ apart bs' end.
Definition covered (R : list (Z * Z)) (x : Z) : Prop := ∃ a n, (a, n) ∈ R ∧ a <= x < a + n.
Definition covers (R : list (Z * Z)) (b : blk) : Prop := ∀ x, b_addr b <= x < b_end b → covered R x.
(** No two neighbours of the list are free and adjacent in memory. *)
Fixpoint coal (bs : list blk) : Prop :=
  match bs with
  | [] => True
  | b :: bs' => match bs' with
                | [] => True
                | c :: _ => ¬ (b_free b = true ∧ b_free c = true ∧ b_end b = b_addr c)
                end ∧ coal bs'
  end.

Record inv0 (R : list (Z * Z)) (m : mem) (base : Z) (bs : list blk) : Prop := mk_inv0 {
  i_base : base = hd_addr bs 0;
  i_seg : bseg m 0 bs 0;
  i_ok : Forall blk_ok bs;
  i_apart : apart bs;
  i_cov : Forall (covers R) bs
}.

(** What the allocator may write: headers and free payloads. *)
Definition touch (bs : list blk) (x : Z) : Prop :=
  ∃ b, b ∈ bs ∧ (b_addr b <= x < b_addr b + 32 ∨ b_free b = true ∧ b_addr b <= x < b_end b).

(** *** Headers in memory *)

Ltac hdr_solve :=
  unfold hdr_is, load64, load32, store64, store32 in *; cbn [b_addr b_size b_free] in *;
  repeat match goal with H : _ ∧ _ |- _ => destruct H end;
  split_and!;
  repeat first
    [ rewrite load_store_le_ne by (cbn; lia)
    | rewrite load_store_le, Z.mod_small by (cbn; unfold MAGIC; lia) ];
  try done; try congruence; try lia.

Lemma hdr_ext m m' b p n : (∀ x, b_addr b <= x < b_addr b + 32 → m' x = m x) → hdr_is m b p n → hdr_is m' b p n.
Proof.
  intros Hx (H1 & H2 & H3 & H4 & H5). unfold hdr_is, load64, load32 in *.
  split_and!; (erewrite load_le_ext; [eassumption|]); intros x ?; apply Hx; lia.
Qed.
Lemma hdr_set_size m b p n v : 0 <= v < 2 ^ 64 → hdr_is m b p n →
  hdr_is (store64 m (b_addr b) v) (mk_blk (b_addr b) v (b_free b)) p n.
Proof. intros Hv H. hdr_solve. Qed.
Lemma hdr_set_next m b p n v : 0 <= v < 2 ^ 64 → hdr_is m b p n → hdr_is (store64 m (b_addr b + 8) v) b p v.
Proof. intros Hv H. hdr_solve. Qed.
Lemma hdr_set_prev m b p n v : 0 <= v < 2 ^ 64 → hdr_is m b p n → hdr_is (store64 m (b_addr b + 16) v) b v n.
Proof. intros Hv H. hdr_solve. Qed.
Lemma hdr_set_free m b p n (f : bool) : hdr_is m b p n →
  hdr_is (store32 m (b_addr b + 24) (if f then 1 else 0)) (mk_blk (b_addr b) (b_size b) f) p n.
Proof. intros H. destruct f; hdr_solve. Qed.
Lemma hdr_new m a sz p n : 0 <= sz < 2 ^ 64 → 0 <= p < 2 ^ 64 → 0 <= n < 2 ^ 64 →
  hdr_is (store32 (store32 (store64 (store64 (store64 m a sz) (a + 8) n) (a + 16) p) (a + 24) 1) (a + 28) MAGIC)
    (mk_blk a sz true) p n.
Proof. intros Hs Hp Hn. hdr_solve. Qed.

(** *** Segments *)

Lemma bseg_app m l1 l2 : ∀ p n,
  bseg m p (l1 ++ l2) n ↔ bseg m p l1 (hd_addr l2 n) ∧ bseg m (last_addr l1 p) l2 n.
Proof.
  induction l1 as [|b l1 IH]; intros p n; cbn [app bseg].
  { unfold last_addr. simpl. tauto. }
  rewrite IH. replace (last_addr (b :: l1) p) with (last_addr l1 (b_addr b)).
  2:{ unfold last_addr. rewrite last_cons. by destruct (last l1). }
  replace (hd_addr (l1 ++ l2) n) with (hd_addr l1 (hd_addr l2 n)) by (by destruct l1). tauto.
Qed.
Lemma bseg_ext m m' bs : ∀ p n,
  (∀ b, b ∈ bs → ∀ x, b_addr b <= x < b_addr b + 32 → m' x = m x) → bseg m p bs n → bseg m' p bs n.
Proof.
  induction bs as [|b bs IH]; intros p n Hx; cbn [bseg]; [done|]. intros [Hh Hs]. split.
  - eapply hdr_ext; [|done]. apply Hx. left.
  - apply IH; [|done]. intros c Hc. apply Hx. by right.
Qed.
Lemma bseg_hdr m bs b : ∀ p n, bseg m p bs n → b ∈ bs → ∃ p' n', hdr_is m b p' n'.
Proof.
  induction bs as [|c bs IH]; intros p n; cbn [bseg]; [by intros _ ?%elem_of_nil|].
  intros [Hh Hs] [->|Hb]%elem_of_cons; [by do 2 eexists|by eapply IH].
Qed.

Lemma apart_app l1 l2 : apart (l1 ++ l2) ↔ apart l1 ∧ apart l2 ∧ Forall (λ b, Forall (sep b) l2) l1.
Proof.
  induction l1 as [|b l1 IH]; cbn [app apart].
  { split; [intros; split_and!; [done|done|constructor]|tauto]. }
  rewrite IH, Forall_app, Forall_cons. tauto.
Qed.
Lemma apart_mid l1 b l2 : apart (l1 ++ b :: l2) →
  (∀ c, c ∈ l1 → sep c b) ∧ (∀ c, c ∈ l2 → sep b c) ∧ (∀ c d, c ∈ l1 → d ∈ l2 → sep c d) ∧ apart l1 ∧ apart l2.
Proof.
  rewrite apart_app. cbn [apart]. intros (H1 & (H2 & H3) & H4). rewrite Forall_forall in H2, H4.
  split_and!; [|done| |done|done].
  - intros c Hc. specialize (H4 c Hc). by apply Forall_cons in H4 as [? _].
  - intros c d Hc Hd. specialize (H4 c Hc). apply Forall_cons in H4 as [_ H4]. rewrite Forall_forall in H4. by apply H4.
Qed.

Lemma coal_app l1 b l2 : coal (l1 ++ b :: l2) ↔ coal (l1 ++ [b]) ∧ coal (b :: l2).
Proof.
  induction l1 as [|a l1 IH]; cbn [app].
  { cbn [coal]. tauto. }
  destruct l1 as [|c l1]; cbn [app coal] in *; [tauto|]. rewrite IH. tauto.
Qed.
Lemma coal_cons b l : coal (b :: l) → coal l.
Proof. cbn [coal]. tauto. Qed.
(** A used block separates. *)
Lemma coal_used l1 b l2 : b_free b = false → coal l1 → coal l2 → coal (l1 ++ b :: l2).
Proof.
  intros Hb H1 H2. apply coal_app. split.
  - induction l1 as [|a l1 IH]; cbn [app coal]; [done|]. destruct l1 as [|c l1]; cbn [app] in *.
    + split; [|done]. rewrite Hb. by intros (_ & ? & _).
    + destruct H1 as [? H1]. split; [done|]. by apply IH.
  - cbn [coal]. split; [|done]. destruct l2; [done|]. rewrite Hb. by intros (? & _).
Qed.
Lemma coal_prefix l1 l2 : coal (l1 ++ l2) → coal l1.
Proof.
  induction l1 as [|a l1 IH]; cbn [app coal]; [done|]. intros [H1 H2]. split; [by destruct l1|by apply IH].
Qed.
Lemma coal_suffix l1 l2 : coal (l1 ++ l2) → coal l2.
Proof. induction l1 as [|a l1 IH]; [done|]. intros H%coal_cons. by apply IH. Qed.

(** The link back from the head of a segment. *)
Lemma bseg_set_prev m p q bs : 0 <= q < 2 ^ 64 → apart bs → Forall blk_ok bs → bseg m p bs 0 →
  bseg (if hd_addr bs 0 =? 0 then m else store64 m (hd_addr bs 0 + 16) q) q bs 0.
Proof.
  intros Hq Ha Hok Hs. destruct bs as [|b bs]; [done|]. cbn [hd_addr bseg apart] in *.
  apply Forall_cons in Hok as [Hb Hok]. destruct Ha as [Ha _]. destruct Hs as [Hh Hs].
  unfold blk_ok, b_end in Hb. rewrite (proj2 (Z.eqb_neq (b_addr b) 0)) by lia. split; [by eapply hdr_set_prev|].
  eapply bseg_ext; [|done]. intros c Hc x Hx. apply store_le_out.
  rewrite Forall_forall in Ha, Hok. specialize (Ha c Hc). specialize (Hok c Hc). unfold sep, blk_ok, b_end in *. lia.
Qed.

(** *** Replacing the middle of the list *)

Definition in_blk (b : blk) (x : Z) : Prop := b_addr b <= x < b_end b.
Lemma sep_points b c : blk_ok b → blk_ok c → (∀ x, in_blk b x → in_blk c x → False) → sep b c.
Proof.
  unfold blk_ok, sep, in_blk, b_end. intros Hb Hc H.
  destruct (Z.leb_spec (b_addr b + 32 + b_size b) (b_addr c)); [by left|].
  destruct (Z.leb_spec (b_addr c + 32 + b_size c) (b_addr b)); [by right|].
  destruct (H (Z.max (b_addr b) (b_addr c))); lia.
Qed.
Lemma sep_disjoint b c x : sep b c → in_blk b x → in_blk c x → False.
Proof. unfold sep, in_blk. lia. Qed.

Lemma inv_replace R m m' base l1 os ms l2 :
  inv0 R m base (l1 ++ os ++ l2) → os ≠ [] → ms ≠ [] → hd_addr ms 0 = hd_addr os 0 →
  bseg m' (last_addr l1 0) ms (hd_addr l2 0) → bseg m' (last_addr ms 0) l2 0 →
  (∀ b, b ∈ l1 → ∀ x, b_addr b <= x < b_addr b + 32 → m' x = m x) →
  Forall blk_ok ms → apart ms → (∀ c x, c ∈ ms → in_blk c x → ∃ o, o ∈ os ∧ in_blk o x) →
  inv0 R m' base (l1 ++ ms ++ l2).
Proof.
  intros [Hb Hs Hok Hap Hcov] Hos Hms Hhd Hsm Hs2 Hm1 Hokm Hapm Hsub.
  apply Forall_app in Hok as [Hok1 Hok]. apply Forall_app in Hok as [Hoko Hok2].
  apply Forall_app in Hcov as [Hcov1 Hcov]. apply Forall_app in Hcov as [Hcovo Hcov2].
  apply apart_app in Hap as (Ha1 & Ha & Ha12). apply apart_app in Ha as (_ & Ha2 & Hao2).
  apply bseg_app in Hs as [Hs1 _].
  rewrite Forall_forall in Hok1, Hoko, Hok2, Hcov1, Hcovo, Hcov2, Ha12, Hao2.
  assert (Hout : ∀ c d x, c ∈ ms → (d ∈ l1 ∨ d ∈ l2) → in_blk c x → in_blk d x → False).
  { intros c d x Hc Hd Hcx Hdx. destruct (Hsub c x Hc Hcx) as (o & Ho & Hox). destruct Hd as [Hd|Hd].
    - specialize (Ha12 d Hd). rewrite Forall_forall in Ha12. eapply (sep_disjoint d o x); [apply Ha12|done..]. by apply elem_of_app; left.
    - specialize (Hao2 o Ho). rewrite Forall_forall in Hao2. eapply (sep_disjoint o d x); [by apply Hao2|done..]. }
  assert (∀ n, hd_addr (ms ++ l2) n = hd_addr (os ++ l2) n) as Hhd'.
  { intros n. destruct ms, os; done. }
  split.
  - rewrite Hb. destruct l1; [|done]. simpl. by rewrite Hhd'.
  - apply bseg_app. split; [rewrite Hhd'; by eapply bseg_ext|]. apply bseg_app. split; [done|].
    replace (last_addr ms (last_addr l1 0)) with (last_addr ms 0); [done|].
    unfold last_addr at 1 2. destruct (last ms) eqn:E; [done|]. by apply last_None in E.
  - rewrite !Forall_app, !Forall_forall. split_and!; [done| |done]. by apply Forall_forall.
  - rewrite Forall_forall in Hokm. apply apart_app. split; [done|]. split.
    + apply apart_app. split; [done|]. split; [done|]. apply Forall_forall. intros c Hc. apply Forall_forall. intros d Hd.
      apply sep_points; [by apply Hokm|by apply Hok2|]. intros x. apply Hout; auto.
    + apply Forall_forall. intros d Hd. apply Forall_forall. intros c [Hc|Hc]%elem_of_app.
      * apply sep_points; [by apply Hok1|by apply Hokm|]. intros x H1 H2. eapply Hout; eauto.
      * specialize (Ha12 d Hd). rewrite Forall_forall in Ha12. apply Ha12, elem_of_app. by right.
  - rewrite !Forall_app, !Forall_forall. split_and!; [done| |done].
    intros c Hc x Hx. destruct (Hsub c x Hc Hx) as (o & Ho & Hox). by apply (Hcovo o Ho).
Qed.

Lemma inv_mid R m base l1 b l2 : inv0 R m base (l1 ++ b :: l2) →
  hdr_is m b (last_addr l1 0) (hd_addr l2 0) ∧ bseg m (b_addr b) l2 0 ∧ blk_ok b ∧ Forall blk_ok l1 ∧ Forall blk_ok l2.
Proof.
  intros [_ Hs Hok _ _]. apply bseg_app in Hs as [_ Hs]. cbn [bseg] in Hs. apply Forall_app in Hok as [? Hok].
  apply Forall_cons in Hok as [? ?]. tauto.
Qed.
Lemma last_addr_ok l : Forall blk_ok l → 0 <= last_addr l 0 < 2 ^ 47.
Proof.
  intros H. unfold last_addr. destruct (last l) as [b|] eqn:E; [|lia].
  apply last_Some in E as [l' ->]. apply Forall_app in H as [_ H]. apply Forall_cons in H as [H _].
  unfold blk_ok, b_end in H. lia.
Qed.
Lemma hd_addr_ok l : Forall blk_ok l → 0 <= hd_addr l 0 < 2 ^ 47 ∧ (hd_addr l 0 = 0 ↔ l = []).
Proof.
  intros H. destruct l as [|b l]; [simpl; split; [lia|done]|]. apply Forall_cons in H as [H _].
  unfold blk_ok, b_end in H. simpl. split; [lia|]. split; [lia|done].
Qed.

(** *** Carving a block for use *)

Definition split_mem (m : mem) (b n : Z) : mem :=
  let sz := load64 m b in
  if u64 (n + 32 + 16) <=? sz then
    let nb := u64 (b + 32 + n) in
    let m := store64 m nb (u64 (sz - n - 32)) in
    let m := store64 m (nb + 8) (load64 m (b + 8)) in
    let m := store64 m (nb + 16) b in
    let m := store32 m (nb + 24) 1 in
    let m := store32 m (nb + 28) MAGIC in
    let m := if load64 m (nb + 8) =? 0 then m else store64 m (load64 m (nb + 8) + 16) nb in
    store64 (store64 m b n) (b + 8) nb
  else m.
Lemma split_block_run {K} (s : ust K) b n : split_block b n s = Done (tt, set_um (split_mem (um s) b n) s).
Proof.
  unfold split_block, blk_size, rd64. unfold bind at 1. unfold gets at 1. cbv beta iota. unfold split_mem.
  change BLOCK_HEADER_SIZE with 32. change ALIGNMENT with 16. cbv zeta.
  destruct (u64 (n + 32 + 16) <=? load64 (um s) b); [|by destruct s].
  unfold blk_next, set_size, set_next, set_prev, set_free, set_magic, rd64, wr64, wr32, bind, gets, modify, ret.
  cbn [um set_um]. match goal with |- context [?x =? 0] => destruct (x =? 0) end; reflexivity.
Qed.

Definition carve_mem (m : mem) (b n : Z) : mem := store32 (split_mem m b n) (b + 24) 0.
Definition carved (b : blk) (n : Z) : list blk :=
  if n + 48 <=? b_size b then [mk_blk (b_addr b) n false; mk_blk (b_addr b + 32 + n) (b_size b - n - 32) true]
  else [mk_blk (b_addr b) (b_size b) false].

Lemma set_free_spec (f : bool) R m base l1 b l2 : inv0 R m base (l1 ++ b :: l2) →
  inv0 R (store32 m (b_addr b + 24) (if f then 1 else 0)) base (l1 ++ mk_blk (b_addr b) (b_size b) f :: l2).
Proof.
  intros Hi. pose proof (inv_mid _ _ _ _ _ _ Hi) as (Hh & Hs2 & Hb & Hok1 & Hok2).
  pose proof (apart_mid _ _ _ (i_apart _ _ _ _ Hi)) as (Hs1b & Hsb2 & _ & _ & Ha2).
  rewrite Forall_forall in Hok1, Hok2. unfold blk_ok, b_end in Hb.
  apply (inv_replace R m _ base l1 [b] [mk_blk (b_addr b) (b_size b) f] l2); try done.
  - split; [|done]. by apply hdr_set_free.
  - eapply bseg_ext; [|done]. intros c Hc x Hx. apply store_le_out. specialize (Hsb2 c Hc). specialize (Hok2 c Hc).
    unfold sep, blk_ok, b_end in *. lia.
  - intros c Hc x Hx. apply store_le_out. specialize (Hs1b c Hc). specialize (Hok1 c Hc). unfold sep, blk_ok, b_end in *. lia.
  - apply Forall_singleton. done.
  - intros c x ->%list_elem_of_singleton Hx. exists b. split; [left|done].
Qed.

(** The block list and header disjointness of a middle block, in one place. *)
Lemma mid_bounds R m base l1 b l2 c : inv0 R m base (l1 ++ b :: l2) → c ∈ l1 ++ l2 →
  4096 <= b_addr c ∧ 0 <= b_size c ∧ b_end c <= 2 ^ 47 ∧ (b_end c <= b_addr b ∨ b_end b <= b_addr c).
Proof.
  intros Hi Hc. pose proof (inv_mid _ _ _ _ _ _ Hi) as (_ & _ & _ & Hok1 & Hok2).
  pose proof (apart_mid _ _ _ (i_apart _ _ _ _ Hi)) as (Hs1b & Hsb2 & _).
  rewrite Forall_forall in Hok1, Hok2. apply elem_of_app in Hc as [Hc|Hc].
  - specialize (Hs1b c Hc). specialize (Hok1 c Hc). unfold sep, blk_ok, b_end in *. lia.
  - specialize (Hsb2 c Hc). specialize (Hok2 c Hc). unfold sep, blk_ok, b_end in *. lia.
Qed.

Lemma split_cond b n : blk_ok b → 0 < n <= b_size b → (u64 (n + 32 + 16) <=? b_size b) = (n + 48 <=? b_size b).
Proof. unfold blk_ok, b_end. intros H Hn. rewrite u64_id by lia. f_equal. lia. Qed.

Lemma split_ok b n f f' : blk_ok b → 0 < n → n mod 16 = 0 → n + 48 <= b_size b →
  blk_ok (mk_blk (b_addr b) n f) ∧ blk_ok (mk_blk (b_addr b + 32 + n) (b_size b - n - 32) f').
Proof.
  unfold blk_ok, b_end. cbn. intros (H1 & H2 & H3 & H4 & H5) Hn Hn16 Hle. split; split_and!; try lia; zlia.
Qed.

(** Stores inside [b] past its header, and to the link of the next block,
    do not disturb the blocks before. *)
Lemma split_spec R m base l1 b l2 n : inv0 R m base (l1 ++ b :: l2) →
  0 < n → n mod 16 = 0 → n + 48 <= b_size b →
  let nb := mk_blk (b_addr b + 32 + n) (b_size b - n - 32) true in
  inv0 R (split_mem m (b_addr b) n) base (l1 ++ mk_blk (b_addr b) n (b_free b) :: nb :: l2) ∧
  ∀ x, (x < b_addr b ∨ b_end b <= x) → (l2 = [] ∨ x < hd_addr l2 0 + 16 ∨ hd_addr l2 0 + 24 <= x) →
    split_mem m (b_addr b) n x = m x.
Proof.
  intros Hi Hn Hn16 Hle nb. pose proof (inv_mid _ _ _ _ _ _ Hi) as (Hh & Hs2 & Hb & Hok1 & Hok2).
  pose proof (apart_mid _ _ _ (i_apart _ _ _ _ Hi)) as (_ & _ & _ & _ & Ha2).
  pose proof (mid_bounds R m base l1 b l2) as Hmid.
  assert (Hc1 : ∀ c, c ∈ l1 ++ l2 → _) by (intros c Hc; exact (Hmid c Hi Hc)). clear Hmid.
  pose proof (last_addr_ok l1 Hok1) as Hl1. pose proof (hd_addr_ok l2 Hok2) as [Hl2 Hl20].
  pose proof Hh as (Hsz & Hnx & _). unfold split_mem. rewrite Hsz, split_cond by (done || lia).
  rewrite (proj2 (Z.leb_le _ _)) by lia. unfold blk_ok, b_end in Hb. rewrite !u64_id by lia. cbv zeta.
  change (b_addr b + 32 + n) with (b_addr nb). change (b_size b - n - 32) with (b_size nb).
  assert (Hnb : b_addr b + 32 < b_addr nb ∧ b_addr nb + 32 <= b_end b ∧ b_end nb = b_end b) by (subst nb; unfold b_end; cbn; lia).
  unfold b_end in Hnb, Hc1.
  assert (load64 (store64 m (b_addr nb) (b_size nb)) (b_addr b + 8) = hd_addr l2 0) as ->.
  { unfold load64, store64. rewrite load_store_le_ne by lia. exact Hnx. }
  set (m5 := store32 _ (b_addr nb + 28) MAGIC).
  assert (H5 : hdr_is m5 nb (b_addr b) (hd_addr l2 0)) by (apply hdr_new; subst nb; cbn; lia).
  assert (F5 : ∀ x, x < b_addr nb ∨ b_addr nb + 32 <= x → m5 x = m x).
  { intros x Hx. subst m5. unfold store32, store64. rewrite !store_le_out by lia. done. }
  pose proof H5 as (_ & -> & _).
  set (m6 := if hd_addr l2 0 =? 0 then m5 else store64 m5 (hd_addr l2 0 + 16) (b_addr nb)).
  assert (H6 : bseg m6 (b_addr nb) l2 0).
  { apply (bseg_set_prev m5 (b_addr b)); try done; [lia|]. eapply bseg_ext; [|done]. intros c Hc x Hx. apply F5.
    specialize (Hc1 c ltac:(apply elem_of_app; by right)). lia. }
  assert (F6 : ∀ x, l2 = [] ∨ x < hd_addr l2 0 + 16 ∨ hd_addr l2 0 + 24 <= x → m6 x = m5 x).
  { intros x Hx. subst m6. destruct (Z.eqb_spec (hd_addr l2 0) 0) as [E|E]; [done|].
    apply store_le_out. destruct Hx as [Hx|Hx]; [|lia]. apply Hl20 in Hx. lia. }
  assert (Hd2 : l2 = [] ∨ hd_addr l2 0 + 32 <= b_addr b ∨ b_addr b + 32 + b_size b <= hd_addr l2 0).
  { destruct l2 as [|c l2]; [by left|]. right. specialize (Hc1 c ltac:(apply elem_of_app; right; left)). cbn [hd_addr]. lia. }
  set (m8 := store64 (store64 m6 (b_addr b) n) (b_addr b + 8) (b_addr nb)).
  assert (F8 : ∀ x, x < b_addr b ∨ b_addr b + 16 <= x → m8 x = m6 x).
  { intros x Hx. subst m8. unfold store64. rewrite !store_le_out by lia. done. }
  split.
  - change (mk_blk (b_addr b) n (b_free b) :: nb :: l2) with ([mk_blk (b_addr b) n (b_free b); nb] ++ l2).
    apply (inv_replace R m m8 base l1 [b]); try done.
    + split; [|split; [|done]].
      * apply (hdr_set_next _ (mk_blk (b_addr b) n (b_free b)) _ (hd_addr l2 0)); [subst nb; cbn; lia|].
        eapply (hdr_set_size m6 b _ _ n); [lia|]. eapply hdr_ext; [|done].
        intros x Hx. rewrite F6 by (destruct Hd2 as [->|]; [by left|lia]). apply F5. lia.
      * eapply hdr_ext; [|exact H5]. intros x Hx. rewrite F8 by lia. apply F6. destruct Hd2 as [->|]; [by left|lia].
    + eapply bseg_ext; [|exact H6]. intros c Hc x Hx. apply F8. specialize (Hc1 c ltac:(apply elem_of_app; by right)). lia.
    + intros c Hc x Hx. pose proof (Hc1 c ltac:(apply elem_of_app; by left)) as Hcb. rewrite F8 by lia.
      rewrite F6; [apply F5; lia|]. destruct l2 as [|d l2]; [by left|]. right. cbn [hd_addr].
      pose proof (apart_mid _ _ _ (i_apart _ _ _ _ Hi)) as (_ & _ & H12 & _). specialize (H12 c d Hc ltac:(left)).
      apply Forall_cons in Hok2 as [Hd _]. unfold sep, blk_ok, b_end in *. lia.
    + apply Forall_cons. destruct (split_ok b n (b_free b) true Hb Hn Hn16 Hle) as [H1 H2]. split; [done|]. by apply Forall_singleton.
    + cbn [apart]. repeat split; try constructor; [|constructor]. unfold sep, b_end. subst nb. cbn. lia.
    + intros c x Hc Hx. exists b. split; [left|]. unfold in_blk, b_end in *. subst nb. 
      apply elem_of_cons in Hc as [->|[->|?%elem_of_nil]%elem_of_cons]; cbn in Hx; lia || done.
  - intros x Hx1 Hx2. unfold b_end in Hx1. rewrite F8 by lia. rewrite F6 by done. apply F5. lia.
Qed.

Lemma carve_spec R m base l1 b l2 n : inv0 R m base (l1 ++ b :: l2) → b_free b = true →
  0 < n <= b_size b → n mod 16 = 0 →
  inv0 R (carve_mem m (b_addr b) n) base (l1 ++ carved b n ++ l2) ∧
  ∀ x, ¬ touch (l1 ++ b :: l2) x → carve_mem m (b_addr b) n x = m x.
Proof.
  intros Hi Hf Hn Hn16. pose proof (inv_mid _ _ _ _ _ _ Hi) as ((Hsz & _) & _ & Hb & _).
  assert (Hin : b ∈ l1 ++ b :: l2) by (apply elem_of_app; right; left).
  assert (Ht : ∀ x, ¬ touch (l1 ++ b :: l2) x → x < b_addr b ∨ b_end b <= x).
  { intros x Hx. destruct (decide (b_addr b <= x < b_end b)); [|lia]. destruct Hx. exists b. split; [done|]. by right. }
  assert (Hw : ∀ x, ¬ touch (l1 ++ b :: l2) x → x < b_addr b + 24 ∨ b_addr b + 24 + Z.of_nat 4 <= x).
  { intros x Hx%Ht. unfold blk_ok, b_end in *. lia. }
  unfold carve_mem, carved. destruct (Z.leb_spec (n + 48) (b_size b)) as [Hle|Hgt].
  - destruct (split_spec R m base l1 b l2 n Hi ltac:(lia) Hn16 Hle) as [Hi' Hfr]. rewrite Hf in Hi'.
    split; [exact (set_free_spec false _ _ _ l1 (mk_blk (b_addr b) n true) _ Hi')|].
    intros x Hx. unfold store32. rewrite store_le_out by (by apply Hw). apply Hfr; [by apply Ht|].
    destruct l2 as [|c l2]; [by left|]. right. cbn [hd_addr]. destruct (decide (b_addr c <= x < b_addr c + 32)); [|lia].
    destruct Hx. exists c. split; [apply elem_of_app; right; right; left|by left].
  - unfold split_mem. rewrite Hsz, split_cond by (done || lia). rewrite (proj2 (Z.leb_gt _ _)) by lia.
    split; [by apply (set_free_spec false)|]. intros x Hx. apply store_le_out. by apply Hw.
Qed.
Lemma carved_coal l1 b l2 n : coal l1 → coal (mk_blk (b_addr b) (b_size b) true :: l2) → coal (l1 ++ carved b n ++ l2).
Proof.
  intros H1 H2. unfold carved. case_match; cbn [app]; apply coal_used; try done.
  - cbn [coal] in *. destruct H2 as [H2 H2']. split; [|done]. destruct l2; [done|]. unfold b_end in *. cbn in *.
    intros (_ & H3 & H4). apply H2. split_and!; [done|done|lia].
  - by apply coal_cons in H2.
Qed.
(** The block handed out, and the blocks in use. *)
Definition live (bs : list blk) (b : blk) : Prop := b ∈ bs ∧ b_free b = false.
Lemma carved_live l1 b l2 n : b_free b = true → 0 < n <= b_size b → ∃ c, b_addr c = b_addr b ∧ n <= b_size c ∧
  b_end c <= b_end b ∧ live (l1 ++ carved b n ++ l2) c ∧
  ∀ d, live (l1 ++ carved b n ++ l2) d ↔ d = c ∨ live (l1 ++ b :: l2) d.
Proof.
  intros Hf Hn. set (c := mk_blk (b_addr b) (if n + 48 <=? b_size b then n else b_size b) false).
  assert (Hc : ∀ d, live (carved b n) d ↔ d = c).
  { intros d. unfold carved, c, live. case_match.
    - rewrite !elem_of_cons, elem_of_nil. split; [intros [[->|[->|?]] ?]; done|intros ->; by split; [left|]].
    - rewrite list_elem_of_singleton. split; [intros [-> ?]; done|by intros ->]. }
  exists c. split; [done|]. split; [unfold c; cbn; case_match; lia|]. split; [unfold c, b_end; cbn; case_match; lia|].
  assert (∀ d, live (l1 ++ carved b n ++ l2) d ↔ d = c ∨ live (l1 ++ b :: l2) d) as H.
  { intros d. rewrite <- Hc. unfold live. rewrite !elem_of_app, elem_of_cons.
    split; [tauto|]. intros [?|[[?|[->|?]] ?]]; [tauto..|congruence|tauto]. }
  split; [|done]. apply H. by left.
Qed.

(** *** Growing the heap *)

Lemma bseg_set_last m bs c v : ∀ p, 0 <= v < 2 ^ 64 → apart (bs ++ [c]) → Forall blk_ok (bs ++ [c]) →
  bseg m p (bs ++ [c]) 0 → bseg (store64 m (b_addr c + 8) v) p (bs ++ [c]) v.
Proof.
  intros p Hv Ha Hok Hs. apply bseg_app in Hs as [Hs1 Hs2]. apply apart_mid in Ha as (Hsep & _).
  apply Forall_app in Hok as [Hok1 Hokc]. apply Forall_cons in Hokc as [Hokc _]. rewrite Forall_forall in Hok1.
  apply bseg_app. split.
  - eapply bseg_ext; [|done]. intros b Hb x Hx. apply store_le_out. specialize (Hsep b Hb). specialize (Hok1 b Hb).
    unfold sep, blk_ok, b_end in *. lia.
  - destruct Hs2 as [Hh _]. split; [|done]. eapply hdr_set_next; [done|exact Hh].
Qed.

Lemma request_size_ok n : 0 < n <= 2 ^ 46 →
  n + 32 <= request_size n <= 2 ^ 47 ∧ request_size n mod 4096 = 0.
Proof.
  intros Hn. unfold request_size. change BLOCK_HEADER_SIZE with 32. rewrite (u64_id (n + 32)) by lia.
  rewrite (u64_id (n + 32 + 4095)) by lia. rewrite u64_id by zlia. split; [zlia|]. by rewrite Z.mod_mul.
Qed.

Definition grow_mem (m : mem) (last a len : Z) : mem :=
  let m := zero_fill m a len in
  let m := if last =? 0 then m else store64 m (last + 8) a in
  store32 (store32 (store64 (store64 (store64 m a (len - 32)) (a + 8) 0) (a + 16) last) (a + 24) 1) (a + 28) MAGIC.

Lemma grow_spec R m base bs a len : inv0 R m base bs →
  4096 <= a → a mod 4096 = 0 → a + len <= 2 ^ 47 → 32 < len → len mod 4096 = 0 →
  (∀ c n, (c, n) ∈ R → c + n <= a ∨ a + len <= c) →
  let nb := mk_blk a (len - 32) true in
  inv0 ((a, len) :: R) (grow_mem m (last_addr bs 0) a len) (hd_addr (bs ++ [nb]) 0) (bs ++ [nb]) ∧
  ∀ x, ¬ touch bs x → ¬ (a <= x < a + len) → grow_mem m (last_addr bs 0) a len x = m x.
Proof.
  intros [Hb Hs Hok Hap Hcov] Ha Ha16 Hal Hlen Hlen16 Hdis nb.
  assert (Hnb : blk_ok nb) by (unfold blk_ok, b_end, nb; cbn; split_and!; try lia; zlia).
  assert (Hout : ∀ b x, b ∈ bs → in_blk b x → ¬ (a <= x < a + len)).
  { intros b x Hbb Hx Hxa. rewrite Forall_forall in Hcov. destruct (Hcov b Hbb x Hx) as (c & n & Hc & Hcx). specialize (Hdis c n Hc). lia. }
  assert (Hsep : ∀ b, b ∈ bs → sep b nb).
  { intros b Hbb. apply sep_points; [by rewrite Forall_forall in Hok; apply Hok|done|].
    intros x Hx Hy. apply (Hout b x Hbb Hx). unfold in_blk, b_end, nb in Hy. cbn in Hy. lia. }
  set (m0 := zero_fill m a len). assert (F0 : ∀ x, ¬ (a <= x < a + len) → m0 x = m x).
  { intros x Hx. unfold m0, zero_fill. destruct (Z.leb_spec a x), (Z.ltb_spec x (a + len)); cbn; (done || lia). }
  pose proof (last_addr_ok bs Hok) as Hlast.
  assert (Hhdr : ∀ b, b ∈ bs → ∀ x, b_addr b <= x < b_addr b + 32 → in_blk b x).
  { intros b Hbb x Hx. rewrite Forall_forall in Hok. specialize (Hok b Hbb). unfold in_blk, blk_ok, b_end in *. lia. }
  set (m1 := if last_addr bs 0 =? 0 then m0 else store64 m0 (last_addr bs 0 + 8) a).
  assert (Hs1 : bseg m1 0 bs (if decide (bs = []) then 0 else a) ∧ ∀ x, ¬ touch bs x → m1 x = m0 x).
  { assert (Hs0 : bseg m0 0 bs 0) by (eapply bseg_ext; [|done]; intros b Hbb x Hx; apply F0; eapply Hout; eauto).
    destruct bs as [|c bs _] using rev_ind; [done|]. rewrite decide_False by (by destruct bs).
    subst m1. unfold last_addr. rewrite last_snoc.
    assert (blk_ok c) as Hc by (apply Forall_app in Hok as [_ Hok]; by apply Forall_cons in Hok as [Hok _]).
    unfold blk_ok in Hc. rewrite (proj2 (Z.eqb_neq _ 0)) by lia. split; [apply bseg_set_last; (done || lia)|].
    intros x Hx. apply store_le_out. destruct (decide (b_addr c <= x < b_addr c + 32)); [|lia].
    destruct Hx. exists c. split; [apply elem_of_app; right; left|by left]. }
  destruct Hs1 as [Hs1 F1].
  assert (F2 : ∀ x, ¬ (a <= x < a + len) → grow_mem m (last_addr bs 0) a len x = m1 x).
  { intros x Hx. unfold grow_mem. fold m0. fold m1. unfold store32, store64. rewrite !store_le_out by lia. done. }
  split.
  - split; [done| | | |].
    + apply bseg_app. split.
      * cbn [hd_addr]. destruct bs as [|c bs]; [done|]. eapply bseg_ext; [|exact Hs1]. intros b Hbb x Hx. apply F2. eapply Hout; eauto.
      * cbn [bseg hd_addr]. split; [|done]. unfold grow_mem. fold m0. fold m1. apply hdr_new; lia.
    + apply Forall_app. split; [done|]. by apply Forall_singleton.
    + apply apart_app. split; [done|]. split; [cbn; split; [constructor|done]|].
      apply Forall_forall. intros b Hbb. apply Forall_singleton. by apply Hsep.
    + apply Forall_app. split.
      * eapply Forall_impl; [done|]. intros b Hbb x Hx. destruct (Hbb x Hx) as (c & n & Hc & Hcx). exists c, n. split; [by right|done].
      * apply Forall_singleton. intros x Hx. unfold b_end, nb in Hx. cbn in Hx. exists a, len. split; [left|lia].
  - intros x Hx Hxa. rewrite F2, F1, F0 by done. done.
Qed.

(** *** Merging two neighbours *)

Definition merge_mem (m : mem) (a sz n : Z) : mem :=
  let m := store64 (store64 m a sz) (a + 8) n in
  if n =? 0 then m else store64 m (n + 16) a.

Lemma merge_spec R m base l1 a d l2 : inv0 R m base (l1 ++ a :: d :: l2) → b_end a = b_addr d →
  let ad := mk_blk (b_addr a) (b_size a + (32 + b_size d)) (b_free a) in
  inv0 R (merge_mem m (b_addr a) (b_size ad) (hd_addr l2 0)) base (l1 ++ ad :: l2) ∧
  ∀ x, ¬ touch (l1 ++ a :: d :: l2) x → merge_mem m (b_addr a) (b_size ad) (hd_addr l2 0) x = m x.
Proof.
  intros Hi Hadj ad. pose proof (inv_mid _ _ _ _ _ _ Hi) as (Hh & Hsd & Ha & Hok1 & Hok2).
  apply Forall_cons in Hok2 as [Hd Hok2]. destruct Hsd as [_ Hs2].
  pose proof (hd_addr_ok l2 Hok2) as [Hl2 Hl20]. 
  pose proof (apart_mid _ _ _ (i_apart _ _ _ _ Hi)) as (H1a & Ha2 & H12 & _ & Hap2). destruct Hap2 as [Hd2 Hap2].
  rewrite Forall_forall in Hd2, Hok1.
  assert (Hado : blk_ok ad) by (revert Ha Hd Hadj; clear; unfold blk_ok, b_end, ad; cbn; intros; split_and!; try lia; zlia).
  assert (Hsize : 0 <= b_size ad < 2 ^ 64) by (unfold blk_ok, b_end in Hado; lia).
  set (m2 := store64 (store64 m (b_addr a) (b_size ad)) (b_addr a + 8) (hd_addr l2 0)).
  assert (F2 : ∀ x, x < b_addr a ∨ b_addr a + 16 <= x → m2 x = m x).
  { intros x Hx. subst m2. unfold store64. rewrite !store_le_out by lia. done. }
  assert (Hfar : ∀ c, c ∈ l1 ++ l2 → b_end c <= b_addr a ∨ b_end d <= b_addr c).
  { intros c [Hc|Hc]%elem_of_app.
    - pose proof (H1a c Hc). pose proof (H12 c d Hc ltac:(left)). specialize (Hok1 c Hc). unfold sep, blk_ok, b_end in *. lia.
    - pose proof (Ha2 c ltac:(by right)). pose proof (Hd2 c Hc). rewrite Forall_forall in Hok2. specialize (Hok2 c Hc). unfold sep, blk_ok, b_end in *. lia. }
  assert (Hok : Forall blk_ok (l1 ++ l2)) by (apply Forall_app; split; [by apply Forall_forall|done]). rewrite Forall_forall in Hok.
  unfold merge_mem. fold m2. set (m3 := if hd_addr l2 0 =? 0 then m2 else store64 m2 (hd_addr l2 0 + 16) (b_addr a)).
  assert (F3 : ∀ x, l2 = [] ∨ x < hd_addr l2 0 + 16 ∨ hd_addr l2 0 + 24 <= x → m3 x = m2 x).
  { intros x Hx. subst m3. destruct (Z.eqb_spec (hd_addr l2 0) 0) as [E|E]; [done|].
    apply store_le_out. destruct Hx as [Hx|Hx]; [|lia]. apply Hl20 in Hx. lia. }
  unfold blk_ok, b_end in Ha, Hd, Hadj.
  split.
  - apply (inv_replace R m m3 base l1 [a; d] [ad] l2); try done.
    + split; [|done]. cbn [hd_addr]. eapply (hdr_ext m2).
      { intros x Hx. apply F3. destruct l2 as [|c l2]; [by left|]. right. cbn [hd_addr].
        specialize (Hfar c ltac:(apply elem_of_app; right; left)). specialize (Hok c ltac:(apply elem_of_app; right; left)).
        unfold blk_ok, b_end in *. subst ad. cbn in Hx. lia. }
      apply (hdr_set_next _ ad _ (b_addr d)); [lia|]. by apply (hdr_set_size m a).
    + change (last_addr [ad] 0) with (b_addr a). apply (bseg_set_prev m2 (b_addr d)); try done; [lia|]. eapply bseg_ext; [|done]. intros c Hc x Hx. apply F2.
      specialize (Hfar c ltac:(apply elem_of_app; by right)). specialize (Hok c ltac:(apply elem_of_app; by right)).
      unfold blk_ok, b_end in *. lia.
    + intros c Hc x Hx. specialize (Hfar c ltac:(apply elem_of_app; by left)) as Hfc. specialize (Hok c ltac:(apply elem_of_app; by left)) as Hokc.
      unfold blk_ok, b_end in Hfc, Hokc. rewrite F3; [apply F2; lia|]. destruct l2 as [|e l2]; [by left|]. right. cbn [hd_addr].
      specialize (H12 c e Hc ltac:(right; left)). apply Forall_cons in Hok2 as [He _]. unfold sep, blk_ok, b_end in *. lia.
    + by apply Forall_singleton.
    + intros c x ->%list_elem_of_singleton Hx. unfold in_blk, b_end, ad in Hx. cbn in Hx.
      destruct (Z.lt_ge_cases x (b_addr d)); [exists a|exists d]; (split; [set_solver|]); unfold in_blk, b_end; lia.
  - intros x Hx. assert (Hxa : ∀ c, c ∈ l1 ++ a :: d :: l2 → x < b_addr c ∨ b_addr c + 32 <= x).
    { intros c Hc. destruct (decide (b_addr c <= x < b_addr c + 32)); [|lia]. destruct Hx. exists c. split; [done|by left]. }
    rewrite F3, F2; [done| |].
    + pose proof (Hxa a ltac:(apply elem_of_app; right; left)). lia.
    + destruct l2 as [|e l2]; [by left|]. right. cbn [hd_addr].
      pose proof (Hxa e ltac:(apply elem_of_app; right; right; right; left)). lia.
Qed.

(** The statics other than the memory. *)
Definition same_statics {K} (s s' : ust K) : Prop :=
  global_base s' = global_base s ∧ environ s' = environ s ∧ env_alloc_map s' = env_alloc_map s ∧
  environ_malloced s' = environ_malloced s ∧ uos s' = uos s.

Lemma coalesce_next_spec {K} (s : ust K) R base l1 b l2 : inv0 R (um s) base (l1 ++ b :: l2) → coal l2 → b_free b = true →
  ∃ s' b' l2', coalesce_next (b_addr b) s = Done (tt, s') ∧ same_statics s s' ∧ inv0 R (um s') base (l1 ++ b' :: l2') ∧
    coal (b' :: l2') ∧ b_free b' = true ∧ b_addr b' = b_addr b ∧ (∀ d, live l2' d ↔ live l2 d) ∧
    (length l2' <= length l2)%nat ∧ (∀ x, touch (l1 ++ b' :: l2') x → touch (l1 ++ b :: l2) x) ∧
    ∀ x, ¬ touch (l1 ++ b :: l2) x → um s' x = um s x.
Proof.
  intros Hi Hcoal Hf. pose proof (inv_mid _ _ _ _ _ _ Hi) as ((Hsz & Hnx & _) & Hs2 & Hb & Hok1 & Hok2).
  pose proof (hd_addr_ok l2 Hok2) as [Hl2 Hl20].
  unfold coalesce_next, blk_next, blk_size, blk_free, rd64, rd32. unfold bind at 1. unfold gets at 1. cbv beta iota. rewrite Hnx.
  assert (Hstay : (match l2 with [] => True | c :: _ => ¬ (b_free b = true ∧ b_free c = true ∧ b_end b = b_addr c) end) →
    coal (b :: l2)) by (intros H; by split).
  destruct l2 as [|d l2].
  { exists s, b, []. split_and!; try done. }
  cbn [hd_addr]. apply Forall_cons in Hok2 as [Hd Hok2]. destruct Hs2 as [Hhd Hs2]. pose proof Hhd as (Hdsz & Hdnx & _ & Hdf & _).
  unfold blk_ok, b_end in Hd, Hb. rewrite (proj2 (Z.eqb_neq (b_addr d) 0)) by lia.
  unfold bind, gets. rewrite Hdf. destruct (b_free d) eqn:Efd; cbn [Z.eqb negb].
  2:{ exists s, b, (d :: l2). split_and!; try done. apply Hstay. by intros (_ & ? & _). }
  rewrite Hsz. change BLOCK_HEADER_SIZE with 32. destruct (Z.eqb_spec (b_addr b + 32 + b_size b) (b_addr d)) as [Hadj|Hadj].
  2:{ exists s, b, (d :: l2). split_and!; try done. apply Hstay. unfold b_end. tauto. }
  rewrite Hdsz. destruct (merge_spec R (um s) base l1 b d l2 Hi Hadj) as [Hi' Hfr].
  set (ad := mk_blk _ _ _) in *.
  exists (set_um (merge_mem (um s) (b_addr b) (b_size ad) (hd_addr l2 0)) s), ad, l2. split_and!; try done.
  - unfold set_size, set_next, set_prev, wr64, modify, ret. rewrite u64_id by lia. cbn [um set_um].
    assert (load64 (store64 (um s) (b_addr b) (b_size b + (32 + b_size d))) (b_addr d + 8) = hd_addr l2 0) as ->.
    { unfold load64, store64. rewrite load_store_le_ne by lia. exact Hdnx. }
    unfold merge_mem. subst ad. cbn [b_size]. by destruct (hd_addr l2 0 =? 0).
  - cbn [coal] in *. destruct Hcoal as [H1 H2]. split; [|done]. destruct l2 as [|e l2]; [done|].
    intros (_ & H3 & H4). apply H1. split_and!; [done|done|]. revert H4. subst ad. unfold b_end. cbn. lia.
  - intros e. unfold live. rewrite elem_of_cons. split; [tauto|]. intros [[->|?] ?]; [congruence|tauto].
  - cbn. lia.
  - intros x (e & [He|[->|He]%elem_of_cons]%elem_of_app & Ht).
    + exists e. split; [apply elem_of_app; by left|done].
    + assert (b_addr b <= x < b_end d) as Hx by (subst ad; unfold b_end in *; cbn in Ht; lia).
      destruct (Z.lt_ge_cases x (b_addr d)); [exists b|exists d]; (split; [apply elem_of_app; right|right; unfold b_end in *; split; [done|lia]]).
      * left.
      * right; left.
    + exists e. split; [apply elem_of_app; right; right; by right|done].
Qed.

Lemma coal_snoc_same l a a' : b_addr a' = b_addr a → b_free a' = b_free a → coal (l ++ [a]) → coal (l ++ [a']).
Proof.
  intros Ha Hf. induction l as [|c l IH]; cbn [app coal]; [done|]. intros [H1 H2]. split; [|by apply IH].
  destruct l; cbn [app] in *; [by rewrite Ha, Hf|done].
Qed.
Lemma coal_join l1 b l2 : coal l1 → coal (b :: l2) →
  (∀ a, last l1 = Some a → ¬ (b_free a = true ∧ b_free b = true ∧ b_end a = b_addr b)) → coal (l1 ++ b :: l2).
Proof.
  intros H1 H2 Hl. apply coal_app. split; [|done]. clear H2. induction l1 as [|a l1 IH]; cbn [app coal]; [done|].
  destruct H1 as [H H1]. destruct l1 as [|c l1]; cbn [app] in *.
  - split; [by apply Hl|done].
  - split; [done|]. apply IH; [done|]. intros d Hd. apply Hl. by rewrite last_cons, Hd.
Qed.

Lemma coalesce_prev_spec {K} (s : ust K) R base l1 b l2 : inv0 R (um s) base (l1 ++ b :: l2) → coal l1 → coal (b :: l2) →
  b_free b = true →
  ∃ s' l', coalesce_prev (b_addr b) s = Done (tt, s') ∧ same_statics s s' ∧ inv0 R (um s') base l' ∧
    coal l' ∧ (∀ d, live l' d ↔ live (l1 ++ l2) d) ∧ (length l' <= length (l1 ++ b :: l2))%nat ∧
    ∀ x, ¬ touch (l1 ++ b :: l2) x → um s' x = um s x.
Proof.
  intros Hi Hc1 Hc2 Hf. pose proof (inv_mid _ _ _ _ _ _ Hi) as ((Hsz & Hnx & Hpv & _) & Hs2 & Hb & Hok1 & Hok2).
  unfold coalesce_prev, blk_prev, blk_next, blk_size, blk_free, rd64, rd32. unfold bind at 1. unfold gets at 1.
  cbv beta iota. rewrite Hpv.
  assert (Hlive : ∀ d, live (l1 ++ b :: l2) d ↔ live (l1 ++ l2) d).
  { intros d. unfold live. rewrite !elem_of_app, elem_of_cons. split; [|tauto]. intros [[?|[->|?]] ?]; [tauto|congruence|tauto]. }
  assert (Hstay : (∀ a, last l1 = Some a → ¬ (b_free a = true ∧ b_free b = true ∧ b_end a = b_addr b)) → coal (l1 ++ b :: l2))
    by (intros; by apply coal_join).
  destruct l1 as [|a l1 _] using rev_ind.
  { exists s, ([] ++ b :: l2). split_and!; try done. }
  assert (Ha : blk_ok a) by (apply Forall_app in Hok1 as [_ Hok1]; by apply Forall_cons in Hok1 as [? _]).
  assert (Hia : inv0 R (um s) base (l1 ++ a :: b :: l2)) by (by rewrite <- app_assoc in Hi).
  pose proof (inv_mid _ _ _ _ _ _ Hia) as ((Hasz & _ & _ & Haf & _) & _ & _ & _).
  rewrite last_snoc in Hstay. unfold last_addr. rewrite last_snoc. unfold blk_ok, b_end in Ha, Hb.
  rewrite (proj2 (Z.eqb_neq (b_addr a) 0)) by lia. unfold bind, gets. rewrite Haf.
  destruct (b_free a) eqn:Efa; cbn [Z.eqb negb].
  2:{ exists s, ((l1 ++ [a]) ++ b :: l2). split_and!; try done. apply Hstay. intros ? [= <-]. rewrite Efa. by intros (? & _). }
  rewrite Hasz. change BLOCK_HEADER_SIZE with 32. destruct (Z.eqb_spec (b_addr a + 32 + b_size a) (b_addr b)) as [Hadj|Hadj].
  2:{ exists s, ((l1 ++ [a]) ++ b :: l2). split_and!; try done. apply Hstay. intros ? [= <-]. unfold b_end. tauto. }
  rewrite Hsz. destruct (merge_spec R (um s) base l1 a b l2 Hia Hadj) as [Hi' Hfr]. set (ab := mk_blk _ _ _) in *.
  exists (set_um (merge_mem (um s) (b_addr a) (b_size ab) (hd_addr l2 0)) s), (l1 ++ ab :: l2). split_and!; try done.
  - unfold set_size, set_next, set_prev, wr64, modify, ret. rewrite u64_id by lia. cbn [um set_um].
    assert (load64 (store64 (um s) (b_addr a) (b_size a + (32 + b_size b))) (b_addr b + 8) = hd_addr l2 0) as ->.
    { unfold load64, store64. rewrite load_store_le_ne by lia. exact Hnx. }
    unfold merge_mem. subst ab. cbn [b_size]. by destruct (hd_addr l2 0 =? 0).
  - apply coal_app. split; [by eapply (coal_snoc_same l1 a ab)|]. cbn [coal] in *. destruct Hc2 as [H1 H2]. split; [|done].
    destruct l2 as [|e l2]; [done|]. intros (_ & H3 & H4). apply H1. split_and!; [done|done|]. revert H4. subst ab. unfold b_end. cbn. lia.
  - intros d. rewrite <- Hlive. unfold live. rewrite !elem_of_app, !elem_of_cons, elem_of_nil.
    split; [intros [[?|[->|?]] ?]; [tauto|subst ab; cbn in *; congruence|tauto]|].
    intros [[[?|[->|[]]]|[->|?]] ?]; [tauto|congruence|congruence|tauto].
  - rewrite !length_app. cbn. lia.
  - intros x Hx. apply Hfr. by rewrite <- app_assoc in Hx.
Qed.

(** ** The contract *)

(** The heap of a process: [bs] are its blocks, [R] the regions granted. *)
Definition uheap {K} `{!Pager K} (s : ust K) (bs : list blk) (R : list (Z * Z)) : Prop :=
  pager_at (uos s) R ∧ inv0 R (um s) (global_base s) bs ∧ coal bs.
(** The kernel grants the next request of [len] bytes. *)
Definition granted {K} `{!Pager K} (s : ust K) (len : Z) : Prop :=
  match pmmap len (uos s) with Done (r, _) => r < 2 ^ 63 | _ => False end.

Lemma live_payload R m base bs d x : inv0 R m base bs → live bs d → b_addr d + 32 <= x < b_end d →
  ¬ touch bs x ∧ covered R x.
Proof.
  intros [_ _ Hok Ha Hc] [Hd Hf] Hx. rewrite Forall_forall in Hok, Hc. split.
  - intros (c & Hcb & Ht). specialize (Hok c Hcb) as Hco. specialize (Hok d Hd).
    destruct (decide (c = d)) as [->|Hne]; [destruct Ht as [?|[? _]]; [lia|congruence]|].
    apply list_elem_of_split in Hd as (l1 & l2 & ->). pose proof (apart_mid _ _ _ Ha) as (H1 & H2 & _).
    apply elem_of_app in Hcb as [Hcb|[->|Hcb]%elem_of_cons]; [specialize (H1 c Hcb)|done|specialize (H2 c Hcb)];
      unfold sep, blk_ok, b_end in *; destruct Ht as [?|[_ ?]]; lia.
  - apply (Hc d Hd). unfold b_end in *. lia.
Qed.

Section Contract.
Context {K : Type} `{!Pager K} (fuel : nat).
Implicit Types s : ust K.

Lemma request_spec s R base bs n : pager_at (uos s) R → inv0 R (um s) base bs → 0 < n <= 2 ^ 46 →
  granted s (request_size n) →
  let len := request_size n in
  ∃ a s', let nb := mk_blk a (len - 32) true in
    request_space (last_addr bs 0) n s = Done (a, s') ∧ a ≠ 0 ∧ n <= b_size nb ∧
    inv0 ((a, len) :: R) (um s') (hd_addr (bs ++ [nb]) 0) (bs ++ [nb]) ∧ pager_at (uos s') ((a, len) :: R) ∧
    global_base s' = global_base s ∧ environ s' = environ s ∧ env_alloc_map s' = env_alloc_map s ∧
    environ_malloced s' = environ_malloced s ∧ (∀ x, covered R x → ¬ (a <= x < a + len)) ∧
    ∀ x, ¬ touch bs x → ¬ (a <= x < a + len) → um s' x = um s x.
Proof.
  intros HR Hi Hn Hg len. destruct (request_size_ok n Hn) as [Hlen Hlen16]. fold len in Hlen, Hlen16, Hg.
  destruct (pmmap_spec (uos s) R len HR ltac:(lia) Hlen16) as (a & o' & Hrun & Hres).
  unfold granted in Hg. rewrite Hrun in Hg. destruct Hres as [[? _]|(Ha & Ha16 & Hal & Hdis & HR')]; [lia|].
  destruct (grow_spec R (um s) base bs a len Hi Ha Ha16 Hal ltac:(lia) Hlen16 Hdis) as [Hi' Hfr].
  exists a, (mk_ust (grow_mem (um s) (last_addr bs 0) a len) (global_base s) (environ s) (env_alloc_map s) (environ_malloced s) o').
  split_and!; try done; [|lia|cbn; lia|].
  2:{ intros x (c & k & Hc & Hx). specialize (Hdis c k Hc). lia. }
  unfold request_space. fold len. cbv zeta. unfold bind at 1, mmap. rewrite Hrun.
  rewrite (proj2 (Z.ltb_lt a (2 ^ 63))) by lia. unfold MAP_FAILED. rewrite (proj2 (Z.eqb_neq a _)) by lia.
  change BLOCK_HEADER_SIZE with 32. rewrite u64_id by lia.
  unfold set_next, set_size, set_prev, set_free, set_magic, wr64, wr32, bind, modify, ret, grow_mem.
  by destruct (last_addr bs 0 =? 0).
Qed.

(** The first block that is free and large enough. *)
Definition fits (n : Z) (b : blk) : bool := b_free b && (n <=? b_size b).
Lemma find_free_spec s n bs : ∀ k p l, bseg (um s) p bs 0 → Forall blk_ok bs → (length bs < k)%nat →
  (∃ l1 b l2, bs = l1 ++ b :: l2 ∧ fits n b = true ∧ ∃ l', find_free_loop k n (hd_addr bs 0) l s = Done ((b_addr b, l'), s)) ∨
  find_free_loop k n (hd_addr bs 0) l s = Done ((0, last_addr bs l), s).
Proof.
  induction bs as [|b bs IH]; intros [|k] p l Hs Hok Hk; cbn [length] in *; try lia; cbn [find_free_loop hd_addr].
  { by right. }
  apply Forall_cons in Hok as [Hb Hok]. destruct Hs as [(Hsz & Hnx & _ & Hf & _) Hs]. unfold blk_ok in Hb.
  rewrite (proj2 (Z.eqb_neq (b_addr b) 0)) by lia.
  unfold blk_free, blk_size, blk_next, rd32, rd64, bind, gets. rewrite Hf, Hsz.
  assert ((negb ((if b_free b then 1 else 0) =? 0) && (n <=? b_size b)) = fits n b) as -> by (unfold fits; by destruct (b_free b)).
  cbv beta iota. destruct (fits n b) eqn:Hfit; [left; exists [], b, bs; split_and!; [done|done|by eexists]|].
  destruct (IH k (b_addr b) (b_addr b) Hs Hok ltac:(lia)) as [(l1 & c & l2 & -> & Hc & l' & Hl')|H].
  - left. exists (b :: l1), c, l2. split_and!; [done|done|]. exists l'. cbv beta. by rewrite Hnx.
  - right. cbv beta. rewrite Hnx, H. do 3 f_equal. unfold last_addr. rewrite last_cons. by destruct (last bs).
Qed.
End Contract.

Lemma ALIGN_ok n : 0 < n <= 2 ^ 45 → n <= ALIGN n < n + 16 ∧ ALIGN n mod 16 = 0.
Proof.
  intros Hn. unfold ALIGN, ALIGNMENT. rewrite u64_id by lia.
  assert (Z.land (n + (16 - 1)) (2 ^ 64 - 16) = (n + 15) / 16 * 16) as ->.
  { replace (n + (16 - 1)) with (n + 15) by lia. change (2 ^ 64 - 16) with (Z.shiftl (Z.ones 60) 4).
    rewrite <- (Z.shiftr_div_pow2 _ 4), <- (Z.shiftl_mul_pow2 _ 4) by lia.
    apply Z.bits_inj'. intros i Hi. rewrite Z.land_spec, !Z.shiftl_spec by done.
    destruct (Z.ltb_spec i 4); [by rewrite !(Z.testbit_neg_r _ (i - 4)), andb_false_r by lia|].
    rewrite Z.shiftr_spec by lia. replace (i - 4 + 4) with i by lia. rewrite Z.testbit_ones by lia.
    destruct (Z.ltb_spec (i - 4) 60); [rewrite (proj2 (Z.leb_le 0 (i - 4))) by lia; apply andb_true_r|].
    rewrite (testbit_small (n + 15) 64), andb_false_l by lia. done. }
  split; [zlia|]. by rewrite Z.mod_mul.
Qed.

(** What a successful call that hands out block [c] leaves. *)
Record allocated {K} `{!Pager K} (s : ust K) (bs : list blk) (R : list (Z * Z)) (n p : Z)
    (s' : ust K) (bs' : list blk) (R' : list (Z * Z)) (c : blk) : Prop := mk_allocated {
  al_heap : uheap s' bs' R';
  al_ptr : p = b_addr c + 32;
  al_size : n <= b_size c;
  al_live : ∀ d, live bs' d ↔ d = c ∨ live bs d;
  al_new : ¬ live bs c;
  al_regions : ∀ x, covered R x → covered R' x;
  al_frame : ∀ x, ¬ touch bs x → covered R x ∨ ¬ covered R' x → um s' x = um s x;
  al_env : environ s' = environ s ∧ env_alloc_map s' = env_alloc_map s ∧ environ_malloced s' = environ_malloced s;
  al_len : (length bs' <= length bs + 2)%nat
}.

Lemma allocated_ptr {K} `{!Pager K} (s : ust K) bs R n p s' bs' R' c : allocated s bs R n p s' bs' R' c →
  4096 <= b_addr c ∧ p = b_addr c + 32 ∧ p mod 16 = 0 ∧ b_end c <= 2 ^ 47 ∧ 0 <= b_size c ∧ live bs' c.
Proof.
  intros [(_ & Hi & _) Hp _ Hl _ _ _ _ _]. assert (live bs' c) as Hc by (apply Hl; by left).
  pose proof (i_ok _ _ _ _ Hi) as Hok. rewrite Forall_forall in Hok. destruct (Hok c (proj1 Hc)) as (H1 & H2 & H3 & _ & H4).
  split_and!; try done. subst p. replace (b_addr c + 32) with (b_addr c + 2 * 16) by lia. by rewrite Z.mod_add.
Qed.

Section Contract2.
Context {K : Type} `{!Pager K} (fuel : nat).
Implicit Types s : ust K.

Lemma carve_run s b n : (split_block b n;;; set_free b 0) s = Done (tt, set_um (carve_mem (um s) b n) s).
Proof. unfold bind. rewrite split_block_run. done. Qed.

(** Carving the free block [b] of a heap whose list may not be coalesced at [b]. *)
Lemma carve_allocated s R base l1 b l2 n : inv0 R (um s) base (l1 ++ b :: l2) → b_free b = true → 0 < n <= b_size b → n mod 16 = 0 →
  coal l1 → coal (mk_blk (b_addr b) (b_size b) true :: l2) →
  let s' := set_um (carve_mem (um s) (b_addr b) n) s in
  let bs' := l1 ++ carved b n ++ l2 in
  ∃ c, inv0 R (um s') base bs' ∧ coal bs' ∧ b_addr c = b_addr b ∧ n <= b_size c ∧ b_end c <= b_end b ∧ b_free c = false ∧
    (∀ d, live bs' d ↔ d = c ∨ live (l1 ++ b :: l2) d) ∧ (length bs' <= length (l1 ++ b :: l2) + 1)%nat ∧
    ∀ x, ¬ touch (l1 ++ b :: l2) x → um s' x = um s x.
Proof.
  intros Hi Hf Hn Hn16 H1 H2 s' bs'. destruct (carve_spec R (um s) base l1 b l2 n Hi Hf Hn Hn16) as [Hi' Hfr].
  destruct (carved_live l1 b l2 n Hf Hn) as (c & Hc1 & Hc2 & Hc3 & [_ Hc4] & Hc5).
  exists c. split_and!; try done.
  - by apply carved_coal.
  - subst bs'. unfold carved. case_match; rewrite !length_app; cbn; lia.
Qed.

Lemma malloc_spec s bs R n : uheap s bs R → (length bs < fuel)%nat → 0 < n <= 2 ^ 45 →
  granted s (request_size (ALIGN n)) →
  ∃ p s' bs' R' c, malloc fuel n s = Done (p, s') ∧ allocated s bs R n p s' bs' R' c.
Proof.
  intros (HR & Hi & Hcoal) Hfuel Hn Hg. destruct (ALIGN_ok n Hn) as [Han Han16]. set (an := ALIGN n) in *.
  pose proof (i_ok _ _ _ _ Hi) as Hok. pose proof (hd_addr_ok bs Hok) as [_ Hhd0]. pose proof (i_base _ _ _ _ Hi) as Hbase.
  unfold malloc. rewrite (proj2 (Z.leb_gt n 0)) by lia. fold an. cbv zeta. unfold bind at 1. unfold gets at 1. cbv beta iota.
  assert (Hfresh : ∃ a s1 s2, request_space (last_addr bs 0) an s = Done (a, s1) ∧ a ≠ 0 ∧ load32 (um s1) (a + 24) = 1 ∧
    (split_block a an;;; set_free a 0) (if decide (bs = []) then set_base a s1 else s1) = Done (tt, s2) ∧
    ∃ bs' R' c, allocated s bs R n (a + 32) s2 bs' R' c).
  { destruct (request_spec s R _ bs an HR Hi ltac:(lia) Hg) as
      (a & s1 & Hrun & Ha & Hsz & Hi1 & HR1 & Hb1 & He1 & He2 & He3 & Hdis & Hfr1).
    set (nb := mk_blk _ _ true) in *. set (len := request_size an) in *.
    set (s1' := if decide (bs = []) then set_base a s1 else s1).
    assert (E : um s1' = um s1 ∧ uos s1' = uos s1 ∧ environ s1' = environ s1 ∧ env_alloc_map s1' = env_alloc_map s1 ∧
      environ_malloced s1' = environ_malloced s1 ∧ global_base s1' = hd_addr (bs ++ [nb]) 0).
    { subst s1'. destruct (decide (bs = [])) as [->|Hne]; [done|]. split_and!; try done. rewrite Hb1, Hbase. by destruct bs. }
    destruct E as (Em & Eo & E1 & E2 & E3 & Eb).
    pose proof (inv_mid _ _ _ bs nb [] Hi1) as ((_ & _ & _ & Hfree & _) & _).
    destruct (carve_allocated s1' ((a, len) :: R) (hd_addr (bs ++ [nb]) 0) bs nb [] an) as
      (c & Hi2 & Hc2 & Hca & Hcs & Hce & Hcf & Hlive & Hlen & Hfr2); rewrite ?Em; try done; [lia|].
    exists a, s1, (set_um (carve_mem (um s1') a an) s1'). split_and!; [done|done|done|apply carve_run|].
    exists (bs ++ carved nb an ++ []), ((a, len) :: R), c.
    assert (Hrest : ∀ d, live (bs ++ [nb]) d ↔ live bs d).
    { intros d. unfold live. rewrite elem_of_app, list_elem_of_singleton. split; [|tauto]. intros [[?| ->] ?]; [tauto|done]. }
    split.
    - split_and!; cbn [uos um global_base set_um]; [by rewrite Eo| |done]. by rewrite Eb.
    - subst nb. cbn in Hca. lia.
    - lia.
    - intros d. by rewrite Hlive, Hrest.
    - intros [Hcb _]. pose proof (proj2 (proj2 (apart_mid _ _ _ (i_apart _ _ _ _ Hi1)))) as _.
      pose proof (proj1 (apart_mid _ _ _ (i_apart _ _ _ _ Hi1)) c Hcb) as Hsep.
      rewrite Forall_forall in Hok. specialize (Hok c Hcb). unfold sep, blk_ok, b_end in *. subst nb. cbn in *. lia.
    - intros x (c' & n' & Hx & Hx'). exists c', n'. split; [by right|done].
    - intros x Hx Hcov. cbn [um set_um].
      assert (Hxa : ¬ (a <= x < a + len)).
      { destruct Hcov as [Hcov|Hcov]; [by apply Hdis|]. intros Hxa. apply Hcov. exists a, len. split; [left|done]. }
      etransitivity; [apply Hfr2|rewrite Em; by apply Hfr1]. intros (e & [He| ->%list_elem_of_singleton]%elem_of_app & Ht).
      + apply Hx. by exists e.
      + subst nb. unfold b_end in Ht. cbn in Ht. destruct (request_size_ok an); lia.
    - cbn. by rewrite E1, E2, E3.
    - rewrite (length_app bs [nb]) in Hlen. cbn [length] in Hlen. lia. }
  destruct (decide (bs = [])) as [->|Hne].
  - destruct Hfresh as (a & s1 & s2 & Hrun & Ha & Hfree & Hcarve & bs' & R' & c & Hal).
    exists (a + 32), s2, bs', R', c. split; [|done]. rewrite Hbase. cbn [hd_addr Z.eqb].
    change (last_addr [] 0) with 0 in Hrun. unfold bind at 1. unfold bind at 1. rewrite Hrun.
    rewrite (proj2 (Z.eqb_neq a 0)) by done. unfold bind at 1, modify, ret. rewrite (proj2 (Z.eqb_neq a 0)) by done.
    unfold blk_free, rd32. unfold bind at 1. unfold gets at 1. cbn [um set_base]. rewrite Hfree. cbn [Z.eqb negb].
    unfold bind at 1. rewrite Hcarve. unfold ret. change BLOCK_HEADER_SIZE with 32.
    by rewrite u64_id by (pose proof (allocated_ptr _ _ _ _ _ _ _ _ _ Hal) as Hap; unfold b_end in Hap; lia).
  - rewrite Hbase. rewrite (proj2 (Z.eqb_neq (hd_addr bs 0) 0)) by tauto.
    assert (Hffb : find_free_block fuel (hd_addr bs 0) an s = find_free_loop fuel an (hd_addr bs 0) (hd_addr bs 0) s).
    { unfold find_free_block, bind, gets. by rewrite Hbase. }
    destruct (find_free_spec s an bs fuel 0 (hd_addr bs 0) (i_seg _ _ _ _ Hi) Hok Hfuel) as [Hfound|Hfind].
    + destruct Hfound as (l1 & b & l2 & Hbs & Hfit & l' & Hfind).
      apply andb_true_iff in Hfit as [Hf Hsz%Z.leb_le].
      pose proof Hi as Hib. rewrite Hbs in Hib. pose proof Hcoal as Hcb. rewrite Hbs in Hcb.
      pose proof (inv_mid _ _ _ _ _ _ Hib) as (_ & _ & Hb & _). pose proof (i_apart _ _ _ _ Hib) as Hapart.
      destruct (carve_allocated s R (global_base s) l1 b l2 an Hib Hf ltac:(lia) Han16) as
        (c & Hi2 & Hc2 & Hca & Hcs & Hce & Hcf & Hlive & Hlen & Hfr).
      { by apply coal_prefix in Hcb. }
      { apply coal_suffix in Hcb. destruct b as [ba bz bf]. cbn in *. by subst bf. }
      exists (b_addr b + 32), (set_um (carve_mem (um s) (b_addr b) an) s), (l1 ++ carved b an ++ l2), R, c.
      unfold blk_ok in Hb. split.
      * unfold bind at 1. unfold bind at 1. rewrite Hffb, Hfind.
        rewrite (proj2 (Z.eqb_neq (b_addr b) 0)) by lia.
        unfold bind at 1. rewrite split_block_run. unfold bind at 1, set_free at 1, wr32, modify, ret.
        rewrite (proj2 (Z.eqb_neq (b_addr b) 0)) by lia. unfold blk_free, rd32. unfold bind at 1. unfold gets at 1.
        cbv beta iota. cbn [um set_um]. unfold load32, store32. rewrite load_store_le.
        change BLOCK_HEADER_SIZE with 32. unfold bind, ret. cbn [Z.modulo negb]. by rewrite u64_id by (unfold b_end in *; lia).
      * split.
        -- by split_and!.
        -- by rewrite Hca.
        -- lia.
        -- intros d. by rewrite Hlive, Hbs.
        -- intros [Hcb' Hcf']. rewrite Hbs in Hcb'.
           destruct (apart_mid _ _ _ Hapart) as (H1 & H2 & _). pose proof Hok as Hok'. rewrite Forall_forall in Hok'.
           assert (blk_ok c) as Hcok by (apply Hok'; by rewrite Hbs).
           apply elem_of_app in Hcb' as [Hc'|[->|Hc']%elem_of_cons]; [specialize (H1 c Hc')|congruence|specialize (H2 c Hc')];
             unfold sep, blk_ok, b_end in *; lia.
        -- done.
        -- intros x Hx _. apply Hfr. by rewrite <- Hbs.
        -- done.
        -- rewrite Hbs. lia.
    + destruct Hfresh as (a & s1 & s2 & Hrun & Ha & Hfree & Hcarve & bs' & R' & c & Hal).
      exists (a + 32), s2, bs', R', c. split; [|done].
      replace (last_addr bs (hd_addr bs 0)) with (last_addr bs 0) in Hfind
        by (unfold last_addr; destruct (last bs) eqn:E; [done|by apply last_None in E]).
      unfold bind at 1. unfold bind at 1. rewrite Hffb, Hfind. cbn [Z.eqb]. rewrite Hrun.
      rewrite (proj2 (Z.eqb_neq a 0)) by done.
      unfold blk_free, rd32. unfold bind at 1. unfold gets at 1. cbv beta iota. rewrite Hfree. cbn [Z.eqb negb].
      unfold bind at 1. rewrite Hcarve. unfold ret. change BLOCK_HEADER_SIZE with 32.
      by rewrite u64_id by (pose proof (allocated_ptr _ _ _ _ _ _ _ _ _ Hal) as Hap; unfold b_end in Hap; lia).
Qed.
End Contract2.

(** What [free] of the block [c] leaves. *)
Record released {K} `{!Pager K} (s : ust K) (bs : list blk) (R : list (Z * Z)) (c : blk)
    (s' : ust K) (bs' : list blk) : Prop := mk_released {
  re_heap : uheap s' bs' R;
  re_live : ∀ d, live bs' d ↔ live bs d ∧ d ≠ c;
  re_frame : ∀ x, ¬ touch bs x → ¬ in_blk c x → um s' x = um s x;
  re_statics : same_statics s s';
  re_len : (length bs' <= length bs)%nat
}.

Lemma same_statics_trans {K} (s1 s2 s3 : ust K) : same_statics s1 s2 → same_statics s2 s3 → same_statics s1 s3.
Proof. unfold same_statics. intros (-> & -> & -> & -> & ->) (-> & -> & -> & -> & ->). done. Qed.

(** A freed block widens what may be written by that block only. *)
Lemma touch_free l1 c l2 x : ¬ touch (l1 ++ c :: l2) x → ¬ in_blk c x →
  ¬ touch (l1 ++ mk_blk (b_addr c) (b_size c) true :: l2) x.
Proof.
  intros Hx Hc (d & Hd & Ht). apply elem_of_app in Hd as [Hd|[->|Hd]%elem_of_cons].
  - apply Hx. exists d. split; [apply elem_of_app; by left|done].
  - cbn in Ht. destruct Ht as [Ht|[_ Ht]]; [|done]. apply Hx. exists c. split; [apply elem_of_app; right; left|by left].
  - apply Hx. exists d. split; [apply elem_of_app; right; by right|done].
Qed.

Section Contract3.
Context {K : Type} `{!Pager K} (fuel : nat).
Implicit Types s : ust K.

Lemma free_spec s bs R c : uheap s bs R → live bs c →
  ∃ s' bs', free (b_addr c + 32) s = Done (tt, s') ∧ released s bs R c s' bs'.
Proof.
  intros (HR & Hi & Hcoal) [Hc Hcf]. apply list_elem_of_split in Hc as (l1 & l2 & ->).
  pose proof (inv_mid _ _ _ _ _ _ Hi) as ((_ & _ & _ & _ & Hmag) & _ & Hcok & Hok1 & Hok2).
  pose proof (apart_mid _ _ _ (i_apart _ _ _ _ Hi)) as (Hs1 & Hs2 & _).
  unfold blk_ok in Hcok. set (c' := mk_blk (b_addr c) (b_size c) true).
  pose proof (set_free_spec true R (um s) (global_base s) l1 c l2 Hi) as Hi1. fold c' in Hi1.
  set (s1 := set_um (store32 (um s) (b_addr c + 24) 1) s).
  assert (Hc1 : coal l1) by (by apply coal_prefix in Hcoal).
  assert (Hc2 : coal l2) by (apply coal_suffix, coal_cons in Hcoal; done).
  destruct (coalesce_next_spec s1 R (global_base s) l1 c' l2 Hi1 Hc2 eq_refl) as
    (s2 & c2 & l2' & Hrun2 & Hst2 & Hi2 & Hcoal2 & Hf2 & Ha2 & Hlive2 & Hlen2 & Ht2 & Hfr2).
  destruct (coalesce_prev_spec s2 R (global_base s) l1 c2 l2' Hi2 Hc1 Hcoal2 Hf2) as
    (s3 & bs3 & Hrun3 & Hst3 & Hi3 & Hcoal3 & Hlive3 & Hlen3 & Hfr3).
  assert (Hst : same_statics s s3) by (eapply same_statics_trans; [|exact Hst3]; exact Hst2).
  exists s3, bs3. split.
  - unfold free. change BLOCK_HEADER_SIZE with 32. rewrite (proj2 (Z.eqb_neq (b_addr c + 32) 0)) by lia.
    replace (b_addr c + 32 - 32) with (b_addr c) by lia. cbv zeta. unfold blk_magic, rd32. unfold bind at 1. unfold gets at 1.
    cbv beta iota. rewrite Hmag. rewrite Z.eqb_refl. cbn [negb]. unfold set_free, wr32. unfold bind at 1. unfold modify at 1.
    fold s1. unfold bind. change (coalesce_next (b_addr c) s1) with (coalesce_next (b_addr c') s1).
    rewrite Hrun2. change (b_addr c) with (b_addr c'). by rewrite <- Ha2.
  - assert (Hnot : ¬ sep c c) by (unfold sep, b_end; lia).
    split.
    + destruct Hst as (E1 & _ & _ & _ & E5). split_and!; [by rewrite E5|by rewrite E1|done].
    + intros d. rewrite Hlive3. split.
      * intros [[Hd|Hd]%elem_of_app Hf].
        -- split; [split; [apply elem_of_app; by left|done]|]. intros ->. by apply Hnot, Hs1.
        -- destruct (proj1 (Hlive2 d) (conj Hd Hf)) as [Hd2 _].
           split; [split; [apply elem_of_app; right; by right|done]|]. intros ->. by apply Hnot, Hs2.
      * intros [[Hd Hf] Hne]. apply elem_of_app in Hd as [Hd|[->|Hd]%elem_of_cons]; [|done|].
        -- split; [apply elem_of_app; by left|done].
        -- split; [|done]. apply elem_of_app. right. apply (Hlive2 d). done.
    + intros x Hx Hxc. pose proof (touch_free l1 c l2 x Hx Hxc) as Hx1. fold c' in Hx1.
      rewrite Hfr3 by (intros H; by apply Hx1, Ht2). rewrite Hfr2 by done. apply store_le_out.
      unfold in_blk, b_end in Hxc. lia.
    + done.
    + etransitivity; [exact Hlen3|]. rewrite !length_app. cbn. lia.
Qed.
End Contract3.

(** ** Theorems *)

(** Two different blocks of one heap do not overlap. *)
Lemma blocks_sep R m base bs c d : inv0 R m base bs → c ∈ bs → d ∈ bs → c ≠ d → sep c d.
Proof.
  intros Hi Hc Hd Hne. apply list_elem_of_split in Hc as (l1 & l2 & ->).
  destruct (apart_mid _ _ _ (i_apart _ _ _ _ Hi)) as (H1 & H2 & _).
  apply elem_of_app in Hd as [Hd|[->|Hd]%elem_of_cons]; [|done|by apply H2].
  destruct (H1 d Hd); [by right|by left].
Qed.

Section Theorems.
Context {K : Type} `{!Pager K} (fuel : nat).
Implicit Types s : ust K.

(** A program may write the payload of a block it holds. *)
Lemma uheap_payload s m' bs R d : uheap s bs R → live bs d →
  (∀ x, ¬ (b_addr d + 32 <= x < b_end d) → m' x = um s x) → uheap (set_um m' s) bs R.
Proof.
  intros (HR & Hi & Hc) [Hd _] Hm. split_and!; [done| |done]. pose proof Hi as [Hb Hs Hok Ha Hcov]. split; try done.
  eapply bseg_ext; [|exact Hs]. intros b Hbb x Hx. apply Hm. rewrite Forall_forall in Hok.
  pose proof (Hok b Hbb) as Hokb. pose proof (Hok d Hd) as Hokd. unfold blk_ok, b_end in *.
  destruct (decide (b = d)) as [->|Hne]; [lia|]. pose proof (blocks_sep _ _ _ _ _ _ Hi Hbb Hd Hne). unfold sep, b_end in *. lia.
Qed.
Lemma allocated_contents s bs R n p s' bs' R' c d x : uheap s bs R → allocated s bs R n p s' bs' R' c → live bs d →
  b_addr d + 32 <= x < b_end d → um s' x = um s x.
Proof.
  intros (_ & Hi & _) Hal Hd Hx. destruct (live_payload R _ _ _ _ _ Hi Hd Hx) as [Ht Hcov].
  apply (al_frame _ _ _ _ _ _ _ _ _ Hal); [done|by left].
Qed.

(** C13: [malloc]: on a well-formed heap, when the kernel does not refuse to
    grow it, [malloc n] returns a 16-byte aligned pointer to a new block of at
    least [n] bytes that overlaps no block in use; the blocks in use are the
    old ones and the new one, their contents are untouched, and the heap stays
    well-formed: its list is linked both ways, its blocks do not overlap, and
    no two neighbours of the list are both free and adjacent. *)
Theorem malloc_contract s bs R n :
  uheap s bs R → (length bs < fuel)%nat → 0 < n <= 2 ^ 45 → granted s (request_size (ALIGN n)) →
  ∃ p s' bs' R' c, malloc fuel n s = Done (p, s') ∧ uheap s' bs' R' ∧
    p = b_addr c + 32 ∧ p mod 16 = 0 ∧ n <= b_size c ∧
    (∀ d, live bs' d ↔ d = c ∨ live bs d) ∧ (∀ d, live bs d → sep d c) ∧
    (∀ d x, live bs d → b_addr d + 32 <= x < b_end d → um s' x = um s x).
Proof.
  intros Hs Hf Hn Hg. destruct (malloc_spec fuel s bs R n Hs Hf Hn Hg) as (p & s' & bs' & R' & c & Hrun & Hal).
  destruct (allocated_ptr _ _ _ _ _ _ _ _ _ Hal) as (_ & Hp & Hp16 & _ & _ & Hc). pose proof (al_live _ _ _ _ _ _ _ _ _ Hal) as Hl.
  exists p, s', bs', R', c. split_and!; try done; [apply Hal|apply Hal| |].
  - intros d Hd. destruct (al_heap _ _ _ _ _ _ _ _ _ Hal) as (_ & Hi' & _).
    apply (blocks_sep _ _ _ _ _ _ Hi'); [by apply Hl; right|apply Hc|]. intros ->. by apply (al_new _ _ _ _ _ _ _ _ _ Hal).
  - intros d x. exact (allocated_contents s bs R n p s' bs' R' c d x Hs Hal).
Qed.

(** C14: [free] of a block in use takes exactly that block out of use, leaves
    the contents of the others, and merges it with its free neighbours: the
    heap is again well-formed, with no two free blocks side by side. *)
Theorem free_contract s bs R c : uheap s bs R → live bs c →
  ∃ s' bs', free (b_addr c + 32) s = Done (tt, s') ∧ uheap s' bs' R ∧
    (∀ d, live bs' d ↔ live bs d ∧ d ≠ c) ∧
    (∀ d x, live bs d → d ≠ c → b_addr d + 32 <= x < b_end d → um s' x = um s x).
Proof.
  intros Hs Hc. destruct (free_spec s bs R c Hs Hc) as (s' & bs' & Hrun & [Hh Hl Hfr _ _]).
  exists s', bs'. split_and!; try done. intros d x Hd Hne Hx. destruct Hs as (_ & Hi & _).
  apply Hfr; [by apply (live_payload R _ _ _ _ _ Hi Hd Hx)|].
  pose proof (blocks_sep _ _ _ _ _ _ Hi (proj1 Hd) (proj1 Hc) Hne). unfold in_blk, sep in *. lia.
Qed.

End Theorems.

(** *** A kernel that maps upwards and answers [-ENOMEM] when it is full *)
Definition bump_at (o : Z) (R : list (Z * Z)) : Prop :=
  4096 <= o <= 2 ^ 46 ∧ o mod 4096 = 0 ∧ ∀ a n, (a, n) ∈ R → a + n <= o.
Definition bump_mmap (len : Z) : M Z Z := λ o, Done (if o + len <=? 2 ^ 46 then (o, o + len) else (2 ^ 64 - 12, o)).
#[export] Instance bump_pager : Pager Z.
Proof.
  refine {| pmmap := bump_mmap; pager_at := bump_at |}.
  intros o R len (Ho & Ho16 & HR) Hlen Hlen16. unfold bump_mmap. destruct (Z.leb_spec (o + len) (2 ^ 46)) as [Hle|Hgt].
  - exists o, (o + len). split; [done|]. right. split_and!; try done; [lia|lia| |].
    + intros a n Hin. specialize (HR a n Hin). lia.
    + split; [lia|]. split; [by rewrite Z.add_mod, Ho16, Hlen16|]. intros a n [[= -> ->]|Hin]%elem_of_cons; [lia|].
      specialize (HR a n Hin). lia.
  - exists (2 ^ 64 - 12), o. split; [done|]. left. split; [lia|done].
Defined.

(** A process before its first [malloc], and one that holds a page-sized block. *)
Definition ex_new : ust Z := mk_ust (λ _, 0) 0 0 0 0 4096.
Definition ex_blk : blk := mk_blk 4096 4064 false.
Definition ex_mem1 : mem := store32 (store64 (λ a, if (4128 <=? a) && (a <? 8192) then 7 else 0) 4096 4064) 4124 MAGIC.
Definition ex_used : ust Z := mk_ust ex_mem1 4096 0 0 0 8192.

Lemma ex_new_heap : uheap ex_new [] [].
Proof.
  split; [|split; [by split|done]]. change (bump_at 4096 []). split; [lia|]. split; [done|]. by intros a n ?%elem_of_nil.
Qed.
Lemma ex_used_heap : uheap ex_used [ex_blk] [(4096, 4096)].
Proof.
  split; [|split; [split|]].
  - change (bump_at 8192 [(4096, 4096)]). split; [lia|]. split; [done|]. intros a n [[= -> ->]|?%elem_of_nil]%elem_of_cons; [lia|done].
  - done.
  - cbn [bseg hd_addr]. split; [|done]. unfold hdr_is. split_and!; by vm_compute.
  - apply Forall_singleton. unfold blk_ok, b_end. cbn. split_and!; done || lia.
  - cbn. by split.
  - apply Forall_singleton. intros x Hx. exists 4096, 4096. split; [left|]. unfold b_end in Hx. cbn in Hx. lia.
  - cbn. by split.
Qed.
Lemma ex_used_live : live [ex_blk] ex_blk.
Proof. split; [left|done]. Qed.

Lemma malloc_contract_witness : ∃ p s' bs' R' c, malloc 4 100 ex_new = Done (p, s') ∧ uheap s' bs' R' ∧
  p = b_addr c + 32 ∧ p mod 16 = 0 ∧ 100 <= b_size c ∧
  (∀ d, live bs' d ↔ d = c ∨ live [] d) ∧ (∀ d, live [] d → sep d c) ∧
  (∀ d x, live [] d → b_addr d + 32 <= x < b_end d → um s' x = um ex_new x).
Proof. apply (malloc_contract 4 ex_new [] [] 100); [exact ex_new_heap|simpl; lia|lia|vm_compute; done]. Defined.

Lemma free_contract_witness : ∃ s' bs', free 4128 ex_used = Done (tt, s') ∧ uheap s' bs' [(4096, 4096)] ∧
  (∀ d, live bs' d ↔ live [ex_blk] d ∧ d ≠ ex_blk) ∧
  (∀ d x, live [ex_blk] d → d ≠ ex_blk → b_addr d + 32 <= x < b_end d → um s' x = um ex_used x).
Proof. apply (free_contract ex_used [ex_blk] [(4096, 4096)] ex_blk); [exact ex_used_heap|exact ex_used_live]. Defined.


(** *** Requests the allocator does not survive *)

Section Requests.
Context {K : Type} `{!Pager K} (fuel : nat).
Implicit Types s : ust K.

(** [ALIGN] wraps: a request for one of the fifteen largest sizes is
    answered, when the first block of the heap is free and has room for a
    split, with a valid pointer to a block of no bytes. *)
Theorem malloc_huge_gets_nothing s bs R b n :
  uheap s (b :: bs) R → b_free b = true → 48 <= b_size b → (0 < fuel)%nat → 2 ^ 64 - 15 <= n < 2 ^ 64 →
  ∃ s', malloc fuel n s = Done (b_addr b + 32, s') ∧ load64 (um s') (b_addr b) = 0.
Proof.
  intros (_ & Hi & _) Hf Hb Hfuel Hn. destruct (inv_mid R _ _ [] b bs Hi) as ((Hsz & _ & _ & Hfr & _) & _ & Hok & _).
  rewrite Hf in Hfr. unfold blk_ok, b_end in Hok. pose proof (i_base _ _ _ _ Hi) as Hbase. cbn [hd_addr] in Hbase.
  assert (ALIGN n = 0) as Han.
  { unfold ALIGN, ALIGNMENT, u64. assert (0 <= (n + (16 - 1)) mod 2 ^ 64 < 15) as Hx by zlia.
    change (2 ^ 64 - 16) with (Z.shiftl (Z.ones 60) 4). remember ((n + (16 - 1)) mod 2 ^ 64) as x. clear Heqx. apply Z.bits_inj'. intros i Hi0.
    rewrite Z.land_spec, Z.bits_0, Z.shiftl_spec by done. destruct (Z.ltb_spec i 4).
    - by rewrite (Z.testbit_neg_r _ (i - 4)), andb_false_r by lia.
    - by rewrite (testbit_small x 4) by lia. }
  eexists. split.
  - unfold malloc. rewrite (proj2 (Z.leb_gt n 0)), Han by lia. cbv zeta. unfold bind at 1. unfold gets at 1. cbv beta iota.
    rewrite Hbase, (proj2 (Z.eqb_neq (b_addr b) 0)) by lia.
    destruct fuel as [|f]; [lia|]. unfold find_free_block. cbn [find_free_loop].
    unfold bind at 1. unfold bind at 1. unfold bind at 1. unfold gets at 1. rewrite Hbase, (proj2 (Z.eqb_neq (b_addr b) 0)) by lia.
    unfold blk_free at 1, rd32. unfold bind at 1. unfold gets at 1. rewrite Hfr.
    unfold blk_size at 1, rd64. unfold bind at 1. unfold gets at 1. rewrite Hsz, (proj2 (Z.leb_le 0 (b_size b))) by lia.
    cbn [Z.eqb negb andb]. unfold ret at 1. rewrite (proj2 (Z.eqb_neq (b_addr b) 0)) by lia.
    unfold bind at 1. rewrite split_block_run. unfold bind at 1, set_free at 1, wr32, modify, ret.
    rewrite (proj2 (Z.eqb_neq (b_addr b) 0)) by lia. unfold blk_free, rd32. unfold bind at 1. unfold gets at 1.
    cbv beta iota. cbn [um set_um]. unfold load32, store32. rewrite load_store_le. unfold bind, ret. cbn [Z.modulo negb].
    change BLOCK_HEADER_SIZE with 32. rewrite u64_id by lia. done.
  - cbn [um set_um]. unfold split_mem. rewrite Hsz. rewrite !u64_id by lia. rewrite (proj2 (Z.leb_le _ _)) by lia.
    unfold load64, store32, store64. rewrite !load_store_le_ne by lia. rewrite load_store_le. done.
Qed.

End Requests.

Definition ex_free_blk : blk := mk_blk 4096 4064 true.
Definition ex_free_heap : ust Z := mk_ust (store32 ex_mem1 4120 1) 4096 0 0 0 8192.
Lemma ex_free_heap_ok : uheap ex_free_heap [ex_free_blk] [(4096, 4096)].
Proof.
  destruct ex_used_heap as (HR & Hi & _). split; [exact HR|]. split; [|by split].
  exact (set_free_spec true [(4096, 4096)] ex_mem1 4096 [] ex_blk [] Hi).
Qed.
Lemma malloc_huge_gets_nothing_witness : ∃ s', malloc 4 (2 ^ 64 - 1) ex_free_heap = Done (4128, s') ∧ load64 (um s') 4096 = 0.
Proof.
  apply (malloc_huge_gets_nothing 4 ex_free_heap [] [(4096, 4096)] ex_free_blk (2 ^ 64 - 1));
    [exact ex_free_heap_ok|reflexivity|simpl; lia|lia|lia].
Defined.

Definition ex_full : ust Z := mk_ust (λ _, 0) 0 0 0 0 (2 ^ 46).

(** [calloc] multiplies without a test: with [nelem * elsize] beyond
    [2 ^ 64] it is the request for the remainder. *)
Lemma calloc_size_wraps {K} `{!Pager K} fuel (s : ust K) : calloc fuel (2 ^ 61 + 1) 8 s = calloc fuel 1 8 s.
Proof. reflexivity. Qed.

(** [calloc] otherwise hands out zeroes. *)
Lemma calloc_zeroes {K} `{!Pager K} fuel (s : ust K) bs R ne es : uheap s bs R → (length bs < fuel)%nat →
  0 < ne * es <= 2 ^ 45 → granted s (request_size (ALIGN (ne * es))) →
  ∃ p s' bs' R' c, calloc fuel ne es s = Done (p, s') ∧ uheap s' bs' R' ∧ p = b_addr c + 32 ∧ ne * es <= b_size c ∧
    (∀ d, live bs' d ↔ d = c ∨ live bs d) ∧ (∀ x, p <= x < p + ne * es → um s' x = 0).
Proof.
  intros Hs Hf Hn Hg. destruct (malloc_spec fuel s bs R (ne * es) Hs Hf Hn Hg) as (p & s1 & bs1 & R1 & c & Hrun & Hal).
  destruct (allocated_ptr _ _ _ _ _ _ _ _ _ Hal) as (Hc & Hp & _ & Hc47 & Hc0 & Hlc). pose proof (al_size _ _ _ _ _ _ _ _ _ Hal) as Hsz.
  exists p, (set_um (memset (um s1) p 0 (ne * es)) s1), bs1, R1, c. split_and!; [|..|done|done|apply Hal|].
  - unfold calloc. rewrite u64_id by lia. cbv zeta. unfold bind at 1. rewrite Hrun. rewrite (proj2 (Z.eqb_neq p 0)) by lia. done.
  - apply (uheap_payload s1 _ bs1 R1 c); [apply Hal|done|]. intros x Hx. rewrite memset_vec_at, decide_False; [done| |lia].
    unfold b_end in *. lia.
  - intros x Hx. cbn [um set_um]. by rewrite memset_vec_at, decide_True by lia.
Qed.
