(* ===== verification/UStdlib.v ===== *)
(** Numbers and the environment of the user C library, the second half of
    [user/src/stdlib.c].

    The conversions read a string of the process memory.  The environment is
    the array [environ] of pointers, the bitmap that tells which strings were
    allocated, and the flag that says that the array itself was; the three
    statics are in the record of [UMalloc], since every update allocates.
    Loops over strings and over the array take the fuel of the file. *)
From S2P Require Export UMalloc.
Local Open Scope prog_scope.

(** ** Conversions *)

Definition is_space (c : Z) : bool :=
  (c =? 32) || (c =? 9) || (c =? 10) || (c =? 11) || (c =? 12) || (c =? 13).
Definition is_dec (c : Z) : bool := (48 <=? c) && (c <=? 57).
Definition is_hex (c : Z) : bool :=
  ((48 <=? c) && (c <=? 57)) || ((97 <=? c) && (c <=? 102)) || ((65 <=? c) && (c <=? 70)).

Fixpoint skip_spaces (fuel : nat) (m : mem) (s : Z) : option Z :=
  match fuel with
  | O => None
  | S f => if is_space (m s) then skip_spaces f m (s + 1) else Some s
  end.

(** [result = result * 10 + ( *str - '0')], on [long]. *)
Fixpoint atoi_loop (fuel : nat) (m : mem) (str result : Z) : option Z :=
  match fuel with
  | O => None
  | S f => if is_dec (m str) then atoi_loop f m (str + 1) (i64 (result * 10 + (m str - 48))) else Some result
  end.
Definition atoi (fuel : nat) (m : mem) (str : Z) : option Z :=
  if str =? 0 then Some 0
  else
    str ← skip_spaces fuel m str;
    let sign := if m str =? 45 then -1 else 1 in
    let str := if (m str =? 43) || (m str =? 45) then str + 1 else str in
    result ← atoi_loop fuel m str 0;
    Some (i32 (i64 (result * sign))).

(** The value of a character as a digit, [None] when it is none. *)
Definition digit_of (c : Z) : option Z :=
  if (48 <=? c) && (c <=? 57) then Some (c - 48)
  else if (65 <=? c) && (c <=? 90) then Some (c - (65 - 10))
  else if (97 <=? c) && (c <=? 122) then Some (c - (97 - 10))
  else None.

(** The digits: the final [s], [acc] and [any]. *)
Fixpoint strtoul_loop (fuel : nat) (m : mem) (base cutoff cutlim s acc any : Z) : option (Z * Z * Z) :=
  match fuel with
  | O => None
  | S f =>
      match digit_of (m s) with
      | None => Some (s, acc, any)
      | Some c =>
          if base <=? c then Some (s, acc, any)
          else if (any <? 0) || (cutoff <? acc) || ((acc =? cutoff) && (cutlim <? c))
          then strtoul_loop f m base cutoff cutlim (s + 1) acc (-1)
          else strtoul_loop f m base cutoff cutlim (s + 1) (u64 (u64 (acc * base) + c)) 1
      end
  end.

Definition put_ptr (m : mem) (endptr v : Z) : mem := if endptr =? 0 then m else store64 m endptr v.

(** The memory with [*endptr], and the value. *)
Definition strtoul (fuel : nat) (m : mem) (nptr endptr base : Z) : option (mem * Z) :=
  if (base <? 0) || (base =? 1) || (36 <? base) then Some (put_ptr m endptr nptr, 0)
  else
    s ← skip_spaces fuel m nptr;
    let neg := m s =? 45 in
    let s := if m s =? 45 then s + 1 else if m s =? 43 then s + 1 else s in
    let hex := ((base =? 0) || (base =? 16)) && (m s =? 48) && ((m (s + 1) =? 120) || (m (s + 1) =? 88)) && is_hex (m (s + 2)) in
    let base := if hex then 16 else base in
    let s := if hex then s + 2 else s in
    let base := if base =? 0 then if m s =? 48 then 8 else 10 else base in
    let cutoff := U64_MAX / base in
    let cutlim := U64_MAX mod base in
    '(s, acc, any) ← strtoul_loop fuel m base cutoff cutlim s 0 0;
    let acc := if any <? 0 then U64_MAX else if neg then u64 (- acc) else acc in
    Some (put_ptr m endptr (if any =? 0 then nptr else s), acc).

(** ** The environment *)

Section Environ.
Context {K : Type} `{!Pager K} (fuel : nat).

Definition set_environ (v : Z) (s : ust K) : ust K :=
  mk_ust (um s) (global_base s) v (env_alloc_map s) (environ_malloced s) (uos s).
Definition set_alloc_map (v : Z) (s : ust K) : ust K :=
  mk_ust (um s) (global_base s) (environ s) v (environ_malloced s) (uos s).
Definition set_malloced (v : Z) (s : ust K) : ust K :=
  mk_ust (um s) (global_base s) (environ s) (env_alloc_map s) v (uos s).

Definition ld8 (a : Z) : M (ust K) Z := gets (λ s, um s a).
Definition st8 (a v : Z) : M (ust K) unit := modify (λ s, set_um (upd (um s) a (u8 v)) s).
(** [environ[i]] *)
Definition env_get (i : Z) : M (ust K) Z := e <- gets environ;; rd64 (e + 8 * i).
Definition env_set (i v : Z) : M (ust K) unit := e <- gets environ;; wr64 (e + 8 * i) v.

(** [GET_BIT], [SET_BIT] and [CLR_BIT] of [env_alloc_map]. *)
Definition get_bit (i : Z) : M (ust K) bool :=
  b <- gets env_alloc_map;; x <- ld8 (b + Z.shiftr i 3);; ret (Z.testbit x (Z.land i 7)).
Definition set_bit (i : Z) : M (ust K) unit :=
  b <- gets env_alloc_map;; x <- ld8 (b + Z.shiftr i 3);; st8 (b + Z.shiftr i 3) (Z.lor x (Z.shiftl 1 (Z.land i 7))).
Definition clr_bit (i : Z) : M (ust K) unit :=
  b <- gets env_alloc_map;; x <- ld8 (b + Z.shiftr i 3);; st8 (b + Z.shiftr i 3) (Z.ldiff x (Z.shiftl 1 (Z.land i 7))).

Definition create_entry (name value : Z) : M (ust K) Z :=
  m <- gets um;;
  nlen <- of_opt (strlen fuel m name);;
  vlen <- of_opt (strlen fuel m value);;
  entry <- malloc fuel (u64 (nlen + vlen + 2));;
  (if entry =? 0 then ret tt
   else
     modify (λ s, set_um (memcpy (um s) entry name nlen) s);;;
     st8 (entry + nlen) 61;;;
     m <- gets um;;
     m' <- of_opt (strcpy fuel m (entry + nlen + 1) value);;
     modify (set_um m'));;;
  ret entry.

(** [while (environ[current_count]) current_count++] *)
Fixpoint count_loop (n : nat) (count : Z) : M (ust K) Z :=
  match n with
  | O => faultM
  | S n' => e <- env_get count;; if e =? 0 then ret count else count_loop n' (count + 1)
  end.

(** [for (i = 0; i < current_count; i++) new_environ[i] = environ[i]] *)
Definition copy_environ (new_environ count : Z) : M (ust K) unit :=
  for_each (λ i, e <- env_get i;; wr64 (new_environ + 8 * i) e) (seqZ 0 count).

Definition ensure_environ_capacity (required_count : Z) : M (ust K) Z :=
  e <- gets environ;;
  current_count <- (if e =? 0 then ret 0 else count_loop fuel 0);;
  malloced <- gets environ_malloced;;
  if malloced =? 0 then
    let new_size := u64 ((current_count + 2) * 8) in
    new_environ <- malloc fuel new_size;;
    if new_environ =? 0 then ret (-1)
    else
      let map_bytes := (current_count + 8) / 8 in
      new_map <- calloc fuel map_bytes 1;;
      if new_map =? 0 then free new_environ;;; ret (-1)
      else
        copy_environ new_environ current_count;;;
        wr64 (new_environ + 8 * current_count) 0;;;
        modify (set_environ new_environ);;;
        modify (set_alloc_map new_map);;;
        modify (set_malloced 1);;;
        ret 0
  else if current_count <? required_count then
    let new_size := u64 ((required_count + 2) * 8) in
    e <- gets environ;;
    new_env <- realloc fuel e new_size;;
    if new_env =? 0 then ret (-1)
    else
      modify (set_environ new_env);;;
      let old_map_bytes := (current_count + 7) / 8 in
      let new_map_bytes := (required_count + 8) / 8 in
      if old_map_bytes <? new_map_bytes then
        a <- gets env_alloc_map;;
        new_map <- realloc fuel a new_map_bytes;;
        if new_map =? 0 then ret (-1)
        else
          modify (λ s, set_um (memset (um s) (new_map + old_map_bytes) 0 (new_map_bytes - old_map_bytes)) s);;;
          modify (set_alloc_map new_map);;;
          ret 0
      else ret 0
  else ret 0.

(** [strncmp(entry, name, len) == 0 && entry[len] == '='] *)
Definition names (m : mem) (entry name len : Z) : bool := (strncmp m entry name len =? 0) && (m (entry + len) =? 61).

Fixpoint getenv_loop (n : nat) (name len env : Z) : M (ust K) Z :=
  match n with
  | O => faultM
  | S n' =>
      e <- rd64 env;;
      if e =? 0 then ret 0
      else m <- gets um;; if names m e name len then ret (e + len + 1) else getenv_loop n' name len (env + 8)
  end.
Definition getenv (name : Z) : M (ust K) Z :=
  e <- gets environ;;
  if (e =? 0) || (name =? 0) then ret 0
  else
    m <- gets um;;
    len <- of_opt (strlen fuel m name);;
    getenv_loop fuel name len e.

(** The loop of [setenv]: the index of the terminator, or the result when an
    entry of that name was found. *)
Fixpoint setenv_loop (n : nat) (name value overwrite len i : Z) : M (ust K) (Z + Z) :=
  match n with
  | O => faultM
  | S n' =>
      e <- env_get i;;
      if e =? 0 then ret (inl i)
      else
        m <- gets um;;
        if names m e name len then
          if overwrite =? 0 then ret (inr 0)
          else
            owned <- get_bit i;;
            (if owned : bool then free e else ret tt);;;
            e <- create_entry name value;;
            env_set i e;;;
            if e =? 0 then ret (inr (-1)) else set_bit i;;; ret (inr 0)
        else setenv_loop n' name value overwrite len (i + 1)
  end.
Definition setenv (name value overwrite : Z) : M (ust K) Z :=
  if (name =? 0) || (value =? 0) then ret (-1)
  else
    m <- gets um;;
    eq <- of_opt (strchr fuel m name 61);;
    if negb (eq =? 0) then ret (-1)
    else
      r <- ensure_environ_capacity 0;;
      if negb (r =? 0) then ret (-1)
      else
        m <- gets um;;
        len <- of_opt (strlen fuel m name);;
        found <- setenv_loop fuel name value overwrite len 0;;
        match found with
        | inr r => ret r
        | inl i =>
            r <- ensure_environ_capacity (i + 1);;
            if negb (r =? 0) then ret (-1)
            else
              e <- create_entry name value;;
              env_set i e;;;
              if e =? 0 then ret (-1)
              else set_bit i;;; env_set (i + 1) 0;;; ret 0
        end.

(** The entries after [j] move down by one, with their bits. *)
Fixpoint shift_loop (n : nat) (j : Z) : M (ust K) unit :=
  match n with
  | O => faultM
  | S n' =>
      e <- env_get j;;
      if e =? 0 then ret tt
      else
        nx <- env_get (j + 1);;
        env_set j nx;;;
        e <- env_get j;;
        (if e =? 0 then ret tt
         else b <- get_bit (j + 1);; if b : bool then set_bit j else clr_bit j);;;
        shift_loop n' (j + 1)
  end.
Fixpoint unsetenv_loop (n : nat) (name len i : Z) : M (ust K) unit :=
  match n with
  | O => faultM
  | S n' =>
      e <- env_get i;;
      if e =? 0 then ret tt
      else
        m <- gets um;;
        if names m e name len then
          owned <- get_bit i;;
          (if owned : bool then free e else ret tt);;;
          shift_loop fuel i;;;
          unsetenv_loop n' name len i
        else unsetenv_loop n' name len (i + 1)
  end.
Definition unsetenv (name : Z) : M (ust K) Z :=
  e <- gets environ;;
  if (name =? 0) || (e =? 0) then ret (-1)
  else
    m <- gets um;;
    eq <- of_opt (strchr fuel m name 61);;
    if negb (eq =? 0) then ret (-1)
    else
      r <- ensure_environ_capacity 0;;
      if negb (r =? 0) then ret (-1)
      else
        m <- gets um;;
        len <- of_opt (strlen fuel m name);;
        unsetenv_loop fuel name len 0;;;
        ret 0.
End Environ.

(** ** Numbers *)

(** The characters [cs] are digits with the values [vs] below [base]. *)
Definition digits (base : Z) (cs vs : list Z) : Prop := Forall2 (λ c v, digit_of c = Some v ∧ v < base) cs vs.
(** The number they denote, after the digits that gave [a]. *)
Definition num_from (base a : Z) (vs : list Z) : Z := fold_left (λ a v, a * base + v) vs a.
(** [rest] does not continue a number. *)
Definition stops (base : Z) (rest : list Z) : Prop :=
  match rest with [] => True | c :: _ => match digit_of c with Some d => base <= d | None => True end end.

Lemma digit_of_range c d : digit_of c = Some d → 0 <= d < 36 ∧ is_space c = false ∧ 48 <= c ∧ (is_dec c = true ↔ d < 10) ∧ (d < 10 → c = 48 + d).
Proof.
  unfold digit_of, is_space, is_dec. intros H.
  destruct (Z.leb_spec 48 c), (Z.leb_spec c 57); cbn [andb] in H;
  [injection H as <-| | |];
  try (destruct (Z.leb_spec 65 c), (Z.leb_spec c 90); cbn [andb] in H;
       [injection H as <-| | |];
       try (destruct (Z.leb_spec 97 c), (Z.leb_spec c 122); cbn [andb] in H; [injection H as <-| | |]));
  try discriminate; (split; [lia|]); (split; [repeat (rewrite (proj2 (Z.eqb_neq _ _)) by lia); done|]);
  (split; [lia|]); (split; [cbn; split; (done || lia)|lia]).
Qed.
Lemma num_from_ge base a vs : 2 <= base → 0 <= a → Forall (λ v, 0 <= v) vs → a <= num_from base a vs.
Proof.
  intros Hb. revert a. induction vs as [|v vs IH]; intros a Ha Hv; cbn; [lia|].
  apply Forall_cons in Hv as [Hv0 Hv]. specialize (IH (a * base + v) ltac:(nia) Hv). unfold num_from in IH. nia.
Qed.

Lemma digits_nonneg base cs vs : digits base cs vs → Forall (λ v, 0 <= v) vs.
Proof. intros Hd. induction Hd as [|c v cs vs [Hc _] _ IH]; constructor; [|done]. apply digit_of_range in Hc. lia. Qed.

(** The loop: it consumes exactly the digits; the value is exact when it fits
    and [any] is -1 when it does not. *)
Lemma strtoul_overflow base acc c : 2 <= base → 0 <= acc <= U64_MAX → 0 <= c < base →
  (U64_MAX / base <? acc) || ((acc =? U64_MAX / base) && (U64_MAX mod base <? c)) = (U64_MAX <? acc * base + c).
Proof.
  intros Hb Ha Hc. unfold U64_MAX in *. pose proof (Z.div_mod 18446744073709551615 base ltac:(lia)) as Hdm.
  pose proof (Z.mod_pos_bound 18446744073709551615 base ltac:(lia)). set (q := _ / base) in *. set (r := _ mod base) in *.
  destruct (Z.ltb_spec q acc), (Z.eqb_spec acc q), (Z.ltb_spec r c), (Z.ltb_spec 18446744073709551615 (acc * base + c)); cbn; try done; nia.
Qed.
Lemma strtoul_loop_sat base m cs vs : digits base cs vs → ∀ fuel s acc rest, cstr m s (cs ++ rest) → stops base rest →
  (length cs < fuel)%nat →
  strtoul_loop fuel m base (U64_MAX / base) (U64_MAX mod base) s acc (-1) = Some (s + Z.of_nat (length cs), acc, -1).
Proof.
  intros Hd. induction Hd as [|c v cs vs [Hc Hv] Hd IH]; intros [|f] s acc rest Hs Hst Hf; cbn [length app strtoul_loop] in *; try lia.
  - rewrite Z.add_0_r. destruct rest as [|c rest]; cbn [cstr stops] in *; [by rewrite Hs|]. destruct Hs as (_ & -> & _).
    destruct (digit_of c); [|done]. by rewrite (proj2 (Z.leb_le _ _)).
  - destruct Hs as (_ & -> & Hs). rewrite Hc, (proj2 (Z.leb_gt _ _)) by done. cbn [Z.ltb Z.compare orb].
    rewrite (IH f (s + 1) acc rest) by (done || lia). do 3 f_equal. lia.
Qed.
Lemma strtoul_loop_spec base m cs vs : 2 <= base → digits base cs vs → ∀ fuel s acc any rest, cstr m s (cs ++ rest) → stops base rest →
  (length cs < fuel)%nat → 0 <= acc <= U64_MAX → 0 <= any →
  strtoul_loop fuel m base (U64_MAX / base) (U64_MAX mod base) s acc any =
    (if U64_MAX <? num_from base acc vs
     then match strtoul_loop fuel m base (U64_MAX / base) (U64_MAX mod base) s acc any with
          | Some (_, a, _) => Some (s + Z.of_nat (length cs), a, -1) | None => None end
     else Some (s + Z.of_nat (length cs), num_from base acc vs, if decide (cs = []) then any else 1)) ∧
  is_Some (strtoul_loop fuel m base (U64_MAX / base) (U64_MAX mod base) s acc any).
Proof.
  intros Hb Hd. induction Hd as [|c v cs vs [Hc Hv] Hd IH]; intros [|f] s acc any rest Hs Hst Hf Ha Hany; cbn [length app] in *; try lia.
  - assert (strtoul_loop (S f) m base (U64_MAX / base) (U64_MAX mod base) s acc any = Some (s, acc, any)) as ->.
    { cbn [strtoul_loop]. destruct rest as [|c rest]; cbn [cstr stops] in *; [by rewrite Hs|]. destruct Hs as (_ & -> & _).
      destruct (digit_of c); [|done]. by rewrite (proj2 (Z.leb_le _ _)). }
    cbn [num_from fold_left]. rewrite (proj2 (Z.ltb_ge _ _)) by lia. rewrite Z.add_0_r. split; [done|by eexists].
  - destruct Hs as (_ & Hms & Hs). destruct (digit_of_range c v Hc) as [[Hv0 _] _].
    pose proof (digits_nonneg _ _ _ Hd) as Hvs.
    cbn [strtoul_loop]. rewrite Hms, Hc, (proj2 (Z.leb_gt base v)) by done. rewrite (proj2 (Z.ltb_ge any 0)) by done. cbn [orb].
    rewrite strtoul_overflow by lia. change (num_from base acc (v :: vs)) with (num_from base (acc * base + v) vs).
    destruct (Z.ltb_spec U64_MAX (acc * base + v)) as [Hov|Hov].
    + pose proof (num_from_ge base (acc * base + v) vs Hb ltac:(unfold U64_MAX in *; lia) Hvs).
      rewrite (proj2 (Z.ltb_lt _ _)) by lia. rewrite (strtoul_loop_sat base m cs vs Hd f (s + 1) acc rest) by (done || lia).
      split; [|by eexists]. do 3 f_equal. lia.
    + unfold U64_MAX in Hov, Ha. rewrite (u64_id (acc * base)), u64_id by nia.
      destruct (IH f (s + 1) (acc * base + v) 1 rest) as [He Hsome]; [done|done|lia|unfold U64_MAX; nia|lia|].
      split; [|done]. rewrite He. destruct (U64_MAX <? num_from base (acc * base + v) vs).
      * destruct Hsome as [[[q a] y] Hq]. rewrite Hq. do 3 f_equal. lia.
      * rewrite (decide_False (P := c :: cs = [])) by done. do 2 f_equal; [f_equal; lia|]. by case_decide.
Qed.

Lemma skip_spaces_spec m sp : ∀ fuel s rest, cstr m s (sp ++ rest) → Forall (λ c, is_space c = true) sp →
  match rest with [] => True | c :: _ => is_space c = false end → (length sp < fuel)%nat →
  skip_spaces fuel m s = Some (s + Z.of_nat (length sp)).
Proof.
  induction sp as [|c sp IH]; intros [|f] s rest Hs Hsp Hr Hf; cbn [length app cstr skip_spaces] in *; try lia.
  - rewrite Z.add_0_r. destruct rest as [|c rest]; [cbn in Hs; by rewrite Hs|]. destruct Hs as (_ & -> & _). by rewrite Hr.
  - destruct Hs as (_ & -> & Hs). apply Forall_cons in Hsp as [-> Hsp]. rewrite (IH f (s + 1) rest) by (done || lia). f_equal. lia.
Qed.
Lemma cstr_skip m s l1 l2 : cstr m s (l1 ++ l2) → cstr m (s + Z.of_nat (length l1)) l2.
Proof. intros H. by apply cstr_app in H as [_ H]. Qed.
(** The first byte of a string, 0 at its end. *)
Lemma cstr_head m s l : cstr m s l → m s = match l with [] => 0 | c :: _ => c end.
Proof. destruct l; cbn; tauto. Qed.

(** [strtoul]: spaces, an optional sign and digits of the base, up to
    anything that is not such a digit: the value is the number, negated modulo
    2^64 after a minus, and ULONG_MAX when the number does not fit; the end
    pointer is left behind the last digit in every case. *)
Theorem strtoul_value fuel m nptr endptr base sp sg cs vs rest :
  2 <= base <= 36 → cstr m nptr (sp ++ sg ++ cs ++ rest) → Forall (λ c, is_space c = true) sp →
  sg = [] ∨ sg = [43] ∨ sg = [45] → digits base cs vs → cs ≠ [] → stops base rest →
  (base = 16 → match rest with [] => True | c :: _ => c ≠ 120 ∧ c ≠ 88 end) →
  (length (sp ++ sg ++ cs ++ rest) < fuel)%nat →
  strtoul fuel m nptr endptr base =
  Some (put_ptr m endptr (nptr + Z.of_nat (length (sp ++ sg ++ cs))),
        if U64_MAX <? num_from base 0 vs then U64_MAX
        else if decide (sg = [45]) then u64 (- num_from base 0 vs) else num_from base 0 vs).
Proof.
  intros Hb Hs Hsp Hsg Hd Hne Hst Hx Hf. rewrite !length_app in Hf.
  destruct Hd as [|c v cs vs [Hc Hv] Hd]; [done|]. clear Hne.
  destruct (digit_of_range c v Hc) as (Hv36 & Hcsp & Hc48 & _).
  unfold strtoul. rewrite (proj2 (Z.ltb_ge base 0)), (proj2 (Z.eqb_neq base 1)), (proj2 (Z.ltb_ge 36 base)) by lia. cbn [orb].
  rewrite (skip_spaces_spec m sp fuel nptr (sg ++ (c :: cs) ++ rest)); [|done|done| |lia].
  2:{ destruct Hsg as [->|[->| ->]]; done. }
  cbn [mbind option_bind]. apply cstr_skip in Hs. set (s0 := nptr + Z.of_nat (length sp)) in *.
  assert (Hsign : (if m s0 =? 45 then s0 + 1 else if m s0 =? 43 then s0 + 1 else s0) = s0 + Z.of_nat (length sg) ∧
    (m s0 =? 45) = bool_decide (sg = [45])).
  { pose proof (cstr_head _ _ _ Hs) as Hh. destruct Hsg as [->|[->| ->]]; cbn [app length] in *; rewrite Hh.
    - rewrite (proj2 (Z.eqb_neq c 45)), (proj2 (Z.eqb_neq c 43)) by lia. split; [lia|done].
    - by cbn.
    - by cbn. }
  destruct Hsign as [-> Hneg]. rewrite Hneg. apply cstr_skip in Hs. set (s1 := s0 + Z.of_nat (length sg)) in *.
  assert (Hhex : ((base =? 0) || (base =? 16)) && (m s1 =? 48) && ((m (s1 + 1) =? 120) || (m (s1 + 1) =? 88)) && is_hex (m (s1 + 2)) = false).
  { destruct (Z.eqb_spec base 16) as [->|]; [|by rewrite (proj2 (Z.eqb_neq base 0)) by lia].
    assert (((m (s1 + 1) =? 120) || (m (s1 + 1) =? 88)) = false) as ->; [|by rewrite andb_false_r].
    destruct Hs as (_ & _ & Hs1). rewrite (cstr_head _ _ _ Hs1). destruct Hd as [|c2 v2 cs vs [Hc2 Hv2] Hd]; cbn [app].
    - specialize (Hx eq_refl). destruct rest as [|r rest]; [done|]. by rewrite !(proj2 (Z.eqb_neq r _)) by lia.
    - assert (c2 ≠ 120 ∧ c2 ≠ 88) as [H1 H2]; [|by rewrite !(proj2 (Z.eqb_neq c2 _))].
      split; intros ->; cbn in Hc2; injection Hc2 as <-; lia. }
  rewrite Hhex. rewrite (proj2 (Z.eqb_neq base 0)) by lia. cbv zeta.
  destruct (strtoul_loop_spec base m (c :: cs) (v :: vs) ltac:(lia) ltac:(by constructor) fuel s1 0 0 rest Hs Hst) as [He Hsome];
    [cbn in *; lia|unfold U64_MAX; lia|lia|].
  assert (Hend : s1 + Z.of_nat (length (c :: cs)) = nptr + Z.of_nat (length (sp ++ sg ++ c :: cs))).
  { rewrite !length_app. subst s1 s0. lia. }
  rewrite He. destruct (Z.ltb_spec U64_MAX (num_from base 0 (v :: vs))) as [Hov|Hov].
  - destruct Hsome as [[[q a] y] ->]. cbn [mbind option_bind]. cbn [Z.ltb Z.compare Z.eqb]. by rewrite Hend.
  - rewrite decide_False by done. cbn [mbind option_bind]. cbn [Z.ltb Z.compare Z.eqb]. rewrite Hend.
    destruct (decide (sg = [45])); [by rewrite bool_decide_eq_true_2|by rewrite bool_decide_eq_false_2].
Qed.

Definition ex_num_mem : mem := λ a, nth (Z.to_nat (a - 100)) [32; 45; 49; 55; 33] 0.
Lemma strtoul_value_witness : strtoul 16 ex_num_mem 100 0 10 = Some (ex_num_mem, 2 ^ 64 - 17).
Proof.
  rewrite (strtoul_value 16 ex_num_mem 100 0 10 [32] [45] [49; 55] [1; 7] [33]).
  - reflexivity.
  - lia.
  - cbn. repeat split; lia.
  - repeat constructor.
  - right. by right.
  - repeat constructor.
  - done.
  - done.
  - done.
  - cbn. lia.
Defined.

Lemma atoi_loop_spec m cs vs : digits 10 cs vs → ∀ fuel s a rest, cstr m s (cs ++ rest) → stops 10 rest → (length cs < fuel)%nat →
  0 <= a → num_from 10 a vs < 2 ^ 63 → atoi_loop fuel m s a = Some (num_from 10 a vs).
Proof.
  intros Hd. induction Hd as [|c v cs vs [Hc Hv] Hd IH]; intros [|f] s a rest Hs Hst Hf Ha Hn; cbn [length app cstr atoi_loop] in *; try lia.
  - destruct rest as [|c rest]; [cbn in Hs; by rewrite Hs|]. destruct Hs as (_ & -> & _). cbn [stops] in Hst.
    destruct (is_dec c) eqn:E; [|done]. unfold is_dec in E. unfold digit_of in Hst. rewrite E in Hst.
    apply andb_true_iff in E as [E1%Z.leb_le E2%Z.leb_le]. lia.
  - destruct Hs as (_ & -> & Hs). destruct (digit_of_range c v Hc) as (Hv0 & _ & _ & [_ Hdec] & Hcv).
    rewrite (Hdec Hv). replace (c - 48) with v by lia. change (num_from 10 a (v :: vs)) with (num_from 10 (a * 10 + v) vs) in *.
    pose proof (num_from_ge 10 (a * 10 + v) vs ltac:(lia) ltac:(lia) (digits_nonneg _ _ _ Hd)) as Hge.
    rewrite i64_id by lia. apply (IH f (s + 1) _ rest); (done || lia).
Qed.
(** [atoi] of a number that fits a [long] keeps its low 32 bits. *)
Lemma atoi_value fuel m str sp sg cs vs rest :
  str ≠ 0 → cstr m str (sp ++ sg ++ cs ++ rest) → Forall (λ c, is_space c = true) sp →
  sg = [] ∨ sg = [43] ∨ sg = [45] → digits 10 cs vs → cs ≠ [] → stops 10 rest → num_from 10 0 vs < 2 ^ 63 →
  (length (sp ++ sg ++ cs ++ rest) < fuel)%nat →
  atoi fuel m str = Some (i32 (if decide (sg = [45]) then - num_from 10 0 vs else num_from 10 0 vs)).
Proof.
  intros Hn0 Hs Hsp Hsg Hd Hne Hst Hn Hf. rewrite !length_app in Hf.
  pose proof (num_from_ge 10 0 vs ltac:(lia) ltac:(lia) (digits_nonneg _ _ _ Hd)) as Hpos.
  unfold atoi. rewrite (proj2 (Z.eqb_neq str 0)) by done.
  assert (Hc : match cs with [] => False | c :: _ => is_space c = false ∧ c ≠ 45 ∧ c ≠ 43 end).
  { destruct Hd as [|c v cs vs [Hc _]]; [done|]. destruct (digit_of_range c v Hc) as (_ & ? & ? & _). split; [done|lia]. }
  rewrite (skip_spaces_spec m sp fuel str (sg ++ cs ++ rest)); [|done|done| |lia].
  2:{ destruct Hsg as [->|[->| ->]]; [|done..]. destruct cs; [done|]. apply Hc. }
  cbn [mbind option_bind]. apply cstr_skip in Hs. set (s0 := str + Z.of_nat (length sp)) in *.
  assert (Hsign : (if (m s0 =? 43) || (m s0 =? 45) then s0 + 1 else s0) = s0 + Z.of_nat (length sg) ∧
    (if m s0 =? 45 then -1 else 1) = if decide (sg = [45]) then -1 else 1).
  { pose proof (cstr_head _ _ _ Hs) as Hh. destruct Hsg as [->|[->| ->]]; cbn [app length] in *; rewrite Hh; [|by cbn..].
    destruct cs as [|c cs]; [done|]. cbn [app]. destruct Hc as (_ & ? & ?).
    rewrite (proj2 (Z.eqb_neq c 45)), (proj2 (Z.eqb_neq c 43)) by lia. split; [cbn; lia|done]. }
  destruct Hsign as [-> ->]. apply cstr_skip in Hs.
  rewrite (atoi_loop_spec m cs vs Hd fuel _ 0 rest Hs Hst) by (done || lia). cbn [mbind option_bind]. do 2 f_equal.
  case_decide; [rewrite i64_id by lia; lia|rewrite i64_id by lia; lia].
Qed.

(** ** Lookup in the environment *)

(** The array at [e] holds the strings [vars], each by its address and its
    bytes, and a null pointer behind them. *)
Fixpoint env_at (m : mem) (e : Z) (vars : list (Z * list Z)) : Prop :=
  match vars with
  | [] => load64 m e = 0
  | (p, l) :: vars' => load64 m e = p ∧ p ≠ 0 ∧ cstr m p l ∧ env_at m (e + 8) vars'
  end.
(** The first entry [name=value], as the address of the value. *)
Fixpoint env_find (vars : list (Z * list Z)) (name : list Z) : Z :=
  match vars with
  | [] => 0
  | (p, l) :: vars' => if decide (name ++ [61] `prefix_of` l) then p + Z.of_nat (length name) + 1 else env_find vars' name
  end.

Lemma names_spec m e l name nl : e ≠ 0 → name ≠ 0 → cstr m e l → cstr m name nl →
  names m e name (Z.of_nat (length nl)) = bool_decide (nl ++ [61] `prefix_of` l).
Proof.
  intros He Hn Hl Hnl. unfold names, strncmp. rewrite Nat2Z.id.
  pose proof (strncmp_prefix m e name nl l 0 He Hn) as Hp. rewrite !Z.add_0_r in Hp. specialize (Hp Hl Hnl).
  destruct (Z.eqb_spec (strncmp_loop (length nl) m e name 0) 0) as [E|E]; cbn [andb].
  - apply Hp in E as [r ->]. apply cstr_skip in Hl. rewrite (cstr_head _ _ _ Hl).
    case_bool_decide as H; destruct r as [|c r].
    + apply prefix_length in H. rewrite !length_app in H. cbn in H. lia.
    + apply prefix_app_inv, prefix_cons_inv_1 in H. subst. done.
    + done.
    + apply Z.eqb_neq. intros ->. apply H, prefix_app, prefix_cons, prefix_nil.
  - symmetry. apply bool_decide_eq_false_2. intros H. apply E, Hp. etransitivity; [|exact H]. by apply prefix_app_r.
Qed.

Section Getenv.
Context {K : Type} `{!Pager K} (fuel : nat).
Implicit Types s : ust K.

Lemma getenv_loop_spec s name nl : name ≠ 0 → cstr (um s) name nl → ∀ vars n e, env_at (um s) e vars → (length vars < n)%nat →
  getenv_loop n name (Z.of_nat (length nl)) e s = Done (env_find vars nl, s).
Proof.
  intros Hn Hnl. induction vars as [|[p l] vars IH]; intros [|n] e He Hk; cbn [env_at length getenv_loop env_find] in *; try lia.
  - unfold rd64, bind, gets. by rewrite He.
  - destruct He as (Hp & Hp0 & Hl & He). unfold rd64. unfold bind at 1. unfold gets at 1. cbv beta iota. rewrite Hp.
    rewrite (proj2 (Z.eqb_neq p 0)) by done. unfold bind, gets. rewrite (names_spec _ p l name nl) by done.
    destruct (decide (nl ++ [61] `prefix_of` l)) as [Hpre|Hpre]; [by rewrite bool_decide_eq_true_2|].
    rewrite bool_decide_eq_false_2 by done. apply IH; [done|lia].
Qed.

(** [getenv] returns the address of the value of the first entry of the
    environment whose text starts with the name and an equals sign, a null
    pointer when there is none, and changes nothing. *)
Theorem getenv_finds s name nl vars :
  environ s ≠ 0 → env_at (um s) (environ s) vars → name ≠ 0 → cstr (um s) name nl →
  (length nl < fuel)%nat → (length vars < fuel)%nat →
  getenv fuel name s = Done (env_find vars nl, s).
Proof.
  intros He Hat Hn Hnl Hf1 Hf2. unfold getenv. unfold bind at 1. unfold gets at 1. cbv beta iota.
  rewrite (proj2 (Z.eqb_neq (environ s) 0)), (proj2 (Z.eqb_neq name 0)) by done. cbn [orb].
  unfold bind at 1. unfold gets at 1. cbv beta iota. rewrite (user_strlen_cstr _ nl) by done.
  unfold bind at 1, of_opt. by apply getenv_loop_spec.
Qed.

Lemma count_loop_spec s vars : ∀ n i, env_at (um s) (environ s + 8 * i) vars → (length vars < n)%nat →
  count_loop n i s = Done (i + Z.of_nat (length vars), s).
Proof.
  induction vars as [|[p l] vars IH]; intros [|n] i He Hk; cbn [env_at length count_loop] in *; try lia;
    unfold env_get, rd64, bind, gets.
  - rewrite He. cbn. unfold ret. do 2 f_equal. lia.
  - destruct He as (-> & Hp & _ & He). rewrite (proj2 (Z.eqb_neq p 0)) by done.
    rewrite (IH n (i + 1)); [do 2 f_equal; lia| |lia]. by replace (environ s + 8 * (i + 1)) with (environ s + 8 * i + 8) by lia.
Qed.
(** Nothing to do when the array is the library's own and large enough. *)
Lemma ensure_enough s vars : environ s ≠ 0 → environ_malloced s ≠ 0 → env_at (um s) (environ s) vars → (length vars < fuel)%nat →
  ensure_environ_capacity fuel 0 s = Done (0, s).
Proof.
  intros He Hm Hat Hf. unfold ensure_environ_capacity. unfold bind at 1. unfold gets at 1. cbv beta iota.
  rewrite (proj2 (Z.eqb_neq (environ s) 0)) by done. unfold bind at 1.
  rewrite (count_loop_spec s vars) by (rewrite ?Z.mul_0_r, ?Z.add_0_r; done).
  unfold bind at 1, gets. rewrite (proj2 (Z.eqb_neq (environ_malloced s) 0)) by done.
  by rewrite (proj2 (Z.ltb_ge _ _)) by lia.
Qed.

(** [setenv] without overwriting leaves an existing variable alone. *)
Lemma setenv_keeps s name value nl vars :
  environ s ≠ 0 → environ_malloced s ≠ 0 → env_at (um s) (environ s) vars → name ≠ 0 → value ≠ 0 →
  cstr (um s) name nl → 61 ∉ nl → (length nl < fuel)%nat → (length vars < fuel)%nat → env_find vars nl ≠ 0 →
  setenv fuel name value 0 s = Done (0, s).
Proof.
  intros He Hm Hat Hn Hv Hnl Heq Hf1 Hf2 Hfind. unfold setenv.
  rewrite (proj2 (Z.eqb_neq name 0)), (proj2 (Z.eqb_neq value 0)) by done. cbn [orb].
  unfold bind at 1. unfold gets at 1. cbv beta iota. rewrite (user_strchr_cstr _ nl 61) by (done || lia).
  assert (list_find (eq 61) nl = None) as ->.
  { apply list_find_None, Forall_forall. intros x Hx <-. done. }
  unfold bind at 1, of_opt. cbn [Z.eqb negb]. unfold bind at 1. rewrite (ensure_enough s vars) by done. cbn [Z.eqb negb].
  unfold bind at 1. unfold gets at 1. cbv beta iota. rewrite (user_strlen_cstr _ nl) by done. unfold bind at 1, of_opt.
  enough (∀ n vars i, env_at (um s) (environ s + 8 * i) vars → env_find vars nl ≠ 0 → (length vars < n)%nat →
    setenv_loop fuel n name value 0 (Z.of_nat (length nl)) i s = Done (inr 0, s)) as H.
  { unfold bind. by rewrite (H fuel vars) by (rewrite ?Z.mul_0_r, ?Z.add_0_r; done). }
  clear -Hn Hnl. induction n as [|n IH]; intros [|[p l] vars] i Hat Hfind Hk; cbn [env_at length setenv_loop env_find] in *; try lia; try done.
  destruct Hat as (Hp & Hp0 & Hl & Hat). unfold env_get, rd64. unfold bind at 1. unfold bind at 1. unfold gets at 1 2. cbv beta iota.
  rewrite Hp, (proj2 (Z.eqb_neq p 0)) by done. unfold bind at 1. unfold gets at 1. cbv beta iota.
  rewrite (names_spec _ p l name nl) by done. destruct (decide (nl ++ [61] `prefix_of` l)) as [Hpre|Hpre].
  - by rewrite bool_decide_eq_true_2.
  - rewrite bool_decide_eq_false_2 by done. apply (IH vars); [|done|lia].
    by replace (environ s + 8 * (i + 1)) with (environ s + 8 * i + 8) by lia.
Qed.
End Getenv.

(** An environment of two variables, A=1 and B=23. *)
Definition ex_env_mem : mem :=
  store64 (store64 (store64 (put_bytes (put_bytes (put_bytes (λ _, 0) 100 [65; 61; 49]) 110 [66; 61; 50; 51]) 120 [66]) 200 100) 208 110) 216 0.
Definition ex_env : ust Z := mk_ust ex_env_mem 0 200 0 0 4096.
Lemma getenv_finds_witness : getenv 8 120 ex_env = Done (112, ex_env).
Proof.
  apply (getenv_finds 8 ex_env 120 [66] [(100, [65; 61; 49]); (110, [66; 61; 50; 51])]).
  - done.
  - cbn [env_at cstr]. repeat split; vm_compute; congruence || done.
  - done.
  - cbn [cstr]. repeat split; vm_compute; congruence || done.
  - cbn. lia.
  - cbn. lia.
Defined.
