(* ===== verification/UCtype.v ===== *)
(** Character classes of the user C library, [user/src/ctype.c] and
    [user/lib/ctype.h]: the table of 256 entries and the predicates on it. *)
From S2P Require Export Prelude.

Definition CTYPE_U : Z := 0x01.
Definition CTYPE_L : Z := 0x02.
Definition CTYPE_D : Z := 0x04.
Definition CTYPE_S : Z := 0x08.
Definition CTYPE_P : Z := 0x10.
Definition CTYPE_C : Z := 0x20.
Definition CTYPE_X : Z := 0x40.
Definition CTYPE_B : Z := 0x80.
Definition CTYPE_A : Z := Z.lor CTYPE_U CTYPE_L.
Definition CTYPE_AN : Z := Z.lor CTYPE_A CTYPE_D.
Definition CTYPE_G : Z := Z.lor CTYPE_AN CTYPE_P.
Definition CTYPE_PR : Z := Z.lor CTYPE_G CTYPE_B.

(** [__ctype_table]. *)
Definition ctype_table : list Z :=
  [32; 32; 32; 32; 32; 32; 32; 32; 32; 168; 40; 40; 40; 40; 32; 32;
   32; 32; 32; 32; 32; 32; 32; 32; 32; 32; 32; 32; 32; 32; 32; 32;
   136; 16; 16; 16; 16; 16; 16; 16; 16; 16; 16; 16; 16; 16; 16; 16;
   4; 4; 4; 4; 4; 4; 4; 4; 4; 4; 16; 16; 16; 16; 16; 16;
   16; 65; 65; 65; 65; 65; 65; 1; 1; 1; 1; 1; 1; 1; 1; 1;
   1; 1; 1; 1; 1; 1; 1; 1; 1; 1; 1; 16; 16; 16; 16; 16;
   16; 66; 66; 66; 66; 66; 66; 2; 2; 2; 2; 2; 2; 2; 2; 2;
   2; 2; 2; 2; 2; 2; 2; 2; 2; 2; 2; 16; 16; 16; 16; 32] ++ repeat 0 128.

Definition is_class (flags c : Z) : bool :=
  (u32 c <? 256) && negb (Z.land (nth (Z.to_nat (u8 c)) ctype_table 0) flags =? 0).

Definition isalnum (c : Z) : bool := is_class CTYPE_AN c.
Definition isalpha (c : Z) : bool := is_class CTYPE_A c.
Definition isblank (c : Z) : bool := is_class CTYPE_B c.
Definition iscntrl (c : Z) : bool := is_class CTYPE_C c.
Definition isdigit (c : Z) : bool := is_class CTYPE_D c.
Definition isgraph (c : Z) : bool := is_class CTYPE_G c.
Definition islower (c : Z) : bool := is_class CTYPE_L c.
Definition isprint (c : Z) : bool := is_class CTYPE_PR c.
Definition ispunct (c : Z) : bool := is_class CTYPE_P c.
Definition isspace (c : Z) : bool := is_class CTYPE_S c.
Definition isupper (c : Z) : bool := is_class CTYPE_U c.
Definition isxdigit (c : Z) : bool := is_class (Z.lor CTYPE_D CTYPE_X) c.
Definition isascii (c : Z) : bool := u32 c <=? 0x7F.
Definition tolower (c : Z) : Z := if is_class CTYPE_U c then c + (97 - 65) else c.
Definition toupper (c : Z) : Z := if is_class CTYPE_L c then c - (97 - 65) else c.
Definition toascii (c : Z) : Z := Z.land c 0x7F.

(** ** The classes as ranges *)

(** Every value of an [unsigned char], and EOF. *)
Definition char_range : list Z := seqZ (-1) 257.
Lemma char_range_in c : -1 <= c < 256 → c ∈ char_range.
Proof. intros H. apply elem_of_seqZ. lia. Qed.
Lemma by_table (f g : Z → bool) : forallb (λ c, Bool.eqb (f c) (g c)) char_range = true → ∀ c, -1 <= c < 256 → f c = g c.
Proof.
  intros H c Hc. rewrite forallb_forall in H. apply Bool.eqb_prop, H. by apply list_elem_of_In, char_range_in.
Qed.
Definition within (a b c : Z) : bool := (a <=? c) && (c <=? b).

Lemma isdigit_range c : -1 <= c < 256 → isdigit c = within 48 57 c.
Proof. apply by_table. by vm_compute. Qed.
Lemma isspace_range c : -1 <= c < 256 → isspace c = within 9 13 c || (c =? 32).
Proof. apply (by_table isspace (λ c, within 9 13 c || (c =? 32))). by vm_compute. Qed.
Lemma isxdigit_range c : -1 <= c < 256 → isxdigit c = within 48 57 c || within 65 70 c || within 97 102 c.
Proof. apply (by_table isxdigit (λ c, within 48 57 c || within 65 70 c || within 97 102 c)). by vm_compute. Qed.
Lemma isalpha_range c : -1 <= c < 256 → isalpha c = within 65 90 c || within 97 122 c.
Proof. apply (by_table isalpha (λ c, within 65 90 c || within 97 122 c)). by vm_compute. Qed.
(** The printable characters are 32 to 126 and, because the class borrows the
    flag of the blanks, the tabulator. *)
Lemma isprint_range c : -1 <= c < 256 → isprint c = within 32 126 c || (c =? 9).
Proof. apply (by_table isprint (λ c, within 32 126 c || (c =? 9))). by vm_compute. Qed.
