(* ===== verification/UFormat.v ===== *)
(** Formatted output and input on strings, [user/src/stdio.c]: [_itoa],
    [_uitoa], [vsnprintf] and [vsscanf].

    [vfprintf] and [vsnprintf] are the same text with a different output
    statement, so the format loop is written once over an output action [out];
    [vsnprintf] is the instance whose action stores at [str[idx]] while there is
    room, [vfprintf] (in [UStdio]) the one that calls [fputc].  The argument
    list holds the integer registers as 64-bit slots and the floating ones as
    doubles; doubles are the IEEE binary64 numbers of [SpecFloat].  The format
    and the strings are read byte by byte, so the loops take a fuel. *)
From Stdlib Require Export SpecFloat.
From S2P Require Export UCtype UStdlib.
Local Open Scope prog_scope.

(** ** Digits *)

Definition lower_digits : list Z := [48; 49; 50; 51; 52; 53; 54; 55; 56; 57; 97; 98; 99; 100; 101; 102].
Definition upper_digits : list Z := [48; 49; 50; 51; 52; 53; 54; 55; 56; 57; 65; 66; 67; 68; 69; 70].

(** [do { buf[i++] = digits[n % base]; n /= base; } while (n)] followed by the
    reversal: the characters in order.  A 64-bit number has at most 64 digits. *)
Fixpoint utoa_loop (fuel : nat) (n base : Z) (ds acc : list Z) : list Z :=
  match fuel with
  | O => acc
  | S f =>
      let acc := nth (Z.to_nat (n mod base)) ds 0 :: acc in
      let n := n / base in
      if n =? 0 then acc else utoa_loop f n base ds acc
  end.
Definition _uitoa (n base : Z) (uppercase : bool) : list Z :=
  utoa_loop 64 n base (if uppercase then upper_digits else lower_digits) [].
Definition _itoa (n base : Z) (uppercase : bool) : list Z :=
  let neg := (n <? 0) && (base =? 10) in
  let un := if neg then u64 (- n) else u64 n in
  let s := utoa_loop 64 un base (if uppercase then upper_digits else lower_digits) [] in
  if neg then 45 :: s else s.

(** ** Doubles *)

Definition double := spec_float.
Definition dmul : double → double → double := SFmul 53 1024.
Definition dadd : double → double → double := SFadd 53 1024.
Definition dsub : double → double → double := SFsub 53 1024.
Definition dlt : double → double → bool := SFltb.
Definition d_of_Z (n : Z) : double := binary_normalize 53 1024 n 0 false.
(** The conversion to [long]: towards zero; outside the range of [long], and
    for the values that are no numbers, the C standard leaves it undefined. *)
Definition long_of_d (x : double) : option Z :=
  match x with
  | S754_zero _ => Some 0
  | S754_finite s p e =>
      let n := if 0 <=? e then Z.pos p * 2 ^ e else Z.pos p / 2 ^ (- e) in
      let n := if s then - n else n in
      if (- 2 ^ 63 <=? n) && (n <? 2 ^ 63) then Some n else None
  | _ => None
  end.
(** [0.5e-6] and [10.0]. *)
Definition half_micro : double := S754_finite false 4722366482869645 (-73).
Definition ten : double := d_of_Z 10.

(** ** The argument list *)

Record va_list := mk_va { va_gp : list Z; va_fp : list double }.
Definition va_slot {S} (ap : va_list) : M S (Z * va_list) :=
  match va_gp ap with [] => faultM | x :: l => ret (x, mk_va l (va_fp ap)) end.
Definition va_double {S} (ap : va_list) : M S (double * va_list) :=
  match va_fp ap with [] => faultM | x :: l => ret (x, mk_va (va_gp ap) l) end.

(** ** The format loop *)

Section Printf.
Context {S : Type} (rd : Z → M S Z) (out : Z → M S unit) (fuel : nat).

Definition out_list (l : list Z) : M S unit := for_each out l.
(** [while ( *s) out( *s++)]: the number of characters. *)
Fixpoint out_string (n : nat) (s count : Z) : M S Z :=
  match n with
  | O => faultM
  | Datatypes.S n' =>
      c <- rd s;;
      if c =? 0 then ret count else out c;;; out_string n' (s + 1) (i32 (count + 1))
  end.
(** The six decimals of [%f]. *)
Fixpoint out_frac (n : nat) (frac : double) : M S unit :=
  match n with
  | O => ret tt
  | Datatypes.S n' =>
      let frac := dmul frac ten in
      digit <- of_opt (long_of_d frac);;
      out (48 + digit);;;
      out_frac n' (dsub frac (d_of_Z digit))
  end.
Definition count_list (count : Z) (l : list Z) : Z := i32 (count + Z.of_nat (length l)).

(** One directive, with [p] at its letter: the new [p], arguments and count. *)
Definition directive (c p count : Z) (ap : va_list) : M S (Z * va_list * Z) :=
  let text l p ap := out_list l;;; ret (p, ap, count_list count l) in
  if (c =? 100) || (c =? 105) then      (* d i *)
    r <- va_slot ap;; text (_itoa (i32 r.1) 10 false) p r.2
  else if c =? 117 then                 (* u *)
    r <- va_slot ap;; text (_uitoa (u32 r.1) 10 false) p r.2
  else if c =? 120 then                 (* x *)
    r <- va_slot ap;; text (_uitoa (u32 r.1) 16 false) p r.2
  else if c =? 88 then                  (* X *)
    r <- va_slot ap;; text (_uitoa (u32 r.1) 16 true) p r.2
  else if c =? 112 then                 (* p *)
    r <- va_slot ap;; text (48 :: 120 :: _uitoa (u64 r.1) 16 false) p r.2
  else if c =? 102 then                 (* f *)
    r <- va_double ap;;
    let neg := dlt r.1 (S754_zero false) in
    (if neg : bool then out 45 else ret tt);;;
    let num := if neg then SFopp r.1 else r.1 in
    int_part <- of_opt (long_of_d num);;
    let frac := dadd (dsub num (d_of_Z int_part)) half_micro in
    let l := _uitoa (u64 int_part) 10 false in
    out_list l;;;
    out 46;;;
    out_frac 6 frac;;;
    ret (p, r.2, i32 (count + (if neg then 1 else 0) + Z.of_nat (length l) + 7))
  else if c =? 115 then                 (* s *)
    r <- va_slot ap;;
    if r.1 =? 0 then text [40; 110; 117; 108; 108; 41] p r.2
    else count <- out_string fuel r.1 count;; ret (p, r.2, count)
  else if c =? 99 then                  (* c *)
    r <- va_slot ap;; text [i32 r.1] p r.2
  else if c =? 37 then text [37] p ap
  else if c =? 108 then                 (* l *)
    let p := p + 1 in
    c <- rd p;;
    if (c =? 100) || (c =? 105) then r <- va_slot ap;; text (_itoa (i64 r.1) 10 false) p r.2
    else if c =? 117 then r <- va_slot ap;; text (_uitoa (u64 r.1) 10 false) p r.2
    else if c =? 120 then r <- va_slot ap;; text (_uitoa (u64 r.1) 16 false) p r.2
    else ret (p, ap, count)
  else text [37; c] p ap.

(** [for (p = format; *p; p++)]. *)
Fixpoint printf_loop (n : nat) (p count : Z) (ap : va_list) : M S Z :=
  match n with
  | O => faultM
  | Datatypes.S n' =>
      c <- rd p;;
      if c =? 0 then ret count
      else if negb (c =? 37) then out c;;; printf_loop n' (p + 1) (i32 (count + 1)) ap
      else
        let p := p + 1 in
        c <- rd p;;
        if c =? 0 then ret count
        else r <- directive c p count ap;; printf_loop n' (r.1.1 + 1) r.2 r.1.2
  end.
End Printf.

(** *** [vsnprintf] *)

(** [if (size > 0 && idx < size - 1) str[idx] = c; idx++], on the memory and [idx]. *)
Definition sn_out (str size c : Z) : M (mem * Z) unit :=
  modify (λ s, (if (0 <? size) && (s.2 <? size - 1) then upd s.1 (str + s.2) (u8 c) else s.1, s.2 + 1)).
Definition sn_rd (a : Z) : M (mem * Z) Z := gets (λ s, s.1 a).

Definition vsnprintf (fuel : nat) (str size format : Z) (ap : va_list) : M mem Z := λ m,
  match printf_loop sn_rd (sn_out str size) fuel fuel format 0 ap (m, 0) with
  | Done (total, (m, idx)) =>
      let m := if 0 <? size then
                 if idx <? size then upd m (str + (if idx <? size then idx else size - 1)) 0 else upd m (str + (size - 1)) 0
               else m in
      Done (total, m)
  | Fault => Fault
  | Stuck => Stuck
  end.
Definition snprintf := vsnprintf.

(** *** [vsscanf]

    The conversions write through pointers taken from the argument list. *)

(** [while (isspace( *s)) s++]. *)
Fixpoint skip_isspace (fuel : nat) (m : mem) (s : Z) : option Z :=
  match fuel with
  | O => None
  | S f => if isspace (m s) then skip_isspace f m (s + 1) else Some s
  end.
(** [while (isdigit( *s)) { num = num * 10 + ( *s - '0'); s++; }]. *)
Fixpoint dec_loop (fuel : nat) (m : mem) (s num : Z) : option (Z * Z) :=
  match fuel with
  | O => None
  | S f => if isdigit (m s) then dec_loop f m (s + 1) (i64 (num * 10 + (m s - 48))) else Some (s, num)
  end.
Definition hex_val (c : Z) : Z :=
  if (48 <=? c) && (c <=? 57) then c - 48 else if (97 <=? c) && (c <=? 102) then c - 97 + 10 else c - 65 + 10.
Fixpoint hex_loop (fuel : nat) (m : mem) (s num : Z) : option (Z * Z) :=
  match fuel with
  | O => None
  | S f => if isxdigit (m s) then hex_loop f m (s + 1) (u64 (num * 16 + hex_val (m s))) else Some (s, num)
  end.
(** [while ( *s && !isspace( *s)) *dest++ = *s++]. *)
Fixpoint word_loop (fuel : nat) (m : mem) (s dest : Z) : option (mem * Z * Z) :=
  match fuel with
  | O => None
  | S f => if negb (m s =? 0) && negb (isspace (m s)) then word_loop f (upd m dest (m s)) (s + 1) (dest + 1)
           else Some (m, s, dest)
  end.
(** The store of a number: [long] or [int], through the next pointer. *)
Definition put_number (m : mem) (is_long : bool) (a num : Z) : mem :=
  if is_long then store64 m a (u64 num) else store32 m a (u32 num).

(** How a conversion ends: [inl count] leaves the function, otherwise the
    memory, [s] and the arguments; [count] has been counted by the caller. *)
Definition scan_number (fuel : nat) (m : mem) (unsigned is_long : bool) (s count : Z) (gp : list Z)
    : option (Z + (mem * Z * list Z)) :=
  s ← skip_isspace fuel m s;
  if m s =? 0 then Some (inl (if 0 <? count then count else -1))
  else
    let sign := if m s =? 45 then -1 else 1 in
    let s := if m s =? 45 then s + 1 else if m s =? 43 then s + 1 else s in
    if negb (isdigit (m s)) then Some (inl count)
    else
      '(s, num) ← dec_loop fuel m s 0;
      match gp with
      | [] => None
      | a :: gp => Some (inr (put_number m is_long a (if unsigned then num else i64 (num * sign)), s, gp))
      end.
Definition scan_hex (fuel : nat) (m : mem) (is_long : bool) (s count : Z) (gp : list Z)
    : option (Z + (mem * Z * list Z)) :=
  s ← skip_isspace fuel m s;
  if m s =? 0 then Some (inl (if 0 <? count then count else -1))
  else if negb (isxdigit (m s)) then Some (inl count)
  else
    '(s, num) ← hex_loop fuel m s 0;
    match gp with
    | [] => None
    | a :: gp => Some (inr (put_number m is_long a num, s, gp))
    end.
Definition scan_word (fuel : nat) (m : mem) (s count : Z) (gp : list Z) : option (Z + (mem * Z * list Z)) :=
  match gp with
  | [] => None
  | dest :: gp =>
      s ← skip_isspace fuel m s;
      if m s =? 0 then Some (inl (if 0 <? count then count else -1))
      else '(m, s, dest) ← word_loop fuel m s dest; Some (inr (upd m dest 0, s, gp))
  end.
Definition scan_char (m : mem) (s count : Z) (gp : list Z) : option (Z + (mem * Z * list Z)) :=
  match gp with
  | [] => None
  | dest :: gp =>
      if m s =? 0 then Some (inl (if 0 <? count then count else -1))
      else Some (inr (upd m dest (m s), s + 1, gp))
  end.

(** [while ( *p)]: the memory and the returned count. *)
Fixpoint sscanf_loop (n fuel : nat) (m : mem) (p s count : Z) (gp : list Z) : option (mem * Z) :=
  match n with
  | O => None
  | S n' =>
      let c := m p in
      if c =? 0 then Some (m, count)
      else if isspace c then s ← skip_isspace fuel m s; sscanf_loop n' fuel m (p + 1) s count gp
      else if negb (c =? 37) then
        if m s =? 0 then Some (m, if 0 <? count then count else -1)
        else if negb (m s =? c) then Some (m, count)
        else sscanf_loop n' fuel m (p + 1) (s + 1) count gp
      else
        let p := p + 1 in
        if m p =? 0 then Some (m, count)
        else
          let is_long := m p =? 108 in
          let p := if is_long then p + 1 else p in
          let c := m p in
          let next r :=
            match r with
            | inl count => Some (m, count)
            | inr (m, s, gp) => sscanf_loop n' fuel m (p + 1) s (i32 (count + 1)) gp
            end in
          if (c =? 100) || (c =? 105) || (c =? 117) then r ← scan_number fuel m (c =? 117) is_long s count gp; next r
          else if (c =? 120) || (c =? 88) then r ← scan_hex fuel m is_long s count gp; next r
          else if c =? 115 then r ← scan_word fuel m s count gp; next r
          else if c =? 99 then r ← scan_char m s count gp; next r
          else if c =? 37 then
            if negb (m s =? 37) then Some (m, count) else sscanf_loop n' fuel m (p + 1) (s + 1) count gp
          else Some (m, count)
  end.
Definition vsscanf (fuel : nat) (m : mem) (str format : Z) (gp : list Z) : option (mem * Z) :=
  sscanf_loop fuel fuel m format str 0 gp.
Definition sscanf := vsscanf.

(** ** Digits and numbers *)

Lemma digit_lower v : 0 <= v < 16 → digit_of (nth (Z.to_nat v) lower_digits 0) = Some v.
Proof.
  intros Hv. assert (v ∈ seqZ 0 16) as Hin by (apply elem_of_seqZ; lia). revert Hin. clear.
  assert (Forall (λ v, digit_of (nth (Z.to_nat v) lower_digits 0) = Some v) (seqZ 0 16)) as H.
  { apply (bool_decide_eq_true_1 _). by vm_compute. }
  rewrite Forall_forall in H. apply H.
Qed.
Lemma digit_upper v : 0 <= v < 16 → digit_of (nth (Z.to_nat v) upper_digits 0) = Some v.
Proof.
  intros Hv. assert (v ∈ seqZ 0 16) as Hin by (apply elem_of_seqZ; lia). revert Hin. clear.
  assert (Forall (λ v, digit_of (nth (Z.to_nat v) upper_digits 0) = Some v) (seqZ 0 16)) as H.
  { apply (bool_decide_eq_true_1 _). by vm_compute. }
  rewrite Forall_forall in H. apply H.
Qed.

Lemma num_from_app base a l1 l2 : num_from base a (l1 ++ l2) = num_from base (num_from base a l1) l2.
Proof. apply fold_left_app. Qed.
(** The value of digits in front of others. *)
Lemma num_from_shift base a vs : num_from base a vs = a * base ^ Z.of_nat (length vs) + num_from base 0 vs.
Proof.
  revert a. induction vs as [|v vs IH]; intros a; cbn [length]; [cbn; lia|].
  change (num_from base a (v :: vs)) with (num_from base (a * base + v) vs).
  change (num_from base 0 (v :: vs)) with (num_from base (0 * base + v) vs). rewrite (IH (a * base + v)), (IH (0 * base + v)).
  rewrite Nat2Z.inj_succ, Z.pow_succ_r by lia. ring.
Qed.

Section Utoa.
Context (base : Z) (ds : list Z).
Hypothesis Hbase : 2 <= base.
Hypothesis Hds : ∀ v, 0 <= v < base → digit_of (nth (Z.to_nat v) ds 0) = Some v.
Local Set Default Proof Using "All".

Lemma utoa_loop_spec : ∀ f n acc ws, 0 <= n < 2 ^ Z.of_nat f → (0 < f)%nat → digits base acc ws →
  ∃ vs, digits base (utoa_loop f n base ds acc) (vs ++ ws) ∧ vs ≠ [] ∧ num_from base 0 vs = n ∧ (length vs <= f)%nat.
Proof.
  induction f as [|f IH]; intros n acc ws Hn Hf Hacc; [lia|]. cbn [utoa_loop].
  assert (Hd : digits base (nth (Z.to_nat (n mod base)) ds 0 :: acc) (n mod base :: ws)).
  { constructor; [|done]. split; [apply Hds|]; apply Z.mod_pos_bound; lia. }
  pose proof (Z.div_mod n base ltac:(lia)) as Hdm.
  destruct (Z.eqb_spec (n / base) 0) as [E|E].
  - exists [n mod base]. split_and!; [done|done| |cbn; lia]. cbn. rewrite E in Hdm. lia.
  - rewrite Nat2Z.inj_succ, Z.pow_succ_r in Hn by lia.
    assert (0 <= n / base < 2 ^ Z.of_nat f) as Hq.
    { split; [apply Z.div_pos; lia|]. apply Z.div_lt_upper_bound; [lia|]. nia. }
    assert (0 < f)%nat by (destruct f; [cbn in Hq; lia|lia]).
    destruct (IH (n / base) _ _ Hq ltac:(lia) Hd) as (vs & Hvs & Hne & Hnum & Hlen).
    exists (vs ++ [n mod base]). rewrite <- app_assoc. split_and!; [done|by destruct vs| |rewrite length_app; cbn; lia].
    rewrite num_from_app, Hnum. cbn. lia.
Qed.
End Utoa.

(** [_uitoa] writes the number: its characters are the digits of [n]. *)
Lemma uitoa_digits n base up : base = 10 ∨ base = 16 → 0 <= n < 2 ^ 64 →
  ∃ vs, digits base (_uitoa n base up) vs ∧ vs ≠ [] ∧ num_from base 0 vs = n.
Proof.
  intros Hb Hn. unfold _uitoa. destruct (utoa_loop_spec base (if up then upper_digits else lower_digits)) with (f := 64%nat) (n := n)
    (acc := @nil Z) (ws := @nil Z) as (vs & Hvs & Hne & Hnum & _).
  - lia.
  - intros v Hv. destruct up; [apply digit_upper|apply digit_lower]; lia.
  - done.
  - lia.
  - constructor.
  - rewrite app_nil_r in Hvs. by exists vs.
Qed.
Lemma itoa_pos n up : 0 <= n < 2 ^ 63 → _itoa n 10 up = _uitoa n 10 up.
Proof. intros Hn. unfold _itoa. rewrite (proj2 (Z.ltb_ge n 0)) by lia. cbn [andb]. by rewrite u64_id by lia. Qed.
Lemma itoa_neg n up : - 2 ^ 63 <= n < 0 → _itoa n 10 up = 45 :: _uitoa (- n) 10 up.
Proof. intros Hn. unfold _itoa. rewrite (proj2 (Z.ltb_lt n 0)) by lia. cbn [andb Z.eqb Pos.eqb]. by rewrite u64_id by lia. Qed.

Lemma digits_chars base cs vs : digits base cs vs → Forall (λ c, 0 < c < 256) cs.
Proof.
  intros Hd. induction Hd as [|c v cs vs [Hc _] _ IH]; constructor; [|done].
  unfold digit_of in Hc. repeat case_match; try done; repeat match goal with H : _ && _ = true |- _ => apply andb_true_iff in H as [?%Z.leb_le ?%Z.leb_le] end; lia.
Qed.

(** numbers survive printing: the text [_uitoa] makes of an unsigned
    64-bit number, in base 10 or 16 and in either case, is read back by
    [strtoul] in that base as the number, up to the last character. *)
Theorem uitoa_strtoul fuel m p endptr n base up :
  base = 10 ∨ base = 16 → 0 <= n < 2 ^ 64 → cstr m p (_uitoa n base up) → (length (_uitoa n base up) < fuel)%nat →
  strtoul fuel m p endptr base = Some (put_ptr m endptr (p + Z.of_nat (length (_uitoa n base up))), n).
Proof.
  intros Hb Hn Hs Hf. destruct (uitoa_digits n base up Hb Hn) as (vs & Hd & Hne & Hnum).
  rewrite (strtoul_value fuel m p endptr base [] [] (_uitoa n base up) vs []); rewrite ?app_nil_r; try done; [|lia|by left|].
  - rewrite Hnum, decide_False by done. rewrite (proj2 (Z.ltb_ge _ _)) by (unfold U64_MAX; lia). done.
  - intros E. rewrite E in Hd. apply Forall2_length in Hd. by destruct vs.
Qed.
Lemma uitoa_strtoul_witness : strtoul 32 (put_bytes (λ _, 0) 100 (_uitoa 48879 16 true)) 100 0 16 =
  Some (put_bytes (λ _, 0) 100 (_uitoa 48879 16 true), 48879).
Proof.
  apply (uitoa_strtoul 32 (put_bytes (λ _, 0) 100 (_uitoa 48879 16 true)) 100 0 48879 16 true).
  - by right.
  - lia.
  - vm_compute. repeat split; congruence || done.
  - vm_compute. lia.
Defined.

(** ** One format loop, two outputs *)

(** [m2] does what [m1] does, as long as [m1] returns. *)
Definition sim {S T A} (R : S → T → Prop) (m1 : M S A) (m2 : M T A) : Prop :=
  ∀ s t, R s t → match m1 s with Done (a, s') => ∃ t', m2 t = Done (a, t') ∧ R s' t' | _ => True end.
Section Sim.
Context {S T : Type} (R : S → T → Prop).
Lemma sim_ret {A} (a : A) : sim R (ret a) (ret a).
Proof. intros s t H. by exists t. Qed.
Lemma sim_bind {A B} (m1 : M S A) (m2 : M T A) (k1 : A → M S B) (k2 : A → M T B) :
  sim R m1 m2 → (∀ a, sim R (k1 a) (k2 a)) → sim R (bind m1 k1) (bind m2 k2).
Proof.
  intros Hm Hk s t H. specialize (Hm s t H). unfold bind. destruct (m1 s) as [[a s']| |]; [|done|done].
  destruct Hm as (t' & -> & H'). by apply Hk.
Qed.
Lemma sim_fault {A} : sim R (@faultM S A) faultM.
Proof. by intros s t H. Qed.
Lemma sim_opt {A} (o : option A) : sim R (of_opt o) (of_opt o).
Proof. intros s t H. destruct o; cbn; [by exists t|done]. Qed.
Lemma sim_for_each {A} (b1 : A → M S unit) (b2 : A → M T unit) l : (∀ x, sim R (b1 x) (b2 x)) → sim R (for_each b1 l) (for_each b2 l).
Proof. intros H. induction l as [|x l IH]; [apply sim_ret|]. by apply sim_bind. Qed.
Lemma sim_slot ap : sim R (va_slot ap) (va_slot ap).
Proof. unfold va_slot. destruct (va_gp ap); [apply sim_fault|apply sim_ret]. Qed.
Lemma sim_double ap : sim R (va_double ap) (va_double ap).
Proof. unfold va_double. destruct (va_fp ap); [apply sim_fault|apply sim_ret]. Qed.
End Sim.
Create HintDb sim.
#[export] Hint Resolve sim_ret sim_bind sim_fault sim_opt sim_for_each sim_slot sim_double : sim.

Section SimPrintf.
Context {S T : Type} (R : S → T → Prop) (rd1 : Z → M S Z) (rd2 : Z → M T Z) (out1 : Z → M S unit) (out2 : Z → M T unit).
Hypothesis Hrd : ∀ a, sim R (rd1 a) (rd2 a).
Hypothesis Hout : ∀ c, sim R (out1 c) (out2 c).
Local Set Default Proof Using "All".

Lemma sim_out_list l : sim R (out_list out1 l) (out_list out2 l).
Proof. unfold out_list. by apply sim_for_each. Qed.
Lemma sim_out_string n : ∀ s count, sim R (out_string rd1 out1 n s count) (out_string rd2 out2 n s count).
Proof.
  induction n as [|n IH]; intros s count; cbn [out_string]; [apply sim_fault|]. apply sim_bind; [done|]. intros c.
  destruct (c =? 0); [apply sim_ret|]. by apply sim_bind.
Qed.
Lemma sim_out_frac n : ∀ x, sim R (out_frac out1 n x) (out_frac out2 n x).
Proof.
  induction n as [|n IH]; intros x; cbn [out_frac]; [apply sim_ret|]. apply sim_bind; [apply sim_opt|]. intros d. by apply sim_bind.
Qed.
Lemma sim_directive fuel c p count ap : sim R (directive rd1 out1 fuel c p count ap) (directive rd2 out2 fuel c p count ap).
Proof.
  pose proof sim_out_list as Hl. pose proof (sim_out_string fuel) as Hs. pose proof (sim_out_frac 6) as Hf. unfold directive.
  repeat match goal with
    | |- ∀ _, _ => intros ?
    | |- sim _ (bind _ _) (bind _ _) => apply sim_bind
    | |- sim _ (if ?b then _ else _) (if ?b then _ else _) => destruct b
    | |- _ => solve [eauto with sim]
    end.
Qed.
Lemma sim_printf_loop fuel n : ∀ p count ap, sim R (printf_loop rd1 out1 fuel n p count ap) (printf_loop rd2 out2 fuel n p count ap).
Proof.
  pose proof (sim_directive fuel) as Hd. induction n as [|n IH]; intros p count ap; cbn [printf_loop]; [apply sim_fault|].
  apply sim_bind; [done|]. intros c. destruct (c =? 0); [apply sim_ret|]. destruct (negb (c =? 37)); [by apply sim_bind|].
  apply sim_bind; [done|]. intros c'. destruct (c' =? 0); [apply sim_ret|]. by apply sim_bind.
Qed.
End SimPrintf.

(** ** What a format means: the unbounded rendering

    [render] runs the loop with an output that only collects; [avoid] marks
    addresses whose reading is refused, those of the target buffer. *)
Definition rn_rd (avoid : Z → bool) (a : Z) : M (mem * list Z) Z := λ s, if avoid a then Fault else Done (s.1 a, s).
Definition rn_out (c : Z) : M (mem * list Z) unit := modify (λ s, (s.1, s.2 ++ [c])).
Definition render (fuel : nat) (avoid : Z → bool) (format : Z) (ap : va_list) (m : mem) : res (Z * (mem * list Z)) :=
  printf_loop (rn_rd avoid) rn_out fuel fuel format 0 ap (m, []).

Lemma i32_add a b : i32 (i32 a + b) = i32 (a + b).
Proof.
  unfold i32. replace ((a + 2 ^ 31) mod 2 ^ 32 - 2 ^ 31 + b + 2 ^ 31) with ((a + 2 ^ 31) mod 2 ^ 32 + b) by lia.
  rewrite Z.add_mod_idemp_l by lia. do 2 f_equal. lia.
Qed.

Lemma i32_idem x : i32 (i32 x) = i32 x.
Proof. pose proof (i32_add x 0) as H. by rewrite !Z.add_0_r in H. Qed.

(** [emits P act]: [act] leaves the memory, appends some characters, and its
    result and their number satisfy [P]. *)
Definition emits {A} (P : A → Z → Prop) (act : M (mem * list Z) A) : Prop := ∀ s,
  match act s with
  | Done (a, s') => s'.1 = s.1 ∧ ∃ t, s'.2 = s.2 ++ t ∧ P a (Z.of_nat (length t))
  | _ => True
  end.
Lemma emits_ret {A} (P : A → Z → Prop) a : P a 0 → emits P (ret a).
Proof. intros H s. split; [done|]. exists []. by rewrite app_nil_r. Qed.
Lemma emits_bind {A B} (P : A → Z → Prop) (Q : B → Z → Prop) act k :
  emits P act → (∀ a n, P a n → emits (λ b j, Q b (n + j)) (k a)) → emits Q (bind act k).
Proof.
  intros Ha Hk s. specialize (Ha s). unfold bind. destruct (act s) as [[a s1]| |]; [|done|done].
  destruct Ha as (Hm & t & Ht & HP). specialize (Hk a _ HP s1). destruct (k a s1) as [[b s2]| |]; [|done|done].
  destruct Hk as (Hm2 & t2 & Ht2 & HQ). split; [congruence|]. exists (t ++ t2). rewrite Ht2, Ht, length_app, Nat2Z.inj_add.
  by rewrite <- app_assoc.
Qed.
Lemma emits_weaken {A} (P Q : A → Z → Prop) act : emits P act → (∀ a n, P a n → Q a n) → emits Q act.
Proof.
  intros H HPQ s. specialize (H s). destruct (act s) as [[a s']| |]; [|done|done]. destruct H as (? & t & ? & ?).
  split; [done|]. exists t. split; [done|]. by apply HPQ.
Qed.
Lemma emits_out c : emits (λ _ n, n = 1) (rn_out c).
Proof. intros s. split; [done|]. by exists [c]. Qed.
Lemma emits_rd avoid a : emits (λ _ n, n = 0) (rn_rd avoid a).
Proof. intros s. unfold rn_rd. destruct (avoid a); [done|]. split; [done|]. exists []. by rewrite app_nil_r. Qed.
Lemma emits_slot ap : emits (λ _ n, n = 0) (va_slot ap).
Proof. unfold va_slot. destruct (va_gp ap); [by intros s|by apply emits_ret]. Qed.
Lemma emits_double ap : emits (λ _ n, n = 0) (va_double ap).
Proof. unfold va_double. destruct (va_fp ap); [by intros s|by apply emits_ret]. Qed.
Lemma emits_opt {A} (o : option A) : emits (λ _ n, n = 0) (of_opt o).
Proof. intros s. destruct o; cbn; [|done]. split; [done|]. exists []. by rewrite app_nil_r. Qed.
Lemma emits_list l : emits (λ _ n, n = Z.of_nat (length l)) (out_list rn_out l).
Proof.
  unfold out_list. induction l as [|c l IH]; cbn [for_each length]; [by apply emits_ret|].
  eapply emits_bind; [apply emits_out|]. cbn beta. intros _ n ->. eapply emits_weaken; [exact IH|]. cbn beta. intros. lia.
Qed.
Lemma emits_string avoid n : ∀ s count, count = i32 count → emits (λ r k, r = i32 (count + k)) (out_string (rn_rd avoid) rn_out n s count).
Proof.
  induction n as [|n IH]; intros s count Hc; cbn [out_string]; [by intros ?|].
  eapply emits_bind; [apply emits_rd|]. cbn beta. intros c k ->. destruct (c =? 0).
  - apply emits_ret. by rewrite Z.add_0_r.
  - eapply emits_bind; [apply emits_out|]. cbn beta. intros _ k ->. eapply emits_weaken; [apply IH; by rewrite i32_idem|].
    cbn beta. intros r j ->. rewrite i32_add. f_equal. lia.
Qed.
Lemma emits_frac n : ∀ x, emits (λ _ k, k = Z.of_nat n) (out_frac rn_out n x).
Proof.
  induction n as [|n IH]; intros x; cbn [out_frac]; [by apply emits_ret|].
  eapply emits_bind; [apply emits_opt|]. cbn beta. intros d k ->. eapply emits_bind; [apply emits_out|]. cbn beta. intros _ k ->.
  eapply emits_weaken; [apply IH|]. cbn beta. intros. lia.
Qed.
Lemma emits_text {A} (P : A * Z → Z → Prop) l (x : A) count : P (x, i32 (count + Z.of_nat (length l))) (Z.of_nat (length l)) →
  emits P (out_list rn_out l;;; ret (x, count_list count l)).
Proof.
  intros H. eapply emits_bind; [apply emits_list|]. cbn beta. intros _ n ->. apply emits_ret. by rewrite Z.add_0_r.
Qed.
Lemma emits_directive avoid fuel c p count ap : count = i32 count →
  emits (λ r k, r.2 = i32 (count + k)) (directive (rn_rd avoid) rn_out fuel c p count ap).
Proof.
  intros Hc. unfold directive.
  repeat match goal with |- emits _ (if ?b then _ else _) => destruct b end;
    repeat match goal with
    | |- emits _ (bind (va_slot _) _) => eapply emits_bind; [apply emits_slot|]; cbn beta; intros ? ? ->
    | |- emits _ (bind (rn_rd _ _) _) => eapply emits_bind; [apply emits_rd|]; cbn beta; intros ? ? ->
    | |- emits _ (if ?b then _ else _) => destruct b
    end; try (apply emits_text; cbn [snd]; f_equal; lia); try (apply emits_ret; cbn [snd]; by rewrite Z.add_0_r).
  - eapply emits_bind; [apply emits_double|]. cbn beta. intros r ? ->. set (neg := dlt _ _).
    eapply (emits_bind (λ _ n, n = if neg then 1 else 0)); [destruct neg; [apply emits_out|by apply emits_ret]|].
    cbn beta. intros _ ? ->. eapply emits_bind; [apply emits_opt|]. cbn beta. intros ip ? ->.
    eapply emits_bind; [apply emits_list|]. cbn beta. intros _ ? ->. eapply emits_bind; [apply emits_out|]. cbn beta. intros _ ? ->.
    eapply emits_bind; [apply emits_frac|]. cbn beta. intros _ ? ->. apply emits_ret. cbn [snd]. f_equal. lia.
  - eapply emits_bind; [by apply emits_string|]. cbn beta. intros r k ->. apply emits_ret. cbn [snd]. f_equal. lia.
Qed.
Lemma emits_printf avoid fuel n : ∀ p count ap, count = i32 count →
  emits (λ r k, r = i32 (count + k)) (printf_loop (rn_rd avoid) rn_out fuel n p count ap).
Proof.
  induction n as [|n IH]; intros p count ap Hc; cbn [printf_loop]; [by intros ?|].
  eapply emits_bind; [apply emits_rd|]. cbn beta. intros c ? ->. destruct (c =? 0); [apply emits_ret; by rewrite Z.add_0_r|].
  destruct (negb (c =? 37)).
  - eapply emits_bind; [apply emits_out|]. cbn beta. intros _ ? ->. eapply emits_weaken; [apply IH; by rewrite i32_idem|]. cbn beta. intros r k ->.
    rewrite i32_add. f_equal. lia.
  - eapply emits_bind; [apply emits_rd|]. cbn beta. intros c' ? ->. destruct (c' =? 0); [apply emits_ret; by rewrite Z.add_0_r|].
    eapply emits_bind; [by apply emits_directive|]. cbn beta. intros r k Hr. eapply emits_weaken; [apply IH; by rewrite Hr, i32_idem|].
    cbn beta. intros x j ->. rewrite Hr, i32_add. f_equal. lia.
Qed.
Lemma render_count fuel avoid format ap m total m' txt : render fuel avoid format ap m = Done (total, (m', txt)) →
  m' = m ∧ total = i32 (Z.of_nat (length txt)).
Proof.
  intros H. pose proof (emits_printf avoid fuel fuel format 0 ap eq_refl (m, [])) as He. unfold render in H. rewrite H in He.
  destruct He as (Hm & t & Ht & ->). cbn in Hm, Ht. subst. done.
Qed.

(** The target of [vsnprintf] while it is filled. *)
Definition filled (m0 : mem) (str size : Z) (s : mem * list Z) (t : mem * Z) : Prop :=
  s.1 = m0 ∧ t.2 = Z.of_nat (length s.2) ∧
  (∀ i c, s.2 !! i = Some c → Z.of_nat i < size - 1 → t.1 (str + Z.of_nat i) = u8 c) ∧
  ∀ x, x < str ∨ str + size <= x → t.1 x = m0 x.
Definition inside (str size x : Z) : bool := (str <=? x) && (x <? str + size).

Lemma printed_rd m0 str size a : sim (filled m0 str size) (rn_rd (inside str size) a) (sn_rd a).
Proof.
  intros s t (Hs & Hi & Hc & Ho). unfold rn_rd, inside. destruct (Z.leb_spec str a), (Z.ltb_spec a (str + size)); cbn [andb]; try done;
    (exists t; split; [|split; done]); unfold sn_rd, gets; by rewrite Ho, Hs by lia.
Qed.
Lemma printed_out m0 str size c : 0 <= size → sim (filled m0 str size) (rn_out c) (sn_out str size c).
Proof.
  intros Hsize [m l] [m' idx] (Hs & Hi & Hc & Ho). cbn in Hs, Hi, Hc, Ho. eexists. split; [done|]. unfold filled. cbn [fst snd]. split_and!; [done|rewrite length_app; cbn [length]; lia| |].
  - intros i d Hd Hlt. apply lookup_snoc_Some in Hd as [[Hil Hd]|[-> <-]].
    + case_match; [rewrite upd_ne by lia|]; by apply Hc.
    + destruct (Z.ltb_spec 0 size), (Z.ltb_spec idx (size - 1)); cbn [andb]; try lia. subst idx. apply upd_eq.
  - intros x Hx. destruct (Z.ltb_spec 0 size), (Z.ltb_spec idx (size - 1)); cbn [andb]; [rewrite upd_ne by lia|..]; by apply Ho.
Qed.

(** The run of [vsnprintf] on a format that renders to [txt]. *)
Lemma vsnprintf_filled fuel str size format ap m total m0 txt :
  0 <= size → render fuel (inside str size) format ap m = Done (total, (m0, txt)) →
  ∃ m1, filled m str size (m, txt) (m1, Z.of_nat (length txt)) ∧
    vsnprintf fuel str size format ap m = Done (i32 (Z.of_nat (length txt)),
      if 0 <? size then upd m1 (str + Z.min (Z.of_nat (length txt)) (size - 1)) 0 else m1).
Proof.
  intros Hsize Hr. destruct (render_count _ _ _ _ _ _ _ _ Hr) as [-> ->].
  pose proof (sim_printf_loop (filled m str size) (rn_rd (inside str size)) sn_rd rn_out (sn_out str size)
    (printed_rd m str size) (λ c, printed_out m str size c Hsize) fuel fuel format 0 ap (m, []) (m, 0)) as Hsim.
  unfold render in Hr. rewrite Hr in Hsim. destruct Hsim as ([m1 idx] & Hrun & Hfill); [by split_and!|].
  pose proof Hfill as (_ & Hidx & _). cbn in Hidx. subst idx. exists m1. split; [done|]. unfold vsnprintf. rewrite Hrun.
  do 2 f_equal. destruct (Z.ltb_spec 0 size); [|done]. destruct (Z.ltb_spec (Z.of_nat (length txt)) size); do 2 f_equal; lia.
Qed.
(** The buffer holds the text, as bytes. *)
Lemma filled_bytes m0 str size txt m1 k : filled m0 str size (m0, txt) (m1, Z.of_nat (length txt)) →
  Z.of_nat k <= Z.of_nat (length txt) → Z.of_nat k <= size - 1 → bytes_at m1 str k = take k (map u8 txt).
Proof.
  intros (_ & _ & Hc & _) H1 H2. cbn [fst snd] in Hc. apply list_eq. intros i. destruct (decide (i < k)%nat) as [Hi|Hi].
  - rewrite bytes_at_lookup, lookup_take_lt by done. rewrite list_lookup_fmap.
    destruct (txt !! i) as [c|] eqn:E; [|apply lookup_ge_None in E; lia]. cbn. by rewrite (Hc i c E) by lia.
  - rewrite lookup_take_ge by lia. apply lookup_ge_None. rewrite bytes_at_length. lia.
Qed.

(** C17: [vsnprintf] is the unbounded rendering cut to the buffer: the result
    is the length of the whole text, the buffer receives as many characters as
    fit in front of a terminator, which is always written when [size] is
    positive, and no byte outside [str, str + size) changes. *)
Theorem vsnprintf_bounded fuel str size format ap m total m0 txt :
  0 <= size → render fuel (inside str size) format ap m = Done (total, (m0, txt)) →
  let k := Z.min (Z.of_nat (length txt)) (size - 1) in
  ∃ m', vsnprintf fuel str size format ap m = Done (i32 (Z.of_nat (length txt)), m') ∧
    (0 < size → bytes_at m' str (Z.to_nat k) = take (Z.to_nat k) (map u8 txt) ∧ m' (str + k) = 0) ∧
    (∀ x, x < str ∨ str + size <= x → m' x = m x).
Proof.
  intros Hsize Hr k. destruct (vsnprintf_filled _ _ _ _ _ _ _ _ _ Hsize Hr) as (m1 & Hfill & Hrun). fold k in Hrun.
  eexists. split; [exact Hrun|]. pose proof Hfill as (_ & _ & _ & Ho). cbn [fst snd] in Ho. split.
  - intros Hpos. rewrite (proj2 (Z.ltb_lt 0 size)) by done. split; [|apply upd_eq].
    rewrite <- (filled_bytes _ _ _ _ _ _ Hfill) by lia. apply bytes_at_ext. intros x Hx. apply upd_ne. lia.
  - intros x Hx. destruct (Z.ltb_spec 0 size) as [Hp|Hp]; [|by apply Ho]. rewrite upd_ne by lia. by apply Ho.
Qed.

(** A format with three directives, and a buffer it does not fit. *)
Definition ex_fmt_mem : mem := put_bytes (put_bytes (λ _, 0) 100 [120; 61; 37; 100; 44; 37; 115; 33]) 120 [104; 105].
Lemma vsnprintf_bounded_witness :
  ∃ m', vsnprintf 16 200 6 100 (mk_va [2 ^ 64 - 42; 120] []) ex_fmt_mem = Done (9, m') ∧
    bytes_at m' 200 5 = [120; 61; 45; 52; 50] ∧ m' 205 = 0.
Proof.
  destruct (vsnprintf_bounded 16 200 6 100 (mk_va [2 ^ 64 - 42; 120] []) ex_fmt_mem 9 ex_fmt_mem [120; 61; 45; 52; 50; 44; 104; 105; 33])
    as (m' & Hrun & Hbuf & _).
  - lia.
  - vm_compute. reflexivity.
  - exists m'. split; [exact Hrun|]. exact (Hbuf ltac:(lia)).
Defined.

(** *** Formats that go wrong *)

(** [%f] rounds by adding half a unit to the fraction and never carries
    into the integer part: 0.9999999 prints as "0.:00000". *)
Theorem printf_f_no_carry m p :
  cstr m p [37; 102] → ∀ avoid, (∀ x, avoid x = false) →
  render 4 avoid p (mk_va [] [S754_finite false 9007198354021067 (-53)]) m =
  Done (8, (m, [48; 46; 58; 48; 48; 48; 48; 48])).
Proof.
  intros (_ & H1 & _ & H2 & H3) avoid Ha. unfold render. cbn [printf_loop]. unfold rn_rd. unfold bind at 1. rewrite Ha. cbn [fst].
  rewrite H1. cbn [Z.eqb negb Pos.eqb]. unfold bind at 1. rewrite Ha. cbn [fst]. rewrite H2. cbn [Z.eqb Pos.eqb].
  unfold bind at 1. change (directive _ rn_out 4 102 (p + 1) 0 _ (m, [])) with
    (Done (p + 1, mk_va [] [], 8, (m, [48; 46; 58; 48; 48; 48; 48; 48])) : res (Z * va_list * Z * (mem * list Z))).
  cbn [fst snd]. unfold bind. rewrite Ha. cbn [fst]. by rewrite H3.
Qed.

Definition ex_f_mem : mem := put_bytes (λ _, 0) 100 [37; 102].
Lemma printf_f_no_carry_witness :
  render 4 (λ _, false) 100 (mk_va [] [S754_finite false 9007198354021067 (-53)]) ex_f_mem =
  Done (8, (ex_f_mem, [48; 46; 58; 48; 48; 48; 48; 48])).
Proof. apply (printf_f_no_carry ex_f_mem 100); [vm_compute; repeat split; congruence || done|done]. Defined.

(** a format that ends in "%l" is read on past its terminator: the loop
    skips the letter after the [l] without looking whether it is there. *)
Theorem printf_l_runs_on avoid fuel n p count ap (m : mem) l :
  (∀ x, avoid x = false) → m p = 37 → m (p + 1) = 108 → m (p + 2) = 0 →
  printf_loop (rn_rd avoid) rn_out fuel (S n) p count ap (m, l) =
  printf_loop (rn_rd avoid) rn_out fuel n (p + 3) count ap (m, l).
Proof.
  intros Ha H1 H2 H3. cbn [printf_loop]. unfold rn_rd at 1. unfold bind at 1. rewrite Ha. cbn [fst]. rewrite H1. cbn [Z.eqb negb Pos.eqb].
  unfold bind at 1, rn_rd at 1. rewrite Ha. cbn [fst]. rewrite H2. cbn [Z.eqb Pos.eqb]. unfold bind at 1.
  assert (directive (rn_rd avoid) rn_out fuel 108 (p + 1) count ap (m, l) = Done (p + 2, ap, count, (m, l))) as ->.
  { unfold directive. cbn [Z.eqb Pos.eqb orb]. unfold bind, rn_rd. rewrite Ha. cbn [fst]. replace (p + 1 + 1) with (p + 2) by lia.
    rewrite H3. done. }
  cbn [fst snd]. by replace (p + 2 + 1) with (p + 3) by lia.
Qed.
Lemma printf_l_runs_on_witness :
  printf_loop (rn_rd (λ _, false)) rn_out 8 8 100 0 (mk_va [] []) (put_bytes (λ _, 0) 100 [37; 108; 0; 88; 89], []) =
  Done (2, (put_bytes (λ _, 0) 100 [37; 108; 0; 88; 89], [88; 89])).
Proof.
  rewrite (printf_l_runs_on (λ _, false) 8 7 100 0 (mk_va [] []) (put_bytes (λ _, 0) 100 [37; 108; 0; 88; 89]) []).
  - reflexivity.
  - done.
  - reflexivity.
  - reflexivity.
  - reflexivity.
Defined.

(** ** Reading back *)

Lemma isdigit_digit c v : digit_of c = Some v → v < 10 → isdigit c = true ∧ c - 48 = v ∧ isspace c = false ∧ c ≠ 0 ∧ c ≠ 45 ∧ c ≠ 43.
Proof.
  intros Hc Hv. destruct (digit_of_range c v Hc) as (Hv0 & _ & H48 & _ & H). specialize (H Hv).
  rewrite isdigit_range, isspace_range by lia. unfold within. split_and!; lia.
Qed.
Lemma dec_loop_spec m cs vs : digits 10 cs vs → ∀ fuel s a rest, cstr m s (cs ++ rest) →
  match rest with [] => True | c :: _ => isdigit c = false end → (length cs < fuel)%nat →
  0 <= a → num_from 10 a vs < 2 ^ 63 → dec_loop fuel m s a = Some (s + Z.of_nat (length cs), num_from 10 a vs).
Proof.
  intros Hd. induction Hd as [|c v cs vs [Hc Hv] Hd IH]; intros [|f] s a rest Hs Hst Hf Ha Hn; cbn [length app cstr dec_loop] in *; try lia.
  - assert (isdigit (m s) = false) as ->.
    { destruct rest as [|c rest]; [cbn in Hs; by rewrite Hs|]. destruct Hs as (_ & -> & _). done. }
    do 2 f_equal. lia.
  - destruct Hs as (_ & -> & Hs). destruct (isdigit_digit c v Hc Hv) as (-> & -> & _). destruct (digit_of_range c v Hc) as (Hv0 & _).
    change (num_from 10 a (v :: vs)) with (num_from 10 (a * 10 + v) vs) in *.
    pose proof (num_from_ge 10 (a * 10 + v) vs ltac:(lia) ltac:(lia) (digits_nonneg _ _ _ Hd)) as Hge.
    rewrite i64_id by lia. rewrite (IH f (s + 1) _ rest) by (done || lia). do 2 f_equal. lia.
Qed.

(** One number at the end of a string, with or without its sign. *)
Lemma scan_number_itoa fuel m s n a gp count : - 2 ^ 63 < n < 2 ^ 63 → cstr m s (_itoa n 10 false) →
  (length (_itoa n 10 false) < fuel)%nat →
  scan_number fuel m false true s count (a :: gp) =
  Some (inr (store64 m a (u64 n), s + Z.of_nat (length (_itoa n 10 false)), gp)).
Proof.
  intros Hn Hs Hf. destruct (uitoa_digits (Z.abs n) 10 false ltac:(by left) ltac:(lia)) as (vs & Hd & Hne & Hnum).
  destruct (Z.ltb_spec n 0) as [Hneg|Hpos].
  - rewrite itoa_neg in * by lia. replace (- n) with (Z.abs n) in * by lia. cbn [length] in *.
    destruct Hs as (_ & Hm & Hs). unfold scan_number. destruct fuel as [|f]; [lia|]. cbn [skip_isspace]. rewrite Hm. cbn [mbind option_bind].
    change (isspace 45) with false. cbv iota. cbn [mbind option_bind]. rewrite Hm. cbn [Z.eqb Pos.eqb].
    assert (Hh : isdigit (m (s + 1)) = true).
    { rewrite (cstr_head _ _ _ Hs). destruct Hd as [|c v cs vs' [Hc Hv] _]; [done|]. by destruct (isdigit_digit c v Hc Hv). }
    rewrite Hh. cbn [negb].
    rewrite (dec_loop_spec m _ vs Hd (S f) (s + 1) 0 []) by (rewrite ?app_nil_r; try done; lia). cbn [mbind option_bind].
    rewrite Hnum. unfold put_number. rewrite i64_id by lia. do 4 f_equal; [|lia]. f_equal. f_equal. lia.
  - rewrite itoa_pos in * by lia. rewrite (Z.abs_eq n) in * by lia.
    unfold scan_number. destruct fuel as [|f]; [lia|].
    assert (Hh : isdigit (m s) = true ∧ isspace (m s) = false ∧ m s ≠ 0 ∧ m s ≠ 45 ∧ m s ≠ 43).
    { rewrite (cstr_head _ _ _ Hs). destruct Hd as [|c v cs vs' [Hc Hv] _]; [done|].
      destruct (isdigit_digit c v Hc Hv) as (? & _ & ? & ? & ? & ?). done. }
    destruct Hh as (Hdig & Hsp & H0 & H45 & H43). cbn [skip_isspace]. rewrite Hsp. cbn [mbind option_bind].
    rewrite (proj2 (Z.eqb_neq (m s) 0)), (proj2 (Z.eqb_neq (m s) 45)), (proj2 (Z.eqb_neq (m s) 43)) by done. rewrite Hdig. cbn [negb].
    rewrite (dec_loop_spec m _ vs Hd (S f) s 0 []) by (rewrite ?app_nil_r; try done; lia). cbn [mbind option_bind].
    rewrite Hnum. unfold put_number. rewrite Z.mul_1_r, i64_id by lia. done.
Qed.

Lemma itoa_chars n : - 2 ^ 63 <= n < 2 ^ 63 → Forall (λ c, 0 < c < 256) (_itoa n 10 false).
Proof.
  intros Hn. destruct (uitoa_digits (Z.abs n) 10 false ltac:(by left) ltac:(lia)) as (vs & Hd & _ & _).
  destruct (Z.ltb_spec n 0); [rewrite itoa_neg by lia; constructor; [lia|]; replace (- n) with (Z.abs n) by lia|
    rewrite itoa_pos by lia; rewrite (Z.abs_eq n) in Hd by lia]; by eapply digits_chars.
Qed.
Lemma cstr_bytes_at m p l : Forall (λ c, 0 < c < 256) l → bytes_at m p (length l) = l → m (p + Z.of_nat (length l)) = 0 → cstr m p l.
Proof.
  intros Hl Hb H0. rewrite <- (app_nil_r l). apply cstr_app. split; [split; [done|]|done].
  intros i c Hi. rewrite <- Hb in Hi. pose proof (lookup_lt_Some _ _ _ Hi) as Hlt. rewrite bytes_at_length in Hlt.
  rewrite bytes_at_lookup in Hi by done. by injection Hi.
Qed.

(** C34: [sscanf] reads back what [snprintf] printed: a [long] printed with
    "%ld" into a buffer that it fits comes back, through the same format, as
    the same [long]. *)
Theorem sscanf_reads_snprintf fuel m fmt buf size n dst :
  cstr m fmt [37; 108; 100] → fmt + 4 <= buf ∨ buf + size <= fmt → dst + 8 <= fmt ∨ fmt + 4 <= dst →
  - 2 ^ 63 < n < 2 ^ 63 → Z.of_nat (length (_itoa n 10 false)) < size →
  (length (_itoa n 10 false) < fuel)%nat → (3 <= fuel)%nat →
  ∃ m1 m2, snprintf fuel buf size fmt (mk_va [u64 n] []) m = Done (i32 (Z.of_nat (length (_itoa n 10 false))), m1) ∧
    sscanf fuel m1 buf fmt [dst] = Some (m2, 1) ∧ i64 (load64 m2 dst) = n.
Proof.
  intros Hfmt Hbuf Hdst Hn Hsize Hfuel Hfuel3. set (txt := _itoa n 10 false) in *.
  assert (Hchars : Forall (λ c, 0 < c < 256) txt) by (apply itoa_chars; lia).
  assert (Hi64 : i64 (u64 n) = n).
  { unfold i64, u64. rewrite Z.add_mod_idemp_l by lia. rewrite Z.mod_small by lia. lia. }
  pose proof Hfmt as (_ & F0 & _ & F1 & _ & F2 & F3). replace (fmt + 1 + 1) with (fmt + 2) in * by lia. replace (fmt + 2 + 1) with (fmt + 3) in * by lia.
  assert (Hin : ∀ i, 0 <= i < 4 → inside buf size (fmt + i) = false) by (intros i Hi; unfold inside; lia).
  destruct fuel as [|[|[|f]]]; [lia..|]. set (fuel := S (S (S f))) in *.
  assert (Hr : render fuel (inside buf size) fmt (mk_va [u64 n] []) m = Done (i32 (0 + Z.of_nat (length txt)), (m, txt))).
  { assert (Hout : ∀ l acc, out_list rn_out l (m, acc) = Done (tt, (m, acc ++ l))).
    { induction l as [|c l IH]; intros acc; cbn [out_list for_each]; [by rewrite app_nil_r|]. unfold bind at 1, rn_out, modify. cbn [fst snd].
      unfold out_list in IH. fold rn_out. rewrite IH. by rewrite <- app_assoc. }
    unfold render. unfold fuel at 2. cbn [printf_loop]. unfold rn_rd at 1. unfold bind at 1.
    rewrite <- (Z.add_0_r fmt) at 1. rewrite Hin by lia. cbn [fst]. rewrite F0. cbn [Z.eqb negb Pos.eqb].
    unfold bind at 1, rn_rd at 1. rewrite Hin by lia. cbn [fst]. rewrite F1. cbn [Z.eqb Pos.eqb]. unfold bind at 1.
    assert (directive (rn_rd (inside buf size)) rn_out fuel 108 (fmt + 1) 0 (mk_va [u64 n] []) (m, []) =
      Done (fmt + 2, mk_va [] [], i32 (0 + Z.of_nat (length txt)), (m, txt))) as ->.
    { unfold directive. cbn [Z.eqb Pos.eqb orb]. unfold bind at 1, rn_rd. replace (fmt + 1 + 1) with (fmt + 2) by lia.
      rewrite Hin by lia. cbn [fst]. rewrite F2. cbn [Z.eqb Pos.eqb orb va_slot va_gp]. unfold bind at 1, ret at 1. cbn [fst snd].
      rewrite Hi64. fold txt. unfold bind. by rewrite Hout. }
    cbn [fst snd]. unfold bind at 1, rn_rd at 1. replace (fmt + 2 + 1) with (fmt + 3) by lia. rewrite Hin by lia. cbn [fst].
    by rewrite F3. }
  assert (Hsz : 0 <= size) by lia. destruct (vsnprintf_filled _ _ _ _ _ _ _ _ _ Hsz Hr) as (m1 & Hfill & Hrun).
  rewrite (proj2 (Z.ltb_lt 0 size)), Z.min_l in Hrun by lia. set (m2 := upd m1 _ 0) in Hrun.
  assert (Hs : cstr m2 buf txt).
  { apply cstr_bytes_at; [done| |apply upd_eq]. transitivity (bytes_at m1 buf (length txt)).
    - apply bytes_at_ext. intros x Hx. apply upd_ne. lia.
    - rewrite (filled_bytes _ _ _ _ _ _ Hfill) by lia. rewrite take_ge by (by rewrite length_map).
      clear -Hchars. induction Hchars as [|c l Hc _ IH]; cbn; [done|]. rewrite u8_id by lia. by f_equal. }
  assert (Hf2 : ∀ i, 0 <= i < 4 → m2 (fmt + i) = m (fmt + i)).
  { intros i Hi. subst m2. rewrite upd_ne by lia. destruct Hfill as (_ & _ & _ & Ho). apply Ho. lia. }
  exists m2, (store64 m2 dst (u64 n)). split; [exact Hrun|]. split.
  - unfold sscanf, vsscanf. unfold fuel at 1. cbn [sscanf_loop]. pose proof (Hf2 0 ltac:(lia)) as G0. rewrite Z.add_0_r in G0.
    rewrite G0, F0. cbn [Z.eqb Pos.eqb negb]. change (isspace 37) with false. cbv iota.
    rewrite (Hf2 1), F1 by lia. cbn [Z.eqb Pos.eqb]. replace (fmt + 1 + 1) with (fmt + 2) by lia. rewrite (Hf2 2), F2 by lia.
    cbn [Z.eqb Pos.eqb orb]. unfold txt in Hs. rewrite (scan_number_itoa fuel m2 buf n dst [] 0) by (done || lia). cbn [mbind option_bind].
    replace (fmt + 2 + 1) with (fmt + 3) by lia.
    assert (store64 m2 dst (u64 n) (fmt + 3) = 0) as ->; [|done].
    unfold store64. rewrite store_le_out by lia. by rewrite (Hf2 3) by lia.
  - rewrite load64_store64 by (apply u64_range). done.
Qed.
Lemma sscanf_reads_snprintf_witness : ∃ m1 m2,
  snprintf 32 200 24 100 (mk_va [u64 (-1234)] []) (put_bytes (λ _, 0) 100 [37; 108; 100]) = Done (5, m1) ∧
  sscanf 32 m1 200 100 [300] = Some (m2, 1) ∧ i64 (load64 m2 300) = -1234.
Proof.
  apply (sscanf_reads_snprintf 32 (put_bytes (λ _, 0) 100 [37; 108; 100]) 100 200 24 (-1234) 300).
  - vm_compute. repeat split; congruence || done.
  - lia.
  - lia.
  - lia.
  - vm_compute. done.
  - vm_compute. lia.
  - lia.
Defined.
