(* ===== verification/UStdio.v ===== *)
(** Streams of the user C library, [user/src/stdio.c]: buffered output and
    input, [fopen] and [fclose], [vfprintf] and [vfscanf].

    A [FILE] is a record in a map from its address; its buffer lies in the byte
    memory of the process.  The descriptors are the kernel's: class
    [Descriptors] has the four system calls, what has been written to and what
    is still to be read from a descriptor, and what the calls promise for a
    descriptor that takes everything ([writable]).  [tape] is a kernel that
    keeps the promise.  The three standard streams are given by address. *)
From S2P Require Export UFormat.
Local Open Scope prog_scope.

Definition _READ : Z := 0x01.
Definition _WRITE : Z := 0x02.
Definition _UNBUF : Z := 0x04.
Definition _EOF : Z := 0x08.
Definition _ERR : Z := 0x10.
Definition BUFSIZ : Z := 1024.
Definition EOF : Z := -1.

Record FILE := mk_FILE { fd : Z; flags : Z; buf : Z; ptr : Z; cnt : Z; bufsiz : Z }.
Definition set_flags (v : Z) (f : FILE) := mk_FILE (fd f) v (buf f) (ptr f) (cnt f) (bufsiz f).
Definition set_pos (p c : Z) (f : FILE) := mk_FILE (fd f) (flags f) (buf f) p c (bufsiz f).

Class Descriptors (K : Type) := {
  k_write : Z → list Z → M K Z;
  k_read : Z → Z → M K (Z * list Z);
  k_open : list Z → Z → M K Z;
  k_close : Z → M K Z;
  fd_out : K → Z → list Z;
  fd_in : K → Z → list Z;
  writable : K → Z → Prop;
  readable : K → Z → Prop;
  k_write_spec d l k : writable k d → ∃ k', k_write d l k = Done (Z.of_nat (length l), k') ∧
    fd_out k' d = fd_out k d ++ l ∧ writable k' d;
  k_read_spec d n k : readable k d → 0 < n → ∃ l k', k_read d n k = Done (Z.of_nat (length l), l, k') ∧
    fd_in k d = l ++ fd_in k' d ∧ Z.of_nat (length l) <= n ∧ (l = [] → fd_in k d = []) ∧ readable k' d
}.

Record sio (K : Type) := mk_sio { s_u : ust K; s_files : gmap Z FILE }.
Arguments mk_sio {K}.
Arguments s_u {K}.
Arguments s_files {K}.

Section Streams.
Context {K : Type} `{!Pager K} `{!Descriptors K} (STDIN STDOUT STDERR : Z) (fuel : nat).
Implicit Types s : sio K.

Definition set_s_u (u : ust K) s : sio K := mk_sio u (s_files s).
Definition set_s_files v s : sio K := mk_sio (s_u s) v.
Definition set_uos (k : K) (u : ust K) : ust K :=
  mk_ust (um u) (global_base u) (environ u) (env_alloc_map u) (environ_malloced u) k.

(** Code of the other files, and of the kernel. *)
Definition on_u {A} (m : M (ust K) A) : M (sio K) A := zoom s_u set_s_u m.
Definition on_k {A} (m : M K A) : M (sio K) A := on_u (zoom uos set_uos m).
Definition get_FILE (stream : Z) : M (sio K) FILE := λ s, of_opt (s_files s !! stream) s.
Definition put_FILE (stream : Z) (f : FILE) : M (sio K) unit := modify (λ s, set_s_files (<[stream := f]> (s_files s)) s).
Definition rd_byte (a : Z) : M (sio K) Z := gets (λ s, um (s_u s) a).
Definition wr_bytes (a : Z) (l : list Z) : M (sio K) unit := modify (λ s, set_s_u (set_um (put_bytes (um (s_u s)) a l) (s_u s)) s).

(** [write(fd, buf, n)] and [read(fd, buf, n)]. *)
Definition write (d a n : Z) : M (sio K) Z := λ s, on_k (k_write d (bytes_at (um (s_u s)) a (Z.to_nat n))) s.
Definition read (d a n : Z) : M (sio K) Z :=
  r <- on_k (k_read d n);; wr_bytes a r.2;;; ret r.1.

(** ** Output *)

Definition fflush1 (stream : Z) : M (sio K) Z :=
  f <- get_FILE stream;;
  if negb (has (flags f) _WRITE) then ret 0
  else
    let n := i32 (ptr f - buf f) in
    ok <- (if 0 <? n then r <- write (fd f) (buf f) n;; ret (r =? n) else ret true);;
    if ok : bool then put_FILE stream (set_pos (buf f) (bufsiz f) f);;; ret 0
    else put_FILE stream (set_flags (Z.lor (flags f) _ERR) f);;; ret EOF.
Definition fflush (stream : Z) : M (sio K) Z :=
  if stream =? 0 then fflush1 STDOUT;;; fflush1 STDERR;;; ret 0 else fflush1 stream.

Definition fputc (c stream : Z) : M (sio K) Z :=
  f <- get_FILE stream;;
  if negb (has (flags f) _WRITE) then ret EOF
  else if has (flags f) _UNBUF then
    r <- on_k (k_write (fd f) [u8 c]);;
    if negb (r =? 1) then put_FILE stream (set_flags (Z.lor (flags f) _ERR) f);;; ret EOF
    else ret (u8 c)
  else
    r <- (if cnt f <=? 0 then fflush stream else ret 0);;
    if r =? EOF then ret EOF
    else
      f <- get_FILE stream;;
      wr_bytes (ptr f) [u8 c];;;
      put_FILE stream (set_pos (ptr f + 1) (cnt f - 1) f);;;
      (if c =? 10 then fflush stream;;; ret tt else ret tt);;;
      ret (u8 c).
Definition putchar (c : Z) : M (sio K) Z := fputc c STDOUT.

Fixpoint fputs_loop (n : nat) (p stream : Z) : M (sio K) Z :=
  match n with
  | O => faultM
  | S n' =>
      c <- rd_byte p;;
      if c =? 0 then ret 0
      else r <- fputc c stream;; if r =? EOF then ret EOF else fputs_loop n' (p + 1) stream
  end.
Definition fputs (p stream : Z) : M (sio K) Z := fputs_loop fuel p stream.
Definition puts (p : Z) : M (sio K) Z :=
  r <- fputs p STDOUT;; if r =? EOF then ret EOF else fputc 10 STDOUT.

(** [for (i = 0; i < total; i++)]; [written] is [i] there. *)
Fixpoint fwrite_loop (n : nat) (p stream size nmemb i : Z) : M (sio K) Z :=
  match n with
  | O => ret nmemb
  | S n' =>
      c <- rd_byte (p + i);;
      r <- fputc c stream;;
      if r =? EOF then (if size =? 0 then faultM else ret (i / size)) else fwrite_loop n' p stream size nmemb (i + 1)
  end.
Definition fwrite (p size nmemb stream : Z) : M (sio K) Z :=
  fwrite_loop (Z.to_nat (u64 (size * nmemb))) p stream size nmemb 0.

(** ** Input *)

Definition _fillbuf (stream : Z) : M (sio K) Z :=
  f <- get_FILE stream;;
  if negb (has (flags f) _READ) || has (flags f) (Z.lor _EOF _ERR) then ret EOF
  else
    let toread := if fd f =? 0 then 1 else bufsiz f in
    n <- read (fd f) (buf f) toread;;
    if n <=? 0 then
      put_FILE stream (set_flags (Z.lor (flags f) (if n =? 0 then _EOF else _ERR)) f);;; ret EOF
    else
      c <- rd_byte (buf f);;
      put_FILE stream (set_pos (buf f + 1) (n - 1) f);;;
      ret c.
Definition getc (stream : Z) : M (sio K) Z :=
  f <- get_FILE stream;;
  put_FILE stream (set_pos (ptr f) (i32 (cnt f - 1)) f);;;
  if 0 <=? i32 (cnt f - 1) then
    c <- rd_byte (ptr f);;
    put_FILE stream (set_pos (ptr f + 1) (i32 (cnt f - 1)) f);;;
    ret c
  else _fillbuf stream.
Definition getchar : M (sio K) Z := getc STDIN.

Definition ungetc (c stream : Z) : M (sio K) Z :=
  if (c =? EOF) || (stream =? 0) then ret EOF
  else
    f <- get_FILE stream;;
    if buf f <? ptr f then
      wr_bytes (ptr f - 1) [u8 c];;;
      put_FILE stream (set_flags (Z.ldiff (flags f) _EOF) (set_pos (ptr f - 1) (i32 (cnt f + 1)) f));;;
      ret (u8 c)
    else ret EOF.

(** [while (--n > 0 && (c = getc(stream)) != EOF)]: the final [p] and [c]. *)
Fixpoint fgets_loop (k : nat) (s0 stream n p c : Z) : M (sio K) (Z * Z) :=
  match k with
  | O => faultM
  | S k' =>
      let n := n - 1 in
      if n <=? 0 then ret (p, c)
      else
        c <- getc stream;;
        if c =? EOF then ret (p, c)
        else if c =? 8 then fgets_loop k' s0 stream (n + 1) (if s0 <? p then p - 1 else p) c
        else
          wr_bytes p [u8 c];;;
          if c =? 10 then ret (p + 1, c) else fgets_loop k' s0 stream n (p + 1) c
  end.
(** [c0] is the value of the uninitialised [c]. *)
Definition fgets (c0 s0 n stream : Z) : M (sio K) Z :=
  (if stream =? STDIN then fflush 0;;; ret tt else ret tt);;;
  r <- fgets_loop fuel s0 stream n s0 c0;;
  wr_bytes r.1 [0];;;
  ret (if (r.1 =? s0) && (r.2 =? EOF) then 0 else s0).

Fixpoint fread_loop (k : nat) (p stream size nmemb i : Z) : M (sio K) Z :=
  match k with
  | O => ret nmemb
  | S k' =>
      c <- getc stream;;
      if c =? EOF then (if size =? 0 then faultM else ret (i / size))
      else wr_bytes (p + i) [u8 c];;; fread_loop k' p stream size nmemb (i + 1)
  end.
Definition fread (p size nmemb stream : Z) : M (sio K) Z :=
  fread_loop (Z.to_nat (u64 (size * nmemb))) p stream size nmemb 0.

Definition feof (stream : Z) : M (sio K) bool := f <- get_FILE stream;; ret (has (flags f) _EOF).
Definition ferror (stream : Z) : M (sio K) bool := f <- get_FILE stream;; ret (has (flags f) _ERR).
Definition clearerr (stream : Z) : M (sio K) unit :=
  f <- get_FILE stream;; put_FILE stream (set_flags (Z.ldiff (flags f) (Z.lor _EOF _ERR)) f).

(** ** Formatted output and input *)

Definition vfprintf (stream format : Z) (ap : va_list) : M (sio K) Z :=
  printf_loop rd_byte (λ c, fputc c stream;;; ret tt) fuel fuel format 0 ap.
Definition fprintf := vfprintf.
Definition printf := vfprintf STDOUT.
Definition vprintf := vfprintf STDOUT.

(** [while (isspace(c = getc(stream)))]: the first character that is none. *)
Fixpoint getc_nonspace (n : nat) (stream : Z) : M (sio K) Z :=
  match n with
  | O => faultM
  | S n' => c <- getc stream;; if isspace c then getc_nonspace n' stream else ret c
  end.
(** [while (isdigit(c))] and [while (isxdigit(c))]: the number and the next character. *)
Fixpoint getc_dec (n : nat) (stream c num : Z) : M (sio K) (Z * Z) :=
  match n with
  | O => faultM
  | S n' => if isdigit c then c' <- getc stream;; getc_dec n' stream c' (i64 (num * 10 + (c - 48))) else ret (num, c)
  end.
Fixpoint getc_hex (n : nat) (stream c num : Z) : M (sio K) (Z * Z) :=
  match n with
  | O => faultM
  | S n' => if isxdigit c then c' <- getc stream;; getc_hex n' stream c' (u64 (num * 16 + hex_val c)) else ret (num, c)
  end.
(** [while (c != EOF && !isspace(c))]: the end of the word and the next character. *)
Fixpoint getc_word (n : nat) (stream c dest : Z) : M (sio K) (Z * Z) :=
  match n with
  | O => faultM
  | S n' =>
      if negb (c =? EOF) && negb (isspace c) then wr_bytes dest [u8 c];;; c' <- getc stream;; getc_word n' stream c' (dest + 1)
      else ret (dest, c)
  end.
Definition store_number (is_long : bool) (a num : Z) : M (sio K) unit :=
  modify (λ s, set_s_u (set_um (put_number (um (s_u s)) is_long a num) (s_u s)) s).

(** A conversion leaves the function with [inl], or goes on with the arguments left. *)
Definition scanf_number (unsigned is_long : bool) (stream count : Z) (gp : list Z) : M (sio K) (Z + list Z) :=
  c <- getc_nonspace fuel stream;;
  if c =? EOF then ret (inl (if 0 <? count then count else EOF))
  else
    let sign := if c =? 45 then -1 else 1 in
    c <- (if (c =? 45) || (c =? 43) then getc stream else ret c);;
    if negb (isdigit c) then ungetc c stream;;; ret (inl count)
    else
      r <- getc_dec fuel stream c 0;;
      ungetc r.2 stream;;;
      match gp with
      | [] => faultM
      | a :: gp => store_number is_long a (if unsigned then r.1 else i64 (r.1 * sign));;; ret (inr gp)
      end.
Definition scanf_hex (is_long : bool) (stream count : Z) (gp : list Z) : M (sio K) (Z + list Z) :=
  c <- getc_nonspace fuel stream;;
  if c =? EOF then ret (inl (if 0 <? count then count else EOF))
  else if negb (isxdigit c) then ungetc c stream;;; ret (inl count)
  else
    r <- getc_hex fuel stream c 0;;
    ungetc r.2 stream;;;
    match gp with [] => faultM | a :: gp => store_number is_long a r.1;;; ret (inr gp) end.
Definition scanf_word (stream count : Z) (gp : list Z) : M (sio K) (Z + list Z) :=
  match gp with
  | [] => faultM
  | dest :: gp =>
      c <- getc_nonspace fuel stream;;
      if c =? EOF then ret (inl (if 0 <? count then count else EOF))
      else
        r <- getc_word fuel stream c dest;;
        wr_bytes r.1 [0];;;
        ungetc r.2 stream;;;
        ret (inr gp)
  end.
Definition scanf_char (stream count : Z) (gp : list Z) : M (sio K) (Z + list Z) :=
  match gp with
  | [] => faultM
  | dest :: gp =>
      c <- getc stream;;
      if c =? EOF then ret (inl (if 0 <? count then count else EOF)) else wr_bytes dest [u8 c];;; ret (inr gp)
  end.
Fixpoint scanf_loop (n : nat) (stream p count : Z) (gp : list Z) : M (sio K) Z :=
  match n with
  | O => faultM
  | S n' =>
      pc <- rd_byte p;;
      if pc =? 0 then ret count
      else if isspace pc then c <- getc_nonspace fuel stream;; ungetc c stream;;; scanf_loop n' stream (p + 1) count gp
      else if negb (pc =? 37) then
        c <- getc stream;;
        if c =? EOF then ret (if 0 <? count then count else EOF)
        else if negb (c =? pc) then ungetc c stream;;; ret count
        else scanf_loop n' stream (p + 1) count gp
      else
        let p := p + 1 in
        pc <- rd_byte p;;
        if pc =? 0 then ret count
        else
          let is_long := pc =? 108 in
          let p := if is_long then p + 1 else p in
          pc <- rd_byte p;;
          let next (r : Z + list Z) :=
            match r with inl count => ret count | inr gp => scanf_loop n' stream (p + 1) (i32 (count + 1)) gp end in
          if (pc =? 100) || (pc =? 105) || (pc =? 117) then r <- scanf_number (pc =? 117) is_long stream count gp;; next r
          else if (pc =? 120) || (pc =? 88) then r <- scanf_hex is_long stream count gp;; next r
          else if pc =? 115 then r <- scanf_word stream count gp;; next r
          else if pc =? 99 then r <- scanf_char stream count gp;; next r
          else if pc =? 37 then
            c <- getc_nonspace fuel stream;;
            if negb (c =? 37) then ungetc c stream;;; ret count else scanf_loop n' stream (p + 1) count gp
          else ret count
  end.
Definition vfscanf (stream format : Z) (gp : list Z) : M (sio K) Z :=
  (if stream =? STDIN then fflush 0;;; ret tt else ret tt);;;
  scanf_loop fuel stream format 0 gp.
Definition fscanf := vfscanf.
Definition scanf := vfscanf STDIN.

(** ** Opening and closing *)

Definition O_RDONLY : Z := 0x0001.
Definition O_WRONLY : Z := 0x0002.
Definition O_RDWR : Z := 0x0003.
Definition O_CREAT : Z := 0x0100.
Definition O_TRUNC : Z := 0x0200.
Definition O_APPEND : Z := 0x0400.
Definition SIZEOF_FILE : Z := 40.

(** A string as its bytes; comparing with a literal is equality of bytes. *)
Fixpoint string_at (n : nat) (m : mem) (p : Z) : option (list Z) :=
  match n with
  | O => None
  | S n' => if m p =? 0 then Some [] else l ← string_at n' m (p + 1); Some (m p :: l)
  end.
(** The flags of [open] and of the stream for a mode: r, w, a, r+, w+, a+. *)
Definition mode_flags (mode : list Z) : option (Z * Z) :=
  if decide (mode = [114]) then Some (O_RDONLY, _READ)
  else if decide (mode = [119]) then Some (Z.lor O_WRONLY (Z.lor O_CREAT O_TRUNC), _WRITE)
  else if decide (mode = [97]) then Some (Z.lor O_WRONLY (Z.lor O_CREAT O_APPEND), _WRITE)
  else if decide (mode = [114; 43]) then Some (O_RDWR, Z.lor _READ _WRITE)
  else if decide (mode = [119; 43]) then Some (Z.lor O_RDWR (Z.lor O_CREAT O_TRUNC), Z.lor _READ _WRITE)
  else if decide (mode = [97; 43]) then Some (Z.lor O_RDWR (Z.lor O_CREAT O_APPEND), Z.lor _READ _WRITE)
  else None.

Definition fopen (filename mode : Z) : M (sio K) Z :=
  m <- gets (λ s, um (s_u s));;
  mode <- of_opt (string_at fuel m mode);;
  match mode_flags mode with
  | None => ret 0
  | Some (oflags, rw) =>
      name <- of_opt (string_at fuel m filename);;
      d <- on_k (k_open name oflags);;
      if d <? 0 then ret 0
      else
        f <- on_u (malloc fuel SIZEOF_FILE);;
        if f =? 0 then on_k (k_close d);;; ret 0
        else
          b <- on_u (malloc fuel BUFSIZ);;
          if b =? 0 then on_u (free f);;; on_k (k_close d);;; ret 0
          else
            put_FILE f (mk_FILE d rw b b (if has rw _WRITE then BUFSIZ else 0) BUFSIZ);;;
            ret f
  end.

Definition fclose (stream : Z) : M (sio K) Z :=
  if stream =? 0 then ret EOF
  else
    fflush stream;;;
    f <- get_FILE stream;;
    on_k (k_close (fd f));;;
    (if buf f =? 0 then ret tt else on_u (free (buf f)));;;
    on_u (free stream);;;
    modify (λ s, set_s_files (base.delete stream (s_files s)) s);;;
    ret 0.
End Streams.

(** ** What a stream holds

    [sent]: what has been written to the descriptor and what waits in the
    buffer.  [pending]: what waits in the buffer and what is still to be read
    from the descriptor. *)
Section StreamTheorems.
Context {K : Type} `{!Descriptors K} (STDIN STDOUT STDERR : Z) (fuel : nat).
Implicit Types s : sio K.

Definition mem_of s : mem := um (s_u s).
Definition kern s : K := uos (s_u s).
Definition buffered s (f : FILE) : list Z := bytes_at (mem_of s) (buf f) (Z.to_nat (ptr f - buf f)).
Definition unread s (f : FILE) : list Z := bytes_at (mem_of s) (ptr f) (Z.to_nat (cnt f)).
Definition sent s (f : FILE) : list Z := fd_out (kern s) (fd f) ++ buffered s f.
Definition pending s (f : FILE) : list Z := unread s f ++ fd_in (kern s) (fd f).

(** A buffered stream open for writing, on a descriptor that takes everything;
    [same_file]: the fields [fopen] chose are the same. *)
Record out_ok s (st : Z) (f : FILE) : Prop := {
  oo_at : s_files s !! st = Some f;
  oo_null : st ≠ 0;
  oo_flags : has (flags f) _WRITE = true ∧ has (flags f) _UNBUF = false;
  oo_pos : 0 < bufsiz f < 2 ^ 31 ∧ buf f <= ptr f ∧ 0 <= cnt f ∧ ptr f - buf f + cnt f <= bufsiz f;
  oo_fd : writable (kern s) (fd f)
}.
Definition same_file (f f' : FILE) : Prop := fd f' = fd f ∧ flags f' = flags f ∧ buf f' = buf f ∧ bufsiz f' = bufsiz f.
(** A stream open for reading, not at its end. *)
Record in_ok s (st : Z) (f : FILE) : Prop := {
  io_at : s_files s !! st = Some f;
  io_null : st ≠ 0;
  io_flags : has (flags f) _READ = true ∧ has (flags f) (Z.lor _EOF _ERR) = false;
  io_pos : 0 < bufsiz f < 2 ^ 31 ∧ buf f <= ptr f ∧ 0 <= cnt f ∧ ptr f - buf f + cnt f <= bufsiz f;
  io_fd : readable (kern s) (fd f)
}.

Lemma get_FILE_run s st f : s_files s !! st = Some f → get_FILE st s = Done (f, s).
Proof. unfold get_FILE. intros ->. done. Qed.

(** *** Output *)

Lemma fflush_run s st f : out_ok s st f → ∃ s' f',
  fflush STDOUT STDERR st s = Done (0, s') ∧ out_ok s' st f' ∧ same_file f f' ∧ ptr f' = buf f ∧ cnt f' = bufsiz f ∧
  mem_of s' = mem_of s ∧ sent s' f' = sent s f.
Proof.
  intros [Hat Hnull [Hw Hub] Hpos Hfd]. unfold fflush, fflush1. rewrite (proj2 (Z.eqb_neq st 0)) by done.
  mstep (get_FILE_run s st f Hat). rewrite Hw. cbn [negb]. rewrite i32_id by lia.
  set (f' := set_pos (buf f) (bufsiz f) f).
  assert (∀ s1, s_files s1 = s_files s → mem_of s1 = mem_of s → writable (kern s1) (fd f) → fd_out (kern s1) (fd f) = sent s f →
    ∃ s', (put_FILE st f';;; ret 0) s1 = Done (0, s') ∧ out_ok s' st f' ∧ same_file f f' ∧ ptr f' = buf f ∧ cnt f' = bufsiz f ∧
    mem_of s' = mem_of s ∧ sent s' f' = sent s f) as Hput.
  { intros s1 Hfs Hm Hwr Hout. eexists. split; [reflexivity|]. split_and!; try done.
    - split; cbn; [by rewrite lookup_insert_eq|done|done|lia|done].
    - unfold sent, buffered. subst f'. cbn. rewrite Z.sub_diag. cbn. by rewrite app_nil_r. }
  assert (∃ s1, (if 0 <? ptr f - buf f then r <- write (fd f) (buf f) (ptr f - buf f);; ret (r =? ptr f - buf f) else ret true) s = Done (true, s1) ∧
    s_files s1 = s_files s ∧ mem_of s1 = mem_of s ∧ writable (kern s1) (fd f) ∧ fd_out (kern s1) (fd f) = sent s f) as (s1 & Hc & ? & ? & ? & ?).
  { destruct (Z.ltb_spec 0 (ptr f - buf f)) as [Hlt|Hle].
    - destruct (k_write_spec (fd f) (buffered s f) (kern s) Hfd) as (k' & Hrun & Hout & Hwr).
      exists (set_s_u (set_uos k' (s_u s)) s). split; [|done].
      unfold bind, write, on_k, on_u, zoom. fold (mem_of s) (kern s). fold (buffered s f). rewrite Hrun. unfold buffered.
      rewrite bytes_at_length, Z2Nat.id by lia. unfold ret. by rewrite Z.eqb_refl.
    - exists s. split_and!; try done. unfold sent, buffered. replace (Z.to_nat (ptr f - buf f)) with 0%nat by lia.
      cbn. by rewrite app_nil_r. }
  mstep Hc. destruct (Hput s1) as (s' & ? & ?); try done. by exists s', f'.
Qed.
(** One character: it joins what has been sent, and only the buffer changes. *)
Lemma fputc_run s st f c : out_ok s st f → ∃ s' f',
  fputc STDOUT STDERR c st s = Done (u8 c, s') ∧ out_ok s' st f' ∧ same_file f f' ∧
  sent s' f' = sent s f ++ [u8 c] ∧
  (∀ x, x < buf f ∨ buf f + bufsiz f <= x → mem_of s' x = mem_of s x).
Proof.
  intros Hok. pose proof (oo_at _ _ _ Hok) as Hat. destruct (oo_flags _ _ _ Hok) as [Hw Hub]. unfold fputc.
  mstep (get_FILE_run s st f Hat). rewrite Hw, Hub. cbn [negb].
  assert (∃ s1 f1 r, (if cnt f <=? 0 then fflush STDOUT STDERR st else ret 0) s = Done (r, s1) ∧ r = 0 ∧ out_ok s1 st f1 ∧ same_file f f1 ∧
    0 < cnt f1 ∧ mem_of s1 = mem_of s ∧ sent s1 f1 = sent s f) as (s1 & f1 & r & Hr & -> & Hok1 & Hsame & Hcnt & Hm1 & Hs1).
  { pose proof (oo_pos _ _ _ Hok) as Hpos. destruct (Z.leb_spec (cnt f) 0) as [Hle|Hlt].
    - destruct (fflush_run s st f Hok) as (s1 & f1 & Hrun & Hok1 & Hsame & Hp & Hc & Hm & Hsent). exists s1, f1, 0.
      split_and!; try done. lia.
    - exists s, f, 0. done. }
  mstep Hr. change (0 =? EOF) with false. cbv iota. pose proof (oo_at _ _ _ Hok1) as Hat1. mstep (get_FILE_run s1 st f1 Hat1).
  pose proof (oo_pos _ _ _ Hok1) as Hpos. destruct Hsame as (Hfd & Hfl & Hb & Hbs).
  unfold wr_bytes, put_FILE. unfold bind at 1, modify at 1. unfold bind at 1, modify at 1. cbv beta iota.
  set (f2 := set_pos (ptr f1 + 1) (cnt f1 - 1) f1). set (s2 := set_s_files _ _).
  assert (mem_of s2 = put_bytes (mem_of s1) (ptr f1) [u8 c]) as Hm2 by done.
  assert (out_ok s2 st f2) as Hok2.
  { destruct Hok1 as [_ Hn Hfs _ Hwr]. split; [by cbn; rewrite lookup_insert_eq|done|done|cbn; lia|done]. }
  assert (sent s2 f2 = sent s f ++ [u8 c]) as Hs2.
  { rewrite <- Hs1. unfold sent. rewrite <- app_assoc. f_equal. unfold buffered. rewrite Hm2. cbn [ptr buf f2 set_pos].
    replace (Z.to_nat (ptr f1 + 1 - buf f1)) with (Z.to_nat (ptr f1 - buf f1) + 1)%nat by lia. rewrite bytes_at_app. f_equal.
    - apply bytes_at_ext. intros x Hx. apply put_bytes_out. lia.
    - replace (buf f1 + Z.of_nat (Z.to_nat (ptr f1 - buf f1))) with (ptr f1) by lia. exact (bytes_at_put (mem_of s1) (ptr f1) [u8 c]). }
  assert (∀ x, x < buf f ∨ buf f + bufsiz f <= x → mem_of s2 x = mem_of s x) as Ho2.
  { intros x Hx. rewrite Hm2, put_bytes_out by (cbn [length]; lia). by rewrite Hm1. }
  assert (same_file f f2) as Hsame2 by done.
  destruct (c =? 10).
  - destruct (fflush_run s2 st f2 Hok2) as (s3 & f3 & Hrun & Hok3 & (?&?&?&?) & _ & _ & Hm3 & Hs3).
    unfold bind at 1. mstep Hrun. unfold ret. exists s3, f3. split_and!; try done; [|by rewrite Hs3|by rewrite Hm3].
    unfold same_file in *. intuition congruence.
  - exists s2, f2. done.
Qed.

(** The stream while a format is printed, against the rendering. *)
Definition printing (s0 : sio K) (f0 : FILE) (st : Z) (t : mem * list Z) s : Prop :=
  t.1 = mem_of s0 ∧ ∃ f, out_ok s st f ∧ same_file f0 f ∧ sent s f = sent s0 f0 ++ map u8 t.2 ∧
  ∀ x, x < buf f0 ∨ buf f0 + bufsiz f0 <= x → mem_of s x = mem_of s0 x.
Lemma printing_rd s0 f0 st a : sim (printing s0 f0 st) (rn_rd (inside (buf f0) (bufsiz f0)) a) (rd_byte a).
Proof.
  intros t s (Ht & f & Hok & Hsame & Hsent & Ho). unfold rn_rd, inside.
  destruct (Z.leb_spec (buf f0) a), (Z.ltb_spec a (buf f0 + bufsiz f0)); cbn [andb]; try done;
    (exists s; split; [|by split; [|exists f]]); unfold rd_byte, gets; fold (mem_of s); by rewrite Ho, Ht by lia.
Qed.
Lemma printing_out s0 f0 st c : sim (printing s0 f0 st) (rn_out c) (fputc STDOUT STDERR c st;;; ret tt).
Proof.
  intros [m l] s (Ht & f & Hok & Hsame & Hsent & Ho). cbn [fst snd] in Ht, Hsent.
  destruct (fputc_run s st f c Hok) as (s' & f' & Hrun & Hok' & Hsame' & Hsent' & Ho').
  exists s'. split; [by mstep Hrun|]. split; [done|]. exists f'. cbn [snd]. destruct Hsame as (?&?&Hb&Hbs). split_and!; [done| | |].
  - unfold same_file in *. intuition congruence.
  - by rewrite Hsent', Hsent, map_app, <- app_assoc.
  - intros x Hx. rewrite Ho' by (rewrite Hb, Hbs; done). by apply Ho.
Qed.


(** *** Input *)

Lemma unread_cons s f : 0 < cnt f → unread s f = mem_of s (ptr f) :: unread s (set_pos (ptr f + 1) (cnt f - 1) f).
Proof.
  intros H. unfold unread. cbn [ptr cnt set_pos]. replace (Z.to_nat (cnt f)) with (1 + Z.to_nat (cnt f - 1))%nat by lia.
  rewrite bytes_at_app. cbn. by rewrite Z.add_0_r.
Qed.
Lemma unread_nil s f : cnt f <= 0 → unread s f = [].
Proof. intros H. unfold unread. by replace (Z.to_nat (cnt f)) with 0%nat by lia. Qed.

(** One character: the first that is pending; at the end [EOF], remembered. *)
Lemma getc_next s st f c rest : in_ok s st f → pending s f = c :: rest → ∃ s' f',
  getc st s = Done (c, s') ∧ in_ok s' st f' ∧ same_file f f' ∧ pending s' f' = rest ∧
  (∀ x, x < buf f ∨ buf f + bufsiz f <= x → mem_of s' x = mem_of s x).
Proof.
  intros Hok Hp. pose proof (io_at _ _ _ Hok) as Hat. pose proof (io_pos _ _ _ Hok) as Hpos.
  destruct (io_flags _ _ _ Hok) as [Hr He]. unfold getc. mstep (get_FILE_run s st f Hat).
  unfold put_FILE at 1. unfold bind at 1, modify at 1. cbv beta iota. rewrite i32_id by lia.
  set (s1 := set_s_files _ s). destruct (Z.leb_spec 0 (cnt f - 1)) as [Hle|Hlt].
  - unfold pending in Hp. rewrite unread_cons in Hp by lia. injection Hp as Hc Hrest. eexists _, (set_pos (ptr f + 1) (cnt f - 1) f).
    split; [unfold bind, rd_byte, put_FILE, gets, modify, ret; fold (mem_of s1); change (mem_of s1 (ptr f)) with (mem_of s (ptr f));
      rewrite Hc; reflexivity|]. split_and!; try done.
    destruct Hok as [_ ? ? _ ?]. split; [by cbn; rewrite lookup_insert_eq|done|done|cbn; lia|done].
  - unfold pending in Hp. rewrite unread_nil in Hp by lia. cbn [app] in Hp. unfold _fillbuf.
    set (f1 := set_pos (ptr f) (cnt f - 1) f) in *. mstep (get_FILE_run s1 st f1 (lookup_insert_eq _ _ _)). cbn [flags f1 set_pos].
    rewrite Hr, He. cbn [negb orb]. cbn [fd bufsiz buf]. set (toread := if fd f =? 0 then 1 else bufsiz f).
    assert (0 < toread <= bufsiz f) as Hto by (subst toread; destruct (fd f =? 0); lia).
    destruct (k_read_spec (fd f) toread (kern s) (io_fd _ _ _ Hok) ltac:(lia)) as (l & k' & Hrun & Hin & Hlen & Hnil & Hrd).
    destruct l as [|d l]; [by rewrite (Hnil eq_refl) in Hp|]. rewrite Hp in Hin. injection Hin as -> Hin.
    set (s2 := set_s_u (set_um (put_bytes (mem_of s) (buf f) (d :: l)) (set_uos k' (s_u s))) s1).
    assert (read (fd f) (buf f) toread s1 = Done (Z.of_nat (length (d :: l)), s2)) as Hread.
    { unfold read, bind, on_k, on_u, zoom. change (uos (s_u s1)) with (kern s). rewrite Hrun. done. }
    mstep Hread. destruct (Z.leb_spec (Z.of_nat (length (d :: l))) 0) as [Hbad|_]; [cbn [length] in Hbad; lia|].
    assert (mem_of s2 (buf f) = d) as Hd.
    { pose proof (put_bytes_in (mem_of s) (buf f) (d :: l) 0 ltac:(cbn; lia)) as H. by rewrite Z.add_0_r in H. }
    eexists _, (set_pos (buf f + 1) (Z.of_nat (length (d :: l)) - 1) f).
    split; [unfold bind, rd_byte, put_FILE, gets, modify, ret; change (um (s_u s2) _) with (mem_of s2 (buf f)); rewrite Hd; reflexivity|].
    destruct Hok as [_ Hn Hfl _ Hfd]. split_and!; try done.
    + split; [by cbn; rewrite lookup_insert_eq|done|done|cbn [set_pos ptr cnt buf bufsiz length]; cbn [length] in Hlen; lia|done].
    + unfold pending. rewrite Hin. f_equal. unfold unread. cbn [ptr cnt set_pos].
      replace (Z.to_nat (Z.of_nat (length (d :: l)) - 1)) with (length l) by (cbn [length]; lia).
      pose proof (bytes_at_put (mem_of s) (buf f) ([d] ++ l)) as Hb. rewrite length_app, bytes_at_app in Hb. cbn [length] in Hb.
      injection Hb as _ Hb. exact Hb.
    + intros x Hx. assert (x < buf f ∨ buf f + Z.of_nat (length (d :: l)) <= x) as Hx' by lia. exact (put_bytes_out (mem_of s) (buf f) (d :: l) x Hx').
Qed.
(** At the end of the input: [EOF], and the stream remembers it. *)
Lemma getc_end s st f : in_ok s st f → pending s f = [] →
  ∃ s' f', getc st s = Done (EOF, s') ∧ s_files s' !! st = Some f' ∧ f' = set_flags (Z.lor (flags f) _EOF) (set_pos (ptr f) (-1) f) ∧
  mem_of s' = mem_of s ∧ fd_in (kern s') (fd f) = [] ∧ readable (kern s') (fd f).
Proof.
  intros Hok Hp. pose proof (io_at _ _ _ Hok) as Hat. pose proof (io_pos _ _ _ Hok) as Hpos.
  destruct (io_flags _ _ _ Hok) as [Hr He]. apply app_eq_nil in Hp as [Hu Hin].
  assert (cnt f = 0) as Hc. { apply (f_equal length) in Hu. unfold unread in Hu. rewrite bytes_at_length in Hu. cbn in Hu. lia. }
  unfold getc. mstep (get_FILE_run s st f Hat). unfold put_FILE at 1. unfold bind at 1, modify at 1. cbv beta iota. rewrite Hc.
  change (i32 (0 - 1)) with (-1). change (0 <=? -1) with false. cbv iota. set (s1 := set_s_files _ s). unfold _fillbuf.
  set (f1 := set_pos (ptr f) (-1) f) in *. mstep (get_FILE_run s1 st f1 (lookup_insert_eq _ _ _)). cbn [flags f1 set_pos].
  rewrite Hr, He. cbn [negb orb fd bufsiz buf]. set (toread := if fd f =? 0 then 1 else bufsiz f).
  assert (0 < toread) as Hto by (subst toread; destruct (fd f =? 0); lia).
  destruct (k_read_spec (fd f) toread (kern s) (io_fd _ _ _ Hok) Hto) as (l & k' & Hrun & Hin' & _ & _ & Hrd).
  rewrite Hin in Hin'. symmetry in Hin'. apply app_eq_nil in Hin' as [-> Hin'].
  set (s2 := set_s_u (set_um (mem_of s) (set_uos k' (s_u s))) s1).
  assert (read (fd f) (buf f) toread s1 = Done (0, s2)) as Hread.
  { unfold read, bind, on_k, on_u, zoom. change (uos (s_u s1)) with (kern s). rewrite Hrun. done. }
  mstep Hread. change (0 <=? 0) with true. cbv iota. eexists _, _. split; [reflexivity|].
  split; [by cbn; rewrite lookup_insert_eq|]. done.
Qed.

(** a character pushed back after the end of the input is lost.  [getc]
    has left [cnt] at -1 there, so [ungetc], which reports success, only brings
    it to 0: the next [getc] does not look at the buffer but reads the
    descriptor again, and answers [EOF]. *)
Theorem ungetc_at_end_lost s st f c :
  in_ok s st f → pending s f = [] → buf f < ptr f → c ≠ EOF →
  ∃ s1 s2 s3, getc st s = Done (EOF, s1) ∧ ungetc c st s1 = Done (u8 c, s2) ∧ feof st s2 = Done (false, s2) ∧
    mem_of s2 (ptr f - 1) = u8 c ∧ getc st s2 = Done (EOF, s3).
Proof.
  intros Hok Hp Hgt Hc. destruct (getc_end s st f Hok Hp) as (s1 & f1 & Hrun & Hat1 & -> & Hm1 & Hin1 & Hrd1).
  set (f2 := set_flags (Z.ldiff (Z.lor (flags f) _EOF) _EOF) (set_pos (ptr f - 1) 0 f)).
  set (s2 := set_s_files (<[st := f2]> (s_files s1)) (set_s_u (set_um (put_bytes (mem_of s1) (ptr f - 1) [u8 c]) (s_u s1)) s1)).
  pose proof (io_null _ _ _ Hok) as Hnull. destruct (io_flags _ _ _ Hok) as [Hr He].
  assert (∀ m, Z.testbit m 3 = false → has (Z.ldiff (Z.lor (flags f) _EOF) _EOF) m = has (flags f) m) as Hflags.
  { intros m Hm. unfold has. f_equal. f_equal. apply Z.bits_inj'. intros i Hi. rewrite !Z.land_spec, Z.ldiff_spec, Z.lor_spec.
    change _EOF with (2 ^ 3). destruct (decide (i = 3)) as [->|Hi3]; [by rewrite Hm, !andb_false_r|].
    rewrite Z.pow2_bits_false by congruence. by rewrite orb_false_r, andb_true_r. }
  assert (has (flags f) _EOF = false ∧ has (flags f) _ERR = false) as [He1 He2].
  { change (Z.lor _EOF _ERR) with 24 in He. unfold has in He. apply negb_false_iff, Z.eqb_eq in He.
    split; unfold has; apply negb_false_iff, Z.eqb_eq.
    - change _EOF with (Z.land 24 8). by rewrite Z.land_assoc, He.
    - change _ERR with (Z.land 24 16). by rewrite Z.land_assoc, He. }
  assert (has (Z.ldiff (Z.lor (flags f) _EOF) _EOF) _EOF = false) as He3.
  { unfold has. apply negb_false_iff, Z.eqb_eq, Z.bits_inj'. intros i Hi. rewrite Z.land_spec, Z.ldiff_spec, Z.bits_0.
    by destruct (Z.testbit _EOF i); rewrite ?andb_false_r. }
  assert (in_ok s2 st f2) as Hok2.
  { split; [by cbn; rewrite lookup_insert_eq|done| | |done].
    - cbn [flags f2 set_flags set_pos]. split; [by rewrite Hflags|]. unfold has. rewrite Z.land_lor_distr_r. apply negb_false_iff, Z.eqb_eq.
      unfold has in He3. apply negb_false_iff, Z.eqb_eq in He3. rewrite He3. rewrite Z.lor_0_l.
      pose proof (Hflags _ERR eq_refl) as H. rewrite He2 in H. unfold has in H. by apply negb_false_iff, Z.eqb_eq in H.
    - pose proof (io_pos _ _ _ Hok). cbn [f2 set_flags set_pos bufsiz buf ptr cnt]. lia. }
  assert (pending s2 f2 = []) as Hp2 by exact Hin1.
  destruct (getc_end s2 st f2 Hok2 Hp2) as (s3 & f3 & Hrun3 & _). exists s1, s2, s3. split_and!; try done.
  - unfold ungetc. rewrite (proj2 (Z.eqb_neq c EOF)), (proj2 (Z.eqb_neq st 0)) by done. cbn [orb].
    mstep (get_FILE_run s1 st _ Hat1). cbn [buf ptr set_flags set_pos]. by rewrite (proj2 (Z.ltb_lt _ _)) by lia.
  - unfold feof. mstep (get_FILE_run s2 st _ (io_at _ _ _ Hok2)). cbn [f2 flags set_flags]. by rewrite He3.
  - pose proof (put_bytes_in (mem_of s1) (ptr f - 1) [u8 c] 0 ltac:(cbn; lia)) as H. by rewrite Z.add_0_r in H.
Qed.

(** A store away from the buffer. *)
Lemma wr_byte_in s st f a v : in_ok s st f → a < buf f ∨ buf f + bufsiz f <= a →
  ∃ s', wr_bytes a [v] s = Done (tt, s') ∧ mem_of s' = put_bytes (mem_of s) a [v] ∧ in_ok s' st f ∧ pending s' f = pending s f.
Proof.
  intros Hok Ha. eexists. split; [reflexivity|]. split; [done|]. destruct Hok as [? ? ? Hpos ?]. split; [by split|].
  unfold pending. f_equal. apply bytes_at_ext. intros x Hx. apply put_bytes_out. cbn [length]. lia.
Qed.
Lemma fgets_loop_line st tgt f0 rest l : ∀ k s f n p c0,
  in_ok s st f → same_file f0 f → pending s f = l ++ 10 :: rest → Forall (λ c, 0 <= c < 256 ∧ c ≠ 8 ∧ c ≠ 10) l →
  Z.of_nat (length l) + 1 < n → (length l < k)%nat →
  p + Z.of_nat (length l) + 1 <= buf f0 ∨ buf f0 + bufsiz f0 <= p →
  ∃ s' f', fgets_loop k tgt st n p c0 s = Done (p + Z.of_nat (length l) + 1, 10, s') ∧ in_ok s' st f' ∧ same_file f0 f' ∧
    pending s' f' = rest ∧ bytes_at (mem_of s') p (length l + 1) = l ++ [10] ∧
    ∀ x, x < buf f0 ∨ buf f0 + bufsiz f0 <= x → x < p ∨ p + Z.of_nat (length l) + 1 <= x → mem_of s' x = mem_of s x.
Proof.
  assert (∀ s s1 f f1 c r v p q, in_ok s1 st f1 → same_file f0 f → same_file f f1 →
    (∀ x, x < buf f ∨ buf f + bufsiz f <= x → mem_of s1 x = mem_of s x) → pending s1 f1 = r → 0 <= c < 256 → v = u8 c →
    p < buf f0 ∨ buf f0 + bufsiz f0 <= p → q = p →
    ∃ s2, wr_bytes q [v] s1 = Done (tt, s2) ∧ in_ok s2 st f1 ∧ same_file f0 f1 ∧ pending s2 f1 = r ∧ mem_of s2 p = c ∧
    ∀ x, x < buf f0 ∨ buf f0 + bufsiz f0 <= x → x ≠ p → mem_of s2 x = mem_of s x) as Hstep.
  { intros s s1 f f1 c r v p q Hok1 Hs0 Hs1 Hm1 Hp1 Hc -> Hp ->. destruct Hs0 as (?&?&Hb0&Hbs0), Hs1 as (?&?&Hb1&Hbs1).
    destruct (wr_byte_in s1 st f1 p (u8 c) Hok1) as (s2 & Hw & Hm2 & Hok2 & Hp2); [rewrite Hb1, Hb0, Hbs1, Hbs0; lia|].
    exists s2. split_and!; try done; [unfold same_file; intuition congruence|congruence| |].
    - rewrite Hm2. pose proof (put_bytes_in (mem_of s1) p [u8 c] 0 ltac:(cbn; lia)) as Hpb. rewrite Z.add_0_r in Hpb. rewrite Hpb. cbn [nth]. by apply u8_id.
    - intros x Hx Hxp. rewrite Hm2, put_bytes_out by (cbn [length]; lia). apply Hm1. rewrite Hb0, Hbs0. done. }
  induction l as [|c l IH]; intros k s f n p c0 Hok Hsame Hp Hl Hn Hk Ha; (destruct k as [|k]; [cbn in Hk; lia|]); cbn [fgets_loop];
    cbn [length] in *; rewrite (proj2 (Z.leb_gt (n - 1) 0)) by lia; cbn [app] in Hp;
    destruct (getc_next s st f _ _ Hok Hp) as (s1 & f1 & Hrun & Hok1 & Hs1 & Hp1 & Hm1); mstep Hrun.
  - change (10 =? EOF) with false. change (10 =? 8) with false. cbv iota.
    destruct (Hstep s s1 f f1 10 rest (u8 10) p p) as (s2 & Hw & Hok2 & Hs2 & Hp2 & Hm2 & Ho2); try done; [lia|].
    mstep Hw. change (10 =? 10) with true. cbv iota. exists s2, f1. split_and!; try done; [unfold ret; do 3 f_equal; lia| |].
    + cbn. by rewrite Z.add_0_r, Hm2.
    + intros x Hx Hxp. apply Ho2; [done|lia].
  - apply Forall_cons in Hl as [(Hc & Hc8 & Hc10) Hl]. rewrite (proj2 (Z.eqb_neq c EOF)), (proj2 (Z.eqb_neq c 8)) by (unfold EOF; lia).
    destruct (Hstep s s1 f f1 c (l ++ 10 :: rest) (u8 c) p p) as (s2 & Hw & Hok2 & Hs2 & Hp2 & Hm2 & Ho2); try done; [lia|].
    mstep Hw. rewrite (proj2 (Z.eqb_neq c 10)) by done.
    destruct (IH k s2 f1 (n - 1) (p + 1) c Hok2 Hs2 Hp2 Hl ltac:(lia) ltac:(lia) ltac:(lia)) as (s3 & f3 & Hrun3 & Hok3 & Hs3 & Hp3 & Hb3 & Ho3).
    exists s3, f3. split_and!; try done; [rewrite Hrun3; do 3 f_equal; lia| |].
    + change (S (length l) + 1)%nat with (1 + (length l + 1))%nat. rewrite bytes_at_app. cbn [app]. change (Z.of_nat 1) with 1. rewrite Hb3.
      cbn. rewrite Z.add_0_r, Ho3 by lia. by rewrite Hm2.
    + intros x Hx Hxp. rewrite Ho3 by lia. apply Ho2; [done|lia].
Qed.

(** C35: [fgets] reads one line.  When the next line of the input fits into [n]
    bytes with its newline and the terminator, and the target lies apart from
    the stream's buffer, [fgets] returns the target, which then holds the line,
    its newline and a zero byte; the input left starts after the line. *)
Theorem fgets_reads_line st f tgt n c0 l rest s :
  in_ok s st f → st ≠ STDIN → pending s f = l ++ 10 :: rest → Forall (λ c, 0 <= c < 256 ∧ c ≠ 8 ∧ c ≠ 10) l →
  Z.of_nat (length l) + 1 < n → (length l < fuel)%nat →
  tgt + Z.of_nat (length l) + 2 <= buf f ∨ buf f + bufsiz f <= tgt →
  ∃ s' f', fgets STDIN STDOUT STDERR fuel c0 tgt n st s = Done (tgt, s') ∧ in_ok s' st f' ∧ same_file f f' ∧
    pending s' f' = rest ∧ bytes_at (mem_of s') tgt (length l + 2) = l ++ [10; 0] ∧
    ∀ x, x < buf f ∨ buf f + bufsiz f <= x → x < tgt ∨ tgt + Z.of_nat (length l) + 2 <= x → mem_of s' x = mem_of s x.
Proof.
  intros Hok Hst Hp Hl Hn Hf Ha. unfold fgets. rewrite (proj2 (Z.eqb_neq st STDIN)) by done. unfold ret at 1, bind at 1.
  destruct (fgets_loop_line st tgt f rest l fuel s f n tgt c0 Hok ltac:(done) Hp Hl Hn Hf ltac:(lia)) as (s1 & f1 & Hrun & Hok1 & Hs1 & Hp1 & Hb1 & Ho1).
  mstep Hrun. cbn [fst snd]. pose proof Hs1 as (_ & _ & Hbuf & Hbs).
  destruct (wr_byte_in s1 st f1 (tgt + Z.of_nat (length l) + 1) 0 Hok1 ltac:(lia)) as (s2 & Hw & Hm2 & Hok2 & Hp2). mstep Hw.
  exists s2, f1. change (10 =? EOF) with false. rewrite andb_false_r. split_and!; try done; [congruence| |].
  - replace (length l + 2)%nat with ((length l + 1) + 1)%nat by lia. rewrite bytes_at_app. change (l ++ [10; 0]) with (l ++ [10] ++ [0]). rewrite app_assoc. f_equal.
    + rewrite <- Hb1. apply bytes_at_ext. intros x Hx. rewrite Hm2. apply put_bytes_out. cbn [length]. lia.
    + rewrite Hm2. replace (tgt + Z.of_nat (length l + 1)) with (tgt + Z.of_nat (length l) + 1) by lia. exact (bytes_at_put (mem_of s1) _ [0]).
  - intros x Hx Hxp. rewrite Hm2, put_bytes_out by (cbn [length]; lia). apply Ho1; lia.
Qed.
End StreamTheorems.

(** ** A kernel with two tapes per descriptor *)
Record tape := mk_tape { t_out : Z → list Z; t_in : Z → list Z }.
Definition put_tape (f : Z → list Z) (d : Z) (l : list Z) : Z → list Z := λ x, if x =? d then l else f x.
#[export] Instance tape_descriptors : Descriptors tape.
Proof.
  refine {| k_write := λ d l t, Done (Z.of_nat (length l), mk_tape (put_tape (t_out t) d (t_out t d ++ l)) (t_in t));
    k_read := λ d n t, let l := take (Z.to_nat n) (t_in t d) in
      Done (Z.of_nat (length l), l, mk_tape (t_out t) (put_tape (t_in t) d (drop (Z.to_nat n) (t_in t d))));
    k_open := λ _ _ t, Done (3, t); k_close := λ _ t, Done (0, t);
    fd_out := t_out; fd_in := t_in; writable := λ _ _, True; readable := λ _ _, True |}.
  - intros d l k _. eexists. split; [reflexivity|]. split; [|done]. cbn. unfold put_tape. by rewrite Z.eqb_refl.
  - intros d n k _ Hn. eexists _, _. split; [reflexivity|]. cbn. unfold put_tape. rewrite Z.eqb_refl, take_drop. split; [done|].
    split; [rewrite length_take; lia|]. split; [|done]. intros H. destruct (t_in k d); [done|].
    replace (Z.to_nat n) with (S (Z.to_nat n - 1)) in H by lia. done.
Defined.

(** Standard output at its first character, and a file being read. *)
Definition ex_stdout : FILE := mk_FILE 1 _WRITE 1000 1000 0 8.
Definition ex_file : FILE := mk_FILE 3 _READ 2000 2000 0 4.
Definition ex_eof : FILE := mk_FILE 3 _READ 2000 2002 0 4.
Definition ex_io (m : mem) (f : FILE) (inp : list Z) : sio tape :=
  mk_sio (mk_ust m 0 0 0 0 (mk_tape (λ _, []) (λ _, inp))) (<[100 := ex_stdout]> {[200 := f]}).
Lemma ex_out_ok m : out_ok (ex_io m ex_file []) 100 ex_stdout.
Proof. split; [by vm_compute|done|done|cbn; lia|done]. Qed.
Lemma ex_in_ok m inp f : f = ex_file ∨ f = ex_eof → in_ok (ex_io m f inp) 200 f.
Proof. intros [-> | ->]; (split; [by vm_compute|done|done|cbn; lia|done]). Qed.

Lemma ungetc_at_end_lost_witness : let s := ex_io (λ _, 0) ex_eof [] in
  ∃ s1 s2 s3, getc 200 s = Done (EOF, s1) ∧ ungetc 65 200 s1 = Done (65, s2) ∧ getc 200 s2 = Done (EOF, s3).
Proof.
  intros s. destruct (ungetc_at_end_lost s 200 ex_eof 65) as (s1 & s2 & s3 & H1 & H2 & _ & _ & H3).
  - apply ex_in_ok. by right.
  - by vm_compute.
  - done.
  - done.
  - exists s1, s2, s3. split; [exact H1|]. split; [exact H2|exact H3].
Defined.
(** The line "hello" needs two fillings of the buffer. *)
Lemma fgets_reads_line_witness : let s := ex_io (λ _, 0) ex_file [104; 101; 108; 108; 111; 10; 119] in
  ∃ s' f', fgets 50 100 150 8 0 3000 10 200 s = Done (3000, s') ∧ pending s' f' = [119] ∧
    bytes_at (mem_of s') 3000 7 = [104; 101; 108; 108; 111; 10; 0].
Proof.
  intros s. destruct (fgets_reads_line 50 100 150 8 200 ex_file 3000 10 0 [104; 101; 108; 108; 111] [119] s)
    as (s' & f' & Hrun & _ & _ & Hp & Hb & _).
  - apply ex_in_ok. by left.
  - done.
  - reflexivity.
  - repeat constructor; lia.
  - cbn. lia.
  - cbn. lia.
  - cbn. lia.
  - exists s', f'. split; [exact Hrun|]. split; [exact Hp|exact Hb].
Defined.

(** A stream open in mode "r+" starts with [cnt] at [BUFSIZ], the room for
    output: [getc] takes it for input and returns what [malloc] left in the
    buffer, whatever the file holds. *)
Lemma getc_update_mode {K} `{!Descriptors K} (s : sio K) st d b :
  s_files s !! st = Some (mk_FILE d (Z.lor _READ _WRITE) b b BUFSIZ BUFSIZ) → ∃ s', getc st s = Done (mem_of s b, s').
Proof.
  intros Hat. unfold getc. mstep (get_FILE_run s st _ Hat). eexists. reflexivity.
Qed.
