(* ===== verification/VBasic.v ===== *)
(** The BASIC interpreter, [user/programs/vbasic/vbasic.c], a client of the C
    library: the tokenizer and the expression parser, the statements, the
    program store with its quicksort, and one round of the main loop.

    The program's arrays lie in the byte memory of the process: the variables
    at [VARS], the table of lines at [PROG]; the current token is its bytes
    before the terminator, a store past its 64 bytes faults, and so does an
    index outside an array.  [printf] with the formats the program uses is the
    sequence of its [fputc] calls.  Arithmetic on [int] wraps; a division by
    zero faults.  [fuel] bounds the library's loops, the first argument of the
    recursive functions bounds their depth. *)
From Stdlib Require Import Sorting.Sorted.
From S2P Require Export UStdio.
Local Open Scope prog_scope.

Definition MAX_LINES : Z := 100.
Definition MAX_SRC_LEN : Z := 1024.
Definition MAX_TOKEN_LEN : Z := 64.
Definition DELIMITER : Z := 1.
Definition VARIABLE : Z := 2.
Definition NUMBER : Z := 3.
Definition COMMAND : Z := 4.
Definition STRING : Z := 5.

(** [commands]: PRINT, INPUT, IF, THEN, GOTO, LET, END; their numbers are the
    positions from 1. *)
Definition s_PRINT : list Z := [80; 82; 73; 78; 84].
Definition s_INPUT : list Z := [73; 78; 80; 85; 84].
Definition s_IF : list Z := [73; 70].
Definition s_THEN : list Z := [84; 72; 69; 78].
Definition s_GOTO : list Z := [71; 79; 84; 79].
Definition s_LET : list Z := [76; 69; 84].
Definition s_END : list Z := [69; 78; 68].
Definition commands : list (list Z) := [s_PRINT; s_INPUT; s_IF; s_THEN; s_GOTO; s_LET; s_END].
Fixpoint cmd_index (l : list (list Z)) (t : list Z) (i : Z) : Z :=
  match l with [] => 0 | c :: l => if decide (t = c) then i else cmd_index l t (i + 1) end.
Definition cmd_id (t : list Z) : Z := cmd_index commands t 1.

(** ** Sorting *)

Fixpoint swap_bytes (size : nat) (m : mem) (a b : Z) : mem :=
  match size with
  | O => m
  | S size => let tmp := m a in swap_bytes size (upd (upd m a (m b)) b tmp) (a + 1) (b + 1)
  end.
Section Qsort.
Context (size : nat) (compar : mem → Z → Z → Z).
(** [for (i = 0; i < nmemb - 1; i++)]: the memory and [j]. *)
Fixpoint partition_loop (n : nat) (m : mem) (arr last i j : Z) : mem * Z :=
  match n with
  | O => (m, j)
  | S n' =>
      if compar m (arr + i * Z.of_nat size) last <? 0 then
        let m := if i =? j then m else swap_bytes size m (arr + i * Z.of_nat size) (arr + j * Z.of_nat size) in
        partition_loop n' m arr last (i + 1) (j + 1)
      else partition_loop n' m arr last (i + 1) j
  end.
Fixpoint qsort (fuel : nat) (m : mem) (arr nmemb : Z) : option mem :=
  if nmemb <? 2 then Some m
  else
    match fuel with
    | O => None
    | S f =>
        let last := arr + (nmemb - 1) * Z.of_nat size in
        let '(m, j) := partition_loop (Z.to_nat (nmemb - 1)) m arr last 0 0 in
        let m := swap_bytes size m (arr + j * Z.of_nat size) last in
        m ← qsort f m arr j;
        qsort f m (arr + (j + 1) * Z.of_nat size) (nmemb - j - 1)
    end.
End Qsort.

Record bas (K : Type) := mk_bas { b_io : sio K; b_ptr : Z; b_token : list Z; b_type : Z; b_count : Z }.
Arguments mk_bas {K}.
Arguments b_io {K}.
Arguments b_ptr {K}.
Arguments b_token {K}.
Arguments b_type {K}.
Arguments b_count {K}.

Section Basic.
Context {K : Type} `{!Pager K} `{!Descriptors K} (STDIN STDOUT STDERR : Z) (fuel : nat).
(** [variables], [program] and the local [input_buffer] of [main]. *)
Context (VARS PROG INPUT_BUFFER : Z).
Implicit Types s : bas K.

Definition set_b_io v s : bas K := mk_bas v (b_ptr s) (b_token s) (b_type s) (b_count s).
Definition set_b_ptr v s : bas K := mk_bas (b_io s) v (b_token s) (b_type s) (b_count s).
Definition set_b_token v s : bas K := mk_bas (b_io s) (b_ptr s) v (b_type s) (b_count s).
Definition set_b_type v s : bas K := mk_bas (b_io s) (b_ptr s) (b_token s) v (b_count s).
Definition set_b_count v s : bas K := mk_bas (b_io s) (b_ptr s) (b_token s) (b_type s) v.
Definition b_mem s : mem := um (s_u (b_io s)).
Definition set_b_mem (m : mem) s : bas K := set_b_io (set_s_u (set_um m (s_u (b_io s))) (b_io s)) s.
Definition on_io {A} (m : M (sio K) A) : M (bas K) A := zoom b_io set_b_io m.
Definition rd (a : Z) : M (bas K) Z := gets (λ s, b_mem s a).

(** [printf] of a text that is known. *)
Definition print (l : list Z) : M (bas K) unit := on_io (for_each (λ c, fputc STDOUT STDERR c STDOUT;;; ret tt) l).
(** The message between a newline and the word Error, and a newline. *)
Definition error (msg : list Z) : M (bas K) unit := print ([10; 69; 114; 114; 111; 114; 58; 32] ++ msg ++ [10]).
Variable msgs : Z → list Z.  (** the texts of the messages *)

(** ** Tokens *)

Definition is_delim (c : Z) : bool :=
  bool_decide (c ∈ [32; 59; 44; 43; 45; 42; 47; 40; 41; 61; 60; 62; 0]) || (c =? 9) || (c =? 13) || (c =? 10).
(** [*temp++ = c] *)
Definition put_tok (t : list Z) (c : Z) : M (bas K) (list Z) :=
  if Z.of_nat (length t) <? MAX_TOKEN_LEN then ret (t ++ [c]) else faultM.
Definition end_tok (t : list Z) : M (bas K) unit :=
  if Z.of_nat (length t) <? MAX_TOKEN_LEN then modify (set_b_token t) else faultM.
Definition advance : M (bas K) unit := modify (λ s, set_b_ptr (b_ptr s + 1) s).
Definition peek : M (bas K) Z := λ s, Done (b_mem s (b_ptr s), s).

Fixpoint skip_blanks (n : nat) : M (bas K) unit :=
  match n with
  | O => faultM
  | S n' => c <- peek;; if (c =? 32) || (c =? 9) then advance;;; skip_blanks n' else ret tt
  end.
(** [while (p( *ptr)) *temp++ = f( *ptr++)]. *)
Fixpoint take_while (n : nat) (p : Z → bool) (f : Z → Z) (t : list Z) : M (bas K) (list Z) :=
  match n with
  | O => faultM
  | S n' => c <- peek;; if p c then t <- put_tok t (f c);; advance;;; take_while n' p f t else ret t
  end.
(** The branches of [get_token]: the token that starts with [c]. *)
Definition token_of (c : Z) : M (bas K) (list Z) :=
  if is_delim c then
    modify (set_b_type DELIMITER);;;
    t <- put_tok [] c;;
    advance;;;
    if (c =? 60) || (c =? 62) then
      d <- peek;;
      if d =? 61 then t <- put_tok t d;; advance;;; ret t else ret t
    else ret t
  else if isdigit c then modify (set_b_type NUMBER);;; take_while fuel isdigit id []
  else if c =? 34 then
    advance;;;
    modify (set_b_type STRING);;;
    t <- take_while fuel (λ c, negb (c =? 34) && negb (c =? 0)) id [];;
    c <- peek;;
    (if c =? 34 then advance else ret tt);;;
    end_tok t;;; ret t
  else if isalpha c then
    t <- take_while fuel isalpha toupper [];;
    end_tok t;;;
    modify (set_b_type (if 0 <? cmd_id t then COMMAND else VARIABLE));;; ret t
  else ret [].
Definition get_token : M (bas K) Z :=
  modify (set_b_type 0);;;
  skip_blanks fuel;;;
  c <- peek;;
  if c =? 0 then modify (set_b_token []);;; ret 0
  else t <- token_of c;; end_tok t;;; gets b_type.
Definition put_back : M (bas K) unit := modify (λ s, set_b_ptr (b_ptr s - Z.of_nat (length (b_token s))) s).

(** [*token], [token[0]]. *)
Definition tok0 (t : list Z) : Z := nth 0 t 0.
Definition atoi_token (t : list Z) : option Z := atoi 66 (put_bytes (λ _, 0) 1 t) 1.

(** [variables[c - 'A']]. *)
Definition var_get (c : Z) : M (bas K) Z := λ s,
  if (0 <=? c - 65) && (c - 65 <? 26) then Done (i32 (load32 (b_mem s) (VARS + 4 * (c - 65))), s) else Fault.
Definition var_set (c v : Z) : M (bas K) unit := λ s,
  if (0 <=? c - 65) && (c - 65 <? 26) then Done (tt, set_b_mem (store32 (b_mem s) (VARS + 4 * (c - 65)) (u32 v)) s) else Fault.

(** ** Expressions *)

Fixpoint prim (n : nat) : M (bas K) Z :=
  match n with
  | O => faultM
  | S n' =>
      get_token;;;
      ty <- gets b_type;;
      t <- gets b_token;;
      if ty =? NUMBER then of_opt (atoi_token t)
      else if ty =? VARIABLE then var_get (tok0 t)
      else if tok0 t =? 40 then
        temp <- expression n';;
        get_token;;;
        t <- gets b_token;;
        (if negb (tok0 t =? 41) then error (msgs 0) else ret tt);;;
        ret temp
      else if tok0 t =? 45 then v <- prim n';; ret (i32 (- v))
      else error (msgs 1);;; ret 0
  end
with term (n : nat) : M (bas K) Z :=
  match n with
  | O => faultM
  | S n' =>
      temp <- prim n';;
      get_token;;;
      temp <- term_loop n' temp;;
      put_back;;;
      ret temp
  end
with term_loop (n : nat) (temp : Z) : M (bas K) Z :=
  match n with
  | O => faultM
  | S n' =>
      t <- gets b_token;;
      if tok0 t =? 42 then
        v <- prim n';;
        get_token;;;
        term_loop n' (i32 (temp * v))
      else if tok0 t =? 47 then
        divisor <- prim n';;
        (if divisor =? 0 then error (msgs 2) else ret tt);;;
        temp <- (if divisor =? 0 then faultM else ret (i32 (Z.quot temp divisor)));;
        get_token;;;
        term_loop n' temp
      else ret temp
  end
with expression (n : nat) : M (bas K) Z :=
  match n with
  | O => faultM
  | S n' =>
      temp <- term n';;
      get_token;;;
      temp <- expr_loop n' temp;;
      put_back;;;
      ret temp
  end
with expr_loop (n : nat) (temp : Z) : M (bas K) Z :=
  match n with
  | O => faultM
  | S n' =>
      t <- gets b_token;;
      if tok0 t =? 43 then v <- term n';; get_token;;; expr_loop n' (i32 (temp + v))
      else if tok0 t =? 45 then v <- term n';; get_token;;; expr_loop n' (i32 (temp - v))
      else ret temp
  end.

(** ** Statements *)

Definition line_number (m : mem) (i : Z) : Z := i32 (load32 m (PROG + 16 * i)).
Definition line_text (m : mem) (i : Z) : Z := load64 m (PROG + 16 * i + 8).
Fixpoint find_line_loop (n : nat) (m : mem) (line_num i : Z) : Z :=
  match n with
  | O => -1
  | S n' => if line_number m i =? line_num then i else find_line_loop n' m line_num (i + 1)
  end.
Definition find_line (line_num : Z) : M (bas K) Z := gets (λ s, find_line_loop (Z.to_nat (b_count s)) (b_mem s) line_num 0).

(** [op], the comparison of an IF; [None] for an unknown one. *)
Definition compare_op (op : list Z) (val1 val2 : Z) : option bool :=
  if decide (op = [61]) then Some (val1 =? val2)
  else if decide (op = [60]) then Some (val1 <? val2)
  else if decide (op = [62]) then Some (val2 <? val1)
  else if decide (op = [62; 61]) then Some (val2 <=? val1)
  else if decide (op = [60; 61]) then Some (val1 <=? val2)
  else None.
(** [val1 = expression(); get_token(); strcpy(op, token); val2 = expression()], with [char op[3]]. *)
Definition if_operands : M (bas K) (option bool) :=
  val1 <- expression fuel;;
  get_token;;;
  op <- gets b_token;;
  if (3 <=? length op)%nat then faultM
  else val2 <- expression fuel;; ret (compare_op op val1 val2).

(** The result says whether the process has ended. *)
Fixpoint exec_line (n : nat) (src : Z) : M (bas K) bool :=
  match n with
  | O => faultM
  | S n' =>
      modify (set_b_ptr src);;;
      get_token;;;
      ty <- gets b_type;;
      t <- gets b_token;;
      if ty =? VARIABLE then
        let var_name := tok0 t in
        get_token;;;
        t <- gets b_token;;
        (if negb (tok0 t =? 61) then error (msgs 3) else ret tt);;;
        result <- expression fuel;;
        var_set var_name result;;;
        ret false
      else
        (if negb (ty =? COMMAND) then error (msgs 4) else ret tt);;;
        let id := cmd_id t in
        if id =? 1 then
          get_token;;;
          ty <- gets b_type;;
          (if ty =? STRING then t <- gets b_token;; print t
           else put_back;;; v <- expression fuel;; print (_itoa v 10 false));;;
          print [10];;;
          ret false
        else if id =? 2 then
          get_token;;;
          ty <- gets b_type;;
          t <- gets b_token;;
          (if negb (ty =? VARIABLE) then error (msgs 5) else ret tt);;;
          print [63; 32];;;
          (if (0 <=? tok0 t - 65) && (tok0 t - 65 <? 26) then
             on_io (fflush STDOUT STDERR 0;;; scanf_number fuel false false STDIN 0 [VARS + 4 * (tok0 t - 65)]);;; ret tt
           else faultM);;;
          on_io (getchar STDIN);;;
          ret false
        else if id =? 3 then
          c <- if_operands;;
          match c with
          | None => error (msgs 6);;; ret false
          | Some false => ret false
          | Some true =>
              get_token;;;
              t <- gets b_token;;
              (if decide (t = s_THEN) then ret tt else error (msgs 7));;;
              p <- gets b_ptr;;
              exec_line n' p
          end
        else if id =? 6 then
          get_token;;;
          ty <- gets b_type;;
          t <- gets b_token;;
          (if negb (ty =? VARIABLE) then error (msgs 8) else ret tt);;;
          let v := tok0 t in
          get_token;;;
          t <- gets b_token;;
          (if negb (tok0 t =? 61) then error (msgs 9) else ret tt);;;
          x <- expression fuel;;
          var_set v x;;;
          ret false
        else ret (id =? 7)
  end.

Definition check_goto (src : Z) : M (bas K) Z :=
  old_ptr <- gets b_ptr;;
  modify (set_b_ptr src);;;
  get_token;;;
  t <- gets b_token;;
  (if decide (t = s_IF) then expression fuel;;; get_token;;; expression fuel;;; get_token;;; ret tt else ret tt);;;
  t <- gets b_token;;
  line <- (if decide (t = s_GOTO) then get_token;;; t <- gets b_token;; of_opt (atoi_token t) else ret (-1));;
  modify (set_b_ptr old_ptr);;;
  ret line.
Definition check_if_goto (src : Z) : M (bas K) Z :=
  old_ptr <- gets b_ptr;;
  modify (set_b_ptr src);;;
  get_token;;;
  t <- gets b_token;;
  line <- (if decide (t = s_IF) then
             c <- if_operands;;
             if decide (c = Some true) then
               get_token;;;
               t <- gets b_token;;
               if decide (t = s_THEN) then
                 get_token;;;
                 t <- gets b_token;;
                 if decide (t = s_GOTO) then get_token;;; t <- gets b_token;; of_opt (atoi_token t) else ret (-1)
               else ret (-1)
             else ret (-1)
           else ret (-1));;
  modify (set_b_ptr old_ptr);;;
  ret line.

(** [while (pc < line_count)]: whether the process has ended.  An index outside
    [program] faults; a run that never ends has no fuel that is enough. *)
Fixpoint run_loop (n : nat) (pc : Z) : M (bas K) bool :=
  match n with
  | O => faultM
  | S n' =>
      count <- gets b_count;;
      if negb (pc <? count) then ret false
      else if (pc <? 0) || (MAX_LINES <=? pc) then faultM
      else
        text <- gets (λ s, line_text (b_mem s) pc);;
        target <- check_goto text;;
        target <- (if target =? -1 then check_if_goto text else ret target);;
        over <- exec_line fuel text;;
        if over : bool then ret true
        else if negb (target =? -1) then
          new_pc <- find_line target;;
          (if new_pc =? -1 then error (msgs 10) else ret tt);;;
          run_loop n' new_pc
        else run_loop n' (pc + 1)
  end.
Definition run_program : M (bas K) bool := run_loop fuel 0.

(** ** The program store *)

Definition compare_lines (m : mem) (a b : Z) : Z := i32 (i32 (load32 m a) - i32 (load32 m b)).
(** The entry with this number, [line_count] when there is none. *)
Definition set_text (i v : Z) : M (bas K) unit := modify (λ s, set_b_mem (store64 (b_mem s) (PROG + 16 * i + 8) v) s).
Definition add_line (number text : Z) : M (bas K) unit :=
  i <- find_line number;;
  if negb (i =? -1) then
    old <- gets (λ s, line_text (b_mem s) i);;
    on_io (on_u (free old));;;
    d <- on_io (on_u (strdup fuel text));;
    set_text i d
  else
    count <- gets b_count;;
    if count <? MAX_LINES then
      modify (λ s, set_b_mem (store32 (b_mem s) (PROG + 16 * count) (u32 number)) s);;;
      d <- on_io (on_u (strdup fuel text));;
      set_text count d;;;
      modify (set_b_count (count + 1));;;
      m <- gets b_mem;;
      m <- of_opt (qsort 16 compare_lines fuel m PROG (count + 1));;
      modify (set_b_mem m)
    else print (msgs 11).

(** ** One round of the main loop *)

(** Up to the first newline. *)
Fixpoint take_line (l : list Z) : list Z :=
  match l with [] => [] | c :: l => if c =? 10 then [] else c :: take_line l end.

Definition list_line (i : Z) : M (bas K) unit :=
  m <- gets b_mem;;
  text <- of_opt (string_at fuel m (line_text m i));;
  print (_itoa (line_number m i) 10 false ++ [32] ++ text ++ [10]).
Definition clear_line (i : Z) : M (bas K) unit :=
  old <- gets (λ s, line_text (b_mem s) i);; on_io (on_u (free old)).
Definition lines : M (bas K) (list Z) := gets (λ s, seqZ 0 (b_count s)).

(** The line is in [input_buffer]; the result says whether the loop is left. *)
Definition command (cmd : list Z) : M (bas K) bool :=
  if decide (cmd = [82; 85; 78]) then run_program
  else if decide (cmd = [76; 73; 83; 84]) then l <- lines;; for_each list_line l;;; ret false
  else if decide (cmd = [67; 76; 69; 65; 82]) then
    l <- lines;; for_each clear_line l;;; modify (set_b_count 0);;; print (msgs 12);;; ret false
  else if decide (cmd = [69; 88; 73; 84] ∨ cmd = [81; 85; 73; 84]) then ret true
  else print (msgs 13);;; ret false.
Definition main_round (c0 : Z) : M (bas K) bool :=
  print [62; 32];;;
  on_io (fflush STDOUT STDERR STDOUT);;;
  r <- on_io (fgets STDIN STDOUT STDERR fuel c0 INPUT_BUFFER MAX_SRC_LEN STDIN);;
  if r =? 0 then ret true
  else
    m <- gets b_mem;;
    line <- of_opt (string_at fuel m INPUT_BUFFER);;
    (* input_buffer[strcspn(input_buffer, newline)] = 0 *)
    let len := length (take_line line) in
    modify (λ s, set_b_mem (upd (b_mem s) (INPUT_BUFFER + Z.of_nat len) 0) s);;;
    let line := take_line line in
    if (len =? 0)%nat then ret false
    else if isdigit (nth 0 line 0) then
      m <- gets b_mem;;
      line_num <- of_opt (atoi fuel m INPUT_BUFFER);;
      text <- of_opt (strchr fuel m INPUT_BUFFER 32);;
      (if text =? 0 then ret tt else add_line line_num (text + 1));;;
      ret false
    else command (map toupper line).
End Basic.

(** ** Tokens of a text *)

Definition blank (c : Z) : Prop := c = 32 ∨ c = 9.
Definition letters (l : list Z) : Prop := Forall (λ c, 0 < c < 256 ∧ isalpha c = true) l.
Definition upper (l : list Z) : list Z := map toupper l.
(** The delimiters that are a token of one character. *)
Definition single (c : Z) : Prop := c ∈ [59; 44; 43; 45; 42; 47; 40; 41; 61; 13; 10].

(** [next_token r sp t]: the text [r] goes on with the blanks [sp] and a token
    written as [t], or whose upper case is [t]. *)
Inductive next_token : list Z → list Z → list Z → Prop :=
| NT_end sp : Forall blank sp → next_token sp sp []
| NT_single sp c r : Forall blank sp → single c → next_token (sp ++ c :: r) sp [c]
| NT_compare sp c r : Forall blank sp → c = 60 ∨ c = 62 → hd 0 r ≠ 61 → next_token (sp ++ c :: r) sp [c]
| NT_compare_eq sp c r : Forall blank sp → c = 60 ∨ c = 62 → next_token (sp ++ c :: 61 :: r) sp [c; 61]
| NT_word sp w r : Forall blank sp → letters w → w ≠ [] → (length w < 64)%nat → isalpha (hd 0 r) = false →
    next_token (sp ++ w ++ r) sp (upper w).

Definition tok_type (t : list Z) : Z :=
  match t with [] => 0 | c :: _ => if isalpha c then (if 0 <? cmd_id t then COMMAND else VARIABLE) else DELIMITER end.

(** ** Expressions and their values

    The grammar of the language, with the value each text has when the
    variables are [val]; [term_rest v l w]: from the value [v] on, the
    operators of [l] lead to [w]. *)
Section Grammar.
Context (val : Z → Z).
Inductive prim_text : list Z → Z → Prop :=
| PT_num sp ds vs : Forall blank sp → digits 10 ds vs → Forall (λ c, isdigit c = true) ds → ds ≠ [] → (length ds < 64)%nat →
    num_from 10 0 vs < 2 ^ 63 → prim_text (sp ++ ds) (i32 (num_from 10 0 vs))
| PT_var sp w : Forall blank sp → letters w → w ≠ [] → (length w < 64)%nat → cmd_id (upper w) = 0 →
    prim_text (sp ++ w) (val (tok0 (upper w)))
| PT_par sp l sp' v : Forall blank sp → expr_text l v → Forall blank sp' → prim_text (sp ++ 40 :: l ++ sp' ++ [41]) v
| PT_neg sp l v : Forall blank sp → prim_text l v → prim_text (sp ++ 45 :: l) (i32 (- v))
with term_text : list Z → Z → Prop :=
| TT l1 v l2 w : prim_text l1 v → term_rest v l2 w → term_text (l1 ++ l2) w
with term_rest : Z → list Z → Z → Prop :=
| TR_nil v : term_rest v [] v
| TR_mul v sp l x l2 w : Forall blank sp → prim_text l x → term_rest (i32 (v * x)) l2 w → term_rest v (sp ++ 42 :: l ++ l2) w
| TR_div v sp l x l2 w : Forall blank sp → prim_text l x → x ≠ 0 → term_rest (i32 (Z.quot v x)) l2 w → term_rest v (sp ++ 47 :: l ++ l2) w
with expr_text : list Z → Z → Prop :=
| ET l1 v l2 w : term_text l1 v → expr_rest v l2 w → expr_text (l1 ++ l2) w
with expr_rest : Z → list Z → Z → Prop :=
| ER_nil v : expr_rest v [] v
| ER_add v sp l x l2 w : Forall blank sp → term_text l x → expr_rest (i32 (v + x)) l2 w → expr_rest v (sp ++ 43 :: l ++ l2) w
| ER_sub v sp l x l2 w : Forall blank sp → term_text l x → expr_rest (i32 (v - x)) l2 w → expr_rest v (sp ++ 45 :: l ++ l2) w.
Scheme prim_text_mut := Minimality for prim_text Sort Prop
  with term_text_mut := Minimality for term_text Sort Prop
  with term_rest_mut := Minimality for term_rest Sort Prop
  with expr_text_mut := Minimality for expr_text Sort Prop
  with expr_rest_mut := Minimality for expr_rest Sort Prop.
Combined Scheme grammar_ind from prim_text_mut, term_text_mut, term_rest_mut, expr_text_mut, expr_rest_mut.
End Grammar.

Section BasicProofs.
Context {K : Type} `{!Descriptors K} (STDOUT STDERR : Z) (fuel : nat) (VARS : Z) (msgs : Z → list Z).
Implicit Types s : bas K.
Local Set Default Proof Using "All".

(** The state after a token. *)
Definition at_tok s (p : Z) (t : list Z) (ty : Z) : bas K := mk_bas (b_io s) p t ty (b_count s).

Lemma skip_blanks_run sp : ∀ n s r, Forall blank sp → (length sp < n)%nat → cstr (b_mem s) (b_ptr s) (sp ++ r) → ¬ blank (hd 0 r) →
  skip_blanks n s = Done (tt, set_b_ptr (b_ptr s + Z.of_nat (length sp)) s).
Proof.
  induction sp as [|c sp IH]; intros n s r Hsp Hn Hs Hr; (destruct n as [|n]; [cbn in Hn; lia|]); cbn [skip_blanks]; unfold bind at 1, peek.
  - assert (b_mem s (b_ptr s) = hd 0 r) as -> by (destruct r; apply Hs). unfold blank in Hr.
    rewrite (proj2 (Z.eqb_neq _ 32)), (proj2 (Z.eqb_neq _ 9)) by tauto. cbn [orb]. unfold ret. do 2 f_equal. destruct s; unfold set_b_ptr; cbn. f_equal. lia.
  - apply Forall_cons in Hsp as [Hc Hsp]. destruct Hs as (_ & Hc1 & Hs). rewrite Hc1.
    assert ((c =? 32) || (c =? 9) = true) as -> by (destruct Hc as [-> | ->]; done). unfold advance, bind at 1, modify.
    rewrite (IH n (set_b_ptr (b_ptr s + 1) s) r); [|done|cbn in Hn; lia|exact Hs|done]. unfold set_b_ptr. cbn [b_ptr b_io b_token b_type b_count length]. do 3 f_equal. lia.
Qed.
Lemma take_while_run (p : Z → bool) f l : ∀ n t s r, Forall (λ c, p c = true) l → (length l < n)%nat → cstr (b_mem s) (b_ptr s) (l ++ r) →
  p (hd 0 r) = false → (length t + length l <= 64)%nat →
  take_while n p f t s = Done (t ++ map f l, set_b_ptr (b_ptr s + Z.of_nat (length l)) s).
Proof.
  induction l as [|c l IH]; intros n t s r Hl Hn Hs Hr Ht; (destruct n as [|n]; [cbn in Hn; lia|]); cbn [take_while]; unfold bind at 1, peek.
  - assert (b_mem s (b_ptr s) = hd 0 r) as -> by (destruct r; apply Hs). rewrite Hr. cbn [map]. rewrite app_nil_r. unfold ret. do 2 f_equal. destruct s; unfold set_b_ptr; cbn. f_equal. lia.
  - apply Forall_cons in Hl as [Hc Hl]. destruct Hs as (_ & Hc1 & Hs). rewrite Hc1, Hc. unfold put_tok, MAX_TOKEN_LEN.
    cbn [length] in *. rewrite (proj2 (Z.ltb_lt _ _)) by lia. unfold bind at 1, ret at 1. unfold advance, bind at 1, modify.
    rewrite (IH n (t ++ [f c]) (set_b_ptr (b_ptr s + 1) s) r); [|done|lia|exact Hs|done|rewrite length_app; cbn [length]; lia].
    rewrite <- app_assoc. unfold set_b_ptr. cbn [b_ptr b_io b_token b_type b_count map app]. do 3 f_equal. lia.
Qed.
Lemma get_token_at s sp r c t ty p : Forall blank sp → cstr (b_mem s) (b_ptr s) (sp ++ c :: r) → ¬ blank c → (length sp < fuel)%nat →
  token_of fuel c (at_tok s (b_ptr s + Z.of_nat (length sp)) (b_token s) 0) = Done (t, at_tok s p (b_token s) ty) ∨
  token_of fuel c (at_tok s (b_ptr s + Z.of_nat (length sp)) (b_token s) 0) = Done (t, at_tok s p t ty) →
  (length t < 64)%nat → get_token fuel s = Done (ty, at_tok s p t ty).
Proof.
  intros Hsp Hs Hc Hf Htok Ht. unfold get_token, bind at 1, modify at 1.
  mstep (skip_blanks_run sp fuel (set_b_type 0 s) (c :: r) Hsp Hf Hs Hc). unfold bind at 1, peek.
  apply cstr_app in Hs as [_ Hs]. destruct Hs as (Hcr & Hcm & _). change (b_mem (set_b_ptr _ _)) with (b_mem s). change (b_ptr (set_b_ptr ?x _)) with x.
  change (b_ptr (set_b_type 0 s)) with (b_ptr s). rewrite Hcm, (proj2 (Z.eqb_neq c 0)) by lia.
  change (set_b_ptr (b_ptr s + Z.of_nat (length sp)) (set_b_type 0 s)) with (at_tok s (b_ptr s + Z.of_nat (length sp)) (b_token s) 0).
  destruct Htok as [Htok|Htok]; mstep Htok; unfold end_tok, MAX_TOKEN_LEN; rewrite (proj2 (Z.ltb_lt _ _)) by lia; done.
Qed.
Lemma single_delim c : single c → is_delim c = true ∧ ¬ blank c ∧ c ≠ 60 ∧ c ≠ 62 ∧ 0 < c < 256 ∧ isalpha c = false.
Proof. unfold single, blank. rewrite !elem_of_cons. intros [->|[->|[->|[->|[->|[->|[->|[->|[->|[->|[->|?%elem_of_nil]]]]]]]]]]]; [..|done]; (split; [reflexivity|split_and!; try lia; reflexivity]). Qed.
Lemma token_single s c : single c → token_of fuel c s = Done ([c], set_b_ptr (b_ptr s + 1) (set_b_type DELIMITER s)).
Proof.
  intros Hc. destruct (single_delim c Hc) as (Hd & _ & H1 & H2 & _ & _). unfold token_of. rewrite Hd.
  unfold bind at 1, modify at 1. unfold put_tok, MAX_TOKEN_LEN. cbn [length]. change (Z.of_nat 0 <? 64) with true. unfold bind at 1, ret at 1.
  unfold advance, bind at 1, modify at 1. rewrite (proj2 (Z.eqb_neq c 60)), (proj2 (Z.eqb_neq c 62)) by done. done.
Qed.
Lemma token_compare s c d : c = 60 ∨ c = 62 → b_mem s (b_ptr s + 1) = d →
  token_of fuel c s = Done (if d =? 61 then [c; 61] else [c], set_b_ptr (b_ptr s + (if d =? 61 then 2 else 1)) (set_b_type DELIMITER s)).
Proof.
  intros Hc Hd. unfold token_of. assert (is_delim c = true) as -> by (destruct Hc as [-> | ->]; done).
  unfold bind at 1, modify at 1. unfold put_tok at 1, MAX_TOKEN_LEN. cbn [length]. change (Z.of_nat 0 <? 64) with true. unfold bind at 1, ret at 1.
  unfold advance at 1, bind at 1, modify at 1. assert ((c =? 60) || (c =? 62) = true) as -> by (destruct Hc as [-> | ->]; done).
  unfold bind at 1, peek. change (b_mem (set_b_ptr _ _)) with (b_mem s). cbn [b_ptr set_b_ptr set_b_type]. rewrite Hd.
  destruct (Z.eqb_spec d 61) as [->|Hne]; [|done]. unfold put_tok, MAX_TOKEN_LEN. cbn [length app]. change (Z.of_nat 1 <? 64) with true.
  unfold bind, ret, advance, modify, set_b_ptr. cbn. do 3 f_equal. lia.
Qed.
Lemma alpha_class c : 0 < c < 256 → isalpha c = true → is_delim c = false ∧ isdigit c = false ∧ c ≠ 34 ∧ ¬ blank c ∧ isalpha (toupper c) = true ∧ 65 <= toupper c <= 90.
Proof.
  intros Hc Ha. rewrite (isalpha_range c) in Ha by lia. unfold blank.
  assert (c ∈ seqZ 65 26 ++ seqZ 97 26) as Hin.
  { rewrite elem_of_app, !elem_of_seqZ. unfold within in Ha. apply orb_true_iff in Ha as [[?%Z.leb_le ?%Z.leb_le]%andb_true_iff|[?%Z.leb_le ?%Z.leb_le]%andb_true_iff]; lia. }
  assert (Forall (λ c, is_delim c = false ∧ isdigit c = false ∧ c ≠ 34 ∧ ¬ (c = 32 ∨ c = 9) ∧ isalpha (toupper c) = true ∧ 65 <= toupper c <= 90) (seqZ 65 26 ++ seqZ 97 26)) as H.
  { apply (bool_decide_eq_true_1 _). by vm_compute. }
  by apply (proj1 (Forall_forall _ _) H).
Qed.
Lemma digit_class c : 0 < c < 256 → isdigit c = true → is_delim c = false ∧ ¬ blank c ∧ isalpha c = false.
Proof.
  intros Hc Ha. rewrite (isdigit_range c) in Ha by lia. unfold within in Ha. apply andb_true_iff in Ha as [?%Z.leb_le ?%Z.leb_le]. unfold blank.
  assert (Forall (λ c, is_delim c = false ∧ ¬ (c = 32 ∨ c = 9) ∧ isalpha c = false) (seqZ 48 10)) as H'.
  { apply (bool_decide_eq_true_1 _). by vm_compute. }
  apply (proj1 (Forall_forall _ _) H'). apply elem_of_seqZ. lia.
Qed.
Lemma token_word s w r : letters w → w ≠ [] → (length w < 64)%nat → cstr (b_mem s) (b_ptr s) (w ++ r) → isalpha (hd 0 r) = false → (length w < fuel)%nat →
  token_of fuel (hd 0 w) s = Done (upper w, mk_bas (b_io s) (b_ptr s + Z.of_nat (length w)) (upper w) (if 0 <? cmd_id (upper w) then COMMAND else VARIABLE) (b_count s)).
Proof.
  intros Hw Hne Hl Hs Hr Hf. destruct w as [|c w]; [done|]. cbn [hd]. pose proof Hw as [[Hc Ha] _]%Forall_cons.
  destruct (alpha_class c Hc Ha) as (H1 & H2 & H3 & _). unfold token_of. rewrite H1, H2, (proj2 (Z.eqb_neq c 34)), Ha by done.
  mstep (take_while_run isalpha toupper (c :: w) fuel [] s r ltac:(eapply Forall_impl; [exact Hw|by intros ? [_ ?]]) Hf Hs Hr ltac:(cbn [length] in *; lia)).
  unfold end_tok, MAX_TOKEN_LEN. cbn [app]. fold (upper (c :: w)). unfold upper at 1. rewrite length_map, (proj2 (Z.ltb_lt _ _)) by lia. done.
Qed.
Lemma cstr_hd (m : mem) (p : Z) (l r : list Z) : cstr m (p + Z.of_nat (length l)) r → m (p + Z.of_nat (length l)) = hd 0 r.
Proof. destruct r; intros H; apply H. Qed.

(** The token that [next_token] announces. *)
Lemma get_token_next s r sp t : next_token r sp t → cstr (b_mem s) (b_ptr s) r → (length r < fuel)%nat →
  get_token fuel s = Done (tok_type t, at_tok s (b_ptr s + Z.of_nat (length sp) + Z.of_nat (length t)) t (tok_type t)).
Proof.
  intros Hn Hs Hf. destruct Hn as [sp Hsp|sp c r Hsp Hc|sp c r Hsp Hc Hd|sp c r Hsp Hc|sp w r Hsp Hw Hwne Hwl Hr]; rewrite ?length_app in Hf; cbn [length] in *.
  - unfold get_token, bind at 1, modify at 1. pose proof Hs as Hs'. rewrite <- (app_nil_r sp) in Hs'.
    mstep (skip_blanks_run sp fuel (set_b_type 0 s) [] Hsp Hf Hs' ltac:(unfold blank; cbn; lia)). unfold bind at 1, peek.
    apply cstr_app in Hs' as [_ Hs']. change (b_mem (set_b_ptr _ _)) with (b_mem s). cbn [b_ptr set_b_ptr set_b_type]. rewrite Hs'. cbn [Z.eqb].
    unfold bind, modify, ret, at_tok, set_b_token, set_b_ptr, set_b_type. cbn. do 3 f_equal. lia.
  - destruct (single_delim c Hc) as (_ & Hb & _ & _ & _ & Ha). assert (tok_type [c] = DELIMITER) as -> by (cbn [tok_type]; by rewrite Ha). apply (get_token_at s sp r c); try done; [lia| |cbn; lia].
    left. rewrite (token_single _ c Hc). unfold at_tok, set_b_ptr, set_b_type. cbn. do 3 f_equal.
  - assert (∀ l, tok_type (c :: l) = DELIMITER) as Hty by (intros; destruct Hc as [-> | ->]; done). rewrite Hty. apply cstr_app in Hs as Hs2. destruct Hs2 as [_ (_ & _ & Hs2)].
    apply (get_token_at s sp r c); try done; [unfold blank; lia|lia| |cbn; lia]. left.
    rewrite (token_compare _ c (hd 0 r) Hc). 2: { cbn [b_ptr at_tok]. destruct r; apply Hs2. }
    rewrite (proj2 (Z.eqb_neq _ 61)) by done. done.
  - assert (∀ l, tok_type (c :: l) = DELIMITER) as Hty by (intros; destruct Hc as [-> | ->]; done). rewrite Hty. apply cstr_app in Hs as Hs2. destruct Hs2 as [_ (_ & _ & _ & Hs2 & _)].
    apply (get_token_at s sp (61 :: r) c); try done; [unfold blank; lia|lia| |cbn; lia]. left.
    rewrite (token_compare (at_tok s (b_ptr s + Z.of_nat (length sp)) (b_token s) 0) c 61 Hc Hs2). done.
  - destruct w as [|c w]; [done|]. pose proof Hw as [[Hc Ha] _]%Forall_cons. destruct (alpha_class c Hc Ha) as (_ & _ & _ & Hb & _).
    pose proof (alpha_class c Hc Ha) as (_ & _ & _ & _ & Hu & _). assert (tok_type (upper (c :: w)) = if 0 <? cmd_id (upper (c :: w)) then COMMAND else VARIABLE) as -> by (unfold upper at 1; cbn [tok_type map]; by rewrite Hu).
    assert (length (upper (c :: w)) = length (c :: w)) as -> by apply length_map. apply (get_token_at s sp (w ++ r) c); try done; [cbn [length] in *; lia| |unfold upper; rewrite length_map; lia]. right.
    apply cstr_app in Hs as [_ Hs]. change c with (hd 0 (c :: w)) at 1.
    rewrite (token_word (at_tok s (b_ptr s + Z.of_nat (length sp)) (b_token s) 0) (c :: w) r); try done. cbn [length] in *; lia.
Qed.
Lemma next_token_drop r sp t : next_token r sp t → ∃ r', r = sp ++ r' ∧ next_token r' [] t.
Proof.
  intros H. destruct H as [sp Hsp|sp c r Hsp Hc|sp c r Hsp Hc Hd|sp c r Hsp Hc|sp w r Hsp Hw Hwne Hwl Hr]; [|eexists; split; [done|]..].
  - exists []. rewrite app_nil_r. split; [done|]. by apply (NT_end []).
  - by apply (NT_single []).
  - by apply (NT_compare []).
  - by apply (NT_compare_eq []).
  - by apply (NT_word []).
Qed.
(** A token read again from where its blanks end. *)
Lemma get_token_again s r sp t t0 ty0 : next_token r sp t → cstr (b_mem s) (b_ptr s) r → (length r < fuel)%nat →
  get_token fuel (at_tok s (b_ptr s + Z.of_nat (length sp)) t0 ty0) = get_token fuel s.
Proof.
  intros Hn Hs Hf. rewrite (get_token_next s r sp t Hn Hs Hf). destruct (next_token_drop r sp t Hn) as (r' & -> & Hn').
  apply cstr_app in Hs as [_ Hs]. rewrite length_app in Hf.
  rewrite (get_token_next (at_tok s (b_ptr s + Z.of_nat (length sp)) t0 ty0) r' [] t Hn' Hs ltac:(lia)). unfold at_tok. cbn [b_ptr b_io b_count length]. by rewrite Z.add_0_r.
Qed.
Lemma put_back_at s p t ty : put_back (at_tok s (p + Z.of_nat (length t)) t ty) = Done (tt, at_tok s p t ty).
Proof. unfold put_back, modify, at_tok, set_b_ptr. cbn. do 3 f_equal. lia. Qed.
Lemma get_token_num s sp ds vs r : Forall blank sp → digits 10 ds vs → Forall (λ c, isdigit c = true) ds → ds ≠ [] → (length ds < 64)%nat →
  isdigit (hd 0 r) = false → cstr (b_mem s) (b_ptr s) (sp ++ ds ++ r) → (length (sp ++ ds ++ r) < fuel)%nat →
  get_token fuel s = Done (NUMBER, at_tok s (b_ptr s + Z.of_nat (length sp) + Z.of_nat (length ds)) ds NUMBER).
Proof.
  intros Hsp Hd Hds Hne Hl Hr Hs Hf. rewrite !length_app in Hf. destruct ds as [|c ds]; [done|].
  pose proof Hs as [_ (Hc & Hs2)]%cstr_app. pose proof Hds as [Hcd _]%Forall_cons. destruct (digit_class c Hc Hcd) as (H1 & H2 & _).
  apply (get_token_at s sp (ds ++ r) c); try done; [cbn [length] in *; lia|]. left. unfold token_of. rewrite H1, Hcd. unfold bind at 1, modify at 1.
  rewrite (take_while_run isdigit id (c :: ds) fuel [] _ r Hds); [|cbn [length] in *; lia|by apply cstr_app in Hs as [_ Hs]|done|cbn [length] in *; lia].
  rewrite map_id. done.
Qed.
Lemma atoi_digits ds vs : digits 10 ds vs → ds ≠ [] → (length ds < 64)%nat → num_from 10 0 vs < 2 ^ 63 → Forall (λ c, 0 < c < 256) ds →
  atoi_token ds = Some (i32 (num_from 10 0 vs)).
Proof.
  intros Hd Hne Hl Hn Hb. unfold atoi_token. rewrite (atoi_value 66 _ 1 [] [] ds vs []); rewrite ?app_nil_r; cbn [app]; try done; try (by left); [|lia].
  apply cstr_bytes_at; [done|apply bytes_at_put|]. rewrite put_bytes_out by lia. done.
Qed.
Notation prim_of := (prim STDOUT STDERR fuel VARS msgs).
Notation term_of := (term STDOUT STDERR fuel VARS msgs).
Notation term_loop_of := (term_loop STDOUT STDERR fuel VARS msgs).
Notation expression_of := (expression STDOUT STDERR fuel VARS msgs).
Notation expr_loop_of := (expr_loop STDOUT STDERR fuel VARS msgs).

(** The variables in the memory [m]. *)
Definition var_of (m : mem) (c : Z) : Z := i32 (load32 m (VARS + 4 * (c - 65))).
(** What follows is neither a digit nor a letter. *)
Definition stop (r : list Z) : Prop := isdigit (hd 0 r) = false ∧ isalpha (hd 0 r) = false.
(** The text [l], and [r] after it, lies where the interpreter reads. *)
Definition at_text (m : mem) s (l r : list Z) : Prop :=
  b_mem s = m ∧ cstr m (b_ptr s) (l ++ r) ∧ stop r ∧ (length (l ++ r) < fuel)%nat.
(** [l] is read, and after it blanks [sp] before a token [t] left for later. *)
Definition after s (l sp t : list Z) : bas K := at_tok s (b_ptr s + Z.of_nat (length l) + Z.of_nat (length sp)) t (tok_type t).

Lemma stop_blank sp c r : Forall blank sp → isdigit c = false → isalpha c = false → stop (sp ++ c :: r).
Proof.
  intros Hsp H1 H2. destruct sp as [|b sp]; [done|]. apply Forall_cons in Hsp as [Hb _]. unfold stop. cbn [hd app].
  by destruct Hb as [-> | ->].
Qed.
Lemma term_rest_stop val v l w r : term_rest val v l w → stop r → stop (l ++ r).
Proof. intros H Hr. destruct H; [done| |]; rewrite <- app_assoc; by apply stop_blank. Qed.
Lemma expr_rest_stop val v l w r : expr_rest val v l w → stop r → stop (l ++ r).
Proof. intros H Hr. destruct H; [done| |]; rewrite <- app_assoc; by apply stop_blank. Qed.
Lemma expr_rest_next val v l w r sp t : expr_rest val v l w → next_token r sp t → tok0 t ∉ [42; 47] →
  ∃ sp' t', next_token (l ++ r) sp' t' ∧ tok0 t' ∉ [42; 47].
Proof.
  intros H Hn Ht. destruct H as [v|v sp1 l x l2 w Hsp|v sp1 l x l2 w Hsp]; [by exists sp, t| |]; rewrite <- app_assoc; cbn [app].
  - exists sp1, [43]. split; [apply NT_single; [done|]|]; unfold single; set_solver.
  - exists sp1, [45]. split; [apply NT_single; [done|]|]; unfold single; set_solver.
Qed.
Lemma at_text_head m s l1 l2 r : at_text m s (l1 ++ l2) r → stop (l2 ++ r) → at_text m s l1 (l2 ++ r).
Proof. intros (Hm & Hc & _ & Hf) Hr. rewrite <- app_assoc in Hc, Hf. done. Qed.
Lemma at_text_skip m s l1 l2 r p t ty : at_text m s (l1 ++ l2) r → p = b_ptr s + Z.of_nat (length l1) → at_text m (at_tok s p t ty) l2 r.
Proof.
  intros (Hm & Hc & Hr & Hf) ->. rewrite <- app_assoc in Hc, Hf. rewrite length_app in Hf. split_and!; [done| |done|lia]. by apply cstr_app in Hc as [_ Hc].
Qed.
(** Lengths of texts. *)
Ltac len := repeat first [rewrite !length_app in * | progress cbn [length] in * ]; try lia.
Definition prim_runs m (l : list Z) (v : Z) : Prop := ∀ n s r, at_text m s l r → (3 * length l + 1 <= n)%nat →
  ∃ t ty, prim_of n s = Done (v, at_tok s (b_ptr s + Z.of_nat (length l)) t ty).
Definition term_runs m (l : list Z) (v : Z) : Prop := ∀ n s r sp t, at_text m s l r → next_token r sp t → tok0 t ∉ [42; 47] → (3 * length l + 2 <= n)%nat →
  term_of n s = Done (v, after s l sp t).
Definition term_rest_runs m (v : Z) (l : list Z) (w : Z) : Prop := ∀ n s r sp t, at_text m s l r → next_token r sp t → tok0 t ∉ [42; 47] → (3 * length l + 1 <= n)%nat →
  (get_token fuel;;; temp <- term_loop_of n v;; put_back;;; ret temp) s = Done (w, after s l sp t).
Definition expr_runs m (l : list Z) (v : Z) : Prop := ∀ n s r sp t, at_text m s l r → next_token r sp t → tok0 t ∉ [42; 47; 43; 45] → (3 * length l + 3 <= n)%nat →
  expression_of n s = Done (v, after s l sp t).
Definition expr_rest_runs m (v : Z) (l : list Z) (w : Z) : Prop := ∀ n s r sp t, at_text m s l r → next_token r sp t → tok0 t ∉ [42; 47; 43; 45] → (3 * length l + 2 <= n)%nat →
  (get_token fuel;;; temp <- expr_loop_of n v;; put_back;;; ret temp) s = Done (w, after s l sp t).

Lemma prim_S n s ty t p : get_token fuel s = Done (ty, at_tok s p t ty) →
  prim_of (S n) s =
    (if ty =? NUMBER then of_opt (atoi_token t)
     else if ty =? VARIABLE then var_get VARS (tok0 t)
     else if tok0 t =? 40 then
       temp <- expression_of n;;
       get_token fuel;;;
       t <- gets b_token;;
       (if negb (tok0 t =? 41) then error STDOUT STDERR (msgs 0) else ret tt);;;
       ret temp
     else if tok0 t =? 45 then v <- prim_of n;; ret (i32 (- v))
     else error STDOUT STDERR (msgs 1);;; ret 0) (at_tok s p t ty).
Proof. intros H. cbn [prim]. unfold bind at 1. rewrite H. reflexivity. Qed.
Lemma prim_num_runs m sp ds vs : Forall blank sp → digits 10 ds vs → Forall (λ c, isdigit c = true) ds → ds ≠ [] → (length ds < 64)%nat →
  num_from 10 0 vs < 2 ^ 63 → prim_runs m (sp ++ ds) (i32 (num_from 10 0 vs)).
Proof.
  intros Hsp Hd Hds Hne Hl Hv [|n] s r (<- & Hc & [Hr _] & Hf) Hn; [lia|]. rewrite <- app_assoc in Hc, Hf. exists ds, NUMBER.
  rewrite (prim_S n s _ _ _ (get_token_num s sp ds vs r Hsp Hd Hds Hne Hl Hr Hc Hf)). change (NUMBER =? NUMBER) with true. cbv iota.
  rewrite (atoi_digits ds vs); [|done..|]. 2: { apply cstr_bytes in Hc. by apply Forall_app in Hc as [_ [Hc _]%Forall_app]. }
  unfold of_opt, ret. rewrite length_app. do 3 f_equal. lia.
Qed.
Lemma prim_var_runs m sp w : Forall blank sp → letters w → w ≠ [] → (length w < 64)%nat → cmd_id (upper w) = 0 →
  prim_runs m (sp ++ w) (var_of m (tok0 (upper w))).
Proof.
  intros Hsp Hw Hne Hl Hid [|n] s r (<- & Hc & [_ Hr] & Hf) Hn; [lia|]. rewrite <- app_assoc in Hc, Hf. exists (upper w), VARIABLE.
  pose proof (get_token_next s _ sp (upper w) (NT_word sp w r Hsp Hw Hne Hl Hr) Hc Hf) as Ht.
  destruct w as [|c w]; [done|]. pose proof Hw as [[Hcb Hca] _]%Forall_cons. destruct (alpha_class c Hcb Hca) as (_ & _ & _ & _ & Hu & Hb).
  assert (tok_type (upper (c :: w)) = VARIABLE) as Hty. { unfold tok_type. cbn [upper map]. rewrite Hu. fold (upper w). change (toupper c :: upper w) with (upper (c :: w)). by rewrite Hid. }
  rewrite Hty in Ht. rewrite (prim_S n s _ _ _ Ht). change (VARIABLE =? NUMBER) with false. change (VARIABLE =? VARIABLE) with true. cbv iota. unfold var_get. change (tok0 (upper (c :: w))) with (toupper c).
  rewrite (proj2 (Z.leb_le 0 _)), (proj2 (Z.ltb_lt _ 26)) by lia. cbn [andb at_tok b_mem b_io]. change (b_mem (at_tok _ _ _ _)) with (b_mem s).
  unfold var_of, upper. rewrite length_app, length_map. do 3 f_equal. lia.
Qed.
Lemma prim_par_runs m sp l sp' v : Forall blank sp → expr_runs m l v → Forall blank sp' → prim_runs m (sp ++ 40 :: l ++ sp' ++ [41]) v.
Proof.
  intros Hsp IH Hsp' [|n] s r (Hm & Hc & [_ Hr] & Hf) Hn; [lia|].
  rewrite <- app_assoc in Hc, Hf. cbn [app] in Hc, Hf. rewrite <- !app_assoc in Hc, Hf. cbn [app] in Hc, Hf. rewrite <- Hm in Hc.
  pose proof (get_token_next s _ sp [40] (NT_single sp 40 _ Hsp ltac:(unfold single; set_solver)) Hc Hf) as Ht. rewrite (prim_S n s _ _ _ Ht).
  change (tok_type [40]) with DELIMITER. change (DELIMITER =? NUMBER) with false. change (DELIMITER =? VARIABLE) with false. change (tok0 [40] =? 40) with true. cbv iota. change (Z.of_nat (length [40])) with 1.
  apply cstr_app in Hc as [_ (_ & _ & Hc)].
  set (s1 := at_tok s _ [40] DELIMITER) in *. assert (b_ptr s1 = b_ptr s + Z.of_nat (length sp) + 1) as Hp1 by done.
  pose proof (NT_single sp' 41 r Hsp' ltac:(unfold single; set_solver)) as Hn1.
  assert (at_text m s1 l (sp' ++ 41 :: r)) as Hat.
  { split_and!; [done|rewrite <- Hm; exact Hc|by apply stop_blank|len]. }
  unfold bind at 1. rewrite (IH n s1 _ sp' [41] Hat Hn1 ltac:(set_solver)). 2: len.
  pose proof Hat as (_ & Hc1 & _ & Hf1). apply cstr_app in Hc1 as [_ Hc1].
  assert (get_token fuel (after s1 l sp' [41]) = Done (DELIMITER, at_tok s (b_ptr s1 + Z.of_nat (length l) + Z.of_nat (length sp') + 1) [41] DELIMITER)) as Ht2.
  { apply cstr_app in Hc1 as [_ Hc1]. rewrite <- Hm in Hc1. rewrite (get_token_next (after s1 l sp' [41]) (41 :: r) [] [41] (NT_single [] 41 r ltac:(done) ltac:(unfold single; set_solver)) Hc1).
    - unfold after, at_tok. cbn [b_ptr b_io b_count length]. change (tok_type [41]) with DELIMITER. do 3 f_equal. lia.
    - len. }
  mstep Ht2. exists [41], DELIMITER. cbn -[Z.of_nat]. unfold ret. do 3 f_equal. len.
Qed.
Lemma prim_neg_runs m sp l v : Forall blank sp → prim_runs m l v → prim_runs m (sp ++ 45 :: l) (i32 (- v)).
Proof.
  intros Hsp IH [|n] s r (Hm & Hc & Hr & Hf) Hn; [lia|]. rewrite <- app_assoc in Hc, Hf. cbn [app] in Hc, Hf. rewrite <- Hm in Hc.
  pose proof (get_token_next s _ sp [45] (NT_single sp 45 _ Hsp ltac:(unfold single; set_solver)) Hc Hf) as Ht. rewrite (prim_S n s _ _ _ Ht).
  change (tok_type [45]) with DELIMITER. change (DELIMITER =? NUMBER) with false. change (DELIMITER =? VARIABLE) with false. change (tok0 [45] =? 40) with false. change (tok0 [45] =? 45) with true. cbv iota. change (Z.of_nat (length [45])) with 1.
  apply cstr_app in Hc as [_ (_ & _ & Hc)]. rewrite !length_app in Hf, Hn. cbn [length] in Hf, Hn. rewrite length_app in Hf.
  destruct (IH n (at_tok s (b_ptr s + Z.of_nat (length sp) + 1) [45] DELIMITER) r) as (t & ty & Hrun).
  { split_and!; [done|rewrite <- Hm; exact Hc|exact Hr|len]. }
  { len. }
  exists t, ty. unfold bind at 1. rewrite Hrun. unfold ret, at_tok. cbn [b_ptr b_io b_count]. do 3 f_equal. len.
Qed.
Lemma after_skip s l1 l2 sp t t0 ty0 p : p = b_ptr s + Z.of_nat (length l1) → after (at_tok s p t0 ty0) l2 sp t = after s (l1 ++ l2) sp t.
Proof. intros ->. unfold after, at_tok. cbn [b_io b_ptr b_count]. f_equal. len. Qed.
Lemma term_S n : term_of (S n) = (temp <- prim_of n;; get_token fuel;;; temp <- term_loop_of n temp;; put_back;;; ret temp).
Proof. reflexivity. Qed.
Lemma expression_S n : expression_of (S n) = (temp <- term_of n;; get_token fuel;;; temp <- expr_loop_of n temp;; put_back;;; ret temp).
Proof. reflexivity. Qed.
(** After the operator [c], the text goes on with [l]. *)
Lemma op_token m s sp c l r : at_text m s (sp ++ c :: l) r → Forall blank sp → single c → isalpha c = false →
  get_token fuel s = Done (DELIMITER, at_tok s (b_ptr s + Z.of_nat (length (sp ++ [c]))) [c] DELIMITER) ∧
  at_text m (at_tok s (b_ptr s + Z.of_nat (length (sp ++ [c]))) [c] DELIMITER) l r.
Proof.
  intros Hat Hsp Hc Ha. pose proof Hat as (<- & Hs & Hr & Hf). rewrite <- app_assoc in Hs, Hf. split.
  - rewrite (get_token_next s _ sp [c] (NT_single sp c _ Hsp Hc) Hs Hf). cbn [tok_type]. rewrite Ha. do 3 f_equal. len.
  - assert (sp ++ c :: l = (sp ++ [c]) ++ l) as He by (by rewrite <- app_assoc). rewrite He in Hat. by apply (at_text_skip _ _ (sp ++ [c])).
Qed.
Lemma rest_over s r sp t : next_token r sp t → cstr (b_mem s) (b_ptr s) r → (length r < fuel)%nat →
  ∀ A (k : Z → M (bas K) A), bind (get_token fuel) k s = k (tok_type t) (at_tok s (b_ptr s + Z.of_nat (length sp) + Z.of_nat (length t)) t (tok_type t)).
Proof. intros Hn Hs Hf A k. unfold bind. by rewrite (get_token_next s r sp t Hn Hs Hf). Qed.

Lemma term_rest_nil_runs m v : term_rest_runs m v [] v.
Proof.
  intros [|n] s r sp t (<- & Hs & Hr & Hf) Hn Ht Hle; [cbn in Hle; lia|]. rewrite (rest_over s r sp t Hn Hs Hf). cbn [term_loop].
  rewrite bind_bind. unfold bind at 1, gets at 1. cbn [b_token at_tok]. rewrite (proj2 (Z.eqb_neq _ 42)), (proj2 (Z.eqb_neq _ 47)) by set_solver.
  unfold bind at 1, ret at 1. mstep (put_back_at s (b_ptr s + Z.of_nat (length sp)) t (tok_type t)).
  unfold ret, after. cbn [length]. do 4 f_equal. lia.
Qed.
Lemma term_op_runs val m v w sp c l x l2 u : Forall blank sp → (c = 42 ∧ u = i32 (v * x) ∨ c = 47 ∧ x ≠ 0 ∧ u = i32 (Z.quot v x)) →
  prim_runs m l x → term_rest val u l2 w → term_rest_runs m u l2 w → term_rest_runs m v (sp ++ c :: l ++ l2) w.
Proof.
  intros Hsp Hc Hp Hrest IH [|n] s r tsp t Hat Hn Ht Hle; [cbn in Hle; lia|].
  destruct (op_token m s sp c (l ++ l2) r Hat Hsp) as [Htok Hat1]; [unfold single; destruct Hc as [[-> _]|[-> _]]; set_solver|by destruct Hc as [[-> _]|[-> _]]|].
  mstep Htok. clear Htok. set (s1 := at_tok s _ [c] DELIMITER) in *.
  assert (stop (l2 ++ r)) as Hst by (eapply term_rest_stop; [done|apply Hat]).
  destruct (Hp n s1 (l2 ++ r) (at_text_head _ _ _ _ _ Hat1 Hst)) as (t1 & ty1 & Hrun); [len|].
  pose proof (at_text_skip _ _ _ _ _ _ t1 ty1 Hat1 eq_refl) as Hat2.
  specialize (IH n _ r tsp t Hat2 Hn Ht ltac:(len)).
  rewrite (after_skip s1 l l2 tsp t t1 ty1 _ eq_refl) in IH. pose proof (after_skip s (sp ++ [c]) (l ++ l2) tsp t [c] DELIMITER _ eq_refl) as He. fold s1 in He. rewrite He, <- app_assoc in IH. cbn [app] in IH.
  rewrite <- IH. cbn [term_loop]. rewrite bind_bind. unfold bind at 1, gets at 1. change (b_token s1) with [c]. change (tok0 [c]) with c.
  destruct Hc as [[-> ->]|(-> & Hx & ->)].
  - change (42 =? 42) with true. cbv iota. rewrite bind_bind. mstep Hrun. by rewrite bind_bind.
  - change (47 =? 42) with false. change (47 =? 47) with true. cbv iota. rewrite bind_bind. mstep Hrun. rewrite (proj2 (Z.eqb_neq x 0)) by done.
    rewrite bind_bind. unfold bind at 1, ret at 1. rewrite bind_bind. unfold bind at 1, ret at 1. by rewrite bind_bind.
Qed.
Lemma term_text_runs val m l1 v l2 w : prim_runs m l1 v → term_rest val v l2 w → term_rest_runs m v l2 w → term_runs m (l1 ++ l2) w.
Proof.
  intros Hp Hrest IH [|n] s r sp t Hat Hn Ht Hle; [cbn in Hle; lia|]. rewrite term_S.
  assert (stop (l2 ++ r)) as Hst by (eapply term_rest_stop; [done|apply Hat]).
  destruct (Hp n s (l2 ++ r) (at_text_head _ _ _ _ _ Hat Hst)) as (t1 & ty1 & Hrun); [len|]. mstep Hrun.
  rewrite (IH n _ r sp t (at_text_skip _ _ _ _ _ _ t1 ty1 Hat eq_refl) Hn Ht ltac:(len)). by rewrite (after_skip s l1 l2 sp t t1 ty1 _ eq_refl).
Qed.
Lemma expr_rest_nil_runs m v : expr_rest_runs m v [] v.
Proof.
  intros [|n] s r sp t (<- & Hs & Hr & Hf) Hn Ht Hle; [cbn in Hle; lia|]. rewrite (rest_over s r sp t Hn Hs Hf). cbn [expr_loop].
  rewrite bind_bind. unfold bind at 1, gets at 1. cbn [b_token at_tok]. rewrite (proj2 (Z.eqb_neq _ 43)), (proj2 (Z.eqb_neq _ 45)) by set_solver.
  unfold bind at 1, ret at 1. mstep (put_back_at s (b_ptr s + Z.of_nat (length sp)) t (tok_type t)).
  unfold ret, after. cbn [length]. do 4 f_equal. lia.
Qed.
(** A term before more operators, and the rest read from where the term left it. *)
Lemma term_then val m v l1 l2 w n s r sp t k : term_runs m l1 v → expr_rest val k l2 w → at_text m s (l1 ++ l2) r → next_token r sp t →
  tok0 t ∉ [42; 47; 43; 45] → (3 * length l1 + 2 <= n)%nat →
  ∃ s1, term_of n s = Done (v, s1) ∧ at_text m (at_tok s (b_ptr s + Z.of_nat (length l1)) [] 0) l2 r ∧
    ∀ A (f : Z → M (bas K) A), bind (get_token fuel) f s1 = bind (get_token fuel) f (at_tok s (b_ptr s + Z.of_nat (length l1)) [] 0).
Proof.
  intros Hterm Hrest Hat Hn Ht Hle. assert (stop (l2 ++ r)) as Hst by (eapply expr_rest_stop; [done|apply Hat]).
  destruct (expr_rest_next val k l2 w r sp t Hrest Hn ltac:(set_solver)) as (sp' & t' & Hn' & Ht').
  pose proof (at_text_skip _ _ _ _ _ _ [] 0 Hat eq_refl) as Hat2. pose proof Hat2 as (Hm2 & Hs2 & _ & Hf2). rewrite <- Hm2 in Hs2.
  exists (after s l1 sp' t'). split_and!; [apply (Hterm n s _ sp' t' (at_text_head _ _ _ _ _ Hat Hst) Hn' Ht' Hle)|done|].
  intros A f. unfold bind. rewrite <- (get_token_again _ _ sp' t' t' (tok_type t') Hn' Hs2 Hf2). done.
Qed.
Lemma expr_op_runs val m v w sp c l x l2 u : Forall blank sp → (c = 43 ∧ u = i32 (v + x) ∨ c = 45 ∧ u = i32 (v - x)) →
  term_runs m l x → expr_rest val u l2 w → expr_rest_runs m u l2 w → expr_rest_runs m v (sp ++ c :: l ++ l2) w.
Proof.
  intros Hsp Hc Hp Hrest IH [|n] s r tsp t Hat Hn Ht Hle; [cbn in Hle; lia|].
  destruct (op_token m s sp c (l ++ l2) r Hat Hsp) as [Htok Hat1]; [unfold single; destruct Hc as [[-> _]|[-> _]]; set_solver|by destruct Hc as [[-> _]|[-> _]]|].
  mstep Htok. clear Htok. set (s1 := at_tok s _ [c] DELIMITER) in *.
  destruct (term_then val m x l l2 w n s1 r tsp t u Hp Hrest Hat1 Hn Ht ltac:(len)) as (s2 & Hrun & Hat2 & Hagain).
  specialize (IH n _ r tsp t Hat2 Hn Ht ltac:(len)).
  rewrite (after_skip s1 l l2 tsp t [] 0 _ eq_refl) in IH. pose proof (after_skip s (sp ++ [c]) (l ++ l2) tsp t [c] DELIMITER _ eq_refl) as He. fold s1 in He. rewrite He, <- app_assoc in IH. cbn [app] in IH.
  rewrite <- IH, <- Hagain. cbn [expr_loop]. rewrite bind_bind. unfold bind at 1, gets at 1. change (b_token s1) with [c]. change (tok0 [c]) with c.
  destruct Hc as [[-> ->]|(-> & ->)].
  - change (43 =? 43) with true. cbv iota. rewrite bind_bind. mstep Hrun. by rewrite bind_bind.
  - change (45 =? 43) with false. change (45 =? 45) with true. cbv iota. rewrite bind_bind. mstep Hrun. by rewrite bind_bind.
Qed.
Lemma expr_text_runs val m l1 v l2 w : term_runs m l1 v → expr_rest val v l2 w → expr_rest_runs m v l2 w → expr_runs m (l1 ++ l2) w.
Proof.
  intros Hp Hrest IH [|n] s r sp t Hat Hn Ht Hle; [cbn in Hle; lia|]. rewrite expression_S.
  destruct (term_then val m v l1 l2 w n s r sp t v Hp Hrest Hat Hn Ht ltac:(len)) as (s2 & Hrun & Hat2 & Hagain). mstep Hrun. rewrite Hagain.
  rewrite (IH n _ r sp t Hat2 Hn Ht ltac:(len)). by rewrite (after_skip s l1 l2 sp t [] 0 _ eq_refl).
Qed.

Lemma grammar_runs m :
  (∀ l v, prim_text (var_of m) l v → prim_runs m l v) ∧ (∀ l v, term_text (var_of m) l v → term_runs m l v) ∧
  (∀ v l w, term_rest (var_of m) v l w → term_rest_runs m v l w) ∧
  (∀ l v, expr_text (var_of m) l v → expr_runs m l v) ∧ (∀ v l w, expr_rest (var_of m) v l w → expr_rest_runs m v l w).
Proof.
  apply grammar_ind; intros.
  - by apply prim_num_runs.
  - by apply prim_var_runs.
  - by apply prim_par_runs.
  - by apply prim_neg_runs.
  - by eapply term_text_runs.
  - apply term_rest_nil_runs.
  - eapply term_op_runs; eauto.
  - eapply term_op_runs; eauto.
  - by eapply expr_text_runs.
  - apply expr_rest_nil_runs.
  - eapply expr_op_runs; eauto.
  - eapply expr_op_runs; eauto.
Qed.

(** C20: [expression] parses and evaluates: on any text of the grammar (numbers,
    variables, parentheses, unary minus, products and quotients before sums and
    differences, each operator from the left, [int]s that wrap), with blanks
    wherever they may be, it returns the value of the text, changes no memory,
    and leaves the program at the token after the text, which must not be an
    operator.  A depth of three times the length of the text and three is
    enough, so the parser ends. *)
Theorem expression_value s l v r sp t n :
  expr_text (var_of (b_mem s)) l v → at_text (b_mem s) s l r → next_token r sp t → tok0 t ∉ [42; 47; 43; 45] → (3 * length l + 3 <= n)%nat →
  expression_of n s = Done (v, at_tok s (b_ptr s + Z.of_nat (length l) + Z.of_nat (length sp)) t (tok_type t)).
Proof. intros He Hat Hn Ht Hle. by apply (proj1 (proj2 (proj2 (proj2 (grammar_runs (b_mem s))))) l v He n s r sp t). Qed.
End BasicProofs.

(** ** Examples *)
(** The text (A+2)*-3, a newline after it, and A at 7. *)
Definition ex_expr : list Z := [40; 65; 43; 50; 41; 42; 45; 51].
Definition ex_bas (m : mem) (p : Z) : bas tape := mk_bas (ex_io m ex_file []) p [] 0 0.
Definition ex_basic_mem : mem := put_bytes (put_bytes (λ _, 0) 100 (ex_expr ++ [10])) 1000 [7; 0; 0; 0].
Lemma digit_prim val c v : digit_of c = Some v → v < 10 → isdigit c = true → i32 v = v → prim_text val [c] v.
Proof.
  intros Hd Hv Hc Hi. pose proof (PT_num val [] [c] [v] ltac:(done)) as H. cbn [app] in H.
  pose proof (digit_of_range c v Hd) as ((? & ?) & _). unfold num_from in H. cbn [fold_left] in H. rewrite Z.add_0_l, Hi in H. apply H; try done; [by repeat constructor|by constructor|cbn; lia|lia].
Qed.
Lemma ex_expr_text val : val 65 = 7 → expr_text val ex_expr (-27).
Proof.
  intros HA.
  assert (prim_text val [65] 7) as H65.
  { rewrite <- HA. apply (PT_var val [] [65]); try done. 2: cbn; lia. apply Forall_singleton. split; [lia|reflexivity]. }
  assert (expr_text val [65; 43; 50] 9) as H9.
  { apply (ET val [65] 7 [43; 50]). { apply (TT val [65] 7 [] 7 H65). constructor. }
    apply (ER_add val 7 [] [50] 2 []); [done| |apply ER_nil]. apply (TT val [50] 2 [] 2); [|constructor]. by apply digit_prim. }
  apply (ET val ex_expr (-27) [] (-27)); [|constructor]. apply (TT val [40; 65; 43; 50; 41] 9 [42; 45; 51] (-27)).
  { apply (PT_par val [] [65; 43; 50] [] 9); done. }
  apply (TR_mul val 9 [] [45; 51] (-3) []); [done| |apply TR_nil]. apply (PT_neg val [] [51] 3); [done|]. by apply digit_prim.
Qed.
Lemma expression_value_witness :
  let s := ex_bas ex_basic_mem 100 in
  expr_text (var_of 1000 (b_mem s)) ex_expr (-27) ∧ at_text 20 (b_mem s) s ex_expr [10] ∧ next_token [10] [] [10] ∧
  expression 1 2 20 1000 (λ _, []) 30 s = Done (-27, mk_bas (b_io s) 108 [10] DELIMITER 0).
Proof.
  cbv zeta. assert (expr_text (var_of 1000 (b_mem (ex_bas ex_basic_mem 100))) ex_expr (-27)) as He by (by apply ex_expr_text).
  assert (at_text 20 (b_mem (ex_bas ex_basic_mem 100)) (ex_bas ex_basic_mem 100) ex_expr [10]) as Hat.
  { split_and!; [done| |split; reflexivity|cbn; lia]. apply cstr_bytes_at; [|reflexivity|reflexivity]. repeat (apply Forall_cons; split; [lia|]). constructor. }
  assert (next_token [10] [] [10]) as Hn. { apply (NT_single [] 10 []); [done|]. unfold single. set_solver. }
  split_and!; [exact He|exact Hat|exact Hn|].
  exact (expression_value 1 2 20 1000 (λ _, []) _ _ _ _ _ _ 30 He Hat Hn ltac:(set_solver) ltac:(cbn; lia)).
Defined.

(** ** Sorting

    [blocks m a l]: the entries of [size] bytes from [a] on are the list [l]. *)
Section QsortProofs.
Context (size : nat) (compar : mem → Z → Z → Z) (key : list Z → Z) (P : list Z → Prop).
Hypothesis compar_key : ∀ m a b, P (bytes_at m a size) → P (bytes_at m b size) →
  (compar m a b < 0 ↔ key (bytes_at m a size) < key (bytes_at m b size)).
Notation sz := (Z.of_nat size).

Fixpoint blocks (m : mem) (a : Z) (l : list (list Z)) : Prop :=
  match l with [] => True | x :: l => bytes_at m a size = x ∧ blocks m (a + sz) l end.
Definition off {A} (l : list A) : Z := Z.of_nat (length l) * sz.
Lemma off_app {A} (l1 l2 : list A) : off (l1 ++ l2) = off l1 + off l2.
Proof. unfold off. rewrite length_app. lia. Qed.
Lemma off_cons {A} (x : A) l : off (x :: l) = sz + off l.
Proof. unfold off. cbn [length]. lia. Qed.
Lemma off_ge {A} (l : list A) : 0 <= off l.
Proof. unfold off. lia. Qed.
Lemma blocks_app m a l1 l2 : blocks m a (l1 ++ l2) ↔ blocks m a l1 ∧ blocks m (a + off l1) l2.
Proof.
  revert a. induction l1 as [|x l1 IH]; intros a; cbn [app blocks].
  - replace (a + off []) with a by (unfold off; cbn; lia). tauto.
  - rewrite off_cons, IH, Z.add_assoc. tauto.
Qed.
Lemma blocks_ext m m' a l : (∀ x, a <= x < a + off l → m' x = m x) → blocks m a l → blocks m' a l.
Proof.
  revert a. induction l as [|b l IH]; intros a He; [done|]. rewrite off_cons in He. pose proof (off_ge l). cbn [blocks]. intros [<- Hb]. split.
  - apply bytes_at_ext. intros x Hx. apply He. lia.
  - apply IH; [|done]. intros x Hx. apply He. lia.
Qed.
Lemma swap_bytes_at k : ∀ m a b x, a + Z.of_nat k <= b ∨ b + Z.of_nat k <= a ∨ a = b →
  swap_bytes k m a b x = if decide (a <= x < a + Z.of_nat k) then m (b + (x - a)) else if decide (b <= x < b + Z.of_nat k) then m (a + (x - b)) else m x.
Proof.
  induction k as [|k IH]; intros m a b x Hab; cbn [swap_bytes]; [repeat case_decide; (done || lia)|].
  rewrite IH by lia. unfold upd. repeat case_decide; try lia;
    repeat (match goal with |- context [?u =? ?v] => destruct (Z.eqb_spec u v) end); try lia; subst; try done; f_equal; lia.
Qed.
Lemma swap_bytes_comm k m a b x : a + Z.of_nat k <= b → swap_bytes k m b a x = swap_bytes k m a b x.
Proof. intros Hab. rewrite !swap_bytes_at by lia. repeat case_decide; (done || lia). Qed.
Lemma swap_blocks m m' a A x B y C : blocks m a (A ++ x :: B ++ y :: C) →
  (∀ z, m' z = swap_bytes size m (a + off A) (a + (off A + sz + off B)) z) →
  blocks m' a (A ++ y :: B ++ x :: C) ∧ (∀ z, ¬ (a <= z < a + off (A ++ x :: B ++ y :: C)) → m' z = m z).
Proof.
  intros H Hsw. pose proof (off_ge A). pose proof (off_ge B). pose proof (off_ge C).
  assert (∀ z, m' z = if decide (a + off A <= z < a + off A + sz) then m (z + (sz + off B)) else
                      if decide (a + (off A + sz + off B) <= z < a + (off A + sz + off B) + sz) then m (z - (sz + off B)) else m z) as Hm.
  { intros z. rewrite Hsw, swap_bytes_at by lia. repeat case_decide; try done; f_equal; lia. }
  clear Hsw. apply blocks_app in H as (HA & Hx & (HB & Hy & HC)%blocks_app). split.
  - apply blocks_app. split; [|split; [|apply blocks_app; split; [|split]]].
    + apply (blocks_ext m); [|done]. intros z Hz. rewrite Hm, !decide_False by lia. done.
    + rewrite <- Hy. unfold bytes_at. apply map_ext_in. intros i Hi%in_seq. rewrite Hm, decide_True by lia. f_equal. lia.
    + apply (blocks_ext m); [|done]. intros z Hz. rewrite Hm, !decide_False by lia. done.
    + rewrite <- Hx. unfold bytes_at. apply map_ext_in. intros i Hi%in_seq. rewrite Hm, decide_False, decide_True by lia. f_equal. lia.
    + apply (blocks_ext m); [|done]. intros z Hz. rewrite Hm, !decide_False by lia. done.
  - intros z Hz. repeat (rewrite off_app in Hz || rewrite off_cons in Hz). rewrite Hm, !decide_False by lia. done.
Qed.
Lemma swap_same m a z : swap_bytes size m a a z = m z.
Proof. rewrite swap_bytes_at by lia. repeat case_decide; try done; f_equal; lia. Qed.

(** Between [A], below the pivot, and [C], the entries not looked at, lie [B],
    not below it. *)
Definition below (p x : list Z) : Prop := key x < key p.
Definition not_below (p x : list Z) : Prop := key p <= key x.
Lemma partition_run C : ∀ m a A B p i j last, blocks m a (A ++ B ++ C ++ [p]) → Forall P (A ++ B ++ C ++ [p]) → Forall (below p) A → Forall (not_below p) B →
  i = Z.of_nat (length A + length B) → j = Z.of_nat (length A) → last = a + Z.of_nat (length A + length B + length C) * sz →
  ∃ m' A' B', partition_loop size compar (length C) m a last i j = (m', Z.of_nat (length A')) ∧
    blocks m' a (A' ++ B' ++ [p]) ∧ A' ++ B' ≡ₚ A ++ B ++ C ∧ Forall (below p) A' ∧ Forall (not_below p) B' ∧
    (∀ z, ¬ (a <= z < a + off (A ++ B ++ C ++ [p])) → m' z = m z).
Proof using All.
  induction C as [|c C IH]; intros m a A B p i j last Hb HP HA HB Hi Hj Hl; cbn [length partition_loop].
  { exists m, A, B. rewrite app_nil_r, Hj. done. }
  assert (bytes_at m (a + i * sz) size = c) as Hc.
  { rewrite app_assoc in Hb. apply blocks_app in Hb as [_ [Hb _]]. unfold off in Hb. rewrite length_app in Hb. by subst i. }
  assert (bytes_at m last size = p) as Hp.
  { rewrite !app_assoc in Hb. apply blocks_app in Hb as [_ [Hb _]]. unfold off in Hb. rewrite !length_app in Hb. by subst last. }
  assert (P c ∧ P p) as [HPc HPp]. { repeat (rewrite Forall_app in HP || rewrite Forall_cons in HP). tauto. }
  pose proof (compar_key m (a + i * sz) last) as Hcmp. rewrite Hc, Hp in Hcmp. specialize (Hcmp HPc HPp).
  destruct (Z.ltb_spec (compar m (a + i * sz) last) 0) as [Hlt|Hge].
  - apply Hcmp in Hlt. assert (Forall (below p) (A ++ [c])) as HA' by (by rewrite Forall_app, Forall_singleton).
    assert (length (A ++ [c]) = S (length A)) as HlA by (rewrite length_app; cbn; lia).
    destruct B as [|b B]; cbn [app length] in *.
    + rewrite (proj2 (Z.eqb_eq i j)) by lia.
      destruct (IH m a (A ++ [c]) [] p (i + 1) (j + 1) last) as (m' & A' & B' & Hrun & Hr); [by rewrite <- app_assoc|by rewrite <- app_assoc|done|done|cbn [length]; lia|lia|cbn [length]; lia|].
      exists m', A', B'. rewrite <- !app_assoc in Hr. done.
    + rewrite (proj2 (Z.eqb_neq _ _)) by lia.
      assert (A ++ b :: B ++ c :: C ++ [p] = A ++ (b :: B ++ c :: C ++ [p])) as He by done.
      set (m1 := swap_bytes size m _ _). destruct (swap_blocks m m1 a A b B c (C ++ [p]) Hb) as [Hb' Ho].
      { intros z. unfold m1. replace (a + j * sz) with (a + off A) by (unfold off; lia). replace (a + i * sz) with (a + (off A + sz + off B)) by (unfold off; lia). apply swap_bytes_comm. pose proof (off_ge B). lia. }
      clearbody m1.
      assert (A ++ c :: B ++ b :: C ++ [p] = (A ++ [c]) ++ (B ++ [b]) ++ C ++ [p]) as He2 by (by rewrite <- !app_assoc). rewrite He2 in Hb'.
      destruct (IH m1 a (A ++ [c]) (B ++ [b]) p (i + 1) (j + 1) last Hb') as (m' & A' & B' & Hrun & Hbl & Hperm & HA2 & HB2 & Hout).
      * rewrite <- He2. clear -HP. repeat (rewrite Forall_app in * || rewrite Forall_cons in * ). tauto.
      * done.
      * apply Forall_cons in HB as [Hb0 HB]. by rewrite Forall_app, Forall_singleton.
      * rewrite HlA, length_app. cbn [length]. lia.
      * lia.
      * rewrite HlA, length_app. cbn [length]. lia.
      * exists m', A', B'. split; [exact Hrun|]. split; [done|]. split; [|split; [done|split; [done|]]].
        -- rewrite Hperm, <- !app_assoc. cbn [app]. apply Permutation_app_head. rewrite <- !Permutation_middle. apply perm_swap.
        -- intros z Hz. rewrite Hout, Ho; [done|exact Hz|]. rewrite <- He2. intros Hz2. apply Hz. unfold off in *. rewrite !length_app in *. cbn [length] in *. rewrite !length_app in *. cbn [length] in *. lia.
  - assert (Forall (not_below p) (B ++ [c])) as HB'.
    { rewrite Forall_app, Forall_singleton. split; [done|]. unfold not_below. destruct (Z.le_gt_cases (key p) (key c)); [done|]. apply Hcmp in H. lia. }
    destruct (IH m a A (B ++ [c]) p (i + 1) j last) as (m' & A' & B' & Hrun & Hr); [by rewrite <- app_assoc|by rewrite <- app_assoc|done|done|rewrite length_app; cbn [length]; lia|lia|rewrite length_app; cbn [length] in *; lia|].
    exists m', A', B'. rewrite <- !app_assoc in Hr. done.
Qed.

(** [qsort] of [l] gives the entries of [l] in order, and touches nothing else. *)
Definition ordered (l : list (list Z)) : Prop := StronglySorted (λ x y, key x <= key y) l.
Lemma ordered_around A p B : ordered A → ordered B → Forall (below p) A → Forall (not_below p) B → ordered (A ++ p :: B).
Proof.
  intros HA HB HAp HBp. induction HA as [|x A HA IH Hx]; cbn [app].
  - by constructor.
  - apply Forall_cons in HAp as [Hxp HAp]. constructor; [by apply IH|]. unfold below, not_below in *.
    rewrite Forall_app, Forall_cons. split_and!; [done|lia|]. eapply Forall_impl; [exact HBp|]. cbn. lia.
Qed.
Lemma qsort_run f : ∀ m a l n, blocks m a l → Forall P l → n = Z.of_nat (length l) → (length l <= S f)%nat →
  ∃ m' l', qsort size compar f m a n = Some m' ∧ blocks m' a l' ∧ l' ≡ₚ l ∧ ordered l' ∧ (∀ z, ¬ (a <= z < a + off l) → m' z = m z).
Proof using All.
  induction f as [|f IH]; intros m a l n Hb HP Hn Hf; cbn [qsort].
  - rewrite (proj2 (Z.ltb_lt _ _)) by lia. exists m, l. split_and!; try done. destruct l as [|x [|y l]]; [constructor|by repeat constructor|cbn in Hf; lia].
  - destruct (Z.ltb_spec n 2) as [Hsmall|Hbig].
    { exists m, l. split_and!; try done. destruct l as [|x [|y l]]; [constructor|by repeat constructor|cbn in Hn; lia]. }
    destruct (exists_last (l := l)) as (C & p & ->); [intros ->; cbn in Hn; lia|]. rewrite length_app in Hn, Hf. cbn [length] in Hn, Hf.
    replace (Z.to_nat (n - 1)) with (length C) by lia.
    destruct (partition_run C m a [] [] p 0 0 (a + (n - 1) * sz)) as (m1 & A & B & -> & Hb1 & Hperm & HA & HB & Ho1); [done..|cbn; lia|]. cbn [app] in Hperm, Ho1.
    assert (length A + length B = length C)%nat as Hlen by (apply Permutation_length in Hperm; by rewrite length_app in Hperm).
    set (m2 := swap_bytes size m1 _ _).
    assert (∃ B', blocks m2 a (A ++ p :: B') ∧ B' ≡ₚ B ∧ ∀ z, ¬ (a <= z < a + off (C ++ [p])) → m2 z = m1 z) as (B' & Hb2 & HpB & Ho2).
    { destruct B as [|b B]; cbn [app length] in *.
      - exists []. unfold m2. replace (a + Z.of_nat (length A) * sz) with (a + (n - 1) * sz) by lia. split_and!; [|done|intros z _; apply swap_same].
        apply (blocks_ext m1); [intros z _; apply swap_same|done].
      - destruct (swap_blocks m1 m2 a A b B p [] Hb1) as [Hb2 Ho2].
        { intros z. unfold m2. do 2 f_equal; unfold off; lia. }
        exists (B ++ [b]).
        split_and!; [done|by rewrite <- Permutation_cons_append|]. intros z Hz. apply Ho2. intros Hz2. apply Hz. unfold off in *. rewrite !length_app in *. cbn [length] in *. rewrite !length_app in *. cbn [length] in *. lia. }
    clearbody m2. assert (Permutation (A ++ p :: B') (C ++ [p])) as Hall. { rewrite <- Hperm, HpB. rewrite <- Permutation_cons_append. by rewrite <- Permutation_middle. }
    assert (Forall P (A ++ p :: B')) as HP2 by (by rewrite Hall). apply Forall_app in HP2 as [HPA [HPp HPB]%Forall_cons].
    pose proof (Permutation_length HpB) as HlB. apply blocks_app in Hb2 as (HbA & Hbp & HbB).
    destruct (IH m2 a A (Z.of_nat (length A)) HbA HPA eq_refl ltac:(lia)) as (m3 & A' & -> & HbA' & HpA & HoA & Ho3). cbn [mbind option_bind].
    assert (off A' = off A) as HoffA by (unfold off; by rewrite HpA).
    destruct (IH m3 (a + (Z.of_nat (length A) + 1) * sz) B' (n - Z.of_nat (length A) - 1)) as (m4 & B2 & -> & HbB2 & HpB2 & HoB & Ho4); [|done|lia|lia|].
    { apply (blocks_ext m2). - intros z Hz. apply Ho3. unfold off. lia. - replace (a + (Z.of_nat (length A) + 1) * sz) with (a + off A + sz) by (unfold off; lia). done. }
    assert (off (C ++ [p]) = off A + sz + off B') as Hoff by (unfold off; rewrite length_app; cbn [length]; lia). pose proof (off_ge B'). pose proof (off_ge A).
    assert (a + (Z.of_nat (length A) + 1) * sz = a + off A + sz) as Hmid by (unfold off; lia). rewrite Hmid in *.
    exists m4, (A' ++ p :: B2). split_and!; [done|..].
    + apply blocks_app. rewrite HoffA. split; [|split].
      * apply (blocks_ext m3); [|done]. intros z Hz. apply Ho4. lia.
      * rewrite <- Hbp. transitivity (bytes_at m3 (a + off A) size); apply bytes_at_ext; intros z Hz; [apply Ho4|apply Ho3]; lia.
      * done.
    + by rewrite HpA, HpB2.
    + apply ordered_around; [done|done|by rewrite HpA|by rewrite HpB2, HpB].
    + intros z Hz. rewrite Ho4, Ho3, Ho2, Ho1; [done|exact Hz|exact Hz|lia|lia].
Qed.
End QsortProofs.

(** The number of an entry of [program], and those whose differences fit an [int]. *)
Definition line_key (x : list Z) : Z := i32 (of_le (take 4 x)).
Definition small_line (x : list Z) : Prop := 0 <= line_key x.
Lemma load_le_of n : ∀ m a, load_le m a n = of_le (bytes_at m a n).
Proof.
  induction n as [|n IH]; intros m a; [done|]. rewrite (bytes_at_app m a 1 n : bytes_at m a (S n) = _). cbn [load_le]. rewrite IH.
  change (bytes_at m a 1) with [m (a + 0)]. rewrite Z.add_0_r. change (Z.of_nat 1) with 1. cbn [app of_le]. done.
Qed.
Lemma line_key_at m a : line_key (bytes_at m a 16) = i32 (load32 m a).
Proof.
  unfold line_key, load32. rewrite (bytes_at_app m a 4 12 : bytes_at m a 16 = _), take_app_length' by (by rewrite bytes_at_length).
  by rewrite <- load_le_of.
Qed.
Lemma compare_lines_key m a b : small_line (bytes_at m a 16) → small_line (bytes_at m b 16) →
  (compare_lines m a b < 0 ↔ line_key (bytes_at m a 16) < line_key (bytes_at m b 16)).
Proof.
  unfold small_line. rewrite !line_key_at. unfold compare_lines. intros Ha Hb.
  pose proof (i32_range (load32 m a)). pose proof (i32_range (load32 m b)). rewrite (i32_id (i32 (load32 m a) - i32 (load32 m b))) by lia. lia.
Qed.

(** C22: [qsort] with [compare_lines], what [add_line] does to [program]: the
    entries, their texts with them, are afterwards the same ones in the order
    of their numbers, no byte outside the table changes, and a depth of the
    number of entries is enough; for numbers that are not negative. *)
Theorem program_sorted m PROG l fuel : blocks 16 m PROG l → Forall small_line l → (length l <= fuel)%nat →
  ∃ m' l', qsort 16 compare_lines fuel m PROG (Z.of_nat (length l)) = Some m' ∧ blocks 16 m' PROG l' ∧ l' ≡ₚ l ∧
    StronglySorted (λ x y, line_key x <= line_key y) l' ∧ (∀ z, ¬ (PROG <= z < PROG + 16 * Z.of_nat (length l)) → m' z = m z).
Proof.
  intros Hb HP Hf. destruct (qsort_run 16 compare_lines line_key small_line compare_lines_key fuel m PROG l _ Hb HP eq_refl ltac:(lia)) as (m' & l' & Hr & Hb' & Hp & Ho & Hz).
  exists m', l'. split_and!; [done..|]. intros z Hn. apply Hz. unfold off. lia.
Qed.
Definition ex_line (n t : Z) : list Z := le_bytes 8 n ++ le_bytes 8 t.
Definition ex_lines : list (list Z) := [ex_line 30 700; ex_line 10 500; ex_line 20 600].
Definition ex_lines_mem : mem := put_bytes (λ _, 0) 400 (concat ex_lines).
Lemma program_sorted_witness : blocks 16 ex_lines_mem 400 ex_lines ∧
  ∃ m' l', qsort 16 compare_lines 3 ex_lines_mem 400 3 = Some m' ∧ blocks 16 m' 400 l' ∧ l' ≡ₚ ex_lines ∧
    StronglySorted (λ x y, line_key x <= line_key y) l' ∧ (∀ z, ¬ (400 <= z < 400 + 16 * 3) → m' z = ex_lines_mem z).
Proof.
  assert (blocks 16 ex_lines_mem 400 ex_lines) as Hb by (cbn [ex_lines blocks]; split_and!; (done || reflexivity)).
  split; [exact Hb|]. apply (program_sorted ex_lines_mem 400 ex_lines 3 Hb); [|cbn; lia].
  repeat (apply Forall_cons; split; [by vm_compute|]). constructor.
Defined.
