(* ===== verification/Pmm.v ===== *)
(** Physical memory manager, [kernel/mm/pmm.c]: a stack of free frame indices
    and one reference count per frame.  The operations run with [pmm_lock]
    held, so each is one atomic step of the model; the lock bit is part of the
    state, and every path releases it.  [FrameAllocator] is the interface the
    page-table and address-space code is verified against; [pmm_allocator]
    shows that this file implements it. *)
From S2P Require Export Prelude.

Definition PHY_RAM_BASE : Z := 1073741824.   (* 0x40000000 *)
Definition PAGE_SIZE : Z := 4096.
Definition PAGE_SHIFT : Z := 12.

(** The file's static variables.  [ref_counts] is [None] while the pointer is
    NULL, before [pmm_init]. *)
Record pmm := mk_pmm {
  frame_stack : list Z;
  stack_top : Z;
  stack_capacity : Z;
  used_frames : Z;
  pmm_lock : bool;
  phy_ram_size : Z;
  phy_ram_end : Z;
  total_frames : Z;
  ref_counts : option (list Z);
}.

Definition set_frame_stack v s := mk_pmm v (stack_top s) (stack_capacity s) (used_frames s)
  (pmm_lock s) (phy_ram_size s) (phy_ram_end s) (total_frames s) (ref_counts s).
Definition set_stack_top v s := mk_pmm (frame_stack s) v (stack_capacity s) (used_frames s)
  (pmm_lock s) (phy_ram_size s) (phy_ram_end s) (total_frames s) (ref_counts s).
Definition set_used_frames v s := mk_pmm (frame_stack s) (stack_top s) (stack_capacity s) v
  (pmm_lock s) (phy_ram_size s) (phy_ram_end s) (total_frames s) (ref_counts s).
Definition set_pmm_lock v s := mk_pmm (frame_stack s) (stack_top s) (stack_capacity s)
  (used_frames s) v (phy_ram_size s) (phy_ram_end s) (total_frames s) (ref_counts s).
Definition set_ref_counts v s := mk_pmm (frame_stack s) (stack_top s) (stack_capacity s)
  (used_frames s) (pmm_lock s) (phy_ram_size s) (phy_ram_end s) (total_frames s) v.

(** The state before [pmm_init]. *)
Definition pmm_boot : pmm := mk_pmm [] 0 0 0 false 0 0 0 None.

Local Open Scope prog_scope.

Definition phys_to_index (s : pmm) (addr : Z) : Z :=
  if (addr <? PHY_RAM_BASE) || (phy_ram_end s <=? addr) then U32_MAX
  else u32 (Z.shiftr (addr - PHY_RAM_BASE) PAGE_SHIFT).

Definition index_to_phys (idx : Z) : Z := u64 (PHY_RAM_BASE + Z.shiftl idx PAGE_SHIFT).

(** Array accesses [frame_stack[i]] and [ref_counts[i]]. *)
Definition read_stack (i : Z) : M pmm Z := λ s, of_opt (zget (frame_stack s) i) s.
Definition write_stack (i v : Z) : M pmm unit := λ s,
  match zset (frame_stack s) i v with
  | Some l => Done (tt, set_frame_stack l s)
  | None => Fault
  end.
Definition read_ref (i : Z) : M pmm Z := λ s,
  match ref_counts s with
  | Some l => of_opt (zget l i) s
  | None => Fault
  end.
Definition write_ref (i v : Z) : M pmm unit := λ s,
  match ref_counts s with
  | Some l => match zset l i v with
              | Some l' => Done (tt, set_ref_counts (Some l') s)
              | None => Fault
              end
  | None => Fault
  end.

Definition pmm_acquire : M pmm unit := spin_acquire pmm_lock set_pmm_lock.
Definition pmm_release : M pmm unit := spin_release set_pmm_lock.

(** [frame_stack[stack_top++] = i]. *)
Definition push_stack (i : Z) : M pmm unit :=
  t <- gets stack_top;;
  modify (set_stack_top (u32 (t + 1)));;;
  write_stack t i.

Definition pmm_inc_ref (phys : Z) : M pmm unit :=
  idx <- gets (λ s, phys_to_index s phys);;
  rc <- gets ref_counts;;
  if negb (idx =? U32_MAX) && (match rc with Some _ => true | None => false end) then
    pmm_acquire;;;
    r <- read_ref idx;;
    (if r <? 255 then write_ref idx (u8 (r + 1)) else ret tt);;;
    pmm_release
  else ret tt.

(** One round of the initialisation loop: frames below [reserved_end] hold the
    kernel image and the allocator's own tables. *)
Definition pmm_init_step (reserved_end i : Z) : M pmm unit :=
  let addr := index_to_phys i in
  write_ref i 0;;;
  if (PHY_RAM_BASE <=? addr) && (addr <? reserved_end) then
    u <- gets used_frames;;
    modify (set_used_frames (u32 (u + 1)));;;
    write_ref i 1
  else
    t <- gets stack_top;;
    c <- gets stack_capacity;;
    if t <? c then push_stack i else ret tt.

Definition pmm_reserved_end (kernel_end total : Z) : Z :=
  let stack_start := andnot (u64 (kernel_end + PAGE_SIZE - 1)) (PAGE_SIZE - 1) in
  u64 (stack_start + total * 4 + total).

(** [pmm_init]: the two tables are laid out after the kernel image; their
    previous contents are never read (the loop writes each count, and only
    pushed slots of the stack are read), so they start as zeros here. *)
Definition pmm_init (kernel_end ram_size : Z) : M pmm unit :=
  let total := u32 (ram_size / PAGE_SIZE) in
  modify (λ s, mk_pmm (replicate (Z.to_nat total) 0) 0 total (used_frames s) (pmm_lock s)
                 ram_size (u64 (PHY_RAM_BASE + ram_size)) total
                 (Some (replicate (Z.to_nat total) 0)));;;
  for_each (pmm_init_step (pmm_reserved_end kernel_end total)) (seqZ 0 total).

(** The inner loop of [pmm_mark_used_region] over [i = 0 .. stack_top-1]. *)
Fixpoint mark_scan (target : Z) (idxs : list Z) : M pmm unit :=
  match idxs with
  | [] => ret tt
  | i :: idxs' =>
      x <- read_stack i;;
      if x =? target then
        t <- gets stack_top;;
        modify (set_stack_top (u32 (t - 1)));;;
        v <- read_stack (u32 (t - 1));;
        write_stack i v;;;
        u <- gets used_frames;;
        modify (set_used_frames (u32 (u + 1)))
      else mark_scan target idxs'
  end.

Definition pmm_mark_used_region (base size : Z) : M pmm unit :=
  start_idx <- gets (λ s, phys_to_index s base);;
  end_idx <- gets (λ s, phys_to_index s (u64 (base + size + PAGE_SIZE - 1)));;
  if start_idx =? U32_MAX then ret tt
  else for_each (λ target, t <- gets stack_top;; mark_scan target (seqZ 0 t))
         (seqZ start_idx (end_idx - start_idx)).

Definition pmm_alloc_frame : M pmm Z :=
  pmm_acquire;;;
  t <- gets stack_top;;
  if t =? 0 then pmm_release;;; ret 0
  else
    modify (set_stack_top (u32 (t - 1)));;;
    idx <- read_stack (u32 (t - 1));;
    u <- gets used_frames;;
    modify (set_used_frames (u32 (u + 1)));;;
    write_ref idx 1;;;
    pmm_release;;;
    ret (index_to_phys idx).

Definition pmm_free_frame (addr : Z) : M pmm unit :=
  pmm_acquire;;;
  idx <- gets (λ s, phys_to_index s addr);;
  n <- gets total_frames;;
  if (idx =? U32_MAX) || (n <=? idx) then pmm_release
  else
    r <- read_ref idx;;
    if 0 <? r then
      write_ref idx (u8 (r - 1));;;
      (if u8 (r - 1) =? 0 then
         push_stack idx;;;
         u <- gets used_frames;;
         modify (set_used_frames (u32 (u - 1)))
       else ret tt);;;
      pmm_release
    else
      t <- gets stack_top;;
      c <- gets stack_capacity;;
      if c <=? t then pmm_release
      else
        push_stack idx;;;
        u <- gets used_frames;;
        modify (set_used_frames (u32 (u - 1)));;;
        pmm_release.

(** ** The interface used by the other memory components *)

Class FrameAllocator (S : Type) := {
  fa_alloc : M S Z;
  fa_free : Z → M S unit;
  fa_inc : Z → M S unit;
  fa_inv : S → Prop;
  (** the frame addresses the allocator manages, and their reference counts *)
  fa_frame : S → Z → Prop;
  fa_ref : S → Z → Z;
  fa_frame_bounds : ∀ s a, fa_inv s → fa_frame s a → a mod 4096 = 0 ∧ 0 < a < 2 ^ 39;
  fa_alloc_spec : ∀ s, fa_inv s → ∃ a s',
    fa_alloc s = Done (a, s') ∧ fa_inv s' ∧ (∀ b, fa_frame s' b ↔ fa_frame s b) ∧
    ((a = 0 ∧ s' = s) ∨
     (fa_frame s a ∧ fa_ref s a = 0 ∧
      ∀ b, fa_frame s b → fa_ref s' b = if decide (b = a) then 1 else fa_ref s b));
  fa_free_spec : ∀ s a, fa_inv s → fa_frame s a → 0 < fa_ref s a → ∃ s',
    fa_free a s = Done (tt, s') ∧ fa_inv s' ∧ (∀ b, fa_frame s' b ↔ fa_frame s b) ∧
    ∀ b, fa_frame s b → fa_ref s' b = if decide (b = a) then fa_ref s a - 1 else fa_ref s b;
  (** an address outside the managed range is ignored *)
  fa_free_other : ∀ s a, fa_inv s → a mod 4096 = 0 → fa_frame s a ∨ fa_free a s = Done (tt, s);
  fa_inc_spec : ∀ s a, fa_inv s → fa_frame s a → 0 < fa_ref s a → fa_ref s a < 255 → ∃ s',
    fa_inc a s = Done (tt, s') ∧ fa_inv s' ∧ (∀ b, fa_frame s' b ↔ fa_frame s b) ∧
    ∀ b, fa_frame s b → fa_ref s' b = if decide (b = a) then fa_ref s a + 1 else fa_ref s b;
}.

(** ** The allocator's invariant *)

(** The free frames, oldest first. *)
Definition free_frames (s : pmm) : list Z := take (Z.to_nat (stack_top s)) (frame_stack s).
Definition refs (s : pmm) : list Z := default [] (ref_counts s).

Record pmm_inv (s : pmm) : Prop := {
  inv_lock : pmm_lock s = false;
  inv_rc : ref_counts s = Some (refs s);
  inv_total : 0 <= total_frames s < 2 ^ 26;   (* 256 GB: the direct map holds 512 GB *)
  inv_len_rc : Z.of_nat (length (refs s)) = total_frames s;
  inv_len_stk : Z.of_nat (length (frame_stack s)) = total_frames s;
  inv_cap : stack_capacity s = total_frames s;
  inv_end : phy_ram_end s = PHY_RAM_BASE + total_frames s * PAGE_SIZE;
  inv_top : 0 <= stack_top s <= total_frames s;
  inv_nodup : NoDup (free_frames s);
  inv_free : ∀ f, f ∈ free_frames s → 0 <= f < total_frames s ∧ zget (refs s) f = Some 0;
  inv_byte : ∀ f r, zget (refs s) f = Some r → 0 <= r < 256;
  inv_used : used_frames s + stack_top s = total_frames s;
}.

(** The page-aligned addresses of the managed frames. *)
Definition frame_addr (s : pmm) (a : Z) : Prop :=
  ∃ f, 0 <= f < total_frames s ∧ a = PHY_RAM_BASE + f * PAGE_SIZE.
Definition frame_idx (a : Z) : Z := (a - PHY_RAM_BASE) / PAGE_SIZE.
Definition ref_of (s : pmm) (a : Z) : Z := default 0 (zget (refs s) (frame_idx a)).

Lemma phys_to_index_in s f off :
  pmm_inv s → 0 <= f < total_frames s → 0 <= off < PAGE_SIZE →
  phys_to_index s (PHY_RAM_BASE + f * PAGE_SIZE + off) = f.
Proof.
  intros Hi Hf Ho. unfold phys_to_index. rewrite (inv_end _ Hi).
  pose proof (inv_total _ Hi). unfold PHY_RAM_BASE, PAGE_SIZE, PAGE_SHIFT in *.
  rewrite (proj2 (Z.ltb_ge _ _)), (proj2 (Z.leb_gt _ _)) by lia. simpl.
  rewrite Z.shiftr_div_pow2 by lia.
  replace (1073741824 + f * 4096 + off - 1073741824) with (off + f * 4096) by lia.
  change (2 ^ 12) with 4096. rewrite Z.div_add, Z.div_small by lia.
  apply u32_id. lia.
Qed.

Lemma phys_to_index_range s a :
  pmm_inv s → phys_to_index s a = U32_MAX ∨
  (0 <= phys_to_index s a < total_frames s ∧ phys_to_index s a = frame_idx a).
Proof.
  intros Hi. unfold phys_to_index. rewrite (inv_end _ Hi). pose proof (inv_total _ Hi).
  destruct (Z.ltb_spec a PHY_RAM_BASE); simpl; [by left|].
  destruct (Z.leb_spec (PHY_RAM_BASE + total_frames s * PAGE_SIZE) a); [by left|right].
  unfold frame_idx, PAGE_SIZE, PAGE_SHIFT in *.
  rewrite Z.shiftr_div_pow2 by lia. change (2 ^ 12) with 4096.
  rewrite u32_id by zlia. split; [zlia|done].
Qed.

Lemma index_to_phys_in s f :
  pmm_inv s → 0 <= f < total_frames s → index_to_phys f = PHY_RAM_BASE + f * PAGE_SIZE.
Proof.
  intros Hi Hf. pose proof (inv_total _ Hi). unfold index_to_phys.
  rewrite Z.shiftl_mul_pow2 by (unfold PAGE_SHIFT; lia).
  change (2 ^ PAGE_SHIFT) with PAGE_SIZE. apply u64_id. unfold PHY_RAM_BASE, PAGE_SIZE in *. lia.
Qed.

Lemma frame_idx_addr f : frame_idx (PHY_RAM_BASE + f * PAGE_SIZE) = f.
Proof.
  unfold frame_idx. replace (PHY_RAM_BASE + f * PAGE_SIZE - PHY_RAM_BASE) with (f * PAGE_SIZE) by lia.
  by rewrite Z.div_mul.
Qed.

(** Pigeonhole: distinct indices below [n] are at most [n]. *)
Lemma NoDup_bounded_length (l : list Z) n :
  NoDup l → (∀ x, x ∈ l → 0 <= x < n) → Z.of_nat (length l) <= Z.max 0 n.
Proof.
  intros Hnd Hl.
  assert (l ⊆+ seqZ 0 n) as Hs%submseteq_length.
  { apply NoDup_submseteq; [done|]. intros x Hx%Hl. apply elem_of_seqZ. lia. }
  rewrite length_seqZ in Hs. lia.
Qed.

Lemma take_insert_push (l : list Z) t v :
  (t < length l)%nat → take (S t) (<[t := v]> l) = take t l ++ [v].
Proof.
  intros. rewrite (take_S_r _ _ v) by (by apply list_lookup_insert_eq).
  by rewrite take_insert_ge by lia.
Qed.

Lemma refs_Some s l : ref_counts s = Some l → refs s = l.
Proof. unfold refs. by intros ->. Qed.

Lemma free_frames_length s :
  pmm_inv s → Z.of_nat (length (free_frames s)) = stack_top s.
Proof.
  intros Hi. unfold free_frames. rewrite length_take.
  pose proof (inv_top _ Hi). pose proof (inv_len_stk _ Hi). lia.
Qed.

Lemma read_ref_ok s f : pmm_inv s → 0 <= f < total_frames s →
  ∃ r, zget (refs s) f = Some r ∧ read_ref f s = Done (r, s) ∧ 0 <= r < 256.
Proof.
  intros Hi Hf. destruct (zget_is_Some (refs s) f) as [r Hr].
  { by rewrite (inv_len_rc _ Hi). }
  exists r. split; [done|]. split; [|by eapply inv_byte].
  unfold read_ref. rewrite (inv_rc _ Hi), Hr. done.
Qed.

(** Fields of the invariant that an update of the tables does not touch. *)
Ltac inv_field Hi :=
  first [ unfold refs; simpl; rewrite ?length_insert; apply Hi
        | simpl; rewrite ?length_insert; first [done | apply Hi | lia] ].

(** Pushing a frame that is neither free nor referenced keeps the invariant. *)
Lemma push_stack_ok s f :
  pmm_inv s → 0 <= f < total_frames s → f ∉ free_frames s →
  push_stack f s =
    Done (tt, set_frame_stack (<[Z.to_nat (stack_top s) := f]> (frame_stack s))
                (set_stack_top (stack_top s + 1) s)) ∧
  stack_top s + 1 <= total_frames s.
Proof.
  intros Hi Hf Hnew.
  assert (stack_top s + 1 <= total_frames s) as Hlt.
  { assert (Z.of_nat (length (f :: free_frames s)) <= Z.max 0 (total_frames s)) as Hl.
    { apply NoDup_bounded_length.
      - constructor; [done|apply (inv_nodup _ Hi)].
      - intros x [->|Hx]%elem_of_cons; [done|]. by apply (inv_free _ Hi) in Hx as [? _]. }
    simpl length in Hl. pose proof (free_frames_length s Hi). pose proof (inv_total _ Hi). lia. }
  split; [|done].
  pose proof (inv_top _ Hi). pose proof (inv_total _ Hi). pose proof (inv_len_stk _ Hi).
  unfold push_stack. munfold. unfold write_stack. simpl.
  rewrite zset_is_Some by lia. rewrite u32_id by lia. done.
Qed.

(** The state after [used_frames--], a push of [f] and a count update. *)
Definition released (s : pmm) (f : Z) : pmm :=
  mk_pmm (<[Z.to_nat (stack_top s) := f]> (frame_stack s)) (stack_top s + 1)
    (stack_capacity s) (used_frames s - 1) false (phy_ram_size s) (phy_ram_end s)
    (total_frames s) (Some (<[Z.to_nat f := 0]> (refs s))).

Lemma released_inv s f :
  pmm_inv s → 0 <= f < total_frames s → f ∉ free_frames s →
  pmm_inv (released s f) ∧ free_frames (released s f) = free_frames s ++ [f].
Proof.
  intros Hi Hf Hnew. destruct (push_stack_ok s f Hi Hf Hnew) as [_ Hlt].
  pose proof (inv_top _ Hi). pose proof (inv_len_stk _ Hi). pose proof (inv_len_rc _ Hi).
  assert (free_frames (released s f) = free_frames s ++ [f]) as Hfree.
  { unfold free_frames, released. simpl.
    replace (Z.to_nat (stack_top s + 1)) with (S (Z.to_nat (stack_top s))) by lia.
    apply take_insert_push. lia. }
  split; [|done]. split; try solve [inv_field Hi].
  - rewrite Hfree. apply NoDup_app. split_and!; [apply (inv_nodup _ Hi)| |apply NoDup_singleton].
    intros x Hx ->%list_elem_of_singleton. done.
  - rewrite Hfree. intros x Hx. change (refs (released s f)) with (<[Z.to_nat f := 0]> (refs s)).
    apply elem_of_app in Hx as [Hx| ->%list_elem_of_singleton].
    + destruct (inv_free _ Hi x Hx) as [? Hr]. split; [done|].
      rewrite zget_insert by lia. by case_decide.
    + split; [done|]. rewrite zget_insert by lia. by rewrite decide_True.
  - intros g r Hg. assert (0 <= g) by (apply zget_Some_range in Hg; lia).
    change (refs (released s f)) with (<[Z.to_nat f := 0]> (refs s)) in Hg.
    rewrite zget_insert in Hg by lia.
    case_decide; [simplify_eq; lia|]. by eapply inv_byte.
  - pose proof (inv_used _ Hi). simpl. lia.
Qed.

Lemma zget_refs_insert s f v g :
  pmm_inv s → 0 <= f < total_frames s → 0 <= g →
  zget (<[Z.to_nat f := v]> (refs s)) g = if decide (f = g) then Some v else zget (refs s) g.
Proof. intros Hi Hf Hg. apply zget_insert; [|done]. by rewrite (inv_len_rc _ Hi). Qed.

Lemma total_lt_max s : pmm_inv s → total_frames s < U32_MAX.
Proof. intros Hi. pose proof (inv_total _ Hi). unfold U32_MAX. lia. Qed.

(** A count update that keeps the frame in use. *)
Lemma set_ref_inv s f v :
  pmm_inv s → 0 <= f < total_frames s → 0 <= v < 256 → (f ∉ free_frames s) →
  pmm_inv (set_ref_counts (Some (<[Z.to_nat f := v]> (refs s))) s).
Proof.
  intros Hi Hf Hv Hnew. split; try solve [inv_field Hi].
  - intros g Hg. pose proof Hg as Hg'. apply (inv_free _ Hi) in Hg as [? Hg].
    split; [done|]. change (zget (<[Z.to_nat f := v]> (refs s)) g = Some 0).
    rewrite zget_refs_insert by (done || lia).
    rewrite decide_False; [done|]. by intros <-.
  - intros g r Hg. assert (0 <= g) by (apply zget_Some_range in Hg; lia).
    change (zget (<[Z.to_nat f := v]> (refs s)) g = Some r) in Hg.
    rewrite zget_refs_insert in Hg by done.
    case_decide; [simplify_eq; lia|]. by eapply inv_byte.
Qed.

Lemma used_frame_not_free s f r :
  pmm_inv s → zget (refs s) f = Some r → 0 < r → f ∉ free_frames s.
Proof. intros Hi Hr Hpos Hin. apply (inv_free _ Hi) in Hin as [_ ?]. simplify_eq. lia. Qed.

(** The state after a successful [pmm_alloc_frame] that popped [f]. *)
Definition allocated (s : pmm) (f : Z) : pmm :=
  mk_pmm (frame_stack s) (stack_top s - 1) (stack_capacity s) (used_frames s + 1) false
    (phy_ram_size s) (phy_ram_end s) (total_frames s) (Some (<[Z.to_nat f := 1]> (refs s))).

Lemma free_frames_pop s :
  pmm_inv s → stack_top s ≠ 0 →
  ∃ f, free_frames s = free_frames (allocated s f) ++ [f] ∧
    zget (frame_stack s) (stack_top s - 1) = Some f.
Proof.
  intros Hi Ht. pose proof (inv_top _ Hi). pose proof (inv_len_stk _ Hi).
  destruct (zget_is_Some (frame_stack s) (stack_top s - 1)) as [f Hf]; [lia|].
  exists f. split; [|done]. unfold free_frames. simpl.
  replace (Z.to_nat (stack_top s)) with (S (Z.to_nat (stack_top s - 1))) by lia.
  apply take_S_r. revert Hf. unfold zget. by rewrite decide_True by lia.
Qed.

Lemma allocated_inv s f :
  pmm_inv s → stack_top s ≠ 0 → free_frames s = free_frames (allocated s f) ++ [f] →
  pmm_inv (allocated s f).
Proof.
  intros Hi Ht Hfree. pose proof (inv_top _ Hi). pose proof (inv_used _ Hi).
  pose proof (inv_nodup _ Hi) as Hnd. rewrite Hfree in Hnd.
  apply NoDup_app in Hnd as (Hnd & Hdisj & _).
  assert (0 <= f < total_frames s) as Hf.
  { apply (inv_free _ Hi). rewrite Hfree. apply elem_of_app. right. by left. }
  split; try solve [inv_field Hi].
  - intros g Hg. assert (g ∈ free_frames s) as [? Hr]%(inv_free _ Hi).
    { rewrite Hfree. apply elem_of_app. by left. }
    split; [done|]. change (zget (<[Z.to_nat f := 1]> (refs s)) g = Some 0).
    rewrite zget_refs_insert by (done || lia). rewrite decide_False; [done|]. intros ->. apply (Hdisj g Hg). by left.
  - intros g r Hg. assert (0 <= g) by (apply zget_Some_range in Hg; lia).
    change (zget (<[Z.to_nat f := 1]> (refs s)) g = Some r) in Hg.
    rewrite zget_refs_insert in Hg by done.
    case_decide; [simplify_eq; lia|]. by eapply inv_byte.
Qed.

Lemma relock_id s : pmm_lock s = false → set_pmm_lock false (set_pmm_lock true s) = s.
Proof. destruct s; simpl. by intros ->. Qed.

(** [pmm_alloc_frame] on every branch. *)
Lemma pmm_alloc_frame_cases s :
  pmm_inv s →
  (stack_top s = 0 ∧ pmm_alloc_frame s = Done (0, s)) ∨
  (∃ f, pmm_alloc_frame s = Done (PHY_RAM_BASE + f * PAGE_SIZE, allocated s f) ∧
        free_frames s = free_frames (allocated s f) ++ [f] ∧ pmm_inv (allocated s f)).
Proof.
  intros Hi. pose proof (inv_top _ Hi). pose proof (inv_total _ Hi). pose proof (inv_used _ Hi).
  unfold pmm_alloc_frame, pmm_acquire, pmm_release. munfold. simpl.
  rewrite (inv_lock _ Hi). simpl. destruct (Z.eqb_spec (stack_top s) 0) as [Ht|Ht].
  { left. by rewrite relock_id by apply Hi. }
  right. destruct (free_frames_pop s Hi Ht) as (f & Hfree & Hpop).
  exists f. split; [|split; [done|by apply allocated_inv]].
  assert (f ∈ free_frames s) as Hin by (rewrite Hfree; apply elem_of_app; right; by left).
  pose proof (inv_free _ Hi f Hin) as [Hf _].
  unfold read_stack, write_ref, of_opt. simpl. rewrite u32_id by lia. rewrite Hpop. simpl.
  rewrite (inv_rc _ Hi). simpl. rewrite zset_is_Some by (by rewrite (inv_len_rc _ Hi)).
  rewrite u32_id by lia. simpl. rewrite (index_to_phys_in s) by done. done.
Qed.

(** [pmm_free_frame] on a managed frame: the last reference pushes the frame. *)
Lemma pmm_free_frame_cases s f off :
  pmm_inv s → 0 <= f < total_frames s → 0 <= off < PAGE_SIZE → f ∉ free_frames s →
  ∃ r, zget (refs s) f = Some r ∧
  pmm_free_frame (PHY_RAM_BASE + f * PAGE_SIZE + off) s =
    Done (tt, if decide (1 < r) then set_ref_counts (Some (<[Z.to_nat f := r - 1]> (refs s))) s
              else released s f).
Proof.
  intros Hi Hf Ho Hnew. destruct (read_ref_ok s f Hi Hf) as (r & Hr & _ & Hb).
  exists r. split; [done|].
  destruct (push_stack_ok s f Hi Hf Hnew) as [_ Hlt].
  pose proof (inv_top _ Hi). pose proof (inv_total _ Hi). pose proof (inv_len_stk _ Hi).
  pose proof (inv_used _ Hi). pose proof (total_lt_max s Hi).
  unfold pmm_free_frame, pmm_acquire, pmm_release. munfold. simpl.
  rewrite (inv_lock _ Hi). simpl.
  change (phys_to_index (set_pmm_lock true s)) with (phys_to_index s).
  rewrite phys_to_index_in by done.
  rewrite (proj2 (Z.eqb_neq f U32_MAX)), (proj2 (Z.leb_gt _ f)) by lia. simpl.
  unfold read_ref, write_ref, of_opt. simpl. rewrite (inv_rc _ Hi), Hr. simpl.
  unfold push_stack, write_stack. munfold.
  destruct (Z.ltb_spec 0 r); simpl.
  - rewrite (inv_rc _ Hi), zset_is_Some by (by rewrite (inv_len_rc _ Hi)). simpl.
    rewrite u8_id by lia. destruct (Z.eqb_spec (r - 1) 0); simpl.
    + rewrite decide_False, zset_is_Some by lia. simpl. rewrite !u32_id by lia.
      unfold released. by replace (r - 1) with 0 by lia.
    + rewrite decide_True by lia. f_equal. f_equal. destruct s; simpl in *.
      unfold set_ref_counts, set_pmm_lock; simpl. f_equal. symmetry. apply (inv_lock _ Hi).
  - rewrite (inv_cap _ Hi), (proj2 (Z.leb_gt _ _)), decide_False by lia. simpl.
    rewrite zset_is_Some by lia. simpl. rewrite !u32_id by lia. unfold released.
    replace (<[Z.to_nat f := 0]> (refs s)) with (refs s); [by rewrite <- (inv_rc _ Hi)|].
    symmetry. apply list_insert_id. revert Hr. unfold zget. rewrite decide_True by lia.
    intros ->. f_equal. lia.
Qed.

(** ** Properties *)

Lemma frame_addr_cases s a :
  pmm_inv s → phys_to_index s a ≠ U32_MAX →
  0 <= frame_idx a < total_frames s ∧
  ∃ off, 0 <= off < PAGE_SIZE ∧ a = PHY_RAM_BASE + frame_idx a * PAGE_SIZE + off.
Proof.
  intros Hi Hne. destruct (phys_to_index_range s a Hi) as [|[Hr Heq]]; [done|].
  rewrite Heq in Hr. split; [done|].
  exists ((a - PHY_RAM_BASE) mod PAGE_SIZE). unfold frame_idx, PAGE_SIZE in *. zlia.
Qed.

(** C29: [pmm_alloc_frame] either reports exhaustion and changes nothing, or
    hands out a frame that was free, leaves it off the free stack with
    reference count one, and touches no other frame's count. *)
Theorem pmm_alloc_frame_spec s :
  pmm_inv s →
  ∃ a s', pmm_alloc_frame s = Done (a, s') ∧ pmm_inv s' ∧
  ((free_frames s = [] ∧ a = 0 ∧ s' = s) ∨
   ∃ f, a = PHY_RAM_BASE + f * PAGE_SIZE ∧ free_frames s = free_frames s' ++ [f] ∧
     (f ∉ free_frames s') ∧ refs s' = <[Z.to_nat f := 1]> (refs s)).
Proof.
  intros Hi. destruct (pmm_alloc_frame_cases s Hi) as [[Ht He]|(f & He & Hfree & Hi')].
  - exists 0, s. split; [done|]. split; [done|]. left. split; [|done].
    unfold free_frames. by rewrite Ht.
  - do 2 eexists. split; [done|]. split; [done|]. right. exists f. split; [done|].
    split; [done|]. split; [|done]. pose proof (inv_nodup _ Hi) as Hnd. rewrite Hfree in Hnd.
    apply NoDup_app in Hnd as (_ & Hd & _). intros Hf. apply (Hd f Hf). by left.
Qed.

Lemma pmm_free_unmanaged s a :
  pmm_inv s → phys_to_index s a = U32_MAX → pmm_free_frame a s = Done (tt, s).
Proof.
  intros Hi Ho. unfold pmm_free_frame, pmm_acquire, pmm_release. munfold.
  rewrite (inv_lock _ Hi). simpl.
  change (phys_to_index (set_pmm_lock true s) a) with (phys_to_index s a).
  rewrite Ho. simpl. by rewrite relock_id by apply Hi.
Qed.

(** [pmm_free_frame] drops one reference: a frame outside the managed
    range is ignored; a frame with further references only loses one; the last
    reference (or none) puts the frame on the free stack.  The invariant is
    kept as long as the frame is not already free. *)
Theorem pmm_free_frame_spec s a :
  pmm_inv s → frame_idx a ∉ free_frames s →
  ∃ s', pmm_free_frame a s = Done (tt, s') ∧ pmm_inv s' ∧
  ((phys_to_index s a = U32_MAX ∧ s' = s) ∨
   ∃ r, zget (refs s) (frame_idx a) = Some r ∧
     ((1 < r ∧ refs s' = <[Z.to_nat (frame_idx a) := r - 1]> (refs s) ∧
       free_frames s' = free_frames s) ∨
      (r <= 1 ∧ refs s' = <[Z.to_nat (frame_idx a) := 0]> (refs s) ∧
       free_frames s' = free_frames s ++ [frame_idx a]))).
Proof.
  intros Hi Hnew. destruct (decide (phys_to_index s a = U32_MAX)) as [Ho|Hne].
  - exists s. split; [by apply pmm_free_unmanaged|by eauto].
  - destruct (frame_addr_cases s a Hi Hne) as (Hf & off & Hoff & Ha).
    destruct (pmm_free_frame_cases s (frame_idx a) off Hi Hf Hoff Hnew) as (r & Hr & Hfree).
    rewrite <- Ha in Hfree. eexists. split; [done|].
    pose proof (inv_byte _ Hi _ _ Hr). case_decide.
    + split; [apply set_ref_inv; done || lia|]. right. exists r. split; [done|]. by left.
    + destruct (released_inv s (frame_idx a) Hi Hf Hnew). split; [done|].
      right. exists r. split; [done|]. right. split; [lia|done].
Qed.

(** A three-frame memory whose frame 0 is shared twice and whose other frames
    are free. *)
Definition demo_pmm : pmm :=
  mk_pmm [2; 1; 0] 2 3 1 false 12288 (PHY_RAM_BASE + 12288) 3 (Some [2; 0; 0]).

Lemma demo_pmm_inv : pmm_inv demo_pmm.
Proof.
  split; try done.
  - apply NoDup_cons. split; [by intros ?%list_elem_of_singleton|apply NoDup_singleton].
  - intros f [->| ->%list_elem_of_singleton]%elem_of_cons; split; try done.
  - intros f r Hr. pose proof (zget_Some_range _ _ _ Hr) as Hf. simpl in Hf.
    assert (f = 0 ∨ f = 1 ∨ f = 2) as [-> | [-> | ->]] by lia;
      vm_compute in Hr; simplify_eq; lia.
Defined.

Lemma pmm_alloc_frame_spec_witness :
  ∃ a s', pmm_alloc_frame demo_pmm = Done (a, s') ∧ pmm_inv s'.
Proof.
  destruct (pmm_alloc_frame_spec demo_pmm demo_pmm_inv) as (a & s' & H1 & H2 & _).
  exists a, s'. split; assumption.
Defined.

Lemma pmm_free_frame_spec_witness :
  ∃ s', pmm_free_frame (PHY_RAM_BASE + 5) demo_pmm = Done (tt, s') ∧ pmm_inv s'.
Proof.
  destruct (pmm_free_frame_spec demo_pmm (PHY_RAM_BASE + 5)) as (s' & H1 & H2 & _).
  - exact demo_pmm_inv.
  - vm_compute. intros H. inversion H as [|? ? ? H']; subst. inversion H' as [|? ? ? H'']; subst.
    inversion H''.
  - exists s'. split; assumption.
Defined.

(** [pmm_alloc_frame] on any unlocked state whose top slot holds [f]. *)
Lemma pmm_alloc_top s f l :
  pmm_lock s = false → ref_counts s = Some l → 0 <= f < Z.of_nat (length l) →
  0 < stack_top s < 2 ^ 32 → zget (frame_stack s) (stack_top s - 1) = Some f →
  pmm_alloc_frame s = Done (index_to_phys f,
    mk_pmm (frame_stack s) (stack_top s - 1) (stack_capacity s) (u32 (used_frames s + 1)) false
      (phy_ram_size s) (phy_ram_end s) (total_frames s) (Some (<[Z.to_nat f := 1]> l))).
Proof.
  intros Hlk Hrc Hf Ht Htop. unfold pmm_alloc_frame, pmm_acquire, pmm_release. munfold.
  rewrite Hlk. simpl. rewrite (proj2 (Z.eqb_neq (stack_top s) 0)) by lia. simpl.
  rewrite (u32_id (stack_top s - 1)) by lia.
  unfold read_stack, write_ref. simpl. rewrite Htop. simpl. rewrite Hrc.
  rewrite zset_is_Some by lia. done.
Qed.

(** The second [pmm_free_frame] of a double free. *)
Lemma pmm_free_again s f :
  pmm_inv s → 0 <= f < total_frames s → stack_top s + 2 <= total_frames s →
  pmm_free_frame (PHY_RAM_BASE + f * PAGE_SIZE) (released s f) = Done (tt,
    set_frame_stack (<[Z.to_nat (stack_top s + 1) := f]> (frame_stack (released s f)))
      (set_stack_top (stack_top s + 2)
        (set_used_frames (used_frames s - 2) (released s f)))).
Proof.
  intros Hi Hf Ht. pose proof (inv_top _ Hi). pose proof (inv_total _ Hi).
  pose proof (inv_len_stk _ Hi). pose proof (inv_used _ Hi). pose proof (inv_cap _ Hi).
  pose proof (total_lt_max s Hi).
  unfold pmm_free_frame, pmm_acquire, pmm_release. munfold. simpl.
  change (phys_to_index (set_pmm_lock true (released s f))) with (phys_to_index s).
  rewrite <- (Z.add_0_r (_ + _)), phys_to_index_in by done.
  rewrite (proj2 (Z.eqb_neq f U32_MAX)), (proj2 (Z.leb_gt _ f)) by lia. simpl.
  unfold read_ref, push_stack, write_stack. munfold. simpl.
  rewrite (zget_refs_insert s), decide_True by (done || lia). simpl.
  rewrite (proj2 (Z.leb_gt _ _)) by lia. simpl.
  rewrite zset_is_Some by (rewrite length_insert; lia).
  simpl. rewrite !u32_id by lia.
  unfold set_pmm_lock, set_used_frames, set_frame_stack, set_stack_top; simpl.
  by replace (stack_top s + 1 + 1) with (stack_top s + 2) by lia;
     replace (used_frames s - 1 - 1) with (used_frames s - 2) by lia.
Qed.

(** freeing a frame a second time is not detected: a frame whose count has
    dropped to zero is pushed again, so after a double free two successive
    allocations return the same frame to two owners. *)
Theorem pmm_double_free s f :
  pmm_inv s → zget (refs s) f = Some 1 → stack_top s + 2 <= total_frames s →
  let a := PHY_RAM_BASE + f * PAGE_SIZE in
  ∃ s', (pmm_free_frame a;;; (pmm_free_frame a;;;
         (x <- pmm_alloc_frame;; (y <- pmm_alloc_frame;; ret (x, y)))))%prog s = Done ((a, a), s').
Proof.
  intros Hi Hr Ht a. assert (0 <= f < total_frames s) as Hf.
  { apply zget_Some_range in Hr. by rewrite (inv_len_rc _ Hi) in Hr. }
  assert (f ∉ free_frames s) as Hnew by (eapply used_frame_not_free; [done..|lia]).
  destruct (pmm_free_frame_cases s f 0 Hi Hf) as (r & Hr' & E1); [done..|]. simplify_eq.
  rewrite Z.add_0_r, decide_False in E1 by lia.
  pose proof (inv_top _ Hi). pose proof (inv_total _ Hi). pose proof (inv_len_stk _ Hi).
  pose proof (inv_len_rc _ Hi).
  rewrite (bind_Done _ _ _ _ _ E1).
  rewrite (bind_Done _ _ _ _ _ (pmm_free_again s f Hi Hf Ht)).
  set (s2 := set_frame_stack _ _).
  pose proof (pmm_alloc_top s2 f (<[Z.to_nat f := 0]> (refs s))) as E3.
  rewrite (bind_Done _ _ _ _ _ (E3 ltac:(done) ltac:(done) ltac:(rewrite length_insert; lia)
    ltac:(simpl; lia) ltac:(simpl; rewrite zget_insert, decide_True;
      rewrite ?length_insert; lia || done))).
  set (s3 := mk_pmm _ _ _ _ _ _ _ _ _).
  pose proof (pmm_alloc_top s3 f (<[Z.to_nat f := 1]> (<[Z.to_nat f := 0]> (refs s)))) as E4.
  rewrite (bind_Done _ _ _ _ _ (E4 ltac:(done) ltac:(done) ltac:(rewrite !length_insert; lia)
    ltac:(simpl; lia) ltac:(simpl; rewrite zget_insert, decide_False, zget_insert, decide_True;
      rewrite ?length_insert; lia || done))).
  rewrite (index_to_phys_in s) by done. eexists. reflexivity.
Qed.

Lemma pmm_double_free_witness :
  ∃ s s', (pmm_free_frame PHY_RAM_BASE;;; (pmm_free_frame PHY_RAM_BASE;;;
    (x <- pmm_alloc_frame;; (y <- pmm_alloc_frame;; ret (x, y)))))%prog s
    = Done ((PHY_RAM_BASE, PHY_RAM_BASE), s') ∧ pmm_inv s.
Proof.
  set (s := mk_pmm [2; 0; 0] 1 3 2 false 12288 (PHY_RAM_BASE + 12288) 3 (Some [1; 1; 0])).
  assert (pmm_inv s) as Hi.
  { split; try done.
    - apply NoDup_singleton.
    - intros f ->%list_elem_of_singleton; split; done.
    - intros f r Hr. pose proof (zget_Some_range _ _ _ Hr) as Hf. simpl in Hf.
      assert (f = 0 ∨ f = 1 ∨ f = 2) as [-> | [-> | ->]] by lia;
        vm_compute in Hr; simplify_eq; lia. }
  destruct (pmm_double_free s 0) as (s' & E).
  - exact Hi.
  - reflexivity.
  - simpl. lia.
  - exists s, s'. split; [exact E|exact Hi].
Defined.

(** ** Reference counts saturate *)

Lemma pmm_inc_ref_cases s f r :
  pmm_inv s → 0 <= f < total_frames s → zget (refs s) f = Some r →
  pmm_inc_ref (PHY_RAM_BASE + f * PAGE_SIZE) s = Done (tt,
    if decide (r < 255) then set_ref_counts (Some (<[Z.to_nat f := r + 1]> (refs s))) s else s).
Proof.
  intros Hi Hf Hr. pose proof (inv_byte _ Hi _ _ Hr). pose proof (total_lt_max s Hi).
  unfold pmm_inc_ref, pmm_acquire, pmm_release. munfold.
  rewrite <- (Z.add_0_r (_ + _)), (phys_to_index_in s f) by done.
  rewrite (inv_rc _ Hi), (proj2 (Z.eqb_neq f U32_MAX)) by lia. simpl.
  rewrite (inv_lock _ Hi). unfold read_ref, write_ref. simpl.
  rewrite (inv_rc _ Hi), Hr. simpl. destruct (Z.ltb_spec r 255).
  - rewrite decide_True by lia. simpl. rewrite (inv_rc _ Hi).
    rewrite zset_is_Some by (by rewrite (inv_len_rc _ Hi)). rewrite u8_id by lia.
    do 2 f_equal. destruct s; unfold set_pmm_lock, set_ref_counts; simpl in *.
    f_equal. symmetry. apply (inv_lock _ Hi).
  - rewrite decide_False by lia. by rewrite relock_id by apply Hi.
Qed.

(** [n] calls of [pmm_free_frame] on the same address. *)
Fixpoint free_times (n : nat) (a : Z) : M pmm unit :=
  match n with
  | O => ret tt
  | S n' => bind (pmm_free_frame a) (λ _, free_times n' a)
  end.

Lemma free_times_shared n : ∀ s f r,
  pmm_inv s → zget (refs s) f = Some r → Z.of_nat n < r →
  ∃ s', free_times n (PHY_RAM_BASE + f * PAGE_SIZE) s = Done (tt, s') ∧ pmm_inv s' ∧
    zget (refs s') f = Some (r - Z.of_nat n) ∧ free_frames s' = free_frames s ∧
    total_frames s' = total_frames s.
Proof.
  induction n as [|n IH]; intros s f r Hi Hr Hn.
  { exists s. replace (r - Z.of_nat 0) with r by lia. done. }
  assert (0 <= f < total_frames s) as Hf.
  { apply zget_Some_range in Hr. by rewrite (inv_len_rc _ Hi) in Hr. }
  assert (f ∉ free_frames s) as Hnew by (eapply used_frame_not_free; [done..|lia]).
  destruct (pmm_free_frame_cases s f 0 Hi Hf) as (r' & Hr' & E1); [done..|].
  assert (r' = r) as -> by congruence.
  rewrite Z.add_0_r, decide_True in E1 by lia. pose proof (inv_byte _ Hi _ _ Hr).
  simpl free_times. rewrite (bind_Done _ _ _ _ _ E1).
  destruct (IH (set_ref_counts (Some (<[Z.to_nat f:=r - 1]> (refs s))) s) f (r - 1))
    as (s' & E & Hi' & Hr1 & Hfree & Htot).
  - apply set_ref_inv; done || lia.
  - change (zget (<[Z.to_nat f := r - 1]> (refs s)) f = Some (r - 1)).
    rewrite zget_refs_insert, decide_True by (done || lia). done.
  - lia.
  - exists s'. split; [done|]. split; [done|]. split; [|done]. rewrite Hr1. f_equal. lia.
Qed.

(** the count saturates at 255 while releases are not limited, so a frame
    with more than 255 holders is put on the free stack while references to it
    remain: here 256 references are taken (the count was already 255, one more
    is added) and only 255 are released. *)
Theorem pmm_inc_ref_saturates s f :
  pmm_inv s → zget (refs s) f = Some 255 →
  let a := PHY_RAM_BASE + f * PAGE_SIZE in
  ∃ s', (pmm_inc_ref a;;; free_times 255 a)%prog s = Done (tt, s') ∧ f ∈ free_frames s'.
Proof.
  intros Hi Hr a. assert (0 <= f < total_frames s) as Hf.
  { apply zget_Some_range in Hr. by rewrite (inv_len_rc _ Hi) in Hr. }
  pose proof (pmm_inc_ref_cases s f 255 Hi Hf Hr) as E1. rewrite decide_False in E1 by lia.
  rewrite (bind_Done _ _ _ _ _ E1).
  change 255%nat with (254 + 1)%nat.
  assert (∀ n s, free_times (n + 1) a s = bind (free_times n a) (λ _, pmm_free_frame a) s) as Hlast.
  { induction n as [|n IHn]; intros s0; simpl.
    - unfold bind at 1 2. simpl. unfold ret. by destruct (pmm_free_frame a s0) as [[[] ?]| |].
    - specialize (IHn). unfold bind in *.
      destruct (pmm_free_frame a s0) as [[[] ?]| |]; [apply IHn|done|done]. }
  rewrite Hlast.
  destruct (free_times_shared 254 s f 255 Hi Hr ltac:(lia)) as (s1 & E2 & Hi1 & Hr1 & Hfree & Htot).
  rewrite (bind_Done _ _ _ _ _ E2).
  assert (f ∉ free_frames s1) as Hnew by (eapply used_frame_not_free; [done..|lia]).
  destruct (pmm_free_frame_cases s1 f 0 Hi1) as (r & Hr' & E3); [lia|done|done|]. simplify_eq.
  rewrite Z.add_0_r, decide_False in E3 by lia. eexists. split; [exact E3|].
  destruct (released_inv s1 f Hi1 ltac:(lia) Hnew) as [_ ->]. apply elem_of_app. right. by left.
Qed.

Lemma pmm_inc_ref_saturates_witness :
  ∃ s s', (pmm_inc_ref PHY_RAM_BASE;;; free_times 255 PHY_RAM_BASE)%prog s = Done (tt, s') ∧
    0 ∈ free_frames s'.
Proof.
  set (s := mk_pmm [0] 0 1 1 false 4096 (PHY_RAM_BASE + 4096) 1 (Some [255])).
  destruct (pmm_inc_ref_saturates s 0) as (s' & E & H).
  - split; try done.
    + apply NoDup_nil_2.
    + intros f H. inversion H.
    + intros f r Hr. pose proof (zget_Some_range _ _ _ Hr) as Hf. simpl in Hf.
      assert (f = 0) as -> by lia. vm_compute in Hr. simplify_eq. lia.
  - reflexivity.
  - exists s, s'. split; assumption.
Defined.

(** ** The allocator implements the interface *)

Lemma ref_of_frame s f : ref_of s (PHY_RAM_BASE + f * PAGE_SIZE) = default 0 (zget (refs s) f).
Proof. unfold ref_of. by rewrite frame_idx_addr. Qed.

Lemma ref_of_insert s s' f v b :
  pmm_inv s → 0 <= f < total_frames s → refs s' = <[Z.to_nat f := v]> (refs s) → frame_addr s b →
  ref_of s' b = if decide (b = PHY_RAM_BASE + f * PAGE_SIZE) then v else ref_of s b.
Proof.
  intros Hi Hf Hrefs (g & Hg & ->). rewrite !ref_of_frame, Hrefs.
  rewrite zget_refs_insert by (done || lia).
  unfold PAGE_SIZE. repeat case_decide; try done; lia.
Qed.

Lemma pmm_alloc_law s : pmm_inv s →
  ∃ a s', pmm_alloc_frame s = Done (a, s') ∧ pmm_inv s' ∧
    (∀ b, frame_addr s' b ↔ frame_addr s b) ∧
    ((a = 0 ∧ s' = s) ∨ (frame_addr s a ∧ ref_of s a = 0 ∧
      ∀ b, frame_addr s b → ref_of s' b = if decide (b = a) then 1 else ref_of s b)).
Proof.
  intros Hi. destruct (pmm_alloc_frame_cases s Hi) as [[Ht He]|(f & He & Hfree & Hi')].
  { exists 0, s. split_and!; auto. }
  assert (f ∈ free_frames s) as [Hf Hr]%(inv_free _ Hi).
  { rewrite Hfree. apply elem_of_app. right. by left. }
  do 2 eexists. split; [done|]. split; [done|]. split; [done|]. right.
  split; [by exists f|]. split.
  - rewrite ref_of_frame. by rewrite Hr.
  - intros b Hb. by apply (ref_of_insert s).
Qed.

Lemma pmm_free_law s a : pmm_inv s → frame_addr s a → 0 < ref_of s a →
  ∃ s', pmm_free_frame a s = Done (tt, s') ∧ pmm_inv s' ∧
    (∀ b, frame_addr s' b ↔ frame_addr s b) ∧
    ∀ b, frame_addr s b → ref_of s' b = if decide (b = a) then ref_of s a - 1 else ref_of s b.
Proof.
  intros Hi (f & Hf & ->) Hpos. rewrite ref_of_frame in *.
  destruct (read_ref_ok s f Hi Hf) as (r & Hr & _ & Hb). rewrite Hr in *. simpl in Hpos.
  assert (f ∉ free_frames s) as Hnew by by eapply used_frame_not_free.
  destruct (pmm_free_frame_cases s f 0 Hi Hf) as (r' & Hr' & E1); [done..|].
  assert (r' = r) as -> by congruence.
  rewrite Z.add_0_r in E1. eexists. split; [done|]. simpl default. case_decide.
  - split; [apply set_ref_inv; done || lia|]. split; [done|].
    intros b Hb'. by apply (ref_of_insert s).
  - destruct (released_inv s f Hi Hf Hnew) as [Hi' _]. split; [done|]. split; [done|].
    intros b Hb'. rewrite (ref_of_insert s (released s f) f 0) by done.
    by replace (r - 1) with 0 by lia.
Qed.

Lemma pmm_free_other_law s a :
  pmm_inv s → a mod 4096 = 0 → frame_addr s a ∨ pmm_free_frame a s = Done (tt, s).
Proof.
  intros Hi Hm. destruct (decide (phys_to_index s a = U32_MAX)) as [|Hne].
  { right. by apply pmm_free_unmanaged. }
  destruct (frame_addr_cases s a Hi Hne) as (Hf & off & Hoff & Ha). left.
  exists (frame_idx a). split; [done|]. unfold PHY_RAM_BASE, PAGE_SIZE in *.
  assert (off = 0) as -> by zlia. lia.
Qed.

Lemma pmm_inc_law s a : pmm_inv s → frame_addr s a → 0 < ref_of s a → ref_of s a < 255 →
  ∃ s', pmm_inc_ref a s = Done (tt, s') ∧ pmm_inv s' ∧
    (∀ b, frame_addr s' b ↔ frame_addr s b) ∧
    ∀ b, frame_addr s b → ref_of s' b = if decide (b = a) then ref_of s a + 1 else ref_of s b.
Proof.
  intros Hi (f & Hf & ->) Hpos Hlt. rewrite ref_of_frame in *.
  destruct (read_ref_ok s f Hi Hf) as (r & Hr & _ & Hb). rewrite Hr in *. simpl in *.
  assert (f ∉ free_frames s) as Hnew by by eapply used_frame_not_free.
  pose proof (pmm_inc_ref_cases s f r Hi Hf Hr) as E. rewrite decide_True in E by done.
  eexists. split; [done|]. split; [apply set_ref_inv; done || lia|]. split; [done|].
  intros b Hb'. by apply (ref_of_insert s).
Qed.

Lemma frame_addr_bounds s a : pmm_inv s → frame_addr s a → a mod 4096 = 0 ∧ 0 < a < 2 ^ 39.
Proof.
  intros Hi (f & Hf & ->). pose proof (inv_total _ Hi).
  unfold PHY_RAM_BASE, PAGE_SIZE in *. split; [|lia].
  replace (1073741824 + f * 4096) with ((262144 + f) * 4096) by lia. by apply Z.mod_mul.
Qed.

#[export] Instance pmm_allocator : FrameAllocator pmm := {
  fa_alloc := pmm_alloc_frame;
  fa_free := pmm_free_frame;
  fa_inc := pmm_inc_ref;
  fa_inv := pmm_inv;
  fa_frame := frame_addr;
  fa_ref := ref_of;
  fa_frame_bounds := frame_addr_bounds;
  fa_alloc_spec := pmm_alloc_law;
  fa_free_spec := pmm_free_law;
  fa_free_other := pmm_free_other_law;
  fa_inc_spec := pmm_inc_law;
}.

(** ** Initialisation *)

(** The number of frames below the reserved end. *)
Definition reserved_frames (reserved_end total : Z) : Z :=
  Z.max 0 (Z.min total ((reserved_end - PHY_RAM_BASE + 4095) / 4096)).

(** The state of the loop after [k] rounds with [R] reserved frames. *)
Definition init_state (k R total ram_size : Z) : pmm :=
  let p := Z.max 0 (k - R) in
  let u := Z.min k R in
  mk_pmm (seqZ R p ++ replicate (Z.to_nat (total - p)) 0) p total u false ram_size
    (PHY_RAM_BASE + ram_size) total
    (Some (replicate (Z.to_nat u) 1 ++ replicate (Z.to_nat (total - u)) 0)).

Lemma insert_at_end {A} (l : list A) n x v i :
  length l = i → (0 < n)%nat →
  <[i := v]> (l ++ replicate n x) = (l ++ [v]) ++ replicate (n - 1) x.
Proof.
  intros <- Hn. destruct n as [|n]; [lia|]. simpl.
  rewrite insert_app_r_alt, Nat.sub_diag by lia. simpl. by rewrite <- app_assoc, Nat.sub_0_r.
Qed.

Lemma zget_replicate_tail (l : list Z) n x i :
  Z.of_nat (length l) <= i < Z.of_nat (length l + n) → (l ++ replicate n x) !! Z.to_nat i = Some x.
Proof.
  intros Hi. rewrite lookup_app_r by lia. apply lookup_replicate. split; [done|lia].
Qed.

Lemma init_step_state e k total ram :
  0 <= k < total → total < 2 ^ 26 → 0 <= e < 2 ^ 63 → ram = total * 4096 →
  let R := reserved_frames e total in
  pmm_init_step e k (init_state k R total ram) = Done (tt, init_state (k + 1) R total ram).
Proof.
  intros Hk Ht He Hram R. assert (0 <= R <= total) as HR by (subst R; unfold reserved_frames; lia).
  assert (index_to_phys k = PHY_RAM_BASE + k * 4096) as Ha.
  { unfold index_to_phys. rewrite Z.shiftl_mul_pow2 by (unfold PAGE_SHIFT; lia).
    change (2 ^ PAGE_SHIFT) with 4096. apply u64_id. unfold PHY_RAM_BASE in *. lia. }
  unfold pmm_init_step. rewrite Ha. unfold write_ref. munfold. simpl.
  rewrite zset_is_Some by (rewrite length_app, !length_replicate; lia).
  rewrite list_insert_id by (apply zget_replicate_tail; rewrite length_replicate; lia).
  assert (PHY_RAM_BASE + k * 4096 < e ↔ k < R) as Hres.
  { subst R. unfold reserved_frames, PHY_RAM_BASE in *. zlia. }
  rewrite (proj2 (Z.leb_le PHY_RAM_BASE _)) by lia. simpl.
  destruct (Z.ltb_spec (PHY_RAM_BASE + k * 4096) e) as [Hlt|Hge]; simpl.
  - apply Hres in Hlt.
    rewrite zset_is_Some by (rewrite length_app, !length_replicate; lia).
    rewrite (insert_at_end (replicate _ 1)) by (rewrite ?length_replicate; lia).
    rewrite u32_id by lia. do 2 f_equal. unfold init_state.
    replace (Z.max 0 (k + 1 - R)) with (Z.max 0 (k - R)) by lia.
    unfold set_ref_counts, set_used_frames; simpl. f_equal; [lia|]. f_equal. f_equal.
    + replace (Z.to_nat (Z.min (k + 1) R)) with (Z.to_nat (Z.min k R) + 1)%nat by lia.
      by rewrite replicate_add.
    + f_equal. lia.
  - assert (R <= k) by (destruct (decide (k < R)) as [Hc|]; [apply Hres in Hc|]; lia).
    rewrite (proj2 (Z.ltb_lt _ total)) by lia. unfold push_stack, write_stack. munfold. simpl.
    rewrite zset_is_Some by (rewrite length_app, length_replicate, length_seqZ; lia).
    rewrite insert_at_end by (rewrite ?length_seqZ; lia).
    rewrite u32_id by lia. do 2 f_equal. unfold init_state.
    replace (Z.min (k + 1) R) with (Z.min k R) by lia.
    unfold set_frame_stack, set_stack_top, set_ref_counts; simpl. f_equal; [|lia]. f_equal.
    + replace (Z.max 0 (k + 1 - R)) with (Z.max 0 (k - R) + 1) by lia.
      rewrite seqZ_snoc by lia. by replace (R + Z.max 0 (k - R)) with k by lia.
    + f_equal. lia.
Qed.

Lemma pmm_init_run kernel_end total :
  let e := pmm_reserved_end kernel_end total in
  let R := reserved_frames e total in
  0 < total < 2 ^ 26 → 0 <= e < 2 ^ 63 →
  pmm_init kernel_end (total * PAGE_SIZE) pmm_boot =
    Done (tt, init_state total R total (total * PAGE_SIZE)).
Proof.
  intros e R Ht He. assert (0 <= R <= total) as HR by (subst R; unfold reserved_frames; lia).
  unfold pmm_init. rewrite Z.div_mul by done. rewrite (u32_id total) by lia.
  rewrite (bind_Done _ _ _ tt (init_state 0 R total (total * PAGE_SIZE))).
  - destruct (for_each_inv (λ l s, ∃ k, 0 <= k <= total ∧ l = seqZ k (total - k) ∧
      s = init_state k R total (total * PAGE_SIZE)) (pmm_init_step e))
      with (l := seqZ 0 total) (s := init_state 0 R total (total * PAGE_SIZE))
      as (s' & Hrun & k & Hkt & Hnil & ->).
    + intros x l s (k & Hkt & Hl & ->). destruct (decide (k = total)) as [->|].
      { by rewrite Z.sub_diag, seqZ_nil in Hl by lia. }
      rewrite seqZ_cons in Hl by lia. injection Hl as -> ->. eexists. split.
      * apply init_step_state; [lia|lia|done|done].
      * exists (k + 1). split; [lia|]. split; [|done]. f_equal; lia.
    + exists 0. split; [lia|]. by rewrite Z.sub_0_r.
    + fold e. rewrite Hrun. assert (k = total) as ->; [|done].
      symmetry in Hnil. apply (f_equal length) in Hnil.
      rewrite length_seqZ in Hnil. simpl in Hnil. lia.
  - unfold modify, init_state. simpl. do 2 f_equal.
    rewrite (Z.max_l 0 (0 - R)), (Z.min_l 0 R), Z.sub_0_r, seqZ_nil by lia. simpl.
    f_equal. apply u64_id. unfold PHY_RAM_BASE, PAGE_SIZE in *. lia.
Qed.

Lemma init_state_free R total ram :
  0 <= R <= total → free_frames (init_state total R total ram) = seqZ R (total - R).
Proof.
  intros HR. unfold free_frames, init_state. simpl. rewrite (Z.max_r 0 (total - R)) by lia.
  rewrite take_app_le by (rewrite length_seqZ; lia). apply take_ge. rewrite length_seqZ. lia.
Qed.

Lemma init_state_refs R total ram f :
  0 <= R <= total → 0 <= f < total →
  zget (refs (init_state total R total ram)) f = Some (if decide (f < R) then 1 else 0).
Proof.
  intros HR Hf. unfold refs, init_state, zget. simpl. rewrite decide_True by lia.
  rewrite (Z.min_r total R) by lia. case_decide.
  - rewrite lookup_app_l by (rewrite length_replicate; lia).
    apply lookup_replicate. split; [done|lia].
  - apply zget_replicate_tail. rewrite length_replicate. lia.
Qed.

Lemma init_state_inv R total :
  0 <= R <= total → 0 < total < 2 ^ 26 → pmm_inv (init_state total R total (total * PAGE_SIZE)).
Proof.
  intros HR Ht. split; try done; try (simpl; lia).
  - unfold refs. simpl. rewrite length_app, !length_replicate. lia.
  - simpl. rewrite length_app, length_replicate, length_seqZ. lia.
  - rewrite init_state_free by done. apply NoDup_seqZ.
  - rewrite init_state_free by done. intros f Hf%elem_of_seqZ. split; [simpl; lia|].
    rewrite init_state_refs by lia. by rewrite decide_False by lia.
  - intros f r Hr. pose proof (zget_Some_range _ _ _ Hr) as Hf.
    unfold refs, init_state in Hf; simpl in Hf. rewrite length_app, !length_replicate in Hf.
    rewrite init_state_refs in Hr by lia. case_decide; simplify_eq; lia.
Qed.

(** [pmm_init] establishes the invariant: the free stack holds, in
    increasing order, exactly the frames above the kernel image and the
    allocator's own tables; the frames below are in use with count one. *)
Theorem pmm_init_correct kernel_end total :
  0 < total < 2 ^ 26 → PHY_RAM_BASE <= kernel_end < 2 ^ 60 →
  let e := pmm_reserved_end kernel_end total in
  ∃ s, pmm_init kernel_end (total * PAGE_SIZE) pmm_boot = Done (tt, s) ∧ pmm_inv s ∧
    free_frames s = seqZ (reserved_frames e total) (total - reserved_frames e total) ∧
    ∀ f, 0 <= f < total →
      zget (refs s) f = Some (if decide (PHY_RAM_BASE + f * PAGE_SIZE < e) then 1 else 0).
Proof.
  intros Ht Hk e.
  assert (0 <= e < 2 ^ 63) as He.
  { subst e. unfold pmm_reserved_end, PAGE_SIZE.
    rewrite (u64_id (kernel_end + 4096 - 1)) by (unfold PHY_RAM_BASE in *; lia).
    change (4096 - 1) with (2 ^ 12 - 1). rewrite andnot_ones by lia.
    rewrite u64_id; unfold PHY_RAM_BASE in *; zlia. }
  assert (0 <= reserved_frames e total <= total) as HR by (unfold reserved_frames; lia).
  eexists. split; [by apply pmm_init_run|]. fold e.
  split; [by apply init_state_inv|]. split; [by apply init_state_free|].
  intros f Hf. rewrite init_state_refs by done. f_equal.
  assert (PHY_RAM_BASE + f * PAGE_SIZE < e ↔ f < reserved_frames e total) as Hiff.
  { unfold reserved_frames, PHY_RAM_BASE, PAGE_SIZE in *. zlia. }
  repeat case_decide; tauto.
Qed.

Lemma pmm_init_correct_witness :
  ∃ s, pmm_init (PHY_RAM_BASE + 5000) (4 * PAGE_SIZE) pmm_boot = Done (tt, s) ∧ pmm_inv s ∧
    free_frames s = [3].
Proof.
  destruct (pmm_init_correct (PHY_RAM_BASE + 5000) 4) as (s & H1 & H2 & H3 & _).
  - lia.
  - unfold PHY_RAM_BASE. lia.
  - exists s. split; [exact H1|]. split; [exact H2|]. exact H3.
Defined.
