(* ===== verification/Vmm.v ===== *)
(** Page tables, [kernel/mm/vmm.c]: the three-level walk of a 39-bit address
    space, mapping, and the kernel's page-fault handler.  Physical memory is a
    byte memory; kernel pointers are virtual addresses of the direct map, so
    every dereference goes through [V2P].  The frame allocator is used through
    its interface [FrameAllocator]. *)
From S2P Require Export Memory Pmm.

Local Open Scope prog_scope.

Definition PHYS_OFFSET : Z := 0xFFFFFF8000000000.
Definition V2P (x : Z) : Z := if PHYS_OFFSET <=? x then x - PHYS_OFFSET else x.
Definition P2V (x : Z) : Z := u64 (x + PHYS_OFFSET).

Definition PT_VALID : Z := Z.shiftl 1 0.
Definition PT_TABLE : Z := Z.shiftl 1 1.
Definition PT_PAGE : Z := Z.shiftl 1 1.
Definition PT_AF : Z := Z.shiftl 1 10.
Definition PT_SH_INNER : Z := Z.shiftl 3 8.
Definition PT_SW_COW : Z := Z.shiftl 1 55.
Definition MT_NORMAL : Z := 1.
Definition PT_AP_RW_EL1 : Z := Z.shiftl 0 6.
Definition PT_AP_RW_EL0 : Z := Z.shiftl 1 6.
Definition PT_AP_RO_EL1 : Z := Z.shiftl 2 6.
Definition PT_AP_RO_EL0 : Z := Z.shiftl 3 6.
Definition PT_PXN : Z := Z.shiftl 1 53.
Definition PT_UXN : Z := Z.shiftl 1 54.
Definition VM_WRITABLE : Z := Z.shiftl 1 0.
Definition VM_USER : Z := Z.shiftl 1 1.
Definition VM_NO_EXEC : Z := Z.shiftl 1 2.
Definition VM_DEVICE : Z := Z.shiftl 1 3.
Definition USER_SPACE_END : Z := 0x4000000000.

(** The output address of a descriptor. *)
Definition entry_phys (e : Z) : Z := Z.land e 0xFFFFFFFFF000.
Definition l1_idx (virt : Z) : Z := Z.land (Z.shiftr virt 30) 0x1FF.
Definition l2_idx (virt : Z) : Z := Z.land (Z.shiftr virt 21) 0x1FF.
Definition l3_idx (virt : Z) : Z := Z.land (Z.shiftr virt 12) 0x1FF.

(** [*p] and [*p = v] for a [u64 *p], and [&table[i]]. *)
Definition rd64 (m : mem) (p : Z) : Z := load64 m (V2P p).
Definition wr64 (m : mem) (p v : Z) : mem := store64 m (V2P p) v.
Definition slot (table i : Z) : Z := table + 8 * i.

(** [memset(p, 0, PAGE_SIZE)] and [memcpy(d, s, PAGE_SIZE)] on frames: the
    effect proved of the routines in the string library. *)
Definition zero_page (m : mem) (p : Z) : mem := λ x,
  if (V2P p <=? x) && (x <? V2P p + PAGE_SIZE) then 0 else m x.
Definition copy_page (m : mem) (d s : Z) : mem := λ x,
  if (V2P d <=? x) && (x <? V2P d + PAGE_SIZE) then m (x - V2P d + V2P s) else m x.

Section vmm.
Context {FA : Type} `{!FrameAllocator FA}.

Record vmm := mk_vmm {
  ram : mem;
  frames : FA;
  root_table : Z;
  root_phys : Z;
  paging_enabled : bool;
  vmm_lock : bool;
}.
Definition set_ram v s := mk_vmm v (frames s) (root_table s) (root_phys s) (paging_enabled s) (vmm_lock s).
Definition set_frames v s := mk_vmm (ram s) v (root_table s) (root_phys s) (paging_enabled s) (vmm_lock s).
Definition set_root_table v s := mk_vmm (ram s) (frames s) v (root_phys s) (paging_enabled s) (vmm_lock s).
Definition set_root_phys v s := mk_vmm (ram s) (frames s) (root_table s) v (paging_enabled s) (vmm_lock s).
Definition set_paging_enabled v s := mk_vmm (ram s) (frames s) (root_table s) (root_phys s) v (vmm_lock s).
Definition set_vmm_lock v s := mk_vmm (ram s) (frames s) (root_table s) (root_phys s) (paging_enabled s) v.

Definition read64 (p : Z) : M vmm Z := gets (λ s, rd64 (ram s) p).
Definition write64 (p v : Z) : M vmm unit := modify (λ s, set_ram (wr64 (ram s) p v) s).
Definition alloc_frame : M vmm Z := zoom frames set_frames fa_alloc.
Definition free_frame (a : Z) : M vmm unit := zoom frames set_frames (fa_free a).
Definition clear_page (p : Z) : M vmm unit := modify (λ s, set_ram (zero_page (ram s) p) s).
Definition copy_frame (d p : Z) : M vmm unit := modify (λ s, set_ram (copy_page (ram s) d p) s).

Definition safe_P2V (s : vmm) (phys : Z) : Z :=
  if paging_enabled s then u64 (phys + PHYS_OFFSET) else phys.

(** Returns the next-level table, allocating it if the entry is invalid; NULL
    when there is no frame. *)
Definition get_next_table (table idx : Z) : M vmm Z :=
  e <- read64 (slot table idx);;
  if has e PT_VALID then gets (λ s, safe_P2V s (entry_phys e))
  else
    new_table_phys <- alloc_frame;;
    if new_table_phys =? 0 then ret 0
    else
      new_table_virt <- gets (λ s, safe_P2V s new_table_phys);;
      clear_page new_table_virt;;;
      write64 (slot table idx) (Z.lor (Z.lor new_table_phys PT_TABLE) PT_VALID);;;
      ret new_table_virt.

(** A walk that only reads: a function of the memory. *)
Definition vmm_get_pte_from_table (m : mem) (page_table virt : Z) : Z :=
  if page_table =? 0 then 0
  else
    let e1 := rd64 m (slot page_table (l1_idx virt)) in
    if negb (has e1 PT_VALID) then 0
    else
      let l2_table := P2V (entry_phys e1) in
      let e2 := rd64 m (slot l2_table (l2_idx virt)) in
      if negb (has e2 PT_VALID) then 0
      else slot (P2V (entry_phys e2)) (l3_idx virt).

(** One level of [vmm_get_pte_from_table_alloc]: the table below
    [table[idx]], allocated if needed; [None] when there is no frame. *)
Definition next_table_alloc (table idx : Z) : M vmm (option Z) :=
  e <- read64 (slot table idx);;
  ok <- (if has e PT_VALID then ret true
         else
           phys <- alloc_frame;;
           if phys =? 0 then ret false
           else
             clear_page (P2V phys);;;
             write64 (slot table idx) (Z.lor (Z.lor phys PT_TABLE) PT_VALID);;;
             ret true);;
  if negb ok then ret None
  else e <- read64 (slot table idx);; ret (Some (P2V (entry_phys e))).

Definition vmm_get_pte_from_table_alloc (page_table virt : Z) : M vmm Z :=
  if page_table =? 0 then ret 0
  else
    o <- next_table_alloc page_table (l1_idx virt);;
    match o with
    | None => ret 0
    | Some l2_table =>
        o <- next_table_alloc l2_table (l2_idx virt);;
        match o with
        | None => ret 0
        | Some l3_table => ret (slot l3_table (l3_idx virt))
        end
    end.

(** [allocate] is not looked at. *)
Definition vmm_get_pte (virt : Z) (allocate : bool) : M vmm Z :=
  root <- gets root_table;;
  if root =? 0 then ret 0
  else
    l2_table <- get_next_table root (l1_idx virt);;
    if l2_table =? 0 then ret 0
    else
      l3_table <- get_next_table l2_table (l2_idx virt);;
      if l3_table =? 0 then ret 0
      else ret (slot l3_table (l3_idx virt)).

(** The descriptor that [vmm_map_page] writes. *)
Definition map_entry (phys flags : Z) : Z :=
  let entry := Z.lor (Z.lor (Z.lor (Z.lor phys PT_PAGE) PT_VALID) PT_AF) PT_SH_INNER in
  let entry := if has flags VM_DEVICE then Z.lor entry (Z.lor PT_PXN PT_UXN)
               else Z.lor entry (Z.shiftl MT_NORMAL 2) in
  if has flags VM_USER then
    let entry := if has flags VM_NO_EXEC then Z.lor entry PT_UXN else entry in
    if has flags PT_SW_COW then Z.lor (Z.lor entry PT_AP_RO_EL0) PT_SW_COW
    else if has flags VM_WRITABLE then Z.lor entry PT_AP_RW_EL0
    else Z.lor entry PT_AP_RO_EL0
  else
    let entry := Z.lor entry PT_UXN in
    if has flags VM_WRITABLE then Z.lor entry PT_AP_RW_EL1
    else Z.lor entry PT_AP_RO_EL1.

(** [mutex_acquire]: a thread that takes [vmm_lock] when nobody will ever
    release it sleeps for ever. *)
Definition vmm_acquire : M vmm unit := spin_acquire vmm_lock set_vmm_lock.
Definition vmm_release : M vmm unit := spin_release set_vmm_lock.

Definition vmm_map_page (virt phys flags : Z) : M vmm unit :=
  vmm_acquire;;;
  root <- gets root_table;;
  l2_table <- get_next_table root (l1_idx virt);;
  if l2_table =? 0 then ret tt
  else
    l3_table <- get_next_table l2_table (l2_idx virt);;
    if l3_table =? 0 then ret tt
    else
      write64 (slot l3_table (l3_idx virt)) (map_entry phys flags);;;
      vmm_release.

(** The loop of [vmm_map_region], [n] pages from offset [mapped]. *)
Fixpoint map_pages (n : nat) (virt phys mapped flags : Z) : M vmm unit :=
  match n with
  | O => ret tt
  | S n' =>
      vmm_map_page (u64 (virt + mapped)) (u64 (phys + mapped)) flags;;;
      map_pages n' virt phys (mapped + PAGE_SIZE) flags
  end.
Definition vmm_map_region (virt phys size flags : Z) : M vmm unit :=
  map_pages (Z.to_nat ((size + PAGE_SIZE - 1) / PAGE_SIZE)) virt phys 0 flags.

(** [init_vmm]; the system registers and the pointers of the drivers are left
    out, the addresses of the devices are arguments. *)
Definition init_vmm (kernel_end ram_size gic uart fwcfg virtio : Z) : M vmm unit :=
  rp <- alloc_frame;;
  modify (set_root_phys rp);;;
  clear_page rp;;;
  modify (set_root_table rp);;;
  vmm_map_region 0x40000000 0x40000000 (u64 (kernel_end - 0x40000000)) VM_WRITABLE;;;
  vmm_map_region (PHYS_OFFSET + PHY_RAM_BASE) PHY_RAM_BASE ram_size VM_WRITABLE;;;
  vmm_map_region 0x50000000 0x50000000 (8 * 1024 * 1024) VM_WRITABLE;;;
  let dev := Z.lor VM_DEVICE VM_WRITABLE in
  vmm_map_region (u64 (PHYS_OFFSET + gic)) gic 0x00100000 dev;;;
  vmm_map_region (u64 (PHYS_OFFSET + uart)) uart 0x00100000 dev;;;
  vmm_map_region (u64 (PHYS_OFFSET + fwcfg)) fwcfg 0x00010000 dev;;;
  vmm_map_region (u64 (PHYS_OFFSET + virtio)) virtio 0x00100000 dev;;;
  modify (set_paging_enabled true);;;
  modify (λ s, set_root_table (u64 (root_phys s + PHYS_OFFSET)) s);;;
  modify (set_vmm_lock false).

(** [vmm_handle_page_fault]; [user_fault] handles a fault in user space (the
    VMA layer).  0 on success, -1 if the fault cannot be repaired. *)
Definition vmm_handle_page_fault (user_fault : M vmm Z) (virt : Z) (is_write : bool) : M vmm Z :=
  if virt <? USER_SPACE_END then user_fault
  else
    pte <- vmm_get_pte virt false;;
    if pte =? 0 then ret (-1)
    else
      entry <- read64 pte;;
      if negb (has entry PT_VALID) then
        new_frame <- alloc_frame;;
        if new_frame =? 0 then ret (-1)
        else
          clear_page (P2V new_frame);;;
          let new_entry := Z.lor (Z.lor (Z.lor (Z.lor new_frame PT_PAGE) PT_VALID) PT_AF) PT_SH_INNER in
          let new_entry := Z.lor new_entry (Z.shiftl MT_NORMAL 2) in
          let new_entry := Z.lor new_entry PT_AP_RW_EL1 in
          let new_entry := Z.lor new_entry (Z.lor PT_UXN PT_PXN) in
          write64 pte new_entry;;;
          ret 0
      else if is_write && has entry PT_SW_COW then
        let old_phys := entry_phys entry in
        new_phys <- alloc_frame;;
        if new_phys =? 0 then ret (-1)
        else
          copy_frame (P2V new_phys) (P2V old_phys);;;
          let new_entry := andnot entry 0xFFFFFFFFF000 in
          let new_entry := Z.lor new_entry new_phys in
          let new_entry := andnot new_entry PT_SW_COW in
          let new_entry := andnot new_entry (Z.shiftl 1 7) in
          write64 pte new_entry;;;
          free_frame old_phys;;;
          ret 0
      else ret (-1).
End vmm.
Arguments vmm FA : clear implicits.
Arguments mk_vmm {FA} _ _ _ _ _ _.

(** ** Bit-level facts *)

Lemma idx_range virt k : 0 <= Z.land (Z.shiftr virt k) 0x1FF < 512.
Proof.
  change 0x1FF with (2 ^ 9 - 1). rewrite land_ones_mod by lia. apply Z.mod_pos_bound. lia.
Qed.
#[export] Hint Resolve idx_range : cint.

Lemma V2P_P2V a : 0 <= a < 2 ^ 39 → V2P (P2V a) = a.
Proof.
  intros Ha. unfold V2P, P2V, PHYS_OFFSET. rewrite u64_id by lia.
  rewrite (proj2 (Z.leb_le _ _)) by lia. lia.
Qed.

Lemma frame_end a : a mod 4096 = 0 → 0 < a < 2 ^ 39 → a + 4096 <= 2 ^ 39.
Proof. intros. zlia. Qed.

Lemma V2P_kernel_add p n : PHYS_OFFSET <= p → 0 <= n → V2P (p + n) = V2P p + n.
Proof. intros. unfold V2P. rewrite !(proj2 (Z.leb_le _ _)) by lia. lia. Qed.
Lemma V2P_slot a i : a mod 4096 = 0 → 0 < a < 2 ^ 39 → 0 <= i < 512 →
  V2P (slot (P2V a) i) = a + 8 * i.
Proof.
  intros Hm Ha Hi. pose proof (frame_end a Hm Ha). unfold slot, V2P, P2V, PHYS_OFFSET.
  rewrite u64_id by lia. rewrite (proj2 (Z.leb_le _ _)) by lia. lia.
Qed.

Lemma entry_phys_lor x y : entry_phys (Z.lor x y) = Z.lor (entry_phys x) (entry_phys y).
Proof. unfold entry_phys. apply Z.land_lor_distr_l. Qed.

Lemma entry_phys_frame a : a mod 4096 = 0 → 0 <= a < 2 ^ 48 → entry_phys a = a.
Proof.
  intros Hm Ha. unfold entry_phys. change 0xFFFFFFFFF000 with (Z.ldiff (Z.ones 48) (Z.ones 12)).
  rewrite Z.land_comm, Z.ldiff_land, <- Z.land_assoc, (Z.land_comm (Z.lnot _)), Z.land_assoc.
  rewrite (Z.land_comm (Z.ones 48)), Z.land_ones, Z.mod_small by lia.
  rewrite <- Z.ldiff_land, Z.ldiff_ones_r, Z.shiftr_div_pow2, Z.shiftl_mul_pow2 by lia.
  change (2 ^ 12) with 4096. zlia.
Qed.

Lemma has_lor x y f : has (Z.lor x y) f = has x f || has y f.
Proof.
  unfold has. rewrite Z.land_lor_distr_l.
  destruct (Z.eqb_spec (Z.lor (Z.land x f) (Z.land y f)) 0) as [He|He].
  - apply Z.lor_eq_0_iff in He as [-> ->]. done.
  - destruct (Z.eqb_spec (Z.land x f) 0) as [H1|], (Z.eqb_spec (Z.land y f) 0) as [H2|]; try done.
    by rewrite H1, H2 in He.
Qed.

(** The descriptor of a table at frame [a]. *)
Lemma table_entry a : a mod 4096 = 0 → 0 < a < 2 ^ 39 →
  let e := Z.lor (Z.lor a PT_TABLE) PT_VALID in
  entry_phys e = a ∧ has e PT_VALID = true ∧ 0 <= e < 2 ^ 64.
Proof.
  intros Hm Ha e. split; [|split].
  - unfold e. rewrite !entry_phys_lor, entry_phys_frame by lia.
    change (entry_phys PT_TABLE) with 0. change (entry_phys PT_VALID) with 0. by rewrite !Z.lor_0_r.
  - unfold e. rewrite has_lor. apply orb_true_r.
  - unfold e. change PT_TABLE with 2. change PT_VALID with 1.
    apply bits_range; [lia|rewrite !Z.lor_nonneg; lia|].
    intros i Hi. rewrite !Z.lor_spec.
    rewrite (testbit_small a 39), (testbit_small 2 39), (testbit_small 1 39) by lia. done.
Qed.

(** ** Frames as arrays of descriptors *)

(** Entry [i] of the table in frame [t]. *)
Definition pt_entry (m : mem) (t i : Z) : Z := load64 m (t + 8 * i).

Definition aligned (a : Z) : Prop := a mod 4096 = 0 ∧ 0 < a < 2 ^ 39.

Lemma rd64_slot m t i : aligned t → 0 <= i < 512 → rd64 m (slot (P2V t) i) = pt_entry m t i.
Proof. intros [? ?] Hi. unfold rd64, pt_entry. by rewrite V2P_slot. Qed.

Lemma wr64_slot m t i v : aligned t → 0 <= i < 512 →
  wr64 m (slot (P2V t) i) v = store64 m (t + 8 * i) v.
Proof. intros [? ?] Hi. unfold wr64. by rewrite V2P_slot. Qed.

Lemma aligned_disjoint t u : aligned t → aligned u → t ≠ u → t + 4096 <= u ∨ u + 4096 <= t.
Proof. intros [Ht _] [Hu _] Hne. zlia. Qed.

Lemma pt_entry_store m t i v u j :
  aligned t → aligned u → 0 <= i < 512 → 0 <= j < 512 → 0 <= v < 2 ^ 64 →
  pt_entry (store64 m (t + 8 * i) v) u j = if decide (u = t ∧ j = i) then v else pt_entry m u j.
Proof.
  intros Ht Hu Hi Hj Hv. unfold pt_entry. case_decide as Hd.
  - destruct Hd as [-> ->]. by apply load64_store64.
  - apply load64_store64_ne. destruct (decide (u = t)) as [->|Hne]; [|].
    + assert (j ≠ i) by naive_solver. lia.
    + destruct (aligned_disjoint t u); [done..|congruence| |]; lia.
Qed.

Lemma zero_page_in m p x : aligned p → p <= x < p + 4096 → zero_page m (P2V p) x = 0.
Proof.
  intros [Hm Hp] Hx. unfold zero_page. rewrite V2P_P2V by lia. unfold PAGE_SIZE.
  by rewrite (proj2 (Z.leb_le _ _)), (proj2 (Z.ltb_lt _ _)) by lia.
Qed.
Lemma zero_page_out m p x : aligned p → ¬ p <= x < p + 4096 → zero_page m (P2V p) x = m x.
Proof.
  intros [Hm Hp] Hx. unfold zero_page. rewrite V2P_P2V by lia. unfold PAGE_SIZE.
  destruct (Z.leb_spec p x), (Z.ltb_spec x (p + 4096)); try done. lia.
Qed.

Lemma load_le_zero m a n : (∀ x, a <= x < a + Z.of_nat n → m x = 0) → load_le m a n = 0.
Proof.
  revert a. induction n as [|n IH]; intros a H; simpl; [done|].
  rewrite H, IH by (intros; apply H; lia) || lia. lia.
Qed.

Lemma pt_entry_zero m p u j : aligned p → aligned u → 0 <= j < 512 →
  pt_entry (zero_page m (P2V p)) u j = if decide (u = p) then 0 else pt_entry m u j.
Proof.
  intros Hp Hu Hj. unfold pt_entry. case_decide as Hd.
  - subst. apply load_le_zero. intros x Hx. apply zero_page_in; [done|lia].
  - apply load_le_ext. intros x Hx. apply zero_page_out; [done|].
    destruct (aligned_disjoint p u); [done..|congruence| |]; lia.
Qed.

Lemma zero_page_ok m p : mem_ok m → mem_ok (zero_page m p).
Proof. intros Hm x. unfold zero_page. case_match; [lia|apply Hm]. Qed.
#[export] Hint Resolve zero_page_ok : cint.

Section facts.
Context {FA : Type} `{!FrameAllocator FA}.
Implicit Types s : vmm FA.

Record vm_ok (s : vmm FA) : Prop := mk_vm_ok {
  vm_frames : fa_inv (frames s);
  vm_ram : mem_ok (ram s);
}.

Definition frame_of (s : vmm FA) (a : Z) : Prop := fa_frame (frames s) a.
Definition refs_of (s : vmm FA) (a : Z) : Z := fa_ref (frames s) a.

Lemma frame_aligned s a : vm_ok s → frame_of s a → aligned a.
Proof. intros Hs Ha. apply (fa_frame_bounds _ _ (vm_frames _ Hs) Ha). Qed.

(** What page-table operations leave alone. *)
Record vm_same (s s' : vmm FA) : Prop := mk_vm_same {
  vs_root : root_table s' = root_table s;
  vs_rootp : root_phys s' = root_phys s;
  vs_paging : paging_enabled s' = paging_enabled s;
  vs_lock : vmm_lock s' = vmm_lock s;
  vs_frame : ∀ a, frame_of s' a ↔ frame_of s a;
}.
#[export] Instance vm_same_preorder : PreOrder vm_same.
Proof.
  split; [by intros s; split|]. intros s1 s2 s3 [] []. split; try congruence.
  intros a. by rewrite vs_frame1, vs_frame0.
Qed.

Lemma alloc_frame_ok s : vm_ok s →
  ∃ a s', alloc_frame s = Done (a, s') ∧ vm_ok s' ∧ vm_same s s' ∧ ram s' = ram s ∧
    ((a = 0 ∧ s' = s) ∨
     (a ≠ 0 ∧ aligned a ∧ frame_of s a ∧ refs_of s a = 0 ∧
      ∀ b, frame_of s b → refs_of s' b = if decide (b = a) then 1 else refs_of s b)).
Proof.
  intros Hs. destruct (fa_alloc_spec _ (vm_frames _ Hs)) as (a & f & Hrun & Hinv & Hfr & Hcase).
  unfold alloc_frame, zoom. rewrite Hrun. exists a, (set_frames f s). split; [done|].
  split; [split; [done|apply (vm_ram _ Hs)]|]. split; [by split|]. split; [done|].
  destruct Hcase as [[-> ->]|(Ha & Hz & Href)].
  - left. split; [done|]. by destruct s.
  - right. pose proof (frame_aligned s a Hs Ha) as Hal. split_and!; try done.
    destruct Hal. lia.
Qed.

(** One level of the walk: what [next_table_alloc] does to table [t]. *)
Lemma next_table_alloc_ok s t i :
  vm_ok s → frame_of s t → 0 < refs_of s t → 0 <= i < 512 →
  ∃ o s', next_table_alloc (P2V t) i s = Done (o, s') ∧ vm_ok s' ∧ vm_same s s' ∧
    match o with
    | None => s' = s ∧ has (pt_entry (ram s) t i) PT_VALID = false
    | Some n => ∃ p, n = P2V p ∧
        entry_phys (pt_entry (ram s') t i) = p ∧ has (pt_entry (ram s') t i) PT_VALID = true ∧
        ((s' = s ∧ has (pt_entry (ram s) t i) PT_VALID = true) ∨
         (has (pt_entry (ram s) t i) PT_VALID = false ∧ frame_of s p ∧ refs_of s p = 0 ∧
          (∀ b, frame_of s b → refs_of s' b = if decide (b = p) then 1 else refs_of s b) ∧
          (∀ x, ¬ p <= x < p + 4096 → ¬ t <= x < t + 4096 → ram s' x = ram s x) ∧
          (∀ j, 0 <= j < 512 → pt_entry (ram s') p j = 0) ∧
          ∀ u j, frame_of s u → u ≠ p → 0 <= j < 512 → ¬ (u = t ∧ j = i) →
            pt_entry (ram s') u j = pt_entry (ram s) u j))
    end.
Proof.
  intros Hs Ht Htr Hi. pose proof (frame_aligned s t Hs Ht) as Hta. unfold next_table_alloc.
  unfold bind at 1, read64 at 1, gets at 1. rewrite rd64_slot by done.
  destruct (has (pt_entry (ram s) t i) PT_VALID) eqn:Hv.
  - mret. simpl. unfold bind, read64, gets, ret. rewrite rd64_slot by done.
    eexists _, s. split; [done|]. split_and!; [done|done|]. eexists. split_and!; [done..|]. by left.
  - destruct (alloc_frame_ok s Hs) as (a & s1 & Hrun & Hs1 & Hsame & Hram & Hcase).
    unfold bind at 1. mstep Hrun. destruct Hcase as [[-> ->]|(Ha0 & Hal & Haf & Hz & Href)].
    + simpl. eexists None, s. done.
    + rewrite (proj2 (Z.eqb_neq _ _)) by done.
      destruct (table_entry a (proj1 Hal) (proj2 Hal)) as (Hep & Hev & Her).
      set (e := Z.lor (Z.lor a PT_TABLE) PT_VALID) in *.
      unfold clear_page, write64, bind, modify, read64, gets, ret. simpl.
      rewrite rd64_slot, wr64_slot, pt_entry_store, decide_True by done.
      rewrite Hep, Hram. set (m := store64 (zero_page (ram s) (P2V a)) (t + 8 * i) e).
      assert (t ≠ a) as Hta' by (intros ->; lia).
      assert (Hent : ∀ u j, aligned u → 0 <= j < 512 → pt_entry m u j =
        if decide (u = t ∧ j = i) then e else if decide (u = a) then 0 else pt_entry (ram s) u j).
      { intros u j Hu Hj. subst m. rewrite pt_entry_store by done. case_decide; [done|].
        by rewrite pt_entry_zero. }
      eexists _, _. split; [done|]. split; [|split].
      * split; [apply (vm_frames _ Hs1)|]. simpl. subst m. apply store_le_ok, zero_page_ok, Hs.
      * destruct Hsame. by split.
      * exists a. simpl. split; [done|]. rewrite Hent, decide_True by done.
        split; [done|]. split; [done|]. right. split_and!; try done.
        -- intros x Hxa Hxt. subst m. unfold store64. rewrite store_le_out by lia. by apply zero_page_out.
        -- intros j Hj. rewrite Hent by done. rewrite decide_False by naive_solver.
           by rewrite decide_True.
        -- intros u j Hu Hua Hj Hne. assert (aligned u) by (by apply (frame_aligned s)).
           rewrite Hent by done. by rewrite !decide_False.
Qed.

(** ** Translation tables *)

(** [root] is the table at level 1, [l2s] and [l3s] the tables at levels 2 and
    3: all in use, no frame at two levels, every valid descriptor of a level
    pointing to a table of the next, no table shared. *)
Record pt_ok (s : vmm FA) (root : Z) (l2s l3s : gset Z) : Prop := mk_pt_ok {
  pt_root : frame_of s root ∧ 0 < refs_of s root;
  pt_tabs : ∀ t, t ∈ l2s ∪ l3s → frame_of s t ∧ 0 < refs_of s t;
  pt_root_new : root ∉ l2s ∪ l3s;
  pt_disj : l2s ## l3s;
  pt_l2 : ∀ i, 0 <= i < 512 → has (pt_entry (ram s) root i) PT_VALID = true →
    entry_phys (pt_entry (ram s) root i) ∈ l2s;
  pt_l3 : ∀ t i, t ∈ l2s → 0 <= i < 512 → has (pt_entry (ram s) t i) PT_VALID = true →
    entry_phys (pt_entry (ram s) t i) ∈ l3s;
  pt_inj2 : ∀ i j, 0 <= i < 512 → 0 <= j < 512 →
    has (pt_entry (ram s) root i) PT_VALID = true → has (pt_entry (ram s) root j) PT_VALID = true →
    entry_phys (pt_entry (ram s) root i) = entry_phys (pt_entry (ram s) root j) → i = j;
  pt_inj3 : ∀ t u i j, t ∈ l2s → u ∈ l2s → 0 <= i < 512 → 0 <= j < 512 →
    has (pt_entry (ram s) t i) PT_VALID = true → has (pt_entry (ram s) u j) PT_VALID = true →
    entry_phys (pt_entry (ram s) t i) = entry_phys (pt_entry (ram s) u j) → t = u ∧ i = j;
}.

Lemma pt_tab2 s root l2s l3s t : pt_ok s root l2s l3s → t ∈ l2s → frame_of s t ∧ 0 < refs_of s t.
Proof. intros Hp Ht. apply (pt_tabs _ _ _ _ Hp). set_solver. Qed.
Lemma pt_tab3 s root l2s l3s t : pt_ok s root l2s l3s → t ∈ l3s → frame_of s t ∧ 0 < refs_of s t.
Proof. intros Hp Ht. apply (pt_tabs _ _ _ _ Hp). set_solver. Qed.

Definition walk (s : vmm FA) (root va : Z) : Z := vmm_get_pte_from_table (ram s) (P2V root) va.

Lemma P2V_nonzero a : aligned a → P2V a ≠ 0.
Proof. intros [_ Ha]. unfold P2V, PHYS_OFFSET. rewrite u64_id; lia. Qed.

(** The walk in terms of table entries. *)
Lemma walk_spec s root l2s l3s va :
  vm_ok s → pt_ok s root l2s l3s →
  let e1 := pt_entry (ram s) root (l1_idx va) in
  let e2 := pt_entry (ram s) (entry_phys e1) (l2_idx va) in
  walk s root va =
    if has e1 PT_VALID then
      if has e2 PT_VALID then slot (P2V (entry_phys e2)) (l3_idx va) else 0
    else 0.
Proof.
  intros Hs Hp e1 e2. destruct (pt_root _ _ _ _ Hp) as [Hr _].
  pose proof (frame_aligned _ _ Hs Hr) as Hra. unfold walk, vmm_get_pte_from_table.
  rewrite (proj2 (Z.eqb_neq _ _)) by (by apply P2V_nonzero).
  rewrite rd64_slot by (try done; apply idx_range). fold e1.
  destruct (has e1 PT_VALID) eqn:He1; simpl; [|done].
  assert (aligned (entry_phys e1)) as Hta.
  { apply (frame_aligned s); [done|]. eapply pt_tab2; [done|].
    apply (pt_l2 _ _ _ _ Hp); [apply idx_range|done]. }
  rewrite rd64_slot by (try done; apply idx_range). fold e2. by destruct (has e2 PT_VALID).
Qed.

(** Byte [x] is in the page at [p]. *)
Definition in_page (p x : Z) : Prop := p <= x < p + 4096.
(** A frame without a reference, as the allocator hands them out. *)
Definition unused s (f : Z) : Prop := frame_of s f ∧ ¬ 0 < refs_of s f.

(** Valid descriptors and whole level-3 tables are kept, and so are the
    references of frames in use and the bytes outside unused frames and
    tables. *)
Record pt_keeps (s s' : vmm FA) (root : Z) (l2s l3s : gset Z) : Prop := mk_pt_keeps {
  pk_valid : ∀ t i, t ∈ {[root]} ∪ l2s → 0 <= i < 512 →
    has (pt_entry (ram s) t i) PT_VALID = true → pt_entry (ram s') t i = pt_entry (ram s) t i;
  pk_l3 : ∀ t i, t ∈ l3s → 0 <= i < 512 → pt_entry (ram s') t i = pt_entry (ram s) t i;
  pk_refs : ∀ b, frame_of s b → 0 < refs_of s b → refs_of s' b = refs_of s b;
  pk_mem : ∀ x, (∀ f, unused s f → ¬ in_page f x) → (∀ t, t ∈ {[root]} ∪ (l2s ∪ l3s) → ¬ in_page t x) → ram s' x = ram s x;
}.
(** The tables [T'] are [T] and frames that were unused. *)
Record pt_grows (s : vmm FA) (T T' : gset Z) : Prop := mk_pt_grows {
  pg_sub : T ⊆ T';
  pg_new : ∀ t, t ∈ T' → t ∈ T ∨ unused s t;
}.
Lemma unused_0 s f : frame_of s f → refs_of s f = 0 → unused s f.
Proof. intros Hf Hr. split; [done|lia]. Qed.
Lemma pt_grows_refl s T : pt_grows s T T.
Proof. split; [done|by left]. Qed.
Lemma pt_grows_add s T p : unused s p → pt_grows s T ({[p]} ∪ T).
Proof. intros Hp. split; [set_solver|]. intros t [->%elem_of_singleton|]%elem_of_union; auto. Qed.

Lemma walk_kept s s' root l2s l3s l2s' l3s' va :
  vm_ok s → vm_ok s' → pt_ok s root l2s l3s → pt_ok s' root l2s' l3s' →
  (∀ t i, t ∈ {[root]} ∪ l2s → 0 <= i < 512 → has (pt_entry (ram s) t i) PT_VALID = true →
    pt_entry (ram s') t i = pt_entry (ram s) t i) →
  (∀ t i, t ∈ l3s → 0 <= i < 512 → pt_entry (ram s') t i = pt_entry (ram s) t i) → walk s root va ≠ 0 →
  walk s' root va = walk s root va ∧
  rd64 (ram s') (walk s root va) = rd64 (ram s) (walk s root va).
Proof.
  intros Hs Hs' Hp Hp' Hk2 Hk3 Hw. rewrite (walk_spec s' _ _ _ _ Hs' Hp').
  rewrite (walk_spec s _ _ _ _ Hs Hp) in *. cbv zeta in *.
  set (e1 := pt_entry (ram s) root (l1_idx va)) in *.
  destruct (has e1 PT_VALID) eqn:He1; [|done].
  set (e2 := pt_entry (ram s) (entry_phys e1) (l2_idx va)) in *.
  destruct (has e2 PT_VALID) eqn:He2; [|done].
  pose proof (pt_l2 _ _ _ _ Hp _ (idx_range va 30) He1) as Ht2.
  pose proof (pt_l3 _ _ _ _ Hp _ _ Ht2 (idx_range va 21) He2) as Ht3.
  rewrite (Hk2 root (l1_idx va) ltac:(set_solver) (idx_range va 30) He1).
  fold e1. rewrite He1.
  rewrite (Hk2 (entry_phys e1) (l2_idx va) ltac:(set_solver) (idx_range va 21) He2).
  fold e2. rewrite He2. split; [done|].
  pose proof (frame_aligned s _ Hs (proj1 (pt_tab3 _ _ _ _ _ Hp Ht3))) as Ha.
  rewrite !rd64_slot by (try done; apply idx_range).
  by apply Hk3; [|apply idx_range].
Qed.
Lemma walk_keeps s s' root l2s l3s l2s' l3s' va :
  vm_ok s → vm_ok s' → pt_ok s root l2s l3s → pt_ok s' root l2s' l3s' →
  pt_keeps s s' root l2s l3s → walk s root va ≠ 0 →
  walk s' root va = walk s root va ∧
  rd64 (ram s') (walk s root va) = rd64 (ram s) (walk s root va).
Proof. intros Hs Hs' Hp Hp' [H2 H3 _ _]. by apply (walk_kept s s' root l2s l3s l2s' l3s'). Qed.

(** Tables whose frames stay in use and whose entries stay are as good. *)
Lemma pt_ok_same s s' root l2s l3s :
  (∀ t, t ∈ {[root]} ∪ (l2s ∪ l3s) → frame_of s t → 0 < refs_of s t → frame_of s' t ∧ 0 < refs_of s' t) →
  (∀ t i, t ∈ {[root]} ∪ l2s → 0 <= i < 512 → pt_entry (ram s') t i = pt_entry (ram s) t i) →
  pt_ok s root l2s l3s → pt_ok s' root l2s l3s.
Proof.
  intros Hfr Hent [H1 H2 H3 H4 H5 H6 H7 H8].
  assert (Hr : ∀ i, 0 <= i < 512 → pt_entry (ram s') root i = pt_entry (ram s) root i) by (intros; apply Hent; set_solver).
  assert (Ht : ∀ t i, t ∈ l2s → 0 <= i < 512 → pt_entry (ram s') t i = pt_entry (ram s) t i) by (intros; apply Hent; set_solver).
  split; try done.
  - destruct H1. apply Hfr; [set_solver|done|done].
  - intros t Hin. destruct (H2 t Hin). apply Hfr; [set_solver|done|done].
  - intros i Hi. rewrite Hr by done. by apply H5.
  - intros t i Hin Hi. rewrite Ht by done. by apply H6.
  - intros i j Hi Hj. rewrite !Hr by done. by apply H7.
  - intros t u i j Hin Hu Hi Hj. rewrite !Ht by done. by apply H8.
Qed.

(** A walk that succeeds ends in a level-3 table. *)
Lemma walk_in_tables s root l2s l3s va :
  vm_ok s → pt_ok s root l2s l3s → walk s root va ≠ 0 →
  ∃ t, t ∈ l3s ∧ aligned t ∧ walk s root va = slot (P2V t) (l3_idx va).
Proof.
  intros Hs Hp. rewrite (walk_spec s _ _ _ _ Hs Hp). cbv zeta.
  destruct (has (pt_entry (ram s) root (l1_idx va)) PT_VALID) eqn:H1; [|done].
  set (t := entry_phys (pt_entry (ram s) root (l1_idx va))) in *.
  destruct (has (pt_entry (ram s) t (l2_idx va)) PT_VALID) eqn:H2; [|done].
  intros _. exists (entry_phys (pt_entry (ram s) t (l2_idx va))).
  pose proof (pt_l2 _ _ _ _ Hp (l1_idx va) (idx_range va 30) H1) as Ht.
  pose proof (pt_l3 _ _ _ _ Hp _ (l2_idx va) Ht (idx_range va 21) H2) as Hu.
  split; [done|]. split; [|done].
  apply (frame_aligned s); [done|]. apply (pt_tab3 _ _ _ _ _ Hp Hu).
Qed.

Lemma refs_pos s s' p b :
  refs_of s p = 0 → (∀ b, frame_of s b → refs_of s' b = if decide (b = p) then 1 else refs_of s b) →
  frame_of s b → 0 < refs_of s b → b ≠ p ∧ 0 < refs_of s' b.
Proof.
  intros Hp Hr Hb Hpos. assert (b ≠ p) by (intros ->; lia). split; [done|].
  rewrite Hr by done. by rewrite decide_False.
Qed.

(** Level 1: the level-2 table for entry [i]. *)
Lemma alloc_l2_ok s root l2s l3s i :
  vm_ok s → pt_ok s root l2s l3s → 0 <= i < 512 →
  ∃ o s' l2s', next_table_alloc (P2V root) i s = Done (o, s') ∧ vm_ok s' ∧ vm_same s s' ∧
    pt_ok s' root l2s' l3s ∧ pt_grows s l2s l2s' ∧ pt_keeps s s' root l2s l3s ∧
    match o with
    | None => s' = s ∧ has (pt_entry (ram s) root i) PT_VALID = false
    | Some n => ∃ p, n = P2V p ∧ p ∈ l2s' ∧ entry_phys (pt_entry (ram s') root i) = p ∧
        has (pt_entry (ram s') root i) PT_VALID = true ∧
        (has (pt_entry (ram s) root i) PT_VALID = true → s' = s) ∧
        (has (pt_entry (ram s) root i) PT_VALID = false → ∀ j, 0 <= j < 512 → pt_entry (ram s') p j = 0)
    end.
Proof.
  intros Hs Hp Hi. destruct (pt_root _ _ _ _ Hp) as [Hr Hrp].
  destruct (next_table_alloc_ok s root i Hs Hr Hrp Hi) as (o & s' & Hrun & Hs' & Hsame & Hcase).
  destruct o as [n|].
  2:{ destruct Hcase as [-> Hv]. exists None, s, l2s.
      split_and!; [done|done|done|done|apply pt_grows_refl|by split|done|done]. }
  destruct Hcase as (p & -> & Hep & Hev & [[-> Hv]|(Hv & Hpf & Hp0 & Href & Hmem & Hz & Hfr)]).
  { exists (Some (P2V p)), s, l2s. split; [done|]. split; [done|]. split; [done|].
    split; [done|]. split; [apply pt_grows_refl|]. split; [by split|].
    exists p. split; [done|]. split; [rewrite <- Hep; by apply (pt_l2 _ _ _ _ Hp)|].
    split; [done|]. split; [done|]. split; [done|]. by rewrite Hv. }
  pose proof (vs_frame _ _ Hsame) as Hframe.
  assert (Hfresh : p ∉ {[root]} ∪ (l2s ∪ l3s)).
  { intros [->%elem_of_singleton|Hin]%elem_of_union; [lia|].
    destruct (pt_tabs _ _ _ _ Hp _ Hin). lia. }
  assert (Hne : ∀ u, u ∈ {[root]} ∪ (l2s ∪ l3s) → frame_of s u ∧ u ≠ p ∧ 0 < refs_of s' u).
  { intros u Hu. assert (frame_of s u ∧ 0 < refs_of s u) as [Huf Hup].
    { apply elem_of_union in Hu as [->%elem_of_singleton|Hu]; [done|]. by apply (pt_tabs _ _ _ _ Hp). }
    destruct (refs_pos s s' p u Hp0 Href Huf Hup). done. }
  exists (Some (P2V p)), s', ({[p]} ∪ l2s). split; [done|]. split; [done|]. split; [done|].
  split; [|split; [by apply pt_grows_add, unused_0|split]].
  - split.
    + split; [by apply Hframe|]. apply Hne. set_solver.
    + intros t Ht. destruct (decide (t = p)) as [->|].
      * split; [by apply Hframe|]. rewrite Href by done. rewrite decide_True by done. lia.
      * destruct (Hne t) as (? & _ & ?); [set_solver|]. split; [by apply Hframe|done].
    + pose proof (pt_root_new _ _ _ _ Hp). set_solver.
    + pose proof (pt_disj _ _ _ _ Hp). set_solver.
    + intros j Hj Hjv. destruct (decide (j = i)) as [->|Hji]; [set_solver|].
      destruct (Hne root) as (Hrf & Hrne & _); [set_solver|].
      assert (pt_entry (ram s') root j = pt_entry (ram s) root j) as He.
      { apply Hfr; [done..|]. by intros [_ ?]. }
      rewrite He in Hjv |- *.
      apply elem_of_union_r. by apply (pt_l2 _ _ _ _ Hp).
    + intros t j Ht Hj Hjv. apply elem_of_union in Ht as [->%elem_of_singleton|Ht].
      { rewrite Hz in Hjv by done. done. }
      assert (t ≠ root) by (intros ->; pose proof (pt_root_new _ _ _ _ Hp); set_solver).
      destruct (Hne t) as (? & ? & _); [set_solver|].
      assert (pt_entry (ram s') t j = pt_entry (ram s) t j) as He.
      { apply Hfr; [done..|]. by intros [? _]. }
      rewrite He in Hjv |- *. by apply (pt_l3 _ _ _ _ Hp).
    + assert (Hent : ∀ j, 0 <= j < 512 → has (pt_entry (ram s') root j) PT_VALID = true → j ≠ i →
        has (pt_entry (ram s) root j) PT_VALID = true ∧
        pt_entry (ram s') root j = pt_entry (ram s) root j ∧
        entry_phys (pt_entry (ram s') root j) ≠ p).
      { intros j Hj Hjv Hji. destruct (Hne root) as (? & ? & _); [set_solver|].
        assert (pt_entry (ram s') root j = pt_entry (ram s) root j) as He.
        { apply Hfr; [done..|]. by intros [_ ?]. }
        rewrite He in Hjv |- *. split_and!; [done|done|]. intros Hpe. apply Hfresh. rewrite <- Hpe.
        pose proof (pt_l2 _ _ _ _ Hp j Hj Hjv). set_solver. }
      intros j k Hj Hk Hjv Hkv Heq. destruct (decide (j = i)) as [->|Hji], (decide (k = i)) as [->|Hki].
      * done.
      * destruct (Hent k Hk Hkv Hki) as (_ & _ & ?). congruence.
      * destruct (Hent j Hj Hjv Hji) as (_ & _ & ?). congruence.
      * destruct (Hent k Hk Hkv Hki) as (? & He1 & _), (Hent j Hj Hjv Hji) as (? & He2 & _).
        rewrite He1, He2 in Heq. by apply (pt_inj2 _ _ _ _ Hp).
    + assert (Hent : ∀ t j, t ∈ {[p]} ∪ l2s → 0 <= j < 512 →
        has (pt_entry (ram s') t j) PT_VALID = true →
        t ∈ l2s ∧ pt_entry (ram s') t j = pt_entry (ram s) t j).
      { intros t j Ht Hj Hjv. apply elem_of_union in Ht as [->%elem_of_singleton|Ht].
        { rewrite Hz in Hjv by done. done. }
        split; [done|]. destruct (Hne t) as (? & ? & _); [set_solver|].
        apply Hfr; [done..|]. intros [-> _]. pose proof (pt_root_new _ _ _ _ Hp). set_solver. }
      intros t u j k Ht Hu Hj Hk Hjv Hkv Heq.
      destruct (Hent t j Ht Hj Hjv) as [? He1], (Hent u k Hu Hk Hkv) as [? He2].
      rewrite He1 in Hjv. rewrite He2 in Hkv. rewrite He1, He2 in Heq.
      by apply (pt_inj3 _ _ _ _ Hp).
  - split.
    + intros t j Ht Hj Hjv. destruct (Hne t) as (? & ? & _); [set_solver|].
      apply Hfr; try done. intros [-> ->]. congruence.
    + intros t j Ht Hj. destruct (Hne t) as (? & ? & _); [set_solver|].
      apply Hfr; try done. intros [-> _]. pose proof (pt_root_new _ _ _ _ Hp). set_solver.
    + intros b Hb Hbr. rewrite Href, decide_False; [done| |done]. intros ->. lia.
    + intros x Hx Ht. apply Hmem; [by apply (Hx p), unused_0|apply (Ht root); set_solver].
  - exists p. split_and!; try done; [set_solver|congruence].
Qed.

(** Level 2: the level-3 table for entry [i] of the level-2 table [t]. *)
Lemma alloc_l3_ok s root l2s l3s t i :
  vm_ok s → pt_ok s root l2s l3s → t ∈ l2s → 0 <= i < 512 →
  ∃ o s' l3s', next_table_alloc (P2V t) i s = Done (o, s') ∧ vm_ok s' ∧ vm_same s s' ∧
    pt_ok s' root l2s l3s' ∧ pt_grows s l3s l3s' ∧ pt_keeps s s' root l2s l3s ∧
    match o with
    | None => s' = s ∧ has (pt_entry (ram s) t i) PT_VALID = false
    | Some n => ∃ p, n = P2V p ∧ p ∈ l3s' ∧ entry_phys (pt_entry (ram s') t i) = p ∧
        has (pt_entry (ram s') t i) PT_VALID = true ∧
        (has (pt_entry (ram s) t i) PT_VALID = true → s' = s) ∧
        (has (pt_entry (ram s) t i) PT_VALID = false → ∀ j, 0 <= j < 512 → pt_entry (ram s') p j = 0)
    end.
Proof.
  intros Hs Hp Ht Hi. destruct (pt_tab2 _ _ _ _ _ Hp Ht) as [Hr Hrp].
  destruct (next_table_alloc_ok s t i Hs Hr Hrp Hi) as (o & s' & Hrun & Hs' & Hsame & Hcase).
  destruct o as [n|].
  2:{ destruct Hcase as [-> Hv]. exists None, s, l3s.
      split_and!; [done|done|done|done|apply pt_grows_refl|by split|done|done]. }
  destruct Hcase as (p & -> & Hep & Hev & [[-> Hv]|(Hv & Hpf & Hp0 & Href & Hmem & Hz & Hfr)]).
  { exists (Some (P2V p)), s, l3s. split; [done|]. split; [done|]. split; [done|].
    split; [done|]. split; [apply pt_grows_refl|]. split; [by split|].
    exists p. split; [done|]. split; [rewrite <- Hep; by apply (pt_l3 _ _ _ _ Hp)|].
    split; [done|]. split; [done|]. split; [done|]. by rewrite Hv. }
  pose proof (vs_frame _ _ Hsame) as Hframe. pose proof (pt_root_new _ _ _ _ Hp) as Hrn.
  pose proof (pt_disj _ _ _ _ Hp) as Hdj. destruct (pt_root _ _ _ _ Hp) as [Hroot Hrootp].
  assert (Hne : ∀ u, u ∈ {[root]} ∪ (l2s ∪ l3s) → frame_of s u ∧ u ≠ p ∧ 0 < refs_of s' u).
  { intros u Hu. assert (frame_of s u ∧ 0 < refs_of s u) as [Huf Hup].
    { apply elem_of_union in Hu as [->%elem_of_singleton|Hu]; [done|]. by apply (pt_tabs _ _ _ _ Hp). }
    destruct (refs_pos s s' p u Hp0 Href Huf Hup). done. }
  assert (Hfresh : p ∉ {[root]} ∪ (l2s ∪ l3s)) by (intros Hu; by destruct (Hne p Hu) as (_ & ? & _)).
  exists (Some (P2V p)), s', ({[p]} ∪ l3s). split; [done|]. split; [done|]. split; [done|].
  split; [|split; [by apply pt_grows_add, unused_0|split]].
  - split; [|  |set_solver|set_solver| | | |].
    + split; [by apply Hframe|]. apply Hne. set_solver.
    + intros u Hu. destruct (decide (u = p)) as [->|].
      * split; [by apply Hframe|]. rewrite Href by done. rewrite decide_True by done. lia.
      * destruct (Hne u) as (? & _ & ?); [set_solver|]. split; [by apply Hframe|done].
    + intros j Hj Hjv. destruct (Hne root) as (_ & ? & _); [set_solver|].
      assert (pt_entry (ram s') root j = pt_entry (ram s) root j) as He.
      { apply Hfr; [done..|]. intros [<- _]. set_solver. }
      rewrite He in Hjv |- *. by apply (pt_l2 _ _ _ _ Hp).
    + intros u j Hu Hj Hjv. destruct (decide (u = t ∧ j = i)) as [[-> ->]|Hne'].
      { rewrite Hep. set_solver. }
      destruct (Hne u) as (? & ? & _); [set_solver|].
      rewrite Hfr in Hjv |- * by done. apply elem_of_union_r. by apply (pt_l3 _ _ _ _ Hp).
    + intros j k Hj Hk Hjv Hkv Heq. destruct (Hne root) as (_ & ? & _); [set_solver|].
      assert (∀ j, 0 <= j < 512 → pt_entry (ram s') root j = pt_entry (ram s) root j) as He.
      { intros l Hl. apply Hfr; [done..|]. intros [<- _]. set_solver. }
      rewrite He in Hjv, Hkv by done. rewrite !He in Heq by done. by apply (pt_inj2 _ _ _ _ Hp).
    + assert (Hent : ∀ u j, u ∈ l2s → 0 <= j < 512 → has (pt_entry (ram s') u j) PT_VALID = true →
        ¬ (u = t ∧ j = i) → has (pt_entry (ram s) u j) PT_VALID = true ∧
        pt_entry (ram s') u j = pt_entry (ram s) u j ∧ entry_phys (pt_entry (ram s') u j) ≠ p).
      { intros u j Hu Hj Hjv Hne'. destruct (Hne u) as (? & ? & _); [set_solver|].
        assert (pt_entry (ram s') u j = pt_entry (ram s) u j) as He by (by apply Hfr).
        rewrite He in Hjv |- *. split_and!; [done|done|]. intros Hpe. apply Hfresh. rewrite <- Hpe.
        pose proof (pt_l3 _ _ _ _ Hp u j Hu Hj Hjv). set_solver. }
      intros u w j k Hu Hw Hj Hk Hjv Hkv Heq.
      destruct (decide (u = t ∧ j = i)) as [[-> ->]|H1], (decide (w = t ∧ k = i)) as [[-> ->]|H2].
      * done.
      * destruct (Hent w k Hw Hk Hkv H2) as (_ & _ & ?). congruence.
      * destruct (Hent u j Hu Hj Hjv H1) as (_ & _ & ?). congruence.
      * destruct (Hent w k Hw Hk Hkv H2) as (? & He1 & _), (Hent u j Hu Hj Hjv H1) as (? & He2 & _).
        rewrite He1, He2 in Heq. by apply (pt_inj3 _ _ _ _ Hp).
  - split.
    + intros u j Hu Hj Hjv. destruct (Hne u) as (? & ? & _); [set_solver|].
      apply Hfr; try done. intros [-> ->]. congruence.
    + intros u j Hu Hj. destruct (Hne u) as (? & ? & _); [set_solver|].
      apply Hfr; try done. intros [-> _]. set_solver.
    + intros b Hb Hbr. rewrite Href, decide_False; [done| |done]. intros ->. lia.
    + intros x Hx Hx'. apply Hmem; [by apply (Hx p), unused_0|apply (Hx' t); set_solver].
  - exists p. split_and!; try done; [set_solver|congruence].
Qed.

Lemma unused_before s s' root l2s l3s f : vm_same s s' → pt_keeps s s' root l2s l3s → unused s' f → unused s f.
Proof.
  intros Hsame Hk [Hf Hr]. apply (vs_frame _ _ Hsame) in Hf. split; [done|]. intros Hr'. apply Hr.
  by rewrite (pk_refs _ _ _ _ _ Hk).
Qed.
Lemma pt_grows_before s s' root l2s l3s T T' : vm_same s s' → pt_keeps s s' root l2s l3s → pt_grows s' T T' → pt_grows s T T'.
Proof. intros Hsame Hk [Hs Hn]. split; [done|]. intros t [?|?]%Hn; [by left|right]. by eapply unused_before. Qed.
Lemma pt_keeps_trans s1 s2 s3 root l2s l3s l2s' l3s' :
  vm_same s1 s2 → pt_grows s1 l2s l2s' → pt_grows s1 l3s l3s' → pt_keeps s1 s2 root l2s l3s → pt_keeps s2 s3 root l2s' l3s' →
  pt_keeps s1 s3 root l2s l3s.
Proof.
  intros Hsame [H2 H2'] [H3 H3'] [Ha1 Ha2 Ha3 Ha4] [Hb1 Hb2 Hb3 Hb4]. pose proof (vs_frame _ _ Hsame) as Hfr. split.
  - intros t i Ht Hi Hv. specialize (Ha1 t i Ht Hi Hv). rewrite <- Ha1. apply Hb1; [set_solver|done|].
    by rewrite Ha1.
  - intros t i Ht Hi. rewrite <- (Ha2 t i Ht Hi). apply Hb2; [set_solver|done].
  - intros b Hb Hr. rewrite <- (Ha3 b Hb Hr). apply Hb3; [by apply Hfr|]. by rewrite Ha3.
  - intros x Hx Ht. rewrite <- (Ha4 x Hx Ht). apply Hb4.
    + intros f [Hf Hr]. apply Hx. split; [by apply Hfr|]. intros Hr'. apply Hr. rewrite Ha3; [done|by apply Hfr|done].
    + assert (Hin : ∀ t, t ∈ l2s ∨ t ∈ l3s → ¬ in_page t x).
      { intros t Htt. apply Ht. rewrite !elem_of_union. tauto. }
      intros t Htt. apply elem_of_union in Htt as [->%elem_of_singleton|Htt].
      { apply Ht, elem_of_union_l. by apply elem_of_singleton. }
      apply elem_of_union in Htt as [[?|?]%H2'|[?|?]%H3']; [apply Hin; by left|by apply Hx|apply Hin; by right|by apply Hx].
Qed.

(** The two levels together; shared by [vmm_get_pte_from_table_alloc] and, with
    paging on, by the walks of the kernel. *)
Definition alloc_levels (page_table virt : Z) : M (vmm FA) (option Z) :=
  o <- next_table_alloc page_table (l1_idx virt);;
  match o with
  | None => ret None
  | Some l2_table =>
      o <- next_table_alloc l2_table (l2_idx virt);;
      match o with
      | None => ret None
      | Some l3_table => ret (Some (slot l3_table (l3_idx virt)))
      end
  end.

Lemma alloc_levels_ok s root l2s l3s va :
  vm_ok s → pt_ok s root l2s l3s →
  ∃ o s' l2s' l3s', alloc_levels (P2V root) va s = Done (o, s') ∧ vm_ok s' ∧ vm_same s s' ∧
    pt_ok s' root l2s' l3s' ∧ pt_grows s l2s l2s' ∧ pt_grows s l3s l3s' ∧ pt_keeps s s' root l2s l3s ∧
    match o with
    | None => walk s root va = 0
    | Some pte => walk s' root va = pte ∧
        (∃ t, t ∈ l3s' ∧ pte = slot (P2V t) (l3_idx va)) ∧
        (walk s root va ≠ 0 → s' = s) ∧ (walk s root va = 0 → rd64 (ram s') pte = 0)
    end.
Proof.
  intros Hs Hp. unfold alloc_levels.
  destruct (alloc_l2_ok s root l2s l3s (l1_idx va) Hs Hp (idx_range va 30))
    as (o & s1 & l2s1 & Hrun1 & Hs1 & Hsame1 & Hp1 & Hsub1 & Hk1 & Hcase1).
  mstep Hrun1. pose proof (walk_spec s root l2s l3s va Hs Hp) as Hw. cbv zeta in Hw.
  destruct o as [n|].
  2:{ destruct Hcase1 as [-> Hv]. rewrite Hv in Hw. exists None, s, l2s, l3s. split_and!; try done; apply pt_grows_refl. }
  destruct Hcase1 as (p2 & -> & Hp2 & He1 & Hv1 & Hsame & Hz2).
  destruct (alloc_l3_ok s1 root l2s1 l3s p2 (l2_idx va) Hs1 Hp1 Hp2 (idx_range va 21))
    as (o & s2 & l3s2 & Hrun2 & Hs2 & Hsame2 & Hpt2 & Hsub2 & Hk2 & Hcase2).
  mstep Hrun2. assert (pt_keeps s s2 root l2s l3s) as Hk.
  { by eapply pt_keeps_trans, Hk2; [| |apply pt_grows_refl|]. }
  assert (vm_same s s2) as Hsm by (by transitivity s1).
  assert (walk s root va ≠ 0 → has (pt_entry (ram s) root (l1_idx va)) PT_VALID = true ∧ s1 = s ∧
    has (pt_entry (ram s1) p2 (l2_idx va)) PT_VALID = true) as Hnz.
  { intros Hne. rewrite Hw in Hne.
    destruct (has (pt_entry (ram s) root (l1_idx va)) PT_VALID) eqn:Hv0; [|done].
    rewrite (Hsame eq_refl) in He1 |- *. rewrite He1 in Hne. split_and!; [done|done|].
    by destruct (has (pt_entry (ram s) p2 (l2_idx va)) PT_VALID). }
  destruct o as [n|].
  2:{ destruct Hcase2 as [-> Hv2]. exists None, s1, l2s1, l3s. split_and!; try done; [apply pt_grows_refl|].
      destruct (decide (walk s root va = 0)) as [|Hne]; [done|].
      destruct (Hnz Hne) as (_ & -> & Hv2'). congruence. }
  destruct Hcase2 as (p3 & -> & Hp3 & He2 & Hv2 & Hsm2 & Hz3).
  assert (pt_entry (ram s2) root (l1_idx va) = pt_entry (ram s1) root (l1_idx va)) as Her.
  { apply (pk_valid _ _ _ _ _ Hk2); [set_solver|apply idx_range|done]. }
  exists (Some (slot (P2V p3) (l3_idx va))), s2, l2s1, l3s2. split_and!; try done; [eapply pt_grows_before; [exact Hsame1|exact Hk1|exact Hsub2]| |eauto| |].
  - rewrite (walk_spec s2 _ _ _ _ Hs2 Hpt2). cbv zeta. rewrite Her, Hv1, He1, Hv2, He2. done.
  - intros Hne. destruct (Hnz Hne) as (_ & Heq & Hv). rewrite (Hsm2 Hv). done.
  - intros Hz. assert (has (pt_entry (ram s1) p2 (l2_idx va)) PT_VALID = false) as Hv.
    { destruct (has (pt_entry (ram s) root (l1_idx va)) PT_VALID) eqn:Hv0.
      - pose proof (Hsame eq_refl) as Heq. subst s1. rewrite He1 in Hw.
        destruct (has (pt_entry (ram s) p2 (l2_idx va)) PT_VALID) eqn:Hv'; [|done].
        exfalso. rewrite Hz in Hw.
        assert (aligned (entry_phys (pt_entry (ram s) p2 (l2_idx va)))) as [_ Ha].
        { apply (frame_aligned s); [done|].
          eapply pt_tab3; [exact Hp1|]. apply (pt_l3 _ _ _ _ Hp1); [done|apply idx_range|done]. }
        unfold slot, P2V, PHYS_OFFSET in Hw. rewrite u64_id in Hw by lia.
        pose proof (idx_range va 12). unfold l3_idx in Hw. lia.
      - rewrite Hz2 by (done || apply idx_range). done. }
    assert (aligned p3) as Ha
      by (apply (frame_aligned s2 p3 Hs2), (pt_tab3 _ _ _ _ _ Hpt2 Hp3)).
    rewrite rd64_slot by (done || apply idx_range). apply Hz3; [done|apply idx_range].
Qed.

(** The walk that allocates, as the two levels. *)
Lemma get_pte_alloc_levels s root l2s l3s va o s' : vm_ok s → pt_ok s root l2s l3s →
  alloc_levels (P2V root) va s = Done (o, s') → vmm_get_pte_from_table_alloc (P2V root) va s = Done (default 0 o, s').
Proof.
  intros Hp Hpt Hrun. unfold vmm_get_pte_from_table_alloc. destruct (pt_root _ _ _ _ Hpt) as [Hr _].
  rewrite (proj2 (Z.eqb_neq _ _)) by (apply P2V_nonzero; by apply (frame_aligned s)).
  unfold alloc_levels, bind in Hrun |- *.
  destruct (next_table_alloc (P2V root) (l1_idx va) s) as [[[n|] s1]| |]; try done; [|by injection Hrun as <- <-].
  destruct (next_table_alloc n (l2_idx va) s1) as [[[n'|] s2]| |]; try done; by injection Hrun as <- <-.
Qed.

(** [vmm_get_pte_from_table_alloc] either runs out of frames (and returns
    NULL, only for an address without tables) or returns the address at which
    [vmm_get_pte_from_table] finds the entry from now on; a new entry is
    invalid; the tables stay well formed, and every address that could be
    walked before is walked to the same entry with the same content. *)
Theorem vmm_walk_after_alloc s root l2s l3s va :
  vm_ok s → pt_ok s root l2s l3s →
  ∃ pte s' l2s' l3s', vmm_get_pte_from_table_alloc (P2V root) va s = Done (pte, s') ∧
    vm_ok s' ∧ pt_ok s' root l2s' l3s' ∧
    (pte = 0 ∧ walk s root va = 0 ∨ walk s' root va = pte ∧ pte ≠ 0) ∧
    (walk s root va ≠ 0 → s' = s) ∧
    (walk s root va = 0 → pte ≠ 0 → rd64 (ram s') pte = 0) ∧
    ∀ va', walk s root va' ≠ 0 → walk s' root va' = walk s root va' ∧
      rd64 (ram s') (walk s root va') = rd64 (ram s) (walk s root va').
Proof.
  intros Hs Hp.
  destruct (alloc_levels_ok s root l2s l3s va Hs Hp)
    as (o & s' & l2s' & l3s' & Hrun & Hs' & Hsame & Hp' & _ & _ & Hk & Hcase).
  exists (default 0 o), s', l2s', l3s'. split.
  { by eapply get_pte_alloc_levels. }
  split; [done|]. split; [done|].
  split; [|split; [|split; [|intros va' Hv; by eapply walk_keeps]]];
    (destruct o as [pte|]; [destruct Hcase as (Hw & (t & Ht & Hpte) & Hsm & Hz)|]); simpl; auto; try done.
  right. split; [done|]. rewrite Hpte.
  assert (aligned t) as [_ Ha]
    by (apply (frame_aligned s' t Hs'), (pt_tab3 _ _ _ _ _ Hp' Ht)).
  unfold slot, P2V, PHYS_OFFSET. rewrite u64_id by lia. pose proof (idx_range va 12).
  unfold l3_idx. lia.
Qed.

(** With paging on, the kernel's own walk takes the same steps. *)
Lemma get_next_table_eq s t i o s' :
  vm_ok s → frame_of s t → 0 < refs_of s t → 0 <= i < 512 → paging_enabled s = true →
  next_table_alloc (P2V t) i s = Done (o, s') →
  get_next_table (P2V t) i s = Done (default 0 o, s').
Proof.
  intros Hs Ht Htr Hi Hpg Hnext. pose proof (frame_aligned s t Hs Ht) as Hta.
  unfold next_table_alloc in Hnext. unfold bind at 1, read64 at 1, gets at 1 in Hnext.
  unfold get_next_table. unfold bind at 1, read64 at 1, gets at 1.
  rewrite rd64_slot in Hnext by done. rewrite rd64_slot by done.
  destruct (has (pt_entry (ram s) t i) PT_VALID) eqn:Hv.
  - unfold bind, read64, gets, ret in Hnext |- *. simpl in Hnext. rewrite rd64_slot in Hnext by done.
    injection Hnext as <- <-. unfold safe_P2V. by rewrite Hpg.
  - destruct (alloc_frame_ok s Hs) as (a & s1 & Hrun & Hs1 & Hsame & Hram & Hcase).
    unfold bind at 1 in Hnext. unfold bind at 1 in Hnext. rewrite Hrun in Hnext. mstep Hrun.
    destruct Hcase as [[-> ->]|(Ha0 & Hal & _)]; [simpl in Hnext |- *; by injection Hnext as <- <-|].
    rewrite (proj2 (Z.eqb_neq _ _)) in Hnext |- * by done.
    destruct (table_entry a (proj1 Hal) (proj2 Hal)) as (Hep & _ & Her).
    unfold bind, gets, clear_page, write64, modify, read64, ret, safe_P2V in Hnext |- *.
    simpl in Hnext |- *.
    rewrite rd64_slot, wr64_slot, pt_entry_store, decide_True in Hnext by done.
    rewrite Hep in Hnext. rewrite (vs_paging _ _ Hsame), Hpg. injection Hnext as <- <-.
    rewrite wr64_slot by done. done.
Qed.

Definition same_page (va va' : Z) : Prop :=
  l1_idx va = l1_idx va' ∧ l2_idx va = l2_idx va' ∧ l3_idx va = l3_idx va'.

Lemma walk_same_page s root va va' : same_page va va' → walk s root va = walk s root va'.
Proof. intros (H1 & H2 & H3). unfold walk, vmm_get_pte_from_table. by rewrite H1, H2, H3. Qed.

(** Different pages have different entries. *)
Lemma walk_inj s root l2s l3s va va' :
  vm_ok s → pt_ok s root l2s l3s → walk s root va ≠ 0 → walk s root va = walk s root va' →
  same_page va va'.
Proof.
  intros Hs Hp Hne Heq. rewrite (walk_spec s _ _ _ va Hs Hp), (walk_spec s _ _ _ va' Hs Hp) in *.
  cbv zeta in *. set (e1 := pt_entry (ram s) root (l1_idx va)) in *.
  set (e1' := pt_entry (ram s) root (l1_idx va')) in *.
  set (e2 := pt_entry (ram s) (entry_phys e1) (l2_idx va)) in *.
  set (e2' := pt_entry (ram s) (entry_phys e1') (l2_idx va')) in *.
  destruct (has e1 PT_VALID) eqn:H1; [|done]. destruct (has e2 PT_VALID) eqn:H2; [|done].
  destruct (has e1' PT_VALID) eqn:H1'; [|done]. destruct (has e2' PT_VALID) eqn:H2'; [|done].
  pose proof (pt_l2 _ _ _ _ Hp (l1_idx va) (idx_range va 30) H1) as Ht.
  pose proof (pt_l2 _ _ _ _ Hp (l1_idx va') (idx_range va' 30) H1') as Ht'.
  pose proof (pt_l3 _ _ _ _ Hp _ (l2_idx va) Ht (idx_range va 21) H2) as Hu.
  pose proof (pt_l3 _ _ _ _ Hp _ (l2_idx va') Ht' (idx_range va' 21) H2') as Hu'.
  pose proof (frame_aligned s _ Hs (proj1 (pt_tab3 _ _ _ _ _ Hp Hu))) as Ha.
  pose proof (frame_aligned s _ Hs (proj1 (pt_tab3 _ _ _ _ _ Hp Hu'))) as Ha'.
  fold e1 e2 in Hu, Ha. fold e1' e2' in Hu', Ha'. fold e1 in Ht. fold e1' in Ht'.
  pose proof (f_equal V2P Heq) as Hadr.
  rewrite (V2P_slot (entry_phys e2)), (V2P_slot (entry_phys e2')) in Hadr
    by (apply Ha || apply Ha' || apply idx_range).
  pose proof (idx_range va 12) as Hr. pose proof (idx_range va' 12) as Hr'.
  fold (l3_idx va) in Hr. fold (l3_idx va') in Hr'.
  destruct (decide (entry_phys e2 = entry_phys e2')) as [He2|Hd].
  2:{ destruct (aligned_disjoint _ _ Ha Ha' Hd); lia. }
  destruct (pt_inj3 _ _ _ _ Hp (entry_phys e1) (entry_phys e1') (l2_idx va) (l2_idx va'))
    as [He1 Hi2]; try done; try apply idx_range.
  split; [|split; [done|]].
  - by apply (pt_inj2 _ _ _ _ Hp); [apply idx_range|apply idx_range|..].
  - rewrite He2 in Hadr. lia.
Qed.

(** The descriptors of [vmm_map_page] are valid and carry the frame. *)
Lemma map_entry_ok phys flags :
  phys mod 4096 = 0 → 0 <= phys < 2 ^ 48 →
  entry_phys (map_entry phys flags) = phys ∧ has (map_entry phys flags) PT_VALID = true ∧
  0 <= map_entry phys flags < 2 ^ 64.
Proof.
  intros Hm Hp.
  assert (∃ c, map_entry phys flags = Z.lor phys c ∧ entry_phys c = 0 ∧ has c PT_VALID = true ∧
    0 <= c < 2 ^ 64) as (c & -> & Hc1 & Hc2 & Hc3).
  { unfold map_entry. repeat case_match; rewrite <- !Z.lor_assoc; eexists;
      (split; [reflexivity|by vm_compute]). }
  split_and!.
  - by rewrite entry_phys_lor, entry_phys_frame, Hc1, Z.lor_0_r by lia.
  - by rewrite has_lor, Hc2, orb_true_r.
  - apply (lor_range 64); lia.
  - apply (lor_range 64); lia.
Qed.

Lemma vmm_map_page_run s root l2s l3s virt phys flags :
  vm_ok s → pt_ok s root l2s l3s → root_table s = P2V root → paging_enabled s = true →
  vmm_lock s = false →
  vmm_map_page virt phys flags s =
    match alloc_levels (P2V root) virt (set_vmm_lock true s) with
    | Done (None, s') => Done (tt, s')
    | Done (Some pte, s') =>
        Done (tt, set_vmm_lock false (set_ram (wr64 (ram s') pte (map_entry phys flags)) s'))
    | Fault => Fault
    | Stuck => Stuck
    end.
Proof.
  intros Hs Hp Hroot Hpg Hlock. unfold vmm_map_page, vmm_acquire.
  unfold bind at 1, spin_acquire at 1. rewrite Hlock. set (s0 := set_vmm_lock true s).
  assert (vm_ok s0) as Hs0 by (destruct Hs; by split).
  assert (pt_ok s0 root l2s l3s) as Hp0 by (destruct Hp; by split).
  unfold bind at 1, gets at 1. change (root_table s0) with (root_table s). rewrite Hroot.
  destruct (pt_root _ _ _ _ Hp0) as [Hr Hrp].
  destruct (alloc_l2_ok s0 root l2s l3s (l1_idx virt) Hs0 Hp0 (idx_range virt 30))
    as (o & s1 & l2s1 & Hrun1 & Hs1 & Hsame1 & Hp1 & _ & _ & Hcase1).
  pose proof (get_next_table_eq s0 root (l1_idx virt) _ _ Hs0 Hr Hrp (idx_range virt 30) Hpg Hrun1) as Hg1.
  mstep Hg1. unfold alloc_levels. mstep Hrun1.
  destruct o as [n|]; [|done]. destruct Hcase1 as (p2 & -> & Hp2 & _). simpl default.
  destruct (pt_tab2 _ _ _ _ _ Hp1 Hp2) as [Hf2 Hr2].
  pose proof (frame_aligned s1 p2 Hs1 Hf2) as Ha2.
  rewrite (proj2 (Z.eqb_neq _ _)) by (by apply P2V_nonzero).
  destruct (alloc_l3_ok s1 root l2s1 l3s p2 (l2_idx virt) Hs1 Hp1 Hp2 (idx_range virt 21))
    as (o & s2 & l3s2 & Hrun2 & Hs2 & Hsame2 & Hpt2 & _ & _ & Hcase2).
  assert (paging_enabled s1 = true) as Hpg1 by (by rewrite (vs_paging _ _ Hsame1)).
  pose proof (get_next_table_eq s1 p2 (l2_idx virt) _ _ Hs1 Hf2 Hr2 (idx_range virt 21) Hpg1 Hrun2) as Hg2.
  mstep Hg2. mstep Hrun2. destruct o as [n|]; [|done]. destruct Hcase2 as (p3 & -> & Hp3 & _).
  simpl default. pose proof (frame_aligned s2 p3 Hs2 (proj1 (pt_tab3 _ _ _ _ _ Hpt2 Hp3))) as Ha3.
  rewrite (proj2 (Z.eqb_neq _ _)) by (by apply P2V_nonzero). done.
Qed.


Lemma alloc_levels_fails s root l2s l3s virt :
  vm_ok s → pt_ok s root l2s l3s → alloc_frame s = Done (0, s) → walk s root virt = 0 →
  alloc_levels (P2V root) virt s = Done (None, s).
Proof.
  intros Hs Hp Hoom Hw.
  assert (Hnone : ∀ t i, aligned t → 0 <= i < 512 → has (pt_entry (ram s) t i) PT_VALID = false →
    next_table_alloc (P2V t) i s = Done (None, s)).
  { intros t i Ht Hi Hv. unfold next_table_alloc. unfold bind at 1, read64 at 1, gets at 1.
    rewrite rd64_slot, Hv by done. unfold bind at 1. mstep Hoom. done. }
  unfold alloc_levels.
  destruct (alloc_l2_ok s root l2s l3s (l1_idx virt) Hs Hp (idx_range virt 30))
    as (o & s1 & l2s1 & Hrun1 & Hs1 & _ & Hp1 & _ & _ & Hcase1).
  pose proof (frame_aligned s root Hs (proj1 (pt_root _ _ _ _ Hp))) as Hra.
  destruct (has (pt_entry (ram s) root (l1_idx virt)) PT_VALID) eqn:Hv1.
  2:{ mstep (Hnone root (l1_idx virt) Hra (idx_range virt 30) Hv1). done. }
  destruct o as [n|]; [|by destruct Hcase1].
  destruct Hcase1 as (p2 & -> & Hp2 & He & _ & Hsm & _). pose proof (Hsm eq_refl) as Heq. subst s1.
  mstep Hrun1. rewrite (walk_spec s root l2s l3s virt Hs Hp) in Hw. cbv zeta in Hw.
  rewrite Hv1, He in Hw.
  pose proof (frame_aligned s p2 Hs (proj1 (pt_tab2 _ _ _ _ _ Hp1 Hp2))) as Ha2.
  destruct (has (pt_entry (ram s) p2 (l2_idx virt)) PT_VALID) eqn:Hv2.
  2:{ mstep (Hnone p2 (l2_idx virt) Ha2 (idx_range virt 21) Hv2). done. }
  exfalso. pose proof (pt_l3 _ _ _ _ Hp1 p2 (l2_idx virt) Hp2 (idx_range virt 21) Hv2) as H3.
  destruct (frame_aligned s _ Hs (proj1 (pt_tab3 _ _ _ _ _ Hp1 H3))) as [_ Ha].
  unfold slot, P2V, PHYS_OFFSET in Hw. rewrite u64_id in Hw by lia.
  pose proof (idx_range virt 12). unfold l3_idx in Hw. lia.
Qed.

(** [vmm_map_page] returns without releasing [vmm_lock] when a table cannot
    be allocated: every later mapping, of any page, then waits for ever. *)
Theorem vmm_map_page_oom_deadlock s root l2s l3s virt phys flags :
  vm_ok s → pt_ok s root l2s l3s → root_table s = P2V root → paging_enabled s = true →
  vmm_lock s = false → walk s root virt = 0 → alloc_frame s = Done (0, s) →
  ∃ s', vmm_map_page virt phys flags s = Done (tt, s') ∧
    ∀ virt' phys' flags', vmm_map_page virt' phys' flags' s' = Stuck.
Proof.
  intros Hs Hp Hroot Hpg Hlock Hw Hoom. exists (set_vmm_lock true s).
  rewrite (vmm_map_page_run _ _ _ _ _ _ _ Hs Hp Hroot Hpg Hlock). split; [|done].
  rewrite (alloc_levels_fails _ root l2s l3s); [done|by destruct Hs|by destruct Hp| |done].
  unfold alloc_frame, zoom in Hoom |- *. simpl. destruct (fa_alloc (frames s)) as [[a f]| |]; [|done|done].
  injection Hoom as -> Hf. f_equal. f_equal. change f with (frames (set_frames f s)). by rewrite Hf.
Qed.

Lemma vmm_get_pte_mapped s root l2s l3s virt b :
  vm_ok s → pt_ok s root l2s l3s → root_table s = P2V root → paging_enabled s = true →
  walk s root virt ≠ 0 → vmm_get_pte virt b s = Done (walk s root virt, s).
Proof.
  intros Hs Hp Hroot Hpg Hw. unfold vmm_get_pte. unfold bind at 1, gets at 1. rewrite Hroot.
  destruct (pt_root _ _ _ _ Hp) as [Hr Hrp].
  rewrite (proj2 (Z.eqb_neq _ _)) by (apply P2V_nonzero; by apply (frame_aligned s)).
  destruct (alloc_levels_ok s root l2s l3s virt Hs Hp) as (o & s' & l2s' & l3s' & Hrun & _ & _ & _ & _ & _ & _ & Hcase).
  destruct o as [pte|]; [|done]. destruct Hcase as (Hpte & _ & Hsm & _). pose proof (Hsm Hw) as Heq. subst s'.
  rewrite Hpte. unfold alloc_levels in Hrun. apply bind_inv in Hrun as (o1 & s1 & Hrun1 & Hrun).
  destruct (alloc_l2_ok s root l2s l3s (l1_idx virt) Hs Hp (idx_range virt 30))
    as (o' & s1' & l2s1 & Hrun1' & Hs1 & Hsame1 & Hp1 & _ & _ & Hcase1).
  rewrite Hrun1 in Hrun1'. injection Hrun1' as <- <-.
  mstep (get_next_table_eq s root (l1_idx virt) _ _ Hs Hr Hrp (idx_range virt 30) Hpg Hrun1).
  destruct o1 as [n|]; [|done]. destruct Hcase1 as (p2 & -> & Hp2 & _). simpl default.
  destruct (pt_tab2 _ _ _ _ _ Hp1 Hp2) as [Hf2 Hr2].
  rewrite (proj2 (Z.eqb_neq _ _)) by (apply P2V_nonzero; by apply (frame_aligned s1)).
  assert (paging_enabled s1 = true) as Hpg1 by (by rewrite (vs_paging _ _ Hsame1)).
  apply bind_inv in Hrun as (o2 & s2 & Hrun2 & Hrun).
  mstep (get_next_table_eq s1 p2 (l2_idx virt) _ _ Hs1 Hf2 Hr2 (idx_range virt 21) Hpg1 Hrun2).
  destruct (alloc_l3_ok s1 root l2s1 l3s p2 (l2_idx virt) Hs1 Hp1 Hp2 (idx_range virt 21))
    as (o' & s2' & l3s2 & Hrun2' & Hs2 & _ & Hpt2 & _ & _ & Hcase2).
  rewrite Hrun2 in Hrun2'. injection Hrun2' as <- <-.
  destruct o2 as [n|]; [|done]. destruct Hcase2 as (p3 & -> & Hp3 & _). simpl default.
  rewrite (proj2 (Z.eqb_neq _ _)) by
    (apply P2V_nonzero; apply (frame_aligned s2 p3 Hs2), (pt_tab3 _ _ _ _ _ Hpt2 Hp3)).
  unfold ret in Hrun |- *. injection Hrun as <- <-. done.
Qed.

(** The descriptor a COW fault writes over [entry]. *)
Lemma cow_entry_ok entry f :
  aligned f → 0 <= entry < 2 ^ 64 → has entry PT_VALID = true →
  let e := andnot (andnot (Z.lor (andnot entry 0xFFFFFFFFF000) f) PT_SW_COW) (Z.shiftl 1 7) in
  entry_phys e = f ∧ has e PT_VALID = true ∧ has e PT_SW_COW = false ∧
  has e (Z.shiftl 1 7) = false ∧ 0 <= e < 2 ^ 64.
Proof.
  intros [Hm Hf] He Hv e.
  assert (Hbit : ∀ i, 0 <= i → Z.testbit e i =
    ((Z.testbit entry i && negb (Z.testbit 0xFFFFFFFFF000 i) || Z.testbit f i) &&
      negb (Z.testbit PT_SW_COW i)) && negb (Z.testbit (Z.shiftl 1 7) i)).
  { intros i Hi. unfold e, andnot. rewrite !Z.land_spec, Z.lor_spec, Z.land_spec.
    by rewrite !Z.lnot_spec. }
  assert (Hmask : ∀ i, 0 <= i → Z.testbit 0xFFFFFFFFF000 i = bool_decide (12 <= i < 48)).
  { intros i Hi. change 0xFFFFFFFFF000 with (Z.ldiff (Z.ones 48) (Z.ones 12)).
    rewrite Z.ldiff_spec, !Z.testbit_ones_nonneg by lia. destruct (Z.ltb_spec i 48), (Z.ltb_spec i 12); case_bool_decide; simpl; lia || done. }
  assert (Hf0 : ∀ i, 0 <= i → ¬ 12 <= i < 48 → Z.testbit f i = false).
  { intros i Hi Hn. destruct (decide (i < 12)); [|apply (testbit_small f 39); lia].
    rewrite <- (Z.mod_pow2_bits_low f 12) by lia. change (2 ^ 12) with 4096. by rewrite Hm, Z.bits_0. }
  change PT_VALID with (2 ^ 0) in *. change PT_SW_COW with (2 ^ 55) in *.
  change (Z.shiftl 1 7) with (2 ^ 7) in *. rewrite has_pow2 in Hv by lia. rewrite !has_pow2 by lia.
  rewrite !Hbit by lia. rewrite !Hmask by lia. split_and!.
  - apply Z.bits_inj'. intros i Hi. unfold entry_phys. rewrite Z.land_spec, Hbit, Hmask by lia.
    rewrite !Z.pow2_bits_eqb by lia. case_bool_decide.
    + destruct (Z.eqb_spec 55 i); [subst; lia|]. destruct (Z.eqb_spec 7 i); [lia|].
      by destruct (Z.testbit entry i), (Z.testbit f i).
    + by rewrite andb_false_r, Hf0.
  - rewrite Hv, !Z.pow2_bits_eqb by lia. done.
  - rewrite !Z.pow2_bits_eqb by lia. simpl. by rewrite andb_false_r.
  - rewrite !Z.pow2_bits_eqb by lia. simpl. by rewrite andb_false_r.
  - unfold e, andnot. apply Z.land_nonneg. left. apply Z.land_nonneg. left. apply Z.lor_nonneg.
    split; [apply Z.land_nonneg; left|]; lia.
  - eapply (bits_range e 64); [lia| |].
    + unfold e, andnot. apply Z.land_nonneg. left. apply Z.land_nonneg. left. apply Z.lor_nonneg.
      split; [apply Z.land_nonneg; left|]; lia.
    + intros i Hi. rewrite Hbit, (testbit_small entry 64), (Hf0 i) by lia. done.
Qed.

Lemma copy_page_in m d p x : aligned d → aligned p → 0 <= x < 4096 →
  copy_page m (P2V d) (P2V p) (d + x) = m (p + x).
Proof.
  intros [_ Hd] [_ Hp] Hx. unfold copy_page. rewrite !V2P_P2V by lia. unfold PAGE_SIZE.
  rewrite (proj2 (Z.leb_le _ _)), (proj2 (Z.ltb_lt _ _)) by lia. simpl. f_equal. lia.
Qed.
Lemma copy_page_out m d p x : aligned d → ¬ d <= x < d + 4096 → copy_page m (P2V d) (P2V p) x = m x.
Proof.
  intros [_ Hd] Hx. unfold copy_page. rewrite V2P_P2V by lia. unfold PAGE_SIZE.
  destruct (Z.leb_spec d x), (Z.ltb_spec x (d + 4096)); try done. lia.
Qed.

(** a write to a copy-on-write kernel page is repaired by
    [vmm_handle_page_fault]: the entry then points to a frame that was free,
    holding a copy of the page, valid, writable and no longer marked; the old
    frame loses exactly one reference.  Without a free frame nothing changes
    and -1 is returned. *)
Theorem vmm_page_fault_copies s root l2s l3s virt user_fault :
  let pte := walk s root virt in
  let entry := rd64 (ram s) pte in
  let old := entry_phys entry in
  vm_ok s → pt_ok s root l2s l3s → root_table s = P2V root → paging_enabled s = true →
  USER_SPACE_END <= virt → pte ≠ 0 → has entry PT_VALID = true → has entry PT_SW_COW = true →
  frame_of s old → 0 < refs_of s old →
  ∃ r s', vmm_handle_page_fault user_fault virt true s = Done (r, s') ∧
    (r = -1 ∧ s' = s ∨
     r = 0 ∧ vm_ok s' ∧ refs_of s' old = refs_of s old - 1 ∧
     let e := rd64 (ram s') pte in
     let f := entry_phys e in
     frame_of s f ∧ refs_of s f = 0 ∧ refs_of s' f = 1 ∧ has e PT_VALID = true ∧
     has e PT_SW_COW = false ∧ has e (Z.shiftl 1 7) = false ∧
     ∀ off, 0 <= off < 4096 → ram s' (f + off) = ram s (old + off)).
Proof.
  intros pte entry old Hs Hp Hroot Hpg Hv Hw Hval Hcow Hof Hor. unfold vmm_handle_page_fault.
  rewrite (proj2 (Z.ltb_ge _ _)) by done.
  mstep (vmm_get_pte_mapped s root l2s l3s virt false Hs Hp Hroot Hpg Hw). fold pte.
  rewrite (proj2 (Z.eqb_neq _ _)) by done.
  unfold bind at 1, read64 at 1, gets at 1. fold entry. rewrite Hval, Hcow.
  cbv beta iota zeta delta [negb andb].
  destruct (walk_in_tables s root l2s l3s virt Hs Hp Hw) as (t & Ht & Hta & Hpte). fold pte in Hpte.
  destruct (pt_tab3 _ _ _ _ _ Hp Ht) as [Htf Htr].
  destruct (alloc_frame_ok s Hs) as (a & s1 & Hrun & Hs1 & Hsame & Hram & Hcase).
  mstep Hrun. destruct Hcase as [[-> ->]|(Ha0 & Hal & Haf & Hz & Href)].
  { exists (-1), s. split; [done|]. by left. }
  rewrite (proj2 (Z.eqb_neq _ _)) by done. exists 0.
  pose proof (frame_aligned s old Hs Hof) as Hoa.
  assert (0 <= entry < 2 ^ 64) as Her by (apply load64_range, Hs).
  destruct (cow_entry_ok entry a Hal Her Hval) as (Hep & Hev & Hec & He7 & Hee).
  set (e := andnot _ _) in *.
  unfold copy_frame. unfold bind at 1, modify at 1. fold old. cbv zeta. fold e.
  unfold write64. unfold bind at 1, modify at 1.
  set (m := copy_page (ram s1) (P2V a) (P2V old)).
  set (s2 := set_ram (wr64 m pte e) (set_ram m s1)).
  assert (frame_of s1 old) as Hof1 by (by apply (vs_frame _ _ Hsame)).
  assert (old ≠ a) as Hoa' by (intros Heq; rewrite Heq in Hor; lia).
  assert (t ≠ a) as Hta' by (intros ->; lia).
  assert (0 < refs_of s1 old) as Hor1 by (rewrite Href by done; by rewrite decide_False).
  destruct (fa_free_spec (frames s1) old (vm_frames _ Hs1) Hof1 Hor1) as (f' & Hfree & Hinv & Hfr & Hrf).
  assert (free_frame old s2 = Done (tt, set_frames f' s2)) as Hff.
  { unfold free_frame, zoom. change (frames s2) with (frames s1). by rewrite Hfree. }
  change (set_ram (wr64 (ram (set_ram m s1)) pte e) (set_ram m s1)) with s2. mstep Hff.
  unfold ret. eexists. split; [done|]. right. split; [done|].
  pose proof (idx_range virt 12) as Hi. fold (l3_idx virt) in Hi.
  assert (mem_ok m) as Hm.
  { intros x. subst m. unfold copy_page. destruct (_ && _); apply (vm_ram _ Hs1). }
  split; [split; [done|apply store_le_ok, Hm]|]. split.
  { unfold refs_of. simpl. rewrite Hrf by done. rewrite decide_True by done.
    change (fa_ref (frames s1) old) with (refs_of s1 old). rewrite Href by done. by rewrite decide_False. }
  simpl. assert (rd64 (wr64 m pte e) pte = e) as Hrd.
  { rewrite Hpte, wr64_slot, rd64_slot by done. rewrite pt_entry_store by done.
    by rewrite decide_True. }
  rewrite Hrd, Hep. split_and!; try done.
  - unfold refs_of. simpl. rewrite Hrf by (by apply (vs_frame _ _ Hsame)). rewrite decide_False by done.
    change (fa_ref (frames s1) a) with (refs_of s1 a). rewrite Href by done. by rewrite decide_True.
  - intros off Hoff. rewrite Hpte, wr64_slot by done. unfold store64. rewrite store_le_out.
    + subst m. rewrite copy_page_in by done. by rewrite Hram.
    + destruct (aligned_disjoint t a Hta Hal Hta'); lia.
Qed.
End facts.

(** ** A concrete address space: one table per level in the first three frames,
    one copy-on-write page at the start of the direct map in the fourth. *)
Definition ex_frame (f : Z) : Z := PHY_RAM_BASE + f * PAGE_SIZE.
Definition ex_pmm (stack : list Z) (r : Z) : pmm :=
  mk_pmm (stack ++ replicate (6 - length stack) 0) (Z.of_nat (length stack)) 6
    (6 - Z.of_nat (length stack)) false (6 * 4096) (PHY_RAM_BASE + 6 * 4096) 6
    (Some [1; 1; 1; 1; r; r]).
Definition ex_entry (f : Z) : Z := Z.lor (Z.lor (ex_frame f) PT_TABLE) PT_VALID.
Definition ex_page : Z := Z.lor (Z.lor (ex_frame 3) PT_VALID) PT_SW_COW.
Definition ex_ram : mem :=
  store64 (store64 (store64 (λ _, 0) (ex_frame 0 + 8 * 0) (ex_entry 1))
    (ex_frame 1 + 8 * 0) (ex_entry 2)) (ex_frame 2 + 8 * 0) ex_page.
Definition ex_vmm (stack : list Z) (r : Z) : vmm pmm :=
  mk_vmm ex_ram (ex_pmm stack r) (P2V (ex_frame 0)) (ex_frame 0) true false.

Lemma ex_pmm_inv : pmm_inv (ex_pmm [4; 5] 0) ∧ pmm_inv (ex_pmm [] 1).
Proof.
  split; (split; try done).
  all: try by apply (bool_decide_unpack _).
  all: try (intros f Hf; cbn in Hf; repeat (apply elem_of_cons in Hf as [->|Hf]; [by split|]);
    by apply not_elem_of_nil in Hf).
  all: intros f r Hr; pose proof (zget_Some_range _ _ _ Hr) as Hf; simpl in Hf;
    assert (f = 0 ∨ f = 1 ∨ f = 2 ∨ f = 3 ∨ f = 4 ∨ f = 5) as [-> |[-> |[-> |[-> |[-> | ->]]]]] by lia;
    vm_compute in Hr; simplify_eq; lia.
Qed.

Lemma ex_frame_aligned f : 0 <= f < 6 → aligned (ex_frame f).
Proof. intros Hf. unfold ex_frame, PHY_RAM_BASE, PAGE_SIZE. split; [zlia|lia]. Qed.

Lemma ex_ram_entry t i : 0 <= t < 6 → 0 <= i < 512 →
  pt_entry ex_ram (ex_frame t) i =
    if decide (i = 0) then
      if decide (t = 0) then ex_entry 1 else if decide (t = 1) then ex_entry 2
      else if decide (t = 2) then ex_page else 0
    else 0.
Proof.
  intros Ht Hi. unfold ex_ram. rewrite !pt_entry_store by
    (try apply ex_frame_aligned; try lia; vm_compute; split; discriminate || done).
  assert (pt_entry (λ _, 0) (ex_frame t) i = 0) as -> by (by apply load_le_zero).
  assert (∀ u, ex_frame t = ex_frame u ↔ t = u) as Hinj.
  { intros u. unfold ex_frame, PAGE_SIZE. lia. }
  repeat case_decide; subst; try done; exfalso; rewrite ?Hinj in *; naive_solver lia.
Qed.

Lemma ex_frame_of stack r f : 0 <= f < 6 → frame_of (ex_vmm stack r) (ex_frame f).
Proof. intros Hf. by exists f. Qed.

Lemma ex_pt_ok stack r :
  pt_ok (ex_vmm stack r) (ex_frame 0) {[ex_frame 1]} {[ex_frame 2]}.
Proof.
  split.
  - split; [by apply ex_frame_of|]. by vm_compute.
  - intros t [->%elem_of_singleton| ->%elem_of_singleton]%elem_of_union;
      (split; [by apply ex_frame_of|by vm_compute]).
  - by apply (bool_decide_unpack _).
  - by apply (bool_decide_unpack _).
  - intros i Hi. simpl. rewrite ex_ram_entry by lia. case_decide; [|done].
    intros _. apply elem_of_singleton. by vm_compute.
  - intros t i ->%elem_of_singleton Hi. simpl. rewrite ex_ram_entry by lia. case_decide; [|done].
    intros _. apply elem_of_singleton. by vm_compute.
  - intros i j Hi Hj. simpl. rewrite !ex_ram_entry by lia. repeat case_decide; subst; done.
  - intros t u i j ->%elem_of_singleton ->%elem_of_singleton Hi Hj. simpl.
    rewrite !ex_ram_entry by lia. repeat case_decide; subst; done.
Qed.

Lemma ex_ram_ok : mem_ok ex_ram.
Proof. repeat apply store_le_ok. by intros x. Qed.

Lemma ex_vm_ok : vm_ok (ex_vmm [4; 5] 0) ∧ vm_ok (ex_vmm [] 1).
Proof. split; (split; [apply ex_pmm_inv|apply ex_ram_ok]). Qed.

Lemma vmm_walk_after_alloc_witness :
  ∃ pte s', vmm_get_pte_from_table_alloc (P2V (ex_frame 0)) 0x40000000 (ex_vmm [4; 5] 0) = Done (pte, s') ∧
    vm_ok s'.
Proof.
  destruct (vmm_walk_after_alloc (ex_vmm [4; 5] 0) (ex_frame 0) {[ex_frame 1]} {[ex_frame 2]} 0x40000000)
    as (pte & s' & _ & _ & Hrun & Hok & _); [apply ex_vm_ok|apply ex_pt_ok|].
  exists pte, s'. split; assumption.
Defined.


Lemma vmm_map_page_oom_deadlock_witness :
  ∃ s', vmm_map_page 0x40000000 0 0 (ex_vmm [] 1) = Done (tt, s') ∧
    ∀ virt' phys' flags', vmm_map_page virt' phys' flags' s' = Stuck.
Proof.
  apply (vmm_map_page_oom_deadlock (ex_vmm [] 1) (ex_frame 0) {[ex_frame 1]} {[ex_frame 2]});
    [apply ex_vm_ok|apply ex_pt_ok|done|done|done|by vm_compute|done].
Defined.

Lemma vmm_page_fault_copies_witness :
  ∃ r s', vmm_handle_page_fault (ret 0) PHYS_OFFSET true (ex_vmm [4; 5] 0) = Done (r, s').
Proof.
  destruct (vmm_page_fault_copies (ex_vmm [4; 5] 0) (ex_frame 0) {[ex_frame 1]} {[ex_frame 2]}
    PHYS_OFFSET (ret 0)) as (r & s' & Hrun & _);
    [apply ex_vm_ok|apply ex_pt_ok|done|done|done|by vm_compute|by vm_compute|by vm_compute| |by vm_compute|].
  - exists 3. by vm_compute.
  - exists r, s'. exact Hrun.
Defined.
