(* ===== verification/Virtio.v ===== *)
(** The block device driver, [kernel/arch/aarch64/firmware/virtio.c] and
    [drivers/virtio-blk.c]: set-up of the device and its queue, one request,
    and reads and writes of any length at any byte offset.

    The device shares the memory of the machine: class [VirtioBlk] has its
    registers, the step it takes while the processor waits, and what the
    specification of the legacy interface promises of it (after a notification
    it serves the request of the ring within [vb_delay] steps, and touches
    nothing but the buffer, the status byte and the used ring).  [ram] is
    indexed by physical addresses, the driver's pointers go through [V2P].  A
    run of [virtio_blk_op] starts when the mutex is free: the waiting for it is
    in [Sync]. *)
From S2P Require Export Vmm.
Local Open Scope prog_scope.

Definition VIRTIO_MMIO_GUEST_PAGE_SIZE : Z := 0x028.
Definition VIRTIO_MMIO_QUEUE_SEL : Z := 0x030.
Definition VIRTIO_MMIO_QUEUE_NUM_MAX : Z := 0x034.
Definition VIRTIO_MMIO_QUEUE_NUM : Z := 0x038.
Definition VIRTIO_MMIO_QUEUE_ALIGN : Z := 0x03c.
Definition VIRTIO_MMIO_QUEUE_PFN : Z := 0x040.
Definition VIRTIO_MMIO_QUEUE_NOTIFY : Z := 0x050.
Definition VIRTIO_MMIO_STATUS : Z := 0x070.
Definition VIRTIO_STATUS_ACK : Z := 1.
Definition VIRTIO_STATUS_DRV : Z := 2.
Definition VIRTIO_STATUS_DRV_OK : Z := 4.
Definition VRING_DESC_F_NEXT : Z := 1.
Definition VRING_DESC_F_WRITE : Z := 2.
Definition VIRTIO_BLK_T_IN : Z := 0.
Definition VIRTIO_BLK_T_OUT : Z := 1.
Definition VIRTIO_BLK_SECTOR_SIZE : Z := 512.
Definition QUEUE_SIZE : Z := 16.

(** ** The device *)

(** A queue as the device lays it out from its registers. *)
Record vring := mk_vring { vr_desc : Z; vr_avail : Z; vr_used : Z; vr_num : Z }.
Definition align_up (x a : Z) : Z := (x + a - 1) / a * a.
Definition vring_of (pfn page num align : Z) : vring :=
  let desc := pfn * page in
  mk_vring desc (desc + 16 * num) (align_up (desc + 16 * num + 2 * (3 + num)) align) num.

(** A request, and the chain of three descriptors that describes it. *)
Record breq := mk_breq { rq_write : bool; rq_sector : Z; rq_hdr : Z; rq_buf : Z; rq_status : Z }.
Definition desc_at (m : mem) (a addr len flags next : Z) : Prop :=
  load64 m a = addr ∧ load32 m (a + 8) = len ∧ load16 m (a + 12) = flags ∧ load16 m (a + 14) = next.
Definition request_at (m : mem) (r : vring) (head : Z) (q : breq) : Prop := ∃ i j,
  desc_at m (vr_desc r + 16 * head) (rq_hdr q) 16 VRING_DESC_F_NEXT i ∧
  desc_at m (vr_desc r + 16 * i) (rq_buf q) 512 (if rq_write q then VRING_DESC_F_NEXT else Z.lor VRING_DESC_F_NEXT VRING_DESC_F_WRITE) j ∧
  desc_at m (vr_desc r + 16 * j) (rq_status q) 1 VRING_DESC_F_WRITE 0 ∧
  load32 m (rq_hdr q) = (if rq_write q then VIRTIO_BLK_T_OUT else VIRTIO_BLK_T_IN) ∧ load64 m (rq_hdr q + 8) = rq_sector q.

(** Two regions that do not meet. *)
Definition away (a n b k : Z) : Prop := a + n <= b ∨ b + k <= a.
Definition req_away (r : vring) (q : breq) : Prop :=
  let all := vr_used r + 4 + 8 * vr_num r - vr_desc r in
  away (rq_buf q) 512 (vr_desc r) all ∧ away (rq_status q) 1 (vr_desc r) all ∧ away (rq_buf q) 512 (rq_status q) 1.

(** What the device does with the disk ([byte]) and the memory for a request. *)
Definition served (sectors : Z) (r : vring) (q : breq) (byte byte' : Z → Z) (m m' : mem) : Prop :=
  let at_disk x := rq_sector q * 512 <= x < rq_sector q * 512 + 512 in
  (if decide (rq_sector q < sectors) then
     m' (rq_status q) = 0 ∧
     if rq_write q then
       ∀ x, byte' x = if decide (at_disk x) then m (rq_buf q + (x - rq_sector q * 512)) else byte x
     else (∀ x, byte' x = byte x) ∧ ∀ i, 0 <= i < 512 → m' (rq_buf q + i) = byte (rq_sector q * 512 + i)
   else m' (rq_status q) ≠ 0 ∧ ∀ x, byte' x = byte x) ∧
  ∀ x, (rq_write q = true ∨ x < rq_buf q ∨ rq_buf q + 512 <= x) → x ≠ rq_status q →
    x < vr_used r ∨ vr_used r + 4 + 8 * vr_num r <= x → m' x = m x.

Class VirtioBlk (D : Type) := {
  vb_read32 : Z → D * mem → Z;
  vb_write32 : Z → Z → D * mem → D * mem;
  vb_step : D * mem → D * mem;
  vb_delay : nat;
  vb_byte : D → Z → Z;
  vb_sectors : D → Z;
  (** not running, with the values written to its registers since the reset *)
  vb_setup : D → (Z → Z) → Prop;
  (** running on a queue, with so many requests served *)
  vb_live : D → vring → Z → Prop;
  vb_reset d m : ∃ d', vb_write32 VIRTIO_MMIO_STATUS 0 (d, m) = (d', m) ∧ vb_setup d' (λ _, 0) ∧
    vb_sectors d' = vb_sectors d ∧ ∀ x, vb_byte d' x = vb_byte d x;
  vb_config d m regs off v : vb_setup d regs →
    off ∈ [VIRTIO_MMIO_GUEST_PAGE_SIZE; VIRTIO_MMIO_QUEUE_SEL; VIRTIO_MMIO_QUEUE_NUM; VIRTIO_MMIO_QUEUE_ALIGN; VIRTIO_MMIO_QUEUE_PFN] ∨
    off = VIRTIO_MMIO_STATUS ∧ v = Z.lor VIRTIO_STATUS_ACK VIRTIO_STATUS_DRV →
    ∃ d', vb_write32 off v (d, m) = (d', m) ∧ vb_setup d' (upd regs off v) ∧
    vb_sectors d' = vb_sectors d ∧ ∀ x, vb_byte d' x = vb_byte d x;
  vb_start d m regs : vb_setup d regs → regs VIRTIO_MMIO_STATUS = Z.lor VIRTIO_STATUS_ACK VIRTIO_STATUS_DRV →
    regs VIRTIO_MMIO_QUEUE_SEL = 0 → 0 < regs VIRTIO_MMIO_QUEUE_NUM <= vb_read32 VIRTIO_MMIO_QUEUE_NUM_MAX (d, m) → 0 < regs VIRTIO_MMIO_QUEUE_ALIGN →
    let r := vring_of (regs VIRTIO_MMIO_QUEUE_PFN) (regs VIRTIO_MMIO_GUEST_PAGE_SIZE) (regs VIRTIO_MMIO_QUEUE_NUM) (regs VIRTIO_MMIO_QUEUE_ALIGN) in
    load16 m (vr_avail r + 2) = 0 → load16 m (vr_used r + 2) = 0 →
    ∃ d', vb_write32 VIRTIO_MMIO_STATUS (Z.lor (Z.lor VIRTIO_STATUS_ACK VIRTIO_STATUS_DRV) VIRTIO_STATUS_DRV_OK) (d, m) = (d', m) ∧
    vb_live d' r 0 ∧ vb_sectors d' = vb_sectors d ∧ ∀ x, vb_byte d' x = vb_byte d x;
  vb_serves d m r k q : vb_live d r k →
    load16 m (vr_avail r + 2) = u16 (k + 1) → load16 m (vr_used r + 2) = u16 k →
    request_at m r (load16 m (vr_avail r + 4 + 2 * (k mod vr_num r))) q → req_away r q → 0 <= rq_sector q →
    let run i := Nat.iter i vb_step (vb_write32 VIRTIO_MMIO_QUEUE_NOTIFY 0 (d, m)) in
    ∃ n d' m', (n <= vb_delay)%nat ∧ (∀ i, (i < n)%nat → load16 (run i).2 (vr_used r + 2) = u16 k) ∧ run n = (d', m') ∧
      vb_live d' r (k + 1) ∧ load16 m' (vr_used r + 2) = u16 (k + 1) ∧ vb_sectors d' = vb_sectors d ∧
      served (vb_sectors d) r q (vb_byte d) (vb_byte d') m m'
}.

(** ** The driver *)

Section Driver.
Context {FA D : Type} `{!FrameAllocator FA} `{!VirtioBlk D}.
(** Where the registers of the device are. *)
Context (blk_mmio : Z).

Record vio := mk_vio {
  v_ram : mem;
  v_frames : FA;
  v_dev : D;
  virtio_blk_base : Z;
  virtq_desc_base : Z;
  virtq_avail_base : Z;
  virtq_used_base : Z;
  last_used_idx : Z;
  req_headers : Z;
  req_statuses : Z;
  blk_locked : bool;
}.
Implicit Types s : vio.
Definition set_v_machine (d : D) (m : mem) s := mk_vio m (v_frames s) d (virtio_blk_base s) (virtq_desc_base s) (virtq_avail_base s)
  (virtq_used_base s) (last_used_idx s) (req_headers s) (req_statuses s) (blk_locked s).
Definition set_v_ram m s := set_v_machine (v_dev s) m s.
Definition set_v_frames f s := mk_vio (v_ram s) f (v_dev s) (virtio_blk_base s) (virtq_desc_base s) (virtq_avail_base s)
  (virtq_used_base s) (last_used_idx s) (req_headers s) (req_statuses s) (blk_locked s).
Definition set_blk_base v s := mk_vio (v_ram s) (v_frames s) (v_dev s) v (virtq_desc_base s) (virtq_avail_base s)
  (virtq_used_base s) (last_used_idx s) (req_headers s) (req_statuses s) (blk_locked s).
Definition set_queue d a u s := mk_vio (v_ram s) (v_frames s) (v_dev s) (virtio_blk_base s) d a u
  (last_used_idx s) (req_headers s) (req_statuses s) (blk_locked s).
Definition set_reqs h t s := mk_vio (v_ram s) (v_frames s) (v_dev s) (virtio_blk_base s) (virtq_desc_base s) (virtq_avail_base s)
  (virtq_used_base s) (last_used_idx s) h t (blk_locked s).
Definition set_last_used v s := mk_vio (v_ram s) (v_frames s) (v_dev s) (virtio_blk_base s) (virtq_desc_base s) (virtq_avail_base s)
  (virtq_used_base s) v (req_headers s) (req_statuses s) (blk_locked s).
Definition set_blk_locked v s := mk_vio (v_ram s) (v_frames s) (v_dev s) (virtio_blk_base s) (virtq_desc_base s) (virtq_avail_base s)
  (virtq_used_base s) (last_used_idx s) (req_headers s) (req_statuses s) v.

(** Accesses through pointers, and to the registers. *)
Definition ld8 (p : Z) : M vio Z := gets (λ s, v_ram s (V2P p)).
Definition ld16 (p : Z) : M vio Z := gets (λ s, load16 (v_ram s) (V2P p)).
Definition st16 (p v : Z) : M vio unit := modify (λ s, set_v_ram (store16 (v_ram s) (V2P p) v) s).
Definition st32 (p v : Z) : M vio unit := modify (λ s, set_v_ram (store32 (v_ram s) (V2P p) v) s).
Definition st64 (p v : Z) : M vio unit := modify (λ s, set_v_ram (store64 (v_ram s) (V2P p) v) s).
Definition with_device (f : D * mem → D * mem) : M vio unit :=
  modify (λ s, let r := f (v_dev s, v_ram s) in set_v_machine r.1 r.2 s).
Definition mmio_write32 (a v : Z) : M vio unit := with_device (vb_write32 (a - blk_mmio) v).
Definition mmio_read32 (a : Z) : M vio Z := gets (λ s, vb_read32 (a - blk_mmio) (v_dev s, v_ram s)).
Definition v_alloc_frame : M vio Z := zoom v_frames set_v_frames fa_alloc.
Definition blk_acquire : M vio unit := spin_acquire blk_locked set_blk_locked.
Definition blk_release : M vio unit := modify (set_blk_locked false).

Definition virtio_blk_init (base : Z) : M vio unit :=
  modify (set_blk_base base);;;
  mmio_write32 (base + VIRTIO_MMIO_STATUS) 0;;;
  let status := Z.lor VIRTIO_STATUS_ACK VIRTIO_STATUS_DRV in
  mmio_write32 (base + VIRTIO_MMIO_STATUS) status;;;
  mmio_write32 (base + VIRTIO_MMIO_GUEST_PAGE_SIZE) 4096;;;
  mmio_write32 (base + VIRTIO_MMIO_QUEUE_SEL) 0;;;
  max_queue <- mmio_read32 (base + VIRTIO_MMIO_QUEUE_NUM_MAX);;
  if max_queue =? 0 then ret tt
  else
    mmio_write32 (base + VIRTIO_MMIO_QUEUE_NUM) QUEUE_SIZE;;;
    mmio_write32 (base + VIRTIO_MMIO_QUEUE_ALIGN) 16;;;
    page_phys <- v_alloc_frame;;
    let page_virt := P2V page_phys in
    modify (λ s, set_v_ram (zero_page (v_ram s) page_virt) s);;;
    mmio_write32 (base + VIRTIO_MMIO_QUEUE_PFN) (u32 (Z.shiftr page_phys 12));;;
    let avail := page_virt + QUEUE_SIZE * 16 in
    let avail_end := avail + (4 + 2 * QUEUE_SIZE) in
    let used_start := Z.land (avail_end + 15) (Z.lnot 15) in
    modify (set_queue page_virt avail used_start);;;
    req_page_phys <- v_alloc_frame;;
    let req_page_virt := P2V req_page_phys in
    modify (set_reqs req_page_virt (req_page_virt + 16 * QUEUE_SIZE));;;
    let status := Z.lor status VIRTIO_STATUS_DRV_OK in
    mmio_write32 (base + VIRTIO_MMIO_STATUS) status;;;
    modify (set_blk_locked false).

(** [virtq_desc_base[i] = {addr, len, flags, next}]. *)
Definition put_desc (i addr len flags next : Z) : M vio unit :=
  base <- gets virtq_desc_base;;
  let d := base + 16 * i in
  st64 d addr;;; st32 (d + 8) len;;; st16 (d + 12) flags;;; st16 (d + 14) next.

(** [while (last_used_idx == virtq_used_base->idx)]. *)
Fixpoint wait_used (n : nat) : M vio unit :=
  match n with
  | O => faultM
  | S n' =>
      used <- gets virtq_used_base;;
      idx <- ld16 (used + 2);;
      last <- gets last_used_idx;;
      if last =? idx then with_device vb_step;;; wait_used n' else ret tt
  end.

Definition virtio_blk_op (sector buffer : Z) (write : bool) : M vio Z :=
  base <- gets virtio_blk_base;;
  if base =? 0 then ret (-1)
  else
    blk_acquire;;;
    req <- gets req_headers;;
    st32 req (if write then VIRTIO_BLK_T_OUT else VIRTIO_BLK_T_IN);;;
    st32 (req + 4) 0;;;
    st64 (req + 8) sector;;;
    put_desc 0 (V2P req) 16 VRING_DESC_F_NEXT 1;;;
    put_desc 1 (V2P buffer) 512 (Z.lor VRING_DESC_F_NEXT (if write then 0 else VRING_DESC_F_WRITE)) 2;;;
    statuses <- gets req_statuses;;
    put_desc 2 (V2P statuses) 1 VRING_DESC_F_WRITE 0;;;
    avail <- gets virtq_avail_base;;
    avail_idx <- ld16 (avail + 2);;
    st16 (avail + 4 + 2 * (avail_idx mod QUEUE_SIZE)) 0;;;
    st16 (avail + 2) (u16 (avail_idx + 1));;;
    mmio_write32 (base + VIRTIO_MMIO_QUEUE_NOTIFY) 0;;;
    wait_used (S vb_delay);;;
    modify (λ s, set_last_used (u16 (last_used_idx s + 1)) s);;;
    blk_release;;;
    status <- ld8 statuses;;
    ret (if status =? 0 then 0 else -1).
Definition virtio_blk_read (sector buffer : Z) : M vio Z := virtio_blk_op sector buffer false.
Definition virtio_blk_write (sector buffer : Z) : M vio Z := virtio_blk_op sector buffer true.

(** *** Reads and writes of bytes

    [sector_buf] is the address of the local array; the caller's buffer is a
    function from its offsets to bytes. *)
Context (sector_buf : Z).
Definition copy_from_sector (buffer : mem) (to from n : Z) : M vio mem := λ s,
  Done ((λ x, if decide (to <= x < to + n) then v_ram s (V2P (sector_buf + from) + (x - to)) else buffer x) : mem, s).
Definition copy_to_sector (buffer : mem) (to from n : Z) : M vio unit := modify (λ s,
  set_v_ram (λ y, let p := V2P (sector_buf + to) in if decide (p <= y < p + n) then buffer (from + (y - p)) else v_ram s y) s).

(** The two adjustments of [chunk_size]. *)
Definition chunk_of (i start_sector offset size done : Z) : Z * Z :=
  let sector_offset := if i =? start_sector then offset mod VIRTIO_BLK_SECTOR_SIZE else 0 in
  let chunk_size := VIRTIO_BLK_SECTOR_SIZE - sector_offset in
  (sector_offset, if size <? done + chunk_size then size - done else chunk_size).
Fixpoint fs_read_loop (n : nat) (i start_sector offset size : Z) (buffer : mem) (read_len : Z) : M vio (Z * mem) :=
  match n with
  | O => ret (read_len, buffer)
  | S n' =>
      r <- virtio_blk_read i sector_buf;;
      if negb (r =? 0) then ret (read_len, buffer)
      else
        let c := chunk_of i start_sector offset size read_len in
        buffer <- copy_from_sector buffer read_len c.1 c.2;;
        fs_read_loop n' (i + 1) start_sector offset size buffer (read_len + c.2)
  end.
Definition virtio_blk_fs_read (offset size : Z) (buffer : mem) : M vio (Z * mem) :=
  if size =? 0 then ret (0, buffer)
  else
    let start_sector := offset / VIRTIO_BLK_SECTOR_SIZE in
    let end_sector := u64 (offset + size - 1) / VIRTIO_BLK_SECTOR_SIZE in
    fs_read_loop (Z.to_nat (end_sector - start_sector + 1)) start_sector start_sector offset size buffer 0.

Fixpoint fs_write_loop (n : nat) (i start_sector offset size : Z) (buffer : mem) (written_len : Z) : M vio Z :=
  match n with
  | O => ret written_len
  | S n' =>
      let c := chunk_of i start_sector offset size written_len in
      r <- (if c.2 <? VIRTIO_BLK_SECTOR_SIZE then virtio_blk_read i sector_buf else ret 0);;
      if negb (r =? 0) then ret written_len
      else
        copy_to_sector buffer c.1 written_len c.2;;;
        r <- virtio_blk_write i sector_buf;;
        if negb (r =? 0) then ret written_len
        else fs_write_loop n' (i + 1) start_sector offset size buffer (written_len + c.2)
  end.
Definition virtio_blk_fs_write (offset size : Z) (buffer : mem) : M vio Z :=
  if size =? 0 then ret 0
  else
    let start_sector := offset / VIRTIO_BLK_SECTOR_SIZE in
    let end_sector := u64 (offset + size - 1) / VIRTIO_BLK_SECTOR_SIZE in
    fs_write_loop (Z.to_nat (end_sector - start_sector + 1)) start_sector start_sector offset size buffer 0.
End Driver.

(** ** Descriptors in memory *)

Definition desc_mem (m : mem) (p addr len flags next : Z) : mem :=
  store16 (store16 (store32 (store64 m p addr) (p + 8) len) (p + 12) flags) (p + 14) next.
Lemma load_store_le_small m a n v : 0 <= v < 256 ^ Z.of_nat n → load_le (store_le m a n v) a n = v.
Proof. intros. rewrite load_store_le. by apply Z.mod_small. Qed.
Lemma desc_mem_at m p addr len flags next : 0 <= addr < 2 ^ 64 → 0 <= len < 2 ^ 32 → 0 <= flags < 2 ^ 16 → 0 <= next < 2 ^ 16 →
  desc_at (desc_mem m p addr len flags next) p addr len flags next.
Proof.
  intros. unfold desc_at, desc_mem, load64, load32, load16, store64, store32, store16.
  repeat split; rewrite ?(load_store_le_ne _ (p + 14)) by lia; rewrite ?(load_store_le_ne _ (p + 12)) by lia;
    rewrite ?(load_store_le_ne _ (p + 8)) by lia; apply load_store_le_small; done.
Qed.
Lemma desc_mem_out m p addr len flags next x : x < p ∨ p + 16 <= x → desc_mem m p addr len flags next x = m x.
Proof. intros. unfold desc_mem, store64, store32, store16. by rewrite !store_le_out by lia. Qed.
Lemma desc_at_ext m m' p addr len flags next : (∀ x, p <= x < p + 16 → m' x = m x) →
  desc_at m p addr len flags next → desc_at m' p addr len flags next.
Proof.
  intros H (H1 & H2 & H3 & H4). unfold desc_at, load64, load32, load16 in *.
  repeat split; [rewrite <- H1|rewrite <- H2|rewrite <- H3|rewrite <- H4]; apply load_le_ext; intros; apply H; lia.
Qed.
Lemma V2P_off q c : 0 <= q < 2 ^ 39 → 0 <= c → V2P (P2V q + c) = q + c.
Proof.
  intros Hq Hc. rewrite V2P_kernel_add; [by rewrite V2P_P2V|unfold P2V, PHYS_OFFSET; rewrite u64_id by lia; lia|done].
Qed.

(** The queue as the driver lays it out in the frame [q]. *)
Definition ring_at (q : Z) : vring := mk_vring q (q + 256) (q + 304) 16.
Lemma vring_of_frame q : q mod 4096 = 0 → vring_of (q / 4096) 4096 16 16 = ring_at q.
Proof.
  intros Hq. unfold vring_of, ring_at, align_up. replace (q / 4096 * 4096) with q by (pose proof (Z.div_mod q 4096); lia).
  assert ((q + 16 * 16 + 2 * (3 + 16) + 16 - 1) / 16 * 16 = q + 304) as ->; [|done].
  replace (q + 16 * 16 + 2 * (3 + 16) + 16 - 1) with (q + 309) by lia. assert (q mod 16 = 0) by zlia. zlia.
Qed.

Section DriverProofs.
Context {FA D : Type} `{!FrameAllocator FA} `{!VirtioBlk D} (blk_mmio : Z).
Implicit Types s : @vio FA D.

(** The driver after its set-up, with [k] requests served: [q] is the frame of
    the queue, [h] that of the request headers. *)
Record blk_inv s (k q h : Z) : Prop := {
  bo_base : virtio_blk_base s = blk_mmio ∧ blk_mmio ≠ 0;
  bo_frames : aligned q ∧ aligned h ∧ q ≠ h;
  bo_ptrs : virtq_desc_base s = P2V q ∧ virtq_avail_base s = P2V q + 256 ∧ virtq_used_base s = P2V q + 304;
  bo_reqs : req_headers s = P2V h ∧ req_statuses s = P2V h + 256;
  bo_live : vb_live (v_dev s) (ring_at q) k;
  bo_k : 0 <= k;
  bo_avail : load16 (v_ram s) (q + 258) = u16 k;
  bo_used : load16 (v_ram s) (q + 306) = u16 k ∧ last_used_idx s = u16 k
}.
Definition blk_ok s (k q h : Z) : Prop := blk_locked s = false ∧ blk_inv s k q h.

Lemma put_desc_run s q i addr len flags next : virtq_desc_base s = P2V q → 0 <= q < 2 ^ 39 → 0 <= i →
  put_desc i addr len flags next s = Done (tt, set_v_ram (desc_mem (v_ram s) (q + 16 * i) addr len flags next) s).
Proof.
  intros Hb Hq Hi. unfold put_desc, bind, gets, st64, st32, st16, modify. rewrite Hb. rewrite <- !Z.add_assoc, !V2P_off by lia.
  unfold desc_mem. by rewrite <- !Z.add_assoc.
Qed.

(** The memory a request leaves for the device. *)
Definition req_mem (m : mem) (q h sector buf k : Z) (write : bool) : mem :=
  let m := store32 m h (if write then VIRTIO_BLK_T_OUT else VIRTIO_BLK_T_IN) in
  let m := store64 (store32 m (h + 4) 0) (h + 8) sector in
  let m := desc_mem m q h 16 VRING_DESC_F_NEXT 1 in
  let m := desc_mem m (q + 16) buf 512 (Z.lor VRING_DESC_F_NEXT (if write then 0 else VRING_DESC_F_WRITE)) 2 in
  let m := desc_mem m (q + 32) (h + 256) 1 VRING_DESC_F_WRITE 0 in
  store16 (store16 m (q + 260 + 2 * (k mod 16)) 0) (q + 258) (u16 (k + 1)).
Lemma req_mem_out m q h sector buf k write x : (x < q ∨ q + 292 <= x) → (x < h ∨ h + 16 <= x) →
  req_mem m q h sector buf k write x = m x.
Proof.
  intros Hq Hh. pose proof (Z.mod_pos_bound k 16 ltac:(lia)). unfold req_mem, store16 at 1 2. rewrite !store_le_out by lia.
  rewrite !desc_mem_out by lia. unfold store64, store32. by rewrite !store_le_out by lia.
Qed.
Lemma away_frames q h : aligned q → aligned h → q ≠ h → away q 4096 h 4096.
Proof. intros [Hq ?] [Hh ?] Hne. unfold away. zlia. Qed.
Lemma req_mem_ok m q h sector buf k write : aligned q → aligned h → q ≠ h → 0 <= sector < 2 ^ 64 → 0 <= buf < 2 ^ 64 →
  let m' := req_mem m q h sector buf k write in
  request_at m' (ring_at q) 0 (mk_breq write sector h buf (h + 256)) ∧ load16 m' (q + 258) = u16 (k + 1) ∧
  load16 m' (q + 260 + 2 * (k mod 16)) = 0 ∧ load16 m' (q + 306) = load16 m (q + 306).
Proof.
  intros Hq Hh Hne Hs Hb. pose proof (away_frames q h Hq Hh Hne) as Haw. unfold away in Haw.
  pose proof (Z.mod_pos_bound k 16 ltac:(lia)) as Hk. destruct Hq as [_ Hq], Hh as [_ Hh]. intros m'.
  split_and!.
  - exists 1, 2. unfold ring_at. cbn [vr_desc rq_hdr rq_buf rq_status rq_write rq_sector]. split_and!.
    + apply (desc_at_ext (desc_mem (store64 (store32 (store32 m h (if write then VIRTIO_BLK_T_OUT else VIRTIO_BLK_T_IN)) (h + 4) 0) (h + 8) sector) q h 16 VRING_DESC_F_NEXT 1)).
      * intros x Hx. unfold m', req_mem, store16 at 1 2. rewrite !store_le_out by lia. by rewrite !desc_mem_out by lia.
      * rewrite Z.mul_0_r, Z.add_0_r. apply desc_mem_at; unfold VRING_DESC_F_NEXT; lia.
    + set (F := Z.lor VRING_DESC_F_NEXT (if write then 0 else VRING_DESC_F_WRITE)).
      assert ((if write then VRING_DESC_F_NEXT else Z.lor VRING_DESC_F_NEXT VRING_DESC_F_WRITE) = F) as -> by (by destruct write).
      assert (0 <= F < 2 ^ 16) by (subst F; destruct write; split; by vm_compute). replace (q + 16 * 1) with (q + 16) by lia.
      eapply desc_at_ext; [|apply (desc_mem_at (desc_mem (store64 (store32 (store32 m h (if write then VIRTIO_BLK_T_OUT else VIRTIO_BLK_T_IN)) (h + 4) 0) (h + 8) sector) q h 16 VRING_DESC_F_NEXT 1)); lia].
      intros x Hx. unfold m', req_mem, store16 at 1 2. rewrite !store_le_out by lia. by rewrite desc_mem_out by lia.
    + replace (q + 16 * 2) with (q + 32) by lia. eapply desc_at_ext; [|apply desc_mem_at; unfold VRING_DESC_F_WRITE; lia].
      intros x Hx. unfold m', req_mem, store16 at 1 2. rewrite !store_le_out by lia. reflexivity.
    + unfold m', req_mem, load32. rewrite (load_le_ext _ (store32 m h (if write then VIRTIO_BLK_T_OUT else VIRTIO_BLK_T_IN))).
      * unfold store32. apply load_store_le_small. destruct write; cbv; done.
      * intros x Hx. unfold store16 at 1 2. rewrite !store_le_out by lia. rewrite !desc_mem_out by lia. unfold store64, store32. by rewrite !store_le_out by lia.
    + unfold m', req_mem, load64. rewrite (load_le_ext _ (store64 (store32 (store32 m h (if write then VIRTIO_BLK_T_OUT else VIRTIO_BLK_T_IN)) (h + 4) 0) (h + 8) sector)).
      * unfold store64. by apply load_store_le_small.
      * intros x Hx. unfold store16 at 1 2. rewrite !store_le_out by lia. by rewrite !desc_mem_out by lia.
  - unfold m', req_mem, load16, store16 at 1. apply load_store_le_small. apply u16_range.
  - unfold m', req_mem, load16, store16 at 1. rewrite load_store_le_ne by lia. unfold store16. by apply load_store_le_small.
  - apply load_le_ext. intros x Hx. apply req_mem_out; lia.
Qed.

Lemma wait_used_run n : ∀ fuel s last, (n < fuel)%nat → last_used_idx s = last →
  (∀ i, (i < n)%nat → load16 (Nat.iter i vb_step (v_dev s, v_ram s)).2 (V2P (virtq_used_base s + 2)) = last) →
  load16 (Nat.iter n vb_step (v_dev s, v_ram s)).2 (V2P (virtq_used_base s + 2)) ≠ last →
  wait_used fuel s = Done (tt, let r := Nat.iter n vb_step (v_dev s, v_ram s) in set_v_machine r.1 r.2 s).
Proof.
  induction n as [|n IH]; intros fuel s last Hf Hl Hw Hn; (destruct fuel as [|fuel]; [lia|]); cbn [wait_used]; unfold bind, gets, ld16, gets; rewrite Hl.
  - rewrite (proj2 (Z.eqb_neq _ _)) by (intros E; by apply Hn). cbn. unfold ret. do 2 f_equal. by destruct s.
  - rewrite (proj2 (Z.eqb_eq _ _)) by (symmetry; exact (Hw 0%nat ltac:(lia))). unfold with_device, modify.
    rewrite (IH fuel _ last); [|lia|done|..].
    + cbn [v_dev v_ram set_v_machine]. rewrite <- surjective_pairing, <- Nat.iter_succ_r. done.
    + intros i Hi. cbn [v_dev v_ram set_v_machine virtq_used_base]. rewrite <- surjective_pairing, <- Nat.iter_succ_r. apply Hw. lia.
    + cbn [v_dev v_ram set_v_machine virtq_used_base]. rewrite <- surjective_pairing, <- Nat.iter_succ_r. done.
Qed.

(** What a request does, seen by the driver. *)
Definition disk s (x : Z) : Z := vb_byte (v_dev s) x.
Definition capacity s : Z := vb_sectors (v_dev s).
Definition in_sector (sector x : Z) : Prop := sector * 512 <= x < sector * 512 + 512.
#[global] Instance in_sector_dec sector x : Decision (in_sector sector x).
Proof. unfold in_sector. apply _. Defined.
Record op_done (write : bool) (sector buffer q h : Z) (r : Z) s s' : Prop := {
  od_cap : capacity s' = capacity s;
  od_result : r = if decide (sector < capacity s) then 0 else -1;
  od_disk : ∀ x, disk s' x = if decide (write = true ∧ sector < capacity s ∧ in_sector sector x)
    then v_ram s (V2P buffer + (x - sector * 512)) else disk s x;
  od_read : write = false → sector < capacity s → ∀ i, 0 <= i < 512 → v_ram s' (V2P buffer + i) = disk s (sector * 512 + i);
  od_keeps : ∀ x, away x 1 q 4096 → away x 1 h 4096 → (write = true ∨ away x 1 (V2P buffer) 512) → v_ram s' x = v_ram s x
}.

(** The stores of a request, up to the notification. *)
Lemma ring_index k : u16 k mod 16 = k mod 16.
Proof. unfold u16. zlia. Qed.
Lemma set_v_ram_twice m m' s : set_v_ram m' (set_v_ram m s) = set_v_ram m' s.
Proof. done. Qed.
Lemma op_stores {A} s k q h sector buffer (write : bool) (rest : Z → M (@vio FA D) A) : blk_inv s k q h →
  (req <- gets req_headers;;
   st32 req (if write then VIRTIO_BLK_T_OUT else VIRTIO_BLK_T_IN);;;
   st32 (req + 4) 0;;;
   st64 (req + 8) sector;;;
   put_desc 0 (V2P req) 16 VRING_DESC_F_NEXT 1;;;
   put_desc 1 (V2P buffer) 512 (Z.lor VRING_DESC_F_NEXT (if write then 0 else VRING_DESC_F_WRITE)) 2;;;
   statuses <- gets req_statuses;;
   put_desc 2 (V2P statuses) 1 VRING_DESC_F_WRITE 0;;;
   avail <- gets virtq_avail_base;;
   avail_idx <- ld16 (avail + 2);;
   st16 (avail + 4 + 2 * (avail_idx mod QUEUE_SIZE)) 0;;;
   st16 (avail + 2) (u16 (avail_idx + 1));;;
   rest statuses) s = rest (P2V h + 256) (set_v_ram (req_mem (v_ram s) q h sector (V2P buffer) k write) s).
Proof.
  intros [_ (Hq & Hh & Hne) (Hd & Hav & _) [Hr Hst] _ _ Hai _]. pose proof (away_frames q h Hq Hh Hne) as Haw. unfold away in Haw.
  destruct Hq as [_ Hq], Hh as [_ Hh]. unfold st32 at 1 2, st64 at 1.
  unfold bind at 1, gets at 1. cbv beta iota. rewrite Hr. do 3 (unfold bind at 1, modify at 1; cbv beta iota). rewrite !set_v_ram_twice.
  rewrite !V2P_off by lia. cbn [v_ram set_v_ram set_v_machine]. rewrite !V2P_P2V by lia.
  mstep (put_desc_run (set_v_ram (store64 (store32 (store32 (v_ram s) h (if write then VIRTIO_BLK_T_OUT else VIRTIO_BLK_T_IN)) (h + 4) 0) (h + 8) sector) s)
    q 0 h 16 VRING_DESC_F_NEXT 1 Hd ltac:(lia) ltac:(lia)). rewrite set_v_ram_twice.
  match goal with |- context [set_v_ram ?m s] => set (m1 := m) end.
  mstep (put_desc_run (set_v_ram m1 s) q 1 (V2P buffer) 512 (Z.lor VRING_DESC_F_NEXT (if write then 0 else VRING_DESC_F_WRITE)) 2 Hd ltac:(lia) ltac:(lia)).
  rewrite set_v_ram_twice. match goal with |- context [set_v_ram ?m s] => set (m2 := m) end.
  unfold bind at 1, gets at 1. cbv beta iota. cbn [req_statuses set_v_ram set_v_machine]. rewrite Hst, V2P_off by lia.
  mstep (put_desc_run (set_v_ram m2 s) q 2 (h + 256) 1 VRING_DESC_F_WRITE 0 Hd ltac:(lia) ltac:(lia)).
  rewrite set_v_ram_twice. match goal with |- context [set_v_ram ?m s] => set (m3 := m) end.
  unfold bind at 1, gets at 1. cbv beta iota. cbn [virtq_avail_base set_v_ram set_v_machine]. rewrite Hav.
  unfold ld16, bind at 1, gets at 1. cbv beta iota. cbn [v_ram set_v_ram set_v_machine]. rewrite <- !Z.add_assoc, !V2P_off by lia.
  change (256 + 2) with 258. assert (load16 m3 (q + 258) = u16 k) as ->.
  { rewrite <- Hai. apply load_le_ext. intros x Hx. subst m3 m2 m1. cbn [v_ram set_v_ram set_v_machine]. rewrite !desc_mem_out by lia.
    unfold store64, store32. by rewrite !store_le_out by lia. }
  unfold st16, QUEUE_SIZE. rewrite ring_index. pose proof (Z.mod_pos_bound k 16 ltac:(lia)).
  do 2 (unfold bind at 1, modify at 1; cbv beta iota). rewrite !set_v_ram_twice. cbn [v_ram set_v_ram set_v_machine]. rewrite !V2P_off by lia.
  match goal with |- _ = rest _ (set_v_ram ?b s) => assert (b = store16 (store16 m3 (q + 260 + 2 * (k mod 16)) 0) (q + 258) (u16 (k + 1))) as -> end.
  { unfold req_mem, m3, m2, m1. cbn [v_ram set_v_ram set_v_machine]. by rewrite Z.mul_0_r, Z.add_0_r, Z.mul_1_r. }
  change (256 + 2) with 258. replace (q + (256 + (4 + 2 * (k mod 16)))) with (q + 260 + 2 * (k mod 16)) by lia.
  replace (u16 (u16 k + 1)) with (u16 (k + 1)); [reflexivity|]. unfold u16. by rewrite Z.add_mod_idemp_l by lia.
Qed.
Definition buffer_ok (buffer q h : Z) : Prop :=
  PHYS_OFFSET <= buffer < 2 ^ 64 ∧ away (V2P buffer) 512 q 4096 ∧ away (V2P buffer) 512 h 4096.
Lemma u16_next k : u16 (k + 1) ≠ u16 k.
Proof. unfold u16. zlia. Qed.

Lemma virtio_blk_op_run s k q h sector buffer write : blk_ok s k q h → buffer_ok buffer q h → 0 <= sector < 2 ^ 64 →
  ∃ r s', virtio_blk_op blk_mmio sector buffer write s = Done (r, s') ∧ blk_ok s' (k + 1) q h ∧ op_done write sector buffer q h r s s'.
Proof.
  intros [Hfree Hinv] (Hbuf & Hbq & Hbh) Hsec. pose proof Hinv as [[Hbase Hnz] (Hq & Hh & Hne) (Hd & Hav & Hus) [Hr Hst] Hlive Hk Hai [Hui Hlast]].
  pose proof (away_frames q h Hq Hh Hne) as Haw. pose proof Hq as [_ Hq2]. pose proof Hh as [_ Hh2].
  assert (0 <= V2P buffer < 2 ^ 64) as Hvb by (unfold V2P, PHYS_OFFSET in *; case_match; lia).
  unfold virtio_blk_op. unfold bind at 1, gets at 1. cbv beta iota. rewrite Hbase, (proj2 (Z.eqb_neq _ _)) by done.
  unfold blk_acquire, spin_acquire, bind at 1. rewrite Hfree. set (s1 := set_blk_locked true s).
  assert (blk_inv s1 k q h) as Hinv1 by (destruct Hinv; by split).
  rewrite (op_stores s1 k q h sector buffer write
    (λ statuses, mmio_write32 blk_mmio (blk_mmio + VIRTIO_MMIO_QUEUE_NOTIFY) 0;;; wait_used (S vb_delay);;;
       modify (λ s0, set_last_used (u16 (last_used_idx s0 + 1)) s0);;; blk_release;;;
       status <- ld8 statuses;; ret (if status =? 0 then 0 else -1)) Hinv1). change (v_ram s1) with (v_ram s).
  set (m1 := req_mem (v_ram s) q h sector (V2P buffer) k write).
  destruct (req_mem_ok (v_ram s) q h sector (V2P buffer) k write Hq Hh Hne Hsec Hvb) as (Hreq & Ha1 & Hring & Hu1). fold m1 in Hreq, Ha1, Hring, Hu1.
  set (rq := mk_breq write sector h (V2P buffer) (h + 256)) in *.
  destruct (vb_serves (v_dev s) m1 (ring_at q) k rq Hlive) as (n & d' & m' & Hn & Hwait & Hrun & Hlive' & Hu' & Hcap & Hserved).
  { cbn [vr_avail ring_at]. by rewrite <- Z.add_assoc. }
  { cbn [vr_used ring_at]. rewrite <- Z.add_assoc. change (304 + 2) with 306. by rewrite Hu1. }
  { cbn [vr_avail vr_num ring_at]. rewrite <- (Z.add_assoc q 256 4). change (256 + 4) with 260. by rewrite Hring. }
  { unfold req_away, away in *. cbn [rq_buf rq_status vr_desc vr_used vr_num ring_at rq]. lia. }
  { cbn. lia. }
  cbn [vr_used ring_at] in Hwait, Hu'. rewrite <- Z.add_assoc in Hu'. change (304 + 2) with 306 in Hu'.
  set (s2 := let r := vb_write32 VIRTIO_MMIO_QUEUE_NOTIFY 0 (v_dev s, m1) in set_v_machine r.1 r.2 s1).
  assert (mmio_write32 blk_mmio (blk_mmio + VIRTIO_MMIO_QUEUE_NOTIFY) 0 (set_v_ram m1 s1) = Done (tt, s2)) as Hmmio.
  { unfold mmio_write32, with_device, modify. by replace (blk_mmio + VIRTIO_MMIO_QUEUE_NOTIFY - blk_mmio) with VIRTIO_MMIO_QUEUE_NOTIFY by lia. }
  assert (Nat.iter n vb_step (v_dev s2, v_ram s2) = (d', m')) as Hrun2.
  { rewrite <- Hrun. cbn [v_dev v_ram s2 set_v_machine]. by rewrite <- surjective_pairing. }
  assert (wait_used (S vb_delay) s2 = Done (tt, set_v_machine d' m' s1)) as Hw.
  { rewrite (wait_used_run n (S vb_delay) s2 (u16 k) ltac:(lia) Hlast).
    - rewrite Hrun2. reflexivity.
    - intros i Hi. cbn [virtq_used_base s2 set_v_machine s1 set_blk_locked]. rewrite Hus, <- Z.add_assoc, V2P_off by lia.
      rewrite <- (Hwait i Hi), <- Z.add_assoc. do 2 f_equal. cbn [v_dev v_ram s2 set_v_machine]. by rewrite <- surjective_pairing.
    - rewrite Hrun2. cbn [virtq_used_base s2 set_v_machine s1 set_blk_locked snd]. rewrite Hus, <- Z.add_assoc, V2P_off by lia.
      change (304 + 2) with 306. rewrite Hu'. apply u16_next. }
  mstep Hmmio. mstep Hw. unfold blk_release, ld8, bind, modify, gets, ret. cbn [v_ram set_blk_locked set_last_used set_v_machine].
  rewrite V2P_off by lia. destruct Hserved as [Hserved Hkeep]. cbn [rq_write rq_sector rq_buf rq_status rq vr_used vr_num ring_at] in Hserved, Hkeep.
  unfold away in *. eexists _, _. split; [reflexivity|]. split; [split; [done|split]|split].
  - done.
  - done.
  - done.
  - done.
  - exact Hlive'.
  - lia.
  - cbn [v_ram set_blk_locked set_last_used set_v_machine]. rewrite <- Ha1. apply load_le_ext. intros x Hx. apply Hkeep; lia.
  - split; [exact Hu'|]. cbn [last_used_idx set_blk_locked set_last_used set_v_machine s1]. rewrite Hlast. unfold u16. by rewrite Z.add_mod_idemp_l by lia.
  - exact Hcap.
  - cbn [v_ram set_blk_locked set_last_used set_v_machine]. unfold capacity. destruct (decide (sector < vb_sectors (v_dev s))).
    + destruct Hserved as [-> _]. done.
    + destruct Hserved as [Hst0 _]. by rewrite (proj2 (Z.eqb_neq _ 0)).
  - intros x. unfold disk, capacity. cbn [v_dev set_blk_locked set_last_used set_v_machine]. unfold in_sector.
    destruct (decide (sector < vb_sectors (v_dev s))) as [Hin|Hin].
    + destruct Hserved as [_ Hserved]. destruct write.
      * rewrite Hserved. destruct (decide _) as [Hx|Hx]; [rewrite decide_True by done|by rewrite decide_False by tauto].
        apply req_mem_out; lia.
      * rewrite decide_False by (by intros (? & _)). apply Hserved.
    + rewrite decide_False by tauto. apply Hserved.
  - intros -> Hin i Hi. cbn [v_ram set_blk_locked set_last_used set_v_machine]. unfold capacity in Hin. rewrite decide_True in Hserved by done.
    by apply Hserved.
  - intros x Hxq Hxh Hxb. unfold away in *. cbn [v_ram set_blk_locked set_last_used set_v_machine]. rewrite Hkeep; [apply req_mem_out; lia| |lia|lia].
    destruct Hxb as [->|Hxb]; [by left|right; lia].
Qed.

(** ** Any length at any offset *)

Context (sector_buf : Z).
Definition driver_ok s : Prop := ∃ k q h, blk_ok s k q h ∧ buffer_ok sector_buf q h.
(** The bytes done when the loop is at sector [i]. *)
Definition done_at (offset size i : Z) : Z := Z.min size (Z.max 0 (i * 512 - offset)).
Lemma chunk_of_spec i offset size : 0 <= offset → 0 < size → offset / 512 <= i <= (offset + size - 1) / 512 →
  let c := chunk_of i (offset / 512) offset size (done_at offset size i) in
  c.1 = offset + done_at offset size i - i * 512 ∧ 0 <= c.1 ∧ 0 < c.2 ∧ c.1 + c.2 <= 512 ∧
  done_at offset size i + c.2 = done_at offset size (i + 1).
Proof.
  intros Ho Hs Hi. unfold chunk_of, VIRTIO_BLK_SECTOR_SIZE, done_at. cbn [fst snd].
  pose proof (Z.div_mod offset 512 ltac:(lia)) as H1. pose proof (Z.mod_pos_bound offset 512 ltac:(lia)) as H2.
  pose proof (Z.div_mod (offset + size - 1) 512 ltac:(lia)) as H3. pose proof (Z.mod_pos_bound (offset + size - 1) 512 ltac:(lia)) as H4.
  destruct (Z.eqb_spec i (offset / 512)); case_match; rewrite ?Z.ltb_lt, ?Z.ltb_ge in *; lia.
Qed.
Lemma done_at_end offset size : 0 <= offset → 0 < size →
  done_at offset size (offset / 512) = 0 ∧ done_at offset size ((offset + size - 1) / 512 + 1) = size.
Proof.
  intros Ho Hs. unfold done_at.
  pose proof (Z.div_mod offset 512 ltac:(lia)) as H1. pose proof (Z.mod_pos_bound offset 512 ltac:(lia)) as H2.
  pose proof (Z.div_mod (offset + size - 1) 512 ltac:(lia)) as H3. pose proof (Z.mod_pos_bound (offset + size - 1) 512 ltac:(lia)) as H4. lia.
Qed.

(** One sector, when it is on the disk. *)
Lemma sector_op s i write : driver_ok s → 0 <= i < capacity s → capacity s * 512 < 2 ^ 64 →
  ∃ s', virtio_blk_op blk_mmio i sector_buf write s = Done (0, s') ∧ driver_ok s' ∧ capacity s' = capacity s ∧
    (∀ x, disk s' x = if decide (write = true ∧ in_sector i x) then v_ram s (V2P sector_buf + (x - i * 512)) else disk s x) ∧
    (write = false → ∀ j, 0 <= j < 512 → v_ram s' (V2P sector_buf + j) = disk s (i * 512 + j)).
Proof.
  intros (k & q & h & Hok & Hb) Hi Hcap. destruct (virtio_blk_op_run s k q h i sector_buf write Hok Hb ltac:(lia)) as (r & s' & Hrun & Hok' & Hd).
  destruct Hd as [Hcap' Hr Hdisk Hread _]. rewrite decide_True in Hr by lia. subst r. exists s'. split_and!; try done.
  - by exists (k + 1), q, h.
  - intros x. rewrite Hdisk. destruct (decide (write = true ∧ in_sector i x)) as [[Hw Hx]|Hx].
    { rewrite decide_True; [done|]. split_and!; done || lia. }
    rewrite decide_False; [done|]. intros (? & _ & ?). by apply Hx.
  - intros Hw j Hj. apply Hread; lia || done.
Qed.
Lemma fs_read_loop_run offset size : 0 <= offset → 0 < size → ∀ n i s buffer, driver_ok s → capacity s * 512 < 2 ^ 64 → offset + size <= capacity s * 512 →
  offset / 512 <= i → i + Z.of_nat n = (offset + size - 1) / 512 + 1 →
  ∃ s' buf', fs_read_loop blk_mmio sector_buf n i (offset / 512) offset size buffer (done_at offset size i) s = Done (size, buf', s') ∧
    driver_ok s' ∧ capacity s' = capacity s ∧ (∀ x, disk s' x = disk s x) ∧
    ∀ x, buf' x = if decide (done_at offset size i <= x < size) then disk s (offset + x) else buffer x.
Proof.
  intros Ho Hs. induction n as [|n IH]; intros i s buffer Hok Hcap Hin Hi Hn; cbn [fs_read_loop].
  { replace i with ((offset + size - 1) / 512 + 1) by lia. rewrite (proj2 (done_at_end offset size Ho Hs)).
    exists s, buffer. split_and!; try done. intros x. by rewrite decide_False by lia. }
  assert (i < capacity s) as Hic.
  { apply Z.le_lt_trans with ((offset + size - 1) / 512); [lia|]. apply Z.div_lt_upper_bound; lia. }
  assert (0 <= i) as Hi0 by (pose proof (Z.div_pos offset 512); lia).
  destruct (sector_op s i false Hok ltac:(lia) Hcap) as (s1 & Hrun & Hok1 & Hcap1 & Hd1 & Hr1). unfold virtio_blk_read. mstep Hrun.
  change (negb (0 =? 0)) with false. cbv iota. destruct (chunk_of_spec i offset size Ho Hs ltac:(lia)) as (Hc1 & Hc0 & Hc2 & Hc3 & Hnext).
  set (c := chunk_of i (offset / 512) offset size (done_at offset size i)) in *. unfold copy_from_sector, bind at 1.
  assert (∀ x, disk s1 x = disk s x) as Hsame. { intros x. rewrite Hd1. apply decide_False. by intros [? _]. }
  rewrite Hnext. destruct (IH (i + 1) s1 (λ x, if decide (done_at offset size i <= x < done_at offset size (i + 1))
    then v_ram s1 (V2P (sector_buf + c.1) + (x - done_at offset size i)) else buffer x)) as (s2 & buf2 & Hrun2 & Hok2 & Hcap2 & Hd2 & Hb2).
  { done. } { by rewrite Hcap1. } { by rewrite Hcap1. } { lia. } { lia. }
  exists s2, buf2. split; [exact Hrun2|]. split_and!; [done|congruence|intros; by rewrite Hd2|]. intros x. rewrite Hb2.
  assert (done_at offset size (i + 1) <= size) by (unfold done_at; lia).
  destruct (decide (done_at offset size (i + 1) <= x < size)); [rewrite decide_True by lia; apply Hsame|].
  destruct (decide (done_at offset size i <= x < done_at offset size (i + 1))); [|by rewrite decide_False by lia]. rewrite decide_True by lia.
  destruct Hok as (k & q & h & _ & Hb & _). rewrite V2P_kernel_add by lia. rewrite <- Z.add_assoc, Hr1 by (done || lia). f_equal. lia.
Qed.

(** The block driver reads what is on the disk, at any offset and length:
    [virtio_blk_fs_read] inside the disk returns the length, the buffer then
    holds the bytes of the disk from the offset on, and disk and driver are as
    before. *)
Lemma virtio_read_bytes s offset size buffer :
  driver_ok s → capacity s * 512 < 2 ^ 64 → 0 <= offset → 0 < size → offset + size <= capacity s * 512 →
  ∃ s' buf', virtio_blk_fs_read blk_mmio sector_buf offset size buffer s = Done (size, buf', s') ∧
    driver_ok s' ∧ capacity s' = capacity s ∧ (∀ x, disk s' x = disk s x) ∧
    ∀ x, buf' x = if decide (0 <= x < size) then disk s (offset + x) else buffer x.
Proof.
  intros Hok Hcap Ho Hs Hin. unfold virtio_blk_fs_read, VIRTIO_BLK_SECTOR_SIZE. rewrite (proj2 (Z.eqb_neq size 0)) by lia. rewrite u64_id by lia.
  assert (offset / 512 <= (offset + size - 1) / 512) by (apply Z.div_le_mono; lia).
  destruct (fs_read_loop_run offset size Ho Hs (Z.to_nat ((offset + size - 1) / 512 - offset / 512 + 1)) (offset / 512) s buffer Hok Hcap Hin
    ltac:(lia) ltac:(lia)) as (s' & buf' & Hrun & ? & ? & ? & Hbuf).
  rewrite (proj1 (done_at_end offset size Ho Hs)) in Hrun, Hbuf. by exists s', buf'.
Qed.

(** Filling the local array. *)
Lemma copy_to_sector_run s buffer to from n : driver_ok s → 0 <= to → to + n <= 512 →
  ∃ s', copy_to_sector sector_buf buffer to from n s = Done (tt, s') ∧ driver_ok s' ∧ v_dev s' = v_dev s ∧
    ∀ j, v_ram s' (V2P sector_buf + j) = if decide (to <= j < to + n) then buffer (from + (j - to)) else v_ram s (V2P sector_buf + j).
Proof.
  intros (k & q & h & [Hfree Hinv] & Hb) Hto Hn. pose proof Hb as ([Hsb _] & Hbq & _). eexists. split; [reflexivity|].
  cbn [v_ram set_v_ram set_v_machine]. rewrite V2P_kernel_add by lia. split_and!; [|done|].
  - exists k, q, h. split; [|done]. split; [done|]. destruct Hinv as [? ? ? ? ? ? Ha Hu].
    assert (∀ p, q <= p → p + 2 <= q + 4096 → load16 (v_ram s) p = load16 (λ y, if decide (V2P sector_buf + to <= y < V2P sector_buf + to + n)
      then buffer (from + (y - (V2P sector_buf + to))) else v_ram s y) p) as Hp.
    { intros p Hp1 Hp2. apply load_le_ext. intros x Hx. unfold away in Hbq. by rewrite decide_False by lia. }
    split; try done; cbn [v_ram set_v_ram set_v_machine].
    + rewrite <- Ha. symmetry. apply Hp; lia.
    + split; [|by apply Hu]. rewrite <- (proj1 Hu). symmetry. apply Hp; lia.
  - intros j. destruct (decide (to <= j < to + n)); [rewrite decide_True by lia; f_equal; lia|by rewrite decide_False by lia].
Qed.
Lemma fs_write_loop_run offset size buffer : 0 <= offset → 0 < size → ∀ n i s, driver_ok s → capacity s * 512 < 2 ^ 64 → offset + size <= capacity s * 512 →
  offset / 512 <= i → i + Z.of_nat n = (offset + size - 1) / 512 + 1 →
  ∃ s', fs_write_loop blk_mmio sector_buf n i (offset / 512) offset size buffer (done_at offset size i) s = Done (size, s') ∧
    driver_ok s' ∧ capacity s' = capacity s ∧
    ∀ x, disk s' x = if decide (offset + done_at offset size i <= x < offset + size) then buffer (x - offset) else disk s x.
Proof.
  intros Ho Hs. induction n as [|n IH]; intros i s Hok Hcap Hin Hi Hn; cbn [fs_write_loop].
  { replace i with ((offset + size - 1) / 512 + 1) by lia. rewrite (proj2 (done_at_end offset size Ho Hs)).
    exists s. split_and!; try done. intros x. by rewrite decide_False by lia. }
  assert (i < capacity s) as Hic.
  { apply Z.le_lt_trans with ((offset + size - 1) / 512); [lia|]. apply Z.div_lt_upper_bound; lia. }
  assert (0 <= i) as Hi0 by (pose proof (Z.div_pos offset 512); lia).
  destruct (chunk_of_spec i offset size Ho Hs ltac:(lia)) as (Hc1 & Hc0 & Hc2 & Hc3 & Hnext).
  set (c := chunk_of i (offset / 512) offset size (done_at offset size i)) in *.
  assert (∃ s1, (if c.2 <? VIRTIO_BLK_SECTOR_SIZE then virtio_blk_read blk_mmio i sector_buf else ret 0) s = Done (0, s1) ∧ driver_ok s1 ∧
    capacity s1 = capacity s ∧ (∀ x, disk s1 x = disk s x) ∧
    (c.2 < 512 → ∀ j, 0 <= j < 512 → v_ram s1 (V2P sector_buf + j) = disk s (i * 512 + j))) as (s1 & Hr1 & Hok1 & Hcap1 & Hd1 & Hj1).
  { unfold VIRTIO_BLK_SECTOR_SIZE. destruct (Z.ltb_spec c.2 512) as [Hlt|Hge].
    - destruct (sector_op s i false Hok ltac:(lia) Hcap) as (s1 & Hrun & Hok1 & Hcap1 & Hd1 & Hr1). exists s1. split_and!; try done.
      intros _. by apply Hr1.
    - exists s. split_and!; try done. lia. }
  mstep Hr1. change (negb (0 =? 0)) with false. cbv iota.
  destruct (copy_to_sector_run s1 buffer c.1 (done_at offset size i) c.2 Hok1 Hc0 Hc3) as (s2 & Hr2 & Hok2 & Hdev2 & Hj2). mstep Hr2.
  assert (capacity s2 = capacity s) as Hcap2 by (unfold capacity in *; by rewrite Hdev2).
  destruct (sector_op s2 i true Hok2 ltac:(lia) ltac:(lia)) as (s3 & Hr3 & Hok3 & Hcap3 & Hd3 & _). unfold virtio_blk_write. mstep Hr3.
  change (negb (0 =? 0)) with false. cbv iota. rewrite Hnext.
  destruct (IH (i + 1) s3 Hok3 ltac:(lia) ltac:(lia) ltac:(lia) ltac:(lia)) as (s4 & Hr4 & Hok4 & Hcap4 & Hd4).
  exists s4. split; [exact Hr4|]. split; [done|]. split; [lia|]. intros x. rewrite Hd4, Hd3.
  assert (done_at offset size i <= done_at offset size (i + 1) <= size) by (unfold done_at; lia).
  assert (disk s2 x = disk s x) as -> by (unfold disk in *; by rewrite Hdev2, Hd1).
  destruct (decide (offset + done_at offset size (i + 1) <= x < offset + size)); [by rewrite decide_True by lia|].
  unfold in_sector. destruct (decide (true = true ∧ i * 512 <= x < i * 512 + 512)) as [[_ Hx]|Hx].
  - rewrite Hj2. destruct (decide (c.1 <= x - i * 512 < c.1 + c.2)) as [Hin2|Hout].
    + rewrite decide_True by lia. f_equal. lia.
    + rewrite decide_False by lia. rewrite Hj1 by lia. f_equal. lia.
  - rewrite decide_False; [done|]. intros Hx2. apply Hx. split; [done|]. lia.
Qed.

(** The block driver writes what it is given, at any offset and length:
    [virtio_blk_fs_write] inside the disk returns the length, the bytes from
    the offset on are then those of the buffer, and every other byte of the
    disk is kept, those of the sectors that are written in part too. *)
Lemma virtio_write_bytes s offset size buffer :
  driver_ok s → capacity s * 512 < 2 ^ 64 → 0 <= offset → 0 < size → offset + size <= capacity s * 512 →
  ∃ s', virtio_blk_fs_write blk_mmio sector_buf offset size buffer s = Done (size, s') ∧
    driver_ok s' ∧ capacity s' = capacity s ∧
    ∀ x, disk s' x = if decide (offset <= x < offset + size) then buffer (x - offset) else disk s x.
Proof.
  intros Hok Hcap Ho Hs Hin. unfold virtio_blk_fs_write, VIRTIO_BLK_SECTOR_SIZE. rewrite (proj2 (Z.eqb_neq size 0)) by lia. rewrite u64_id by lia.
  assert (offset / 512 <= (offset + size - 1) / 512) by (apply Z.div_le_mono; lia).
  destruct (fs_write_loop_run offset size buffer Ho Hs (Z.to_nat ((offset + size - 1) / 512 - offset / 512 + 1)) (offset / 512) s Hok Hcap Hin
    ltac:(lia) ltac:(lia)) as (s' & Hrun & ? & ? & Hd).
  rewrite (proj1 (done_at_end offset size Ho Hs)) in Hrun, Hd. exists s'. rewrite Z.add_0_r in Hd. done.
Qed.

(** C5: the disk keeps what the block driver writes: after
    [virtio_blk_fs_write] anywhere inside the disk, [virtio_blk_fs_read] of any
    other or overlapping range gives the bytes written where the ranges meet
    and the former bytes of the disk elsewhere, whatever the alignment of the
    two ranges to sectors; both return their lengths. *)
Theorem virtio_disk_stores s offset size buffer offset' size' buffer' :
  driver_ok s → capacity s * 512 < 2 ^ 64 →
  0 <= offset → 0 < size → offset + size <= capacity s * 512 →
  0 <= offset' → 0 < size' → offset' + size' <= capacity s * 512 →
  ∃ s1 s2 buf, virtio_blk_fs_write blk_mmio sector_buf offset size buffer s = Done (size, s1) ∧
    virtio_blk_fs_read blk_mmio sector_buf offset' size' buffer' s1 = Done (size', buf, s2) ∧ driver_ok s2 ∧
    ∀ x, buf x = if decide (0 <= x < size') then
                   if decide (offset <= offset' + x < offset + size) then buffer (offset' + x - offset) else disk s (offset' + x)
                 else buffer' x.
Proof.
  intros Hok Hcap Ho Hs Hin Ho' Hs' Hin'. destruct (virtio_write_bytes s offset size buffer Hok Hcap Ho Hs Hin) as (s1 & Hw & Hok1 & Hc1 & Hd1).
  destruct (virtio_read_bytes s1 offset' size' buffer' Hok1 ltac:(lia) Ho' Hs' ltac:(lia)) as (s2 & buf & Hr & Hok2 & _ & _ & Hb).
  exists s1, s2, buf. split_and!; try done. intros x. rewrite Hb. case_decide; [apply Hd1|done].
Qed.

(** *** Set-up *)

Lemma mmio_write_run s off v d' : vb_write32 off v (v_dev s, v_ram s) = (d', v_ram s) →
  mmio_write32 blk_mmio (blk_mmio + off) v s = Done (tt, set_v_machine d' (v_ram s) s).
Proof. intros H. unfold mmio_write32, with_device, modify. replace (blk_mmio + off - blk_mmio) with off by lia. by rewrite H. Qed.
Lemma alloc_frame_run s q f : fa_alloc (v_frames s) = Done (q, f) → v_alloc_frame s = Done (q, set_v_frames f s).
Proof. intros H. unfold v_alloc_frame, zoom. by rewrite H. Qed.
Lemma two_frames f q f1 h f2 : fa_inv f → fa_alloc f = Done (q, f1) → q ≠ 0 → fa_alloc f1 = Done (h, f2) → h ≠ 0 →
  aligned q ∧ aligned h ∧ q ≠ h.
Proof.
  intros Hf Hq Hq0 Hh Hh0. destruct (fa_alloc_spec f Hf) as (q' & f1' & Hq' & Hf1 & Hfr1 & [[E _]|(Hqf & _ & Href)]); rewrite Hq in Hq'; injection Hq' as <- <-; [done|].
  destruct (fa_alloc_spec f1 Hf1) as (h' & f2' & Hh' & Hf2 & Hfr2 & [[E _]|(Hhf & Hh1 & _)]); rewrite Hh in Hh'; injection Hh' as <- <-; [done|].
  split; [by apply (fa_frame_bounds f)|]. split; [by apply (fa_frame_bounds f1)|]. intros ->. rewrite (Href h Hqf), decide_True in Hh1 by done. lia.
Qed.
Lemma used_start_ok q : aligned q → Z.land (P2V q + QUEUE_SIZE * 16 + (4 + 2 * QUEUE_SIZE) + 15) (Z.lnot 15) = P2V q + 304.
Proof.
  intros [Hm Hq]. unfold QUEUE_SIZE, P2V, PHYS_OFFSET. rewrite u64_id by lia.
  pose proof (andnot_ones (q + 18446743523953737728 + 16 * 16 + (4 + 2 * 16) + 15) 4 ltac:(lia)) as H. unfold andnot in H. change (2 ^ 4 - 1) with 15 in H.
  rewrite H. assert (q mod 16 = 0) by zlia. zlia.
Qed.

(** the set-up brings the driver into the state its operations rely on.
    When the device has a queue of at least 16 entries and two frames are free,
    [virtio_blk_init] leaves the device running on the queue the driver's
    pointers describe, with no request served, the queue and the request page
    in two different frames, and the disk as it was. *)
Theorem virtio_init_ready s q f1 h f2 :
  fa_inv (v_frames s) → blk_mmio ≠ 0 → last_used_idx s = 0 →
  (∀ d m, QUEUE_SIZE <= vb_read32 VIRTIO_MMIO_QUEUE_NUM_MAX (d, m)) →
  fa_alloc (v_frames s) = Done (q, f1) → q ≠ 0 → fa_alloc f1 = Done (h, f2) → h ≠ 0 →
  ∃ s', virtio_blk_init blk_mmio blk_mmio s = Done (tt, s') ∧ blk_ok s' 0 q h ∧
    capacity s' = capacity s ∧ ∀ x, disk s' x = disk s x.
Proof.
  intros Hf Hmm Hlast Hmax Hq Hq0 Hh Hh0. destruct (two_frames _ _ _ _ _ Hf Hq Hq0 Hh Hh0) as (Haq & Hah & Hne).
  unfold virtio_blk_init. unfold bind at 1, modify at 1. cbv beta iota.
  destruct (vb_reset (v_dev s) (v_ram s)) as (d1 & H1 & S1 & C1 & B1).
  mstep (mmio_write_run (set_blk_base blk_mmio s) _ _ _ H1).
  destruct (vb_config d1 (v_ram s) _ VIRTIO_MMIO_STATUS (Z.lor VIRTIO_STATUS_ACK VIRTIO_STATUS_DRV) S1 ltac:(by right)) as (d2 & H2 & S2 & C2 & B2).
  cbv zeta. mstep (mmio_write_run (set_v_machine d1 (v_ram s) (set_blk_base blk_mmio s)) _ _ _ H2).
  destruct (vb_config d2 (v_ram s) _ VIRTIO_MMIO_GUEST_PAGE_SIZE 4096 S2 ltac:(left; set_solver)) as (d3 & H3 & S3 & C3 & B3).
  mstep (mmio_write_run (set_v_machine d2 (v_ram s) (set_blk_base blk_mmio s)) _ _ _ H3).
  destruct (vb_config d3 (v_ram s) _ VIRTIO_MMIO_QUEUE_SEL 0 S3 ltac:(left; set_solver)) as (d4 & H4 & S4 & C4 & B4).
  mstep (mmio_write_run (set_v_machine d3 (v_ram s) (set_blk_base blk_mmio s)) _ _ _ H4).
  unfold mmio_read32 at 1. unfold bind at 1, gets at 1. cbv beta iota. replace (blk_mmio + VIRTIO_MMIO_QUEUE_NUM_MAX - blk_mmio) with VIRTIO_MMIO_QUEUE_NUM_MAX by lia.
  match goal with |- context [vb_read32 ?o ?x =? 0] => pose proof (Hmax x.1 x.2) as Hm; cbn [fst snd] in Hm; rewrite (proj2 (Z.eqb_neq (vb_read32 o x) 0)) by (unfold QUEUE_SIZE in Hm; cbn [v_dev v_ram set_v_machine set_blk_base] in *; lia) end.
  destruct (vb_config d4 (v_ram s) _ VIRTIO_MMIO_QUEUE_NUM QUEUE_SIZE S4 ltac:(left; set_solver)) as (d5 & H5 & S5 & C5 & B5).
  mstep (mmio_write_run (set_v_machine d4 (v_ram s) (set_blk_base blk_mmio s)) _ _ _ H5).
  destruct (vb_config d5 (v_ram s) _ VIRTIO_MMIO_QUEUE_ALIGN 16 S5 ltac:(left; set_solver)) as (d6 & H6 & S6 & C6 & B6).
  mstep (mmio_write_run (set_v_machine d5 (v_ram s) (set_blk_base blk_mmio s)) _ _ _ H6).
  mstep (alloc_frame_run (set_v_machine d6 (v_ram s) (set_blk_base blk_mmio s)) q f1 Hq).
  set (m1 := zero_page (v_ram s) (P2V q)).
  unfold bind at 1, modify at 1. cbv beta iota.
  destruct (vb_config d6 m1 _ VIRTIO_MMIO_QUEUE_PFN (u32 (Z.shiftr q 12)) S6 ltac:(left; set_solver)) as (d7 & H7 & S7 & C7 & B7).
  mstep (mmio_write_run (set_v_ram m1 (set_v_frames f1 (set_v_machine d6 (v_ram s) (set_blk_base blk_mmio s)))) _ _ _ H7).
  rewrite (used_start_ok q Haq). unfold bind at 1, modify at 1. cbv beta iota.
  set (s7 := set_queue _ _ _ _). mstep (alloc_frame_run s7 h f2 Hh). unfold bind at 1, modify at 1. cbv beta iota.
  set (s8 := set_reqs _ _ _). pose proof Haq as [Hqm Hqb].
  assert (vring_of (u32 (Z.shiftr q 12)) 4096 QUEUE_SIZE 16 = ring_at q) as Hring.
  { rewrite Z.shiftr_div_pow2 by lia. change (2 ^ 12) with 4096. rewrite u32_id by zlia. by apply vring_of_frame. }
  assert (∀ p, q <= p → p + 2 <= q + 4096 → load16 m1 p = 0) as Hzero.
  { intros p Hp1 Hp2. apply load_le_zero. intros x Hx. apply zero_page_in; [done|lia]. }
  match type of S7 with vb_setup _ ?r => set (regs := r) in * end.
  assert (vring_of (regs VIRTIO_MMIO_QUEUE_PFN) (regs VIRTIO_MMIO_GUEST_PAGE_SIZE) (regs VIRTIO_MMIO_QUEUE_NUM) (regs VIRTIO_MMIO_QUEUE_ALIGN) = ring_at q) as Hregs by exact Hring.
  destruct (vb_start d7 m1 regs S7) as (d8 & H8 & L8 & C8 & B8).
  { reflexivity. }
  { reflexivity. }
  { pose proof (Hmax d7 m1). change (regs VIRTIO_MMIO_QUEUE_NUM) with QUEUE_SIZE. unfold QUEUE_SIZE in *. lia. }
  { done. }
  { rewrite Hregs. apply Hzero; cbn; lia. }
  { rewrite Hregs. apply Hzero; cbn; lia. }
  rewrite Hregs in L8. mstep (mmio_write_run s8 _ _ _ H8). unfold modify. eexists. split; [reflexivity|].
  split; [|split; [unfold capacity; cbn; lia|intros x; unfold disk; cbn; by rewrite B8, B7, B6, B5, B4, B3, B2, B1]].
  split; [done|]. split; try done.
  - cbn [v_ram]. apply Hzero; lia.
  - split; [|exact Hlast]. apply Hzero; lia.
Qed.
End DriverProofs.

(** ** A device *)

Record sdisk := mk_sdisk { sd_bytes : mem; sd_sectors : Z; sd_regs : Z → Z; sd_ring : option vring; sd_seen : Z }.
Definition sd_set_regs (f : Z → Z) (d : sdisk) := mk_sdisk (sd_bytes d) (sd_sectors d) f (sd_ring d) (sd_seen d).
Definition sd_write (off v : Z) (x : sdisk * mem) : sdisk * mem :=
  let '(d, m) := x in
  if off =? VIRTIO_MMIO_STATUS then
    if v =? 0 then (mk_sdisk (sd_bytes d) (sd_sectors d) (λ _, 0) None 0, m)
    else if has v VIRTIO_STATUS_DRV_OK then
      let R := sd_regs d in
      (mk_sdisk (sd_bytes d) (sd_sectors d) R
         (Some (vring_of (R VIRTIO_MMIO_QUEUE_PFN) (R VIRTIO_MMIO_GUEST_PAGE_SIZE) (R VIRTIO_MMIO_QUEUE_NUM) (R VIRTIO_MMIO_QUEUE_ALIGN))) 0, m)
    else (sd_set_regs (upd (sd_regs d) off v) d, m)
  else if off =? VIRTIO_MMIO_QUEUE_NOTIFY then (d, m)
  else (sd_set_regs (upd (sd_regs d) off v) d, m).
(** It serves the next request of the ring, if there is one. *)
Definition sd_serve (d : sdisk) (r : vring) (m : mem) : sdisk * mem :=
  let k := sd_seen d in
  let head := load16 m (vr_avail r + 4 + 2 * (k mod vr_num r)) in
  let d0 := vr_desc r + 16 * head in
  let d1 := vr_desc r + 16 * load16 m (d0 + 14) in
  let d2 := vr_desc r + 16 * load16 m (d1 + 14) in
  let hdr := load64 m d0 in let buf := load64 m d1 in let sts := load64 m d2 in
  let sector := load64 m (hdr + 8) in
  let ok := sector <? sd_sectors d in
  let write := load32 m hdr =? VIRTIO_BLK_T_OUT in
  let bytes := if ok && write then λ x, if decide (sector * 512 <= x < sector * 512 + 512) then m (buf + (x - sector * 512)) else sd_bytes d x
               else sd_bytes d in
  let m := if ok && negb write then λ x, if decide (buf <= x < buf + 512) then sd_bytes d (sector * 512 + (x - buf)) else m x else m in
  let m := upd m sts (if ok then 0 else 1) in
  let m := store32 m (vr_used r + 4 + 8 * (k mod vr_num r)) head in
  let m := store16 m (vr_used r + 2) (u16 (k + 1)) in
  (mk_sdisk bytes (sd_sectors d) (sd_regs d) (sd_ring d) (k + 1), m).
Definition sd_step (x : sdisk * mem) : sdisk * mem :=
  let '(d, m) := x in
  match sd_ring d with
  | Some r => if load16 m (vr_avail r + 2) =? u16 (sd_seen d) then (d, m) else sd_serve d r m
  | None => (d, m)
  end.
Definition sd_live (d : sdisk) (r : vring) (k : Z) : Prop :=
  sd_ring d = Some r ∧ sd_seen d = k ∧ 0 < vr_num r ∧ vr_desc r <= vr_used r.

Lemma sd_serve_ok d m r k q : sd_live d r k → request_at m r (load16 m (vr_avail r + 4 + 2 * (k mod vr_num r))) q → req_away r q →
  ∃ d' m', sd_serve d r m = (d', m') ∧ sd_live d' r (k + 1) ∧ load16 m' (vr_used r + 2) = u16 (k + 1) ∧ sd_sectors d' = sd_sectors d ∧
    served (sd_sectors d) r q (sd_bytes d) (sd_bytes d') m m'.
Proof.
  intros (Hr & Hk & Hn & Hu) (i & j & (H1 & _ & _ & H2) & (H3 & _ & _ & H4) & (H5 & _ & _ & _) & H6 & H7) (A1 & A2 & A3).
  unfold sd_serve. rewrite Hk. set (head := load16 m (vr_avail r + 4 + 2 * (k mod vr_num r))) in *. rewrite H2, H4, H1, H3, H5, H6, H7.
  eexists _, _. split; [reflexivity|]. pose proof (Z.mod_pos_bound k (vr_num r) Hn) as Hkn. split; [done|]. split; [|split; [done|]].
  { unfold load16, store16. apply load_store_le_small. apply u16_range. }
  unfold away in *. cbn [sd_bytes]. split.
  - assert (∀ x M v w, x < vr_used r ∨ vr_used r + 4 + 8 * vr_num r <= x →
      store16 (store32 M (vr_used r + 4 + 8 * (k mod vr_num r)) v) (vr_used r + 2) w x = M x) as Hout.
    { intros x M v w Hx. unfold store16, store32. by rewrite !store_le_out by lia. }
    destruct (decide (rq_sector q < sd_sectors d)) as [Hlt|Hge].
    + rewrite (proj2 (Z.ltb_lt _ _)) by done. rewrite Hout, upd_eq by lia. split; [done|]. destruct (rq_write q).
      * intros x. done.
      * split; [done|]. intros y Hy. rewrite Hout, upd_ne by lia. cbn [andb negb Z.eqb VIRTIO_BLK_T_IN VIRTIO_BLK_T_OUT]. rewrite decide_True by lia. f_equal. lia.
    + rewrite (proj2 (Z.ltb_ge _ _)) by lia. rewrite Hout, upd_eq by lia. done.
  - intros x Hx Hs Hx'. unfold store16, store32. rewrite !store_le_out by lia. rewrite upd_ne by done.
    destruct (rq_write q); cbn [Z.eqb Pos.eqb VIRTIO_BLK_T_IN VIRTIO_BLK_T_OUT negb]; rewrite ?andb_false_r; [done|].
    destruct Hx as [?|Hx]; [done|]. destruct (_ && true); [|done]. by rewrite decide_False by lia.
Qed.

#[export] Program Instance sdisk_device : VirtioBlk sdisk := {|
  vb_read32 off x := if off =? VIRTIO_MMIO_QUEUE_NUM_MAX then 1024 else sd_regs x.1 off;
  vb_write32 := sd_write;
  vb_step := sd_step;
  vb_delay := 1;
  vb_byte := sd_bytes;
  vb_sectors := sd_sectors;
  vb_setup d regs := sd_ring d = None ∧ ∀ off, sd_regs d off = regs off;
  vb_live := sd_live;
|}.
Next Obligation. intros d m. eexists. split; [reflexivity|]. done. Qed.
Next Obligation.
  intros d m regs off v [Hr Hregs] Hoff. assert (sd_write off v (d, m) = (sd_set_regs (upd (sd_regs d) off v) d, m)) as ->.
  { destruct Hoff as [Hoff|[-> ->]]; [|reflexivity]. revert Hoff. rewrite !elem_of_cons. intros [->|[->|[->|[->|[->|?%elem_of_nil]]]]]; done. }
  eexists. split; [reflexivity|]. split; [split; [done|]|done]. intros x. cbn. unfold upd. by rewrite Hregs.
Qed.
Next Obligation.
  intros d m regs [Hr Hregs] Hst _ [Hn _] Ha r _ _. eexists. split; [reflexivity|]. cbn. rewrite !Hregs. split; [|done].
  split; [done|]. split; [done|]. split; [done|]. subst r. unfold vring_of, align_up. cbn.
  set (x := regs VIRTIO_MMIO_QUEUE_PFN * regs VIRTIO_MMIO_GUEST_PAGE_SIZE) in *. set (n := regs VIRTIO_MMIO_QUEUE_NUM) in *. set (a := regs VIRTIO_MMIO_QUEUE_ALIGN) in *.
  change (VIRTIO_MMIO_QUEUE_NUM) with VIRTIO_MMIO_QUEUE_NUM in *. pose proof (Z.div_mod (x + 16 * n + 2 * (3 + n) + a - 1) a ltac:(lia)).
  pose proof (Z.mod_pos_bound (x + 16 * n + 2 * (3 + n) + a - 1) a Ha). nia.
Qed.
Next Obligation.
  intros d m r k q Hlive Hav Hus Hreq Haw _. destruct (sd_serve_ok d m r k q Hlive Hreq Haw) as (d' & m' & Hrun & Hlive' & Hu & Hsec & Hserved).
  exists 1%nat, d', m'. split; [lia|]. split; [intros i Hi; by replace i with 0%nat by lia|]. split; [|done].
  change (sd_step (d, m) = (d', m')). unfold sd_step. destruct Hlive as (-> & Hk & _). rewrite Hk, Hav, (proj2 (Z.eqb_neq _ _)) by apply u16_next. done.
Qed.

(** Power-on: an empty driver, a disk of 8 sectors, and two free frames. *)
Definition ex_disk : sdisk := mk_sdisk (λ x, x mod 256) 8 (λ _, 0) None 0.
Definition ex_mmio : Z := 0xFFFFFF800A003E00.
Definition ex_off : @vio pmm sdisk := mk_vio (λ _, 0) (ex_pmm [4; 5] 0) ex_disk 0 0 0 0 0 0 0 false.
Lemma virtio_init_ready_witness : ∃ s' q h, virtio_blk_init ex_mmio ex_mmio ex_off = Done (tt, s') ∧ blk_ok ex_mmio s' 0 q h ∧ capacity s' = 8.
Proof.
  destruct (fa_alloc (ex_pmm [4; 5] 0)) as [[q f1]| |] eqn:E1; [|by vm_compute in E1|by vm_compute in E1].
  destruct (fa_alloc f1) as [[h f2]| |] eqn:E2; [|vm_compute in E1; injection E1 as <- <-; by vm_compute in E2..].
  destruct (virtio_init_ready ex_mmio ex_off q f1 h f2) as (s' & Hrun & Hok & Hcap & _).
  - apply ex_pmm_inv.
  - done.
  - done.
  - intros d m. cbn. unfold QUEUE_SIZE. lia.
  - exact E1.
  - vm_compute in E1. by injection E1 as <- <-.
  - exact E2.
  - vm_compute in E1. injection E1 as <- <-. vm_compute in E2. by injection E2 as <- <-.
  - exists s', q, h. split; [exact Hrun|]. split; [exact Hok|exact Hcap].
Defined.

(** A driver at work: the queue in one frame, the headers in another. *)
Definition ex_q : Z := 0x40004000.
Definition ex_h : Z := 0x40005000.
Definition ex_sector_buf : Z := P2V 0x40008000.
Definition ex_on : @vio pmm sdisk :=
  mk_vio (λ _, 0) (ex_pmm [] 1) (mk_sdisk (λ x, x mod 256) 8 (λ _, 0) (Some (ring_at ex_q)) 0)
    ex_mmio (P2V ex_q) (P2V ex_q + 256) (P2V ex_q + 304) 0 (P2V ex_h) (P2V ex_h + 256) false.
Lemma ex_driver_ok : driver_ok ex_mmio ex_sector_buf ex_on.
Proof.
  exists 0, ex_q, ex_h. split; [split; [done|split; try done; try (by vm_compute)]|].
  unfold buffer_ok, away. split; [split; by vm_compute|]. split; right; by vm_compute.
Qed.
(** Seven bytes across the border of two sectors. *)
Lemma virtio_disk_stores_witness : ∃ s1 s2 buf,
  virtio_blk_fs_write ex_mmio ex_sector_buf 509 7 (λ x, 100 + x) ex_on = Done (7, s1) ∧
  virtio_blk_fs_read ex_mmio ex_sector_buf 508 9 (λ _, 0) s1 = Done (9, buf, s2) ∧
  bytes_at buf 0 9 = [252; 100; 101; 102; 103; 104; 105; 106; 4].
Proof.
  destruct (virtio_disk_stores ex_mmio ex_sector_buf ex_on 509 7 (λ x, 100 + x) 508 9 (λ _, 0)) as (s1 & s2 & buf & Hw & Hr & _ & Hb).
  - exact ex_driver_ok.
  - by vm_compute.
  - lia.
  - lia.
  - by vm_compute.
  - lia.
  - lia.
  - by vm_compute.
  - exists s1, s2, buf. split; [exact Hw|]. split; [exact Hr|]. unfold bytes_at. cbn [map seq]. rewrite !Hb. reflexivity.
Defined.
