(* ===== verification/DList.v ===== *)
(** Intrusive lists.  The kernel threads its queues through [next]/[prev]
    fields of the queued objects.  A store of objects is seen here through two
    functions giving these fields; [dlist] states that a head and a tail pointer
    represent a list of objects, [slist] does the same for singly linked lists.
    The lemmas describe the effect of the pointer updates of the C code; each
    component instantiates them with its own object store. *)
From S2P Require Export Prelude.

(** The first element of [l], or the pointer [n] that follows it. *)
Definition hdZ (n : Z) (l : list Z) : Z := match l with [] => n | x :: _ => x end.
(** The last element of [l], or the pointer [p] that precedes it. *)
Fixpoint lastZ (p : Z) (l : list Z) : Z :=
  match l with [] => p | x :: l' => lastZ x l' end.

Fixpoint seg (nx pv : Z → Z) (p : Z) (l : list Z) (n : Z) : Prop :=
  match l with
  | [] => True
  | x :: l' => pv x = p ∧ nx x = hdZ n l' ∧ seg nx pv x l' n
  end.

Record dlist (nx pv : Z → Z) (h t : Z) (l : list Z) : Prop := mk_dlist {
  dl_seg : seg nx pv 0 l 0;
  dl_head : h = hdZ 0 l;
  dl_tail : t = lastZ 0 l;
  dl_nodup : NoDup l;
  dl_nonnull : 0 ∉ l;
}.

Fixpoint chain (nx : Z → Z) (l : list Z) (n : Z) : Prop :=
  match l with
  | [] => True
  | x :: l' => nx x = hdZ n l' ∧ chain nx l' n
  end.

Record slist (nx : Z → Z) (h : Z) (l : list Z) : Prop := mk_slist {
  sl_chain : chain nx l 0;
  sl_head : h = hdZ 0 l;
  sl_nodup : NoDup l;
  sl_nonnull : 0 ∉ l;
}.

Lemma hdZ_app n l1 l2 : hdZ n (l1 ++ l2) = hdZ (hdZ n l2) l1.
Proof. by destruct l1. Qed.
Lemma lastZ_app p l1 l2 : lastZ p (l1 ++ l2) = lastZ (lastZ p l1) l2.
Proof. revert p. induction l1 as [|x l1 IH]; intros p; [done|]. apply IH. Qed.
Lemma lastZ_elem p l : l ≠ [] → lastZ p l ∈ l.
Proof.
  revert p. induction l as [|x l IH]; intros p H; [done|]. simpl.
  destruct l as [|y l]; [by left|]. right. by apply IH.
Qed.
Lemma hdZ_elem n l : l ≠ [] → hdZ n l ∈ l.
Proof. destruct l; [done|]. by left. Qed.
Lemma lastZ_default p q l : l ≠ [] → lastZ p l = lastZ q l.
Proof. by destruct l. Qed.

Lemma seg_app nx pv p l1 l2 n :
  seg nx pv p (l1 ++ l2) n ↔ seg nx pv p l1 (hdZ n l2) ∧ seg nx pv (lastZ p l1) l2 n.
Proof.
  revert p. induction l1 as [|x l1 IH]; intros p; simpl; [tauto|].
  rewrite IH, hdZ_app. tauto.
Qed.

Lemma seg_ext nx pv nx' pv' p l n :
  (∀ x, x ∈ l → nx' x = nx x ∧ pv' x = pv x) → seg nx pv p l n → seg nx' pv' p l n.
Proof.
  revert p. induction l as [|x l IH]; intros p Hx; simpl; [done|].
  intros (Hp & Hn & Hs). destruct (Hx x) as [-> ->]; [by left|].
  split_and!; [done..|]. apply IH; [|done]. intros y Hy. apply Hx. by right.
Qed.

(** The prev field of the head and the next field of the last element. *)
Lemma seg_last_next nx pv p l n : l ≠ [] → seg nx pv p l n → nx (lastZ p l) = n.
Proof.
  revert p. induction l as [|x l IH]; intros p H; [done|]. intros (Hp & Hn & Hs). simpl.
  destruct l as [|y l]; [done|]. by apply IH.
Qed.

(** Changing the next field of the last element only. *)
Lemma seg_set_last nx pv nx' pv' p l n n' :
  NoDup l →
  (∀ x, x ∈ l → nx' x = (if decide (x = lastZ p l) then n' else nx x) ∧ pv' x = pv x) →
  seg nx pv p l n → seg nx' pv' p l n'.
Proof.
  revert p. induction l as [|x l IH]; intros p Hnd Hx; [done|].
  apply NoDup_cons in Hnd as [Hxl Hnd]. intros (Hp & Hn & Hs).
  destruct (Hx x) as [Hnx Hpv]; [by left|]. simpl in Hnx, Hx. split; [by rewrite Hpv|].
  destruct l as [|y l].
  - split; [|done]. rewrite Hnx. by rewrite decide_True.
  - split.
    + rewrite Hnx, decide_False; [done|]. intros Heq. apply Hxl.
      pose proof (lastZ_elem x (y :: l)) as He. rewrite Heq. by apply He.
    + apply IH; [done| |done]. intros z Hz. apply Hx. by right.
Qed.

(** Changing the prev field of the first element only. *)
Lemma seg_set_first nx pv nx' pv' p p' l n :
  NoDup l →
  (∀ x, x ∈ l → nx' x = nx x ∧ pv' x = (if decide (x = hdZ 0 l) then p' else pv x)) →
  seg nx pv p l n → seg nx' pv' p' l n.
Proof.
  destruct l as [|x l]; intros Hnd Hx; [done|]. apply NoDup_cons in Hnd as [Hxl _].
  intros (Hp & Hn & Hs). destruct (Hx x) as [Hnx Hpv]; [by left|]. simpl in Hpv, Hx.
  split; [rewrite Hpv; by rewrite decide_True|]. split; [by rewrite Hnx|].
  eapply seg_ext; [|done]. intros y Hy. destruct (Hx y) as [-> ->]; [by right|].
  rewrite decide_False; [done|]. by intros ->.
Qed.

(** Unlinking [t]: its neighbours are linked to each other. *)
Lemma dlist_remove nx pv nx' pv' h tl l1 t l2 :
  dlist nx pv h tl (l1 ++ t :: l2) →
  (∀ x, x ∈ (l1 ++ l2) →
    nx' x = (if decide (x = lastZ 0 l1) then hdZ 0 l2 else nx x) ∧
    pv' x = (if decide (x = hdZ 0 l2) then lastZ 0 l1 else pv x)) →
  dlist nx' pv' (hdZ 0 (l1 ++ l2)) (lastZ 0 (l1 ++ l2)) (l1 ++ l2).
Proof.
  intros [Hs _ _ Hnd H0] Hx. apply NoDup_app in Hnd as (Hnd1 & Hd & [Ht Hnd2]%NoDup_cons).
  apply seg_app in Hs as [Hs1 (Hpt & Hnt & Hs2)].
  assert (∀ x, x ∈ l1 → x ∈ l2 → False) as Hdisj.
  { intros x H1 H2. apply (Hd x H1). by right. }
  assert ((0 ∉ l1) ∧ (0 ∉ l2)) as [H01 H02].
  { split; intros H; apply H0, elem_of_app; [by left|right; by right]. }
  split; [|done|done| |].
  - apply seg_app. split.
    + eapply (seg_set_last nx pv _ _ 0 l1 t); [done| |done]. intros x Hx1.
      destruct (Hx x) as [-> ->]; [apply elem_of_app; by left|]. split; [done|].
      rewrite decide_False; [done|]. intros ->. destruct l2; [done|].
      apply (Hdisj z); [done|by left].
    + eapply (seg_set_first nx pv _ _ t); [done| |done]. intros x Hx2.
      destruct (Hx x) as [-> ->]; [apply elem_of_app; by right|]. split; [|done].
      rewrite decide_False; [done|]. intros ->. destruct l1 as [|y l1]; [done|].
      apply (Hdisj (lastZ 0 (y :: l1))); [by apply lastZ_elem|done].
  - apply NoDup_app. split_and!; [done| |done]. intros x H1 H2. by apply (Hdisj x).
  - intros [?|?]%elem_of_app; done.
Qed.

(** Appending [t] after the last element. *)
Lemma dlist_push_back nx pv nx' pv' h tl l t :
  dlist nx pv h tl l → t ∉ l → t ≠ 0 →
  (∀ x, x ∈ l → nx' x = (if decide (x = lastZ 0 l) then t else nx x) ∧ pv' x = pv x) →
  nx' t = 0 → pv' t = lastZ 0 l →
  dlist nx' pv' (hdZ 0 (l ++ [t])) t (l ++ [t]).
Proof.
  intros [Hs _ _ Hnd H0] Ht Ht0 Hx Hnt Hpt. split; [|done| | |].
  - apply seg_app. split; [|by repeat split].
    eapply (seg_set_last nx pv _ _ 0 l 0); done.
  - by rewrite lastZ_app.
  - apply NoDup_app. split_and!; [done| |apply NoDup_singleton].
    intros x Hxl ->%list_elem_of_singleton. done.
  - intros [?| ?%list_elem_of_singleton]%elem_of_app; congruence.
Qed.

(** Inserting [t] before the first element. *)
Lemma dlist_push_front nx pv nx' pv' h tl l t :
  dlist nx pv h tl l → t ∉ l → t ≠ 0 →
  (∀ x, x ∈ l → nx' x = nx x ∧ pv' x = (if decide (x = hdZ 0 l) then t else pv x)) →
  nx' t = hdZ 0 l → pv' t = 0 →
  dlist nx' pv' t (lastZ t l) (t :: l).
Proof.
  intros [Hs _ _ Hnd H0] Ht Ht0 Hx Hnt Hpt. split; [|done|done| |].
  - simpl. split_and!; [done|done|].
    eapply (seg_set_first nx pv _ _ 0); done.
  - by apply NoDup_cons.
  - intros [?|?]%elem_of_cons; congruence.
Qed.

(** A list representation only reads the fields of its own elements. *)
Lemma dlist_ext nx pv nx' pv' h tl l :
  (∀ x, x ∈ l → nx' x = nx x ∧ pv' x = pv x) → dlist nx pv h tl l → dlist nx' pv' h tl l.
Proof. intros Hx [Hs ? ? ? ?]. split; try done. by eapply seg_ext. Qed.

Lemma dlist_empty nx pv h tl l : dlist nx pv h tl l → (h = 0 ↔ l = []).
Proof.
  intros [_ -> _ _ H0]. destruct l as [|x l]; simpl; [done|].
  split; [|done]. intros ->. exfalso. apply H0. by left.
Qed.

(** The fields of an element tell its position. *)
Lemma dlist_split nx pv h tl l1 t l2 :
  dlist nx pv h tl (l1 ++ t :: l2) → pv t = lastZ 0 l1 ∧ nx t = hdZ 0 l2.
Proof. intros [Hs _ _ _ _]. apply seg_app in Hs as [_ (Hp & Hn & _)]. done. Qed.

Lemma lastZ_zero_iff l : 0 ∉ l → (lastZ 0 l = 0 ↔ l = []).
Proof.
  intros H0. split; [|by intros ->]. destruct l as [|x l]; [done|]. intros H.
  exfalso. apply H0. rewrite <- H. by apply lastZ_elem.
Qed.
Lemma hdZ_zero_iff l : 0 ∉ l → (hdZ 0 l = 0 ↔ l = []).
Proof.
  intros H0. destruct l as [|x l]; [done|]. simpl. split; [|done].
  intros ->. exfalso. apply H0. by left.
Qed.

Lemma chain_ext nx nx' l n : (∀ x, x ∈ l → nx' x = nx x) → chain nx l n → chain nx' l n.
Proof.
  induction l as [|x l IH]; intros Hx; [done|]. intros [Hn Hc].
  split; [rewrite Hx; [done|by left]|]. apply IH; [|done]. intros y Hy. apply Hx. by right.
Qed.

Lemma chain_app nx l1 l2 n : chain nx (l1 ++ l2) n ↔ chain nx l1 (hdZ n l2) ∧ chain nx l2 n.
Proof. induction l1 as [|x l1 IH]; simpl; [tauto|]. rewrite IH, hdZ_app. tauto. Qed.

Lemma slist_ext nx nx' h l : (∀ x, x ∈ l → nx' x = nx x) → slist nx h l → slist nx' h l.
Proof. intros Hx [Hs ? ? ?]. split; try done. by eapply chain_ext. Qed.

(** Pushing on the front of a singly linked list. *)
Lemma slist_push nx nx' h l t :
  slist nx h l → t ∉ l → t ≠ 0 → (∀ x, x ∈ l → nx' x = nx x) → nx' t = h →
  slist nx' t (t :: l).
Proof.
  intros [Hc Hh Hnd H0] Ht Ht0 Hx Hnt. split; [|done| |].
  - split; [by rewrite Hnt|]. by eapply chain_ext.
  - by apply NoDup_cons.
  - intros [?|?]%elem_of_cons; congruence.
Qed.

Lemma slist_tail nx h x l : slist nx h (x :: l) → slist nx (nx x) l ∧ x = h ∧ (x ∉ l) ∧ x ≠ 0.
Proof.
  intros [[Hn Hc] Hh [Hx Hnd]%NoDup_cons H0]. split; [split; try done|].
  - intros Hz. apply H0. by right.
  - split_and!; [done..|]. intros ->. apply H0. by left.
Qed.

Lemma filter_ne_id (t : Z) (l : list Z) : t ∉ l → filter (λ u, u ≠ t) l = l.
Proof.
  induction l as [|u l IH]; intros Ht; [done|]. apply not_elem_of_cons in Ht as [Hu Ht].
  rewrite filter_cons_True by done. by rewrite IH.
Qed.
Lemma filter_ne_middle (t : Z) (l1 l2 : list Z) :
  NoDup (l1 ++ t :: l2) → filter (λ u, u ≠ t) (l1 ++ t :: l2) = l1 ++ l2.
Proof.
  intros (_ & Hdj & [Ht2 _]%NoDup_cons)%NoDup_app.
  rewrite filter_app, filter_cons_False, !filter_ne_id; try naive_solver.
  intros Ht. apply (Hdj t Ht). by left.
Qed.

Lemma chain_set_last nx nx' l n n' :
  NoDup l →
  (∀ x, x ∈ l → nx' x = if decide (x = lastZ 0 l) then n' else nx x) →
  chain nx l n → chain nx' l n'.
Proof.
  induction l as [|x l IH]; intros Hnd Hx; [done|]. apply NoDup_cons in Hnd as [Hxl Hnd].
  intros [Hn Hc]. pose proof (Hx x ltac:(by left)) as Hx0. simpl in Hx0, Hx.
  destruct l as [|y l].
  - split; [|done]. rewrite Hx0. by rewrite decide_True.
  - split.
    + rewrite Hx0, decide_False; [done|]. intros He. apply Hxl. rewrite He. by apply lastZ_elem.
    + apply IH; [done| |done]. intros z Hz. rewrite Hx by (by right). done.
Qed.

(** Unlinking [t] from a singly linked list. *)
Lemma slist_remove nx nx' h l1 t l2 :
  slist nx h (l1 ++ t :: l2) →
  (∀ x, x ∈ l1 ++ l2 → nx' x = if decide (x = lastZ 0 l1) then hdZ 0 l2 else nx x) →
  slist nx' (hdZ 0 (l1 ++ l2)) (l1 ++ l2).
Proof.
  intros [Hc _ Hnd H0] Hx. apply NoDup_app in Hnd as (Hnd1 & Hdj & [Ht Hnd2]%NoDup_cons).
  apply chain_app in Hc as [Hc1 [_ Hc2]].
  assert ((0 ∉ l1) ∧ (0 ∉ l2)) as [H01 H02].
  { split; intros H; apply H0, elem_of_app; [by left|right; by right]. }
  split; [|done| |].
  - apply chain_app. split.
    + eapply (chain_set_last nx); [done| |done]. intros x Hx1. apply Hx, elem_of_app. by left.
    + eapply chain_ext; [|done]. intros x Hx2. rewrite Hx by (apply elem_of_app; by right).
      rewrite decide_False; [done|]. intros ->. destruct (decide (l1 = [])) as [->|Hne]; [done|].
      apply (Hdj (lastZ 0 l1)); [by apply lastZ_elem|by right].
  - apply NoDup_app. split_and!; [done| |done]. intros x H1 H2. apply (Hdj x H1). by right.
  - intros [?|?]%elem_of_app; done.
Qed.

Lemma slist_split nx h l1 t l2 : slist nx h (l1 ++ t :: l2) → nx t = hdZ 0 l2.
Proof. intros [Hc _ _ _]. by apply chain_app in Hc as [_ [Hn _]]. Qed.
(** What the link after [l1] holds. *)
Lemma slist_last nx h l1 l2 : slist nx h (l1 ++ l2) → l1 ≠ [] → nx (lastZ 0 l1) = hdZ 0 l2.
Proof.
  intros [Hc _ _ _]. apply chain_app in Hc as [Hc _]. generalize (hdZ 0 l2), Hc. clear.
  induction l1 as [|x l IH]; intros n; [done|]. intros [Hn Hc] _.
  destruct l as [|y l]; [done|]. by apply IH.
Qed.

(** Linking [t] into a singly linked list. *)
Lemma slist_insert nx nx' h l1 t l2 :
  slist nx h (l1 ++ l2) → t ∉ l1 ++ l2 → t ≠ 0 →
  (∀ x, x ∈ l1 ++ l2 → nx' x = if decide (x = lastZ 0 l1) then t else nx x) → nx' t = hdZ 0 l2 →
  slist nx' (hdZ 0 (l1 ++ t :: l2)) (l1 ++ t :: l2).
Proof.
  intros [Hc _ Hnd H0] Ht Ht0 Hx Hnt. pose proof Hnd as Hnd'.
  apply NoDup_app in Hnd as (Hnd1 & Hdj & Hnd2). apply chain_app in Hc as [Hc1 Hc2].
  assert ((0 ∉ l1) ∧ (0 ∉ l2)) as [H01 H02].
  { split; intros H; apply H0, elem_of_app; [by left|by right]. }
  split; [|done| |].
  - apply chain_app. split.
    + simpl. eapply (chain_set_last nx); [done| |done]. intros x Hx1. apply Hx, elem_of_app. by left.
    + split; [done|]. eapply chain_ext; [|done]. intros x Hx2.
      rewrite Hx by (apply elem_of_app; by right). rewrite decide_False; [done|]. intros ->.
      destruct (decide (l1 = [])) as [->|Hne]; [done|]. apply (Hdj (lastZ 0 l1)); [by apply lastZ_elem|done].
  - apply NoDup_app. split; [done|]. split.
    + intros x Hx1 [->|Hx2]%elem_of_cons; [apply Ht, elem_of_app; by left|by apply (Hdj x)].
    + apply NoDup_cons. split; [|done]. intros H. apply Ht, elem_of_app. by right.
  - rewrite elem_of_app, elem_of_cons. naive_solver.
Qed.

(** ** Lists threaded through the objects of a store

    [nxt] and [prv] are the two links of an object, [setn] and [setp] their
    assignments; the store maps addresses to objects. *)
Section links.
Context {A : Type} (nxt prv : A → Z) (setn setp : Z → A → A).
Context (nn : ∀ v x, nxt (setn v x) = v) (np : ∀ v x, nxt (setp v x) = nxt x).
Context (pp : ∀ v x, prv (setp v x) = v) (pn : ∀ v x, prv (setn v x) = prv x).

Definition mnx (m : gmap Z A) (a : Z) : Z := from_option nxt 0 (m !! a).
Definition mpv (m : gmap Z A) (a : Z) : Z := from_option prv 0 (m !! a).

(** The neighbours of the object between [l1] and [l2] linked to each other. *)
Definition join_links (l1 l2 : list Z) (m : gmap Z A) : gmap Z A :=
  let m1 := if decide (l1 = []) then m else alter (setn (hdZ 0 l2)) (lastZ 0 l1) m in
  if decide (l2 = []) then m1 else alter (setp (lastZ 0 l1)) (hdZ 0 l2) m1.
(** Object [a] linked before [l]. *)
Definition front_links (a : Z) (l : list Z) (m : gmap Z A) : gmap Z A :=
  let m1 := alter (λ x, setp 0 (setn (hdZ 0 l) x)) a m in
  if decide (l = []) then m1 else alter (setp a) (hdZ 0 l) m1.

Lemma join_links_lookup l1 l2 m u :
  join_links l1 l2 m !! u =
    let o1 := if decide (u = lastZ 0 l1 ∧ l1 ≠ []) then setn (hdZ 0 l2) <$> m !! u else m !! u in
    if decide (u = hdZ 0 l2 ∧ l2 ≠ []) then setp (lastZ 0 l1) <$> o1 else o1.
Proof.
  assert (H1 : ∀ (f : A → A) (m : gmap Z A) (l : list Z) (i : Z),
    (if decide (l = []) then m else alter f i m) !! u = if decide (u = i ∧ l ≠ []) then f <$> m !! u else m !! u).
  { intros f m0 l i. destruct (decide (l = [])) as [->|Hl]; [by rewrite decide_False by naive_solver|].
    destruct (decide (u = i)) as [->|]; [by rewrite lookup_alter_eq, decide_True|].
    by rewrite lookup_alter_ne, decide_False by naive_solver. }
  unfold join_links. cbv zeta. by rewrite !H1.
Qed.

Lemma front_links_lookup a l m u : a ∉ l →
  front_links a l m !! u =
    if decide (u = a) then (λ x, setp 0 (setn (hdZ 0 l) x)) <$> m !! u
    else if decide (u = hdZ 0 l ∧ l ≠ []) then setp a <$> m !! u else m !! u.
Proof.
  intros Ha. unfold front_links. cbv zeta. destruct (decide (l = [])) as [->|Hl].
  - destruct (decide (u = a)) as [->|]; [by rewrite lookup_alter_eq|].
    by rewrite lookup_alter_ne, decide_False by naive_solver.
  - assert (hdZ 0 l ≠ a) by (intros <-; by apply Ha, hdZ_elem).
    destruct (decide (u = hdZ 0 l)) as [->|].
    + rewrite lookup_alter_eq, lookup_alter_ne, decide_False, decide_True by done. done.
    + rewrite lookup_alter_ne by done. destruct (decide (u = a)) as [->|]; [by rewrite lookup_alter_eq|].
      by rewrite lookup_alter_ne, decide_False by naive_solver.
Qed.

Lemma join_links_dlist m h t l1 a l2 :
  dlist (mnx m) (mpv m) h t (l1 ++ a :: l2) → (∀ u, u ∈ l1 ++ l2 → is_Some (m !! u)) →
  dlist (mnx (join_links l1 l2 m)) (mpv (join_links l1 l2 m)) (hdZ 0 (l1 ++ l2)) (lastZ 0 (l1 ++ l2)) (l1 ++ l2).
Proof using nn np pp pn.
  intros Hd Hin. pose proof Hd as [_ _ _ Hnd H0]. apply NoDup_app in Hnd as (_ & Hdj & _).
  eapply dlist_remove; [exact Hd|]. intros u Hu. unfold mnx, mpv. rewrite !join_links_lookup. cbv zeta.
  destruct (Hin u Hu) as [y Hy]. rewrite Hy.
  assert (u ≠ 0) by (intros ->; apply H0; rewrite elem_of_app, elem_of_cons; apply elem_of_app in Hu as [?|?]; auto).
  destruct (decide (u = lastZ 0 l1)) as [Hl|Hl], (decide (u = hdZ 0 l2)) as [Hh|Hh].
  - exfalso. assert (l1 ≠ [] ∧ l2 ≠ []) as [Hn1 Hn2] by (split; intros ->; simpl in *; congruence).
    apply (Hdj u); [rewrite Hl; by apply lastZ_elem|right; rewrite Hh; by apply hdZ_elem].
  - assert (l1 ≠ []) by (intros ->; simpl in *; congruence).
    rewrite decide_False, decide_True by naive_solver. simpl. by rewrite nn, pn.
  - assert (l2 ≠ []) by (intros ->; simpl in *; congruence).
    rewrite decide_True, decide_False by naive_solver. simpl. by rewrite np, pp.
  - rewrite !decide_False by naive_solver. done.
Qed.

Lemma front_links_dlist m h t a l :
  dlist (mnx m) (mpv m) h t l → a ∉ l → a ≠ 0 → is_Some (m !! a) → (∀ u, u ∈ l → is_Some (m !! u)) →
  dlist (mnx (front_links a l m)) (mpv (front_links a l m)) a (lastZ a l) (a :: l).
Proof using nn np pp pn.
  intros Hd Ha Ha0 [x Hx] Hin. eapply dlist_push_front; [exact Hd|done|done| | |].
  - intros u Hu. unfold mnx, mpv. rewrite !front_links_lookup by done. destruct (Hin u Hu) as [y Hy]. rewrite Hy.
    rewrite !(decide_False (P := u = a)) by (by intros ->).
    destruct (decide (u = hdZ 0 l)) as [Hh|Hh].
    + rewrite decide_True by (split; [done|intros ->; by apply not_elem_of_nil in Hu]). simpl. by rewrite np, pp.
    + by rewrite decide_False by naive_solver.
  - unfold mnx. rewrite front_links_lookup, decide_True, Hx by done. simpl. by rewrite np, nn.
  - unfold mpv. rewrite front_links_lookup, decide_True, Hx by done. simpl. by rewrite pp.
Qed.

(** Only links change. *)
Lemma join_links_core {B} (core : A → B) l1 l2 m u :
  (∀ v x, core (setn v x) = core x) → (∀ v x, core (setp v x) = core x) →
  core <$> join_links l1 l2 m !! u = core <$> m !! u.
Proof.
  intros Hn Hp. rewrite join_links_lookup. cbv zeta. destruct (m !! u); repeat case_decide; simpl; by rewrite ?Hp, ?Hn, ?Hp.
Qed.
Lemma front_links_core {B} (core : A → B) a l m u : a ∉ l →
  (∀ v x, core (setn v x) = core x) → (∀ v x, core (setp v x) = core x) →
  core <$> front_links a l m !! u = core <$> m !! u.
Proof.
  intros Ha Hn Hp. rewrite front_links_lookup by done.
  destruct (m !! u); repeat case_decide; simpl; by rewrite ?Hp, ?Hn, ?Hp.
Qed.
End links.
