(* ===== verification/Sched.v ===== *)
(** The scheduler, [kernel/threading/sched.c]: multi-level run queues threaded
    through the tasks, the bitmap of non-empty levels, wait queues, the sleep
    queue and the pid hash table.  Tasks, processes and wait queues live in
    stores indexed by their address; 0 is NULL and a dereference of an address
    with no object faults. *)
From S2P Require Export Prelude DList.

(** ** Data *)

(** [task_state]: TASK_RUNNING .. TASK_SLEEPING. *)
Inductive task_state :=
| TASK_RUNNING | TASK_READY | TASK_EXITED | TASK_BLOCKED | TASK_STOPPED | TASK_SLEEPING.
(** [process_state]. *)
Inductive process_state :=
| PROCESS_ACTIVE | PROCESS_ZOMBIE | PROCESS_KILLED | PROCESS_STOPPED.

#[export] Instance task_state_eq_dec : EqDecision task_state.
Proof. solve_decision. Defined.
#[export] Instance process_state_eq_dec : EqDecision process_state.
Proof. solve_decision. Defined.

(** Priorities [IDLE] = 0 .. [REALTIME] = 4; [COUNT] = 5 levels. *)
Definition IDLE : Z := 0.
Definition NORMAL : Z := 2.
Definition COUNT : Z := 5.
Definition MAX_FD : Z := 1024.
Definition NSIG : Z := 32.
Definition NGROUPS_MAX : Z := 32.
Definition PID_HASH_SIZE : Z := 1024.
Definition TASK_TIMEOUT : Z := 1.
Definition TASK_TIMEDOUT : Z := 2.

Record task := mk_task {
  t_id : Z;
  t_wake_tick : Z;
  t_state : task_state;
  t_priority : Z;
  t_next : Z;
  t_prev : Z;
  t_next_wait : Z;
  t_thread_next : Z;
  t_sleep_next : Z;
  t_stack_page : Z;
  t_proc : Z;
  t_flags : Z;
}.

Definition set_t_wake_tick v t := mk_task (t_id t) v (t_state t) (t_priority t) (t_next t)
  (t_prev t) (t_next_wait t) (t_thread_next t) (t_sleep_next t) (t_stack_page t) (t_proc t) (t_flags t).
Definition set_t_state v t := mk_task (t_id t) (t_wake_tick t) v (t_priority t) (t_next t)
  (t_prev t) (t_next_wait t) (t_thread_next t) (t_sleep_next t) (t_stack_page t) (t_proc t) (t_flags t).
Definition set_t_next v t := mk_task (t_id t) (t_wake_tick t) (t_state t) (t_priority t) v
  (t_prev t) (t_next_wait t) (t_thread_next t) (t_sleep_next t) (t_stack_page t) (t_proc t) (t_flags t).
Definition set_t_prev v t := mk_task (t_id t) (t_wake_tick t) (t_state t) (t_priority t) (t_next t)
  v (t_next_wait t) (t_thread_next t) (t_sleep_next t) (t_stack_page t) (t_proc t) (t_flags t).
Definition set_t_next_wait v t := mk_task (t_id t) (t_wake_tick t) (t_state t) (t_priority t) (t_next t)
  (t_prev t) v (t_thread_next t) (t_sleep_next t) (t_stack_page t) (t_proc t) (t_flags t).
Definition set_t_sleep_next v t := mk_task (t_id t) (t_wake_tick t) (t_state t) (t_priority t) (t_next t)
  (t_prev t) (t_next_wait t) (t_thread_next t) v (t_stack_page t) (t_proc t) (t_flags t).
Definition set_t_flags v t := mk_task (t_id t) (t_wake_tick t) (t_state t) (t_priority t) (t_next t)
  (t_prev t) (t_next_wait t) (t_thread_next t) (t_sleep_next t) (t_stack_page t) (t_proc t) v.

(** One signal action and the signal state of a process ([signal_struct_t]). *)
Record sigaction := mk_sigaction { sa_handler : Z; sa_mask : Z; sa_flags : Z }.
Record signal_struct := mk_signal_struct {
  sig_actions : list sigaction;   (* NSIG entries *)
  sig_pending : Z;
  sig_blocked : Z;
}.

(** [process_t], without the name.  The signal state is embedded: no two
    processes share it ([signal_copy] duplicates it). *)
Record process := mk_process {
  p_pid : Z;
  p_sid : Z;
  p_pgid : Z;
  p_session_leader : bool;
  p_groups : list Z;
  p_ngroups : Z;
  p_uid : Z;
  p_gid : Z;
  p_euid : Z;
  p_egid : Z;
  p_mm : Z;
  p_fd_table : list Z;            (* MAX_FD file pointers *)
  p_cwd : Z;
  p_parent : Z;
  p_child : Z;
  p_sibling : Z;
  p_state : process_state;
  p_exit_code : Z;
  p_wait_queue : Z;               (* address of the wait queue; its head is in [wait_queues] *)
  p_hash_next : Z;
  p_signals : option signal_struct;
  p_controlling_tty : Z;
  p_threads : Z;
}.

Record sched := mk_sched {
  tasks : gmap Z task;
  procs : gmap Z process;
  wait_queues : gmap Z Z;         (* heads of the wait queues, by address *)
  runqueues : list Z;
  runqueues_tail : list Z;
  sleep_queue : Z;
  current_task : Z;
  sched_lock : bool;
  active_priorities : Z;
  pid_hash : list Z;
  tid_counter : Z;
  jiffies : Z;
}.

Definition set_tasks v s := mk_sched v (procs s) (wait_queues s) (runqueues s) (runqueues_tail s)
  (sleep_queue s) (current_task s) (sched_lock s) (active_priorities s) (pid_hash s) (tid_counter s) (jiffies s).
Definition set_procs v s := mk_sched (tasks s) v (wait_queues s) (runqueues s) (runqueues_tail s)
  (sleep_queue s) (current_task s) (sched_lock s) (active_priorities s) (pid_hash s) (tid_counter s) (jiffies s).
Definition set_wait_queues v s := mk_sched (tasks s) (procs s) v (runqueues s) (runqueues_tail s)
  (sleep_queue s) (current_task s) (sched_lock s) (active_priorities s) (pid_hash s) (tid_counter s) (jiffies s).
Definition set_runqueues v s := mk_sched (tasks s) (procs s) (wait_queues s) v (runqueues_tail s)
  (sleep_queue s) (current_task s) (sched_lock s) (active_priorities s) (pid_hash s) (tid_counter s) (jiffies s).
Definition set_runqueues_tail v s := mk_sched (tasks s) (procs s) (wait_queues s) (runqueues s) v
  (sleep_queue s) (current_task s) (sched_lock s) (active_priorities s) (pid_hash s) (tid_counter s) (jiffies s).
Definition set_sleep_queue v s := mk_sched (tasks s) (procs s) (wait_queues s) (runqueues s) (runqueues_tail s)
  v (current_task s) (sched_lock s) (active_priorities s) (pid_hash s) (tid_counter s) (jiffies s).
Definition set_current_task v s := mk_sched (tasks s) (procs s) (wait_queues s) (runqueues s) (runqueues_tail s)
  (sleep_queue s) v (sched_lock s) (active_priorities s) (pid_hash s) (tid_counter s) (jiffies s).
Definition set_sched_lock v s := mk_sched (tasks s) (procs s) (wait_queues s) (runqueues s) (runqueues_tail s)
  (sleep_queue s) (current_task s) v (active_priorities s) (pid_hash s) (tid_counter s) (jiffies s).
Definition set_active_priorities v s := mk_sched (tasks s) (procs s) (wait_queues s) (runqueues s) (runqueues_tail s)
  (sleep_queue s) (current_task s) (sched_lock s) v (pid_hash s) (tid_counter s) (jiffies s).
Definition set_pid_hash v s := mk_sched (tasks s) (procs s) (wait_queues s) (runqueues s) (runqueues_tail s)
  (sleep_queue s) (current_task s) (sched_lock s) (active_priorities s) v (tid_counter s) (jiffies s).
Definition set_tid_counter v s := mk_sched (tasks s) (procs s) (wait_queues s) (runqueues s) (runqueues_tail s)
  (sleep_queue s) (current_task s) (sched_lock s) (active_priorities s) (pid_hash s) v (jiffies s).

Definition set_p_hash_next v p := mk_process (p_pid p) (p_sid p) (p_pgid p) (p_session_leader p)
  (p_groups p) (p_ngroups p) (p_uid p) (p_gid p) (p_euid p) (p_egid p) (p_mm p) (p_fd_table p)
  (p_cwd p) (p_parent p) (p_child p) (p_sibling p) (p_state p) (p_exit_code p) (p_wait_queue p) v (p_signals p)
  (p_controlling_tty p) (p_threads p).
Definition set_p_threads v p := mk_process (p_pid p) (p_sid p) (p_pgid p) (p_session_leader p)
  (p_groups p) (p_ngroups p) (p_uid p) (p_gid p) (p_euid p) (p_egid p) (p_mm p) (p_fd_table p)
  (p_cwd p) (p_parent p) (p_child p) (p_sibling p) (p_state p) (p_exit_code p) (p_wait_queue p) (p_hash_next p) (p_signals p)
  (p_controlling_tty p) v.

Local Open Scope prog_scope.

(** Pointer dereferences. *)
Definition get_task (t : Z) : M sched task := λ s, of_opt (tasks s !! t) s.
Definition mod_task (t : Z) (f : task → task) : M sched unit := λ s,
  match tasks s !! t with
  | Some x => Done (tt, set_tasks (<[t := f x]> (tasks s)) s)
  | None => Fault
  end.
Definition get_proc (p : Z) : M sched process := λ s, of_opt (procs s !! p) s.
Definition mod_proc (p : Z) (f : process → process) : M sched unit := λ s,
  match procs s !! p with
  | Some x => Done (tt, set_procs (<[p := f x]> (procs s)) s)
  | None => Fault
  end.

(** Array accesses [runqueues[prio]] and so on. *)
Definition get_rq (p : Z) : M sched Z := λ s, of_opt (zget (runqueues s) p) s.
Definition put_rq (p v : Z) : M sched unit := λ s,
  match zset (runqueues s) p v with Some l => Done (tt, set_runqueues l s) | None => Fault end.
Definition get_rqt (p : Z) : M sched Z := λ s, of_opt (zget (runqueues_tail s) p) s.
Definition put_rqt (p v : Z) : M sched unit := λ s,
  match zset (runqueues_tail s) p v with Some l => Done (tt, set_runqueues_tail l s) | None => Fault end.
(** [*queue], for a wait queue at address [q]. *)
Definition get_wq (q : Z) : M sched Z := gets (λ s, default 0 (wait_queues s !! q)).
Definition put_wq (q v : Z) : M sched unit := modify (λ s, set_wait_queues (<[q := v]> (wait_queues s)) s).

Definition sched_acquire : M sched unit := spin_acquire sched_lock set_sched_lock.
Definition sched_release : M sched unit := spin_release set_sched_lock.

(** ** Run queues *)

Definition sched_enqueue_task (t : Z) : M sched unit :=
  x <- get_task t;;
  let prio := t_priority x in
  mod_task t (set_t_next 0);;;
  mod_task t (set_t_prev 0);;;
  h <- get_rq prio;;
  (if h =? 0 then
     put_rq prio t;;;
     put_rqt prio t
   else
     tl <- get_rqt prio;;
     mod_task t (set_t_prev tl);;;
     mod_task tl (set_t_next t);;;
     put_rqt prio t);;;
  modify (λ s, set_active_priorities (Z.lor (active_priorities s) (Z.shiftl 1 prio)) s).

Definition sched_dequeue_task (t : Z) : M sched unit :=
  x <- get_task t;;
  let prio := t_priority x in
  (if negb (t_prev x =? 0) then mod_task (t_prev x) (set_t_next (t_next x))
   else h <- get_rq prio;; if h =? t then put_rq prio (t_next x) else ret tt);;;
  x <- get_task t;;
  (if negb (t_next x =? 0) then mod_task (t_next x) (set_t_prev (t_prev x))
   else tl <- get_rqt prio;; if tl =? t then put_rqt prio (t_prev x) else ret tt);;;
  mod_task t (set_t_next 0);;;
  mod_task t (set_t_prev 0);;;
  h <- get_rq prio;;
  if h =? 0 then
    modify (λ s, set_active_priorities
                   (andnot (active_priorities s) (Z.shiftl 1 prio)) s)
  else ret tt.

Definition rotate_queue (priority : Z) : M sched unit :=
  head <- get_rq priority;;
  if head =? 0 then ret tt
  else
    x <- get_task head;;
    if t_next x =? 0 then ret tt
    else sched_dequeue_task head;;; sched_enqueue_task head.

(** [31 - __builtin_clz(x)]: the index of the highest set bit. *)
Definition highest_bit (x : Z) : Z := Z.log2 x.

(** [schedule], up to the context switch: the lock taken here is released by
    the task that [cpu_switch_to] resumes, on its own way out of [schedule]
    (or in [sched_unlock_release] for a new task). *)
Definition schedule : M sched unit :=
  sched_acquire;;;
  prev <- gets current_task;;
  (if prev =? 0 then ret tt
   else x <- get_task prev;;
        if decide (t_state x = TASK_RUNNING) then rotate_queue (t_priority x) else ret tt);;;
  act <- gets active_priorities;;
  next <- (if act =? 0 then get_rq IDLE
           else let hp := highest_bit act in
                get_rq (if COUNT <=? hp then COUNT - 1 else hp));;
  next <- (if next =? 0 then get_rq IDLE else ret next);;
  (if next =? prev then ret tt
   else
     modify (set_current_task next);;;
     x <- get_task next;;
     if decide (t_state x = TASK_READY) then mod_task next (set_t_state TASK_RUNNING)
     else ret tt);;;
  sched_release.

(** [task_create]; [t] and [stack] are the results of the two [kmalloc] calls
    (0 when they fail). *)
Definition task_create (t stack : Z) (priority proc : Z) : M sched unit :=
  let priority := if COUNT <=? priority then NORMAL else priority in
  if t =? 0 then ret tt
  else if stack =? 0 then ret tt
  else
    id <- gets tid_counter;;
    modify (λ s, set_tid_counter (u64 (id + 1)) s);;;
    modify (λ s, set_tasks (<[t := mk_task id 0 TASK_READY priority 0 0 0 0 0 stack proc 0]>
                              (tasks s)) s);;;
    sched_acquire;;;
    (if proc =? 0 then ret tt
     else
       p <- get_proc proc;;
       mod_task t (λ x, mk_task (t_id x) (t_wake_tick x) (t_state x) (t_priority x) (t_next x)
                          (t_prev x) (t_next_wait x) (p_threads p) (t_sleep_next x)
                          (t_stack_page x) (t_proc x) (t_flags x));;;
       mod_proc proc (set_p_threads t));;;
    sched_enqueue_task t;;;
    sched_release.

(** ** Blocking and waking *)

(** [sleep_on(queue, release_lock)] up to and including the switch to another
    task; [release] is the store to [release_lock]. *)
Definition sleep_on (queue : Z) (release : M sched unit) : M sched unit :=
  sched_acquire;;;
  cur <- gets current_task;;
  mod_task cur (set_t_state TASK_BLOCKED);;;
  h <- get_wq queue;;
  mod_task cur (set_t_next_wait h);;;
  put_wq queue cur;;;
  sched_dequeue_task cur;;;
  release;;;
  sched_release;;;
  schedule.

Definition wake_up (queue : Z) : M sched unit :=
  sched_acquire;;;
  t <- get_wq queue;;
  if t =? 0 then sched_release
  else
    x <- get_task t;;
    put_wq queue (t_next_wait x);;;
    mod_task t (set_t_next_wait 0);;;
    mod_task t (set_t_state TASK_READY);;;
    sched_enqueue_task t;;;
    sched_release.

(** The walk of [task_wake_up_process] along [thread_next]; the fuel bounds
    the number of threads. *)
Fixpoint wake_threads (fuel : nat) (t : Z) : M sched unit :=
  match fuel with
  | O => faultM
  | S f =>
      if t =? 0 then ret tt
      else
        x <- get_task t;;
        (if decide (t_state x = TASK_STOPPED) then
           mod_task t (set_t_state TASK_READY);;; sched_enqueue_task t
         else ret tt);;;
        x <- get_task t;;
        wake_threads f (t_thread_next x)
  end.

Definition task_wake_up_process (fuel : nat) (proc : Z) : M sched unit :=
  if proc =? 0 then ret tt
  else
    sched_acquire;;;
    p <- get_proc proc;;
    wake_threads fuel (p_threads p);;;
    sched_release.

Definition task_exit : M sched unit :=
  sched_acquire;;;
  cur <- gets current_task;;
  mod_task cur (set_t_state TASK_EXITED);;;
  sched_dequeue_task cur;;;
  sched_release;;;
  schedule.

(** ** Timed sleep *)

(** The loop of [sched_check_sleeping_tasks]: [curr] is the address of the link
    being examined, [inl tt] for [&sleep_queue] and [inr p] for
    [&p->next_wait]. *)
Definition get_link (curr : unit + Z) : M sched Z :=
  match curr with
  | inl _ => gets sleep_queue
  | inr p => x <- get_task p;; ret (t_next_wait x)
  end.
Definition put_link (curr : unit + Z) (v : Z) : M sched unit :=
  match curr with
  | inl _ => modify (set_sleep_queue v)
  | inr p => mod_task p (set_t_next_wait v)
  end.

Fixpoint check_sleeping (fuel : nat) (curr : unit + Z) (now : Z) : M sched unit :=
  match fuel with
  | O => faultM
  | S f =>
      t <- get_link curr;;
      if t =? 0 then ret tt
      else
        x <- get_task t;;
        if t_wake_tick x <=? now then
          put_link curr (t_next_wait x);;;
          mod_task t (set_t_next_wait 0);;;
          mod_task t (set_t_state TASK_READY);;;
          sched_enqueue_task t;;;
          check_sleeping f curr now
        else check_sleeping f (inr t) now
  end.

Definition sched_check_sleeping_tasks (fuel : nat) (now : Z) : M sched unit :=
  sched_acquire;;; check_sleeping fuel (inl tt) now;;; sched_release.

Definition task_sleep_ticks (ticks : Z) : M sched unit :=
  sched_acquire;;;
  cur <- gets current_task;;
  j <- gets jiffies;;
  mod_task cur (set_t_wake_tick (u64 (j + ticks)));;;
  mod_task cur (set_t_state TASK_SLEEPING);;;
  sched_dequeue_task cur;;;
  q <- gets sleep_queue;;
  mod_task cur (set_t_next_wait q);;;
  modify (set_sleep_queue cur);;;
  sched_release;;;
  schedule.

(** [sleep_on_timeout], first half: up to the switch.  [false] means that it
    returned at once because the timeout is 0. *)
Definition sleep_on_timeout_begin (queue timeout_ticks : Z) : M sched bool :=
  if timeout_ticks =? 0 then ret false
  else
    sched_acquire;;;
    cur <- gets current_task;;
    j <- gets jiffies;;
    mod_task cur (set_t_wake_tick (u64 (j + timeout_ticks)));;;
    mod_task cur (set_t_state TASK_BLOCKED);;;
    x <- get_task cur;;
    mod_task cur (set_t_flags (Z.lor (t_flags x) TASK_TIMEOUT));;;
    h <- get_wq queue;;
    mod_task cur (set_t_next_wait h);;;
    put_wq queue cur;;;
    q <- gets sleep_queue;;
    mod_task cur (set_t_sleep_next q);;;
    modify (set_sleep_queue cur);;;
    sched_dequeue_task cur;;;
    sched_release;;;
    schedule;;;
    ret true.

(** [sleep_on_timeout], second half, after the task runs again. *)
Definition sleep_on_timeout_end : M sched Z :=
  sched_acquire;;;
  cur <- gets current_task;;
  x <- get_task cur;;
  mod_task cur (set_t_flags (andnot (t_flags x) (Z.lor TASK_TIMEOUT TASK_TIMEDOUT)));;;
  sched_release;;;
  ret (if has (t_flags x) TASK_TIMEDOUT then 1 else 0).

(** ** The pid hash table *)

Definition get_hash (i : Z) : M sched Z := λ s, of_opt (zget (pid_hash s) i) s.
Definition put_hash (i v : Z) : M sched unit := λ s,
  match zset (pid_hash s) i v with Some l => Done (tt, set_pid_hash l s) | None => Fault end.

Definition pid_hash_insert (proc : Z) : M sched unit :=
  p <- get_proc proc;;
  let idx := p_pid p mod PID_HASH_SIZE in
  h <- get_hash idx;;
  mod_proc proc (set_p_hash_next h);;;
  put_hash idx proc.

(** [curr] is [inl idx] for [&pid_hash[idx]] and [inr p] for [&p->hash_next]. *)
Fixpoint pid_hash_unlink (fuel : nat) (curr : Z + Z) (proc : Z) : M sched unit :=
  match fuel with
  | O => faultM
  | S f =>
      c <- (match curr with
            | inl i => get_hash i
            | inr p => x <- get_proc p;; ret (p_hash_next x)
            end);;
      if c =? 0 then ret tt
      else if c =? proc then
        x <- get_proc proc;;
        (match curr with
         | inl i => put_hash i (p_hash_next x)
         | inr p => mod_proc p (set_p_hash_next (p_hash_next x))
         end);;;
        mod_proc proc (set_p_hash_next 0)
      else pid_hash_unlink f (inr c) proc
  end.

Definition pid_hash_remove (fuel : nat) (proc : Z) : M sched unit :=
  p <- get_proc proc;;
  pid_hash_unlink fuel (inl (p_pid p mod PID_HASH_SIZE)) proc.

Fixpoint find_pid_chain (fuel : nat) (proc pid : Z) : M sched Z :=
  match fuel with
  | O => faultM
  | S f =>
      if proc =? 0 then ret 0
      else
        p <- get_proc proc;;
        if p_pid p =? pid then ret proc else find_pid_chain f (p_hash_next p) pid
  end.

(** The address of the process with this pid, 0 (NULL) if there is none. *)
Definition find_process_by_pid (fuel : nat) (pid : Z) : M sched Z :=
  sched_acquire;;;
  h <- get_hash (u64 pid mod PID_HASH_SIZE);;
  r <- find_pid_chain fuel h (u64 pid);;
  sched_release;;;
  ret r.

(** ** The run-queue invariant *)

Definition nxt (s : sched) (t : Z) : Z := from_option t_next 0 (tasks s !! t).
Definition prv (s : sched) (t : Z) : Z := from_option t_prev 0 (tasks s !! t).

(** [Q p] is the list of tasks queued at level [p]. *)
Record sched_ok (s : sched) (Q : Z → list Z) : Prop := mk_sched_ok {
  so_len : length (runqueues s) = 5%nat;
  so_len_tail : length (runqueues_tail s) = 5%nat;
  so_queue : ∀ p, 0 <= p < COUNT → ∃ h t,
    zget (runqueues s) p = Some h ∧ zget (runqueues_tail s) p = Some t ∧
    dlist (nxt s) (prv s) h t (Q p);
  so_prio : ∀ p t, 0 <= p < COUNT → t ∈ Q p →
    ∃ x, tasks s !! t = Some x ∧ t_priority x = p;
  so_active : ∀ p, 0 <= p < COUNT → (Z.testbit (active_priorities s) p = true ↔ Q p ≠ []);
  so_range : 0 <= active_priorities s < 2 ^ COUNT;
}.

Definition qset (Q : Z → list Z) (p : Z) (l : list Z) : Z → list Z :=
  λ q, if decide (q = p) then l else Q q.

(** What queue operations leave alone: every field of every task except the
    two links, and everything outside the queues. *)
Definition task_core (x : task) : task := set_t_next 0 (set_t_prev 0 x).
Record same_rest (s s' : sched) : Prop := mk_same_rest {
  sr_tasks : ∀ t, task_core <$> tasks s' !! t = task_core <$> tasks s !! t;
  sr_procs : procs s' = procs s;
  sr_waitq : wait_queues s' = wait_queues s;
  sr_sleep : sleep_queue s' = sleep_queue s;
  sr_current : current_task s' = current_task s;
  sr_lock : sched_lock s' = sched_lock s;
  sr_hash : pid_hash s' = pid_hash s;
  sr_tid : tid_counter s' = tid_counter s;
  sr_jiffies : jiffies s' = jiffies s;
}.

#[export] Instance same_rest_preorder : PreOrder same_rest.
Proof.
  split.
  - intros s. by split.
  - intros s1 s2 s3 [] []. split; congruence.
Qed.

Lemma task_core_fields x y :
  task_core x = task_core y →
  t_priority x = t_priority y ∧ t_state x = t_state y ∧ t_next_wait x = t_next_wait y ∧
  t_thread_next x = t_thread_next y ∧ t_proc x = t_proc y ∧ t_wake_tick x = t_wake_tick y.
Proof. destruct x, y. unfold task_core, set_t_next, set_t_prev. simpl. by intros [= ]. Qed.

Lemma same_rest_task s s' t x :
  same_rest s s' → tasks s !! t = Some x →
  ∃ x', tasks s' !! t = Some x' ∧ task_core x' = task_core x.
Proof.
  intros Hr Hx. pose proof (sr_tasks _ _ Hr t) as H. rewrite Hx in H.
  destruct (tasks s' !! t) as [x'|]; [|done]. exists x'. split; [done|].
  change (Some (task_core x') = Some (task_core x)) in H. congruence.
Qed.

(** Rewriting the links of one task. *)
Lemma core_insert (m : gmap Z task) t x y u :
  m !! t = Some x → task_core y = task_core x →
  task_core <$> (<[t := y]> m) !! u = task_core <$> m !! u.
Proof.
  intros Hx Hc. destruct (decide (t = u)) as [->|].
  - rewrite lookup_insert_eq, Hx. simpl. by rewrite Hc.
  - by rewrite lookup_insert_ne.
Qed.

Lemma so_disjoint s Q p q t :
  sched_ok s Q → 0 <= p < COUNT → 0 <= q < COUNT → t ∈ Q p → t ∈ Q q → p = q.
Proof.
  intros Hs Hp Hq H1 H2. destruct (so_prio _ _ Hs p t Hp H1) as (x & Hx & <-).
  destruct (so_prio _ _ Hs q t Hq H2) as (y & Hy & <-). congruence.
Qed.

Lemma so_nonnull s Q p t : sched_ok s Q → 0 <= p < COUNT → t ∈ Q p → t ≠ 0.
Proof.
  intros Hs Hp Ht ->. destruct (so_queue _ _ Hs p Hp) as (h & tl & _ & _ & Hd).
  by apply (dl_nonnull _ _ _ _ _ Hd).
Qed.

Lemma testbit_shift1 p q : 0 <= p → 0 <= q → Z.testbit (Z.shiftl 1 p) q = bool_decide (p = q).
Proof.
  intros. rewrite Z.shiftl_1_l. case_bool_decide; subst.
  - by apply Z.pow2_bits_true.
  - by apply Z.pow2_bits_false.
Qed.

(** Rebuilding the invariant after the queue of one level changed. *)
Lemma sched_ok_update s s' Q p l h tl :
  sched_ok s Q → 0 <= p < COUNT → same_rest s s' →
  runqueues s' = <[Z.to_nat p := h]> (runqueues s) →
  runqueues_tail s' = <[Z.to_nat p := tl]> (runqueues_tail s) →
  dlist (nxt s') (prv s') h tl l →
  (∀ t, t ∈ l → ∃ x, tasks s !! t = Some x ∧ t_priority x = p) →
  (∀ q t, 0 <= q < COUNT → q ≠ p → t ∈ Q q → tasks s' !! t = tasks s !! t) →
  0 <= active_priorities s' →
  (∀ q, 0 <= q → Z.testbit (active_priorities s') q =
    if decide (q = p) then bool_decide (l ≠ []) else Z.testbit (active_priorities s) q) →
  sched_ok s' (qset Q p l).
Proof.
  intros Hs Hp Hr Hrq Hrt Hl Hprio Hother Hpos Hbits.
  pose proof (so_len _ _ Hs) as Hlen. pose proof (so_len_tail _ _ Hs) as Hlent.
  unfold COUNT in *. split.
  - by rewrite Hrq, length_insert.
  - by rewrite Hrt, length_insert.
  - intros q Hq. rewrite Hrq, Hrt, !zget_insert by lia. unfold qset.
    destruct (decide (q = p)) as [->|Hne].
    + exists h, tl. by rewrite !decide_True.
    + rewrite !decide_False by done. destruct (so_queue _ _ Hs q Hq) as (h' & t' & ? & ? & Hd).
      exists h', t'. split_and!; [done..|]. eapply dlist_ext; [|done].
      intros t Ht. unfold nxt, prv. by rewrite (Hother q t).
  - intros q t Hq. unfold qset. destruct (decide (q = p)) as [->|Hne]; intros Ht.
    + destruct (Hprio t Ht) as (x & Hx & Hxp).
      destruct (same_rest_task _ _ _ _ Hr Hx) as (x' & Hx' & Hc).
      exists x'. split; [done|]. apply task_core_fields in Hc as [-> _]. done.
    + destruct (so_prio _ _ Hs q t Hq Ht) as (x & Hx & Hxp).
      exists x. split; [|done]. by rewrite (Hother q t).
  - intros q Hq. rewrite Hbits by lia. unfold qset. case_decide.
    + by rewrite bool_decide_eq_true.
    + by apply (so_active _ _ Hs).
  - unfold COUNT. apply bits_range; [lia|done|]. intros i Hi.
    rewrite Hbits, decide_False by lia. by eapply testbit_small, Hi; apply (so_range _ _ Hs).
Qed.

(** Field writes on stores. *)
Lemma mod_task_Done s t x f :
  tasks s !! t = Some x → mod_task t f s = Done (tt, set_tasks (<[t := f x]> (tasks s)) s).
Proof. unfold mod_task. by intros ->. Qed.
Lemma get_task_Done s t x : tasks s !! t = Some x → get_task t s = Done (x, s).
Proof. unfold get_task. by intros ->. Qed.
Lemma get_rq_Done s p h : zget (runqueues s) p = Some h → get_rq p s = Done (h, s).
Proof. unfold get_rq. by intros ->. Qed.
Lemma get_rqt_Done s p h : zget (runqueues_tail s) p = Some h → get_rqt p s = Done (h, s).
Proof. unfold get_rqt. by intros ->. Qed.
Lemma put_rq_Done s p v : 0 <= p < Z.of_nat (length (runqueues s)) →
  put_rq p v s = Done (tt, set_runqueues (<[Z.to_nat p := v]> (runqueues s)) s).
Proof. intros. unfold put_rq. by rewrite zset_is_Some. Qed.
Lemma put_rqt_Done s p v : 0 <= p < Z.of_nat (length (runqueues_tail s)) →
  put_rqt p v s = Done (tt, set_runqueues_tail (<[Z.to_nat p := v]> (runqueues_tail s)) s).
Proof. intros. unfold put_rqt. by rewrite zset_is_Some. Qed.

Lemma insert_idem_id {A} (l : list A) i x : zget l i = Some x → <[Z.to_nat i := x]> l = l.
Proof.
  intros H. apply list_insert_id. revert H. unfold zget. by case_decide.
Qed.

Lemma nxt_insert s m t x u :
  nxt (set_tasks (<[t := x]> m) s) u = if decide (u = t) then t_next x else from_option t_next 0 (m !! u).
Proof. unfold nxt. simpl. case_decide; subst; [by rewrite lookup_insert_eq|by rewrite lookup_insert_ne]. Qed.
Lemma prv_insert s m t x u :
  prv (set_tasks (<[t := x]> m) s) u = if decide (u = t) then t_prev x else from_option t_prev 0 (m !! u).
Proof. unfold prv. simpl. case_decide; subst; [by rewrite lookup_insert_eq|by rewrite lookup_insert_ne]. Qed.

(** The task store after [t] is linked behind [tl] (0: no predecessor). *)
Definition link_back (m : gmap Z task) (t : Z) (x : task) (tl : Z) : gmap Z task :=
  let m1 := <[t := set_t_prev tl (set_t_next 0 x)]> m in
  match m !! tl with
  | Some y => if decide (tl = 0) then m1 else <[tl := set_t_next t y]> m1
  | None => m1
  end.

Lemma sched_enqueue_run s Q t x :
  sched_ok s Q → tasks s !! t = Some x → 0 <= t_priority x < COUNT → t ≠ 0 →
  t ∉ Q (t_priority x) →
  let p := t_priority x in
  sched_enqueue_task t s = Done (tt,
    set_active_priorities (Z.lor (active_priorities s) (Z.shiftl 1 p))
      (set_runqueues_tail (<[Z.to_nat p := t]> (runqueues_tail s))
        (set_runqueues (<[Z.to_nat p := hdZ t (Q p)]> (runqueues s))
          (set_tasks (link_back (tasks s) t x (lastZ 0 (Q p))) s)))).
Proof.
  intros Hs Hx Hp Ht0 Hnew p.
  destruct (so_queue _ _ Hs p Hp) as (h & tl & Hh & Htl & Hd).
  pose proof (so_len _ _ Hs). pose proof (so_len_tail _ _ Hs). unfold COUNT in *.
  unfold sched_enqueue_task. mstep (get_task_Done _ _ _ Hx). fold p.
  mstep (mod_task_Done _ _ _ (set_t_next 0) Hx).
  mstep (mod_task_Done (set_tasks (<[t := set_t_next 0 x]> (tasks s)) s) t (set_t_next 0 x)
    (set_t_prev 0) (lookup_insert_eq _ _ _)).
  simpl. rewrite insert_insert_eq. mstep (get_rq_Done (set_tasks (<[t := set_t_prev 0 (set_t_next 0 x)]> (tasks s)) s) p h Hh).
  destruct (Z.eqb_spec h 0) as [Hh0|Hh0].
  - apply (dlist_empty _ _ _ _ _ Hd) in Hh0. fold p in Hh0. rewrite Hh0 in *. simpl.
    unfold bind at 1. unfold bind at 1. rewrite put_rq_Done by (simpl; lia).
    rewrite put_rqt_Done by (simpl; lia). unfold modify. simpl. do 2 f_equal.
    unfold link_back. destruct (tasks s !! 0); done.
  - assert (Q p ≠ []) as Hne by (intros Hq; apply Hh0; by apply (dlist_empty _ _ _ _ _ Hd)).
    assert (tl ∈ Q p) as Htlin by (rewrite (dl_tail _ _ _ _ _ Hd); by apply lastZ_elem).
    assert (tl ≠ t) as Htlt by (intros ->; done).
    assert (tl ≠ 0) as Htl0 by (by eapply so_nonnull).
    destruct (so_prio _ _ Hs p tl Hp Htlin) as (y & Hy & _).
    unfold bind at 1. mstep (get_rqt_Done (set_tasks (<[t := set_t_prev 0 (set_t_next 0 x)]> (tasks s)) s) p tl Htl).
    mstep (mod_task_Done (set_tasks (<[t := set_t_prev 0 (set_t_next 0 x)]> (tasks s)) s) t
      (set_t_prev 0 (set_t_next 0 x)) (set_t_prev tl) (lookup_insert_eq _ _ _)).
    simpl. rewrite insert_insert_eq. unfold bind at 1. erewrite mod_task_Done by
      (simpl; rewrite lookup_insert_ne by done; exact Hy). simpl.
    rewrite put_rqt_Done by (simpl; lia). unfold modify. simpl. do 2 f_equal.
    unfold link_back. rewrite <- (dl_tail _ _ _ _ _ Hd), Hy, decide_False by done.
    unfold set_runqueues_tail, set_runqueues, set_tasks; simpl. f_equal. f_equal.
    rewrite insert_idem_id; [done|]. rewrite Hh, (dl_head _ _ _ _ _ Hd). by destruct (Q p).
Qed.

Lemma link_back_lookup m t x tl u :
  tl ≠ t →
  link_back m t x tl !! u =
    if decide (u = t) then Some (set_t_prev tl (set_t_next 0 x))
    else if decide (u = tl ∧ tl ≠ 0) then set_t_next t <$> m !! u else m !! u.
Proof.
  intros Hne. unfold link_back. destruct (decide (u = t)) as [->|Hut].
  { destruct (m !! tl) as [y|]; [|by rewrite lookup_insert_eq].
    destruct (decide (tl = 0)); [by rewrite lookup_insert_eq|].
    by rewrite lookup_insert_ne, lookup_insert_eq. }
  destruct (decide (u = tl ∧ tl ≠ 0)) as [[-> H0]|Hu].
  - destruct (m !! tl) as [y|] eqn:Hy; simpl.
    + rewrite decide_False by done. by rewrite lookup_insert_eq.
    + by rewrite lookup_insert_ne, Hy by done.
  - destruct (m !! tl) as [y|] eqn:Hy; [|by rewrite lookup_insert_ne].
    destruct (decide (tl = 0)); [by rewrite lookup_insert_ne|].
    rewrite !lookup_insert_ne; naive_solver.
Qed.

(** [sched_enqueue_task] appends to the queue of the task's priority. *)
Lemma sched_enqueue_ok s Q t x :
  sched_ok s Q → tasks s !! t = Some x → 0 <= t_priority x < COUNT → t ≠ 0 →
  t ∉ Q (t_priority x) →
  ∃ s', sched_enqueue_task t s = Done (tt, s') ∧ same_rest s s' ∧
    sched_ok s' (qset Q (t_priority x) (Q (t_priority x) ++ [t])).
Proof.
  intros Hs Hx Hp Ht0 Hnew. eexists. split; [by apply (sched_enqueue_run s Q t x)|].
  set (p := t_priority x) in *. set (tl := lastZ 0 (Q p)).
  destruct (so_queue _ _ Hs p Hp) as (h & tl' & Hh & Htl & Hd).
  assert (tl' = tl) as -> by (apply (dl_tail _ _ _ _ _ Hd)).
  assert (tl ≠ t) as Htlt.
  { intros <-. destruct (Q p) eqn:HQ; [done|]. apply Hnew. by apply lastZ_elem. }
  set (s' := set_active_priorities _ _).
  assert (same_rest s s') as Hr.
  { split; try done. intros u. subst s'. simpl. rewrite link_back_lookup by done.
    repeat case_decide; subst; [by rewrite Hx| |done]. by destruct (tasks s !! u). }
  split; [done|].
  eapply (sched_ok_update s s' Q p _ (hdZ t (Q p)) t); try done.
  - replace (hdZ t (Q p)) with (hdZ 0 (Q p ++ [t])) by (by destruct (Q p)).
    eapply dlist_push_back; [done..| | |].
    + intros u Hu. subst s'. unfold nxt, prv. simpl.
      assert (u ≠ t) as Hut by (by intros ->).
      assert (u ≠ 0) by (by eapply so_nonnull).
      destruct (so_prio _ _ Hs p u Hp Hu) as (y & Hy & _).
      rewrite link_back_lookup, decide_False, Hy by done. fold tl.
      destruct (decide (u = tl)) as [->|]; [by rewrite decide_True by done|].
      by rewrite decide_False by naive_solver.
    + subst s'. unfold nxt. simpl. by rewrite link_back_lookup, decide_True by done.
    + subst s'. unfold prv. simpl. by rewrite link_back_lookup, decide_True by done.
  - intros u [Hu|Hu]%elem_of_app; [by apply (so_prio _ _ Hs)|].
    apply list_elem_of_singleton in Hu as ->. eauto.
  - intros q u Hq Hne Hu. subst s'. simpl. rewrite link_back_lookup by done.
    rewrite decide_False, decide_False; [done| |].
    + intros [-> H0]. destruct (decide (Q p = [])) as [He|He]; [subst tl; by rewrite He in H0|].
      apply Hne. by apply (so_disjoint s Q q p tl Hs); [..|apply lastZ_elem].
    + intros ->. destruct (so_prio _ _ Hs q t Hq Hu) as (y & Hy & Hyp).
      rewrite Hx in Hy. injection Hy as <-. done.
  - subst s'. simpl. apply Z.lor_nonneg. split; [apply (so_range _ _ Hs)|].
    apply Z.shiftl_nonneg. lia.
  - intros q Hq. subst s'. simpl. rewrite Z.lor_spec, testbit_shift1 by lia.
    case_decide; subst.
    + rewrite bool_decide_true, orb_true_r by done. symmetry. apply bool_decide_true. by destruct (Q p).
    + by rewrite bool_decide_false, orb_false_r by congruence.
Qed.

(** The two halves of [sched_dequeue_task] on a queued task. *)
Lemma dequeue_unlink_front s p l1 t x :
  0 <= p < Z.of_nat (length (runqueues s)) → zget (runqueues s) p = Some (hdZ t l1) →
  t_prev x = lastZ 0 l1 → 0 ∉ l1 → (l1 ≠ [] → is_Some (tasks s !! lastZ 0 l1)) →
  ∃ m, (if negb (t_prev x =? 0) then mod_task (t_prev x) (set_t_next (t_next x))
     else bind (get_rq p) (λ h, if h =? t then put_rq p (t_next x) else ret tt)) s =
   Done (tt, set_runqueues (<[Z.to_nat p := hdZ (t_next x) l1]> (runqueues s)) (set_tasks m s)) ∧
   ∀ u, m !! u = if decide (u = lastZ 0 l1 ∧ l1 ≠ []) then set_t_next (t_next x) <$> tasks s !! u
                 else tasks s !! u.
Proof.
  intros Hp Hrq Hprev H0 Hsome. rewrite Hprev.
  destruct (Z.eqb_spec (lastZ 0 l1) 0) as [He|He]; simpl.
  - apply (lastZ_zero_iff l1) in He; [|done]. subst l1. simpl in *.
    exists (tasks s). split.
    + mstep (get_rq_Done _ _ _ Hrq). rewrite Z.eqb_refl, put_rq_Done by done. by destruct s.
    + intros u. by rewrite decide_False by naive_solver.
  - assert (l1 ≠ []) as Hne by (by intros ->). destruct (Hsome Hne) as [y Hy].
    exists (<[lastZ 0 l1 := set_t_next (t_next x) y]> (tasks s)). split.
    + rewrite (mod_task_Done _ _ _ _ Hy). do 2 f_equal.
      replace (hdZ (t_next x) l1) with (hdZ t l1) by (by destruct l1).
      rewrite insert_idem_id by done. by destruct s.
    + intros u. case_decide as Hu.
      * destruct Hu as [-> _]. by rewrite lookup_insert_eq, Hy.
      * rewrite lookup_insert_ne; [done|]. intros <-. by apply Hu.
Qed.

Lemma dequeue_unlink_back s p l2 t x :
  0 <= p < Z.of_nat (length (runqueues_tail s)) →
  zget (runqueues_tail s) p = Some (lastZ t l2) →
  t_next x = hdZ 0 l2 → 0 ∉ l2 → (l2 ≠ [] → is_Some (tasks s !! hdZ 0 l2)) →
  ∃ m, (if negb (t_next x =? 0) then mod_task (t_next x) (set_t_prev (t_prev x))
     else bind (get_rqt p) (λ h, if h =? t then put_rqt p (t_prev x) else ret tt)) s =
   Done (tt, set_runqueues_tail (<[Z.to_nat p := lastZ (t_prev x) l2]> (runqueues_tail s)) (set_tasks m s)) ∧
   ∀ u, m !! u = if decide (u = hdZ 0 l2 ∧ l2 ≠ []) then set_t_prev (t_prev x) <$> tasks s !! u
                 else tasks s !! u.
Proof.
  intros Hp Hrq Hnext H0 Hsome. rewrite Hnext.
  destruct (Z.eqb_spec (hdZ 0 l2) 0) as [He|He]; simpl.
  - apply (hdZ_zero_iff l2) in He; [|done]. subst l2. simpl in *.
    exists (tasks s). split.
    + mstep (get_rqt_Done _ _ _ Hrq). rewrite Z.eqb_refl, put_rqt_Done by done. by destruct s.
    + intros u. by rewrite decide_False by naive_solver.
  - assert (l2 ≠ []) as Hne by (by intros ->). destruct (Hsome Hne) as [y Hy].
    exists (<[hdZ 0 l2 := set_t_prev (t_prev x) y]> (tasks s)). split.
    + rewrite (mod_task_Done _ _ _ _ Hy). do 2 f_equal.
      replace (lastZ (t_prev x) l2) with (lastZ t l2) by (by destruct l2).
      rewrite insert_idem_id by done. by destruct s.
    + intros u. case_decide as Hu.
      * destruct Hu as [-> _]. by rewrite lookup_insert_eq, Hy.
      * rewrite lookup_insert_ne; [done|]. intros <-. by apply Hu.
Qed.

(** The task store after [t], between [l1] and [l2], was unlinked. *)
Definition unlinked (m m' : gmap Z task) (t : Z) (x : task) (l1 l2 : list Z) : Prop :=
  ∀ u, m' !! u =
    if decide (u = t) then Some (set_t_prev 0 (set_t_next 0 x))
    else if decide (u = hdZ 0 l2 ∧ l2 ≠ []) then set_t_prev (lastZ 0 l1) <$> m !! u
    else if decide (u = lastZ 0 l1 ∧ l1 ≠ []) then set_t_next (hdZ 0 l2) <$> m !! u
    else m !! u.

Lemma sched_dequeue_run s Q t x l1 l2 :
  sched_ok s Q → tasks s !! t = Some x → 0 <= t_priority x < COUNT →
  let p := t_priority x in
  Q p = l1 ++ t :: l2 →
  ∃ m, unlinked (tasks s) m t x l1 l2 ∧
  sched_dequeue_task t s = Done (tt,
    set_active_priorities
      (if hdZ 0 (l1 ++ l2) =? 0 then andnot (active_priorities s) (Z.shiftl 1 p)
       else active_priorities s)
      (set_runqueues_tail (<[Z.to_nat p := lastZ 0 (l1 ++ l2)]> (runqueues_tail s))
        (set_runqueues (<[Z.to_nat p := hdZ 0 (l1 ++ l2)]> (runqueues s))
          (set_tasks m s)))).
Proof.
  intros Hs Hx Hp p HQ.
  destruct (so_queue _ _ Hs p Hp) as (h & tl & Hh & Htl & Hd). rewrite HQ in Hd.
  pose proof (so_len _ _ Hs) as Hl. pose proof (so_len_tail _ _ Hs) as Hlt.
  destruct (dlist_split _ _ _ _ _ _ _ Hd) as [Hpv Hnx]. destruct Hd as [_ -> -> Hnd H0].
  unfold prv in Hpv. unfold nxt in Hnx. rewrite Hx in Hpv, Hnx. simpl in Hpv, Hnx.
  apply NoDup_app in Hnd as (_ & Hdj & [Ht2 _]%NoDup_cons).
  rewrite hdZ_app in Hh. rewrite lastZ_app in Htl. simpl in Hh, Htl.
  assert (Hmem : ∀ u, u ∈ l1 ∨ u ∈ l2 → is_Some (tasks s !! u)).
  { intros u Hu. destruct (so_prio _ _ Hs p u Hp) as (y & Hy & _); [|eauto].
    rewrite HQ. apply elem_of_app. destruct Hu; [by left|right; by right]. }
  assert (Hr : 0 <= p < 5) by done.
  unfold sched_dequeue_task. mstep (get_task_Done _ _ _ Hx). fold p.
  destruct (dequeue_unlink_front s p l1 t x) as (m1 & Hrun1 & Hm1); [lia|done|done| | |].
  { intros ?. apply H0, elem_of_app. by left. } { intros. apply Hmem. left. by apply lastZ_elem. }
  mstep Hrun1.
  assert (m1 !! t = Some x) as Hx1.
  { rewrite Hm1, decide_False; [done|]. intros [-> Hne]. apply (Hdj (lastZ 0 l1)); [by apply lastZ_elem|by left]. }
  set (s1 := set_runqueues _ _). mstep (get_task_Done s1 t x Hx1).
  destruct (dequeue_unlink_back s1 p l2 t x) as (m2 & Hrun2 & Hm2); [simpl; lia| |done| | |].
  { simpl. by rewrite Htl. } { intros ?. apply H0, elem_of_app. right. by right. }
  { intros Hne. destruct (Hmem (hdZ 0 l2)) as [y Hy]; [right; by apply hdZ_elem|].
    simpl. rewrite Hm1, Hy. case_decide; eauto. }
  mstep Hrun2. simpl in Hm2.
  assert (m2 !! t = Some x) as Hx2.
  { rewrite Hm2, decide_False; [done|]. intros [-> Hne]. apply Ht2. by apply hdZ_elem. }
  set (s2 := set_runqueues_tail _ _).
  mstep (mod_task_Done s2 t x (set_t_next 0) Hx2).
  mstep (mod_task_Done (set_tasks (<[t := set_t_next 0 x]> (tasks s2)) s2) t _ (set_t_prev 0)
          (lookup_insert_eq _ _ _)).
  simpl. rewrite insert_insert_eq. set (s3 := set_tasks _ _).
  assert (zget (runqueues s3) p = Some (hdZ 0 (l1 ++ l2))) as Hh3.
  { simpl. rewrite zget_insert, decide_True by lia. by rewrite Hnx, hdZ_app. }
  mstep (get_rq_Done s3 p _ Hh3).
  exists (<[t:=set_t_prev 0 (set_t_next 0 x)]> m2). split.
  - intros u. case_decide; subst; [by rewrite lookup_insert_eq|].
    rewrite lookup_insert_ne by done. rewrite Hm2, Hm1, Hpv, Hnx.
    destruct (decide (u = hdZ 0 l2 ∧ l2 ≠ [])) as [[-> Hne2]|]; [|done].
    rewrite decide_False; [done|]. intros [He Hne1]. apply (Hdj (lastZ 0 l1)); [by apply lastZ_elem|].
    rewrite <- He. right. by apply hdZ_elem.
  - rewrite hdZ_app, lastZ_app, <- Hnx, <- Hpv. subst s3 s2 s1. unfold modify, ret.
    clear. destruct (hdZ (t_next x) l1 =? 0); reflexivity.
Qed.

(** [sched_dequeue_task] removes a queued task. *)
Lemma sched_dequeue_ok s Q t x l1 l2 :
  sched_ok s Q → tasks s !! t = Some x → 0 <= t_priority x < COUNT →
  Q (t_priority x) = l1 ++ t :: l2 →
  ∃ s', sched_dequeue_task t s = Done (tt, s') ∧ same_rest s s' ∧
    sched_ok s' (qset Q (t_priority x) (l1 ++ l2)) ∧
    tasks s' !! t = Some (set_t_prev 0 (set_t_next 0 x)).
Proof.
  intros Hs Hx Hp HQ. destruct (sched_dequeue_run s Q t x l1 l2) as (m & Hm & Hrun); [done..|].
  eexists. split; [exact Hrun|]. clear Hrun. set (p := t_priority x) in *.
  set (s' := set_active_priorities _ _).
  destruct (so_queue _ _ Hs p Hp) as (h & tl & Hh & Htl & Hd). rewrite HQ in Hd.
  pose proof (dl_nodup _ _ _ _ _ Hd) as Hnd. pose proof (dl_nonnull _ _ _ _ _ Hd) as H0.
  apply NoDup_app in Hnd as (_ & Hdj & [Ht2 _]%NoDup_cons).
  assert (Ht1 : t ∉ l1) by (intros ?; apply (Hdj t); [done|by left]).
  assert (Hsub : ∀ u, u ∈ l1 ++ l2 → u ∈ Q p ∧ u ≠ t).
  { intros u Hu. rewrite HQ, !elem_of_app in *. rewrite elem_of_cons.
    split; [naive_solver|]. intros ->. naive_solver. }
  assert (0 ∉ l1 ++ l2) as H0'.
  { intros Hu. apply H0. rewrite <- HQ. by apply Hsub. }
  assert (same_rest s s') as Hr.
  { split; try done. intros u. subst s'. simpl. rewrite Hm.
    repeat case_decide; subst; [by rewrite Hx| | |done]; by destruct (tasks s !! u). }
  split; [done|]. split; [|subst s'; simpl; by rewrite Hm, decide_True].
  eapply (sched_ok_update s s' Q p _ (hdZ 0 (l1 ++ l2)) (lastZ 0 (l1 ++ l2))); try done.
  - eapply dlist_remove; [done|]. intros u Hu. destruct (Hsub u Hu) as [HuQ Hut].
    destruct (so_prio _ _ Hs p u Hp HuQ) as (y & Hy & _).
    assert (u ≠ 0) by (by eapply so_nonnull).
    unfold nxt, prv, s'. simpl. rewrite Hm, decide_False, Hy by done.
    destruct (decide (u = hdZ 0 l2)) as [->|Hu2].
    + assert (l2 ≠ []) as Hne2 by (by intros ->). rewrite decide_True by done.
      rewrite decide_False; [done|]. intros He.
      assert (l1 ≠ []) as Hne1 by (intros ->; simpl in He; congruence).
      apply (Hdj (lastZ 0 l1)); [by apply lastZ_elem|]. rewrite <- He. right. by apply hdZ_elem.
    + rewrite decide_False by naive_solver. destruct (decide (u = lastZ 0 l1)) as [->|].
      * rewrite decide_True; [done|]. split; [done|]. by intros ->.
      * by rewrite decide_False by naive_solver.
  - intros u Hu. apply (so_prio _ _ Hs); [done|]. by apply Hsub.
  - intros q u Hq Hne Hu. subst s'. simpl. rewrite Hm.
    assert (∀ v, v ∈ Q p → u ≠ v) as Hdiff.
    { intros v Hv ->. by apply Hne, (so_disjoint s Q q p v). }
    rewrite HQ in Hdiff. setoid_rewrite elem_of_app in Hdiff. setoid_rewrite elem_of_cons in Hdiff.
    rewrite !decide_False; [done|..].
    + intros [-> ?]. eapply Hdiff; [left; by apply lastZ_elem|done].
    + intros [-> ?]. eapply Hdiff; [right; right; by apply hdZ_elem|done].
    + intros ->. eapply Hdiff; [right; by left|done].
  - subst s'. simpl. pose proof (so_range _ _ Hs). case_match; [|lia].
    unfold andnot. apply Z.land_nonneg. left. lia.
  - intros q Hq. subst s'. simpl.
    destruct (Z.eqb_spec (hdZ 0 (l1 ++ l2)) 0) as [He|He].
    + apply hdZ_zero_iff in He; [|done]. unfold andnot.
      rewrite Z.land_spec, Z.lnot_spec, testbit_shift1 by lia.
      case_decide; subst.
      * by rewrite bool_decide_true, andb_false_r, He by done.
      * by rewrite bool_decide_false, andb_true_r by congruence.
    + case_decide; [|done]. subst q. rewrite bool_decide_true.
      * apply (so_active _ _ Hs); [done|]. rewrite HQ. by destruct l1.
      * intros Hn. by rewrite Hn in He.
Qed.

(** The invariant reads only the links and the priority of queued tasks. *)
Lemma sched_ok_frame s s' Q :
  sched_ok s Q →
  runqueues s' = runqueues s → runqueues_tail s' = runqueues_tail s →
  active_priorities s' = active_priorities s →
  (∀ p t x, 0 <= p < COUNT → t ∈ Q p → tasks s !! t = Some x → ∃ x', tasks s' !! t = Some x' ∧
     t_next x' = t_next x ∧ t_prev x' = t_prev x ∧ t_priority x' = t_priority x) →
  sched_ok s' Q.
Proof.
  intros Hs Hr Ht Ha Hx. split.
  - rewrite Hr. apply (so_len _ _ Hs).
  - rewrite Ht. apply (so_len_tail _ _ Hs).
  - intros p Hp. rewrite Hr, Ht. destruct (so_queue _ _ Hs p Hp) as (h & t & ? & ? & Hd).
    exists h, t. split_and!; [done..|]. eapply dlist_ext; [|done]. intros u Hu.
    destruct (so_prio _ _ Hs p u Hp Hu) as (x & Hux & _).
    destruct (Hx p u x Hp Hu Hux) as (x' & Hx' & ? & ? & _). unfold nxt, prv. by rewrite Hux, Hx'.
  - intros p t Hp Hu. destruct (so_prio _ _ Hs p t Hp Hu) as (x & Hux & Hxp).
    destruct (Hx p t x Hp Hu Hux) as (x' & Hx' & _ & _ & ?). exists x'. split; [done|]. congruence.
  - intros p Hp. rewrite Ha. by apply (so_active _ _ Hs).
  - rewrite Ha. apply (so_range _ _ Hs).
Qed.

Lemma sched_ok_ext s Q Q' : (∀ p, 0 <= p < COUNT → Q' p = Q p) → sched_ok s Q → sched_ok s Q'.
Proof.
  intros HQ Hs. split; try apply Hs.
  - intros p Hp. rewrite HQ by done. by apply (so_queue _ _ Hs).
  - intros p t Hp. rewrite HQ by done. by apply (so_prio _ _ Hs).
  - intros p Hp. rewrite HQ by done. by apply (so_active _ _ Hs).
Qed.

Definition rotate (l : list Z) : list Z :=
  match l with
  | [] => []
  | x :: l' => l' ++ [x]
  end.

(** [rotate_queue] moves the head of its level to the tail. *)
Lemma rotate_queue_ok s Q p :
  sched_ok s Q → 0 <= p < COUNT →
  ∃ s', rotate_queue p s = Done (tt, s') ∧ same_rest s s' ∧ sched_ok s' (qset Q p (rotate (Q p))).
Proof.
  intros Hs Hp. destruct (so_queue _ _ Hs p Hp) as (h & tl & Hh & _ & Hd).
  unfold rotate_queue. mstep (get_rq_Done _ _ _ Hh). pose proof (dl_head _ _ _ _ _ Hd) as Hhd.
  assert (Hsame : rotate (Q p) = Q p → sched_ok s (qset Q p (rotate (Q p)))).
  { intros ->. apply (sched_ok_ext s Q); [|done]. intros q _. unfold qset.
    case_decide; by subst. }
  destruct (Z.eqb_spec h 0) as [Hh0|Hh0].
  { apply (dlist_empty _ _ _ _ _ Hd) in Hh0. exists s. split_and!; [done..|].
    apply Hsame. by rewrite Hh0. }
  destruct (Q p) as [|h' l] eqn:HQ; [done|]. simpl in Hhd. subst h'.
  destruct (so_prio _ _ Hs p h Hp) as (x & Hx & Hxp); [rewrite HQ; by left|].
  mstep (get_task_Done _ _ _ Hx).
  destruct (dlist_split _ _ _ _ [] h l Hd) as [_ Hn]. unfold nxt in Hn. rewrite Hx in Hn.
  simpl in Hn. rewrite Hn. apply (dl_nonnull _ _ _ _ _) in Hd as H0.
  assert (0 ∉ l) by (intros ?; apply H0; by right).
  destruct (Z.eqb_spec (hdZ 0 l) 0) as [He|He].
  { apply hdZ_zero_iff in He; [|done]. subst l. exists s. split_and!; [done..|]. by apply Hsame. }
  subst p. destruct (sched_dequeue_ok s Q h x [] l) as (s1 & Hrun1 & Hr1 & Hs1 & Hx1); [done..|].
  mstep Hrun1.
  destruct (sched_enqueue_ok s1 (qset Q (t_priority x) l) h _ Hs1 Hx1) as (s2 & Hrun2 & Hr2 & Hs2);
    [done|done| |].
  { simpl. unfold qset. rewrite decide_True by done. apply (dl_nodup _ _ _ _ _) in Hd as Hnd.
    by apply NoDup_cons in Hnd as [? _]. }
  exists s2. rewrite Hrun2. split_and!; [done|by transitivity s1|].
  eapply sched_ok_ext, Hs2. intros q _. unfold qset. simpl. repeat case_decide; by subst.
Qed.

(** [p] is the highest level with a queued task. *)
Definition highest (Q : Z → list Z) (p : Z) : Prop :=
  0 <= p < COUNT ∧ Q p ≠ [] ∧ ∀ q, p < q < COUNT → Q q = [].

Lemma highest_bit_spec s Q :
  sched_ok s Q → active_priorities s ≠ 0 → highest Q (highest_bit (active_priorities s)).
Proof.
  intros Hs Ha. pose proof (so_range _ _ Hs) as Hr. unfold highest_bit.
  assert (0 <= Z.log2 (active_priorities s) < COUNT) as Hl.
  { split; [apply Z.log2_nonneg|]. apply Z.log2_lt_pow2; lia. }
  split; [done|]. split.
  - apply (so_active _ _ Hs); [done|]. apply Z.bit_log2. lia.
  - intros q Hq. destruct (decide (Q q = [])) as [|Hne]; [done|].
    apply (so_active _ _ Hs) in Hne; [|lia]. rewrite Z.bits_above_log2 in Hne; [done|lia|lia].
Qed.

(** The queues after the round-robin step of [schedule]. *)
Definition rr (Q : Z → list Z) (o : option task) : Z → list Z :=
  match o with
  | Some x => if decide (t_state x = TASK_RUNNING) then qset Q (t_priority x) (rotate (Q (t_priority x)))
              else Q
  | None => Q
  end.

Lemma sched_ok_lock s Q v : sched_ok (set_sched_lock v s) Q ↔ sched_ok s Q.
Proof.
  split; intros Hs; apply (sched_ok_frame _ _ _ Hs); try done; intros; eexists; split_and!; done.
Qed.

Lemma rr_idle Q o : Q IDLE ≠ [] → rr Q o IDLE ≠ [].
Proof.
  intros H. destruct o as [x|]; [|done]. simpl. case_decide; [|done]. unfold qset.
  case_decide as He; [|done]. rewrite <- He. destruct (Q IDLE) as [|a l]; [done|]. simpl. by destruct l.
Qed.

(** The choice made by [schedule] on the queues [Q]. *)
Lemma pick_next s Q :
  sched_ok s Q → Q IDLE ≠ [] →
  ∃ p n l, highest Q p ∧ Q p = n :: l ∧ n ≠ 0 ∧
    bind (if active_priorities s =? 0 then get_rq IDLE
          else let hp := highest_bit (active_priorities s) in
               get_rq (if COUNT <=? hp then COUNT - 1 else hp))
         (λ next, if next =? 0 then get_rq IDLE else ret next) s = Done (n, s).
Proof.
  intros Hs Hidle. assert (active_priorities s ≠ 0) as Ha.
  { intros Ha. apply (so_active _ _ Hs) in Hidle; [|done]. by rewrite Ha in Hidle. }
  pose proof (highest_bit_spec _ _ Hs Ha) as Hh. set (hp := highest_bit _) in *.
  destruct Hh as (Hr & Hne & Hmax). destruct (Q hp) as [|n l] eqn:HQ; [done|].
  destruct (so_queue _ _ Hs hp Hr) as (h & tl & Hrq & _ & Hd). rewrite HQ in Hd.
  pose proof (dl_head _ _ _ _ _ Hd) as Hhd. simpl in Hhd. subst h.
  assert (n ≠ 0) as Hn by (apply (so_nonnull s Q hp); [done..|rewrite HQ; by left]).
  exists hp, n, l. split_and!; [split; [done|split; [by rewrite HQ|done]]|done|done|].
  rewrite (proj2 (Z.eqb_neq _ _)) by done. cbv zeta.
  rewrite (proj2 (Z.leb_gt _ _)) by lia. mstep (get_rq_Done _ _ _ Hrq).
  by rewrite (proj2 (Z.eqb_neq _ _)).
Qed.

(** What a switch leaves alone: everything but the links, the state of the
    chosen task, the current task and the lock. *)
Definition task_frozen (x : task) : task := set_t_state TASK_READY (task_core x).
Record switched (s s' : sched) : Prop := mk_switched {
  sw_tasks : ∀ t, task_frozen <$> tasks s' !! t = task_frozen <$> tasks s !! t;
  sw_state : ∀ t, t ≠ current_task s' →
    task_core <$> tasks s' !! t = task_core <$> tasks s !! t;
  sw_procs : procs s' = procs s;
  sw_waitq : wait_queues s' = wait_queues s;
  sw_sleep : sleep_queue s' = sleep_queue s;
  sw_hash : pid_hash s' = pid_hash s;
  sw_tid : tid_counter s' = tid_counter s;
  sw_jiffies : jiffies s' = jiffies s;
}.

Lemma same_rest_switched s s' : same_rest s s' → switched s s'.
Proof.
  intros []. split; try done. intros t. pose proof (sr_tasks0 t) as H.
  destruct (tasks s !! t), (tasks s' !! t); try done.
  change (Some (task_core t1) = Some (task_core t0)) in H. unfold task_frozen.
  change (Some (set_t_state TASK_READY (task_core t1)) = Some (set_t_state TASK_READY (task_core t0))).
  congruence.
Qed.

Lemma schedule_ok s Q :
  sched_ok s Q → sched_lock s = false → Q IDLE ≠ [] →
  (current_task s ≠ 0 → ∃ x, tasks s !! current_task s = Some x ∧ 0 <= t_priority x < COUNT) →
  let Q' := rr Q (if decide (current_task s = 0) then None else tasks s !! current_task s) in
  ∃ s' p n l y, schedule s = Done (tt, s') ∧ sched_ok s' Q' ∧ sched_lock s' = false ∧
    highest Q' p ∧ Q' p = n :: l ∧ current_task s' = n ∧
    tasks s' !! n = Some y ∧ (n ≠ current_task s → t_state y ≠ TASK_READY) ∧ switched s s'.
Proof.
  intros Hs Hlock Hidle Hcur Q'. unfold schedule, sched_acquire.
  unfold bind at 1, spin_acquire at 1. rewrite Hlock. set (s0 := set_sched_lock true s).
  assert (sched_ok s0 Q) as Hs0 by (by apply sched_ok_lock).
  unfold bind at 1, gets at 1. change (current_task s0) with (current_task s).
  set (prev := current_task s) in *.
  assert (∃ s1, (if prev =? 0 then ret tt else bind (get_task prev) (λ x,
      if decide (t_state x = TASK_RUNNING) then rotate_queue (t_priority x) else ret tt)) s0
      = Done (tt, s1) ∧ same_rest s0 s1 ∧ sched_ok s1 Q') as (s1 & Hrun & Hr & Hs1).
  { subst Q'. destruct (Z.eqb_spec prev 0) as [He|He].
    - rewrite decide_True by done. by exists s0.
    - rewrite decide_False by done. destruct (Hcur He) as (x & Hx & Hxp).
      mstep (get_task_Done s0 _ _ Hx). rewrite Hx. simpl. case_decide; [|by exists s0].
      by apply rotate_queue_ok. }
  mstep Hrun. unfold bind at 1, gets at 1.
  destruct (pick_next s1 Q' Hs1 (rr_idle _ _ Hidle)) as (p & n & l & Hh & HQ & Hn & Hpick).
  apply bind_inv in Hpick as (n0 & s2 & Hp1 & Hp2).
  mstep Hp1. mstep Hp2.
  assert (current_task s1 = prev) as Hc1 by (by rewrite (sr_current _ _ Hr)).
  destruct (so_prio _ _ Hs1 p n) as (y & Hy & Hyp); [apply Hh|rewrite HQ; by left|].
  destruct (Z.eqb_spec n prev) as [He|He].
  - exists (set_sched_lock false s1), p, n, l, y. mret. unfold sched_release, spin_release, modify.
    apply same_rest_switched in Hr as Hr0.
    split_and!; try done; [by apply sched_ok_lock|by rewrite He|by destruct Hr0].
  - apply same_rest_switched in Hr as Hr0. unfold bind at 1. unfold bind at 1, modify at 1.
    mstep (get_task_Done (set_current_task n s1) n y Hy).
    set (s3 := set_current_task n s1).
    assert (sched_ok s3 Q') as Hs3.
    { apply (sched_ok_frame s1 _ _ Hs1); try done. intros; eexists; split_and!; done. }
    destruct (decide (t_state y = TASK_READY)) as [Hy'|Hy'].
    + rewrite (mod_task_Done s3 n y _ Hy). unfold sched_release, spin_release, modify.
      eexists _, p, n, l, (set_t_state TASK_RUNNING y). split_and!; try done.
      * apply sched_ok_lock. apply (sched_ok_frame s3 _ _ Hs3); try done.
        intros q t x _ _ Hx. simpl. destruct (decide (t = n)) as [->|].
        -- rewrite lookup_insert_eq. eexists. split; [done|]. simpl in Hx. by simplify_eq.
        -- rewrite lookup_insert_ne by done. eauto.
      * simpl. by rewrite lookup_insert_eq.
      * destruct Hr0. split; try done.
        -- intros t. etrans; [|exact (sw_tasks0 t)]. simpl.
           destruct (decide (t = n)) as [->|]; [by rewrite lookup_insert_eq, Hy|].
           by rewrite lookup_insert_ne.
        -- intros t Ht. simpl in Ht |- *. rewrite lookup_insert_ne by done.
           apply (sr_tasks _ _ Hr).
    + unfold ret, sched_release, spin_release, modify.
      eexists _, p, n, l, y. split_and!; try done; [by apply sched_ok_lock|].
      destruct Hr0. split; try done. intros t _. apply (sr_tasks _ _ Hr).
Qed.

(** A task that is not RUNNING and heads the highest queue is not switched
    away from, nor moved. *)
Lemma schedule_stays s Q x p l : let c := current_task s in
  sched_ok s Q → sched_lock s = false → Q IDLE ≠ [] → c ≠ 0 → tasks s !! c = Some x → t_state x ≠ TASK_RUNNING →
  highest Q p → Q p = c :: l → schedule s = Done (tt, s).
Proof.
  intros c Hs Hlock Hidle Hc Hx Hst Hh HQ. unfold schedule, sched_acquire.
  unfold bind at 1, spin_acquire at 1. rewrite Hlock. set (s0 := set_sched_lock true s).
  assert (Hs0 : sched_ok s0 Q) by (by apply sched_ok_lock).
  unfold bind at 1, gets at 1. change (current_task s0) with c. rewrite (proj2 (Z.eqb_neq c 0)) by done.
  assert (Hrot : bind (get_task c) (λ x, if decide (t_state x = TASK_RUNNING) then rotate_queue (t_priority x) else ret tt) s0 = Done (tt, s0)).
  { mstep (get_task_Done s0 c x Hx). by rewrite decide_False. }
  mstep Hrot. unfold bind at 1, gets at 1. destruct (pick_next s0 Q Hs0 Hidle) as (p' & n & l' & Hh' & HQ' & Hn & Hpick).
  assert (p' = p) as ->.
  { destruct Hh as (Hp & Hne & Hmax), Hh' as (Hp' & Hne' & Hmax'). destruct (Z.lt_trichotomy p' p) as [H|[H|H]]; [|done|].
    - by rewrite Hmax' in Hne by lia.
    - by rewrite Hmax in Hne' by lia. }
  assert (n = c) as -> by congruence. apply bind_inv in Hpick as (n0 & s2 & Hp1 & Hp2). mstep Hp1. mstep Hp2.
  rewrite Z.eqb_refl. mret. unfold sched_release, spin_release, modify. subst s0. destruct s. simpl in *. by subst.
Qed.

(** C25: [schedule] terminates with its lock released and the run-queue
    invariant kept; the previous task's level was rotated if that task was
    still running, every other level is untouched, and the new current task is
    the first of the highest non-empty level; a task that was READY becomes
    RUNNING. *)
Theorem schedule_picks_highest s Q :
  sched_ok s Q → sched_lock s = false → Q IDLE ≠ [] →
  (current_task s ≠ 0 → ∃ x, tasks s !! current_task s = Some x ∧ 0 <= t_priority x < COUNT) →
  let Q' := rr Q (if decide (current_task s = 0) then None else tasks s !! current_task s) in
  ∃ s' p n l y, schedule s = Done (tt, s') ∧ sched_ok s' Q' ∧ sched_lock s' = false ∧
    highest Q' p ∧ Q' p = n :: l ∧ current_task s' = n ∧
    tasks s' !! n = Some y ∧ (n ≠ current_task s → t_state y ≠ TASK_READY) ∧ switched s s'.
Proof. apply schedule_ok. Qed.


(** C37: the run queues behave as lists: enqueuing appends to the list of the
    task's priority, dequeuing removes the task from it wherever it stands;
    both terminate, keep the invariant (links, heads, tails, priority bitmap)
    and change nothing but links. *)
Theorem run_queues_are_lists s Q t x :
  sched_ok s Q → tasks s !! t = Some x → 0 <= t_priority x < COUNT → t ≠ 0 →
  let p := t_priority x in
  (t ∉ Q p → ∃ s', sched_enqueue_task t s = Done (tt, s') ∧ same_rest s s' ∧
     sched_ok s' (qset Q p (Q p ++ [t]))) ∧
  (t ∈ Q p → ∃ s', sched_dequeue_task t s = Done (tt, s') ∧ same_rest s s' ∧
     sched_ok s' (qset Q p (filter (λ u, u ≠ t) (Q p))) ∧ nxt s' t = 0 ∧ prv s' t = 0).
Proof.
  intros Hs Hx Hp Ht p. split; [by apply sched_enqueue_ok|]. intros Hin.
  destruct (list_elem_of_split _ _ Hin) as (l1 & l2 & HQ).
  destruct (sched_dequeue_ok s Q t x l1 l2) as (s' & Hrun & Hr & Hs' & Hx'); [done..|].
  exists s'. split_and!; [done|done| |by unfold nxt; rewrite Hx'|by unfold prv; rewrite Hx'].
  fold p. rewrite HQ. destruct (so_queue _ _ Hs p Hp) as (h & tl & _ & _ & Hd).
  apply dl_nodup in Hd. rewrite HQ in Hd. by rewrite filter_ne_middle.
Qed.

(** ** Wait queues *)

Definition wlink (s : sched) (t : Z) : Z := from_option t_next_wait 0 (tasks s !! t).
(** The tasks asleep on the wait queue at address [q], the last to sleep first. *)
Definition waiting (s : sched) (q : Z) (ws : list Z) : Prop :=
  slist (wlink s) (default 0 (wait_queues s !! q)) ws.
(** A waiting task exists, has a valid priority and is not runnable. *)
Definition parked (s : sched) (Q : Z → list Z) (w : Z) : Prop :=
  w ≠ 0 ∧ ∃ x, tasks s !! w = Some x ∧ 0 <= t_priority x < COUNT ∧ w ∉ Q (t_priority x).

Lemma wlink_core s s' :
  (∀ t, task_frozen <$> tasks s' !! t = task_frozen <$> tasks s !! t) →
  ∀ t, wlink s' t = wlink s t.
Proof.
  intros H t. specialize (H t). unfold wlink. destruct (tasks s !! t), (tasks s' !! t); try done.
  change (Some (task_frozen t1) = Some (task_frozen t0)) in H. apply Some_inj in H.
  simpl. change (t_next_wait (task_frozen t1) = t_next_wait (task_frozen t0)). by rewrite H.
Qed.

Lemma waiting_switched s s' q ws : switched s s' → waiting s q ws → waiting s' q ws.
Proof.
  intros Hr Hw. unfold waiting. rewrite (sw_waitq _ _ Hr).
  eapply slist_ext; [|done]. intros t _. apply wlink_core, Hr.
Qed.

(** What waking task [w] from queue [q] leaves alone. *)
Record others_kept (q w : Z) (s s' : sched) : Prop := mk_others_kept {
  ok_tasks : ∀ t, t ≠ w → task_core <$> tasks s' !! t = task_core <$> tasks s !! t;
  ok_self : ∀ x, tasks s !! w = Some x → ∃ y, tasks s' !! w = Some y ∧ t_proc y = t_proc x ∧ t_priority y = t_priority x;
  ok_waitq : ∀ q', q' ≠ q → wait_queues s' !! q' = wait_queues s !! q';
  ok_procs : procs s' = procs s;
  ok_current : current_task s' = current_task s;
  ok_hash : pid_hash s' = pid_hash s;
}.

(** [wake_up] takes the task that went to sleep last off the wait queue,
    makes it READY and appends it to its run queue; on an empty wait queue it
    changes nothing.  It releases [sched_lock] on both paths. *)
Theorem wake_up_lifo s Q q ws :
  sched_ok s Q → sched_lock s = false → waiting s q ws → Forall (parked s Q) ws →
  match ws with
  | [] => wake_up q s = Done (tt, s)
  | w :: ws' => ∃ s' x, wake_up q s = Done (tt, s') ∧ waiting s' q ws' ∧
      sched_lock s' = false ∧ tasks s' !! w = Some x ∧ t_state x = TASK_READY ∧
      sched_ok s' (qset Q (t_priority x) (Q (t_priority x) ++ [w])) ∧ others_kept q w s s'
  end.
Proof.
  intros Hs Hlock Hw Hp. pose proof (sl_head _ _ _ Hw) as Hh.
  set (s0 := set_sched_lock true s).
  assert (wake_up q s = (if hdZ 0 ws =? 0 then sched_release
      else bind (get_task (hdZ 0 ws)) (λ x, bind (put_wq q (t_next_wait x)) (λ _,
        bind (mod_task (hdZ 0 ws) (set_t_next_wait 0)) (λ _,
        bind (mod_task (hdZ 0 ws) (set_t_state TASK_READY)) (λ _,
        bind (sched_enqueue_task (hdZ 0 ws)) (λ _, sched_release)))))) s0) as ->.
  { unfold wake_up, sched_acquire. unfold bind at 1, spin_acquire at 1. rewrite Hlock.
    rewrite <- Hh. done. }
  destruct ws as [|w ws]; simpl hdZ.
  { simpl. unfold sched_release, spin_release, modify. destruct s; simpl in *. by subst. }
  apply Forall_cons in Hp as [(Hw0 & x & Hx & Hxp & Hnew) Hp].
  rewrite (proj2 (Z.eqb_neq _ _)) by done.
  mstep (get_task_Done s0 w x Hx).
  unfold bind at 1, put_wq at 1, modify at 1.
  set (s1 := set_wait_queues _ _). mstep (mod_task_Done s1 w x (set_t_next_wait 0) Hx).
  set (s2 := set_tasks _ s1). mstep (mod_task_Done s2 w _ (set_t_state TASK_READY) (lookup_insert_eq _ _ _)).
  subst s2. simpl. rewrite insert_insert_eq. set (x' := set_t_state _ _).
  change (tasks s1) with (tasks s). set (s3 := set_tasks (<[w := x']> (tasks s)) s1).
  destruct (slist_tail _ _ _ _ Hw) as (Hw' & _ & Hnotin & _).
  assert (sched_ok s3 Q) as Hs3.
  { apply (sched_ok_frame s _ _ Hs); try done. intros p t y _ _ Hy. simpl.
    destruct (decide (t = w)) as [->|]; [rewrite lookup_insert_eq|rewrite lookup_insert_ne by done; eauto].
    exists x'. split; [done|]. by simplify_eq. }
  destruct (sched_enqueue_ok s3 Q w x') as (s4 & Hrun & Hr & Hs4); [done| |done|done|done|].
  { simpl. by rewrite lookup_insert_eq. }
  mstep Hrun. unfold sched_release, spin_release, modify.
  destruct (same_rest_task _ _ w x' Hr) as (y & Hy & Hcore); [simpl; by rewrite lookup_insert_eq|].
  apply task_core_fields in Hcore as (Hprio & Hst & _ & _ & Hproc & _).
  exists (set_sched_lock false s4), y. split_and!; try done.
  - apply (slist_ext (wlink s)).
    + intros t Ht. assert (t ≠ w) by (by intros ->). apply same_rest_switched in Hr as Hr0.
      change (wlink (set_sched_lock false s4) t) with (wlink s4 t).
      rewrite (wlink_core s3 s4 (sw_tasks _ _ Hr0)). unfold wlink. simpl. by rewrite lookup_insert_ne.
    + simpl. rewrite (sr_waitq _ _ Hr). simpl. rewrite lookup_insert_eq. simpl.
      replace (t_next_wait x) with (wlink s w) by (unfold wlink; by rewrite Hx). done.
  - rewrite sched_ok_lock, Hprio. done.
  - destruct Hr as [Hrt Hrp Hrw _ Hrc _ Hrh _ _]. split; try done.
    + intros t Ht. change (tasks (set_sched_lock false s4)) with (tasks s4). rewrite Hrt. simpl. by rewrite lookup_insert_ne.
    + intros z Hz. rewrite Hx in Hz. injection Hz as <-. by exists y.
    + intros q' Hq'. change (wait_queues (set_sched_lock false s4)) with (wait_queues s4). rewrite Hrw. simpl. by rewrite lookup_insert_ne.
Qed.

Lemma sleep_on_ok s Q q ws x :
  let c := current_task s in
  sched_ok s Q → sched_lock s = false → waiting s q ws → c ∉ ws →
  tasks s !! c = Some x → 0 <= t_priority x < COUNT → c ∈ Q (t_priority x) →
  let Q' := qset Q (t_priority x) (filter (λ u, u ≠ c) (Q (t_priority x))) in
  Q' IDLE ≠ [] →
  ∃ s' p n l y, sleep_on q (ret tt) s = Done (tt, s') ∧ sched_ok s' Q' ∧
    sched_lock s' = false ∧ waiting s' q (c :: ws) ∧
    highest Q' p ∧ Q' p = n :: l ∧ current_task s' = n ∧ n ≠ c ∧
    tasks s' !! c = Some y ∧ t_state y = TASK_BLOCKED.
Proof.
  intros c Hs Hlock Hw Hnew Hx Hxp Hin Q' Hidle. unfold sleep_on, sched_acquire.
  unfold bind at 1, spin_acquire at 1. rewrite Hlock. set (s0 := set_sched_lock true s).
  unfold bind at 1, gets at 1. change (current_task s0) with c.
  mstep (mod_task_Done s0 c x (set_t_state TASK_BLOCKED) Hx). set (s1 := set_tasks _ s0).
  unfold get_wq. unfold bind at 1, gets at 1. cbv beta iota.
  change (wait_queues s1) with (wait_queues s). set (h := default 0 _).
  mstep (mod_task_Done s1 c _ (set_t_next_wait h) (lookup_insert_eq _ _ _)).
  simpl. rewrite insert_insert_eq. set (x' := set_t_next_wait h _).
  unfold bind at 1, put_wq at 1, modify at 1. set (s2 := set_wait_queues _ _).
  assert (sched_ok s2 Q) as Hs2.
  { apply (sched_ok_frame s _ _ Hs); try done. intros p t y _ _ Hy. simpl.
    destruct (decide (t = c)) as [->|]; [rewrite lookup_insert_eq|rewrite lookup_insert_ne by done; eauto].
    exists x'. split; [done|]. by simplify_eq. }
  destruct (list_elem_of_split _ _ Hin) as (l1 & l2 & HQ).
  assert (Q' = qset Q (t_priority x) (l1 ++ l2)) as HQ'.
  { subst Q'. rewrite HQ, filter_ne_middle; [done|]. rewrite <- HQ.
    destruct (so_queue _ _ Hs _ Hxp) as (? & ? & _ & _ & Hd). apply Hd. }
  destruct (sched_dequeue_ok s2 Q c x' l1 l2) as (s3 & Hrun & Hr & Hs3 & Hx3); [done| |done|done|].
  { simpl. by rewrite lookup_insert_eq. }
  mstep Hrun. mret. unfold sched_release. unfold bind at 1, spin_release at 1, modify at 1.
  set (s4 := set_sched_lock false s3). simpl in Hs3. rewrite <- HQ' in Hs3.
  assert (current_task s4 = c) as Hc by (apply (sr_current _ _ Hr)).
  set (x3 := set_t_prev 0 _) in Hx3.
  destruct (schedule_ok s4 Q') as (s5 & p & n & l & y & Hrun5 & Hs5 & Hl5 & Hh & HQn & Hn & Hy & _ & Hsw);
    [by apply sched_ok_lock|done|done| |].
  { rewrite Hc. intros _. exists x3. split; [done|]. by simpl. }
  assert (rr Q' (if decide (current_task s4 = 0) then None else tasks s4 !! current_task s4) = Q') as Hrr.
  { assert (c ≠ 0) by (by apply (so_nonnull s Q (t_priority x))). rewrite Hc, (decide_False (P := c = 0)) by done.
    change (tasks s4) with (tasks s3). rewrite Hx3. unfold rr. by rewrite decide_False. }
  rewrite Hrr in *.
  assert (n ≠ c) as Hnc.
  { intros ->. assert (c ∈ Q' p) as Hc' by (rewrite HQn; by left).
    destruct (so_prio _ _ Hs3 p c (proj1 Hh) Hc') as (z & Hz & Hzp).
    rewrite Hx3 in Hz. injection Hz as <-. simpl in Hzp. subst p.
    unfold Q', qset in Hc'. rewrite decide_True in Hc' by done.
    apply list_elem_of_filter in Hc'. by destruct Hc'. }
  pose proof (sw_state _ _ Hsw c) as Hcs. rewrite Hn in Hcs. specialize (Hcs ltac:(done)).
  simpl in Hcs. rewrite Hx3 in Hcs. destruct (tasks s5 !! c) as [y'|] eqn:Hy'; [|done].
  change (Some (task_core y') = Some (task_core x3)) in Hcs. apply Some_inj in Hcs.
  exists s5, p, n, l, y'. split_and!; try done.
  - eapply waiting_switched; [done|]. unfold waiting. simpl.
    rewrite (sr_waitq _ _ Hr). simpl. rewrite lookup_insert_eq. simpl.
    apply same_rest_switched in Hr as Hr0.
    assert (∀ t, wlink s4 t = wlink s2 t) as Hwl.
    { intros t. change (wlink s4 t) with (wlink s3 t). by apply wlink_core, Hr0. }
    eapply slist_push; [exact Hw|done| |..].
    + by apply (so_nonnull s Q (t_priority x)).
    + intros t Ht. assert (t ≠ c) by (by intros ->). rewrite Hwl. unfold wlink. simpl.
      by rewrite lookup_insert_ne.
    + rewrite Hwl. unfold wlink. simpl. by rewrite lookup_insert_eq.
  - apply task_core_fields in Hcs as (_ & Hst & _). by rewrite Hst.
Qed.

(** [sleep_on] puts the current task first on the wait queue, takes it
    off its run queue and gives the CPU to the first task of the highest level
    that is left; the blocked task keeps its state until it is woken. *)
Theorem sleep_on_blocks s Q q ws x :
  let c := current_task s in
  sched_ok s Q → sched_lock s = false → waiting s q ws → c ∉ ws →
  tasks s !! c = Some x → 0 <= t_priority x < COUNT → c ∈ Q (t_priority x) →
  let Q' := qset Q (t_priority x) (filter (λ u, u ≠ c) (Q (t_priority x))) in
  Q' IDLE ≠ [] →
  ∃ s' p n l y, sleep_on q (ret tt) s = Done (tt, s') ∧ sched_ok s' Q' ∧
    sched_lock s' = false ∧ waiting s' q (c :: ws) ∧
    highest Q' p ∧ Q' p = n :: l ∧ current_task s' = n ∧ n ≠ c ∧
    tasks s' !! c = Some y ∧ t_state y = TASK_BLOCKED.
Proof. apply sleep_on_ok. Qed.

(** ** Timed sleep *)

(** The tasks on the sleep queue when all of them came through
    [task_sleep_ticks], which links by [next_wait]. *)
Definition sleeping (s : sched) (ws : list Z) : Prop := slist (wlink s) (sleep_queue s) ws.
Definition wake_tick (s : sched) (t : Z) : Z := from_option t_wake_tick 0 (tasks s !! t).
Definition prio_of (s : sched) (t : Z) : Z := from_option t_priority 0 (tasks s !! t).

Definition link_of (kept : list Z) : unit + Z :=
  match kept with [] => inl tt | _ => inr (lastZ 0 kept) end.

Lemma link_of_snoc kept t : link_of (kept ++ [t]) = inr t.
Proof. unfold link_of. rewrite lastZ_app. by destruct kept. Qed.

Lemma get_link_ok s kept rest :
  sleeping s (kept ++ rest) → (∀ t, t ∈ kept → is_Some (tasks s !! t)) →
  get_link (link_of kept) s = Done (hdZ 0 rest, s).
Proof.
  intros Hw Hin. destruct kept as [|k kept].
  - simpl. unfold gets. by rewrite (sl_head _ _ _ Hw).
  - cbn [link_of get_link]. destruct (Hin (lastZ 0 (k :: kept))) as [x Hx]; [by apply lastZ_elem|].
    mstep (get_task_Done _ _ _ Hx). pose proof (slist_last _ _ _ _ Hw ltac:(done)) as Hl.
    unfold wlink in Hl. rewrite Hx in Hl. simpl in Hl. unfold ret. by rewrite Hl.
Qed.

(** Unlinking the head of [rest]. *)
Lemma put_link_ok s kept t rest x :
  sleeping s (kept ++ t :: rest) → tasks s !! t = Some x →
  (∀ u, u ∈ kept → is_Some (tasks s !! u)) →
  ∃ s', bind (put_link (link_of kept) (t_next_wait x)) (λ _, mod_task t (set_t_next_wait 0)) s
          = Done (tt, s') ∧ sleeping s' (kept ++ rest) ∧
    tasks s' !! t = Some (set_t_next_wait 0 x) ∧
    (∀ u, u ≠ t → set_t_next_wait 0 <$> tasks s' !! u = set_t_next_wait 0 <$> tasks s !! u) ∧
    runqueues s' = runqueues s ∧ runqueues_tail s' = runqueues_tail s ∧
    active_priorities s' = active_priorities s ∧ sched_lock s' = sched_lock s.
Proof.
  intros Hw Hx Hin. pose proof (slist_split _ _ _ _ _ Hw) as Hn. unfold wlink in Hn.
  rewrite Hx in Hn. simpl in Hn. rewrite Hn.
  pose proof (sl_nodup _ _ _ Hw) as Hnd. apply NoDup_app in Hnd as (_ & Hdj & [Ht2 _]%NoDup_cons).
  assert (Ht1 : t ∉ kept) by (intros ?; apply (Hdj t); [done|by left]).
  destruct kept as [|k kept].
  - simpl. unfold bind, modify. rewrite (mod_task_Done (set_sleep_queue _ s) t x _ Hx).
    eexists. split; [done|]. split_and!; try done.
    + destruct (slist_tail _ _ _ _ Hw) as (Hw' & _). unfold wlink in Hw' at 2. rewrite Hx in Hw'.
      simpl in Hw'. rewrite Hn in Hw'. eapply slist_ext; [|exact Hw']. intros u Hu. unfold wlink.
      simpl. rewrite lookup_insert_ne; [done|]. by intros ->.
    + simpl. by rewrite lookup_insert_eq.
    + intros u Hu. simpl. by rewrite lookup_insert_ne.
  - set (kp := k :: kept) in *. cbn [link_of]. set (z := lastZ 0 kp).
    destruct (Hin z) as [y Hy]; [by apply lastZ_elem|].
    assert (z ≠ t) as Hzt by (intros Hz; apply Ht1; rewrite <- Hz; by apply lastZ_elem).
    change (link_of kp) with (inr z : unit + Z). cbn [put_link].
    rewrite (bind_Done _ _ _ _ _ (mod_task_Done s z y (set_t_next_wait (hdZ 0 rest)) Hy)).
    assert (tasks (set_tasks (<[z:=set_t_next_wait (hdZ 0 rest) y]> (tasks s)) s) !! t = Some x) as Hx'.
    { simpl. by rewrite lookup_insert_ne. }
    rewrite (mod_task_Done _ t x _ Hx').
    eexists. split; [done|]. split_and!; try done.
    + unfold sleeping. simpl sleep_queue. replace (sleep_queue s) with (hdZ 0 (kp ++ rest)).
      2:{ rewrite (sl_head _ _ _ Hw). done. }
      eapply slist_remove; [exact Hw|]. intros u Hu.
      assert (t ≠ u). { intros <-. apply elem_of_app in Hu as [?|?]; done. }
      unfold wlink. simpl. rewrite lookup_insert_ne by done. fold z. case_decide as Huz.
      * subst u. by rewrite lookup_insert_eq.
      * by rewrite lookup_insert_ne.
    + simpl. by rewrite lookup_insert_eq.
    + intros u Hu. simpl. rewrite lookup_insert_ne by done.
      destruct (decide (u = z)) as [->|]; [by rewrite lookup_insert_eq, Hy|by rewrite lookup_insert_ne].
Qed.

Lemma parked_step s s1 Q Q1 w :
  (∀ u, is_Some (tasks s !! u) → is_Some (tasks s1 !! u)) → (∀ u, prio_of s1 u = prio_of s u) →
  (∀ p, w ∉ Q p → w ∉ Q1 p) → parked s Q w → parked s1 Q1 w.
Proof.
  intros Hsome Hprio HQ (Hw0 & x & Hx & Hxp & Hn). split; [done|].
  destruct (Hsome w) as [y Hy]; [eauto|]. pose proof (Hprio w) as Hp. unfold prio_of in Hp.
  rewrite Hx, Hy in Hp. simpl in Hp. exists y. rewrite Hp. split; [done|split; [done|by apply HQ]].
Qed.

Lemma next_wait_fields y y' :
  set_t_next_wait 0 <$> Some y' = set_t_next_wait 0 <$> Some y →
  t_next y' = t_next y ∧ t_prev y' = t_prev y ∧ t_priority y' = t_priority y ∧
  t_wake_tick y' = t_wake_tick y ∧ t_state y' = t_state y.
Proof.
  intros H. apply Some_inj in H.
  split_and!; [change (t_next (set_t_next_wait 0 y') = t_next (set_t_next_wait 0 y))
  |change (t_prev (set_t_next_wait 0 y') = t_prev (set_t_next_wait 0 y))
  |change (t_priority (set_t_next_wait 0 y') = t_priority (set_t_next_wait 0 y))
  |change (t_wake_tick (set_t_next_wait 0 y') = t_wake_tick (set_t_next_wait 0 y))
  |change (t_state (set_t_next_wait 0 y') = t_state (set_t_next_wait 0 y))]; by rewrite H.
Qed.

(** One expired task: unlinked, made READY, enqueued. *)
Lemma wake_expired s Q kept t rest x :
  sched_ok s Q → sleeping s (kept ++ t :: rest) → Forall (parked s Q) (kept ++ t :: rest) →
  tasks s !! t = Some x →
  ∃ s', bind (put_link (link_of kept) (t_next_wait x)) (λ _, bind (mod_task t (set_t_next_wait 0))
      (λ _, bind (mod_task t (set_t_state TASK_READY)) (λ _, sched_enqueue_task t))) s = Done (tt, s') ∧
    sched_ok s' (qset Q (t_priority x) (Q (t_priority x) ++ [t])) ∧ sleeping s' (kept ++ rest) ∧
    sched_lock s' = sched_lock s ∧ t_state <$> tasks s' !! t = Some TASK_READY ∧
    (∀ u, wake_tick s' u = wake_tick s u ∧ prio_of s' u = prio_of s u ∧
       (is_Some (tasks s !! u) → is_Some (tasks s' !! u)) ∧
       (u ≠ t → t_state <$> tasks s' !! u = t_state <$> tasks s !! u)).
Proof.
  intros Hs Hw Hp Hx. apply Forall_app in Hp as [Hp1 [(Ht0 & x' & Hx' & Hxp & Hnew) _]%Forall_cons].
  rewrite Hx in Hx'. injection Hx' as <-.
  destruct (put_link_ok s kept t rest x) as (s1 & Hrun & Hw1 & Hx1 & Hrest & Hrq & Hrt & Hact & Hlk);
    [done|done| |].
  { intros u Hu. rewrite Forall_forall in Hp1. destruct (Hp1 u Hu) as (_ & y & Hy & _). eauto. }
  apply bind_inv in Hrun as ([] & s0 & Hr1 & Hr2). mstep Hr1. mstep Hr2.
  mstep (mod_task_Done s1 t _ (set_t_state TASK_READY) Hx1). set (x2 := set_t_state _ _).
  set (s2 := set_tasks (<[t := x2]> (tasks s1)) s1).
  assert (Hother : ∀ u, u ≠ t → set_t_next_wait 0 <$> tasks s2 !! u = set_t_next_wait 0 <$> tasks s !! u).
  { intros u Hu. simpl. rewrite lookup_insert_ne by done. by apply Hrest. }
  assert (tasks s2 !! t = Some x2) as Hx2 by (simpl; by rewrite lookup_insert_eq).
  assert (sched_ok s2 Q) as Hs2.
  { apply (sched_ok_frame s _ _ Hs); [done..|]. intros p u y _ _ Hy.
    destruct (decide (u = t)) as [->|Hu]; [rewrite Hx2; exists x2; by simplify_eq|].
    pose proof (Hother u Hu) as Ho. rewrite Hy in Ho. destruct (tasks s2 !! u) as [y'|]; [|done].
    apply next_wait_fields in Ho as (? & ? & ? & _). eauto. }
  destruct (sched_enqueue_ok s2 Q t x2) as (s3 & Hrun3 & Hr & Hs3); [done..|].
  exists s3. split; [done|]. split; [done|]. apply same_rest_switched in Hr as Hsw.
  assert (Hfld : ∀ u, u ≠ t → ∀ y, tasks s !! u = Some y → ∃ y', tasks s3 !! u = Some y' ∧
     t_wake_tick y' = t_wake_tick y ∧ t_priority y' = t_priority y ∧ t_state y' = t_state y).
  { intros u Hu y Hy. pose proof (Hother u Hu) as Ho. rewrite Hy in Ho.
    destruct (tasks s2 !! u) as [y1|] eqn:Hy1; [|done].
    apply next_wait_fields in Ho as (_ & _ & Hpy & Hwy & Hsy).
    destruct (same_rest_task _ _ _ _ Hr Hy1) as (y2 & Hy2 & Hc).
    exists y2. split; [done|]. apply task_core_fields in Hc as (-> & -> & _ & _ & _ & ->). done. }
  destruct (same_rest_task _ _ _ _ Hr Hx2) as (x3 & Hx3 & Hc3).
  apply task_core_fields in Hc3 as (Hpr & Hst & _ & _ & _ & Hwk).
  split_and!.
  - unfold sleeping. rewrite (sr_sleep _ _ Hr). simpl sleep_queue.
    eapply slist_ext; [|exact Hw1]. intros u Hu. rewrite (wlink_core s2 s3 (sw_tasks _ _ Hsw)).
    unfold wlink. simpl. rewrite lookup_insert_ne; [done|]. intros <-.
    pose proof (sl_nodup _ _ _ Hw) as Hnd. apply NoDup_app in Hnd as (_ & Hdj & [Ht2 _]%NoDup_cons).
    apply elem_of_app in Hu as [Hu|Hu]; [|done]. apply (Hdj t Hu). by left.
  - rewrite (sr_lock _ _ Hr). done.
  - rewrite Hx3. simpl. by rewrite Hst.
  - intros u. unfold wake_tick, prio_of. destruct (decide (u = t)) as [->|Hu].
    + rewrite Hx3, Hx. simpl. rewrite Hwk, Hpr. split_and!; [done|done|eauto|done].
    + destruct (tasks s !! u) as [y|] eqn:Hy.
      * destruct (Hfld u Hu y Hy) as (y' & -> & ? & ? & Hst'). simpl. rewrite Hst'.
        split_and!; [done|done|eauto|done].
      * pose proof (Hother u Hu) as Ho. rewrite Hy in Ho. pose proof (sr_tasks _ _ Hr u) as Hc.
        destruct (tasks s2 !! u); [done|]. destruct (tasks s3 !! u); [done|]. naive_solver.
Qed.

(** The sleep queue [ws] split at tick [now]. *)
Definition due (s : sched) (now : Z) (ws : list Z) : list Z :=
  filter (λ t, wake_tick s t <= now) ws.
Definition not_due (s : sched) (now : Z) (ws : list Z) : list Z :=
  filter (λ t, ¬ wake_tick s t <= now) ws.
Definition woken (s : sched) (now : Z) (ws : list Z) (Q : Z → list Z) : Z → list Z :=
  λ p, Q p ++ filter (λ t, prio_of s t = p) (due s now ws).

Lemma check_sleeping_ok now rest : ∀ fuel kept s Q,
  sched_ok s Q → sleeping s (kept ++ rest) → Forall (parked s Q) (kept ++ rest) →
  (length rest < fuel)%nat →
  ∃ s', check_sleeping fuel (link_of kept) now s = Done (tt, s') ∧
    sched_ok s' (woken s now rest Q) ∧ sleeping s' (kept ++ not_due s now rest) ∧
    sched_lock s' = sched_lock s ∧
    (∀ t, t ∈ due s now rest → t_state <$> tasks s' !! t = Some TASK_READY) ∧
    (∀ t, t ∉ due s now rest → t_state <$> tasks s' !! t = t_state <$> tasks s !! t).
Proof.
  induction rest as [|t rest IH]; intros fuel kept s Q Hs Hw Hp Hf;
    (destruct fuel as [|fuel]; [simpl in Hf; lia|]); cbn [check_sleeping].
  { assert (∀ u, u ∈ kept → is_Some (tasks s !! u)) as Hin.
    { intros u Hu. rewrite app_nil_r, Forall_forall in Hp. destruct (Hp u Hu) as (_ & y & -> & _). eauto. }
    mstep (get_link_ok _ _ _ Hw Hin). simpl. exists s. split; [done|]. split_and!; try done.
    - eapply sched_ok_ext, Hs. intros p _. unfold woken, due. rewrite filter_nil, filter_nil.
      by rewrite app_nil_r.
    - by intros t ?%not_elem_of_nil. }
  assert (∀ u, u ∈ kept → is_Some (tasks s !! u)) as Hin.
  { intros u Hu. rewrite Forall_forall in Hp. destruct (Hp u) as (_ & y & -> & _); [|eauto].
    apply elem_of_app. by left. }
  mstep (get_link_ok _ _ _ Hw Hin). simpl hdZ.
  pose proof Hp as Hp0. apply Forall_app in Hp as [Hp1 [Hpt Hp2]%Forall_cons].
  pose proof Hpt as (Ht0 & x & Hx & Hxp & Hnew).
  rewrite (proj2 (Z.eqb_neq _ _)) by done. mstep (get_task_Done _ _ _ Hx).
  assert (wake_tick s t = t_wake_tick x) as Hwt by (unfold wake_tick; by rewrite Hx).
  destruct (Z.leb_spec (t_wake_tick x) now) as [Hle|Hgt].
  - destruct (wake_expired s Q kept t rest x Hs Hw Hp0 Hx)
      as (s1 & Hrun & Hs1 & Hw1 & Hlk & Hst & Hfld).
    set (Q1 := qset _ _ _) in Hs1.
    apply bind_inv in Hrun as ([] & sa & Ha & Hrun). mstep Ha.
    apply bind_inv in Hrun as ([] & sb & Hb & Hrun). mstep Hb.
    apply bind_inv in Hrun as ([] & sc & Hc & Hrun). mstep Hc. mstep Hrun.
    pose proof (sl_nodup _ _ _ Hw) as Hnd. apply NoDup_app in Hnd as (_ & Hdj & [Ht2 _]%NoDup_cons).
    assert (t ∉ kept) as Ht1 by (intros ?; apply (Hdj t); [done|by left]).
    destruct (IH fuel kept s1 Q1 Hs1 Hw1) as (s2 & Hrun2 & Hs2 & Hw2 & Hlk2 & Hd2 & Hn2).
    { rewrite Forall_forall. intros u Hu. assert (u ≠ t).
      { intros ->. apply elem_of_app in Hu as [?|?]; done. }
      apply (parked_step s s1 Q); [apply Hfld|apply Hfld| |].
      - intros p Hup. subst Q1. unfold qset. case_decide; [|done]. subst p.
        rewrite elem_of_app, list_elem_of_singleton. naive_solver.
      - rewrite Forall_forall in Hp0. apply Hp0. rewrite elem_of_app, elem_of_cons.
        apply elem_of_app in Hu as [?|?]; [by left|right; by right]. }
    { simpl in Hf. lia. }
    assert (due s1 now rest = due s now rest) as Hd.
    { apply list_filter_iff. intros u. by rewrite (proj1 (Hfld u)). }
    assert (not_due s1 now rest = not_due s now rest) as Hnd'.
    { apply list_filter_iff. intros u. by rewrite (proj1 (Hfld u)). }
    assert (due s now (t :: rest) = t :: due s now rest) as Hdt.
    { apply filter_cons_True. by rewrite Hwt. }
    rewrite Hd in Hd2, Hn2. rewrite Hnd' in Hw2. exists s2. rewrite Hrun2. split_and!; [done| | | | |].
    + eapply sched_ok_ext, Hs2. intros p _. unfold woken. rewrite Hdt, Hd.
      rewrite (list_filter_iff (λ u, prio_of s1 u = p) (λ u, prio_of s u = p))
        by (intros u; by rewrite (proj1 (proj2 (Hfld u)))).
      assert (prio_of s t = t_priority x) as Hpx by (unfold prio_of; by rewrite Hx).
      subst Q1. unfold qset. destruct (decide (p = t_priority x)) as [->|Hne].
      * rewrite filter_cons_True by done. by rewrite <- app_assoc.
      * rewrite filter_cons_False by congruence. done.
    + unfold not_due at 1. rewrite filter_cons_False by (rewrite Hwt; lia). done.
    + by rewrite Hlk2.
    + intros u. rewrite Hdt, elem_of_cons. intros [->|Hu]; [|by apply Hd2].
      rewrite Hn2; [done|]. intros Hu. apply list_elem_of_filter in Hu. naive_solver.
    + intros u. rewrite Hdt, not_elem_of_cons. intros [Hut Hu]. rewrite Hn2 by done. by apply Hfld.
  - change (hdZ 0 (t :: rest)) with t. rewrite <- (link_of_snoc kept t).
    destruct (IH fuel (kept ++ [t]) s Q) as (s2 & Hrun2 & Hs2 & Hw2 & Hlk2 & Hd2 & Hn2);
      [done|by rewrite <- app_assoc|by rewrite <- app_assoc|simpl in Hf; lia|].
    assert (due s now (t :: rest) = due s now rest) as Hdt.
    { apply filter_cons_False. rewrite Hwt. lia. }
    exists s2. unfold woken in *. rewrite Hrun2, Hdt. split_and!; try done.
    unfold not_due at 1. rewrite filter_cons_True by (rewrite Hwt; lia).
    by rewrite <- app_assoc in Hw2.
Qed.

(** [sched_check_sleeping_tasks] wakes exactly the sleepers whose tick has
    come, in the order of the sleep queue, each at the tail of its run queue
    and READY; the others stay asleep in order, and every other task keeps its
    state.  This holds when all sleepers came through [task_sleep_ticks]. *)
Theorem sched_check_sleeping_tasks_exact s Q ws now fuel :
  sched_ok s Q → sched_lock s = false → sleeping s ws → Forall (parked s Q) ws →
  (length ws < fuel)%nat →
  ∃ s', sched_check_sleeping_tasks fuel now s = Done (tt, s') ∧
    sched_ok s' (woken s now ws Q) ∧ sleeping s' (not_due s now ws) ∧ sched_lock s' = false ∧
    (∀ t, t ∈ due s now ws → t_state <$> tasks s' !! t = Some TASK_READY) ∧
    (∀ t, t ∉ due s now ws → t_state <$> tasks s' !! t = t_state <$> tasks s !! t).
Proof.
  intros Hs Hlock Hw Hp Hf. unfold sched_check_sleeping_tasks, sched_acquire.
  unfold bind at 1, spin_acquire at 1. rewrite Hlock.
  destruct (check_sleeping_ok now ws fuel [] (set_sched_lock true s) Q)
    as (s1 & Hrun & Hs1 & Hw1 & _ & Hd & Hn); [by apply sched_ok_lock|done|done|done|].
  cbn [link_of] in Hrun. mstep Hrun. unfold sched_release, spin_release, modify.
  eexists. split; [done|]. split_and!; try done. by apply sched_ok_lock.
Qed.

(** a task that waits with a timeout hides the rest of the sleep queue.
    [sleep_on_timeout] links the task into the sleep queue through
    [sleep_next], but [sched_check_sleeping_tasks] follows [next_wait]: with an
    empty wait queue, the timer walk stops at the new task, so until its own
    deadline no task already asleep is woken, however overdue. *)
Theorem timeout_sleeper_hides_sleep_queue s Q q x k now :
  let c := current_task s in
  sched_ok s Q → sched_lock s = false → default 0 (wait_queues s !! q) = 0 →
  tasks s !! c = Some x → 0 <= t_priority x < COUNT → c ∈ Q (t_priority x) →
  qset Q (t_priority x) (filter (λ u, u ≠ c) (Q (t_priority x))) IDLE ≠ [] →
  k ≠ 0 → now < u64 (jiffies s + k) →
  ∃ s', sleep_on_timeout_begin q k s = Done (true, s') ∧ sleep_queue s' = c ∧
    sched_check_sleeping_tasks 2 now s' = Done (tt, s').
Proof.
  intros c Hs Hlock Hw Hx Hxp Hin Hidle Hk Hnow. set (Q' := qset _ _ _) in Hidle.
  unfold sleep_on_timeout_begin, sched_acquire. rewrite (proj2 (Z.eqb_neq _ _)) by done.
  unfold bind at 1, spin_acquire at 1. rewrite Hlock. set (s0 := set_sched_lock true s).
  unfold bind at 1, gets at 1. change (current_task s0) with c.
  unfold bind at 1, gets at 1. change (jiffies s0) with (jiffies s). set (w := u64 _) in *.
  mstep (mod_task_Done s0 c x (set_t_wake_tick w) Hx).
  erewrite (bind_Done (mod_task c (set_t_state TASK_BLOCKED)));
    [|apply mod_task_Done; simpl; apply lookup_insert_eq]. simpl. rewrite insert_insert_eq.
  erewrite (bind_Done (get_task c)); [|apply get_task_Done; simpl; apply lookup_insert_eq].
  erewrite (bind_Done (mod_task c (set_t_flags _)));
    [|apply mod_task_Done; simpl; apply lookup_insert_eq]. simpl. rewrite insert_insert_eq.
  unfold get_wq. unfold bind at 1, gets at 1. cbn [wait_queues set_tasks set_sched_lock s0].
  rewrite Hw.
  erewrite (bind_Done (mod_task c (set_t_next_wait _)));
    [|apply mod_task_Done; simpl; apply lookup_insert_eq]. simpl. rewrite insert_insert_eq.
  unfold put_wq. unfold bind at 1, modify at 1. unfold bind at 1, gets at 1.
  erewrite (bind_Done (mod_task c (set_t_sleep_next _)));
    [|apply mod_task_Done; simpl; apply lookup_insert_eq]. simpl. rewrite insert_insert_eq.
  unfold bind at 1, modify at 1.
  set (x' := set_t_sleep_next _ _). set (s2 := set_sleep_queue c _).
  assert (sched_ok s2 Q) as Hs2.
  { apply (sched_ok_frame s _ _ Hs); try done. intros p t y _ _ Hy. simpl.
    destruct (decide (t = c)) as [->|]; [rewrite lookup_insert_eq|rewrite lookup_insert_ne by done; eauto].
    exists x'. split; [done|]. by simplify_eq. }
  destruct (list_elem_of_split _ _ Hin) as (l1 & l2 & HQ).
  assert (Q' = qset Q (t_priority x) (l1 ++ l2)) as HQ'.
  { subst Q'. rewrite HQ, filter_ne_middle; [done|]. rewrite <- HQ.
    destruct (so_queue _ _ Hs _ Hxp) as (? & ? & _ & _ & Hd). apply Hd. }
  destruct (sched_dequeue_ok s2 Q c x' l1 l2) as (s3 & Hrun & Hr & Hs3 & Hx3); [done| |done|done|].
  { simpl. by rewrite lookup_insert_eq. }
  mstep Hrun. unfold sched_release. unfold bind at 1, spin_release at 1, modify at 1.
  set (s4 := set_sched_lock false s3). simpl in Hs3. rewrite <- HQ' in Hs3.
  assert (current_task s4 = c) as Hc by (apply (sr_current _ _ Hr)).
  destruct (schedule_ok s4 Q') as (s5 & p & n & l & y & Hrun5 & _ & Hl5 & _ & _ & _ & _ & _ & Hsw);
    [by apply sched_ok_lock|done|done| |].
  { rewrite Hc. intros _. eexists. split; [exact Hx3|done]. }
  mstep Hrun5. exists s5. split; [done|].
  assert (sleep_queue s5 = c) as Hsl.
  { rewrite (sw_sleep _ _ Hsw). change (sleep_queue s4) with (sleep_queue s3).
    by rewrite (sr_sleep _ _ Hr). }
  split; [done|].
  pose proof (sw_tasks _ _ Hsw c) as Hf. change (tasks s4) with (tasks s3) in Hf.
  rewrite Hx3 in Hf. destruct (tasks s5 !! c) as [z|] eqn:Hz; [|done].
  apply Some_inj in Hf.
  assert (t_wake_tick z = w) as Hzw by (change (t_wake_tick (task_frozen z) = w); by rewrite Hf).
  assert (t_next_wait z = 0) as Hzn by (change (t_next_wait (task_frozen z) = 0); by rewrite Hf).
  assert (c ≠ 0) as Hc0 by (by apply (so_nonnull s Q (t_priority x))).
  unfold sched_check_sleeping_tasks, sched_acquire, spin_acquire. unfold bind at 1. rewrite Hl5.
  set (s6 := set_sched_lock true s5).
  assert (check_sleeping 2 (inl tt) now s6 = Done (tt, s6)) as Hrun6.
  { cbn [check_sleeping get_link]. unfold bind at 1, gets at 1.
    change (sleep_queue s6) with (sleep_queue s5). rewrite Hsl, (proj2 (Z.eqb_neq _ _)) by done.
    mstep (get_task_Done s6 c z Hz). rewrite Hzw, (proj2 (Z.leb_gt _ _)) by done.
    unfold bind at 1. mstep (get_task_Done s6 c z Hz). unfold ret. by rewrite Hzn. }
  mstep Hrun6. unfold sched_release, spin_release, modify. do 2 f_equal. subst s6.
  destruct s5. simpl in *. by subst.
Qed.

(** ** The pid hash table as a map *)

Definition hlink (s : sched) (p : Z) : Z := from_option p_hash_next 0 (procs s !! p).
Definition pid_of (s : sched) (p : Z) : Z := from_option p_pid (-1) (procs s !! p).

(** [H i] lists the processes in bucket [i]. *)
Record hash_ok (s : sched) (H : Z → list Z) : Prop := mk_hash_ok {
  ho_len : Z.of_nat (length (pid_hash s)) = PID_HASH_SIZE;
  ho_chain : ∀ i, 0 <= i < PID_HASH_SIZE →
    ∃ h, zget (pid_hash s) i = Some h ∧ slist (hlink s) h (H i);
  ho_pid : ∀ i p, 0 <= i < PID_HASH_SIZE → p ∈ H i →
    ∃ x, procs s !! p = Some x ∧ p_pid x mod PID_HASH_SIZE = i;
}.

Lemma mod_proc_Done s t x f :
  procs s !! t = Some x → mod_proc t f s = Done (tt, set_procs (<[t := f x]> (procs s)) s).
Proof. unfold mod_proc. by intros ->. Qed.
Lemma get_proc_Done s t x : procs s !! t = Some x → get_proc t s = Done (x, s).
Proof. unfold get_proc. by intros ->. Qed.
Lemma get_hash_Done s i h : zget (pid_hash s) i = Some h → get_hash i s = Done (h, s).
Proof. unfold get_hash. by intros ->. Qed.
Lemma put_hash_Done s i v : 0 <= i < Z.of_nat (length (pid_hash s)) →
  put_hash i v s = Done (tt, set_pid_hash (<[Z.to_nat i := v]> (pid_hash s)) s).
Proof. intros. unfold put_hash. by rewrite zset_is_Some. Qed.

Lemma pid_bucket pid : 0 <= pid mod PID_HASH_SIZE < PID_HASH_SIZE.
Proof. by apply Z.mod_pos_bound. Qed.

Lemma find_pid_chain_ok s pid l : ∀ fuel h,
  slist (hlink s) h l → (∀ p, p ∈ l → is_Some (procs s !! p)) → (length l < fuel)%nat →
  find_pid_chain fuel h pid s = Done (hdZ 0 (filter (λ p, pid_of s p = pid) l), s).
Proof.
  induction l as [|p l IH]; intros fuel h Hl Hin Hf;
    (destruct fuel as [|fuel]; [simpl in Hf; lia|]); cbn [find_pid_chain].
  - by rewrite (sl_head _ _ _ Hl).
  - destruct (slist_tail _ _ _ _ Hl) as (Hl' & <- & _ & Hp0).
    rewrite (proj2 (Z.eqb_neq _ _)) by done.
    destruct (Hin p) as [x Hx]; [by left|]. mstep (get_proc_Done _ _ _ Hx).
    assert (pid_of s p = p_pid x) as Hpid by (unfold pid_of; by rewrite Hx).
    assert (hlink s p = p_hash_next x) as Hnx by (unfold hlink; by rewrite Hx).
    destruct (Z.eqb_spec (p_pid x) pid) as [He|He].
    + rewrite filter_cons_True by congruence. done.
    + rewrite filter_cons_False by congruence. rewrite <- Hnx. apply IH; [done| |simpl in Hf; lia].
      intros u Hu. apply Hin. by right.
Qed.

Lemma find_process_ok s H fuel pid :
  hash_ok s H → sched_lock s = false → 0 <= pid < 2 ^ 64 →
  (length (H (pid mod PID_HASH_SIZE)%Z) < fuel)%nat →
  find_process_by_pid fuel pid s =
    Done (hdZ 0 (filter (λ p, pid_of s p = pid) (H (pid mod PID_HASH_SIZE))), s).
Proof.
  intros Hs Hlock Hpid Hf. unfold find_process_by_pid, sched_acquire.
  unfold bind at 1, spin_acquire at 1. rewrite Hlock, u64_id by lia. set (s0 := set_sched_lock true s).
  destruct (ho_chain _ _ Hs (pid mod PID_HASH_SIZE) (pid_bucket _)) as (h & Hh & Hc).
  mstep (get_hash_Done s0 _ _ Hh).
  erewrite bind_Done; [|apply find_pid_chain_ok; [exact Hc| |exact Hf]].
  2:{ intros p Hp. destruct (ho_pid _ _ Hs _ p (pid_bucket pid) Hp) as (x & Hx & _). eauto. }
  unfold sched_release, spin_release. unfold bind at 1, modify at 1. unfold ret.
  subst s0. destruct s. simpl in *. by subst.
Qed.

(** [pid_hash_insert] on a process in no bucket. *)
Lemma pid_hash_insert_ok s H p x :
  hash_ok s H → procs s !! p = Some x → p ≠ 0 → (∀ i, 0 <= i < PID_HASH_SIZE → p ∉ H i) →
  let b := p_pid x mod PID_HASH_SIZE in
  ∃ s', pid_hash_insert p s = Done (tt, s') ∧ hash_ok s' (qset H b (p :: H b)) ∧
    (∀ u, pid_of s' u = pid_of s u) ∧ sched_lock s' = sched_lock s.
Proof.
  intros Hs Hx Hp0 Hnew b. pose proof (pid_bucket (p_pid x)) as Hb. fold b in Hb.
  destruct (ho_chain _ _ Hs b Hb) as (h & Hh & Hc). pose proof (ho_len _ _ Hs) as Hlen.
  unfold pid_hash_insert. mstep (get_proc_Done _ _ _ Hx). mstep (get_hash_Done _ _ _ Hh).
  mstep (mod_proc_Done _ _ _ (set_p_hash_next h) Hx). rewrite put_hash_Done by (simpl; lia).
  simpl. eexists. split; [done|]. split; [split|split; [|done]].
  - simpl. by rewrite length_insert.
  - intros i Hi. simpl. fold b. rewrite zget_insert by lia. unfold qset.
    destruct (decide (b = i)) as [<-|Hne].
    + rewrite decide_True by done. exists p. split; [done|].
      eapply slist_push; [exact Hc|by apply Hnew|done| |].
      * intros u Hu. unfold hlink. simpl. rewrite lookup_insert_ne; [done|]. intros <-. by apply (Hnew b).
      * unfold hlink. simpl. by rewrite lookup_insert_eq.
    + rewrite decide_False by congruence. destruct (ho_chain _ _ Hs i Hi) as (h' & Hh' & Hc').
      exists h'. split; [done|]. eapply slist_ext; [|exact Hc']. intros u Hu. unfold hlink. simpl.
      rewrite lookup_insert_ne; [done|]. intros <-. by apply (Hnew i).
  - intros i u Hi Hu. simpl. unfold qset in Hu. destruct (decide (i = b)) as [->|].
    + apply elem_of_cons in Hu as [->|Hu]; [rewrite lookup_insert_eq; by eauto|].
      rewrite lookup_insert_ne; [by apply (ho_pid _ _ Hs)|]. intros <-. by apply (Hnew b).
    + rewrite lookup_insert_ne; [by apply (ho_pid _ _ Hs)|]. intros <-. by apply (Hnew i).
  - intros u. unfold pid_of. simpl. destruct (decide (u = p)) as [->|].
    + by rewrite lookup_insert_eq, Hx.
    + by rewrite lookup_insert_ne.
Qed.

(** The chain walk of [pid_hash_remove] stops at [p]. *)
Definition hlink_of (b : Z) (kept : list Z) : Z + Z :=
  match kept with [] => inl b | _ => inr (lastZ 0 kept) end.

Lemma pid_hash_unlink_ok s H b p x l1 l2 : ∀ fuel kept l,
  hash_ok s H → 0 <= b < PID_HASH_SIZE → H b = l1 ++ p :: l2 → procs s !! p = Some x →
  l1 = kept ++ l → (length l < fuel)%nat →
  pid_hash_unlink fuel (hlink_of b kept) p s =
    bind (match hlink_of b l1 with
          | inl i => put_hash i (p_hash_next x)
          | inr z => mod_proc z (set_p_hash_next (p_hash_next x)) end)
      (λ _, mod_proc p (set_p_hash_next 0)) s.
Proof.
  intros fuel kept l Hs Hb HH Hx. revert kept l.
  destruct (ho_chain _ _ Hs b Hb) as (h & Hh & Hc). rewrite HH in Hc.
  pose proof (sl_nodup _ _ _ Hc) as Hnd. apply NoDup_app in Hnd as (_ & Hdj & _).
  pose proof (sl_nonnull _ _ _ Hc) as H0.
  induction fuel as [|fuel IH]; intros kept l Hl1 Hf; [lia|]. cbn [pid_hash_unlink].
  set (rest := l ++ p :: l2).
  assert ((match hlink_of b kept with
           | inl i => get_hash i
           | inr z => bind (get_proc z) (λ x, ret (p_hash_next x)) end) s = Done (hdZ 0 rest, s)) as Hget.
  { destruct kept as [|k kept]; cbn [hlink_of].
    - rewrite (get_hash_Done _ _ _ Hh). rewrite (sl_head _ _ _ Hc). subst l1. done.
    - set (kk := k :: kept) in *.
      assert (lastZ 0 kk ∈ H b) as Hin.
      { rewrite HH, Hl1. apply elem_of_app. left. apply elem_of_app. left. by apply lastZ_elem. }
      destruct (ho_pid _ _ Hs b _ Hb Hin) as (z & Hz & _). mstep (get_proc_Done _ _ _ Hz).
      subst l1. rewrite <- app_assoc in Hc. pose proof (slist_last _ _ _ _ Hc ltac:(done)) as Hl.
      unfold hlink in Hl. rewrite Hz in Hl. simpl in Hl. unfold ret. by rewrite Hl. }
  mstep Hget. destruct l as [|u l]; subst rest.
  - change (hdZ 0 ([] ++ p :: l2)) with p. rewrite (proj2 (Z.eqb_neq _ _)), Z.eqb_refl.
    2:{ intros ->. apply H0, elem_of_app. right. by left. }
    mstep (get_proc_Done _ _ _ Hx). rewrite app_nil_r in Hl1. by subst kept.
  - change (hdZ 0 ((u :: l) ++ p :: l2)) with u.
    assert (u ∈ l1) as Hu1 by (rewrite Hl1; apply elem_of_app; right; by left).
    rewrite (proj2 (Z.eqb_neq u 0)), (proj2 (Z.eqb_neq u p)).
    + replace (inr u) with (hlink_of b (kept ++ [u])).
      2:{ unfold hlink_of. rewrite lastZ_app. by destruct kept. }
      apply (IH (kept ++ [u]) l); [by rewrite <- app_assoc|simpl in Hf; lia].
    + intros ->. apply (Hdj p Hu1). by left.
    + intros ->. apply H0, elem_of_app. by left.
Qed.

Lemma pid_hash_remove_ok s H p x l1 l2 fuel :
  hash_ok s H → procs s !! p = Some x → let b := p_pid x mod PID_HASH_SIZE in
  H b = l1 ++ p :: l2 → (length (H b) < fuel)%nat →
  ∃ s', pid_hash_remove fuel p s = Done (tt, s') ∧ hash_ok s' (qset H b (l1 ++ l2)) ∧
    (∀ u, pid_of s' u = pid_of s u) ∧ sched_lock s' = sched_lock s.
Proof.
  intros Hs Hx b HH Hf. pose proof (pid_bucket (p_pid x)) as Hb. fold b in Hb.
  destruct (ho_chain _ _ Hs b Hb) as (h & Hh & Hc). pose proof (ho_len _ _ Hs) as Hlen.
  rewrite HH in Hc. pose proof (slist_split _ _ _ _ _ Hc) as Hn. unfold hlink in Hn.
  rewrite Hx in Hn. simpl in Hn.
  pose proof (sl_nodup _ _ _ Hc) as Hnd. apply NoDup_app in Hnd as (_ & Hdj & [Hp2 _]%NoDup_cons).
  assert (Hp1 : p ∉ l1) by (intros ?; apply (Hdj p); [done|by left]).
  assert (Hsep : ∀ i, 0 <= i < PID_HASH_SIZE → i ≠ b → ∀ u, u ∈ H b → u ∉ H i).
  { intros i Hi Hib u Hu Hui. destruct (ho_pid _ _ Hs b u Hb Hu) as (y & Hy & ?).
    destruct (ho_pid _ _ Hs i u Hi Hui) as (y' & Hy' & ?). congruence. }
  assert (p ∈ H b) as Hpb by (rewrite HH; apply elem_of_app; right; by left).
  unfold pid_hash_remove. mstep (get_proc_Done _ _ _ Hx).
  change (inl (p_pid x mod PID_HASH_SIZE)) with (hlink_of b []).
  rewrite (pid_hash_unlink_ok s H b p x l1 l2 fuel [] l1 Hs Hb HH Hx eq_refl);
    [|rewrite HH, length_app in Hf; lia].
  rewrite Hn.
  assert (∃ m a, bind (match hlink_of b l1 with
      | inl i => put_hash i (hdZ 0 l2) | inr z => mod_proc z (set_p_hash_next (hdZ 0 l2)) end)
      (λ _, mod_proc p (set_p_hash_next 0)) s = Done (tt, set_pid_hash a (set_procs m s)) ∧
      a = <[Z.to_nat b := hdZ 0 (l1 ++ l2)]> (pid_hash s) ∧
      ∀ u, m !! u = if decide (u = p) then Some (set_p_hash_next 0 x)
        else if decide (u = lastZ 0 l1 ∧ l1 ≠ []) then set_p_hash_next (hdZ 0 l2) <$> procs s !! u
        else procs s !! u) as (m & a & Hrun & -> & Hm).
  { destruct l1 as [|k l1].
    - cbn [hlink_of]. rewrite (bind_Done _ _ _ _ _ (put_hash_Done s b (hdZ 0 l2) ltac:(lia))).
      rewrite (mod_proc_Done (set_pid_hash _ s) p x _ Hx).
      exists (<[p := set_p_hash_next 0 x]> (procs s)), (<[Z.to_nat b := hdZ 0 l2]> (pid_hash s)).
      split; [done|]. split; [done|].
      intros u. case_decide as Hu; [subst; by rewrite lookup_insert_eq|].
      rewrite decide_False by naive_solver. by rewrite lookup_insert_ne.
    - set (kk := k :: l1) in *. change (hlink_of b kk) with (inr (lastZ 0 kk) : Z + Z). cbv iota beta.
      set (z := lastZ 0 kk). assert (z ∈ kk) as Hzk by (by apply lastZ_elem).
      destruct (ho_pid _ _ Hs b z Hb) as (y & Hy & _); [rewrite HH; apply elem_of_app; by left|].
      assert (z ≠ p) as Hzp by (by intros ->).
      mstep (mod_proc_Done s z y (set_p_hash_next (hdZ 0 l2)) Hy).
      rewrite (mod_proc_Done _ p x) by (simpl; by rewrite lookup_insert_ne).
      exists (<[p:=set_p_hash_next 0 x]> (<[z:=set_p_hash_next (hdZ 0 l2) y]> (procs s))),
        (pid_hash s). split_and!.
      + by destruct s.
      + symmetry. apply insert_idem_id. by rewrite Hh, (sl_head _ _ _ Hc).
      + intros u. case_decide as Hu; [subst; by rewrite lookup_insert_eq|].
        rewrite lookup_insert_ne by done. case_decide as Hu'.
        * destruct Hu' as [-> _]. by rewrite lookup_insert_eq, Hy.
        * rewrite lookup_insert_ne; [done|]. naive_solver. }
  rewrite Hrun. eexists. split; [done|].
  split; [split|split; [|done]].
  - simpl. by rewrite length_insert.
  - intros i Hi. simpl. rewrite zget_insert by lia. unfold qset.
    destruct (decide (b = i)) as [<-|Hne].
    + rewrite decide_True by done. eexists. split; [done|]. eapply slist_remove; [exact Hc|].
      intros u Hu. unfold hlink. simpl. rewrite Hm, decide_False.
      2:{ intros ->. apply elem_of_app in Hu as [?|?]; done. }
      destruct (ho_pid _ _ Hs b u Hb) as (y & Hy & _).
      { rewrite HH. apply elem_of_app. apply elem_of_app in Hu as [?|?]; [by left|right; by right]. }
      destruct (decide (u = lastZ 0 l1)) as [Hul|].
      * destruct (decide (l1 = [])) as [He|He].
        -- exfalso. subst l1. simpl in Hul. subst u. apply (sl_nonnull _ _ _ Hc). by right.
        -- rewrite decide_True by done. by rewrite Hy.
      * by rewrite decide_False by naive_solver.
    + rewrite decide_False by congruence. destruct (ho_chain _ _ Hs i Hi) as (h' & Hh' & Hc').
      exists h'. split; [done|]. eapply slist_ext; [|exact Hc']. intros u Hu. unfold hlink. simpl.
      rewrite Hm, decide_False, decide_False; [done| |].
      * intros [-> He]. eapply (Hsep i Hi ltac:(congruence)); [|exact Hu].
        rewrite HH. apply elem_of_app. left. by apply lastZ_elem.
      * intros ->. by apply (Hsep i Hi ltac:(congruence) p).
  - intros i u Hi Hu. simpl. rewrite Hm.
    assert (u ∈ H i) as Hui.
    { unfold qset in Hu. case_decide as Hib; [|done]. subst i. rewrite HH. apply elem_of_app.
      apply elem_of_app in Hu as [?|?]; [by left|right; by right]. }
    destruct (ho_pid _ _ Hs i u Hi Hui) as (y & Hy & Hyi).
    repeat case_decide; subst; rewrite ?Hy; simpl; eauto.
    rewrite Hx in Hy. simplify_eq. eauto.
  - intros u. unfold pid_of. simpl. rewrite Hm.
    repeat case_decide; subst; [by rewrite Hx| |done]. by destruct (procs s !! u).
Qed.

(** the pid table behaves as a map: after [pid_hash_insert] of a process
    with a fresh pid, [find_process_by_pid] returns it; every other pid keeps
    its answer; and [pid_hash_remove] then makes the lookup return NULL and
    again leaves the other pids alone. *)
Theorem pid_hash_is_map s H p x fuel :
  hash_ok s H → sched_lock s = false → procs s !! p = Some x → p ≠ 0 →
  0 <= p_pid x < 2 ^ 64 → (∀ i, 0 <= i < PID_HASH_SIZE → p ∉ H i) →
  (∀ i u, 0 <= i < PID_HASH_SIZE → u ∈ H i → pid_of s u ≠ p_pid x) →
  (∀ i, 0 <= i < PID_HASH_SIZE → (S (length (H i)) < fuel)%nat) →
  let same s' := ∀ pid, 0 <= pid < 2 ^ 64 → pid ≠ p_pid x →
    ∃ r, find_process_by_pid fuel pid s = Done (r, s) ∧
         find_process_by_pid fuel pid s' = Done (r, s') in
  ∃ s1 s2, pid_hash_insert p s = Done (tt, s1) ∧
    find_process_by_pid fuel (p_pid x) s1 = Done (p, s1) ∧ same s1 ∧
    pid_hash_remove fuel p s1 = Done (tt, s2) ∧
    find_process_by_pid fuel (p_pid x) s2 = Done (0, s2) ∧ same s2.
Proof.
  intros Hs Hlock Hx Hp0 Hpid Hnew Hfresh Hf same. set (b := p_pid x mod PID_HASH_SIZE).
  pose proof (pid_bucket (p_pid x)) as Hb. fold b in Hb.
  destruct (pid_hash_insert_ok s H p x Hs Hx Hp0 Hnew) as (s1 & Hrun1 & Hs1 & Hpid1 & Hlk1).
  fold b in Hs1. pose proof (Hpid1 p) as Hpp. unfold pid_of in Hpp. rewrite Hx in Hpp. simpl in Hpp.
  destruct (ho_pid _ _ Hs1 b p Hb) as (x1 & Hx1 & _).
  { unfold qset. rewrite decide_True by done. by left. }
  rewrite Hx1 in Hpp. simpl in Hpp.
  destruct (pid_hash_remove_ok s1 (qset H b (p :: H b)) p x1 [] (H b) fuel)
    as (s2 & Hrun2 & Hs2 & Hpid2 & Hlk2); [done|done| | |].
  { rewrite Hpp. fold b. unfold qset. by rewrite decide_True. }
  { rewrite Hpp. fold b. unfold qset. rewrite decide_True by done. by apply Hf. }
  rewrite Hpp in Hs2. fold b in Hs2. simpl in Hs2.
  assert (hash_ok s2 H) as Hs2'.
  { destruct Hs2 as [Ha1 Ha2 Ha3]. split; [done| |].
    - intros i Hi. destruct (Ha2 i Hi) as (h & Hh & Hc). exists h. split; [done|].
      unfold qset in Hc. repeat case_decide; by subst.
    - intros i u Hi Hu. apply Ha3; [done|]. unfold qset. repeat case_decide; by subst. }
  assert (Hnone : filter (λ u, pid_of s u = p_pid x) (H b) = []).
  { apply elem_of_nil_inv. intros u [Hu1 Hu2]%list_elem_of_filter. by apply (Hfresh b u). }
  exists s1, s2. split_and!; [done| | |done| |].
  - rewrite (find_process_ok s1 _ fuel _ Hs1); [|congruence|done|].
    + fold b. unfold qset. rewrite decide_True by done. rewrite filter_cons_True; [done|].
      unfold pid_of. by rewrite Hx1.
    + fold b. unfold qset. rewrite decide_True by done. by apply Hf.
  - intros pid Hr Hne. exists (hdZ 0 (filter (λ u, pid_of s u = pid) (H (pid mod PID_HASH_SIZE)))).
    split; [apply find_process_ok; try done; etrans; [|apply (Hf _ (pid_bucket pid))]; lia|].
    rewrite (find_process_ok s1 _ fuel _ Hs1); [|congruence|done|].
    + f_equal. f_equal. unfold qset. case_decide as Hbb.
      * rewrite filter_cons_False by (rewrite Hpid1; unfold pid_of; rewrite Hx; simpl; congruence).
        rewrite Hbb. f_equal. apply list_filter_iff. intros u. by rewrite Hpid1.
      * f_equal. apply list_filter_iff. intros u. by rewrite Hpid1.
    + unfold qset. case_decide; [by apply Hf|]. etrans; [|apply (Hf _ (pid_bucket pid))]. lia.
  - rewrite (find_process_ok s2 _ fuel _ Hs2'); [|congruence|done|].
    + fold b. rewrite (list_filter_iff _ (λ u, pid_of s u = p_pid x)), Hnone; [done|].
      intros u. by rewrite Hpid2, Hpid1.
    + etrans; [|apply (Hf _ (pid_bucket (p_pid x)))]. lia.
  - intros pid Hr Hne. exists (hdZ 0 (filter (λ u, pid_of s u = pid) (H (pid mod PID_HASH_SIZE)))).
    split; [apply find_process_ok; try done; etrans; [|apply (Hf _ (pid_bucket pid))]; lia|].
    rewrite (find_process_ok s2 _ fuel _ Hs2'); [|congruence|done|].
    + f_equal. f_equal. f_equal. apply list_filter_iff. intros u. by rewrite Hpid2, Hpid1.
    + etrans; [|apply (Hf _ (pid_bucket pid))]. lia.
Qed.

(** ** A concrete system: the idle task, a running and a ready NORMAL task,
    a task blocked on the wait queue at 100 and one on the sleep queue. *)
Definition ex_task (id : Z) (st : task_state) (prio next prev : Z) : task :=
  mk_task id 50 st prio next prev 0 0 0 0 0 0.
Definition ex_proc (pid next : Z) : process :=
  mk_process pid pid pid true [] 0 0 0 0 0 0 [] 0 0 0 0 PROCESS_ACTIVE 0 0 next None 0 0.
Definition ex_sched : sched :=
  mk_sched
    (list_to_map [(1, ex_task 1 TASK_READY 0 0 0); (2, ex_task 2 TASK_RUNNING 2 3 0);
                  (3, ex_task 3 TASK_READY 2 0 2); (4, ex_task 4 TASK_BLOCKED 2 0 0);
                  (5, ex_task 5 TASK_SLEEPING 3 0 0)])
    (list_to_map [(11, ex_proc 1 0); (12, ex_proc 1025 0)])
    {[ 100 := 4 ]} [1; 0; 2; 0; 0] [1; 0; 3; 0; 0] 5 2 false 5
    (<[1%nat := 11]> (replicate 1024 0)) 6 40.
Definition ex_queues (p : Z) : list Z :=
  if decide (p = 0) then [1] else if decide (p = 2) then [2; 3] else [].
Definition ex_buckets (i : Z) : list Z := if decide (i = 1) then [11] else [].

Lemma level_cases p : 0 <= p < COUNT → p = 0 ∨ p = 1 ∨ p = 2 ∨ p = 3 ∨ p = 4.
Proof. unfold COUNT. lia. Qed.

Lemma ex_sched_ok : sched_ok ex_sched ex_queues.
Proof.
  split; [done|done| | | |done].
  - intros p Hp. destruct (level_cases p Hp) as [-> |[-> |[-> |[-> | -> ]]]];
      eexists _, _; (split; [reflexivity|split; [reflexivity|]]);
      (split; [repeat split|done|done|by apply (bool_decide_unpack _)|by apply (bool_decide_unpack _)]).
  - intros p t Hp Ht. destruct (level_cases p Hp) as [-> |[-> |[-> |[-> | -> ]]]]; cbn in Ht;
      repeat (apply elem_of_cons in Ht as [->|Ht]; [by eexists|]); by apply not_elem_of_nil in Ht.
  - intros p Hp. destruct (level_cases p Hp) as [-> |[-> |[-> |[-> | -> ]]]]; done.
Qed.

Lemma ex_waiting : waiting ex_sched 100 [4] ∧ Forall (parked ex_sched ex_queues) [4].
Proof.
  split.
  - split; [by repeat split|done|by apply (bool_decide_unpack _)|by apply (bool_decide_unpack _)].
  - apply Forall_singleton. split; [done|]. eexists. split; [reflexivity|].
    split; [done|by apply (bool_decide_unpack _)].
Qed.
Lemma ex_sleeping : sleeping ex_sched [5] ∧ Forall (parked ex_sched ex_queues) [5].
Proof.
  split.
  - split; [by repeat split|done|by apply (bool_decide_unpack _)|by apply (bool_decide_unpack _)].
  - apply Forall_singleton. split; [done|]. eexists. split; [reflexivity|].
    split; [done|by apply (bool_decide_unpack _)].
Qed.

Lemma ex_hash_ok : hash_ok ex_sched ex_buckets.
Proof.
  split; [done| |].
  - intros i Hi. unfold ex_buckets. case_decide as H1.
    + subst. exists 11. split; [done|].
      split; [by repeat split|done|by apply (bool_decide_unpack _)|by apply (bool_decide_unpack _)].
    + exists 0. split; [|split; [done|done|apply NoDup_nil_2|apply not_elem_of_nil]].
      unfold PID_HASH_SIZE in Hi. change (pid_hash ex_sched) with (<[Z.to_nat 1 := 11]> (replicate 1024 0)).
      rewrite zget_insert by (rewrite ?length_replicate; lia).
      rewrite decide_False by congruence. unfold zget. rewrite decide_True by lia.
      apply lookup_replicate_2. lia.
  - intros i p Hi Hp. unfold ex_buckets in Hp. case_decide as H1; [|by apply not_elem_of_nil in Hp].
    apply list_elem_of_singleton in Hp as ->. subst. by eexists.
Qed.

Lemma schedule_picks_highest_witness :
  ∃ s' n, schedule ex_sched = Done (tt, s') ∧ current_task s' = n ∧ sched_lock s' = false.
Proof.
  destruct (schedule_picks_highest ex_sched ex_queues ex_sched_ok eq_refl)
    as (s' & p & n & l & y & Hrun & _ & Hl & _ & _ & Hn & _).
  - done.
  - intros _. by eexists.
  - exists s', n. done.
Defined.

Lemma run_queues_are_lists_witness :
  ∃ s', sched_dequeue_task 2 ex_sched = Done (tt, s') ∧
    sched_ok s' (qset ex_queues 2 [3]).
Proof.
  destruct (run_queues_are_lists ex_sched ex_queues 2 (ex_task 2 TASK_RUNNING 2 3 0) ex_sched_ok)
    as [_ Hdeq]; [done|done|done|].
  destruct Hdeq as (s' & Hrun & _ & Hs' & _); [by left|]. by exists s'.
Defined.

Lemma wake_up_lifo_witness :
  ∃ s' x, wake_up 100 ex_sched = Done (tt, s') ∧ waiting s' 100 [] ∧
    tasks s' !! 4 = Some x ∧ t_state x = TASK_READY.
Proof.
  destruct (wake_up_lifo ex_sched ex_queues 100 [4] ex_sched_ok eq_refl (proj1 ex_waiting)
    (proj2 ex_waiting)) as (s' & x & Hrun & Hw & _ & Hx & Hst & _). by exists s', x.
Defined.

Lemma sleep_on_blocks_witness :
  ∃ s', sleep_on 100 (ret tt) ex_sched = Done (tt, s') ∧ waiting s' 100 [2; 4].
Proof.
  destruct (sleep_on_blocks ex_sched ex_queues 100 [4] (ex_task 2 TASK_RUNNING 2 3 0) ex_sched_ok
    eq_refl (proj1 ex_waiting)) as (s' & p & n & l & y & Hrun & _ & _ & Hw & _);
    [by apply (bool_decide_unpack _)|done|done|by left|done|]. by exists s'.
Defined.

Lemma sched_check_sleeping_tasks_exact_witness :
  ∃ s', sched_check_sleeping_tasks 2 60 ex_sched = Done (tt, s') ∧ sleeping s' [].
Proof.
  destruct (sched_check_sleeping_tasks_exact ex_sched ex_queues [5] 60 2 ex_sched_ok eq_refl
    (proj1 ex_sleeping) (proj2 ex_sleeping)) as (s' & Hrun & _ & Hw & _); [simpl; lia|].
  by exists s'.
Defined.

Lemma timeout_sleeper_hides_sleep_queue_witness :
  ∃ s', sleep_on_timeout_begin 200 1000 ex_sched = Done (true, s') ∧ sleep_queue s' = 2 ∧
    sched_check_sleeping_tasks 2 500 s' = Done (tt, s').
Proof.
  apply (timeout_sleeper_hides_sleep_queue ex_sched ex_queues 200 (ex_task 2 TASK_RUNNING 2 3 0)
    1000 500 ex_sched_ok); [done|done|done|done|by left|done|done|done].
Defined.

Lemma pid_hash_is_map_witness :
  ∃ s1 s2, pid_hash_insert 12 ex_sched = Done (tt, s1) ∧
    find_process_by_pid 5 1025 s1 = Done (12, s1) ∧
    pid_hash_remove 5 12 s1 = Done (tt, s2) ∧ find_process_by_pid 5 1025 s2 = Done (0, s2).
Proof.
  destruct (pid_hash_is_map ex_sched ex_buckets 12 (ex_proc 1025 0) 5 ex_hash_ok)
    as (s1 & s2 & H1 & H2 & _ & H3 & H4 & _); try done.
  - intros i Hi. unfold ex_buckets. case_decide; by apply (bool_decide_unpack _).
  - intros i u Hi Hu. unfold ex_buckets in Hu. case_decide; [|by apply not_elem_of_nil in Hu].
    by apply list_elem_of_singleton in Hu as ->.
  - intros i Hi. unfold ex_buckets. case_decide; simpl; lia.
  - by exists s1, s2.
Defined.
