(* ===== verification/Sync.v ===== *)
(** Semaphores and mutexes, [kernel/threading/sync.c], and what waking a task
    leaves true of the scheduler.  An operation runs on the pair of the
    scheduler and the object.  A waiting loop is modelled by one pass: a pass
    that puts the task to sleep returns [false], and the loop runs another pass
    when the task is given the CPU again. *)
From S2P Require Export Sched.
Local Open Scope prog_scope.

Record semaphore := mk_semaphore { sem_lock : bool; sem_count : Z; sem_wait_list : Z }.
Record mutex := mk_mutex { mx_lock : bool; mx_locked : bool; mx_wait_list : Z }.
Definition set_sem_lock v s := mk_semaphore v (sem_count s) (sem_wait_list s).
Definition set_sem_count v s := mk_semaphore (sem_lock s) v (sem_wait_list s).
Definition set_mx_lock v m := mk_mutex v (mx_locked m) (mx_wait_list m).
Definition set_mx_locked v m := mk_mutex (mx_lock m) v (mx_wait_list m).

Section sync.
Context {O : Type}.
Definition of_sched {A} (m : M sched A) : M (sched * O) A := zoom fst (λ s so, (s, so.2)) m.
Definition of_obj {A} (m : M O A) : M (sched * O) A := zoom snd (λ o so, (so.1, o)) m.
End sync.

(** [sem_init]; [w] is the address of [sem->wait_list]. *)
Definition sem_init (w count : Z) : M (sched * semaphore) unit :=
  of_obj (modify (λ _, mk_semaphore false count w));;; of_sched (put_wq w 0).
Definition sem_acquire_lock : M (sched * semaphore) unit := of_obj (spin_acquire sem_lock set_sem_lock).
Definition sem_release_lock : M (sched * semaphore) unit := of_obj (spin_release set_sem_lock).
(** [sleep_on] releases the lock on its way; it does not look at it. *)
Definition sem_wait_pass : M (sched * semaphore) bool :=
  sem_acquire_lock;;;
  c <- of_obj (gets sem_count);;
  if 0 <? c then of_obj (modify (λ s, set_sem_count (sem_count s - 1) s));;; sem_release_lock;;; ret true
  else
    w <- of_obj (gets sem_wait_list);;
    sem_release_lock;;;
    of_sched (sleep_on w (ret tt));;;
    ret false.
Definition sem_signal : M (sched * semaphore) unit :=
  sem_acquire_lock;;;
  of_obj (modify (λ s, set_sem_count (i32 (sem_count s + 1)) s));;;
  w <- of_obj (gets sem_wait_list);;
  of_sched (wake_up w);;;
  sem_release_lock.

Definition mutex_init (w : Z) : M (sched * mutex) unit :=
  of_obj (modify (λ _, mk_mutex false false w));;; of_sched (put_wq w 0).
Definition mutex_acquire_lock : M (sched * mutex) unit := of_obj (spin_acquire mx_lock set_mx_lock).
Definition mutex_release_lock : M (sched * mutex) unit := of_obj (spin_release set_mx_lock).
Definition mutex_acquire_pass : M (sched * mutex) bool :=
  mutex_acquire_lock;;;
  l <- of_obj (gets mx_locked);;
  if negb l then of_obj (modify (set_mx_locked true));;; mutex_release_lock;;; ret true
  else
    w <- of_obj (gets mx_wait_list);;
    mutex_release_lock;;;
    of_sched (sleep_on w (ret tt));;;
    ret false.
Definition mutex_release : M (sched * mutex) unit :=
  mutex_acquire_lock;;;
  of_obj (modify (set_mx_locked false));;;
  w <- of_obj (gets mx_wait_list);;
  of_sched (wake_up w);;;
  mutex_release_lock.

(** ** The scheduler between calls *)

(** The run queues are [Q], the tasks asleep on each wait queue are [W]. *)
Record sync_ok (s : sched) (Q W : Z → list Z) : Prop := mk_sync_ok {
  sy_sched : sched_ok s Q;
  sy_lock : sched_lock s = false;
  sy_waiting : ∀ q, waiting s q (W q);
  sy_parked : ∀ q, Forall (parked s Q) (W q);
  sy_disjoint : ∀ q q' w, w ∈ W q → w ∈ W q' → q = q';
}.
Definition woken_queue (W : Z → list Z) (q : Z) : Z → list Z := λ q', if decide (q' = q) then tail (W q) else W q'.

Lemma wlink_kept s s' t : task_core <$> tasks s' !! t = task_core <$> tasks s !! t → wlink s' t = wlink s t.
Proof.
  unfold wlink. destruct (tasks s !! t) as [x|], (tasks s' !! t) as [y|]; try done. intros Hxy.
  change (Some (task_core y) = Some (task_core x)) in Hxy. injection Hxy as H1 H2 H3 H4. done.
Qed.

(** What waking leaves: the processes, the current task, the queued tasks. *)
Record calm (s s' : sched) : Prop := mk_calm {
  cm_procs : procs s' = procs s;
  cm_current : current_task s' = current_task s;
  cm_hash : pid_hash s' = pid_hash s;
  cm_tasks : ∀ t x, tasks s !! t = Some x → ∃ y, tasks s' !! t = Some y ∧ t_proc y = t_proc x ∧ t_priority y = t_priority x;
}.
#[export] Instance calm_preorder : PreOrder calm.
Proof.
  split; [intros s; split; eauto|]. intros s1 s2 s3 [] []. split; try congruence.
  intros t x Hx. destruct (cm_tasks0 t x Hx) as (y & Hy & ? & ?), (cm_tasks1 t y Hy) as (z & Hz & ? & ?). exists z. split; [done|split; congruence].
Qed.

Lemma woken_queue_sub W q q' u : u ∈ woken_queue W q q' → u ∈ W q'.
Proof. unfold woken_queue. case_decide as Hq; [subst|done]. destruct (W q); [done|]. by right. Qed.

(** Waking on a queue keeps the scheduler in order, whichever tasks sleep. *)
Lemma wake_up_sync s Q W q : sync_ok s Q W →
  ∃ s' Q', wake_up q s = Done (tt, s') ∧ sync_ok s' Q' (woken_queue W q) ∧ calm s s' ∧
    (∀ w, head (W q) = Some w → ∃ p, w ∈ Q' p) ∧ (∀ p t, t ∈ Q p → t ∈ Q' p).
Proof.
  intros [Hs Hl Hw Hp Hd]. pose proof (wake_up_lifo s Q q (W q) Hs Hl (Hw q) (Hp q)) as Hrun.
  destruct (W q) as [|w ws] eqn:HW.
  - exists s, Q. split; [done|]. split; [|split; [done|done]]. split; try done.
    + intros q'. unfold woken_queue. case_decide; subst; [|apply Hw]. pose proof (Hw q) as Hq. by rewrite HW in *.
    + intros q'. unfold woken_queue. case_decide; subst; [by rewrite HW; constructor|done].
    + intros q1 q2 u H1%woken_queue_sub H2%woken_queue_sub. by apply (Hd q1 q2 u).
  - destruct Hrun as (s' & x & Hrun & Hw' & Hl' & Hx & Hst & Hs' & [Ht Hself Hwq Hpr Hcu Hha]).
    set (Q' := qset Q (t_priority x) (Q (t_priority x) ++ [w])) in *.
    assert (HQ : ∀ p t, t ∈ Q p → t ∈ Q' p) by (intros p t Ht'; unfold Q', qset; case_decide; subst; [apply elem_of_app; by left|done]).
    assert (Hws : w ∉ ws) by (pose proof (Hw q) as Hsl; rewrite HW in Hsl; by apply slist_tail in Hsl as (_ & _ & ? & _)).
    assert (Hne : ∀ q' u, q' ≠ q → u ∈ W q' → u ≠ w).
    { intros q' u Hq Hu ->. destruct Hq. apply (Hd q' q w Hu). rewrite HW. by left. }
    assert (Hpk : ∀ u, u ≠ w → parked s Q u → parked s' Q' u).
    { intros u Hu [Hu0 (y & Hy & Hyp & Hin)]. split; [done|]. specialize (Ht u Hu). rewrite Hy in Ht.
      destruct (tasks s' !! u) as [z|] eqn:Hz; [|done]. change (Some (task_core z) = Some (task_core y)) in Ht.
      apply Some_inj, task_core_fields in Ht as (Hzp & _). exists z. split; [done|]. rewrite Hzp. split; [done|].
      unfold Q', qset. case_decide as He; [|done]. rewrite He in Hin. intros [?|?%list_elem_of_singleton]%elem_of_app; done. }
    exists s', Q'. split; [done|]. split; [|split; [|split; [|done]]].
    + split; try done; unfold woken_queue; rewrite HW; simpl.
      * intros q'. case_decide as Hq; [by subst|]. unfold waiting. rewrite Hwq by done. eapply slist_ext; [|apply Hw].
        intros u Hu. apply wlink_kept, Ht. by eapply Hne.
      * intros q'. apply Forall_forall. intros u Hu. case_decide as Hq.
        -- apply Hpk; [by intros ->|]. pose proof (Hp q) as Hf. rewrite HW in Hf. apply Forall_cons in Hf as [_ Hf]. by eapply Forall_forall in Hf.
        -- apply Hpk; [by eapply Hne|]. pose proof (Hp q') as Hf. by eapply Forall_forall in Hf.
      * intros q1 q2 u H1 H2. apply (Hd q1 q2 u).
        -- apply (woken_queue_sub W q). unfold woken_queue. by rewrite HW.
        -- apply (woken_queue_sub W q). unfold woken_queue. by rewrite HW.
    + split; try done. intros t y Hy. destruct (decide (t = w)) as [->|Htw].
      * exact (Hself y Hy).
      * specialize (Ht t Htw). rewrite Hy in Ht. destruct (tasks s' !! t) as [z|]; [|done].
        change (Some (task_core z) = Some (task_core y)) in Ht. injection Ht as _ _ _ Hprio _. exists z. done.
    + intros u [= <-]. exists (t_priority x). unfold Q', qset. rewrite decide_True by done. apply elem_of_app. right. by left.
Qed.

(** ** Mutexes *)

Lemma of_sched_Done {O A} (m : M sched A) s (o : O) a s' : m s = Done (a, s') → of_sched m (s, o) = Done (a, (s', o)).
Proof. intros H. unfold of_sched, zoom. simpl. by rewrite H. Qed.

Lemma mutex_acquire_free s m : mx_lock m = false → mx_locked m = false →
  mutex_acquire_pass (s, m) = Done (true, (s, set_mx_locked true m)).
Proof. destruct m as [lk ld w]. simpl. by intros -> ->. Qed.
Lemma mutex_release_ok s m Q W : sync_ok s Q W → mx_lock m = false →
  ∃ s' Q', mutex_release (s, m) = Done (tt, (s', set_mx_locked false m)) ∧ sync_ok s' Q' (woken_queue W (mx_wait_list m)) ∧ calm s s' ∧
    (∀ p t, t ∈ Q p → t ∈ Q' p).
Proof.
  destruct m as [lk ld w]. simpl. intros Hs ->. destruct (wake_up_sync s Q W w Hs) as (s' & Q' & Hrun & Hs' & Hc & _ & HQ).
  exists s', Q'. split; [|done]. unfold mutex_release, mutex_acquire_lock, of_obj, of_sched, bind, zoom, spin_acquire, modify, gets.
  simpl. by rewrite Hrun.
Qed.
Lemma mutex_release_idle s m Q W : sync_ok s Q W → W (mx_wait_list m) = [] → mx_lock m = false →
  mutex_release (s, m) = Done (tt, (s, set_mx_locked false m)).
Proof.
  destruct m as [lk ld w]. simpl. intros [Hs Hl Hw Hp _] Hnil ->. pose proof (wake_up_lifo s Q w (W w) Hs Hl (Hw w) (Hp w)) as Hrun.
  rewrite Hnil in Hrun. unfold mutex_release, mutex_acquire_lock, of_obj, of_sched, bind, zoom, spin_acquire, modify, gets.
  simpl. by rewrite Hrun.
Qed.

(** Processes, and the heads of queues without waiters, do not matter. *)
Lemma sync_ok_frame s s' Q W : sync_ok s Q W → tasks s' = tasks s → runqueues s' = runqueues s → runqueues_tail s' = runqueues_tail s →
  active_priorities s' = active_priorities s → sched_lock s' = false →
  (∀ q, default 0 (wait_queues s' !! q) = default 0 (wait_queues s !! q) ∨ W q = [] ∧ default 0 (wait_queues s' !! q) = 0) → sync_ok s' Q W.
Proof.
  intros [Hs Hl Hw Hp Hd] Ht Hr Hrt Ha Hl' Hq. split; [|done| | |done].
  - apply (sched_ok_frame s _ _ Hs); try done. intros p t x _ _ Hx. exists x. by rewrite Ht.
  - intros q. unfold waiting. destruct (Hq q) as [-> |[-> ->]]; [|split; [done|done|apply NoDup_nil_2|apply not_elem_of_nil]].
    eapply slist_ext; [|apply Hw]. intros t _. unfold wlink. by rewrite Ht.
  - intros q. eapply Forall_impl; [apply Hp|]. intros w [H0 (x & Hx & H)]. split; [done|]. exists x. by rewrite Ht.
Qed.

(** ** A concrete scheduler *)

(** The system of [ex_sched], with task 2 running process 11. *)
Definition ex_run_task : task := mk_task 2 50 TASK_RUNNING 2 3 0 0 0 0 0 11 0.
Definition ex_run_sched (x : process) : sched :=
  set_procs {[11 := x]} (set_tasks (<[2 := ex_run_task]> (tasks ex_sched)) ex_sched).
Definition ex_wait (q : Z) : list Z := if decide (q = 100) then [4] else [].

Lemma ex_run_wlink x t : wlink (ex_run_sched x) t = wlink ex_sched t.
Proof.
  unfold wlink, ex_run_sched. cbn [tasks set_procs set_tasks]. destruct (decide (t = 2)) as [->|]; [by rewrite lookup_insert_eq|by rewrite lookup_insert_ne].
Qed.
Lemma ex_run_ok x : sync_ok (ex_run_sched x) ex_queues ex_wait.
Proof.
  assert (Ht : ∀ t y, t ≠ 2 → tasks ex_sched !! t = Some y → tasks (ex_run_sched x) !! t = Some y).
  { intros t y Hne Hy. unfold ex_run_sched. cbn [tasks set_procs set_tasks]. by rewrite lookup_insert_ne. }
  split.
  - apply (sched_ok_frame ex_sched _ _ ex_sched_ok); try done. intros p t y _ _ Hy. destruct (decide (t = 2)) as [->|].
    + exists ex_run_task. split; [done|]. vm_compute in Hy. by injection Hy as <-.
    + exists y. split; [by apply Ht|done].
  - done.
  - intros q. unfold ex_wait. case_decide; [subst|].
    + eapply slist_ext; [|apply ex_waiting]. intros; apply ex_run_wlink.
    + unfold waiting. change (wait_queues (ex_run_sched x)) with ({[100 := 4]} : gmap Z Z). rewrite lookup_singleton_ne by done.
      split; [done|done|apply NoDup_nil_2|apply not_elem_of_nil].
  - intros q. unfold ex_wait. case_decide; [|constructor]. apply Forall_singleton. split; [done|].
    exists (ex_task 4 TASK_BLOCKED 2 0 0). split; [done|]. split; [done|by apply (bool_decide_unpack _)].
  - intros q q' w. unfold ex_wait. repeat case_decide; subst; try done; intros H1 H2; by apply not_elem_of_nil in H1 || by apply not_elem_of_nil in H2.
Qed.
