(* ===== verification/Vma.v ===== *)
(** Address spaces, [kernel/mm/vma.c]: the list of mapped areas of a process,
    insertion, lookup, unmapping with splitting, allocation of a free range,
    the page-fault handler, stack growth and duplication with copy on write.
    The areas are objects linked by [vm_next]; [kmalloc] results are consumed
    from the list [allocs] (0, or an exhausted list, is a failed allocation). *)
From Stdlib Require Import Sorted.
From S2P Require Export Vmm DList.

Local Open Scope prog_scope.

Definition VMA_READ : Z := Z.shiftl 1 0.
Definition VMA_WRITE : Z := Z.shiftl 1 1.
Definition VMA_EXEC : Z := Z.shiftl 1 2.
Definition VMA_SHARED : Z := Z.shiftl 1 3.
Definition VMA_GROWSDN : Z := Z.shiftl 1 6.
Definition VMA_ANONYMOUS : Z := 0.
Definition VMA_FILE : Z := 1.
Definition VMA_DEVICE : Z := 2.
Definition USER_STACK_TOP : Z := 0x3FFFFF0000.
Definition USER_STACK_SIZE : Z := 8 * 1024 * 1024.
Definition USER_HEAP_START : Z := 0x10000000.
Definition USER_MMAP_BASE : Z := 0x2000000000.

Record vma := mk_vma {
  vm_start : Z;
  vm_end : Z;
  vm_flags : Z;
  vm_type : Z;
  vm_file : Z;
  vm_pgoff : Z;
  vm_next : Z;
}.
Definition set_vm_start v a := mk_vma v (vm_end a) (vm_flags a) (vm_type a) (vm_file a) (vm_pgoff a) (vm_next a).
Definition set_vm_end v a := mk_vma (vm_start a) v (vm_flags a) (vm_type a) (vm_file a) (vm_pgoff a) (vm_next a).
Definition set_vm_file v a := mk_vma (vm_start a) (vm_end a) (vm_flags a) (vm_type a) v (vm_pgoff a) (vm_next a).
Definition set_vm_pgoff v a := mk_vma (vm_start a) (vm_end a) (vm_flags a) (vm_type a) (vm_file a) v (vm_next a).
Definition set_vm_next v a := mk_vma (vm_start a) (vm_end a) (vm_flags a) (vm_type a) (vm_file a) (vm_pgoff a) v.

Record mm_struct := mk_mm {
  page_table : Z;      (* physical address *)
  vma_list : Z;
  heap_start : Z;
  heap_end : Z;
  stack_start : Z;
  mmap_base : Z;
}.
Definition set_vma_list v m := mk_mm (page_table m) v (heap_start m) (heap_end m) (stack_start m) (mmap_base m).
Definition set_page_table v m := mk_mm v (vma_list m) (heap_start m) (heap_end m) (stack_start m) (mmap_base m).

(** [(x + PAGE_SIZE - 1) & ~(PAGE_SIZE - 1)] and [x & ~(PAGE_SIZE - 1)]. *)
Definition page_up (x : Z) : Z := andnot (u64 (x + PAGE_SIZE - 1)) (PAGE_SIZE - 1).
Definition page_down (x : Z) : Z := andnot x (PAGE_SIZE - 1).

(** The addresses visited by [for (addr = s; addr < e; addr += PAGE_SIZE)]. *)
Definition pages (s e : Z) : list Z := map (λ k, s + k * PAGE_SIZE) (seqZ 0 ((e - s + PAGE_SIZE - 1) / PAGE_SIZE)).

Section vma.
Context {FA : Type} `{!FrameAllocator FA}.

Record vmst := mk_vmst {
  pt : vmm FA;
  vmas : gmap Z vma;
  mms : gmap Z mm_struct;
  vma_lock : bool;
  allocs : list Z;
}.
Definition set_pt v s := mk_vmst v (vmas s) (mms s) (vma_lock s) (allocs s).
Definition set_vmas v s := mk_vmst (pt s) v (mms s) (vma_lock s) (allocs s).
Definition set_mms v s := mk_vmst (pt s) (vmas s) v (vma_lock s) (allocs s).
Definition set_vma_lock v s := mk_vmst (pt s) (vmas s) (mms s) v (allocs s).
Definition set_allocs v s := mk_vmst (pt s) (vmas s) (mms s) (vma_lock s) v.

Definition get_vma (a : Z) : M vmst vma := λ s, of_opt (vmas s !! a) s.
Definition mod_vma (a : Z) (f : vma → vma) : M vmst unit := λ s,
  match vmas s !! a with
  | Some x => Done (tt, set_vmas (<[a := f x]> (vmas s)) s)
  | None => Fault
  end.
Definition get_mm (a : Z) : M vmst mm_struct := λ s, of_opt (mms s !! a) s.
Definition mod_mm (a : Z) (f : mm_struct → mm_struct) : M vmst unit := λ s,
  match mms s !! a with
  | Some x => Done (tt, set_mms (<[a := f x]> (mms s)) s)
  | None => Fault
  end.
Definition kmalloc : M vmst Z := λ s,
  match allocs s with
  | [] => Done (0, s)
  | a :: l => Done (a, set_allocs l s)
  end.
Definition kfree_vma (a : Z) : M vmst unit := modify (λ s, set_vmas (delete a (vmas s)) s).
Definition kfree_mm (a : Z) : M vmst unit := modify (λ s, set_mms (delete a (mms s)) s).
Definition on_pt {A} (m : M (vmm FA) A) : M vmst A := zoom pt set_pt m.
Definition vma_acquire : M vmst unit := spin_acquire vma_lock set_vma_lock.
Definition vma_release : M vmst unit := spin_release set_vma_lock.
(** A list without a cycle is no longer than the number of areas. *)
Definition list_fuel (s : vmst) : nat := S (size (vmas s)).
Definition with_fuel {A} (f : nat → M vmst A) : M vmst A := λ s, f (list_fuel s) s.

(** The page-table entry of [addr] in the tables of [mm], 0 (NULL) if absent. *)
Definition mm_pte (table addr : Z) : M vmst Z :=
  on_pt (gets (λ p, vmm_get_pte_from_table (ram p) (P2V table) addr)).

(** [FREE_PAGES(s, e)], one page; [keep] for the pages of a device. *)
Definition free_page (table : Z) (keep : bool) (addr : Z) : M vmst unit :=
  pte <- mm_pte table addr;;
  if pte =? 0 then ret tt
  else
    e <- on_pt (read64 pte);;
    if has e PT_VALID then
      (if keep then ret tt else on_pt (free_frame (entry_phys e)));;;
      on_pt (write64 pte 0)
    else ret tt.
Definition free_pages (table : Z) (keep : bool) (s e : Z) : M vmst unit :=
  for_each (free_page table keep) (pages s e).

Definition vma_create (start end_ flags type : Z) : M vmst Z :=
  if (end_ <=? start) || (USER_SPACE_END <? end_) then ret 0
  else
    a <- kmalloc;;
    if a =? 0 then ret 0
    else
      modify (λ s, set_vmas (<[a := mk_vma start end_ flags type 0 0 0]> (vmas s)) s);;;
      ret a.

(** The overlap test over the whole list. *)
Fixpoint overlap_loop (fuel : nat) (new : vma) (a : Z) : M vmst bool :=
  match fuel with
  | O => faultM
  | S f =>
      if a =? 0 then ret false
      else
        v <- get_vma a;;
        if negb ((vm_end new <=? vm_start v) || (vm_end v <=? vm_start new)) then ret true
        else overlap_loop f new (vm_next v)
  end.
(** [prev], advanced while the next area starts below the new one. *)
Fixpoint find_prev (fuel : nat) (start : Z) (prev : Z) : M vmst Z :=
  match fuel with
  | O => faultM
  | S f =>
      v <- get_vma prev;;
      if vm_next v =? 0 then ret prev
      else
        w <- get_vma (vm_next v);;
        if vm_start w <? start then find_prev f start (vm_next v) else ret prev
  end.

Definition vma_insert (mm new_vma : Z) : M vmst Z :=
  if (mm =? 0) || (new_vma =? 0) then ret (-1)
  else
    vma_acquire;;;
    m <- get_mm mm;;
    n <- get_vma new_vma;;
    o <- with_fuel (λ fuel, overlap_loop fuel n (vma_list m));;
    if o then vma_release;;; ret (-1)
    else
      front <- (if vma_list m =? 0 then ret true
                else h <- get_vma (vma_list m);; ret (vm_start n <? vm_start h));;
      (if front then
         mod_vma new_vma (set_vm_next (vma_list m));;;
         mod_mm mm (set_vma_list new_vma)
       else
         prev <- with_fuel (λ fuel, find_prev fuel (vm_start n) (vma_list m));;
         p <- get_vma prev;;
         mod_vma new_vma (set_vm_next (vm_next p));;;
         mod_vma prev (set_vm_next new_vma));;;
      vma_release;;;
      ret 0.

Fixpoint find_loop (fuel : nat) (addr a : Z) : M vmst Z :=
  match fuel with
  | O => faultM
  | S f =>
      if a =? 0 then ret 0
      else
        v <- get_vma a;;
        if (vm_start v <=? addr) && (addr <? vm_end v) then ret a
        else find_loop f addr (vm_next v)
  end.
Definition vma_find (mm addr : Z) : M vmst Z :=
  if mm =? 0 then ret 0
  else
    vma_acquire;;;
    m <- get_mm mm;;
    r <- with_fuel (λ fuel, find_loop fuel addr (vma_list m));;
    vma_release;;;
    ret r.

(** The loop of [vma_unmap]; [false] when the split of an area fails. *)
Fixpoint unmap_loop (fuel : nat) (mm table start end_ prev a : Z) : M vmst bool :=
  match fuel with
  | O => faultM
  | S f =>
      if a =? 0 then ret true
      else
        v <- get_vma a;;
        let next := vm_next v in
        let keep := vm_type v =? VMA_DEVICE in
        if (vm_end v <=? start) || (end_ <=? vm_start v) then
          unmap_loop f mm table start end_ a next
        else if (start <=? vm_start v) && (vm_end v <=? end_) then
          free_pages table keep (vm_start v) (vm_end v);;;
          (if prev =? 0 then mod_mm mm (set_vma_list next) else mod_vma prev (set_vm_next next));;;
          kfree_vma a;;;
          unmap_loop f mm table start end_ prev next
        else if (start <=? vm_start v) && (end_ <? vm_end v) then
          free_pages table keep (vm_start v) end_;;;
          mod_vma a (set_vm_start end_);;;
          unmap_loop f mm table start end_ a next
        else if (vm_start v <? start) && (vm_end v <=? end_) then
          free_pages table keep start (vm_end v);;;
          mod_vma a (set_vm_end start);;;
          unmap_loop f mm table start end_ a next
        else if (vm_start v <? start) && (end_ <? vm_end v) then
          new <- vma_create end_ (vm_end v) (vm_flags v) (vm_type v);;
          if new =? 0 then ret false
          else
            free_pages table keep start end_;;;
            mod_vma a (set_vm_end start);;;
            mod_vma new (set_vm_next next);;;
            mod_vma a (set_vm_next new);;;
            unmap_loop f mm table start end_ a next
        else unmap_loop f mm table start end_ a next
  end.
Definition vma_unmap (mm start end_ : Z) : M vmst Z :=
  if (mm =? 0) || (end_ <=? start) then ret (-1)
  else
    vma_acquire;;;
    m <- get_mm mm;;
    ok <- with_fuel (λ fuel, unmap_loop fuel mm (page_table m) start end_ 0 (vma_list m));;
    vma_release;;;
    ret (if (ok : bool) then 0 else -1).

(** The first-fit search of [vma_allocate] from [addr]. *)
Fixpoint gap_loop (fuel : nat) (length addr a : Z) : M vmst Z :=
  match fuel with
  | O => faultM
  | S f =>
      if a =? 0 then ret addr
      else
        v <- get_vma a;;
        if u64 (addr + length) <=? vm_start v then ret addr
        else gap_loop f length (if addr <? vm_end v then vm_end v else addr) (vm_next v)
  end.

(** The common part of [vma_allocate] and [vma_allocate_file]: the address
    chosen, [None] when there is no room. *)
Definition choose_addr (mm addr length : Z) : M vmst (option Z) :=
  vma_acquire;;;
  r <- (if addr =? 0 then
          m <- get_mm mm;;
          addr <- with_fuel (λ fuel, gap_loop fuel length (mmap_base m) (vma_list m));;
          ret (if USER_SPACE_END <? u64 (addr + length) then None else Some addr)
        else ret (Some addr));;
  vma_release;;;
  ret r.

Definition vma_allocate (mm addr length flags : Z) : M vmst Z :=
  if (mm =? 0) || (length =? 0) then ret 0
  else
    let length := page_up length in
    o <- choose_addr mm addr length;;
    match o with
    | None => ret 0
    | Some addr =>
        new <- vma_create addr (u64 (addr + length)) flags VMA_ANONYMOUS;;
        if new =? 0 then ret 0
        else
          r <- vma_insert mm new;;
          if r <? 0 then kfree_vma new;;; ret 0 else ret addr
    end.

Definition vma_allocate_file (mm addr length flags file offset : Z) : M vmst Z :=
  if (mm =? 0) || (length =? 0) then ret 0
  else
    let length := page_up length in
    o <- choose_addr mm addr length;;
    match o with
    | None => ret 0
    | Some addr =>
        new <- vma_create addr (u64 (addr + length)) flags VMA_FILE;;
        if new =? 0 then ret 0
        else
          mod_vma new (set_vm_file file);;;
          mod_vma new (set_vm_pgoff offset);;;
          r <- vma_insert mm new;;
          if r <? 0 then kfree_vma new;;; ret 0 else ret addr
    end.

(** The first area that grows down. *)
Fixpoint find_growsdown (fuel : nat) (a : Z) : M vmst Z :=
  match fuel with
  | O => faultM
  | S f =>
      if a =? 0 then ret 0
      else
        v <- get_vma a;;
        if has (vm_flags v) VMA_GROWSDN then ret a else find_growsdown f (vm_next v)
  end.
Definition vma_expand_stack (mm addr : Z) : M vmst Z :=
  if mm =? 0 then ret (-1)
  else
    m <- get_mm mm;;
    stack_vma <- with_fuel (λ fuel, find_growsdown fuel (vma_list m));;
    if stack_vma =? 0 then ret (-1)
    else
      let new_start := page_down addr in
      if new_start <? USER_STACK_TOP - USER_STACK_SIZE * 2 then ret (-1)
      else
        vma_acquire;;;
        mod_vma stack_vma (set_vm_start new_start);;;
        vma_release;;;
        ret 0.

(** The descriptor for a page of an area with these flags. *)
Definition user_entry (phys flags : Z) : Z :=
  let entry := Z.lor (Z.lor (Z.lor (Z.lor phys PT_VALID) PT_AF) PT_PAGE) PT_SH_INNER in
  let entry := Z.lor entry (Z.shiftl MT_NORMAL 2) in
  let entry := Z.lor entry PT_AP_RW_EL0 in
  let entry := if has flags VMA_WRITE then entry
               else Z.lor (andnot entry (Z.shiftl 1 7)) PT_AP_RO_EL0 in
  if has flags VMA_EXEC then entry else Z.lor entry PT_UXN.
Definition cow_entry (phys flags : Z) : Z :=
  let entry := Z.lor (Z.lor (Z.lor (Z.lor phys PT_VALID) PT_AF) PT_PAGE) PT_SH_INNER in
  let entry := Z.lor entry (Z.shiftl MT_NORMAL 2) in
  let entry := Z.lor entry PT_AP_RW_EL0 in
  if has flags VMA_EXEC then entry else Z.lor entry PT_UXN.

(** [vma_page_fault]; [vfs_read node offset size buffer] fills the page of a
    file mapping. *)
Definition vma_page_fault (vfs_read : Z → Z → Z → Z → M vmst Z) (mm addr : Z) (is_write : bool)
    : M vmst Z :=
  if mm =? 0 then ret (-1)
  else
    a <- vma_find mm addr;;
    if a =? 0 then
      if (addr <? USER_STACK_TOP) && (USER_STACK_TOP - USER_STACK_SIZE * 2 <=? addr)
      then vma_expand_stack mm addr else ret (-1)
    else
      v <- get_vma a;;
      if is_write && negb (has (vm_flags v) VMA_WRITE) then ret (-1)
      else
        m <- get_mm mm;;
        pte <- on_pt (vmm_get_pte_from_table_alloc (P2V (page_table m)) addr);;
        if pte =? 0 then ret (-1)
        else
          e <- on_pt (read64 pte);;
          if negb (has e PT_VALID) then
            phys <- on_pt alloc_frame;;
            if phys =? 0 then ret (-1)
            else
              on_pt (clear_page (P2V phys));;;
              (if (vm_type v =? VMA_FILE) && negb (vm_file v =? 0) then
                 let page_offset := page_down addr - vm_start v in
                 vfs_read (vm_file v) (u64 (vm_pgoff v + page_offset)) PAGE_SIZE (P2V phys);;; ret tt
               else ret tt);;;
              on_pt (write64 pte (user_entry phys (vm_flags v)));;;
              ret 0
          else if is_write && has e PT_SW_COW then
            let old_phys := entry_phys e in
            new_phys <- on_pt alloc_frame;;
            if new_phys =? 0 then ret (-1)
            else
              on_pt (copy_frame (P2V new_phys) (P2V old_phys));;;
              on_pt (write64 pte (cow_entry new_phys (vm_flags v)));;;
              on_pt (free_frame old_phys);;;
              ret 0
          else ret (-1).

Definition mm_create : M vmst Z :=
  mm <- kmalloc;;
  if mm =? 0 then ret 0
  else
    pt_phys <- on_pt alloc_frame;;
    if pt_phys =? 0 then ret 0
    else
      on_pt (clear_page (P2V pt_phys));;;
      modify (λ s, set_mms (<[mm := mk_mm pt_phys 0 USER_HEAP_START USER_HEAP_START
                                      USER_STACK_TOP USER_MMAP_BASE]> (mms s)) s);;;
      stack <- vma_create (USER_STACK_TOP - USER_STACK_SIZE) USER_STACK_TOP
                 (Z.lor (Z.lor VMA_READ VMA_WRITE) VMA_GROWSDN) VMA_ANONYMOUS;;
      (if stack =? 0 then ret tt else vma_insert mm stack;;; ret tt);;;
      ret mm.

(** The two loops of [mm_destroy]: the areas, then the tables. *)
Fixpoint destroy_areas (fuel : nat) (table a : Z) : M vmst unit :=
  match fuel with
  | O => faultM
  | S f =>
      if a =? 0 then ret tt
      else
        v <- get_vma a;;
        free_pages table false (vm_start v) (vm_end v);;;
        kfree_vma a;;;
        destroy_areas f table (vm_next v)
  end.
Definition destroy_l2 (l2_table j : Z) : M vmst unit :=
  e <- on_pt (read64 (slot l2_table j));;
  if negb (has e PT_VALID) then ret tt
  else on_pt (free_frame (V2P (P2V (entry_phys e)))).
Definition destroy_l1 (l1_table i : Z) : M vmst unit :=
  e <- on_pt (read64 (slot l1_table i));;
  if negb (has e PT_VALID) then ret tt
  else
    let l2_table := P2V (entry_phys e) in
    for_each (destroy_l2 l2_table) (seqZ 0 512);;;
    on_pt (free_frame (V2P l2_table)).
Definition mm_destroy (mm : Z) : M vmst unit :=
  if mm =? 0 then ret tt
  else
    vma_acquire;;;
    m <- get_mm mm;;
    with_fuel (λ fuel, destroy_areas fuel (page_table m) (vma_list m));;;
    let l1_table := P2V (page_table m) in
    for_each (destroy_l1 l1_table) (seqZ 0 512);;;
    on_pt (free_frame (V2P l1_table));;;
    vma_release;;;
    kfree_mm mm.

(** One page of [mm_duplicate]. *)
Definition share_page (old_table new_table flags addr : Z) : M vmst unit :=
  old_pte <- mm_pte old_table addr;;
  if old_pte =? 0 then ret tt
  else
    e <- on_pt (read64 old_pte);;
    if negb (has e PT_VALID) then ret tt
    else
      new_pte <- on_pt (vmm_get_pte_from_table_alloc (P2V new_table) addr);;
      if new_pte =? 0 then ret tt
      else
        e <- on_pt (read64 old_pte);;
        let phys := entry_phys e in
        (if negb (has flags VMA_SHARED) && (has e PT_AP_RW_EL0 || has e PT_AP_RW_EL1) then
           on_pt (write64 old_pte
             (Z.lor (Z.lor (andnot e (Z.shiftl 3 6)) PT_AP_RO_EL0) PT_SW_COW))
         else ret tt);;;
        e <- on_pt (read64 old_pte);;
        on_pt (write64 new_pte e);;;
        on_pt (zoom frames set_frames (fa_inc phys)).

(** The loop over the parent's areas; [false] when an area cannot be created. *)
Fixpoint dup_loop (fuel : nat) (old_table new_table new_mm a : Z) : M vmst bool :=
  match fuel with
  | O => faultM
  | S f =>
      if a =? 0 then ret true
      else
        v <- get_vma a;;
        new <- vma_create (vm_start v) (vm_end v) (vm_flags v) (vm_type v);;
        if new =? 0 then mm_destroy new_mm;;; ret false
        else
          mod_vma new (set_vm_file (vm_file v));;;
          mod_vma new (set_vm_pgoff (vm_pgoff v));;;
          vma_insert new_mm new;;;
          for_each (share_page old_table new_table (vm_flags v)) (pages (vm_start v) (vm_end v));;;
          dup_loop f old_table new_table new_mm (vm_next v)
  end.
Definition mm_duplicate (old_mm : Z) : M vmst Z :=
  if old_mm =? 0 then ret 0
  else
    new_mm <- kmalloc;;
    if new_mm =? 0 then ret 0
    else
      pt_phys <- on_pt alloc_frame;;
      if pt_phys =? 0 then ret 0
      else
        on_pt (clear_page (P2V pt_phys));;;
        old <- get_mm old_mm;;
        modify (λ s, set_mms (<[new_mm := mk_mm pt_phys 0 (heap_start old) (heap_end old)
                                            (stack_start old) (mmap_base old)]> (mms s)) s);;;
        ok <- with_fuel (λ fuel, dup_loop fuel (page_table old) pt_phys new_mm (vma_list old));;
        ret (if (ok : bool) then new_mm else 0).
End vma.
Arguments vmst FA : clear implicits.

Section facts.
Context {FA : Type} `{!FrameAllocator FA}.
Implicit Types s : vmst FA.
Implicit Types p : vmm FA.

(** ** Mapped pages and reference counts *)

(** The level-3 descriptors, and those that map frame [f]. *)
Definition l3_slots (l3s : gset Z) : gset (Z * Z) := cprod l3s (list_to_set (C := gset Z) (seqZ 0 512)).
Definition maps p (f : Z) (ti : Z * Z) : Prop :=
  has (pt_entry (ram p) ti.1 ti.2) PT_VALID = true ∧ entry_phys (pt_entry (ram p) ti.1 ti.2) = f.
#[local] Instance maps_dec p f ti : Decision (maps p f ti).
Proof. apply _. Defined.
Definition mapped p (l3s : gset Z) (f : Z) : gset (Z * Z) := filter (maps p f) (l3_slots l3s).

Lemma elem_nonempty (X : gset (Z * Z)) x : x ∈ X → X ≠ ∅.
Proof. intros Hx ->. by apply not_elem_of_empty in Hx. Qed.
Lemma size_nonzero (X : gset (Z * Z)) x : x ∈ X → (0 < size X)%nat.
Proof.
  intros Hx. destruct (size X) eqn:Hz; [|lia]. apply size_empty_inv in Hz. exfalso.
  by apply (not_elem_of_empty (C := gset (Z * Z)) x); rewrite <- Hz.
Qed.

(** Every page mapped by the tables is counted: a frame that the allocator
    manages is referenced at least as often as it is mapped, and is no table. *)
Record pages_ok p (root : Z) (l2s l3s : gset Z) : Prop := mk_pages_ok {
  po_vm : vm_ok p;
  po_pt : pt_ok p root l2s l3s;
  po_refs : ∀ f, frame_of p f → mapped p l3s f ≠ ∅ →
    Z.of_nat (size (mapped p l3s f)) <= refs_of p f ∧ f ∉ {[root]} ∪ (l2s ∪ l3s);
}.

Lemma elem_l3_slots l3s t i : (t, i) ∈ l3_slots l3s ↔ t ∈ l3s ∧ 0 <= i < 512.
Proof.
  unfold l3_slots. rewrite elem_of_gset_cprod. cbn [fst snd]. rewrite elem_of_list_to_set, elem_of_seqZ.
  by rewrite Z.add_0_l.
Qed.

Lemma entry_phys_aligned e : entry_phys e mod 4096 = 0.
Proof.
  unfold entry_phys. change 4096 with (2 ^ 12). rewrite <- Z.land_ones by lia.
  rewrite <- Z.land_assoc. change (Z.land 0xFFFFFFFFF000 (Z.ones 12)) with 0. apply Z.land_0_r.
Qed.

(** Clearing the descriptor [(t, i)]. *)
Lemma clear_slot_mapped p p' l3s f t i :
  (∀ u j, u ∈ l3s → 0 <= j < 512 → pt_entry (ram p') u j =
     if decide (u = t ∧ j = i) then 0 else pt_entry (ram p) u j) →
  mapped p' l3s f = mapped p l3s f ∖ {[(t, i)]}.
Proof.
  intros Hent. apply set_eq. intros [u j]. unfold mapped.
  rewrite elem_of_difference, elem_of_singleton, !elem_of_filter, elem_l3_slots. unfold maps. simpl.
  split.
  - intros ([Hv He] & Hu & Hj). rewrite Hent in Hv, He by done.
    destruct (decide (u = t ∧ j = i)) as [|Hne]; [done|]. split; [done|]. naive_solver.
  - intros (([Hv He] & Hu & Hj) & Hne). rewrite Hent by done.
    rewrite decide_False by (intros [-> ->]; done). done.
Qed.

Lemma wr64_slot_entry p t i v u j : aligned t → aligned u → 0 <= i < 512 → 0 <= j < 512 →
  0 <= v < 2 ^ 64 →
  pt_entry (wr64 (ram p) (slot (P2V t) i) v) u j =
    if decide (u = t ∧ j = i) then v else pt_entry (ram p) u j.
Proof. intros. rewrite wr64_slot by done. by apply pt_entry_store. Qed.

(** A state whose tables differ in one level-3 descriptor. *)
Lemma set_slot_pt_ok p p' root l2s l3s t i v :
  vm_same p p' → (∀ b, frame_of p b → b ∈ {[root]} ∪ (l2s ∪ l3s) → refs_of p' b = refs_of p b) →
  t ∈ l3s → pt_ok p root l2s l3s →
  (∀ u j, u ∈ {[root]} ∪ (l2s ∪ l3s) → 0 <= j < 512 → pt_entry (ram p') u j =
     if decide (u = t ∧ j = i) then v else pt_entry (ram p) u j) →
  pt_ok p' root l2s l3s.
Proof.
  intros Hsame Href Ht [H1 H2 H3 H4 H5 H6 H7 H8] Hent.
  pose proof (vs_frame _ _ Hsame) as Hfr.
  assert (Htab : ∀ u j, u ∈ {[root]} ∪ l2s → 0 <= j < 512 → pt_entry (ram p') u j = pt_entry (ram p) u j).
  { intros u j Hu Hj. rewrite Hent, decide_False; [done| |set_solver|done]. intros [-> _]. set_solver. }
  split; try done.
  - destruct H1. rewrite Hfr, Href by (done || set_solver). done.
  - intros u Hu. destruct (H2 u Hu). rewrite Hfr, Href by (done || set_solver). done.
  - intros j Hj. rewrite Htab by set_solver. by apply H5.
  - intros u j Hu Hj. rewrite Htab by set_solver. by apply H6.
  - intros j k Hj Hk. rewrite !Htab by set_solver. by apply H7.
  - intros u w j k Hu Hw Hj Hk. rewrite !Htab by set_solver. by apply H8.
Qed.

(** Setting a level-3 descriptor moves no walk. *)
Lemma set_slot_walk p p' root l2s l3s t i v va :
  vm_ok p → vm_ok p' → pt_ok p root l2s l3s → pt_ok p' root l2s l3s → t ∈ l3s →
  (∀ u j, u ∈ {[root]} ∪ (l2s ∪ l3s) → 0 <= j < 512 → pt_entry (ram p') u j =
     if decide (u = t ∧ j = i) then v else pt_entry (ram p) u j) →
  walk p' root va = walk p root va.
Proof.
  intros Hp Hp' Hpt Hpt' Ht Hent.
  pose proof (pt_root_new _ _ _ _ Hpt) as Hrn. pose proof (pt_disj _ _ _ _ Hpt) as Hdj.
  assert (Htab : ∀ u j, u ∈ {[root]} ∪ l2s → 0 <= j < 512 → pt_entry (ram p') u j = pt_entry (ram p) u j).
  { intros u j Hu Hj. rewrite Hent, decide_False; [done| |set_solver|done]. intros [-> _]. set_solver. }
  rewrite (walk_spec p _ _ _ _ Hp Hpt), (walk_spec p' _ _ _ _ Hp' Hpt'). cbv zeta.
  rewrite (Htab root (l1_idx va) (elem_of_union_l _ _ _ (elem_of_singleton_2 _ _ eq_refl)) (idx_range va 30)).
  destruct (has (pt_entry (ram p) root (l1_idx va)) PT_VALID) eqn:Hvalid; [|done].
  rewrite Htab; [done| |apply idx_range]. apply elem_of_union_r.
  apply (pt_l2 _ _ _ _ Hpt (l1_idx va) (idx_range va 30) Hvalid).
Qed.

(** What [free_page] and [free_pages] do to the tables: walks are unmoved, the
    entries of the freed pages become invalid, others keep their content. *)
Record unmapped_pages p p' (root : Z) (l2s l3s : gset Z) (addrs : list Z) : Prop := mk_unmapped {
  um_ok : pages_ok p' root l2s l3s;
  um_same : vm_same p p';
  um_walk : ∀ va, walk p' root va = walk p root va;
  um_gone : ∀ va, va ∈ addrs → walk p root va ≠ 0 → has (rd64 (ram p') (walk p root va)) PT_VALID = false;
  um_kept : ∀ va, walk p root va ≠ 0 → (∀ a, a ∈ addrs → ¬ same_page va a) →
    rd64 (ram p') (walk p root va) = rd64 (ram p) (walk p root va);
  um_invalid : ∀ va, walk p root va ≠ 0 → has (rd64 (ram p) (walk p root va)) PT_VALID = false →
    has (rd64 (ram p') (walk p root va)) PT_VALID = false;
}.

Lemma pages_ok_mapped_frame p root l2s l3s t i :
  pages_ok p root l2s l3s → t ∈ l3s → 0 <= i < 512 → has (pt_entry (ram p) t i) PT_VALID = true →
  frame_of p (entry_phys (pt_entry (ram p) t i)) →
  0 < refs_of p (entry_phys (pt_entry (ram p) t i)) ∧
  entry_phys (pt_entry (ram p) t i) ∉ {[root]} ∪ (l2s ∪ l3s).
Proof.
  intros Hp Ht Hi Hv Hf. set (f := entry_phys _) in *.
  assert ((t, i) ∈ mapped p l3s f) as Hin.
  { unfold mapped. rewrite elem_of_filter, elem_l3_slots. done. }
  destruct (po_refs _ _ _ _ Hp f Hf) as [Hle Hn]; [by eapply elem_nonempty|].
  split; [|done]. pose proof (size_nonzero _ _ Hin). lia.
Qed.

Lemma free_page_ok s root l2s l3s keep addr :
  pages_ok (pt s) root l2s l3s →
  ∃ p', free_page root keep addr s = Done (tt, set_pt p' s) ∧
    unmapped_pages (pt s) p' root l2s l3s [addr].
Proof.
  intros Hpo. destruct Hpo as [Hvm Hpt Hrefs] eqn:Epo. pose proof Hpo as Hpo'.
  unfold free_page, mm_pte, on_pt. unfold bind at 1, zoom at 1, gets at 1.
  change (vmm_get_pte_from_table (ram (pt s)) (P2V root) addr) with (walk (pt s) root addr).
  set (pte := walk (pt s) root addr). set (s0 := set_pt (pt s) s). replace s0 with s by (by destruct s).
  destruct (Z.eqb_spec pte 0) as [Hz|Hnz].
  { exists (pt s). split; [by destruct s|]. split; try done.
    intros va Hva%list_elem_of_singleton ?. subst. done. }
  unfold bind at 1, zoom at 1, read64 at 1, gets at 1. set (s1 := set_pt (pt s) s).
  replace s1 with s by (by destruct s). clear s0 s1.
  destruct (walk_in_tables _ _ _ _ addr Hvm Hpt Hnz) as (t & Ht & Hta & Hpte). fold pte in Hpte.
  pose proof (idx_range addr 12) as Hi. fold (l3_idx addr) in Hi. set (i := l3_idx addr) in *.
  assert (rd64 (ram (pt s)) pte = pt_entry (ram (pt s)) t i) as Hrd by (by rewrite Hpte, rd64_slot).
  destruct (has (rd64 (ram (pt s)) pte) PT_VALID) eqn:Hv.
  2:{ exists (pt s). split; [by destruct s|]. split; try done.
      intros va Hva%list_elem_of_singleton ?. by subst. }
  set (f := entry_phys (rd64 (ram (pt s)) pte)).
  (* the frame loses one reference, unless it is kept or unmanaged *)
  assert (∃ q, (if keep then ret tt else zoom pt set_pt (free_frame f)) s = Done (tt, set_pt q s) ∧
    vm_same (pt s) q ∧ ram q = ram (pt s) ∧ fa_inv (frames q) ∧
    ∀ b, frame_of (pt s) b → refs_of q b = refs_of (pt s) b ∨ b = f ∧ refs_of q b = refs_of (pt s) b - 1)
    as (q & Hrun & Hsame & Hram & Hinv & Hq).
  { destruct keep.
    { exists (pt s). split; [by destruct s|]. split_and!; [done|done|apply Hvm|]. intros; by left. }
    unfold zoom at 1, free_frame, zoom.
    destruct (fa_free_other _ f (vm_frames _ Hvm) (entry_phys_aligned _)) as [Hf|Hf].
    - destruct (pages_ok_mapped_frame _ _ _ _ t i Hpo' Ht Hi) as [Hpos _]; [by rewrite <- Hrd|by rewrite <- Hrd|].
      rewrite <- Hrd in Hpos. fold f in Hpos.
      destruct (fa_free_spec _ f (vm_frames _ Hvm) Hf Hpos) as (g & -> & Hinv & Hfr & Href).
      exists (set_frames g (pt s)). split; [done|]. split; [by split|]. split; [done|]. split; [done|].
      intros b Hb. unfold refs_of. simpl. rewrite (Href b Hb). case_decide; subst; auto.
    - rewrite Hf. exists (pt s). split; [by destruct s, pt0|]. split_and!; [done|done|apply Hvm|]. intros; by left. }
  mstep Hrun. unfold zoom, write64, modify. simpl.
  set (p' := set_ram (wr64 (ram q) pte 0) q).
  assert (Hent : ∀ u j, aligned u → 0 <= j < 512 → pt_entry (ram p') u j =
    if decide (u = t ∧ j = i) then 0 else pt_entry (ram (pt s)) u j).
  { intros u j Hu Hj. subst p'. simpl. rewrite Hpte, wr64_slot_entry, Hram by (done || lia). done. }
  exists p'. split; [done|].
  pose proof (vs_frame _ _ Hsame) as Hframe.
  assert (Hal : ∀ u, u ∈ {[root]} ∪ (l2s ∪ l3s) → aligned u).
  { intros u Hu. apply (frame_aligned (pt s)); [done|].
    apply elem_of_union in Hu as [->%elem_of_singleton|Hu]; [apply Hpt|by apply (pt_tabs _ _ _ _ Hpt)]. }
  assert (vm_same (pt s) p') as Hsame' by (destruct Hsame; by split).
  assert (vm_ok p') as Hvm' by (split; [done|apply store_le_ok; rewrite Hram; apply Hvm]).
  assert (Hfnt : frame_of (pt s) f → f ∉ {[root]} ∪ (l2s ∪ l3s)).
  { intros Hf. destruct (pages_ok_mapped_frame _ _ _ _ t i Hpo' Ht Hi) as [_ Hn]; by rewrite <- Hrd in *. }
  assert (pt_ok p' root l2s l3s) as Hpt'.
  { apply (set_slot_pt_ok (pt s) p' root l2s l3s t i 0); [done| |done|done|by eauto].
    intros b Hb Htab. change (refs_of p' b) with (refs_of q b). destruct (Hq b Hb) as [|[-> _]]; [done|].
    by destruct (Hfnt Hb). }
  assert (∀ va, walk p' root va = walk (pt s) root va) as Hwalk.
  { intros va. apply (set_slot_walk _ _ root l2s l3s t i 0); try done. by eauto. }
  assert (Hread : ∀ va, walk (pt s) root va ≠ 0 → rd64 (ram p') (walk (pt s) root va) =
    if decide (walk (pt s) root va = pte) then 0 else rd64 (ram (pt s)) (walk (pt s) root va)).
  { intros va Hva. destruct (walk_in_tables _ _ _ _ va Hvm Hpt Hva) as (u & Hu & Hua & Hwu).
    pose proof (idx_range va 12) as Hj. fold (l3_idx va) in Hj. rewrite Hwu, !rd64_slot, Hent by done.
    rewrite Hpte. destruct (decide (u = t ∧ l3_idx va = i)) as [[-> ->]|Hne]; [by rewrite decide_True|].
    rewrite decide_False; [done|]. intros Heq. apply (f_equal V2P) in Heq.
    rewrite !V2P_slot in Heq by (apply Hta || apply Hua || done). apply Hne.
    destruct (decide (u = t)) as [->|Hd]; [split; [done|lia]|].
    destruct (aligned_disjoint u t Hua Hta Hd); lia. }
  split; try done.
  - split; [done|done|]. intros g Hg Hne.
    assert (mapped p' l3s g = mapped (pt s) l3s g ∖ {[(t, i)]}) as Hmap.
    { apply clear_slot_mapped. intros u j Hu. apply Hent, Hal. by apply elem_of_union_r, elem_of_union_r. }
    rewrite Hmap in Hne |- *. change (frame_of p' g) with (frame_of q g) in Hg. rewrite Hframe in Hg.
    destruct (Hrefs g Hg) as [Hle Hn].
    { intros He. apply Hne. rewrite He. by apply empty_difference_L. }
    split; [|done]. change (refs_of p' g) with (refs_of q g). destruct (Hq g Hg) as [->|[-> ->]].
    + etrans; [|exact Hle]. apply inj_le, subseteq_size, subseteq_difference_l. done.
    + assert ((t, i) ∈ mapped (pt s) l3s f) as Hin.
      { unfold mapped. rewrite elem_of_filter, elem_l3_slots. unfold maps. simpl. by rewrite <- Hrd. }
      rewrite size_difference, size_singleton by (by apply singleton_subseteq_l).
      pose proof (size_nonzero _ _ Hin). lia.
  - intros va ->%list_elem_of_singleton Hva. rewrite Hread by done. by rewrite decide_True.
  - intros va Hva Hns. rewrite Hread by done. rewrite decide_False; [done|]. intros Heq.
    apply (Hns addr); [by left|]. by apply (walk_inj (pt s) root l2s l3s).
  - intros va Hva Hinvd. rewrite Hread by done. by case_decide.
Qed.

Lemma unmapped_refl p root l2s l3s : pages_ok p root l2s l3s → unmapped_pages p p root l2s l3s [].
Proof. intros Hp. split; try done. by intros va ?%not_elem_of_nil. Qed.

Lemma unmapped_trans p p1 p2 root l2s l3s as1 as2 :
  unmapped_pages p p1 root l2s l3s as1 → unmapped_pages p1 p2 root l2s l3s as2 →
  unmapped_pages p p2 root l2s l3s (as1 ++ as2).
Proof.
  intros [Ho1 Hs1 Hw1 Hg1 Hk1 Hi1] [Ho2 Hs2 Hw2 Hg2 Hk2 Hi2]. split; try done.
  - by transitivity p1.
  - intros va. by rewrite Hw2, Hw1.
  - intros va Hva Hnz. specialize (Hg2 va). specialize (Hi2 va). rewrite Hw1 in Hg2, Hi2.
    apply elem_of_app in Hva as [Hva|Hva]; [|by apply Hg2]. apply Hi2; [done|]. by apply Hg1.
  - intros va Hnz Hns. specialize (Hk2 va). rewrite Hw1 in Hk2. rewrite Hk2; [|done|].
    + apply Hk1; [done|]. intros b Hb. apply Hns, elem_of_app. by left.
    + intros b Hb. apply Hns, elem_of_app. by right.
  - intros va Hnz Hinvd. specialize (Hi2 va). rewrite Hw1 in Hi2. apply Hi2; [done|]. by apply Hi1.
Qed.

Lemma free_pages_loop root l2s l3s keep addrs : ∀ s,
  pages_ok (pt s) root l2s l3s →
  ∃ p', for_each (free_page root keep) addrs s = Done (tt, set_pt p' s) ∧
    unmapped_pages (pt s) p' root l2s l3s addrs.
Proof.
  induction addrs as [|a addrs IH]; intros s Hpo; simpl.
  { exists (pt s). split; [by destruct s|]. by apply unmapped_refl. }
  destruct (free_page_ok s root l2s l3s keep a Hpo) as (p1 & Hrun1 & Hu1).
  mstep Hrun1. destruct (IH (set_pt p1 s) (um_ok _ _ _ _ _ _ Hu1)) as (p2 & Hrun2 & Hu2).
  exists p2. split; [done|]. by apply (unmapped_trans _ p1 _ _ _ _ [a] addrs).
Qed.
End facts.

Section spaces.
Context {FA : Type} `{!FrameAllocator FA}.
Implicit Types s : vmst FA.

(** ** The list of areas *)

Definition vnext s (a : Z) : Z := from_option vm_next 0 (vmas s !! a).
Definition area s (a : Z) : vma := default (mk_vma 0 0 0 0 0 0 0) (vmas s !! a).
(** An area without its link. *)
Definition core (v : vma) : vma := set_vm_next 0 v.
Definition before s (a b : Z) : Prop := vm_end (area s a) <= vm_start (area s b).

Definition area_ok s (a : Z) : Prop :=
  ∃ v, vmas s !! a = Some v ∧ 0 <= vm_start v ∧ vm_start v < vm_end v ∧ vm_end v <= USER_SPACE_END.

(** The address space [mm] consists of the areas [l]: linked in this order,
    inside user space, sorted and disjoint. *)
Record space_ok s (mm : Z) (l : list Z) : Prop := mk_space_ok {
  sp_list : ∃ m, mms s !! mm = Some m ∧ slist (vnext s) (vma_list m) l;
  sp_area : Forall (area_ok s) l;
  sp_sorted : StronglySorted (before s) l;
}.

Lemma area_ok_lookup s a : area_ok s a → vmas s !! a = Some (area s a).
Proof. intros (v & Hv & _). unfold area. by rewrite Hv. Qed.
Lemma area_ok_range s a : area_ok s a →
  0 <= vm_start (area s a) ∧ vm_start (area s a) < vm_end (area s a) ∧ vm_end (area s a) <= USER_SPACE_END.
Proof. intros (v & Hv & ?). unfold area. by rewrite Hv. Qed.
Lemma area_ok_next s a : area_ok s a → vnext s a = vm_next (area s a).
Proof. intros (v & Hv & _). unfold area, vnext. by rewrite Hv. Qed.

Lemma get_vma_Done s a : area_ok s a → get_vma a s = Done (area s a, s).
Proof. intros Ha. unfold get_vma. by rewrite (area_ok_lookup s a Ha). Qed.
Lemma mod_vma_Done s a v f : vmas s !! a = Some v →
  mod_vma a f s = Done (tt, set_vmas (<[a := f v]> (vmas s)) s).
Proof. unfold mod_vma. by intros ->. Qed.
Lemma get_mm_Done s mm m : mms s !! mm = Some m → get_mm mm s = Done (m, s).
Proof. unfold get_mm. by intros ->. Qed.
Lemma mod_mm_Done s mm m f : mms s !! mm = Some m →
  mod_mm mm f s = Done (tt, set_mms (<[mm := f m]> (mms s)) s).
Proof. unfold mod_mm. by intros ->. Qed.

(** The fuel is enough for a list of areas. *)
Lemma list_fuel_ok s l : NoDup l → Forall (area_ok s) l → (length l < list_fuel s)%nat.
Proof.
  intros Hnd Hl. unfold list_fuel. apply Nat.lt_succ_r.
  rewrite <- (size_list_to_set (C := gset Z)) by done. rewrite <- size_dom.
  apply subseteq_size. intros a Ha%elem_of_list_to_set. rewrite Forall_forall in Hl.
  apply elem_of_dom. destruct (Hl a Ha) as (v & Hv & _). eauto.
Qed.

Definition overlaps (n v : vma) : bool :=
  negb ((vm_end n <=? vm_start v) || (vm_end v <=? vm_start n)).

Lemma overlap_loop_ok s n l : ∀ fuel h,
  slist (vnext s) h l → Forall (area_ok s) l → (length l < fuel)%nat →
  overlap_loop fuel n h s = Done (existsb (λ a, overlaps n (area s a)) l, s).
Proof.
  induction l as [|a l IH]; intros fuel h Hl Ha Hf;
    (destruct fuel as [|fuel]; [simpl in Hf; lia|]); cbn [overlap_loop].
  { by rewrite (sl_head _ _ _ Hl). }
  destruct (slist_tail _ _ _ _ Hl) as (Hl' & <- & _ & Ha0). apply Forall_cons in Ha as [Ha Hrest].
  rewrite (proj2 (Z.eqb_neq _ _)) by done. mstep (get_vma_Done s a Ha).
  cbn [existsb]. fold (overlaps n (area s a)). destruct (overlaps n (area s a)); [done|].
  simpl. rewrite <- (area_ok_next s a Ha). apply IH; [done|done|simpl in Hf; lia].
Qed.

(** The areas that start below [st], as a prefix, and the rest. *)
Fixpoint below s (st : Z) (l : list Z) : list Z :=
  match l with
  | [] => []
  | a :: l' => if vm_start (area s a) <? st then a :: below s st l' else []
  end.
Fixpoint above s (st : Z) (l : list Z) : list Z :=
  match l with
  | [] => []
  | a :: l' => if vm_start (area s a) <? st then above s st l' else l
  end.
Lemma below_above s st l : below s st l ++ above s st l = l.
Proof. induction l as [|a l IH]; [done|]. simpl. case_match; [|done]. simpl. by rewrite IH. Qed.
Lemma below_lock s b st l : below (set_vma_lock b s) st l = below s st l.
Proof. induction l as [|a l IH]; [done|]. simpl. by rewrite IH. Qed.
Lemma above_lock s b st l : above (set_vma_lock b s) st l = above s st l.
Proof. induction l as [|a l IH]; [done|]. simpl. by rewrite IH. Qed.
Lemma below_elem s st l a : a ∈ below s st l → vm_start (area s a) < st.
Proof.
  induction l as [|b l IH]; simpl; [by intros ?%not_elem_of_nil|]. case_match eqn:Hb.
  - intros [->|?]%elem_of_cons; [lia|by apply IH].
  - by intros ?%not_elem_of_nil.
Qed.
Lemma above_elem s st l a :
  Forall (area_ok s) l → StronglySorted (before s) l → a ∈ above s st l → st <= vm_start (area s a).
Proof.
  induction l as [|b l IH]; simpl; [by intros _ _ ?%not_elem_of_nil|].
  intros [Hb Hl]%Forall_cons [Hs Hall]%StronglySorted_inv. case_match eqn:Hlt; [by apply IH|].
  intros [->|Ha]%elem_of_cons; [lia|]. rewrite Forall_forall in Hall. specialize (Hall a Ha).
  unfold before in Hall. pose proof (area_ok_range s b Hb). lia.
Qed.

Lemma find_prev_ok s st l : ∀ fuel q,
  chain (vnext s) (q :: l) 0 → 0 ∉ l → Forall (area_ok s) (q :: l) → (length l < fuel)%nat →
  find_prev fuel st q s = Done (lastZ q (below s st l), s).
Proof.
  induction l as [|a l IH]; intros fuel q [Hn Hc] H0 [Hp Hl]%Forall_cons Hf;
    (destruct fuel as [|fuel]; [simpl in Hf; lia|]); cbn [find_prev];
    mstep (get_vma_Done s q Hp); rewrite <- (area_ok_next s q Hp), Hn; [done|].
  apply not_elem_of_cons in H0 as [Ha0 H0]. cbn [hdZ].
  rewrite (proj2 (Z.eqb_neq _ _)) by congruence. pose proof Hl as [Ha Hl']%Forall_cons.
  mstep (get_vma_Done s a Ha). cbn [below]. case_match; [|done].
  apply IH; [done|done|done|simpl in Hf; lia].
Qed.

Lemma no_overlap_order s n l v :
  existsb (λ a, overlaps n (area s a)) l = false → v ∈ l →
  vm_end n <= vm_start (area s v) ∨ vm_end (area s v) <= vm_start n.
Proof.
  intros He Hv. destruct (overlaps n (area s v)) eqn:Ho.
  - assert (existsb (λ a, overlaps n (area s a)) l = true) as Ht; [|congruence].
    apply existsb_exists. exists v. split; [by apply list_elem_of_In|done].
  - unfold overlaps in Ho. lia.
Qed.

(** Rebuilding [space_ok] after links (and nothing else) changed. *)
Lemma space_ok_relink s s' mm (l' : list Z) m' :
  mms s' !! mm = Some m' → slist (vnext s') (vma_list m') l' →
  Forall (area_ok s) l' → (∀ a, a ∈ l' → core <$> vmas s' !! a = core <$> vmas s !! a) →
  StronglySorted (before s) l' → space_ok s' mm l'.
Proof.
  intros Hm Hl Ha Hcore Hsort.
  assert (∀ a, a ∈ l' → area_ok s' a ∧ vm_start (area s' a) = vm_start (area s a) ∧
     vm_end (area s' a) = vm_end (area s a)) as Hsame.
  { intros a Hin. rewrite Forall_forall in Ha. destruct (Ha a Hin) as (v & Hv & Hr).
    pose proof (Hcore a Hin) as Hc. unfold area. rewrite Hv in Hc |- *.
    destruct (vmas s' !! a) as [w|] eqn:Hw; [|done]. apply Some_inj in Hc. simpl.
    assert (vm_start w = vm_start v) as H1 by (change (vm_start (core w) = vm_start (core v)); by rewrite Hc).
    assert (vm_end w = vm_end v) as H2 by (change (vm_end (core w) = vm_end (core v)); by rewrite Hc).
    split; [|done]. exists w. by rewrite H1, H2. }
  split.
  - by exists m'.
  - apply Forall_forall. intros a Hin. by apply Hsame.
  - clear Hl Ha Hcore. induction Hsort as [|a l0 Hs IH Hall]; constructor.
    + apply IH. intros b Hb. apply Hsame. by right.
    + rewrite Forall_forall in Hall |- *. intros b Hb. unfold before in *.
      destruct (Hsame a) as (_ & _ & ->); [by left|]. destruct (Hsame b) as (_ & -> & _); [by right|].
      by apply Hall.
Qed.

Lemma StronglySorted_app_elim {A} (R : A → A → Prop) (l1 l2 : list A) :
  StronglySorted R (l1 ++ l2) → StronglySorted R l1 ∧ StronglySorted R l2 ∧
  ∀ a b, a ∈ l1 → b ∈ l2 → R a b.
Proof.
  induction l1 as [|x l1 IH]; simpl.
  - intros H. split; [constructor|]. split; [done|]. by intros a b ?%not_elem_of_nil.
  - intros [H Hall]%StronglySorted_inv. destruct (IH H) as (H1 & H2 & H12).
    rewrite Forall_app, !Forall_forall in Hall. destruct Hall as [Ha1 Ha2].
    split; [|split; [done|]].
    + constructor; [done|]. by apply Forall_forall.
    + intros a b [->|Ha]%elem_of_cons Hb; [by apply Ha2|by apply H12].
Qed.
Lemma StronglySorted_app_intro {A} (R : A → A → Prop) (l1 l2 : list A) :
  StronglySorted R l1 → StronglySorted R l2 → (∀ a b, a ∈ l1 → b ∈ l2 → R a b) →
  StronglySorted R (l1 ++ l2).
Proof.
  induction l1 as [|x l1 IH]; simpl; [done|]. intros [H Hall]%StronglySorted_inv H2 H12.
  constructor.
  - apply IH; [done..|]. intros a b Ha. apply H12. by right.
  - apply Forall_app. split; [done|]. apply Forall_forall. intros b Hb. apply H12; [by left|done].
Qed.

(** The two stores that link [n] after the areas that start below it. *)
Lemma link_area_ok s mm l n m :
  mms s !! mm = Some m → slist (vnext s) (vma_list m) l → Forall (area_ok s) l → area_ok s n →
  n ∉ l → n ≠ 0 → let l1 := below s (vm_start (area s n)) l in let l2 := above s (vm_start (area s n)) l in
  ∃ vm' mms', bind (if match l1 with [] => true | _ => false end then
       bind (mod_vma n (set_vm_next (vma_list m))) (λ _, mod_mm mm (set_vma_list n))
     else
       bind (with_fuel (λ fuel, find_prev fuel (vm_start (area s n)) (vma_list m))) (λ prev,
       bind (get_vma prev) (λ p,
       bind (mod_vma n (set_vm_next (vm_next p))) (λ _,
       mod_vma prev (set_vm_next n))))) (λ _, ret tt) s = Done (tt, set_mms mms' (set_vmas vm' s)) ∧
   (∃ m', mms' !! mm = Some m' ∧
      slist (vnext (set_mms mms' (set_vmas vm' s))) (vma_list m') (l1 ++ n :: l2)) ∧
   (∀ a, core <$> vm' !! a = core <$> vmas s !! a) ∧ (∀ k, k ≠ mm → mms' !! k = mms s !! k) ∧
   (∀ m', mms' !! mm = Some m' → set_vma_list 0 m' = set_vma_list 0 m).
Proof.
  intros Hm Hl Ha Hn Hnl Hn0 l1 l2. set (st := vm_start (area s n)) in *.
  pose proof (below_above s st l) as Hsplit. fold l1 l2 in Hsplit.
  pose proof (area_ok_lookup s n Hn) as Hnv. pose proof (sl_head _ _ _ Hl) as Hh.
  destruct l1 as [|h l1'] eqn:El1.
  - cbn [app] in Hsplit.
    unfold bind at 1. mstep (mod_vma_Done s n _ (set_vm_next (vma_list m)) Hnv).
    rewrite (mod_mm_Done _ mm m) by done. unfold ret.
    exists (<[n := set_vm_next (vma_list m) (area s n)]> (vmas s)), (<[mm := set_vma_list n m]> (mms s)).
    split; [done|]. split; [|split; [|split]].
    + exists (set_vma_list n m). split; [by rewrite lookup_insert_eq|]. rewrite Hsplit.
      eapply slist_push; [exact Hl|done|done| |].
      * intros x Hx. unfold vnext. simpl. rewrite lookup_insert_ne; [done|]. by intros ->.
      * unfold vnext. simpl. by rewrite lookup_insert_eq.
    + intros a. destruct (decide (a = n)) as [->|]; [by rewrite lookup_insert_eq, Hnv|].
      by rewrite lookup_insert_ne.
    + intros k Hk. by rewrite lookup_insert_ne.
    + intros m'. rewrite lookup_insert_eq. by intros [= <-].
  - destruct l as [|h0 rest]; [done|]. cbn [hdZ] in Hh.
    assert (h0 = h) as -> by (by simplify_eq/=).
    assert (l1' = below s st rest ∧ l2 = above s st rest) as [Hl1' Hl2'].
    { unfold l1, l2 in *. clear Hsplit. revert El1. cbn [below above].
      destruct (vm_start (area s h) <? st); [|done]. intros [= <-]. done. }
    destruct (slist_tail _ _ _ _ Hl) as (Hlr & _ & _ & _).
    assert (with_fuel (λ fuel, find_prev fuel st (vma_list m)) s = Done (lastZ 0 l1, s)) as Hfind.
    { unfold with_fuel. rewrite Hh, (find_prev_ok s st rest); try done.
      - by rewrite El1, Hl1'.
      - apply (sl_chain _ _ _ Hl).
      - apply (sl_nonnull _ _ _ Hlr).
      - etrans; [|apply (list_fuel_ok s (h :: rest)); [apply (sl_nodup _ _ _ Hl)|done]]. simpl. lia. }
    rewrite <- El1 in *. set (z := lastZ 0 l1) in *.
    assert (z ∈ l1) as Hz by (apply lastZ_elem; by rewrite El1).
    assert (z ∈ h :: rest) as Hzl by (rewrite <- Hsplit; apply elem_of_app; by left).
    assert (area_ok s z) as Hzok by (rewrite Forall_forall in Ha; by apply Ha).
    assert (z ≠ n) as Hzn by (by intros ->).
    pose proof (area_ok_lookup s z Hzok) as Hzv.
    assert (vm_next (area s z) = hdZ 0 l2) as Hzn2.
    { rewrite <- (area_ok_next s z Hzok). rewrite <- Hsplit in Hl.
      apply (slist_last _ _ _ _ Hl). by rewrite El1. }
    unfold bind at 1. mstep Hfind. mstep (get_vma_Done s z Hzok).
    mstep (mod_vma_Done s n _ (set_vm_next (vm_next (area s z))) Hnv).
    rewrite (mod_vma_Done _ z (area s z)) by (simpl; by rewrite lookup_insert_ne). unfold ret.
    exists (<[z := set_vm_next n (area s z)]> (<[n := set_vm_next (vm_next (area s z)) (area s n)]> (vmas s))),
      (mms s).
    split; [by destruct s|]. split; [|split; [|split]].
    + exists m. split; [done|].
      replace (vma_list m) with (hdZ 0 (l1 ++ n :: l2)) by (rewrite El1, Hh; done).
      eapply slist_insert; [rewrite Hsplit; exact Hl|by rewrite Hsplit|done| |].
      * intros x Hx. fold z. unfold vnext. simpl. assert (x ≠ n) by (intros ->; by rewrite Hsplit in Hx).
        case_decide as Hxz; [subst x; by rewrite lookup_insert_eq|]. by rewrite !lookup_insert_ne.
      * unfold vnext. simpl. rewrite lookup_insert_ne, lookup_insert_eq by done. done.
    + intros a. destruct (decide (a = z)) as [->|]; [by rewrite lookup_insert_eq, Hzv|].
      rewrite lookup_insert_ne by done.
      destruct (decide (a = n)) as [->|]; [by rewrite lookup_insert_eq, Hnv|]. by rewrite lookup_insert_ne.
    + done.
    + intros m' Hm'. rewrite Hm in Hm'. by injection Hm' as <-.
Qed.

(** What an insertion does to the list. *)
Definition inserted s (n : Z) (l : list Z) : list Z :=
  below s (vm_start (area s n)) l ++ n :: above s (vm_start (area s n)) l.
Definition clash s (n : Z) (l : list Z) : bool := existsb (λ a, overlaps (area s n) (area s a)) l.

(** Everything but the links of areas and the list head of [mm]. *)
Record same_space s s' (mm : Z) : Prop := mk_same_space {
  ss_pt : pt s' = pt s;
  ss_lock : vma_lock s' = vma_lock s;
  ss_allocs : allocs s' = allocs s;
  ss_core : ∀ a, core <$> vmas s' !! a = core <$> vmas s !! a;
  ss_mms : ∀ k, set_vma_list 0 <$> mms s' !! k = set_vma_list 0 <$> mms s !! k;
  ss_others : ∀ k, k ≠ mm → mms s' !! k = mms s !! k;
}.

Lemma inserted_sorted s n l :
  Forall (area_ok s) l → area_ok s n → StronglySorted (before s) l → clash s n l = false →
  Forall (area_ok s) (inserted s n l) ∧ StronglySorted (before s) (inserted s n l).
Proof.
  intros Ha Hn Hs Hc. unfold inserted. set (st := vm_start (area s n)).
  pose proof (below_above s st l) as Hsplit.
  pose proof Ha as Ha'. rewrite <- Hsplit in Ha'. apply Forall_app in Ha' as [Ha1 Ha2].
  split; [by apply Forall_app; split; [|apply Forall_cons]|].
  pose proof Hs as Hs'. rewrite <- Hsplit in Hs'.
  apply StronglySorted_app_elim in Hs' as (Hs1 & Hs2 & H12).
  assert (Hin : ∀ b, b ∈ below s st l ∨ b ∈ above s st l → b ∈ l).
  { intros b Hb. rewrite <- Hsplit. by apply elem_of_app. }
  assert (Hb1 : ∀ b, b ∈ below s st l → before s b n).
  { intros b Hb. pose proof (below_elem _ _ _ _ Hb) as Hlt. unfold before.
    destruct (no_overlap_order s (area s n) l b Hc (Hin b (or_introl Hb))) as [H|H]; [|done].
    pose proof (area_ok_range s n Hn). lia. }
  assert (Hb2 : ∀ b, b ∈ above s st l → before s n b).
  { intros b Hb. pose proof (above_elem _ _ _ _ Ha Hs Hb) as Hge. unfold before.
    destruct (no_overlap_order s (area s n) l b Hc (Hin b (or_intror Hb))) as [H|H]; [done|].
    rewrite Forall_forall in Ha2. pose proof (area_ok_range s b (Ha2 b Hb)). lia. }
  apply StronglySorted_app_intro; [done| |].
  - constructor; [done|]. by apply Forall_forall.
  - intros a b Ha0 [->|Hb]%elem_of_cons; [by apply Hb1|by apply H12].
Qed.

Lemma inserted_elem s n l a : a ∈ inserted s n l ↔ a = n ∨ a ∈ l.
Proof.
  unfold inserted. rewrite elem_of_app, elem_of_cons.
  rewrite <- (below_above s (vm_start (area s n)) l) at 3. rewrite elem_of_app. tauto.
Qed.

Lemma vma_insert_ok s mm l n :
  space_ok s mm l → area_ok s n → n ∉ l → n ≠ 0 → mm ≠ 0 → vma_lock s = false →
  if clash s n l then vma_insert mm n s = Done (-1, s)
  else ∃ s', vma_insert mm n s = Done (0, s') ∧ space_ok s' mm (inserted s n l) ∧ same_space s s' mm.
Proof.
  intros [(m & Hm & Hl) Ha Hsort] Hn Hnl Hn0 Hmm0 Hlock. unfold vma_insert.
  rewrite (proj2 (Z.eqb_neq mm 0)), (proj2 (Z.eqb_neq n 0)) by done. cbn [orb].
  unfold vma_acquire. destruct (clash s n l) eqn:Hc.
  - unfold bind at 1, spin_acquire at 1. rewrite Hlock. set (s0 := set_vma_lock true s).
    mstep (get_mm_Done s0 mm m Hm). mstep (get_vma_Done s0 n Hn).
    assert (with_fuel (λ fuel, overlap_loop fuel (area s n) (vma_list m)) s0 = Done (true, s0)) as Ho.
    { unfold with_fuel. change (area s n) with (area s0 n). rewrite (overlap_loop_ok s0 (area s0 n) l);
        [by rewrite <- Hc|done|done|]. apply (list_fuel_ok s0); [apply (sl_nodup _ _ _ Hl)|done]. }
    change (area s0 n) with (area s n). mstep Ho.
    unfold vma_release, spin_release. unfold bind at 1, modify at 1. unfold ret.
    subst s0. destruct s. simpl in *. by subst.
  - unfold bind at 1, spin_acquire at 1. rewrite Hlock. set (s0 := set_vma_lock true s).
    mstep (get_mm_Done s0 mm m Hm). mstep (get_vma_Done s0 n Hn).
    change (area s0 n) with (area s n).
    assert (with_fuel (λ fuel, overlap_loop fuel (area s n) (vma_list m)) s0 = Done (false, s0)) as Ho.
    { unfold with_fuel. change (area s n) with (area s0 n). rewrite (overlap_loop_ok s0 (area s0 n) l);
        [by rewrite <- Hc|done|done|]. apply (list_fuel_ok s0); [apply (sl_nodup _ _ _ Hl)|done]. }
    mstep Ho. set (l1 := below s (vm_start (area s n)) l).
    assert ((if vma_list m =? 0 then ret true
             else bind (get_vma (vma_list m)) (λ h, ret (vm_start (area s n) <? vm_start h))) s0
      = Done (match l1 with [] => true | _ => false end, s0)) as Hfront.
    { rewrite (sl_head _ _ _ Hl). subst l1. destruct l as [|h rest]; [done|]. cbn [hdZ below].
      destruct (slist_tail _ _ _ _ Hl) as (_ & _ & _ & Hh0). rewrite (proj2 (Z.eqb_neq _ _)) by done.
      apply Forall_cons in Ha as [Hh _]. mstep (get_vma_Done s0 h Hh). unfold ret. f_equal. f_equal.
      change (area s0 h) with (area s h).
      destruct (no_overlap_order s (area s n) (h :: rest) h Hc) as [H|H]; [by left| |];
        pose proof (area_ok_range s h Hh); pose proof (area_ok_range s n Hn);
        destruct (Z.ltb_spec (vm_start (area s n)) (vm_start (area s h))),
          (Z.ltb_spec (vm_start (area s h)) (vm_start (area s n))); try done; lia. }
    mstep Hfront.
    destruct (link_area_ok s0 mm l n m Hm Hl Ha Hn Hnl Hn0)
      as (vm' & mms' & Hrun & (m' & Hm' & Hl') & Hcore & Hoth & Hmmf).
    change (area s0 n) with (area s n) in Hrun, Hl'.
    unfold s0 in Hrun at 1, Hl'. rewrite below_lock in Hrun, Hl'. rewrite above_lock in Hl'.
    fold s0 in Hrun. fold s0 l1 in Hl'. fold l1 in Hrun.
    apply bind_inv in Hrun as ([] & s1 & Hrun & Hret). injection Hret as ->. mstep Hrun.
    unfold vma_release, spin_release. unfold bind at 1, modify at 1. unfold ret.
    destruct (inserted_sorted s n l Ha Hn Hsort Hc) as [Ha' Hs'].
    eexists. split; [done|]. split.
    + eapply (space_ok_relink s); [exact Hm'|exact Hl'|exact Ha'|intros a _; apply Hcore|exact Hs'].
    + split; try done.
      * intros k. simpl. destruct (decide (k = mm)) as [->|Hk]; [|by rewrite Hoth].
        rewrite Hm', Hm. simpl. f_equal. by apply Hmmf.
Qed.

(** [vma_insert] keeps the areas of an address space sorted and disjoint:
    an area that overlaps another one is refused with -1 and nothing changes;
    otherwise it is linked at its place in address order and only links
    change. *)
Theorem vma_insert_sorted s mm l n :
  space_ok s mm l → area_ok s n → n ∉ l → n ≠ 0 → mm ≠ 0 → vma_lock s = false →
  if clash s n l then vma_insert mm n s = Done (-1, s)
  else ∃ s', vma_insert mm n s = Done (0, s') ∧ space_ok s' mm (inserted s n l) ∧
    same_space s s' mm ∧ ∀ a, a ∈ inserted s n l ↔ a = n ∨ a ∈ l.
Proof.
  intros Hs Hn Hnl Hn0 Hmm Hlock. pose proof (vma_insert_ok s mm l n Hs Hn Hnl Hn0 Hmm Hlock) as H.
  destruct (clash s n l); [done|]. destruct H as (s' & ? & ? & ?). exists s'.
  split_and!; try done. intros a. apply inserted_elem.
Qed.

(** ** First fit *)

(** The address [gap_loop] returns. *)
Fixpoint first_fit s (len addr : Z) (l : list Z) : Z :=
  match l with
  | [] => addr
  | a :: l' =>
      if addr + len <=? vm_start (area s a) then addr
      else first_fit s len (if addr <? vm_end (area s a) then vm_end (area s a) else addr) l'
  end.

Lemma gap_loop_ok s len l : ∀ fuel h addr,
  slist (vnext s) h l → Forall (area_ok s) l → (length l < fuel)%nat →
  0 <= addr <= USER_SPACE_END → 0 <= len < 2 ^ 63 →
  gap_loop fuel len addr h s = Done (first_fit s len addr l, s).
Proof.
  induction l as [|a l IH]; intros fuel h addr Hl Ha Hf Haddr Hlen;
    (destruct fuel as [|fuel]; [simpl in Hf; lia|]); cbn [gap_loop first_fit].
  { by rewrite (sl_head _ _ _ Hl). }
  destruct (slist_tail _ _ _ _ Hl) as (Hl' & <- & _ & Ha0). apply Forall_cons in Ha as [Ha Hrest].
  rewrite (proj2 (Z.eqb_neq _ _)) by done. mstep (get_vma_Done s a Ha).
  pose proof (area_ok_range s a Ha) as Hr. unfold USER_SPACE_END in *. rewrite u64_id by lia.
  destruct (addr + len <=? vm_start (area s a)); [done|].
  rewrite <- (area_ok_next s a Ha). apply IH; [done|done|simpl in Hf; lia| |done].
  case_match; lia.
Qed.

(** No area of [l] meets [x, x + len). *)
Definition free_range s (x len : Z) (l : list Z) : Prop :=
  ∀ a, a ∈ l → x + len <= vm_start (area s a) ∨ vm_end (area s a) <= x.

Lemma first_fit_spec s len l : ∀ addr,
  Forall (area_ok s) l → StronglySorted (before s) l → 0 < len →
  let r := first_fit s len addr l in
  addr <= r ∧ free_range s r len l ∧ ∀ x, addr <= x → free_range s x len l → r <= x.
Proof.
  induction l as [|a l IH]; intros addr Ha Hs Hlen r; subst r; cbn [first_fit].
  { split; [lia|]. split; [by intros a ?%not_elem_of_nil|done]. }
  apply Forall_cons in Ha as [Ha Hl]. apply StronglySorted_inv in Hs as [Hs Hall].
  pose proof (area_ok_range s a Ha) as Hr. rewrite Forall_forall in Hall.
  destruct (Z.leb_spec (addr + len) (vm_start (area s a))) as [Hle|Hgt].
  - split; [lia|]. split; [|done]. intros b [->|Hb]%elem_of_cons; [by left|].
    left. specialize (Hall b Hb). unfold before in Hall. lia.
  - set (next := if addr <? vm_end (area s a) then vm_end (area s a) else addr).
    assert (addr <= next ∧ vm_end (area s a) <= next) as [Hn1 Hn2] by (subst next; case_match; lia).
    destruct (IH next Hl Hs Hlen) as (H1 & H2 & H3). split; [lia|]. split.
    + intros b [->|Hb]%elem_of_cons; [right; lia|by apply H2].
    + intros x Hx Hf. apply H3; [|intros b Hb; apply Hf; by right].
      destruct (Hf a) as [?|?]; [by left|lia|]. subst next. case_match; lia.
Qed.

Lemma choose_addr_ok s mm l m len :
  space_ok s mm l → mms s !! mm = Some m → vma_lock s = false →
  0 <= mmap_base m <= USER_SPACE_END → 0 <= len < 2 ^ 63 →
  choose_addr mm 0 len s =
    Done (if USER_SPACE_END <? u64 (first_fit s len (mmap_base m) l + len) then None
          else Some (first_fit s len (mmap_base m) l), s).
Proof.
  intros [(m' & Hm' & Hl) Ha Hs] Hm Hlock Hbase Hlen. assert (m' = m) as -> by congruence.
  unfold choose_addr, vma_acquire. unfold bind at 1, spin_acquire at 1. rewrite Hlock.
  set (s0 := set_vma_lock true s). rewrite Z.eqb_refl.
  assert (with_fuel (λ fuel, gap_loop fuel len (mmap_base m) (vma_list m)) s0
    = Done (first_fit s len (mmap_base m) l, s0)) as Hg.
  { unfold with_fuel. rewrite (gap_loop_ok s0 len l); try done.
    - f_equal. f_equal. generalize (mmap_base m). clear. induction l as [|a l IH]; intros addr; [done|].
      simpl. by rewrite IH.
    - apply (list_fuel_ok s0); [apply (sl_nodup _ _ _ Hl)|done]. }
  unfold bind at 1. mstep (get_mm_Done s0 mm m Hm). mstep Hg.
  unfold vma_release, spin_release, ret, modify. unfold bind. subst s0. destruct s. simpl in *. by subst.
Qed.

Lemma page_up_id x : 0 <= x <= 2 ^ 63 → x <= page_up x < x + 4096 ∧ page_up x mod 4096 = 0.
Proof.
  intros Hx. unfold page_up, PAGE_SIZE. rewrite u64_id by lia.
  change (4096 - 1) with (2 ^ 12 - 1). rewrite andnot_ones by lia. change (2 ^ 12) with 4096. split; zlia.
Qed.

(** Creating an area object leaves the lists of areas alone. *)
Lemma space_ok_create s mm l n v rest :
  space_ok s mm l → vmas s !! n = None →
  let s1 := set_vmas (<[n := v]> (vmas s)) (set_allocs rest s) in
  space_ok s1 mm l ∧ (n ∉ l) ∧ (∀ a, a ∈ l → area s1 a = area s a).
Proof.
  intros [(m & Hm & Hl) Ha Hs] Hn s1. rewrite Forall_forall in Ha.
  assert (n ∉ l) as Hnl by (intros Hin; destruct (Ha n Hin) as (w & Hw & _); congruence).
  assert (Hlook : ∀ a, a ∈ l → vmas s1 !! a = vmas s !! a).
  { intros a Hin. simpl. rewrite lookup_insert_ne; [done|]. by intros ->. }
  split; [|split; [done|]].
  - apply (space_ok_relink s s1 mm l m); [done| |by apply Forall_forall| |done].
    + eapply slist_ext; [|exact Hl]. intros a Hin. unfold vnext. by rewrite Hlook.
    + intros a Hin. by rewrite Hlook.
  - intros a Hin. unfold area. by rewrite Hlook.
Qed.

Lemma vma_create_ok s start end_ flags type n rest :
  start < end_ → end_ <= USER_SPACE_END → allocs s = n :: rest → n ≠ 0 →
  vma_create start end_ flags type s = Done (n,
    set_vmas (<[n := mk_vma start end_ flags type 0 0 0]> (vmas s)) (set_allocs rest s)).
Proof.
  intros H1 H2 Hal Hn. unfold vma_create.
  rewrite (proj2 (Z.leb_gt _ _)), (proj2 (Z.ltb_ge _ _)) by done. simpl.
  unfold bind at 1, kmalloc. rewrite Hal, (proj2 (Z.eqb_neq _ _)) by done. done.
Qed.

Lemma clash_free s n l v :
  vmas s !! n = Some v → free_range s (vm_start v) (vm_end v - vm_start v) l → clash s n l = false.
Proof.
  intros Hn Hf. unfold clash. destruct (existsb _ l) eqn:He; [|done].
  apply existsb_exists in He as (a & Ha%list_elem_of_In & Ho). exfalso.
  assert (area s n = v) as Hv by (unfold area; by rewrite Hn).
  rewrite Hv in Ho. unfold overlaps in Ho. destruct (Hf a Ha); lia.
Qed.

(** A new area in a free range. *)
Lemma new_area_ok s mm l start end_ flags type n rest :
  space_ok s mm l → mm ≠ 0 → vma_lock s = false → 0 <= start < end_ → end_ <= USER_SPACE_END →
  allocs s = n :: rest → n ≠ 0 → vmas s !! n = None → free_range s start (end_ - start) l →
  ∃ s1 s2, vma_create start end_ flags type s = Done (n, s1) ∧ vma_insert mm n s1 = Done (0, s2) ∧
    (∃ l', space_ok s2 mm l' ∧ ∀ a, a ∈ l' ↔ a = n ∨ a ∈ l) ∧
    (∀ a, a ∈ l → core (area s2 a) = core (area s a)) ∧ core (area s2 n) = mk_vma start end_ flags type 0 0 0 ∧
    pt s2 = pt s ∧ vma_lock s2 = false ∧ allocs s2 = rest ∧ (∀ a, a ≠ n → vmas s !! a = None → vmas s2 !! a = None) ∧
    ∀ k, set_vma_list 0 <$> mms s2 !! k = set_vma_list 0 <$> mms s !! k.
Proof.
  intros Hs Hmm Hlock Hst Hend Hal Hn Hfresh Hfree. pose proof Hs as [_ Ha _]. rewrite Forall_forall in Ha.
  eexists. set (v := mk_vma start end_ flags type 0 0 0).
  destruct (space_ok_create s mm l n v rest Hs Hfresh) as (Hs1 & Hnl & Hsame). set (s1 := set_vmas _ _) in *.
  assert (Hv : vmas s1 !! n = Some v) by (simpl; by rewrite lookup_insert_eq).
  assert (Hn1 : area_ok s1 n) by (exists v; split; [done|]; unfold v; simpl; lia).
  pose proof (vma_insert_ok s1 mm l n Hs1 Hn1 Hnl Hn Hmm Hlock) as Hins.
  rewrite (clash_free s1 n l v) in Hins; [|done|]. 2:{ intros a Hin. rewrite (Hsame a Hin). by apply Hfree. }
  destruct Hins as (s2 & Hrun & Hs2 & Hsp). exists s2.
  assert (Hcore : ∀ a w, vmas s1 !! a = Some w → core (area s2 a) = core w).
  { intros a w Hw. pose proof (ss_core _ _ _ Hsp a) as Hc. rewrite Hw in Hc. unfold area.
    destruct (vmas s2 !! a); [|done]. by apply Some_inj in Hc. }
  split; [by apply vma_create_ok; [lia|..]|]. split; [done|]. split.
  { exists (inserted s1 n l). split; [done|]. intros a. apply inserted_elem. }
  split; [|split; [exact (Hcore n v Hv)|]].
  - intros a Hin. destruct (Ha a Hin) as (w & Hw & _). rewrite (Hcore a w).
    + unfold area. by rewrite Hw.
    + simpl. rewrite lookup_insert_ne; [done|]. by intros ->.
  - rewrite (ss_pt _ _ _ Hsp), (ss_lock _ _ _ Hsp), (ss_allocs _ _ _ Hsp). split_and!; try done.
    + intros a Hne Hnone. pose proof (ss_core _ _ _ Hsp a) as Hc. simpl in Hc.
      rewrite lookup_insert_ne, Hnone in Hc by done. by destruct (vmas s2 !! a).
    + apply (ss_mms _ _ _ Hsp).
Qed.

(** [vma_allocate] without a requested address returns the lowest free
    range at or above [mmap_base]: inside user space, meeting no area, with no
    lower free range of that size; the new area is in the list, which stays
    sorted and disjoint.  It returns 0 only if no such range exists in user
    space, and then the address space is unchanged. *)
Theorem vma_allocate_first_fit s mm l m length flags n rest :
  space_ok s mm l → mms s !! mm = Some m → mm ≠ 0 → vma_lock s = false →
  0 < mmap_base m <= USER_SPACE_END → 0 < length <= 2 ^ 62 →
  allocs s = n :: rest → n ≠ 0 → vmas s !! n = None →
  let len := page_up length in
  (∃ r s' l', vma_allocate mm 0 length flags s = Done (r, s') ∧ mmap_base m <= r ∧
     r + len <= USER_SPACE_END ∧ free_range s r len l ∧
     (∀ x, mmap_base m <= x → free_range s x len l → r <= x) ∧
     space_ok s' mm l' ∧ (∀ a, a ∈ l' ↔ a = n ∨ a ∈ l) ∧
     (∀ a, a ∈ l → core (area s' a) = core (area s a)) ∧
     core (area s' n) = mk_vma r (r + len) flags VMA_ANONYMOUS 0 0 0) ∨
  (vma_allocate mm 0 length flags s = Done (0, s) ∧
     ∀ x, mmap_base m <= x → free_range s x len l → USER_SPACE_END < x + len).
Proof.
  intros Hs Hm Hmm Hlock Hbase Hlen Hal Hn Hfresh len.
  assert (Hlp : length <= len < length + 4096) by (apply page_up_id; lia).
  pose proof Hs as [Hlist Ha Hsort].
  destruct (first_fit_spec s len l (mmap_base m) Ha Hsort ltac:(lia)) as (Hr1 & Hr2 & Hr3).
  set (r := first_fit s len (mmap_base m) l) in *.
  assert (r <= USER_SPACE_END) as Hr4.
  { unfold r. clear -Ha Hbase. revert Ha. assert (mmap_base m <= USER_SPACE_END) as Hb by lia. revert Hb.
    generalize (mmap_base m). induction l as [|a l IH]; intros addr Hb Ha; cbn [first_fit]; [done|].
    apply Forall_cons in Ha as [Ha Hl]. pose proof (area_ok_range s a Ha).
    case_match; [done|]. apply IH; [|done]. case_match; lia. }
  assert (vma_allocate mm 0 length flags s = (match (if USER_SPACE_END <? u64 (r + len) then None else Some r) with
    | None => ret 0
    | Some addr => bind (vma_create addr (u64 (addr + len)) flags VMA_ANONYMOUS) (λ new,
        if new =? 0 then ret 0 else bind (vma_insert mm new) (λ q,
          if q <? 0 then bind (kfree_vma new) (λ _, ret 0) else ret addr)) end) s) as ->.
  { unfold vma_allocate. rewrite (proj2 (Z.eqb_neq mm 0)), (proj2 (Z.eqb_neq length 0)) by lia.
    cbn [orb]. fold len. mstep (choose_addr_ok s mm l m len Hs Hm Hlock ltac:(lia) ltac:(lia)). done. }
  unfold USER_SPACE_END in *. rewrite u64_id by lia.
  destruct (Z.ltb_spec 0x4000000000 (r + len)) as [Hout|Hin].
  - right. split; [done|]. intros x Hx Hf. specialize (Hr3 x Hx Hf). lia.
  - left. rewrite u64_id by lia.
    destruct (new_area_ok s mm l r (r + len) flags VMA_ANONYMOUS n rest Hs Hmm Hlock) as
      (s1 & s2 & Hrun1 & Hrun2 & (l' & Hs2 & Hl') & Hcore & Hnew & _); try done; try lia.
    { by replace (r + len - r) with len by lia. }
    mstep Hrun1. rewrite (proj2 (Z.eqb_neq n 0)) by done. mstep Hrun2. simpl.
    exists r, s2, l'. split_and!; try done; lia.
Qed.

(** ** Unmapping *)

(** The areas of [mm] with their contents, in list order. *)
Definition holds s (mm : Z) (vs : list (Z * vma)) : Prop :=
  (∃ m, mms s !! mm = Some m ∧ slist (vnext s) (vma_list m) vs.*1) ∧
  Forall (λ av, core <$> vmas s !! av.1 = Some (core av.2)) vs.

(** What remains of area [a] after [start, end_) is unmapped; [n] is the new
    area of a split. *)
Definition cut (start end_ n : Z) (av : Z * vma) : list (Z * vma) :=
  let (a, v) := av in
  if (vm_end v <=? start) || (end_ <=? vm_start v) then [(a, v)]
  else if (start <=? vm_start v) && (vm_end v <=? end_) then []
  else if (start <=? vm_start v) && (end_ <? vm_end v) then [(a, set_vm_start end_ v)]
  else if (vm_start v <? start) && (vm_end v <=? end_) then [(a, set_vm_end start v)]
  else [(a, set_vm_end start v); (n, mk_vma end_ (vm_end v) (vm_flags v) (vm_type v) 0 0 0)].

Lemma holds_lookup s mm vs a v : holds s mm vs → (a, v) ∈ vs →
  ∃ w, vmas s !! a = Some w ∧ core w = core v.
Proof.
  intros [_ Hv] Hin. rewrite Forall_forall in Hv. specialize (Hv _ Hin). simpl in Hv.
  destruct (vmas s !! a) as [w|]; [|done]. exists w. split; [done|]. by apply Some_inj in Hv.
Qed.

Lemma core_fields w v : core w = core v →
  vm_start w = vm_start v ∧ vm_end w = vm_end v ∧ vm_flags w = vm_flags v ∧ vm_type w = vm_type v ∧
  vm_file w = vm_file v ∧ vm_pgoff w = vm_pgoff v.
Proof.
  intros H. split_and!; [change (vm_start (core w) = vm_start (core v))
  |change (vm_end (core w) = vm_end (core v))|change (vm_flags (core w) = vm_flags (core v))
  |change (vm_type (core w) = vm_type (core v))|change (vm_file (core w) = vm_file (core v))
  |change (vm_pgoff (core w) = vm_pgoff (core v))]; by rewrite H.
Qed.

Lemma holds_next s mm l1 a v l2 w : holds s mm (l1 ++ (a, v) :: l2) → vmas s !! a = Some w →
  vm_next w = hdZ 0 l2.*1.
Proof.
  intros [(m & _ & Hl) _] Hw. rewrite fmap_app in Hl. pose proof (slist_split _ _ _ _ _ Hl) as Hn.
  unfold vnext in Hn. cbn [fst] in Hn. by rewrite Hw in Hn.
Qed.

(** Changing the page tables or the lock only. *)
Lemma holds_set_pt s mm vs q : holds (set_pt q s) mm vs ↔ holds s mm vs.
Proof. done. Qed.

(** Rewriting the contents of one area, not its link. *)
Lemma holds_modify s mm l1 a v l2 f w :
  holds s mm (l1 ++ (a, v) :: l2) → vmas s !! a = Some w →
  (∀ u, vm_next (f u) = vm_next u) → core (f w) = core (f v) →
  holds (set_vmas (<[a := f w]> (vmas s)) s) mm (l1 ++ (a, f v) :: l2).
Proof.
  intros [(m & Hm & Hl) Hv] Hw Hnext Hcore. rewrite fmap_app in Hl. cbn [fst fmap list_fmap] in Hl.
  split.
  - exists m. split; [done|]. rewrite fmap_app. cbn [fst fmap list_fmap].
    eapply slist_ext; [|exact Hl]. intros x _. unfold vnext. simpl.
    destruct (decide (x = a)) as [->|]; [by rewrite lookup_insert_eq, Hw; simpl; rewrite Hnext|].
    by rewrite lookup_insert_ne.
  - pose proof (sl_nodup _ _ _ Hl) as Hnd. apply NoDup_app in Hnd as (_ & Hdj & [Ha2 _]%NoDup_cons).
    rewrite Forall_app, Forall_cons in Hv |- *. destruct Hv as (Hv1 & _ & Hv2). simpl.
    split; [|split].
    + rewrite Forall_forall in Hv1 |- *. intros [b u] Hb. simpl. rewrite lookup_insert_ne; [by apply (Hv1 (b, u))|].
      intros <-. apply (Hdj a); [by apply (list_elem_of_fmap_2 fst l1 (a, u))|by left].
    + rewrite lookup_insert_eq. by rewrite <- Hcore.
    + rewrite Forall_forall in Hv2 |- *. intros [b u] Hb. simpl. rewrite lookup_insert_ne; [by apply (Hv2 (b, u))|].
      intros <-. apply Ha2. by apply (list_elem_of_fmap_2 fst l2 (a, u)).
Qed.

(** Unlinking and freeing an area. *)
Lemma holds_unlink s mm l1 a v l2 :
  holds s mm (l1 ++ (a, v) :: l2) →
  ∃ s', bind (if lastZ 0 l1.*1 =? 0 then mod_mm mm (set_vma_list (hdZ 0 l2.*1))
         else mod_vma (lastZ 0 l1.*1) (set_vm_next (hdZ 0 l2.*1))) (λ _, kfree_vma a) s
    = Done (tt, s') ∧ holds s' mm (l1 ++ l2) ∧ pt s' = pt s ∧ vma_lock s' = vma_lock s ∧
    allocs s' = allocs s ∧ (∀ x, vmas s !! x = None → vmas s' !! x = None).
Proof.
  intros Hh. pose proof Hh as [(m & Hm & Hl) Hv]. rewrite fmap_app in Hl. cbn [fst fmap list_fmap] in Hl.
  pose proof (sl_nodup _ _ _ Hl) as Hnd. apply NoDup_app in Hnd as (_ & Hdj & [Ha2 _]%NoDup_cons).
  pose proof (sl_nonnull _ _ _ Hl) as H0. rewrite elem_of_app in H0.
  rewrite Forall_app, Forall_cons in Hv. destruct Hv as (Hv1 & _ & Hv2).
  assert (Ha1 : a ∉ l1.*1) by (intros ?; apply (Hdj a); [done|by left]).
  assert (Hne : ∀ b u, (b, u) ∈ l1 ++ l2 → b ≠ a).
  { intros b u Hb ->. apply elem_of_app in Hb as [Hb|Hb];
      [apply Ha1; by apply (list_elem_of_fmap_2 fst l1 (a, u))
      |apply Ha2; by apply (list_elem_of_fmap_2 fst l2 (a, u))]. }
  assert (Hv12 : Forall (λ av, core <$> vmas s !! av.1 = Some (core av.2)) (l1 ++ l2)) by (by apply Forall_app).
  destruct (Z.eqb_spec (lastZ 0 l1.*1) 0) as [Hz|Hz].
  - apply lastZ_zero_iff in Hz; [|naive_solver]. apply fmap_nil_inv in Hz. subst l1. cbn [app] in *.
    mstep (mod_mm_Done s mm m (set_vma_list (hdZ 0 l2.*1)) Hm). unfold kfree_vma, modify.
    eexists. split; [done|]. split_and!; try done; [|intros x Hx; simpl; by rewrite lookup_delete_None; right].
    destruct (slist_tail _ _ _ _ Hl) as (Hl' & _). split.
    + eexists. split; [apply lookup_insert_eq|]. simpl.
      split; [|done|by apply (sl_nodup _ _ _ Hl')|by apply (sl_nonnull _ _ _ Hl')].
      eapply chain_ext; [|apply (sl_chain _ _ _ Hl')]. intros x Hx. unfold vnext. simpl.
      rewrite lookup_delete_ne; [done|]. by intros <-.
    + rewrite Forall_forall in Hv12 |- *. intros [b u] Hb. simpl.
      rewrite lookup_delete_ne; [by apply (Hv12 (b, u))|]. intros <-. by apply (Hne a u Hb).
  - set (z := lastZ 0 l1.*1) in *.
    assert (z ∈ l1.*1) as Hzin by (apply lastZ_elem; intros He; unfold z in Hz; by rewrite He in Hz).
    assert (z ≠ a) as Hza by (by intros ->).
    apply list_elem_of_fmap in Hzin as ([z' u] & Hzz & Hzin). simpl in Hzz. subst z'.
    destruct (holds_lookup s mm _ z u Hh) as (w & Hw & Hwc); [apply elem_of_app; by left|].
    mstep (mod_vma_Done s z w (set_vm_next (hdZ 0 l2.*1)) Hw). unfold kfree_vma, modify.
    eexists. split; [done|]. split_and!; try done.
    2:{ intros x Hx. simpl. apply lookup_delete_None. right. rewrite lookup_insert_ne; [done|]. congruence. }
    split.
    + exists m. split; [done|]. rewrite fmap_app.
      replace (vma_list m) with (hdZ 0 (l1.*1 ++ l2.*1)).
      2:{ rewrite (sl_head _ _ _ Hl). destruct l1; [done|]. done. }
      eapply slist_remove; [exact Hl|]. intros x Hx. unfold vnext. simpl.
      assert (x ≠ a). { intros ->. apply elem_of_app in Hx as [?|?]; done. }
      rewrite lookup_delete_ne by done. fold z. case_decide as Hxz.
      * subst x. by rewrite lookup_insert_eq.
      * by rewrite lookup_insert_ne.
    + rewrite Forall_forall in Hv12 |- *. intros [b u'] Hb. simpl.
      rewrite lookup_delete_ne by (intros <-; by apply (Hne a u' Hb)).
      destruct (decide (b = z)) as [->|]; [|rewrite lookup_insert_ne by done; by apply (Hv12 (b, u'))].
      rewrite lookup_insert_eq. specialize (Hv12 _ Hb). simpl in Hv12. by rewrite Hw in Hv12.
Qed.

(** The pages that [vma_unmap] visits in these areas. *)
Definition cut_pages (start end_ : Z) (av : Z * vma) : list Z :=
  let v := av.2 in
  if (vm_end v <=? start) || (end_ <=? vm_start v) then []
  else if (start <=? vm_start v) && (vm_end v <=? end_) then pages (vm_start v) (vm_end v)
  else if (start <=? vm_start v) && (end_ <? vm_end v) then pages (vm_start v) end_
  else if (vm_start v <? start) && (vm_end v <=? end_) then pages start (vm_end v)
  else pages start end_.

Definition outside (start end_ : Z) (av : Z * vma) : bool :=
  (vm_end av.2 <=? start) || (end_ <=? vm_start av.2).

Lemma get_holds s mm l1 a v l2 : holds s mm (l1 ++ (a, v) :: l2) →
  ∃ w, get_vma a s = Done (w, s) ∧ vmas s !! a = Some w ∧ core w = core v ∧ vm_next w = hdZ 0 l2.*1 ∧ a ≠ 0.
Proof.
  intros Hh. destruct (holds_lookup s mm _ a v Hh) as (w & Hw & Hc).
  { apply elem_of_app. right. by left. }
  exists w. split; [unfold get_vma; by rewrite Hw|]. split_and!; [done|done|by eapply holds_next|].
  destruct Hh as [(m & _ & Hl) _]. pose proof (sl_nonnull _ _ _ Hl) as H0. intros ->.
  apply H0. rewrite fmap_app. apply elem_of_app. right. by left.
Qed.

(** Areas outside the range are walked over. *)
Lemma unmap_skip mm table start end_ rest : ∀ fuel prev l1 s,
  holds s mm (l1 ++ rest) → Forall (λ av, outside start end_ av = true) rest → (length rest < fuel)%nat →
  unmap_loop fuel mm table start end_ prev (hdZ 0 rest.*1) s = Done (true, s).
Proof.
  induction rest as [|[a v] rest IH]; intros fuel prev l1 s Hh Ho Hf;
    (destruct fuel as [|fuel]; [simpl in Hf; lia|]); cbn [unmap_loop fmap list_fmap hdZ fst]; [done|].
  destruct (get_holds s mm l1 a v rest Hh) as (w & Hg & _ & Hc & Hn & Ha0).
  rewrite (proj2 (Z.eqb_neq _ _)) by done. mstep Hg.
  apply core_fields in Hc as (Hs & He & _). apply Forall_cons in Ho as [Ho Hrest].
  rewrite Hs, He, Hn. unfold outside in Ho. simpl in Ho. rewrite Ho.
  apply (IH fuel a (l1 ++ [(a, v)])); [by rewrite <- app_assoc|done|simpl in Hf; lia].
Qed.

Lemma cut_outside start end_ n rest : Forall (λ av, outside start end_ av = true) rest →
  concat (cut start end_ n <$> rest) = rest ∧ concat (cut_pages start end_ <$> rest) = [].
Proof.
  induction 1 as [|[a v] rest Ho _ [IH1 IH2]]; [done|]. cbn [fmap list_fmap concat].
  unfold outside in Ho. simpl in Ho. unfold cut at 1, cut_pages at 1. simpl snd. rewrite Ho.
  by rewrite IH1, IH2.
Qed.

(** Splitting area [a] at the hole: the new area [n] is linked after it. *)
Lemma holds_split s mm l1 a v l2 w start n N :
  holds s mm (l1 ++ (a, v) :: l2) → vmas s !! a = Some w → core w = core v → vm_next w = hdZ 0 l2.*1 →
  vmas s !! n = None → n ≠ 0 →
  let vm' := <[a := set_vm_next n (set_vm_end start w)]> (<[n := set_vm_next (hdZ 0 l2.*1) N]> (vmas s)) in
  holds (set_vmas vm' s) mm (l1 ++ (a, set_vm_end start v) :: (n, N) :: l2).
Proof.
  intros Hh Hw Hc Hnext Hfresh Hn0 vm'. pose proof Hh as [(m & Hm & Hl) Hv].
  assert (Hex : ∀ b u, (b, u) ∈ l1 ++ (a, v) :: l2 → b ≠ n).
  { intros b u Hb ->. destruct (holds_lookup s mm _ n u Hh Hb) as (? & ? & _). congruence. }
  assert (a ≠ n) as Han by (apply (Hex a v); apply elem_of_app; right; by left).
  rewrite fmap_app in Hl. cbn [fst fmap list_fmap] in Hl.
  pose proof (sl_nodup _ _ _ Hl) as Hnd. apply NoDup_app in Hnd as (_ & Hdj & [Ha2 _]%NoDup_cons).
  assert (Ha1 : a ∉ l1.*1) by (intros ?; apply (Hdj a); [done|by left]).
  split.
  - exists m. split; [done|]. rewrite fmap_app. cbn [fst fmap list_fmap].
    replace (l1.*1 ++ a :: n :: l2.*1) with ((l1.*1 ++ [a]) ++ n :: l2.*1) by (by rewrite <- app_assoc).
    replace (vma_list m) with (hdZ 0 ((l1.*1 ++ [a]) ++ n :: l2.*1)).
    2:{ rewrite (sl_head _ _ _ Hl). by destruct l1. }
    assert (Hnin : n ∉ (l1.*1 ++ [a]) ++ l2.*1).
    { rewrite <- app_assoc. cbn [app]. rewrite elem_of_app, elem_of_cons.
      intros [H|[H|H]]; [|congruence|]; apply list_elem_of_fmap in H as ([b u] & Hb & Hin); simpl in Hb; subst b;
        apply (Hex n u); try done; apply elem_of_app; [by left|right; by right]. }
    eapply (slist_insert (vnext s) _ (vma_list m)); [by rewrite <- app_assoc|done|done| |].
    + intros x Hx. rewrite lastZ_app. simpl. unfold vnext, vm'. simpl.
      assert (x ≠ n) by (intros ->; done).
      case_decide as Hxa; [subst x; by rewrite lookup_insert_eq|].
      by rewrite !lookup_insert_ne.
    + unfold vnext, vm'. simpl. by rewrite lookup_insert_ne, lookup_insert_eq.
  - rewrite Forall_app, Forall_cons in Hv. rewrite Forall_app, !Forall_cons. destruct Hv as (Hv1 & _ & Hv2). simpl. unfold vm'.
    split; [|split; [|split]].
    + rewrite Forall_forall in Hv1 |- *. intros [b u] Hb. simpl. rewrite !lookup_insert_ne; [by apply (Hv1 (b, u))| |].
      * intros <-. apply (Hex n u); [apply elem_of_app; by left|done].
      * intros <-. apply Ha1. by apply (list_elem_of_fmap_2 fst l1 (a, u)).
    + rewrite lookup_insert_eq. simpl. f_equal. apply core_fields in Hc as (Hs & He & Hfl & Hty & Hfi & Hpg).
      unfold core, set_vm_next, set_vm_end. simpl. by rewrite Hs, Hfl, Hty, Hfi, Hpg.
    + rewrite lookup_insert_ne, lookup_insert_eq by done. done.
    + rewrite Forall_forall in Hv2 |- *. intros [b u] Hb. simpl. rewrite !lookup_insert_ne; [by apply (Hv2 (b, u))| |].
      * intros <-. apply (Hex n u); [apply elem_of_app; right; by right|done].
      * intros <-. apply Ha2. by apply (list_elem_of_fmap_2 fst l2 (a, u)).
Qed.

Lemma unmap_loop_ok mm table l2s l3s start end_ n rest_allocs rest : ∀ fuel l1 s,
  holds s mm (l1 ++ rest) → pages_ok (pt s) table l2s l3s → (length rest < fuel)%nat →
  start < end_ → allocs s = n :: rest_allocs → n ≠ 0 → vmas s !! n = None →
  Forall (λ av, vm_start av.2 < vm_end av.2 ∧ vm_end av.2 <= USER_SPACE_END) rest →
  StronglySorted (λ x y, vm_end x.2 <= vm_start y.2) rest →
  ∃ s', unmap_loop fuel mm table start end_ (lastZ 0 l1.*1) (hdZ 0 rest.*1) s = Done (true, s') ∧
    holds s' mm (l1 ++ concat (cut start end_ n <$> rest)) ∧ vma_lock s' = vma_lock s ∧
    unmapped_pages (pt s) (pt s') table l2s l3s (concat (cut_pages start end_ <$> rest)).
Proof.
  induction rest as [|[a v] rest IH]; intros fuel l1 s Hh Hpo Hf Hse Hal Hn0 Hfresh Hok Hsort;
    (destruct fuel as [|fuel]; [simpl in Hf; lia|]); cbn [unmap_loop fmap list_fmap hdZ fst concat].
  { exists s. split_and!; [done|done|done|by apply unmapped_refl]. }
  destruct (get_holds s mm l1 a v rest Hh) as (w & Hg & Hw & Hc & Hn & Ha0).
  rewrite (proj2 (Z.eqb_neq _ _)) by done. mstep Hg. pose proof Hc as Hcore.
  apply core_fields in Hc as (Hs & He & Hfl & Hty & Hfi & Hpg). rewrite Hs, He, Hn, Hfl, Hty. cbv zeta.
  apply Forall_cons in Hok as [[Hv1 Hv2] Hok]. apply StronglySorted_inv in Hsort as [Hsort Hall].
  unfold cut at 1, cut_pages at 1. simpl snd. simpl in Hv1, Hv2.
  set (keep := vm_type v =? VMA_DEVICE).
  assert (Hlast : lastZ 0 (l1 ++ [(a, v)]).*1 = a) by (by rewrite fmap_app, lastZ_app).
  destruct ((vm_end v <=? start) || (end_ <=? vm_start v)) eqn:Ho.
  { destruct (IH fuel (l1 ++ [(a, v)]) s) as (s' & Hrun & Hh' & Hlk & Hum); try done.
    - by rewrite <- app_assoc.
    - simpl in Hf. lia.
    - rewrite Hlast in Hrun. exists s'. rewrite <- app_assoc in Hh'. done. }
  assert (Hfree : ∀ x y, ∃ q, free_pages table keep x y s = Done (tt, set_pt q s) ∧
    unmapped_pages (pt s) q table l2s l3s (pages x y)).
  { intros x y. by apply free_pages_loop. }
  destruct ((start <=? vm_start v) && (vm_end v <=? end_)) eqn:H1.
  { destruct (Hfree (vm_start v) (vm_end v)) as (q & Hfr & Hum1). mstep Hfr.
    destruct (holds_unlink (set_pt q s) mm l1 a v rest Hh) as (s1 & Hun & Hh1 & Hpt1 & Hlk1 & Hal1 & Hfr1).
    apply bind_inv in Hun as ([] & s2 & Hun1 & Hun2). mstep Hun1. mstep Hun2.
    destruct (IH fuel l1 s1) as (s' & Hrun & Hh' & Hlk & Hum); try done.
    - rewrite Hpt1. apply Hum1.
    - simpl in Hf. lia.
    - by rewrite Hal1.
    - by apply Hfr1.
    - exists s'. split; [done|]. split; [done|]. split; [by rewrite Hlk|].
      rewrite Hpt1 in Hum. by eapply unmapped_trans. }
  (* the area stays, shortened at one end *)
  assert (Hmod : ∀ f x y, (∀ u, vm_next (f u) = vm_next u) → core (f w) = core (f v) →
    ∃ s', bind (free_pages table keep x y) (λ _, bind (mod_vma a f) (λ _,
        unmap_loop fuel mm table start end_ a (hdZ 0 rest.*1))) s = Done (true, s') ∧
      holds s' mm (l1 ++ (a, f v) :: concat (cut start end_ n <$> rest)) ∧ vma_lock s' = vma_lock s ∧
      unmapped_pages (pt s) (pt s') table l2s l3s (pages x y ++ concat (cut_pages start end_ <$> rest))).
  { intros f x y Hfn Hfc. destruct (Hfree x y) as (q & Hfr & Hum1). mstep Hfr.
    mstep (mod_vma_Done (set_pt q s) a w f Hw).
    pose proof (holds_modify (set_pt q s) mm l1 a v rest f w Hh Hw Hfn Hfc) as Hh1.
    set (s1 := set_vmas _ _) in *.
    destruct (IH fuel (l1 ++ [(a, f v)]) s1) as (s' & Hrun & Hh' & Hlk & Hum); try done.
    - by rewrite <- app_assoc.
    - apply Hum1.
    - simpl in Hf. lia.
    - simpl. rewrite lookup_insert_ne; [done|]. congruence.
    - rewrite fmap_app, lastZ_app in Hrun. exists s'. rewrite <- app_assoc in Hh'.
      split; [done|]. split; [done|]. split; [done|]. by eapply unmapped_trans. }
  destruct ((start <=? vm_start v) && (end_ <? vm_end v)) eqn:H2.
  { apply Hmod; [done|]. unfold core, set_vm_next, set_vm_start. simpl. by rewrite He, Hfl, Hty, Hfi, Hpg. }
  destruct ((vm_start v <? start) && (vm_end v <=? end_)) eqn:H3.
  { apply Hmod; [done|]. unfold core, set_vm_next, set_vm_end. simpl. by rewrite Hs, Hfl, Hty, Hfi, Hpg. }
  rewrite (proj2 (Z.ltb_lt (vm_start v) start)), (proj2 (Z.ltb_lt end_ (vm_end v))) by lia. cbn [andb].
  mstep (vma_create_ok s end_ (vm_end v) (vm_flags v) (vm_type v) n rest_allocs ltac:(lia) Hv2 Hal Hn0).
  rewrite (proj2 (Z.eqb_neq n 0)) by done. set (N := mk_vma _ _ _ _ _ _ _). set (s0 := set_vmas _ _).
  destruct (free_pages_loop table l2s l3s keep (pages start end_) s0 Hpo) as (q & Hfr & Hum1).
  change (for_each (free_page table keep) (pages start end_)) with (free_pages table keep start end_) in Hfr.
  mstep Hfr. assert (a ≠ n) as Han by congruence.
  assert (vmas s0 !! a = Some w) as Hw0 by (simpl; by rewrite lookup_insert_ne).
  mstep (mod_vma_Done (set_pt q s0) a w (set_vm_end start) Hw0).
  erewrite (bind_Done (mod_vma n _));
    [|apply mod_vma_Done; simpl; rewrite lookup_insert_ne by done; apply lookup_insert_eq].
  erewrite (bind_Done (mod_vma a _));
    [|apply mod_vma_Done; simpl; rewrite lookup_insert_ne by done; apply lookup_insert_eq].
  simpl. set (s3 := set_vmas _ _).
  assert (holds s3 mm (l1 ++ (a, set_vm_end start v) :: (n, N) :: rest)) as Hh3.
  { pose proof (holds_split (set_pt q (set_allocs rest_allocs s)) mm l1 a v rest w start n N Hh Hw Hcore Hn Hfresh Hn0) as H.
    replace s3 with (set_vmas (<[a := set_vm_next n (set_vm_end start w)]>
      (<[n := set_vm_next (hdZ 0 rest.*1) N]> (vmas s))) (set_pt q (set_allocs rest_allocs s))); [exact H|].
    unfold s3, set_vmas, set_pt, set_allocs. simpl. f_equal. apply map_eq. intros k.
    destruct (decide (k = a)) as [->|]; [by rewrite !lookup_insert_eq|].
    destruct (decide (k = n)) as [->|]; [by rewrite !(lookup_insert_ne _ a), !lookup_insert_eq by done|].
    by rewrite !lookup_insert_ne. }
  assert (Forall (λ av, outside start end_ av = true) rest) as Hout.
  { rewrite Forall_forall in Hall |- *. intros y Hy. specialize (Hall y Hy). unfold outside.
    apply orb_true_iff. right. apply Z.leb_le. simpl in Hall. lia. }
  destruct (cut_outside start end_ n rest Hout) as [-> ->].
  exists s3. split; [|split; [done|split; [done|]]].
  - apply (unmap_skip mm table start end_ rest fuel a (l1 ++ [(a, set_vm_end start v); (n, N)])).
    + by rewrite <- app_assoc.
    + done.
    + simpl in Hf. lia.
  - rewrite app_nil_r. exact Hum1.
Qed.

(** From the list of addresses to the list of contents and back. *)
Definition contents s (l : list Z) : list (Z * vma) := (λ a, (a, area s a)) <$> l.

Lemma contents_fst s l : (contents s l).*1 = l.
Proof. unfold contents. rewrite <- list_fmap_compose. apply list_fmap_id. Qed.

Lemma space_holds s mm l : space_ok s mm l → holds s mm (contents s l).
Proof.
  intros [Hl Ha _]. split; [by rewrite contents_fst|]. unfold contents. rewrite Forall_fmap.
  eapply Forall_impl; [exact Ha|]. intros a Hok. simpl. by rewrite (area_ok_lookup s a Hok).
Qed.

Definition area_in (v : vma) : Prop := 0 <= vm_start v ∧ vm_start v < vm_end v ∧ vm_end v <= USER_SPACE_END.

Lemma holds_area s mm vs a v : holds s mm vs → (a, v) ∈ vs → core (area s a) = core v.
Proof. intros Hh Hin. destruct (holds_lookup s mm vs a v Hh Hin) as (w & Hw & Hc). unfold area. by rewrite Hw. Qed.

Lemma holds_space s mm vs : holds s mm vs → Forall (λ av, area_in av.2) vs →
  StronglySorted (λ x y, vm_end x.2 <= vm_start y.2) vs → space_ok s mm vs.*1.
Proof.
  intros Hh Hin Hs. pose proof Hh as [Hl Hv]. split; [done| |].
  - rewrite Forall_fmap. rewrite Forall_forall in Hin |- *. intros [a v] Hav. simpl.
    destruct (holds_lookup s mm vs a v Hh Hav) as (w & Hw & Hc). exists w. split; [done|].
    apply core_fields in Hc as (-> & -> & _). by apply (Hin (a, v)).
  - assert (∀ av, av ∈ vs → core (area s av.1) = core av.2) as Hall.
    { intros [a v] Hav. by apply (holds_area s mm vs). }
    clear -Hs Hall. induction Hs as [|av vs Hs IH Hf]; cbn [fmap list_fmap]; constructor.
    + apply IH. intros x Hx. apply Hall. by right.
    + rewrite Forall_fmap. rewrite Forall_forall in Hf |- *. intros y Hy. simpl. unfold before.
      destruct (core_fields _ _ (Hall av ltac:(by left))) as (_ & -> & _).
      destruct (core_fields _ _ (Hall y ltac:(by right))) as (-> & _). by apply Hf.
Qed.

(** What [cut] leaves of one area lies inside it, sorted. *)
Lemma cut_inside start end_ n a v b u : start < end_ → area_in v → (b, u) ∈ cut start end_ n (a, v) →
  area_in u ∧ vm_start v <= vm_start u ∧ vm_end u <= vm_end v.
Proof.
  unfold area_in, cut. intros Hse Hv. repeat case_match; rewrite ?elem_of_cons; intros H';
    repeat destruct H' as [[= -> ->]|H']; try (by apply not_elem_of_nil in H'); simpl; lia.
Qed.

Lemma cut_sorted start end_ n a v : start < end_ →
  StronglySorted (λ x y, vm_end x.2 <= vm_start y.2) (cut start end_ n (a, v)).
Proof.
  intros Hse. unfold cut. repeat case_match; repeat constructor. simpl. lia.
Qed.

Lemma cut_all_sorted start end_ n vs : start < end_ → Forall (λ av, area_in av.2) vs →
  StronglySorted (λ x y, vm_end x.2 <= vm_start y.2) vs →
  let vs' := concat (cut start end_ n <$> vs) in
  Forall (λ av, area_in av.2) vs' ∧ StronglySorted (λ x y, vm_end x.2 <= vm_start y.2) vs'.
Proof.
  intros Hse Hin Hs. induction Hs as [|[a v] vs Hs IH Hf]; [by split; constructor|].
  apply Forall_cons in Hin as [Hv Hin]. destruct (IH Hin) as [IH1 IH2]. cbn [fmap list_fmap concat].
  simpl in Hv. split.
  - apply Forall_app. split; [|done]. apply Forall_forall. intros [b u] Hb.
    by apply (cut_inside start end_ n a v b u).
  - apply StronglySorted_app_intro; [by apply cut_sorted|done|].
    intros [b u] [c w] Hb Hc. simpl. apply (cut_inside _ _ _ _ _ _ _ Hse Hv) in Hb as (_ & _ & Hbu).
    apply list_elem_of_In, in_concat in Hc as (q & Hq & Hc).
    apply list_elem_of_In, list_elem_of_fmap in Hq as ([d x] & -> & Hd). apply list_elem_of_In in Hc.
    rewrite Forall_forall in Hf, Hin. specialize (Hf _ Hd). simpl in Hf.
    apply (cut_inside _ _ _ _ _ _ _ Hse (Hin _ Hd)) in Hc as (_ & Hcw & _). simpl in Hcw. lia.
Qed.

(** Address [x] belongs to an area of [l] with these flags and type. *)
Definition covered s (l : list Z) (x flags type : Z) : Prop :=
  ∃ a, a ∈ l ∧ vm_start (area s a) <= x < vm_end (area s a) ∧
    vm_flags (area s a) = flags ∧ vm_type (area s a) = type.

Definition covers (vs : list (Z * vma)) (x flags type : Z) : Prop :=
  ∃ a v, (a, v) ∈ vs ∧ vm_start v <= x < vm_end v ∧ vm_flags v = flags ∧ vm_type v = type.

Lemma covered_covers s mm vs x f t : holds s mm vs → covered s vs.*1 x f t ↔ covers vs x f t.
Proof.
  intros Hh. split.
  - intros (a & Ha & Hx). apply list_elem_of_fmap in Ha as ([b v] & -> & Hb). exists b, v.
    split; [done|]. destruct (core_fields _ _ (holds_area s mm vs b v Hh Hb)) as (<- & <- & <- & <- & _). done.
  - intros (a & v & Hin & Hx). exists a. split; [by apply (list_elem_of_fmap_2 fst vs (a, v))|].
    destruct (core_fields _ _ (holds_area s mm vs a v Hh Hin)) as (-> & -> & -> & -> & _). done.
Qed.

(** The addresses that remain covered. *)
Lemma cut_covers start end_ n vs x f t : start < end_ → Forall (λ av, area_in av.2) vs →
  covers (concat (cut start end_ n <$> vs)) x f t ↔ covers vs x f t ∧ ¬ (start <= x < end_).
Proof.
  intros Hse Hin. rewrite Forall_forall in Hin. unfold covers. split.
  - intros (b & u & Hb & Hx). apply list_elem_of_In, in_concat in Hb as (q & Hq & Hb).
    apply list_elem_of_In, list_elem_of_fmap in Hq as ([a v] & -> & Ha). apply list_elem_of_In in Hb.
    pose proof (Hin _ Ha) as Hv. unfold area_in in Hv. simpl in Hv.
    assert ((vm_start v <= x < vm_end v ∧ vm_flags v = f ∧ vm_type v = t) ∧ ¬ (start <= x < end_)) as [? ?].
    { unfold cut in Hb. repeat case_match; rewrite ?elem_of_cons in Hb;
        repeat destruct Hb as [[= -> ->]|Hb]; try (by apply not_elem_of_nil in Hb); simpl in Hx; lia. }
    split; [|done]. by exists a, v.
  - intros [(a & v & Ha & Hx) Hn]. pose proof (Hin _ Ha) as Hv. unfold area_in in Hv. simpl in Hv.
    assert (∃ b u, (b, u) ∈ cut start end_ n (a, v) ∧ vm_start u <= x < vm_end u ∧
      vm_flags u = f ∧ vm_type u = t) as (b & u & Hb & Hu).
    { unfold cut. repeat case_match.
      - exists a, v. split; [by left|done].
      - lia.
      - exists a. eexists. split; [by left|]. simpl. lia.
      - exists a. eexists. split; [by left|]. simpl. lia.
      - destruct (decide (x < start)); [exists a|exists n]; eexists;
          (split; [(by left) || (right; by left)|]); simpl; lia. }
    exists b, u. split; [|done]. apply list_elem_of_In, in_concat. exists (cut start end_ n (a, v)).
    split; apply list_elem_of_In; [by apply (list_elem_of_fmap_2 (cut start end_ n) vs (a, v))|done].
Qed.

Lemma elem_of_pages (x st e : Z) : x ∈ pages st e ↔ ∃ k, 0 <= k ∧ x = st + k * 4096 ∧ x < e.
Proof.
  unfold pages, PAGE_SIZE. rewrite list_elem_of_fmap. setoid_rewrite elem_of_seqZ. split.
  - intros (k & -> & Hk). exists k. split; [lia|]. split; [done|].
    pose proof (Z.mul_div_le (e - st + 4096 - 1) 4096). lia.
  - intros (k & Hk & -> & Hlt). exists k. split; [done|]. split; [done|].
    assert (k + 1 <= (e - st + 4096 - 1) / 4096); [|lia]. apply Z.div_le_lower_bound; lia.
Qed.

Lemma elem_of_pages_aligned (x st e : Z) : st mod 4096 = 0 → x ∈ pages st e ↔ st <= x < e ∧ x mod 4096 = 0.
Proof.
  intros Hs. rewrite elem_of_pages. split.
  - intros (k & Hk & -> & Hlt). split; [lia|]. rewrite Z_mod_plus_full. done.
  - intros [Hx Hm]. exists ((x - st) / 4096). zlia.
Qed.

Definition page_aligned (v : vma) : Prop := vm_start v mod 4096 = 0 ∧ vm_end v mod 4096 = 0.

(** The pages freed are those of the areas that lie in the range. *)
Lemma cut_pages_elem start end_ vs x :
  start mod 4096 = 0 → start < end_ → Forall (λ av, page_aligned av.2) vs → Forall (λ av, area_in av.2) vs →
  x ∈ concat (cut_pages start end_ <$> vs) ↔
    start <= x < end_ ∧ x mod 4096 = 0 ∧ ∃ a v, (a, v) ∈ vs ∧ vm_start v <= x < vm_end v.
Proof.
  intros Hst Hse Hal Hin. rewrite list_elem_of_In, in_concat. setoid_rewrite <- list_elem_of_In.
  rewrite Forall_forall in Hal, Hin.
  assert (Hone : ∀ a v, (a, v) ∈ vs → x ∈ cut_pages start end_ (a, v) ↔
    start <= x < end_ ∧ x mod 4096 = 0 ∧ vm_start v <= x < vm_end v).
  { intros a v Ha. destruct (Hal _ Ha) as [H1 _]. pose proof (Hin _ Ha) as Hv. unfold area_in in Hv. simpl in H1, Hv.
    unfold cut_pages. simpl snd. repeat case_match; rewrite ?elem_of_pages_aligned by done;
      try (rewrite elem_of_nil); lia. }
  split.
  - intros (q & Hq & Hx). apply list_elem_of_fmap in Hq as ([a v] & -> & Ha). apply (Hone a v Ha) in Hx as (? & ? & ?).
    split; [done|]. split; [done|]. by exists a, v.
  - intros (H1 & H2 & a & v & Ha & Hx). exists (cut_pages start end_ (a, v)).
    split; [by apply (list_elem_of_fmap_2 (cut_pages start end_) vs (a, v))|]. by apply (Hone a v Ha).
Qed.

Lemma same_page_user x y : 0 <= x < 2 ^ 39 → 0 <= y < 2 ^ 39 → same_page x y → x / 4096 = y / 4096.
Proof.
  intros Hx Hy. unfold same_page, l1_idx, l2_idx, l3_idx. change 0x1FF with (2 ^ 9 - 1).
  rewrite !land_ones_mod, !Z.shiftr_div_pow2 by lia. intros (H1 & H2 & H3). zlia.
Qed.

(** Everything [vma_unmap] does, with its list of areas. *)
Lemma vma_unmap_ok s mm l m start end_ n rest l2s l3s :
  space_ok s mm l → mms s !! mm = Some m → mm ≠ 0 → vma_lock s = false → start < end_ →
  pages_ok (pt s) (page_table m) l2s l3s → allocs s = n :: rest → n ≠ 0 → vmas s !! n = None →
  let vs := contents s l in
  ∃ s', vma_unmap mm start end_ s = Done (0, s') ∧ holds s' mm (concat (cut start end_ n <$> vs)) ∧
    space_ok s' mm (concat (cut start end_ n <$> vs)).*1 ∧ vma_lock s' = false ∧
    unmapped_pages (pt s) (pt s') (page_table m) l2s l3s (concat (cut_pages start end_ <$> vs)).
Proof.
  intros Hs Hm Hmm Hlock Hse Hpo Hal Hn Hfresh vs. pose proof (space_holds s mm l Hs) as Hh. fold vs in Hh.
  pose proof Hs as [(m0 & Hm0 & Hl) Ha Hsort]. rewrite Hm in Hm0. injection Hm0 as <-.
  assert (Hin : Forall (λ av, area_in av.2) vs).
  { unfold vs, contents. rewrite Forall_fmap. eapply Forall_impl; [exact Ha|]. apply area_ok_range. }
  assert (Hso : StronglySorted (λ x y, vm_end x.2 <= vm_start y.2) vs).
  { unfold vs, contents. clear -Hsort. induction Hsort; cbn [fmap list_fmap]; constructor; [done|].
    by rewrite Forall_fmap. }
  destruct (cut_all_sorted start end_ n vs Hse Hin Hso) as [Hin' Hso'].
  set (s0 := set_vma_lock true s).
  destruct (unmap_loop_ok mm (page_table m) l2s l3s start end_ n rest vs (list_fuel s0) [] s0)
    as (s1 & Hrun & Hh1 & Hlk & Hum); try done.
  - unfold vs, contents. rewrite length_fmap. apply (list_fuel_ok s0); [apply (sl_nodup _ _ _ Hl)|done].
  - eapply Forall_impl; [exact Hin|]. intros av (_ & ? & ?). done.
  - exists (set_vma_lock false s1). assert (vma_unmap mm start end_ s = Done (0, set_vma_lock false s1)) as ->.
    { unfold vma_unmap. rewrite (proj2 (Z.eqb_neq _ _)), (proj2 (Z.leb_gt _ _)) by done. cbn [orb].
      unfold vma_acquire, spin_acquire. unfold bind at 1. rewrite Hlock. fold s0.
      mstep (get_mm_Done s0 mm m Hm). assert (vma_list m = hdZ 0 vs.*1) as ->.
      { unfold vs. rewrite contents_fst. apply (sl_head _ _ _ Hl). }
      change (lastZ 0 ([] : list (Z * vma)).*1) with 0 in Hrun.
      assert (with_fuel (λ fuel, unmap_loop fuel mm (page_table m) start end_ 0 (hdZ 0 vs.*1)) s0 = Done (true, s1))
        as Hw by exact Hrun. mstep Hw. done. }
    split; [done|]. cbn [app] in Hh1. split; [exact Hh1|]. split; [|split; [done|exact Hum]].
    apply holds_space; [exact Hh1|done|done].
Qed.

(** C26: [vma_unmap] unmaps exactly the range [start, end_): it returns 0, the
    address space keeps its invariant (areas linked, sorted and disjoint), an
    address is covered afterwards, with the same flags and type, if and only
    if it was and lies outside the range, the descriptors of the pages unmapped
    are invalid and those of all other user pages unchanged. *)
Theorem vma_unmap_exact s mm l m start end_ n rest l2s l3s :
  space_ok s mm l → mms s !! mm = Some m → mm ≠ 0 → vma_lock s = false → start < end_ →
  start mod 4096 = 0 → end_ mod 4096 = 0 → Forall (λ a, page_aligned (area s a)) l →
  pages_ok (pt s) (page_table m) l2s l3s → allocs s = n :: rest → n ≠ 0 → vmas s !! n = None →
  ∃ s' l', vma_unmap mm start end_ s = Done (0, s') ∧ space_ok s' mm l' ∧ vma_lock s' = false ∧
    pages_ok (pt s') (page_table m) l2s l3s ∧
    (∀ x f t, covered s' l' x f t ↔ covered s l x f t ∧ ¬ (start <= x < end_)) ∧
    (∀ va, walk (pt s') (page_table m) va = walk (pt s) (page_table m) va) ∧
    (∀ va f t, start <= va < end_ → va mod 4096 = 0 → covered s l va f t → walk (pt s) (page_table m) va ≠ 0 →
       has (rd64 (ram (pt s')) (walk (pt s) (page_table m) va)) PT_VALID = false) ∧
    (∀ va, 0 <= va < USER_SPACE_END → ¬ (start <= va < end_) → walk (pt s) (page_table m) va ≠ 0 →
       rd64 (ram (pt s')) (walk (pt s) (page_table m) va) = rd64 (ram (pt s)) (walk (pt s) (page_table m) va)).
Proof.
  intros Hs Hm Hmm Hlock Hse Hst Hen Hal Hpo Hall Hn Hfresh. pose proof (space_holds s mm l Hs) as Hh.
  destruct (vma_unmap_ok s mm l m start end_ n rest l2s l3s) as (s' & Hrun & Hh' & Hs' & Hlk & Hum); try done.
  set (vs := contents s l) in *. pose proof Hs as [_ Ha _].
  assert (Hin : Forall (λ av, area_in av.2) vs).
  { unfold vs, contents. rewrite Forall_fmap. eapply Forall_impl; [exact Ha|]. apply area_ok_range. }
  assert (Hpa : Forall (λ av, page_aligned av.2) vs) by (unfold vs, contents; by rewrite Forall_fmap).
  pose proof (cut_pages_elem start end_ vs) as Hcp.
  exists s'. eexists. split; [done|]. split; [exact Hs'|]. split; [done|].
  split; [apply (um_ok _ _ _ _ _ _ Hum)|]. split; [|split; [apply (um_walk _ _ _ _ _ _ Hum)|split]].
  - intros x f t. rewrite (covered_covers s' mm _ _ _ _ Hh'), cut_covers by done.
    rewrite <- (covered_covers s mm vs) by done. unfold vs. by rewrite contents_fst.
  - intros va f t Hva Hmod Hc Hw. apply (um_gone _ _ _ _ _ _ Hum); [|done]. rewrite Hcp by done.
    split; [done|]. split; [done|]. rewrite <- (contents_fst s l) in Hc. fold vs in Hc.
    apply (covered_covers s mm vs) in Hc as (a & v & Hav & Hx & _); [|done]. by exists a, v.
  - intros va Hva Hout Hw. apply (um_kept _ _ _ _ _ _ Hum); [done|]. intros b Hb Hsp.
    rewrite Hcp in Hb by done. destruct Hb as (Hb1 & Hb2 & a & v & Hav & Hb3).
    rewrite Forall_forall in Hin. destruct (Hin _ Hav) as (Hv1 & Hv2 & Hv3). simpl in Hv1, Hv2, Hv3.
    unfold USER_SPACE_END in *. apply same_page_user in Hsp; [zlia|lia|lia].
Qed.

(** Where [vma_page_fault] reads the page of address [addr] of a file mapping. *)
Definition file_page (v : vma) (addr : Z) : Z := vm_pgoff v + (page_down addr - vm_start v).

(** Unmapping the front of a file mapping moves its contents: [vma_unmap]
    advances the start of the area but not its file offset, so that every
    remaining page is read from the file [end_ - vm_start] bytes before its
    place; unmapping a hole leaves the upper part without its file. *)
Theorem vma_unmap_shifts_file s mm l m start end_ n rest l2s l3s a :
  space_ok s mm l → mms s !! mm = Some m → mm ≠ 0 → vma_lock s = false → start < end_ →
  pages_ok (pt s) (page_table m) l2s l3s → allocs s = n :: rest → n ≠ 0 → vmas s !! n = None →
  a ∈ l → vm_start (area s a) < end_ < vm_end (area s a) →
  ∃ s', vma_unmap mm start end_ s = Done (0, s') ∧
    (start <= vm_start (area s a) → vm_start (area s' a) = end_ ∧ vm_file (area s' a) = vm_file (area s a) ∧
       ∀ x, file_page (area s' a) x = file_page (area s a) x - (end_ - vm_start (area s a))) ∧
    (vm_start (area s a) < start →
       vm_start (area s' n) = end_ ∧ vm_end (area s' n) = vm_end (area s a) ∧ vm_file (area s' n) = 0).
Proof.
  intros Hs Hm Hmm Hlock Hse Hpo Hall Hn Hfresh Ha Hv. pose proof (space_holds s mm l Hs) as Hh.
  destruct (vma_unmap_ok s mm l m start end_ n rest l2s l3s) as (s' & Hrun & Hh' & _ & _ & _); try done.
  exists s'. split; [done|].
  assert (Hget : ∀ b u, (b, u) ∈ cut start end_ n (a, area s a) → core (area s' b) = core u).
  { intros b u Hb. apply (holds_area s' mm _ b u Hh'). apply list_elem_of_In, in_concat.
    exists (cut start end_ n (a, area s a)). split; apply list_elem_of_In; [|done].
    apply (list_elem_of_fmap_2 (cut start end_ n) (contents s l) (a, area s a)).
    by apply (list_elem_of_fmap_2 (λ a, (a, area s a)) l a). }
  unfold cut in Hget. rewrite (proj2 (Z.leb_gt end_ (vm_start (area s a)))) in Hget by lia.
  rewrite (proj2 (Z.leb_gt (vm_end (area s a)) end_)) in Hget by lia.
  rewrite (proj2 (Z.ltb_lt end_ (vm_end (area s a)))) in Hget by lia.
  rewrite (proj2 (Z.leb_gt (vm_end (area s a)) start)), !andb_true_r, !andb_false_r in Hget by lia. cbn [orb] in Hget.
  split; intros Hc.
  - rewrite (proj2 (Z.leb_le _ _)) in Hget by done. specialize (Hget a _ ltac:(by left)).
    apply core_fields in Hget as (H1 & _ & _ & _ & H5 & H6). unfold file_page. rewrite H1, H5, H6. simpl.
    split; [done|]. split; [done|]. intros x. lia.
  - rewrite (proj2 (Z.leb_gt _ _)) in Hget by done. specialize (Hget n _ ltac:(right; by left)).
    by apply core_fields in Hget as (H1 & H2 & _ & _ & H5 & _).
Qed.
End spaces.

(** ** Witnesses: two areas over the page tables of [ex_vmm] *)

Definition ex_mm : mm_struct := mk_mm (ex_frame 0) 16 0 0 0 0x2000.
Definition ex_vmas : gmap Z vma := <[16 := mk_vma 0 0x3000 VMA_READ VMA_FILE 7 0x5000 32]>
  {[32 := mk_vma 0x4000 0x6000 VMA_READ VMA_ANONYMOUS 0 0 0]}.
Definition ex_vmst (new : list Z) : vmst pmm :=
  mk_vmst (ex_vmm [4; 5] 0) ex_vmas {[1 := ex_mm]} false new.

Lemma ex_space_ok new : space_ok (ex_vmst new) 1 [16; 32].
Proof.
  split.
  - exists ex_mm. split; [done|]. split; [by vm_compute|done| |];
      by apply (bool_decide_unpack _).
  - repeat constructor; eexists; (split; [by vm_compute|]); vm_compute; split_and!; congruence.
  - repeat constructor; vm_compute; congruence.
Qed.

Lemma ex_pages_ok : pages_ok (ex_vmm [4; 5] 0) (ex_frame 0) {[ex_frame 1]} {[ex_frame 2]}.
Proof.
  split; [apply ex_vm_ok|apply ex_pt_ok|]. intros f Hf Hne.
  assert (Hel : ∀ ti, ti ∈ mapped (ex_vmm [4; 5] 0) {[ex_frame 2]} f → ti = (ex_frame 2, 0) ∧ f = ex_frame 3).
  { intros [t i] Hin. unfold mapped in Hin. rewrite elem_of_filter, elem_l3_slots in Hin.
    destruct Hin as ([Hv Hp] & Ht & Hi). apply elem_of_singleton in Ht. simpl in Hv, Hp, Hi. subst t.
    rewrite ex_ram_entry in Hv, Hp by lia. destruct (decide (i = 0)) as [->|]; [|done].
    split; [done|]. rewrite <- Hp. by vm_compute. }
  destruct (set_choose_L _ Hne) as [ti Hti]. destruct (Hel ti Hti) as [_ ->].
  assert (Hsub : mapped (ex_vmm [4; 5] 0) {[ex_frame 2]} (ex_frame 3) ⊆ {[(ex_frame 2, 0)]}).
  { intros x Hx. apply elem_of_singleton. by apply Hel. }
  apply subseteq_size in Hsub. rewrite size_singleton in Hsub. split.
  - assert (refs_of (ex_vmm [4; 5] 0) (ex_frame 3) = 1) as -> by (by vm_compute). lia.
  - rewrite !elem_of_union, !elem_of_singleton. unfold ex_frame, PAGE_SIZE. lia.
Qed.

Definition ex_vmst_new : vmst pmm := set_vmas (<[48 := mk_vma 0x2000 0x5000 0 0 0 0 0]> ex_vmas) (ex_vmst []).

Lemma vma_insert_sorted_witness : vma_insert 1 48 ex_vmst_new = Done (-1, ex_vmst_new).
Proof.
  assert (clash ex_vmst_new 48 [16; 32] = true) as Hc by (by vm_compute).
  pose proof (vma_insert_sorted ex_vmst_new 1 [16; 32] 48) as H. rewrite Hc in H. apply H; try done.
  - split; [|repeat constructor; eexists; (split; [by vm_compute|]); vm_compute; split_and!; congruence
      |repeat constructor; vm_compute; congruence].
    exists ex_mm. split; [done|]. split; [by vm_compute|done| |]; by apply (bool_decide_unpack _).
  - eexists. split; [by vm_compute|]. vm_compute. split_and!; congruence.
  - by apply (bool_decide_unpack _).
Defined.

Lemma vma_allocate_first_fit_witness : ∃ r, (∃ s', vma_allocate 1 0 0x1800 VMA_READ (ex_vmst [48]) = Done (r, s')) ∧
  r = 0x6000.
Proof.
  exists 0x6000. split; [|done].
  destruct (vma_allocate_first_fit (ex_vmst [48]) 1 [16; 32] ex_mm 0x1800 VMA_READ 48 [])
    as [(r & s' & l' & Hrun & _)|[Hrun _]]; [apply ex_space_ok|done|done|done|done|done|done|done|done| |].
  - assert (r = 0x6000) as ->; [|by exists s'].
    assert (match vma_allocate 1 0 0x1800 VMA_READ (ex_vmst [48]) with Done (x, _) => x =? 0x6000 | _ => false end = true)
      as Hv by (by vm_compute). rewrite Hrun in Hv. by apply Z.eqb_eq.
  - assert (match vma_allocate 1 0 0x1800 VMA_READ (ex_vmst [48]) with Done (x, _) => x =? 0x6000 | _ => false end = true)
      as Hv by (by vm_compute). by rewrite Hrun in Hv.
Defined.

Lemma vma_unmap_exact_witness : ∃ s' l', vma_unmap 1 0 0x1000 (ex_vmst [48]) = Done (0, s') ∧
  (∀ x f t, covered s' l' x f t ↔ covered (ex_vmst [48]) [16; 32] x f t ∧ ¬ (0 <= x < 0x1000)).
Proof.
  destruct (vma_unmap_exact (ex_vmst [48]) 1 [16; 32] ex_mm 0 0x1000 48 [] {[ex_frame 1]} {[ex_frame 2]})
    as (s' & l' & Hrun & _ & _ & _ & Hc & _).
  1: apply ex_space_ok. 8: apply ex_pages_ok. 1-6, 8-10: (reflexivity || lia).
  - repeat constructor.
  - exists s', l'. split; assumption.
Defined.

Lemma vma_unmap_shifts_file_witness : ∃ s', vma_unmap 1 0 0x1000 (ex_vmst [48]) = Done (0, s') ∧
  file_page (area s' 16) 0x2000 = 0x6000 ∧ file_page (area (ex_vmst [48]) 16) 0x2000 = 0x7000.
Proof.
  destruct (vma_unmap_shifts_file (ex_vmst [48]) 1 [16; 32] ex_mm 0 0x1000 48 [] {[ex_frame 1]} {[ex_frame 2]} 16)
    as (s' & Hrun & Hf & _).
  1: apply ex_space_ok. 5: apply ex_pages_ok. 1-7: (reflexivity || lia).
  - left.
  - vm_compute. split; reflexivity.
  - exists s'. split; [assumption|]. destruct Hf as (_ & _ & Hf); [vm_compute; congruence|].
    rewrite Hf. vm_compute. split; reflexivity.
Defined.
