(* ===== verification/Elf.v ===== *)
(** The ELF loader, [kernel/fs/elf.c]: the checks of the header, and the
    segments mapped and filled in an address space.  The file is a kernel buffer
    at the address [data]. *)
From S2P Require Export Vma.
From S2P Require Import KString.
Local Open Scope prog_scope.

Definition ELF_MAGIC : Z := 0x464C457F.
Definition ELFCLASS64 : Z := 2.
Definition ELFDATA2LSB : Z := 1.
Definition ET_EXEC : Z := 2.
Definition ET_DYN : Z := 3.
Definition EM_AARCH64 : Z := 183.
Definition PT_LOAD : Z := 1.
Definition PF_X : Z := 1.
Definition PF_W : Z := 2.
Definition PF_R : Z := 4.

(** [elf64_ehdr_t] and [elf64_phdr_t], packed; the fields the loader reads. *)
Record elf64_ehdr := mk_ehdr {
  e_magic : Z; e_class : Z; e_data : Z; e_type : Z; e_machine : Z;
  e_entry : Z; e_phoff : Z; e_phentsize : Z; e_phnum : Z;
}.
Definition SIZEOF_EHDR : Z := 64.
Definition ehdr_at (m : mem) (a : Z) : elf64_ehdr :=
  mk_ehdr (load32 m a) (m (a + 4)) (m (a + 5)) (load16 m (a + 16)) (load16 m (a + 18))
    (load64 m (a + 24)) (load64 m (a + 32)) (load16 m (a + 54)) (load16 m (a + 56)).
Record elf64_phdr := mk_phdr {
  p_type : Z; p_flags : Z; p_offset : Z; p_vaddr : Z; p_filesz : Z; p_memsz : Z;
}.
Definition SIZEOF_PHDR : Z := 56.
Definition phdr_at (m : mem) (a : Z) : elf64_phdr :=
  mk_phdr (load32 m a) (load32 m (a + 4)) (load64 m (a + 8)) (load64 m (a + 16)) (load64 m (a + 32)) (load64 m (a + 40)).

(** [elf_validate], the messages left out.  The product of two [u16] is an
    [int]. *)
Definition elf_validate (m : mem) (data size : Z) : Z :=
  if size <? SIZEOF_EHDR then -1
  else
    let e := ehdr_at m (V2P data) in
    if negb (e_magic e =? ELF_MAGIC) then -1
    else if negb (e_class e =? ELFCLASS64) then -1
    else if negb (e_data e =? ELFDATA2LSB) then -1
    else if negb (e_type e =? ET_EXEC) && negb (e_type e =? ET_DYN) then -1
    else if negb (e_machine e =? EM_AARCH64) then -1
    else if size <? u64 (e_phoff e + i32 (e_phnum e * e_phentsize e)) then -1
    else 0.

Definition elf_to_vma_flags (flags : Z) : Z :=
  Z.lor (Z.lor (if has flags PF_R then VMA_READ else 0) (if has flags PF_W then VMA_WRITE else 0))
    (if has flags PF_X then VMA_EXEC else 0).

(** [elf_load_result_t]. *)
Record elf_load_result := mk_elf_load_result {
  er_entry_point : Z; er_phdr_addr : Z; er_phdr_count : Z; er_base_addr : Z; er_brk : Z;
}.

(** The first loop: the range of the segments, [None] if one is refused. *)
Fixpoint elf_range (m : mem) (phdrs size : Z) (n : nat) (i min_addr max_addr : Z) : option (Z * Z) :=
  match n with
  | O => Some (min_addr, max_addr)
  | S n' =>
      let ph := phdr_at m (V2P (u64 (phdrs + SIZEOF_PHDR * i))) in
      if negb (p_type ph =? PT_LOAD) then elf_range m phdrs size n' (i + 1) min_addr max_addr
      else if size <? u64 (p_offset ph + p_filesz ph) then None
      else
        let end_ := u64 (p_vaddr ph + p_memsz ph) in
        if (p_vaddr ph <? 0) || (USER_SPACE_END <? end_) then None
        else
          elf_range m phdrs size n' (i + 1) (if p_vaddr ph <? min_addr then p_vaddr ph else min_addr)
            (if max_addr <? end_ then end_ else max_addr)
  end.

(** The descriptor of a page of a segment while it is filled, and the one of a
    read-only segment. *)
Definition segment_entry (phys flags : Z) : Z :=
  let entry := Z.lor (Z.lor (Z.lor (Z.lor phys PT_VALID) PT_AF) PT_PAGE) PT_SH_INNER in
  let entry := Z.lor entry (Z.shiftl MT_NORMAL 2) in
  let entry := Z.lor entry PT_AP_RW_EL0 in
  if has flags VMA_EXEC then entry else Z.lor entry PT_UXN.
Definition readonly_entry (e : Z) : Z := Z.lor (andnot e (Z.shiftl 3 6)) PT_AP_RO_EL0.

Section elf.
Context {FA : Type} `{!FrameAllocator FA}.

(** One page of a segment; [false] when there is no frame. *)
Definition map_page (table flags addr : Z) : M (vmst FA) bool :=
  phys <- on_pt alloc_frame;;
  if phys =? 0 then ret false
  else
    on_pt (clear_page (P2V phys));;;
    pte <- on_pt (vmm_get_pte_from_table_alloc (P2V table) addr);;
    if pte =? 0 then on_pt (free_frame phys);;; ret false
    else on_pt (write64 pte (segment_entry phys flags));;; ret true.
Fixpoint map_segment (table flags : Z) (l : list Z) : M (vmst FA) bool :=
  match l with
  | [] => ret true
  | addr :: l' => ok <- map_page table flags addr;; if (ok : bool) then map_segment table flags l' else ret false
  end.

(** The copy of the file's bytes, a page at a time; each step copies a byte at
    least. *)
Fixpoint copy_segment (fuel : nat) (table data : Z) (ph : elf64_phdr) (bytes_copied : Z) : M (vmst FA) bool :=
  match fuel with
  | O => faultM
  | S f =>
      if p_filesz ph <=? bytes_copied then ret true
      else
        let current_vaddr := u64 (p_vaddr ph + bytes_copied) in
        let page_offset := Z.land current_vaddr (PAGE_SIZE - 1) in
        let bytes_this_page := PAGE_SIZE - page_offset in
        let bytes_this_page :=
          if p_filesz ph <? u64 (bytes_copied + bytes_this_page) then p_filesz ph - bytes_copied else bytes_this_page in
        pte <- mm_pte table (page_down current_vaddr);;
        if pte =? 0 then ret false
        else
          e <- on_pt (read64 pte);;
          if negb (has e PT_VALID) then ret false
          else
            let dest := P2V (entry_phys e) + page_offset in
            let src := u64 (data + p_offset ph + bytes_copied) in
            on_pt (modify (λ p, set_ram (memcpy (ram p) (V2P dest) (V2P src) bytes_this_page) p));;;
            copy_segment f table data ph (bytes_copied + bytes_this_page)
  end.

(** One page of a segment without [PF_W]. *)
Definition protect_page (table addr : Z) : M (vmst FA) unit :=
  pte <- mm_pte table addr;;
  if pte =? 0 then ret tt
  else
    e <- on_pt (read64 pte);;
    if has e PT_VALID then
      on_pt (write64 pte (andnot e (Z.shiftl 3 6)));;;
      e <- on_pt (read64 pte);;
      on_pt (write64 pte (Z.lor e PT_AP_RO_EL0))
    else ret tt.

(** One segment of the second loop; [false] for a [return -1]. *)
Definition load_segment (mm table data : Z) (ph : elf64_phdr) : M (vmst FA) bool :=
  if negb (p_type ph =? PT_LOAD) then ret true
  else if p_memsz ph =? 0 then ret true
  else
    let vaddr_start := page_down (p_vaddr ph) in
    let vaddr_end := page_up (u64 (p_vaddr ph + p_memsz ph)) in
    let flags := elf_to_vma_flags (p_flags ph) in
    vma <- vma_create vaddr_start vaddr_end flags VMA_FILE;;
    if vma =? 0 then ret false
    else
      r <- vma_insert mm vma;;
      if r <? 0 then kfree_vma vma;;; ret false
      else
        ok <- map_segment table flags (pages vaddr_start vaddr_end);;
        if negb ok then ret false
        else
          ok <- copy_segment (S (Z.to_nat (p_filesz ph))) table data ph 0;;
          if negb ok then ret false
          else
            (if has flags VMA_WRITE then ret tt else for_each (protect_page table) (pages vaddr_start vaddr_end));;;
            ret true.
Fixpoint load_segments (mm table data phdrs : Z) (n : nat) (i : Z) : M (vmst FA) bool :=
  match n with
  | O => ret true
  | S n' =>
      ph <- on_pt (gets (λ p, phdr_at (ram p) (V2P (u64 (phdrs + SIZEOF_PHDR * i)))));;
      ok <- load_segment mm table data ph;;
      if negb ok then ret false else load_segments mm table data phdrs n' (i + 1)
  end.

(** [elf_load]: the result, [None] for -1. *)
Definition elf_load (mm data size : Z) : M (vmst FA) (option elf_load_result) :=
  if (mm =? 0) || (data =? 0) then ret None
  else
    v <- on_pt (gets (λ p, elf_validate (ram p) data size));;
    if negb (v =? 0) then ret None
    else
      e <- on_pt (gets (λ p, ehdr_at (ram p) (V2P data)));;
      let phdrs := u64 (data + e_phoff e) in
      o <- on_pt (gets (λ p, elf_range (ram p) phdrs size (Z.to_nat (e_phnum e)) 0 (2 ^ 64 - 1) 0));;
      match o with
      | None => ret None
      | Some (min_addr, max_addr) =>
          m <- get_mm mm;;
          ok <- load_segments mm (page_table m) data phdrs (Z.to_nat (e_phnum e)) 0;;
          if negb ok then ret None
          else
            let brk := page_up max_addr in
            mod_mm mm (λ m, mk_mm (page_table m) (vma_list m) brk brk (stack_start m) (mmap_base m));;;
            ret (Some (mk_elf_load_result (e_entry e) min_addr (e_phnum e) min_addr brk))
      end.
End elf.
