(* ===== verification/ElfLoad.v ===== *)
(** What the ELF loader builds: every byte of every segment is in the address
    space, with the permissions of the segment. *)
From stdpp Require Import functions sorting.
From S2P Require Export Elf.
From S2P Require Import KString.
Local Open Scope Z_scope.
Local Open Scope prog_scope.

Section image.
Context {FA : Type} `{!FrameAllocator FA}.
Implicit Types p : vmm FA.

(** ** Enough frames *)

(** The next [n] allocations succeed. *)
Fixpoint can_alloc (n : nat) (f : FA) : Prop :=
  match n with
  | O => True
  | S n' => ∃ a f', fa_alloc f = Done (a, f') ∧ a ≠ 0 ∧ can_alloc n' f'
  end.
Lemma can_alloc_S n : ∀ f, can_alloc (S n) f → can_alloc n f.
Proof.
  induction n as [|n IH]; intros f; [done|]. intros (a & f' & H & Ha & Hn). exists a, f'. split_and!; try done. by apply IH.
Qed.
Lemma can_alloc_le n m f : (m <= n)%nat → can_alloc n f → can_alloc m f.
Proof. induction 1; [done|]. intros ?%can_alloc_S. auto. Qed.

Lemma alloc_frame_can p n : can_alloc (S n) (frames p) →
  ∃ a f, alloc_frame p = Done (a, set_frames f p) ∧ a ≠ 0 ∧ can_alloc n f.
Proof. intros (a & f & Hrun & Ha & Hn). exists a, f. split; [|done]. unfold alloc_frame, zoom. by rewrite Hrun. Qed.
Lemma next_table_can p n t i : aligned t → 0 <= i < 512 → can_alloc (S n) (frames p) →
  ∃ q p', next_table_alloc (P2V t) i p = Done (Some q, p') ∧ can_alloc n (frames p').
Proof.
  intros Ht Hi Hn. unfold next_table_alloc. unfold bind at 1, read64 at 1, gets at 1.
  destruct (has _ PT_VALID); simpl.
  - eexists _, p. split; [done|]. by apply can_alloc_S.
  - destruct (alloc_frame_can p n Hn) as (a & f & Hrun & Ha & Hf). unfold bind at 1. mstep Hrun.
    rewrite (proj2 (Z.eqb_neq _ _)) by done. eexists _, _. split; [reflexivity|]. exact Hf.
Qed.
Lemma alloc_levels_can p n root l2s l3s va : vm_ok p → pt_ok p root l2s l3s → can_alloc (2 + n) (frames p) →
  ∃ pte p', alloc_levels (P2V root) va p = Done (Some pte, p') ∧ can_alloc n (frames p').
Proof.
  intros Hp Hpt Hn. pose proof (frame_aligned _ _ Hp (proj1 (pt_root _ _ _ _ Hpt))) as Hr.
  destruct (next_table_can p (S n) root (l1_idx va) Hr (idx_range va 30) Hn) as (q & p1 & H1 & Hn1).
  destruct (alloc_l2_ok p root l2s l3s (l1_idx va) Hp Hpt (idx_range va 30)) as (o & p1' & l2s1 & H1' & Hp1 & _ & Hpt1 & _ & _ & Hc).
  rewrite H1 in H1'. injection H1' as <- <-. destruct Hc as (t & -> & Ht & _).
  pose proof (frame_aligned _ _ Hp1 (proj1 (pt_tab2 _ _ _ _ _ Hpt1 Ht))) as Hta.
  destruct (next_table_can p1 n t (l2_idx va) Hta (idx_range va 21) Hn1) as (q & p2 & H2 & Hn2).
  unfold alloc_levels. mstep H1. mstep H2. by eexists _, p2.
Qed.

(** ** The image *)

(** The bytes that the loader reads, and what they are. *)
Variables (K : Z → Prop) (m0 : mem).
#[local] Set Default Proof Using "All".

(** The pages of [I] lie in the frames it gives, with the bytes [B]; those of
    [V] are mapped, with the descriptors [E]. *)
Record image p (root : Z) (l2s l3s : gset Z) (I : gmap Z Z) (V : gset Z) (E : Z → Z → Z) (B : Z → Z) : Prop := mk_image {
  im_vm : vm_ok p;
  im_pt : pt_ok p root l2s l3s;
  im_page : ∀ va f, I !! va = Some f → va mod 4096 = 0 ∧ 0 <= va < 2 ^ 39;
  im_frame : ∀ va f, I !! va = Some f → frame_of p f ∧ 0 < refs_of p f ∧ f ∉ {[root]} ∪ (l2s ∪ l3s);
  im_inj : ∀ va va' f, I !! va = Some f → I !! va' = Some f → va = va';
  im_bytes : ∀ va f o, I !! va = Some f → 0 <= o < 4096 → ram p (f + o) = B (va + o);
  im_dom : ∀ va, va ∈ V → is_Some (I !! va);
  im_walk : ∀ va f, va ∈ V → I !! va = Some f → walk p root va ≠ 0 ∧ rd64 (ram p) (walk p root va) = E va f;
  im_kept : ∀ x, K x → ram p x = m0 x;
  im_apart : ∀ x f, K x → frame_of p f → in_page f x → 0 < refs_of p f ∧ (f ∉ {[root]} ∪ (l2s ∪ l3s)) ∧ ∀ va, I !! va ≠ Some f;
}.

Lemma in_page_same a b x : aligned a → aligned b → in_page a x → in_page b x → a = b.
Proof. unfold in_page. intros Ha Hb H1 H2. destruct (decide (a = b)) as [|Hne]; [done|]. destruct (aligned_disjoint a b Ha Hb Hne); lia. Qed.
Lemma image_aligned p root l2s l3s I V E B va f : image p root l2s l3s I V E B → I !! va = Some f → aligned f.
Proof. intros Hi Hf. eapply frame_aligned; [apply (im_vm _ _ _ _ _ _ _ _ Hi)|]. by apply (im_frame _ _ _ _ _ _ _ _ Hi va). Qed.

Lemma table_used p root l2s l3s t : pt_ok p root l2s l3s → t ∈ {[root]} ∪ (l2s ∪ l3s) → frame_of p t ∧ 0 < refs_of p t.
Proof. intros Hpt [->%elem_of_singleton|Ht]%elem_of_union; [apply (pt_root _ _ _ _ Hpt)|by apply (pt_tabs _ _ _ _ Hpt)]. Qed.
Lemma grown_elem p T1 T2 T1' T2' root t : pt_grows p T1 T1' → pt_grows p T2 T2' → t ∈ {[root]} ∪ (T1' ∪ T2') →
  (t ∈@{gset Z} ({[root]} ∪ (T1 ∪ T2))) ∨ unused p t.
Proof.
  intros [_ H1] [_ H2]. rewrite !elem_of_union. intros [?|[[?|?]%H1|[?|?]%H2]]; tauto.
Qed.

Lemma image_ext p root l2s l3s I V V' E E' B B' : image p root l2s l3s I V E B → (∀ va, va ∈ V' ↔ va ∈ V) →
  (∀ va f, va ∈ V → I !! va = Some f → E' va f = E va f) → (∀ x, B' x = B x) → image p root l2s l3s I V' E' B'.
Proof.
  intros [Hvm Hpt Hpage Hframe Hinj Hbytes Hdom Hwalk Hkept Hapart] HV HE HB. split; try done.
  - intros va f o Hf Ho. rewrite HB. by apply Hbytes.
  - intros va Hva%HV. by apply Hdom.
  - intros va f Hva%HV Hf. rewrite HE by done. by apply Hwalk.
Qed.
(** What changes only unused frames and tables keeps the image. *)
Lemma image_keeps p p' root l2s l3s l2s' l3s' I V E B : image p root l2s l3s I V E B → vm_ok p' → vm_same p p' →
  pt_ok p' root l2s' l3s' → pt_grows p l2s l2s' → pt_grows p l3s l3s' → pt_keeps p p' root l2s l3s →
  image p' root l2s' l3s' I V E B.
Proof.
  intros [Hvm Hpt Hpage Hframe Hinj Hbytes Hdom Hwalk Hkept Hapart] Hp' Hsame Hpt' Hg2 Hg3 Hk.
  pose proof (vs_frame _ _ Hsame) as Hfo.
  assert (Hused : ∀ f, frame_of p f → 0 < refs_of p f → f ∉ {[root]} ∪ (l2s ∪ l3s) →
    frame_of p' f ∧ 0 < refs_of p' f ∧ f ∉ {[root]} ∪ (l2s' ∪ l3s')).
  { intros f Hf Hr Hn. split; [by apply Hfo|]. split; [by rewrite (pk_refs _ _ _ _ _ Hk)|].
    intros [?|[_ ?]]%(grown_elem p l2s l3s); done. }
  assert (Hmem : ∀ f x, frame_of p f → 0 < refs_of p f → f ∉ {[root]} ∪ (l2s ∪ l3s) → in_page f x → ram p' x = ram p x).
  { intros f x Hf Hr Hn Hx. pose proof (frame_aligned _ _ Hvm Hf) as Ha. apply (pk_mem _ _ _ _ _ Hk).
    - intros g [Hg Hgr] Hgx. destruct Hgr. by rewrite (in_page_same g f x (frame_aligned _ _ Hvm Hg) Ha Hgx Hx).
    - intros t Ht Htx. destruct (table_used _ _ _ _ _ Hpt Ht) as [Htf _].
      by rewrite (in_page_same t f x (frame_aligned _ _ Hvm Htf) Ha Htx Hx) in Ht. }
  split; try done.
  - intros va f Hf. destruct (Hframe va f Hf) as (? & ? & ?). by apply Hused.
  - intros va f o Hf Ho. destruct (Hframe va f Hf) as (? & ? & ?). rewrite <- (Hbytes va f o Hf Ho). apply (Hmem f); try done. unfold in_page. lia.
  - intros va f Hv Hf. destruct (Hwalk va f Hv Hf) as [Hw He].
    destruct (walk_keeps p p' root l2s l3s l2s' l3s' va Hvm Hp' Hpt Hpt' Hk Hw) as [-> ->]. done.
  - intros x Hx. rewrite <- (Hkept x Hx). apply (pk_mem _ _ _ _ _ Hk).
    + intros f [Hf Hr] Hfx. by destruct (Hapart x f Hx Hf Hfx).
    + intros t Ht Htx. destruct (table_used _ _ _ _ _ Hpt Ht) as [Htf _]. by destruct (Hapart x t Hx Htf Htx) as (_ & ? & _).
  - intros x f Hx Hf%Hfo Hfx. destruct (Hapart x f Hx Hf Hfx) as (Hr & Hn & HI). destruct (Hused f Hf Hr Hn) as (_ & ? & ?). done.
Qed.
(** A cleared frame for a further page. *)
Lemma image_add p root l2s l3s I V E B va f : image p root l2s l3s I V E B → I !! va = None → va mod 4096 = 0 → 0 <= va < 2 ^ 39 →
  frame_of p f → 0 < refs_of p f → f ∉ {[root]} ∪ (l2s ∪ l3s) → (∀ va', I !! va' ≠ Some f) →
  (∀ o, 0 <= o < 4096 → ram p (f + o) = B (va + o)) → (∀ x, K x → ¬ in_page f x) → image p root l2s l3s (<[va := f]> I) V E B.
Proof.
  intros [Hvm Hpt Hpage Hframe Hinj Hbytes Hdom Hwalk Hkept Hapart] Hva Hm Hr Hf Hfr Hft HfI Hfb HfK. split; try done.
  - intros a g [[<- <-]|[_ ?]]%lookup_insert_Some; [done|by eapply Hpage].
  - intros a g [[<- <-]|[_ ?]]%lookup_insert_Some; [done|by eapply Hframe].
  - intros a a' g [[<- <-]|[? H1]]%lookup_insert_Some [[<- ?]|[? H2]]%lookup_insert_Some; subst; try done;
      [by apply HfI in H2|by apply HfI in H1|by eapply Hinj].
  - intros a g o [[<- <-]|[_ ?]]%lookup_insert_Some Ho; [by apply Hfb|by apply Hbytes].
  - intros a Ha%Hdom. rewrite lookup_insert_ne; [done|]. intros <-. rewrite Hva in Ha. by destruct Ha.
  - intros a g Ha [[<- <-]|[_ ?]]%lookup_insert_Some; [|by apply Hwalk]. apply Hdom in Ha. rewrite Hva in Ha. by destruct Ha.
  - intros x g Hx Hg Hgx. destruct (Hapart x g Hx Hg Hgx) as (? & ? & HI). split; [done|]. split; [done|].
    intros a [[<- <-]|[_ ?]]%lookup_insert_Some; [by eapply HfK|by eapply HI].
Qed.

(** A new frame, cleared, for the page [va]. *)
Lemma image_alloc p n root l2s l3s I V E B va : image p root l2s l3s I V E B → can_alloc (S n) (frames p) →
  I !! va = None → va mod 4096 = 0 → 0 <= va < 2 ^ 39 → (∀ o, 0 <= o < 4096 → B (va + o) = 0) →
  ∃ f fr, alloc_frame p = Done (f, set_frames fr p) ∧ f ≠ 0 ∧ can_alloc n fr ∧
    image (set_ram (zero_page (ram p) (P2V f)) (set_frames fr p)) root l2s l3s (<[va := f]> I) V E B.
Proof.
  intros Hi Hn Hva Hm Hr Hz. destruct (alloc_frame_can p n Hn) as (f & fr & Hrun & Hf0 & Hfr). exists f, fr. split; [done|]. split; [done|]. split; [done|].
  destruct (alloc_frame_ok p (im_vm _ _ _ _ _ _ _ _ Hi)) as (f' & p1 & Hrun' & Hp1 & Hsame & Hram & Hcase).
  rewrite Hrun in Hrun'. injection Hrun' as <- <-. destruct Hcase as [[? _]|(_ & Hal & Hff & Hf & Href)]; [done|].
  pose proof (im_pt _ _ _ _ _ _ _ _ Hi) as Hpt. pose proof (im_vm _ _ _ _ _ _ _ _ Hi) as Hvm.
  assert (Hnt : f ∉ {[root]} ∪ (l2s ∪ l3s)) by (intros Ht%(table_used p); [lia|done]).
  assert (Hent : ∀ t i, t ∈ {[root]} ∪ (l2s ∪ l3s) → 0 <= i < 512 → pt_entry (zero_page (ram p) (P2V f)) t i = pt_entry (ram p) t i).
  { intros t i Ht Hj. rewrite pt_entry_zero; [|done|by eapply frame_aligned, table_used|done]. rewrite decide_False; [done|]. by intros ->. }
  set (p2 := set_ram _ _).
  assert (Hp2 : vm_ok p2) by (split; [apply (vm_frames _ Hp1)|apply zero_page_ok, Hvm]).
  assert (Hrefs : ∀ b, frame_of p b → 0 < refs_of p b → refs_of p2 b = refs_of p b).
  { intros b Hb Hbr. rewrite <- (decide_False (P := b = f) 1 (refs_of p b)) by (intros ->; lia). by apply Href. }
  assert (Hpt2 : pt_ok p2 root l2s l3s).
  { apply (pt_ok_same p); [| |done].
    - intros t _ Ht Htr. split; [by apply (vs_frame _ _ Hsame)|by rewrite Hrefs].
    - intros t i Ht. apply Hent. set_solver. }
  apply image_add; try done.
  - eapply image_keeps; [exact Hi|done|by destruct Hsame|done|apply pt_grows_refl|apply pt_grows_refl|]. split; try done.
    + intros t i Ht Hj _. apply Hent; [set_solver|done].
    + intros t i Ht Hj. apply Hent; [set_solver|done].
    + intros x Hx _. apply zero_page_out; [done|]. apply (Hx f). by apply unused_0.
  - by apply (vs_frame _ _ Hsame).
  - change (0 < refs_of (set_frames fr p) f). rewrite Href, decide_True by done. lia.
  - intros va' Ha%(im_frame _ _ _ _ _ _ _ _ Hi). lia.
  - intros o Ho. rewrite Hz by done. apply zero_page_in; [done|lia].
  - intros x Hx Hfx. destruct (im_apart _ _ _ _ _ _ _ _ Hi x f Hx Hff Hfx). lia.
Qed.

(** The tables for a page. *)
Lemma image_tables p n root l2s l3s I V E B va : image p root l2s l3s I V E B → can_alloc (2 + n) (frames p) →
  ∃ pte p' l2s' l3s', vmm_get_pte_from_table_alloc (P2V root) va p = Done (pte, p') ∧ pte ≠ 0 ∧ walk p' root va = pte ∧
    can_alloc n (frames p') ∧ image p' root l2s' l3s' I V E B.
Proof.
  intros Hi Hn. pose proof (im_pt _ _ _ _ _ _ _ _ Hi) as Hpt. pose proof (im_vm _ _ _ _ _ _ _ _ Hi) as Hvm.
  destruct (alloc_levels_can p n root l2s l3s va Hvm Hpt Hn) as (pte & p' & Hrun & Hn').
  destruct (alloc_levels_ok p root l2s l3s va Hvm Hpt) as (o & p1 & l2s' & l3s' & Hrun' & Hp' & Hsame & Hpt' & Hg2 & Hg3 & Hk & Hc).
  rewrite Hrun in Hrun'. injection Hrun' as <- <-. destruct Hc as (Hw & (t & Ht & Hpte) & _ & _).
  exists pte, p', l2s', l3s'. split; [by rewrite (get_pte_alloc_levels _ _ _ _ _ _ _ Hvm Hpt Hrun)|]. split; [|split; [done|split; [done|]]].
  - rewrite Hpte. pose proof (frame_aligned _ _ Hp' (proj1 (pt_tab3 _ _ _ _ _ Hpt' Ht))) as [_ Ha].
    unfold slot, P2V, PHYS_OFFSET. rewrite u64_id by lia. pose proof (idx_range va 12). unfold l3_idx. lia.
  - by eapply image_keeps.
Qed.

(** The descriptor of a page of [I]. *)
Lemma image_write p root l2s l3s I V E E' B va f v : image p root l2s l3s I V E B → I !! va = Some f →
  walk p root va ≠ 0 → 0 <= v < 2 ^ 64 → E' va f = v → (∀ va' f', va' ≠ va → E' va' f' = E va' f') →
  image (set_ram (wr64 (ram p) (walk p root va) v) p) root l2s l3s I ({[va]} ∪ V) E' B ∧
  ∀ va', walk (set_ram (wr64 (ram p) (walk p root va) v) p) root va' = walk p root va'.
Proof.
  intros [Hvm Hpt Hpage Hframe Hinj Hbytes Hdom Hwalk Hkept Hapart] Hva Hw Hv HE HE'.
  destruct (walk_in_tables p root l2s l3s va Hvm Hpt Hw) as (t & Ht & Hta & Hwt). set (p' := set_ram _ p).
  pose proof (idx_range va 12) as Hix. fold (l3_idx va) in Hix.
  assert (Htt : t ∈ {[root]} ∪ (l2s ∪ l3s)) by (rewrite !elem_of_union; tauto).
  assert (Hent : ∀ u j, u ∈ {[root]} ∪ (l2s ∪ l3s) → 0 <= j < 512 →
    pt_entry (ram p') u j = if decide (u = t ∧ j = l3_idx va) then v else pt_entry (ram p) u j).
  { intros u j Hu Hj. subst p'. simpl. rewrite Hwt. apply wr64_slot_entry; try done. by eapply frame_aligned, table_used. }
  assert (Hp' : vm_ok p') by (split; [apply (vm_frames _ Hvm)|apply store_le_ok, Hvm]).
  assert (Hpt' : pt_ok p' root l2s l3s) by (by apply (set_slot_pt_ok p p' root l2s l3s t (l3_idx va) v); [| | | |]).
  assert (Hwalk' : ∀ a, walk p' root a = walk p root a) by (intros a; by apply (set_slot_walk _ _ root l2s l3s t (l3_idx va) v)).
  assert (Hmem : ∀ x, ¬ in_page t x → ram p' x = ram p x).
  { intros x Hx. subst p'. simpl. rewrite Hwt, wr64_slot by done. apply store_le_out. unfold in_page in Hx. lia. }
  assert (Hrd : ∀ a, walk p root a ≠ 0 → rd64 (ram p') (walk p root a) = if decide (same_page a va) then v else rd64 (ram p) (walk p root a)).
  { intros a Ha. destruct (walk_in_tables p root l2s l3s a Hvm Hpt Ha) as (u & Hu & Hua & Hwu).
    pose proof (idx_range a 12) as Hia. fold (l3_idx a) in Hia. rewrite Hwu, !rd64_slot by done.
    rewrite Hent; [|rewrite !elem_of_union; tauto|done]. case_decide as H1; case_decide as H2; try done.
    - destruct H2. apply (walk_inj p root l2s l3s a va Hvm Hpt Ha). destruct H1 as [-> Hl]. by rewrite Hwu, Hwt, Hl.
    - destruct H1. pose proof (walk_same_page p root a va H2) as Heq. destruct H2 as (_ & _ & H23). split; [|done].
      rewrite Hwu, Hwt in Heq. apply (f_equal V2P) in Heq. rewrite !V2P_slot in Heq by (apply Hua || apply Hta || done). lia. }
  split; [|done]. split; try done.
  - intros a g o Hg Ho. rewrite <- (Hbytes a g o Hg Ho). apply Hmem. intros Hx.
    destruct (Hframe a g Hg) as (Hgf & _ & Hgt). destruct Hgt.
    by rewrite (in_page_same g t (g + o) (frame_aligned _ _ Hvm Hgf) Hta ltac:(unfold in_page; lia) Hx).
  - intros a [->%elem_of_singleton|Ha]%elem_of_union; [by exists f|by apply Hdom].
  - intros a g Ha Hg. assert (Hpg : same_page a va → a = va).
    { intros Hsp. destruct (Hpage a g Hg), (Hpage va f Hva). apply same_page_user in Hsp; [zlia|done|done]. }
    rewrite Hwalk'. destruct (decide (a = va)) as [->|Hne].
    + rewrite Hrd, decide_True by done. rewrite Hva in Hg. injection Hg as <-. done.
    + apply elem_of_union in Ha as [?%elem_of_singleton|Ha]; [done|]. destruct (Hwalk a g Ha Hg) as [Hwa Hea].
      rewrite Hrd, decide_False, HE' by (done || by intros ?%Hpg). done.
  - intros x Hx. rewrite <- (Hkept x Hx). apply Hmem. intros Htx.
    by destruct (Hapart x t Hx (proj1 (table_used _ _ _ _ _ Hpt Htt)) Htx) as (_ & ? & _).
Qed.

(** Bytes of the file copied into a page. *)
Lemma image_copy p root l2s l3s I V E B B' va f o s n : image p root l2s l3s I V E B → I !! va = Some f →
  0 <= o → 0 <= n → o + n <= 4096 → (∀ x, s <= x < s + n → K x) →
  (∀ x, B' x = if decide (va + o <= x < va + o + n) then m0 (s + (x - (va + o))) else B x) →
  image (set_ram (memcpy (ram p) (f + o) s n) p) root l2s l3s I V E B'.
Proof.
  intros Hi Hva Ho Hn Hon HK HB. pose proof (image_aligned _ _ _ _ _ _ _ _ _ _ Hi Hva) as Hfa.
  destruct Hi as [Hvm Hpt Hpage Hframe Hinj Hbytes Hdom Hwalk Hkept Hapart]. set (p' := set_ram _ p).
  destruct (Hframe va f Hva) as (Hff & Hfr & Hft).
  assert (HnK : ∀ x, K x → ¬ in_page f x) by (intros x Hx Hfx; by destruct (Hapart x f Hx Hff Hfx) as (_ & _ & HI); apply (HI va)).
  assert (Hdj : n = 0 ∨ f + o <= s ∨ s + n <= f + o).
  { destruct (decide (n = 0)); [by left|right]. destruct (decide (f + o <= s)); [by left|right]. destruct (decide (s + n <= f + o)); [done|].
    exfalso. apply (HnK (f + o)); [apply HK; lia|unfold in_page; lia]. }
  assert (Hat : ∀ x, ram p' x = if decide (f + o <= x < f + o + n) then m0 (s + (x - (f + o))) else ram p x).
  { intros x. subst p'. simpl. destruct (decide (n = 0)) as [->|]; [rewrite decide_False by lia; done|].
    rewrite memcpy_at by (done || by destruct Hdj). case_decide; [|done]. apply Hkept, HK. lia. }
  assert (Hpage' : ∀ x, ¬ in_page f x → ram p' x = ram p x).
  { intros x Hx. rewrite Hat, decide_False; [done|]. intros ?. apply Hx. unfold in_page. lia. }
  assert (Hent : ∀ t i, t ∈ {[root]} ∪ (l2s ∪ l3s) → 0 <= i < 512 → pt_entry (ram p') t i = pt_entry (ram p) t i).
  { intros t i Ht Hix. apply load_le_ext. intros x Hx. apply Hpage'. intros Hfx.
    pose proof (frame_aligned _ _ Hvm (proj1 (table_used _ _ _ _ _ Hpt Ht))) as Hta.
    by rewrite (in_page_same t f x Hta Hfa ltac:(unfold in_page; lia) Hfx) in Ht. }
  assert (Hp' : vm_ok p').
  { split; [apply (vm_frames _ Hvm)|]. intros x. rewrite Hat. case_decide; [|apply (vm_ram _ Hvm)].
    rewrite <- Hkept by (apply HK; lia). apply (vm_ram _ Hvm). }
  assert (Hpt' : pt_ok p' root l2s l3s) by (apply (pt_ok_same p); [done| |done]; intros t i Ht; apply Hent; set_solver).
  split; try done.
  - intros a g x Hg Hx. rewrite Hat, HB. destruct (decide (a = va)) as [->|Hne].
    + rewrite Hva in Hg. injection Hg as <-. case_decide as H1; case_decide as H2; try lia; [f_equal; lia|by apply Hbytes].
    + destruct (Hpage a g Hg), (Hpage va f Hva). rewrite (decide_False (P := va + o <= _ < _)) by zlia.
      rewrite decide_False; [by apply Hbytes|]. intros Hgx. apply Hne, (Hinj a va f); [|done]. rewrite Hg. f_equal.
      apply (in_page_same g f (g + x)); [|done|unfold in_page; lia|unfold in_page; lia].
      by eapply frame_aligned, Hframe.
  - intros a g Ha Hg. destruct (Hwalk a g Ha Hg) as [Hw He].
    destruct (walk_kept p p' root l2s l3s l2s l3s a Hvm Hp' Hpt Hpt') as [-> ->]; [| |done|done].
    + intros t i Ht Hix _. apply Hent; [set_solver|done].
    + intros t i Ht Hix. apply Hent; [set_solver|done].
  - intros x Hx. rewrite <- (Hkept x Hx). apply Hpage'. by apply HnK.
Qed.
End image.

(** ** The segments, a page at a time *)

Lemma segment_entry_ok f flags : aligned f → entry_phys (segment_entry f flags) = f ∧
  has (segment_entry f flags) PT_VALID = true ∧ 0 <= segment_entry f flags < 2 ^ 64.
Proof.
  intros [Hm Hf]. assert (∃ c, segment_entry f flags = Z.lor f c ∧ entry_phys c = 0 ∧ has c PT_VALID = true ∧
    0 <= c < 2 ^ 64) as (c & -> & Hc1 & Hc2 & Hc3).
  { unfold segment_entry. case_match; rewrite <- !Z.lor_assoc; eexists; (split; [reflexivity|by vm_compute]). }
  split_and!.
  - by rewrite entry_phys_lor, entry_phys_frame, Hc1, Z.lor_0_r by lia.
  - by rewrite has_lor, Hc2, orb_true_r.
  - apply (lor_range 64); lia.
  - apply (lor_range 64); lia.
Qed.
Lemma readonly_entry_range e : 0 <= e < 2 ^ 64 → 0 <= andnot e (Z.shiftl 3 6) < 2 ^ 64 ∧ 0 <= readonly_entry e < 2 ^ 64.
Proof.
  intros He. assert (0 <= andnot e (Z.shiftl 3 6) < 2 ^ 64).
  { unfold andnot. rewrite <- Z.ldiff_land. apply bits_range; [lia|apply Z.ldiff_nonneg; lia|]. intros i Hi.
    by rewrite Z.ldiff_spec, (testbit_small e 64). }
  split; [done|]. apply (lor_range 64); [lia|done|]. by vm_compute.
Qed.

Section pt_runs.
Context {FA : Type} `{!FrameAllocator FA}.
Implicit Types (s : vmst FA) (p : vmm FA).

Lemma set_pt_eta s : set_pt (pt s) s = s.
Proof. by destruct s. Qed.
(** [m] changes only the page tables, the frames and the memory of [s]. *)
Definition pt_runs {A} (m : M (vmst FA) A) s p (P : A → vmm FA → Prop) : Prop :=
  runs_to m (set_pt p s) (λ a s', ∃ p', s' = set_pt p' s ∧ P a p').

Lemma pt_on {A} (m : M (vmm FA) A) s p (P : A → vmm FA → Prop) a p' :
  m p = Done (a, p') → P a p' → pt_runs (on_pt m) s p P.
Proof. intros Hm HP. unfold pt_runs, runs_to, on_pt, zoom. simpl. rewrite Hm. by exists p'. Qed.
Lemma pt_ret {A} (a : A) s p (P : A → vmm FA → Prop) : P a p → pt_runs (ret a) s p P.
Proof. intros HP. by exists p. Qed.
Lemma pt_bind {A C} (m : M (vmst FA) A) (k : A → M (vmst FA) C) s p P :
  pt_runs m s p (λ a p', pt_runs (k a) s p' P) → pt_runs (bind m k) s p P.
Proof. intros H. apply runs_bind. eapply runs_mono; [exact H|]. by intros a s' (p' & -> & HP). Qed.
Lemma pt_mono {A} (m : M (vmst FA) A) s p (P Q : A → vmm FA → Prop) :
  pt_runs m s p P → (∀ a p', P a p' → Q a p') → pt_runs m s p Q.
Proof. intros H HPQ. eapply runs_mono; [exact H|]. intros a s' (p' & -> & HP). eauto. Qed.
End pt_runs.
(** One operation on the page tables; one call. *)
Ltac pstep H := apply pt_bind; eapply pt_on; [first [exact H|reflexivity]|].
Ltac pcall H := apply pt_bind; eapply pt_mono; [eapply H|cbv beta].

(** The pages of a segment, and what the loader requires of it. *)
Definition seg_start (ph : elf64_phdr) : Z := page_down (p_vaddr ph).
Definition seg_end (ph : elf64_phdr) : Z := page_up (u64 (p_vaddr ph + p_memsz ph)).
Definition seg_pages (ph : elf64_phdr) : list Z := pages (seg_start ph) (seg_end ph).
Record seg_ok (size : Z) (ph : elf64_phdr) : Prop := mk_seg_ok {
  so_vaddr : 0 <= p_vaddr ph;
  so_offset : 0 <= p_offset ph;
  so_sizes : 0 <= p_filesz ph <= p_memsz ph;
  so_user : p_vaddr ph + p_memsz ph <= USER_SPACE_END;
  so_file : p_offset ph + p_filesz ph <= size;
}.

Lemma page_down_eq x : 0 <= x → page_down x = x - x mod 4096.
Proof. intros Hx. unfold page_down, PAGE_SIZE. change (4096 - 1) with (2 ^ 12 - 1). rewrite andnot_ones by lia. change (2 ^ 12) with 4096. zlia. Qed.
Lemma seg_range size ph : seg_ok size ph → 0 <= seg_start ph ∧ seg_start ph mod 4096 = 0 ∧ seg_start ph <= p_vaddr ph ∧
  p_vaddr ph + p_memsz ph <= seg_end ph ∧ seg_end ph <= USER_SPACE_END ∧ seg_end ph mod 4096 = 0.
Proof.
  intros [Hv _ Hz Hu _]. unfold seg_start, seg_end. unfold USER_SPACE_END in *. rewrite u64_id by lia.
  destruct (page_up_id (p_vaddr ph + p_memsz ph)) as [? ?]; [lia|]. rewrite page_down_eq by done. split_and!; zlia.
Qed.
Lemma elem_of_seg_pages size ph x : seg_ok size ph → x ∈ seg_pages ph ↔ seg_start ph <= x < seg_end ph ∧ x mod 4096 = 0.
Proof. intros Hok. apply elem_of_pages_aligned. by eapply seg_range. Qed.
Lemma seg_page_of size ph x : seg_ok size ph → p_vaddr ph <= x < p_vaddr ph + p_memsz ph → page_down x ∈ seg_pages ph.
Proof.
  intros Hok Hx. pose proof (so_vaddr _ _ Hok). rewrite (elem_of_seg_pages size) by done. destruct (seg_range size ph Hok) as (? & ? & ? & ? & ? & ?).
  rewrite page_down_eq by lia. unfold seg_start in *. rewrite page_down_eq in * by lia. split; zlia.
Qed.

(** The descriptors [g] on the pages [l]. *)
Definition over (l : list Z) (g : Z → Z) (E : Z → Z → Z) : Z → Z → Z := λ va, if decide (va ∈ l) then g else E va.
Lemma over_cons va l g E x : over (va :: l) g E x = over l g (<[va := g]> E) x.
Proof.
  unfold over. destruct (decide (x ∈ l)) as [Hxl|Hxl]; [by rewrite decide_True by (by right)|].
  destruct (decide (x = va)) as [->|Hne]; [rewrite decide_True by left; by rewrite fn_lookup_insert|].
  rewrite decide_False by (rewrite elem_of_cons; tauto). by rewrite fn_lookup_insert_ne.
Qed.

Definition loads (ph : elf64_phdr) : Prop := p_type ph = PT_LOAD ∧ p_memsz ph ≠ 0.
#[export] Instance loads_dec ph : Decision (loads ph).
Proof. apply and_dec; apply _. Defined.
(** Two segments without a page in common. *)
Definition apart (a b : elf64_phdr) : Prop := seg_end a <= seg_start b ∨ seg_end b <= seg_start a.
Definition seg_flags (ph : elf64_phdr) : Z := elf_to_vma_flags (p_flags ph).
Definition seg_area (ph : elf64_phdr) : vma := mk_vma (seg_start ph) (seg_end ph) (seg_flags ph) VMA_FILE 0 0 0.
(** The descriptor of a page of the segment in the frame [f]. *)
Definition seg_entry (ph : elf64_phdr) (f : Z) : Z :=
  let e := segment_entry f (seg_flags ph) in if has (seg_flags ph) VMA_WRITE then e else readonly_entry e.

Section segments.
Context {FA : Type} `{!FrameAllocator FA}.
Implicit Types (s : vmst FA) (p : vmm FA).
Variables (K : Z → Prop) (m0 : mem) (root : Z).
#[local] Set Default Proof Using "All".

Definition img p (I : gmap Z Z) (V : gset Z) (E : Z → Z → Z) (B : Z → Z) : Prop :=
  ∃ l2s l3s, image K m0 p root l2s l3s I V E B.
Lemma map_page_ok s p n I V E B flags va : img p I V E B → can_alloc (3 + n) (frames p) →
  I !! va = None → va mod 4096 = 0 → 0 <= va < 2 ^ 39 → (∀ o, 0 <= o < 4096 → B (va + o) = 0) →
  pt_runs (map_page root flags va) s p (λ ok p', ok = true ∧ ∃ f, can_alloc n (frames p') ∧
    img p' (<[va := f]> I) ({[va]} ∪ V) (<[va := λ f, segment_entry f flags]> E) B).
Proof.
  intros (l2s & l3s & Hi) Hn Hva Hm Hr Hz. unfold map_page.
  destruct (image_alloc K m0 p (2 + n) root l2s l3s I V E B va Hi Hn Hva Hm Hr Hz) as (f & fr & Hrun & Hf & Hn1 & Hi1).
  pstep Hrun. rewrite (proj2 (Z.eqb_neq _ _)) by done. pstep I.
  destruct (image_tables K m0 _ n root l2s l3s _ _ _ _ va Hi1 Hn1) as (pte & p2 & l2s' & l3s' & Hrun2 & Hp0 & Hw & Hn2 & Hi2).
  pstep Hrun2. rewrite (proj2 (Z.eqb_neq _ _)) by done. pstep I. apply pt_ret. split; [done|]. exists f. split; [done|].
  exists l2s', l3s'. pose proof (image_aligned _ _ _ _ _ _ _ _ _ _ va f Hi2 (lookup_insert_eq _ _ _)) as Ha.
  destruct (image_write K m0 p2 root l2s' l3s' _ V E (<[va := λ f, segment_entry f flags]> E) B va f (segment_entry f flags) Hi2) as [Hi3 _].
  - apply lookup_insert_eq.
  - by rewrite Hw.
  - by apply segment_entry_ok.
  - by rewrite fn_lookup_insert.
  - intros va' f' Hne. by rewrite fn_lookup_insert_ne.
  - by rewrite Hw in Hi3.
Qed.

Lemma img_ext p I V V' E E' B B' : img p I V E B → (∀ va, va ∈ V' ↔ va ∈ V) →
  (∀ va f, va ∈ V → I !! va = Some f → E' va f = E va f) → (∀ x, B' x = B x) → img p I V' E' B'.
Proof. intros (l2s & l3s & Hi) ???. exists l2s, l3s. by eapply image_ext. Qed.

Lemma map_segment_ok flags n l : ∀ s p I V E B, img p I V E B → can_alloc (3 * length l + n) (frames p) → NoDup l →
  (∀ va, va ∈ l → I !! va = None ∧ va mod 4096 = 0 ∧ 0 <= va < 2 ^ 39 ∧ ∀ o, 0 <= o < 4096 → B (va + o) = 0) →
  pt_runs (map_segment root flags l) s p (λ ok p', ok = true ∧ ∃ I', can_alloc n (frames p') ∧
    img p' I' (list_to_set l ∪ V) (over l (λ f, segment_entry f flags) E) B ∧ ∀ va, va ∉ l → I' !! va = I !! va).
Proof.
  induction l as [|va l IH]; intros s p I V E B Hi Hn Hnd Hl.
  { apply pt_ret. split; [done|]. exists I. split; [done|]. split; [|done]. by eapply img_ext; [exact Hi|set_solver|..]. }
  apply NoDup_cons in Hnd as [Hva Hnd]. destruct (Hl va (list_elem_of_here _ _)) as (H0 & Hm & Hr & Hz).
  cbn [map_segment]. replace (3 * length (va :: l) + n)%nat with (3 + (3 * length l + n))%nat in Hn by (simpl; lia).
  pcall (map_page_ok s p _ I V E B flags va Hi Hn H0 Hm Hr Hz). intros ok p1 (-> & f & Hn1 & Hi1).
  eapply pt_mono; [eapply (IH s p1 _ _ _ _ Hi1 Hn1 Hnd)|cbv beta].
  { intros va' Hva'. rewrite lookup_insert_ne by (intros ->; done). apply Hl. by right. }
  intros ok p2 (-> & I' & Hn2 & Hi2 & HI'). split; [done|]. exists I'. split; [done|]. split.
  - eapply img_ext; [exact Hi2|intros x; rewrite list_to_set_cons; set_solver| |done].
    intros x f' _ _. by rewrite over_cons.
  - intros x Hx. rewrite elem_of_cons in Hx. rewrite HI', lookup_insert_ne by (intuition congruence). done.
Qed.

Lemma protect_page_ok s p I V E B va g : img p I V E B → va ∈ V → (∀ f, E va f = g f) →
  (∀ f, aligned f → has (g f) PT_VALID = true ∧ 0 <= g f < 2 ^ 64) →
  pt_runs (protect_page root va) s p (λ _ p', frames p' = frames p ∧ img p' I V (<[va := λ f, readonly_entry (g f)]> E) B).
Proof.
  intros (l2s & l3s & Hi) HV HE Hg. destruct (im_dom _ _ _ _ _ _ _ _ _ _ Hi _ HV) as [f HI].
  destruct (im_walk _ _ _ _ _ _ _ _ _ _ Hi _ f HV HI) as [Hw Hr]. rewrite HE in Hr.
  destruct (Hg f (image_aligned _ _ _ _ _ _ _ _ _ _ _ _ Hi HI)) as [Hval Hrg]. destruct (readonly_entry_range _ Hrg) as [Hr1 Hr2].
  unfold protect_page, mm_pte. pstep I. fold (walk p root va). rewrite (proj2 (Z.eqb_neq _ _)) by done. pstep I. rewrite Hr, Hval.
  pstep I. pstep I. eapply pt_on; [reflexivity|]. split; [done|]. exists l2s, l3s.
  set (w := andnot (g f) (Z.shiftl 3 6)) in *.
  destruct (image_write K m0 p root l2s l3s I V E (<[va := λ _, w]> E) B va f w Hi HI Hw Hr1) as [Hi1 Hwalk];
    [by rewrite fn_lookup_insert|intros; by rewrite fn_lookup_insert_ne|].
  destruct (im_walk _ _ _ _ _ _ _ _ _ _ Hi1 va f) as [Hw1 He1]; [set_solver|done|]. rewrite Hwalk in Hw1, He1.
  rewrite fn_lookup_insert in He1. rewrite He1.
  destruct (image_write K m0 _ root l2s l3s I _ _ (<[va := λ f, readonly_entry (g f)]> E) B va f (readonly_entry (g f)) Hi1 HI) as [Hi2 _];
    [by rewrite Hwalk|done|by rewrite fn_lookup_insert|intros; by rewrite !fn_lookup_insert_ne|].
  rewrite Hwalk in Hi2. eapply image_ext; [exact Hi2|set_solver|done|done].
Qed.
Lemma protect_segment_ok g l : (∀ f, aligned f → has (g f) PT_VALID = true ∧ 0 <= g f < 2 ^ 64) → NoDup l → ∀ s p I V E B,
  img p I V E B → (∀ va, va ∈ l → va ∈ V ∧ ∀ f, E va f = g f) →
  pt_runs (for_each (protect_page root) l) s p (λ _ p', frames p' = frames p ∧ img p' I V (over l (λ f, readonly_entry (g f)) E) B).
Proof.
  intros Hg. induction 1 as [|va l Hva Hnd IH]; intros s p I V E B Hi HV; cbn [for_each].
  { apply pt_ret. split; [done|]. by eapply img_ext. }
  destruct (HV va (list_elem_of_here _ _)) as [Hv HE]. pcall (protect_page_ok s p I V E B va g Hi Hv HE Hg).
  intros _ p1 (Hf1 & Hi1). eapply pt_mono; [eapply (IH s p1 _ _ _ _ Hi1)|cbv beta].
  { intros va' Hva'. rewrite fn_lookup_insert_ne by (intros ->; done). apply HV. by right. }
  intros _ p2 (Hf2 & Hi2). split; [congruence|]. eapply img_ext; [exact Hi2|done| |done].
  intros x f _ _. by rewrite over_cons.
Qed.

(** The file, at the address [data]. *)
Variables (data size : Z).
Hypothesis Hdata : PHYS_OFFSET <= data ∧ 0 <= size ∧ data + size < 2 ^ 64.
Hypothesis HK : ∀ x, V2P data <= x < V2P data + size → K x.

(** The first [c] bytes of the segment. *)
Definition filled (ph : elf64_phdr) (c : Z) (B : Z → Z) : Z → Z := λ x,
  if decide (p_vaddr ph <= x < p_vaddr ph + c) then m0 (V2P data + p_offset ph + (x - p_vaddr ph)) else B x.

Lemma copy_segment_ok s ph I V E B : seg_ok size ph →
  (∀ va, va ∈ seg_pages ph → va ∈ V ∧ ∀ f, aligned f → has (E va f) PT_VALID = true ∧ entry_phys (E va f) = f) →
  ∀ fuel c p, 0 <= c <= p_filesz ph → (Z.to_nat (p_filesz ph - c) < fuel)%nat → img p I V E (filled ph c B) →
  pt_runs (copy_segment fuel root data ph c) s p (λ ok p', ok = true ∧ frames p' = frames p ∧ img p' I V E (filled ph (p_filesz ph) B)).
Proof.
  intros Hok HV fuel. induction fuel as [|fuel IH]; intros c p Hc Hf Hi; [lia|].
  cbn [copy_segment]. destruct (Z.leb_spec (p_filesz ph) c) as [Hle|Hlt].
  { apply pt_ret. replace c with (p_filesz ph) in Hi by lia. done. }
  pose proof Hok as [Hv Ho Hz Hu Hfile]. destruct Hdata as (Hd & Hs & Hds).
  unfold USER_SPACE_END, PHYS_OFFSET in *. rewrite (u64_id (p_vaddr ph + c)) by lia. set (cur := p_vaddr ph + c) in *.
  assert (Hoff : Z.land cur (PAGE_SIZE - 1) = cur mod 4096) by (apply (land_ones_mod cur 12); lia).
  rewrite Hoff. unfold PAGE_SIZE. rewrite (u64_id (c + (4096 - cur mod 4096))) by zlia.
  set (k := if p_filesz ph <? c + (4096 - cur mod 4096) then p_filesz ph - c else 4096 - cur mod 4096). assert (Hk : 0 < k ∧ cur mod 4096 + k <= 4096 ∧ c + k <= p_filesz ph) by (subst k; case_match; zlia).
  destruct (HV (page_down cur)) as [HcV HE]; [apply (seg_page_of size ph); [done|subst cur; lia]|].
  destruct Hi as (l2s & l3s & Hi). destruct (im_dom _ _ _ _ _ _ _ _ _ _ Hi _ HcV) as [f HI].
  destruct (im_walk _ _ _ _ _ _ _ _ _ _ Hi _ f HcV HI) as [Hw Hr]. pose proof (image_aligned _ _ _ _ _ _ _ _ _ _ _ _ Hi HI) as Hfa.
  destruct (HE f Hfa) as [Hval Hphys]. unfold mm_pte. pstep I. fold (walk p root (page_down cur)).
  rewrite (proj2 (Z.eqb_neq _ _)) by done. pstep I. rewrite Hr, Hval, Hphys. cbn [negb].
  pstep I. eapply pt_mono; [apply IH|].
  - lia.
  - lia.
  - exists l2s, l3s. rewrite V2P_kernel_add, V2P_P2V.
    + rewrite (u64_id (data + p_offset ph + c)), <- Z.add_assoc, V2P_kernel_add by (unfold PHYS_OFFSET; lia).
      eapply image_copy; [exact Hi|exact HI|zlia|lia|lia| |].
      * intros x Hx. apply HK. lia.
      * intros x. rewrite page_down_eq by lia. unfold filled. 
        repeat case_decide; try lia; f_equal; lia.
    + destruct Hfa; lia.
    + destruct Hfa. unfold P2V, PHYS_OFFSET. rewrite u64_id; lia.
    + zlia.
  - intros ok p' (-> & Hfr & Hi'). done.
Qed.

Definition seg_byte (ph : elf64_phdr) : Z → Z := filled ph (p_filesz ph) (λ _, 0).

(** The pages of one segment: mapped, filled and protected. *)
Lemma fill_segment_ok s p n I V E B ph : img p I V E B → can_alloc (3 * length (seg_pages ph) + n) (frames p) → seg_ok size ph →
  (∀ va, va ∈ seg_pages ph → I !! va = None ∧ ∀ o, 0 <= o < 4096 → B (va + o) = 0) →
  let flags := seg_flags ph in
  pt_runs (ok <- map_segment root flags (seg_pages ph);;
    if negb ok then ret false
    else
      ok <- copy_segment (S (Z.to_nat (p_filesz ph))) root data ph 0;;
      if negb ok then ret false
      else
        (if has flags VMA_WRITE then ret tt else for_each (protect_page root) (seg_pages ph));;;
        ret true) s p
    (λ ok p', ok = true ∧ ∃ I', can_alloc n (frames p') ∧ (∀ va, va ∉ seg_pages ph → I' !! va = I !! va) ∧
       img p' I' (list_to_set (seg_pages ph) ∪ V) (over (seg_pages ph) (seg_entry ph) E) (filled ph (p_filesz ph) B)).
Proof.
  intros Hi Hn Hok HI flags. destruct (seg_range size ph Hok) as (Hs0 & Hsm & _ & _ & Hse & _). unfold USER_SPACE_END in Hse.
  assert (Hnd : NoDup (seg_pages ph)).
  { unfold seg_pages, pages. apply NoDup_fmap; [|apply NoDup_seqZ]. intros x y. unfold PAGE_SIZE. lia. }
  pcall (map_segment_ok flags n (seg_pages ph) s p I V E B Hi Hn Hnd).
  { intros va Hva. destruct (HI va Hva) as [H0 Hz]. apply (elem_of_seg_pages size) in Hva as [Hr Hm]; [|exact Hok]. clear -H0 Hz Hr Hm Hs0 Hse. split_and!; [done|done|lia|lia|done]. }
  intros ok p1 (-> & I' & Hn1 & Hi1 & HI'). cbn [negb]. set (V' := list_to_set (seg_pages ph) ∪ V) in *.
  set (g := λ f, segment_entry f flags) in *. assert (HV : ∀ va, va ∈ seg_pages ph → va ∈ V' ∧ ∀ f, over (seg_pages ph) g E va f = g f).
  { intros va Hva. split; [by apply elem_of_union_l, elem_of_list_to_set|]. intros f. unfold over. by rewrite decide_True. }
  assert (Hg : ∀ f, aligned f → entry_phys (g f) = f ∧ has (g f) PT_VALID = true ∧ 0 <= g f < 2 ^ 64)
    by (intros f; apply segment_entry_ok).
  assert (Hg' : ∀ f, aligned f → has (g f) PT_VALID = true ∧ 0 <= g f < 2 ^ 64) by (intros f Hf; apply (Hg f Hf)).
  pcall (copy_segment_ok s ph I' V' (over (seg_pages ph) g E) B Hok).
  { intros va Hva. destruct (HV va Hva) as [? HE]. split; [done|]. intros f Hf. rewrite HE. destruct (Hg f Hf) as (Hg1 & Hg2 & _). by split. }
  { pose proof (so_sizes _ _ Hok). lia. }
  { lia. }
  { eapply img_ext; [exact Hi1|done|done|]. intros x. unfold filled. rewrite decide_False by lia. done. }
  intros ok p2 (-> & Hf2 & Hi2). cbn [negb]. unfold seg_entry. fold flags. destruct (has flags VMA_WRITE) eqn:Hw.
  - apply pt_bind, pt_ret, pt_ret. split; [done|]. exists I'. rewrite Hf2. split; [done|]. split; [done|].
    by eapply img_ext.
  - pcall (protect_segment_ok g (seg_pages ph) Hg' Hnd s p2 _ _ _ _ Hi2 HV).
    intros _ p3 (Hf3 & Hi3). apply pt_ret. split; [done|]. exists I'. rewrite Hf3, Hf2. split; [done|]. split; [done|].
    eapply img_ext; [exact Hi3|done| |done]. intros va f _ _. unfold over. by case_decide.
Qed.

(** ** The segments of the file *)

(** The areas of [mm] are those of [segs]; [k] areas can be created. *)
Record areas s (mm : Z) (segs : list elf64_phdr) (k : nat) : Prop := mk_areas {
  ar_space : ∃ l, space_ok s mm l ∧ (∀ a, a ∈ l → ∃ ph, ph ∈ segs ∧ core (area s a) = seg_area ph) ∧
    (∀ ph, ph ∈ segs → ∃ a, a ∈ l ∧ core (area s a) = seg_area ph);
  ar_mm : ∃ m, mms s !! mm = Some m ∧ page_table m = root;
  ar_lock : vma_lock s = false;
  ar_fresh : ∃ ns rest, allocs s = ns ++ rest ∧ length ns = k ∧ NoDup ns ∧ ∀ n, n ∈ ns → n ≠ 0 ∧ vmas s !! n = None;
}.
Lemma areas_set_pt s q mm segs k : areas s mm segs k → areas (set_pt q s) mm segs k.
Proof. intros [(l & [] & ? & ?) ? ? ?]. split; try done. exists l. split; [by split|done]. Qed.

Lemma new_segment_area s mm segs k ph : areas s mm segs (S k) → mm ≠ 0 → seg_ok size ph → p_memsz ph ≠ 0 →
  (∀ ph', ph' ∈ segs → apart ph' ph) →
  ∃ n s1 s2, vma_create (seg_start ph) (seg_end ph) (seg_flags ph) VMA_FILE s = Done (n, s1) ∧ n ≠ 0 ∧
    vma_insert mm n s1 = Done (0, s2) ∧ pt s2 = pt s ∧ areas s2 mm (segs ++ [ph]) k.
Proof.
  intros [(l & Hs & Hl1 & Hl2) (m & Hm & Hroot) Hlock (ns & rest & Hal & Hlen & Hnd & Hfr)] Hmm Hok Hz Hap.
  destruct ns as [|n ns]; [done|]. apply NoDup_cons in Hnd as [Hn Hnd]. destruct (Hfr n (list_elem_of_here _ _)) as [Hn0 Hnone].
  destruct (seg_range size ph Hok) as (H1 & _ & H2 & H3 & H4 & _). pose proof (so_sizes _ _ Hok).
  destruct (new_area_ok s mm l (seg_start ph) (seg_end ph) (seg_flags ph) VMA_FILE n (ns ++ rest) Hs Hmm Hlock)
    as (s1 & s2 & Hr1 & Hr2 & (l' & Hs2 & Hl') & Hcore & Hnew & Hpt & Hlk & Hal2 & Hnone2 & Hmms); try done.
  - lia.
  - intros a Ha. destruct (Hl1 a Ha) as (ph' & Hph' & Hc).
    assert (vm_start (area s a) = seg_start ph' ∧ vm_end (area s a) = seg_end ph') as [-> ->].
    { unfold core, set_vm_next, seg_area in Hc. by injection Hc. }
    destruct (Hap ph' Hph'); lia.
  - exists n, s1, s2. do 4 (split; [done|]). split.
    + exists l'. split; [done|]. split.
      * intros a [->|Ha]%Hl'; [exists ph; split; [set_solver|done]|]. destruct (Hl1 a Ha) as (ph' & Hph' & Hc).
        exists ph'. split; [set_solver|]. by rewrite Hcore.
      * intros ph' [Hph'| ->%list_elem_of_singleton]%elem_of_app; [|exists n; split; [apply Hl'; by left|done]].
        destruct (Hl2 ph' Hph') as (a & Ha & Hc). exists a. split; [apply Hl'; by right|]. by rewrite Hcore.
    + specialize (Hmms mm). rewrite Hm in Hmms. destruct (mms s2 !! mm) as [m'|]; [|done]. exists m'. split; [done|].
      apply Some_inj in Hmms. by injection Hmms as -> _.
    + done.
    + exists ns, rest. split; [done|]. split; [by injection Hlen|]. split; [done|].
      intros x Hx. destruct (Hfr x (list_elem_of_further _ _ _ Hx)) as [Hx0 Hxn]. split; [done|]. apply Hnone2; [by intros ->|done].
Qed.

(** The segments [segs] are in place. *)
Record in_place (segs : list elf64_phdr) (I : gmap Z Z) (V : gset Z) (E : Z → Z → Z) (B : Z → Z) : Prop := mk_in_place {
  ip_seg : ∀ ph va, ph ∈ segs → va ∈ seg_pages ph → va ∈ V ∧ (∀ f, E va f = seg_entry ph f) ∧
    ∀ o, 0 <= o < 4096 → B (va + o) = seg_byte ph (va + o);
  ip_dom : ∀ va, is_Some (I !! va) → ∃ ph, ph ∈ segs ∧ va ∈ seg_pages ph;
  ip_zero : ∀ va, va mod 4096 = 0 → I !! va = None → ∀ o, 0 <= o < 4096 → B (va + o) = 0;
}.
Definition loaded s (mm : Z) (segs : list elf64_phdr) (k n : nat) : Prop :=
  areas s mm segs k ∧ can_alloc n (frames (pt s)) ∧ ∃ I V E B, img (pt s) I V E B ∧ in_place segs I V E B.

Lemma apart_pages a b va : seg_ok size a → seg_ok size b → apart a b → va ∈ seg_pages a → va ∉ seg_pages b.
Proof. intros Ha Hb Hap. rewrite !(elem_of_seg_pages size) by done. destruct Hap; lia. Qed.
(** The bytes of a segment are in its pages. *)
Lemma filled_out ph B va o : seg_ok size ph → va mod 4096 = 0 → va ∉ seg_pages ph → 0 <= o < 4096 →
  filled ph (p_filesz ph) B (va + o) = B (va + o).
Proof.
  intros Hok Hm Hva Ho. unfold filled. rewrite decide_False; [done|]. intros Hx. apply Hva.
  pose proof (so_sizes _ _ Hok). pose proof (so_vaddr _ _ Hok). replace va with (page_down (va + o)).
  - apply (seg_page_of size); [done|lia].
  - rewrite page_down_eq by lia. zlia.
Qed.
Lemma in_place_add segs ph I I' V E B : (∀ ph', ph' ∈ segs → seg_ok size ph' ∧ apart ph' ph) → seg_ok size ph →
  in_place segs I V E B → (∀ va, va ∉ seg_pages ph → I' !! va = I !! va) →
  (∀ va, is_Some (I' !! va) → va mod 4096 = 0) → (∀ va, va ∈ seg_pages ph → is_Some (I' !! va)) →
  in_place (segs ++ [ph]) I' (list_to_set (seg_pages ph) ∪ V) (over (seg_pages ph) (seg_entry ph) E) (filled ph (p_filesz ph) B).
Proof.
  intros Hsegs Hok [Hseg Hdom Hzero] HI' Hmod Hnew.
  assert (Hnone : ∀ va, va ∈ seg_pages ph → I !! va = None).
  { intros va Hva. destruct (I !! va) eqn:HI; [|done]. destruct (Hdom va) as (ph' & Hph' & Hva'); [by rewrite HI|].
    destruct (Hsegs ph' Hph') as [Hok' Hap]. by destruct (apart_pages ph' ph va Hok' Hok Hap Hva'). }
  split.
  - intros ph' va [Hph'| ->%list_elem_of_singleton]%elem_of_app Hva.
    + destruct (Hsegs ph' Hph') as [Hok' Hap]. pose proof (apart_pages ph' ph va Hok' Hok Hap Hva) as Hout.
      destruct (Hseg ph' va Hph' Hva) as (HV & HE & HB). apply (elem_of_seg_pages size) in Hva as [_ Hm]; [|done].
      split; [apply elem_of_union; by right|]. split.
      * intros f. unfold over. by rewrite decide_False.
      * intros o Ho. rewrite filled_out by done. by apply HB.
    + split; [apply elem_of_union_l, elem_of_list_to_set; done|]. split.
      * intros f. unfold over. by rewrite decide_True.
      * intros o Ho. unfold seg_byte, filled. case_decide; [done|]. apply Hzero; [|by apply Hnone|done].
        by apply (elem_of_seg_pages size) in Hva as [_ ?].
  - intros va Hva. destruct (decide (va ∈ seg_pages ph)) as [Hin|Hout]; [exists ph; split; [set_solver|done]|].
    rewrite HI' in Hva by done. destruct (Hdom va Hva) as (ph' & ? & ?). exists ph'. split; [set_solver|done].
  - intros va Hm HI o Ho. destruct (decide (va ∈ seg_pages ph)) as [Hin|Hout].
    + destruct (Hnew va Hin) as [? Heq]. by rewrite HI in Heq.
    + rewrite filled_out by done. apply Hzero; [done| |done]. by rewrite <- HI'.
Qed.

Lemma load_segment_ok s mm segs k n ph : loaded s mm segs (S k) (3 * length (seg_pages ph) + n) → mm ≠ 0 → loads ph →
  seg_ok size ph → (∀ ph', ph' ∈ segs → seg_ok size ph' ∧ apart ph' ph) →
  runs_to (load_segment mm root data ph) s (λ ok s', ok = true ∧ loaded s' mm (segs ++ [ph]) k n).
Proof.
  intros (Har & Hn & I & V & E & B & Hi & Hip) Hmm [Ht Hz] Hok Hsegs. unfold load_segment.
  rewrite (proj2 (Z.eqb_eq _ _) Ht), (proj2 (Z.eqb_neq _ _) Hz). cbv zeta. cbn [negb].
  fold (seg_start ph) (seg_end ph) (seg_flags ph) (seg_pages ph).
  destruct (new_segment_area s mm segs k ph Har Hmm Hok Hz) as (v & s1 & s2 & Hr1 & Hv & Hr2 & Hpt & Har2);
    [intros; by apply Hsegs|].
  apply runs_bind; eapply runs_Done; [exact Hr1|]. rewrite (proj2 (Z.eqb_neq _ _) Hv).
  apply runs_bind; eapply runs_Done; [exact Hr2|]. cbn [Z.ltb Z.compare]. rewrite <- (set_pt_eta s2), Hpt.
  eapply runs_mono; [eapply (fill_segment_ok s2 (pt s) n I V E B ph Hi Hn Hok)|cbv beta].
  { intros va Hva. destruct (I !! va) eqn:HI.
    - destruct (ip_dom _ _ _ _ _ Hip va) as (ph' & Hph' & Hva'); [by rewrite HI|]. destruct (Hsegs ph' Hph') as [Hok' Hap].
      by destruct (apart_pages ph' ph va Hok' Hok Hap Hva').
    - split; [done|]. apply (ip_zero _ _ _ _ _ Hip); [|done]. by apply (elem_of_seg_pages size) in Hva as [_ ?]. }
  intros ok s' (p' & -> & -> & I' & Hn' & HI' & Hi'). split; [done|]. split; [by apply areas_set_pt|]. split; [done|].
  eexists I', _, _, _. split; [exact Hi'|]. destruct Hi' as (l2s & l3s & Hi'). apply (in_place_add segs ph I I' V E B Hsegs Hok Hip HI').
  - intros va [f Hf]. apply (im_page _ _ _ _ _ _ _ _ _ _ Hi' va f Hf).
  - intros va Hva. apply (im_dom _ _ _ _ _ _ _ _ _ _ Hi'). by apply elem_of_union_l, elem_of_list_to_set.
Qed.

(** The program headers, at the offset [off]. *)
Definition header (off i : Z) : elf64_phdr := phdr_at m0 (V2P data + off + SIZEOF_PHDR * i).
Definition segments (off i : Z) (num : nat) : list elf64_phdr := filter loads (header off <$> seqZ i (Z.of_nat num)).
Definition frames_for (segs : list elf64_phdr) : nat := sum_list ((λ ph, 3 * length (seg_pages ph))%nat <$> segs).

Lemma phdr_at_ext (m m' : mem) a : (∀ x, a <= x < a + 56 → m x = m' x) → phdr_at m a = phdr_at m' a.
Proof. intros H. unfold phdr_at, load32, load64. f_equal; apply load_le_ext; intros; apply H; lia. Qed.
Lemma header_address off i : 0 <= off → 0 <= i → off + SIZEOF_PHDR * (i + 1) <= size →
  V2P (u64 (u64 (data + off) + SIZEOF_PHDR * i)) = V2P data + off + SIZEOF_PHDR * i.
Proof.
  destruct Hdata as (Hd & Hs & Hds). unfold SIZEOF_PHDR, PHYS_OFFSET in *. intros.
  rewrite (u64_id (data + off)), u64_id, <- Z.add_assoc, V2P_kernel_add by (unfold PHYS_OFFSET; lia). lia.
Qed.
Lemma header_kept p I V E B off i : img p I V E B → 0 <= off → 0 <= i → off + SIZEOF_PHDR * (i + 1) <= size →
  phdr_at (ram p) (V2P (u64 (u64 (data + off) + SIZEOF_PHDR * i))) = header off i.
Proof.
  intros (l2s & l3s & Hi) Ho Hi0 Hsz. rewrite header_address by done. apply phdr_at_ext. intros x Hx.
  apply (im_kept _ _ _ _ _ _ _ _ _ _ Hi), HK. unfold SIZEOF_PHDR in *. lia.
Qed.
Lemma segments_S off i num : segments off i (S num) =
  if decide (loads (header off i)) then header off i :: segments off (i + 1) num else segments off (i + 1) num.
Proof.
  unfold segments. rewrite seqZ_cons by lia. rewrite fmap_cons, filter_cons, Nat2Z.inj_succ. rewrite Z.pred_succ. done.
Qed.

Lemma load_segments_ok mm off k n num : mm ≠ 0 → 0 <= off → ∀ i s segs, 0 <= i → off + SIZEOF_PHDR * (i + Z.of_nat num) <= size →
  let todo := segments off i num in
  loaded s mm segs (length todo + k) (frames_for todo + n) → Forall (seg_ok size) (segs ++ todo) → StronglySorted apart (segs ++ todo) →
  runs_to (load_segments mm root data (u64 (data + off)) num i) s (λ ok s', ok = true ∧ loaded s' mm (segs ++ todo) k n).
Proof.
  intros Hmm Hoff. induction num as [|num IH]; intros i s segs Hi Hsz todo Hl Hok Hap.
  { subst todo. change (segments off i 0) with (@nil elf64_phdr) in *. rewrite app_nil_r. by split. }
  cbn [load_segments]. rewrite Nat2Z.inj_succ in Hsz.
  apply runs_bind; eapply runs_Done; [reflexivity|]. cbv beta.
  pose proof Hl as (_ & _ & I & V & E & B & Him & _). rewrite (header_kept (pt s) I V E B off i Him) by (unfold SIZEOF_PHDR in *; lia).
  rewrite set_pt_eta. subst todo. rewrite segments_S in *. destruct (decide (loads (header off i))) as [Hlo|Hno].
  - set (ph := header off i) in *. cbn [length] in Hl. rewrite Nat.add_succ_l in Hl.
    pose proof (proj1 (Forall_app _ _ _) Hok) as [Hok1 Hok2]. apply Forall_cons in Hok2 as [Hph _].
    rstep load_segment_ok; [|done|done|done| |].
    + change (frames_for (ph :: ?l)) with (3 * length (seg_pages ph) + frames_for l)%nat in Hl. rewrite <- Nat.add_assoc in Hl. exact Hl.
    + intros ph' Hph'. split; [by eapply Forall_forall in Hok1|]. apply StronglySorted_app_elim in Hap as (_ & _ & Hap). apply Hap; [done|left].
    + intros ok s' (-> & Hl'). cbn [negb]. rewrite cons_middle, app_assoc in Hok, Hap |- *. apply IH; [lia|lia|done|done|done].
  - assert (Hskip : load_segment mm root data (header off i) s = Done (true, s)).
    { unfold load_segment. destruct (Z.eqb_spec (p_type (header off i)) PT_LOAD); [|done]. cbn [negb].
      destruct (Z.eqb_spec (p_memsz (header off i)) 0); [done|]. by destruct Hno. }
    apply runs_bind; eapply runs_Done; [exact Hskip|]. cbn [negb]. apply IH; [lia|lia|done|done|done].
Qed.

(** The first loop: the range of the segments. *)
Lemma elf_range_ok m off num : (∀ x, K x → m x = m0 x) → 0 <= off → ∀ i lo hi, 0 <= i → off + SIZEOF_PHDR * (i + Z.of_nat num) <= size →
  (∀ j, i <= j < i + Z.of_nat num → p_type (header off j) = PT_LOAD → seg_ok size (header off j)) →
  ∃ lo' hi', elf_range m (u64 (data + off)) size num i lo hi = Some (lo', hi') ∧ lo' <= lo ∧ hi <= hi' ∧
    (hi' = hi ∨ hi' <= USER_SPACE_END) ∧
    ∀ ph, ph ∈ segments off i num → lo' <= p_vaddr ph ∧ p_vaddr ph + p_memsz ph <= hi'.
Proof.
  intros Hm Hoff. induction num as [|num IH]; intros i lo hi Hi Hsz Hok.
  { exists lo, hi. split; [done|]. split; [lia|]. split; [lia|]. split; [by left|]. by intros ph Hph%not_elem_of_nil. }
  rewrite Nat2Z.inj_succ in Hsz. cbn [elf_range]. rewrite header_address by (unfold SIZEOF_PHDR in *; lia).
  rewrite (phdr_at_ext m m0) by (intros x Hx; apply Hm, HK; unfold SIZEOF_PHDR in *; lia).
  fold (header off i). specialize (Hok i) as Hoki. rewrite segments_S. set (ph := header off i) in *.
  assert (Hok' : ∀ j, i + 1 <= j < i + 1 + Z.of_nat num → p_type (header off j) = PT_LOAD → seg_ok size (header off j))
    by (intros j Hj; apply Hok; lia).
  destruct (Z.eqb_spec (p_type ph) PT_LOAD) as [Ht|Ht]; cbn [negb].
  - destruct Hoki as [Hv Ho Hz Hu Hf]; [lia|done|]. destruct Hdata as (Hd & Hs & Hds). unfold USER_SPACE_END, PHYS_OFFSET in *.
    rewrite !u64_id by lia. rewrite (proj2 (Z.ltb_ge _ _)) by lia. rewrite (proj2 (Z.ltb_ge (p_vaddr ph) 0)), (proj2 (Z.ltb_ge 0x4000000000 _)) by lia.
    cbn [orb]. set (lo1 := if p_vaddr ph <? lo then _ else _). set (hi1 := if hi <? _ then _ else _).
    assert (lo1 <= lo ∧ lo1 <= p_vaddr ph ∧ hi <= hi1 ∧ p_vaddr ph + p_memsz ph <= hi1 ∧ (hi1 = hi ∨ hi1 <= 0x4000000000))
      by (subst lo1 hi1; repeat case_match; lia).
    destruct (IH (i + 1) lo1 hi1 ltac:(lia) ltac:(lia) Hok') as (lo' & hi' & -> & ? & ? & ? & Hall). exists lo', hi'.
    split; [done|]. split; [lia|]. split; [lia|]. split; [lia|].
    intros ph'. case_decide; [intros [->|Hin]%elem_of_cons; [lia|by apply Hall]|apply Hall].
  - destruct (IH (i + 1) lo hi ltac:(lia) ltac:(lia) Hok') as (lo' & hi' & -> & ? & ? & ? & Hall). exists lo', hi'.
    do 4 (split; [done|]). intros ph'. rewrite decide_False by (by intros [? _]). apply Hall.
Qed.
End segments.

(** ** The loader *)

Section loader.
Context {FA : Type} `{!FrameAllocator FA}.
Implicit Types (s : vmst FA) (p : vmm FA).

(** The bytes of the file lie in no unused frame and in no page table. *)
Definition file_apart p (root : Z) (l2s l3s : gset Z) (data size : Z) : Prop :=
  ∀ x f, V2P data <= x < V2P data + size → frame_of p f → in_page f x → 0 < refs_of p f ∧ f ∉ {[root]} ∪ (l2s ∪ l3s).
(** The page [va] of the segment: its descriptor and its bytes; [m] is the
    memory with the file. *)
Definition page_loaded p (root : Z) (m : mem) (data : Z) (ph : elf64_phdr) (va : Z) : Prop :=
  ∃ f, aligned f ∧ walk p root va ≠ 0 ∧ rd64 (ram p) (walk p root va) = seg_entry ph f ∧
    ∀ o, 0 <= o < 4096 → ram p (f + o) = seg_byte m data ph (va + o).

Lemma empty_image p root l2s l3s data size : vm_ok p → pt_ok p root l2s l3s → file_apart p root l2s l3s data size →
  img (λ x, V2P data <= x < V2P data + size) (ram p) root p ∅ ∅ (λ _ f, f) (λ _, 0).
Proof.
  intros Hvm Hpt Hap. exists l2s, l3s. split; try done.
  intros x f Hx Hf Hin. destruct (Hap x f Hx Hf Hin). done.
Qed.
Lemma loaded_page K m0 root data size s mm segs k n ph va : loaded K m0 root data s mm segs k n → seg_ok size ph → ph ∈ segs →
  va ∈ seg_pages ph → page_loaded (pt s) root m0 data ph va.
Proof.
  intros (_ & _ & I & V & E & B & (l2s & l3s & Hi) & Hip) Hok Hph Hva. destruct (ip_seg _ _ _ _ _ _ _ Hip ph va Hph Hva) as (HV & HE & HB).
  destruct (im_dom _ _ _ _ _ _ _ _ _ _ Hi va HV) as [f Hf]. exists f. split; [by eapply image_aligned|].
  destruct (im_walk _ _ _ _ _ _ _ _ _ _ Hi va f HV Hf) as [Hw Hr]. split; [done|]. split; [by rewrite Hr|].
  intros o Ho. rewrite (im_bytes _ _ _ _ _ _ _ _ _ _ Hi va f o Hf Ho). by apply HB.
Qed.
(** A new break leaves the areas alone. *)
Lemma areas_set_brk root s mm segs k m b m' : areas root s mm segs k → mms s !! mm = Some m →
  vma_list m' = vma_list m → page_table m' = page_table m → b = set_mms (<[mm := m']> (mms s)) s → areas root b mm segs k.
Proof.
  intros [(l & [(m1 & Hm1 & Hl) Ha Hs] & Hl1 & Hl2) (m2 & Hm2 & Hroot) Hlock Hfr] Hm Hvl Hptb ->. rewrite Hm in Hm1, Hm2. injection Hm1 as <-. injection Hm2 as <-. split; [| |done|done].
  - exists l. split; [|done]. apply (space_ok_relink s _ mm l m'); try done; [apply lookup_insert_eq|by rewrite Hvl].
  - exists m'. split; [apply lookup_insert_eq|by rewrite Hptb].
Qed.

End loader.

(** ** A program with one segment of three bytes *)

Definition exl_bytes : list Z :=
  [0x7F; 0x45; 0x4C; 0x46; 2; 1; 1; 0] ++ replicate 8 0 ++ [2; 0; 183; 0; 1; 0; 0; 0] ++
  [0; 0; 1; 0; 0; 0; 0; 0] ++ [64; 0; 0; 0; 0; 0; 0; 0] ++ replicate 8 0 ++ [0; 0; 0; 0; 64; 0; 56; 0; 1; 0; 64; 0; 0; 0; 0; 0] ++
  [1; 0; 0; 0; 5; 0; 0; 0] ++ [120; 0; 0; 0; 0; 0; 0; 0] ++ [0; 0; 1; 0; 0; 0; 0; 0] ++ replicate 8 0 ++
  [3; 0; 0; 0; 0; 0; 0; 0] ++ [16; 0; 0; 0; 0; 0; 0; 0] ++ replicate 8 0 ++ [11; 22; 33].
Definition exl_data : Z := PHYS_OFFSET + 0x1000.
Definition exl_ram : mem := λ x,
  if (0x1000 <=? x) && (x <? 0x1000 + 123) then nth (Z.to_nat (x - 0x1000)) exl_bytes 0 else ex_ram x.
Definition exl_pmm : pmm :=
  mk_pmm [3; 4; 5; 0; 0; 0] 3 6 3 false (6 * 4096) (PHY_RAM_BASE + 6 * 4096) 6 (Some [1; 1; 1; 0; 0; 0]).
Definition exl_state : vmst pmm :=
  mk_vmst (mk_vmm exl_ram exl_pmm (P2V (ex_frame 0)) (ex_frame 0) true false) ∅ {[1 := mk_mm (ex_frame 0) 0 0 0 0 0]} false [16].
Definition exl_phdr : elf64_phdr := mk_phdr 1 5 120 0x10000 3 16.

Lemma exl_pmm_inv : pmm_inv exl_pmm.
Proof.
  split; try done.
  all: try by apply (bool_decide_unpack _).
  all: try (intros f Hf; cbn in Hf; repeat (apply elem_of_cons in Hf as [->|Hf]; [by split|]);
    by apply not_elem_of_nil in Hf).
  intros f r Hr; pose proof (zget_Some_range _ _ _ Hr) as Hf; simpl in Hf;
    assert (f = 0 ∨ f = 1 ∨ f = 2 ∨ f = 3 ∨ f = 4 ∨ f = 5) as [-> |[-> |[-> |[-> |[-> | ->]]]]] by lia;
    vm_compute in Hr; simplify_eq; lia.
Qed.
Lemma exl_ram_high x : 0x2000 <= x → exl_ram x = ex_ram x.
Proof. intros Hx. unfold exl_ram. by rewrite (proj2 (Z.ltb_ge x _)), andb_false_r by lia. Qed.
Lemma exl_vm_ok : vm_ok (pt exl_state).
Proof.
  split; [apply exl_pmm_inv|]. intros x. simpl. unfold exl_ram. case_match; [|apply ex_ram_ok].
  assert (Hall : Forall (λ b, 0 <= b < 256) exl_bytes) by (apply (bool_decide_unpack _); by vm_compute).
  destruct (nth_in_or_default (Z.to_nat (x - 0x1000)) exl_bytes 0) as [Hin| ->]; [|lia].
  eapply Forall_forall in Hall; [exact Hall|]. by apply list_elem_of_In.
Qed.
Lemma exl_frame f : frame_of (pt exl_state) f → 0x2000 <= f.
Proof. intros (i & Hi & ->). unfold PHY_RAM_BASE, PAGE_SIZE in *. simpl in Hi. lia. Qed.
Lemma exl_pt_ok : pt_ok (pt exl_state) (ex_frame 0) {[ex_frame 1]} {[ex_frame 2]}.
Proof.
  apply (pt_ok_same (ex_vmm [4; 5] 0)); [| |apply ex_pt_ok].
  - assert (Hone : ∀ i, 0 <= i < 3 → frame_of (pt exl_state) (ex_frame i) ∧ 0 < refs_of (pt exl_state) (ex_frame i)).
    { intros i Hi. split; [exists i; split; [simpl; lia|done]|]. assert (i = 0 ∨ i = 1 ∨ i = 2) as [-> |[-> | ->]] by lia; by vm_compute. }
    intros t Ht _ _. assert (t = ex_frame 0 ∨ t = ex_frame 1 ∨ t = ex_frame 2) as [-> |[-> | ->]] by set_solver; by apply Hone.
  - intros t i Ht Hi. apply load_le_ext. intros x Hx. apply exl_ram_high.
    assert (t = ex_frame 0 ∨ t = ex_frame 1) as [-> | ->] by set_solver; unfold ex_frame, PHY_RAM_BASE, PAGE_SIZE in Hx; lia.
Qed.

