(* ===== verification/Heap.v ===== *)
(** The kernel heap, [kernel/mm/heap.c]: a slab allocator over a region of
    pages.  Slab headers ([slab_t], at the start of their page) are a store of
    records by page address; the bytes of the objects and of large blocks are
    a byte memory, in which free objects are linked through their first word.
    The theorems: [kmalloc] returns a block disjoint from every live block and
    [kfree] releases exactly one, both keeping the allocator's invariant. *)
From S2P Require Export Prelude Memory DList.
From S2P Require Import KString.
From Stdlib Require Import Sorted.

Module Heap.

Definition PAGE_SIZE : Z := 4096.
Definition HEAP_ALIGN : Z := 8.
Definition SLAB_MAGIC : Z := 0x51AB51AB.
Definition SIZEOF_SLAB : Z := 40.
Definition SIZEOF_PAGE_INFO : Z := 4.
Definition slab_sizes : list Z := [16; 32; 64; 128; 256; 512; 1024; 2048].

Inductive page_type := PAGE_TYPE_FREE | PAGE_TYPE_SLAB | PAGE_TYPE_LARGE.
#[export] Instance page_type_eq_dec : EqDecision page_type.
Proof. solve_decision. Defined.

Record page_info := mk_page_info { pi_type : page_type; pi_count : Z }.

(** [struct slab]; the back pointer to a cache is its index in [caches]. *)
Record slab := mk_slab {
  sl_next : Z; sl_prev : Z; sl_cache : option Z; sl_free_list : Z; sl_in_use : Z; sl_magic : Z;
}.
Definition set_sl_next v x := mk_slab v (sl_prev x) (sl_cache x) (sl_free_list x) (sl_in_use x) (sl_magic x).
Definition set_sl_prev v x := mk_slab (sl_next x) v (sl_cache x) (sl_free_list x) (sl_in_use x) (sl_magic x).
Definition set_sl_free_list v x := mk_slab (sl_next x) (sl_prev x) (sl_cache x) v (sl_in_use x) (sl_magic x).
Definition set_sl_in_use v x := mk_slab (sl_next x) (sl_prev x) (sl_cache x) (sl_free_list x) v (sl_magic x).

Record kmem_cache := mk_cache {
  slabs_partial : Z; slabs_full : Z; slabs_free : Z; obj_size : Z;
}.
Definition set_partial v c := mk_cache v (slabs_full c) (slabs_free c) (obj_size c).
Definition set_full v c := mk_cache (slabs_partial c) v (slabs_free c) (obj_size c).
Definition set_free v c := mk_cache (slabs_partial c) (slabs_full c) v (obj_size c).

(** The file's static variables, the slab headers and the bytes. *)
Record heap := mk_heap {
  heap_lock : bool;
  heap_start_addr : Z;
  heap_end_addr : Z;
  page_metadata : option (list page_info);
  total_pages : Z;
  caches : list kmem_cache;
  slabs : gmap Z slab;
  bytes : mem;
}.
Definition set_heap_lock v s := mk_heap v (heap_start_addr s) (heap_end_addr s) (page_metadata s)
  (total_pages s) (caches s) (slabs s) (bytes s).
Definition set_range a e s := mk_heap (heap_lock s) a e (page_metadata s) (total_pages s) (caches s) (slabs s) (bytes s).
Definition set_page_metadata v s := mk_heap (heap_lock s) (heap_start_addr s) (heap_end_addr s) v
  (total_pages s) (caches s) (slabs s) (bytes s).
Definition set_total_pages v s := mk_heap (heap_lock s) (heap_start_addr s) (heap_end_addr s)
  (page_metadata s) v (caches s) (slabs s) (bytes s).
Definition set_caches v s := mk_heap (heap_lock s) (heap_start_addr s) (heap_end_addr s)
  (page_metadata s) (total_pages s) v (slabs s) (bytes s).
Definition set_slabs v s := mk_heap (heap_lock s) (heap_start_addr s) (heap_end_addr s)
  (page_metadata s) (total_pages s) (caches s) v (bytes s).
Definition set_bytes v s := mk_heap (heap_lock s) (heap_start_addr s) (heap_end_addr s)
  (page_metadata s) (total_pages s) (caches s) (slabs s) v.

Local Open Scope prog_scope.

Definition heap_acquire : M heap unit := spin_acquire heap_lock set_heap_lock.
Definition heap_release : M heap unit := spin_release set_heap_lock.

Definition get_page (i : Z) : M heap page_info := λ s,
  match page_metadata s with Some l => of_opt (zget l i) s | None => Fault end.
Definition put_page (i : Z) (p : page_info) : M heap unit := λ s,
  match page_metadata s with
  | Some l => match zset l i p with
              | Some l' => Done (tt, set_page_metadata (Some l') s)
              | None => Fault
              end
  | None => Fault
  end.
Definition get_slab (a : Z) : M heap slab := λ s, of_opt (slabs s !! a) s.
Definition mod_slab (a : Z) (f : slab → slab) : M heap unit := λ s,
  match slabs s !! a with
  | Some x => Done (tt, set_slabs (<[a := f x]> (slabs s)) s)
  | None => Fault
  end.
Definition get_cache (i : Z) : M heap kmem_cache := λ s, of_opt (zget (caches s) i) s.
Definition mod_cache (i : Z) (f : kmem_cache → kmem_cache) : M heap unit := λ s,
  match zget (caches s) i with
  | Some c => match zset (caches s) i (f c) with
              | Some l => Done (tt, set_caches l s)
              | None => Fault
              end
  | None => Fault
  end.
Definition read_word (a : Z) : M heap Z := gets (λ s, load64 (bytes s) a).
Definition write_word (a v : Z) : M heap unit := modify (λ s, set_bytes (store64 (bytes s) a v) s).

Definition align_up (n align : Z) : Z := andnot (u64 (n + align - 1)) (align - 1).

Definition virt_to_page_idx (s : heap) (addr : Z) : Z :=
  if (addr <? heap_start_addr s) || (heap_end_addr s <=? addr) then U32_MAX
  else u32 ((addr - heap_start_addr s) / PAGE_SIZE).
Definition page_idx_to_virt (s : heap) (idx : Z) : Z := u64 (heap_start_addr s + idx * PAGE_SIZE).

(** [alloc_pages_backend]: the scan for a free run, with [idxs] the indices
    still to visit, then the marking of its pages. *)
Definition mark_pages (start_idx num_pages : Z) (type : page_type) : M heap unit :=
  for_each (λ j, put_page (u32 (start_idx + j)) (mk_page_info type (if j =? 0 then u16 num_pages else 0)))
    (seqZ 0 num_pages).
Fixpoint scan_pages (idxs : list Z) (free_run start_idx num_pages : Z) (type : page_type) : M heap Z :=
  match idxs with
  | [] => ret 0
  | i :: idxs' =>
      p <- get_page i;;
      if decide (pi_type p = PAGE_TYPE_FREE) then
        let start_idx := if free_run =? 0 then i else start_idx in
        let free_run := u32 (free_run + 1) in
        if free_run =? num_pages then
          mark_pages start_idx num_pages type;;;
          gets (λ s, page_idx_to_virt s start_idx)
        else scan_pages idxs' free_run start_idx num_pages type
      else scan_pages idxs' 0 start_idx num_pages type
  end.
Definition alloc_pages_backend (num_pages : Z) (type : page_type) : M heap Z :=
  n <- gets total_pages;;
  scan_pages (seqZ 0 n) 0 U32_MAX num_pages type.

Definition free_pages_backend (ptr : Z) : M heap unit :=
  idx <- gets (λ s, virt_to_page_idx s ptr);;
  n <- gets total_pages;;
  if n <=? idx then ret tt
  else
    p <- get_page idx;;
    if pi_count p =? 0 then ret tt
    else for_each (λ i, if u32 (idx + i) <? n then put_page (u32 (idx + i)) (mk_page_info PAGE_TYPE_FREE 0)
                        else ret tt) (seqZ 0 (pi_count p)).

(** [slab_init_page]; the loop links [n] objects from [curr] on. *)
Fixpoint link_objs (n : nat) (curr size : Z) : M heap Z :=
  match n with
  | O => ret curr
  | S n' => write_word curr (curr + size);;; link_objs n' (curr + size) size
  end.
Definition slab_init_page (a c : Z) : M heap unit :=
  k <- get_cache c;;
  let start := align_up (a + SIZEOF_SLAB) HEAP_ALIGN in
  let available := PAGE_SIZE - (start - a) in
  let max_objs := available / obj_size k in
  modify (λ s, set_slabs (<[a := mk_slab 0 0 (Some c) start 0 SLAB_MAGIC]> (slabs s)) s);;;
  curr <- link_objs (Z.to_nat (max_objs - 1)) start (obj_size k);;
  write_word curr 0.

(** The list operations of [cache_alloc] and [cache_free] on a slab [a]: taking
    it off a list whose head is read and written by [get] and [put], and
    pushing it on its front. *)
Definition unlink_slab (c a : Z) (put : Z → kmem_cache → kmem_cache) : M heap unit :=
  x <- get_slab a;;
  (if negb (sl_prev x =? 0) then mod_slab (sl_prev x) (set_sl_next (sl_next x))
   else mod_cache c (put (sl_next x)));;;
  x <- get_slab a;;
  if negb (sl_next x =? 0) then mod_slab (sl_next x) (set_sl_prev (sl_prev x)) else ret tt.
Definition push_slab (c a : Z) (get : kmem_cache → Z) (put : Z → kmem_cache → kmem_cache) : M heap unit :=
  k <- get_cache c;;
  mod_slab a (set_sl_next (get k));;;
  mod_slab a (set_sl_prev 0);;;
  (if negb (get k =? 0) then mod_slab (get k) (set_sl_prev a) else ret tt);;;
  mod_cache c (put a).

(** The slab [cache_alloc] takes an object from: the first partial one, or a
    new partial one; 0 when there is no page left. *)
Definition alloc_slab (c : Z) : M heap Z :=
  k <- get_cache c;;
  if negb (slabs_partial k =? 0) then ret (slabs_partial k)
  else
    a <- (if negb (slabs_free k =? 0) then
            x <- get_slab (slabs_free k);;
            mod_cache c (set_free (sl_next x));;;
            (if negb (sl_next x =? 0) then mod_slab (sl_next x) (set_sl_prev 0) else ret tt);;;
            ret (slabs_free k)
          else
            a <- alloc_pages_backend 1 PAGE_TYPE_SLAB;;
            if a =? 0 then ret 0 else slab_init_page a c;;; ret a);;
    if a =? 0 then ret 0
    else push_slab c a slabs_partial set_partial;;; ret a.
(** Taking the first free object of slab [a]; a slab left without free objects
    moves to the list of full slabs. *)
Definition take_obj (c a : Z) : M heap Z :=
  x <- get_slab a;;
  let obj := sl_free_list x in
  next <- read_word obj;;
  mod_slab a (set_sl_free_list next);;;
  mod_slab a (λ x, set_sl_in_use (u32 (sl_in_use x + 1)) x);;;
  (if next =? 0 then unlink_slab c a set_partial;;; push_slab c a slabs_full set_full else ret tt);;;
  ret obj.
Definition cache_alloc (c : Z) : M heap Z :=
  a <- alloc_slab c;;
  if a =? 0 then ret 0 else take_obj c a.

Definition cache_free (c ptr : Z) : M heap unit :=
  let a := andnot ptr (PAGE_SIZE - 1) in
  x <- get_slab a;;
  if negb (sl_magic x =? SLAB_MAGIC) then ret tt
  else
    let was_full := sl_free_list x =? 0 in
    write_word ptr (sl_free_list x);;;
    mod_slab a (set_sl_free_list ptr);;;
    mod_slab a (set_sl_in_use (u32 (sl_in_use x - 1)));;;
    if u32 (sl_in_use x - 1) =? 0 then
      (if was_full then unlink_slab c a set_full else unlink_slab c a set_partial);;;
      free_pages_backend a
    else if was_full then unlink_slab c a set_full;;; push_slab c a slabs_partial set_partial
    else ret tt.

(** [heap_init]; [page_metadata] covers the metadata pages themselves. *)
Definition heap_init (start size : Z) : M heap unit :=
  let aligned_start := andnot (u64 (start + PAGE_SIZE - 1)) (PAGE_SIZE - 1) in
  let diff := u64 (aligned_start - start) in
  if size <? diff then ret tt
  else
    let size := size - diff in
    modify (set_total_pages (u32 (size / PAGE_SIZE)));;;
    n <- gets total_pages;;
    if n =? 0 then ret tt
    else
      modify (set_range aligned_start (u64 (aligned_start + u32 (n * PAGE_SIZE))));;;
      let meta_size := n * SIZEOF_PAGE_INFO in
      let meta_pages := (meta_size + PAGE_SIZE - 1) / PAGE_SIZE in
      if n <=? meta_pages then ret tt
      else
        modify (set_page_metadata (Some (replicate (Z.to_nat n) (mk_page_info PAGE_TYPE_FREE 0))));;;
        for_each (λ i, put_page i (mk_page_info PAGE_TYPE_LARGE 1)) (seqZ 0 meta_pages);;;
        modify (set_caches (map (λ sz, mk_cache 0 0 0 sz) slab_sizes)).

(** [kmalloc]: the first cache whose objects are large enough. *)
Fixpoint choose_cache (cs : list kmem_cache) (i size : Z) : option Z :=
  match cs with
  | [] => None
  | k :: cs' => if size <=? obj_size k then Some i else choose_cache cs' (i + 1) size
  end.
Definition kmalloc (size : Z) : M heap Z :=
  if size =? 0 then ret 0
  else
    heap_acquire;;;
    ptr <- (if size <=? 2048 then
              o <- gets (λ s, choose_cache (caches s) 0 size);;
              match o with Some c => cache_alloc c | None => ret 0 end
            else alloc_pages_backend (u64 (size + PAGE_SIZE - 1) / PAGE_SIZE) PAGE_TYPE_LARGE);;
    heap_release;;;
    ret ptr.

Definition kfree (ptr : Z) : M heap unit :=
  if ptr =? 0 then ret tt
  else
    heap_acquire;;;
    idx <- gets (λ s, virt_to_page_idx s ptr);;
    n <- gets total_pages;;
    (if idx <? n then
       p <- get_page idx;;
       match pi_type p with
       | PAGE_TYPE_SLAB =>
           x <- get_slab (andnot ptr (PAGE_SIZE - 1));;
           match sl_cache x with Some c => cache_free c ptr | None => ret tt end
       | PAGE_TYPE_LARGE => free_pages_backend ptr
       | PAGE_TYPE_FREE => ret tt
       end
     else ret tt);;;
    heap_release.

Definition kcalloc (num size : Z) : M heap Z :=
  let total := u64 (num * size) in
  ptr <- kmalloc total;;
  (if negb (ptr =? 0) then modify (λ s, set_bytes (memset (bytes s) ptr 0 total) s) else ret tt);;;
  ret ptr.

Definition block_size (ptr : Z) : M heap Z :=
  idx <- gets (λ s, virt_to_page_idx s ptr);;
  n <- gets total_pages;;
  if idx <? n then
    p <- get_page idx;;
    match pi_type p with
    | PAGE_TYPE_SLAB =>
        x <- get_slab (andnot ptr (PAGE_SIZE - 1));;
        match sl_cache x with Some c => k <- get_cache c;; ret (obj_size k) | None => ret 0 end
    | PAGE_TYPE_LARGE => ret (pi_count p * PAGE_SIZE)
    | PAGE_TYPE_FREE => ret 0
    end
  else ret 0.
Definition krealloc (ptr new_size : Z) : M heap Z :=
  if ptr =? 0 then kmalloc new_size
  else if new_size =? 0 then kfree ptr;;; ret 0
  else
    heap_acquire;;;
    old_size <- block_size ptr;;
    heap_release;;;
    if new_size <=? old_size then ret ptr
    else
      new_ptr <- kmalloc new_size;;
      (if negb (new_ptr =? 0) then
         modify (λ s, set_bytes (memcpy (bytes s) new_ptr ptr old_size) s);;; kfree ptr
       else ret tt);;;
      ret new_ptr.

(** ** Page runs *)

Lemma get_page_Done s l i p : page_metadata s = Some l → zget l i = Some p → get_page i s = Done (p, s).
Proof. unfold get_page. intros -> H. by rewrite H. Qed.
Lemma put_page_Done s l i p : page_metadata s = Some l → 0 <= i < Z.of_nat (length l) →
  put_page i p s = Done (tt, set_page_metadata (Some (<[Z.to_nat i := p]> l)) s).
Proof. unfold put_page. intros -> H. by rewrite (zset_is_Some l i p H). Qed.

(** The page map [l] with [n] pages from [st] on rewritten by [f]. *)
Definition rewritten (l l' : list page_info) (st n : Z) (f : Z → page_info) : Prop :=
  length l' = length l ∧
  ∀ j, zget l' j = if decide (st <= j < st + n) then Some (f j) else zget l j.

Lemma rewrite_pages (body : Z → M heap unit) f st n s l :
  page_metadata s = Some l → 0 <= st → 0 <= n → st + n <= Z.of_nat (length l) →
  (∀ s1 l1 j, page_metadata s1 = Some l1 → length l1 = length l → total_pages s1 = total_pages s →
     heap_start_addr s1 = heap_start_addr s → 0 <= j < n →
     body j s1 = Done (tt, set_page_metadata (Some (<[Z.to_nat (st + j) := f (st + j)]> l1)) s1)) →
  ∃ l', for_each body (seqZ 0 n) s = Done (tt, set_page_metadata (Some l') s) ∧ rewritten l l' st n f.
Proof.
  intros Hl Hst Hn Hlen Hb.
  assert (∀ k, (k <= Z.to_nat n)%nat → ∃ l', for_each body (seqZ 0 (Z.of_nat k)) s =
    Done (tt, set_page_metadata (Some l') s) ∧ rewritten l l' st (Z.of_nat k) f) as H.
  { induction k as [|k IH]; intros Hk.
    - exists l. split; [|split; [done|]]; [simpl; unfold ret; by destruct s; simpl in *; subst|].
      intros j. by rewrite decide_False by lia.
    - destruct IH as (l1 & Hrun & Hle & Hg); [lia|].
      replace (Z.of_nat (S k)) with (Z.of_nat k + 1) by lia. rewrite seqZ_snoc by lia.
      rewrite for_each_app. mstep Hrun. simpl. set (s1 := set_page_metadata _ _).
      erewrite bind_Done by (apply (Hb s1 l1); [done|done|done|done|lia]).
      eexists. split; [done|]. split; [rewrite length_insert; done|]. intros j.
      destruct (decide (0 <= j)) as [Hj|Hj].
      + rewrite zget_insert by lia. rewrite Hg. replace (st + (0 + Z.of_nat k)) with (st + Z.of_nat k) by lia.
        case_decide as He; [subst j; by rewrite decide_True by lia|].
        destruct (decide (st <= j < st + Z.of_nat k)); [by rewrite decide_True by lia|by rewrite decide_False by lia].
      + unfold zget. rewrite !(decide_False (P := 0 <= j)) by done. by rewrite decide_False by lia. }
  destruct (H (Z.to_nat n) ltac:(lia)) as (l' & Hrun & Hr). rewrite Z2Nat.id in * by done. by exists l'.
Qed.

Definition page_at (l : list page_info) (j : Z) : page_type := from_option pi_type PAGE_TYPE_LARGE (zget l j).
(** [n] free pages from [st] on. *)
Definition run_free (l : list page_info) (st n : Z) : Prop := ∀ j, st <= j < st + n → page_at l j = PAGE_TYPE_FREE.

Lemma page_at_range l j : page_at l j = PAGE_TYPE_FREE → 0 <= j < Z.of_nat (length l).
Proof. unfold page_at. destruct (zget l j) eqn:H; [|done]. intros _. by apply zget_Some_range in H. Qed.

Definition marked (l l' : list page_info) (st n : Z) (type : page_type) : Prop :=
  rewritten l l' st n (λ j, mk_page_info type (if j =? st then n else 0)).

Lemma mark_pages_ok s l st n type :
  page_metadata s = Some l → 0 <= st → 0 < n < 65536 → st + n <= Z.of_nat (length l) → Z.of_nat (length l) < 2 ^ 31 →
  ∃ l', mark_pages st n type s = Done (tt, set_page_metadata (Some l') s) ∧ marked l l' st n type.
Proof.
  intros Hl Hst Hn Hlen Hmax. apply rewrite_pages; [done|done|lia|done|].
  intros s1 l1 j Hl1 Hle _ _ Hj. rewrite u32_id by lia. rewrite (put_page_Done s1 l1) by (try done; lia).
  rewrite u16_id by lia. destruct (Z.eqb_spec j 0), (Z.eqb_spec (st + j) st); try lia; done.
Qed.

(** The scan finds the lowest free run, and fails only if there is none. *)
Definition first_run (l : list page_info) (n st : Z) : Prop :=
  run_free l st n ∧ ∀ x, 0 <= x → run_free l x n → st <= x.

Lemma scan_pages_ok s l n type :
  page_metadata s = Some l → 0 < n < 65536 → Z.of_nat (length l) < 2 ^ 31 → ∀ m i r st,
  i + Z.of_nat m = Z.of_nat (length l) → 0 <= r < n → 0 <= i - r → (r ≠ 0 → st = i - r) → run_free l (i - r) r →
  (∀ x, 0 <= x < i - r → ¬ run_free l x n) →
  (∃ st' l', scan_pages (seqZ i (Z.of_nat m)) r st n type s =
     Done (page_idx_to_virt s st', set_page_metadata (Some l') s) ∧ first_run l n st' ∧
     0 <= st' ∧ st' + n <= Z.of_nat (length l) ∧ marked l l' st' n type) ∨
  (scan_pages (seqZ i (Z.of_nat m)) r st n type s = Done (0, s) ∧ ∀ x, 0 <= x → ¬ run_free l x n).
Proof.
  intros Hl Hn Hmax. induction m as [|m IH]; intros i r st Him Hr Hir Hst Hrun Hno.
  - right. split; [done|]. intros x Hx Hf. destruct (decide (x < i - r)); [by apply (Hno x)|].
    specialize (Hf (Z.max x (Z.of_nat (length l))) ltac:(lia)). apply page_at_range in Hf. lia.
  - replace (Z.of_nat (S m)) with (Z.succ (Z.of_nat m)) by lia. rewrite seqZ_cons by lia.
    cbn [scan_pages]. rewrite Z.pred_succ.
    destruct (zget_is_Some l i ltac:(lia)) as [p Hp]. mstep (get_page_Done s l i p Hl Hp).
    assert (page_at l i = pi_type p) as Hpt by (unfold page_at; by rewrite Hp).
    destruct (decide (pi_type p = PAGE_TYPE_FREE)) as [Hf|Hf].
    + assert (Hrun' : run_free l (i - r) (r + 1)).
      { intros j Hj. destruct (decide (j = i)) as [->|]; [by rewrite Hpt|]. apply Hrun. lia. }
      rewrite u32_id by lia. destruct (Z.eqb_spec (r + 1) n) as [He|He].
      * set (st' := if r =? 0 then i else st). assert (st' = i - r) as ->.
        { subst st'. destruct (Z.eqb_spec r 0); [lia|auto]. }
        left. destruct (mark_pages_ok s l (i - r) n type Hl Hir Hn ltac:(lia) Hmax) as (l' & Hm & Hmk).
        mstep Hm. exists (i - r), l'. split; [done|]. split; [|split; [done|split; [lia|done]]].
        split; [by rewrite <- He|]. intros x Hx Hxf. destruct (decide (x < i - r)); [|lia]. exfalso. by apply (Hno x).
      * apply IH; [lia|lia|lia| |by replace (Z.succ i - (r + 1)) with (i - r) by lia|].
        -- intros _. destruct (Z.eqb_spec r 0); [lia|]. rewrite Hst by done. lia.
        -- intros x Hx. apply Hno. lia.
    + apply IH; [lia|lia|lia|done| |].
      * intros j Hj. lia.
      * intros x Hx Hxf. destruct (decide (x < i - r)) as [Hlt|Hlt]; [apply (Hno x); [lia|done]|].
        apply Hf. rewrite <- Hpt. apply Hxf. lia.
Qed.

Lemma alloc_pages_ok s l n type :
  page_metadata s = Some l → total_pages s = Z.of_nat (length l) → 0 < n < 65536 → Z.of_nat (length l) < 2 ^ 31 →
  (∃ st l', alloc_pages_backend n type s = Done (page_idx_to_virt s st, set_page_metadata (Some l') s) ∧
     first_run l n st ∧ 0 <= st ∧ st + n <= Z.of_nat (length l) ∧ marked l l' st n type) ∨
  (alloc_pages_backend n type s = Done (0, s) ∧ ∀ x, 0 <= x → ¬ run_free l x n).
Proof.
  intros Hl Htot Hn Hmax. unfold alloc_pages_backend. unfold bind, gets. rewrite Htot.
  apply (scan_pages_ok s l n type Hl Hn Hmax (length l) 0 0 U32_MAX); try lia. intros j Hj. lia.
Qed.

(** The page map: a block of [k] pages is a head with count [k] followed by
    pages of the same type with count 0; free pages have count 0. *)
Definition meta_ok (l : list page_info) : Prop := ∀ i p, zget l i = Some p →
  0 <= pi_count p < 65536 ∧ (pi_type p = PAGE_TYPE_FREE → pi_count p = 0) ∧
  (0 < pi_count p → i + pi_count p <= Z.of_nat (length l) ∧
     ∀ j, i < j < i + pi_count p → zget l j = Some (mk_page_info (pi_type p) 0)).

Lemma marked_meta_ok l l' st n type : meta_ok l → run_free l st n → 0 < n < 65536 → 0 <= st →
  st + n <= Z.of_nat (length l) → type ≠ PAGE_TYPE_FREE → marked l l' st n type → meta_ok l'.
Proof.
  intros Hok Hf Hn Hst Hlen Ht [Hle Hg] i p Hp. rewrite Hg in Hp. case_decide as Hi.
  - injection Hp as <-. simpl. split; [case_match; lia|]. split; [done|]. rewrite Hle.
    destruct (Z.eqb_spec i st) as [->|]; [|lia]. intros _. split; [lia|]. intros j Hj.
    rewrite Hg, decide_True by lia. by rewrite (proj2 (Z.eqb_neq j st)) by lia.
  - destruct (Hok i p Hp) as (H1 & H2 & H3). split; [done|]. split; [done|]. intros Hc.
    destruct (H3 Hc) as [H4 H5]. rewrite Hle. split; [done|]. intros j Hj. rewrite Hg.
    rewrite decide_False; [by apply H5|]. intros Hj2. specialize (H5 j Hj). specialize (Hf j Hj2).
    unfold page_at in Hf. rewrite H5 in Hf. simpl in Hf. specialize (H2 Hf). lia.
Qed.

Lemma freed_meta_ok l l' i p : meta_ok l → zget l i = Some p → 0 < pi_count p →
  rewritten l l' i (pi_count p) (λ _, mk_page_info PAGE_TYPE_FREE 0) → meta_ok l'.
Proof.
  intros Hok Hi Hc [Hle Hg] j q Hq. rewrite Hg in Hq. destruct (Hok i p Hi) as (_ & _ & Hb).
  destruct (Hb Hc) as [Hb1 Hb2]. case_decide as Hj.
  - injection Hq as <-. simpl. split; [lia|]. split; [done|lia].
  - destruct (Hok j q Hq) as (H1 & H2 & H3). split; [done|]. split; [done|]. intros Hcq.
    destruct (H3 Hcq) as [H4 H5]. rewrite Hle. split; [done|]. intros x Hx. rewrite Hg.
    rewrite decide_False; [by apply H5|]. intros Hx2. destruct (decide (j < i)).
    + specialize (H5 i ltac:(lia)). rewrite Hi in H5. injection H5 as ->. simpl in Hc. lia.
    + lia.
Qed.

(** ** Geometry of slabs *)

Definition obj_of (c : Z) : Z := default 0 (zget slab_sizes c).
Definition max_objs (c : Z) : Z := (PAGE_SIZE - SIZEOF_SLAB) / obj_of c.
Definition obj_addr (a c k : Z) : Z := a + SIZEOF_SLAB + k * obj_of c.
(** The objects of slab [a] of cache [c]. *)
Definition objs (a c : Z) : list Z := map (obj_addr a c) (seqZ 0 (max_objs c)).

Lemma cache_geometry c : 0 <= c < 8 →
  16 <= obj_of c <= 2048 ∧ obj_of c mod 8 = 0 ∧ 1 <= max_objs c <= 253 ∧
  SIZEOF_SLAB + max_objs c * obj_of c <= PAGE_SIZE.
Proof.
  intros Hc. assert (c ∈ seqZ 0 8) as Hin by (apply elem_of_seqZ; lia). revert c Hc Hin.
  assert (Forall (λ c, 16 <= obj_of c <= 2048 ∧ obj_of c mod 8 = 0 ∧ 1 <= max_objs c <= 253 ∧
    SIZEOF_SLAB + max_objs c * obj_of c <= PAGE_SIZE) (seqZ 0 8)) as H by (by apply (bool_decide_unpack _)).
  rewrite Forall_forall in H. auto.
Qed.

Lemma elem_of_objs a c o : o ∈ objs a c ↔ ∃ k, 0 <= k < max_objs c ∧ o = obj_addr a c k.
Proof.
  unfold objs. rewrite list_elem_of_fmap. setoid_rewrite elem_of_seqZ. split.
  - intros (k & -> & Hk). exists k. split; [lia|done].
  - intros (k & Hk & ->). exists k. split; [done|lia].
Qed.

Lemma objs_range a c o : 0 <= c < 8 → o ∈ objs a c → a + SIZEOF_SLAB <= o ∧ o + obj_of c <= a + PAGE_SIZE.
Proof.
  intros Hc (k & Hk & ->)%elem_of_objs. destruct (cache_geometry c Hc) as (H1 & _ & _ & H3).
  unfold obj_addr. nia.
Qed.

Lemma objs_disjoint a c o o' : 0 <= c < 8 → o ∈ objs a c → o' ∈ objs a c → o ≠ o' →
  o + obj_of c <= o' ∨ o' + obj_of c <= o.
Proof.
  intros Hc (k & Hk & ->)%elem_of_objs (k' & Hk' & ->)%elem_of_objs Hne.
  destruct (cache_geometry c Hc) as (H1 & _). unfold obj_addr in *.
  assert (k ≠ k') by (intros ->; done). destruct (decide (k < k')); [left|right]; nia.
Qed.

Lemma objs_nodup a c : 0 <= c < 8 → NoDup (objs a c).
Proof.
  intros Hc. unfold objs. apply NoDup_fmap_2_strong; [|apply NoDup_seqZ].
  intros x y _ _ H. unfold obj_addr in H. destruct (cache_geometry c Hc) as (H1 & _). nia.
Qed.

Lemma objs_length a c : 0 <= c < 8 → Z.of_nat (length (objs a c)) = max_objs c.
Proof.
  intros Hc. unfold objs. rewrite length_map, length_seqZ. destruct (cache_geometry c Hc) as (_ & _ & H & _). lia.
Qed.

(** The page of an object. *)
Lemma objs_page a c o : 0 <= c < 8 → a mod PAGE_SIZE = 0 → o ∈ objs a c → andnot o (PAGE_SIZE - 1) = a.
Proof.
  intros Hc Ha Ho. apply objs_range in Ho; [|done]. change (PAGE_SIZE - 1) with (2 ^ 12 - 1).
  rewrite andnot_ones by lia. destruct (cache_geometry c Hc) as (H1 & _). unfold PAGE_SIZE, SIZEOF_SLAB in *. zlia.
Qed.

(** ** The invariant *)

(** For each cache its partial and full slabs, for each slab its free objects. *)
Record ghost := mk_ghost { gP : Z → list Z; gF : Z → list Z; gL : Z → list Z }.

Definition nx (s : heap) (a : Z) : Z := from_option sl_next 0 (slabs s !! a).
Definition pv (s : heap) (a : Z) : Z := from_option sl_prev 0 (slabs s !! a).
Definition dl (s : heap) (h : Z) (l : list Z) : Prop := dlist (nx s) (pv s) h (lastZ 0 l) l.
Definition score (x : slab) : slab := set_sl_next 0 (set_sl_prev 0 x).

Definition page_of (s : heap) (a : Z) : Z := (a - heap_start_addr s) / PAGE_SIZE.
Definition meta (s : heap) : list page_info := default [] (page_metadata s).

(** Slab [a] of cache [c], with its free objects linked in the order [L]. *)
Record slab_ok (s : heap) (c a : Z) (L : list Z) : Prop := mk_slab_ok {
  so_hdr : ∃ x, slabs s !! a = Some x ∧ sl_magic x = SLAB_MAGIC ∧ sl_cache x = Some c ∧
    sl_free_list x = hdZ 0 L ∧ sl_in_use x = max_objs c - Z.of_nat (length L);
  so_chain : chain (load64 (bytes s)) L 0;
  so_nodup : NoDup L;
  so_objs : ∀ o, o ∈ L → o ∈ objs a c;
  so_page : a mod PAGE_SIZE = 0 ∧ heap_start_addr s <= a < heap_end_addr s ∧
    zget (meta s) (page_of s a) = Some (mk_page_info PAGE_TYPE_SLAB 1);
}.

Record heap_inv (s : heap) (G : ghost) : Prop := mk_heap_inv {
  hi_range : heap_start_addr s mod PAGE_SIZE = 0 ∧ 0 < heap_start_addr s ∧
    heap_end_addr s = heap_start_addr s + total_pages s * PAGE_SIZE ∧ heap_end_addr s <= 2 ^ 63 ∧
    total_pages s < 65536;
  hi_meta : page_metadata s = Some (meta s) ∧ total_pages s = Z.of_nat (length (meta s)) ∧ meta_ok (meta s);
  hi_len : length (caches s) = 8%nat;
  hi_cache : ∀ c, 0 <= c < 8 → ∃ k, zget (caches s) c = Some k ∧ obj_size k = obj_of c ∧ slabs_free k = 0 ∧
    dl s (slabs_partial k) (gP G c) ∧ dl s (slabs_full k) (gF G c);
  hi_slab : ∀ c a, 0 <= c < 8 → a ∈ gP G c ++ gF G c → slab_ok s c a (gL G a);
  hi_partial : ∀ c a, 0 <= c < 8 → a ∈ gP G c → gL G a ≠ [];
  hi_full : ∀ c a, 0 <= c < 8 → a ∈ gF G c → gL G a = [];
}.

(** The live blocks and their sizes: the allocated objects of slabs, and the
    large blocks. *)
Definition live (s : heap) (G : ghost) (p n : Z) : Prop :=
  (∃ c a, 0 <= c < 8 ∧ a ∈ gP G c ++ gF G c ∧ p ∈ objs a c ∧ (p ∉ gL G a) ∧ n = obj_of c) ∨
  (∃ i k, zget (meta s) i = Some (mk_page_info PAGE_TYPE_LARGE k) ∧ 0 < k ∧
     p = heap_start_addr s + i * PAGE_SIZE ∧ n = k * PAGE_SIZE).

(** ** The lists of slabs *)

Lemma get_slab_Done s a x : slabs s !! a = Some x → get_slab a s = Done (x, s).
Proof. unfold get_slab. by intros ->. Qed.
Lemma mod_slab_Done s a x f : slabs s !! a = Some x →
  mod_slab a f s = Done (tt, set_slabs (<[a := f x]> (slabs s)) s).
Proof. unfold mod_slab. by intros ->. Qed.
Lemma get_cache_Done s c k : zget (caches s) c = Some k → get_cache c s = Done (k, s).
Proof. unfold get_cache. by intros ->. Qed.
Lemma mod_cache_Done s c k f : zget (caches s) c = Some k →
  mod_cache c f s = Done (tt, set_caches (<[Z.to_nat c := f k]> (caches s)) s).
Proof. unfold mod_cache. intros H. rewrite H, zset_is_Some; [done|]. by apply zget_Some_range in H. Qed.

(** Taking slab [a] out of [l1 ++ a :: l2]. *)
Lemma unlink_slab_run s c k a x put l1 l2 :
  zget (caches s) c = Some k → slabs s !! a = Some x → sl_prev x = lastZ 0 l1 → sl_next x = hdZ 0 l2 →
  0 ∉ l1 → 0 ∉ l2 → a ∉ l1 → (∀ b, b ∈ l1 ++ l2 → is_Some (slabs s !! b)) → (∀ b, b ∈ l1 → b ∉ l2) →
  ∃ m, unlink_slab c a put s = Done (tt, set_slabs m (set_caches
      (match l1 with [] => <[Z.to_nat c := put (hdZ 0 l2) k]> (caches s) | _ => caches s end) s)) ∧
    ∀ u, m !! u =
      if decide (u = lastZ 0 l1 ∧ l1 ≠ []) then set_sl_next (hdZ 0 l2) <$> slabs s !! u
      else if decide (u = hdZ 0 l2 ∧ l2 ≠ []) then set_sl_prev (lastZ 0 l1) <$> slabs s !! u
      else slabs s !! u.
Proof.
  intros Hk Hx Hpv Hnx H1 H2 Ha Hmem Hdj. unfold unlink_slab. mstep (get_slab_Done s a x Hx).
  rewrite Hpv, Hnx.
  assert (∃ m1, (if negb (lastZ 0 l1 =? 0) then mod_slab (lastZ 0 l1) (set_sl_next (hdZ 0 l2))
      else mod_cache c (put (hdZ 0 l2))) s = Done (tt, set_slabs m1 (set_caches
      (match l1 with [] => <[Z.to_nat c := put (hdZ 0 l2) k]> (caches s) | _ => caches s end) s)) ∧
      ∀ u, m1 !! u = if decide (u = lastZ 0 l1 ∧ l1 ≠ []) then set_sl_next (hdZ 0 l2) <$> slabs s !! u else slabs s !! u)
    as (m1 & Hrun & Hm1).
  { destruct l1 as [|b l1'] eqn:El.
    - cbn [lastZ]. cbn. rewrite (mod_cache_Done s c k _ Hk). exists (slabs s). split; [by destruct s|].
      intros u. by rewrite decide_False by naive_solver.
    - rewrite <- El in *. assert (lastZ 0 l1 ∈ l1) as Hin by (apply lastZ_elem; by rewrite El).
      destruct (Hmem (lastZ 0 l1)) as [y Hy]; [apply elem_of_app; by left|].
      rewrite (proj2 (Z.eqb_neq (lastZ 0 l1) 0)) by (intros Hz; apply H1; by rewrite <- Hz).
      cbn [negb]. rewrite (mod_slab_Done s _ y _ Hy). exists (<[lastZ 0 l1 := set_sl_next (hdZ 0 l2) y]> (slabs s)).
      split; [rewrite El; by destruct s|]. intros u. destruct (decide (u = lastZ 0 l1)) as [->|].
      + rewrite lookup_insert_eq, decide_True, Hy by (split; [done|by rewrite El]). done.
      + rewrite lookup_insert_ne, decide_False by naive_solver. done. }
  mstep Hrun. set (s1 := set_slabs _ _).
  assert (slabs s1 !! a = Some x) as Hx1.
  { simpl. rewrite Hm1, decide_False; [done|]. intros [-> Hne]. by apply Ha, lastZ_elem. }
  mstep (get_slab_Done s1 a x Hx1). rewrite Hpv, Hnx.
  destruct l2 as [|b l2].
  - simpl. exists m1. split; [done|]. intros u. rewrite Hm1. by rewrite (decide_False (P := _ ∧ [] ≠ [])) by naive_solver.
  - cbn [hdZ]. rewrite (proj2 (Z.eqb_neq b 0)) by (intros ->; apply H2; by left). cbn [negb].
    destruct (Hmem b) as [y Hy]; [apply elem_of_app; right; by left|].
    assert (b ≠ lastZ 0 l1 ∨ l1 = []) as Hb.
    { destruct l1 as [|z l1']; [by right|left]. intros ->. eapply Hdj; [apply lastZ_elem; done|by left]. }
    assert (slabs s1 !! b = Some y) as Hy1.
    { simpl. rewrite Hm1, decide_False; [done|]. naive_solver. }
    rewrite (mod_slab_Done s1 b y _ Hy1). eexists. split; [done|]. intros u. cbn [hdZ].
    destruct (decide (u = b)) as [->|].
    + rewrite lookup_insert_eq, decide_False, decide_True, Hy by naive_solver. done.
    + rewrite lookup_insert_ne by done. simpl. rewrite Hm1. by rewrite (decide_False (P := u = b ∧ _)) by naive_solver.
Qed.

(** Pushing slab [a] on the front of [l]. *)
Lemma push_slab_run s c k a x get put l :
  zget (caches s) c = Some k → slabs s !! a = Some x → get k = hdZ 0 l → a ∉ l → 0 ∉ l →
  (∀ b, b ∈ l → is_Some (slabs s !! b)) →
  ∃ m, push_slab c a get put s =
      Done (tt, set_slabs m (set_caches (<[Z.to_nat c := put a k]> (caches s)) s)) ∧
    ∀ u, m !! u = if decide (u = a) then Some (set_sl_prev 0 (set_sl_next (hdZ 0 l) x))
      else if decide (u = hdZ 0 l ∧ l ≠ []) then set_sl_prev a <$> slabs s !! u else slabs s !! u.
Proof.
  intros Hk Hx Hget Ha H0 Hmem. unfold push_slab. mstep (get_cache_Done s c k Hk). rewrite Hget.
  mstep (mod_slab_Done s a x (set_sl_next (hdZ 0 l)) Hx). set (s1 := set_slabs _ s).
  assert (slabs s1 !! a = Some (set_sl_next (hdZ 0 l) x)) as Hx1 by (simpl; by rewrite lookup_insert_eq).
  mstep (mod_slab_Done s1 a _ (set_sl_prev 0) Hx1). set (s2 := set_slabs _ s1).
  assert (∀ u, slabs s2 !! u = if decide (u = a) then Some (set_sl_prev 0 (set_sl_next (hdZ 0 l) x)) else slabs s !! u) as Hs2.
  { intros u. simpl. destruct (decide (u = a)) as [->|]; [by rewrite lookup_insert_eq|by rewrite !lookup_insert_ne]. }
  destruct l as [|b l].
  - cbn [hdZ]. cbn [Z.eqb negb]. mret. rewrite (mod_cache_Done s2 c k _ Hk). exists (slabs s2). split; [done|].
    intros u. rewrite Hs2. by rewrite (decide_False (P := _ ∧ [] ≠ [])) by naive_solver.
  - cbn [hdZ] in *. rewrite (proj2 (Z.eqb_neq b 0)) by (intros ->; apply H0; by left). cbn [negb].
    apply not_elem_of_cons in Ha as [Hab Ha]. destruct (Hmem b ltac:(by left)) as [y Hy].
    assert (slabs s2 !! b = Some y) as Hy2 by (by rewrite Hs2, decide_False by done).
    mstep (mod_slab_Done s2 b y (set_sl_prev a) Hy2). set (s3 := set_slabs _ s2).
    rewrite (mod_cache_Done s3 c k _ Hk). exists (slabs s3). split; [done|]. intros u. unfold s3.
    cbn [slabs set_slabs]. destruct (decide (u = b)) as [->|].
    + rewrite lookup_insert_eq, decide_False, decide_True, Hy by naive_solver. done.
    + rewrite lookup_insert_ne, Hs2 by done. by rewrite (decide_False (P := u = b ∧ _)) by naive_solver.
Qed.

(** What the list operations leave alone: everything but the heads of the
    cache lists and the links of the slabs in [S]. *)
Record relinked (s s' : heap) (S : list Z) : Prop := mk_relinked {
  rl_lock : heap_lock s' = heap_lock s;
  rl_start : heap_start_addr s' = heap_start_addr s;
  rl_end : heap_end_addr s' = heap_end_addr s;
  rl_meta : page_metadata s' = page_metadata s;
  rl_total : total_pages s' = total_pages s;
  rl_bytes : bytes s' = bytes s;
  rl_core : ∀ u, score <$> slabs s' !! u = score <$> slabs s !! u;
  rl_out : ∀ u, u ∉ S → slabs s' !! u = slabs s !! u;
}.

Lemma relinked_trans s1 s2 s3 S1 S2 : relinked s1 s2 S1 → relinked s2 s3 S2 → relinked s1 s3 (S1 ++ S2).
Proof.
  intros [? ? ? ? ? ? Hc1 Ho1] [? ? ? ? ? ? Hc2 Ho2]. split; try congruence.
  intros u [H1 H2]%not_elem_of_app. by rewrite Ho2, Ho1.
Qed.

Lemma score_next v x : score (set_sl_next v x) = score x. Proof. done. Qed.
Lemma score_prev v x : score (set_sl_prev v x) = score x. Proof. done. Qed.

Lemma unlink_slab_ok s c k a x put get l1 l2 :
  zget (caches s) c = Some k → slabs s !! a = Some x → dl s (get k) (l1 ++ a :: l2) →
  (∀ b, b ∈ l1 ++ l2 → is_Some (slabs s !! b)) → put (get k) k = k →
  ∃ s', unlink_slab c a put s = Done (tt, s') ∧ relinked s s' (l1 ++ l2) ∧ dl s' (hdZ 0 (l1 ++ l2)) (l1 ++ l2) ∧
    caches s' = <[Z.to_nat c := put (hdZ 0 (l1 ++ l2)) k]> (caches s).
Proof.
  intros Hk Hx Hd Hmem Hput. destruct (dlist_split _ _ _ _ _ _ _ Hd) as [Hpv Hnx].
  unfold pv, nx in Hpv, Hnx. rewrite Hx in Hpv, Hnx. simpl in Hpv, Hnx.
  pose proof (dl_nodup _ _ _ _ _ Hd) as Hnd. apply NoDup_app in Hnd as (_ & Hdj & [Ha2 _]%NoDup_cons).
  pose proof (dl_nonnull _ _ _ _ _ Hd) as H0. rewrite not_elem_of_app, not_elem_of_cons in H0. destruct H0 as (H01 & _ & H02).
  assert (a ∉ l1) as Ha1 by (intros ?; apply (Hdj a); [done|by left]).
  destruct (unlink_slab_run s c k a x put l1 l2) as (m & Hrun & Hm); try done.
  { intros b Hb Hb2. apply (Hdj b Hb). by right. }
  eexists. split; [exact Hrun|]. split; [|split].
  - split; try done; intros u; simpl; rewrite Hm.
    + repeat case_decide; by destruct (slabs s !! u).
    + intros [Hu1 Hu2]%not_elem_of_app.
      rewrite decide_False, decide_False; [done| |]; intros [-> Hne]; [by apply Hu2, hdZ_elem|by apply Hu1, lastZ_elem].
  - unfold dl in *. eapply dlist_remove; [exact Hd|]. intros u Hu. unfold nx, pv. simpl. rewrite Hm.
    destruct (Hmem u Hu) as [y Hy]. rewrite Hy.
    assert (∀ v, (v = hdZ 0 l2 ∧ l2 ≠ []) → u = v → ¬ (u = lastZ 0 l1 ∧ l1 ≠ [])) as Hex.
    { intros v [-> Hne2] Huv [Hl Hne1]. apply (Hdj u); [rewrite Hl; by apply lastZ_elem|right; rewrite Huv; by apply hdZ_elem]. }
    assert (u ≠ 0) by (intros ->; apply elem_of_app in Hu as [?|?]; done).
    destruct (decide (u = lastZ 0 l1)) as [->|Hl].
    + assert (l1 ≠ []) by (intros ->; done). rewrite decide_True by done. simpl.
      rewrite decide_False; [done|]. intros He. destruct l2 as [|z l2']; [simpl in He; done|].
      exfalso. by apply (Hex z).
    + rewrite decide_False by naive_solver. destruct (decide (u = hdZ 0 l2)) as [->|Hh].
      * assert (l2 ≠ []) by (intros ->; done). by rewrite decide_True by done.
      * by rewrite decide_False by naive_solver.
  - simpl. destruct l1 as [|b l1]; [done|]. cbn [app hdZ]. pose proof (dl_head _ _ _ _ _ Hd) as Hh. cbn [app hdZ] in Hh.
    rewrite <- Hh, Hput. symmetry. apply list_insert_id. unfold zget in Hk. by case_decide.
Qed.

Lemma push_slab_ok s c k a x get put l :
  zget (caches s) c = Some k → slabs s !! a = Some x → dl s (get k) l → a ∉ l → a ≠ 0 →
  (∀ b, b ∈ l → is_Some (slabs s !! b)) →
  ∃ s', push_slab c a get put s = Done (tt, s') ∧ relinked s s' (a :: l) ∧ dl s' a (a :: l) ∧
    caches s' = <[Z.to_nat c := put a k]> (caches s).
Proof.
  intros Hk Hx Hd Ha Ha0 Hmem. pose proof (dl_nonnull _ _ _ _ _ Hd) as H0. pose proof (dl_head _ _ _ _ _ Hd) as Hh.
  destruct (push_slab_run s c k a x get put l) as (m & Hrun & Hm); try done.
  eexists. split; [exact Hrun|]. split; [|split; [|done]].
  - split; try done; intros u; simpl; rewrite Hm.
    + case_decide; subst; [by rewrite Hx|]. case_decide; by destruct (slabs s !! u).
    + intros [Hu1 Hu2]%not_elem_of_cons. rewrite decide_False, decide_False; [done| |done].
      intros [-> Hne]. by apply Hu2, hdZ_elem.
  - unfold dl in *. cbn [lastZ]. eapply dlist_push_front; [exact Hd|done|done| | |]; unfold nx, pv; simpl.
    + intros u Hu. rewrite Hm. destruct (decide (u = a)) as [->|]; [done|].
      destruct (decide (u = hdZ 0 l)) as [->|].
      * rewrite decide_True by (split; [done|by intros ->]). destruct (Hmem _ Hu) as [y Hy]. by rewrite Hy.
      * by rewrite decide_False by naive_solver.
    + by rewrite Hm, decide_True by done.
    + by rewrite Hm, decide_True by done.
Qed.

Lemma dl_same s s' h l : (∀ u, u ∈ l → slabs s' !! u = slabs s !! u) → dl s h l → dl s' h l.
Proof. intros H. apply dlist_ext. intros u Hu. unfold nx, pv. by rewrite H. Qed.

(** ** Preservation of the invariant by a change around one slab *)

Lemma slab_ok_same s s' c b L :
  slab_ok s c b L → score <$> slabs s' !! b = score <$> slabs s !! b →
  heap_start_addr s' = heap_start_addr s → heap_end_addr s' = heap_end_addr s →
  zget (meta s') (page_of s b) = zget (meta s) (page_of s b) →
  (∀ o, o ∈ L → load64 (bytes s') o = load64 (bytes s) o) → slab_ok s' c b L.
Proof.
  intros [(x & Hx & H1 & H2 & H3 & H4) Hc Hn Ho (Hp1 & Hp2 & Hp3)] Hs Hst Hen Hm Hb.
  rewrite Hx in Hs. destruct (slabs s' !! b) as [y|] eqn:Hy; [|done]. simpl in Hs. apply Some_inj in Hs.
  split; try done.
  - exists y. split; [done|].
    change (sl_magic (score y) = SLAB_MAGIC ∧ sl_cache (score y) = Some c ∧ sl_free_list (score y) = hdZ 0 L ∧
      sl_in_use (score y) = (max_objs c - Z.of_nat (length L))%Z). by rewrite Hs.
  - by eapply chain_ext.
  - split; [done|]. unfold page_of. rewrite Hst, Hen. split; [done|]. by rewrite <- Hp3, <- Hm.
Qed.

(** Everything but slab [a] of cache [c], up to the links of that cache. *)
Record around (s s' : heap) (G G' : ghost) (c a : Z) : Prop := mk_around {
  ar_start : heap_start_addr s' = heap_start_addr s;
  ar_end : heap_end_addr s' = heap_end_addr s;
  ar_total : total_pages s' = total_pages s;
  ar_meta : page_metadata s' = Some (meta s') ∧ length (meta s') = length (meta s) ∧ meta_ok (meta s');
  ar_len : length (caches s') = length (caches s);
  ar_cache : ∀ i, 0 <= i → i ≠ c → zget (caches s') i = zget (caches s) i;
  ar_lists : ∀ i, i ≠ c → gP G' i = gP G i ∧ gF G' i = gF G i;
  ar_other : ∀ i b, 0 <= i < 8 → i ≠ c → b ∈ gP G i ++ gF G i → slabs s' !! b = slabs s !! b;
  ar_P : ∀ b, b ≠ a → b ∈ gP G' c → b ∈ gP G c;
  ar_F : ∀ b, b ≠ a → b ∈ gF G' c → b ∈ gF G c;
  ar_slab : ∀ i b, 0 <= i < 8 → b ≠ a → b ∈ gP G i ++ gF G i →
    score <$> slabs s' !! b = score <$> slabs s !! b ∧ gL G' b = gL G b ∧
    zget (meta s') (page_of s b) = zget (meta s) (page_of s b) ∧
    ∀ o, o ∈ gL G b → load64 (bytes s') o = load64 (bytes s) o;
  ar_mine : ∀ i, 0 <= i < 8 → i ≠ c → a ∉ gP G i ++ gF G i;
}.

Lemma heap_inv_update s s' G G' c a :
  heap_inv s G → 0 <= c < 8 → around s s' G G' c a →
  (∃ k, zget (caches s') c = Some k ∧ obj_size k = obj_of c ∧ slabs_free k = 0 ∧
     dl s' (slabs_partial k) (gP G' c) ∧ dl s' (slabs_full k) (gF G' c)) →
  (a ∈ gP G' c ++ gF G' c → slab_ok s' c a (gL G' a)) → (a ∈ gP G' c → gL G' a ≠ []) →
  (a ∈ gF G' c → gL G' a = []) → heap_inv s' G'.
Proof.
  intros [Hr (Hm1 & Hm2 & Hm3) Hl Hc Hs Hp Hf] Hcr [Hst Hen Hto (Hme1 & Hme2 & Hme3) Hle Hca Hli Hot HP HF Hsl Hmi] Hk Ha HaP HaF.
  assert (Hback : ∀ i b, 0 <= i < 8 → b ∈ gP G' i ++ gF G' i → b = a ∧ i = c ∨ b ≠ a ∧ b ∈ gP G i ++ gF G i).
  { intros i b Hi Hb. destruct (decide (i = c)) as [->|Hne].
    - destruct (decide (b = a)) as [->|Hba]; [by left|right]. split; [done|].
      apply elem_of_app in Hb as [Hb|Hb]; apply elem_of_app; [left; by apply HP|right; by apply HF].
    - right. destruct (Hli i Hne) as [H1 H2]. rewrite H1, H2 in Hb. split; [|done]. intros ->. by apply (Hmi i). }
  split.
  - by rewrite Hst, Hen, Hto.
  - split; [done|]. split; [|done]. rewrite Hto, Hm2. lia.
  - lia.
  - intros i Hi. destruct (decide (i = c)) as [->|Hne]; [done|].
    destruct (Hc i Hi) as (k & Hk1 & Hk2 & Hk3 & Hk4 & Hk5). exists k. destruct (Hli i Hne) as [-> ->].
    rewrite Hca by (done || lia). split; [done|]. split; [done|]. split; [done|].
    split; (eapply dl_same; [|done]; intros u Hu; apply (Hot i); [done..|apply elem_of_app; by auto]).
  - intros i b Hi Hb. destruct (Hback i b Hi Hb) as [[-> ->]|[Hne Hb']]; [by apply Ha|].
    destruct (Hsl i b Hi Hne Hb') as (H1 & H2 & H3 & H4). rewrite H2.
    apply (slab_ok_same s s'); [by apply Hs|done|done|done|done|done].
  - intros i b Hi Hb. destruct (Hback i b Hi ltac:(apply elem_of_app; by left)) as [[-> ->]|[Hne Hb']]; [by apply HaP|].
    destruct (Hsl i b Hi Hne Hb') as (_ & -> & _). apply (Hp i b Hi). destruct (decide (i = c)) as [->|Hic]; [by apply HP|].
    by rewrite <- (proj1 (Hli i Hic)).
  - intros i b Hi Hb. destruct (Hback i b Hi ltac:(apply elem_of_app; by right)) as [[-> ->]|[Hne Hb']]; [by apply HaF|].
    destruct (Hsl i b Hi Hne Hb') as (_ & -> & _). apply (Hf i b Hi). destruct (decide (i = c)) as [->|Hic]; [by apply HF|].
    by rewrite <- (proj2 (Hli i Hic)).
Qed.

(** ** Facts of the invariant *)

Lemma inv_page s G c a : heap_inv s G → 0 <= c < 8 → a ∈ gP G c ++ gF G c →
  a = heap_start_addr s + page_of s a * PAGE_SIZE ∧ 0 <= page_of s a < total_pages s ∧ a mod PAGE_SIZE = 0 ∧ 0 < a.
Proof.
  intros Hi Hc Ha. destruct (so_page _ _ _ _ (hi_slab _ _ Hi c a Hc Ha)) as (H1 & H2 & _).
  destruct (hi_range _ _ Hi) as (H3 & H4 & H5 & _). unfold page_of, PAGE_SIZE in *. zlia.
Qed.

Lemma inv_cache_unique s G c c' a : heap_inv s G → 0 <= c < 8 → 0 <= c' < 8 →
  a ∈ gP G c ++ gF G c → a ∈ gP G c' ++ gF G c' → c = c'.
Proof.
  intros Hi Hc Hc' Ha Ha'. destruct (so_hdr _ _ _ _ (hi_slab _ _ Hi c a Hc Ha)) as (x & Hx & _ & H1 & _).
  destruct (so_hdr _ _ _ _ (hi_slab _ _ Hi c' a Hc' Ha')) as (y & Hy & _ & H2 & _). congruence.
Qed.

Lemma inv_lists_disjoint s G c a : heap_inv s G → 0 <= c < 8 → a ∈ gP G c → a ∈ gF G c → False.
Proof. intros Hi Hc HP HF. by apply (hi_partial _ _ Hi c a Hc HP), (hi_full _ _ Hi c a Hc HF). Qed.

Lemma inv_member s G c b : heap_inv s G → 0 <= c < 8 → b ∈ gP G c ++ gF G c → is_Some (slabs s !! b).
Proof. intros Hi Hc Hb. destruct (so_hdr _ _ _ _ (hi_slab _ _ Hi c b Hc Hb)) as (x & Hx & _). eauto. Qed.

(** Writing the word of one object leaves the other free objects alone. *)
Lemma obj_words_disjoint s G c c' a b o o' :
  heap_inv s G → 0 <= c < 8 → 0 <= c' < 8 → o ∈ objs a c → o' ∈ objs b c' →
  a mod PAGE_SIZE = 0 → b mod PAGE_SIZE = 0 → (a = b → c = c' ∧ o ≠ o') → o' + 8 <= o ∨ o + 8 <= o'.
Proof.
  intros Hi Hc Hc' Ho Ho' Ha Hb Hab. pose proof (objs_range a c o Hc Ho). pose proof (objs_range b c' o' Hc' Ho').
  destruct (cache_geometry c Hc) as (H1 & _). destruct (cache_geometry c' Hc') as (H2 & _).
  destruct (decide (a = b)) as [->|Hne].
  - destruct (Hab eq_refl) as [-> Hne]. destruct (objs_disjoint b c' o o' Hc Ho Ho' Hne); lia.
  - unfold PAGE_SIZE, SIZEOF_SLAB in *. assert (a + 4096 <= b ∨ b + 4096 <= a) by zlia. lia.
Qed.

Lemma virt_idx_in s G p : heap_inv s G → heap_start_addr s <= p < heap_end_addr s →
  virt_to_page_idx s p = page_of s p ∧ 0 <= page_of s p < total_pages s.
Proof.
  intros Hi Hp. destruct (hi_range _ _ Hi) as (H3 & H4 & H5 & H6 & H7). unfold virt_to_page_idx, page_of, PAGE_SIZE in *.
  rewrite (proj2 (Z.ltb_ge _ _)), (proj2 (Z.leb_gt _ _)) by lia. cbn [orb]. rewrite u32_id; zlia.
Qed.

Lemma page_virt_in s G i : heap_inv s G → 0 <= i < total_pages s →
  page_idx_to_virt s i = heap_start_addr s + i * PAGE_SIZE ∧ page_of s (heap_start_addr s + i * PAGE_SIZE) = i.
Proof.
  intros Hi Hp. destruct (hi_range _ _ Hi) as (H3 & H4 & H5 & H6 & H7). unfold page_idx_to_virt, page_of, PAGE_SIZE in *.
  split; [rewrite u64_id; lia|]. replace (heap_start_addr s + i * 4096 - heap_start_addr s) with (i * 4096) by lia. zlia.
Qed.

(** ** A new slab *)

Lemma link_objs_ok size : 8 <= size → ∀ n curr s, 0 <= curr → curr + Z.of_nat n * size < 2 ^ 64 →
  ∃ m, link_objs n curr size s = Done (curr + Z.of_nat n * size, set_bytes m s) ∧
    (∀ k, 0 <= k < Z.of_nat n → load64 m (curr + k * size) = curr + (k + 1) * size) ∧
    (∀ x, x < curr ∨ curr + Z.of_nat n * size <= x → m x = bytes s x).
Proof.
  intros Hsz. induction n as [|n IH]; intros curr s Hc Hlt.
  - exists (bytes s). split; [|split; [lia|done]]. simpl. unfold ret. rewrite Z.add_0_r. by destruct s.
  - cbn [link_objs]. unfold bind at 1, write_word at 1, modify at 1. set (s1 := set_bytes _ s).
    destruct (IH (curr + size) s1) as (m & Hrun & Hch & Hout); [lia|lia|].
    rewrite Hrun. exists m. split; [|split].
    + by replace (curr + size + Z.of_nat n * size) with (curr + Z.of_nat (S n) * size) by lia.
    + intros k Hk. destruct (decide (k = 0)) as [->|].
      * replace (curr + 0 * size) with curr by lia. replace (curr + (0 + 1) * size) with (curr + size) by lia.
        transitivity (load64 (bytes s1) curr); [|simpl; apply load64_store64; lia].
        apply load_le_ext. intros x Hx. apply Hout. lia.
      * specialize (Hch (k - 1) ltac:(lia)). replace (curr + k * size) with (curr + size + (k - 1) * size) by lia.
        rewrite Hch. lia.
    + intros x Hx. rewrite Hout by lia. simpl. apply store_le_out. lia.
Qed.

Lemma chain_map_seqZ (nx f : Z → Z) e n : ∀ i,
  (∀ k, i <= k < i + Z.of_nat n → nx (f k) = if decide (k = i + Z.of_nat n - 1) then e else f (k + 1)) →
  chain nx (map f (seqZ i (Z.of_nat n))) e.
Proof.
  induction n as [|n IH]; intros i H; [done|].
  replace (Z.of_nat (S n)) with (Z.succ (Z.of_nat n)) by lia. rewrite seqZ_cons, Z.pred_succ by lia.
  cbn [map chain]. split.
  - rewrite H by lia. destruct n as [|n].
    + by rewrite decide_True by lia.
    + rewrite decide_False by lia. replace (Z.of_nat (S n)) with (Z.succ (Z.of_nat n)) by lia. rewrite seqZ_cons by lia.
      done.
  - apply IH. intros k Hk. rewrite H by lia. destruct (decide (k = i + Z.of_nat (S n) - 1)).
    + by rewrite decide_True by lia.
    + by rewrite decide_False by lia.
Qed.

Lemma slab_start a : a mod PAGE_SIZE = 0 → 0 < a < 2 ^ 63 → align_up (a + SIZEOF_SLAB) HEAP_ALIGN = a + SIZEOF_SLAB.
Proof.
  intros Ha Hr. unfold align_up, HEAP_ALIGN, SIZEOF_SLAB, PAGE_SIZE in *. rewrite u64_id by lia.
  change (8 - 1) with (2 ^ 3 - 1). rewrite andnot_ones by lia. zlia.
Qed.

Lemma slab_init_ok s a c k :
  zget (caches s) c = Some k → obj_size k = obj_of c → 0 <= c < 8 → a mod PAGE_SIZE = 0 → 0 < a < 2 ^ 63 →
  ∃ m, slab_init_page a c s = Done (tt, set_bytes m (set_slabs
      (<[a := mk_slab 0 0 (Some c) (a + SIZEOF_SLAB) 0 SLAB_MAGIC]> (slabs s)) s)) ∧
    chain (load64 m) (objs a c) 0 ∧ hdZ 0 (objs a c) = a + SIZEOF_SLAB ∧
    ∀ x, x < a ∨ a + PAGE_SIZE <= x → m x = bytes s x.
Proof.
  intros Hk Hsz Hc Ha Hr. destruct (cache_geometry c Hc) as (H1 & H2 & H3 & H4).
  unfold slab_init_page. mstep (get_cache_Done s c k Hk). rewrite slab_start by (done || lia). rewrite Hsz.
  replace (PAGE_SIZE - (a + SIZEOF_SLAB - a)) with (PAGE_SIZE - SIZEOF_SLAB) by lia. fold (max_objs c).
  unfold bind at 1, modify at 1. set (s1 := set_slabs _ s).
  unfold SIZEOF_SLAB, PAGE_SIZE in *.
  destruct (link_objs_ok (obj_of c) ltac:(lia) (Z.to_nat (max_objs c - 1)) (a + 40) s1) as (m & Hrun & Hch & Hout); [lia|nia|].
  mstep Hrun. unfold write_word, modify. rewrite Z2Nat.id in * by lia.
  set (last := a + 40 + (max_objs c - 1) * obj_of c) in *.
  exists (store64 m last 0). split; [done|]. split; [|split].
  - unfold objs. replace (max_objs c) with (Z.of_nat (Z.to_nat (max_objs c))) by lia. apply chain_map_seqZ.
    intros j Hj. unfold obj_addr, SIZEOF_SLAB. case_decide as He.
    + replace (a + 40 + j * obj_of c) with last by (unfold last; nia). by apply load64_store64.
    + rewrite load64_store64_ne; [rewrite Hch by lia; lia|]. unfold last. nia.
  - unfold objs. replace (max_objs c) with (Z.succ (max_objs c - 1)) by lia. rewrite seqZ_cons by lia. simpl.
    unfold obj_addr, SIZEOF_SLAB. lia.
  - intros x Hx. transitivity (m x); [|rewrite Hout; [done|nia]]. apply store_le_out. unfold last. nia.
Qed.

Definition fupd (f : Z → list Z) (i : Z) (v : list Z) : Z → list Z := λ j, if decide (j = i) then v else f j.
Lemma fupd_eq f i v : fupd f i v i = v.
Proof. unfold fupd. by rewrite decide_True. Qed.
Lemma fupd_ne f i v j : j ≠ i → fupd f i v j = f j.
Proof. unfold fupd. intros. by rewrite decide_False. Qed.

(** ** Live blocks *)

Lemma live_pages s G p n x : heap_inv s G → live s G p n → p <= x < p + n →
  heap_start_addr s <= x < heap_end_addr s ∧ page_at (meta s) (page_of s x) ≠ PAGE_TYPE_FREE.
Proof.
  intros Hi [(c & a & Hc & Ha & Hp & _ & ->)|(i & k & Hm & Hk & -> & ->)] Hx.
  - destruct (inv_page s G c a Hi Hc Ha) as (H1 & H2 & H3 & _). pose proof (objs_range a c p Hc Hp).
    destruct (so_page _ _ _ _ (hi_slab _ _ Hi c a Hc Ha)) as (_ & _ & Hpg).
    destruct (hi_range _ _ Hi) as (H4 & H5 & H6 & _).
    assert (page_of s x = page_of s a) as -> by (unfold page_of, PAGE_SIZE, SIZEOF_SLAB in *; zlia).
    unfold page_at. rewrite Hpg. split; [|done]. unfold PAGE_SIZE, SIZEOF_SLAB in *. nia.
  - destruct (hi_meta _ _ Hi) as (_ & Hlen & Hok). destruct (Hok i _ Hm) as (_ & _ & Hb). simpl in Hb.
    destruct (Hb Hk) as [Hb1 Hb2]. pose proof (zget_Some_range _ _ _ Hm).
    destruct (hi_range _ _ Hi) as (H4 & H5 & H6 & _). unfold PAGE_SIZE in *. split; [nia|].
    assert (i <= page_of s x < i + k) as Hpx by (unfold page_of, PAGE_SIZE; zlia).
    unfold page_at. destruct (decide (page_of s x = i)) as [->|]; [by rewrite Hm|]. by rewrite Hb2 by lia.
Qed.

Lemma live_nonneg s G p n : heap_inv s G → live s G p n → 0 < p ∧ 8 <= n.
Proof.
  intros Hi [(c & a & Hc & Ha & Hp & _ & ->)|(i & k & Hm & Hk & -> & ->)].
  - destruct (inv_page s G c a Hi Hc Ha) as (_ & _ & _ & H). pose proof (objs_range a c p Hc Hp).
    destruct (cache_geometry c Hc) as (H1 & _). unfold SIZEOF_SLAB in *. lia.
  - pose proof (zget_Some_range _ _ _ Hm). destruct (hi_range _ _ Hi) as (H4 & H5 & H6 & _). unfold PAGE_SIZE in *. nia.
Qed.

Lemma live_large_slab_disjoint s G c a p i k : heap_inv s G → 0 <= c < 8 → a ∈ gP G c ++ gF G c → p ∈ objs a c →
  zget (meta s) i = Some (mk_page_info PAGE_TYPE_LARGE k) → 0 < k →
  p + obj_of c <= heap_start_addr s + i * PAGE_SIZE ∨ heap_start_addr s + i * PAGE_SIZE + k * PAGE_SIZE <= p.
Proof.
  intros Hi Hc Ha Hp Hm Hk. destruct (inv_page s G c a Hi Hc Ha) as (H1 & H2 & _). pose proof (objs_range a c p Hc Hp).
  destruct (so_page _ _ _ _ (hi_slab _ _ Hi c a Hc Ha)) as (_ & _ & Hpg).
  destruct (hi_meta _ _ Hi) as (_ & _ & Hok). destruct (Hok i _ Hm) as (_ & _ & Hb). simpl in Hb.
  destruct (Hb Hk) as [_ Hb2]. destruct (decide (page_of s a < i)).
  - left. unfold PAGE_SIZE, SIZEOF_SLAB in *. nia.
  - right. destruct (decide (page_of s a < i + k)); [|unfold PAGE_SIZE, SIZEOF_SLAB in *; nia]. exfalso.
    destruct (decide (page_of s a = i)) as [He|]; [rewrite He in Hpg; congruence|].
    rewrite Hb2 in Hpg by lia. congruence.
Qed.

(** Distinct live blocks do not overlap. *)
Lemma live_disjoint s G p n p' n' : heap_inv s G → live s G p n → live s G p' n' → p ≠ p' →
  p + n <= p' ∨ p' + n' <= p.
Proof.
  intros Hi [(c & a & Hc & Ha & Hp & _ & ->)|(i & k & Hm & Hk & -> & ->)]
    [(c' & a' & Hc' & Ha' & Hp' & _ & ->)|(i' & k' & Hm' & Hk' & -> & ->)] Hne.
  - destruct (inv_page s G c a Hi Hc Ha) as (_ & _ & H1 & _). destruct (inv_page s G c' a' Hi Hc' Ha') as (_ & _ & H2 & _).
    destruct (decide (a = a')) as [<-|Hna].
    + assert (c = c') as <- by (by apply (inv_cache_unique s G c c' a)). by apply (objs_disjoint a c).
    + pose proof (objs_range a c p Hc Hp). pose proof (objs_range a' c' p' Hc' Hp').
      unfold PAGE_SIZE, SIZEOF_SLAB in *. assert (a + 4096 <= a' ∨ a' + 4096 <= a) by zlia. lia.
  - by apply (live_large_slab_disjoint s G c a p i' k').
  - destruct (live_large_slab_disjoint s G c' a' p' i k Hi Hc' Ha' Hp' Hm Hk) as [H|H]; [by right|by left].
  - destruct (hi_meta _ _ Hi) as (_ & _ & Hok). destruct (Hok i _ Hm) as (_ & _ & Hb). simpl in Hb.
    destruct (Hok i' _ Hm') as (_ & _ & Hb'). simpl in Hb'. destruct (Hb Hk) as [_ Hb2]. destruct (Hb' Hk') as [_ Hb2'].
    assert (i ≠ i') by (intros ->; done). unfold PAGE_SIZE. destruct (decide (i < i')).
    + left. destruct (decide (i' < i + k)); [|nia]. rewrite Hb2 in Hm' by lia. injection Hm' as <-. lia.
    + right. destruct (decide (i < i' + k')); [|nia]. rewrite Hb2' in Hm by lia. injection Hm as <-. lia.
Qed.

(** ** Taking a slab *)

Definition keeps (s s' : heap) (G : ghost) : Prop :=
  ∀ p n x, live s G p n → p <= x < p + n → bytes s' x = bytes s x.

Lemma free_page_not_slab s G st c b : heap_inv s G → page_at (meta s) st = PAGE_TYPE_FREE → 0 <= c < 8 →
  b ∈ gP G c ++ gF G c → page_of s b ≠ st.
Proof.
  intros Hi Hf Hc Hb He. destruct (so_page _ _ _ _ (hi_slab _ _ Hi c b Hc Hb)) as (_ & _ & Hpg).
  unfold page_at in Hf. rewrite He in Hpg. by rewrite Hpg in Hf.
Qed.

(** Adding slab [a] on the free page [st]. *)
Lemma new_slab_live s s' G c a st l' :
  heap_inv s G → 0 <= c < 8 → run_free (meta s) st 1 → meta s' = l' → heap_start_addr s' = heap_start_addr s →
  marked (meta s) l' st 1 PAGE_TYPE_SLAB → gP G c = [] →
  a = heap_start_addr s + st * PAGE_SIZE → (∀ i, 0 <= i < 8 → a ∉ gP G i ++ gF G i) →
  let G' := mk_ghost (fupd (gP G) c [a]) (gF G) (fupd (gL G) a (objs a c)) in
  ∀ p n, live s' G' p n ↔ live s G p n.
Proof.
  intros Hi Hc Hf Hm' Hst [_ Hg] HP Ha Hnew G' p n. unfold live. rewrite Hm', Hst.
  assert (Hel : ∀ i b, 0 <= i < 8 → b ∈ gP G' i ++ gF G' i ↔ (b = a ∧ i = c) ∨ b ∈ gP G i ++ gF G i).
  { intros i b Hi8. simpl. destruct (decide (i = c)) as [->|Hne].
    - rewrite fupd_eq, HP. simpl. rewrite elem_of_cons. naive_solver.
    - rewrite fupd_ne by done. naive_solver. }
  split; (intros [(i & b & Hi8 & Hb & Hp & Hnp & Hn)|(i & k & Hk & Hk0 & Hp & Hn)]; [left|right]).
  - apply Hel in Hb as [[-> ->]|Hb]; [| |done].
    + exfalso. apply Hnp. simpl. by rewrite fupd_eq.
    + exists i, b. split; [done|]. split; [done|]. split; [done|]. split; [|done].
      simpl in Hnp. rewrite fupd_ne in Hnp; [done|]. intros ->. by apply (Hnew i).
  - exists i, k. rewrite Hg in Hk. case_decide; [by injection Hk|]. done.
  - exists i, b. split; [done|]. split; [apply Hel; by auto|]. split; [done|]. split; [|done].
    simpl. rewrite fupd_ne; [done|]. intros ->. by apply (Hnew i).
  - exists i, k. rewrite Hg. rewrite decide_False; [done|]. intros Hst'. specialize (Hf i Hst').
    unfold page_at in Hf. by rewrite Hk in Hf.
Qed.

Lemma new_slab_inv s s' G c a k k' x st l' :
  heap_inv s G → 0 <= c < 8 → zget (caches s) c = Some k → obj_size k = obj_of c → slabs_free k = 0 →
  dl s (slabs_full k) (gF G c) → gP G c = [] →
  run_free (meta s) st 1 → marked (meta s) l' st 1 PAGE_TYPE_SLAB → 0 <= st < total_pages s →
  a = heap_start_addr s + st * PAGE_SIZE →
  page_metadata s' = Some l' → heap_start_addr s' = heap_start_addr s → heap_end_addr s' = heap_end_addr s →
  total_pages s' = total_pages s → caches s' = <[Z.to_nat c := k']> (caches s) → k' = set_partial a k →
  (∀ u, u ≠ a → slabs s' !! u = slabs s !! u) → slabs s' !! a = Some x →
  x = mk_slab 0 0 (Some c) (a + SIZEOF_SLAB) 0 SLAB_MAGIC → chain (load64 (bytes s')) (objs a c) 0 →
  hdZ 0 (objs a c) = a + SIZEOF_SLAB → (∀ y, y < a ∨ a + PAGE_SIZE <= y → bytes s' y = bytes s y) →
  let G' := mk_ghost (fupd (gP G) c [a]) (gF G) (fupd (gL G) a (objs a c)) in
  heap_inv s' G' ∧ (∀ p n, live s' G' p n ↔ live s G p n) ∧ keeps s s' G.
Proof.
  intros Hi Hc Hk Hsz Hfr HdF HP Hf Hmk Hst Ha Hme Hsa Hse Hto Hca Hk' Hoth Hx Hxv Hch Hhd Hby G'.
  assert (meta s' = l') as Hm' by (unfold meta; by rewrite Hme).
  assert (Hfree : page_at (meta s) st = PAGE_TYPE_FREE) by (apply Hf; lia).
  destruct (page_virt_in s G st Hi Hst) as [_ Hpo]. rewrite <- Ha in Hpo.
  assert (Hnew : ∀ i, 0 <= i < 8 → a ∉ gP G i ++ gF G i).
  { intros i Hi8 Hin. by apply (free_page_not_slab s G st i a Hi Hfree Hi8 Hin). }
  destruct (hi_range _ _ Hi) as (Hr1 & Hr2 & Hr3 & Hr4 & Hr5). destruct (hi_meta _ _ Hi) as (_ & Hlen & Hok).
  assert (a mod PAGE_SIZE = 0 ∧ 0 < a ∧ a < 2 ^ 63) as (Ham & Ha0 & Ha1) by (unfold PAGE_SIZE in *; zlia).
  split; [|split].
  - apply (heap_inv_update s s' G G' c a Hi Hc).
    + split; try done.
      * split; [by rewrite Hme, Hm'|]. rewrite Hm'. split; [by destruct Hmk|].
        apply (marked_meta_ok (meta s) l' st 1 PAGE_TYPE_SLAB); done || lia.
      * rewrite Hca. apply length_insert.
      * intros i Hi0 Hne. rewrite Hca. rewrite zget_insert; [by rewrite decide_False by done| |done].
        apply zget_Some_range in Hk. lia.
      * intros i Hne. simpl. by rewrite fupd_ne.
      * intros i b Hi8 _ Hb. apply Hoth. intros ->. by apply (Hnew i).
      * simpl. intros b Hb. rewrite fupd_eq. by intros ->%list_elem_of_singleton.
      * intros i b Hi8 Hne Hb. rewrite Hoth by done. split; [done|]. simpl. rewrite fupd_ne by done.
        split; [done|]. split.
        -- rewrite Hm'. destruct Hmk as [_ Hg]. rewrite Hg, decide_False; [done|].
           pose proof (free_page_not_slab s G st i b Hi Hfree Hi8 Hb). lia.
        -- intros o Ho. destruct (inv_page s G i b Hi Hi8 Hb) as (_ & _ & Hbm & _).
           apply (so_objs _ _ _ _ (hi_slab _ _ Hi i b Hi8 Hb)), objs_range in Ho; [|done].
           destruct (cache_geometry i Hi8) as (Hg & _).
           apply load_le_ext. intros y Hy. apply Hby. unfold PAGE_SIZE, SIZEOF_SLAB in *.
           assert (b + 4096 <= a ∨ a + 4096 <= b) by zlia. lia.
      * intros i Hi8 Hne. by apply Hnew.
    + exists k'. rewrite Hca. rewrite zget_insert by (apply zget_Some_range in Hk; lia). rewrite decide_True by done.
      subst k'. simpl. rewrite fupd_eq. split_and!; try done.
      * unfold dl. split; [|done|done|apply NoDup_singleton|].
        -- simpl. unfold nx, pv. rewrite Hx, Hxv. done.
        -- rewrite list_elem_of_singleton. lia.
      * eapply dl_same; [|exact HdF]. intros u Hu. apply Hoth. intros ->. apply (Hnew c Hc), elem_of_app. by right.
    + intros _. simpl. rewrite fupd_eq. split; [|done|by apply objs_nodup|done|].
      * exists x. split; [done|]. subst x. simpl. rewrite objs_length by done.
        split; [done|]. split; [done|]. split; [by rewrite Hhd|lia].
      * split; [done|]. split; [rewrite Hsa, Hse; unfold PAGE_SIZE in *; nia|].
        unfold page_of. rewrite Hsa, Hm'. fold (page_of s a). rewrite Hpo. destruct Hmk as [_ Hg].
        rewrite Hg, decide_True by lia. by rewrite Z.eqb_refl.
    + intros _. simpl. rewrite fupd_eq. intros Hnil. pose proof (objs_length a c Hc) as Hle. rewrite Hnil in Hle.
      destruct (cache_geometry c Hc) as (_ & _ & H & _). simpl in Hle. lia.
    + simpl. intros HF. exfalso. apply (Hnew c Hc), elem_of_app. by right.
  - by apply (new_slab_live s s' G c a st l').
  - intros p n y Hl Hy. destruct (live_pages s G p n y Hi Hl Hy) as [Hy1 Hy2]. apply Hby.
    assert (page_of s y ≠ st) as Hne by (intros He; by rewrite He in Hy2).
    unfold page_of, PAGE_SIZE in *. zlia.
Qed.

(** [alloc_slab]: a partial slab of the cache, or failure when there is none
    and no free page. *)
Lemma alloc_slab_ok s G c : heap_inv s G → 0 <= c < 8 →
  (alloc_slab c s = Done (0, s) ∧ gP G c = [] ∧ ∀ x, 0 <= x → ¬ run_free (meta s) x 1) ∨
  ∃ a rest s' G', alloc_slab c s = Done (a, s') ∧ heap_inv s' G' ∧ gP G' c = a :: rest ∧
    heap_lock s' = heap_lock s ∧ (∀ p n, live s' G' p n ↔ live s G p n) ∧ keeps s s' G.
Proof.
  intros Hi Hc. destruct (hi_cache _ _ Hi c Hc) as (k & Hk & Hsz & Hfr & HdP & HdF).
  unfold alloc_slab. destruct (gP G c) as [|a rest] eqn:HP.
  - pose proof (dl_head _ _ _ _ _ HdP) as Hh. cbn [hdZ] in Hh.
    destruct (hi_meta _ _ Hi) as (Hme & Hlen & Hok). destruct (hi_range _ _ Hi) as (Hr1 & Hr2 & Hr3 & Hr4 & Hr5).
    destruct (alloc_pages_ok s (meta s) 1 PAGE_TYPE_SLAB Hme Hlen ltac:(lia) ltac:(lia))
      as [(st & l' & Hal & [Hrf _] & Hst0 & Hst1 & Hmk)|[Hal Hno]].
    2:{ left. mstep (get_cache_Done s c k Hk). rewrite Hh, Hfr. cbn [Z.eqb negb].
        assert (bind (alloc_pages_backend 1 PAGE_TYPE_SLAB) (λ a, if a =? 0 then ret 0 else
          bind (slab_init_page a c) (λ _, ret a)) s = Done (0, s)) as Hx by (by mstep Hal).
        mstep Hx. done. }
    right. destruct (page_virt_in s G st Hi ltac:(lia)) as [Hpv Hpo]. rewrite Hpv in Hal.
    set (a := heap_start_addr s + st * PAGE_SIZE) in *. set (s1 := set_page_metadata _ s) in Hal.
    assert (a mod PAGE_SIZE = 0 ∧ 0 < a ∧ a < 2 ^ 63) as (Ham & Ha0 & Ha1) by (unfold a, PAGE_SIZE in *; zlia).
    destruct (slab_init_ok s1 a c k Hk Hsz Hc Ham ltac:(lia)) as (m & Hinit & Hch & Hhd & Hby).
    set (x0 := mk_slab 0 0 (Some c) _ 0 SLAB_MAGIC) in *. set (s2 := set_bytes _ _) in Hinit.
    assert (slabs s2 !! a = Some x0) as Hx0 by (simpl; by rewrite lookup_insert_eq).
    destruct (push_slab_ok s2 c k a x0 slabs_partial set_partial []) as (s3 & Hpush & Hrl & _ & Hca); try done.
    { unfold dl. rewrite Hh. split; [done|done|done|by apply NoDup_nil|by apply not_elem_of_nil]. }
    { by apply not_elem_of_nil. } { lia. } { by intros b Hb%elem_of_nil. }
    assert (bind (alloc_pages_backend 1 PAGE_TYPE_SLAB) (λ a, if a =? 0 then ret 0 else
      bind (slab_init_page a c) (λ _, ret a)) s = Done (a, s2)) as Hx.
    { mstep Hal. rewrite (proj2 (Z.eqb_neq a 0)) by lia. by mstep Hinit. }
    mstep (get_cache_Done s c k Hk). rewrite Hh, Hfr. cbn [Z.eqb negb]. mstep Hx.
    rewrite (proj2 (Z.eqb_neq a 0)) by lia. mstep Hpush.
    pose proof (rl_core _ _ _ Hrl a) as Hcore. rewrite Hx0 in Hcore.
    assert (∃ x, slabs s3 !! a = Some x ∧ x = x0) as (x & Hxs & Hxe).
    { destruct (push_slab_run s2 c k a x0 slabs_partial set_partial [] Hk Hx0 Hh) as (m' & Hrun & Hm');
        [by apply not_elem_of_nil|by apply not_elem_of_nil|by intros b Hb%elem_of_nil|].
      rewrite Hpush in Hrun. injection Hrun as ->. exists x0. split; [|done]. simpl. by rewrite Hm', decide_True by done. }
    exists a, [], s3. destruct (new_slab_inv s s3 G c a k (set_partial a k) x st l' Hi Hc Hk Hsz Hfr HdF HP Hrf Hmk)
      as (H1 & H2 & H3); try done; try lia.
    + by rewrite (rl_meta _ _ _ Hrl).
    + by rewrite (rl_start _ _ _ Hrl).
    + by rewrite (rl_end _ _ _ Hrl).
    + by rewrite (rl_total _ _ _ Hrl).
    + intros u Hu. rewrite (rl_out _ _ _ Hrl); [simpl; by rewrite lookup_insert_ne|]. by rewrite list_elem_of_singleton.
    + by rewrite (rl_bytes _ _ _ Hrl).
    + intros y Hy. rewrite (rl_bytes _ _ _ Hrl). simpl. by apply Hby.
    + eexists. split; [done|]. split; [exact H1|]. split; [simpl; by rewrite fupd_eq|].
      split; [by rewrite (rl_lock _ _ _ Hrl)|]. done.
  - right. pose proof (dl_head _ _ _ _ _ HdP) as Hh. cbn [hdZ] in Hh. exists a, rest, s, G.
    pose proof (dl_nonnull _ _ _ _ _ HdP) as H0.
    mstep (get_cache_Done s c k Hk). rewrite Hh. rewrite (proj2 (Z.eqb_neq a 0)) by (intros ->; apply H0; by left).
    cbn [negb]. split; [done|]. done.
Qed.

(** A block moved between the free list of slab [a] and the live blocks. *)
Lemma live_take s s' G G' c a o L :
  0 <= c < 8 → meta s' = meta s → heap_start_addr s' = heap_start_addr s →
  (∀ i b, 0 <= i < 8 → b ∈ gP G' i ++ gF G' i ↔ b ∈ gP G i ++ gF G i) →
  a ∈ gP G c ++ gF G c → (∀ i, 0 <= i < 8 → a ∈ gP G i ++ gF G i → i = c) →
  gL G a = o :: L → gL G' a = L → (∀ b, b ≠ a → gL G' b = gL G b) → o ∉ L → o ∈ objs a c →
  ∀ p n, live s' G' p n ↔ live s G p n ∨ (p = o ∧ n = obj_of c).
Proof.
  intros Hc Hm Hst Hel Ha Hu HL HL' Hoth Ho Hoo p n. unfold live. rewrite Hm, Hst. split.
  - intros [(i & b & Hi & Hb & Hp & Hnp & Hn)|H]; [|left; by right]. apply Hel in Hb; [|done].
    destruct (decide (b = a)) as [->|Hne].
    + assert (i = c) as -> by auto. rewrite HL' in Hnp. destruct (decide (p = o)) as [->|Hpo]; [by right|].
      left. left. exists c, a. split; [done|]. split; [done|]. split; [done|]. split; [|done].
      rewrite HL. rewrite not_elem_of_cons. done.
    + left. left. exists i, b. rewrite Hoth in Hnp by done. done.
  - intros [[(i & b & Hi & Hb & Hp & Hnp & Hn)|H]|[-> ->]]; [left|by right|left].
    + exists i, b. split; [done|]. split; [by apply Hel|]. split; [done|]. split; [|done].
      destruct (decide (b = a)) as [->|Hne]; [|by rewrite Hoth].
      rewrite HL'. rewrite HL in Hnp. by apply not_elem_of_cons in Hnp as [_ ?].
    + exists c, a. split; [done|]. split; [by apply Hel|]. by rewrite HL'.
Qed.

(** A free object is no live block. *)
Lemma free_obj_not_live s G c a o n : heap_inv s G → 0 <= c < 8 → a ∈ gP G c ++ gF G c → o ∈ gL G a →
  ¬ live s G o n.
Proof.
  intros Hi Hc Ha Ho. pose proof (so_objs _ _ _ _ (hi_slab _ _ Hi c a Hc Ha) o Ho) as Hobj.
  destruct (inv_page s G c a Hi Hc Ha) as (_ & _ & Ham & _). pose proof (objs_page a c o Hc Ham Hobj) as Hpg.
  intros [(i & b & Hi8 & Hb & Hp & Hnp & Hn)|(i & k & Hm & Hk & He & _)].
  - destruct (inv_page s G i b Hi Hi8 Hb) as (_ & _ & Hbm & _). pose proof (objs_page b i o Hi8 Hbm Hp) as Hpb.
    rewrite Hpg in Hpb. subst b. done.
  - pose proof (objs_range a c o Hc Hobj). destruct (cache_geometry c Hc) as (H1 & _).
    destruct (hi_range _ _ Hi) as (Hr & _). unfold PAGE_SIZE, SIZEOF_SLAB in *. zlia.
Qed.

(** The header of a slab and its neighbours on the list of cache [c]. *)
Lemma u32_in_use G s c a x : heap_inv s G → 0 <= c < 8 → a ∈ gP G c ++ gF G c → slabs s !! a = Some x →
  sl_in_use x = max_objs c - Z.of_nat (length (gL G a)) ∧ sl_cache x = Some c ∧ sl_magic x = SLAB_MAGIC ∧
  sl_free_list x = hdZ 0 (gL G a) ∧ 0 <= sl_in_use x <= 253 ∧ (gL G a ≠ [] → hdZ 0 (gL G a) ≠ 0).
Proof.
  intros Hi Hc Ha Hx. pose proof (hi_slab _ _ Hi c a Hc Ha) as Hok. destruct (so_hdr _ _ _ _ Hok) as (y & Hy & H1 & H2 & H3 & H4).
  rewrite Hx in Hy. injection Hy as <-. split; [done|]. split; [done|]. split; [done|]. split; [done|].
  destruct (cache_geometry c Hc) as (_ & _ & Hm & _). destruct (inv_page s G c a Hi Hc Ha) as (_ & _ & _ & Ha0).
  split.
  - assert (length (gL G a) ≤ length (objs a c))%nat.
    { apply submseteq_length, NoDup_submseteq; [apply (so_nodup _ _ _ _ Hok)|apply (so_objs _ _ _ _ Hok)]. }
    pose proof (objs_length a c Hc). lia.
  - intros Hne. pose proof (hdZ_elem 0 _ Hne) as Hin. apply (so_objs _ _ _ _ Hok), objs_range in Hin; [|done].
    unfold SIZEOF_SLAB in *. lia.
Qed.

Lemma dl_links s s' h l : (∀ u, nx s' u = nx s u ∧ pv s' u = pv s u) → dl s h l → dl s' h l.
Proof. intros H. apply dlist_ext. auto. Qed.

(** Updating the counters of slab [a] changes no link. *)
Lemma counters_links s a x fl n : slabs s !! a = Some x →
  let s' := set_slabs (<[a := set_sl_in_use n (set_sl_free_list fl x)]> (slabs s)) s in
  ∀ u, nx s' u = nx s u ∧ pv s' u = pv s u.
Proof.
  intros Hx s' u. unfold nx, pv. simpl. destruct (decide (u = a)) as [->|]; [by rewrite lookup_insert_eq, Hx|].
  by rewrite lookup_insert_ne.
Qed.

(** The counters written, with no list change. *)
Lemma counters_inv s G c a x L fl n b :
  heap_inv s G → 0 <= c < 8 → a ∈ gP G c ++ gF G c → slabs s !! a = Some x →
  let s' := set_bytes b (set_slabs (<[a := set_sl_in_use n (set_sl_free_list fl x)]> (slabs s)) s) in
  let G' := mk_ghost (gP G) (gF G) (fupd (gL G) a L) in
  fl = hdZ 0 L → n = max_objs c - Z.of_nat (length L) → chain (load64 b) L 0 → NoDup L → (∀ o, o ∈ L → o ∈ objs a c) →
  (a ∈ gP G c → L ≠ []) → (a ∈ gF G c → L = []) →
  (∀ i d o, 0 <= i < 8 → d ∈ gP G i ++ gF G i → d ≠ a → o ∈ gL G d → load64 b o = load64 (bytes s) o) →
  heap_inv s' G'.
Proof.
  intros Hi Hc Ha Hx s' G' Hfl Hn Hch Hnd Hob HP HF Hb.
  assert (Hlinks : ∀ u, nx s' u = nx s u ∧ pv s' u = pv s u) by apply (counters_links s a x fl n Hx).
  destruct (hi_meta _ _ Hi) as (Hm1 & Hm2 & Hm3).
  apply (heap_inv_update s s' G G' c a Hi Hc).
  - split; try done.
    + intros i d Hi8 Hne Hd. simpl. rewrite lookup_insert_ne; [done|]. intros <-.
      by apply Hne, (inv_cache_unique s G i c a).
    + intros i d Hi8 Hne Hd. simpl. rewrite lookup_insert_ne, fupd_ne by done. split; [done|]. split; [done|].
      split; [done|]. intros o Ho. by apply (Hb i d).
    + intros i Hi8 Hne Hd. by apply Hne, (inv_cache_unique s G i c a).
  - destruct (hi_cache _ _ Hi c Hc) as (k & Hk & H1 & H2 & H3 & H4). exists k.
    split_and!; try done; by apply (dl_links s).
  - intros _. simpl. rewrite fupd_eq. pose proof (hi_slab _ _ Hi c a Hc Ha) as Hok.
    destruct (u32_in_use G s c a x Hi Hc Ha Hx) as (_ & Hxc & Hxm & _).
    split; try done; [|apply (so_page _ _ _ _ Hok)]. eexists. split; [simpl; apply lookup_insert_eq|]. done.
  - simpl. rewrite fupd_eq. done.
  - simpl. rewrite fupd_eq. done.
Qed.

(** ** Moving a slab between the two lists of its cache *)

Definition hd_of (f : bool) : kmem_cache → Z := if f then slabs_full else slabs_partial.
Definition put_of (f : bool) : Z → kmem_cache → kmem_cache := if f then set_full else set_partial.
Definition gList (G : ghost) (f : bool) : Z → list Z := if f then gF G else gP G.
(** List [l] for the cache [c] on the side [f]. *)
Definition gput (f : bool) (c : Z) (l : list Z) (G : ghost) : ghost :=
  if f then mk_ghost (gP G) (fupd (gF G) c l) (gL G) else mk_ghost (fupd (gP G) c l) (gF G) (gL G).
Definition gfree (a : Z) (L : list Z) (G : ghost) : ghost := mk_ghost (gP G) (gF G) (fupd (gL G) a L).
Definition counted (a : Z) (x : slab) (fl n : Z) (b : mem) (s : heap) : heap :=
  set_bytes b (set_slabs (<[a := set_sl_in_use n (set_sl_free_list fl x)]> (slabs s)) s).

Lemma gList_put f g c l G : gList (gput f c l G) g = if decide (f = g) then fupd (gList G g) c l else gList G g.
Proof. by destruct f, g. Qed.
Lemma hd_put f g v k : hd_of f (put_of g v k) = if decide (f = g) then v else hd_of f k.
Proof. by destruct f, g. Qed.
Lemma put_fixed f k : put_of f (hd_of f k) k = k.
Proof. by destruct f, k. Qed.
Lemma put_size f v k : obj_size (put_of f v k) = obj_size k ∧ slabs_free (put_of f v k) = slabs_free k.
Proof. by destruct f. Qed.
Lemma gList_in G f c a : a ∈ gList G f c → a ∈ gP G c ++ gF G c.
Proof. destruct f; intros; apply elem_of_app; auto. Qed.
Lemma gList_dl s G f c k : heap_inv s G → 0 <= c < 8 → zget (caches s) c = Some k → dl s (hd_of f k) (gList G f c).
Proof.
  intros Hi Hc Hk. destruct (hi_cache _ _ Hi c Hc) as (k' & Hk' & _ & _ & H1 & H2). rewrite Hk in Hk'. injection Hk' as <-.
  by destruct f.
Qed.

(** Taking slab [a] off one of its lists: what remains is a state in which the
    cache lists are right. *)
Lemma unlink_ok s G c f a x k l1 l2 fl n b :
  heap_inv s G → 0 <= c < 8 → gList G f c = l1 ++ a :: l2 → slabs s !! a = Some x → zget (caches s) c = Some k →
  let s1 := counted a x fl n b s in
  ∃ s2, unlink_slab c a (put_of f) s1 = Done (tt, s2) ∧ relinked s1 s2 (l1 ++ l2) ∧ dl s2 (hdZ 0 (l1 ++ l2)) (l1 ++ l2) ∧
    caches s2 = <[Z.to_nat c := put_of f (hdZ 0 (l1 ++ l2)) k]> (caches s) ∧
    slabs s2 !! a = Some (set_sl_in_use n (set_sl_free_list fl x)) ∧ a ∉ l1 ++ l2.
Proof.
  intros Hi Hc Hl Hx Hk s1. pose proof (gList_dl s G f c k Hi Hc Hk) as Hd. rewrite Hl in Hd.
  pose proof (dl_nodup _ _ _ _ _ Hd) as Hnd.
  assert (a ∉ l1 ++ l2) as Hna.
  { apply NoDup_app in Hnd as (_ & Hdj & [Ha2 _]%NoDup_cons). intros [Ha|Ha]%elem_of_app; [|done].
    apply (Hdj a); [done|by left]. }
  destruct (unlink_slab_ok s1 c k a (set_sl_in_use n (set_sl_free_list fl x)) (put_of f) (hd_of f) l1 l2)
    as (s2 & Hrun & Hrl & Hd2 & Hca); [done|simpl; apply lookup_insert_eq| | |apply put_fixed|].
  - apply (dl_links s); [|done]. apply (counters_links s a x fl n Hx).
  - intros u Hu. simpl. rewrite lookup_insert_ne by (intros <-; done).
    apply (inv_member s G c u Hi Hc), (gList_in G f). rewrite Hl, elem_of_app, elem_of_cons.
    apply elem_of_app in Hu as [?|?]; auto.
  - exists s2. split; [done|]. split; [done|]. split; [done|]. split; [done|]. split; [|done].
    rewrite (rl_out _ _ _ Hrl) by done. simpl. apply lookup_insert_eq.
Qed.

Record counts_ok (s : heap) (G : ghost) (c a : Z) (L : list Z) (fl n : Z) (b : mem) : Prop := mk_counts_ok {
  co_fl : fl = hdZ 0 L;
  co_n : n = max_objs c - Z.of_nat (length L);
  co_chain : chain (load64 b) L 0;
  co_nodup : NoDup L;
  co_objs : ∀ o, o ∈ L → o ∈ objs a c;
  co_bytes : ∀ i d o, 0 <= i < 8 → d ∈ gP G i ++ gF G i → d ≠ a → o ∈ gL G d → load64 b o = load64 (bytes s) o;
}.

Lemma list_other_side s G c f a : heap_inv s G → 0 <= c < 8 → a ∈ gList G (negb f) c → a ∉ gList G f c.
Proof. intros Hi Hc H1 H2. destruct f; by apply (inv_lists_disjoint s G c a). Qed.

Lemma move_ok s G c f a x l1 l2 L fl n b :
  heap_inv s G → 0 <= c < 8 → gList G (negb f) c = l1 ++ a :: l2 → slabs s !! a = Some x →
  counts_ok s G c a L fl n b → (if f then L = [] else L ≠ []) →
  let s1 := counted a x fl n b s in
  let G' := gfree a L (gput f c (a :: gList G f c) (gput (negb f) c (l1 ++ l2) G)) in
  ∃ s3, bind (unlink_slab c a (put_of (negb f))) (λ _, push_slab c a (hd_of f) (put_of f)) s1 = Done (tt, s3) ∧
    heap_inv s3 G' ∧ heap_lock s3 = heap_lock s ∧ heap_start_addr s3 = heap_start_addr s ∧
    meta s3 = meta s ∧ bytes s3 = b.
Proof.
  intros Hi Hc Hl Hx [Hfl Hn Hch Hnd Hob Hby] HL s1 G'.
  destruct (hi_cache _ _ Hi c Hc) as (k & Hk & Hsz & Hfr & _ & _).
  destruct (unlink_ok s G c (negb f) a x k l1 l2 fl n b Hi Hc Hl Hx Hk) as (s2 & Hun & Hr2 & Hd2 & Hca2 & Hx2 & Hna).
  fold s1 in Hun, Hr2. mstep Hun. set (x' := set_sl_in_use n (set_sl_free_list fl x)) in *.
  pose proof (gList_dl s G f c k Hi Hc Hk) as Hdf.
  assert (Haf : a ∉ gList G f c).
  { apply (list_other_side s G c f a Hi Hc). rewrite Hl. apply elem_of_app. right. by left. }
  assert (Hain : a ∈ gP G c ++ gF G c) by (apply (gList_in G (negb f)); rewrite Hl; apply elem_of_app; right; by left).
  assert (Hrest : ∀ u, u ∈ l1 ++ l2 → u ∈ gList G (negb f) c).
  { intros u Hu. rewrite Hl, elem_of_app, elem_of_cons. apply elem_of_app in Hu as [?|?]; auto. }
  assert (Hf2 : ∀ u, u ∈ gList G f c → slabs s2 !! u = slabs s !! u).
  { intros u Hu. rewrite (rl_out _ _ _ Hr2).
    - simpl. rewrite lookup_insert_ne; [done|]. by intros <-.
    - intros Hu'. by apply (list_other_side s G c f u Hi Hc); [apply Hrest|]. }
  set (k2 := put_of (negb f) (hdZ 0 (l1 ++ l2)) k) in *.
  pose proof (zget_Some_range _ _ _ Hk) as Hcr. assert (0 <= c) as Hc0 by lia.
  destruct (push_slab_ok s2 c k2 a x' (hd_of f) (put_of f) (gList G f c)) as (s3 & Hpu & Hr3 & Hd3 & Hca3).
  { rewrite Hca2, zget_insert, decide_True by done. done. }
  { done. }
  { subst k2. rewrite hd_put, decide_False by (by destruct f). eapply dl_same; [|exact Hdf]. done. }
  { done. }
  { destruct (inv_page s G c a Hi Hc Hain) as (_ & _ & _ & ?). lia. }
  { intros u Hu. rewrite Hf2 by done. apply (inv_member s G c u Hi Hc), (gList_in G f), Hu. }
  exists s3. split; [done|]. pose proof (relinked_trans _ _ _ _ _ Hr2 Hr3) as Hr.
  assert (Hmeta : meta s3 = meta s) by (unfold meta; by rewrite (rl_meta _ _ _ Hr)).
  assert (Hout : ∀ u, u ≠ a → u ∉ gP G c ++ gF G c → slabs s3 !! u = slabs s !! u).
  { intros u Hua Hu. rewrite (rl_out _ _ _ Hr); [simpl; by rewrite lookup_insert_ne|].
    rewrite !elem_of_app, elem_of_cons. intros [H|[H|H]]; [|done|].
    - by apply Hu, (gList_in G (negb f)), Hrest, elem_of_app.
    - by apply Hu, (gList_in G f). }
  assert (Hsc : ∀ u, u ≠ a → score <$> slabs s3 !! u = score <$> slabs s !! u).
  { intros u Hua. rewrite (rl_core _ _ _ Hr). simpl. by rewrite lookup_insert_ne. }
  assert (HP : ∀ i, i ≠ c → gP G' i = gP G i ∧ gF G' i = gF G i).
  { intros i Hne. subst G'. destruct f; simpl; by rewrite !fupd_ne. }
  assert (HPF : gList G' f c = a :: gList G f c ∧ gList G' (negb f) c = l1 ++ l2).
  { subst G'. destruct f; simpl; by rewrite !fupd_eq. }
  assert (HgL : gL G' = fupd (gL G) a L) by (subst G'; by destruct f).
  assert (Hca : caches s3 = <[Z.to_nat c := put_of f a k2]> (caches s)) by (by rewrite Hca3, Hca2, list_insert_insert_eq).
  destruct (hi_meta _ _ Hi) as (Hm1 & Hm2 & Hm3).
  split; [|split; [by rewrite (rl_lock _ _ _ Hr)|split; [by rewrite (rl_start _ _ _ Hr)|
    split; [done|by rewrite (rl_bytes _ _ _ Hr)]]]].
  apply (heap_inv_update s s3 G G' c a Hi Hc).
  - split; try done; try (by rewrite ?(rl_start _ _ _ Hr), ?(rl_end _ _ _ Hr), ?(rl_total _ _ _ Hr)).
    + rewrite (rl_meta _ _ _ Hr), Hmeta. done.
    + rewrite Hca. apply length_insert.
    + intros i Hi0 Hne. rewrite Hca, zget_insert by done. by rewrite decide_False.
    + intros i d Hi8 Hne Hd. apply Hout; [intros ->; by apply Hne, (inv_cache_unique s G i c a)|].
      intros Hd'. by apply Hne, (inv_cache_unique s G i c d).
    + intros u Hua. destruct HPF as [H1 H2]. destruct f; simpl in *; rewrite ?H1, ?H2; [apply Hrest|].
      by intros [->|?]%elem_of_cons.
    + intros u Hua. destruct HPF as [H1 H2]. destruct f; simpl in *; rewrite ?H1, ?H2; [|apply Hrest].
      by intros [->|?]%elem_of_cons.
    + intros i d Hi8 Hne Hd. rewrite HgL, fupd_ne by done. split; [by apply Hsc|]. split; [done|].
      split; [by rewrite Hmeta|]. intros o Ho. rewrite (rl_bytes _ _ _ Hr). by apply (Hby i d).
    + intros i Hi8 Hne Hd. by apply Hne, (inv_cache_unique s G i c a).
  - exists (put_of f a k2). rewrite Hca, zget_insert, decide_True by done. subst k2.
    destruct (put_size f a (put_of (negb f) (hdZ 0 (l1 ++ l2)) k)) as [-> ->].
    destruct (put_size (negb f) (hdZ 0 (l1 ++ l2)) k) as [-> ->]. split; [done|]. split; [done|]. split; [done|].
    assert (dl s3 (hdZ 0 (l1 ++ l2)) (l1 ++ l2)) as Hdr.
    { eapply dl_same; [|exact Hd2]. intros u Hu. apply (rl_out _ _ _ Hr3).
      intros [->|Hu']%elem_of_cons; [done|]. by apply (list_other_side s G c f u Hi Hc); [apply Hrest|]. }
    destruct HPF as [H1 H2]. destruct f; simpl in *; rewrite ?H1, ?H2; done.
  - intros _. rewrite HgL, fupd_eq. destruct (u32_in_use G s c a x Hi Hc Hain Hx) as (_ & Hxc & Hxm & _).
    pose proof (hi_slab _ _ Hi c a Hc Hain) as Hok.
    destruct (so_page _ _ _ _ Hok) as (Hp1 & Hp2 & Hp3).
    pose proof (rl_core _ _ _ Hr3 a) as Hcore. rewrite Hx2 in Hcore. destruct (slabs s3 !! a) as [y|] eqn:Hy; [|done].
    simpl in Hcore. apply Some_inj in Hcore.
    split; try done.
    + exists y. split; [done|].
      change (sl_magic (score y) = SLAB_MAGIC ∧ sl_cache (score y) = Some c ∧ sl_free_list (score y) = hdZ 0 L ∧
        sl_in_use (score y) = (max_objs c - Z.of_nat (length L))%Z). rewrite Hcore. simpl. done.
    + by rewrite (rl_bytes _ _ _ Hr).
    + split; [done|]. rewrite (rl_start _ _ _ Hr), (rl_end _ _ _ Hr). split; [done|].
      rewrite Hmeta. unfold page_of. rewrite (rl_start _ _ _ Hr). done.
  - rewrite HgL, fupd_eq. intros Ha. destruct f; [|done]. destruct HPF as [H1 H2]. simpl in *. by rewrite H2 in Ha.
  - rewrite HgL, fupd_eq. intros Ha. destruct f; [done|]. destruct HPF as [H1 H2]. simpl in *. by rewrite H2 in Ha.
Qed.

(** ** Allocation and release of one object *)

Lemma chain_tail nxt o L n : chain nxt (o :: L) n → nxt o = hdZ n L ∧ chain nxt L n.
Proof. done. Qed.

Lemma take_obj_ok s G c a rest : heap_inv s G → 0 <= c < 8 → gP G c = a :: rest →
  ∃ o s' G', take_obj c a s = Done (o, s') ∧ heap_inv s' G' ∧ heap_lock s' = heap_lock s ∧ bytes s' = bytes s ∧
    (∀ n, ¬ live s G o n) ∧ ∀ p n, live s' G' p n ↔ live s G p n ∨ (p = o ∧ n = obj_of c).
Proof.
  intros Hi Hc HP. assert (Ha : a ∈ gP G c ++ gF G c) by (rewrite HP; by left).
  assert (HaP : a ∈ gP G c) by (rewrite HP; by left).
  pose proof (hi_partial _ _ Hi c a Hc HaP) as HL. destruct (gL G a) as [|o L] eqn:EL; [done|].
  pose proof (hi_slab _ _ Hi c a Hc Ha) as Hok. rewrite EL in Hok.
  destruct (so_hdr _ _ _ _ Hok) as (x & Hx & _). destruct (u32_in_use G s c a x Hi Hc Ha Hx) as (Hn & _ & _ & Hfl & Hr & _).
  rewrite EL in Hn, Hfl. cbn [hdZ] in Hfl. destruct (so_chain _ _ _ _ Hok) as [Hnext Hch].
  pose proof (so_nodup _ _ _ _ Hok) as Hnd. apply NoDup_cons in Hnd as [Ho Hnd].
  assert (Hobj : ∀ q, q ∈ L → q ∈ objs a c) by (intros q Hq; apply (so_objs _ _ _ _ Hok); by right).
  assert (Hoo : o ∈ objs a c) by (apply (so_objs _ _ _ _ Hok); by left).
  assert (Hco : counts_ok s G c a L (hdZ 0 L) (sl_in_use x + 1) (bytes s)).
  { split; try done. simpl in Hn. lia. }
  set (s1 := counted a x (hdZ 0 L) (sl_in_use x + 1) (bytes s) s).
  assert (Hpre : take_obj c a s = bind (if hdZ 0 L =? 0 then bind (unlink_slab c a set_partial)
      (λ _, push_slab c a slabs_full set_full) else ret tt) (λ _, ret o) s1).
  { unfold take_obj. mstep (get_slab_Done s a x Hx). rewrite Hfl. cbv zeta.
    unfold bind at 1, read_word at 1, gets at 1. rewrite Hnext. mstep (mod_slab_Done s a x (set_sl_free_list (hdZ 0 L)) Hx).
    erewrite (bind_Done (mod_slab a _)) by (apply mod_slab_Done; simpl; apply lookup_insert_eq).
    simpl. rewrite insert_insert_eq, u32_id by lia. done. }
  rewrite Hpre. assert (Hu : ∀ i, 0 <= i < 8 → a ∈ gP G i ++ gF G i → i = c) by (intros i Hi8 Hin; by apply (inv_cache_unique s G i c a)).
  assert (Hnl : ∀ n, ¬ live s G o n).
  { intros n. apply (free_obj_not_live s G c a); try done. rewrite EL. by left. }
  destruct (decide (L = [])) as [->|HLne].
  - cbn [hdZ]. cbn [Z.eqb].
    destruct (move_ok s G c true a x [] rest [] 0 (sl_in_use x + 1) (bytes s) Hi Hc HP Hx Hco eq_refl)
      as (s3 & Hrun & Hi3 & Hl3 & Hst3 & Hm3 & Hb3).
    exists o, s3. eexists. cbn [negb hd_of put_of] in Hrun. fold s1 in Hrun.
    rewrite (bind_Done _ _ _ _ _ Hrun). split; [done|]. split; [exact Hi3|]. split; [done|]. split; [done|]. split; [done|].
    apply (live_take s s3 G _ c a o []); try done.
    + intros i b Hi8. simpl. destruct (decide (i = c)) as [->|]; [|by rewrite !fupd_ne].
      rewrite !fupd_eq, HP. set_solver.
    + simpl. apply fupd_eq.
    + intros b Hb. simpl. by apply fupd_ne.
  - rewrite (proj2 (Z.eqb_neq _ _)).
    2:{ pose proof (Hobj (hdZ 0 L) (hdZ_elem 0 L HLne)) as H2. apply objs_range in H2; [|done].
        destruct (inv_page s G c a Hi Hc Ha) as (_ & _ & _ & ?). unfold SIZEOF_SLAB in *. lia. }
    exists o, s1. eexists. split; [done|]. split.
    { destruct Hco as [H1 H2 H3 H4 H5 H6].
      apply (counters_inv s G c a x L (hdZ 0 L) (sl_in_use x + 1) (bytes s) Hi Hc Ha Hx); try done.
      - intros HF. exfalso. by apply (inv_lists_disjoint s G c a). }
    split; [done|]. split; [done|]. split; [done|].
    apply (live_take s s1 G _ c a o L); try done.
    + simpl. apply fupd_eq.
    + intros b Hb. simpl. by apply fupd_ne.
Qed.

Lemma cache_alloc_ok s G c : heap_inv s G → 0 <= c < 8 →
  (cache_alloc c s = Done (0, s) ∧ gP G c = [] ∧ ∀ x, 0 <= x → ¬ run_free (meta s) x 1) ∨
  ∃ o s' G', cache_alloc c s = Done (o, s') ∧ heap_inv s' G' ∧ heap_lock s' = heap_lock s ∧
    (∀ n, ¬ live s G o n) ∧ (∀ p n, live s' G' p n ↔ live s G p n ∨ (p = o ∧ n = obj_of c)) ∧ keeps s s' G.
Proof.
  intros Hi Hc. unfold cache_alloc.
  destruct (alloc_slab_ok s G c Hi Hc) as [(Hal & H1 & H2)|(a & rest & s1 & G1 & Hal & Hi1 & HP & Hl1 & Hlive1 & Hk1)].
  { left. by mstep Hal. }
  right. mstep Hal. destruct (inv_page s1 G1 c a Hi1 Hc) as (_ & _ & _ & Ha0); [rewrite HP; by left|].
  rewrite (proj2 (Z.eqb_neq a 0)) by lia.
  destruct (take_obj_ok s1 G1 c a rest Hi1 Hc HP) as (o & s2 & G2 & Hrun & Hi2 & Hl2 & Hb2 & Hnl & Hlive2).
  exists o, s2, G2. split; [done|]. split; [done|]. split; [congruence|]. split; [|split].
  - intros n Hn. apply (Hnl n). by apply Hlive1.
  - intros p n. by rewrite Hlive2, Hlive1.
  - intros p n x Hp Hx. rewrite Hb2. by apply (Hk1 p n).
Qed.

Lemma free_pages_run s l ptr i p : page_metadata s = Some l → total_pages s = Z.of_nat (length l) →
  Z.of_nat (length l) < 65536 → virt_to_page_idx s ptr = i → zget l i = Some p → 0 < pi_count p →
  i + pi_count p <= Z.of_nat (length l) →
  ∃ l', free_pages_backend ptr s = Done (tt, set_page_metadata (Some l') s) ∧
    rewritten l l' i (pi_count p) (λ _, mk_page_info PAGE_TYPE_FREE 0).
Proof.
  intros Hl Hto Hmax Hv Hp Hc Hle. pose proof (zget_Some_range _ _ _ Hp) as Hi.
  unfold free_pages_backend. unfold bind at 1, gets at 1. rewrite Hv. unfold bind at 1, gets at 1. rewrite Hto.
  rewrite (proj2 (Z.leb_gt _ _)) by lia. mstep (get_page_Done s l i p Hl Hp).
  rewrite (proj2 (Z.eqb_neq _ _)) by lia. apply rewrite_pages; [done|lia|lia|done|].
  intros s1 l1 j Hl1 Hle1 _ _ Hj. rewrite u32_id by lia. rewrite (proj2 (Z.ltb_lt _ _)) by lia.
  apply put_page_Done; [done|lia].
Qed.

Lemma cut_slab_page s l' G c a b : heap_inv s G → 0 <= c < 8 → a ∈ gP G c ++ gF G c →
  rewritten (meta s) l' (page_of s a) 1 (λ _, mk_page_info PAGE_TYPE_FREE 0) →
  b ≠ a → (∃ i, 0 <= i < 8 ∧ b ∈ gP G i ++ gF G i) → zget l' (page_of s b) = zget (meta s) (page_of s b).
Proof.
  intros Hi Hc Ha [_ Hg] Hne (i & Hi8 & Hb). rewrite Hg. apply decide_False.
  destruct (inv_page s G c a Hi Hc Ha) as (H1 & _). destruct (inv_page s G i b Hi Hi8 Hb) as (H2 & _).
  intros Hp. apply Hne. rewrite H1, H2. assert (page_of s b = page_of s a) as -> by lia. done.
Qed.

(** Removing slab [a], whose page becomes free. *)
Lemma drop_slab_ok s G c f a x l1 l2 fl n b :
  heap_inv s G → 0 <= c < 8 → gList G f c = l1 ++ a :: l2 → slabs s !! a = Some x →
  (∀ i d o, 0 <= i < 8 → d ∈ gP G i ++ gF G i → d ≠ a → o ∈ gL G d → load64 b o = load64 (bytes s) o) →
  let s1 := counted a x fl n b s in let G' := gput f c (l1 ++ l2) G in
  ∃ s3, bind (unlink_slab c a (put_of f)) (λ _, free_pages_backend a) s1 = Done (tt, s3) ∧
    heap_inv s3 G' ∧ heap_lock s3 = heap_lock s ∧ heap_start_addr s3 = heap_start_addr s ∧ bytes s3 = b ∧
    rewritten (meta s) (meta s3) (page_of s a) 1 (λ _, mk_page_info PAGE_TYPE_FREE 0).
Proof.
  intros Hi Hc Hl Hx Hby s1 G'. destruct (hi_cache _ _ Hi c Hc) as (k & Hk & Hsz & Hfr & _ & _).
  destruct (unlink_ok s G c f a x k l1 l2 fl n b Hi Hc Hl Hx Hk) as (s2 & Hun & Hr2 & Hd2 & Hca2 & Hx2 & Hna).
  fold s1 in Hun, Hr2. mstep Hun.
  assert (Hain : a ∈ gP G c ++ gF G c) by (apply (gList_in G f); rewrite Hl; apply elem_of_app; right; by left).
  assert (Hrest : ∀ u, u ∈ l1 ++ l2 → u ∈ gList G f c).
  { intros u Hu. rewrite Hl, elem_of_app, elem_of_cons. apply elem_of_app in Hu as [?|?]; auto. }
  destruct (hi_meta _ _ Hi) as (Hm1 & Hm2 & Hm3). destruct (hi_range _ _ Hi) as (Hg1 & Hg2 & Hg3 & Hg4 & Hg5).
  pose proof (so_page _ _ _ _ (hi_slab _ _ Hi c a Hc Hain)) as (Hp1 & Hp2 & Hp3).
  destruct (virt_idx_in s G a Hi Hp2) as [Hvi Hvr].
  destruct (free_pages_run s2 (meta s) a (page_of s a) (mk_page_info PAGE_TYPE_SLAB 1)) as (l' & Hfp & Hrw).
  { by rewrite (rl_meta _ _ _ Hr2). } { by rewrite (rl_total _ _ _ Hr2). } { lia. }
  { rewrite <- Hvi. unfold virt_to_page_idx. by rewrite (rl_start _ _ _ Hr2), (rl_end _ _ _ Hr2). }
  { done. } { simpl. lia. } { simpl. lia. }
  rewrite Hfp. set (s3 := set_page_metadata (Some l') s2). exists s3. split; [done|].
  assert (Hm' : meta s3 = l') by done. cbn [pi_count] in Hrw.
  split; [|split; [apply (rl_lock _ _ _ Hr2)|split; [apply (rl_start _ _ _ Hr2)|split; [apply (rl_bytes _ _ _ Hr2)|by rewrite Hm']]]].
  assert (Hout : ∀ u, u ≠ a → u ∉ gList G f c → slabs s3 !! u = slabs s !! u).
  { intros u Hua Hu. simpl. rewrite (rl_out _ _ _ Hr2); [simpl; by rewrite lookup_insert_ne|]. intros H. by apply Hu, Hrest. }
  assert (Hother : a ∉ gList G (negb f) c).
  { apply (list_other_side s G c (negb f) a Hi Hc). rewrite negb_involutive, Hl. apply elem_of_app. right. by left. }
  assert (HPF : gList G' f c = l1 ++ l2 ∧ gList G' (negb f) = gList G (negb f) ∧ gL G' = gL G).
  { subst G'. destruct f; simpl; by rewrite ?fupd_eq. }
  assert (Hgone : a ∉ gP G' c ++ gF G' c).
  { destruct HPF as (H1 & H2 & _). rewrite not_elem_of_app. destruct f; cbn [gList negb hd_of] in *; rewrite H1, H2; done. }
  pose proof (zget_Some_range _ _ _ Hk) as Hcr. assert (0 <= c) as Hc0 by lia.
  apply (heap_inv_update s s3 G G' c a Hi Hc).
  - split; try done.
    + apply (rl_start _ _ _ Hr2).
    + apply (rl_end _ _ _ Hr2).
    + apply (rl_total _ _ _ Hr2).
    + rewrite Hm'. split; [done|]. split; [by destruct Hrw|].
      apply (freed_meta_ok (meta s) l' (page_of s a) (mk_page_info PAGE_TYPE_SLAB 1)); [done|done|simpl; lia|done].
    + simpl. rewrite Hca2. apply length_insert.
    + intros i Hi0 Hne. simpl. rewrite Hca2, zget_insert by done. by rewrite decide_False.
    + intros i Hne. subst G'. destruct f; simpl; by rewrite fupd_ne.
    + intros i d Hi8 Hne Hd. apply Hout; [intros ->; by apply Hne, (inv_cache_unique s G i c a)|].
      intros Hd'. apply Hne, (inv_cache_unique s G i c d); try done. by apply (gList_in G f).
    + intros u Hua. destruct HPF as (H1 & H2 & _). destruct f; cbn [gList negb hd_of] in *; rewrite ?H1, ?H2; [done|apply Hrest].
    + intros u Hua. destruct HPF as (H1 & H2 & _). destruct f; cbn [gList negb hd_of] in *; rewrite ?H1, ?H2; [apply Hrest|done].
    + intros i d Hi8 Hne Hd. destruct HPF as (_ & _ & HgL). rewrite HgL. split; [|split; [done|split]].
      * simpl. rewrite (rl_core _ _ _ Hr2). simpl. by rewrite lookup_insert_ne.
      * rewrite Hm'. apply (cut_slab_page s l' G c a d); try done. by exists i.
      * intros o Ho. simpl. rewrite (rl_bytes _ _ _ Hr2). by apply (Hby i d).
    + intros i Hi8 Hne Hd. by apply Hne, (inv_cache_unique s G i c a).
  - exists (put_of f (hdZ 0 (l1 ++ l2)) k). simpl. rewrite Hca2, zget_insert, decide_True by done.
    destruct (put_size f (hdZ 0 (l1 ++ l2)) k) as [-> ->]. split; [done|]. split; [done|]. split; [done|].
    assert (dl s3 (hd_of (negb f) k) (gList G (negb f) c)) as Hdo.
    { eapply dl_same; [|apply (gList_dl s G (negb f) c k Hi Hc Hk)]. intros u Hu. apply Hout; [by intros ->|].
      intros Hu'. apply (list_other_side s G c f u Hi Hc); done. }
    destruct HPF as (H1 & H2 & _). destruct f; cbn [gList negb hd_of] in *; rewrite ?H1, ?H2; done.
  - intros Ha'. done.
  - intros Ha'. exfalso. apply Hgone, elem_of_app. by left.
  - intros Ha'. exfalso. apply Hgone, elem_of_app. by right.
Qed.

(** What releasing block [p] does to the live blocks and their bytes. *)
Definition released (s s' : heap) (G G' : ghost) (p : Z) : Prop :=
  (∀ q n, live s' G' q n ↔ live s G q n ∧ q ≠ p) ∧
  ∀ q n x, live s' G' q n → q <= x < q + n → bytes s' x = bytes s x.

Lemma elem_split_side G c a : a ∈ gP G c ++ gF G c → ∃ f l1 l2, gList G f c = l1 ++ a :: l2.
Proof.
  intros [Ha|Ha]%elem_of_app; apply list_elem_of_split in Ha as (l1 & l2 & Hl); [exists false|exists true]; by exists l1, l2.
Qed.

(** The free list with [p] on its front. *)
Lemma push_obj_counts s G c a p : heap_inv s G → 0 <= c < 8 → a ∈ gP G c ++ gF G c → p ∈ objs a c → p ∉ gL G a →
  ∀ x, slabs s !! a = Some x →
  counts_ok s G c a (p :: gL G a) p (sl_in_use x - 1) (store64 (bytes s) p (sl_free_list x)) ∧ 0 < sl_in_use x <= 253.
Proof.
  intros Hi Hc Ha Hp Hnp x Hx. pose proof (hi_slab _ _ Hi c a Hc Ha) as Hok.
  destruct (u32_in_use G s c a x Hi Hc Ha Hx) as (Hn & _ & _ & Hfl & Hr & _).
  destruct (inv_page s G c a Hi Hc Ha) as (_ & _ & Ham & Ha0).
  assert (NoDup (p :: gL G a)) as Hnd by (constructor; [done|apply (so_nodup _ _ _ _ Hok)]).
  assert (Hob : ∀ o, o ∈ p :: gL G a → o ∈ objs a c).
  { intros o [->|Ho]%elem_of_cons; [done|by apply (so_objs _ _ _ _ Hok)]. }
  assert (0 <= sl_free_list x < 2 ^ 64) as Hfr.
  { rewrite Hfl. destruct (decide (gL G a = [])) as [->|Hne]; [simpl; lia|].
    pose proof (Hob (hdZ 0 (gL G a)) ltac:(right; by apply hdZ_elem)) as Ho. apply objs_range in Ho; [|done].
    destruct (so_page _ _ _ _ Hok) as (_ & Hp2 & _). destruct (hi_range _ _ Hi) as (Hg1 & _ & Hg3 & Hg4 & _).
    destruct (cache_geometry c Hc) as (H1 & _). unfold PAGE_SIZE, SIZEOF_SLAB in *. zlia. }
  split; [split; try done|].
  - simpl. lia.
  - split.
    + rewrite load64_store64 by done. done.
    + eapply chain_ext; [|apply (so_chain _ _ _ _ Hok)]. intros o Ho. apply load64_store64_ne.
      apply (obj_words_disjoint s G c c a a p o); try done; [apply Hob; by right|]. intros _. split; [done|]. by intros ->.
  - intros i d o Hi8 Hd Hne Ho. apply load64_store64_ne.
    destruct (inv_page s G i d Hi Hi8 Hd) as (_ & _ & Hdm & _).
    apply (obj_words_disjoint s G c i a d p o); try done. by apply (so_objs _ _ _ _ (hi_slab _ _ Hi i d Hi8 Hd)).
  - assert (length (p :: gL G a) ≤ length (objs a c))%nat as Hle.
    { apply submseteq_length, NoDup_submseteq; [done|]. apply Hob. }
    pose proof (objs_length a c Hc). simpl in Hle. lia.
Qed.

(** The slab side of the release, once the free list has [p] on its front. *)
Lemma release_live s s' G G' c a p : heap_inv s G → heap_inv s' G' → 0 <= c < 8 → meta s' = meta s →
  heap_start_addr s' = heap_start_addr s → (∀ i b, 0 <= i < 8 → b ∈ gP G' i ++ gF G' i ↔ b ∈ gP G i ++ gF G i) →
  a ∈ gP G c ++ gF G c → gL G' a = p :: gL G a → (∀ b, b ≠ a → gL G' b = gL G b) → p ∉ gL G a → p ∈ objs a c →
  ∀ q n, live s' G' q n ↔ live s G q n ∧ q ≠ p.
Proof.
  intros Hi Hi' Hc Hm Hst Hel Ha HL Hoth Hnp Hp q n.
  assert (Hlt : live s G q n ↔ live s' G' q n ∨ (q = p ∧ n = obj_of c)).
  { apply (live_take s' s G' G c a p (gL G a)); try done.
    - intros i b Hi8. symmetry. by apply Hel.
    - by apply Hel.
    - intros i Hi8 Hin. apply (inv_cache_unique s' G' i c a); try done. by apply Hel.
    - intros b Hb. symmetry. by apply Hoth. }
  assert (Hnl : ¬ live s' G' p n).
  { apply (free_obj_not_live s' G' c a); [done|done|by apply Hel|rewrite HL; by left]. }
  rewrite Hlt. split.
  - intros Hl. split; [by left|]. by intros ->.
  - intros [[Hl|[-> _]] Hne]; done.
Qed.

(** When the last live object goes, all objects are on the free list. *)
Lemma all_free s G c a p x : heap_inv s G → 0 <= c < 8 → a ∈ gP G c ++ gF G c → slabs s !! a = Some x →
  counts_ok s G c a (p :: gL G a) p (sl_in_use x - 1) (store64 (bytes s) p (sl_free_list x)) → sl_in_use x = 1 →
  ∀ o, o ∈ objs a c → o ∈ p :: gL G a.
Proof.
  intros Hi Hc Ha Hx Hco H1. destruct Hco as [_ Hn _ Hnd Hob _]. pose proof (objs_length a c Hc) as Hlen.
  assert (p :: gL G a ≡ₚ objs a c) as Hperm.
  { apply submseteq_length_Permutation; [by apply NoDup_submseteq|]. lia. }
  intros o Ho. by rewrite Hperm.
Qed.

Lemma cache_free_run s G c a p x : heap_inv s G → 0 <= c < 8 → a ∈ gP G c ++ gF G c → p ∈ objs a c → p ∉ gL G a →
  slabs s !! a = Some x →
  cache_free c p s =
    (if sl_in_use x - 1 =? 0 then
       bind (if sl_free_list x =? 0 then unlink_slab c a set_full else unlink_slab c a set_partial)
         (λ _, free_pages_backend a)
     else if sl_free_list x =? 0 then bind (unlink_slab c a set_full) (λ _, push_slab c a slabs_partial set_partial)
     else ret tt) (counted a x p (sl_in_use x - 1) (store64 (bytes s) p (sl_free_list x)) s).
Proof.
  intros Hi Hc Ha Hp Hnp Hx. destruct (inv_page s G c a Hi Hc Ha) as (_ & _ & Ham & Ha0).
  destruct (u32_in_use G s c a x Hi Hc Ha Hx) as (_ & _ & Hmg & _).
  destruct (push_obj_counts s G c a p Hi Hc Ha Hp Hnp x Hx) as [_ Hr].
  unfold cache_free. rewrite (objs_page a c p Hc Ham Hp). mstep (get_slab_Done s a x Hx).
  rewrite Hmg, Z.eqb_refl. cbn [negb]. cbv zeta. unfold bind at 1, write_word at 1, modify at 1.
  set (s0 := set_bytes _ s). mstep (mod_slab_Done s0 a x (set_sl_free_list p) Hx).
  erewrite (bind_Done (mod_slab a _)) by (apply mod_slab_Done; simpl; apply lookup_insert_eq).
  simpl. rewrite insert_insert_eq, u32_id by lia. reflexivity.
Qed.

(** The live blocks when slab [a] goes with its last object. *)
Lemma drop_slab_live s s3 G c f a p l1 l2 x : heap_inv s G → 0 <= c < 8 → gList G f c = l1 ++ a :: l2 →
  slabs s !! a = Some x → p ∈ objs a c → p ∉ gL G a →
  counts_ok s G c a (p :: gL G a) p (sl_in_use x - 1) (store64 (bytes s) p (sl_free_list x)) → sl_in_use x - 1 = 0 →
  heap_start_addr s3 = heap_start_addr s →
  rewritten (meta s) (meta s3) (page_of s a) 1 (λ _, mk_page_info PAGE_TYPE_FREE 0) →
  ∀ q n, live s3 (gput f c (l1 ++ l2) G) q n ↔ live s G q n ∧ q ≠ p.
Proof.
  intros Hi Hc Hl Hx Hp Hnp Hco H0 Hst [_ Hg] q n.
  assert (Ha : a ∈ gP G c ++ gF G c) by (apply (gList_in G f); rewrite Hl; apply elem_of_app; right; by left).
  pose proof (all_free s G c a p x Hi Hc Ha Hx Hco ltac:(lia)) as Hall.
  pose proof (so_page _ _ _ _ (hi_slab _ _ Hi c a Hc Ha)) as (_ & _ & Hpg).
  destruct (inv_page s G c a Hi Hc Ha) as (_ & _ & Ham & _).
  set (G' := gput f c (l1 ++ l2) G). assert (HgL : gL G' = gL G) by (subst G'; by destruct f).
  assert (Hna : ∀ i, 0 <= i < 8 → a ∉ gP G' i ++ gF G' i).
  { intros i Hi8 Hin. destruct (hi_cache _ _ Hi c Hc) as (k & Hk & _). pose proof (gList_dl s G f c k Hi Hc Hk) as Hd.
    rewrite Hl in Hd. pose proof (dl_nodup _ _ _ _ _ Hd) as (_ & Hdj & [Ha2 _]%NoDup_cons)%NoDup_app.
    assert (a ∉ l1) by (intros ?; apply (Hdj a); [done|by left]).
    assert (a ∉ gList G (negb f) c) as Ho.
    { apply (list_other_side s G c (negb f) a Hi Hc). rewrite negb_involutive, Hl. apply elem_of_app. right. by left. }
    destruct (decide (i = c)) as [->|Hne].
    - subst G'. destruct f; cbn [gput gP gF gList negb] in *; rewrite fupd_eq in Hin; rewrite !elem_of_app in Hin; naive_solver.
    - apply Hne, (inv_cache_unique s G i c a); try done. subst G'. destruct f; cbn [gput gP gF] in Hin; by rewrite fupd_ne in Hin. }
  assert (Hel : ∀ i b, 0 <= i < 8 → b ≠ a → b ∈ gP G' i ++ gF G' i ↔ b ∈ gP G i ++ gF G i).
  { intros i b Hi8 Hb. subst G'. destruct (decide (i = c)) as [->|Hne].
    - destruct f; cbn [gput gP gF gList] in *; rewrite fupd_eq, !elem_of_app, Hl, elem_of_app, elem_of_cons; naive_solver.
    - destruct f; cbn [gput gP gF]; by rewrite fupd_ne. }
  assert (Hpage : ∀ o i, o ∈ objs a c → o ≠ heap_start_addr s + i * PAGE_SIZE).
  { intros o i Ho He. pose proof (objs_range a c o Hc Ho). destruct (cache_geometry c Hc) as (H1 & _).
    destruct (hi_range _ _ Hi) as (Hr & _). unfold PAGE_SIZE, SIZEOF_SLAB in *. zlia. }
  unfold live. rewrite Hst. split.
  - intros [(i & b & Hi8 & Hb & Hq & Hnq & Hn)|(i & k & Hk & Hk0 & Hq & Hn)].
    + assert (b ≠ a) as Hba by (intros ->; by apply (Hna i)). apply Hel in Hb; [|done|done].
      rewrite HgL in Hnq. split; [left; by exists i, b|]. intros ->.
      destruct (inv_page s G i b Hi Hi8 Hb) as (_ & _ & Hbm & _). apply Hba.
      by rewrite <- (objs_page b i p Hi8 Hbm Hq), <- (objs_page a c p Hc Ham Hp).
    + rewrite Hg in Hk. case_decide; [done|]. split; [right; by exists i, k|].
      intros ->. by apply (Hpage p i Hp).
  - intros [[(i & b & Hi8 & Hb & Hq & Hnq & Hn)|(i & k & Hk & Hk0 & Hq & Hn)] Hne]; [left|right].
    + assert (b ≠ a) as Hba.
      { intros ->. assert (i = c) as -> by (by apply (inv_cache_unique s G i c a)).
        apply Hall in Hq. by apply elem_of_cons in Hq as [?|?]. }
      exists i, b. rewrite HgL. split; [done|]. by rewrite Hel.
    + exists i, k. rewrite Hg, decide_False; [done|]. intros Hpi. assert (i = page_of s a) as -> by lia. congruence.
Qed.

Lemma cache_free_ok s G c a p : heap_inv s G → 0 <= c < 8 → a ∈ gP G c ++ gF G c → p ∈ objs a c → p ∉ gL G a →
  ∃ s' G', cache_free c p s = Done (tt, s') ∧ heap_inv s' G' ∧ heap_lock s' = heap_lock s ∧ released s s' G G' p.
Proof.
  intros Hi Hc Ha Hp Hnp. pose proof (hi_slab _ _ Hi c a Hc Ha) as Hok.
  destruct (so_hdr _ _ _ _ Hok) as (x & Hx & _).
  rewrite (cache_free_run s G c a p x Hi Hc Ha Hp Hnp Hx).
  destruct (u32_in_use G s c a x Hi Hc Ha Hx) as (Hn & _ & _ & Hfl & _ & Hfn).
  destruct (push_obj_counts s G c a p Hi Hc Ha Hp Hnp x Hx) as [Hco Hr].
  assert (Hlp : live s G p (obj_of c)) by (left; by exists c, a).
  assert (Hfull : (sl_free_list x =? 0) = bool_decide (gL G a = [])).
  { rewrite Hfl. case_bool_decide as He; [by rewrite He|]. apply Z.eqb_neq. by apply Hfn. }
  destruct (cache_geometry c Hc) as (Hg1 & _).
  assert (Hkeep : ∀ s' G', bytes s' = store64 (bytes s) p (sl_free_list x) →
    (∀ q n, live s' G' q n ↔ live s G q n ∧ q ≠ p) → released s s' G G' p).
  { intros s' G' Hb Hl. split; [done|]. intros q n y Hq Hy. apply Hl in Hq as [Hq Hne]. rewrite Hb.
    apply store_le_out. destruct (live_disjoint s G q n p (obj_of c) Hi Hq Hlp Hne); lia. }
  set (b := store64 (bytes s) p (sl_free_list x)) in *.
  destruct (elem_split_side G c a Ha) as (f & l1 & l2 & Hl).
  assert (Hf : bool_decide (gL G a = []) = f).
  { assert (a ∈ gList G f c) as Hin by (rewrite Hl; apply elem_of_app; right; by left).
    destruct f; [apply bool_decide_eq_true; by apply (hi_full _ _ Hi c)|apply bool_decide_eq_false; by apply (hi_partial _ _ Hi c)]. }
  rewrite Hfull, Hf. destruct (Z.eqb_spec (sl_in_use x - 1) 0) as [H0|H0].
  - assert (bind (if f then unlink_slab c a set_full else unlink_slab c a set_partial) (λ _, free_pages_backend a) =
      bind (unlink_slab c a (put_of f)) (λ _, free_pages_backend a)) as -> by (by destruct f).
    destruct (drop_slab_ok s G c f a x l1 l2 p (sl_in_use x - 1) b Hi Hc Hl Hx (co_bytes _ _ _ _ _ _ _ _ Hco))
      as (s3 & Hrun & Hi3 & Hlk & Hst & Hb & Hrw).
    rewrite Hrun. exists s3. eexists. split; [done|]. split; [exact Hi3|]. split; [done|]. apply Hkeep; [done|].
    intros q n. by apply (drop_slab_live s s3 G c f a p l1 l2 x).
  - destruct f.
    + assert (gL G a = []) as HL by (by apply (bool_decide_eq_true_1 _ Hf)).
      destruct (move_ok s G c false a x l1 l2 (p :: gL G a) p (sl_in_use x - 1) b Hi Hc Hl Hx Hco ltac:(done))
        as (s3 & Hrun & Hi3 & Hlk & Hst & Hm & Hb).
      cbn [negb hd_of put_of] in Hrun. rewrite Hrun. exists s3. eexists. split; [done|]. split; [exact Hi3|]. split; [done|].
      apply Hkeep; [done|]. apply (release_live s s3 G _ c a p); try done.
      * intros i d Hi8. cbn [gfree gput negb gP gF gList]. destruct (decide (i = c)) as [->|]; [|by rewrite !fupd_ne].
        rewrite !fupd_eq. cbn [gList negb] in Hl. rewrite Hl. set_solver.
      * cbn. apply fupd_eq.
      * intros d Hd. cbn. by apply fupd_ne.
    + assert (gL G a ≠ []) as HL by (by apply (bool_decide_eq_false_1 _ Hf)).
      eexists. eexists. split; [done|]. destruct Hco as [H1 H2 H3 H4 H5 H6].
      assert (Hi' : heap_inv (counted a x p (sl_in_use x - 1) b s) (mk_ghost (gP G) (gF G) (fupd (gL G) a (p :: gL G a)))).
      { apply (counters_inv s G c a x (p :: gL G a)); try done.
        intros HF. by rewrite (hi_full _ _ Hi c a Hc HF) in HL. }
      split; [exact Hi'|]. split; [done|]. apply Hkeep; [done|].
      apply (release_live s _ G _ c a p); try done.
      * cbn. apply fupd_eq.
      * intros d Hd. cbn. by apply fupd_ne.
Qed.

(** ** The allocator's operations *)

Lemma heap_inv_lock s G b : heap_inv s G → heap_inv (set_heap_lock b s) G.
Proof.
  intros [H1 H2 H3 H4 H5 H6 H7]. split; try done. intros c a Hc Ha.
  destruct (H5 c a Hc Ha) as [? ? ? ? ?]. by split.
Qed.

Lemma choose_cache_ok cs size : ∀ i, (∃ k, k ∈ cs ∧ size <= obj_size k) →
  ∃ c, choose_cache cs i size = Some c ∧ i <= c < i + Z.of_nat (length cs) ∧
    ∃ k, cs !! Z.to_nat (c - i) = Some k ∧ size <= obj_size k.
Proof.
  induction cs as [|k cs IH]; intros i (k0 & Hk0 & Hs); [by apply elem_of_nil in Hk0|]. simpl.
  destruct (Z.leb_spec size (obj_size k)) as [Hle|Hlt].
  - exists i. split; [done|]. split; [lia|]. exists k. replace (i - i) with 0 by lia. done.
  - apply elem_of_cons in Hk0 as [->|Hk0]; [lia|]. destruct (IH (i + 1)) as (c & -> & Hc & k' & Hk' & Hs'); [by exists k0|].
    exists c. split; [done|]. split; [lia|]. exists k'. replace (Z.to_nat (c - i)) with (S (Z.to_nat (c - (i + 1)))) by lia. done.
Qed.

Lemma inv_choose_cache s G size : heap_inv s G → size <= 2048 →
  ∃ c, choose_cache (caches s) 0 size = Some c ∧ 0 <= c < 8 ∧ size <= obj_of c.
Proof.
  intros Hi Hs. pose proof (hi_len _ _ Hi) as Hl.
  destruct (hi_cache _ _ Hi 7 ltac:(lia)) as (k & Hk & Hsz & _).
  destruct (choose_cache_ok (caches s) size 0) as (c & Hc & Hr & k' & Hk' & Hs').
  { exists k. split; [|by rewrite Hsz]. unfold zget in Hk. case_decide; [|done]. by eapply list_elem_of_lookup_2. }
  exists c. split; [done|]. split; [lia|]. destruct (hi_cache _ _ Hi c ltac:(lia)) as (k2 & Hk2 & Hsz2 & _).
  unfold zget in Hk2. rewrite decide_True in Hk2 by lia. rewrite Z.sub_0_r in Hk'. rewrite Hk2 in Hk'.
  injection Hk' as <-. by rewrite <- Hsz2.
Qed.

(** Changing pages that belong to no slab. *)
Lemma pages_inv s l' G : heap_inv s G → length l' = length (meta s) → meta_ok l' →
  (∀ i b, 0 <= i < 8 → b ∈ gP G i ++ gF G i → zget l' (page_of s b) = zget (meta s) (page_of s b)) →
  heap_inv (set_page_metadata (Some l') s) G.
Proof.
  intros Hi Hl Hok Hsame. assert (Hz : ∀ i, 0 <= i < 8 → 0 ∉ gP G i ++ gF G i).
  { intros i Hi8 Hin. destruct (inv_page s G i 0 Hi Hi8 Hin) as (_ & _ & _ & ?). lia. }
  apply (heap_inv_update s _ G G 0 0 Hi ltac:(lia)).
  - split; try done.
    + intros i b Hi8 Hne Hb. split; [done|]. split; [done|]. split; [by apply (Hsame i)|done].
    + intros i Hi8 _. by apply Hz.
  - by apply (hi_cache _ _ Hi 0).
  - intros H. by apply (Hz 0) in H.
  - intros H. exfalso. apply (Hz 0 ltac:(lia)), elem_of_app. by left.
  - intros H. exfalso. apply (Hz 0 ltac:(lia)), elem_of_app. by right.
Qed.

Definition npages (size : Z) : Z := (size + PAGE_SIZE - 1) / PAGE_SIZE.

Lemma alloc_large_ok s G n : heap_inv s G → 0 < n < 65536 →
  (alloc_pages_backend n PAGE_TYPE_LARGE s = Done (0, s) ∧ ∀ x, 0 <= x → ¬ run_free (meta s) x n) ∨
  ∃ p s', alloc_pages_backend n PAGE_TYPE_LARGE s = Done (p, s') ∧ p ≠ 0 ∧ heap_inv s' G ∧ heap_lock s' = heap_lock s ∧
    (∀ m, ¬ live s G p m) ∧ (∀ q m, live s' G q m ↔ live s G q m ∨ (q = p ∧ m = n * PAGE_SIZE)) ∧ bytes s' = bytes s.
Proof.
  intros Hi Hn. destruct (hi_meta _ _ Hi) as (Hme & Hlen & Hok). destruct (hi_range _ _ Hi) as (Hr1 & Hr2 & Hr3 & Hr4 & Hr5).
  destruct (alloc_pages_ok s (meta s) n PAGE_TYPE_LARGE Hme Hlen Hn ltac:(lia))
    as [(st & l' & Hal & [Hrf _] & Hst0 & Hst1 & Hmk)|[Hal Hno]]; [|by left].
  right. destruct (page_virt_in s G st Hi ltac:(lia)) as [Hpv Hpo]. rewrite Hpv in Hal.
  set (p := heap_start_addr s + st * PAGE_SIZE) in *. exists p. eexists. split; [exact Hal|]. split; [unfold p, PAGE_SIZE; lia|].
  assert (Hfree : page_at (meta s) st = PAGE_TYPE_FREE) by (apply Hrf; lia). destruct Hmk as [Hle Hg].
  split; [|split; [done|split; [|split; [|done]]]].
  - apply pages_inv; [done|done| |].
    + by apply (marked_meta_ok (meta s) l' st n PAGE_TYPE_LARGE).
    + intros i b Hi8 Hb. rewrite Hg. apply decide_False. intros Hst'.
      specialize (Hrf _ Hst'). by apply (free_page_not_slab s G (page_of s b) i b Hi Hrf Hi8).
  - intros m Hl. destruct (live_nonneg s G p m Hi Hl). destruct (live_pages s G p m p Hi Hl ltac:(lia)) as [_ Hx].
    by rewrite Hpo in Hx.
  - intros q m. unfold live, meta. simpl. split.
    + intros [Hs|(i & k & Hk & Hk0 & Hq & Hm)]; [left; by left|]. rewrite Hg in Hk. case_decide as Hc.
      * injection Hk as Hk. right. destruct (Z.eqb_spec i st) as [->|]; [|lia]. subst k. done.
      * left. right. by exists i, k.
    + intros [[Hs|(i & k & Hk & Hk0 & Hq & Hm)]|[-> ->]]; [by left|right|right].
      * exists i, k. rewrite Hg, decide_False; [done|]. intros Hst'. specialize (Hrf i Hst').
        unfold page_at, meta in Hrf. by rewrite Hk in Hrf.
      * exists st, n. rewrite Hg, decide_True by lia. rewrite Z.eqb_refl. split; [done|]. split; [lia|done].
Qed.

(** What [kmalloc] returns: a new block, disjoint from the live ones. *)
Definition allocated (s s' : heap) (G G' : ghost) (p size : Z) : Prop :=
  p ≠ 0 ∧ heap_inv s' G' ∧ heap_lock s' = false ∧ keeps s s' G ∧
  ∃ n, size <= n ∧ (∀ q m, live s' G' q m ↔ live s G q m ∨ (q = p ∧ m = n)) ∧
    ∀ q m, live s G q m → q + m <= p ∨ p + n <= q.

Lemma allocated_intro s s' G G' p n size : heap_inv s G → heap_inv s' G' → p ≠ 0 → heap_lock s' = false → keeps s s' G →
  size <= n → (∀ m, ¬ live s G p m) → (∀ q m, live s' G' q m ↔ live s G q m ∨ (q = p ∧ m = n)) →
  allocated s s' G G' p size.
Proof.
  intros Hi Hi' Hp Hl Hk Hs Hnl Hlive. split; [done|]. split; [done|]. split; [done|]. split; [done|].
  exists n. split; [done|]. split; [done|]. intros q m Hq.
  apply (live_disjoint s' G' q m p n Hi'); [apply Hlive; by left|apply Hlive; by right|].
  intros ->. by apply (Hnl m).
Qed.

Lemma kmalloc_ok s G size : heap_inv s G → heap_lock s = false → 0 < size <= 65535 * PAGE_SIZE →
  (∃ p s' G', kmalloc size s = Done (p, s') ∧ allocated s s' G G' p size) ∨
  (kmalloc size s = Done (0, s) ∧ ∀ x, 0 <= x → ¬ run_free (meta s) x (npages size)).
Proof.
  intros Hi Hlock Hs. set (s0 := set_heap_lock true s).
  assert (kmalloc size s = bind (if size <=? 2048 then bind (gets (λ s, choose_cache (caches s) 0 size))
      (λ o, match o with Some c => cache_alloc c | None => ret 0 end)
    else alloc_pages_backend (u64 (size + PAGE_SIZE - 1) / PAGE_SIZE) PAGE_TYPE_LARGE)
    (λ ptr, bind heap_release (λ _, ret ptr)) s0) as ->.
  { unfold kmalloc. rewrite (proj2 (Z.eqb_neq size 0)) by lia.
    unfold heap_acquire, spin_acquire. unfold bind at 1. by rewrite Hlock. }
  pose proof (heap_inv_lock s G true Hi) as Hi0. fold s0 in Hi0.
  assert (Hunlock : ∀ s1, heap_inv s1 G → s1 = s0 → set_heap_lock false s1 = s).
  { intros s1 _ ->. unfold s0. destruct s. simpl in Hlock. by subst. }
  destruct (Z.leb_spec size 2048) as [Hle|Hgt].
  - destruct (inv_choose_cache s0 G size Hi0 Hle) as (c & Hch & Hc & Hsz).
    assert (bind (gets (λ s, choose_cache (caches s) 0 size)) (λ o, match o with Some c => cache_alloc c | None => ret 0 end) s0
      = cache_alloc c s0) as Hpre by (unfold bind, gets; by rewrite Hch).
    destruct (cache_alloc_ok s0 G c Hi0 Hc) as [(Hal & _ & Hno)|(o & s1 & G1 & Hal & Hi1 & Hl1 & Hnl & Hlive & Hk)].
    + right. rewrite Hal in Hpre. mstep Hpre. unfold heap_release, spin_release. unfold bind, modify, ret.
      rewrite (Hunlock s0 Hi0 eq_refl). split; [done|]. assert (npages size = 1) as -> by (unfold npages, PAGE_SIZE in *; zlia).
      exact Hno.
    + left. rewrite Hal in Hpre. mstep Hpre. exists o. do 2 eexists. split; [reflexivity|].
      destruct (cache_geometry c Hc) as (Hg & _).
      assert (live s1 G1 o (obj_of c)) as Hlo by (apply Hlive; by right).
      destruct (live_nonneg s1 G1 o _ Hi1 Hlo) as [Ho _].
      apply (allocated_intro s _ G G1 o (obj_of c)); try done; [by apply heap_inv_lock|lia].
  - rewrite u64_id by (unfold PAGE_SIZE in *; lia). fold (npages size).
    assert (0 < npages size < 65536) as Hnp by (unfold npages, PAGE_SIZE in *; zlia).
    destruct (alloc_large_ok s0 G (npages size) Hi0 Hnp) as [(Hal & Hno)|(p & s1 & Hal & Hp & Hi1 & Hl1 & Hnl & Hlive & Hb)].
    + right. mstep Hal. unfold heap_release, spin_release. unfold bind, modify, ret.
      rewrite (Hunlock s0 Hi0 eq_refl). split; [done|]. exact Hno.
    + left. mstep Hal. exists p. do 2 eexists. split; [reflexivity|].
      apply (allocated_intro s _ G G p (npages size * PAGE_SIZE)); try done; [by apply heap_inv_lock| |].
      * intros q m x Hq Hx. simpl. by rewrite Hb.
      * unfold npages, PAGE_SIZE in *. zlia.
Qed.

Lemma free_large_ok s G p i k : heap_inv s G → zget (meta s) i = Some (mk_page_info PAGE_TYPE_LARGE k) → 0 < k →
  p = heap_start_addr s + i * PAGE_SIZE →
  ∃ s', free_pages_backend p s = Done (tt, s') ∧ heap_inv s' G ∧ heap_lock s' = heap_lock s ∧ released s s' G G p.
Proof.
  intros Hi Hk Hk0 Hp. destruct (hi_meta _ _ Hi) as (Hme & Hlen & Hok). destruct (hi_range _ _ Hi) as (Hr1 & Hr2 & Hr3 & Hr4 & Hr5).
  destruct (Hok i _ Hk) as (Hkr & _ & Hb). simpl in Hkr, Hb. destruct (Hb Hk0) as [Hb1 Hb2].
  pose proof (zget_Some_range _ _ _ Hk) as Hir. destruct (page_virt_in s G i Hi ltac:(lia)) as [_ Hpo]. rewrite <- Hp in Hpo.
  destruct (virt_idx_in s G p Hi) as [Hvi _]; [unfold PAGE_SIZE in *; nia|].
  destruct (free_pages_run s (meta s) p i (mk_page_info PAGE_TYPE_LARGE k) Hme Hlen ltac:(lia)) as (l' & Hrun & Hrw);
    [congruence|done|done|done|]. cbn [pi_count] in Hrw. pose proof Hrw as [Hle Hg].
  eexists. split; [exact Hrun|]. split; [|split; [done|split]].
  - apply pages_inv; [done|done|by apply (freed_meta_ok (meta s) l' i (mk_page_info PAGE_TYPE_LARGE k))|].
    intros j b Hj Hin. rewrite Hg. apply decide_False. intros Hx.
    destruct (so_page _ _ _ _ (hi_slab _ _ Hi j b Hj Hin)) as (_ & _ & Hpg).
    destruct (decide (page_of s b = i)) as [He|Hne]; [rewrite He in Hpg; congruence|].
    rewrite Hb2 in Hpg by lia. congruence.
  - intros q n. unfold live. cbn [meta page_metadata set_page_metadata heap_start_addr].
    change (meta (set_page_metadata (Some l') s)) with l'. split.
    + intros [(c & a & Hc & Ha & Hq & Hnq & Hn)|(j & m & Hj & Hm & Hq & Hn)].
      * split; [left; by exists c, a|]. intros ->.
        pose proof (objs_range a c p Hc Hq). destruct (cache_geometry c Hc) as (H1 & _).
        destruct (inv_page s G c a Hi Hc Ha) as (_ & _ & Ham & _). unfold PAGE_SIZE, SIZEOF_SLAB in *. zlia.
      * rewrite Hg in Hj. case_decide; [done|]. split; [right; by exists j, m|]. intros ->. unfold PAGE_SIZE in *. lia.
    + intros [[Hs|(j & m & Hj & Hm & Hq & Hn)] Hne]; [by left|right]. exists j, m. rewrite Hg, decide_False; [done|].
      intros Hx. assert (j = i) as ->; [|by rewrite Hp, Hq in Hne].
      destruct (decide (j = i)); [done|]. rewrite Hb2 in Hj by lia. injection Hj as <-. lia.
  - done.
Qed.

Lemma kfree_ok s G p n : heap_inv s G → heap_lock s = false → live s G p n →
  ∃ s' G', kfree p s = Done (tt, s') ∧ heap_inv s' G' ∧ heap_lock s' = false ∧ released s s' G G' p.
Proof.
  intros Hi Hlock Hl. destruct (live_nonneg s G p n Hi Hl) as [Hp0 Hn8].
  destruct (live_pages s G p n p Hi Hl ltac:(lia)) as [Hpr _].
  set (s0 := set_heap_lock true s). pose proof (heap_inv_lock s G true Hi) as Hi0. fold s0 in Hi0.
  destruct (virt_idx_in s0 G p Hi0 Hpr) as [Hvi Hvr]. destruct (hi_meta _ _ Hi0) as (Hme & Hlen & _).
  set (body := λ idx, bind (get_page idx) (λ q, match pi_type q with
       | PAGE_TYPE_SLAB => bind (get_slab (andnot p (PAGE_SIZE - 1)))
           (λ x, match sl_cache x with Some c => cache_free c p | None => ret tt end)
       | PAGE_TYPE_LARGE => free_pages_backend p
       | PAGE_TYPE_FREE => ret tt end)).
  assert (kfree p s = bind (body (page_of s0 p)) (λ _, heap_release) s0) as ->.
  { unfold kfree. rewrite (proj2 (Z.eqb_neq p 0)) by lia. unfold heap_acquire, spin_acquire. unfold bind at 1. rewrite Hlock.
    fold s0. cbv beta iota. unfold bind at 1, gets at 1. rewrite Hvi. unfold bind at 1, gets at 1.
    by rewrite (proj2 (Z.ltb_lt _ _)) by lia. }
  assert (∃ s1 G1, body (page_of s0 p) s0 = Done (tt, s1) ∧ heap_inv s1 G1 ∧ released s0 s1 G G1 p)
    as (s1 & G1 & Hrun & Hi1 & Hrel).
  { destruct Hl as [(c & a & Hc & Ha & Hp & Hnp & Hn)|(i & k & Hk & Hk0 & Hp & Hn)].
    - destruct (inv_page s0 G c a Hi0 Hc Ha) as (_ & _ & Ham & _). pose proof (objs_page a c p Hc Ham Hp) as Hpg.
      pose proof (so_page _ _ _ _ (hi_slab _ _ Hi0 c a Hc Ha)) as (_ & _ & Hpm).
      destruct (so_hdr _ _ _ _ (hi_slab _ _ Hi0 c a Hc Ha)) as (x & Hx & _ & Hxc & _).
      assert (page_of s0 p = page_of s0 a) as He.
      { pose proof (objs_range a c p Hc Hp). destruct (cache_geometry c Hc) as (H1 & _).
        destruct (hi_range _ _ Hi0) as (Hr & _). unfold page_of, PAGE_SIZE, SIZEOF_SLAB in *. zlia. }
      unfold body. rewrite He. mstep (get_page_Done s0 (meta s0) (page_of s0 a) _ Hme Hpm). cbn [pi_type].
      rewrite Hpg. mstep (get_slab_Done s0 a x Hx). rewrite Hxc.
      destruct (cache_free_ok s0 G c a p Hi0 Hc Ha Hp Hnp) as (s1 & G1 & Hrun & Hi1 & _ & Hrel). by exists s1, G1.
    - destruct (page_virt_in s0 G i Hi0) as [_ Hpo]; [pose proof (zget_Some_range _ _ _ Hk) as Hkr; change (meta s) with (meta s0) in Hkr; lia|].
      change (heap_start_addr s0) with (heap_start_addr s) in Hpo. rewrite <- Hp in Hpo. rewrite Hpo. unfold body.
      mstep (get_page_Done s0 (meta s0) i _ Hme Hk). cbn [pi_type].
      destruct (free_large_ok s0 G p i k Hi0 Hk Hk0 Hp) as (s1 & Hrun & Hi1 & _ & Hrel). by exists s1, G. }
  mstep Hrun. do 2 eexists. split; [reflexivity|]. split; [by apply heap_inv_lock|]. split; [done|]. exact Hrel.
Qed.

(** ** Initialisation *)

Definition no_slabs : ghost := mk_ghost (λ _, []) (λ _, []) (λ _, []).

Lemma heap_init_ok s start size : heap_lock s = false → start mod PAGE_SIZE = 0 → 0 < start → start + size <= 2 ^ 63 →
  2 * PAGE_SIZE <= size < 65536 * PAGE_SIZE →
  let n := size / PAGE_SIZE in let meta_pages := (n * SIZEOF_PAGE_INFO + PAGE_SIZE - 1) / PAGE_SIZE in
  ∃ s', heap_init start size s = Done (tt, s') ∧ heap_inv s' no_slabs ∧ heap_lock s' = false ∧
    heap_start_addr s' = start ∧ total_pages s' = n ∧ meta_pages < n ∧
    ∀ j, zget (meta s') j = if decide (0 <= j < meta_pages) then Some (mk_page_info PAGE_TYPE_LARGE 1)
      else if decide (meta_pages <= j < n) then Some (mk_page_info PAGE_TYPE_FREE 0) else None.
Proof.
  intros Hlock Hst Hst0 Hend Hsz n mp. unfold PAGE_SIZE, SIZEOF_PAGE_INFO in *.
  assert (Hal : andnot (u64 (start + 4096 - 1)) (4096 - 1) = start).
  { rewrite u64_id by lia. change (4096 - 1) with (2 ^ 12 - 1). rewrite andnot_ones by lia. zlia. }
  assert (Hn : 2 <= n < 65536) by (unfold n; zlia). assert (Hmp : 0 < mp < n) by (unfold mp; zlia).
  set (l := replicate (Z.to_nat n) (mk_page_info PAGE_TYPE_FREE 0)).
  set (s1 := set_page_metadata (Some l) (set_range start (start + n * 4096) (set_total_pages n s))).
  destruct (rewrite_pages (λ i, put_page i (mk_page_info PAGE_TYPE_LARGE 1)) (λ _, mk_page_info PAGE_TYPE_LARGE 1) 0 mp s1 l)
    as (l' & Hfe & Hle & Hg); [done|lia|lia|unfold l; rewrite length_replicate; lia| |].
  { intros s2 l2 j H1 H2 _ _ Hj. apply put_page_Done; [done|]. rewrite H2. unfold l. rewrite length_replicate. lia. }
  assert (length l' = Z.to_nat n) as Hll by (rewrite Hle; apply length_replicate).
  assert (Hz : ∀ j, zget l' j = if decide (0 <= j < mp) then Some (mk_page_info PAGE_TYPE_LARGE 1)
      else if decide (mp <= j < n) then Some (mk_page_info PAGE_TYPE_FREE 0) else None).
  { intros j. rewrite Hg. rewrite Z.add_0_l. case_decide; [done|]. unfold zget, l. case_decide.
    - case_decide; [by rewrite lookup_replicate_2 by lia|]. apply lookup_ge_None_2. rewrite length_replicate. lia.
    - by rewrite decide_False by lia. }
  eexists. split.
  { unfold heap_init, PAGE_SIZE, SIZEOF_PAGE_INFO. rewrite Hal. rewrite Z.sub_diag, (u64_id 0) by lia.
    rewrite (proj2 (Z.ltb_ge size 0)), Z.sub_0_r by lia. cbv zeta. unfold bind at 1, modify at 1. fold n. rewrite u32_id by lia.
    unfold bind at 1, gets at 1. cbn [total_pages set_total_pages]. rewrite (proj2 (Z.eqb_neq n 0)) by lia.
    unfold bind at 1, modify at 1. rewrite u32_id, u64_id by (unfold n in *; zlia). fold mp.
    rewrite (proj2 (Z.leb_gt n mp)) by lia. unfold bind at 1, modify at 1. fold l. fold s1. mstep Hfe. reflexivity. }
  split; [|split; [done|split; [done|split; [done|split; [lia|exact Hz]]]]].
  split; try done.
  - simpl. unfold PAGE_SIZE. split; [done|]. split; [done|]. split; [done|]. unfold n in *. zlia.
  - cbn. split; [done|]. split; [rewrite Hll; lia|]. intros i p Hp. unfold meta in Hp. cbn in Hp. rewrite Hz in Hp.
    unfold meta. cbn. rewrite Hll. repeat case_decide; simplify_eq; simpl; (split; [lia|]); (split; [done|]); intros; split; lia.
  - intros c Hc. assert (c ∈ seqZ 0 8) as Hin by (apply elem_of_seqZ; lia).
    assert (Forall (λ c, zget (map (λ sz, mk_cache 0 0 0 sz) slab_sizes) c = Some (mk_cache 0 0 0 (obj_of c))) (seqZ 0 8)) as Hall
      by (repeat constructor).
    rewrite Forall_forall in Hall. specialize (Hall c Hin). exists (mk_cache 0 0 0 (obj_of c)). simpl.
    split; [done|]. split; [done|]. split; [done|].
    split; (split; [done|done|done|apply NoDup_nil_2|apply not_elem_of_nil]).
  - intros c a _ Ha. by apply elem_of_nil in Ha.
  - intros c a _ Ha. by apply elem_of_nil in Ha.
Qed.

(** ** Writing into a live block *)

Lemma free_word_outside s G c a o p n : heap_inv s G → 0 <= c < 8 → a ∈ gP G c ++ gF G c → o ∈ gL G a →
  live s G p n → o + 8 <= p ∨ p + n <= o.
Proof.
  intros Hi Hc Ha Ho [(i & b & Hi8 & Hb & Hp & Hnp & ->)|(i & k & Hk & Hk0 & -> & ->)].
  - destruct (inv_page s G c a Hi Hc Ha) as (_ & _ & H1 & _). destruct (inv_page s G i b Hi Hi8 Hb) as (_ & _ & H2 & _).
    pose proof (so_objs _ _ _ _ (hi_slab _ _ Hi c a Hc Ha) o Ho) as Hoo.
    destruct (cache_geometry c Hc) as (Hg & _). destruct (decide (a = b)) as [<-|Hne].
    + assert (c = i) as <- by (by apply (inv_cache_unique s G c i a)).
      assert (o ≠ p) by (by intros ->). destruct (objs_disjoint a c o p Hc Hoo Hp); [done|lia|lia].
    + pose proof (objs_range a c o Hc Hoo). pose proof (objs_range b i p Hi8 Hp).
      unfold PAGE_SIZE, SIZEOF_SLAB in *. assert (a + 4096 <= b ∨ b + 4096 <= a) by zlia. lia.
  - pose proof (so_objs _ _ _ _ (hi_slab _ _ Hi c a Hc Ha) o Ho) as Hoo. destruct (cache_geometry c Hc) as (Hg & _).
    destruct (live_large_slab_disjoint s G c a o i k Hi Hc Ha Hoo Hk Hk0); lia.
Qed.

Lemma write_live_inv s G p n b : heap_inv s G → live s G p n → (∀ x, x < p ∨ p + n <= x → b x = bytes s x) →
  heap_inv (set_bytes b s) G.
Proof.
  intros Hi Hl Hb. pose proof Hi as [H1 H2 H3 H4 H5 H6 H7]. split; try done.
  intros c a Hc Ha. apply (slab_ok_same s (set_bytes b s)); try done; [by apply H5|].
  intros o Ho. apply load_le_ext. intros x Hx. apply Hb.
  destruct (free_word_outside s G c a o p n Hi Hc Ha Ho Hl); lia.
Qed.

Lemma block_size_ok s G p n : heap_inv s G → live s G p n → block_size p s = Done (n, s).
Proof.
  intros Hi Hl. destruct (live_nonneg s G p n Hi Hl) as [Hp0 Hn8].
  destruct (live_pages s G p n p Hi Hl ltac:(lia)) as [Hpr _]. destruct (virt_idx_in s G p Hi Hpr) as [Hvi Hvr].
  destruct (hi_meta _ _ Hi) as (Hme & Hlen & _). unfold block_size. unfold bind at 1, gets at 1. rewrite Hvi.
  unfold bind at 1, gets at 1. rewrite (proj2 (Z.ltb_lt (page_of s p) (total_pages s)) ltac:(lia)).
  destruct Hl as [(c & a & Hc & Ha & Hp & Hnp & Hn)|(i & k & Hk & Hk0 & Hp & Hn)].
  - destruct (inv_page s G c a Hi Hc Ha) as (_ & _ & Ham & _). pose proof (objs_page a c p Hc Ham Hp) as Hpg.
    pose proof (so_page _ _ _ _ (hi_slab _ _ Hi c a Hc Ha)) as (_ & _ & Hpm).
    destruct (so_hdr _ _ _ _ (hi_slab _ _ Hi c a Hc Ha)) as (x & Hx & _ & Hxc & _).
    assert (page_of s p = page_of s a) as ->.
    { pose proof (objs_range a c p Hc Hp). destruct (cache_geometry c Hc) as (H1 & _).
      destruct (hi_range _ _ Hi) as (Hr & _). unfold page_of, PAGE_SIZE, SIZEOF_SLAB in *. zlia. }
    mstep (get_page_Done s (meta s) (page_of s a) _ Hme Hpm). cbn [pi_type]. rewrite Hpg.
    mstep (get_slab_Done s a x Hx). rewrite Hxc. destruct (hi_cache _ _ Hi c Hc) as (k & Hk & Hsz & _).
    mstep (get_cache_Done s c k Hk). by rewrite Hsz, Hn.
  - destruct (page_virt_in s G i Hi) as [_ Hpo]; [pose proof (zget_Some_range _ _ _ Hk); lia|].
    rewrite <- Hp in Hpo. rewrite Hpo. mstep (get_page_Done s (meta s) i _ Hme Hk). cbn [pi_type pi_count]. by rewrite Hn.
Qed.

(** [heap_init] sets up an allocator whose invariant holds: the metadata
    pages are reserved, every other page is free and no slab exists. *)
Theorem heap_init_correct s start size : heap_lock s = false → start mod PAGE_SIZE = 0 → 0 < start →
  start + size <= 2 ^ 63 → 2 * PAGE_SIZE <= size < 65536 * PAGE_SIZE →
  let n := size / PAGE_SIZE in let meta_pages := (n * SIZEOF_PAGE_INFO + PAGE_SIZE - 1) / PAGE_SIZE in
  ∃ s', heap_init start size s = Done (tt, s') ∧ heap_inv s' no_slabs ∧ heap_lock s' = false ∧
    heap_start_addr s' = start ∧ total_pages s' = n ∧ meta_pages < n ∧
    ∀ j, zget (meta s') j = if decide (0 <= j < meta_pages) then Some (mk_page_info PAGE_TYPE_LARGE 1)
      else if decide (meta_pages <= j < n) then Some (mk_page_info PAGE_TYPE_FREE 0) else None.
Proof. intros. by apply heap_init_ok. Qed.

(** C1: [kmalloc] returns a block of at least [size] bytes that overlaps no live
    block; the block becomes live, no other live block appears, disappears or
    changes its bytes, and the invariant of the heap holds afterwards.  It
    returns NULL only when no run of free pages of the size needed exists, and
    then nothing changes. *)
Theorem kmalloc_fresh_block s G size : heap_inv s G → heap_lock s = false → 0 < size <= 65535 * PAGE_SIZE →
  (∃ p s' G' n, kmalloc size s = Done (p, s') ∧ p ≠ 0 ∧ heap_inv s' G' ∧ heap_lock s' = false ∧ size <= n ∧
     (∀ q m, live s' G' q m ↔ live s G q m ∨ (q = p ∧ m = n)) ∧
     (∀ q m, live s G q m → q + m <= p ∨ p + n <= q) ∧
     (∀ q m x, live s G q m → q <= x < q + m → bytes s' x = bytes s x)) ∨
  (kmalloc size s = Done (0, s) ∧ ∀ x, 0 <= x → ¬ run_free (meta s) x (npages size)).
Proof.
  intros Hi Hl Hs. destruct (kmalloc_ok s G size Hi Hl Hs) as [(p & s' & G' & Hrun & Hp & Hi' & Hl' & Hk & n & Hn & Hlv & Hd)|H];
    [left|by right]. exists p, s', G', n. done.
Qed.

(** C32: [kfree] of a live block releases that block and no other: the others
    stay live with their bytes, and the invariant of the heap holds
    afterwards. *)
Theorem kfree_releases_block s G p n : heap_inv s G → heap_lock s = false → live s G p n →
  ∃ s' G', kfree p s = Done (tt, s') ∧ heap_inv s' G' ∧ heap_lock s' = false ∧
    (∀ q m, live s' G' q m ↔ live s G q m ∧ q ≠ p) ∧
    ∀ q m x, live s' G' q m → q <= x < q + m → bytes s' x = bytes s x.
Proof. intros Hi Hl Hp. destruct (kfree_ok s G p n Hi Hl Hp) as (s' & G' & ? & ? & ? & ? & ?). by exists s', G'. Qed.

(** [krealloc] of a live block of [n] bytes: it stays in place when the new
    size fits; otherwise the block returned has at least the new size and
    starts with the [n] bytes of the old one, which is released, the other live
    blocks being untouched; when no memory is left it returns NULL and the old
    block is kept. *)
Theorem krealloc_moves_contents s G p n size : heap_inv s G → heap_lock s = false → live s G p n →
  0 < size <= 65535 * PAGE_SIZE →
  (size <= n → krealloc p size s = Done (p, s)) ∧
  (n < size → krealloc p size s = Done (0, s) ∨
     ∃ p' s' G' n', krealloc p size s = Done (p', s') ∧ p' ≠ 0 ∧ heap_inv s' G' ∧ heap_lock s' = false ∧ size <= n' ∧
       (∀ q m, live s' G' q m ↔ (live s G q m ∧ q ≠ p) ∨ (q = p' ∧ m = n')) ∧
       (∀ i, 0 <= i < n → bytes s' (p' + i) = bytes s (p + i)) ∧
       (∀ q m x, live s G q m → q ≠ p → q <= x < q + m → bytes s' x = bytes s x)).
Proof.
  intros Hi Hlock Hl Hs. destruct (live_nonneg s G p n Hi Hl) as [Hp0 Hn8].
  assert (krealloc p size s = if size <=? n then Done (p, s) else bind (kmalloc size) (λ q, bind
      (if negb (q =? 0) then bind (modify (λ s, set_bytes (memcpy (bytes s) q p n) s)) (λ _, kfree p) else ret tt)
      (λ _, ret q)) s) as ->.
  { unfold krealloc. rewrite (proj2 (Z.eqb_neq p 0)), (proj2 (Z.eqb_neq size 0)) by lia.
    unfold heap_acquire, spin_acquire. unfold bind at 1. rewrite Hlock. cbv beta iota.
    mstep (block_size_ok _ G p n (heap_inv_lock s G true Hi) Hl). unfold heap_release, spin_release.
    unfold bind at 1, modify at 1. change (set_heap_lock false (set_heap_lock true s)) with (set_heap_lock false s).
    replace (set_heap_lock false s) with s by (destruct s; simpl in Hlock; by subst). by destruct (size <=? n). }
  split; [intros Hle; by rewrite (proj2 (Z.leb_le _ _) Hle)|].
  intros Hgt. rewrite (proj2 (Z.leb_gt size n) Hgt).
  destruct (kmalloc_ok s G size Hi Hlock Hs) as [(q & s1 & G1 & Hrun & Hq & Hi1 & Hl1 & Hk & n' & Hn' & Hlv & Hd)|[Hrun _]].
  2:{ left. mstep Hrun. done. }
  right. mstep Hrun. rewrite (proj2 (Z.eqb_neq q 0) Hq). cbn [negb].
  set (s2 := set_bytes (memcpy (bytes s1) q p n) s1).
  assert (Hlq : live s1 G1 q n') by (apply Hlv; by right). assert (Hlp : live s1 G1 p n) by (apply Hlv; by left).
  assert (Hdis : q <= p ∨ p + n <= q) by (destruct (Hd p n Hl); lia).
  assert (Hcp : ∀ x, memcpy (bytes s1) q p n x = if decide (q <= x < q + n) then bytes s1 (p + (x - q)) else bytes s1 x).
  { intros x. apply memcpy_at; [lia|done]. }
  assert (Hi2 : heap_inv s2 G1).
  { apply (write_live_inv s1 G1 q n'); [done|done|]. intros x Hx. rewrite Hcp. apply decide_False. lia. }
  destruct (kfree_ok s2 G1 p n Hi2 Hl1 Hlp) as (s3 & G3 & Hfr & Hi3 & Hl3 & Hlv3 & Hby3).
  assert (bind (modify (λ s, set_bytes (memcpy (bytes s) q p n) s)) (λ _, kfree p) s1 = Done (tt, s3)) as Hb
    by (unfold bind, modify; exact Hfr). mstep Hb.
  assert (Hqp : q ≠ p) by (intros ->; destruct (Hd p n Hl); lia).
  assert (Hlq3 : live s3 G3 q n') by (by apply Hlv3).
  exists q, s3, G3, n'. split; [done|]. split; [done|]. split; [done|]. split; [done|]. split; [done|]. split; [|split].
  - intros u m. rewrite Hlv3. change (live s2 G1 u m) with (live s1 G1 u m). rewrite Hlv. naive_solver.
  - intros i Hir. rewrite (Hby3 q n' (q + i) Hlq3 ltac:(lia)). simpl. rewrite Hcp, decide_True by lia.
    replace (p + (q + i - q)) with (p + i) by lia. apply (Hk p n); [done|lia].
  - intros u m x Hu Hup Hx. assert (live s3 G3 u m) as Hu3 by (apply Hlv3; split; [apply Hlv; by left|done]).
    rewrite (Hby3 u m x Hu3 Hx). simpl. rewrite Hcp, decide_False; [by apply (Hk u m)|].
    destruct (Hd u m Hu); lia.
Qed.

(** ** Witnesses: a heap of 16 pages *)

Definition ex_boot : heap := mk_heap false 0 0 None 0 [] ∅ (λ _, 0).
Definition ex_heap : heap := match heap_init 0x50000000 0x10000 ex_boot with Done (_, s) => s | _ => ex_boot end.

Lemma ex_heap_ok : heap_inv ex_heap no_slabs ∧ heap_lock ex_heap = false ∧
  zget (meta ex_heap) 0 = Some (mk_page_info PAGE_TYPE_LARGE 1) ∧ heap_start_addr ex_heap = 0x50000000.
Proof.
  destruct (heap_init_ok ex_boot 0x50000000 0x10000) as (s' & Hrun & Hi & Hl & Hst & _ & _ & Hz);
    [done|done|lia|lia|unfold PAGE_SIZE; lia|]. unfold ex_heap. rewrite Hrun. split; [done|]. split; [done|].
  split; [|done]. rewrite Hz. by rewrite decide_True by (vm_compute; split; congruence).
Qed.

Lemma heap_init_correct_witness : ∃ s', heap_init 0x50000000 0x10000 ex_boot = Done (tt, s') ∧ heap_inv s' no_slabs.
Proof.
  destruct (heap_init_correct ex_boot 0x50000000 0x10000) as (s' & Hrun & Hi & _);
    [reflexivity|reflexivity|lia|lia|unfold PAGE_SIZE; lia|]. exists s'. split; assumption.
Defined.

Lemma kmalloc_fresh_block_witness : ∃ p s' G', kmalloc 100 ex_heap = Done (p, s') ∧ heap_inv s' G'.
Proof.
  destruct ex_heap_ok as (Hi & Hl & _).
  destruct (kmalloc_fresh_block ex_heap no_slabs 100 Hi Hl) as [(p & s' & G' & n & Hrun & _ & Hi' & _)|[Hrun _]].
  - unfold PAGE_SIZE. lia.
  - exists p, s', G'. split; assumption.
  - exists 0, ex_heap, no_slabs. split; assumption.
Defined.

Lemma kfree_releases_block_witness : ∃ s' G', kfree 0x50000000 ex_heap = Done (tt, s') ∧ heap_inv s' G'.
Proof.
  destruct ex_heap_ok as (Hi & Hl & Hz & Hst).
  destruct (kfree_releases_block ex_heap no_slabs 0x50000000 4096 Hi Hl) as (s' & G' & Hrun & Hi' & _).
  - right. exists 0, 1. split; [assumption|]. split; [lia|]. rewrite Hst. split; reflexivity.
  - exists s', G'. split; assumption.
Defined.

Lemma krealloc_moves_contents_witness : krealloc 0x50000000 4000 ex_heap = Done (0x50000000, ex_heap).
Proof.
  destruct ex_heap_ok as (Hi & Hl & Hz & Hst).
  apply (krealloc_moves_contents ex_heap no_slabs 0x50000000 4096 4000 Hi Hl).
  - right. exists 0, 1. split; [assumption|]. split; [lia|]. rewrite Hst. split; reflexivity.
  - unfold PAGE_SIZE. lia.
  - lia.
Defined.
End Heap.
