(* ===== verification/TtyState.v ===== *)
(** The data of a terminal, [kernel/lib/tty.h]: its settings, its input and
    output state, its session.  The operations are in [Tty]. *)
From S2P Require Export Prelude Memory.

Definition BUF_SIZE : Z := 4096.
Definition MAX_CANON : Z := 255.
Definition NCCS : Z := 32.
Definition MAX_CSI_PARAMS : Z := 8.

(** Input, output and local flags; the source writes them in octal. *)
Definition ISTRIP : Z := 0x20.
Definition INLCR : Z := 0x40.
Definition IGNCR : Z := 0x80.
Definition ICRNL : Z := 0x100.
Definition IUCLC : Z := 0x200.
Definition IXON : Z := 0x400.
Definition IXANY : Z := 0x800.
Definition IXOFF : Z := 0x1000.
Definition IMAXBEL : Z := 0x2000.
Definition IUTF8 : Z := 0x4000.
Definition OPOST : Z := 1.
Definition OLCUC : Z := 2.
Definition ONLCR : Z := 4.
Definition OCRNL : Z := 8.
Definition ONOCR : Z := 0x10.
Definition TABDLY : Z := 0x1800.
Definition CS8 : Z := 0x30.
Definition CREAD : Z := 0x80.
Definition HUPCL : Z := 0x400.
Definition B38400 : Z := 15.
Definition ISIG : Z := 1.
Definition ICANON : Z := 2.
Definition ECHO : Z := 8.
Definition ECHOE : Z := 0x10.
Definition ECHOK : Z := 0x20.
Definition ECHONL : Z := 0x40.
Definition NOFLSH : Z := 0x80.
Definition TOSTOP : Z := 0x100.
Definition ECHOCTL : Z := 0x200.
Definition ECHOKE : Z := 0x800.
Definition IEXTEN : Z := 0x8000.

(** Indices of the control characters. *)
Definition VINTR : Z := 0.
Definition VQUIT : Z := 1.
Definition VERASE : Z := 2.
Definition VKILL : Z := 3.
Definition VEOF : Z := 4.
Definition VTIME : Z := 5.
Definition VMIN : Z := 6.
Definition VSTART : Z := 8.
Definition VSTOP : Z := 9.
Definition VSUSP : Z := 10.
Definition VEOL : Z := 11.
Definition VREPRINT : Z := 12.
Definition VDISCARD : Z := 13.
Definition VWERASE : Z := 14.
Definition VLNEXT : Z := 15.
Definition VEOL2 : Z := 16.

Definition TTY_STOPPED : Z := 2.
Definition TTY_EXCLUSIVE : Z := 4.
Definition TTY_HUPPED : Z := 8.
Definition TTY_LNEXT : Z := 0x20.
Definition TTY_FLUSHING : Z := 0x40.

(** [struct termios]: [c_pad] is the padding before the speeds. *)
Record termios := mk_termios {
  c_iflag : Z; c_oflag : Z; c_cflag : Z; c_lflag : Z; c_line : Z; c_cc : list Z; c_pad : list Z; c_ispeed : Z; c_ospeed : Z;
}.
Definition set_c_line v t := mk_termios (c_iflag t) (c_oflag t) (c_cflag t) (c_lflag t) v (c_cc t) (c_pad t) (c_ispeed t) (c_ospeed t).
(** [t->c_cc[i]]. *)
Definition cc (t : termios) (i : Z) : Z := nth (Z.to_nat i) (c_cc t) 0.
Definition SIZEOF_TERMIOS : Z := 60.
Definition termios_bytes (t : termios) : list Z :=
  le_bytes 4 (c_iflag t) ++ le_bytes 4 (c_oflag t) ++ le_bytes 4 (c_cflag t) ++ le_bytes 4 (c_lflag t) ++
  [c_line t] ++ c_cc t ++ c_pad t ++ le_bytes 4 (c_ispeed t) ++ le_bytes 4 (c_ospeed t).
Definition termios_of_bytes (l : list Z) : termios :=
  let w i := of_le (take 4 (drop i l)) in
  mk_termios (w 0%nat) (w 4%nat) (w 8%nat) (w 12%nat) (nth 16 l 0) (take 32 (drop 17 l)) (take 3 (drop 49 l)) (w 52%nat) (w 56%nat).

Record winsize := mk_winsize { ws_row : Z; ws_col : Z; ws_xpixel : Z; ws_ypixel : Z }.
Definition winsize_bytes (w : winsize) : list Z :=
  le_bytes 2 (ws_row w) ++ le_bytes 2 (ws_col w) ++ le_bytes 2 (ws_xpixel w) ++ le_bytes 2 (ws_ypixel w).
Definition winsize_of_bytes (l : list Z) : winsize :=
  let h i := of_le (take 2 (drop i l)) in mk_winsize (h 0%nat) (h 2%nat) (h 4%nat) (h 6%nat).

Inductive tty_state := TTY_STATE_NORMAL | TTY_STATE_ESC | TTY_STATE_CSI.

(** The fields of [tty_t] for the input: the ring of characters that can be
    read and the line being edited. *)
Record tty_input := mk_input {
  read_buf : list Z;       (* BUF_SIZE *)
  read_head : Z;
  read_tail : Z;
  read_cnt : Z;
  canon_buf : list Z;      (* MAX_CANON *)
  canon_head : Z;
  canon_column : Z;
  canon_lines : Z;
}.
Definition set_read_buf v i := mk_input v (read_head i) (read_tail i) (read_cnt i) (canon_buf i) (canon_head i) (canon_column i) (canon_lines i).
Definition set_read_head v i := mk_input (read_buf i) v (read_tail i) (read_cnt i) (canon_buf i) (canon_head i) (canon_column i) (canon_lines i).
Definition set_read_tail v i := mk_input (read_buf i) (read_head i) v (read_cnt i) (canon_buf i) (canon_head i) (canon_column i) (canon_lines i).
Definition set_read_cnt v i := mk_input (read_buf i) (read_head i) (read_tail i) v (canon_buf i) (canon_head i) (canon_column i) (canon_lines i).
Definition set_canon_buf v i := mk_input (read_buf i) (read_head i) (read_tail i) (read_cnt i) v (canon_head i) (canon_column i) (canon_lines i).
Definition set_canon_head v i := mk_input (read_buf i) (read_head i) (read_tail i) (read_cnt i) (canon_buf i) v (canon_column i) (canon_lines i).
Definition set_canon_column v i := mk_input (read_buf i) (read_head i) (read_tail i) (read_cnt i) (canon_buf i) (canon_head i) v (canon_lines i).
Definition set_canon_lines v i := mk_input (read_buf i) (read_head i) (read_tail i) (read_cnt i) (canon_buf i) (canon_head i) (canon_column i) v.

(** The fields for the output: the column and the escape sequence being read. *)
Record tty_output := mk_output {
  o_column : Z; o_state : tty_state; csi_params : list Z; csi_param_count : Z; fg_color : Z; bg_color : Z;
}.
Definition set_o_column v o := mk_output v (o_state o) (csi_params o) (csi_param_count o) (fg_color o) (bg_color o).
Definition set_o_state v o := mk_output (o_column o) v (csi_params o) (csi_param_count o) (fg_color o) (bg_color o).
Definition set_csi_params v o := mk_output (o_column o) (o_state o) v (csi_param_count o) (fg_color o) (bg_color o).
Definition set_csi_param_count v o := mk_output (o_column o) (o_state o) (csi_params o) v (fg_color o) (bg_color o).
Definition set_fg_color v o := mk_output (o_column o) (o_state o) (csi_params o) (csi_param_count o) v (bg_color o).
Definition set_bg_color v o := mk_output (o_column o) (o_state o) (csi_params o) (csi_param_count o) (fg_color o) v.

(** [tty_t]; the two wait queues are addresses. *)
Record tty := mk_tty {
  tty_count : Z;
  tty_flags : Z;
  tty_in : tty_input;
  tty_out : tty_output;
  tty_lock : bool;
  tty_read_wait : Z;
  tty_write_wait : Z;
  tty_session : Z;
  tty_session_id : Z;
  tty_pgrp : Z;
  tty_termios : termios;
  tty_winsize : winsize;
}.
Definition set_tty_count v t := mk_tty v (tty_flags t) (tty_in t) (tty_out t) (tty_lock t) (tty_read_wait t) (tty_write_wait t)
  (tty_session t) (tty_session_id t) (tty_pgrp t) (tty_termios t) (tty_winsize t).
Definition set_tty_flags v t := mk_tty (tty_count t) v (tty_in t) (tty_out t) (tty_lock t) (tty_read_wait t) (tty_write_wait t)
  (tty_session t) (tty_session_id t) (tty_pgrp t) (tty_termios t) (tty_winsize t).
Definition set_tty_in v t := mk_tty (tty_count t) (tty_flags t) v (tty_out t) (tty_lock t) (tty_read_wait t) (tty_write_wait t)
  (tty_session t) (tty_session_id t) (tty_pgrp t) (tty_termios t) (tty_winsize t).
Definition set_tty_out v t := mk_tty (tty_count t) (tty_flags t) (tty_in t) v (tty_lock t) (tty_read_wait t) (tty_write_wait t)
  (tty_session t) (tty_session_id t) (tty_pgrp t) (tty_termios t) (tty_winsize t).
Definition set_tty_lock v t := mk_tty (tty_count t) (tty_flags t) (tty_in t) (tty_out t) v (tty_read_wait t) (tty_write_wait t)
  (tty_session t) (tty_session_id t) (tty_pgrp t) (tty_termios t) (tty_winsize t).
Definition set_tty_job session id pgrp t := mk_tty (tty_count t) (tty_flags t) (tty_in t) (tty_out t) (tty_lock t) (tty_read_wait t)
  (tty_write_wait t) session id pgrp (tty_termios t) (tty_winsize t).
Definition set_tty_pgrp v t := set_tty_job (tty_session t) (tty_session_id t) v t.
Definition set_tty_termios v t := mk_tty (tty_count t) (tty_flags t) (tty_in t) (tty_out t) (tty_lock t) (tty_read_wait t) (tty_write_wait t)
  (tty_session t) (tty_session_id t) (tty_pgrp t) v (tty_winsize t).
Definition set_tty_winsize v t := mk_tty (tty_count t) (tty_flags t) (tty_in t) (tty_out t) (tty_lock t) (tty_read_wait t) (tty_write_wait t)
  (tty_session t) (tty_session_id t) (tty_pgrp t) (tty_termios t) v.
Definition tty_lflag (t : tty) : Z := c_lflag (tty_termios t).

(** [tty_std_termios]. *)
Definition tty_std_termios : termios :=
  mk_termios (Z.lor (Z.lor (Z.lor ICRNL IXON) IXOFF) IUTF8) (Z.lor OPOST ONLCR)
    (Z.lor (Z.lor (Z.lor B38400 CS8) CREAD) HUPCL)
    (Z.lor (Z.lor (Z.lor (Z.lor (Z.lor (Z.lor (Z.lor ISIG ICANON) ECHO) ECHOE) ECHOK) ECHOCTL) ECHOKE) IEXTEN) 0
    ([3; 28; 127; 21; 4; 0; 1; 0; 17; 19; 26; 0; 18; 15; 23; 22] ++ replicate 16 0) [0; 0; 0] B38400 B38400.

(** [init_tty_struct]: [memset] to 0, then the fields. *)
Definition new_input : tty_input := mk_input (replicate (Z.to_nat BUF_SIZE) 0) 0 0 0 (replicate (Z.to_nat MAX_CANON) 0) 0 0 0.
Definition init_tty_struct (read_wait write_wait : Z) : tty :=
  mk_tty 0 0 new_input (mk_output 0 TTY_STATE_NORMAL (replicate (Z.to_nat MAX_CSI_PARAMS) 0) 0 7 0) false read_wait write_wait 0 0 0
    tty_std_termios (mk_winsize 25 80 0 0).
