(* ===== verification/Kernel.v ===== *)
(** The kernel's objects seen by the system calls: the scheduler and the
    address spaces of the other files, inodes, open files, pipes, terminals and
    the page cache, in one state; the current process; kernel memory; the drivers'
    operations, which are parameters. *)
From S2P Require Export Prelude Memory Pmm Vmm Vma Sched Sync TtyState.
From S2P Require Import KString.

(** ** Inodes and open files, [kernel/lib/vfs.h] and [kernel/lib/file.h] *)

Definition FS_FILE : Z := 1.
Definition FS_DIRECTORY : Z := 2.
Definition FS_CHARDEVICE : Z := 3.
Definition FS_BLOCKDEVICE : Z := 4.
Definition FS_SYMLINK : Z := 5.
Definition FS_TEMPORARY : Z := 0x80.
Definition S_IRUSR : Z := 0x100.   (* 00400 *)
Definition S_IWUSR : Z := 0x80.    (* 00200 *)
Definition S_IFMT : Z := 0xF000.   (* 0170000 *)
Definition S_IFREG : Z := 0x8000.  (* 0100000 *)
Definition S_IFDIR : Z := 0x4000.  (* 0040000 *)
Definition S_IFCHR : Z := 0x2000.  (* 0020000 *)
Definition S_IFBLK : Z := 0x6000.  (* 0060000 *)
Definition S_ISREG (m : Z) : bool := Z.land m S_IFMT =? S_IFREG.

(** The fields of [inode_t] that drivers fill in for [stat]. *)
Record inode_info := mk_inode_info {
  ii_dev : Z; ii_rdev : Z; ii_blksize : Z; ii_blocks : Z; ii_atime : Z; ii_ctime : Z; ii_mtime : Z;
}.
Definition no_info : inode_info := mk_inode_info 0 0 0 0 0 0 0.

(** [inode_t]; [in_ops] is the address of the table of
    driver operations. *)
Record inode := mk_inode {
  in_name : list Z;
  in_flags : Z;
  in_uid : Z;
  in_gid : Z;
  in_mode : Z;
  in_size : Z;
  in_id : Z;
  in_nlink : Z;
  in_ops : Z;
  in_ptr : Z;
  in_ref_count : Z;
  in_mount_point : Z;
  in_parent : Z;
  in_info : inode_info;
}.
Definition set_in_flags v n := mk_inode (in_name n) v (in_uid n) (in_gid n) (in_mode n) (in_size n)
  (in_id n) (in_nlink n) (in_ops n) (in_ptr n) (in_ref_count n) (in_mount_point n) (in_parent n) (in_info n).
Definition set_in_uid v n := mk_inode (in_name n) (in_flags n) v (in_gid n) (in_mode n) (in_size n)
  (in_id n) (in_nlink n) (in_ops n) (in_ptr n) (in_ref_count n) (in_mount_point n) (in_parent n) (in_info n).
Definition set_in_gid v n := mk_inode (in_name n) (in_flags n) (in_uid n) v (in_mode n) (in_size n)
  (in_id n) (in_nlink n) (in_ops n) (in_ptr n) (in_ref_count n) (in_mount_point n) (in_parent n) (in_info n).
Definition set_in_mode v n := mk_inode (in_name n) (in_flags n) (in_uid n) (in_gid n) v (in_size n)
  (in_id n) (in_nlink n) (in_ops n) (in_ptr n) (in_ref_count n) (in_mount_point n) (in_parent n) (in_info n).
Definition set_in_size v n := mk_inode (in_name n) (in_flags n) (in_uid n) (in_gid n) (in_mode n) v
  (in_id n) (in_nlink n) (in_ops n) (in_ptr n) (in_ref_count n) (in_mount_point n) (in_parent n) (in_info n).
Definition set_in_ref_count v n := mk_inode (in_name n) (in_flags n) (in_uid n) (in_gid n) (in_mode n) (in_size n)
  (in_id n) (in_nlink n) (in_ops n) (in_ptr n) v (in_mount_point n) (in_parent n) (in_info n).
Definition set_in_parent v n := mk_inode (in_name n) (in_flags n) (in_uid n) (in_gid n) (in_mode n) (in_size n)
  (in_id n) (in_nlink n) (in_ops n) (in_ptr n) (in_ref_count n) (in_mount_point n) v (in_info n).

(** [file_t]. *)
Record file := mk_file { f_inode : Z; f_offset : Z; f_flags : Z; f_ref_count : Z }.
Definition set_f_offset v f := mk_file (f_inode f) v (f_flags f) (f_ref_count f).
Definition set_f_ref_count v f := mk_file (f_inode f) (f_offset f) (f_flags f) v.

(** [pipe_t] of [kernel/syscalls/pipe.c]; the wait queues of the readers and
    of the writers are addresses. *)
Record pipe := mk_pipe {
  pi_buffer : list Z;
  pi_read_pos : Z;
  pi_write_pos : Z;
  pi_count : Z;
  pi_readers : Z;
  pi_writers : Z;
  pi_lock : mutex;
  pi_read_wait : Z;
  pi_write_wait : Z;
}.

(** [page_cache_entry_t] and the static state of [kernel/fs/vfs.c]. *)
Record cache_entry := mk_cache_entry {
  ce_node : Z; ce_page_offset : Z; ce_phys_addr : Z; ce_dirty : bool;
  ce_next : Z; ce_lru_next : Z; ce_lru_prev : Z;
}.
Record vfs := mk_vfs {
  mount_table : list (Z * Z);       (* MAX_MOUNTS entries (host_id, target) *)
  vfs_root : Z;
  page_cache : list Z;              (* CACHE_BUCKETS heads *)
  lru_head : Z;
  lru_tail : Z;
  current_cached_pages : Z;
  cache_entries : gmap Z cache_entry;
}.

(** Setters of the process fields that the system calls change. *)
Definition set_p_pid v p := mk_process v (p_sid p) (p_pgid p) (p_session_leader p) (p_groups p)
  (p_ngroups p) (p_uid p) (p_gid p) (p_euid p) (p_egid p) (p_mm p) (p_fd_table p) (p_cwd p) (p_parent p) (p_child p)
  (p_sibling p) (p_state p) (p_exit_code p) (p_wait_queue p) (p_hash_next p) (p_signals p) (p_controlling_tty p)
  (p_threads p).
Definition set_p_sid v p := mk_process (p_pid p) v (p_pgid p) (p_session_leader p) (p_groups p) (p_ngroups p)
  (p_uid p) (p_gid p) (p_euid p) (p_egid p) (p_mm p) (p_fd_table p) (p_cwd p) (p_parent p) (p_child p)
  (p_sibling p) (p_state p) (p_exit_code p) (p_wait_queue p) (p_hash_next p) (p_signals p) (p_controlling_tty p)
  (p_threads p).
Definition set_p_pgid v p := mk_process (p_pid p) (p_sid p) v (p_session_leader p) (p_groups p) (p_ngroups p)
  (p_uid p) (p_gid p) (p_euid p) (p_egid p) (p_mm p) (p_fd_table p) (p_cwd p) (p_parent p) (p_child p)
  (p_sibling p) (p_state p) (p_exit_code p) (p_wait_queue p) (p_hash_next p) (p_signals p) (p_controlling_tty p)
  (p_threads p).
Definition set_p_session_leader v p := mk_process (p_pid p) (p_sid p) (p_pgid p) v (p_groups p) (p_ngroups p)
  (p_uid p) (p_gid p) (p_euid p) (p_egid p) (p_mm p) (p_fd_table p) (p_cwd p) (p_parent p) (p_child p)
  (p_sibling p) (p_state p) (p_exit_code p) (p_wait_queue p) (p_hash_next p) (p_signals p) (p_controlling_tty p)
  (p_threads p).
Definition set_p_groups v p := mk_process (p_pid p) (p_sid p) (p_pgid p) (p_session_leader p) v (p_ngroups p)
  (p_uid p) (p_gid p) (p_euid p) (p_egid p) (p_mm p) (p_fd_table p) (p_cwd p) (p_parent p) (p_child p)
  (p_sibling p) (p_state p) (p_exit_code p) (p_wait_queue p) (p_hash_next p) (p_signals p) (p_controlling_tty p)
  (p_threads p).
Definition set_p_ngroups v p := mk_process (p_pid p) (p_sid p) (p_pgid p) (p_session_leader p) (p_groups p) v
  (p_uid p) (p_gid p) (p_euid p) (p_egid p) (p_mm p) (p_fd_table p) (p_cwd p) (p_parent p) (p_child p)
  (p_sibling p) (p_state p) (p_exit_code p) (p_wait_queue p) (p_hash_next p) (p_signals p) (p_controlling_tty p)
  (p_threads p).
Definition set_p_uid v p := mk_process (p_pid p) (p_sid p) (p_pgid p) (p_session_leader p) (p_groups p)
  (p_ngroups p) v (p_gid p) (p_euid p) (p_egid p) (p_mm p) (p_fd_table p) (p_cwd p) (p_parent p) (p_child p)
  (p_sibling p) (p_state p) (p_exit_code p) (p_wait_queue p) (p_hash_next p) (p_signals p) (p_controlling_tty p)
  (p_threads p).
Definition set_p_gid v p := mk_process (p_pid p) (p_sid p) (p_pgid p) (p_session_leader p) (p_groups p)
  (p_ngroups p) (p_uid p) v (p_euid p) (p_egid p) (p_mm p) (p_fd_table p) (p_cwd p) (p_parent p) (p_child p)
  (p_sibling p) (p_state p) (p_exit_code p) (p_wait_queue p) (p_hash_next p) (p_signals p) (p_controlling_tty p)
  (p_threads p).
Definition set_p_euid v p := mk_process (p_pid p) (p_sid p) (p_pgid p) (p_session_leader p) (p_groups p)
  (p_ngroups p) (p_uid p) (p_gid p) v (p_egid p) (p_mm p) (p_fd_table p) (p_cwd p) (p_parent p) (p_child p)
  (p_sibling p) (p_state p) (p_exit_code p) (p_wait_queue p) (p_hash_next p) (p_signals p) (p_controlling_tty p)
  (p_threads p).
Definition set_p_egid v p := mk_process (p_pid p) (p_sid p) (p_pgid p) (p_session_leader p) (p_groups p)
  (p_ngroups p) (p_uid p) (p_gid p) (p_euid p) v (p_mm p) (p_fd_table p) (p_cwd p) (p_parent p) (p_child p)
  (p_sibling p) (p_state p) (p_exit_code p) (p_wait_queue p) (p_hash_next p) (p_signals p) (p_controlling_tty p)
  (p_threads p).
Definition set_p_mm v p := mk_process (p_pid p) (p_sid p) (p_pgid p) (p_session_leader p) (p_groups p)
  (p_ngroups p) (p_uid p) (p_gid p) (p_euid p) (p_egid p) v (p_fd_table p) (p_cwd p) (p_parent p) (p_child p)
  (p_sibling p) (p_state p) (p_exit_code p) (p_wait_queue p) (p_hash_next p) (p_signals p) (p_controlling_tty p)
  (p_threads p).
Definition set_p_fd_table v p := mk_process (p_pid p) (p_sid p) (p_pgid p) (p_session_leader p) (p_groups p)
  (p_ngroups p) (p_uid p) (p_gid p) (p_euid p) (p_egid p) (p_mm p) v (p_cwd p) (p_parent p) (p_child p)
  (p_sibling p) (p_state p) (p_exit_code p) (p_wait_queue p) (p_hash_next p) (p_signals p) (p_controlling_tty p)
  (p_threads p).
Definition set_p_cwd v p := mk_process (p_pid p) (p_sid p) (p_pgid p) (p_session_leader p) (p_groups p)
  (p_ngroups p) (p_uid p) (p_gid p) (p_euid p) (p_egid p) (p_mm p) (p_fd_table p) v (p_parent p) (p_child p)
  (p_sibling p) (p_state p) (p_exit_code p) (p_wait_queue p) (p_hash_next p) (p_signals p) (p_controlling_tty p)
  (p_threads p).
Definition set_p_parent v p := mk_process (p_pid p) (p_sid p) (p_pgid p) (p_session_leader p) (p_groups p)
  (p_ngroups p) (p_uid p) (p_gid p) (p_euid p) (p_egid p) (p_mm p) (p_fd_table p) (p_cwd p) v (p_child p)
  (p_sibling p) (p_state p) (p_exit_code p) (p_wait_queue p) (p_hash_next p) (p_signals p) (p_controlling_tty p)
  (p_threads p).
Definition set_p_child v p := mk_process (p_pid p) (p_sid p) (p_pgid p) (p_session_leader p) (p_groups p)
  (p_ngroups p) (p_uid p) (p_gid p) (p_euid p) (p_egid p) (p_mm p) (p_fd_table p) (p_cwd p) (p_parent p) v
  (p_sibling p) (p_state p) (p_exit_code p) (p_wait_queue p) (p_hash_next p) (p_signals p) (p_controlling_tty p)
  (p_threads p).
Definition set_p_sibling v p := mk_process (p_pid p) (p_sid p) (p_pgid p) (p_session_leader p) (p_groups p)
  (p_ngroups p) (p_uid p) (p_gid p) (p_euid p) (p_egid p) (p_mm p) (p_fd_table p) (p_cwd p) (p_parent p)
  (p_child p) v (p_state p) (p_exit_code p) (p_wait_queue p) (p_hash_next p) (p_signals p) (p_controlling_tty p)
  (p_threads p).
Definition set_p_state v p := mk_process (p_pid p) (p_sid p) (p_pgid p) (p_session_leader p) (p_groups p)
  (p_ngroups p) (p_uid p) (p_gid p) (p_euid p) (p_egid p) (p_mm p) (p_fd_table p) (p_cwd p) (p_parent p)
  (p_child p) (p_sibling p) v (p_exit_code p) (p_wait_queue p) (p_hash_next p) (p_signals p)
  (p_controlling_tty p) (p_threads p).
Definition set_p_exit_code v p := mk_process (p_pid p) (p_sid p) (p_pgid p) (p_session_leader p) (p_groups p)
  (p_ngroups p) (p_uid p) (p_gid p) (p_euid p) (p_egid p) (p_mm p) (p_fd_table p) (p_cwd p) (p_parent p)
  (p_child p) (p_sibling p) (p_state p) v (p_wait_queue p) (p_hash_next p) (p_signals p) (p_controlling_tty p)
  (p_threads p).
Definition set_p_signals v p := mk_process (p_pid p) (p_sid p) (p_pgid p) (p_session_leader p) (p_groups p)
  (p_ngroups p) (p_uid p) (p_gid p) (p_euid p) (p_egid p) (p_mm p) (p_fd_table p) (p_cwd p) (p_parent p)
  (p_child p) (p_sibling p) (p_state p) (p_exit_code p) (p_wait_queue p) (p_hash_next p) v (p_controlling_tty p)
  (p_threads p).
Definition set_p_controlling_tty v p := mk_process (p_pid p) (p_sid p) (p_pgid p) (p_session_leader p)
  (p_groups p) (p_ngroups p) (p_uid p) (p_gid p) (p_euid p) (p_egid p) (p_mm p) (p_fd_table p) (p_cwd p)
  (p_parent p) (p_child p) (p_sibling p) (p_state p) (p_exit_code p) (p_wait_queue p) (p_hash_next p)
  (p_signals p) v (p_threads p).

Section kernel.
Context {FA : Type} `{!FrameAllocator FA}.

Record kst := mk_kst {
  k_sched : sched;
  k_vm : vmst FA;
  k_inodes : gmap Z inode;
  k_files : gmap Z file;
  k_pipes : gmap Z pipe;
  k_vfs : vfs;
  k_ttys : gmap Z tty;
  k_init : Z;                       (* init_process *)
  k_pid_counter : Z;
}.
Definition set_k_sched v k := mk_kst v (k_vm k) (k_inodes k) (k_files k) (k_pipes k) (k_vfs k) (k_ttys k) (k_init k) (k_pid_counter k).
Definition set_k_vm v k := mk_kst (k_sched k) v (k_inodes k) (k_files k) (k_pipes k) (k_vfs k) (k_ttys k) (k_init k) (k_pid_counter k).
Definition set_k_inodes v k := mk_kst (k_sched k) (k_vm k) v (k_files k) (k_pipes k) (k_vfs k) (k_ttys k) (k_init k) (k_pid_counter k).
Definition set_k_files v k := mk_kst (k_sched k) (k_vm k) (k_inodes k) v (k_pipes k) (k_vfs k) (k_ttys k) (k_init k) (k_pid_counter k).
Definition set_k_pipes v k := mk_kst (k_sched k) (k_vm k) (k_inodes k) (k_files k) v (k_vfs k) (k_ttys k) (k_init k) (k_pid_counter k).
Definition set_k_vfs v k := mk_kst (k_sched k) (k_vm k) (k_inodes k) (k_files k) (k_pipes k) v (k_ttys k) (k_init k) (k_pid_counter k).
Definition set_k_ttys v k := mk_kst (k_sched k) (k_vm k) (k_inodes k) (k_files k) (k_pipes k) (k_vfs k) v (k_init k) (k_pid_counter k).
Definition set_k_init v k := mk_kst (k_sched k) (k_vm k) (k_inodes k) (k_files k) (k_pipes k) (k_vfs k) (k_ttys k) v (k_pid_counter k).
Definition set_k_pid_counter v k := mk_kst (k_sched k) (k_vm k) (k_inodes k) (k_files k) (k_pipes k) (k_vfs k) (k_ttys k) (k_init k) v.

Local Open Scope prog_scope.

Definition on_sched {A} (m : M sched A) : M kst A := zoom k_sched set_k_sched m.
Definition on_vm {A} (m : M (vmst FA) A) : M kst A := zoom k_vm set_k_vm m.

(** Enough fuel for a chain of processes or of threads. *)
Definition proc_fuel (k : kst) : nat := S (size (procs (k_sched k))).
Definition task_fuel (k : kst) : nat := S (size (tasks (k_sched k))).

(** ** The current process *)

(** [current_task && current_task->proc]: the address of the process. *)
Definition current_proc : M kst (option Z) :=
  t <- gets (λ k, current_task (k_sched k));;
  if t =? 0 then ret None
  else
    x <- on_sched (get_task t);;
    ret (if t_proc x =? 0 then None else Some (t_proc x)).
(** [if (!current_task || !current_task->proc) return e;]. *)
Definition with_proc {A} (e : A) (body : Z → M kst A) : M kst A :=
  o <- current_proc;;
  match o with None => ret e | Some p => body p end.

Definition proc_of (p : Z) : M kst process := on_sched (get_proc p).
Definition upd_proc (p : Z) (f : process → process) : M kst unit := on_sched (mod_proc p f).

(** ** Objects *)

Definition get_inode (a : Z) : M kst inode := λ k, of_opt (k_inodes k !! a) k.
Definition mod_inode (a : Z) (f : inode → inode) : M kst unit := λ k,
  match k_inodes k !! a with
  | Some x => Done (tt, set_k_inodes (<[a := f x]> (k_inodes k)) k)
  | None => Fault
  end.
Definition new_inode (a : Z) (n : inode) : M kst unit := modify (λ k, set_k_inodes (<[a := n]> (k_inodes k)) k).
Definition kfree_inode (a : Z) : M kst unit := modify (λ k, set_k_inodes (delete a (k_inodes k)) k).
Definition get_file (a : Z) : M kst file := λ k, of_opt (k_files k !! a) k.
Definition mod_file (a : Z) (f : file → file) : M kst unit := λ k,
  match k_files k !! a with
  | Some x => Done (tt, set_k_files (<[a := f x]> (k_files k)) k)
  | None => Fault
  end.
Definition new_file (a : Z) (x : file) : M kst unit := modify (λ k, set_k_files (<[a := x]> (k_files k)) k).
Definition kfree_file (a : Z) : M kst unit := modify (λ k, set_k_files (delete a (k_files k)) k).

Definition get_tty (a : Z) : M kst tty := λ k, of_opt (k_ttys k !! a) k.
Definition mod_tty (a : Z) (f : tty → tty) : M kst unit := λ k,
  match k_ttys k !! a with
  | Some x => Done (tt, set_k_ttys (<[a := f x]> (k_ttys k)) k)
  | None => Fault
  end.

(** [fd_table[i]] of process [p]: an index outside the table faults. *)
Definition read_fd (p i : Z) : M kst Z :=
  x <- proc_of p;; of_opt (zget (p_fd_table x) i).
Definition write_fd (p i v : Z) : M kst unit :=
  x <- proc_of p;;
  match zset (p_fd_table x) i v with
  | Some l => upd_proc p (set_p_fd_table l)
  | None => faultM
  end.

(** ** Kernel memory *)

(** [kmalloc]; a buffer of bytes is not an object of a store. *)
Definition kalloc : M kst Z := on_vm kmalloc.
Definition kfree_bytes (a : Z) : M kst unit := ret tt.
(** Reading and writing the byte at a kernel pointer. *)
Definition kram (k : kst) : mem := ram (pt (k_vm k)).
Definition set_kram (m : mem) (k : kst) : kst := set_k_vm (set_pt (set_ram m (pt (k_vm k))) (k_vm k)) k.
Definition kread (p : Z) : M kst Z := gets (λ k, kram k (V2P p)).
Definition kwrite (p v : Z) : M kst unit := modify (λ k, set_kram (upd (kram k) (V2P p) v) k).
Definition kmemcpy (d s n : Z) : M kst unit := modify (λ k, set_kram (memcpy (kram k) (V2P d) (V2P s) n) k).
(** The string at a kernel pointer; [str_fuel] bounds its length. *)
Definition str_fuel : nat := 4096.
Fixpoint read_cstr (fuel : nat) (m : mem) (p : Z) : option (list Z) :=
  match fuel with
  | O => None
  | S f => if m p =? 0 then Some [] else cons (m p) <$> read_cstr f m (p + 1)
  end.
Definition kstring (p : Z) : M kst (list Z) := λ k, of_opt (read_cstr str_fuel (kram k) (V2P p)) k.

(** An operation on the kernel's objects, in a state with a further part [X],
    and one on that part. *)
Definition in_kst {X A} (m : M kst A) : M (kst * X) A := zoom fst (λ k s, (k, s.2)) m.
Definition in_snd {X A} (m : M X A) : M (kst * X) A := zoom snd (λ x s, (s.1, x)) m.

(** ** Drivers *)

(** The operations behind an [inode_ops] table: [None] for a NULL member.  A
    name or path is passed as its bytes. *)
Class Drivers := {
  ops_read : Z → option (Z → Z → Z → Z → M kst Z);
  ops_write : Z → option (Z → Z → Z → Z → M kst Z);
  ops_open : Z → option (Z → M kst unit);
  ops_close : Z → option (Z → M kst unit);
  ops_lookup : Z → option (Z → list Z → M kst Z);
  ops_create : Z → option (Z → list Z → M kst Z);
  ops_mkdir : Z → option (Z → list Z → M kst Z);
  ops_unlink : Z → option (Z → list Z → M kst Z);
  ops_rmdir : Z → option (Z → list Z → M kst Z);
  ops_symlink : Z → option (Z → list Z → list Z → M kst Z);
  ops_ioctl : Z → option (Z → Z → Z → M kst Z);
  ops_mmap : Z → option (Z → Z → Z → Z → Z → Z → M kst Z);
  ops_link : Z → option (Z → list Z → Z → M kst Z);
  ops_mknod : Z → option (Z → list Z → Z → Z → M kst Z);
  (* the result, the name and [*isdir] *)
  ops_readdir : Z → option (Z → Z → M kst (Z * list Z * Z));
}.

(** ** Reasoning about the current process *)

(** The state [k] runs process [p], whose record is [x]. *)
Definition runs (k : kst) (p : Z) (x : process) : Prop :=
  ∃ t y, current_task (k_sched k) = t ∧ t ≠ 0 ∧ tasks (k_sched k) !! t = Some y ∧ t_proc y = p ∧ p ≠ 0 ∧
    procs (k_sched k) !! p = Some x.

Lemma current_proc_runs k p x : runs k p x → current_proc k = Done (Some p, k).
Proof.
  intros (t & y & Ht & Ht0 & Hy & Hp & Hp0 & _). unfold current_proc. unfold bind at 1, gets at 1. rewrite Ht.
  rewrite (proj2 (Z.eqb_neq _ _)) by done. unfold on_sched, zoom. unfold bind at 1. unfold get_task. rewrite Hy.
  simpl. unfold ret. rewrite Hp, (proj2 (Z.eqb_neq _ _)) by done. by destruct k.
Qed.
Lemma with_proc_runs {A} (e : A) body k p x : runs k p x → with_proc e body k = body p k.
Proof. intros H. unfold with_proc. by mstep (current_proc_runs k p x H). Qed.

Lemma proc_of_Done k p x : procs (k_sched k) !! p = Some x → proc_of p k = Done (x, k).
Proof. intros H. unfold proc_of, on_sched, zoom, get_proc. rewrite H. simpl. by destruct k. Qed.

Definition put_proc (p : Z) (x : process) (k : kst) : kst :=
  set_k_sched (set_procs (<[p := x]> (procs (k_sched k))) (k_sched k)) k.
Lemma upd_proc_Done k p x f : procs (k_sched k) !! p = Some x → upd_proc p f k = Done (tt, put_proc p (f x) k).
Proof. intros H. unfold upd_proc, on_sched, zoom, mod_proc. by rewrite H. Qed.

Lemma runs_put k p x y : runs k p x → runs (put_proc p y k) p y.
Proof.
  intros (t & z & Ht & Ht0 & Hy & Hp & Hp0 & _). exists t, z. split_and!; try done. simpl. apply lookup_insert_eq.
Qed.
Lemma runs_proc k p x : runs k p x → procs (k_sched k) !! p = Some x.
Proof. by intros (t & y & _ & _ & _ & _ & _ & H). Qed.

Lemma get_inode_Done k a n : k_inodes k !! a = Some n → get_inode a k = Done (n, k).
Proof. unfold get_inode. by intros ->. Qed.
Lemma mod_inode_Done k a n f : k_inodes k !! a = Some n →
  mod_inode a f k = Done (tt, set_k_inodes (<[a := f n]> (k_inodes k)) k).
Proof. unfold mod_inode. by intros ->. Qed.
Lemma get_file_Done k a n : k_files k !! a = Some n → get_file a k = Done (n, k).
Proof. unfold get_file. by intros ->. Qed.
Lemma mod_file_Done k a n f : k_files k !! a = Some n →
  mod_file a f k = Done (tt, set_k_files (<[a := f n]> (k_files k)) k).
Proof. unfold mod_file. by intros ->. Qed.
End kernel.
Arguments kst FA : clear implicits.
Arguments Drivers FA : clear implicits.

(** ** A concrete kernel: task 2 runs process 11 *)

Definition ex_process (uid gid euid egid : Z) (fds : list Z) (sig : option signal_struct) : process :=
  mk_process 1 1 1 true [] 0 uid gid euid egid 1 fds 0 0 0 0 PROCESS_ACTIVE 0 300 0 sig 0 2.
Definition ex_tasks : gmap Z task :=
  list_to_map [(2, mk_task 2 0 TASK_RUNNING 2 0 0 0 0 0 0 11 0)].
Definition ex_ksched (x : process) : sched :=
  mk_sched ex_tasks {[11 := x]} ∅ [0; 0; 2; 0; 0] [0; 0; 2; 0; 0] 0 2 false 4
    (<[1%nat := 11]> (replicate 1024 0)) 6 40.
Definition ex_vfs : vfs := mk_vfs (replicate 16 (0, 0)) 64 (replicate 256 0) 0 0 0 ∅.
Definition ex_kst (x : process) (inodes : gmap Z inode) (files : gmap Z file) (v : vfs) : kst pmm :=
  mk_kst (ex_ksched x) (mk_vmst (ex_vmm [4; 5] 0) ∅ {[1 := ex_mm]} false [80; 96; 112]) inodes files ∅ v ∅ 10 3.
(** A regular file and the drivers of nothing. *)
Definition ex_inode (uid gid mode size : Z) : inode := mk_inode [97] FS_FILE uid gid (Z.lor S_IFREG mode) size 7 1 900 0 1 0 0 no_info.
Definition ex_drivers : Drivers pmm := {|
  ops_read := λ _, Some (λ _ _ _ _, ret 0); ops_write := λ _, Some (λ _ _ _ _, ret 0);
  ops_open := λ _, None; ops_close := λ _, None; ops_lookup := λ _, None; ops_create := λ _, None;
  ops_mkdir := λ _, None; ops_unlink := λ _, None; ops_rmdir := λ _, None; ops_symlink := λ _, None;
  ops_ioctl := λ _, None; ops_mmap := λ _, None; ops_link := λ _, None; ops_mknod := λ _, None; ops_readdir := λ _, None |}.

Lemma ex_runs x inodes files v : runs (ex_kst x inodes files v) 11 x.
Proof. exists 2, (mk_task 2 0 TASK_RUNNING 2 0 0 0 0 0 0 11 0). by split_and!. Qed.
