(* ===== verification/Vfs.v ===== *)
(** The virtual file system, [kernel/fs/vfs.c]: permissions, mounts, the page
    cache of regular files with its LRU list, reading and writing through the
    cache, path resolution.  The drivers' operations and the root of the
    device file system are parameters.  The private copies that [namei] makes
    of its path are lists of bytes. *)
From S2P Require Export Kernel.
From S2P Require Import KString.

Definition MAX_MOUNTS : Z := 16.
Definition MAX_SYMLINK_DEPTH : Z := 8.
Definition CACHE_BUCKETS : Z := 256.
Definition MAX_CACHED_PAGES : Z := 1024.

Definition set_ce_dirty v e := mk_cache_entry (ce_node e) (ce_page_offset e) (ce_phys_addr e) v (ce_next e) (ce_lru_next e) (ce_lru_prev e).
Definition set_ce_next v e := mk_cache_entry (ce_node e) (ce_page_offset e) (ce_phys_addr e) (ce_dirty e) v (ce_lru_next e) (ce_lru_prev e).
Definition set_ce_lru_next v e := mk_cache_entry (ce_node e) (ce_page_offset e) (ce_phys_addr e) (ce_dirty e) (ce_next e) v (ce_lru_prev e).
Definition set_ce_lru_prev v e := mk_cache_entry (ce_node e) (ce_page_offset e) (ce_phys_addr e) (ce_dirty e) (ce_next e) (ce_lru_next e) v.

Definition set_mount_table v s := mk_vfs v (vfs_root s) (page_cache s) (lru_head s) (lru_tail s) (current_cached_pages s) (cache_entries s).
Definition set_vfs_root v s := mk_vfs (mount_table s) v (page_cache s) (lru_head s) (lru_tail s) (current_cached_pages s) (cache_entries s).
Definition set_page_cache v s := mk_vfs (mount_table s) (vfs_root s) v (lru_head s) (lru_tail s) (current_cached_pages s) (cache_entries s).
Definition set_lru_head v s := mk_vfs (mount_table s) (vfs_root s) (page_cache s) v (lru_tail s) (current_cached_pages s) (cache_entries s).
Definition set_lru_tail v s := mk_vfs (mount_table s) (vfs_root s) (page_cache s) (lru_head s) v (current_cached_pages s) (cache_entries s).
Definition set_cached_pages v s := mk_vfs (mount_table s) (vfs_root s) (page_cache s) (lru_head s) (lru_tail s) v (cache_entries s).
Definition set_cache_entries v s := mk_vfs (mount_table s) (vfs_root s) (page_cache s) (lru_head s) (lru_tail s) (current_cached_pages s) v.

Local Open Scope prog_scope.

(** ** The page cache's lists *)

Definition get_ce (a : Z) : M vfs cache_entry := λ s, of_opt (cache_entries s !! a) s.
Definition mod_ce (a : Z) (f : cache_entry → cache_entry) : M vfs unit := λ s,
  match cache_entries s !! a with
  | Some e => Done (tt, set_cache_entries (<[a := f e]> (cache_entries s)) s)
  | None => Fault
  end.
Definition get_bucket (i : Z) : M vfs Z := λ s, of_opt (zget (page_cache s) i) s.
Definition put_bucket (i v : Z) : M vfs unit := λ s,
  match zset (page_cache s) i v with
  | Some l => Done (tt, set_page_cache l s)
  | None => Fault
  end.

Definition lru_remove (a : Z) : M vfs unit :=
  e <- get_ce a;;
  (if negb (ce_lru_prev e =? 0) then mod_ce (ce_lru_prev e) (set_ce_lru_next (ce_lru_next e))
   else modify (set_lru_head (ce_lru_next e)));;;
  e <- get_ce a;;
  (if negb (ce_lru_next e =? 0) then mod_ce (ce_lru_next e) (set_ce_lru_prev (ce_lru_prev e))
   else modify (set_lru_tail (ce_lru_prev e))).

Definition lru_add_front (a : Z) : M vfs unit :=
  h <- gets lru_head;;
  mod_ce a (set_ce_lru_next h);;;
  mod_ce a (set_ce_lru_prev 0);;;
  (if negb (h =? 0) then mod_ce h (set_ce_lru_prev a) else ret tt);;;
  modify (set_lru_head a);;;
  t <- gets lru_tail;;
  if t =? 0 then modify (set_lru_tail a) else ret tt.

Definition lru_touch (a : Z) : M vfs unit :=
  h <- gets lru_head;;
  if a =? h then ret tt else lru_remove a;;; lru_add_front a.

Definition hash_cache (node offset : Z) : Z :=
  Z.lxor (Z.shiftr node 4) (Z.shiftr offset PAGE_SHIFT) mod CACHE_BUCKETS.

(** [while (curr && curr->next != e) curr = curr->next;]. *)
Fixpoint find_before (fuel : nat) (curr e : Z) : M vfs Z :=
  match fuel with
  | O => faultM
  | S f =>
      if curr =? 0 then ret 0
      else
        x <- get_ce curr;;
        if ce_next x =? e then ret curr else find_before f (ce_next x) e
  end.
(** Taking an entry off its bucket: the common part of [cache_evict_one] and
    [cache_evict_inode]. *)
Definition bucket_remove (bucket a : Z) : M vfs unit :=
  h <- get_bucket bucket;;
  e <- get_ce a;;
  if h =? a then put_bucket bucket (ce_next e)
  else
    fuel <- gets (λ s, S (size (cache_entries s)));;
    p <- find_before fuel h a;;
    if negb (p =? 0) then mod_ce p (set_ce_next (ce_next e)) else ret tt.

Fixpoint bucket_find (fuel : nat) (a node offset : Z) : M vfs Z :=
  match fuel with
  | O => faultM
  | S f =>
      if a =? 0 then ret 0
      else
        e <- get_ce a;;
        if (ce_node e =? node) && (ce_page_offset e =? offset) then ret a
        else bucket_find f (ce_next e) node offset
  end.
Definition cache_lookup (node offset : Z) : M vfs Z :=
  h <- get_bucket (hash_cache node offset);;
  fuel <- gets (λ s, S (size (cache_entries s)));;
  bucket_find fuel h node offset.

Section vfs.
Context {FA : Type} `{!FrameAllocator FA} `{!Drivers FA}.
(** The node [devfs_get_root] returns; the array [link_buf] of [namei], on the
    kernel stack. *)
Context (devfs_root_node link_buf : Z).

(** [node->ops && node->ops->f]. *)
Definition op_of {A} (f : Z → option A) (n : inode) : option A :=
  if in_ops n =? 0 then None else f (in_ops n).

Definition on_vfs {A} (m : M vfs A) : M (kst FA) A := zoom k_vfs set_k_vfs m.
Definition kalloc_frame : M (kst FA) Z := on_vm (on_pt alloc_frame).
Definition kfree_frame (a : Z) : M (kst FA) unit := on_vm (on_pt (free_frame a)).
Definition kclear_page (p : Z) : M (kst FA) unit := on_vm (on_pt (clear_page p)).

Definition flush_entry (e : cache_entry) : M (kst FA) unit :=
  n <- get_inode (ce_node e);;
  match op_of ops_write n with
  | Some write =>
      let write_size := if in_size n <? u64 (ce_page_offset e + PAGE_SIZE)
                        then u64 (in_size n - ce_page_offset e) else PAGE_SIZE in
      write (ce_node e) (ce_page_offset e) write_size (P2V (ce_phys_addr e));;; ret tt
  | None => ret tt
  end.
(** Unlinking an entry and freeing its frame: the tail of both evictions. *)
Definition drop_entry (a : Z) (e : cache_entry) : M (kst FA) unit :=
  on_vfs (bucket_remove (hash_cache (ce_node e) (ce_page_offset e)) a);;;
  on_vfs (lru_remove a);;;
  kfree_frame (ce_phys_addr e);;;
  on_vfs (modify (λ s, set_cache_entries (delete a (cache_entries s)) s));;;
  on_vfs (modify (λ s, set_cached_pages (u32 (current_cached_pages s - 1)) s)).

Definition cache_evict_one : M (kst FA) unit :=
  a <- gets (λ k, lru_tail (k_vfs k));;
  if a =? 0 then ret tt
  else
    e <- on_vfs (get_ce a);;
    (if ce_dirty e && negb (ce_node e =? 0) then flush_entry e else ret tt);;;
    drop_entry a e.

Fixpoint evict_loop (fuel : nat) (node : Z) (flush_dirty : bool) (curr : Z) : M (kst FA) unit :=
  match fuel with
  | O => faultM
  | S f =>
      if curr =? 0 then ret tt
      else
        e <- on_vfs (get_ce curr);;
        (if ce_node e =? node then
           (if flush_dirty && ce_dirty e then flush_entry e else ret tt);;;
           drop_entry curr e
         else ret tt);;;
        evict_loop f node flush_dirty (ce_lru_next e)
  end.
Definition cache_evict_inode (node : Z) (flush_dirty : bool) : M (kst FA) unit :=
  h <- gets (λ k, lru_head (k_vfs k));;
  fuel <- gets (λ k, S (size (cache_entries (k_vfs k))));;
  evict_loop fuel node flush_dirty h.

Definition cache_add (node offset phys_addr : Z) : M (kst FA) Z :=
  n <- gets (λ k, current_cached_pages (k_vfs k));;
  (if MAX_CACHED_PAGES <=? n then cache_evict_one else ret tt);;;
  a <- kalloc;;
  if a =? 0 then ret 0
  else
    let bucket := hash_cache node offset in
    h <- on_vfs (get_bucket bucket);;
    on_vfs (modify (λ s, set_cache_entries
      (<[a := mk_cache_entry node offset phys_addr false h 0 0]> (cache_entries s)) s));;;
    on_vfs (put_bucket bucket a);;;
    on_vfs (lru_add_front a);;;
    on_vfs (modify (λ s, set_cached_pages (u32 (current_cached_pages s + 1)) s));;;
    ret a.

(** ** Nodes *)

Definition vfs_init : M (kst FA) unit :=
  on_vfs (modify (set_vfs_root 0));;;
  on_vfs (modify (set_mount_table (replicate (Z.to_nat MAX_MOUNTS) (0, 0)))).

Definition vfs_check_permission (node mask : Z) : M (kst FA) Z :=
  if node =? 0 then ret (-1)
  else
    with_proc 0 (λ pa,
      p <- proc_of pa;;
      if p_euid p =? 0 then ret 0
      else
        n <- get_inode node;;
        let mode := if p_euid p =? in_uid n then Z.shiftr (in_mode n) 6
                    else if p_egid p =? in_gid n then Z.shiftr (in_mode n) 3 else in_mode n in
        ret (if Z.land mode mask =? mask then 0 else -1)).

Definition vfs_retain (node : Z) : M (kst FA) unit :=
  if node =? 0 then ret tt else mod_inode node (λ n, set_in_ref_count (in_ref_count n + 1) n).

Definition vfs_mount_root (node : Z) : M (kst FA) unit :=
  on_vfs (modify (set_vfs_root node));;;
  mod_inode node (set_in_parent 0);;;
  vfs_retain node.

(** The first free entry of the mount table. *)
Fixpoint mount_slot (l : list (Z * Z)) (e : Z * Z) : option (list (Z * Z)) :=
  match l with
  | [] => None
  | x :: l' => if x.2 =? 0 then Some (e :: l') else cons x <$> mount_slot l' e
  end.
Definition vfs_mount (mountpoint fs_root : Z) : M (kst FA) Z :=
  if (mountpoint =? 0) || (fs_root =? 0) then ret 0
  else
    n <- get_inode mountpoint;;
    l <- gets (λ k, mount_table (k_vfs k));;
    match mount_slot l (in_id n, fs_root) with
    | Some l' => on_vfs (modify (set_mount_table l'));;; ret 1
    | None => ret 0
    end.

(** The page of [node] at [page_offset] in the cache, read from the driver
    if needed; [fill] prepares the new frame.  0 when there is no memory. *)
Definition cached_page (node page_offset : Z) (fill : Z → M (kst FA) unit) : M (kst FA) Z :=
  a <- on_vfs (cache_lookup node page_offset);;
  if negb (a =? 0) then on_vfs (lru_touch a);;; ret a
  else
    frame <- kalloc_frame;;
    if frame =? 0 then ret 0
    else
      fill frame;;;
      a <- cache_add node page_offset frame;;
      (if a =? 0 then kfree_frame frame else ret tt);;;
      ret a.

Definition disk_read_size (n : inode) (page_offset : Z) : Z :=
  if in_size n <? u64 (page_offset + PAGE_SIZE) then u64 (in_size n - page_offset) else PAGE_SIZE.

(** The loop of [vfs_read]; every round reads at least one byte, so [size]
    rounds are enough. *)
Fixpoint read_loop (fuel : nat) (read : Z → Z → Z → Z → M (kst FA) Z) (node offset size buffer bytes_read : Z)
    : M (kst FA) Z :=
  match fuel with
  | O => faultM
  | S f =>
      if size <=? bytes_read then ret bytes_read
      else
        n <- get_inode node;;
        let current_offset := u64 (offset + bytes_read) in
        let page_offset := andnot current_offset (PAGE_SIZE - 1) in
        let offset_in_page := Z.land current_offset (PAGE_SIZE - 1) in
        let bytes_to_read := PAGE_SIZE - offset_in_page in
        let bytes_to_read := if size <? u64 (bytes_read + bytes_to_read) then size - bytes_read else bytes_to_read in
        if in_size n <=? current_offset then ret bytes_read
        else
          let bytes_to_read := if in_size n <? u64 (current_offset + bytes_to_read)
                               then in_size n - current_offset else bytes_to_read in
          a <- cached_page node page_offset (λ frame,
            kclear_page (P2V frame);;;
            read node page_offset (disk_read_size n page_offset) (P2V frame);;; ret tt);;
          if a =? 0 then ret bytes_read
          else
            e <- on_vfs (get_ce a);;
            kmemcpy (buffer + bytes_read) (P2V (ce_phys_addr e) + offset_in_page) bytes_to_read;;;
            read_loop f read node offset size buffer (bytes_read + bytes_to_read)
  end.
Definition vfs_read (node offset size buffer : Z) : M (kst FA) Z :=
  ok <- vfs_check_permission node 4;;
  if negb (ok =? 0) then ret (u64 (-1))
  else
    if node =? 0 then ret 0
    else
      n <- get_inode node;;
      match op_of ops_read n with
      | None => ret 0
      | Some read =>
          if negb (S_ISREG (in_mode n)) then read node offset size buffer
          else read_loop (S (Z.to_nat size)) read node offset size buffer 0
      end.

Fixpoint write_loop (fuel : nat) (node offset size buffer bytes_written : Z) : M (kst FA) Z :=
  match fuel with
  | O => faultM
  | S f =>
      if size <=? bytes_written then ret bytes_written
      else
        n <- get_inode node;;
        let current_offset := u64 (offset + bytes_written) in
        let page_offset := andnot current_offset (PAGE_SIZE - 1) in
        let offset_in_page := Z.land current_offset (PAGE_SIZE - 1) in
        let bytes_to_write := PAGE_SIZE - offset_in_page in
        let bytes_to_write := if size <? u64 (bytes_written + bytes_to_write) then size - bytes_written else bytes_to_write in
        a <- cached_page node page_offset (λ frame,
          if (bytes_to_write <? PAGE_SIZE) && (current_offset <? in_size n) then
            match op_of ops_read n with
            | Some read => read node page_offset (disk_read_size n page_offset) (P2V frame);;; ret tt
            | None => faultM
            end
          else kclear_page (P2V frame));;
        if a =? 0 then ret bytes_written
        else
          e <- on_vfs (get_ce a);;
          kmemcpy (P2V (ce_phys_addr e) + offset_in_page) (buffer + bytes_written) bytes_to_write;;;
          on_vfs (mod_ce a (set_ce_dirty true));;;
          write_loop f node offset size buffer (bytes_written + bytes_to_write)
  end.
Definition vfs_write (node offset size buffer : Z) : M (kst FA) Z :=
  ok <- vfs_check_permission node 2;;
  if negb (ok =? 0) then ret (u64 (-1))
  else
    if node =? 0 then ret 0
    else
      n <- get_inode node;;
      match op_of ops_write n with
      | None => ret 0
      | Some write =>
          if negb (S_ISREG (in_mode n)) then write node offset size buffer
          else
            w <- write_loop (S (Z.to_nat size)) node offset size buffer 0;;
            n <- get_inode node;;
            (if in_size n <? u64 (offset + w) then mod_inode node (set_in_size (u64 (offset + w))) else ret tt);;;
            ret w
      end.

Definition vfs_open (node : Z) : M (kst FA) unit :=
  if node =? 0 then ret tt
  else
    mod_inode node (λ n, set_in_ref_count (in_ref_count n + 1) n);;;
    n <- get_inode node;;
    match op_of ops_open n with Some open => open node | None => ret tt end.

(** [vfs_close]; the test [node->ops->close] dereferences [ops]. *)
Definition vfs_close (node : Z) : M (kst FA) unit :=
  if node =? 0 then ret tt
  else
    mod_inode node (λ n, set_in_ref_count (in_ref_count n - 1) n);;;
    n <- get_inode node;;
    if in_ref_count n <=? 0 then
      cache_evict_inode node true;;;
      n <- get_inode node;;
      if has (in_flags n) FS_TEMPORARY then
        if in_ops n =? 0 then faultM
        else
          match op_of ops_close n with
          | Some close =>
              close node;;;
              n <- get_inode node;;
              if has (in_flags n) FS_TEMPORARY then kfree_inode node else ret tt
          | None => ret tt
          end
      else ret tt
    else ret tt.

(** [node->ops->f]: the table is dereferenced without a test. *)
Definition vfs_create (node : Z) (name : list Z) : M (kst FA) Z :=
  if node =? 0 then ret 0
  else
    n <- get_inode node;;
    if in_ops n =? 0 then faultM
    else match op_of ops_create n with Some create => create node name | None => ret 0 end.
Definition vfs_unlink (parent : Z) (name : list Z) : M (kst FA) Z :=
  if parent =? 0 then ret (-1)
  else
    n <- get_inode parent;;
    if in_ops n =? 0 then faultM
    else match op_of ops_unlink n with Some unlink => unlink parent name | None => ret (-1) end.

Definition vfs_symlink (parent : Z) (name target : list Z) : M (kst FA) Z :=
  if parent =? 0 then ret 0
  else
    ok <- vfs_check_permission parent 2;;
    if negb (ok =? 0) then ret 0
    else
      n <- get_inode parent;;
      match op_of ops_symlink n with Some symlink => symlink parent name target | None => ret 0 end.
Definition vfs_link (parent : Z) (name : list Z) (target : Z) : M (kst FA) Z :=
  if (parent =? 0) || (target =? 0) then ret (-1)
  else
    ok <- vfs_check_permission parent 2;;
    if negb (ok =? 0) then ret (-1)
    else
      n <- get_inode parent;;
      match op_of ops_link n with Some link => link parent name target | None => ret (-1) end.
Definition vfs_mknod (parent : Z) (name : list Z) (mode dev : Z) : M (kst FA) Z :=
  if parent =? 0 then ret 0
  else
    ok <- vfs_check_permission parent 2;;
    if negb (ok =? 0) then ret 0
    else
      n <- get_inode parent;;
      match op_of ops_mknod n with Some mknod => mknod parent name mode dev | None => ret 0 end.

(** ** Path resolution *)

(** [strtok_r(s, "/", &save)] on a private string: the next component and what
    [save] points to. *)
Fixpoint skip_slashes (l : list Z) : list Z :=
  match l with c :: l' => if c =? 47 then skip_slashes l' else l | [] => [] end.
Fixpoint component (l : list Z) : list Z * list Z :=
  match l with
  | [] => ([], [])
  | c :: l' => if c =? 47 then ([], l') else let '(a, b) := component l' in (c :: a, b)
  end.
Definition next_token (l : list Z) : option (list Z * list Z) :=
  match skip_slashes l with [] => None | l' => Some (component l') end.

(** The target of the first mount on the node with this id, 0 if none. *)
Fixpoint mount_target (l : list (Z * Z)) (id : Z) : Z :=
  match l with
  | [] => 0
  | x :: l' => if negb (x.2 =? 0) && (x.1 =? id) then x.2 else mount_target l' id
  end.

(** [kmalloc] of a copy that is then written: NULL is not tested. *)
Definition private_copy : M (kst FA) unit := a <- kalloc;; if a =? 0 then faultM else ret tt.

(** The contents of the symbolic link [node], [None] on failure. *)
Definition read_link (node : Z) : M (kst FA) (option (list Z)) :=
  modify (λ k, set_kram (memset (kram k) (V2P link_buf) 0 256) k);;;
  len <- vfs_read node 0 255 link_buf;;
  if (len =? 0) || (len =? U64_MAX) then ret None
  else
    kwrite (link_buf + len) 0;;;
    s <- kstring link_buf;;
    ret (Some s).

(** The loop over the components of the path; [inl] is the path to start again
    with after a symbolic link. *)
Fixpoint namei_walk (fuel : nat) (current : Z) (rest : list Z) : M (kst FA) (list Z + Z) :=
  match fuel with
  | O => faultM
  | S f =>
      match next_token rest with
      | None => ret (inr current)
      | Some (token, rest) =>
          if decide (token = [46]) then namei_walk f current rest
          else if decide (token = [46; 46]) then
            n <- get_inode current;;
            if negb (in_parent n =? 0) then
              vfs_retain (in_parent n);;; vfs_close current;;; namei_walk f (in_parent n) rest
            else namei_walk f current rest
          else
            root <- gets (λ k, vfs_root (k_vfs k));;
            next <- (if (current =? root) && bool_decide (token = [100; 101; 118]) then
                       vfs_retain devfs_root_node;;; ret devfs_root_node
                     else
                       n <- get_inode current;;
                       match op_of ops_lookup n with Some lookup => lookup current token | None => faultM end);;
            if next =? 0 then vfs_close current;;; ret (inr 0)
            else
              mod_inode next (set_in_parent current);;;
              vfs_retain current;;;
              vfs_close current;;;
              n <- get_inode next;;
              if in_flags n =? FS_SYMLINK then
                o <- read_link next;;
                match o with
                | None => vfs_close next;;; ret (inr 0)
                | Some target =>
                    private_copy;;;
                    vfs_close next;;;
                    ret (inl (target ++ match rest with [] => [] | _ => 47 :: rest end))
                end
              else
                l <- gets (λ k, mount_table (k_vfs k));;
                let target := mount_target l (in_id n) in
                if negb (target =? 0) then vfs_retain target;;; vfs_close next;;; namei_walk f target rest
                else namei_walk f next rest
      end
  end.

(** Where a path starts: the root or the working directory, or what is mounted
    there. *)
Definition namei_start (path : list Z) : M (kst FA) Z :=
  root <- gets (λ k, vfs_root (k_vfs k));;
  current <- (if decide (head path = Some 47) then ret root
              else with_proc root (λ p, x <- proc_of p;; ret (if p_cwd x =? 0 then root else p_cwd x)));;
  vfs_retain current;;;
  n <- get_inode current;;
  if negb (in_mount_point n =? 0) then
    vfs_retain (in_mount_point n);;; vfs_close current;;; ret (in_mount_point n)
  else ret current.

(** [restart:]; [depth] is [MAX_SYMLINK_DEPTH - symlink_depth]. *)
Fixpoint namei_restart (depth : nat) (path : list Z) : M (kst FA) Z :=
  match depth with
  | O => ret 0
  | S d =>
      current <- namei_start path;;
      private_copy;;;
      r <- namei_walk (S (length path)) current path;;
      match r with inl path' => namei_restart d path' | inr node => ret node end
  end.
Definition namei (path : Z) : M (kst FA) Z :=
  root <- gets (λ k, vfs_root (k_vfs k));;
  if (root =? 0) || (path =? 0) then ret 0
  else
    s <- kstring path;;
    private_copy;;;
    namei_restart (Z.to_nat MAX_SYMLINK_DEPTH) s.
End vfs.

(** ** The LRU list *)

Notation lnx s := (mnx ce_lru_next (cache_entries s)).
Notation lpv s := (mpv ce_lru_prev (cache_entries s)).
(** The cached pages, most recently used first. *)
Record lru_ok (s : vfs) (l : list Z) : Prop := mk_lru_ok {
  lo_list : dlist (lnx s) (lpv s) (lru_head s) (lru_tail s) l;
  lo_entry : ∀ a, a ∈ l → is_Some (cache_entries s !! a);
}.
(** An entry without its LRU links. *)
Definition ce_core (e : cache_entry) : cache_entry := set_ce_lru_next 0 (set_ce_lru_prev 0 e).
Record lru_only (s s' : vfs) : Prop := mk_lru_only {
  lr_mounts : mount_table s' = mount_table s;
  lr_root : vfs_root s' = vfs_root s;
  lr_buckets : page_cache s' = page_cache s;
  lr_count : current_cached_pages s' = current_cached_pages s;
  lr_core : ∀ u, ce_core <$> cache_entries s' !! u = ce_core <$> cache_entries s !! u;
}.

Lemma lru_only_trans s1 s2 s3 : lru_only s1 s2 → lru_only s2 s3 → lru_only s1 s3.
Proof. intros [] []. split; congruence. Qed.

Lemma get_ce_Done s a e : cache_entries s !! a = Some e → get_ce a s = Done (e, s).
Proof. unfold get_ce. by intros ->. Qed.
Lemma mod_ce_Done s a f : is_Some (cache_entries s !! a) →
  mod_ce a f s = Done (tt, set_cache_entries (alter f a (cache_entries s)) s).
Proof.
  intros [e He]. unfold mod_ce. rewrite He. f_equal. f_equal. f_equal. apply map_eq. intros u.
  destruct (decide (u = a)) as [->|]; [by rewrite lookup_insert_eq, lookup_alter_eq, He|].
  by rewrite lookup_insert_ne, lookup_alter_ne.
Qed.

Notation join := (join_links set_ce_lru_next set_ce_lru_prev).
Notation front := (front_links set_ce_lru_next set_ce_lru_prev).

Lemma lru_remove_run s l1 a l2 : lru_ok s (l1 ++ a :: l2) →
  lru_remove a s = Done (tt, mk_vfs (mount_table s) (vfs_root s) (page_cache s) (hdZ 0 (l1 ++ l2)) (lastZ 0 (l1 ++ l2))
    (current_cached_pages s) (join l1 l2 (cache_entries s))).
Proof.
  intros [Hd Hex]. destruct (dlist_split _ _ _ _ _ _ _ Hd) as [Hpv Hnx].
  destruct (Hex a) as [e He]; [apply elem_of_app; right; by left|].
  unfold mpv, mnx in Hpv, Hnx. rewrite He in Hpv, Hnx. simpl in Hpv, Hnx.
  pose proof Hd as [_ Hhd Htl Hnd H0]. apply NoDup_app in Hnd as (_ & Hdj & _).
  rewrite not_elem_of_app, not_elem_of_cons in H0. destruct H0 as (H01 & Ha0 & H02).
  unfold lru_remove. mstep (get_ce_Done s a e He). rewrite Hpv, Hnx.
  set (m1 := if decide (l1 = []) then cache_entries s else alter (set_ce_lru_next (hdZ 0 l2)) (lastZ 0 l1) (cache_entries s)).
  assert (Hfront : (if negb (lastZ 0 l1 =? 0) then mod_ce (lastZ 0 l1) (set_ce_lru_next (hdZ 0 l2))
      else modify (set_lru_head (hdZ 0 l2))) s = Done (tt, set_cache_entries m1 (set_lru_head (hdZ 0 (l1 ++ l2)) s))).
  { unfold m1. rewrite hdZ_app. destruct l1 as [|b l1'] eqn:El; [by destruct s|]. rewrite <- El in *.
    rewrite (proj2 (Z.eqb_neq _ _)) by (rewrite lastZ_zero_iff by done; by rewrite El). cbn [negb].
    rewrite mod_ce_Done by (apply Hex, elem_of_app; left; apply lastZ_elem; by rewrite El).
    rewrite decide_False by (by rewrite El). unfold set_cache_entries, set_lru_head. simpl. rewrite Hhd, El. done. }
  mstep Hfront. set (s1 := set_cache_entries m1 _).
  assert (He1 : ∃ e1, cache_entries s1 !! a = Some e1 ∧ ce_lru_prev e1 = lastZ 0 l1 ∧ ce_lru_next e1 = hdZ 0 l2).
  { simpl. unfold m1. case_decide as Hl; [by exists e|]. rewrite lookup_alter_ne; [by exists e|].
    intros <-. apply (Hdj (lastZ 0 l1)); [by apply lastZ_elem|by left]. }
  destruct He1 as (e1 & He1 & Hpv1 & Hnx1). mstep (get_ce_Done s1 a e1 He1). rewrite Hpv1, Hnx1.
  unfold join_links. fold m1. rewrite lastZ_app. destruct l2 as [|b l2'] eqn:El; [reflexivity|]. rewrite <- El in *.
  rewrite (proj2 (Z.eqb_neq _ _)) by (rewrite hdZ_zero_iff by done; by rewrite El). cbn [negb].
  rewrite mod_ce_Done.
  - rewrite decide_False by (by rewrite El). unfold set_cache_entries, s1. simpl.
    rewrite Htl, lastZ_app. cbn [lastZ]. by rewrite El.
  - simpl. unfold m1. assert (is_Some (cache_entries s !! hdZ 0 l2)) as [y Hy].
    { apply Hex, elem_of_app. right. right. apply hdZ_elem. by rewrite El. }
    case_decide; [eauto|]. destruct (decide (lastZ 0 l1 = hdZ 0 l2)) as [->|];
      [rewrite lookup_alter_eq, Hy; by eexists|rewrite lookup_alter_ne, Hy by done; by eexists].
Qed.

Lemma lru_remove_ok s l1 a l2 : lru_ok s (l1 ++ a :: l2) →
  ∃ s', lru_remove a s = Done (tt, s') ∧ lru_ok s' (l1 ++ l2) ∧ lru_only s s' ∧ is_Some (cache_entries s' !! a).
Proof.
  intros Hs. pose proof Hs as [Hd Hex]. eexists. split; [by apply lru_remove_run|].
  assert (Hin : ∀ u, u ∈ l1 ++ l2 → is_Some (cache_entries s !! u)).
  { intros u Hu. apply Hex. rewrite elem_of_app, elem_of_cons. apply elem_of_app in Hu as [?|?]; auto. }
  assert (Hsome : ∀ u, is_Some (cache_entries s !! u) → is_Some (join l1 l2 (cache_entries s) !! u)).
  { intros u [y Hy]. rewrite join_links_lookup, Hy. cbv zeta. repeat case_decide; by eexists. }
  split; [|split; [|apply Hsome, Hex, elem_of_app; right; by left]].
  - split; simpl; [|by auto]. by eapply join_links_dlist.
  - split; try done. intros u. simpl. by apply join_links_core.
Qed.

Lemma lru_add_front_ok s l a : lru_ok s l → a ∉ l → a ≠ 0 → is_Some (cache_entries s !! a) →
  ∃ s', lru_add_front a s = Done (tt, s') ∧ lru_ok s' (a :: l) ∧ lru_only s s'.
Proof.
  intros [Hd Hex] Ha Ha0 Hsa. pose proof Hd as [_ Hhd Htl _ H0].
  exists (mk_vfs (mount_table s) (vfs_root s) (page_cache s) a (lastZ a l) (current_cached_pages s) (front a l (cache_entries s))).
  split; [|split].
  - unfold lru_add_front. unfold bind at 1, gets at 1. rewrite Hhd. mstep (mod_ce_Done s a (set_ce_lru_next (hdZ 0 l)) Hsa).
    set (s1 := set_cache_entries _ s). assert (is_Some (cache_entries s1 !! a)) as Hs1.
    { simpl. rewrite lookup_alter_eq. destruct Hsa as [y ->]. by eexists. }
    mstep (mod_ce_Done s1 a (set_ce_lru_prev 0) Hs1). set (s2 := set_cache_entries _ s1).
    assert (Hm2 : cache_entries s2 = alter (λ x, set_ce_lru_prev 0 (set_ce_lru_next (hdZ 0 l) x)) a (cache_entries s)).
    { simpl. by rewrite alter_alter_eq. }
    assert (Hthird : (if negb (hdZ 0 l =? 0) then mod_ce (hdZ 0 l) (set_ce_lru_prev a) else ret tt) s2 =
      Done (tt, set_cache_entries (front a l (cache_entries s)) s)).
    { unfold front_links. rewrite <- Hm2. destruct l as [|b l]; [done|].
      cbn [hdZ] in *. rewrite (proj2 (Z.eqb_neq b 0)) by (intros ->; apply H0; by left). cbn [negb].
      apply not_elem_of_cons in Ha as [Hab _]. rewrite mod_ce_Done; [done|]. rewrite Hm2, lookup_alter_ne by done.
      apply Hex. by left. }
    mstep Hthird. unfold bind at 1, modify at 1. unfold bind, gets. cbn [lru_tail set_lru_head set_cache_entries]. rewrite Htl.
    destruct l as [|b l]; [reflexivity|].
    rewrite (proj2 (Z.eqb_neq _ _)) by (rewrite lastZ_zero_iff by done; done).
    unfold ret, set_lru_head, set_cache_entries. simpl. rewrite Htl. reflexivity.
  - split; simpl; [by eapply front_links_dlist|]. intros u Hu. rewrite front_links_lookup by done.
    assert (is_Some (cache_entries s !! u)) as [y Hy] by (apply elem_of_cons in Hu as [->|Hu]; [done|by apply Hex]).
    rewrite Hy. repeat case_decide; by eexists.
  - split; try done. intros u. simpl. by apply front_links_core.
Qed.

Lemma lru_touch_front s l1 a l2 : lru_ok s (l1 ++ a :: l2) →
  ∃ s', lru_touch a s = Done (tt, s') ∧ lru_ok s' (a :: l1 ++ l2) ∧ lru_only s s'.
Proof.
  intros Hs. pose proof Hs as [Hd Hex]. pose proof Hd as [_ Hhd _ Hnd H0].
  unfold lru_touch. unfold bind at 1, gets at 1. destruct (Z.eqb_spec a (lru_head s)) as [He|He].
  - exists s. split; [done|]. assert (l1 = []) as ->; [|by split; [|split]].
    destruct l1 as [|b l1]; [done|]. exfalso. rewrite Hhd in He. simpl in He. subst a.
    apply NoDup_app in Hnd as (_ & Hdj & _). apply (Hdj b); by left.
  - destruct (lru_remove_ok s l1 a l2 Hs) as (s1 & Hrun & Hs1 & Ho1 & Hsome). mstep Hrun.
    apply NoDup_app in Hnd as (_ & Hdj & [Ha2 _]%NoDup_cons).
    destruct (lru_add_front_ok s1 (l1 ++ l2) a Hs1) as (s2 & Hrun2 & Hs2 & Ho2); [| |done|].
    + intros [Ha|Ha]%elem_of_app; [|done]. apply (Hdj a); [done|by left].
    + intros ->. apply H0, elem_of_app. right. by left.
    + exists s2. split; [done|]. split; [done|]. by eapply lru_only_trans.
Qed.

(** [lru_touch] moves a cached page to the front of the LRU list and keeps
    the order of the others; the list stays a doubly linked list with its head
    and tail, and nothing but LRU links changes. *)
Theorem lru_touch_moves_front s l1 a l2 : lru_ok s (l1 ++ a :: l2) →
  ∃ s', lru_touch a s = Done (tt, s') ∧ lru_ok s' (a :: l1 ++ l2) ∧ lru_only s s'.
Proof. apply lru_touch_front. Qed.

(** ** Permissions *)

(** The three permission bits of the class of the caller start here. *)
Definition class_shift (x : process) (n : inode) : Z :=
  if p_euid x =? in_uid n then 6 else if p_egid x =? in_gid n then 3 else 0.
Definition may_access (x : process) (n : inode) (mask : Z) : Prop :=
  p_euid x = 0 ∨ ∀ i, 0 <= i → Z.testbit mask i = true → Z.testbit (in_mode n) (i + class_shift x n) = true.

Lemma land_subset a b : Z.land a b = b ↔ ∀ i, 0 <= i → Z.testbit b i = true → Z.testbit a i = true.
Proof.
  split.
  - intros H i Hi Hb. rewrite <- H, Z.land_spec in Hb. by apply andb_true_iff in Hb as [? _].
  - intros H. apply Z.bits_inj'. intros i Hi. rewrite Z.land_spec. destruct (Z.testbit b i) eqn:Hb; [|by rewrite andb_false_r].
    by rewrite H.
Qed.

Lemma vfs_check_permission_spec {FA} `{!FrameAllocator FA} (k : kst FA) p x node n mask :
  runs k p x → node ≠ 0 → k_inodes k !! node = Some n →
  ∃ r, vfs_check_permission node mask k = Done (r, k) ∧ (r = 0 ∨ r = -1) ∧ (r = 0 ↔ may_access x n mask).
Proof.
  intros Hr Hn0 Hn. pose proof (runs_proc _ _ _ Hr) as Hx. unfold vfs_check_permission.
  rewrite (proj2 (Z.eqb_neq node 0)) by done. rewrite (with_proc_runs _ _ _ _ _ Hr). mstep (proc_of_Done _ _ _ Hx).
  unfold may_access. destruct (Z.eqb_spec (p_euid x) 0) as [H0|H0]; [exists 0; naive_solver|].
  mstep (get_inode_Done _ _ _ Hn). eexists. split; [done|]. split; [case_match; auto|].
  replace (if p_euid x =? in_uid n then Z.shiftr (in_mode n) 6 else _)
    with (Z.shiftr (in_mode n) (class_shift x n)) by (unfold class_shift; repeat case_match; done).
  assert (0 <= class_shift x n) by (unfold class_shift; repeat case_match; done).
  transitivity (Z.land (Z.shiftr (in_mode n) (class_shift x n)) mask = mask).
  - destruct (Z.eqb_spec (Z.land (Z.shiftr (in_mode n) (class_shift x n)) mask) mask); naive_solver.
  - rewrite land_subset. split.
    + intros Hb. right. intros i Hi Hm. specialize (Hb i Hi Hm). by rewrite Z.shiftr_spec in Hb.
    + intros [|Hb] i Hi Hm; [done|]. rewrite Z.shiftr_spec by done. by apply Hb.
Qed.

(** [vfs_check_permission] answers 0 exactly for the superuser and for a
    process whose class (owner, else group, else others) has every permission
    of the mask, -1 otherwise, and changes nothing.  Only the effective group
    counts: the supplementary groups of the process are not looked at. *)
Theorem vfs_check_permission_decides {FA} `{!FrameAllocator FA} (k : kst FA) p x node n mask :
  runs k p x → node ≠ 0 → k_inodes k !! node = Some n →
  ∃ r, vfs_check_permission node mask k = Done (r, k) ∧ (r = 0 ∨ r = -1) ∧ (r = 0 ↔ may_access x n mask).
Proof. apply vfs_check_permission_spec. Qed.

(** ** Reading and writing through the cache *)

Lemma moved_step src dst b n top m0 m :
  moved src dst b m0 m → 0 <= b → 0 <= n → b + n <= top →
  (∀ i j, 0 <= i < top → 0 <= j < top → src i ≠ dst j) →
  (∀ i j, 0 <= i < top → 0 <= j < top → dst i = dst j → i = j) →
  (∀ i, 0 <= i < n → src (b + i) = src b + i) → (∀ i, 0 <= i < n → dst (b + i) = dst b + i) →
  moved src dst (b + n) m0 (memcpy m (dst b) (src b) n).
Proof.
  intros [Hm Ho] Hb Hn Htop Hdis Hinj Hsrc Hdst.
  assert (Hov : dst b <= src b ∨ src b + n <= dst b).
  { destruct (decide (src b < dst b < src b + n)); [|lia]. exfalso.
    apply (Hdis (b + (dst b - src b)) b); [lia|lia|]. rewrite Hsrc by lia. lia. }
  split.
  - intros i Hi. rewrite memcpy_at by done. case_decide as Hd.
    + destruct (decide (b <= i)) as [Hbi|Hbi].
      * pose proof (Hdst (i - b) ltac:(lia)) as H1. pose proof (Hsrc (i - b) ltac:(lia)) as H2.
        replace (b + (i - b)) with i in H1, H2 by lia. rewrite H1 at 1. replace (src b + (dst b + (i - b) - dst b)) with (src i) by lia.
        apply Ho. intros j Hj. apply Hdis; lia.
      * exfalso. pose proof (Hdst (dst i - dst b) ltac:(lia)) as H1.
        assert (i = b + (dst i - dst b)); [|lia]. apply Hinj; [lia|lia|]. rewrite H1. lia.
    + destruct (decide (b <= i)) as [Hbi|Hbi]; [|apply Hm; lia].
      exfalso. pose proof (Hdst (i - b) ltac:(lia)) as H1. replace (b + (i - b)) with i in H1 by lia. lia.
  - intros y Hy. rewrite memcpy_at by done. rewrite decide_False.
    + apply Ho. intros i Hi. apply Hy. lia.
    + intros Hd. apply (Hy (b + (y - dst b))); [lia|]. rewrite Hdst by lia. lia.
Qed.

(** The page of a file offset, and where its byte is when page [po] is in
    frame [F po]. *)
Definition pg (o : Z) : Z := o - o mod PAGE_SIZE.
Definition loc (F : Z → Z) (o : Z) : Z := F (pg o) + o mod PAGE_SIZE.

(** Two caches that differ in LRU links and dirty bits only. *)
Definition ce_id (e : cache_entry) : cache_entry := set_ce_dirty false (ce_core e).
Record same_pages (s s' : vfs) : Prop := mk_same_pages {
  sp_buckets : page_cache s' = page_cache s;
  sp_entries : ce_id <$> cache_entries s' = ce_id <$> cache_entries s;
}.

Lemma lru_only_same s s' : lru_only s s' → same_pages s s'.
Proof.
  intros []. split; [done|]. apply map_eq. intros u. rewrite !lookup_fmap. specialize (lr_core0 u).
  destruct (cache_entries s !! u), (cache_entries s' !! u); simpl in *; try done. unfold ce_id. congruence.
Qed.
Lemma same_pages_trans s1 s2 s3 : same_pages s1 s2 → same_pages s2 s3 → same_pages s1 s3.
Proof. intros [] []. split; congruence. Qed.
Lemma same_pages_dirty s a v : same_pages s (set_cache_entries (alter (set_ce_dirty v) a (cache_entries s)) s).
Proof.
  split; [done|]. apply map_eq. intros u. simpl. rewrite !lookup_fmap. destruct (decide (u = a)) as [->|].
  - rewrite lookup_alter_eq. by destruct (cache_entries s !! a).
  - by rewrite lookup_alter_ne.
Qed.
Lemma same_pages_lookup s s' a e : same_pages s s' → cache_entries s !! a = Some e →
  ∃ e', cache_entries s' !! a = Some e' ∧ ce_id e' = ce_id e.
Proof.
  intros [_ H] He. assert ((ce_id <$> cache_entries s') !! a = Some (ce_id e)) as H1 by (rewrite H, lookup_fmap, He; done).
  rewrite lookup_fmap in H1. destruct (cache_entries s' !! a) as [e'|]; [|done].
  exists e'. split; [done|]. simpl in H1. congruence.
Qed.
Lemma same_pages_None s s' a : same_pages s s' → cache_entries s !! a = None → cache_entries s' !! a = None.
Proof.
  intros [_ H] He. assert ((ce_id <$> cache_entries s') !! a = None) as H1 by (rewrite H, lookup_fmap, He; done).
  rewrite lookup_fmap in H1. by destruct (cache_entries s' !! a).
Qed.

Lemma bucket_find_same s s' node o fuel : same_pages s s' → ∀ a r,
  bucket_find fuel a node o s = Done (r, s) → bucket_find fuel a node o s' = Done (r, s').
Proof.
  intros Hs. induction fuel as [|f IH]; [done|]. intros a r. simpl. destruct (a =? 0).
  { unfold ret. by intros [= ->]. }
  intros (e & s2 & H1 & H2)%bind_inv.
  unfold get_ce in H1. destruct (cache_entries s !! a) as [x|] eqn:Hx; [|done]. injection H1 as <- <-.
  destruct (same_pages_lookup _ _ _ _ Hs Hx) as (e' & He' & Hid). mstep (get_ce_Done s' a e' He').
  destruct x, e'. unfold ce_id, ce_core in Hid. simpl in *. simplify_eq. destruct (_ && _); [|by apply IH].
  unfold ret in *. by injection H2 as ->.
Qed.
Lemma cache_lookup_same s s' node o r : same_pages s s' →
  cache_lookup node o s = Done (r, s) → cache_lookup node o s' = Done (r, s').
Proof.
  intros Hs. pose proof Hs as [Hb He]. unfold cache_lookup, get_bucket. unfold bind at 1. intros H.
  unfold bind at 1. rewrite Hb. destruct (zget (page_cache s) (hash_cache node o)) as [h|]; [|done].
  simpl in *. unfold bind, gets in *. replace (size (cache_entries s')) with (size (cache_entries s)).
  - by eapply bucket_find_same.
  - by rewrite <- (map_size_fmap ce_id), <- He, map_size_fmap.
Qed.

(** Page [po] of [node] is cached in frame [fr]; [l] is the LRU list. *)
Definition cached (s : vfs) (l : list Z) (node po fr : Z) : Prop :=
  ∃ a e, cache_lookup node po s = Done (a, s) ∧ a ∈ l ∧ cache_entries s !! a = Some e ∧ ce_phys_addr e = fr.

Lemma lru_ok_dirty s l a v : lru_ok s l → lru_ok (set_cache_entries (alter (set_ce_dirty v) a (cache_entries s)) s) l.
Proof.
  intros [Hd He]. split.
  - simpl. eapply dlist_ext; [|exact Hd]. intros u _. unfold mnx, mpv. destruct (decide (u = a)) as [->|].
    + rewrite lookup_alter_eq. by destruct (cache_entries s !! a).
    + by rewrite lookup_alter_ne.
  - intros u Hu. simpl. rewrite lookup_alter_is_Some. by apply He.
Qed.

Section cached_io.
Context {FA : Type} `{!FrameAllocator FA} `{!Drivers FA}.
Context (k0 : kst FA) (l0 : list Z) (node offset top buffer : Z) (F : Z → Z).

(** The pages of the [top] bytes at [offset] are cached, in distinct frames
    outside the buffer; nothing wraps around. *)
Record io_ok : Prop := mk_io_ok {
  io_lru : lru_ok (k_vfs k0) l0;
  io_off : 0 <= offset ∧ 0 <= top ∧ offset + top < 2 ^ 63;
  io_buf : PHYS_OFFSET <= buffer;
  io_cached : ∀ i, 0 <= i < top → cached (k_vfs k0) l0 node (pg (offset + i)) (F (pg (offset + i)));
  io_frame : ∀ i, 0 <= i < top → 0 <= F (pg (offset + i)) < 2 ^ 38;
  io_apart : ∀ i j, 0 <= i < top → 0 <= j < top → loc F (offset + i) ≠ V2P buffer + j;
  io_distinct : ∀ i j, 0 <= i < top → 0 <= j < top → loc F (offset + i) = loc F (offset + j) → i = j;
}.
Context (Hio : io_ok).

(** The state with other memory and another cache. *)
Definition kwith (m : mem) (s : vfs) : kst FA := set_kram m (set_k_vfs s k0).
Definition cache_same (s : vfs) : Prop := ∃ l, lru_ok s l ∧ l ≡ₚ l0 ∧ same_pages (k_vfs k0) s.

Lemma cached_page_hit m s i fill : cache_same s → 0 <= i < top →
  ∃ a e s', cached_page node (pg (offset + i)) fill (kwith m s) = Done (a, kwith m s') ∧ a ≠ 0 ∧ cache_same s' ∧
    cache_entries s' !! a = Some e ∧ ce_phys_addr e = F (pg (offset + i)).
Proof using Hio.
  intros (l & Hl & Hp & Hs) Hi. destruct (io_cached Hio i Hi) as (a & e & Hlook & Ha & He & Hfr).
  assert (Hal : a ∈ l) by by rewrite Hp. assert (Ha0 : a ≠ 0) by (intros ->; by apply (lo_list _ _ Hl)).
  apply list_elem_of_split in Hal as (l1 & l2 & ->).
  assert (Htouch : ∃ s', lru_touch a s = Done (tt, s') ∧ lru_ok s' (a :: l1 ++ l2) ∧ lru_only s s').
  { by apply lru_touch_front. }
  destruct Htouch as (s' & Ht & Hl' & Ho). apply lru_only_same in Ho.
  assert (Hs' : same_pages (k_vfs k0) s') by by eapply same_pages_trans.
  destruct (same_pages_lookup _ _ _ _ Hs' He) as (e' & He' & Hid).
  exists a, e', s'. split; [|split; [done|split; [|split; [done|]]]].
  - unfold cached_page. unfold bind at 1. unfold on_vfs, zoom at 1.
    change (k_vfs (kwith m s)) with s. rewrite (cache_lookup_same _ _ _ _ _ Hs Hlook).
    rewrite (proj2 (Z.eqb_neq a 0)) by done. cbn [negb]. unfold bind, zoom.
    change (k_vfs (set_k_vfs s (kwith m s))) with s. by rewrite Ht.
  - exists (a :: l1 ++ l2). split; [done|]. split; [|done]. by rewrite Permutation_middle.
  - rewrite <- Hfr. destruct e, e'. unfold ce_id, ce_core in Hid. simpl in *. by simplify_eq.
Qed.

(** One round of a loop: [n] bytes within one page are copied. *)
Lemma pg_step b i : 0 <= b → 0 <= i → i < PAGE_SIZE - (offset + b) mod PAGE_SIZE →
  pg (offset + (b + i)) = pg (offset + b) ∧ loc F (offset + (b + i)) = loc F (offset + b) + i.
Proof.
  intros Hb Hi Hlt. assert (Hm : (offset + (b + i)) mod PAGE_SIZE = (offset + b) mod PAGE_SIZE + i).
  { replace (offset + (b + i)) with ((offset + b) + i) by lia. rewrite Z.add_mod by done.
    pose proof (Z.mod_pos_bound (offset + b) PAGE_SIZE eq_refl). rewrite (Z.mod_small i) by lia. apply Z.mod_small. lia. }
  assert (Hpg : pg (offset + (b + i)) = pg (offset + b)) by (unfold pg; rewrite Hm; lia).
  split; [done|]. unfold loc. rewrite Hpg, Hm. lia.
Qed.
Lemma page_bits o : andnot o (PAGE_SIZE - 1) = pg o ∧ Z.land o (PAGE_SIZE - 1) = o mod PAGE_SIZE.
Proof. split; [apply (andnot_ones o 12)|apply (land_ones_mod o 12)]; done. Qed.

Lemma buf_addr i : 0 <= i → V2P (buffer + i) = V2P buffer + i.
Proof using Hio. intros. pose proof (io_buf Hio). unfold V2P. rewrite !(proj2 (Z.leb_le _ _)) by lia. lia. Qed.
Lemma frame_addr i : 0 <= i < top → V2P (P2V (F (pg (offset + i))) + (offset + i) mod PAGE_SIZE) = loc F (offset + i).
Proof using Hio.
  intros Hi. pose proof (io_frame Hio i Hi). pose proof (Z.mod_pos_bound (offset + i) PAGE_SIZE eq_refl).
  unfold V2P, P2V, u64, loc, PHYS_OFFSET, PAGE_SIZE in *. rewrite Z.mod_small by lia.
  rewrite (proj2 (Z.leb_le _ _)) by lia. lia.
Qed.
Lemma u64_io x : 0 <= x < 2 ^ 64 → u64 x = x.
Proof. intros. unfold u64. apply Z.mod_small. lia. Qed.

(** How many bytes a round of the loop copies at [b]. *)
Definition chunk (b size : Z) : Z :=
  let n := PAGE_SIZE - (offset + b) mod PAGE_SIZE in if size <? u64 (b + n) then size - b else n.
Lemma chunk_ok b size : 0 <= b < size → size < 2 ^ 62 →
  0 < chunk b size ∧ chunk b size <= PAGE_SIZE - (offset + b) mod PAGE_SIZE ∧ b + chunk b size <= size.
Proof.
  intros Hb Hs. unfold chunk. pose proof (Z.mod_pos_bound (offset + b) PAGE_SIZE eq_refl). unfold PAGE_SIZE in *.
  rewrite u64_io by lia. case_match eqn:Hc; [apply Z.ltb_lt in Hc|apply Z.ltb_ge in Hc]; lia.
Qed.

Lemma on_vfs_kwith {A} (f : M vfs A) m s a s' : f s = Done (a, s') →
  on_vfs f (kwith m s) = Done (a, kwith m s').
Proof. intros H. unfold on_vfs, zoom. change (k_vfs (kwith m s)) with s. by rewrite H. Qed.

Notation from_cache := (moved (λ i, loc F (offset + i)) (λ i, V2P buffer + i)).
Notation to_cache := (moved (λ i, V2P buffer + i) (λ i, loc F (offset + i))).

Lemma from_cache_step m b n : from_cache b (kram k0) m → 0 <= b → 0 < n → b + n <= top →
  n <= PAGE_SIZE - (offset + b) mod PAGE_SIZE →
  from_cache (b + n) (kram k0) (memcpy m (V2P buffer + b) (loc F (offset + b)) n).
Proof using Hio.
  intros Hm Hb Hn Htop Hpg. apply (moved_step (λ i, loc F (offset + i)) (λ i, V2P buffer + i) b n top); try done; try lia.
  - intros i j Hi Hj. by apply (io_apart Hio).
  - intros i Hi. apply pg_step; lia.
Qed.
Lemma to_cache_step m b n : to_cache b (kram k0) m → 0 <= b → 0 < n → b + n <= top →
  n <= PAGE_SIZE - (offset + b) mod PAGE_SIZE →
  to_cache (b + n) (kram k0) (memcpy m (loc F (offset + b)) (V2P buffer + b) n).
Proof using Hio.
  intros Hm Hb Hn Htop Hpg. apply (moved_step (λ i, V2P buffer + i) (λ i, loc F (offset + i)) b n top); try done; try lia.
  - intros i j Hi Hj Heq. symmetry in Heq. by apply (io_apart Hio) in Heq.
  - intros i j Hi Hj. by apply (io_distinct Hio).
  - intros i Hi. apply pg_step; lia.
Qed.

Lemma read_loop_cached read n size :
  k_inodes k0 !! node = Some n → 0 <= size < 2 ^ 62 → top = Z.min size (Z.max 0 (in_size n - offset)) →
  ∀ fuel b m s, cache_same s → from_cache b (kram k0) m → 0 <= b <= top → size - b < Z.of_nat fuel →
  ∃ m' s', read_loop fuel read node offset size buffer b (kwith m s) = Done (top, kwith m' s') ∧
    cache_same s' ∧ from_cache top (kram k0) m'.
Proof using Hio.
  intros Hn Hsz Htop. pose proof (io_off Hio) as (Ho0 & _ & Hoff).
  induction fuel as [|fuel IH]; [lia|]. intros b m s Hs Hm Hb Hfuel. cbn [read_loop].
  destruct (Z.leb_spec size b).
  { assert (b = top) as -> by lia. by exists m, s. }
  mstep (get_inode_Done (kwith m s) node n Hn). cbv zeta. rewrite (u64_io (offset + b)) by lia.
  destruct (Z.leb_spec (in_size n) (offset + b)) as [Hend|Hin].
  { assert (b = top) as -> by lia. by exists m, s. }
  destruct (page_bits (offset + b)) as [-> ->]. fold (chunk b size).
  destruct (chunk_ok b size) as (Hc1 & Hc2 & Hc3); [lia|lia|].
  set (cnt := if in_size n <? u64 (offset + b + chunk b size) then in_size n - (offset + b) else chunk b size).
  pose proof (Z.mod_pos_bound (offset + b) PAGE_SIZE eq_refl) as Hmod.
  assert (0 < cnt ∧ cnt <= chunk b size ∧ b + cnt <= top) as (Hn1 & Hn2 & Hn3).
  { unfold cnt. unfold PAGE_SIZE in *. rewrite u64_io by lia. destruct (Z.ltb_spec (in_size n) (offset + b + chunk b size)); lia. }
  destruct (cached_page_hit m s b (λ frame, kclear_page (P2V frame);;;
     read node (pg (offset + b)) (disk_read_size n (pg (offset + b))) (P2V frame);;; ret tt) Hs)
    as (a & e & s' & Hrun & Ha0 & Hs' & He & Hfr); [lia|].
  mstep Hrun. rewrite (proj2 (Z.eqb_neq a 0)) by done.
  mstep (on_vfs_kwith (get_ce a) m s' _ _ (get_ce_Done s' a e He)). rewrite Hfr.
  unfold bind at 1. unfold kmemcpy, modify at 1. rewrite buf_addr, frame_addr by lia.
  change (set_kram _ (kwith m s')) with (kwith (memcpy m (V2P buffer + b) (loc F (offset + b)) cnt) s').
  apply IH; [done|by apply from_cache_step; try lia|lia|lia].
Qed.
Lemma write_loop_cached n size :
  k_inodes k0 !! node = Some n → 0 <= size < 2 ^ 62 → top = size →
  ∀ fuel b m s, cache_same s → to_cache b (kram k0) m → 0 <= b <= top → size - b < Z.of_nat fuel →
  ∃ m' s', write_loop fuel node offset size buffer b (kwith m s) = Done (top, kwith m' s') ∧
    cache_same s' ∧ to_cache top (kram k0) m'.
Proof using Hio.
  intros Hn Hsz Htop. pose proof (io_off Hio) as (Ho0 & _ & Hoff).
  induction fuel as [|fuel IH]; [lia|]. intros b m s Hs Hm Hb Hfuel. cbn [write_loop].
  destruct (Z.leb_spec size b).
  { assert (b = top) as -> by lia. by exists m, s. }
  mstep (get_inode_Done (kwith m s) node n Hn). cbv zeta. rewrite (u64_io (offset + b)) by lia.
  destruct (page_bits (offset + b)) as [-> ->]. fold (chunk b size).
  destruct (chunk_ok b size) as (Hc1 & Hc2 & Hc3); [lia|lia|]. set (cnt := chunk b size) in *.
  match goal with |- context [cached_page node _ ?f] =>
    destruct (cached_page_hit m s b f Hs) as (a & e & s' & Hrun & Ha0 & Hs' & He & Hfr); [lia|] end.
  mstep Hrun. rewrite (proj2 (Z.eqb_neq a 0)) by done.
  mstep (on_vfs_kwith (get_ce a) m s' _ _ (get_ce_Done s' a e He)). rewrite Hfr.
  unfold bind at 1. unfold kmemcpy, modify at 1. rewrite buf_addr, frame_addr by lia.
  change (set_kram _ (kwith m s')) with (kwith (memcpy m (loc F (offset + b)) (V2P buffer + b) cnt) s').
  mstep (on_vfs_kwith (mod_ce a (set_ce_dirty true)) (memcpy m (loc F (offset + b)) (V2P buffer + b) cnt) s' _ _
    (mod_ce_Done s' a _ ltac:(eauto))).
  apply IH; [|by apply to_cache_step; try lia|lia|lia].
  destruct Hs' as (l & Hl & Hp & Hsame). exists l. split; [by apply lru_ok_dirty|]. split; [done|].
  eapply same_pages_trans; [done|apply same_pages_dirty].
Qed.
End cached_io.

(** The cache after an operation still holds the pages. *)
Lemma cached_same {FA} (k0 : kst FA) l0 s node po fr l : lru_ok s l → l ≡ₚ l0 → same_pages (k_vfs k0) s →
  cached (k_vfs k0) l0 node po fr → cached s l node po fr.
Proof.
  intros Hl Hp Hs (a & e & Hlook & Ha & He & Hfr). destruct (same_pages_lookup _ _ _ _ Hs He) as (e' & He' & Hid).
  exists a, e'. split; [by eapply cache_lookup_same|]. split; [by rewrite Hp|]. split; [done|].
  rewrite <- Hfr. destruct e, e'. unfold ce_id, ce_core in Hid. simpl in *. by simplify_eq.
Qed.

Section vfs_io.
Context {FA : Type} `{!FrameAllocator FA} `{!Drivers FA}.

(** A regular file with a driver, open to the current process for [mask]. *)
Record file_ok (k : kst FA) (node : Z) (n : inode) (mask : Z) : Prop := mk_file_ok {
  fo_node : node ≠ 0 ∧ k_inodes k !! node = Some n;
  fo_proc : ∃ p x, runs k p x ∧ may_access x n mask;
  fo_reg : S_ISREG (in_mode n) = true;
  fo_ops : in_ops n ≠ 0;
}.

Lemma kwith_id (k : kst FA) : k = kwith k (kram k) (k_vfs k).
Proof using Type. by destruct k as [? [[] ? ? ? ?] ? ? ? ? ? ? ?]. Qed.

Lemma file_ok_permission k node n mask : file_ok k node n mask → vfs_check_permission node mask k = Done (0, k).
Proof using Type*.
  intros [[Hn0 Hn] (p & x & Hr & Hm) _ _].
  destruct (vfs_check_permission_spec k p x node n mask Hr Hn0 Hn) as (r & Hrun & _ & Hiff).
  by rewrite Hrun, (proj2 Hiff Hm).
Qed.

Lemma vfs_read_ok k l node n read offset size buffer F :
  file_ok k node n 4 → ops_read (in_ops n) = Some read → 0 <= size < 2 ^ 62 →
  io_ok k l node offset (Z.min size (Z.max 0 (in_size n - offset))) buffer F →
  ∃ m s, vfs_read node offset size buffer k = Done (Z.min size (Z.max 0 (in_size n - offset)), kwith k m s) ∧
    cache_same k l s ∧
    moved (λ i, loc F (offset + i)) (λ i, V2P buffer + i) (Z.min size (Z.max 0 (in_size n - offset))) (kram k) m.
Proof using Type*.
  intros Hok Hread Hsz Hio. pose proof Hok as [[Hn0 Hn] _ Hreg Hops]. unfold vfs_read.
  mstep (file_ok_permission _ _ _ _ Hok). cbn [negb Z.eqb]. rewrite (proj2 (Z.eqb_neq node 0)) by done.
  mstep (get_inode_Done _ _ _ Hn). unfold op_of. rewrite (proj2 (Z.eqb_neq _ 0)) by done. rewrite Hread, Hreg. cbn [negb].
  pose proof (io_off _ _ _ _ _ _ _ Hio) as (H1 & H2 & H3).
  destruct (read_loop_cached k l node offset _ buffer F Hio read n size Hn Hsz eq_refl (S (Z.to_nat size)) 0 (kram k) (k_vfs k))
    as (m & s & Hrun & Hs & Hm); [|apply moved_0|lia|lia|].
  { exists l. split; [apply Hio|]. by split; [|split]. }
  replace (kwith k (kram k) (k_vfs k)) with k in Hrun by apply kwith_id. by exists m, s.
Qed.

Lemma vfs_write_ok k l node n write offset size buffer F :
  file_ok k node n 2 → ops_write (in_ops n) = Some write → 0 <= size < 2 ^ 62 →
  io_ok k l node offset size buffer F →
  ∃ m s k', vfs_write node offset size buffer k = Done (size, k') ∧ cache_same k l s ∧
    k' = set_k_inodes (<[node := set_in_size (Z.max (in_size n) (offset + size)) n]> (k_inodes k)) (kwith k m s) ∧
    moved (λ i, V2P buffer + i) (λ i, loc F (offset + i)) size (kram k) m.
Proof using Type*.
  intros Hok Hwrite Hsz Hio. pose proof Hok as [[Hn0 Hn] _ Hreg Hops]. unfold vfs_write.
  mstep (file_ok_permission _ _ _ _ Hok). cbn [negb Z.eqb]. rewrite (proj2 (Z.eqb_neq node 0)) by done.
  mstep (get_inode_Done _ _ _ Hn). unfold op_of. rewrite (proj2 (Z.eqb_neq _ 0)) by done. rewrite Hwrite, Hreg. cbn [negb].
  pose proof (io_off _ _ _ _ _ _ _ Hio) as (H1 & H2 & H3).
  destruct (write_loop_cached k l node offset size buffer F Hio n size Hn Hsz eq_refl (S (Z.to_nat size)) 0 (kram k) (k_vfs k))
    as (m & s & Hrun & Hs & Hm); [|apply moved_0|lia|lia|].
  { exists l. split; [apply Hio|]. by split; [|split]. }
  replace (kwith k (kram k) (k_vfs k)) with k in Hrun by apply kwith_id.
  exists m, s. eexists. split; [|split; [exact Hs|split; [reflexivity|exact Hm]]]. mstep Hrun.
  mstep (get_inode_Done (kwith k m s) node n Hn). rewrite u64_io by lia.
  destruct (Z.ltb_spec (in_size n) (offset + size)) as [Hlt|Hge].
  - mstep (mod_inode_Done (kwith k m s) node n (set_in_size (offset + size)) Hn). by rewrite Z.max_r by lia.
  - mret. rewrite Z.max_l by lia. unfold ret. repeat f_equal.
    rewrite insert_id by (rewrite Hn; by destruct n). done.
Qed.
End vfs_io.

(** ** A page that is not cached *)

Section miss.
Context {FA : Type} `{!FrameAllocator FA} `{!Drivers FA}.
Implicit Types k : kst FA.

Lemma cache_add_ok k l node o fr a rest h :
  lru_ok (k_vfs k) l → current_cached_pages (k_vfs k) < MAX_CACHED_PAGES → allocs (k_vm k) = a :: rest → a ≠ 0 →
  cache_entries (k_vfs k) !! a = None → zget (page_cache (k_vfs k)) (hash_cache node o) = Some h →
  ∃ s' e, cache_add node o fr k = Done (a, set_k_vfs s' (set_k_vm (set_allocs rest (k_vm k)) k)) ∧
    lru_ok s' (a :: l) ∧ cache_entries s' !! a = Some e ∧
    ce_node e = node ∧ ce_page_offset e = o ∧ ce_phys_addr e = fr.
Proof using Type*.
  intros Hl Hcnt Hal Ha0 Hnone Hh. unfold cache_add. unfold bind at 1, gets at 1.
  rewrite (proj2 (Z.leb_gt MAX_CACHED_PAGES _)) by done. mret.
  assert (Hkal : kalloc k = Done (a, set_k_vm (set_allocs rest (k_vm k)) k)).
  { unfold kalloc, on_vm, zoom, kmalloc. by rewrite Hal. }
  mstep Hkal. rewrite (proj2 (Z.eqb_neq a 0)) by done. set (k1 := set_k_vm _ k). cbv zeta.
  assert (Hon : ∀ A (f : M vfs A) x s s', f s = Done (x, s') → on_vfs f (set_k_vfs s k1) = Done (x, set_k_vfs s' k1)).
  { intros A f x s s' Hf. unfold on_vfs, zoom. change (k_vfs (set_k_vfs s k1)) with s. by rewrite Hf. }
  match goal with |- context [bind ?m ?f k1] => change (bind m f k1) with (bind m f (set_k_vfs (k_vfs k) k1)) end.
  assert (Hget : get_bucket (hash_cache node o) (k_vfs k) = Done (h, k_vfs k)) by (unfold get_bucket; by rewrite Hh).
  mstep (Hon _ _ _ _ _ Hget).
  set (s1 := set_cache_entries (<[a := mk_cache_entry node o fr false h 0 0]> (cache_entries (k_vfs k))) (k_vfs k)).
  mstep (Hon _ (modify (λ s, set_cache_entries (<[a := mk_cache_entry node o fr false h 0 0]> (cache_entries s)) s))
    tt (k_vfs k) s1 eq_refl).
  pose proof (zget_Some_range _ _ _ Hh) as Hr.
  assert (Hput : put_bucket (hash_cache node o) a s1 =
    Done (tt, set_page_cache (<[Z.to_nat (hash_cache node o) := a]> (page_cache (k_vfs k))) s1)).
  { unfold put_bucket. by rewrite zset_is_Some. }
  mstep (Hon _ _ _ _ _ Hput). set (s2 := set_page_cache _ s1).
  assert (Hnl : a ∉ l) by (intros Ha; destruct (lo_entry _ _ Hl a Ha); congruence).
  destruct (lru_add_front_ok s2 l a) as (s3 & Hrun & Hl3 & Ho3); [|done|done|simpl; rewrite lookup_insert_eq; by eexists|].
  { destruct Hl as [Hd He]. split.
    - eapply dlist_ext; [|exact Hd]. intros u Hu. unfold mnx, mpv. simpl.
      rewrite lookup_insert_ne by (by intros ->). done.
    - intros u Hu. simpl. rewrite lookup_insert_is_Some'. right. by apply He. }
  mstep (Hon _ _ _ _ _ Hrun). eexists _.
  pose proof (lr_core _ _ Ho3 a) as Hcore. simpl in Hcore. rewrite lookup_insert_eq in Hcore.
  destruct (cache_entries s3 !! a) as [e|] eqn:He; [|done]. simpl in Hcore. exists e.
  split; [reflexivity|]. split; [destruct Hl3; by split|]. split; [exact He|].
  unfold ce_core in Hcore. destruct e. simpl in *. by simplify_eq.
Qed.

(** Appending to a file whose last page is not cached. *)
Record append_ok k (l : list Z) (node : Z) (n : inode) (size buffer a fr : Z) (fa : FA) : Prop := mk_append_ok {
  ap_file : file_ok k node n 2;
  ap_lru : lru_ok (k_vfs k) l;
  ap_size : 0 < in_size n < 2 ^ 62 ∧ 0 < size <= PAGE_SIZE - in_size n mod PAGE_SIZE;
  ap_miss : cache_lookup node (pg (in_size n)) (k_vfs k) = Done (0, k_vfs k);
  ap_room : current_cached_pages (k_vfs k) < MAX_CACHED_PAGES;
  ap_kmalloc : head (allocs (k_vm k)) = Some a ∧ a ≠ 0 ∧ cache_entries (k_vfs k) !! a = None;
  ap_frame : fa_alloc (frames (pt (k_vm k))) = Done (fr, fa) ∧ aligned fr;
}.
Lemma cache_lookup_bucket s node o r : cache_lookup node o s = Done (r, s) →
  ∃ h, zget (page_cache s) (hash_cache node o) = Some h.
Proof.
  unfold cache_lookup, get_bucket. unfold bind at 1. destruct (zget _ _) as [h|]; [by exists h|done].
Qed.

Lemma append_page k l node n size buffer a fr fa fill :
  append_ok k l node n size buffer a fr fa →
  (∀ k', fill fr k' = kclear_page (P2V fr) k') →
  ∃ s' e k', cached_page node (pg (in_size n)) fill k = Done (a, k') ∧ k_vfs k' = s' ∧ cache_entries s' !! a = Some e ∧
    ce_phys_addr e = fr ∧ k_inodes k' = k_inodes k ∧ kram k' = zero_page (kram k) (P2V fr) ∧ lru_ok s' (a :: l) ∧
    k_sched k' = k_sched k.
Proof using Type*.
  intros [Hf Hl Hsz Hmiss Hroom (Hal & Ha0 & Hnone) (Hfr & Hal1 & Hal2)] Hfill. unfold cached_page.
  assert (Hlook : on_vfs (cache_lookup node (pg (in_size n))) k = Done (0, k)).
  { unfold on_vfs, zoom. rewrite Hmiss. by destruct k. }
  mstep Hlook. cbn [negb Z.eqb].
  assert (Hframe : kalloc_frame k = Done (fr, set_k_vm (set_pt (set_frames fa (pt (k_vm k))) (k_vm k)) k)).
  { unfold kalloc_frame, on_vm, on_pt, alloc_frame, zoom. by rewrite Hfr. }
  mstep Hframe. rewrite (proj2 (Z.eqb_neq fr 0)) by lia. unfold bind at 1. rewrite Hfill.
  unfold kclear_page, on_vm, on_pt, clear_page, zoom at 1 2, modify at 1.
  match goal with |- context [cache_add node _ fr] => idtac end.
  set (k1 := set_k_vm _ _). destruct (cache_lookup_bucket _ _ _ _ Hmiss) as [h Hh].
  destruct (allocs (k_vm k)) as [|a' rest] eqn:Hallocs; [done|]. injection Hal as ->.
  destruct (cache_add_ok k1 l node (pg (in_size n)) fr a rest h) as (s' & e & Hadd & Hl' & He & _ & _ & Hph); try done.
  mstep Hadd. rewrite (proj2 (Z.eqb_neq a 0)) by done. mret.
  exists s', e. eexists. split; [reflexivity|]. by split_and!.
Qed.
Lemma append_loop k l node n size buffer a fr fa :
  append_ok k l node n size buffer a fr fa →
  ∃ k' e, write_loop (S (Z.to_nat size)) node (in_size n) size buffer 0 k = Done (size, k') ∧
    cache_entries (k_vfs k') !! a = Some e ∧ ce_phys_addr e = fr ∧ ce_dirty e = true ∧ k_inodes k' = k_inodes k ∧
    ∀ j, 0 <= j < in_size n mod PAGE_SIZE → kram k' (fr + j) = 0.
Proof using Type*.
  intros Hap. pose proof Hap as [[[Hn0 Hn] _ _ _] Hl Hsz _ _ (_ & Ha0 & _) [_ Hfr]].
  pose proof (Z.mod_pos_bound (in_size n) PAGE_SIZE eq_refl) as Hmod. assert (PAGE_SIZE = 4096) as HP by done.
  cbn [write_loop]. rewrite (proj2 (Z.leb_gt size 0)) by lia. mstep (get_inode_Done _ _ _ Hn). cbv zeta.
  rewrite (u64_io (in_size n + 0)), Z.add_0_r by lia. destruct (page_bits (in_size n)) as [-> ->].
  set (cnt := if size <? _ then _ else _).
  assert (cnt = size) as ->.
  { unfold cnt. rewrite u64_io by lia. destruct (Z.ltb_spec size (0 + (PAGE_SIZE - in_size n mod PAGE_SIZE))); lia. }
  rewrite (proj2 (Z.ltb_ge (in_size n) (in_size n))), andb_false_r by lia.
  destruct (append_page k l node n size buffer a fr fa (λ frame, kclear_page (P2V frame)) Hap)
    as (s' & e & k1 & Hrun & <- & He & Hph & Hin & Hram & _ & _); [done|].
  mstep Hrun. rewrite (proj2 (Z.eqb_neq a 0)) by done.
  assert (Hget : on_vfs (get_ce a) k1 = Done (e, k1)) by (unfold on_vfs, zoom, get_ce; rewrite He; by destruct k1).
  mstep Hget. unfold bind at 1. unfold kmemcpy, modify at 1. rewrite Hph.
  set (m := memcpy _ _ _ _). set (k2 := set_kram m k1).
  set (v := set_cache_entries (alter (set_ce_dirty true) a (cache_entries (k_vfs k1))) (k_vfs k1)).
  assert (Hmod_ce : on_vfs (mod_ce a (set_ce_dirty true)) k2 = Done (tt, set_k_vfs v k2)).
  { unfold on_vfs, zoom. change (k_vfs k2) with (k_vfs k1). by rewrite mod_ce_Done by eauto. }
  mstep Hmod_ce. destruct (Z.to_nat size) as [|fuel] eqn:Hfu; [lia|]. cbn [write_loop]. rewrite Z.add_0_l, Z.leb_refl.
  exists (set_k_vfs v k2), (set_ce_dirty true e). split; [done|]. split; [|split; [done|split; [done|split; [done|]]]].
  { simpl. by rewrite lookup_alter_eq, He. }
  intros j Hj. change (kram (set_k_vfs v k2)) with m. unfold m. destruct Hfr as [Hf1 Hf2]. rewrite Hram, memcpy_out.
  - apply zero_page_in; [by split|lia].
  - unfold V2P, P2V, u64, PHYS_OFFSET in *. rewrite Z.mod_small by lia. rewrite (proj2 (Z.leb_le _ _)) by lia. lia.
Qed.
End miss.

(** reading a regular file whose pages are cached returns [size] bytes, or
    what is left up to the end of the file, copies exactly these bytes of the
    cached pages into the buffer and changes no other byte of memory and no
    inode; it never reads the disk. *)
Theorem vfs_read_cached {FA} `{!FrameAllocator FA} `{!Drivers FA} (k : kst FA) l node n read offset size buffer F :
  let r := Z.min size (Z.max 0 (in_size n - offset)) in
  file_ok k node n 4 → ops_read (in_ops n) = Some read → 0 <= size < 2 ^ 62 → io_ok k l node offset r buffer F →
  ∃ k', vfs_read node offset size buffer k = Done (r, k') ∧
    moved (λ i, loc F (offset + i)) (λ i, V2P buffer + i) r (kram k) (kram k') ∧
    k_inodes k' = k_inodes k ∧ k_files k' = k_files k ∧ k_sched k' = k_sched k.
Proof.
  intros r Hok Hread Hsz Hio. destruct (vfs_read_ok k l node n read offset size buffer F Hok Hread Hsz Hio)
    as (m & s & Hrun & _ & Hm). exists (kwith k m s). by split_and!.
Qed.

(** C28: what [vfs_write] writes to cached pages of a regular file, [vfs_read]
    reads back: all [size] bytes are accepted and returned, also when the write
    extends the file. *)
Theorem vfs_write_then_read {FA} `{!FrameAllocator FA} `{!Drivers FA} (k : kst FA) l node n write read offset size b1 b2 F :
  file_ok k node n 2 → file_ok k node n 4 → ops_write (in_ops n) = Some write → ops_read (in_ops n) = Some read →
  0 <= size < 2 ^ 62 → io_ok k l node offset size b1 F → io_ok k l node offset size b2 F →
  ∃ k1 k2, vfs_write node offset size b1 k = Done (size, k1) ∧ vfs_read node offset size b2 k1 = Done (size, k2) ∧
    ∀ i, 0 <= i < size → kram k2 (V2P b2 + i) = kram k (V2P b1 + i).
Proof.
  intros Hok2 Hok4 Hwrite Hread Hsz Hio1 Hio2.
  destruct (vfs_write_ok k l node n write offset size b1 F Hok2 Hwrite Hsz Hio1) as (m1 & s1 & k1 & Hrun1 & Hs1 & Hk1 & Hm1).
  set (n' := set_in_size (Z.max (in_size n) (offset + size)) n) in *.
  destruct Hs1 as (l1 & Hl1 & Hp1 & Hsame1). destruct Hio2 as [Hi1 Hi2 Hi3 Hi4 Hi5 Hi6 Hi7].
  assert (Hok : file_ok k1 node n' 4).
  { subst k1. destruct Hok4 as [[H1 H2] (p & x & Hr & Hm) H3 H4]. split; try done.
    - split; [done|]. simpl. by rewrite lookup_insert_eq.
    - by exists p, x. }
  assert (Hmin : Z.min size (Z.max 0 (in_size n' - offset)) = size) by (simpl; lia).
  destruct (vfs_read_ok k1 l1 node n' read offset size b2 F Hok Hread Hsz) as (m2 & s2 & Hrun2 & _ & Hm2).
  { rewrite Hmin. subst k1. split; try done. intros i Hi. by eapply cached_same; [..|apply Hi4]. }
  rewrite Hmin in *. exists k1, (kwith k1 m2 s2). split; [done|]. split; [done|].
  intros i Hi. change (kram (kwith k1 m2 s2)) with m2. rewrite (proj1 Hm2) by done.
  subst k1. exact (proj1 Hm1 i Hi).
Qed.

(** appending to a regular file whose last page is not cached destroys that
    page: [vfs_write] reads the old contents only when the write starts below
    the end of the file, so here the new page is zeroed, and the bytes of the
    file before the written ones are 0 in the dirty page that will be flushed to
    the disk. *)
Theorem vfs_append_loses_page {FA} `{!FrameAllocator FA} `{!Drivers FA} (k : kst FA) l node n write size buffer a fr fa :
  append_ok k l node n size buffer a fr fa → ops_write (in_ops n) = Some write →
  ∃ k' e, vfs_write node (in_size n) size buffer k = Done (size, k') ∧
    cache_entries (k_vfs k') !! a = Some e ∧ ce_phys_addr e = fr ∧ ce_dirty e = true ∧
    ∀ j, 0 <= j < in_size n mod PAGE_SIZE → kram k' (fr + j) = 0.
Proof.
  intros Hap Hwrite. pose proof Hap as [Hok Hl Hsz Hmiss Hroom _ [_ Hfr]].
  pose proof Hok as [[Hn0 Hn] _ Hreg Hops]. unfold vfs_write.
  mstep (file_ok_permission _ _ _ _ Hok). cbn [negb Z.eqb]. rewrite (proj2 (Z.eqb_neq node 0)) by done.
  mstep (get_inode_Done _ _ _ Hn). unfold op_of. rewrite (proj2 (Z.eqb_neq _ 0)) by done. rewrite Hwrite, Hreg. cbn [negb].
  destruct (append_loop k l node n size buffer a fr fa Hap) as (k' & e & Hrun & He & Hph & Hd & Hin & Hz).
  mstep Hrun. assert (Hn' : k_inodes k' !! node = Some n) by by rewrite Hin. mstep (get_inode_Done _ _ _ Hn').
  assert (PAGE_SIZE = 4096) as HP by done. pose proof (Z.mod_pos_bound (in_size n) PAGE_SIZE eq_refl).
  rewrite u64_io by lia. rewrite (proj2 (Z.ltb_lt (in_size n) (in_size n + size))) by lia.
  mstep (mod_inode_Done _ _ _ (set_in_size (in_size n + size)) Hn'). eexists _, e. by split_and!.
Qed.

(** ** Witnesses: a file of two cached pages *)

Definition ex_cache : vfs :=
  mk_vfs (replicate 16 (0, 0)) 64 (<[4%nat := 200]> (<[5%nat := 201]> (replicate 256 0))) 200 201 2
    (list_to_map [(200, mk_cache_entry 64 0 (ex_frame 3) false 0 201 0);
                  (201, mk_cache_entry 64 4096 (ex_frame 4) false 0 0 200)]).
Definition ex_user : process := ex_process 1000 1000 1000 1000 [] None.
Definition ex_file_state : kst pmm := ex_kst ex_user {[64 := ex_inode 1000 0 0x180 4100]} ∅ ex_cache.
Definition ex_pages (po : Z) : Z := ex_frame (3 + po / 4096).
Definition ex_buf : Z := PHYS_OFFSET + ex_frame 5.

Lemma ex_lru_ok : lru_ok ex_cache ([200] ++ 201 :: []).
Proof.
  split; [split; try done; by apply (bool_decide_unpack _)|].
  intros a Ha. repeat (apply elem_of_cons in Ha as [->|Ha]; [by eexists|]). by apply not_elem_of_nil in Ha.
Qed.
Lemma ex_file_ok mask : mask = 2 ∨ mask = 4 → file_ok ex_file_state 64 (ex_inode 1000 0 0x180 4100) mask.
Proof.
  intros Hm. split; [done| |done|done]. exists 11, ex_user. split; [apply ex_runs|]. right. intros i Hi Hb.
  change (class_shift _ _) with 6. rewrite <- (Z.shiftr_spec _ 6) by done. revert i Hi Hb. apply land_subset.
  by destruct Hm as [->| ->].
Qed.
Lemma ex_pg i : 0 <= i < 10 → pg (4090 + i) = if decide (i < 6) then 0 else 4096.
Proof.
  intros Hi. unfold pg, PAGE_SIZE. assert (i < 6 ∨ 6 <= i) as [?|?] by lia.
  - rewrite decide_True by done. rewrite Z.mod_small by lia. lia.
  - rewrite decide_False by lia. assert ((4090 + i) mod 4096 = i - 6) as ->; [|lia].
    symmetry. apply (Z.mod_unique _ _ 1); lia.
Qed.
Lemma ex_loc i : 0 <= i < 10 → loc ex_pages (4090 + i) = ex_frame 3 + 4090 + i.
Proof.
  intros Hi. unfold loc. pose proof (ex_pg i Hi) as H. unfold pg in H.
  replace ((4090 + i) mod PAGE_SIZE) with (4090 + i - pg (4090 + i)) by (unfold pg; lia).
  rewrite ex_pg by done. unfold ex_pages, ex_frame, PAGE_SIZE.
  case_decide; [change (0 / 4096) with 0|change (4096 / 4096) with 1]; lia.
Qed.
Lemma ex_io_ok d : 0 <= d <= 100 → io_ok ex_file_state ([200] ++ 201 :: []) 64 4090 10 (ex_buf + d) ex_pages.
Proof.
  intros Hd. split.
  - apply ex_lru_ok.
  - lia.
  - unfold ex_buf, ex_frame, PHY_RAM_BASE, PAGE_SIZE. lia.
  - intros i Hi. rewrite ex_pg by done. case_decide.
    + exists 200, (mk_cache_entry 64 0 (ex_frame 3) false 0 201 0). split; [by vm_compute|]. by split; [left|].
    + exists 201, (mk_cache_entry 64 4096 (ex_frame 4) false 0 0 200). split; [by vm_compute|]. by split; [right; left|].
  - intros i Hi. rewrite ex_pg by done. case_decide; by vm_compute.
  - intros i j Hi Hj. rewrite ex_loc by done. unfold V2P, ex_buf, ex_frame, PHYS_OFFSET, PHY_RAM_BASE, PAGE_SIZE.
    rewrite (proj2 (Z.leb_le _ _)) by lia. lia.
  - intros i j Hi Hj. rewrite !ex_loc by done. lia.
Qed.

Lemma vfs_read_cached_witness : ∃ k', @vfs_read pmm _ ex_drivers 64 4090 100 ex_buf ex_file_state = Done (10, k') ∧
  k_inodes k' = k_inodes ex_file_state.
Proof.
  destruct (@vfs_read_cached pmm _ ex_drivers ex_file_state ([200] ++ 201 :: []) 64 (ex_inode 1000 0 0x180 4100)
    (λ _ _ _ _, ret 0) 4090 100 ex_buf ex_pages) as (k' & Hrun & _ & Hn & _);
    [apply ex_file_ok; by right|done|lia|exact (ex_io_ok 0 ltac:(lia))|].
  exists k'. split; [exact Hrun|exact Hn].
Defined.

Lemma vfs_write_then_read_witness : ∃ k1 k2,
  @vfs_write pmm _ ex_drivers 64 4090 10 ex_buf ex_file_state = Done (10, k1) ∧
  @vfs_read pmm _ ex_drivers 64 4090 10 (ex_buf + 50) k1 = Done (10, k2).
Proof.
  destruct (@vfs_write_then_read pmm _ ex_drivers ex_file_state ([200] ++ 201 :: []) 64 (ex_inode 1000 0 0x180 4100)
    (λ _ _ _ _, ret 0) (λ _ _ _ _, ret 0) 4090 10 ex_buf (ex_buf + 50) ex_pages) as (k1 & k2 & H1 & H2 & _);
    [apply ex_file_ok; by left|apply ex_file_ok; by right|done|done|lia|exact (ex_io_ok 0 ltac:(lia))|exact (ex_io_ok 50 ltac:(lia))|].
  exists k1, k2. split; assumption.
Defined.

Lemma vfs_check_permission_decides_witness : ∃ r, vfs_check_permission 64 2 ex_file_state = Done (r, ex_file_state) ∧ (r = 0 ∨ r = -1).
Proof.
  destruct (vfs_check_permission_decides ex_file_state 11 ex_user 64 (ex_inode 1000 0 0x180 4100) 2) as (r & H & Hr & _);
    [apply ex_runs|done|done|].
  exists r. split; assumption.
Defined.

Lemma lru_touch_moves_front_witness : ∃ s', lru_touch 201 ex_cache = Done (tt, s') ∧ lru_ok s' [201; 200].
Proof.
  destruct (lru_touch_moves_front ex_cache [200] 201 []) as (s' & H & Hl & _); [apply ex_lru_ok|].
  exists s'. split; assumption.
Defined.

(** The last page of the file is not cached. *)
Definition ex_append_state : kst pmm := ex_kst ex_user {[64 := ex_inode 1000 0 0x180 4100]} ∅ ex_vfs.

Lemma vfs_append_loses_page_witness : ∃ k' e,
  @vfs_write pmm _ ex_drivers 64 4100 10 ex_buf ex_append_state = Done (10, k') ∧
  cache_entries (k_vfs k') !! 80 = Some e ∧ ce_dirty e = true.
Proof.
  destruct (@vfs_append_loses_page pmm _ ex_drivers ex_append_state [] 64 (ex_inode 1000 0 0x180 4100)
    (λ _ _ _ _, ret 0) 10 ex_buf 80 (ex_frame 5) (mk_pmm [4; 5; 0; 0; 0; 0] 1 6 5 false (6 * 4096)
      (PHY_RAM_BASE + 6 * 4096) 6 (Some [1; 1; 1; 1; 0; 1]))) as (k' & e & Hrun & He & _ & Hd & _); [|done|].
  - split; [|split; [by split; try apply (bool_decide_unpack _)|]| | | | |]; try done; try by vm_compute.
    + split; [done| |done|done]. exists 11, ex_user. split; [apply ex_runs|]. right. intros i Hi Hb.
      change (class_shift _ _) with 6. rewrite <- (Z.shiftr_spec _ 6) by done. revert i Hi Hb. by apply land_subset.
    + intros u Hu. by apply not_elem_of_nil in Hu.
  - exists k', e. split; [exact Hrun|split; [exact He|exact Hd]].
Defined.
