(* ===== verification/Devfs.v ===== *)
(** The device file system, [kernel/fs/devfs.c]: the list of registered
    devices, the node made for one at each lookup, and the directory listing.
    The state is the static one of the file; the kernel's objects are in the
    state of [Kernel]. *)
From S2P Require Export Vfs.
From S2P Require Import KString.
Local Open Scope prog_scope.

Definition DEVFS_ROOT_ID : Z := 0xDE7F5.

(** [device_driver_t] and the static state.  The list is only ever extended at
    its head and never changed, so it is the list of its elements. *)
Record device_driver := mk_device_driver { dd_name : list Z; dd_id : Z; dd_type : Z; dd_ops : Z }.
Record devfs := mk_devfs { device_head : list device_driver; dev_count : Z }.
Definition set_device_head v d := mk_devfs v (dev_count d).
Definition set_dev_count v d := mk_devfs (device_head d) v.

Section devfs.
Context {FA : Type} `{!FrameAllocator FA}.

(** [memset] to 0, then the fields. *)
Definition device_inode (d : device_driver) : inode :=
  mk_inode (take 31 (dd_name d)) (Z.lor (dd_type d) FS_TEMPORARY) 0 0
    (Z.lor (if dd_type d =? FS_BLOCKDEVICE then S_IFBLK else S_IFCHR) 0x180) 0 (dd_id d) 1 (dd_ops d) 0 0 0 0
    (mk_inode_info DEVFS_ROOT_ID (dd_id d) 0 0 0 0 0).
Definition create_device_inode (d : device_driver) : M (kst FA) Z :=
  node <- kalloc;;
  if node =? 0 then ret 0 else new_inode node (device_inode d);;; ret node.

(** [devfs_mount_device]; the names are literals of less than 31 characters, so
    that [strncpy] ends them. *)
Definition devfs_mount_device (name : list Z) (ops type : Z) : M (kst FA * devfs) unit :=
  drv <- in_kst kalloc;;
  if drv =? 0 then ret tt
  else
    in_snd (modify (λ d, set_dev_count (i32 (dev_count d + 1)) d));;;
    in_snd (modify (λ d, set_device_head (mk_device_driver (take 31 name) (u32 (dev_count d)) type ops :: device_head d) d)).

Fixpoint find_device (name : list Z) (l : list device_driver) : option device_driver :=
  match l with
  | [] => None
  | d :: l' => if decide (dd_name d = name) then Some d else find_device name l'
  end.
Definition devfs_fetch_device (name : list Z) : M (kst FA * devfs) Z := λ s,
  match find_device name (device_head s.2) with
  | Some d => in_kst (create_device_inode d) s
  | None => Done (0, s)
  end.
(** The operation [lookup] of the root. *)
Definition defvs_lookup (node : Z) (name : list Z) : M (kst FA * devfs) Z := devfs_fetch_device name.

(** The result, the name and [*is_dir]; [strncpy] to a buffer of [buflen]
    bytes, longer than a name. *)
Definition devfs_readdir (index : Z) : M (kst FA * devfs) (Z * list Z * Z) := λ s,
  if index <? 0 then Done ((0, [], 0), s)
  else if index =? 0 then Done ((1, [46], 1), s)
  else if index =? 1 then Done ((1, [46; 46], 1), s)
  else
    match device_head s.2 !! Z.to_nat (index - 2) with
    | Some d => Done ((1, dd_name d, 0), s)
    | None => Done ((0, [], 0), s)
    end.

(** [devfs_init], on the names and tables of operations of the devices it
    registers, in order. *)
Definition devfs_init (devices : list (list Z * Z * Z)) : M (kst FA * devfs) unit :=
  in_snd (modify (λ _, mk_devfs [] 0));;;
  for_each (λ d, devfs_mount_device d.1.1 d.1.2 d.2) devices.
End devfs.
