(* ===== verification/FatName.v ===== *)
(** Times and names of the FAT32 file system, [kernel/fs/fat32.c]: the functions
    that work on values only.  Dates are converted between seconds and the
    packed fields of a directory entry; names between a string, the 11 bytes of
    a short name and the entries of a long name. *)
From S2P Require Export Memory.
Local Open Scope prog_scope.

(** ** Strings

    A C string without its terminator; [char] is unsigned. *)
Definition upper (c : Z) : Z := if (97 <=? c) && (c <=? 122) then c - 32 else c.
Definition lower (c : Z) : Z := if (65 <=? c) && (c <=? 90) then c + 32 else c.
Definition to_upper (s : list Z) : list Z := map upper s.
Definition to_lower (s : list Z) : list Z := map lower s.

(** ** Times *)

Definition days_in_month : list Z := [31; 28; 31; 30; 31; 30; 31; 31; 30; 31; 30; 31].
Definition is_leap_year (year : Z) : bool :=
  ((year mod 4 =? 0) && negb (year mod 100 =? 0)) || (year mod 400 =? 0).
Definition days_in_year (year : Z) : Z := if is_leap_year year then 366 else 365.

(** The loop over the years; [int y] is not wrapped: it stays below 2^31 for
    the clocks there are. *)
Fixpoint year_loop (fuel : nat) (rem y : Z) : Z * Z :=
  match fuel with
  | O => (rem, y)
  | S f => if days_in_year y <=? rem then year_loop f (rem - days_in_year y) (y + 1) else (rem, y)
  end.
(** The loop over the months, [m] from 0; it ends at December. *)
Fixpoint month_loop (fuel : nat) (y rem m : Z) : Z * Z :=
  match fuel with
  | O => (rem, m)
  | S f =>
      if m <? 11 then
        let dim := default 0 (zget days_in_month m) in
        let dim := if (m =? 1) && is_leap_year y then dim + 1 else dim in
        if rem <? dim then (rem, m) else month_loop f y (rem - dim) (m + 1)
      else (rem, m)
  end.

(** Year, month, day, hour, minute and second. *)
Record datetime := mk_datetime { dt_year : Z; dt_month : Z; dt_day : Z; dt_hour : Z; dt_min : Z; dt_sec : Z }.
Definition unix_to_datetime (timestamp : Z) : datetime :=
  let sec := timestamp mod 60 in
  let rem := timestamp / 60 in
  let min := rem mod 60 in
  let rem := rem / 60 in
  let hour := rem mod 24 in
  let rem := rem / 24 in
  let '(rem, y) := year_loop (S (Z.to_nat (rem / 365))) rem 1970 in
  let '(rem, m) := month_loop 12 y rem 0 in
  mk_datetime y (m + 1) (rem + 1) hour min sec.

Fixpoint add_years (n : nat) (y days : Z) : Z :=
  match n with
  | O => days
  | S n' => add_years n' (y + 1) (u64 (days + days_in_year y))
  end.
(** [None] past the end of [days_in_month]. *)
Fixpoint add_months (n : nat) (year m days : Z) : option Z :=
  match n with
  | O => Some days
  | S n' =>
      dim ← zget days_in_month (m - 1);
      let days := u64 (days + dim) in
      add_months n' year (m + 1) (if (m =? 2) && is_leap_year year then u64 (days + 1) else days)
  end.
Definition datetime_to_unix (d : datetime) : option Z :=
  days ← add_months (Z.to_nat (dt_month d - 1)) (dt_year d) 1 (add_years (Z.to_nat (dt_year d - 1970)) 1970 0);
  let days := u64 (days + u64 (dt_day d - 1)) in
  Some (u64 (days * 86400 + dt_hour d * 3600 + dt_min d * 60 + dt_sec d)).

Definition pack_fat_date (year month day : Z) : Z :=
  Z.lor (Z.lor (u16 (Z.shiftl (Z.land (year - 1980) 0x7F) 9)) (u16 (Z.shiftl (Z.land month 0x0F) 5))) (u16 (Z.land day 0x1F)).
Definition pack_fat_time (hour min sec : Z) : Z :=
  Z.lor (Z.lor (u16 (Z.shiftl (Z.land hour 0x1F) 11)) (u16 (Z.shiftl (Z.land min 0x3F) 5))) (u16 (Z.land (sec / 2) 0x1F)).
Definition unpack_fat_date (date : Z) : Z * Z * Z :=
  (Z.land (Z.shiftr date 9) 0x7F + 1980, Z.land (Z.shiftr date 5) 0x0F, Z.land date 0x1F).
Definition unpack_fat_time (time : Z) : Z * Z * Z :=
  (Z.land (Z.shiftr time 11) 0x1F, Z.land (Z.shiftr time 5) 0x3F, Z.land time 0x1F * 2).
Definition fat_to_unix (date time : Z) : option Z :=
  if date =? 0 then Some 0
  else
    let '(year, month, day) := unpack_fat_date date in
    let '(hour, min, sec) := unpack_fat_time time in
    datetime_to_unix (mk_datetime year month day hour min sec).
(** [get_fat_now], the clock showing [sec] seconds: the date and the time. *)
Definition get_fat_now (sec : Z) : Z * Z :=
  let d := unix_to_datetime sec in
  (pack_fat_date (dt_year d) (dt_month d) (dt_day d), pack_fat_time (dt_hour d) (dt_min d) (dt_sec d)).

(** ** Names *)

Definition FAT_ATTR_DIRECTORY : Z := 0x10.
Definition FAT_ATTR_ARCHIVE : Z := 0x20.
Definition FAT_ATTR_LFN : Z := 0x0F.
Definition FAT_EOC : Z := 0x0FFFFFF8.

(** The characters before the first one for which [p] holds. *)
Fixpoint before_char (p : Z → bool) (l : list Z) : list Z :=
  match l with
  | [] => []
  | c :: l' => if p c then [] else c :: before_char p l'
  end.
Definition c_str (l : list Z) : list Z := before_char (Z.eqb 0) l.

(** The 11 bytes of a short name as a string; a zero byte on the disk ends it. *)
Definition fat_get_short_name (src : list Z) : list Z :=
  c_str (before_char (Z.eqb 32) (take 8 src) ++
    (if nth 8 src 0 =? 32 then [] else 46 :: before_char (Z.eqb 32) (drop 8 src))).

Definition lfn_checksum (short_name : list Z) : Z :=
  fold_left (λ sum c, u8 ((if has sum 1 then 0x80 else 0) + sum / 2 + c)) short_name 0.

(** [fat_lfn_entry_t]. *)
Record fat_lfn_entry := mk_lfn {
  l_order : Z; l_name1 : list Z; l_attr : Z; l_type : Z; l_checksum : Z;
  l_name2 : list Z; l_first_cluster : Z; l_name3 : list Z;
}.
(** The loop of [lfn_extract_chars]; [None] is a store outside the buffer. *)
Fixpoint extract_chars (chars : list Z) (buf : list Z) (pos : Z) : option (list Z * Z) :=
  match chars with
  | [] => Some (buf, pos)
  | c :: chars' =>
      if (c =? 0) || (c =? 0xFFFF) then Some (buf, pos)
      else buf ← zset buf pos (Z.land c 0xFF); extract_chars chars' buf (pos + 1)
  end.
Definition lfn_extract_chars (lfn : fat_lfn_entry) (buf : list Z) (pos : Z) : option (list Z * Z) :=
  extract_chars (l_name1 lfn ++ l_name2 lfn ++ l_name3 lfn) buf pos.

(** What the searches of a directory keep of the long name before an entry. *)
Record lfn_state := mk_lfn_state { lf_buffer : list Z; lf_expected : Z; lf_valid : bool }.
Definition no_lfn (st : lfn_state) : lfn_state := mk_lfn_state (lf_buffer st) (lf_expected st) false.
Definition lfn_step (lfn : fat_lfn_entry) (st : lfn_state) : option lfn_state :=
  let st := if has (l_order lfn) 0x40 then mk_lfn_state (replicate 256 0) (l_checksum lfn) true else st in
  if lf_valid st && (l_checksum lfn =? lf_expected st) then
    let order := Z.land (l_order lfn) 0x3F in
    let pos := (order - 1) * 13 in
    '(buf, _) ← lfn_extract_chars lfn (lf_buffer st) pos;
    Some (mk_lfn_state buf (lf_expected st) (lf_valid st))
  else Some st.
(** [strncpy(dest, src, n)] as a string; [None] when it leaves [dest] without
    its terminator. *)
Definition strncpy_name (src : list Z) (n : Z) : option (list Z) :=
  let l := take (Z.to_nat n) src in
  if existsb (Z.eqb 0) l || (Z.of_nat (length src) <? n) then Some (c_str l) else None.
(** The name of an entry with the short name [short], after [st]. *)
Definition entry_name (st : lfn_state) (short : list Z) (n : Z) : option (list Z) :=
  if lf_valid st && (lfn_checksum short =? lf_expected st) then strncpy_name (lf_buffer st) n
  else Some (fat_get_short_name short).

(** [build_lfn], the entries from [start_idx]. *)
Fixpoint build_loop (lfns : list fat_lfn_entry) (expected : Z) (buf : list Z) : option (list Z) :=
  match lfns with
  | [] => Some buf
  | entry :: lfns' =>
      if negb (l_attr entry =? FAT_ATTR_LFN) then Some buf
      else if negb (l_checksum entry =? expected) then Some buf
      else
        '(buf, _) ← lfn_extract_chars entry buf ((Z.land (l_order entry) 0x3F - 1) * 13);
        build_loop lfns' expected buf
  end.
Definition build_lfn (entries : list fat_lfn_entry) (start_idx max_entries : Z) (lfn_buf : list Z) (expected_checksum : Z)
    : option (Z * list Z * Z) :=
  lfn ← zget entries start_idx;
  if negb (l_attr lfn =? FAT_ATTR_LFN) then Some (0, lfn_buf, expected_checksum)
  else
    let lfn_count := Z.land (l_order lfn) 0x3F in
    if max_entries <=? start_idx + lfn_count then Some (0, lfn_buf, expected_checksum)
    else
      buf ← build_loop (take (Z.to_nat lfn_count) (drop (Z.to_nat start_idx) entries)) (l_checksum lfn) (replicate 256 0);
      Some (lfn_count, buf, l_checksum lfn).

(** *** A short name for a long one *)

(** The place of the last dot. *)
Fixpoint last_dot (l : list Z) : option nat :=
  match l with
  | [] => None
  | c :: l' => match last_dot l' with Some n => Some (S n) | None => if c =? 46 then Some O else None end
  end.
(** The characters [*+,/:;<=>?[\]|] and the double quote. *)
Definition invalid_chars : list Z := [34; 42; 43; 44; 47; 58; 59; 60; 61; 62; 63; 91; 92; 93; 124].
Definition short_char (c : Z) : Z :=
  let c := upper c in if (c <? 0x20) || existsb (Z.eqb c) invalid_chars then 95 else c.
Fixpoint base_loop (l : list Z) (max_base j : nat) (short : list Z) : list Z * nat :=
  match l with
  | [] => (short, j)
  | c :: l' =>
      if (max_base <=? j)%nat then (short, j)
      else if (c =? 32) || (c =? 46) then base_loop l' max_base j short
      else base_loop l' max_base (S j) (<[j := short_char c]> short)
  end.
(** The digits of the suffix, the lowest first; [suffix_str] holds 8. *)
Fixpoint suffix_digits (fuel : nat) (temp : Z) : list Z :=
  match fuel with
  | O => []
  | S f => if 0 <? temp then (48 + temp mod 10) :: suffix_digits f (temp / 10) else []
  end.
Fixpoint put_bytes (l : list Z) (j : nat) (short : list Z) : list Z :=
  match l with
  | [] => short
  | c :: l' => put_bytes l' (S j) (<[j := c]> short)
  end.
Definition generate_short_name (long_name : list Z) (suffix : Z) : list Z :=
  let short_name := replicate 11 32 in
  let dot := last_dot long_name in
  let base_len := match dot with Some n => n | None => length long_name end in
  let max_base := if 0 <? suffix then 6%nat else 8%nat in
  let '(short_name, j) := base_loop (take base_len long_name) max_base 0 short_name in
  let short_name :=
    if 0 <? suffix then
      let suffix_str := suffix_digits 8 suffix in
      let j := Nat.min j (8 - length suffix_str - 1) in
      put_bytes (126 :: rev suffix_str) j short_name
    else short_name in
  match dot with
  | Some n => put_bytes (map short_char (take 3 (drop (S n) long_name))) 8 short_name
  | None => short_name
  end.

Definition lfn_entries_needed (name : list Z) : Z := (Z.of_nat (length name) + 12) / 13.
(** The characters after the first dot. *)
Fixpoint after_dot (l : list Z) : option (list Z) :=
  match l with
  | [] => None
  | c :: l' => if c =? 46 then Some l' else after_dot l'
  end.
Definition needs_lfn (name : list Z) : bool :=
  if (12 <? length name)%nat then true
  else if
    match after_dot name with
    | Some ext =>
        let base_len := (length name - length ext - 1)%nat in
        (8 <? base_len)%nat || (3 <? length ext)%nat || existsb (Z.eqb 46) ext
    | None => (8 <? length name)%nat
    end then true
  else existsb (λ c, ((97 <=? c) && (c <=? 122)) || (c =? 32)) name.

(** The character of a long name at [pos]. *)
Definition lfn_char (name : list Z) (pos : Z) : Z :=
  if pos <? Z.of_nat (length name) then default 0 (zget name pos)
  else if pos =? Z.of_nat (length name) then 0 else 0xFFFF.
Definition fill_lfn_entry (name : list Z) (order : Z) (is_last : bool) (checksum : Z) : fat_lfn_entry :=
  let start := (order - 1) * 13 in
  mk_lfn (Z.lor order (if is_last then 0x40 else 0)) (map (lfn_char name) (seqZ start 5)) FAT_ATTR_LFN 0 checksum
    (map (lfn_char name) (seqZ (start + 5) 6)) 0 (map (lfn_char name) (seqZ (start + 11) 2)).
(** The entries of a long name, in the order of the disk. *)
Definition lfn_entries (name : list Z) (checksum : Z) : list fat_lfn_entry :=
  let lfn_count := lfn_entries_needed name in
  map (λ i, fill_lfn_entry name (lfn_count - i) (i =? 0) checksum) (seqZ 0 lfn_count).

(** *** The conversions are inverse *)

(** The days of the [n] years from [y]. *)
Fixpoint year_days (n : nat) (y : Z) : Z :=
  match n with
  | O => 0
  | S n' => days_in_year y + year_days n' (y + 1)
  end.
Lemma days_in_year_range y : 365 <= days_in_year y <= 366.
Proof. unfold days_in_year. case_match; lia. Qed.
Lemma year_days_nonneg n : ∀ y, 0 <= year_days n y.
Proof. induction n as [|n IH]; intros y; cbn [year_days]; [lia|]. pose proof (days_in_year_range y). specialize (IH (y + 1)). lia. Qed.
Lemma year_days_app a b : ∀ y, year_days (a + b) y = year_days a y + year_days b (y + Z.of_nat a).
Proof.
  induction a as [|a IH]; intros y; cbn [year_days Nat.add]; [by rewrite Z.add_0_r|].
  rewrite IH. replace (y + 1 + Z.of_nat a) with (y + Z.of_nat (S a)) by lia. lia.
Qed.
Lemma year_days_mono a b y : (a <= b)%nat → year_days a y <= year_days b y.
Proof. intros H. replace b with (a + (b - a))%nat by lia. rewrite year_days_app. pose proof (year_days_nonneg (b - a) (y + Z.of_nat a)). lia. Qed.
Lemma add_years_eq n : ∀ y d, 0 <= d → d + year_days n y < 2 ^ 64 → add_years n y d = d + year_days n y.
Proof.
  induction n as [|n IH]; intros y d Hd Hb; cbn [add_years year_days] in *; [lia|].
  pose proof (days_in_year_range y). pose proof (year_days_nonneg n (y + 1)).
  rewrite u64_id by lia. rewrite IH by lia. lia.
Qed.
Lemma year_loop_ok fuel : ∀ rem y, 0 <= rem → rem / 365 < Z.of_nat fuel →
  ∃ n, let '(r, y') := year_loop fuel rem y in y' = y + Z.of_nat n ∧ 0 <= r < days_in_year y' ∧ rem = year_days n y + r.
Proof.
  induction fuel as [|f IH]; intros rem y Hr Hf; [zlia|]. cbn [year_loop]. pose proof (days_in_year_range y).
  destruct (Z.leb_spec (days_in_year y) rem).
  - destruct (IH (rem - days_in_year y) (y + 1)) as [n Hn]; [lia|zlia|]. exists (S n).
    destruct (year_loop f _ _) as [r y']. cbn [year_days]. destruct Hn as (-> & ? & ?). split; [lia|]. split; [done|lia].
  - exists O. cbn [year_days]. split; [lia|]. lia.
Qed.

(** The days of the month [m], from 0, and of the [n] months from [m]. *)
Definition month_days (y m : Z) : Z :=
  default 0 (zget days_in_month m) + (if (m =? 1) && is_leap_year y then 1 else 0).
Fixpoint month_sum (n : nat) (y m : Z) : Z :=
  match n with
  | O => 0
  | S n' => month_days y m + month_sum n' y (m + 1)
  end.
Lemma month_get m : 0 <= m < 12 → ∃ d, zget days_in_month m = Some d ∧ 28 <= d <= 31.
Proof.
  intros Hm. destruct (zget_is_Some days_in_month m) as [d Hd]; [simpl; lia|]. exists d. split; [done|].
  unfold zget in Hd. rewrite decide_True in Hd by lia. apply list_elem_of_lookup_2 in Hd.
  revert d Hd. rewrite <- Forall_forall. repeat (apply Forall_cons; split; [lia|]). constructor.
Qed.
Lemma month_days_range y m : 0 <= m < 12 → 28 <= month_days y m <= 31.
Proof.
  intros Hm. unfold month_days. destruct (Z.eqb_spec m 1) as [->|]; [destruct (is_leap_year y); split; by vm_compute|].
  destruct (month_get m Hm) as (d & -> & Hd). simpl. lia.
Qed.
Lemma month_sum_year y : month_sum 12 y 0 = days_in_year y.
Proof. unfold days_in_year. cbn. unfold month_days. cbn. by destruct (is_leap_year y). Qed.
Lemma month_sum_nonneg n y : ∀ m, 0 <= m → m + Z.of_nat n <= 12 → 0 <= month_sum n y m.
Proof.
  induction n as [|n IH]; intros m Hm Hn; cbn [month_sum]; [lia|].
  pose proof (month_days_range y m). specialize (IH (m + 1)). lia.
Qed.
Lemma month_loop_ok y fuel : ∀ rem m, 0 <= m → Z.of_nat fuel = 12 - m → 0 <= rem < month_sum fuel y m →
  ∃ n, let '(r, m') := month_loop fuel y rem m in m' = m + Z.of_nat n ∧ m' <= 11 ∧ 0 <= r < month_days y m' ∧ rem = month_sum n y m + r.
Proof.
  induction fuel as [|f IH]; intros rem m Hm Hf Hr; cbn [month_loop month_sum] in *; [lia|].
  destruct (Z.ltb_spec m 11) as [Hlt|Hge].
  - assert (Hd : (if (m =? 1) && is_leap_year y then default 0 (zget days_in_month m) + 1 else default 0 (zget days_in_month m)) = month_days y m)
      by (unfold month_days; case_match; lia). cbv zeta. rewrite Hd.
    destruct (Z.ltb_spec rem (month_days y m)) as [H1|H1].
    + exists O. cbn [month_sum]. split; [lia|]. split; [lia|]. lia.
    + destruct (IH (rem - month_days y m) (m + 1)) as [n Hn]; [lia|lia|lia|]. exists (S n).
      destruct (month_loop f _ _ _) as [r m']. cbn [month_sum]. destruct Hn as (-> & ? & ? & ?). split; [lia|]. split; [lia|]. split; [done|lia].
  - exists O. assert (f = O) as -> by lia. cbn [month_sum] in *. split; [lia|]. split; [lia|]. lia.
Qed.
Lemma add_months_eq y n : ∀ m d, 1 <= m → m - 1 + Z.of_nat n <= 12 → 0 <= d → d + month_sum n y (m - 1) < 2 ^ 64 →
  add_months n y m d = Some (d + month_sum n y (m - 1)).
Proof.
  induction n as [|n IH]; intros m d Hm Hn Hd Hb; cbn [add_months month_sum] in *; [by rewrite Z.add_0_r|].
  pose proof (month_days_range y (m - 1)). pose proof (month_sum_nonneg n y (m - 1 + 1)).
  destruct (month_get (m - 1)) as (dim & Hg & Hdim); [lia|]. rewrite Hg. simpl.
  assert (Hmd : month_days y (m - 1) = dim + (if (m =? 2) && is_leap_year y then 1 else 0)).
  { unfold month_days. rewrite Hg. simpl. destruct (Z.eqb_spec (m - 1) 1), (Z.eqb_spec m 2); try lia; done. }
  replace (m - 1 + 1) with (m + 1 - 1) in * by lia. rewrite Hmd in *.
  rewrite (u64_id (d + dim)) by (case_match; lia).
  replace (if (m =? 2) && is_leap_year y then u64 (d + dim + 1) else d + dim) with (d + (dim + (if (m =? 2) && is_leap_year y then 1 else 0))).
  - rewrite IH by (case_match; lia). f_equal. lia.
  - case_match; [rewrite u64_id by lia|]; lia.
Qed.

(** The date of the day [days] after 1970-01-01. *)
Lemma unix_to_datetime_ok t : 0 <= t → ∃ n k,
  let d := unix_to_datetime t in
  dt_year d = 1970 + Z.of_nat n ∧ dt_month d = 1 + Z.of_nat k ∧ dt_month d <= 12 ∧
  1 <= dt_day d <= 31 ∧ 0 <= dt_hour d < 24 ∧ 0 <= dt_min d < 60 ∧ 0 <= dt_sec d < 60 ∧
  month_sum k (dt_year d) 0 + (dt_day d - 1) < days_in_year (dt_year d) ∧
  t = (year_days n 1970 + month_sum k (dt_year d) 0 + (dt_day d - 1)) * 86400 + dt_hour d * 3600 + dt_min d * 60 + dt_sec d.
Proof.
  intros Ht. unfold unix_to_datetime. set (days := t / 60 / 60 / 24). assert (Hd : 0 <= days) by (subst days; zlia).
  destruct (year_loop_ok (S (Z.to_nat (days / 365))) days 1970 Hd) as [n Hn]; [zlia|].
  destruct (year_loop _ days 1970) as [r y]. destruct Hn as (-> & Hr & Hdays).
  rewrite <- (month_sum_year (1970 + Z.of_nat n)) in Hr.
  destruct (month_loop_ok (1970 + Z.of_nat n) 12 r 0 ltac:(lia) ltac:(lia) Hr) as [k Hk].
  destruct (month_loop 12 _ r 0) as [q m]. destruct Hk as (-> & Hm & Hq & Hrk). exists n, k. cbn [dt_year dt_month dt_day dt_hour dt_min dt_sec].
  pose proof (month_days_range (1970 + Z.of_nat n) (0 + Z.of_nat k)). pose proof (days_in_year_range (1970 + Z.of_nat n)).
  rewrite month_sum_year in Hr. subst days. split_and!; zlia.
Qed.

Lemma datetime_to_unix_ok n k y d h mi s : y = 1970 + Z.of_nat n → Z.of_nat k < 12 → 1 <= d → 0 <= h → 0 <= mi → 0 <= s →
  let days := year_days n 1970 + month_sum k y 0 + (d - 1) in
  days * 86400 + h * 3600 + mi * 60 + s < 2 ^ 64 →
  datetime_to_unix (mk_datetime y (1 + Z.of_nat k) d h mi s) = Some (days * 86400 + h * 3600 + mi * 60 + s).
Proof.
  intros -> Hk Hd Hh Hmi Hs days Hb. unfold datetime_to_unix. cbn [dt_year dt_month dt_day dt_hour dt_min dt_sec].
  replace (Z.to_nat (1970 + Z.of_nat n - 1970)) with n by lia. replace (Z.to_nat (1 + Z.of_nat k - 1)) with k by lia.
  pose proof (year_days_nonneg n 1970). pose proof (month_sum_nonneg k (1970 + Z.of_nat n) 0).
  rewrite add_years_eq, add_months_eq by (rewrite ?Z.sub_diag; lia). rewrite Z.sub_diag. simpl.
  rewrite (u64_id (d - 1)), (u64_id (_ + (d - 1))), u64_id by lia. done.
Qed.

(** The two conversions are inverse, on every time the clock can show. *)
Lemma datetime_roundtrip t : 0 <= t < 2 ^ 63 → datetime_to_unix (unix_to_datetime t) = Some t.
Proof.
  intros Ht. destruct (unix_to_datetime_ok t) as (n & k & Hy & Hm & Hm12 & Hd & Hh & Hmi & Hs & _ & Heq); [lia|].
  destruct (unix_to_datetime t) as [y mo d h mi s]. cbn in *. subst mo.
  rewrite (datetime_to_unix_ok n) by lia. by f_equal.
Qed.

Lemma fat_date_roundtrip y m d : 1980 <= y < 2108 → 0 <= m < 16 → 0 <= d < 32 →
  unpack_fat_date (pack_fat_date y m d) = (y, m, d) ∧ pack_fat_date y m d = (y - 1980) * 512 + m * 32 + d.
Proof.
  intros Hy Hm Hd. assert (Hp : pack_fat_date y m d = (y - 1980) * 512 + m * 32 + d).
  { unfold pack_fat_date. change 0x7F with (2 ^ 7 - 1). change 0x0F with (2 ^ 4 - 1). change 0x1F with (2 ^ 5 - 1).
    rewrite !land_ones_mod, !Z.mod_small, (u16_id d) by lia. rewrite !u16_id by (rewrite Z.shiftl_mul_pow2 by lia; lia).
    rewrite <- Z.lor_assoc, (shiftl_lor m d 5), shiftl_lor by lia. lia. }
  split; [|done]. rewrite Hp. unfold unpack_fat_date. change 0x7F with (2 ^ 7 - 1). change 0x0F with (2 ^ 4 - 1). change 0x1F with (2 ^ 5 - 1).
  rewrite !land_ones_mod, !Z.shiftr_div_pow2 by lia. repeat f_equal; zlia.
Qed.
Lemma fat_time_roundtrip h mi s : 0 <= h < 24 → 0 <= mi < 60 → 0 <= s < 60 →
  unpack_fat_time (pack_fat_time h mi s) = (h, mi, s - s mod 2).
Proof.
  intros Hh Hmi Hs. assert (Hp : pack_fat_time h mi s = h * 2048 + mi * 32 + s / 2).
  { unfold pack_fat_time. change 0x3F with (2 ^ 6 - 1). change 0x1F with (2 ^ 5 - 1).
    rewrite !land_ones_mod by lia. rewrite (Z.mod_small h), (Z.mod_small mi), (Z.mod_small (s / 2)), (u16_id (s / 2)) by zlia.
    rewrite !u16_id by (rewrite Z.shiftl_mul_pow2 by lia; lia).
    rewrite <- Z.lor_assoc, (shiftl_lor mi (s / 2) 5), shiftl_lor by zlia. lia. }
  rewrite Hp. unfold unpack_fat_time. change 0x3F with (2 ^ 6 - 1). change 0x1F with (2 ^ 5 - 1).
  rewrite !land_ones_mod, !Z.shiftr_div_pow2 by lia. repeat f_equal; zlia.
Qed.

(** the time of a directory entry survives the disk: from 1980 to 2107 the
    packed date and time of the clock, unpacked and converted back, give the
    clock's time to the even second below. *)
Theorem fat_time_survives t : 315532800 <= t < 4354819200 →
  let '(date, time) := get_fat_now t in fat_to_unix date time = Some (t - t mod 2).
Proof.
  intros Ht. unfold get_fat_now. destruct (unix_to_datetime_ok t) as (n & k & Hy & Hm & Hm12 & Hd & Hh & Hmi & Hs & Hdy & Heq); [lia|].
  destruct (unix_to_datetime t) as [y mo d h mi s]. cbn [dt_year dt_month dt_day dt_hour dt_min dt_sec] in *. subst mo.
  pose proof (year_days_nonneg n 1970). pose proof (month_sum_nonneg k y 0 ltac:(lia) ltac:(lia)).
  assert (Hn : (10 <= n < 138)%nat).
  { assert (H10 : year_days 10 1970 = 3652) by reflexivity. assert (H138 : year_days 138 1970 = 50403) by (vm_compute; reflexivity).
    split.
    - destruct (decide (n < 10)%nat); [|lia]. pose proof (year_days_mono (n + 1) 10 1970 ltac:(lia)) as Hmono.
      rewrite year_days_app, H10, <- Hy in Hmono. change (year_days 1 y) with (days_in_year y + 0) in Hmono. lia.
    - destruct (decide (138 <= n)%nat); [|lia]. pose proof (year_days_mono 138 n 1970 ltac:(lia)). lia. }
  destruct (fat_date_roundtrip y (1 + Z.of_nat k) d) as [Hdate Hval]; [lia|lia|lia|].
  unfold fat_to_unix. rewrite Hdate, fat_time_roundtrip, Hval by done. rewrite (proj2 (Z.eqb_neq _ _)) by lia.
  rewrite (datetime_to_unix_ok n) by zlia. f_equal. zlia.
Qed.
Lemma fat_time_survives_witness : fat_to_unix (fst (get_fat_now 1709208061)) (snd (get_fat_now 1709208061)) = Some 1709208060.
Proof.
  assert (315532800 <= 1709208061 < 4354819200) as H by (split; vm_compute; congruence).
  pose proof (fat_time_survives 1709208061 H) as Ht. revert Ht.
  destruct (get_fat_now 1709208061) as [date time]. exact (λ x, x).
Defined.

(** *** Long names come back *)

Lemma seqZ_length a n : length (seqZ a n) = Z.to_nat n.
Proof. apply length_seqZ. Qed.
Lemma lfn_char_in name s c : name !! Z.to_nat s = Some c → 0 <= s → lfn_char name s = c.
Proof.
  intros Hc Hs. pose proof (lookup_lt_Some _ _ _ Hc). unfold lfn_char. rewrite (proj2 (Z.ltb_lt _ _)) by lia.
  unfold zget. rewrite decide_True by lia. by rewrite Hc.
Qed.
Lemma lfn_char_end name : lfn_char name (Z.of_nat (length name)) = 0.
Proof. unfold lfn_char. by rewrite Z.ltb_irrefl, Z.eqb_refl. Qed.
Lemma extract_ok name n : Forall (λ c, 0 < c < 256) name → ∀ s buf, 0 <= s → s <= Z.of_nat (length name) →
  (length name <= length buf)%nat →
  ∃ buf' pos, extract_chars (map (lfn_char name) (seqZ s (Z.of_nat n))) buf s = Some (buf', pos) ∧ length buf' = length buf ∧
    ∀ i : nat, buf' !! i = if decide (s <= Z.of_nat i < s + Z.of_nat n ∧ (i < length name)%nat) then name !! i else buf !! i.
Proof.
  intros Hname. induction n as [|n IH]; intros s buf Hs Hsl Hlen.
  { exists buf, s. split; [done|]. split; [done|]. intros i. by rewrite decide_False by lia. }
  rewrite Nat2Z.inj_succ, seqZ_cons, Z.pred_succ by lia. cbn [map extract_chars].
  destruct (decide (s < Z.of_nat (length name))) as [Hlt|Hge].
  - destruct (lookup_lt_is_Some_2 name (Z.to_nat s)) as [c Hc']; [lia|]. rewrite (lfn_char_in name s c) by done.
    assert (0 < c < 256) as Hcr by (eapply Forall_lookup_1 in Hname; [exact Hname|exact Hc']).
    rewrite (proj2 (Z.eqb_neq c 0)), (proj2 (Z.eqb_neq c 0xFFFF)) by lia. cbn [orb].
    rewrite zset_is_Some by lia. simpl.
    replace (Z.land c 255) with c by (change 255 with (2 ^ 8 - 1); rewrite land_ones_mod, Z.mod_small by lia; done).
    destruct (IH (Z.succ s) (<[Z.to_nat s := c]> buf)) as (buf' & pos & Hrun & Hl & Hat); [lia|lia|by rewrite length_insert|].
    rewrite Z.add_1_r. exists buf', pos. split; [exact Hrun|]. split; [by rewrite Hl, length_insert|].
    intros i. rewrite Hat. destruct (decide (i = Z.to_nat s)) as [->|Hne].
    + rewrite decide_False by lia. rewrite decide_True by lia. rewrite list_lookup_insert_eq by lia. done.
    + rewrite list_lookup_insert_ne by done. repeat case_decide; try done; lia.
  - assert (lfn_char name s = 0) as -> by (replace s with (Z.of_nat (length name)) by lia; apply lfn_char_end). cbn [Z.eqb orb]. exists buf, s. split; [done|]. split; [done|].
    intros i. rewrite decide_False by lia. done.
Qed.

(** The entries down to the order [k], [todo] still to come. *)
Lemma lfn_entry_chars name order last ck :
  l_name1 (fill_lfn_entry name order last ck) ++ l_name2 (fill_lfn_entry name order last ck) ++ l_name3 (fill_lfn_entry name order last ck) =
  map (lfn_char name) (seqZ ((order - 1) * 13) 13).
Proof.
  cbn [fill_lfn_entry l_name1 l_name2 l_name3]. rewrite <- !map_app. f_equal. set (s := (order - 1) * 13).
  replace (s + 11) with (s + 5 + 6) by lia. rewrite <- (seqZ_app (s + 5) 6 2), <- (seqZ_app s 5 (6 + 2)) by lia. done.
Qed.
Definition lfn_steps (lfns : list fat_lfn_entry) (st : lfn_state) : option lfn_state :=
  fold_left (λ o lfn, st ← o; lfn_step lfn st) lfns (Some st).
Definition zeros_after (name : list Z) (k : Z) (buf : list Z) : Prop :=
  length buf = 256%nat ∧ ∀ i : nat, (i < 256)%nat →
    buf !! i = Some (if decide (13 * k <= Z.of_nat i ∧ (i < length name)%nat) then default 0 (name !! i) else 0).
Lemma lfn_order order (last : bool) : 0 <= order < 64 →
  has (Z.lor order (if last then 0x40 else 0)) 0x40 = last ∧ Z.land (Z.lor order (if last then 0x40 else 0)) 0x3F = order.
Proof.
  intros Ho. change 0x40 with (2 ^ 6). rewrite has_pow2 by lia. rewrite Z.lor_spec, (testbit_small order 6) by lia. split; [by destruct last|].
  rewrite Z.land_lor_distr_l. change 0x3F with (2 ^ 6 - 1). rewrite land_ones_mod, Z.mod_small by lia. destruct last; [|by rewrite Z.lor_0_r].
  change (Z.land (2 ^ 6) (2 ^ 6 - 1)) with 0. by rewrite Z.lor_0_r.
Qed.
Lemma lfn_step_ok name ck order last st : Forall (λ c, 0 < c < 256) name → (length name <= 255)%nat →
  1 <= order < 64 → (order - 1) * 13 <= Z.of_nat (length name) →
  (last = false → lf_valid st = true ∧ lf_expected st = ck ∧ zeros_after name order (lf_buffer st)) →
  (last = true → Z.of_nat (length name) <= 13 * order) →
  ∃ buf, lfn_step (fill_lfn_entry name order last ck) st = Some (mk_lfn_state buf ck true) ∧ zeros_after name (order - 1) buf.
Proof.
  intros Hname Hlen Ho Hpos Hst Hlast. unfold lfn_step. cbn [l_order l_checksum fill_lfn_entry].
  destruct (lfn_order order last) as [-> ->]; [lia|].
  assert (Hst2 : ∃ b, (if last then mk_lfn_state (replicate 256 0) ck true else st) = mk_lfn_state b ck true ∧ zeros_after name order b).
  { destruct last.
    - exists (replicate 256 0). split; [done|]. split; [by rewrite length_replicate|]. intros i Hi. rewrite lookup_replicate_2 by done.
      rewrite decide_False; [done|]. specialize (Hlast eq_refl). lia.
    - destruct st as [b e v]. destruct Hst as (Hv & He & Hb); [done|]. cbn in *. subst. by exists b. }
  destruct Hst2 as (b & -> & Hbl & Hb). cbn [lf_valid lf_expected lf_buffer]. rewrite Z.eqb_refl. cbn [andb].
  unfold lfn_extract_chars. change (mk_lfn _ _ _ _ _ _ _ _) with (fill_lfn_entry name order last ck). rewrite lfn_entry_chars.
  destruct (extract_ok name 13 Hname ((order - 1) * 13) b) as (buf' & pos & Hrun & Hl & Hat); [lia|lia|lia|].
  change (Z.of_nat 13) with 13 in Hrun. rewrite Hrun. simpl. exists buf'. split; [done|]. split; [by rewrite Hl|].
  intros i Hi. rewrite Hat, (Hb i Hi). repeat case_decide; try done; try lia.
  destruct (lookup_lt_is_Some_2 name i) as [c Hc]; [lia|]. by rewrite Hc.
Qed.

(** a long name survives the directory: the entries made for a name of up
    to 255 characters, read back one after the other, fill the buffer with the
    name, and the entry that follows gets this name if its short name has the
    checksum. *)
Theorem long_name_survives name short st : Forall (λ c, 0 < c < 256) name → (0 < length name < 255)%nat →
  ∃ st', lfn_steps (lfn_entries name (lfn_checksum short)) st = Some st' ∧ entry_name st' short 255 = Some name.
Proof.
  intros Hname Hlen. set (ck := lfn_checksum short). unfold lfn_entries. set (n := lfn_entries_needed name).
  assert (Hn : 1 <= n <= 20 ∧ 13 * (n - 1) < Z.of_nat (length name) <= 13 * n) by (unfold n, lfn_entries_needed; zlia).
  assert (Hk : ∀ k : nat, 1 <= Z.of_nat k <= n → ∃ buf,
    lfn_steps (map (λ i, fill_lfn_entry name (n - i) (i =? 0) ck) (seqZ 0 (Z.of_nat k))) st = Some (mk_lfn_state buf ck true) ∧
    zeros_after name (n - Z.of_nat k) buf).
  { induction k as [|k IH]; intros Hk; [lia|]. rewrite Nat2Z.inj_succ, <- Z.add_1_r, seqZ_snoc by lia.
    unfold lfn_steps in *. rewrite map_app, fold_left_app. cbn [map fold_left]. rewrite Z.add_0_l. destruct (decide (k = O)) as [->|Hk0].
    - cbn [map fold_left seqZ]. change (seqZ 0 (Z.of_nat 0)) with (@nil Z). cbn [map fold_left].
      destruct (lfn_step_ok name ck (n - Z.of_nat 0) true st Hname) as (buf & Hrun & Hz); [lia|lia|lia|done|lia|].
      exists buf. change (Z.of_nat 0 =? 0) with true. simpl (Some st ≫= _). split; [exact Hrun|].
      by replace (n - (Z.of_nat 0 + 1)) with (n - Z.of_nat 0 - 1) by lia.
    - destruct IH as (buf & -> & Hz); [lia|]. simpl (Some _ ≫= _). rewrite (proj2 (Z.eqb_neq _ _)) by lia.
      destruct (lfn_step_ok name ck (n - Z.of_nat k) false (mk_lfn_state buf ck true) Hname) as (buf' & Hrun & Hz'); [lia|lia|lia|by intros _|done|].
      exists buf'. split; [exact Hrun|]. by replace (n - (Z.of_nat k + 1)) with (n - Z.of_nat k - 1) by lia. }
  destruct (Hk (Z.to_nat n)) as (buf & Hrun & Hl & Hat); [lia|]. rewrite Z2Nat.id, Z.sub_diag in * by lia.
  exists (mk_lfn_state buf ck true). split; [exact Hrun|]. unfold entry_name. cbn [lf_valid lf_expected lf_buffer].
  fold ck. rewrite Z.eqb_refl. cbn [andb]. unfold strncpy_name.
  assert (Hbuf : take (Z.to_nat 255) buf = name ++ replicate (255 - length name) 0).
  { apply list_eq. intros i. destruct (decide (i < 255)%nat) as [Hi|Hi].
    - rewrite lookup_take_lt by lia. rewrite Hat by lia. destruct (decide (i < length name)%nat) as [Hin|Hout].
      + rewrite decide_True, lookup_app_l by lia. destruct (lookup_lt_is_Some_2 name i Hin) as [c ->]. done.
      + rewrite decide_False by lia. rewrite lookup_app_r, lookup_replicate_2 by lia. done.
    - rewrite !lookup_ge_None_2; [done|rewrite length_app, length_replicate; lia|rewrite length_take; lia]. }
  rewrite Hbuf. rewrite existsb_app. assert (existsb (Z.eqb 0) (replicate (255 - length name) 0) = true) as ->.
  { replace (255 - length name)%nat with (S (254 - length name)) by lia. done. }
  rewrite orb_true_r. cbn [orb]. f_equal. clear -Hname Hlen.
  assert (∀ l : list Z, Forall (λ c, 0 < c < 256) l → ∀ r, c_str (l ++ 0 :: r) = l) as Hc.
  { induction 1 as [|c l Hc _ IH]; intros r; [done|]. unfold c_str in *. cbn [app before_char]. rewrite (proj2 (Z.eqb_neq 0 c)) by lia. by rewrite IH. }
  replace (255 - length name)%nat with (S (254 - length name)) by lia. by apply Hc.
Qed.
Lemma long_name_survives_witness : ∃ st', lfn_steps (lfn_entries (replicate 20 97) (lfn_checksum (replicate 11 65))) (mk_lfn_state [] 0 false) = Some st' ∧
  entry_name st' (replicate 11 65) 255 = Some (replicate 20 97).
Proof. apply long_name_survives; [by apply Forall_replicate|]. rewrite length_replicate. lia. Defined.
