(* ===== verification/Fat.v ===== *)
(** The FAT32 file system, [kernel/fs/fat32.c]: the block device below it, the
    allocation table, and the contents of files.  The functions that take a
    buffer of the caller return its new contents. *)
From stdpp Require Import functions.
From S2P Require Export FatName Kernel.
Local Open Scope Z_scope.
Local Open Scope prog_scope.
Notation "' x <- c ;; k" := (bind c (λ p, let x := p in k))
  (at level 20, x pattern, c at level 59, k at level 200) : prog_scope.

(** ** The block device

    [vfs_read] and [vfs_write] on the inode of the device, at byte offsets; a
    buffer is a function from its offsets to bytes.  The laws are for whole
    sectors inside the device. *)
Definition SECTOR : Z := 512.
Class BlockDevice (D : Type) := {
  dev_read : Z → Z → Z → mem → M D (Z * mem);
  dev_write : Z → Z → Z → mem → M D Z;
  dev_ok : D → Z → Prop;
  dev_size : D → Z → Z;
  dev_byte : D → Z → Z → Z;
  dev_read_ok : ∀ d a off n buf, dev_ok d a → 0 <= off → 0 < n → off mod SECTOR = 0 → n mod SECTOR = 0 → off + n <= dev_size d a →
    ∃ buf' d', dev_read a off n buf d = Done ((n, buf'), d') ∧ dev_ok d' a ∧ dev_size d' a = dev_size d a ∧
      (∀ x, dev_byte d' a x = dev_byte d a x) ∧ ∀ x, buf' x = if decide (0 <= x < n) then dev_byte d a (off + x) else buf x;
  dev_write_ok : ∀ d a off n buf, dev_ok d a → 0 <= off → 0 < n → off mod SECTOR = 0 → n mod SECTOR = 0 → off + n <= dev_size d a →
    ∃ d', dev_write a off n buf d = Done (n, d') ∧ dev_ok d' a ∧ dev_size d' a = dev_size d a ∧
      ∀ x, dev_byte d' a x = if decide (off <= x < off + n) then buf (x - off) else dev_byte d a x;
}.

(** [fat32_fs_t]; the mutex and the cache of the table are never used. *)
Record fat32_fs := mk_fat32_fs {
  fs_device : Z;
  fs_sectors_per_cluster : Z;
  fs_bytes_per_cluster : Z;
  fs_fat_begin_lba : Z;
  fs_cluster_begin_lba : Z;
  fs_root_cluster : Z;
  fs_total_clusters : Z;
}.
(** [fat32_file_t]; the file system it points to does not change after the mount. *)
Record fat32_file := mk_fat32_file {
  ff_fs : fat32_fs;
  ff_first_cluster : Z;
  ff_parent_cluster : Z;
  ff_dir_entry_cluster : Z;
  ff_dir_entry_offset : Z;
}.
Definition set_ff_first_cluster v f := mk_fat32_file (ff_fs f) v (ff_parent_cluster f) (ff_dir_entry_cluster f) (ff_dir_entry_offset f).
Definition set_in_info v n := mk_inode (in_name n) (in_flags n) (in_uid n) (in_gid n) (in_mode n) (in_size n)
  (in_id n) (in_nlink n) (in_ops n) (in_ptr n) (in_ref_count n) (in_mount_point n) (in_parent n) v.
Definition set_ii_atime v i := mk_inode_info (ii_dev i) (ii_rdev i) (ii_blksize i) (ii_blocks i) v (ii_ctime i) (ii_mtime i).
Definition set_ii_mtime v i := mk_inode_info (ii_dev i) (ii_rdev i) (ii_blksize i) (ii_blocks i) (ii_atime i) (ii_ctime i) v.
Definition set_ii_blocks v i := mk_inode_info (ii_dev i) (ii_rdev i) (ii_blksize i) v (ii_atime i) (ii_ctime i) (ii_mtime i).
Definition upd_info (f : inode_info → inode_info) (n : inode) : inode := set_in_info (f (in_info n)) n.

(** [memset] and [memcpy] on the buffers of the file system. *)
Definition fill (m : mem) (v n : Z) : mem := λ x, if decide (0 <= x < n) then v else m x.
Definition copy (dst : mem) (d : Z) (src : mem) (s n : Z) : mem :=
  λ x, if decide (d <= x < d + n) then src (s + (x - d)) else dst x.

Section fat.
Context {D : Type} `{!BlockDevice D}.

(** The state: the device, the inodes and private data of the file system by
    their addresses, the buffers that [kmalloc] will give ([None] for a failed
    call) and the addresses of its objects, and the seconds of the clock. *)
Record fatst := mk_fatst {
  ft_dev : D;
  ft_nodes : gmap Z inode;
  ft_files : gmap Z fat32_file;
  ft_bufs : list (option mem);
  ft_objs : list Z;
  ft_clock : Z;
}.
Definition set_ft_dev v s := mk_fatst v (ft_nodes s) (ft_files s) (ft_bufs s) (ft_objs s) (ft_clock s).
Definition set_ft_nodes v s := mk_fatst (ft_dev s) v (ft_files s) (ft_bufs s) (ft_objs s) (ft_clock s).
Definition set_ft_files v s := mk_fatst (ft_dev s) (ft_nodes s) v (ft_bufs s) (ft_objs s) (ft_clock s).
Definition set_ft_bufs v s := mk_fatst (ft_dev s) (ft_nodes s) (ft_files s) v (ft_objs s) (ft_clock s).
Definition set_ft_objs v s := mk_fatst (ft_dev s) (ft_nodes s) (ft_files s) (ft_bufs s) v (ft_clock s).

Definition on_dev {A} (m : M D A) : M fatst A := zoom ft_dev set_ft_dev m.
Definition get_node (a : Z) : M fatst inode := λ s, of_opt (ft_nodes s !! a) s.
Definition mod_node (a : Z) (f : inode → inode) : M fatst unit :=
  n <- get_node a;; modify (λ s, set_ft_nodes (<[a := f n]> (ft_nodes s)) s).
Definition get_ff (a : Z) : M fatst fat32_file := λ s, of_opt (ft_files s !! a) s.
Definition mod_ff (a : Z) (f : fat32_file → fat32_file) : M fatst unit :=
  n <- get_ff a;; modify (λ s, set_ft_files (<[a := f n]> (ft_files s)) s).
Definition kmalloc_buf : M fatst (option mem) := λ s,
  match ft_bufs s with
  | [] => Done (None, s)
  | b :: l => Done (b, set_ft_bufs l s)
  end.
Definition kmalloc_obj : M fatst Z := λ s,
  match ft_objs s with
  | [] => Done (0, s)
  | a :: l => Done (a, set_ft_objs l s)
  end.

(** The contents of a local array before its first assignment. *)
Variable uninit : mem.

(** ** Clusters and the allocation table *)

Definition cluster_lba (fs : fat32_fs) (cluster : Z) : Z :=
  u32 (fs_cluster_begin_lba fs + u32 ((cluster - 2) * fs_sectors_per_cluster fs)).
Definition read_cluster (fs : fat32_fs) (cluster : Z) (buffer : mem) : M fatst (Z * mem) :=
  if cluster <? 2 then ret (-1, buffer)
  else
    '(r, buffer) <- on_dev (dev_read (fs_device fs) (u32 (cluster_lba fs cluster * 512)) (fs_bytes_per_cluster fs) buffer);;
    ret (i32 r, buffer).
Definition write_cluster (fs : fat32_fs) (cluster : Z) (buffer : mem) : M fatst Z :=
  if cluster <? 2 then ret (-1)
  else
    r <- on_dev (dev_write (fs_device fs) (u32 (cluster_lba fs cluster * 512)) (fs_bytes_per_cluster fs) buffer);;
    ret (i32 r).

(** The offset of the sector of the table with the entry of [cluster], and the
    offset of the entry in it. *)
Definition fat_sector_off (fs : fat32_fs) (cluster : Z) : Z := u32 (u32 (fs_fat_begin_lba fs + u32 (cluster * 4) / 512) * 512).
Definition ent_offset (cluster : Z) : Z := u32 (cluster * 4) mod 512.
Definition get_next_cluster (fs : fat32_fs) (current_cluster : Z) : M fatst Z :=
  '(_, sector_buf) <- on_dev (dev_read (fs_device fs) (fat_sector_off fs current_cluster) 512 uninit);;
  ret (Z.land (load32 sector_buf (ent_offset current_cluster)) 0x0FFFFFFF).
Definition set_cluster_value (fs : fat32_fs) (cluster value : Z) : M fatst unit :=
  '(_, sector_buf) <- on_dev (dev_read (fs_device fs) (fat_sector_off fs cluster) 512 uninit);;
  let e := load32 sector_buf (ent_offset cluster) in
  let sector_buf := store32 sector_buf (ent_offset cluster) (Z.lor (Z.land e 0xF0000000) (Z.land value 0x0FFFFFFF)) in
  on_dev (dev_write (fs_device fs) (fat_sector_off fs cluster) 512 sector_buf);;;
  ret tt.

(** The first free entry of a sector, the [n] entries from [i]; 0 for none. *)
Fixpoint free_in_sector (n : nat) (sector_buf : mem) (sector i : Z) : Z :=
  match n with
  | O => 0
  | S n' =>
      let cluster := u32 (u32 (sector * 128) + i) in
      if cluster <? 2 then free_in_sector n' sector_buf sector (i + 1)
      else if Z.land (load32 sector_buf (i * 4)) 0x0FFFFFFF =? 0 then cluster
      else free_in_sector n' sector_buf sector (i + 1)
  end.
Fixpoint free_in_table (n : nat) (fs : fat32_fs) (sector : Z) (sector_buf : mem) : M fatst Z :=
  match n with
  | O => ret 0
  | S n' =>
      '(_, sector_buf) <- on_dev (dev_read (fs_device fs) (u32 (u32 (fs_fat_begin_lba fs + sector) * 512)) 512 sector_buf);;
      let cluster := free_in_sector 128 sector_buf sector 0 in
      if cluster =? 0 then free_in_table n' fs (sector + 1) sector_buf else ret cluster
  end.
Definition fat_sectors (fs : fat32_fs) : Z := u32 (u32 (fs_total_clusters fs * 4) + 511) / 512.
Definition find_free_cluster (fs : fat32_fs) : M fatst Z :=
  free_in_table (Z.to_nat (fat_sectors fs)) fs 0 uninit.

Definition allocate_cluster (fs : fat32_fs) (prev_cluster : Z) : M fatst Z :=
  new_cluster <- find_free_cluster fs;;
  if new_cluster =? 0 then ret 0
  else
    set_cluster_value fs new_cluster FAT_EOC;;;
    (if 2 <=? prev_cluster then set_cluster_value fs prev_cluster new_cluster else ret tt);;;
    o <- kmalloc_buf;;
    match o with
    | None => set_cluster_value fs new_cluster 0;;; ret 0
    | Some zero_buf =>
        write_cluster fs new_cluster (fill zero_buf 0 (fs_bytes_per_cluster fs));;;
        ret new_cluster
    end.

(** ** Files *)

(** The clusters skipped before a read; [None] at the end of the chain. *)
Fixpoint skip_clusters (n : nat) (fs : fat32_fs) (cluster : Z) : M fatst (option Z) :=
  match n with
  | O => ret (Some cluster)
  | S n' =>
      cluster <- get_next_cluster fs cluster;;
      if FAT_EOC <=? cluster then ret None else skip_clusters n' fs cluster
  end.
(** Every pass copies a byte at least. *)
Fixpoint read_loop (fuel : nat) (fs : fat32_fs) (cluster chunk_offset size : Z) (cl_buf buffer : mem) (read : Z)
    : M fatst (Z * mem) :=
  match fuel with
  | O => faultM
  | S f =>
      if size <=? read then ret (read, buffer)
      else if FAT_EOC <=? cluster then ret (read, buffer)
      else
        '(_, cl_buf) <- read_cluster fs cluster cl_buf;;
        let to_copy := fs_bytes_per_cluster fs - chunk_offset in
        let to_copy := if size - read <? to_copy then size - read else to_copy in
        let buffer := copy buffer read cl_buf chunk_offset to_copy in
        cluster <- get_next_cluster fs cluster;;
        read_loop f fs cluster 0 size cl_buf buffer (read + to_copy)
  end.
Definition now_fat : M fatst (Z * Z) := gets (λ s, get_fat_now (ft_clock s)).
Definition unix_time (date time : Z) : M fatst Z := λ s, of_opt (fat_to_unix date time) s.

(** The access date in the directory entry. *)
Definition touch_access (fs : fat32_fs) (file : fat32_file) (now_date : Z) : M fatst unit :=
  if 2 <=? ff_dir_entry_cluster file then
    o <- kmalloc_buf;;
    match o with
    | None => ret tt
    | Some dir_buf =>
        '(_, dir_buf) <- read_cluster fs (ff_dir_entry_cluster file) dir_buf;;
        let dir_buf := store16 dir_buf (ff_dir_entry_offset file + 18) now_date in
        write_cluster fs (ff_dir_entry_cluster file) dir_buf;;;
        ret tt
    end
  else ret tt.
Definition fat32_read_file (node offset size : Z) (buffer : mem) : M fatst (Z * mem) :=
  n <- get_node node;;
  file <- get_ff (in_ptr n);;
  let fs := ff_fs file in
  if in_size n <=? offset then ret (0, buffer)
  else
    let size := if in_size n <? u64 (offset + size) then in_size n - offset else size in
    if size =? 0 then ret (0, buffer)
    else
      let cluster_size := fs_bytes_per_cluster fs in
      o <- skip_clusters (Z.to_nat (u32 (offset / cluster_size))) fs (ff_first_cluster file);;
      match o with
      | None => ret (0, buffer)
      | Some cluster =>
          o <- kmalloc_buf;;
          match o with
          | None => ret (0, buffer)
          | Some cl_buf =>
              '(read, buffer) <- read_loop (S (Z.to_nat size)) fs cluster (offset mod cluster_size) size cl_buf buffer 0;;
              '(now_date, now_time) <- now_fat;;
              t <- unix_time now_date now_time;;
              mod_node node (upd_info (set_ii_atime t));;;
              touch_access fs file now_date;;;
              ret (read, buffer)
          end
      end.

(** The cluster after [cluster], a new one after the last; [None] if there is
    none free.  A table with a 0 there gives the cluster 0. *)
Definition next_to_write (fs : fat32_fs) (cluster : Z) : M fatst (option Z) :=
  next <- get_next_cluster fs cluster;;
  if FAT_EOC <=? next then
    next <- allocate_cluster fs cluster;;
    ret (if next =? 0 then None else Some next)
  else ret (Some next).
Fixpoint skip_extend (n : nat) (fs : fat32_fs) (cluster : Z) : M fatst (option Z) :=
  match n with
  | O => ret (Some cluster)
  | S n' =>
      o <- next_to_write fs cluster;;
      match o with
      | None => ret None
      | Some next => skip_extend n' fs next
      end
  end.
Fixpoint write_loop (fuel : nat) (fs : fat32_fs) (cluster chunk_offset size : Z) (cl_buf buffer : mem) (written : Z)
    : M fatst Z :=
  match fuel with
  | O => faultM
  | S f =>
      if size <=? written then ret written
      else
        '(_, cl_buf) <- read_cluster fs cluster cl_buf;;
        let to_write := fs_bytes_per_cluster fs - chunk_offset in
        let to_write := if size - written <? to_write then size - written else to_write in
        let cl_buf := copy cl_buf chunk_offset buffer written to_write in
        write_cluster fs cluster cl_buf;;;
        let written := written + to_write in
        if written <? size then
          o <- next_to_write fs cluster;;
          match o with
          | None => ret written
          | Some next => write_loop f fs next 0 size cl_buf buffer written
          end
        else write_loop f fs cluster 0 size cl_buf buffer written
  end.

(** The directory entry after a write. *)
Definition update_entry (fs : fat32_fs) (node : Z) (file : fat32_file) : M fatst unit :=
  if 2 <=? ff_dir_entry_cluster file then
    o <- kmalloc_buf;;
    match o with
    | None => ret tt
    | Some dir_buf =>
        '(_, dir_buf) <- read_cluster fs (ff_dir_entry_cluster file) dir_buf;;
        n <- get_node node;;
        let e := ff_dir_entry_offset file in
        let dir_buf := store32 dir_buf (e + 28) (in_size n) in
        let dir_buf := store16 dir_buf (e + 26) (Z.land (ff_first_cluster file) 0xFFFF) in
        let dir_buf := store16 dir_buf (e + 20) (Z.land (Z.shiftr (ff_first_cluster file) 16) 0xFFFF) in
        '(now_date, now_time) <- now_fat;;
        let dir_buf := store16 dir_buf (e + 24) now_date in
        let dir_buf := store16 dir_buf (e + 22) now_time in
        let dir_buf := store16 dir_buf (e + 18) now_date in
        t <- unix_time now_date now_time;;
        mod_node node (upd_info (set_ii_mtime t));;;
        mod_node node (upd_info (set_ii_atime t));;;
        write_cluster fs (ff_dir_entry_cluster file) dir_buf;;;
        ret tt
    end
  else ret tt.

(** The first cluster of the file at [ptr], allocated if there is none; 0 if
    there is none free. *)
Definition first_cluster (fs : fat32_fs) (file : fat32_file) (ptr : Z) : M fatst Z :=
  if ff_first_cluster file <? 2 then
    cluster <- allocate_cluster fs 0;;
    (if cluster =? 0 then ret tt else mod_ff ptr (set_ff_first_cluster cluster));;;
    ret cluster
  else ret (ff_first_cluster file).
Definition fat32_write_file (node offset size : Z) (buffer : mem) : M fatst Z :=
  n <- get_node node;;
  file <- get_ff (in_ptr n);;
  let fs := ff_fs file in
  if size =? 0 then ret 0
  else
    let cluster_size := fs_bytes_per_cluster fs in
    cluster <- first_cluster fs file (in_ptr n);;
    if cluster =? 0 then ret 0
    else
      o <- skip_extend (Z.to_nat (u32 (offset / cluster_size))) fs cluster;;
      match o with
      | None => ret 0
      | Some cluster =>
          o <- kmalloc_buf;;
          match o with
          | None => ret 0
          | Some cl_buf =>
              written <- write_loop (S (Z.to_nat size)) fs cluster (offset mod cluster_size) size cl_buf buffer 0;;
              (if in_size n <? u64 (offset + written) then
                 mod_node node (λ n, let n := set_in_size (u64 (offset + written)) n in
                   upd_info (set_ii_blocks (u64 (in_size n + 511) / 512)) n)
               else ret tt);;;
              file <- get_ff (in_ptr n);;
              update_entry fs node file;;;
              ret written
          end
      end.

(** ** The disk as a table and clusters *)

Implicit Types (s : fatst) (d : D) (fs : fat32_fs) (T : Z → Z) (C : Z → Z → Z).

Definition valid fs (c : Z) : Prop := 2 <= c < fs_total_clusters fs + 2.
Definition fat_pos fs (c : Z) : Z := 512 * fs_fat_begin_lba fs + 4 * c.
Definition cluster_pos fs (c : Z) : Z := 512 * fs_cluster_begin_lba fs + (c - 2) * fs_bytes_per_cluster fs.
(** The entries in the sectors of the table, and those that are searched. *)
Definition table_end fs : Z := 128 * ((4 * (fs_total_clusters fs + 2) + 511) / 512).
Definition search_end fs : Z := 128 * ((4 * fs_total_clusters fs + 511) / 512).

(** The parts of the file system fit on the device, in order, below 4 GiB. *)
Record geometry fs (size : Z) : Prop := mk_geometry {
  ge_spc : 0 < fs_sectors_per_cluster fs;
  ge_bpc : fs_bytes_per_cluster fs = 512 * fs_sectors_per_cluster fs;
  ge_small : fs_bytes_per_cluster fs < 2 ^ 31;
  ge_fat : 0 <= fs_fat_begin_lba fs;
  ge_total : 0 <= fs_total_clusters fs ∧ fs_total_clusters fs + 2 <= FAT_EOC;
  ge_table : 512 * fs_fat_begin_lba fs + 4 * table_end fs <= 512 * fs_cluster_begin_lba fs;
  ge_data : 512 * fs_cluster_begin_lba fs + fs_total_clusters fs * fs_bytes_per_cluster fs <= size;
  ge_wrap : size < 2 ^ 32;
}.
(** The device holds the table [T] and the clusters [C]. *)
Record disk_is d fs T C : Prop := mk_disk_is {
  di_dev : dev_ok d (fs_device fs);
  di_geom : geometry fs (dev_size d (fs_device fs));
  di_table : ∀ c, 0 <= c < table_end fs → Z.land (load32 (dev_byte d (fs_device fs)) (fat_pos fs c)) 0x0FFFFFFF = T c;
  di_data : ∀ c o, valid fs c → 0 <= o < fs_bytes_per_cluster fs → dev_byte d (fs_device fs) (cluster_pos fs c + o) = C c o;
}.

Lemma table_end_valid fs c : valid fs c → 0 <= c < table_end fs.
Proof. unfold valid, table_end. zlia. Qed.
Lemma search_end_table fs : 0 <= fs_total_clusters fs → search_end fs <= table_end fs.
Proof. unfold search_end, table_end. zlia. Qed.

Lemma on_dev_runs {A} (m : M D A) s (P : A → D → Prop) a d' : m (ft_dev s) = Done (a, d') → P a d' →
  runs_to (on_dev m) s (λ a s', ∃ d', s' = set_ft_dev d' s ∧ P a d').
Proof. intros Hm HP. unfold runs_to, on_dev, zoom. rewrite Hm. by exists d'. Qed.

Lemma load_le_move (m1 m2 : mem) n : ∀ a1 a2, (∀ i, 0 <= i < Z.of_nat n → m1 (a1 + i) = m2 (a2 + i)) → load_le m1 a1 n = load_le m2 a2 n.
Proof.
  induction n as [|n IH]; intros a1 a2 H; simpl; [done|].
  rewrite <- (Z.add_0_r a1), <- (Z.add_0_r a2), (H 0) by lia. rewrite (IH (a1 + 0 + 1) (a2 + 0 + 1)); [done|].
  intros i Hi. rewrite !Z.add_0_r, <- !Z.add_assoc. apply H. lia.
Qed.
(** The sector with an entry of the table. *)
Lemma fat_sector_off_eq fs size c : geometry fs size → 0 <= c < table_end fs →
  fat_sector_off fs c = 512 * (fs_fat_begin_lba fs + c / 128) ∧ ent_offset c = 4 * (c mod 128) ∧
  0 <= fat_sector_off fs c ∧ fat_sector_off fs c + 512 <= size ∧ fat_sector_off fs c mod 512 = 0 ∧
  fat_pos fs c = fat_sector_off fs c + ent_offset c.
Proof.
  intros [? ? ? ? ? ? Hd Hw] Hc. unfold fat_sector_off, ent_offset, fat_pos, cluster_pos, table_end, FAT_EOC in *.
  set (X := (4 * (fs_total_clusters fs + 2) + 511) / 512) in *.
  assert (Hx : c / 128 < X) by (apply Z.div_lt_upper_bound; lia).
  assert (0 <= fs_total_clusters fs * fs_bytes_per_cluster fs) by nia.
  rewrite (u32_id (c * 4)) by (subst X; zlia). assert (c * 4 / 512 = c / 128) as -> by zlia.
  assert (0 <= c / 128) by zlia. rewrite (u32_id (fs_fat_begin_lba fs + c / 128)), u32_id by lia. split_and!; zlia.
Qed.
Lemma read_sector_runs s fs T C c buf : disk_is (ft_dev s) fs T C → 0 <= c < table_end fs →
  runs_to (on_dev (dev_read (fs_device fs) (fat_sector_off fs c) 512 buf)) s (λ rb s', ∃ d', s' = set_ft_dev d' s ∧
    disk_is d' fs T C ∧ (∀ x, dev_byte d' (fs_device fs) x = dev_byte (ft_dev s) (fs_device fs) x) ∧
    ∀ x, 0 <= x < 512 → rb.2 x = dev_byte (ft_dev s) (fs_device fs) (fat_sector_off fs c + x)).
Proof.
  intros [Hdev Hg Ht Hd] Hc. destruct (fat_sector_off_eq fs _ c Hg Hc) as (_ & _ & H0 & H1 & Hm & _).
  destruct (dev_read_ok (ft_dev s) (fs_device fs) (fat_sector_off fs c) 512 buf Hdev H0 ltac:(lia) Hm ltac:(done) H1)
    as (buf' & d' & Hrun & Hok & Hsz & Hb & Hbuf).
  eapply on_dev_runs; [exact Hrun|]. split; [|split; [done|]].
  - split; [done|by rewrite Hsz| |].
    + intros x Hx. rewrite <- Ht by done. f_equal. apply load_le_ext. intros. apply Hb.
    + intros x o Hx Ho. rewrite Hb. by apply Hd.
  - intros x Hx. simpl. by rewrite Hbuf, decide_True.
Qed.

Lemma get_next_cluster_runs s fs T C c : disk_is (ft_dev s) fs T C → 0 <= c < table_end fs →
  runs_to (get_next_cluster fs c) s (λ next s', next = T c ∧ ∃ d', s' = set_ft_dev d' s ∧ disk_is d' fs T C).
Proof.
  intros Hd Hc. unfold get_next_cluster. rstep (read_sector_runs s fs T C c uninit Hd Hc).
  intros [r buf] s' (d' & -> & Hd' & _ & Hbuf). simpl in Hbuf. apply runs_ret. split; [|by exists d'].
  rewrite <- (di_table _ _ _ _ Hd c Hc). f_equal. destruct (fat_sector_off_eq fs _ c (di_geom _ _ _ _ Hd) Hc) as (_ & He & _ & _ & _ & ->).
  apply load_le_move. intros i Hi. rewrite <- Z.add_assoc. apply Hbuf. rewrite He. zlia.
Qed.

(** [set_cluster_value] changes one entry. *)
Lemma entry_value e v : Z.land (Z.lor (Z.land e 0xF0000000) (Z.land v 0x0FFFFFFF) mod 256 ^ Z.of_nat 4) 0x0FFFFFFF = Z.land v 0x0FFFFFFF.
Proof.
  change (256 ^ Z.of_nat 4) with (2 ^ 32). rewrite <- Z.land_ones, <- Z.land_assoc by lia.
  change (Z.land (Z.ones 32) 0x0FFFFFFF) with 0x0FFFFFFF. rewrite Z.land_lor_distr_l, <- !Z.land_assoc.
  change (Z.land 0xF0000000 0x0FFFFFFF) with 0. change (Z.land 0x0FFFFFFF 0x0FFFFFFF) with 0x0FFFFFFF. by rewrite Z.land_0_r, Z.lor_0_l.
Qed.
Lemma set_cluster_value_runs s fs T C c v : disk_is (ft_dev s) fs T C → 0 <= c < table_end fs →
  runs_to (set_cluster_value fs c v) s (λ _ s', ∃ d', s' = set_ft_dev d' s ∧ disk_is d' fs (<[c := Z.land v 0x0FFFFFFF]> T) C).
Proof.
  intros Hd Hc. unfold set_cluster_value. rstep (read_sector_runs s fs T C c uninit Hd Hc).
  intros [r sec] s1 (d1 & -> & Hd1 & Hb1 & Hsec). simpl in Hsec. cbv beta iota zeta. set (a := fs_device fs) in *.
  pose proof Hd1 as [Hdev Hg Ht Hdat]. destruct (fat_sector_off_eq fs _ c Hg Hc) as (_ & He & H0 & H1 & Hm & Hpos).
  set (off := fat_sector_off fs c) in *. set (ent := ent_offset c) in *. set (w := Z.lor _ _).
  destruct (dev_write_ok d1 a off 512 (store32 sec ent w) Hdev H0 ltac:(lia) Hm ltac:(done) H1) as (d2 & Hrun & Hok & Hsz & Hb2).
  apply runs_bind. eapply runs_mono; [eapply (on_dev_runs _ (set_ft_dev d1 s) (λ _ d', d' = d2)); [exact Hrun|done]|].
  intros ? ? (d' & -> & ->). apply runs_ret. exists d2. split; [done|].
  assert (Hout : ∀ x, ¬ fat_pos fs c <= x < fat_pos fs c + 4 → dev_byte d2 a x = dev_byte d1 a x).
  { intros x Hx. rewrite Hb2. case_decide as Hin; [|done]. unfold store32. rewrite store_le_out by lia.
    rewrite Hsec, Hb1 by lia. f_equal. lia. }
  split; [done|by fold a; rewrite Hsz| |].
  - intros x Hx. destruct (decide (x = c)) as [->|Hne].
    + rewrite fn_lookup_insert, <- (entry_value (load32 sec ent) v). f_equal. fold w. unfold load32.
      rewrite <- (load_store_le sec ent 4 w). apply load_le_move. intros i Hi. fold a. rewrite Hb2, decide_True by (rewrite Hpos, He; zlia).
      unfold store32. f_equal. lia.
    + rewrite fn_lookup_insert_ne, <- Ht by done. f_equal. apply load_le_ext. intros y Hy. apply Hout. unfold fat_pos in *. lia.
  - intros x o Hx Ho. rewrite <- (Hdat x o Hx Ho). apply Hout. destruct Hg as [? ? ? ? ? Htab _ _]. unfold cluster_pos, fat_pos, valid in *. nia.
Qed.

Lemma cluster_pos_eq fs size c : geometry fs size → valid fs c →
  u32 (cluster_lba fs c * 512) = cluster_pos fs c ∧ 512 * fs_cluster_begin_lba fs <= cluster_pos fs c ∧
  0 <= cluster_pos fs c ∧ cluster_pos fs c mod 512 = 0 ∧ cluster_pos fs c + fs_bytes_per_cluster fs <= size.
Proof.
  intros [? Hb ? ? ? Htab Hd Hw] Hc. unfold cluster_lba, cluster_pos, valid, table_end in *.
  assert (0 <= (4 * (fs_total_clusters fs + 2) + 511) / 512) by zlia.
  assert (Hk : 0 <= (c - 2) * fs_sectors_per_cluster fs ∧ (c - 1) * fs_bytes_per_cluster fs <= fs_total_clusters fs * fs_bytes_per_cluster fs) by nia.
  rewrite Hb in *. set (spc := fs_sectors_per_cluster fs) in *.
  assert (Hk2 : (c - 1) * (512 * spc) = 512 * ((c - 2) * spc) + 512 * spc) by ring.
  replace ((c - 2) * (512 * spc)) with (512 * ((c - 2) * spc)) by ring. set (k := (c - 2) * spc) in *.
  rewrite (u32_id k), (u32_id (_ + k)), u32_id by lia. split_and!; zlia.
Qed.
Lemma cluster_apart fs size c c' o o' : geometry fs size → valid fs c → valid fs c' → 0 <= o < fs_bytes_per_cluster fs →
  0 <= o' < fs_bytes_per_cluster fs → cluster_pos fs c + o = cluster_pos fs c' + o' → c = c' ∧ o = o'.
Proof.
  intros Hg Hc Hc' Ho Ho' Heq. unfold cluster_pos in Heq.
  destruct (Z.div_mod_unique (fs_bytes_per_cluster fs) (c - 2) (c' - 2) o o'); lia.
Qed.
Lemma bpc_512 fs size : geometry fs size → 0 < fs_bytes_per_cluster fs ∧ fs_bytes_per_cluster fs mod 512 = 0.
Proof. intros [? -> ? ? ? ? ? ?]. split; [lia|]. rewrite Z.mul_comm. apply Z.mod_mul. lia. Qed.
Lemma read_cluster_runs s fs T C c buf : disk_is (ft_dev s) fs T C → valid fs c →
  runs_to (read_cluster fs c buf) s (λ rb s', ∃ d', s' = set_ft_dev d' s ∧ disk_is d' fs T C ∧
    rb.1 = fs_bytes_per_cluster fs ∧ ∀ x, rb.2 x = if decide (0 <= x < fs_bytes_per_cluster fs) then C c x else buf x).
Proof.
  intros [Hdev Hg Ht Hd] Hc. destruct (cluster_pos_eq fs _ c Hg Hc) as (Heq & _ & H0 & Hm & H1). destruct (bpc_512 fs _ Hg) as [Hb0 Hbm].
  unfold read_cluster. rewrite (proj2 (Z.ltb_ge _ _)), Heq by (unfold valid in Hc; lia).
  destruct (dev_read_ok (ft_dev s) (fs_device fs) (cluster_pos fs c) (fs_bytes_per_cluster fs) buf Hdev H0 Hb0 Hm Hbm H1)
    as (buf' & d' & Hrun & Hok & Hsz & Hb & Hbuf).
  apply runs_bind. eapply runs_mono; [eapply (on_dev_runs _ s (λ rb d2, rb = (fs_bytes_per_cluster fs, buf') ∧ d2 = d')); [exact Hrun|done]|].
  intros ? ? (? & -> & -> & ->). apply runs_ret. exists d'. split; [done|]. split; [|split].
  - split; [done|by rewrite Hsz| |].
    + intros x Hx. rewrite <- Ht by done. f_equal. apply load_le_ext. intros. apply Hb.
    + intros x o Hx Ho. rewrite Hb. by apply Hd.
  - simpl. apply i32_id. pose proof (ge_small _ _ Hg). lia.
  - intros x. simpl. rewrite Hbuf. case_decide; [|done]. by apply Hd.
Qed.
Lemma write_cluster_runs s fs T C c buf : disk_is (ft_dev s) fs T C → valid fs c →
  runs_to (write_cluster fs c buf) s (λ _ s', ∃ d', s' = set_ft_dev d' s ∧ disk_is d' fs T (<[c := buf]> C)).
Proof.
  intros [Hdev Hg Ht Hd] Hc. destruct (cluster_pos_eq fs _ c Hg Hc) as (Heq & Hlow & H0 & Hm & H1). destruct (bpc_512 fs _ Hg) as [Hb0 Hbm].
  unfold write_cluster. rewrite (proj2 (Z.ltb_ge _ _)), Heq by (unfold valid in Hc; lia).
  destruct (dev_write_ok (ft_dev s) (fs_device fs) (cluster_pos fs c) (fs_bytes_per_cluster fs) buf Hdev H0 Hb0 Hm Hbm H1)
    as (d' & Hrun & Hok & Hsz & Hb).
  apply runs_bind. eapply runs_mono; [eapply (on_dev_runs _ s (λ _ d2, d2 = d')); [exact Hrun|done]|].
  intros ? ? (? & -> & ->). apply runs_ret. exists d'. split; [done|]. split; [done|by rewrite Hsz| |].
  - intros x Hx. rewrite <- Ht by done. f_equal. apply load_le_ext. intros y Hy. rewrite Hb, decide_False; [done|].
    pose proof (ge_table _ _ Hg). unfold fat_pos in Hy. lia.
  - intros x o Hx Ho. rewrite Hb. destruct (decide (x = c)) as [->|Hne].
    + rewrite fn_lookup_insert, decide_True by lia. f_equal. lia.
    + rewrite fn_lookup_insert_ne by done. rewrite decide_False; [by apply Hd|]. intros Hin.
      destruct (cluster_apart fs _ x c o (cluster_pos fs x + o - cluster_pos fs c) Hg Hx Hc); lia.
Qed.

Lemma disk_is_ext d fs T T' C C' : disk_is d fs T C → (∀ c, 0 <= c < table_end fs → T' c = T c) →
  (∀ c o, valid fs c → 0 <= o < fs_bytes_per_cluster fs → C' c o = C c o) → disk_is d fs T' C'.
Proof.
  intros [? ? Ht Hd] HT HC. split; [done|done| |].
  - intros c Hc. rewrite HT by done. by apply Ht.
  - intros c o Hc Ho. rewrite HC by done. by apply Hd.
Qed.

(** ** Allocation *)

(** The free entries, in the order of the search. *)
Definition free_list fs T : list Z := filter (λ c, 2 <= c ∧ T c = 0) (seqZ 0 (search_end fs)).
Lemma free_in_sector_ok T sector n : ∀ i buf, 0 <= i → i + Z.of_nat n <= 128 → 0 <= sector < 2 ^ 21 →
  (∀ j, 0 <= j < 128 → Z.land (load32 buf (j * 4)) 0x0FFFFFFF = T (128 * sector + j)) →
  free_in_sector n buf sector i = hdZ 0 (filter (λ c, 2 <= c ∧ T c = 0) (seqZ (128 * sector + i) (Z.of_nat n))).
Proof.
  induction n as [|n IH]; intros i buf Hi Hn Hs Hbuf; [done|]. cbn [free_in_sector].
  rewrite Nat2Z.inj_succ, seqZ_cons, Z.pred_succ, filter_cons by lia. rewrite (u32_id (sector * 128)), u32_id by lia. cbv zeta.
  replace (Z.succ (128 * sector + i)) with (128 * sector + (i + 1)) by lia. replace (sector * 128 + i) with (128 * sector + i) by lia.
  rewrite Hbuf by lia. destruct (Z.ltb_spec (128 * sector + i) 2).
  - rewrite decide_False by lia. apply IH; (done || lia).
  - destruct (Z.eqb_spec (T (128 * sector + i)) 0); [by rewrite decide_True by lia|].
    rewrite decide_False by lia. apply IH; (done || lia).
Qed.
Lemma hdZ_filter_app (P : Z → Prop) `{!∀ x, Decision (P x)} l1 l2 : (∀ x, P x → x ≠ 0) →
  hdZ 0 (filter P (l1 ++ l2)) = if hdZ 0 (filter P l1) =? 0 then hdZ 0 (filter P l2) else hdZ 0 (filter P l1).
Proof.
  intros HP. rewrite filter_app. destruct (filter P l1) as [|x l] eqn:He; [done|]. cbn [hdZ app].
  assert (x ∈ filter P l1) as [Hx _]%list_elem_of_filter by (rewrite He; left). rewrite (proj2 (Z.eqb_neq _ _)); auto.
Qed.
Lemma free_in_table_runs fs T C n : ∀ sector s buf, disk_is (ft_dev s) fs T C → 0 <= sector →
  128 * (sector + Z.of_nat n) <= table_end fs →
  runs_to (free_in_table n fs sector buf) s (λ c s', ∃ d', s' = set_ft_dev d' s ∧ disk_is d' fs T C ∧
    c = hdZ 0 (filter (λ c, 2 <= c ∧ T c = 0) (seqZ (128 * sector) (128 * Z.of_nat n)))).
Proof.
  induction n as [|n IH]; intros sector s buf Hd Hs Hn.
  { apply runs_ret. exists (ft_dev s). split; [by destruct s|]. done. }
  cbn [free_in_table]. pose proof (di_geom _ _ _ _ Hd) as Hg. pose proof (ge_total _ _ Hg). unfold FAT_EOC in *.
  assert (Hc : 0 <= 128 * sector < table_end fs) by lia.
  destruct (fat_sector_off_eq fs _ (128 * sector) Hg Hc) as (Hoff & _ & _ & _ & _ & Hpos).
  assert (Hoff' : u32 (u32 (fs_fat_begin_lba fs + sector) * 512) = fat_sector_off fs (128 * sector)).
  { unfold fat_sector_off. do 3 f_equal. rewrite u32_id by (unfold table_end in *; zlia). zlia. }
  rewrite Hoff'. rstep (read_sector_runs s fs T C (128 * sector) buf Hd Hc).
  intros [r sec] s1 (d1 & -> & Hd1 & _ & Hsec). simpl in Hsec. cbv beta iota zeta.
  rewrite (free_in_sector_ok T sector 128 0) by
    first [lia|unfold table_end in *; zlia|intros j Hj; rewrite <- (di_table _ _ _ _ Hd) by lia; f_equal; apply load_le_move;
      intros i Hi; rewrite Hsec by lia; f_equal; rewrite Hoff; unfold fat_pos; zlia].
  replace (128 * Z.of_nat (S n)) with (128 + 128 * Z.of_nat n) by lia. rewrite seqZ_app, hdZ_filter_app by (done || lia).
  rewrite Z.add_0_r. change (Z.of_nat 128) with 128. case_match.
  - eapply runs_mono; [eapply (IH (sector + 1)); [exact Hd1|lia|lia]|]. intros c s' (d2 & -> & Hd2 & ->). exists d2.
    split; [done|]. split; [done|]. do 3 f_equal. lia.
  - apply runs_ret. by exists d1.
Qed.
Lemma find_free_cluster_runs s fs T C : disk_is (ft_dev s) fs T C →
  runs_to (find_free_cluster fs) s (λ c s', ∃ d', s' = set_ft_dev d' s ∧ disk_is d' fs T C ∧ c = hdZ 0 (free_list fs T)).
Proof.
  intros Hd. unfold find_free_cluster, free_list. pose proof (ge_total _ _ (di_geom _ _ _ _ Hd)) as Ht. unfold FAT_EOC in Ht.
  assert (Hf : 128 * fat_sectors fs = search_end fs).
  { unfold fat_sectors, search_end. rewrite (u32_id (_ * 4)), u32_id by lia. do 3 f_equal. lia. }
  pose proof (search_end_table fs ltac:(lia)). assert (0 <= fat_sectors fs) by (unfold search_end in *; zlia).
  eapply runs_mono; [eapply (free_in_table_runs fs T C); [exact Hd|lia|lia]|].
  intros c s' (d' & -> & Hd' & ->). exists d'. split; [done|]. split; [done|]. by rewrite Z2Nat.id, Z.mul_0_r, Hf by done.
Qed.

Lemma free_list_elem fs T c : c ∈ free_list fs T ↔ (2 <= c ∧ T c = 0) ∧ c < search_end fs.
Proof. unfold free_list. rewrite list_elem_of_filter, elem_of_seqZ. lia. Qed.
Lemma filter_tail (P Q : Z → Prop) `{!∀ x, Decision (P x)} `{!∀ x, Decision (Q x)} l c r : NoDup l → filter P l = c :: r →
  (∀ x, Q x ↔ P x ∧ x ≠ c) → filter Q l = r.
Proof.
  intros Hnd Hf HQ. rewrite (list_filter_iff _ (λ x, x ≠ c ∧ P x)).
  - rewrite <- list_filter_filter, Hf, filter_cons. rewrite decide_False by naive_solver.
    assert (Hc : c ∉ r) by (assert (NoDup (c :: r)) as Hcr by (rewrite <- Hf; by apply NoDup_filter); by apply NoDup_cons in Hcr as [? _]).
    clear -Hc. induction r as [|x r IH]; [done|]. rewrite filter_cons. apply not_elem_of_cons in Hc as [? ?].
    rewrite decide_True by congruence. by rewrite IH.
  - intros x. rewrite HQ. tauto.
Qed.
(** The table after an allocation. *)
Definition linked (T : Z → Z) (prev c : Z) : Z → Z :=
  if 2 <=? prev then <[prev := c]> (<[c := FAT_EOC]> T) else <[c := FAT_EOC]> T.
Lemma linked_at T prev c x : linked T prev c x = if decide (2 <= prev ∧ x = prev) then c else if decide (x = c) then FAT_EOC else T x.
Proof.
  unfold linked. destruct (Z.leb_spec 2 prev).
  - destruct (decide (x = prev)) as [->|]; [rewrite fn_lookup_insert, decide_True by done; done|].
    rewrite fn_lookup_insert_ne, decide_False by (done || lia). case_decide as Hc; [subst; by rewrite fn_lookup_insert|by rewrite fn_lookup_insert_ne].
  - rewrite decide_False by lia. case_decide as Hc; [subst; by rewrite fn_lookup_insert|by rewrite fn_lookup_insert_ne].
Qed.
Lemma free_list_linked fs T prev c r : free_list fs T = c :: r → (prev < 2 ∨ T prev ≠ 0) → free_list fs (linked T prev c) = r.
Proof.
  intros Hf Hprev. assert (c ∈ free_list fs T) as [[Hc HTc] _]%free_list_elem by (rewrite Hf; left).
  eapply filter_tail; [apply NoDup_seqZ|exact Hf|]. intros x. rewrite linked_at. unfold FAT_EOC. repeat case_decide; subst; naive_solver lia.
Qed.

(** The clusters that the search can find are clusters of the device. *)
Definition table_tight fs T : Prop := ∀ c, c ∈ free_list fs T → valid fs c.

Lemma link_runs s fs T C prev c r : disk_is (ft_dev s) fs T C → free_list fs T = c :: r → table_tight fs T →
  (prev < 2 ∨ valid fs prev) →
  runs_to (set_cluster_value fs c FAT_EOC;;; (if 2 <=? prev then set_cluster_value fs prev c else ret tt)) s
    (λ _ s', ∃ d', s' = set_ft_dev d' s ∧ disk_is d' fs (linked T prev c) C).
Proof.
  intros Hd Hf Htight Hprev. assert (Hc : valid fs c) by (apply Htight; rewrite Hf; left).
  pose proof (ge_total _ _ (di_geom _ _ _ _ Hd)) as Ht. unfold FAT_EOC in Ht.
  rstep (set_cluster_value_runs s fs T C c FAT_EOC Hd (table_end_valid fs c Hc)). intros _ s1 (d1 & -> & Hd1).
  change (Z.land FAT_EOC 0x0FFFFFFF) with FAT_EOC in Hd1. unfold linked. destruct (Z.leb_spec 2 prev); [|apply runs_ret; by exists d1].
  destruct Hprev as [|Hprev]; [lia|].
  eapply runs_mono; [eapply (set_cluster_value_runs (set_ft_dev d1 s)); [exact Hd1|by apply table_end_valid]|].
  intros _ s2 (d2 & -> & Hd2). exists d2. split; [done|]. replace (Z.land c 0x0FFFFFFF) with c in Hd2; [done|].
  change 0x0FFFFFFF with (2 ^ 28 - 1). rewrite land_ones_mod, Z.mod_small by (unfold valid in Hc; lia). done.
Qed.
(** [allocate_cluster] with a buffer for the zeros. *)
Lemma allocate_cluster_runs s fs T C prev b bufs : disk_is (ft_dev s) fs T C → table_tight fs T → (prev < 2 ∨ valid fs prev) →
  ft_bufs s = Some b :: bufs →
  runs_to (allocate_cluster fs prev) s (λ c s', c = hdZ 0 (free_list fs T) ∧
    if c =? 0 then ∃ d', s' = set_ft_dev d' s ∧ disk_is d' fs T C
    else ∃ d', s' = set_ft_dev d' (set_ft_bufs bufs s) ∧ disk_is d' fs (linked T prev c) (<[c := λ _, 0]> C)).
Proof.
  intros Hd Htight Hprev Hb. unfold allocate_cluster. rstep (find_free_cluster_runs s fs T C Hd).
  intros c s1 (d1 & -> & Hd1 & Hc). destruct (Z.eqb_spec c 0) as [->|Hc0].
  { apply runs_ret. split; [done|]. cbn [Z.eqb]. by exists d1. }
  destruct (free_list fs T) as [|c' r] eqn:Hf; [done|]. cbn [hdZ] in Hc. subst c'.
  assert (Hcv : valid fs c) by (apply Htight; rewrite Hf; left).
  pose proof (link_runs (set_ft_dev d1 s) fs T C prev c r Hd1 Hf Htight Hprev) as Hlink.
  destruct (runs_to_inv _ _ _ Hlink) as ([] & s2 & Hrun & d2 & -> & Hd2). clear Hlink.
  apply bind_inv in Hrun as ([] & s2' & Hr1 & Hr2).
  apply runs_bind; eapply runs_Done; [exact Hr1|]. apply runs_bind; eapply runs_Done; [exact Hr2|].
  apply runs_bind. eapply (runs_Done _ _ (Some b) (set_ft_dev d2 (set_ft_bufs bufs s))); [unfold kmalloc_buf; simpl; by rewrite Hb|].
  rstep (write_cluster_runs (set_ft_dev d2 (set_ft_bufs bufs s)) fs (linked T prev c) C c (fill b 0 (fs_bytes_per_cluster fs)) Hd2 Hcv).
  intros _ s3 (d3 & -> & Hd3). apply runs_ret. split; [done|]. rewrite (proj2 (Z.eqb_neq _ _)) by done. exists d3. split; [done|].
  eapply disk_is_ext; [exact Hd3|done|]. intros x o Hx Ho. destruct (decide (x = c)) as [->|].
  - rewrite !fn_lookup_insert. unfold fill. by rewrite decide_True.
  - by rewrite !fn_lookup_insert_ne.
Qed.
End fat.
