(* ===== verification/FatFile.v ===== *)
(** What reading and writing a file of a FAT32 file system do: the clusters of
    its chain, one after the other, are its contents. *)
From stdpp Require Import functions.
From S2P Require Export Fat.
Local Open Scope Z_scope.
Local Open Scope prog_scope.

Section chains.
Implicit Types (fs : fat32_fs) (T : Z → Z) (C : Z → Z → Z) (l : list Z).

(** ** Chains *)

(** The table links the clusters [l] from [c]. *)
Fixpoint fchain fs T (c : Z) l : Prop :=
  match l with
  | [] => FAT_EOC <= c
  | x :: l' => c = x ∧ valid fs x ∧ fchain fs T (T x) l'
  end.
Lemma fchain_ext fs T T' l : ∀ c, (∀ x, x ∈ l → T' x = T x) → fchain fs T c l → fchain fs T' c l.
Proof.
  induction l as [|x l IH]; intros c HT; [done|]. intros (-> & Hv & Hl). split; [done|]. split; [done|].
  rewrite HT by left. apply IH; [|done]. intros y Hy. apply HT. by right.
Qed.
Lemma fchain_valid fs T l : ∀ c x, fchain fs T c l → x ∈ l → valid fs x.
Proof.
  induction l as [|y l IH]; intros c x; [by intros _ ?%not_elem_of_nil|]. intros (-> & Hv & Hl) [->|Hx]%elem_of_cons; [done|]. by eapply IH.
Qed.
Lemma fchain_suffix fs T l1 x l2 : ∀ c, fchain fs T c (l1 ++ x :: l2) → fchain fs T x (x :: l2).
Proof. induction l1 as [|y l1 IH]; intros c; [by intros (-> & ? & ?)|]. intros (_ & _ & Hl). by eapply IH. Qed.
Lemma fchain_det fs T l : fs_total_clusters fs + 2 <= FAT_EOC → ∀ l' c, fchain fs T c l → fchain fs T c l' → l = l'.
Proof.
  intros Ht. induction l as [|x l IH]; intros [|y l'] c; [done| | |]; cbn [fchain]; unfold valid.
  - lia.
  - lia.
  - intros (-> & _ & H1) (-> & _ & H2). f_equal. by eapply IH.
Qed.
Lemma fchain_NoDup fs T c l : fs_total_clusters fs + 2 <= FAT_EOC → fchain fs T c l → NoDup l.
Proof.
  intros Ht. revert c. induction l as [|x l IH]; intros c Hl; [constructor|]. pose proof Hl as (-> & Hv & Hl').
  apply NoDup_cons. split; [|by eapply IH]. intros (l1 & l2 & ->)%list_elem_of_split.
  apply fchain_suffix in Hl'. pose proof (fchain_det fs T _ Ht _ _ Hl Hl') as Heq.
  apply (f_equal length) in Heq. cbn [length] in Heq. rewrite length_app in Heq. cbn [length] in Heq. lia.
Qed.
Lemma fchain_length fs T c l : 0 <= fs_total_clusters fs → fs_total_clusters fs + 2 <= FAT_EOC → fchain fs T c l →
  Z.of_nat (length l) <= fs_total_clusters fs.
Proof.
  intros H0 Ht Hl. pose proof (fchain_NoDup fs T c l Ht Hl) as Hnd.
  assert (length l <= length (seqZ 2 (fs_total_clusters fs)))%nat; [|rewrite length_seqZ in *; lia].
  apply submseteq_length, NoDup_submseteq; [done|]. intros x Hx. apply elem_of_seqZ.
  pose proof (fchain_valid fs T l c x Hl Hx). unfold valid in *. lia.
Qed.
(** A cluster after the last one. *)
Lemma fchain_snoc fs T z c' l : ∀ c, fchain fs T c (l ++ [z]) → c' ∉ l ++ [z] → valid fs c' → z ∉ l → 2 <= z →
  fchain fs (linked T z c') c (l ++ [z; c']).
Proof.
  induction l as [|x l IH]; intros c; cbn [app].
  - intros (-> & Hz & Hend) Hc' Hv _ H2. split; [done|]. split; [done|]. rewrite linked_at, decide_True by done. split; [done|]. split; [done|].
    apply not_elem_of_cons in Hc' as [Hne _]. rewrite linked_at, decide_False, decide_True by (done || naive_solver). done.
  - intros (-> & Hx & Hl) [Hne Hc']%not_elem_of_cons Hv [Hzx Hz]%not_elem_of_cons H2. split; [done|]. split; [done|].
    rewrite linked_at, decide_False, decide_False by naive_solver. by apply IH.
Qed.
(** What the table has after the cluster number [k] of a chain. *)
Lemma fchain_next fs T l k x : ∀ c, fchain fs T c l → l !! k = Some x →
  match l !! S k with Some y => T x = y ∧ valid fs y | None => FAT_EOC <= T x end.
Proof.
  revert k. induction l as [|y l IH]; intros k c; [done|]. intros (-> & Hv & Hl) Hk. destruct k as [|k].
  - injection Hk as <-. cbn. destruct l as [|z l]; [done|]. destruct Hl as (-> & Hz & _). done.
  - cbn in Hk. specialize (IH k _ Hl Hk). exact IH.
Qed.

(** ** The contents of a chain *)

Definition cbyte fs C l (y : Z) : Z := C (nth (Z.to_nat (y / fs_bytes_per_cluster fs)) l 0) (y mod fs_bytes_per_cluster fs).
Lemma cbyte_cons_lo fs C c l y : 0 <= y < fs_bytes_per_cluster fs → cbyte fs C (c :: l) y = C c y.
Proof. intros Hy. unfold cbyte. by rewrite Z.div_small, Z.mod_small. Qed.
Lemma cbyte_cons_hi fs C c l y : 0 < fs_bytes_per_cluster fs → fs_bytes_per_cluster fs <= y →
  cbyte fs C (c :: l) y = cbyte fs C l (y - fs_bytes_per_cluster fs).
Proof.
  intros Hb Hy. unfold cbyte. set (b := fs_bytes_per_cluster fs) in *. replace y with (y - b + 1 * b) at 1 2 by lia.
  rewrite Z.div_add, Z.mod_add by lia. assert (0 <= (y - b) / b) by (apply Z.div_pos; lia).
  replace (Z.to_nat ((y - b) / b + 1)) with (S (Z.to_nat ((y - b) / b))) by lia. done.
Qed.
Lemma cbyte_drop fs C l k y : 0 < fs_bytes_per_cluster fs → 0 <= y →
  cbyte fs C (drop k l) y = cbyte fs C l (y + Z.of_nat k * fs_bytes_per_cluster fs).
Proof.
  intros Hb Hy. unfold cbyte. rewrite Z.div_add, Z.mod_add by lia. f_equal.
  assert (0 <= y / fs_bytes_per_cluster fs) by (by apply Z.div_pos; lia).
  replace (Z.to_nat (y / fs_bytes_per_cluster fs + Z.of_nat k)) with (k + Z.to_nat (y / fs_bytes_per_cluster fs))%nat by lia.
  revert l. induction k as [|k IH]; intros l; [done|]. destruct l; [by destruct (Z.to_nat _)|]. cbn. apply IH.
Qed.
(** The place of the byte [o] of the cluster number [k]. *)
Lemma cbyte_at fs C l k c o : l !! k = Some c → 0 <= o < fs_bytes_per_cluster fs →
  cbyte fs C l (Z.of_nat k * fs_bytes_per_cluster fs + o) = C c o.
Proof.
  intros Hk Ho. unfold cbyte. rewrite Z.add_comm, Z.div_add, Z.mod_add, Z.div_small, Z.mod_small, Z.add_0_l, Nat2Z.id by lia.
  f_equal. by apply nth_lookup_Some.
Qed.
Lemma cbyte_split fs l y : 0 < fs_bytes_per_cluster fs → 0 <= y < Z.of_nat (length l) * fs_bytes_per_cluster fs →
  ∃ k c o, l !! k = Some c ∧ 0 <= o < fs_bytes_per_cluster fs ∧ y = Z.of_nat k * fs_bytes_per_cluster fs + o.
Proof.
  intros Hb Hy. set (b := fs_bytes_per_cluster fs) in *. pose proof (Z.mod_pos_bound y b Hb). pose proof (Z.div_mod y b ltac:(lia)).
  assert (0 <= y / b < Z.of_nat (length l)) by (split; [apply Z.div_pos; lia|apply Z.div_lt_upper_bound; lia]).
  destruct (lookup_lt_is_Some_2 l (Z.to_nat (y / b))) as [c Hc]; [lia|]. exists (Z.to_nat (y / b)), c, (y mod b).
  split; [done|]. split; [done|]. rewrite Z2Nat.id by lia. lia.
Qed.
Lemma cbyte_ext fs C C' l y : 0 < fs_bytes_per_cluster fs → 0 <= y < Z.of_nat (length l) * fs_bytes_per_cluster fs →
  (∀ c, c ∈ l → C' c = C c) → cbyte fs C' l y = cbyte fs C l y.
Proof.
  intros Hb Hy HC. destruct (cbyte_split fs l y Hb Hy) as (k & c & o & Hk & Ho & ->). rewrite !(cbyte_at fs _ l k c o Hk Ho).
  rewrite HC; [done|]. by eapply list_elem_of_lookup_2.
Qed.
Lemma fchain_nonzero fs T c l x : fs_total_clusters fs + 2 <= FAT_EOC → fchain fs T c l → x ∈ l → T x ≠ 0.
Proof.
  intros Ht Hl (k & Hk)%list_elem_of_lookup. pose proof (fchain_next fs T l k x c Hl Hk) as Hn. unfold valid, FAT_EOC in *.
  destruct (l !! S k); lia.
Qed.
(** One more cluster of zeros, one cluster changed. *)
Lemma cbyte_snoc fs C l z y : 0 < fs_bytes_per_cluster fs → z ∉ l → 0 <= y < Z.of_nat (length (l ++ [z])) * fs_bytes_per_cluster fs →
  cbyte fs (<[z := λ _, 0]> C) (l ++ [z]) y = if decide (y < Z.of_nat (length l) * fs_bytes_per_cluster fs) then cbyte fs C l y else 0.
Proof.
  intros Hb Hz Hy. destruct (cbyte_split fs (l ++ [z]) y Hb Hy) as (k & c & o & Hk & Ho & ->).
  rewrite (cbyte_at fs _ (l ++ [z]) k c o Hk Ho). apply lookup_snoc_Some in Hk as [[Hlt Hk]|[-> <-]].
  - rewrite decide_True by nia. rewrite fn_lookup_insert_ne by (intros <-; by eapply Hz, list_elem_of_lookup_2). by rewrite (cbyte_at fs _ l k c o).
  - rewrite decide_False by lia. by rewrite fn_lookup_insert.
Qed.
Lemma cbyte_write fs C l k c buf y : 0 < fs_bytes_per_cluster fs → NoDup l → l !! k = Some c →
  0 <= y < Z.of_nat (length l) * fs_bytes_per_cluster fs → let p := Z.of_nat k * fs_bytes_per_cluster fs in
  cbyte fs (<[c := buf]> C) l y = if decide (p <= y < p + fs_bytes_per_cluster fs) then buf (y - p) else cbyte fs C l y.
Proof.
  intros Hb Hnd Hk Hy p. destruct (cbyte_split fs l y Hb Hy) as (j & x & o & Hj & Ho & ->).
  rewrite !(cbyte_at fs _ l j x o Hj Ho). destruct (decide (j = k)) as [->|Hne].
  - rewrite Hk in Hj. injection Hj as <-. rewrite fn_lookup_insert, decide_True by (subst p; lia). f_equal. subst p. lia.
  - rewrite fn_lookup_insert_ne by (intros <-; apply Hne; by eapply NoDup_lookup). rewrite decide_False; [done|]. subst p. nia.
Qed.
End chains.

Section files.
Context {D : Type} `{!BlockDevice D}.
Implicit Types (s : fatst (D := D)) (d : D) (fs : fat32_fs) (T : Z → Z) (C : Z → Z → Z).
Variable uninit : mem.
#[local] Set Default Proof Using "All".

(** ** Reading *)

Lemma skip_clusters_runs fs T C n : ∀ s c l, disk_is (ft_dev s) fs T C → fchain fs T c l → (n < length l)%nat →
  runs_to (skip_clusters uninit n fs c) s (λ o s', ∃ x d', o = Some x ∧ s' = set_ft_dev d' s ∧ disk_is d' fs T C ∧
    l !! n = Some x ∧ fchain fs T x (drop n l)).
Proof.
  induction n as [|n IH]; intros s c [|x l] Hd Hl Hn; [cbn in Hn; lia| |cbn in Hn; lia|]; pose proof Hl as (-> & Hv & Hl').
  - apply runs_ret. exists x, (ft_dev s). split; [done|]. split; [by destruct s|]. done.
  - cbn [skip_clusters]. rstep (get_next_cluster_runs uninit s fs T C x Hd (table_end_valid fs x Hv)).
    intros y s1 (-> & d1 & -> & Hd1). destruct l as [|y l]; [cbn in Hn; lia|]. pose proof Hl' as (Hy & Hvy & _).
    pose proof (ge_total _ _ (di_geom _ _ _ _ Hd)). rewrite (proj2 (Z.leb_gt _ _)) by (unfold valid in Hvy; lia).
    eapply runs_mono; [eapply (IH (set_ft_dev d1 s)); [exact Hd1|exact Hl'|cbn in *; lia]|].
    intros o s2 (z & d2 & -> & -> & ? & ? & ?). by exists z, d2.
Qed.

Lemma read_loop_runs fs T C fuel : ∀ s c l o size cl buf read, disk_is (ft_dev s) fs T C → fchain fs T c l →
  0 <= o < fs_bytes_per_cluster fs → 0 <= read <= size → o + (size - read) <= Z.of_nat (length l) * fs_bytes_per_cluster fs →
  (Z.to_nat (size - read) < fuel)%nat →
  runs_to (read_loop uninit fuel fs c o size cl buf read) s (λ rb s', ∃ d', s' = set_ft_dev d' s ∧ disk_is d' fs T C ∧ rb.1 = size ∧
    ∀ x, rb.2 x = if decide (read <= x < size) then cbyte fs C l (o + (x - read)) else buf x).
Proof.
  induction fuel as [|fuel IH]; intros s c l o size cl buf read Hd Hl Ho Hr Hsz Hf; [lia|]. cbn [read_loop].
  destruct (Z.leb_spec size read) as [Hle|Hlt].
  { apply runs_ret. exists (ft_dev s). split; [by destruct s|]. split; [done|]. split; [simpl; lia|]. intros x. by rewrite decide_False by lia. }
  destruct l as [|y l]; [cbn [length] in Hsz; lia|]. pose proof Hl as (-> & Hv & Hl').
  pose proof (ge_total _ _ (di_geom _ _ _ _ Hd)). rewrite (proj2 (Z.leb_gt _ _)) by (unfold valid in Hv; lia).
  set (b := fs_bytes_per_cluster fs) in *. cbn [length] in Hsz.
  rstep (read_cluster_runs s fs T C y cl Hd Hv). intros [r clb] s1 (d1 & -> & Hd1 & _ & Hcl). simpl in Hcl. cbv beta iota zeta. fold b.
  rstep (get_next_cluster_runs uninit (set_ft_dev d1 s) fs T C y Hd1 (table_end_valid fs y Hv)). intros nx s2 (-> & d2 & -> & Hd2).
  set (k := if size - read <? b - o then size - read else b - o).
  assert (Hk : 0 < k ∧ o + k <= b ∧ read + k <= size ∧ (read + k = size ∨ o + k = b)) by (subst k; case_match; lia).
  rlast (IH (set_ft_dev d2 s) (T y) l 0 size clb (copy buf read clb o k) (read + k)); [exact Hd2|exact Hl'|lia|lia| |lia|].
  { nia. }
  intros [r' buf'] s3 (d3 & -> & Hd3 & -> & Hbuf). exists d3. split; [done|]. split; [done|]. split; [done|].
  intros x. cbn [snd] in *. rewrite Hbuf. unfold copy. fold b in Hcl. rewrite Hcl.
  destruct (decide (read <= x < size)) as [Hin|Hout].
  - destruct (decide (x < read + k)) as [H1|H1].
    + rewrite decide_False, decide_True, decide_True by lia. unfold b in *. rewrite cbyte_cons_lo by lia. done.
    + rewrite decide_True by lia. unfold b in *. rewrite cbyte_cons_hi by lia. f_equal. lia.
  - rewrite !decide_False by lia. done.
Qed.

(** ** A file

    The inode [node] is a file with the chain [l]; its directory entry is in
    another cluster. *)
Record fat_file fs s (node : Z) (n : inode) (f : fat32_file) T C (l : list Z) : Prop := mk_fat_file {
  fi_disk : disk_is (ft_dev s) fs T C;
  fi_node : ft_nodes s !! node = Some n;
  fi_file : ft_files s !! in_ptr n = Some f;
  fi_fs : ff_fs f = fs;
  fi_chain : (l ≠ [] ∧ fchain fs T (ff_first_cluster f) l) ∨ (l = [] ∧ 0 <= ff_first_cluster f < 2);
  fi_size : 0 <= in_size n <= Z.of_nat (length l) * fs_bytes_per_cluster fs;
  fi_entry : ff_dir_entry_cluster f < 2 ∨ (valid fs (ff_dir_entry_cluster f) ∧ ff_dir_entry_cluster f ∉ l);
}.
Definition clock_ok s : Prop := ∃ t, fat_to_unix (get_fat_now (ft_clock s)).1 (get_fat_now (ft_clock s)).2 = Some t.

(** The clusters outside [l] that an operation on the directory entry changes. *)
Definition entry_only (f : fat32_file) C C' : Prop := ∀ c, c ≠ ff_dir_entry_cluster f → C' c = C c.

Lemma file_position fs s node n f T C l offset : fat_file fs s node n f T C l → 0 <= offset < in_size n →
  let k := Z.to_nat (u32 (offset / fs_bytes_per_cluster fs)) in
  (k < length l)%nat ∧ offset = Z.of_nat k * fs_bytes_per_cluster fs + offset mod fs_bytes_per_cluster fs ∧
  0 <= offset mod fs_bytes_per_cluster fs < fs_bytes_per_cluster fs ∧ fchain fs T (ff_first_cluster f) l.
Proof.
  intros [Hd _ _ _ Hch Hsz _] Hoff k. pose proof (di_geom _ _ _ _ Hd) as Hg. destruct (bpc_512 _ _ Hg) as [Hb _].
  destruct (ge_total _ _ Hg) as [Ht0 Ht]. destruct Hch as [[_ Hch]|[-> _]]; [|cbn [length] in Hsz; lia].
  pose proof (fchain_length fs T _ l Ht0 Ht Hch). unfold FAT_EOC in Ht. subst k. set (b := fs_bytes_per_cluster fs) in *.
  assert (0 <= offset / b < Z.of_nat (length l)) by (split; [apply Z.div_pos; lia|apply Z.div_lt_upper_bound; lia]).
  rewrite u32_id by lia. pose proof (Z.mod_pos_bound offset b Hb). pose proof (Z.div_mod offset b ltac:(lia)).
  rewrite Z2Nat.id by lia. split; [lia|]. split; [lia|]. done.
Qed.

Lemma touch_access_runs s fs T C f date : disk_is (ft_dev s) fs T C → (ff_dir_entry_cluster f < 2 ∨ valid fs (ff_dir_entry_cluster f)) →
  runs_to (touch_access fs f date) s (λ _ s', ∃ d' bufs' C', s' = set_ft_dev d' (set_ft_bufs bufs' s) ∧ disk_is d' fs T C' ∧ entry_only f C C').
Proof.
  intros Hd Hent. unfold touch_access. destruct (Z.leb_spec 2 (ff_dir_entry_cluster f)) as [H2|H2].
  2:{ apply runs_ret. exists (ft_dev s), (ft_bufs s), C. split; [by destruct s|]. by split. }
  destruct Hent as [|Hent]; [lia|]. unfold kmalloc_buf at 1. unfold runs_to, bind at 1.
  destruct (ft_bufs s) as [|[db|] bufs] eqn:Hb.
  - exists (ft_dev s), [], C. split; [rewrite <- Hb; by destruct s|]. by split.
  - apply (runs_bind (read_cluster fs (ff_dir_entry_cluster f) db) _ (set_ft_bufs bufs s)). rlast (read_cluster_runs (set_ft_bufs bufs s) fs T C (ff_dir_entry_cluster f) db Hd Hent).
    intros [r db'] s1 (d1 & -> & Hd1 & _ & _). cbv beta iota zeta.
    rstep (write_cluster_runs (set_ft_dev d1 (set_ft_bufs bufs s)) fs T C (ff_dir_entry_cluster f) (store16 db' (ff_dir_entry_offset f + 18) date) Hd1 Hent).
    intros _ s2 (d2 & -> & Hd2). apply runs_ret. eexists d2, bufs, _. split; [done|]. split; [exact Hd2|]. intros c Hc. by rewrite fn_lookup_insert_ne.
  - exists (ft_dev s), bufs, C. split; [by destruct s|]. by split.
Qed.
(** C10: a read of a file returns its contents: from the offset to the end of
    the file at most, the bytes of its chain of clusters; the rest of the buffer
    stays, and on the disk only the cluster with the directory entry changes. *)
Theorem fat32_read_contents fs s node n f T C l offset size buf b bufs :
  fat_file fs s node n f T C l → clock_ok s → ft_bufs s = Some b :: bufs → 0 <= offset → 0 <= size → offset + size < 2 ^ 64 →
  let r := if in_size n <=? offset then 0 else Z.min size (in_size n - offset) in
  runs_to (fat32_read_file uninit node offset size buf) s (λ rb s', rb.1 = r ∧
    (∀ x, rb.2 x = if decide (0 <= x < r) then cbyte fs C l (offset + x) else buf x) ∧
    ∃ n' C', fat_file fs s' node n' f T C' l ∧ in_size n' = in_size n ∧ entry_only f C C').
Proof.
  intros Hf [t Hclock] Hbufs Ho Hsz Hov r. pose proof Hf as [Hd Hn Hfi Hfs Hch Hin Hent]. unfold fat32_read_file.
  assert (Hnone : ∀ s', runs_to (ret (0, buf)) s' (λ rb s'', rb.1 = 0 ∧ (∀ x, rb.2 x = if decide (0 <= x < 0) then cbyte fs C l (offset + x) else buf x) ∧ s'' = s')).
  { intros s'. split; [done|]. split; [|done]. intros x. by rewrite decide_False by lia. }
  apply runs_bind; eapply runs_Done; [unfold get_node; by rewrite Hn|]. apply runs_bind; eapply runs_Done; [unfold get_ff; by rewrite Hfi|].
  cbv zeta. rewrite Hfs. subst r. destruct (Z.leb_spec (in_size n) offset) as [Hle|Hlt].
  { eapply runs_mono; [apply Hnone|]. intros rb s' (? & ? & ->). split; [done|]. split; [done|]. by exists n, C. }
  rewrite u64_id by lia. set (sz := if in_size n <? offset + size then in_size n - offset else size).
  assert (Hmin : Z.min size (in_size n - offset) = sz) by (subst sz; case_match; lia). rewrite Hmin.
  destruct (Z.eqb_spec sz 0) as [->|Hsz0].
  { eapply runs_mono; [apply Hnone|]. intros rb s' (? & ? & ->). split; [done|]. split; [done|]. by exists n, C. }
  clear Hnone. destruct (file_position _ _ _ _ _ _ _ _ offset Hf) as (Hk & Heq & Hmod & Hchain); [lia|].
  set (k := Z.to_nat _) in *. set (bp := fs_bytes_per_cluster fs) in *. set (o := offset mod bp) in *.
  rstep (skip_clusters_runs fs T C k s (ff_first_cluster f) l Hd Hchain Hk). intros ? s1 (c & d1 & -> & -> & Hd1 & Hlk & Hc).
  apply runs_bind; eapply runs_Done; [unfold kmalloc_buf; simpl; by rewrite Hbufs|]. set (s2 := set_ft_bufs bufs (set_ft_dev d1 s)).
  rstep (read_loop_runs fs T C (S (Z.to_nat sz)) s2 c (drop k l) o sz b buf 0 Hd1 Hc Hmod).
  { lia. }
  { rewrite length_drop. subst sz. fold bp. case_match; nia. }
  { lia. }
  intros [r rbuf] s3 (d3 & -> & Hd3 & Hr & Hrbuf). cbn [fst snd] in Hr, Hrbuf. subst r. cbv beta iota.
  apply runs_bind; eapply runs_Done; [reflexivity|]. simpl ft_clock. destruct (get_fat_now (ft_clock s)) as [date time] eqn:Hnow. cbn [fst snd] in Hclock.
  cbv beta iota. apply runs_bind; eapply runs_Done; [unfold unix_time; by rewrite Hclock|].
  apply runs_bind; eapply runs_Done; [unfold mod_node, get_node, bind; simpl; by rewrite Hn|].
  set (n' := upd_info (set_ii_atime t) n). set (s4 := set_ft_nodes (<[node := n']> (ft_nodes s)) (set_ft_dev d3 s2)).
  assert (Hbytes : ∀ x, rbuf x = if decide (0 <= x < sz) then cbyte fs C l (offset + x) else buf x).
  { intros x. rewrite Hrbuf. case_decide; [|done]. rewrite cbyte_drop by (subst bp; lia). f_equal. fold bp. lia. }
  rstep (touch_access_runs (set_ft_nodes (<[node := n']> (ft_nodes s)) (set_ft_dev d3 s2)) fs T C f date Hd3 ltac:(clear -Hent; tauto)).
  intros _ s5 (d5 & bufs5 & C5 & -> & Hd5 & Hent5). apply runs_ret. split; [done|]. split; [done|]. exists n', C5.
  split; [|by split]. split; try done. simpl. by rewrite lookup_insert_eq.
Qed.

(** ** Writing

    While a file is written: [l] is its chain so far and [B] its contents with
    the zeros that follow; the table and the clusters that are not in [l] are
    those of the start, [T0] and [C0], when its chain was [l0]. *)
Record wfile fs T0 C0 (l0 : list Z) d (first : Z) T C (l : list Z) (B : Z → Z) : Prop := mk_wfile {
  wf_disk : disk_is d fs T C;
  wf_tight : table_tight fs T;
  wf_chain : fchain fs T first l;
  wf_bytes : ∀ y, 0 <= y < Z.of_nat (length l) * fs_bytes_per_cluster fs → cbyte fs C l y = B y;
  wf_zero : ∀ y, Z.of_nat (length l) * fs_bytes_per_cluster fs <= y → B y = 0;
  wf_new : ∀ c, c ∈ l → c ∈ l0 ∨ T0 c = 0;
  wf_old : l0 `prefix_of` l;
  wf_out : ∀ c, c ∉ l → T c = T0 c ∧ C c = C0 c;
}.
(** There are free clusters and buffers for a chain of [m] clusters, and [e]
    buffers more. *)
Definition supply fs (bf : list (option mem)) T (l : list Z) (m e : nat) : Prop :=
  (m <= length l + length (free_list fs T) ∧ m - length l + e <= length bf)%nat ∧ Forall is_Some bf.
Definition st d (bf : list (option mem)) s : fatst := set_ft_dev d (set_ft_bufs bf s).

Lemma wfile_geom fs T0 C0 l0 d first T C l B : wfile fs T0 C0 l0 d first T C l B →
  0 < fs_bytes_per_cluster fs ∧ fs_total_clusters fs + 2 <= FAT_EOC ∧ NoDup l.
Proof.
  intros [Hd _ Hl _ _ _ _ _]. pose proof (di_geom _ _ _ _ Hd) as Hg. destruct (bpc_512 _ _ Hg), (ge_total _ _ Hg).
  split; [done|]. split; [done|]. by eapply fchain_NoDup.
Qed.
Lemma wfile_disk fs T0 C0 l0 d d' first T C l B : wfile fs T0 C0 l0 d first T C l B → disk_is d' fs T C → wfile fs T0 C0 l0 d' first T C l B.
Proof. intros []. by split. Qed.

(** A new cluster at the end of the chain. *)
Lemma wfile_extend fs T0 C0 l0 d d' first T C l c z r B : wfile fs T0 C0 l0 d first T C (l ++ [c]) B → free_list fs T = z :: r →
  disk_is d' fs (linked T c z) (<[z := λ _, 0]> C) → wfile fs T0 C0 l0 d' first (linked T c z) (<[z := λ _, 0]> C) ((l ++ [c]) ++ [z]) B.
Proof.
  intros Hw Hf Hd'. destruct (wfile_geom _ _ _ _ _ _ _ _ _ _ Hw) as (Hb & Ht & Hnd). destruct Hw as [Hd Htight Hl Hbytes Hzero Hnew Hold Hout].
  assert (Hz : z ∈ free_list fs T) by (rewrite Hf; left). pose proof (Htight z Hz) as Hzv. apply free_list_elem in Hz as [[Hz2 HTz] _].
  assert (Hzl : z ∉ l ++ [c]) by (intros Hin; by apply (fchain_nonzero fs T first (l ++ [c]) z Ht Hl)).
  assert (Hcv : valid fs c) by (eapply fchain_valid; [exact Hl|set_solver]).
  assert (HTc : T c ≠ 0) by (eapply fchain_nonzero; [exact Ht|exact Hl|set_solver]).
  split; [done| | | | | | |].
  - intros x Hx. apply Htight. rewrite (free_list_linked fs T c z r) in Hx by (done || by right). rewrite Hf. by right.
  - rewrite <- app_assoc. apply fchain_snoc; [done|done|done| |unfold valid in Hcv; lia].
    apply NoDup_app in Hnd as (_ & Hdj & _). intros Hin. by apply (Hdj c Hin); left.
  - intros y Hy. rewrite cbyte_snoc by done. case_decide; [apply Hbytes; lia|]. symmetry. apply Hzero. lia.
  - intros y Hy. apply Hzero. rewrite length_app in Hy. nia.
  - intros x [Hx| ->%list_elem_of_singleton]%elem_of_app; [by apply Hnew|]. right.
    destruct (Hout z Hzl) as [<- _]. done.
  - by apply prefix_app_r.
  - intros x [Hx Hxz]%not_elem_of_app. rewrite not_elem_of_cons in Hxz. destruct Hxz as [Hxz _]. rewrite linked_at.
    assert (x ≠ c) by (intros ->; apply Hx; set_solver). rewrite !decide_False by tauto. rewrite fn_lookup_insert_ne by done. by apply Hout.
Qed.
Lemma next_to_write_runs fs T0 C0 l0 s d bf first T C l B k c m e : wfile fs T0 C0 l0 d first T C l B → l !! k = Some c →
  supply fs bf T l m e → (S k < m)%nat →
  runs_to (next_to_write uninit fs c) (st d bf s) (λ o s', ∃ z d' bf' T' C' l', o = Some z ∧ s' = st d' bf' s ∧ l' !! S k = Some z ∧ l `prefix_of` l' ∧
    wfile fs T0 C0 l0 d' first T' C' l' B ∧ supply fs bf' T' l' m e).
Proof.
  intros Hw Hk Hsup Hm. destruct (wfile_geom _ _ _ _ _ _ _ _ _ _ Hw) as (Hb & Ht & Hnd). pose proof Hw as [Hd Htight Hl _ _ _ _ _].
  assert (Hcv : valid fs c) by (eapply fchain_valid; [exact Hl|by eapply list_elem_of_lookup_2]).
  unfold next_to_write. rstep (get_next_cluster_runs uninit (st d bf s) fs T C c Hd (table_end_valid fs c Hcv)).
  intros nx s1 (-> & d1 & -> & Hd1). pose proof (fchain_next fs T l k c first Hl Hk) as Hnext.
  destruct (l !! S k) as [z|] eqn:Hz.
  - destruct Hnext as [-> Hzv]. rewrite (proj2 (Z.leb_gt _ _)) by (unfold valid in Hzv; lia). apply runs_ret.
    exists z, d1, bf, T, C, l. split; [done|]. split; [done|]. split; [done|]. split; [done|]. split; [by eapply wfile_disk|done].
  - rewrite (proj2 (Z.leb_le _ _)) by done. apply lookup_ge_None in Hz. pose proof (lookup_lt_Some _ _ _ Hk).
    destruct Hsup as [[Hfree Hbufs] Hsome]. destruct (free_list fs T) as [|z r] eqn:Hf; [cbn in Hfree; lia|].
    destruct bf as [|b bf]; [cbn in Hbufs; lia|]. apply Forall_cons in Hsome as [[b' ->] Hsome].
    rstep (allocate_cluster_runs uninit (set_ft_dev d1 (st d (Some b' :: bf) s)) fs T C c b' bf Hd1 Htight); [by right|done|].
    intros x s2 [-> Hcase]. rewrite Hf in Hcase |- *. cbn [hdZ] in *. assert (z ∈ free_list fs T) as [[Hz2 HTz] _]%free_list_elem by (rewrite Hf; left).
    rewrite (proj2 (Z.eqb_neq z 0)) in Hcase |- * by lia. destruct Hcase as (d2 & -> & Hd2). apply runs_ret.
    assert (Hlc : l = take k l ++ [c]) by (rewrite <- (take_S_r l k c Hk), take_ge by lia; done).
    exists z, d2, bf, (linked T c z), (<[z := λ _, 0]> C), (l ++ [z]). split; [done|]. split; [done|]. split; [|split; [by apply prefix_app_r|split]].
    + rewrite lookup_app_r by lia. by replace (S k - length l)%nat with 0%nat by lia.
    + rewrite Hlc in Hw |- *. by eapply wfile_extend.
    + split; [|done]. rewrite length_app. cbn [length] in *.
      rewrite (free_list_linked fs T c z r Hf) by (right; eapply fchain_nonzero; [exact Ht|exact Hl|by eapply list_elem_of_lookup_2]). lia.
Qed.

Lemma skip_extend_runs fs T0 C0 l0 first B m e n : ∀ s d bf T C l k c, wfile fs T0 C0 l0 d first T C l B → l !! k = Some c →
  supply fs bf T l m e → (k + n < m)%nat →
  runs_to (skip_extend uninit n fs c) (st d bf s) (λ o s', ∃ z d' bf' T' C' l', o = Some z ∧ s' = st d' bf' s ∧ l' !! (k + n)%nat = Some z ∧
    wfile fs T0 C0 l0 d' first T' C' l' B ∧ supply fs bf' T' l' m e).
Proof.
  induction n as [|n IH]; intros s d bf T C l k c Hw Hk Hsup Hm.
  { apply runs_ret. exists c, d, bf, T, C, l. rewrite Nat.add_0_r. done. }
  cbn [skip_extend]. rstep (next_to_write_runs fs T0 C0 l0 s d bf first T C l B k c m e Hw Hk Hsup ltac:(lia)).
  intros o s1 (z & d1 & bf1 & T1 & C1 & l1 & -> & -> & Hz & _ & Hw1 & Hsup1). cbv iota.
  rewrite <- Nat.add_succ_comm. eapply (IH s); [exact Hw1|exact Hz|exact Hsup1|lia].
Qed.

(** A cluster of the chain, written as a whole. *)
Lemma wfile_write fs T0 C0 l0 d d' first T C l B k c buf B' : wfile fs T0 C0 l0 d first T C l B → l !! k = Some c →
  disk_is d' fs T (<[c := buf]> C) →
  (∀ y, B' y = if decide (Z.of_nat k * fs_bytes_per_cluster fs <= y < Z.of_nat k * fs_bytes_per_cluster fs + fs_bytes_per_cluster fs)
               then buf (y - Z.of_nat k * fs_bytes_per_cluster fs) else B y) →
  wfile fs T0 C0 l0 d' first T (<[c := buf]> C) l B'.
Proof.
  intros Hw Hk Hd' HB. destruct (wfile_geom _ _ _ _ _ _ _ _ _ _ Hw) as (Hb & Ht & Hnd). destruct Hw as [Hd Htight Hl Hbytes Hzero Hnew Hold Hout].
  pose proof (lookup_lt_Some _ _ _ Hk). split; try done.
  - intros y Hy. rewrite (cbyte_write fs C l k c buf y Hb Hnd Hk Hy), HB, Hbytes by done. done.
  - intros y Hy. rewrite HB, decide_False by nia. by apply Hzero.
  - intros x Hx. rewrite fn_lookup_insert_ne; [by apply Hout|]. intros <-. by eapply Hx, list_elem_of_lookup_2.
Qed.
Lemma write_loop_runs fs T0 C0 l0 first m e size buf fuel : ∀ s d bf T C l B k c o cl w, wfile fs T0 C0 l0 d first T C l B → l !! k = Some c →
  supply fs bf T l m e → 0 <= o < fs_bytes_per_cluster fs → 0 <= w <= size → (k < m)%nat →
  Z.of_nat k * fs_bytes_per_cluster fs + o + (size - w) <= Z.of_nat m * fs_bytes_per_cluster fs → (Z.to_nat (size - w) < fuel)%nat →
  let p := Z.of_nat k * fs_bytes_per_cluster fs + o in
  runs_to (write_loop uninit fuel fs c o size cl buf w) (st d bf s) (λ r s', r = size ∧ ∃ d' bf' T' C' l' B', s' = st d' bf' s ∧
    wfile fs T0 C0 l0 d' first T' C' l' B' ∧ supply fs bf' T' l' m e ∧
    (w < size → p + (size - w) <= Z.of_nat (length l') * fs_bytes_per_cluster fs) ∧
    ∀ y, B' y = if decide (p <= y < p + (size - w)) then buf (w + (y - p)) else B y).
Proof.
  induction fuel as [|fuel IH]; intros s d bf T C l B k c o cl w Hw Hk Hsup Ho Hwr Hkm Hm Hf p; [lia|]. cbn [write_loop].
  destruct (wfile_geom _ _ _ _ _ _ _ _ _ _ Hw) as (Hb & Ht & Hnd). pose proof (lookup_lt_Some _ _ _ Hk) as Hlt. set (b := fs_bytes_per_cluster fs) in *.
  destruct (Z.leb_spec size w) as [Hle|Hgt].
  { apply runs_ret. split; [lia|]. exists d, bf, T, C, l, B. split; [done|]. split; [done|]. split; [done|].
    split; [lia|]. intros y. by rewrite decide_False by lia. }
  assert (Hcv : valid fs c) by (eapply fchain_valid; [apply (wf_chain _ _ _ _ _ _ _ _ _ _ Hw)|by eapply list_elem_of_lookup_2]).
  rstep (read_cluster_runs (st d bf s) fs T C c cl (wf_disk _ _ _ _ _ _ _ _ _ _ Hw) Hcv).
  intros [r clb] s1 (d1 & -> & Hd1 & _ & Hcl). cbn [snd] in Hcl. cbv beta iota zeta. fold b in Hcl |- *.
  set (n := if size - w <? b - o then size - w else b - o).
  assert (Hn : 0 < n ∧ o + n <= b ∧ w + n <= size ∧ (w + n = size ∨ o + n = b)) by (subst n; case_match; lia).
  rstep (write_cluster_runs (st d1 bf s) fs T C c (copy clb o buf w n) Hd1 Hcv). intros _ s2 (d2 & -> & Hd2).
  set (B1 := λ y, if decide (p <= y < p + n) then buf (w + (y - p)) else B y).
  assert (Hw2 : wfile fs T0 C0 l0 d2 first T (<[c := copy clb o buf w n]> C) l B1).
  { eapply wfile_write; [exact Hw|exact Hk|exact Hd2|]. intros y. unfold B1, copy. fold b. subst p.
    destruct (decide (Z.of_nat k * b <= y < Z.of_nat k * b + b)) as [Hin|Hout].
    - rewrite Hcl, (decide_True (P := 0 <= y - _ < b)) by lia. repeat case_decide; try lia; [f_equal; lia|].
      rewrite <- (wf_bytes _ _ _ _ _ _ _ _ _ _ Hw) by (fold b; nia). replace y with (Z.of_nat k * b + (y - Z.of_nat k * b)) at 1 by lia.
      apply cbyte_at; [done|fold b; lia].
    - rewrite decide_False by lia. done. }
  destruct (Z.ltb_spec (w + n) size) as [Hmore|Hdone].
  - assert (Hk1 : (S k < m)%nat) by nia.
    rstep (next_to_write_runs fs T0 C0 l0 s d2 bf first T _ l B1 k c m e Hw2 Hk Hsup Hk1).
    intros oz s3 (z & d3 & bf3 & T3 & C3 & l3 & -> & -> & Hz & _ & Hw3 & Hsup3). cbv iota.
    rlast (IH s d3 bf3 T3 C3 l3 B1 (S k) z 0 (copy clb o buf w n) (w + n) Hw3 Hz Hsup3); [fold b; lia|lia|done|fold b; subst p; nia|lia|].
    intros r3 s4 (-> & d4 & bf4 & T4 & C4 & l4 & B4 & -> & Hw4 & Hsup4 & Hlen & HB4). split; [done|].
    exists d4, bf4, T4, C4, l4, B4. split; [done|]. split; [done|]. split; [done|]. fold b in Hlen, HB4.
    split; [subst p; nia|]. intros y. rewrite HB4. unfold B1.
    assert (Hp : Z.of_nat (S k) * b + 0 = p + n) by (subst p; nia). rewrite Hp. repeat case_decide; try lia; f_equal; lia.
  - destruct fuel as [|fuel]; [lia|]. cbn [write_loop]. rewrite (proj2 (Z.leb_le _ _)) by lia. apply runs_ret. split; [lia|].
    exists d2, bf, T, (<[c := copy clb o buf w n]> C), l, B1. split; [done|]. split; [done|]. split; [done|]. fold b. split; [subst p; nia|].
    intros y. unfold B1. repeat case_decide; try lia; done.
Qed.

(** The contents of a chain, and the zeros after it. *)
Definition contents fs C (l : list Z) : Z → Z :=
  λ y, if decide (0 <= y < Z.of_nat (length l) * fs_bytes_per_cluster fs) then cbyte fs C l y else 0.
Lemma first_cluster_runs fs s node n f T C l m e : fat_file fs s node n f T C l → table_tight fs T →
  supply fs (ft_bufs s) T l m e → (0 < m)%nat →
  runs_to (first_cluster uninit fs f (in_ptr n)) s (λ c s', c ≠ 0 ∧ ∃ d bf T' C' l', let f' := set_ff_first_cluster c f in
    s' = st d bf (set_ft_files (<[in_ptr n := f']> (ft_files s)) s) ∧ supply fs bf T' l' m e ∧ l' !! O = Some c ∧
    wfile fs T C l d c T' C' l' (contents fs C l)).
Proof.
  intros [Hd Hn Hf Hfs Hch Hsz Hent] Htight Hsup Hm. unfold first_cluster.
  pose proof (di_geom _ _ _ _ Hd) as Hg. destruct (bpc_512 _ _ Hg) as [Hb _]. set (b := fs_bytes_per_cluster fs) in *.
  destruct Hch as [[Hne Hch]|[-> H2]].
  - destruct l as [|c l]; [done|]. pose proof Hch as (Hc & Hv & _). rewrite (proj2 (Z.ltb_ge _ _)) by (unfold valid in Hv; lia).
    apply runs_ret. split; [unfold valid in Hv; lia|]. exists (ft_dev s), (ft_bufs s), T, C, (c :: l). split.
    { unfold set_ff_first_cluster. rewrite <- Hfs in *. destruct s, f. cbn in *. by rewrite insert_id. }
    split; [done|]. split; [by rewrite Hc|]. split; try done.
    + intros y Hy. unfold contents. fold b. by rewrite decide_True.
    + intros y Hy. unfold contents. fold b. by rewrite decide_False by lia.
    + intros x Hx. by left.
  - rewrite (proj2 (Z.ltb_lt _ _)) by lia. destruct Hsup as [[Hfree Hbufs] Hsome]. cbn [length] in *.
    destruct (free_list fs T) as [|z r] eqn:Hfl; [cbn in Hfree; lia|]. destruct (ft_bufs s) as [|b0 bf] eqn:Hbs; [cbn in Hbufs; lia|].
    apply Forall_cons in Hsome as [[b' ->] Hsome].
    rstep (allocate_cluster_runs uninit s fs T C 0 b' bf Hd Htight); [by left|done|].
    intros x s2 [-> Hcase]. rewrite Hfl in Hcase |- *. cbn [hdZ] in *. assert (Hz : z ∈ free_list fs T) by (rewrite Hfl; left).
    pose proof (Htight z Hz) as Hzv. apply free_list_elem in Hz as [[Hz2 HTz] _].
    rewrite (proj2 (Z.eqb_neq z 0)) in Hcase |- * by lia. destruct Hcase as (d2 & -> & Hd2).
    apply runs_bind; eapply runs_Done; [unfold mod_ff, get_ff, bind; simpl; by rewrite Hf|]. apply runs_ret. split; [lia|].
    exists d2, bf, (linked T 0 z), (<[z := λ _, 0]> C), [z]. split; [by destruct s|]. split; [|split; [done|]].
    + split; [|done]. cbn [length] in *. rewrite (free_list_linked fs T 0 z r Hfl) by lia. lia.
    + split; try done.
      * intros x Hx. apply Htight. rewrite (free_list_linked fs T 0 z r Hfl) in Hx by lia. rewrite Hfl. by right.
      * split; [done|]. split; [done|]. rewrite linked_at, decide_False, decide_True by lia. done.
      * intros y Hy. cbn [length] in Hy. rewrite cbyte_cons_lo by lia. rewrite fn_lookup_insert. unfold contents. cbn [length]. by rewrite decide_False by lia.
      * intros y Hy. unfold contents. cbn [length]. by rewrite decide_False by lia.
      * intros x ->%list_elem_of_singleton. by right.
      * by apply prefix_nil.
      * intros x Hx. rewrite list_elem_of_singleton in Hx. rewrite linked_at, !decide_False by lia. by rewrite fn_lookup_insert_ne.
Qed.
Lemma update_entry_runs s fs T C node n f : disk_is (ft_dev s) fs T C → ft_nodes s !! node = Some n → clock_ok s →
  (ff_dir_entry_cluster f < 2 ∨ valid fs (ff_dir_entry_cluster f)) →
  runs_to (update_entry fs node f) s (λ _ s', ∃ d' bf' C' n', s' = set_ft_nodes (<[node := n']> (ft_nodes s)) (st d' bf' s) ∧
    disk_is d' fs T C' ∧ entry_only f C C' ∧ in_size n' = in_size n ∧ in_ptr n' = in_ptr n).
Proof.
  intros Hd Hn [t Ht] Hent. unfold update_entry.
  assert (Hsame : ∀ bf, ∃ d' bf' C' n', set_ft_bufs bf s = set_ft_nodes (<[node := n']> (ft_nodes s)) (st d' bf' s) ∧
    disk_is d' fs T C' ∧ entry_only f C C' ∧ in_size n' = in_size n ∧ in_ptr n' = in_ptr n).
  { intros bf. exists (ft_dev s), bf, C, n. split; [destruct s; cbn in *; by rewrite insert_id|]. by split. }
  pose proof (Hsame (ft_bufs s)) as Hself. replace (set_ft_bufs (ft_bufs s) s) with s in Hself by (by destruct s).
  destruct (Z.leb_spec 2 (ff_dir_entry_cluster f)) as [H2|H2].
  2:{ apply runs_ret. apply Hself. }
  destruct Hent as [|Hent]; [lia|]. apply runs_bind. unfold kmalloc_buf, runs_to at 1. destruct (ft_bufs s) as [|[db|] bf] eqn:Hb.
  - apply Hself.
  - rstep (read_cluster_runs (set_ft_bufs bf s) fs T C (ff_dir_entry_cluster f) db Hd Hent).
    intros [r db'] s1 (d1 & -> & Hd1 & _ & _). cbv beta iota.
    apply runs_bind; eapply runs_Done; [unfold get_node; cbn [ft_nodes set_ft_dev set_ft_bufs]; by rewrite Hn|]. cbv zeta.
    apply runs_bind; eapply runs_Done; [reflexivity|]. cbn [ft_clock set_ft_dev set_ft_bufs].
    destruct (get_fat_now (ft_clock s)) as [date time]. cbn [fst snd] in Ht. cbv beta iota zeta.
    apply runs_bind; eapply runs_Done; [unfold unix_time; by rewrite Ht|].
    apply runs_bind; eapply runs_Done; [unfold mod_node, get_node, bind; cbn [ft_nodes set_ft_dev set_ft_bufs]; by rewrite Hn|].
    apply runs_bind; eapply runs_Done; [unfold mod_node, get_node, bind, modify; cbn [ft_nodes set_ft_dev set_ft_bufs set_ft_nodes]; by rewrite lookup_insert_eq|].
    set (db2 := store16 _ _ date). set (s2 := set_ft_nodes _ _).
    rstep (write_cluster_runs s2 fs T C (ff_dir_entry_cluster f) db2 Hd1 Hent). intros _ s3 (d3 & -> & Hd3). apply runs_ret.
    exists d3, bf, (<[ff_dir_entry_cluster f := db2]> C), (upd_info (set_ii_atime t) (upd_info (set_ii_mtime t) n)).
    split; [subst s2; cbn; by rewrite insert_insert_eq|]. split; [done|]. split; [|done]. intros x Hx. by rewrite fn_lookup_insert_ne.
  - apply Hsame.
Qed.

End files.

Section failure.
Context {D : Type} `{!BlockDevice D}.
Implicit Types (s : fatst (D := D)) (fs : fat32_fs) (T : Z → Z) (C : Z → Z → Z).
Variable uninit : mem.

(** an allocation that fails for want of memory damages the file: 0 is
    returned and the new cluster is free again, but the last cluster of the
    chain still points to it, so that the file goes on in a free cluster, which
    a later allocation gives to another file. *)
Theorem allocate_cluster_oom_links_free fs s T C prev c r bufs : disk_is (ft_dev s) fs T C → table_tight fs T → valid fs prev → T prev ≠ 0 →
  free_list fs T = c :: r → ft_bufs s = None :: bufs →
  runs_to (allocate_cluster uninit fs prev) s (λ x s', x = 0 ∧ ∃ T', disk_is (ft_dev s') fs T' C ∧
    T' prev = c ∧ T' c = 0 ∧ free_list fs T' = free_list fs T).
Proof.
  intros Hd Htight Hprev HTp Hf Hb. unfold allocate_cluster. rstep (find_free_cluster_runs uninit s fs T C Hd).
  intros x s1 (d1 & -> & Hd1 & ->). rewrite Hf. cbn [hdZ]. assert (Hc : c ∈ free_list fs T) by (rewrite Hf; left).
  pose proof (Htight c Hc) as Hcv. apply free_list_elem in Hc as [[Hc2 HTc] Hce]. rewrite (proj2 (Z.eqb_neq _ _)) by lia.
  destruct (runs_to_inv _ _ _ (link_runs uninit (set_ft_dev d1 s) fs T C prev c r Hd1 Hf Htight (or_intror Hprev))) as ([] & s2 & Hrun & d2 & -> & Hd2).
  apply bind_inv in Hrun as ([] & s2' & Hr1 & Hr2).
  apply runs_bind; eapply runs_Done; [exact Hr1|]. apply runs_bind; eapply runs_Done; [exact Hr2|].
  apply runs_bind; eapply (runs_Done _ _ None (set_ft_dev d2 (set_ft_bufs bufs s))); [unfold kmalloc_buf; simpl; by rewrite Hb|].
  rstep (set_cluster_value_runs uninit (set_ft_dev d2 (set_ft_bufs bufs s)) fs _ C c 0 Hd2 (table_end_valid fs c Hcv)).
  intros _ s3 (d3 & -> & Hd3). apply runs_ret. split; [done|]. eexists. split; [exact Hd3|].
  change (Z.land 0 0x0FFFFFFF) with 0. assert (Hne : prev ≠ c) by (intros ->; done).
  assert (H2 : 2 <= prev) by (unfold valid in Hprev; lia).
  split; [rewrite fn_lookup_insert_ne, linked_at, decide_True by done; done|]. split; [by rewrite fn_lookup_insert|].
  rewrite <- Hf. unfold free_list.
  apply list_filter_iff. intros y. destruct (decide (y = c)) as [->|Hy]; [rewrite fn_lookup_insert; tauto|].
  rewrite fn_lookup_insert_ne, linked_at by done. repeat case_decide; naive_solver lia.
Qed.
End failure.

(** ** A disk in memory, with a directory and a file of one cluster *)

Record ramdisk := mk_ramdisk { rd_size : Z; rd_bytes : mem }.
Definition ramdisk_inside (d : ramdisk) (off n : Z) : bool := (0 <=? off) && (off + n <=? rd_size d).
#[export] Program Instance ramdisk_device : BlockDevice ramdisk := {|
  dev_read _ off n buf := λ d,
    Done (if ramdisk_inside d off n then (n, λ x, if decide (0 <= x < n) then rd_bytes d (off + x) else buf x) else (0, buf), d);
  dev_write _ off n buf := λ d,
    if ramdisk_inside d off n then Done (n, mk_ramdisk (rd_size d) (λ x, if decide (off <= x < off + n) then buf (x - off) else rd_bytes d x))
    else Done (0, d);
  dev_ok _ _ := True;
  dev_size d _ := rd_size d;
  dev_byte d _ x := rd_bytes d x;
|}.
Next Obligation.
  intros d a off n buf _ Ho Hn _ _ Hin. unfold ramdisk_inside. rewrite (proj2 (Z.leb_le 0 off)), (proj2 (Z.leb_le _ _)) by done.
  eexists _, d. split; [reflexivity|]. done.
Qed.
Next Obligation.
  intros d a off n buf _ Ho Hn _ _ Hin. simpl. unfold ramdisk_inside. rewrite (proj2 (Z.leb_le 0 off)), (proj2 (Z.leb_le _ _)) by done.
  eexists. split; [reflexivity|]. done.
Qed.

(** A disk of 8 sectors: a boot sector, a table with the entries [T], and the
    clusters 2 to 5, of a sector each, with the bytes [C]. *)
Definition exf_fs : fat32_fs := mk_fat32_fs 9 1 512 1 2 2 4.
Definition small_disk (T : Z → Z) (C : Z → Z → Z) : ramdisk := mk_ramdisk 4096 (λ x,
  if x <? 512 then 0
  else if x <? 1024 then T ((x - 512) / 4) / 256 ^ (x mod 4) mod 256
  else C ((x - 1024) / 512 + 2) (x mod 512)).
Lemma small_disk_is T C : (∀ c, 0 <= c < 128 → 0 <= T c < 2 ^ 28) → disk_is (small_disk T C) exf_fs T C.
Proof.
  intros HT. split.
  - done.
  - split; vm_compute; first [done|split; congruence|congruence].
  - intros c Hc. change (table_end exf_fs) with 128 in Hc. change (fat_pos exf_fs c) with (512 + 4 * c). specialize (HT c Hc).
    change (dev_byte (small_disk T C) (fs_device exf_fs)) with (rd_bytes (small_disk T C)). unfold load32.
    assert (Hb : ∀ k, 0 <= k < 4 → rd_bytes (small_disk T C) (512 + 4 * c + k) = T c / 256 ^ k mod 256).
    { intros k Hk. cbn [small_disk rd_bytes]. rewrite (proj2 (Z.ltb_ge _ _)), (proj2 (Z.ltb_lt _ _)) by lia.
      replace ((512 + 4 * c + k - 512) / 4) with c by zlia. by replace ((512 + 4 * c + k) mod 4) with k by zlia. }
    pose proof (Hb 0 ltac:(lia)) as H0. pose proof (Hb 1 ltac:(lia)) as H1. pose proof (Hb 2 ltac:(lia)) as H2. pose proof (Hb 3 ltac:(lia)) as H3.
    rewrite Z.add_0_r in H0. change 0x0FFFFFFF with (2 ^ 28 - 1). rewrite land_ones_mod by lia. cbn [load_le].
    replace (512 + 4 * c + 1 + 1) with (512 + 4 * c + 2) by lia. replace (512 + 4 * c + 2 + 1) with (512 + 4 * c + 3) by lia. rewrite H0, H1, H2, H3.
    change (256 ^ 0) with 1. change (256 ^ 1) with 256. change (256 ^ 2) with 65536. change (256 ^ 3) with 16777216. change (2 ^ 28) with 268435456 in *. zlia.
  - intros c o Hc Ho. change (valid exf_fs c) with (2 <= c < 6) in Hc. change (fs_bytes_per_cluster exf_fs) with 512 in Ho.
    change (dev_byte (small_disk T C) (fs_device exf_fs)) with (rd_bytes (small_disk T C)). unfold cluster_pos. cbn [small_disk rd_bytes].
    change (fs_bytes_per_cluster exf_fs) with 512. change (fs_cluster_begin_lba exf_fs) with 2. rewrite !(proj2 (Z.ltb_ge _ _)) by lia. f_equal; zlia.
Qed.
(** The clusters 2 and 3 are in use, 4 and 5 free. *)
Definition exf_table (c : Z) : Z := if (c =? 4) || (c =? 5) then 0 else FAT_EOC.
Definition exf_data (c o : Z) : Z := (512 * c + o) mod 251.
Definition exf_disk : ramdisk := small_disk exf_table exf_data.
Definition exf_inode : inode := mk_inode [] FS_FILE 0 0 0 100 0 1 0 7 1 0 0 no_info.
Definition exf_file : fat32_file := mk_fat32_file exf_fs 3 2 2 0.
Definition exf_zeros : mem := λ _, 0.
Definition exf_state : fatst (D := ramdisk) :=
  mk_fatst exf_disk {[1 := exf_inode]} {[7 := exf_file]} [Some exf_zeros; Some exf_zeros; Some exf_zeros; Some exf_zeros] [] 1700000000.
Lemma exf_disk_is : disk_is (ft_dev exf_state) exf_fs exf_table exf_data.
Proof. apply small_disk_is. intros c _. unfold exf_table. by destruct ((c =? 4) || (c =? 5)). Qed.
Lemma exf_tight : table_tight exf_fs exf_table.
Proof.
  intros c Hc. assert (Hf : free_list exf_fs exf_table = [4; 5]) by (vm_compute; reflexivity). rewrite Hf in Hc.
  change (valid exf_fs c) with (2 <= c < 6). rewrite !elem_of_cons, elem_of_nil in Hc. lia.
Qed.
Lemma exf_fat_file : fat_file exf_fs exf_state 1 exf_inode exf_file exf_table exf_data [3].
Proof.
  split; try done.
  - apply exf_disk_is.
  - left. split; [done|]. split; [done|]. split; [split; vm_compute; congruence|]. vm_compute. congruence.
  - right. split; [split; vm_compute; congruence|]. by apply (bool_decide_unpack _).
Qed.
Lemma exf_clock : clock_ok exf_state.
Proof. eexists. vm_compute. reflexivity. Qed.

(** 60 bytes asked for at the offset 90 of the file of 100 bytes. *)
Lemma fat32_read_contents_witness : ∃ r buf s', fat32_read_file exf_zeros 1 90 60 exf_zeros exf_state = Done ((r, buf), s') ∧
  r = 10 ∧ buf 9 = 1635 mod 251.
Proof.
  pose proof (fat32_read_contents exf_zeros exf_fs exf_state 1 exf_inode exf_file exf_table exf_data [3] 90 60 exf_zeros exf_zeros _
    exf_fat_file exf_clock eq_refl ltac:(lia) ltac:(lia) ltac:(lia)) as H.
  apply runs_to_inv in H as ([r buf] & s' & Hrun & Hr & Hbuf & _). exists r, buf, s'. split; [exact Hrun|]. cbn [fst snd] in Hr, Hbuf.
  split; [rewrite Hr; reflexivity|]. rewrite Hbuf. vm_compute. reflexivity.
Defined.
Definition exf_oom : fatst (D := ramdisk) := set_ft_bufs [None] exf_state.
Lemma allocate_cluster_oom_links_free_witness : ∃ s' T', allocate_cluster exf_zeros exf_fs 3 exf_oom = Done (0, s') ∧
  disk_is (ft_dev s') exf_fs T' exf_data ∧ T' 3 = 4 ∧ T' 4 = 0.
Proof.
  pose proof (allocate_cluster_oom_links_free exf_zeros exf_fs exf_oom exf_table exf_data 3 4 [5] [] exf_disk_is exf_tight) as H.
  apply runs_to_inv in H as (x & s' & Hrun & -> & T' & Hd & H1 & H2 & _);
    [|split; vm_compute; congruence|vm_compute; congruence|vm_compute; reflexivity|reflexivity].
  exists s', T'. split; [exact Hrun|]. split; [exact Hd|]. split; [exact H1|exact H2].
Defined.
