(* ===== verification/FatDir.v ===== *)
(** The directories of the FAT32 file system, [kernel/fs/fat32.c]: the entries
    of a directory, the searches, creation and removal, and the mount.  The
    loops over the clusters of a chain take the number of their passes, since a
    damaged table can make a chain a cycle. *)
From stdpp Require Import functions.
From S2P Require Export FatFile.
Local Open Scope Z_scope.
Local Open Scope prog_scope.

(** ** Directory entries

    [fat_dir_entry_t], the entry number [i] of a buffer, and [fat_lfn_entry_t],
    the same 32 bytes. *)
Definition ENTRY_SIZE : Z := 32.
Definition S_ISDIR (m : Z) : bool := Z.land m S_IFMT =? S_IFDIR.
Definition d_first (buf : mem) (i : Z) : Z := buf (32 * i).
Definition d_name (buf : mem) (i : Z) : list Z := bytes_at buf (32 * i) 11.
Definition d_attr (buf : mem) (i : Z) : Z := buf (32 * i + 11).
Definition d_create_time (buf : mem) (i : Z) : Z := load16 buf (32 * i + 14).
Definition d_create_date (buf : mem) (i : Z) : Z := load16 buf (32 * i + 16).
Definition d_access_date (buf : mem) (i : Z) : Z := load16 buf (32 * i + 18).
Definition d_write_time (buf : mem) (i : Z) : Z := load16 buf (32 * i + 22).
Definition d_write_date (buf : mem) (i : Z) : Z := load16 buf (32 * i + 24).
Definition d_file_size (buf : mem) (i : Z) : Z := load32 buf (32 * i + 28).
(** [(fst_clus_hi << 16) | fst_clus_lo], an [int]. *)
Definition d_cluster (buf : mem) (i : Z) : Z :=
  i32 (Z.lor (Z.shiftl (load16 buf (32 * i + 20)) 16) (load16 buf (32 * i + 26))).
Definition load16s (buf : mem) (a n : Z) : list Z := map (λ k, load16 buf (a + 2 * k)) (seqZ 0 n).
Definition lfn_at (buf : mem) (i : Z) : fat_lfn_entry :=
  let a := 32 * i in
  mk_lfn (buf a) (load16s buf (a + 1) 5) (buf (a + 11)) (buf (a + 12)) (buf (a + 13)) (load16s buf (a + 14) 6)
    (load16 buf (a + 26)) (load16s buf (a + 28) 2).
Fixpoint store16s (buf : mem) (a : Z) (l : list Z) : mem :=
  match l with
  | [] => buf
  | c :: l' => store16s (store16 buf a c) (a + 2) l'
  end.
Definition store_lfn (buf : mem) (i : Z) (lfn : fat_lfn_entry) : mem :=
  let a := 32 * i in
  let buf := upd buf a (l_order lfn) in
  let buf := store16s buf (a + 1) (l_name1 lfn) in
  let buf := upd buf (a + 11) (l_attr lfn) in
  let buf := upd buf (a + 12) (l_type lfn) in
  let buf := upd buf (a + 13) (l_checksum lfn) in
  let buf := store16s buf (a + 14) (l_name2 lfn) in
  let buf := store16 buf (a + 26) (l_first_cluster lfn) in
  store16s buf (a + 28) (l_name3 lfn).

Definition set_in_ptr v n := mk_inode (in_name n) (in_flags n) (in_uid n) (in_gid n) (in_mode n) (in_size n)
  (in_id n) (in_nlink n) (in_ops n) v (in_ref_count n) (in_mount_point n) (in_parent n) (in_info n).

(** The long name read so far: the array has no contents at first. *)
Definition no_name : lfn_state := mk_lfn_state [] 0 false.

(** What the loop over the entries of a cluster ends with: all were seen, the
    end of the directory, or an entry. *)
Inductive scan (A B : Type) :=
  | ScanNext (st : A)
  | ScanEnd
  | ScanFound (found : B).
Arguments ScanNext {A B} _.
Arguments ScanEnd {A B}.
Arguments ScanFound {A B} _.

(** The [n] entries from [i] for [search_name], in upper case: the index and
    the name of the entry.  [None] is a store outside a local array, or a string
    without its end. *)
Fixpoint lookup_scan (n : nat) (buf : mem) (i : Z) (search_name : list Z) (st : lfn_state)
    : option (scan lfn_state (Z * list Z)) :=
  match n with
  | O => Some (ScanNext st)
  | S n' =>
      if d_first buf i =? 0x00 then Some ScanEnd
      else if d_first buf i =? 0xE5 then lookup_scan n' buf (i + 1) search_name (no_lfn st)
      else if d_attr buf i =? FAT_ATTR_LFN then
        st ← lfn_step (lfn_at buf i) st;
        lookup_scan n' buf (i + 1) search_name st
      else
        name ← entry_name st (d_name buf i) 255;
        upper_entry ← strncpy_name name 255;
        if decide (search_name = to_upper upper_entry) then Some (ScanFound (i, name))
        else lookup_scan n' buf (i + 1) search_name (no_lfn st)
  end.

(** The short name among the [n] entries from [i]. *)
Fixpoint short_scan (n : nat) (buf : mem) (i : Z) (short_name : list Z) : scan unit unit :=
  match n with
  | O => ScanNext tt
  | S n' =>
      if d_first buf i =? 0x00 then ScanEnd
      else if d_first buf i =? 0xE5 then short_scan n' buf (i + 1) short_name
      else if d_attr buf i =? FAT_ATTR_LFN then short_scan n' buf (i + 1) short_name
      else if decide (d_name buf i = short_name) then ScanFound tt
      else short_scan n' buf (i + 1) short_name
  end.

(** The free entries in a row so far: where the first is, and how many. *)
Record free_run := mk_free_run { fr_cluster : Z; fr_offset : Z; fr_count : Z }.
Definition is_free (buf : mem) (i : Z) : bool := (d_first buf i =? 0x00) || (d_first buf i =? 0xE5).
Fixpoint free_scan (n : nat) (buf : mem) (i cluster count : Z) (r : free_run) : scan free_run free_run :=
  match n with
  | O => ScanNext r
  | S n' =>
      if is_free buf i then
        let r := if fr_count r =? 0 then mk_free_run cluster (u32 (i * ENTRY_SIZE)) (fr_count r) else r in
        let r := mk_free_run (fr_cluster r) (fr_offset r) (fr_count r + 1) in
        if count <=? fr_count r then ScanFound r else free_scan n' buf (i + 1) cluster count r
      else free_scan n' buf (i + 1) cluster count (mk_free_run (fr_cluster r) (fr_offset r) 0)
  end.

(** An entry other than [.] and [..] among the [n] from [i]. *)
Fixpoint empty_scan (n : nat) (buf : mem) (i : Z) : scan unit unit :=
  match n with
  | O => ScanNext tt
  | S n' =>
      if d_first buf i =? 0x00 then ScanEnd
      else if d_first buf i =? 0xE5 then empty_scan n' buf (i + 1)
      else if d_attr buf i =? FAT_ATTR_LFN then empty_scan n' buf (i + 1)
      else if (d_first buf i =? 46) && ((buf (32 * i + 1) =? 32) || (buf (32 * i + 1) =? 46)) then empty_scan n' buf (i + 1)
      else ScanFound tt
  end.

(** The search of [delete_dir_entries]: the long name, and the cluster and index
    of its first entry. *)
Record del_state := mk_del_state { de_lfn : lfn_state; de_cluster : Z; de_idx : Z }.
Fixpoint delete_scan (n : nat) (buf : mem) (i cluster : Z) (search_name : list Z) (st : del_state)
    : option (scan del_state (Z * Z * Z)) :=
  match n with
  | O => Some (ScanNext st)
  | S n' =>
      if d_first buf i =? 0x00 then Some ScanEnd
      else if d_first buf i =? 0xE5 then
        delete_scan n' buf (i + 1) cluster search_name (mk_del_state (no_lfn (de_lfn st)) (de_cluster st) (de_idx st))
      else if d_attr buf i =? FAT_ATTR_LFN then
        lfn ← lfn_step (lfn_at buf i) (de_lfn st);
        delete_scan n' buf (i + 1) cluster search_name
          (if has (l_order (lfn_at buf i)) 0x40 then mk_del_state lfn cluster i else mk_del_state lfn (de_cluster st) (de_idx st))
      else
        name ← entry_name (de_lfn st) (d_name buf i) 255;
        let st := if lf_valid (de_lfn st) && (lfn_checksum (d_name buf i) =? lf_expected (de_lfn st)) then st
                  else mk_del_state (de_lfn st) cluster i in
        upper_entry ← strncpy_name name 255;
        if decide (search_name = to_upper upper_entry) then Some (ScanFound (i, de_cluster st, de_idx st))
        else delete_scan n' buf (i + 1) cluster search_name (mk_del_state (no_lfn (de_lfn st)) (de_cluster st) (de_idx st))
  end.
Fixpoint mark_deleted (n : nat) (buf : mem) (j : Z) : mem :=
  match n with
  | O => buf
  | S n' => mark_deleted n' (upd buf (32 * j) 0xE5) (j + 1)
  end.

(** The search of [fat32_readdir] for the entry number [index]: the entry and
    the long name before it. *)
Fixpoint readdir_scan (n : nat) (buf : mem) (i index : Z) (st : lfn_state * Z) : option (scan (lfn_state * Z) (Z * lfn_state)) :=
  match n with
  | O => Some (ScanNext st)
  | S n' =>
      let '(lfn, entry_idx) := st in
      if d_first buf i =? 0x00 then Some ScanEnd
      else if d_first buf i =? 0xE5 then readdir_scan n' buf (i + 1) index (no_lfn lfn, entry_idx)
      else if d_attr buf i =? FAT_ATTR_LFN then
        lfn ← lfn_step (lfn_at buf i) lfn;
        readdir_scan n' buf (i + 1) index (lfn, entry_idx)
      else if entry_idx =? index then Some (ScanFound (i, lfn))
      else readdir_scan n' buf (i + 1) index (no_lfn lfn, entry_idx + 1)
  end.
(** The name that [fat32_readdir] gives; [None] is a store outside its array. *)
Definition readdir_name (lfn : lfn_state) (short : list Z) (buflen : Z) : option (list Z) :=
  if (1 <=? buflen) && (buflen <=? 256) then
    Some (take (Z.to_nat (buflen - 1))
      (if lf_valid lfn && (lfn_checksum short =? lf_expected lfn) then c_str (lf_buffer lfn) else fat_get_short_name short))
  else None.

(** The entries from [written] to the buffer from the index [entry_idx]. *)
Fixpoint put_entries (n : nat) (entries_per_cluster entry_idx written count : Z) (buf entries : mem) : mem * Z * Z :=
  match n with
  | O => (buf, entry_idx, written)
  | S n' =>
      if (entry_idx <? entries_per_cluster) && (written <? count) then
        put_entries n' entries_per_cluster (entry_idx + 1) (written + 1) count
          (copy buf (32 * entry_idx) entries (32 * written) ENTRY_SIZE) entries
      else (buf, entry_idx, written)
  end.
(** The long name entries at the start of [entries]. *)
Fixpoint put_lfns (buf : mem) (i : Z) (l : list fat_lfn_entry) : mem :=
  match l with
  | [] => buf
  | lfn :: l' => put_lfns (store_lfn buf i lfn) (i + 1) l'
  end.
(** The short name entry number [i], in a buffer of zeros. *)
Definition put_short (buf : mem) (i : Z) (short_name : list Z) (attr new_cluster now_date now_time : Z) : mem :=
  let a := 32 * i in
  let buf := Memory.put_bytes buf a short_name in
  let buf := upd buf (a + 11) attr in
  let buf := store16 buf (a + 20) (Z.land (Z.shiftr new_cluster 16) 0xFFFF) in
  let buf := store16 buf (a + 26) (Z.land new_cluster 0xFFFF) in
  let buf := store32 buf (a + 28) 0 in
  let buf := store16 buf (a + 16) now_date in
  let buf := store16 buf (a + 14) now_time in
  let buf := upd buf (a + 13) 0 in
  let buf := store16 buf (a + 24) now_date in
  let buf := store16 buf (a + 22) now_time in
  store16 buf (a + 18) now_date.
(** The entry [.] or [..] of a new directory. *)
Definition put_dot (buf : mem) (i : Z) (name : list Z) (cluster : Z) : mem :=
  let a := 32 * i in
  let buf := Memory.put_bytes buf a (name ++ replicate (11 - length name) 32) in
  let buf := upd buf (a + 11) FAT_ATTR_DIRECTORY in
  let buf := store16 buf (a + 20) (Z.land (Z.shiftr cluster 16) 0xFFFF) in
  store16 buf (a + 26) (Z.land cluster 0xFFFF).

Section directories.
Context {D : Type} `{!BlockDevice D}.
(** Local arrays before their first assignment, the passes over a chain, the
    address of [fat32_ops], and the identifiers of the devices' inodes. *)
Variable uninit : mem.
Variable fuel : nat.
Variable fat32_ops : Z.
Variable device_id : Z → Z.

(** [kmalloc] of a buffer that is used without a test. *)
Definition kmalloc_used : M (fatst (D := D)) mem :=
  o <- kmalloc_buf;;
  match o with Some buf => ret buf | None => faultM end.
Definition kmalloc_obj_used : M (fatst (D := D)) Z :=
  a <- kmalloc_obj;;
  if a =? 0 then faultM else ret a.
Definition new_node (a : Z) (n : inode) : M (fatst (D := D)) unit := modify (λ s, set_ft_nodes (<[a := n]> (ft_nodes s)) s).
Definition new_ff (a : Z) (f : fat32_file) : M (fatst (D := D)) unit := modify (λ s, set_ft_files (<[a := f]> (ft_files s)) s).
Definition kfree_ff (a : Z) : M (fatst (D := D)) unit := modify (λ s, set_ft_files (delete a (ft_files s)) s).
Definition kfree_node (a : Z) : M (fatst (D := D)) unit := modify (λ s, set_ft_nodes (delete a (ft_nodes s)) s).
Definition entries_per_cluster (fs : fat32_fs) : Z := fs_bytes_per_cluster fs / ENTRY_SIZE.

(** ** Searches *)

(** The clusters of a directory from [cluster], each scanned by [scan1]: what
    was found, with its cluster and the buffer that holds it. *)
Fixpoint scan_loop {A B} (n : nat) (fs : fat32_fs) (scan1 : Z → mem → A → option (scan A B)) (cluster : Z) (buf : mem) (st : A)
    : M (fatst (D := D)) (option (Z * mem * B)) :=
  match n with
  | O => faultM
  | S n' =>
      if FAT_EOC <=? cluster then ret None
      else
        '(_, buf) <- read_cluster fs cluster buf;;
        match scan1 cluster buf st with
        | None => faultM
        | Some ScanEnd => ret None
        | Some (ScanFound b) => ret (Some (cluster, buf, b))
        | Some (ScanNext st) =>
            cluster <- get_next_cluster uninit fs cluster;;
            scan_loop n' fs scan1 cluster buf st
        end
  end.
Definition search_of (name : list Z) : list Z := to_upper (take 255 name).

(** The inode of the entry number [i] of [buf], the contents of [cluster]. *)
Definition lookup_result (fs : fat32_fs) (dir_info : fat32_file) (cluster : Z) (buf : mem) (i : Z) (entry_name : list Z) : M fatst Z :=
  result <- kmalloc_obj_used;;
  ctime <- unix_time (d_create_date buf i) (d_create_time buf i);;
  mtime <- unix_time (d_write_date buf i) (d_write_time buf i);;
  atime <- unix_time (d_access_date buf i) 0;;
  let dir := has (d_attr buf i) FAT_ATTR_DIRECTORY in
  file_data <- kmalloc_obj_used;;
  new_ff file_data (mk_fat32_file fs (u32 (d_cluster buf i)) (ff_first_cluster dir_info) cluster (u32 (i * ENTRY_SIZE)));;;
  new_node result
    (mk_inode (take 63 entry_name) (Z.lor (if dir then FS_DIRECTORY else FS_FILE) FS_TEMPORARY) 0 0
       (if dir then Z.lor S_IFDIR 0x1ED else Z.lor S_IFREG 0x1A4) (d_file_size buf i) (u64 (d_cluster buf i)) 1
       fat32_ops file_data 1 0 0
       (mk_inode_info (device_id (fs_device fs)) 0 (fs_bytes_per_cluster fs) (u32 (d_file_size buf i + 511) / 512) atime ctime mtime));;;
  ret result.
Definition fat32_lookup (node : Z) (name : list Z) : M fatst Z :=
  n <- get_node node;;
  dir_info <- get_ff (in_ptr n);;
  let fs := ff_fs dir_info in
  buf <- kmalloc_used;;
  o <- scan_loop fuel fs (λ _ buf st, lookup_scan (Z.to_nat (entries_per_cluster fs)) buf 0 (search_of name) st)
    (ff_first_cluster dir_info) buf no_name;;
  match o with
  | None => ret 0
  | Some (cluster, buf, (i, entry_name)) =>
      lookup_result fs dir_info cluster buf i entry_name
  end.

Definition short_name_exists (fs : fat32_fs) (dir_cluster : Z) (short_name : list Z) : M fatst bool :=
  buf <- kmalloc_used;;
  o <- scan_loop fuel fs (λ _ buf _, Some (short_scan (Z.to_nat (entries_per_cluster fs)) buf 0 short_name)) dir_cluster buf tt;;
  ret (bool_decide (is_Some o)).
(** The suffixes [i], [i + 1], ...; the last name stays when all exist. *)
Fixpoint suffix_loop (n : nat) (fs : fat32_fs) (dir_cluster : Z) (long_name : list Z) (i : Z) (short_name : list Z) : M fatst (list Z) :=
  match n with
  | O => ret short_name
  | S n' =>
      let short_name := generate_short_name long_name i in
      e <- short_name_exists fs dir_cluster short_name;;
      if (e : bool) then suffix_loop n' fs dir_cluster long_name (i + 1) short_name else ret short_name
  end.
Definition generate_unique_short_name (fs : fat32_fs) (dir_cluster : Z) (long_name : list Z) : M fatst (list Z) :=
  let short_name := generate_short_name long_name 0 in
  e <- short_name_exists fs dir_cluster short_name;;
  if (e : bool) then suffix_loop (Z.to_nat 999998) fs dir_cluster long_name 1 short_name else ret short_name.

Definition is_directory_empty (fs : fat32_fs) (dir_cluster : Z) : M fatst bool :=
  buf <- kmalloc_used;;
  o <- scan_loop fuel fs (λ _ buf _, Some (empty_scan (Z.to_nat (entries_per_cluster fs)) buf 0)) dir_cluster buf tt;;
  ret (negb (bool_decide (is_Some o))).

(** The name and whether it is a directory. *)
Definition fat32_readdir (node index buflen : Z) : M fatst (option (list Z * Z)) :=
  n <- get_node node;;
  dir_info <- get_ff (in_ptr n);;
  let fs := ff_fs dir_info in
  buf <- kmalloc_used;;
  o <- scan_loop fuel fs (λ _ buf st, readdir_scan (Z.to_nat (entries_per_cluster fs)) buf 0 index st) (ff_first_cluster dir_info) buf (no_name, 0);;
  match o with
  | None => ret None
  | Some (_, buf, (i, lfn)) =>
      match readdir_name lfn (d_name buf i) buflen with
      | None => faultM
      | Some name => ret (Some (name, if has (d_attr buf i) FAT_ATTR_DIRECTORY then 1 else 0))
      end
  end.

(** ** Creation *)

(** The directory is extended at its end; [None] when that fails. *)
Fixpoint entry_run_loop (n : nat) (fs : fat32_fs) (count cluster : Z) (buf : mem) (r : free_run) : M fatst (option (Z * Z)) :=
  match n with
  | O => faultM
  | S n' =>
      if FAT_EOC <=? cluster then ret None
      else
        '(_, buf) <- read_cluster fs cluster buf;;
        match free_scan (Z.to_nat (entries_per_cluster fs)) buf 0 cluster count r with
        | ScanFound r => ret (Some (fr_cluster r, fr_offset r))
        | ScanEnd => ret None
        | ScanNext r =>
            o <- next_to_write uninit fs cluster;;
            match o with
            | None => ret None
            | Some next => entry_run_loop n' fs count next buf r
            end
        end
  end.
Definition find_free_dir_entries (fs : fat32_fs) (dir_cluster count : Z) : M fatst (option (Z * Z)) :=
  buf <- kmalloc_used;;
  entry_run_loop fuel fs count dir_cluster buf (mk_free_run 0 0 0).

Fixpoint entries_loop (n : nat) (fs : fat32_fs) (cluster entry_idx written count : Z) (buf entries : mem) : M fatst bool :=
  match n with
  | O => faultM
  | S n' =>
      if (written <? count) && (cluster <? FAT_EOC) then
        '(_, buf) <- read_cluster fs cluster buf;;
        let '(buf, entry_idx, written) := put_entries (Z.to_nat count) (entries_per_cluster fs) entry_idx written count buf entries in
        write_cluster fs cluster buf;;;
        (if written <? count then
           cluster <- get_next_cluster uninit fs cluster;;
           entries_loop n' fs cluster 0 written count buf entries
         else entries_loop n' fs cluster entry_idx written count buf entries)
      else ret (written =? count)
  end.
Definition write_dir_entries (fs : fat32_fs) (start_cluster start_offset : Z) (entries : mem) (count : Z) : M fatst bool :=
  buf <- kmalloc_used;;
  entries_loop fuel fs start_cluster (start_offset / ENTRY_SIZE) 0 count buf entries.

(** The first cluster of a directory, with [.] and [..]. *)
Definition init_directory (fs : fat32_fs) (parent_info : fat32_file) (new_cluster : Z) : M fatst bool :=
  o <- kmalloc_buf;;
  match o with
  | None => ret false
  | Some dir_buf =>
      let dir_buf := put_dot (fill dir_buf 0 (fs_bytes_per_cluster fs)) 0 [46] new_cluster in
      let parent_clus := if ff_first_cluster parent_info =? fs_root_cluster fs then 0 else ff_first_cluster parent_info in
      write_cluster fs new_cluster (put_dot dir_buf 1 [46; 46] parent_clus);;;
      ret true
  end.
(** The end of [fat32_create_entry]: the inode of the new entry.  When one of
    the objects cannot be allocated the code also frees [entries] again. *)
Definition created_node (parent_info : fat32_file) (name : list Z) (attr new_cluster entry_cluster entry_offset lfn_count now_date now_time : Z) : M fatst Z :=
  let fs := ff_fs parent_info in
  node <- kmalloc_obj;;
  if node =? 0 then ret 0
  else
    now_unix <- unix_time now_date now_time;;
    file_data <- kmalloc_obj;;
    if file_data =? 0 then ret 0
    else
      new_ff file_data (mk_fat32_file fs new_cluster (ff_first_cluster parent_info) entry_cluster (u32 (entry_offset + lfn_count * ENTRY_SIZE)));;;
      new_node node
        (mk_inode (take 63 name) (Z.lor (if has attr FAT_ATTR_DIRECTORY then FS_DIRECTORY else FS_FILE) FS_TEMPORARY) 0 0 0 0 new_cluster 0
           fat32_ops file_data 1 0 0 (mk_inode_info 0 0 0 0 now_unix now_unix now_unix));;;
      ret node.
Definition fat32_create_entry (parent : Z) (name : list Z) (attr : Z) : M fatst Z :=
  n <- get_node parent;;
  parent_info <- get_ff (in_ptr n);;
  let fs := ff_fs parent_info in
  short_name <- generate_unique_short_name fs (ff_first_cluster parent_info) name;;
  let checksum := lfn_checksum short_name in
  let lfn_count := if needs_lfn name then lfn_entries_needed name else 0 in
  let total_entries := lfn_count + 1 in
  o <- find_free_dir_entries fs (ff_first_cluster parent_info) total_entries;;
  match o with
  | None => ret 0
  | Some (entry_cluster, entry_offset) =>
      let dir := has attr FAT_ATTR_DIRECTORY in
      new_cluster <- (if dir then allocate_cluster uninit fs 0 else ret 0);;
      if dir && (new_cluster =? 0) then ret 0
      else
        entries <- kmalloc_used;;
        let entries := fill entries 0 (total_entries * ENTRY_SIZE) in
        let entries := put_lfns entries 0 (if needs_lfn name then lfn_entries name checksum else []) in
        '(now_date, now_time) <- now_fat;;
        let entries := put_short entries lfn_count short_name attr new_cluster now_date now_time in
        ok <- write_dir_entries fs entry_cluster entry_offset entries total_entries;;
        if negb ok then ret 0
        else
          ok <- (if dir then init_directory fs parent_info new_cluster else ret true);;
          if negb ok then ret 0
          else created_node parent_info name attr new_cluster entry_cluster entry_offset lfn_count now_date now_time
  end.
Definition fat32_create (parent : Z) (name : list Z) : M fatst Z := fat32_create_entry parent name FAT_ATTR_ARCHIVE.
Definition fat32_mkdir (parent : Z) (name : list Z) : M fatst Z := fat32_create_entry parent name FAT_ATTR_DIRECTORY.
Definition fat32_mknod (parent : Z) (name : list Z) (mode dev : Z) : M fatst Z :=
  if S_ISDIR mode then fat32_mkdir parent name
  else if S_ISREG mode then fat32_create parent name
  else ret 0.

(** ** Removal *)

Fixpoint free_cluster_chain (n : nat) (fs : fat32_fs) (cluster : Z) : M fatst unit :=
  match n with
  | O => faultM
  | S n' =>
      if (2 <=? cluster) && (cluster <? FAT_EOC) then
        next <- get_next_cluster uninit fs cluster;;
        set_cluster_value uninit fs cluster 0;;;
        free_cluster_chain n' fs next
      else ret tt
  end.
(** The entry number [i] of [buf], the contents of [cluster], and its long name
    entries are marked, and the clusters of the file become free. *)
Definition mark_and_free (fs : fat32_fs) (cluster : Z) (buf : mem) (i lfn_start_cluster lfn_start_idx : Z) : M fatst bool :=
  let file_cluster := u32 (d_cluster buf i) in
  let buf := upd buf (32 * i) 0xE5 in
  buf <-
    (if lfn_start_cluster =? cluster then ret (mark_deleted (Z.to_nat (i - lfn_start_idx)) buf lfn_start_idx)
     else
       lfn_buf <- kmalloc_used;;
       '(_, lfn_buf) <- read_cluster fs lfn_start_cluster lfn_buf;;
       write_cluster fs lfn_start_cluster (mark_deleted (Z.to_nat (entries_per_cluster fs - lfn_start_idx)) lfn_buf lfn_start_idx);;;
       ret buf);;
  write_cluster fs cluster buf;;;
  (if 2 <=? file_cluster then free_cluster_chain fuel fs file_cluster else ret tt);;;
  ret true.
(** 1 when the entry was found.  The buffer is written in that case only. *)
Definition delete_dir_entries (fs : fat32_fs) (dir_cluster : Z) (name : list Z) : M fatst bool :=
  buf <- kmalloc_used;;
  o <- scan_loop fuel fs
    (λ cluster buf st, delete_scan (Z.to_nat (entries_per_cluster fs)) buf 0 cluster (search_of name) st)
    dir_cluster buf (mk_del_state no_name 0 0);;
  match o with
  | None => ret false
  | Some (cluster, buf, (i, lfn_start_cluster, lfn_start_idx)) =>
      mark_and_free fs cluster buf i lfn_start_cluster lfn_start_idx
  end.
Definition fat32_unlink (parent : Z) (name : list Z) : M fatst Z :=
  n <- get_node parent;;
  parent_info <- get_ff (in_ptr n);;
  target <- fat32_lookup parent name;;
  if target =? 0 then ret (-1)
  else
    t <- get_node target;;
    kfree_ff (in_ptr t);;;
    kfree_node target;;;
    if has (in_flags t) FS_DIRECTORY then ret (-1)
    else
      ok <- delete_dir_entries (ff_fs parent_info) (ff_first_cluster parent_info) name;;
      ret (if (ok : bool) then 0 else -1).
Definition fat32_rmdir (parent : Z) (name : list Z) : M fatst Z :=
  n <- get_node parent;;
  parent_info <- get_ff (in_ptr n);;
  let fs := ff_fs parent_info in
  target <- fat32_lookup parent name;;
  if target =? 0 then ret (-1)
  else
    t <- get_node target;;
    if negb (has (in_flags t) FS_DIRECTORY) then
      kfree_ff (in_ptr t);;;
      kfree_node target;;;
      ret (-1)
    else
      target_info <- get_ff (in_ptr t);;
      e <- is_directory_empty fs (ff_first_cluster target_info);;
      kfree_ff (in_ptr t);;;
      kfree_node target;;;
      if negb e then ret (-1)
      else
        ok <- delete_dir_entries fs (ff_first_cluster parent_info) name;;
        ret (if (ok : bool) then 0 else -1).
Definition fat32_close (node : Z) : M fatst unit :=
  n <- get_node node;;
  if in_ptr n =? 0 then ret tt
  else kfree_ff (in_ptr n);;; mod_node node (set_in_ptr 0).

(** ** The mount

    The fields of [fat32_bpb_t] and of the first [mbr_partition_t] that are
    used, in a buffer with a sector. *)
Definition bpb_bytes_per_sector (buf : mem) : Z := load16 buf 11.
Definition bpb_sectors_per_cluster (buf : mem) : Z := buf 13.
Definition bpb_reserved_sectors (buf : mem) : Z := load16 buf 14.
Definition bpb_num_fats (buf : mem) : Z := buf 16.
Definition bpb_total_sectors_16 (buf : mem) : Z := load16 buf 19.
Definition bpb_sectors_per_fat_16 (buf : mem) : Z := load16 buf 22.
Definition bpb_total_sectors_32 (buf : mem) : Z := load32 buf 32.
Definition bpb_sectors_per_fat_32 (buf : mem) : Z := load32 buf 36.
Definition bpb_root_cluster (buf : mem) : Z := load32 buf 44.
Definition part_type (buf : mem) : Z := buf (0x1BE + 4).
Definition part_lba_start (buf : mem) : Z := load32 buf (0x1BE + 8).

(** The file system of a boot sector at the sector [partition_offset].  A
    division by zero gives 0, as on the processor. *)
Definition fs_of_bpb (device partition_offset : Z) (buf : mem) : fat32_fs :=
  let fat_size := if bpb_sectors_per_fat_32 buf =? 0 then bpb_sectors_per_fat_16 buf else bpb_sectors_per_fat_32 buf in
  let total_sectors := if bpb_total_sectors_32 buf =? 0 then bpb_total_sectors_16 buf else bpb_total_sectors_32 buf in
  let data_sectors := u32 (total_sectors - u32 (bpb_reserved_sectors buf + u32 (bpb_num_fats buf * fat_size))) in
  mk_fat32_fs device (bpb_sectors_per_cluster buf) (bpb_sectors_per_cluster buf * 512)
    (u32 (partition_offset + bpb_reserved_sectors buf))
    (u32 (partition_offset + bpb_reserved_sectors buf + u32 (bpb_num_fats buf * fat_size)))
    (bpb_root_cluster buf)
    (data_sectors / bpb_sectors_per_cluster buf).
(** The boot sector, with its place: sector 0, or the first partition's. *)
Definition find_boot_sector (device : Z) (buf : mem) : M fatst (option (Z * mem)) :=
  '(r, buf) <- on_dev (dev_read device 0 512 buf);;
  if negb (r =? 512) then ret None
  else if negb (buf 510 =? 0x55) || negb (buf 511 =? 0xAA) then ret None
  else
    o <-
      (if bpb_bytes_per_sector buf =? 0 then
         if (part_type buf =? 0x0B) || (part_type buf =? 0x0C) then
           let partition_offset := part_lba_start buf in
           '(_, buf) <- on_dev (dev_read device (u32 (partition_offset * 512)) 512 buf);;
           ret (Some (partition_offset, buf))
         else ret None
       else ret (Some (0, buf)));;
    match o with
    | None => ret None
    | Some (partition_offset, buf) => ret (if negb (bpb_bytes_per_sector buf =? 512) then None else Some (partition_offset, buf))
    end.
Definition fat32_mount (device : Z) : M fatst Z :=
  if device =? 0 then ret 0
  else
    o <- kmalloc_buf;;
    match o with
    | None => ret 0
    | Some buf =>
        o <- find_boot_sector device buf;;
        match o with
        | None => ret 0
        | Some (partition_offset, buf) =>
            kmalloc_obj_used;;;
            let fs := fs_of_bpb device partition_offset buf in
            root <- kmalloc_obj_used;;
            root_data <- kmalloc_obj_used;;
            new_ff root_data (mk_fat32_file fs (fs_root_cluster fs) 0 0 0);;;
            new_node root
              (mk_inode [47] FS_DIRECTORY 0 0 (Z.lor S_IFDIR 0x1ED) 0 0 2 fat32_ops root_data 0 0 0
                 (mk_inode_info (device_id device) 0 (fs_bytes_per_cluster fs) 0 0 0 0));;;
            ret root
        end
    end.
End directories.
