(* ===== verification/FatLookup.v ===== *)
(** The searches of a FAT32 directory: a directory is its chain of clusters,
    read as one sequence of entries. *)
From stdpp Require Import functions.
From S2P Require Export FatDir.
Local Open Scope Z_scope.
Local Open Scope prog_scope.

(** ** The scans depend on the entries only *)

(** [m1] from the entry [i] is [m2] from the entry [j], for [n] entries. *)
Definition same_entries (n : nat) (m1 : mem) (i : Z) (m2 : mem) (j : Z) : Prop :=
  ∀ x, 0 <= x < 32 * Z.of_nat n → m1 (32 * i + x) = m2 (32 * j + x).
Lemma same_entries_S n m1 i m2 j : same_entries (S n) m1 i m2 j → same_entries n m1 (i + 1) m2 (j + 1).
Proof. intros H x Hx. replace (32 * (i + 1) + x) with (32 * i + (32 + x)) by lia. rewrite H by lia. f_equal. lia. Qed.
Lemma same_entries_app a b m1 i m2 j : same_entries (a + b) m1 i m2 j → same_entries a m1 i m2 j ∧ same_entries b m1 (i + Z.of_nat a) m2 (j + Z.of_nat a).
Proof.
  intros H. split; intros x Hx; [apply H; lia|]. replace (32 * (i + Z.of_nat a) + x) with (32 * i + (32 * Z.of_nat a + x)) by lia.
  rewrite H by lia. f_equal. lia.
Qed.
Lemma same_entries_byte n m1 i m2 j a b o : same_entries (S n) m1 i m2 j → a = 32 * i + o → b = 32 * j + o → 0 <= o < 32 → m1 a = m2 b.
Proof. intros H -> -> Ho. apply H. lia. Qed.
Section one_entry.
Variables (n : nat) (m1 m2 : mem) (i j : Z).
Hypothesis same : same_entries (S n) m1 i m2 j.
#[local] Set Default Proof Using "All".
Lemma same_load o k : 0 <= o → o + Z.of_nat k <= 32 → load_le m1 (32 * i + o) k = load_le m2 (32 * j + o) k.
Proof. intros Ho Hk. apply load_le_move. intros x Hx. rewrite <- !Z.add_assoc. apply same. lia. Qed.
Lemma same_first : d_first m1 i = d_first m2 j.
Proof. apply (same_entries_byte n m1 i m2 j _ _ 0 same); lia. Qed.
Lemma same_attr : d_attr m1 i = d_attr m2 j.
Proof. by apply (same_entries_byte n m1 i m2 j _ _ 11 same). Qed.
Lemma same_bytes o k : 0 <= o → o + Z.of_nat k <= 32 → bytes_at m1 (32 * i + o) k = bytes_at m2 (32 * j + o) k.
Proof. intros Ho Hk. unfold bytes_at. apply map_ext_in. intros x Hx%in_seq. rewrite <- !Z.add_assoc. apply same. lia. Qed.
Lemma same_name : d_name m1 i = d_name m2 j.
Proof. unfold d_name. rewrite <- (Z.add_0_r (32 * i)), <- (Z.add_0_r (32 * j)). apply same_bytes; lia. Qed.
Lemma same_load16s o k : 0 <= o → o + 2 * k <= 32 → load16s m1 (32 * i + o) k = load16s m2 (32 * j + o) k.
Proof.
  intros Ho Hk. unfold load16s. apply map_ext_in. intros x Hx%list_elem_of_In%elem_of_seqZ. rewrite <- !Z.add_assoc.
  apply same_load; lia.
Qed.
Lemma same_lfn : lfn_at m1 i = lfn_at m2 j.
Proof.
  unfold lfn_at, load16. rewrite !same_load16s by lia. rewrite (same_load 26 2) by lia. pose proof same_first as H0. unfold d_first in H0. rewrite H0.
  do 2 f_equal; (eapply (same_entries_byte n m1 i m2 j _ _ _ same); [reflexivity|reflexivity|lia]).
Qed.
End one_entry.

Definition shift_found {A X} (k : Z) (r : scan A (Z * X)) : scan A (Z * X) :=
  match r with ScanFound (i, x) => ScanFound (i + k, x) | ScanNext st => ScanNext st | ScanEnd => ScanEnd end.
Lemma lookup_scan_same search n : ∀ m1 i m2 j st, same_entries n m1 i m2 j →
  lookup_scan n m1 i search st = shift_found (i - j) <$> lookup_scan n m2 j search st.
Proof.
  induction n as [|n IH]; intros m1 i m2 j st Hs; [done|]. cbn [lookup_scan].
  rewrite (same_first n m1 m2 i j Hs), (same_attr n m1 m2 i j Hs), (same_name n m1 m2 i j Hs), (same_lfn n m1 m2 i j Hs).
  apply same_entries_S in Hs. assert (Hr : ∀ st', lookup_scan n m1 (i + 1) search st' = shift_found (i - j) <$> lookup_scan n m2 (j + 1) search st').
  { intros st'. rewrite (IH m1 (i + 1) m2 (j + 1) st' Hs). by replace (i + 1 - (j + 1)) with (i - j) by lia. }
  destruct (d_first m2 j =? 0); [done|]. destruct (d_first m2 j =? 229); [apply Hr|]. destruct (d_attr m2 j =? FAT_ATTR_LFN).
  - destruct (lfn_step (lfn_at m2 j) st) as [st'|]; [apply Hr|done].
  - destruct (entry_name st (d_name m2 j) 255) as [nm|]; [|done]. cbn. destruct (strncpy_name nm 255) as [u|]; [|done]. cbn.
    case_decide; [|apply Hr]. cbn. do 3 f_equal. lia.
Qed.
(** The first [a] entries, then the others. *)
Lemma lookup_scan_app search a b m : ∀ i st,
  lookup_scan (a + b) m i search st =
    match lookup_scan a m i search st with
    | Some (ScanNext st') => lookup_scan b m (i + Z.of_nat a) search st'
    | r => r
    end.
Proof.
  induction a as [|a IH]; intros i st; [cbn; by rewrite Z.add_0_r|]. cbn [lookup_scan Nat.add].
  replace (i + Z.of_nat (S a)) with (i + 1 + Z.of_nat a) by lia.
  destruct (d_first m i =? 0); [done|]. destruct (d_first m i =? 229); [apply IH|]. destruct (d_attr m i =? FAT_ATTR_LFN).
  - destruct (lfn_step (lfn_at m i) st) as [st'|]; [apply IH|done].
  - destruct (entry_name st (d_name m i) 255) as [nm|]; [|done]. cbn. destruct (strncpy_name nm 255) as [u|]; [|done]. cbn.
    case_decide; [done|apply IH].
Qed.
Lemma lookup_scan_bound search n m : ∀ i st k nm, lookup_scan n m i search st = Some (ScanFound (k, nm)) →
  i <= k < i + Z.of_nat n ∧ d_first m k ≠ 0 ∧ ∃ u, strncpy_name nm 255 = Some u ∧ search = to_upper u.
Proof.
  induction n as [|n IH]; intros i st k nm; [done|]. cbn [lookup_scan].
  assert (Hr : ∀ st', lookup_scan n m (i + 1) search st' = Some (ScanFound (k, nm)) →
    i <= k < i + Z.of_nat (S n) ∧ d_first m k ≠ 0 ∧ ∃ u, strncpy_name nm 255 = Some u ∧ search = to_upper u).
  { intros st' H. apply IH in H as [? ?]. split; [lia|done]. }
  destruct (Z.eqb_spec (d_first m i) 0); [done|]. destruct (d_first m i =? 229); [apply Hr|]. destruct (d_attr m i =? FAT_ATTR_LFN).
  - destruct (lfn_step (lfn_at m i) st) as [st'|]; [apply Hr|done].
  - destruct (entry_name st (d_name m i) 255) as [nm'|]; [|done]. cbn. destruct (strncpy_name nm' 255) as [u|] eqn:Hu; [|done]. cbn.
    case_decide; [|apply Hr]. intros [= -> ->]. split; [lia|]. split; [done|]. by exists u.
Qed.

Lemma short_scan_same short n : ∀ m1 i m2 j, same_entries n m1 i m2 j → short_scan n m1 i short = short_scan n m2 j short.
Proof.
  induction n as [|n IH]; intros m1 i m2 j Hs; [done|]. cbn [short_scan].
  rewrite (same_first n m1 m2 i j Hs), (same_attr n m1 m2 i j Hs), (same_name n m1 m2 i j Hs).
  by rewrite (IH _ _ _ _ (same_entries_S _ _ _ _ _ Hs)).
Qed.
Lemma short_scan_app short a b m : ∀ i, short_scan (a + b) m i short =
  match short_scan a m i short with ScanNext _ => short_scan b m (i + Z.of_nat a) short | r => r end.
Proof.
  induction a as [|a IH]; intros i; [cbn; by rewrite Z.add_0_r|]. cbn [short_scan Nat.add].
  replace (i + Z.of_nat (S a)) with (i + 1 + Z.of_nat a) by lia. rewrite IH. repeat case_match; done.
Qed.

Lemma readdir_scan_same index n : ∀ m1 i m2 j st, same_entries n m1 i m2 j →
  readdir_scan n m1 i index st = shift_found (i - j) <$> readdir_scan n m2 j index st.
Proof.
  induction n as [|n IH]; intros m1 i m2 j [lfn e] Hs; [done|]. cbn [readdir_scan].
  rewrite (same_first n m1 m2 i j Hs), (same_attr n m1 m2 i j Hs), (same_lfn n m1 m2 i j Hs).
  apply same_entries_S in Hs. assert (Hr : ∀ st', readdir_scan n m1 (i + 1) index st' = shift_found (i - j) <$> readdir_scan n m2 (j + 1) index st').
  { intros st'. rewrite (IH m1 (i + 1) m2 (j + 1) st' Hs). by replace (i + 1 - (j + 1)) with (i - j) by lia. }
  destruct (d_first m2 j =? 0); [done|]. destruct (d_first m2 j =? 229); [apply Hr|]. destruct (d_attr m2 j =? FAT_ATTR_LFN).
  - destruct (lfn_step (lfn_at m2 j) lfn) as [st'|]; [apply Hr|done].
  - destruct (e =? index); [|apply Hr]. cbn. do 3 f_equal. lia.
Qed.
Lemma readdir_scan_app index a b m : ∀ i st,
  readdir_scan (a + b) m i index st =
    match readdir_scan a m i index st with
    | Some (ScanNext st') => readdir_scan b m (i + Z.of_nat a) index st'
    | r => r
    end.
Proof.
  induction a as [|a IH]; intros i [lfn e]; [cbn; by rewrite Z.add_0_r|]. cbn [readdir_scan Nat.add].
  replace (i + Z.of_nat (S a)) with (i + 1 + Z.of_nat a) by lia.
  destruct (d_first m i =? 0); [done|]. destruct (d_first m i =? 229); [apply IH|]. destruct (d_attr m i =? FAT_ATTR_LFN).
  - destruct (lfn_step (lfn_at m i) lfn) as [st'|]; [apply IH|done].
  - destruct (e =? index); [done|apply IH].
Qed.
Lemma readdir_scan_bound index n m : ∀ i st k lfn, readdir_scan n m i index st = Some (ScanFound (k, lfn)) → i <= k < i + Z.of_nat n.
Proof.
  induction n as [|n IH]; intros i [lfn0 e] k lfn; [done|]. cbn [readdir_scan].
  assert (Hr : ∀ st', readdir_scan n m (i + 1) index st' = Some (ScanFound (k, lfn)) → i <= k < i + Z.of_nat (S n)) by (intros st' H; apply IH in H; lia).
  destruct (d_first m i =? 0); [done|]. destruct (d_first m i =? 229); [apply Hr|]. destruct (d_attr m i =? FAT_ATTR_LFN).
  - destruct (lfn_step (lfn_at m i) lfn0) as [st'|]; [apply Hr|done].
  - destruct (e =? index); [|apply Hr]. intros [= -> ->]. lia.
Qed.

(** ** The listing of a directory

    The live entries among the [n] from [i], with their names: what a directory
    is for its users. *)
Fixpoint listing (n : nat) (m : mem) (i : Z) (st : lfn_state) : option (list (Z * list Z)) :=
  match n with
  | O => Some []
  | S n' =>
      if d_first m i =? 0x00 then Some []
      else if d_first m i =? 0xE5 then listing n' m (i + 1) (no_lfn st)
      else if d_attr m i =? FAT_ATTR_LFN then st ← lfn_step (lfn_at m i) st; listing n' m (i + 1) st
      else
        name ← entry_name st (d_name m i) 255;
        rest ← listing n' m (i + 1) (no_lfn st);
        Some ((i, name) :: rest)
  end.
(** The first entry with the name, upper and lower case being the same. *)
Definition find_name (name : list Z) (L : list (Z * list Z)) : option (Z * list Z) :=
  snd <$> list_find (λ e, search_of name = to_upper e.2) L.

Lemma find_name_cons name e L : find_name name (e :: L) = if decide (search_of name = to_upper e.2) then Some e else find_name name L.
Proof.
  unfold find_name, list_find. fold (list_find (λ e, search_of name = to_upper e.2) L). case_decide; [done|].
  by destruct (list_find _ L) as [[j x]|].
Qed.
Lemma c_str_app_zero l : existsb (Z.eqb 0) l = true → ∀ r, c_str (l ++ r) = c_str l.
Proof.
  induction l as [|c l IH]; [done|]. intros H r. unfold c_str in *. cbn [app before_char]. destruct (Z.eqb_spec 0 c); [done|].
  f_equal. apply IH. cbn [existsb] in H. by rewrite (proj2 (Z.eqb_neq 0 c)) in H.
Qed.
Lemma c_str_le l : (length (c_str l) <= length l)%nat.
Proof. unfold c_str. induction l as [|c l IH]; cbn [before_char length]; [lia|]. case_match; cbn [length]; lia. Qed.
Lemma c_str_nul l : existsb (Z.eqb 0) l = true → (length (c_str l) < length l)%nat.
Proof.
  unfold c_str. induction l as [|c l IH]; [done|]. cbn [existsb before_char length]. destruct (0 =? c); cbn [orb length]; [lia|]. intros H%IH. lia.
Qed.
Lemma c_str_idemp l : c_str (c_str l) = c_str l.
Proof. unfold c_str. induction l as [|c l IH]; [done|]. cbn [before_char]. destruct (0 =? c) eqn:Hc; [done|]. cbn [before_char]. by rewrite Hc, IH. Qed.
(** A C string of less than [n] characters. *)
Definition short_string (n : Z) (l : list Z) : Prop := c_str l = l ∧ Z.of_nat (length l) < n.
Lemma strncpy_name_id n l : short_string n l → strncpy_name l n = Some l.
Proof.
  intros [Hc Hl]. unfold strncpy_name. rewrite take_ge by lia. rewrite (proj2 (Z.ltb_lt _ _)) by lia. by rewrite orb_true_r, Hc.
Qed.
Lemma strncpy_name_short n src l : 0 < n → strncpy_name src n = Some l → l = c_str src ∧ short_string n l.
Proof.
  intros Hn. unfold strncpy_name. set (t := take (Z.to_nat n) src). destruct (existsb (Z.eqb 0) t || (Z.of_nat (length src) <? n)) eqn:Hb; [|done].
  intros [= <-]. assert (Ht : (length t <= Z.to_nat n)%nat) by (unfold t; rewrite length_take; lia).
  apply orb_true_iff in Hb as [Hz|Hl].
  - split; [|split; [apply c_str_idemp|pose proof (c_str_nul t Hz); lia]]. rewrite <- (take_drop (Z.to_nat n) src). fold t. by rewrite c_str_app_zero.
  - apply Z.ltb_lt in Hl. assert (t = src) as -> by (unfold t; apply take_ge; lia). split; [done|]. split; [apply c_str_idemp|]. pose proof (c_str_le src). lia.
Qed.
Lemma before_char_le p l : (length (before_char p l) <= length l)%nat.
Proof. induction l as [|c l IH]; cbn [before_char length]; [lia|]. case_match; cbn [length]; lia. Qed.
Lemma entry_name_short st short nm : length short = 11%nat → entry_name st short 255 = Some nm →
  short_string 255 nm ∧
  nm = if lf_valid st && (lfn_checksum short =? lf_expected st) then c_str (lf_buffer st) else fat_get_short_name short.
Proof.
  intros Hl. unfold entry_name. destruct (lf_valid st && _).
  - intros [-> H]%strncpy_name_short; [|lia]. by split.
  - intros [= <-]. split; [|done]. split; [apply c_str_idemp|]. unfold fat_get_short_name. match goal with |- Z.of_nat (length (c_str ?x)) < _ => pose proof (c_str_le x) as Hx end.
    rewrite length_app in Hx. pose proof (before_char_le (Z.eqb 32) (take 8 short)) as H1. rewrite length_take in H1.
    pose proof (before_char_le (Z.eqb 32) (drop 8 short)) as H2. rewrite length_drop in H2.
    destruct (nth 8 short 0 =? 32); cbn [length] in Hx; lia.
Qed.
Lemma d_name_length m i : length (d_name m i) = 11%nat.
Proof. apply bytes_at_length. Qed.

(** The search finds the first name of the listing that matches. *)
Lemma lookup_listing name n m : ∀ i st L, listing n m i st = Some L → ∃ r, lookup_scan n m i (search_of name) st = Some r ∧
  match find_name name L with Some (k, nm) => r = ScanFound (k, nm) | None => ∀ x, r ≠ ScanFound x end.
Proof.
  induction n as [|n IH]; intros i st L HL; cbn [listing lookup_scan] in *; [injection HL as <-; by eexists|].
  destruct (d_first m i =? 0); [injection HL as <-; by eexists|]. destruct (d_first m i =? 229); [by apply IH|].
  destruct (d_attr m i =? FAT_ATTR_LFN).
  { destruct (lfn_step (lfn_at m i) st) as [st'|]; [|done]. by apply IH. }
  destruct (entry_name st (d_name m i) 255) as [nm|] eqn:Hnm; [|done]. cbn [mbind option_bind] in HL |- *.
  destruct (listing n m (i + 1) (no_lfn st)) as [rest|] eqn:Hrest; [|done]. cbn in HL. injection HL as <-.
  apply entry_name_short in Hnm as [Hs _]; [|apply d_name_length]. rewrite (strncpy_name_id 255 nm Hs). cbn [mbind option_bind].
  rewrite find_name_cons. cbn [snd]. destruct (decide (search_of name = to_upper nm)); [by eexists|]. by apply IH.
Qed.
(** The entry number [index] of the listing. *)
Lemma readdir_listing index n m : ∀ i st e L, listing n m i st = Some L → 0 <= e <= index → ∃ r, readdir_scan n m i index (st, e) = Some r ∧
  match L !! Z.to_nat (index - e) with
  | Some (k, nm) => ∃ lfn, r = ScanFound (k, lfn) ∧ entry_name lfn (d_name m k) 255 = Some nm ∧ i <= k < i + Z.of_nat n
  | None => ∀ x, r ≠ ScanFound x
  end.
Proof.
  induction n as [|n IH]; intros i st e L HL He; cbn [listing readdir_scan] in *; [injection HL as <-; by eexists|].
  assert (Hnext : ∀ st' e' L', listing n m (i + 1) st' = Some L' → 0 <= e' <= index → ∃ r, readdir_scan n m (i + 1) index (st', e') = Some r ∧
    match L' !! Z.to_nat (index - e') with
    | Some (k, nm) => ∃ lfn, r = ScanFound (k, lfn) ∧ entry_name lfn (d_name m k) 255 = Some nm ∧ i <= k < i + Z.of_nat (S n)
    | None => ∀ x, r ≠ ScanFound x
    end).
  { intros st' e' L' HL' He'. destruct (IH _ st' e' L' HL' He') as (r & Hr & Hm). exists r. split; [exact Hr|].
    destruct (L' !! _) as [[k nm]|]; [|exact Hm]. destruct Hm as (lfn & ? & ? & ?). exists lfn. split; [done|]. split; [done|lia]. }
  destruct (d_first m i =? 0); [injection HL as <-; by eexists|]. destruct (d_first m i =? 229); [by apply Hnext|].
  destruct (d_attr m i =? FAT_ATTR_LFN).
  { destruct (lfn_step (lfn_at m i) st) as [st'|]; [|done]. by apply Hnext. }
  destruct (entry_name st (d_name m i) 255) as [nm|] eqn:Hnm; [|done]. cbn in HL |- *.
  destruct (listing n m (i + 1) (no_lfn st)) as [rest|] eqn:Hrest; [|done]. cbn in HL. injection HL as <-.
  destruct (Z.eqb_spec e index) as [->|Hne].
  - rewrite Z.sub_diag. cbn. eexists. split; [done|]. exists st. split; [done|]. split; [done|lia].
  - replace (Z.to_nat (index - e)) with (S (Z.to_nat (index - (e + 1)))) by lia. cbn [lookup list_lookup]. apply Hnext; [done|lia].
Qed.

Section contents.
Implicit Types (fs : fat32_fs) (C : Z → Z → Z).

(** ** A loop over the clusters of a directory *)

Fixpoint scan_chain {A B} (scan1 : Z → mem → A → option (scan A B)) C (l : list Z) (st : A) : option (option (Z * B)) :=
  match l with
  | [] => Some None
  | c :: l' =>
      match scan1 c (C c) st with
      | None => None
      | Some ScanEnd => Some None
      | Some (ScanFound b) => Some (Some (c, b))
      | Some (ScanNext st) => scan_chain scan1 C l' st
      end
  end.
(** The scan of a cluster does not look outside of it. *)
Definition within {A B} fs (scan1 : Z → mem → A → option (scan A B)) : Prop :=
  ∀ c m1 m2 st, (∀ x, 0 <= x < fs_bytes_per_cluster fs → m1 x = m2 x) → scan1 c m1 st = scan1 c m2 st.
(** ** The contents of a directory

    Its entries are those of the clusters in a row. *)
Definition epc fs : nat := Z.to_nat (entries_per_cluster fs).
Definition slots fs (l : list Z) : nat := (length l * epc fs)%nat.
Definition place fs (l : list Z) (k : Z) : Z * Z := (nth (Z.to_nat (k / Z.of_nat (epc fs))) l 0, k mod Z.of_nat (epc fs)).
#[local] Arguments place : simpl never.
Lemma epc_eq fs size : geometry fs size → fs_bytes_per_cluster fs = 32 * Z.of_nat (epc fs) ∧ (16 <= epc fs)%nat.
Proof.
  intros [? Hb ? ? ? ? ? ?]. unfold epc, entries_per_cluster, ENTRY_SIZE. rewrite Hb.
  replace (512 * fs_sectors_per_cluster fs / 32) with (16 * fs_sectors_per_cluster fs) by zlia. lia.
Qed.
Lemma cluster_entries fs size C c l : geometry fs size → same_entries (epc fs) (C c) 0 (cbyte fs C (c :: l)) 0.
Proof.
  intros Hg x Hx. destruct (epc_eq fs size Hg) as [Hb _]. rewrite cbyte_cons_lo by lia. done.
Qed.
Lemma tail_entries fs size C c l n : geometry fs size → same_entries n (cbyte fs C l) 0 (cbyte fs C (c :: l)) (Z.of_nat (epc fs)).
Proof.
  intros Hg x Hx. destruct (epc_eq fs size Hg) as [Hb ?]. rewrite cbyte_cons_hi by lia. f_equal. lia.
Qed.
Lemma place_cons fs c l k : (0 < epc fs)%nat → 0 <= k → place fs (c :: l) (k + Z.of_nat (epc fs)) = place fs l k.
Proof.
  intros He Hk. unfold place. assert (Hd : (k + Z.of_nat (epc fs)) / Z.of_nat (epc fs) = k / Z.of_nat (epc fs) + 1) by (rewrite <- Z.div_add by lia; f_equal; lia).
  rewrite Hd. assert (0 <= k / Z.of_nat (epc fs)) by (apply Z.div_pos; lia).
  replace (Z.to_nat (k / Z.of_nat (epc fs) + 1)) with (S (Z.to_nat (k / Z.of_nat (epc fs)))) by lia. cbn [nth]. f_equal.
  replace (k + Z.of_nat (epc fs)) with (k + 1 * Z.of_nat (epc fs)) by lia. apply Z.mod_add. lia.
Qed.
Lemma place_at fs l kc c i : l !! kc = Some c → 0 <= i < Z.of_nat (epc fs) → place fs l (Z.of_nat kc * Z.of_nat (epc fs) + i) = (c, i).
Proof.
  intros Hc Hi. unfold place. rewrite Z.add_comm, Z.div_add, Z.mod_add, Z.div_small, Z.mod_small, Z.add_0_l, Nat2Z.id by lia.
  f_equal. by apply nth_lookup_Some.
Qed.
Lemma place_head fs c l k : 0 <= k < Z.of_nat (epc fs) → place fs (c :: l) k = (c, k).
Proof. intros Hk. unfold place. by rewrite Z.div_small, Z.mod_small. Qed.

(** What the search over all the entries gives, as a place on the disk. *)
Definition placed fs l {A X} (r : scan A (Z * X)) : option (Z * (Z * X)) :=
  match r with ScanFound (k, x) => let '(c, i) := place fs l k in Some (c, (i, x)) | _ => None end.
Lemma found_chain {A X} (scan0 : nat → mem → Z → A → option (scan A (Z * X))) fs size C l : geometry fs size →
  (∀ st m i, scan0 O m i st = Some (ScanNext st)) →
  (∀ n m1 i m2 j st, same_entries n m1 i m2 j → scan0 n m1 i st = shift_found (i - j) <$> scan0 n m2 j st) →
  (∀ a b m i st, scan0 (a + b)%nat m i st = match scan0 a m i st with Some (ScanNext st') => scan0 b m (i + Z.of_nat a) st' | r => r end) →
  (∀ n m i st k x, scan0 n m i st = Some (ScanFound (k, x)) → i <= k < i + Z.of_nat n) → ∀ st,
  scan_chain (λ _ buf st, scan0 (epc fs) buf 0 st) C l st = placed fs l <$> scan0 (slots fs l) (cbyte fs C l) 0 st.
Proof.
  intros Hg H0 Hsame Happ Hbound. destruct (epc_eq fs size Hg) as [Hb He]. induction l as [|c l IH]; intros st; [cbn; by rewrite H0|].
  unfold slots. cbn [scan_chain length Nat.mul]. rewrite Happ.
  rewrite (Hsame _ _ _ _ _ st (cluster_entries fs size C c l Hg)), Z.sub_diag, Z.add_0_l.
  destruct (scan0 (epc fs) (cbyte fs C (c :: l)) 0 st) as [[st'| |[k nm]]|] eqn:Hs; cbn.
  - rewrite IH. fold (slots fs l). rewrite (Hsame _ _ _ _ _ st' (tail_entries fs size C c l (slots fs l) Hg)).
    destruct (scan0 (slots fs l) (cbyte fs C (c :: l)) (Z.of_nat (epc fs)) st') as [[?| |[k nm]]|] eqn:Hs2; cbn; try done.
    apply Hbound in Hs2 as Hk. replace (place fs (c :: l) k) with (place fs l (k - Z.of_nat (epc fs))).
    + rewrite Z.sub_0_l. by replace (k + - Z.of_nat (epc fs)) with (k - Z.of_nat (epc fs)) by lia.
    + rewrite <- (place_cons fs c l) by lia. f_equal. lia.
  - done.
  - apply Hbound in Hs as Hk. rewrite Z.add_0_r. by rewrite place_head by lia.
  - done.
Qed.
Lemma found_within {A X} (scan0 : nat → mem → Z → A → option (scan A (Z * X))) fs size : geometry fs size →
  (∀ n m1 i m2 j st, same_entries n m1 i m2 j → scan0 n m1 i st = shift_found (i - j) <$> scan0 n m2 j st) →
  within fs (λ _ buf st, scan0 (epc fs) buf 0 st).
Proof.
  intros Hg Hsame c m1 m2 st Heq. destruct (epc_eq fs size Hg) as [Hb _].
  rewrite (Hsame (epc fs) m1 0 m2 0) by (intros x Hx; apply Heq; lia).
  destruct (scan0 (epc fs) m2 0 st) as [[?| |[k nm]]|]; cbn; try done. by rewrite Z.add_0_r.
Qed.
Lemma lookup_chain fs size C search l : geometry fs size → ∀ st,
  scan_chain (λ _ buf st, lookup_scan (epc fs) buf 0 search st) C l st =
    placed fs l <$> lookup_scan (slots fs l) (cbyte fs C l) 0 search st.
Proof.
  intros Hg. apply (found_chain (λ n m i st, lookup_scan n m i search st) fs size C l Hg); [done| | |].
  - intros. by apply lookup_scan_same.
  - intros. apply lookup_scan_app.
  - intros n m i st k x H. by apply lookup_scan_bound in H as [? _].
Qed.
Lemma lookup_within fs size search : geometry fs size → within fs (λ _ buf st, lookup_scan (epc fs) buf 0 search st).
Proof. intros Hg. apply (found_within (λ n m i st, lookup_scan n m i search st) fs size Hg). intros. by apply lookup_scan_same. Qed.
Lemma readdir_chain fs size C index l : geometry fs size → ∀ st,
  scan_chain (λ _ buf st, readdir_scan (epc fs) buf 0 index st) C l st =
    placed fs l <$> readdir_scan (slots fs l) (cbyte fs C l) 0 index st.
Proof.
  intros Hg. apply (found_chain (λ n m i st, readdir_scan n m i index st) fs size C l Hg); [by intros [? ?]| | |].
  - intros. by apply readdir_scan_same.
  - intros. apply readdir_scan_app.
  - intros n m i st k x H. by apply readdir_scan_bound in H.
Qed.
Lemma readdir_within fs size index : geometry fs size → within fs (λ _ buf st, readdir_scan (epc fs) buf 0 index st).
Proof. intros Hg. apply (found_within (λ n m i st, readdir_scan n m i index st) fs size Hg). intros. by apply readdir_scan_same. Qed.
Definition is_found {A B} (r : scan A B) : bool := match r with ScanFound _ => true | _ => false end.
Lemma short_chain fs size C short l : geometry fs size →
  ∃ o, scan_chain (λ _ buf (_ : unit), Some (short_scan (epc fs) buf 0 short)) C l tt = Some o ∧
    bool_decide (is_Some o) = is_found (short_scan (slots fs l) (cbyte fs C l) 0 short).
Proof.
  intros Hg. induction l as [|c l (o & Hs & Ho)]; [by exists None|].
  unfold slots. cbn [scan_chain length Nat.mul]. rewrite short_scan_app.
  rewrite <- (short_scan_same short _ _ _ _ _ (cluster_entries fs size C c l Hg)), Z.add_0_l.
  destruct (short_scan (epc fs) (C c) 0 short) as [[]| |[]].
  - fold (slots fs l). rewrite <- (short_scan_same short _ _ _ _ _ (tail_entries fs size C c l (slots fs l) Hg)). by exists o.
  - by exists None.
  - exists (Some (c, tt)). split; [done|]. by rewrite bool_decide_eq_true_2 by done.
Qed.
Lemma short_within fs size short : geometry fs size → within fs (λ _ buf (_ : unit), Some (short_scan (epc fs) buf 0 short)).
Proof.
  intros Hg c m1 m2 st Heq. destruct (epc_eq fs size Hg) as [Hb _].
  by rewrite (short_scan_same short (epc fs) m1 0 m2 0) by (intros x Hx; apply Heq; lia).
Qed.
(** The place of an entry: its bytes in the cluster. *)
Lemma place_entry fs size C l k n : geometry fs size → 0 <= k < Z.of_nat (slots fs l) → (n ≤ 1)%nat →
  let '(c, i) := place fs l k in same_entries n (C c) i (cbyte fs C l) k ∧ 0 <= i < Z.of_nat (epc fs) ∧ c ∈ l.
Proof.
  intros Hg Hk Hn. destruct (epc_eq fs size Hg) as [Hb He]. unfold place, slots in *. set (e := Z.of_nat (epc fs)) in *.
  assert (0 < e) as He0 by lia. assert (Hl : Z.of_nat (length l * epc fs) = Z.of_nat (length l) * e) by (subst e; lia). rewrite Hl in Hk.
  pose proof (Z.mod_pos_bound k e He0). pose proof (Z.div_mod k e ltac:(lia)).
  assert (0 <= k / e < Z.of_nat (length l)) by (split; [apply Z.div_pos; lia|apply Z.div_lt_upper_bound; lia]).
  destruct (lookup_lt_is_Some_2 l (Z.to_nat (k / e))) as [c Hc]; [lia|]. rewrite (nth_lookup_Some _ _ _ _ Hc).
  split; [|split; [done|by eapply list_elem_of_lookup_2]]. intros x Hx.
  rewrite <- (cbyte_at fs C l _ c) by (done || rewrite ?Hb; fold e; lia). rewrite Z2Nat.id by lia. f_equal. rewrite Hb. fold e. nia.
Qed.
End contents.

Section loops.
Context {D : Type} `{!BlockDevice D}.
Implicit Types (s : fatst (D := D)) (d : D) (fs : fat32_fs) (T : Z → Z) (C : Z → Z → Z).
Variable uninit : mem.
#[local] Set Default Proof Using "All".

Lemma scan_loop_runs {A B} (scan1 : Z → mem → A → option (scan A B)) fs T C n : within fs scan1 → ∀ s c l buf st r,
  disk_is (ft_dev s) fs T C → fchain fs T c l → (length l < n)%nat → scan_chain scan1 C l st = Some r →
  runs_to (scan_loop uninit n fs scan1 c buf st) s (λ o s', ∃ d', s' = set_ft_dev d' s ∧ disk_is d' fs T C ∧
    match r, o with
    | None, None => True
    | Some (c1, b1), Some (c2, buf2, b2) => c2 = c1 ∧ b2 = b1 ∧ ∀ x, 0 <= x < fs_bytes_per_cluster fs → buf2 x = C c1 x
    | _, _ => False
    end).
Proof.
  intros Hw. induction n as [|n IH]; intros s c l buf st r Hd Hl Hn Hr; [lia|]. cbn [scan_loop]. destruct l as [|y l].
  { cbn [fchain] in Hl. rewrite (proj2 (Z.leb_le _ _)) by done. injection Hr as <-. apply runs_ret. exists (ft_dev s). split; [by destruct s|]. done. }
  pose proof Hl as (-> & Hv & Hl'). pose proof (ge_total _ _ (di_geom _ _ _ _ Hd)). rewrite (proj2 (Z.leb_gt _ _)) by (unfold valid in Hv; lia).
  rstep (read_cluster_runs s fs T C y buf Hd Hv). intros [x buf'] s1 (d1 & -> & Hd1 & _ & Hbuf). cbn [snd] in Hbuf. cbv beta iota.
  assert (Hb : ∀ x, 0 <= x < fs_bytes_per_cluster fs → buf' x = C y x) by (intros z Hz; by rewrite Hbuf, decide_True).
  rewrite (Hw y buf' (C y) st Hb). cbn [scan_chain] in Hr. destruct (scan1 y (C y) st) as [[st'| |b]|]; [| | |done].
  - rstep (get_next_cluster_runs uninit (set_ft_dev d1 s) fs T C y Hd1 (table_end_valid fs y Hv)). intros nx s2 (-> & d2 & -> & Hd2).
    cbn [length] in Hn. rlast (IH (set_ft_dev d2 s) (T y) l buf' st' r); [exact Hd2|exact Hl'|lia|exact Hr|].
    intros o s3 (d3 & -> & Hd3 & Ho). by exists d3.
  - injection Hr as <-. apply runs_ret. by exists d1.
  - injection Hr as <-. apply runs_ret. by exists d1.
Qed.

Lemma kmalloc_used_runs s b bufs : ft_bufs s = Some b :: bufs → kmalloc_used s = Done (b, set_ft_bufs bufs s).
Proof. intros Hb. unfold kmalloc_used, bind, kmalloc_buf. by rewrite Hb. Qed.
Lemma kmalloc_obj_used_runs s a objs : ft_objs s = a :: objs → a ≠ 0 → kmalloc_obj_used s = Done (a, set_ft_objs objs s).
Proof. intros Ha Hne. unfold kmalloc_obj_used, bind, kmalloc_obj. rewrite Ha. by rewrite (proj2 (Z.eqb_neq a 0)). Qed.

Lemma short_name_exists_runs fuel s fs c l T C short b bufs : disk_is (ft_dev s) fs T C → fchain fs T c l → (length l < fuel)%nat →
  ft_bufs s = Some b :: bufs →
  runs_to (short_name_exists uninit fuel fs c short) s (λ e s', e = is_found (short_scan (slots fs l) (cbyte fs C l) 0 short) ∧
    ∃ d', s' = st d' bufs s ∧ disk_is d' fs T C).
Proof.
  intros Hd Hl Hf Hb. pose proof (di_geom _ _ _ _ Hd) as Hg. unfold short_name_exists.
  apply runs_bind; eapply runs_Done; [by eapply kmalloc_used_runs|]. change (Z.to_nat (entries_per_cluster fs)) with (epc fs).
  destruct (short_chain fs _ C short l Hg) as (r & Hr & Hfound).
  rstep (scan_loop_runs _ fs T C fuel (short_within fs _ short Hg) (set_ft_bufs bufs s) c l b tt r Hd Hl Hf Hr).
  intros o s1 (d1 & -> & Hd1 & Ho). apply runs_ret. split; [|by exists d1]. rewrite <- Hfound. apply bool_decide_ext.
  destruct r as [[]|], o as [[[] ]|]; done.
Qed.

(** ** Lookup

    The inode [node] is a directory with the chain [l]. *)
Record fat_dir fs s (node : Z) (n : inode) (f : fat32_file) T C (l : list Z) : Prop := mk_fat_dir {
  fd_disk : disk_is (ft_dev s) fs T C;
  fd_node : ft_nodes s !! node = Some n;
  fd_file : ft_files s !! in_ptr n = Some f;
  fd_fs : ff_fs f = fs;
  fd_chain : fchain fs T (ff_first_cluster f) l;
}.
Definition dir_bytes fs C l : mem := cbyte fs C l.
(** The search over all the entries of the directory. *)
Definition dir_search fs C l (name : list Z) : option (scan lfn_state (Z * list Z)) :=
  lookup_scan (slots fs l) (dir_bytes fs C l) 0 (search_of name) no_name.
Definition times_ok (m : mem) (k : Z) : Prop :=
  is_Some (fat_to_unix (d_create_date m k) (d_create_time m k)) ∧ is_Some (fat_to_unix (d_write_date m k) (d_write_time m k)) ∧
  is_Some (fat_to_unix (d_access_date m k) 0).
(** What a lookup makes of the entry number [k]: the inode and its data. *)
Definition entry_inode (fat32_ops : Z) (device_id : Z → Z) fs (m : mem) (k : Z) (name : list Z) (ptr : Z) : inode :=
  let dir := has (d_attr m k) FAT_ATTR_DIRECTORY in
  mk_inode (take 63 name) (Z.lor (if dir then FS_DIRECTORY else FS_FILE) FS_TEMPORARY) 0 0
    (if dir then Z.lor S_IFDIR 0x1ED else Z.lor S_IFREG 0x1A4) (d_file_size m k) (u64 (d_cluster m k)) 1 fat32_ops ptr 1 0 0
    (mk_inode_info (device_id (fs_device fs)) 0 (fs_bytes_per_cluster fs) (u32 (d_file_size m k + 511) / 512)
       (default 0 (fat_to_unix (d_access_date m k) 0)) (default 0 (fat_to_unix (d_create_date m k) (d_create_time m k)))
       (default 0 (fat_to_unix (d_write_date m k) (d_write_time m k)))).
Definition entry_file fs (f : fat32_file) l (m : mem) (k : Z) : fat32_file :=
  let '(c, i) := place fs l k in mk_fat32_file fs (u32 (d_cluster m k)) (ff_first_cluster f) c (u32 (i * ENTRY_SIZE)).

Lemma lookup_result_runs fat32_ops device_id s fs f c buf i nm m k a1 a2 objs : same_entries 1 buf i m k →
  ft_objs s = a1 :: a2 :: objs → a1 ≠ 0 → a2 ≠ 0 → times_ok m k →
  runs_to (lookup_result fat32_ops device_id fs f c buf i nm) s (λ a s', a = a1 ∧
    s' = set_ft_nodes (<[a1 := entry_inode fat32_ops device_id fs m k nm a2]> (ft_nodes s))
          (set_ft_files (<[a2 := mk_fat32_file fs (u32 (d_cluster m k)) (ff_first_cluster f) c (u32 (i * ENTRY_SIZE))]> (ft_files s)) (set_ft_objs objs s))).
Proof.
  intros Hs Hobjs Ha1 Ha2 ([ct Hct] & [wt Hwt] & [at_ Hat]). unfold lookup_result, entry_inode.
  assert (H16 : ∀ o, 0 <= o <= 30 → load16 buf (32 * i + o) = load16 m (32 * k + o)) by (intros o Ho; apply (same_load 0 buf m i k Hs); lia).
  assert (H32 : load32 buf (32 * i + 28) = load32 m (32 * k + 28)) by (apply (same_load 0 buf m i k Hs); lia).
  unfold d_create_date, d_create_time, d_write_date, d_write_time, d_access_date, d_file_size, d_cluster in *. rewrite !H16, H32, (same_attr 0 buf m i k Hs) by lia.
  rewrite Hct, Hwt, Hat. cbn [default].
  apply runs_bind; eapply runs_Done; [by eapply kmalloc_obj_used_runs|].
  apply runs_bind; eapply runs_Done; [unfold unix_time; by rewrite Hct|]. apply runs_bind; eapply runs_Done; [unfold unix_time; by rewrite Hwt|].
  apply runs_bind; eapply runs_Done; [unfold unix_time; by rewrite Hat|].
  apply runs_bind; eapply runs_Done; [by eapply kmalloc_obj_used_runs|]. cbv zeta.
  apply runs_bind; eapply runs_Done; [reflexivity|]. apply runs_bind; eapply runs_Done; [reflexivity|]. apply runs_ret. by split.
Qed.

(** A lookup is the search in the sequence of the directory's entries, across
    its clusters: without a match it returns null; with one, a new inode for
    the first entry that matches, with the size, times, type and first
    cluster of the entry and the place of the entry on the disk. *)
Lemma lookup_runs fuel fat32_ops device_id fs s node n f T C l name r b bufs :
  fat_dir fs s node n f T C l → (length l < fuel)%nat → ft_bufs s = Some b :: bufs → dir_search fs C l name = Some r →
  match r with
  | ScanFound (k, entry_name) => ∀ a1 a2 objs, ft_objs s = a1 :: a2 :: objs → a1 ≠ 0 → a2 ≠ 0 → times_ok (dir_bytes fs C l) k →
      runs_to (fat32_lookup uninit fuel fat32_ops device_id node name) s (λ a s', a = a1 ∧ ∃ d', disk_is d' fs T C ∧
        s' = set_ft_nodes (<[a1 := entry_inode fat32_ops device_id fs (dir_bytes fs C l) k entry_name a2]> (ft_nodes s))
              (set_ft_files (<[a2 := entry_file fs f l (dir_bytes fs C l) k]> (ft_files s)) (set_ft_objs objs (st d' bufs s))))
  | _ => runs_to (fat32_lookup uninit fuel fat32_ops device_id node name) s (λ a s', a = 0 ∧ ∃ d', disk_is d' fs T C ∧ s' = st d' bufs s)
  end.
Proof.
  intros [Hd Hn Hfi Hfs Hl] Hfuel Hb Hr. pose proof (di_geom _ _ _ _ Hd) as Hg. unfold dir_search in Hr.
  pose proof (lookup_chain fs _ C (search_of name) l Hg no_name) as Hc. unfold dir_bytes in Hr. rewrite Hr in Hc. cbn [fmap option_fmap option_map] in Hc.
  pose proof (scan_loop_runs _ fs T C fuel (lookup_within fs _ (search_of name) Hg) (set_ft_bufs bufs s) _ l b no_name _ Hd Hl Hfuel Hc) as Hloop.
  assert (Hstart : ∀ P, runs_to (o <- scan_loop uninit fuel fs (λ _ buf st, lookup_scan (epc fs) buf 0 (search_of name) st) (ff_first_cluster f) b no_name;;
      match o with None => ret 0 | Some (cluster, buf, (i, entry_name)) => lookup_result fat32_ops device_id fs f cluster buf i entry_name end)
      (set_ft_bufs bufs s) P → runs_to (fat32_lookup uninit fuel fat32_ops device_id node name) s P).
  { intros P HP. unfold fat32_lookup. apply runs_bind; eapply runs_Done; [unfold get_node; by rewrite Hn|].
    apply runs_bind; eapply runs_Done; [unfold get_ff; by rewrite Hfi|]. cbv zeta. rewrite Hfs.
    apply runs_bind; eapply runs_Done; [by eapply kmalloc_used_runs|]. exact HP. }
  destruct r as [st'| |[k nm]]; [| |intros a1 a2 objs Hobjs Ha1 Ha2 (Hct & Hwt & Hat)]; apply Hstart; clear Hstart; rstep Hloop.
  - intros o s1 (d1 & -> & Hd1 & Ho). destruct o as [[[] ]|]; [done|]. apply runs_ret. split; [done|]. by exists d1.
  - intros o s1 (d1 & -> & Hd1 & Ho). destruct o as [[[] ]|]; [done|]. apply runs_ret. split; [done|]. by exists d1.
  - intros o s1 (d1 & -> & Hd1 & Ho). cbn [placed] in Ho. apply lookup_scan_bound in Hr as [Hk _]. rewrite Z.add_0_l in Hk.
    pose proof (place_entry fs _ C l k 1 Hg Hk ltac:(lia)) as Hp. unfold entry_file. destruct (place fs l k) as [c i]. destruct Hp as (Hsame & Hi & _).
    destruct o as [[[c' buf] [i' nm']]|]; [|done]. destruct Ho as (-> & [= -> ->] & Hbuf).
    assert (Hbe : same_entries 1 buf i (dir_bytes fs C l) k).
    { intros x Hx. unfold dir_bytes. rewrite <- (Hsame x Hx). destruct (epc_eq fs _ Hg) as [Hbp _]. apply Hbuf. lia. }
    clear Hsame. eapply runs_mono; [eapply (lookup_result_runs fat32_ops device_id _ fs f c buf i nm (dir_bytes fs C l) k a1 a2 objs Hbe); try done|].
    cbn. intros a s2 [-> ->]. split; [done|]. exists d1. split; [done|]. done.
Qed.

(** C11: a lookup refines the listing of the directory: it gives an inode for the
    first entry of the listing that has the name, upper and lower case being the
    same, and null when there is none; the disk is as before. *)
Theorem fat32_lookup_refines fuel fat32_ops device_id fs s node n f T C l name L b bufs a1 a2 objs :
  fat_dir fs s node n f T C l → (length l < fuel)%nat → ft_bufs s = Some b :: bufs → ft_objs s = a1 :: a2 :: objs → a1 ≠ 0 → a2 ≠ 0 →
  let m := dir_bytes fs C l in listing (slots fs l) m 0 no_name = Some L → Forall (λ e, times_ok m e.1) L →
  runs_to (fat32_lookup uninit fuel fat32_ops device_id node name) s (λ a s', (∃ d', ft_dev s' = d' ∧ disk_is d' fs T C) ∧
    match find_name name L with
    | None => a = 0
    | Some (k, nm) => a = a1 ∧ ft_nodes s' !! a = Some (entry_inode fat32_ops device_id fs m k nm a2) ∧ ft_files s' !! a2 = Some (entry_file fs f l m k)
    end).
Proof.
  intros Hdir Hf Hb Hobjs Ha1 Ha2 m HL Ht. destruct (lookup_listing name (slots fs l) m 0 no_name L HL) as (r & Hr & Hfind).
  pose proof (lookup_runs fuel fat32_ops device_id fs s node n f T C l name r b bufs Hdir Hf Hb Hr) as Hrun.
  unfold find_name in *. destruct (list_find _ L) as [[j [k nm]]|] eqn:Hj; cbn [fmap option_fmap option_map snd] in *.
  - subst r. apply list_find_Some in Hj as (Hj & _). rewrite Forall_lookup in Ht. specialize (Ht _ _ Hj). cbn [fst] in Ht.
    eapply runs_mono; [by eapply Hrun|]. intros a s' (-> & d' & Hd' & ->). split; [by exists d'|]. split; [done|].
    split; apply lookup_insert_eq.
  - assert (Hnone : runs_to (fat32_lookup uninit fuel fat32_ops device_id node name) s (λ a s', a = 0 ∧ ∃ d', disk_is d' fs T C ∧ s' = st d' bufs s)).
    { destruct r as [| |[k nm]]; [exact Hrun|exact Hrun|]. by destruct (Hfind (k, nm)). }
    eapply runs_mono; [exact Hnone|]. intros a s' (-> & d' & Hd' & ->). split; [by exists d'|done].
Qed.

(** the reading of a directory enumerates the listing: the index [k] gives
    the name of the entry number [k], as much of it as the buffer holds, and
    whether it is a directory; after the last entry there is no name. *)
Theorem fat32_readdir_lists fuel fs s node n f T C l index buflen L b bufs : fat_dir fs s node n f T C l → (length l < fuel)%nat →
  ft_bufs s = Some b :: bufs → 0 <= index → 1 <= buflen <= 256 →
  let m := dir_bytes fs C l in listing (slots fs l) m 0 no_name = Some L →
  runs_to (fat32_readdir uninit fuel node index buflen) s (λ o s', (∃ d', s' = st d' bufs s ∧ disk_is d' fs T C) ∧
    o = match L !! Z.to_nat index with
        | Some (k, nm) => Some (take (Z.to_nat (buflen - 1)) nm, if has (d_attr m k) FAT_ATTR_DIRECTORY then 1 else 0)
        | None => None
        end).
Proof.
  intros [Hd Hn Hfi Hfs Hl] Hfuel Hb Hidx Hbuf m HL. pose proof (di_geom _ _ _ _ Hd) as Hg.
  destruct (readdir_listing index (slots fs l) m 0 no_name 0 L HL ltac:(lia)) as (r & Hr & Hmatch). rewrite Z.sub_0_r in Hmatch.
  pose proof (readdir_chain fs _ C index l Hg (no_name, 0)) as Hc. unfold m, dir_bytes in Hr. rewrite Hr in Hc. cbn [fmap option_fmap option_map] in Hc.
  unfold fat32_readdir. apply runs_bind; eapply runs_Done; [unfold get_node; by rewrite Hn|].
  apply runs_bind; eapply runs_Done; [unfold get_ff; by rewrite Hfi|]. cbv zeta. rewrite Hfs.
  apply runs_bind; eapply runs_Done; [by eapply kmalloc_used_runs|]. change (Z.to_nat (entries_per_cluster fs)) with (epc fs).
  rstep (scan_loop_runs _ fs T C fuel (readdir_within fs _ index Hg) (set_ft_bufs bufs s) _ l b (no_name, 0) _ Hd Hl Hfuel Hc).
  intros o s1 (d1 & -> & Hd1 & Ho). destruct (L !! Z.to_nat index) as [[k nm]|].
  - destruct Hmatch as (lfn & -> & Hnm & Hk). rewrite Z.add_0_l in Hk. cbn [placed] in Ho. pose proof (place_entry fs _ C l k 1 Hg Hk ltac:(lia)) as Hp.
    destruct (place fs l k) as [c i]. destruct Hp as (Hsame & Hi & _). destruct o as [[[c' buf] [i' lfn']]|]; [|done].
    destruct Ho as (-> & [= -> ->] & Hbytes).
    assert (Hbe : same_entries 1 buf i m k).
    { intros x Hx. unfold m, dir_bytes. rewrite <- (Hsame x Hx). destruct (epc_eq fs _ Hg) as [Hbp _]. apply Hbytes. lia. }
    rewrite (same_name 0 buf m i k Hbe), (same_attr 0 buf m i k Hbe). apply entry_name_short in Hnm as [_ ->]; [|apply d_name_length].
    unfold readdir_name. rewrite (proj2 (Z.leb_le 1 buflen)), (proj2 (Z.leb_le buflen 256)) by lia. cbn [andb]. apply runs_ret. split; [by exists d1|done].
  - destruct r as [| |x]; [| |by destruct (Hmatch x)]; cbn [placed] in Ho; (destruct o as [[[] ]|]; [done|]); apply runs_ret; (split; [by exists d1|done]).
Qed.
End loops.

(** ** A directory with a file, [HELLO.TXT], and a directory, [SUB] *)

Definition exk_table (c : Z) : Z := if (3 <=? c) && (c <? 6) then 0 else FAT_EOC.
Definition exk_data (c o : Z) : Z :=
  if c =? 2 then
    put_short (put_short (λ _, 0) 0 [72; 69; 76; 76; 79; 32; 32; 32; 84; 88; 84] FAT_ATTR_ARCHIVE 0 0 0)
      1 [83; 85; 66; 32; 32; 32; 32; 32; 32; 32; 32] FAT_ATTR_DIRECTORY 0 0 0 o
  else 0.
Definition exk_inode : inode := mk_inode [47] FS_DIRECTORY 0 0 0 0 0 2 0 7 0 0 0 no_info.
Definition exk_file : fat32_file := mk_fat32_file exf_fs 2 0 0 0.
Definition exk_state : fatst (D := ramdisk) :=
  mk_fatst (small_disk exk_table exk_data) {[1 := exk_inode]} {[7 := exk_file]} [Some exf_zeros] [100; 200] 1700000000.

Lemma exk_disk_is : disk_is (ft_dev exk_state) exf_fs exk_table exk_data.
Proof. apply small_disk_is. intros c _. unfold exk_table. by destruct ((3 <=? c) && (c <? 6)). Qed.
Lemma exk_dir : fat_dir exf_fs exk_state 1 exk_inode exk_file exk_table exk_data [2].
Proof. split; try done. apply exk_disk_is. Qed.
(** The name in lower case. *)
Lemma fat32_lookup_refines_witness : ∃ s' n, fat32_lookup exf_zeros 2 0 (λ _, 0) 1 [104; 101; 108; 108; 111; 46; 116; 120; 116] exk_state = Done (100, s') ∧
  ft_nodes s' !! 100 = Some n ∧ in_name n = [72; 69; 76; 76; 79; 46; 84; 88; 84].
Proof.
  pose proof (fat32_lookup_refines exf_zeros 2 0 (λ _, 0) exf_fs exk_state 1 exk_inode exk_file exk_table exk_data [2]
    [104; 101; 108; 108; 111; 46; 116; 120; 116] [(0, [72; 69; 76; 76; 79; 46; 84; 88; 84]); (1, [83; 85; 66])] exf_zeros [] 100 200 []
    exk_dir ltac:(cbn; lia) eq_refl eq_refl ltac:(lia) ltac:(lia) ltac:(vm_compute; reflexivity)) as H.
  apply runs_to_inv in H as (a & s' & Hrun & _ & -> & Hn & _); [|repeat constructor; by eexists].
  eexists s', _. split; [exact Hrun|]. split; [exact Hn|reflexivity].
Defined.
Lemma fat32_readdir_lists_witness : ∃ s', fat32_readdir exf_zeros 2 1 1 256 exk_state = Done (Some ([83; 85; 66], 1), s').
Proof.
  pose proof (fat32_readdir_lists exf_zeros 2 exf_fs exk_state 1 exk_inode exk_file exk_table exk_data [2] 1 256
    [(0, [72; 69; 76; 76; 79; 46; 84; 88; 84]); (1, [83; 85; 66])] exf_zeros []
    exk_dir ltac:(cbn; lia) eq_refl ltac:(lia) ltac:(lia) ltac:(vm_compute; reflexivity)) as H.
  apply runs_to_inv in H as (o & s' & Hrun & _ & ->). exists s'. exact Hrun.
Defined.
