(* ===== verification/FatCreate.v ===== *)
(** Creation in a FAT32 directory: the free entries that are found, the entries
    that are written, and the lookup that finds them. *)
From stdpp Require Import functions.
From S2P Require Export FatLookup.
Local Open Scope Z_scope.
Local Open Scope prog_scope.

(** ** Short names *)

Definition short_byte (c : Z) : Prop := 32 <= c < 256 ∧ c ≠ 0xE5.
Definition short_ok (l : list Z) : Prop := length l = 11%nat ∧ Forall short_byte l.
Lemma short_char_ok c : 0 < c < 256 → c ≠ 0xE5 → short_byte (short_char c).
Proof.
  intros Hc Hne. unfold short_char, upper, short_byte. repeat case_match; try lia.
  all: repeat match goal with H : (_ || _) = false |- _ => apply orb_false_iff in H as [H _] end.
  all: rewrite ?andb_true_iff, ?andb_false_iff in *; lia.
Qed.
Lemma put_bytes_ok l : ∀ j short, Forall short_byte l → short_ok short → short_ok (FatName.put_bytes l j short).
Proof.
  induction l as [|c l IH]; intros j short Hl [Hlen Hs]; [by split|]. apply Forall_cons in Hl as [Hc Hl]. cbn [FatName.put_bytes].
  apply IH; [done|]. split; [by rewrite length_insert|]. by apply Forall_insert.
Qed.
Lemma base_loop_ok l m : Forall (λ c, 0 < c < 256 ∧ c ≠ 0xE5) l → ∀ j short, short_ok short → short_ok (base_loop l m j short).1.
Proof.
  induction 1 as [|c l [Hc Hne] _ IH]; intros j short [Hlen Hs]; cbn [base_loop]; [by split|].
  destruct (m <=? j)%nat; [by split|]. destruct ((c =? 32) || (c =? 46)); [by apply IH|]. apply IH.
  split; [by rewrite length_insert|]. apply Forall_insert; [done|]. by apply short_char_ok.
Qed.
Lemma suffix_digits_ok n : ∀ t, Forall short_byte (suffix_digits n t).
Proof.
  induction n as [|n IH]; intros t; cbn [suffix_digits]; [constructor|]. destruct (Z.ltb_spec 0 t); [|constructor].
  constructor; [|apply IH]. unfold short_byte. zlia.
Qed.
Lemma generate_short_name_ok name suffix : Forall (λ c, 0 < c < 256 ∧ c ≠ 0xE5) name → short_ok (generate_short_name name suffix).
Proof.
  intros Hname. unfold generate_short_name.
  assert (H0 : short_ok (replicate 11 32)) by (split; [done|]; apply Forall_replicate; unfold short_byte; lia).
  pose proof (base_loop_ok _ (if 0 <? suffix then 6%nat else 8%nat) (Forall_take _ (match last_dot name with Some n => n | None => length name end) _ Hname) 0 _ H0) as Hb.
  destruct (base_loop _ _ 0 _) as [short j]. cbn [fst] in Hb.
  set (s2 := if 0 <? suffix then _ else short). assert (Hs2 : short_ok s2).
  { subst s2. case_match; [|done]. apply put_bytes_ok; [|done]. constructor; [unfold short_byte; lia|]. apply Forall_rev, suffix_digits_ok. }
  destruct (last_dot name) as [n|]; [|done]. apply put_bytes_ok; [|done].
  apply Forall_map, Forall_take, Forall_drop. eapply Forall_impl; [exact Hname|]. intros c [??]. by apply short_char_ok.
Qed.

Section unique.
Context {D : Type} `{!BlockDevice D}.
Implicit Types (s : fatst (D := D)) (d : D) (fs : fat32_fs) (T : Z → Z) (C : Z → Z → Z).
Variable uninit : mem.
Variable fuel : nat.
#[local] Set Default Proof Using "All".

(** The name with the suffix [K] is not in the directory. *)
Definition suffix_free fs C l (name : list Z) (K : nat) : Prop :=
  is_found (short_scan (slots fs l) (dir_bytes fs C l) 0 (generate_short_name name (Z.of_nat K))) = false.
Lemma suffix_loop_runs fs T C c l name K n : fchain fs T c l → (length l < fuel)%nat → suffix_free fs C l name K →
  ∀ s i short bufs1 bufs2, disk_is (ft_dev s) fs T C → Forall is_Some bufs1 → (i <= K)%nat → (K < i + n)%nat → length bufs1 = (K + 1 - i)%nat →
  ft_bufs s = bufs1 ++ bufs2 →
  runs_to (suffix_loop uninit fuel n fs c name (Z.of_nat i) short) s (λ short' s', ∃ j d' bufs', short' = generate_short_name name j ∧
    s' = st d' (bufs' ++ bufs2) s ∧ Forall is_Some bufs' ∧ disk_is d' fs T C).
Proof.
  intros Hl Hf HK. induction n as [|n IH]; intros s i short bufs1 bufs2 Hd Hsome Hi Hn Hlen Hb; [lia|]. cbn [suffix_loop].
  destruct bufs1 as [|b bufs1]; [cbn in Hlen; lia|]. apply Forall_cons in Hsome as [[b' ->] Hsome]. cbn [length app] in *.
  rstep (short_name_exists_runs uninit fuel s fs c l T C (generate_short_name name (Z.of_nat i)) b' _ Hd Hl Hf Hb).
  intros e s1 (He & d1 & -> & Hd1). destruct e.
  - assert (i ≠ K) by (intros ->; unfold suffix_free, dir_bytes in HK; congruence).
    replace (Z.of_nat i + 1) with (Z.of_nat (S i)) by lia.
    rlast (IH (st d1 (bufs1 ++ bufs2) s) (S i) (generate_short_name name (Z.of_nat i)) bufs1 bufs2); [exact Hd1|done|lia|lia|lia|done|].
    intros short' s2 (j & d2 & bf2 & -> & -> & Hs2 & Hd2). exists j, d2, bf2. done.
  - apply runs_ret. exists (Z.of_nat i), d1, bufs1. done.
Qed.
Lemma generate_unique_runs fs T C c l name K s bufs1 bufs2 : fchain fs T c l → (length l < fuel)%nat → suffix_free fs C l name K →
  Z.of_nat K <= 999998 → disk_is (ft_dev s) fs T C → Forall is_Some bufs1 → length bufs1 = (K + 1)%nat → ft_bufs s = bufs1 ++ bufs2 →
  runs_to (generate_unique_short_name uninit fuel fs c name) s (λ short s', ∃ j d' bufs', short = generate_short_name name j ∧
    s' = st d' (bufs' ++ bufs2) s ∧ Forall is_Some bufs' ∧ disk_is d' fs T C).
Proof.
  intros Hl Hf HK HKmax Hd Hsome Hlen Hb. unfold generate_unique_short_name.
  destruct bufs1 as [|b bufs1]; [cbn in Hlen; lia|]. apply Forall_cons in Hsome as [[b' ->] Hsome]. cbn [length app] in *.
  rstep (short_name_exists_runs uninit fuel s fs c l T C (generate_short_name name 0) b' _ Hd Hl Hf Hb).
  intros e s1 (He & d1 & -> & Hd1). destruct e.
  - assert (0%nat ≠ K) by (intros <-; unfold suffix_free, dir_bytes in HK; change (Z.of_nat 0) with 0 in HK; congruence).
    change 1 with (Z.of_nat 1).
    rlast (suffix_loop_runs fs T C c l name K (Z.to_nat 999998) Hl Hf HK (st d1 (bufs1 ++ bufs2) s) 1%nat (generate_short_name name 0) bufs1 bufs2);
      [exact Hd1|done|lia|lia|lia|done|].
    intros short' s2 (j & d2 & bf2 & -> & -> & Hs2 & Hd2). exists j, d2, bf2. done.
  - apply runs_ret. exists 0, d1, bufs1. done.
Qed.
End unique.

(** ** Free entries *)

(** The run of free entries before the entry [p], which starts at [k0]. *)
Record run_inv fs (B : mem) (l : list Z) (p : Z) (r : free_run) (k0 : Z) : Prop := mk_run_inv {
  ri_start : 0 <= k0;
  ri_pos : k0 + fr_count r = p;
  ri_count : 0 <= fr_count r;
  ri_free : ∀ k, k0 <= k < p → is_free B k = true;
  ri_max : k0 = 0 ∨ is_free B (k0 - 1) = false;
  ri_place : 0 < fr_count r → fr_cluster r = (place fs l k0).1 ∧ fr_offset r = 32 * (place fs l k0).2;
}.
Lemma place_prefix fs l l' k : l `prefix_of` l' → 0 <= k < Z.of_nat (slots fs l) → place fs l' k = place fs l k.
Proof.
  intros [r ->] Hk. unfold place, slots in *. f_equal. assert (0 < Z.of_nat (epc fs)) by (destruct (epc fs); lia).
  assert (0 <= k / Z.of_nat (epc fs) < Z.of_nat (length l)) by (split; [apply Z.div_pos; lia|apply Z.div_lt_upper_bound; lia]).
  rewrite app_nth1 by lia. done.
Qed.
Lemma run_inv_prefix fs B l l' p r k0 : l `prefix_of` l' → p <= Z.of_nat (slots fs l) → run_inv fs B l p r k0 → run_inv fs B l' p r k0.
Proof.
  intros Hpre Hp [? ? ? ? ? Hpl]. split; try done. intros Hc. rewrite (place_prefix fs l l') by (done || lia). by apply Hpl.
Qed.
(** One more entry. *)
Lemma run_inv_free fs B l kc c i r k0 : l !! kc = Some c → 0 <= i < Z.of_nat (epc fs) → 32 * Z.of_nat (epc fs) < 2 ^ 32 →
  let p := Z.of_nat kc * Z.of_nat (epc fs) + i in run_inv fs B l p r k0 → is_free B p = true →
  let r1 := if fr_count r =? 0 then mk_free_run c (u32 (i * ENTRY_SIZE)) (fr_count r) else r in
  run_inv fs B l (p + 1) (mk_free_run (fr_cluster r1) (fr_offset r1) (fr_count r1 + 1)) k0.
Proof.
  intros Hc Hi Hb p [Hs Hp Hct Hf Hm Hpl] Hfree r1. assert (Hr1 : fr_count r1 = fr_count r) by (subst r1; by destruct (_ =? _)).
  split; cbn [fr_count fr_cluster fr_offset]; rewrite ?Hr1; [done|lia|lia| |done|].
  - intros k Hk. destruct (decide (k = p)) as [->|]; [done|]. apply Hf. lia.
  - intros _. subst r1. destruct (Z.eqb_spec (fr_count r) 0) as [H0|H0]; [|apply Hpl; lia].
    cbn [fr_cluster fr_offset]. replace k0 with p by lia. subst p. rewrite (place_at fs l kc c i Hc Hi). cbn [fst snd].
    unfold ENTRY_SIZE. rewrite u32_id by lia. split; [done|lia].
Qed.
Lemma run_inv_used fs B l p r k0 : run_inv fs B l p r k0 → is_free B p = false →
  run_inv fs B l (p + 1) (mk_free_run (fr_cluster r) (fr_offset r) 0) (p + 1).
Proof.
  intros [Hs Hp Hct Hf Hm Hpl] Hu. split; cbn [fr_count]; [lia|lia|lia|lia| |lia]. right. by replace (p + 1 - 1) with p by lia.
Qed.
Lemma free_scan_run fs B l kc c m count n : l !! kc = Some c → 0 < count → 32 * Z.of_nat (epc fs) < 2 ^ 32 →
  same_entries (epc fs) m 0 B (Z.of_nat kc * Z.of_nat (epc fs)) → ∀ i r k0, 0 <= i → i + Z.of_nat n = Z.of_nat (epc fs) →
  run_inv fs B l (Z.of_nat kc * Z.of_nat (epc fs) + i) r k0 → fr_count r < count →
  match free_scan n m i c count r with
  | ScanFound r' => ∃ k, run_inv fs B l (k + count) r' k ∧ fr_count r' = count ∧ k + count <= (Z.of_nat kc + 1) * Z.of_nat (epc fs)
  | ScanNext r' => ∃ k, run_inv fs B l ((Z.of_nat kc + 1) * Z.of_nat (epc fs)) r' k ∧ fr_count r' < count
  | ScanEnd => False
  end.
Proof.
  intros Hc Hcount Hb Hm. set (e := Z.of_nat (epc fs)) in *. induction n as [|n IH]; intros i r k0 Hi Hn Hr Hlt; cbn [free_scan].
  { exists k0. split; [|done]. replace ((Z.of_nat kc + 1) * e) with (Z.of_nat kc * e + i) by lia. done. }
  assert (Hfree : is_free m i = is_free B (Z.of_nat kc * e + i)).
  { unfold is_free, d_first. assert (m (32 * i) = B (32 * (Z.of_nat kc * e + i))) as ->; [|done].
    pose proof (Hm (32 * i) ltac:(lia)) as H. rewrite Z.mul_0_r, Z.add_0_l in H. rewrite H. f_equal. lia. }
  rewrite Hfree. destruct (is_free B (Z.of_nat kc * e + i)) eqn:Hf.
  - pose proof (run_inv_free fs B l kc c i r k0 Hc ltac:(fold e; lia) Hb Hr Hf) as Hr'. cbv zeta in Hr' |- *. fold e in Hr'.
    set (r1 := if fr_count r =? 0 then _ else r) in *. assert (Hr1 : fr_count r1 = fr_count r) by (subst r1; by destruct (_ =? _)).
    set (r2 := mk_free_run (fr_cluster r1) (fr_offset r1) (fr_count r1 + 1)) in *. assert (Hr2 : fr_count r2 = fr_count r + 1) by (subst r2; cbn [fr_count]; by rewrite Hr1). change (fr_count r2) with (fr_count r1 + 1). rewrite Hr1.
    destruct (Z.leb_spec count (fr_count r + 1)) as [Hle|Hgt].
    + exists k0. pose proof (ri_pos _ _ _ _ _ _ Hr'). replace (k0 + count) with (Z.of_nat kc * e + i + 1) by lia. split; [done|]. split; [lia|nia].
    + apply (IH (i + 1) r2 k0); [lia|lia| |lia]. by rewrite Z.add_assoc.
  - apply (IH (i + 1) _ (Z.of_nat kc * e + i + 1)); [lia|lia| |cbn; lia]. rewrite Z.add_assoc. by eapply run_inv_used.
Qed.

Section find.
Context {D : Type} `{!BlockDevice D}.
Implicit Types (s : fatst (D := D)) (d : D) (fs : fat32_fs) (T : Z → Z) (C : Z → Z → Z).
Variable uninit : mem.
#[local] Set Default Proof Using "All".

(** The first entries of the run that is found are free, and the one before them
    is not; the directory has become long enough for them. *)
Definition run_found fs (B : mem) l (count k : Z) : Prop :=
  0 <= k ∧ k + count <= Z.of_nat (slots fs l) ∧ (∀ j, k <= j < k + count → is_free B j = true) ∧ (k = 0 ∨ is_free B (k - 1) = false).
Lemma entry_run_loop_runs fs T0 C0 l0 first m e B count n : 0 < count → Z.of_nat (slots fs l0) + count <= Z.of_nat m * Z.of_nat (epc fs) →
  (∀ k, Z.of_nat (slots fs l0) <= k → is_free B k = true) → ∀ s d bf T C l kc c r k0 buf, wfile fs T0 C0 l0 d first T C l B → l !! kc = Some c → supply fs bf T l m e →
  run_inv fs B l (Z.of_nat kc * Z.of_nat (epc fs)) r k0 → fr_count r < count → (kc < m)%nat → (m < kc + n)%nat →
  runs_to (entry_run_loop uninit n fs count c buf r) (st d bf s) (λ o s', ∃ k d' bf' T' C' l', o = Some ((place fs l' k).1, 32 * (place fs l' k).2) ∧
    s' = st d' bf' s ∧ wfile fs T0 C0 l0 d' first T' C' l' B ∧ supply fs bf' T' l' m e ∧ run_found fs B l' count k).
Proof.
  intros Hcount Hm HB. induction n as [|n IH]; intros s d bf T C l kc c r k0 buf Hw Hk Hsup Hr Hlt Hkm Hn; [lia|]. cbn [entry_run_loop].
  pose proof (di_geom _ _ _ _ (wf_disk _ _ _ _ _ _ _ _ _ _ Hw)) as Hg. destruct (epc_eq fs _ Hg) as [Hbp He]. pose proof (ge_small _ _ Hg) as Hsmall.
  assert (Hcv : valid fs c) by (eapply fchain_valid; [apply (wf_chain _ _ _ _ _ _ _ _ _ _ Hw)|by eapply list_elem_of_lookup_2]).
  pose proof (ge_total _ _ Hg). rewrite (proj2 (Z.leb_gt _ _)) by (unfold valid in Hcv; lia).
  rstep (read_cluster_runs (st d bf s) fs T C c buf (wf_disk _ _ _ _ _ _ _ _ _ _ Hw) Hcv).
  intros [x buf'] s1 (d1 & -> & Hd1 & _ & Hbuf). cbn [snd] in Hbuf. cbv beta iota. change (Z.to_nat (entries_per_cluster fs)) with (epc fs).
  set (ec := Z.of_nat (epc fs)) in *. pose proof (lookup_lt_Some _ _ _ Hk) as Hkl.
  assert (Hsame : same_entries (epc fs) buf' 0 B (Z.of_nat kc * ec)).
  { intros y Hy. rewrite Hbuf, decide_True by (rewrite Hbp; fold ec in Hy |- *; lia).
    rewrite <- (wf_bytes _ _ _ _ _ _ _ _ _ _ Hw) by (rewrite Hbp; fold ec in Hy |- *; nia).
    replace (32 * (Z.of_nat kc * ec) + y) with (Z.of_nat kc * fs_bytes_per_cluster fs + y) by (rewrite Hbp; fold ec; lia).
    rewrite Z.mul_0_r, Z.add_0_l. symmetry. apply cbyte_at; [done|]. rewrite Hbp. fold ec in Hy |- *. lia. }
  assert (Hw1 : wfile fs T0 C0 l0 d1 first T C l B) by (by eapply wfile_disk).
  pose proof (free_scan_run fs B l kc c buf' count (epc fs) Hk Hcount ltac:(lia) Hsame 0 r k0 ltac:(lia) ltac:(fold ec; lia)) as Hscan.
  fold ec in Hscan. rewrite Z.add_0_r in Hscan. specialize (Hscan Hr Hlt).
  destruct (free_scan (epc fs) buf' 0 c count r) as [r'| |r']; [|done|].
  - destruct Hscan as (k & Hr' & Hlt').
    assert (Hk1 : (S kc < m)%nat).
    { destruct (decide (S kc < m)%nat) as [|Hno]; [done|]. exfalso. assert (m = S kc) as -> by lia.
      pose proof Hr' as [Hk0 Hpos Hct _ Hmax _].
      assert (Hlow : k <= Z.of_nat (slots fs l0)); [|lia]. destruct Hmax as [->|Hmax]; [lia|].
      destruct (decide (k <= Z.of_nat (slots fs l0))) as [|Hgt]; [done|]. rewrite HB in Hmax by lia. done. }
    rstep (next_to_write_runs uninit fs T0 C0 l0 s d1 bf first T C l B kc c m e Hw1 Hk Hsup Hk1).
    intros o s2 (z & d2 & bf2 & T2 & C2 & l2 & -> & -> & Hz & Hpre & Hw2 & Hsup2). cbv iota.
    eapply (IH s d2 bf2 T2 C2 l2 (S kc) z r' k); [exact Hw2|exact Hz|exact Hsup2| |done|done|lia].
    rewrite Nat2Z.inj_succ, <- Z.add_1_r. fold ec. eapply run_inv_prefix; [exact Hpre| |exact Hr']. unfold slots. fold ec. nia.
  - destruct Hscan as (k & [Hk0 Hpos Hct Hf Hmax Hpl] & Hcnt & Hend). apply runs_ret. destruct Hpl as [Hcl Hoff]; [lia|].
    exists k, d1, bf, T, C, l. rewrite Hcl, Hoff. split; [done|]. split; [done|]. split; [done|]. split; [done|].
    split; [done|]. split; [unfold slots; fold ec; nia|]. done.
Qed.
End find.

(** ** The entries are written *)

Lemma put_entries_ok ec count ents n : ∀ idx w buf, 0 <= idx → idx <= ec → 0 <= w <= count → (Z.to_nat (count - w) <= n)%nat →
  let q := Z.min (ec - idx) (count - w) in
  ∃ buf', put_entries n ec idx w count buf ents = (buf', idx + q, w + q) ∧
    ∀ x, buf' x = if decide (32 * idx <= x < 32 * (idx + q)) then ents (32 * w + (x - 32 * idx)) else buf x.
Proof.
  induction n as [|n IH]; intros idx w buf Hi Hie Hw Hn; cbn [put_entries].
  { exists buf. replace (Z.min (ec - idx) (count - w)) with 0 by lia. rewrite !Z.add_0_r. split; [done|]. intros x. by rewrite decide_False by lia. }
  destruct (Z.ltb_spec idx ec); cbn [andb]; [destruct (Z.ltb_spec w count)|].
  - destruct (IH (idx + 1) (w + 1) (copy buf (32 * idx) ents (32 * w) ENTRY_SIZE)) as (buf' & -> & Hb); [lia|lia|lia|lia|].
    exists buf'. assert (Hq : Z.min (ec - (idx + 1)) (count - (w + 1)) = Z.min (ec - idx) (count - w) - 1) by lia. rewrite Hq in *.
    split; [f_equal; [f_equal; lia|lia]|]. intros x. rewrite Hb. unfold copy, ENTRY_SIZE. repeat case_decide; try lia; f_equal; lia.
  - exists buf. replace (Z.min (ec - idx) (count - w)) with 0 by lia. rewrite !Z.add_0_r. split; [done|]. intros x. by rewrite decide_False by lia.
  - exists buf. replace (Z.min (ec - idx) (count - w)) with 0 by lia. rewrite !Z.add_0_r. split; [done|]. intros x. by rewrite decide_False by lia.
Qed.

Section write.
Context {D : Type} `{!BlockDevice D}.
Implicit Types (s : fatst (D := D)) (d : D) (fs : fat32_fs) (T : Z → Z) (C : Z → Z → Z).
Variable uninit : mem.
#[local] Set Default Proof Using "All".

Lemma entries_loop_runs fs T0 C0 l0 first ents count n : ∀ s d bf T C l B kc c idx w buf, wfile fs T0 C0 l0 d first T C l B →
  l !! kc = Some c → 0 <= idx <= Z.of_nat (epc fs) → 0 <= w <= count → (length l < kc + n)%nat →
  let p := Z.of_nat kc * Z.of_nat (epc fs) + idx in p + (count - w) <= Z.of_nat (slots fs l) →
  runs_to (entries_loop uninit n fs c idx w count buf ents) (st d bf s) (λ ok s', ok = true ∧ ∃ d' C' B', s' = st d' bf s ∧
    wfile fs T0 C0 l0 d' first T C' l B' ∧
    ∀ y, B' y = if decide (32 * p <= y < 32 * (p + (count - w))) then ents (32 * w + (y - 32 * p)) else B y).
Proof.
  induction n as [|n IH]; intros s d bf T C l B kc c idx w buf Hw Hk Hi Hwc Hn p Hp; [pose proof (lookup_lt_Some _ _ _ Hk); lia|]. cbn [entries_loop].
  pose proof (di_geom _ _ _ _ (wf_disk _ _ _ _ _ _ _ _ _ _ Hw)) as Hg. destruct (epc_eq fs _ Hg) as [Hbp He].
  assert (Hcv : valid fs c) by (eapply fchain_valid; [apply (wf_chain _ _ _ _ _ _ _ _ _ _ Hw)|by eapply list_elem_of_lookup_2]).
  pose proof (ge_total _ _ Hg). destruct (Z.ltb_spec w count) as [Hlt|Hge]; cbn [andb].
  2:{ apply runs_ret. split; [lia|]. exists d, C, B. split; [done|]. split; [done|]. intros y. by rewrite decide_False by lia. }
  rewrite (proj2 (Z.ltb_lt _ _)) by (unfold valid in Hcv; lia).
  rstep (read_cluster_runs (st d bf s) fs T C c buf (wf_disk _ _ _ _ _ _ _ _ _ _ Hw) Hcv).
  intros [x buf'] s1 (d1 & -> & Hd1 & _ & Hbuf). cbn [snd] in Hbuf. cbv beta iota. change (entries_per_cluster fs) with (fs_bytes_per_cluster fs / ENTRY_SIZE).
  replace (fs_bytes_per_cluster fs / ENTRY_SIZE) with (Z.of_nat (epc fs)) by (rewrite Hbp; unfold ENTRY_SIZE; zlia). set (ec := Z.of_nat (epc fs)) in *.
  destruct (put_entries_ok ec count ents (Z.to_nat count) idx w buf' ltac:(lia) ltac:(lia) Hwc ltac:(lia)) as (buf2 & -> & Hbuf2).
  set (q := Z.min (ec - idx) (count - w)) in *. cbv beta iota.
  rstep (write_cluster_runs (st d1 bf s) fs T C c buf2 Hd1 Hcv). intros _ s2 (d2 & -> & Hd2). pose proof (lookup_lt_Some _ _ _ Hk) as Hkl.
  set (B1 := λ y, if decide (32 * p <= y < 32 * (p + q)) then ents (32 * w + (y - 32 * p)) else B y).
  assert (Hw2 : wfile fs T0 C0 l0 d2 first T (<[c := buf2]> C) l B1).
  { eapply (wfile_write uninit); [exact Hw|exact Hk|exact Hd2|]. intros y. unfold B1. rewrite Hbp. fold ec. subst p.
    destruct (decide (Z.of_nat kc * (32 * ec) <= y < Z.of_nat kc * (32 * ec) + 32 * ec)) as [Hin|Hout].
    - rewrite Hbuf2, Hbuf, Hbp. fold ec. rewrite (decide_True (P := 0 <= y - _ < 32 * ec)) by lia. repeat case_decide; try lia; [f_equal; lia|].
      rewrite <- (wf_bytes _ _ _ _ _ _ _ _ _ _ Hw) by (rewrite Hbp; fold ec; nia).
      replace y with (Z.of_nat kc * fs_bytes_per_cluster fs + (y - Z.of_nat kc * (32 * ec))) at 1 by (rewrite Hbp; fold ec; lia).
      apply cbyte_at; [done|rewrite Hbp; fold ec; lia].
    - rewrite decide_False by (subst q; lia). done. }
  destruct (Z.ltb_spec (w + q) count) as [Hmore|Hdone].
  - assert (Hq : q = ec - idx) by (subst q; lia). pose proof (fchain_next fs T l kc c first (wf_chain _ _ _ _ _ _ _ _ _ _ Hw) Hk) as Hnext.
    destruct (l !! S kc) as [z|] eqn:Hz; [|apply lookup_ge_None in Hz; unfold slots in Hp; fold ec in Hp; nia]. destruct Hnext as [Hnz _].
    rstep (get_next_cluster_runs uninit (st d2 bf s) fs T (<[c := buf2]> C) c Hd2 (table_end_valid fs c Hcv)). intros nx s3 (-> & d3 & -> & Hd3). rewrite Hnz.
    rlast (IH s d3 bf T (<[c := buf2]> C) l B1 (S kc) z 0 (w + q) buf2); [by eapply wfile_disk|exact Hz|lia|lia|lia|fold ec; subst p; lia|].
    intros ok s4 (-> & d4 & C4 & B4 & -> & Hw4 & HB4). split; [done|]. exists d4, C4, B4. split; [done|]. split; [done|].
    intros y. rewrite HB4. unfold B1. fold ec. assert (Hpp : Z.of_nat (S kc) * ec + 0 = p + q) by (subst p; lia). rewrite Hpp.
    repeat case_decide; try lia; f_equal; lia.
  - destruct n as [|n]; [lia|]. cbn [entries_loop]. rewrite (proj2 (Z.ltb_ge _ _)) by lia. cbn [andb]. apply runs_ret. split; [subst q; lia|].
    exists d2, (<[c := buf2]> C), B1. split; [done|]. split; [done|]. intros y. unfold B1. replace (p + (count - w)) with (p + q) by (subst q; lia). done.
Qed.
Lemma write_entries_runs fuel fs T0 C0 l0 first ents count s d bf T C l B k b : wfile fs T0 C0 l0 d first T C l B →
  0 <= k → 0 < count → k + count <= Z.of_nat (slots fs l) → (length l < fuel)%nat →
  runs_to (write_dir_entries uninit fuel fs (place fs l k).1 (32 * (place fs l k).2) ents count) (st d (Some b :: bf) s) (λ ok s', ok = true ∧
    ∃ d' C' B', s' = st d' bf s ∧ wfile fs T0 C0 l0 d' first T C' l B' ∧
    ∀ y, B' y = if decide (32 * k <= y < 32 * (k + count)) then ents (y - 32 * k) else B y).
Proof.
  intros Hw Hk Hc Hend Hf. pose proof (di_geom _ _ _ _ (wf_disk _ _ _ _ _ _ _ _ _ _ Hw)) as Hg. destruct (epc_eq fs _ Hg) as [Hbp He].
  unfold write_dir_entries. apply runs_bind; eapply runs_Done; [by eapply kmalloc_used_runs|]. change (set_ft_bufs bf _) with (st d bf s).
  unfold place, slots in *. cbn [fst snd]. set (ec := Z.of_nat (epc fs)) in *.
  assert (Hl : Z.of_nat (length l * epc fs) = Z.of_nat (length l) * ec) by (subst ec; lia). rewrite Hl in Hend.
  pose proof (Z.mod_pos_bound k ec ltac:(lia)). pose proof (Z.div_mod k ec ltac:(lia)).
  assert (0 <= k / ec < Z.of_nat (length l)) by (split; [apply Z.div_pos; lia|apply Z.div_lt_upper_bound; lia]).
  destruct (lookup_lt_is_Some_2 l (Z.to_nat (k / ec))) as [c Hcl]; [lia|]. rewrite (nth_lookup_Some _ _ _ _ Hcl).
  replace (32 * (k mod ec) / ENTRY_SIZE) with (k mod ec) by (unfold ENTRY_SIZE; rewrite Z.mul_comm, Z.div_mul; lia).
  assert (Hkp : Z.of_nat (Z.to_nat (k / ec)) * ec + k mod ec = k) by lia.
  rlast (entries_loop_runs fs T0 C0 l0 first ents count fuel s d bf T C l B _ c (k mod ec) 0 b Hw Hcl); [fold ec; lia|lia|lia|unfold slots; fold ec; lia|].
  fold ec. rewrite Hkp. intros ok s1 (-> & d1 & C1 & B1 & -> & Hw1 & HB1). split; [done|]. exists d1, C1, B1. split; [done|]. split; [done|].
  intros y. rewrite HB1. rewrite Z.sub_0_r. case_decide; [f_equal; lia|done].
Qed.
End write.

(** ** The new entries

    What is stored in an entry is read back. *)
Lemma store16s_out l : ∀ m a x, x < a ∨ a + 2 * Z.of_nat (length l) <= x → store16s m a l x = m x.
Proof.
  induction l as [|c l IH]; intros m a x Hx; [done|]. cbn [store16s length] in *. rewrite IH by lia. apply store_le_out. lia.
Qed.
Definition u16s (l : list Z) : Prop := Forall (λ c, 0 <= c < 65536) l.
Lemma load16s_store16s l : u16s l → ∀ m a, load16s (store16s m a l) a (Z.of_nat (length l)) = l.
Proof.
  induction 1 as [|c l Hc _ IH]; intros m a; [done|]. unfold load16s in *. cbn [length store16s]. rewrite Nat2Z.inj_succ, seqZ_cons, Z.pred_succ by lia.
  cbn [map]. f_equal.
  - rewrite Z.mul_0_r, Z.add_0_r. unfold load16, store16. rewrite (load_le_ext _ (store_le m a 2 c)) by (intros x Hx; apply store16s_out; lia).
    rewrite load_store_le. by apply Z.mod_small.
  - rewrite <- (IH (store16 m a c) (a + 2)) at 2. change (Z.succ 0) with (0 + 1).
    assert (seqZ (0 + 1) (Z.of_nat (length l)) = map (Z.add 1) (seqZ 0 (Z.of_nat (length l)))) as -> by (symmetry; apply (fmap_add_seqZ 1 0)).
    rewrite map_map. apply map_ext. intros k. f_equal. lia.
Qed.
Lemma load16s_ext m1 m2 a n : (∀ x, a <= x < a + 2 * n → m1 x = m2 x) → load16s m1 a n = load16s m2 a n.
Proof.
  intros H. unfold load16s. apply map_ext_in. intros k Hk%list_elem_of_In%elem_of_seqZ. apply load_le_ext. intros x Hx. apply H. lia.
Qed.
Record lfn_ok (e : fat_lfn_entry) : Prop := mk_lfn_ok {
  lo_name1 : length (l_name1 e) = 5%nat ∧ u16s (l_name1 e);
  lo_name2 : length (l_name2 e) = 6%nat ∧ u16s (l_name2 e);
  lo_name3 : length (l_name3 e) = 2%nat ∧ u16s (l_name3 e);
  lo_cluster : 0 <= l_first_cluster e < 65536;
}.
Lemma store_lfn_out e m i x : lfn_ok e → x < 32 * i ∨ 32 * i + 32 <= x → store_lfn m i e x = m x.
Proof.
  intros [[H1 _] [H2 _] [H3 _] _] Hx. unfold store_lfn, store16. rewrite store16s_out, store_le_out, store16s_out by lia.
  rewrite !upd_ne by lia. rewrite store16s_out by lia. by rewrite upd_ne by lia.
Qed.
Lemma lfn_at_stored e m i : lfn_ok e → lfn_at (store_lfn m i e) i = e.
Proof.
  intros [[H1 U1] [H2 U2] [H3 U3] Hcl]. unfold lfn_at, store_lfn. set (a := 32 * i).
  set (m1 := upd m a _). set (m2 := store16s m1 _ _). set (m3 := upd m2 _ _). set (m4 := upd m3 _ _). set (m5 := upd m4 _ _).
  set (m6 := store16s m5 _ _). set (m7 := store16 m6 _ _).
  assert (H76 : ∀ x, a + 28 <= x ∨ x < a + 26 → m7 x = m6 x) by (intros x Hx; apply store_le_out; lia).
  assert (H65 : ∀ x, x < a + 14 ∨ a + 26 <= x → m6 x = m5 x) by (intros x Hx; apply store16s_out; rewrite H2; lia).
  assert (H52 : ∀ x, x < a + 11 → m5 x = m2 x) by (intros x Hx; unfold m5, m4, m3; rewrite !upd_ne by lia; done).
  assert (H87 : ∀ x, x < a + 28 → store16s m7 (a + 28) (l_name3 e) x = m7 x) by (intros x Hx; apply store16s_out; lia).
  destruct e as [o n1 at_ ty ck n2 cl n3]. cbn [l_name1 l_name2 l_name3 l_order l_attr l_type l_checksum l_first_cluster] in *. f_equal.
  - rewrite H87, H76, H65, H52 by lia. unfold m2. rewrite store16s_out by lia. apply upd_eq.
  - etransitivity; [|apply (load16s_store16s n1 U1 m1 (a + 1))]. rewrite H1. change (Z.of_nat 5) with 5. apply load16s_ext. intros x Hx.
    rewrite H87, H76, H65, H52 by lia. done.
  - rewrite H87, H76, H65 by lia. unfold m5, m4, m3. rewrite !upd_ne by lia. apply upd_eq.
  - rewrite H87, H76, H65 by lia. unfold m5, m4. rewrite upd_ne by lia. apply upd_eq.
  - rewrite H87, H76, H65 by lia. apply upd_eq.
  - etransitivity; [|apply (load16s_store16s n2 U2 m5 (a + 14))]. rewrite H2. change (Z.of_nat 6) with 6. apply load16s_ext. intros x Hx.
    rewrite H87, H76 by lia. done.
  - transitivity (load16 m7 (a + 26)); [apply load_le_ext; intros x Hx; apply H87; lia|].
    unfold m7, load16, store16. rewrite load_store_le. by apply Z.mod_small.
  - etransitivity; [|apply (load16s_store16s n3 U3 m7 (a + 28))]. by rewrite H3.
Qed.
Lemma put_lfns_out l : Forall lfn_ok l → ∀ m i x, x < 32 * i ∨ 32 * (i + Z.of_nat (length l)) <= x → put_lfns m i l x = m x.
Proof.
  induction 1 as [|e l He _ IH]; intros m i x Hx; [done|]. cbn [put_lfns length] in *. rewrite IH by lia. by apply store_lfn_out; [|lia].
Qed.
Lemma put_lfns_at l : Forall lfn_ok l → ∀ m i (j : nat) e, l !! j = Some e → lfn_at (put_lfns m i l) (i + Z.of_nat j) = e.
Proof.
  induction 1 as [|e0 l He Hl IH]; intros m i j e Hj; [done|]. cbn [put_lfns]. destruct j as [|j].
  - injection Hj as ->. rewrite Z.add_0_r. etransitivity; [|apply (lfn_at_stored e m i He)]. apply (same_lfn 0). intros x Hx. apply put_lfns_out; [done|lia].
  - cbn in Hj. replace (i + Z.of_nat (S j)) with (i + 1 + Z.of_nat j) by lia. by apply IH.
Qed.
Lemma put_short_out m i short attr cl date time x : length short = 11%nat → x < 32 * i ∨ 32 * i + 32 <= x → put_short m i short attr cl date time x = m x.
Proof.
  intros Hs Hx. unfold put_short, store16, store32. rewrite !store_le_out by lia. rewrite upd_ne by lia. rewrite !store_le_out by lia.
  rewrite upd_ne by lia. apply put_bytes_out. lia.
Qed.
Lemma load_upd_ne m a v b n : a < b ∨ b + Z.of_nat n <= a → load_le (upd m a v) b n = load_le m b n.
Proof. intros H. apply load_le_ext. intros x Hx. apply upd_ne. lia. Qed.
Ltac peel := repeat first [rewrite load_store_le_ne by lia | rewrite load_upd_ne by lia | rewrite store_le_out by lia | rewrite upd_ne by lia].
(** The entry of a new file. *)
Record file_entry (m : mem) (i : Z) (short : list Z) (date time : Z) : Prop := mk_file_entry {
  fe_name : d_name m i = short;
  fe_attr : d_attr m i = FAT_ATTR_ARCHIVE;
  fe_cluster : d_cluster m i = 0;
  fe_size : d_file_size m i = 0;
  fe_create : d_create_date m i = date ∧ d_create_time m i = time;
  fe_write : d_write_date m i = date ∧ d_write_time m i = time;
  fe_access : d_access_date m i = date;
}.
Lemma put_short_entry m i short date time : length short = 11%nat → 0 <= date < 65536 → 0 <= time < 65536 →
  file_entry (put_short m i short FAT_ATTR_ARCHIVE 0 date time) i short date time.
Proof.
  intros Hs Hd Ht. change (65536) with (256 ^ Z.of_nat 2) in Hd, Ht.
  unfold put_short. cbv zeta.
  split; unfold d_cluster, d_file_size, d_create_date, d_create_time, d_write_date, d_write_time, d_access_date, d_attr, load16, load32, store16, store32.
  - unfold d_name. etransitivity; [|apply (bytes_at_put m (32 * i))]. rewrite Hs. apply bytes_at_ext. intros x Hx. by peel.
  - peel. apply upd_eq.
  - peel. rewrite load_store_le. peel. by rewrite load_store_le.
  - peel. by rewrite load_store_le.
  - split; peel; rewrite load_store_le; by apply Z.mod_small.
  - split; peel; rewrite load_store_le; by apply Z.mod_small.
  - peel. rewrite load_store_le. by apply Z.mod_small.
Qed.
Lemma file_entry_same m1 i m2 j short date time : same_entries 1 m1 i m2 j → file_entry m2 j short date time → file_entry m1 i short date time.
Proof.
  intros Hs [? ? ? ? ? ? ?]. pose proof (λ o k, same_load 0 m1 m2 i j Hs o k) as Hload.
  split; unfold d_cluster, d_file_size, d_create_date, d_create_time, d_write_date, d_write_time, d_access_date, load16, load32 in *; rewrite ?Hload by lia;
    [|by rewrite (same_attr 0 m1 m2 i j Hs)|done..]. by rewrite (same_name 0 m1 m2 i j Hs).
Qed.
Lemma u16_lor a b : u16 (Z.lor a b) = Z.lor (u16 a) (u16 b).
Proof.
  unfold u16. change 65536 with (2 ^ 16). rewrite <- !(land_ones_mod _ 16) by lia. by rewrite Z.land_lor_distr_l.
Qed.
Lemma now_u16 t : 0 <= (get_fat_now t).1 < 65536 ∧ 0 <= (get_fat_now t).2 < 65536.
Proof.
  assert (Hp : ∀ a b c, 0 <= Z.lor (Z.lor (u16 a) (u16 b)) (u16 c) < 65536).
  { intros a b c. rewrite <- !u16_lor. unfold u16. apply Z.mod_pos_bound. lia. }
  split; apply Hp.
Qed.
(** The date alone decides whether a time can be converted. *)
Lemma fat_to_unix_time date t1 t2 : is_Some (fat_to_unix date t1) → is_Some (fat_to_unix date t2).
Proof.
  unfold fat_to_unix. destruct (date =? 0); [done|]. destruct (unpack_fat_date date) as [[y m] d].
  destruct (unpack_fat_time t1) as [[h1 m1] s1], (unpack_fat_time t2) as [[h2 m2] s2]. unfold datetime_to_unix.
  cbn [dt_year dt_month dt_day dt_hour dt_min dt_sec]. destruct (add_months _ _ _ _) as [days|]; [by eexists|]. intros [x Hx]. done.
Qed.
(** The long name entries of a name. *)
Lemma lfn_char_u16 name pos : Forall (λ c, 0 < c < 256) name → 0 <= lfn_char name pos < 65536.
Proof.
  intros Hn. unfold lfn_char. repeat case_match; try lia. destruct (zget name pos) as [c|] eqn:Hc; cbn; [|lia].
  unfold zget in Hc. case_decide; [|done]. eapply Forall_lookup_1 in Hn; [|exact Hc]. cbn in Hn. lia.
Qed.
Lemma lfn_entries_ok name ck : Forall (λ c, 0 < c < 256) name → (0 < length name < 255)%nat →
  1 <= lfn_entries_needed name <= 20 ∧ length (lfn_entries name ck) = Z.to_nat (lfn_entries_needed name) ∧
  Forall (λ e, lfn_ok e ∧ l_attr e = FAT_ATTR_LFN ∧ l_order e ≠ 0 ∧ l_order e ≠ 0xE5) (lfn_entries name ck).
Proof.
  intros Hn Hlen. assert (H20 : 1 <= lfn_entries_needed name <= 20) by (unfold lfn_entries_needed; zlia). split; [done|].
  unfold lfn_entries. rewrite length_map, length_seqZ. split; [done|]. apply Forall_map, Forall_forall. intros i Hi%elem_of_seqZ.
  unfold fill_lfn_entry. cbn [l_attr l_order]. set (o := lfn_entries_needed name - i).
  assert (Hu : ∀ a n, u16s (map (lfn_char name) (seqZ a n))).
  { intros a n. unfold u16s. apply Forall_map, Forall_forall. intros x _. by apply lfn_char_u16. }
  split; [split; cbn; rewrite ?length_map, ?length_seqZ; try (split; [done|apply Hu]); lia|]. split; [done|].
  assert (Hcase : ∃ v, (if i =? 0 then 0x40 else 0) = v ∧ (v = 0x40 ∨ v = 0)) by (destruct (i =? 0); eauto). destruct Hcase as (v & -> & Hv).
  assert (Ho : o ∈ seqZ 1 20) by (apply elem_of_seqZ; lia). clearbody o. clear -Ho Hv. revert o Ho. refine (proj1 (Forall_forall _ _) _).
  destruct Hv as [-> | ->]; apply (bool_decide_unpack _); by vm_compute.
Qed.

(** ** The search passes the new entries *)

Lemma lfn_steps_cons e l st : lfn_steps (e :: l) st = st' ← lfn_step e st; lfn_steps l st'.
Proof.
  unfold lfn_steps. cbn [fold_left]. change (Some st ≫= λ st, lfn_step e st) with (lfn_step e st). destruct (lfn_step e st) as [st'|]; [done|].
  change (None ≫= _) with (@None lfn_state). induction l as [|e' l IH]; [done|]. exact IH.
Qed.
Lemma lookup_scan_lfns search n lfns : ∀ m i st,
  (∀ (j : nat) e, lfns !! j = Some e → lfn_at m (i + Z.of_nat j) = e ∧ l_attr e = FAT_ATTR_LFN ∧ l_order e ≠ 0 ∧ l_order e ≠ 0xE5) →
  lookup_scan (length lfns + n) m i search st = st' ← lfn_steps lfns st; lookup_scan n m (i + Z.of_nat (length lfns)) search st'.
Proof.
  induction lfns as [|e lfns IH]; intros m i st Hl; [cbn; by rewrite Z.add_0_r|]. rewrite lfn_steps_cons. cbn [lookup_scan length Nat.add].
  destruct (Hl O e eq_refl) as (He & Ha & Ho & HE5). rewrite Z.add_0_r in He. subst e.
  rewrite (proj2 (Z.eqb_neq (d_first m i) 0)), (proj2 (Z.eqb_neq (d_first m i) 229)) by done.
  change (d_attr m i) with (l_attr (lfn_at m i)). rewrite Ha. cbn [Z.eqb FAT_ATTR_LFN Pos.eqb].
  destruct (lfn_step (lfn_at m i) st) as [st'|]; [|done]. cbn. rewrite IH.
  - by replace (i + Z.of_nat (S (length lfns))) with (i + 1 + Z.of_nat (length lfns)) by lia.
  - intros j e Hj. replace (i + 1 + Z.of_nat j) with (i + Z.of_nat (S j)) by lia. by apply Hl.
Qed.
Lemma lookup_scan_end search n m : ∀ i st, lookup_scan n m i search st = Some ScanEnd → ∃ j, i <= j < i + Z.of_nat n ∧ d_first m j = 0.
Proof.
  induction n as [|n IH]; intros i st; [done|]. cbn [lookup_scan].
  assert (Hr : ∀ st', lookup_scan n m (i + 1) search st' = Some ScanEnd → ∃ j, i <= j < i + Z.of_nat (S n) ∧ d_first m j = 0).
  { intros st' (j & Hj & Hz)%IH. exists j. split; [lia|done]. }
  destruct (Z.eqb_spec (d_first m i) 0); [exists i; split; [lia|done]|]. destruct (d_first m i =? 229); [apply Hr|]. destruct (d_attr m i =? FAT_ATTR_LFN).
  - destruct (lfn_step (lfn_at m i) st) as [st'|]; [apply Hr|done].
  - destruct (entry_name st (d_name m i) 255) as [nm'|]; [|done]. cbn. destruct (strncpy_name nm' 255) as [u|]; [|done]. cbn.
    case_decide; [done|apply Hr].
Qed.

Lemma c_str_id l : Forall (λ c, 0 < c < 256) l → c_str l = l.
Proof.
  induction 1 as [|c l Hc _ IH]; [done|]. unfold c_str in *. cbn [before_char]. rewrite (proj2 (Z.eqb_neq 0 c)) by lia. by rewrite IH.
Qed.
Lemma own_search name : Forall (λ c, 0 < c < 256) name → (0 < length name < 255)%nat →
  strncpy_name name 255 = Some name ∧ search_of name = to_upper name.
Proof.
  intros Hn Hlen. unfold strncpy_name, search_of. rewrite !take_ge by lia. rewrite (proj2 (Z.ltb_lt _ _)) by lia. rewrite orb_true_r.
  by rewrite c_str_id.
Qed.

(** The entries for [name], and the directory with them from the entry [k]. *)
Definition new_entries (b : mem) (name short : list Z) (date time : Z) : mem :=
  let n := lfn_entries_needed name in
  put_short (put_lfns (fill b 0 ((n + 1) * ENTRY_SIZE)) 0 (lfn_entries name (lfn_checksum short))) n short FAT_ATTR_ARCHIVE 0 date time.
Definition placed_at (ents B : mem) (k count : Z) : mem := λ y, if decide (32 * k <= y < 32 * (k + count)) then ents (y - 32 * k) else B y.
Lemma new_entry_found B b name short date time k st n (m := lfn_entries_needed name) :
  Forall (λ c, 0 < c < 256) name → (0 < length name < 255)%nat → short_ok short → 0 <= date < 65536 → 0 <= time < 65536 → 0 <= k →
  lookup_scan (Z.to_nat k) B 0 (search_of name) no_name = Some (ScanNext st) → (Z.to_nat (k + (m + 1)) <= n)%nat →
  let B' := placed_at (new_entries b name short date time) B k (m + 1) in
  lookup_scan n B' 0 (search_of name) no_name = Some (ScanFound (k + m, name)) ∧ file_entry B' (k + m) short date time.
Proof.
  intros Hn Hlen [Hsl Hs] Hd Ht Hk Hpre Hend B'. destruct (lfn_entries_ok name (lfn_checksum short) Hn Hlen) as (Hm & Hll & Hl). fold m in Hm, Hll.
  pose proof (Forall_impl _ _ _ Hl (λ e He, proj1 He)) as Hok. set (lfns := lfn_entries name (lfn_checksum short)) in *.
  set (E1 := put_lfns (fill b 0 ((m + 1) * ENTRY_SIZE)) 0 lfns).
  assert (Hents : new_entries b name short date time = put_short E1 m short FAT_ATTR_ARCHIVE 0 date time) by done.
  assert (HB1 : ∀ (j : nat), (j < length lfns)%nat → same_entries 1 B' (k + Z.of_nat j) E1 (0 + Z.of_nat j)).
  { intros j Hj x Hx. unfold B', placed_at. rewrite decide_True by lia. rewrite Hents, put_short_out by (done || lia). f_equal. lia. }
  assert (HB2 : same_entries 1 B' (k + m) (put_short E1 m short FAT_ATTR_ARCHIVE 0 date time) m).
  { intros x Hx. unfold B', placed_at. rewrite decide_True by lia. rewrite Hents. f_equal. lia. }
  pose proof (file_entry_same _ _ _ _ _ _ _ HB2 (put_short_entry E1 m short date time Hsl Hd Ht)) as Hfe. split; [|exact Hfe].
  destruct (own_search name Hn Hlen) as [Hself Hsearch].
  replace n with (Z.to_nat k + (length lfns + S (n - Z.to_nat (k + (m + 1)))))%nat by lia. rewrite lookup_scan_app.
  rewrite (lookup_scan_same _ (Z.to_nat k) B' 0 B 0) by (intros x Hx; unfold B', placed_at; rewrite decide_False by lia; done).
  rewrite Hpre. cbn [fmap option_fmap option_map shift_found]. rewrite Z.add_0_l, Z2Nat.id by done.
  rewrite lookup_scan_lfns.
  2:{ intros j e Hj. pose proof (lookup_lt_Some _ _ _ Hj) as Hjl. rewrite (same_lfn 0 _ _ _ _ (HB1 j Hjl)). unfold E1. rewrite (put_lfns_at lfns Hok _ 0 j e Hj).
      rewrite Forall_lookup in Hl. destruct (Hl j e Hj) as (_ & ? & ? & ?). done. }
  destruct (long_name_survives name short st Hn Hlen) as (st' & Hsteps & Hname). fold lfns in Hsteps. rewrite Hsteps.
  change (Some st' ≫= ?f) with (f st'). cbv beta. replace (k + Z.of_nat (length lfns)) with (k + m) by lia. cbn [lookup_scan].
  destruct Hfe as [Hfn Hfa _ _ _ _ _]. assert (Hfirst : d_first B' (k + m) = nth 0 short 0).
  { rewrite <- Hfn. unfold d_name, bytes_at, d_first. cbn [seq map nth]. by rewrite Z.add_0_r. }
  assert (Hb : short_byte (nth 0 short 0)) by (destruct short as [|c sh]; [done|]; by apply Forall_cons in Hs as [? _]).
  rewrite Hfirst, Hfa, Hfn. destruct Hb as [Hb1 Hb2]. rewrite (proj2 (Z.eqb_neq (nth 0 short 0) 0)), (proj2 (Z.eqb_neq (nth 0 short 0) 229)) by lia.
  cbn [Z.eqb FAT_ATTR_ARCHIVE FAT_ATTR_LFN Pos.eqb]. rewrite Hname. change (Some name ≫= ?f) with (f name). cbv beta. rewrite Hself.
  change (Some name ≫= ?f) with (f name). cbv beta. by rewrite decide_True.
Qed.
(** The entries before the run are passed, when the name is not among them. *)
Definition dir_ends (B : mem) (n : nat) : Prop := ∀ i j, 0 <= i → i < j → j < Z.of_nat n → d_first B i = 0 → d_first B j = 0.
Lemma before_run B n k search r : dir_ends B n → lookup_scan n B 0 search no_name = Some r → is_found r = false →
  0 <= k <= Z.of_nat n → (k = 0 ∨ is_free B (k - 1) = false) → ∃ st, lookup_scan (Z.to_nat k) B 0 search no_name = Some (ScanNext st).
Proof.
  intros Hends Hr Hnf Hk Hmax. replace n with (Z.to_nat k + (n - Z.to_nat k))%nat in Hr by lia. rewrite lookup_scan_app in Hr.
  destruct (lookup_scan (Z.to_nat k) B 0 search no_name) as [[st| |x]|] eqn:Hs; [by exists st| | |done].
  - exfalso. apply lookup_scan_end in Hs as (j & Hj & Hz). destruct Hmax as [->|Hmax]; [lia|]. unfold is_free in Hmax.
    assert (d_first B (k - 1) = 0) as Hz'; [|by rewrite Hz' in Hmax].
    destruct (decide (j = k - 1)) as [<-|]; [done|]. apply (Hends j (k - 1)); [lia|lia|lia|done].
  - injection Hr as <-. done.
Qed.

Section create.
Context {D : Type} `{!BlockDevice D}.
Implicit Types (s : fatst (D := D)) (d : D) (fs : fat32_fs) (T : Z → Z) (C : Z → Z → Z).
Variable uninit : mem.
Variable fuel : nat.
Variable fat32_ops : Z.
Variable device_id : Z → Z.
#[local] Set Default Proof Using "All".

(** A file named [name] can be created in the directory: two clusters and the
    buffers are there, the suffix [K] is free for the short name, and the four
    objects of a creation and a lookup have new addresses. *)
Record can_create fs s T C (l : list Z) (name : list Z) (K : nat) : Prop := mk_can_create {
  cc_fuel : fs_total_clusters fs + 2 < Z.of_nat fuel;
  cc_tight : table_tight fs T;
  cc_nonempty : l ≠ [];
  cc_ends : dir_ends (dir_bytes fs C l) (slots fs l);
  cc_clock : clock_ok s;
  cc_suffix : suffix_free fs C l name K ∧ Z.of_nat K <= 999998;
  cc_bufs : Forall is_Some (ft_bufs s) ∧ (K + 7 <= length (ft_bufs s))%nat;
  cc_free : (2 <= length (free_list fs T))%nat;
  cc_objs : ∃ a1 a2 a3 a4 objs, ft_objs s = a1 :: a2 :: a3 :: a4 :: objs ∧
    Forall (λ a, a ≠ 0 ∧ ft_nodes s !! a = None ∧ ft_files s !! a = None) [a1; a2; a3; a4];
}.
Lemma wfile_start fs s T C first l : disk_is (ft_dev s) fs T C → table_tight fs T → fchain fs T first l →
  wfile fs T C l (ft_dev s) first T C l (contents fs C l).
Proof.
  intros Hd Ht Hl. split; try done.
  - intros y Hy. unfold contents. by rewrite decide_True.
  - intros y Hy. unfold contents. by rewrite decide_False by lia.
  - intros x Hx. by left.
Qed.
Lemma created_node_runs s fs f name cl c off cnt date time a1 a2 objs : ff_fs f = fs → ft_objs s = a1 :: a2 :: objs → a1 ≠ 0 → a2 ≠ 0 →
  is_Some (fat_to_unix date time) →
  runs_to (created_node fat32_ops f name FAT_ATTR_ARCHIVE cl c off cnt date time) s (λ a s', a = a1 ∧ ∃ n',
    in_name n' = take 63 name ∧ in_size n' = 0 ∧ in_flags n' = Z.lor FS_FILE FS_TEMPORARY ∧ in_ptr n' = a2 ∧
    s' = set_ft_nodes (<[a1 := n']> (ft_nodes s)) (set_ft_files (<[a2 := mk_fat32_file fs cl (ff_first_cluster f) c (u32 (off + cnt * ENTRY_SIZE))]> (ft_files s))
           (set_ft_objs objs s))).
Proof.
  intros Hfs Hobjs H1 H2 [t Ht]. unfold created_node. cbv zeta. rewrite Hfs.
  apply runs_bind; eapply runs_Done; [unfold kmalloc_obj; by rewrite Hobjs|]. rewrite (proj2 (Z.eqb_neq a1 0)) by done.
  apply runs_bind; eapply runs_Done; [unfold unix_time; by rewrite Ht|].
  apply runs_bind; eapply runs_Done; [reflexivity|]. rewrite (proj2 (Z.eqb_neq a2 0)) by done.
  apply runs_bind; eapply runs_Done; [reflexivity|]. apply runs_bind; eapply runs_Done; [reflexivity|]. apply runs_ret. split; [done|].
  eexists. split; [|split; [|split; [|split; [|reflexivity]]]]; done.
Qed.

(** The entries of the new file are written in the first run of free entries
    that is long enough. *)
Lemma create_runs fs s parent n f T C l name K : fat_dir fs s parent n f T C l → can_create fs s T C l name K →
  Forall (λ c, 0 < c < 256 ∧ c ≠ 0xE5) name → (0 < length name < 255)%nat → needs_lfn name = true →
  runs_to (fat32_create uninit fuel fat32_ops parent name) s (λ a s', ∃ a1 a2 a3 a4 objs n' d' b bufs' T' C' l' k b' short,
    let '(date, time) := get_fat_now (ft_clock s) in let m := lfn_entries_needed name in
    a = a1 ∧ ft_objs s = a1 :: a2 :: a3 :: a4 :: objs ∧ in_name n' = take 63 name ∧ in_size n' = 0 ∧
    in_flags n' = Z.lor FS_FILE FS_TEMPORARY ∧ in_ptr n' = a2 ∧
    s' = set_ft_nodes (<[a1 := n']> (ft_nodes s)) (set_ft_files (<[a2 := mk_fat32_file fs 0 (ff_first_cluster f) (place fs l' k).1 (u32 (32 * (place fs l' k).2 + m * ENTRY_SIZE))]> (ft_files s))
           (set_ft_objs (a3 :: a4 :: objs) (st d' (Some b :: bufs') s))) ∧
    short_ok short ∧ run_found fs (contents fs C l) l' (m + 1) k ∧
    wfile fs T C l d' (ff_first_cluster f) T' C' l' (placed_at (new_entries b' name short date time) (contents fs C l) k (m + 1))).
Proof.
  intros [Hd Hn Hfi Hfs Hl] [Hfuel Htight Hne Hends [t Ht] [HK HKmax] [Hsome Hbufs] Hfree (a1 & a2 & a3 & a4 & objs & Hobjs & Hfresh)] Hname Hlen Hlfn.
  pose proof (di_geom _ _ _ _ Hd) as Hg. destruct (epc_eq fs _ Hg) as [Hbp He]. destruct (ge_total _ _ Hg) as [Htot0 Htot].
  pose proof (fchain_length fs T _ l Htot0 Htot Hl) as Hll. unfold fat32_create, fat32_create_entry.
  assert (Hname' : Forall (λ c, 0 < c < 256) name) by (eapply Forall_impl; [exact Hname|]; by intros c [? _]).
  apply runs_bind; eapply runs_Done; [unfold get_node; by rewrite Hn|]. apply runs_bind; eapply runs_Done; [unfold get_ff; by rewrite Hfi|].
  cbv zeta. rewrite Hfs, Hlfn. change (has FAT_ATTR_ARCHIVE FAT_ATTR_DIRECTORY) with false. cbv iota.
  rstep (generate_unique_runs uninit fuel fs T C _ l name K s (take (K + 1) (ft_bufs s)) (drop (K + 1) (ft_bufs s)) Hl ltac:(lia) HK HKmax Hd);
    [by apply Forall_take|rewrite length_take; lia|by rewrite take_drop|].
  intros short s1 (j & d1 & bufs1 & -> & -> & Hsome1 & Hd1). pose proof (generate_short_name_ok name j Hname) as Hshort.
  set (short := generate_short_name name j) in *. destruct (lfn_entries_ok name (lfn_checksum short) Hname' Hlen) as (Hm & Hml & Hmok).
  set (m := lfn_entries_needed name) in *. set (bf := bufs1 ++ drop (K + 1) (ft_bufs s)).
  assert (Hbf : Forall is_Some bf ∧ (6 <= length bf)%nat).
  { split; [apply Forall_app; split; [done|by apply Forall_drop]|]. unfold bf. rewrite length_app, length_drop. lia. }
  clearbody bf. destruct Hbf as [Hbfs Hbfl]. destruct bf as [|bb bf]; [cbn in Hbfl; lia|]. apply Forall_cons in Hbfs as [[bfind ->] Hbfs]. cbn [length] in Hbfl.
  apply runs_bind. unfold find_free_dir_entries. apply runs_bind; eapply runs_Done; [by eapply kmalloc_used_runs|].
  change (set_ft_bufs bf _) with (st d1 bf s). pose proof (wfile_start fs (set_ft_dev d1 s) T C _ l Hd1 Htight Hl) as Hw. change (ft_dev (set_ft_dev d1 s)) with d1 in Hw.
  destruct l as [|c0 l]; [done|]. assert (Hc0 : ff_first_cluster f = c0) by (by destruct Hl). set (dirl := c0 :: l) in *.
  assert (Hfree0 : ∀ k, Z.of_nat (slots fs dirl) <= k → is_free (contents fs C dirl) k = true).
  { intros k Hk. unfold is_free, d_first, contents. rewrite decide_False; [done|]. unfold slots in Hk. rewrite Hbp. nia. }
  eapply runs_mono; [eapply (entry_run_loop_runs uninit fs T C dirl (ff_first_cluster f) (length dirl + 2) 3 (contents fs C dirl) (m + 1) fuel ltac:(lia) ltac:(unfold slots; lia) Hfree0
    s d1 bf T C dirl O (ff_first_cluster f) (mk_free_run 0 0 0) 0 bfind Hw)|].
  - by rewrite Hc0.
  - split; [|done]. lia.
  - split; cbn [fr_count]; first [done|lia].
  - cbn [fr_count]. lia.
  - lia.
  - lia.
  - intros o s2 (k & d2 & bf2 & T2 & C2 & l2 & -> & -> & Hw2 & Hsup2 & Hfound). cbv iota. cbn [andb].
    apply runs_bind; eapply runs_Done; [reflexivity|]. destruct Hsup2 as [[_ Hbl2] Hbs2].
    destruct bf2 as [|b1 [|b2 [|b3 bf2]]]; [cbn in Hbl2; lia..|]. apply Forall_cons in Hbs2 as [[be ->] Hbs2].
    apply Forall_cons in Hbs2 as [[bw ->] Hbs2]. apply Forall_cons in Hbs2 as [[bl ->] Hbs2].
    apply runs_bind; eapply runs_Done; [by eapply kmalloc_used_runs|].
    apply runs_bind; eapply runs_Done; [reflexivity|]. cbn [ft_clock st set_ft_bufs set_ft_dev].
    destruct (get_fat_now (ft_clock s)) as [date time] eqn:Hnow. cbn [fst snd] in Ht. cbv beta iota zeta.
    change (put_short _ m short FAT_ATTR_ARCHIVE 0 date time) with (new_entries be name short date time).
    assert (Hll2 : Z.of_nat (length l2) <= fs_total_clusters fs) by (eapply fchain_length; [exact Htot0|exact Htot|apply (wf_chain _ _ _ _ _ _ _ _ _ _ Hw2)]).
    destruct Hfound as (Hk0 & Hkend & Hkfree & Hkmax).
    rstep (write_entries_runs uninit fuel fs T C dirl (ff_first_cluster f) (new_entries be name short date time) (m + 1) s d2 (Some bl :: bf2) T2 C2 l2 _ k bw Hw2);
      [done|lia|done|lia|].
    intros ok s3 (-> & d3 & C3 & B3 & -> & Hw3 & HB3). cbn [negb]. cbv iota. apply runs_bind; eapply runs_Done; [reflexivity|]. cbn [negb]. cbv iota.
    apply Forall_cons in Hfresh as [(Ha1 & _) Hfresh]. apply Forall_cons in Hfresh as [(Ha2 & _) _].
    eapply runs_mono; [eapply (created_node_runs (st d3 (Some bl :: bf2) s) fs f name 0 _ _ m date time a1 a2 (a3 :: a4 :: objs) Hfs Hobjs Ha1 Ha2); by exists t|].
    intros a s4 (-> & n' & Hn1 & Hn2 & Hn3 & Hn4 & ->). exists a1, a2, a3, a4, objs, n', d3, bl, bf2, T2, C3, l2, k, be, short.
    split; [done|]. split; [done|]. split; [done|]. split; [done|]. split; [done|]. split; [done|]. split; [done|]. split; [done|]. split; [done|].
    destruct Hw3 as [? ? ? Hb3 Hz3 ? ? ?]. assert (HB3' : ∀ y, B3 y = placed_at (new_entries be name short date time) (contents fs C dirl) k (m + 1) y) by (intros y; apply HB3).
    split; try done; intros y Hy; rewrite <- HB3'; auto.
Qed.
(** the place of the entry of a new file is wrong when its entries run over
    the end of a cluster: the first cluster of the run is kept, with the offset
    of the last entry of the run, which is past the end of this cluster; a later
    write of the file then changes memory after its buffer, and not the entry. *)
Theorem fat32_create_entry_outside fs s parent n f T C l name K : fat_dir fs s parent n f T C l → can_create fs s T C l name K →
  Forall (λ c, 0 < c < 256 ∧ c ≠ 0xE5) name → (0 < length name < 255)%nat → needs_lfn name = true →
  (∀ l' k, run_found fs (contents fs C l) l' (lfn_entries_needed name + 1) k → Z.of_nat (epc fs) <= (place fs l' k).2 + lfn_entries_needed name) →
  runs_to (fat32_create uninit fuel fat32_ops parent name) s (λ a s', ∃ n' f', ft_nodes s' !! a = Some n' ∧ ft_files s' !! in_ptr n' = Some f' ∧
    fs_bytes_per_cluster fs <= ff_dir_entry_offset f').
Proof.
  intros Hdir Hcan Hname Hlen Hlfn Hspan. pose proof (di_geom _ _ _ _ (fd_disk _ _ _ _ _ _ _ _ Hdir)) as Hg. destruct (epc_eq fs _ Hg) as [Hbp He].
  pose proof (ge_small _ _ Hg) as Hsmall. eapply runs_mono; [by eapply create_runs|].
  intros a s' (a1 & a2 & a3 & a4 & objs & n' & d' & bl & bufs' & T' & C' & l' & k & b' & short & Hpost).
  destruct (get_fat_now (ft_clock s)) as [date time]. cbv zeta in Hpost. destruct Hpost as (-> & _ & _ & _ & _ & Hptr & -> & _ & Hfound & _).
  eexists n', _. split; [apply lookup_insert_eq|]. rewrite Hptr. split; [apply lookup_insert_eq|]. cbn [ff_dir_entry_offset].
  specialize (Hspan l' k Hfound). assert (Hm : 1 <= lfn_entries_needed name <= 20) by (unfold lfn_entries_needed; zlia).
  assert (Hpl : 0 <= (place fs l' k).2 < Z.of_nat (epc fs)) by (unfold place; cbn [snd]; apply Z.mod_pos_bound; lia).
  unfold ENTRY_SIZE. rewrite u32_id by lia. rewrite Hbp. lia.
Qed.

(** What a creation leaves: a directory of which the old clusters are the first,
    with its used entries as they were, and the other clusters as they were. *)
Definition dir_grows fs s s' (first : Z) T C (l : list Z) T' C' (l' : list Z) : Prop :=
  disk_is (ft_dev s') fs T' C' ∧ table_tight fs T' ∧ l `prefix_of` l' ∧ fchain fs T' first l' ∧
  (∀ k, 0 <= k < Z.of_nat (slots fs l) → is_free (dir_bytes fs C l) k = false → same_entries 1 (dir_bytes fs C' l') k (dir_bytes fs C l) k) ∧
  ∀ c, c ∉ l' → T' c = T c ∧ C' c = C c.
(** An inode of an empty file. *)
Definition empty_file s (node : Z) (name : list Z) : Prop :=
  ∃ n f, ft_nodes s !! node = Some n ∧ in_name n = take 63 name ∧ in_size n = 0 ∧ in_flags n = Z.lor FS_FILE FS_TEMPORARY ∧
    ft_files s !! in_ptr n = Some f ∧ ff_first_cluster f = 0.

Lemma slots_bytes fs size l : geometry fs size → Z.of_nat (length l) * fs_bytes_per_cluster fs = 32 * Z.of_nat (slots fs l).
Proof. intros Hg. destruct (epc_eq fs size Hg) as [-> _]. unfold slots. lia. Qed.
Lemma contents_free fs size C l k : geometry fs size → 0 <= k < Z.of_nat (slots fs l) → is_free (contents fs C l) k = is_free (dir_bytes fs C l) k.
Proof.
  intros Hg Hk. unfold is_free, d_first, contents. rewrite (slots_bytes fs size l Hg), decide_True by lia. done.
Qed.
Lemma placed_grows fs s d' first T C l T' C' l' ents k count (s' := set_ft_dev d' s) : geometry fs (dev_size d' (fs_device fs)) →
  run_found fs (contents fs C l) l' count k → wfile fs T C l d' first T' C' l' (placed_at ents (contents fs C l) k count) →
  dir_grows fs s s' first T C l T' C' l'.
Proof.
  intros Hg (Hk0 & Hkend & Hkfree & _) [Hd Ht Hl Hb _ _ Hpre Hout]. split; [done|]. split; [done|]. split; [done|]. split; [done|]. split; [|done].
  intros j Hj Hused x Hx. rewrite <- (contents_free fs _ C l j Hg Hj) in Hused.
  assert (j < k ∨ k + count <= j) by (destruct (decide (k <= j < k + count)) as [Hin|]; [by rewrite Hkfree in Hused|lia]).
  pose proof (slots_bytes fs _ l Hg) as Hsl. pose proof (slots_bytes fs _ l' Hg). pose proof (prefix_length _ _ Hpre) as Hlen.
  assert (slots fs l <= slots fs l')%nat by (apply Nat.mul_le_mono_r; done).
  unfold dir_bytes. rewrite Hb by lia. unfold placed_at, contents. rewrite decide_False, decide_True by lia. done.
Qed.
(** The directory after a creation has the new entry. *)
Lemma created_search fs d' first T C l T' C' l' b name short date time k r : geometry fs (dev_size d' (fs_device fs)) →
  let m := lfn_entries_needed name in
  wfile fs T C l d' first T' C' l' (placed_at (new_entries b name short date time) (contents fs C l) k (m + 1)) →
  run_found fs (contents fs C l) l' (m + 1) k → short_ok short → Forall (λ c, 0 < c < 256) name → (0 < length name < 255)%nat →
  0 <= date < 65536 → 0 <= time < 65536 → dir_ends (dir_bytes fs C l) (slots fs l) → dir_search fs C l name = Some r → is_found r = false →
  dir_search fs C' l' name = Some (ScanFound (k + m, name)) ∧ file_entry (dir_bytes fs C' l') (k + m) short date time.
Proof.
  intros Hg m Hw (Hk0 & Hkend & Hkfree & Hkmax) Hshort Hname Hlen Hdate Htime Hends Hr Hnf.
  pose proof (slots_bytes fs _ l Hg) as Hsl. pose proof (slots_bytes fs _ l' Hg) as Hsl'.
  assert (Hm : 1 <= m <= 20) by (unfold m, lfn_entries_needed; zlia).
  assert (Hkl : k <= Z.of_nat (slots fs l)).
  { destruct (decide (k <= Z.of_nat (slots fs l))) as [|Hgt]; [done|]. destruct Hkmax as [->|Hkmax]; [lia|].
    unfold is_free, d_first, contents in Hkmax. rewrite decide_False in Hkmax by lia. done. }
  assert (Hsame : same_entries (slots fs l) (contents fs C l) 0 (dir_bytes fs C l) 0).
  { intros x Hx. unfold contents. rewrite decide_True by lia. done. }
  assert (Hpre : ∃ st, lookup_scan (Z.to_nat k) (contents fs C l) 0 (search_of name) no_name = Some (ScanNext st)).
  { destruct (before_run (dir_bytes fs C l) (slots fs l) k (search_of name) r Hends Hr Hnf ltac:(lia)) as [st Hst].
    - destruct (decide (k = 0)) as [|Hne]; [by left|]. right. rewrite <- (contents_free fs _ C l (k - 1) Hg) by lia. by destruct Hkmax.
    - exists st. rewrite (lookup_scan_same _ _ _ 0 (dir_bytes fs C l) 0) by (intros x Hx; apply Hsame; lia). by rewrite Hst. }
  destruct Hpre as [st Hst].
  destruct (new_entry_found (contents fs C l) b name short date time k st (slots fs l') Hname Hlen Hshort Hdate Htime Hk0 Hst ltac:(fold m; lia)) as [Hscan Hfe].
  fold m in Hscan, Hfe. set (B' := placed_at _ _ k (m + 1)) in *.
  assert (HB : ∀ x, 0 <= x < 32 * Z.of_nat (slots fs l') → dir_bytes fs C' l' x = B' x).
  { intros x Hx. unfold dir_bytes. apply (wf_bytes _ _ _ _ _ _ _ _ _ _ Hw). lia. }
  split.
  - unfold dir_search. rewrite (lookup_scan_same _ _ _ 0 B' 0) by (intros x Hx; apply HB; lia). rewrite Hscan. cbn. by rewrite Z.add_0_r.
  - apply (file_entry_same _ _ B' (k + m)); [|done]. intros x Hx. apply HB. lia.
Qed.
Lemma file_entry_times m k short date time : is_Some (fat_to_unix date time) → file_entry m k short date time → times_ok m k.
Proof.
  intros Ht [_ _ _ _ [Hd1 Ht1] [Hd2 Ht2] Hd3]. unfold times_ok. rewrite Hd1, Ht1, Hd2, Ht2, Hd3. split; [done|]. split; [done|]. by eapply fat_to_unix_time.
Qed.
(** The inode that a lookup makes of the entry of a new file. *)
Lemma looked_up_empty fs s m k short date time name a ptr f c off : file_entry m k short date time →
  in_name (entry_inode fat32_ops device_id fs m k name ptr) = take 63 name ∧
  (ft_nodes s !! a = Some (entry_inode fat32_ops device_id fs m k name ptr) →
   ft_files s !! ptr = Some (mk_fat32_file fs (u32 (d_cluster m k)) f c off) → empty_file s a name).
Proof.
  intros [_ Ha Hc Hsz _ _ _]. split; [done|]. intros Hn Hf. eexists _, _. split; [exact Hn|]. unfold entry_inode.
  cbn [in_name in_size in_flags in_ptr]. split; [done|]. split; [done|]. rewrite Ha. split; [done|]. split; [exact Hf|]. cbn [ff_first_cluster]. by rewrite Hc.
Qed.

(** C8: a file that is created is found: when a lookup does not find a long name
    in a directory, and there are free clusters and memory, a creation under
    this name gives an empty file and leaves the used entries and the other
    files as they were; a lookup then finds an empty file of this name. *)
Theorem fat32_create_then_lookup fs s parent n f T C l name K r : fat_dir fs s parent n f T C l → can_create fs s T C l name K →
  Forall (λ c, 0 < c < 256 ∧ c ≠ 0xE5) name → (0 < length name < 255)%nat → needs_lfn name = true →
  dir_search fs C l name = Some r → is_found r = false →
  runs_to (fat32_create uninit fuel fat32_ops parent name) s (λ a s', empty_file s' a name ∧
    (∃ T' C' l', dir_grows fs s s' (ff_first_cluster f) T C l T' C' l') ∧
    runs_to (fat32_lookup uninit fuel fat32_ops device_id parent name) s' (λ a' s'', a' ≠ 0 ∧ empty_file s'' a' name)).
Proof.
  intros Hdir Hcan Hname Hlen Hlfn Hr Hnf. pose proof Hdir as [Hd Hn Hfi Hfs Hl]. pose proof (di_geom _ _ _ _ Hd) as Hg.
  destruct (epc_eq fs _ Hg) as [Hbp He]. destruct (ge_total _ _ Hg) as [Htot0 Htot]. pose proof Hcan as [Hfuel _ _ Hends [t Ht] _ _ _ _].
  eapply runs_mono; [by eapply create_runs|].
  intros a s' (a1 & a2 & a3 & a4 & objs & n' & d' & bl & bufs' & T' & C' & l' & k & b' & short & Hpost).
  destruct (now_u16 (ft_clock s)) as [Hdate Htime]. destruct (get_fat_now (ft_clock s)) as [date time]. cbn [fst snd] in Ht, Hdate, Htime.
  cbv zeta in Hpost. destruct Hpost as (-> & Hobjs & Hn1 & Hn2 & Hfl & Hn3 & -> & Hshort & Hfound & Hw).
  set (m := lfn_entries_needed name) in *. set (s1 := set_ft_nodes _ _).
  assert (Hname' : Forall (λ c, 0 < c < 256) name) by (eapply Forall_impl; [exact Hname|]; by intros c [? _]).
  assert (Hg' : geometry fs (dev_size d' (fs_device fs))) by (apply (di_geom _ _ _ _ (wf_disk _ _ _ _ _ _ _ _ _ _ Hw))).
  pose proof (placed_grows fs s d' _ T C l T' C' l' _ k (m + 1) Hg' Hfound Hw) as Hgrows.
  destruct (created_search fs d' _ T C l T' C' l' b' name short date time k r Hg' Hw Hfound Hshort Hname' Hlen Hdate Htime Hends Hr Hnf) as [Hs' Hfe]. fold m in Hs', Hfe.
  destruct (cc_objs _ _ _ _ _ _ _ Hcan) as (x1 & x2 & x3 & x4 & objs' & Hobjs' & Hfresh). rewrite Hobjs in Hobjs'. injection Hobjs' as <- <- <- <- <-.
  apply Forall_cons in Hfresh as [(Ha1 & Hf1 & _) Hfresh]. apply Forall_cons in Hfresh as [(Ha2 & _ & Hf2) Hfresh].
  apply Forall_cons in Hfresh as [(Ha3 & _) Hfresh]. apply Forall_cons in Hfresh as [(Ha4 & _) _].
  split; [|split; [by exists T', C', l'|]].
  - exists n', (mk_fat32_file fs 0 (ff_first_cluster f) (place fs l' k).1 (u32 (32 * (place fs l' k).2 + m * ENTRY_SIZE))).
    split; [apply lookup_insert_eq|]. split; [done|]. split; [done|]. split; [done|]. rewrite Hn3. split; [apply lookup_insert_eq|done].
  - assert (Hdir' : fat_dir fs s1 parent n f T' C' l').
    { split; [apply (wf_disk _ _ _ _ _ _ _ _ _ _ Hw)| | |done|apply (wf_chain _ _ _ _ _ _ _ _ _ _ Hw)].
      - subst s1. cbn [ft_nodes set_ft_nodes]. rewrite lookup_insert_ne; [done|]. intros <-. by rewrite Hf1 in Hn.
      - subst s1. cbn [ft_files set_ft_nodes set_ft_files]. rewrite lookup_insert_ne; [done|]. intros Heq. rewrite <- Heq in Hfi. congruence. }
    pose proof (fchain_length fs T' _ l' Htot0 Htot (wf_chain _ _ _ _ _ _ _ _ _ _ Hw)) as Hll'.
    eapply runs_mono; [eapply (lookup_runs uninit fuel fat32_ops device_id fs s1 parent n f T' C' l' name _ bl bufs' Hdir' ltac:(lia) eq_refl Hs' a3 a4 objs eq_refl Ha3 Ha4)|].
    { eapply file_entry_times; [by exists t|exact Hfe]. }
    intros a s2 (-> & d2 & Hd2 & ->). split; [done|]. unfold entry_file. destruct (place fs l' (k + m)) as [c i].
    eapply (looked_up_empty fs); [exact Hfe|apply lookup_insert_eq|apply lookup_insert_eq].
Qed.
End create.

(** ** An empty directory *)

Definition exd_table : Z → Z := exk_table.
Definition exd_state : fatst (D := ramdisk) :=
  mk_fatst (small_disk exd_table (λ _ _, 0)) {[1 := exk_inode]} {[7 := exk_file]} (replicate 7 (Some exf_zeros)) [100; 200; 300; 400] 1700000000.
(** [hello.txt] *)
Definition exd_name : list Z := [104; 101; 108; 108; 111; 46; 116; 120; 116].

Lemma exd_disk_is : disk_is (ft_dev exd_state) exf_fs exd_table (λ _ _, 0).
Proof. apply small_disk_is. intros c _. unfold exd_table, exk_table. by destruct ((3 <=? c) && (c <? 6)). Qed.
Lemma exd_dir : fat_dir exf_fs exd_state 1 exk_inode exk_file exd_table (λ _ _, 0) [2].
Proof. split; try done. apply exd_disk_is. Qed.
Lemma exd_can : can_create 7 exf_fs exd_state exd_table (λ _ _, 0) [2] exd_name 0.
Proof.
  split.
  - vm_compute. congruence.
  - intros c Hc. assert (Hf : free_list exf_fs exd_table = [3; 4; 5]) by (vm_compute; reflexivity). rewrite Hf in Hc.
    change (valid exf_fs c) with (2 <= c < 6). rewrite !elem_of_cons, elem_of_nil in Hc. lia.
  - done.
  - intros i j _ _ _ _. done.
  - eexists. vm_compute. reflexivity.
  - split; [vm_compute; reflexivity|lia].
  - split; [by repeat constructor; eexists|cbn; lia].
  - vm_compute. lia.
  - exists 100, 200, 300, 400, []. split; [done|]. repeat constructor; vm_compute; congruence.
Qed.
Lemma fat32_create_then_lookup_witness : ∃ a s' a' s'',
  fat32_create exf_zeros 7 0 1 exd_name exd_state = Done (a, s') ∧ empty_file s' a exd_name ∧
  fat32_lookup exf_zeros 7 0 (λ _, 0) 1 exd_name s' = Done (a', s'') ∧ empty_file s'' a' exd_name.
Proof.
  pose proof (fat32_create_then_lookup exf_zeros 7 0 (λ _, 0) exf_fs exd_state 1 exk_inode exk_file exd_table (λ _ _, 0) [2] exd_name 0 ScanEnd
    exd_dir exd_can) as H.
  apply runs_to_inv in H as (a & s' & Hrun & He & _ & Hlook);
    [|by apply (bool_decide_unpack _); vm_compute|cbn; lia|reflexivity|vm_compute; reflexivity|reflexivity].
  apply runs_to_inv in Hlook as (a' & s'' & Hrun' & _ & He'). exists a, s', a', s''. split; [exact Hrun|]. split; [exact He|]. split; [exact Hrun'|exact He'].
Defined.

(** A directory of 16 entries with the last one free. *)
Definition exo_data (c o : Z) : Z := if (c =? 2) && (o <? 480) then 65 else 0.
Definition exo_state : fatst (D := ramdisk) := set_ft_dev (small_disk exd_table exo_data) exd_state.
Lemma exo_disk_is : disk_is (ft_dev exo_state) exf_fs exd_table exo_data.
Proof. apply small_disk_is. intros c _. unfold exd_table, exk_table. by destruct ((3 <=? c) && (c <? 6)). Qed.
Lemma exo_dir : fat_dir exf_fs exo_state 1 exk_inode exk_file exd_table exo_data [2].
Proof. split; try done. apply exo_disk_is. Qed.
Lemma exo_can : can_create 7 exf_fs exo_state exd_table exo_data [2] exd_name 0.
Proof.
  destruct exd_can as [H1 H2 H3 _ H5 _ H7 H8 H9]. split; try done.
  - intros i j Hi Hij Hj Hz. change (Z.of_nat (slots exf_fs [2])) with 16 in Hj.
    assert (Hall : Forall (λ x, d_first (dir_bytes exf_fs exo_data [2]) x ≠ 0) (seqZ 0 15)) by (apply (bool_decide_unpack _); by vm_compute).
    rewrite Forall_forall in Hall. exfalso. apply (Hall i); [apply elem_of_seqZ; lia|done].
Qed.
Lemma exo_span l' k : run_found exf_fs (contents exf_fs exo_data [2]) l' (lfn_entries_needed exd_name + 1) k →
  Z.of_nat (epc exf_fs) <= (place exf_fs l' k).2 + lfn_entries_needed exd_name.
Proof.
  intros (Hk & _ & Hfree & Hmax). change (lfn_entries_needed exd_name) with 1 in *.
  assert (Hused : Forall (λ x, is_free (contents exf_fs exo_data [2]) x = false) (seqZ 0 15)) by (apply (bool_decide_unpack _); by vm_compute).
  assert (Hlast : is_free (contents exf_fs exo_data [2]) 15 = true) by (vm_compute; reflexivity).
  assert (Hafter : ∀ x, 16 <= x → is_free (contents exf_fs exo_data [2]) x = true).
  { intros x Hx. unfold is_free, d_first, contents. rewrite decide_False; [done|]. change (fs_bytes_per_cluster exf_fs) with 512. cbn [length]. lia. }
  rewrite Forall_forall in Hused. assert (Hk15 : 15 <= k).
  { destruct (decide (15 <= k)) as [|Hlt]; [done|]. specialize (Hfree k ltac:(lia)). rewrite Hused in Hfree by (apply elem_of_seqZ; lia). done. }
  assert (k = 15) as ->.
  { destruct (decide (k = 15)) as [|Hne]; [done|]. destruct Hmax as [|Hmax]; [lia|].
    destruct (decide (k - 1 = 15)) as [Heq|]; [rewrite Heq, Hlast in Hmax; done|]. by rewrite Hafter in Hmax by lia. }
  vm_compute. congruence.
Qed.
Lemma fat32_create_entry_outside_witness : ∃ a s' n f, fat32_create exf_zeros 7 0 1 exd_name exo_state = Done (a, s') ∧
  ft_nodes s' !! a = Some n ∧ ft_files s' !! in_ptr n = Some f ∧ 512 <= ff_dir_entry_offset f.
Proof.
  pose proof (fat32_create_entry_outside exf_zeros 7 0 (λ _, 0) exf_fs exo_state 1 exk_inode exk_file exd_table exo_data [2] exd_name 0 exo_dir exo_can) as H.
  apply runs_to_inv in H as (a & s' & Hrun & n & f & Hn & Hf & Hoff);
    [|by apply (bool_decide_unpack _); vm_compute|cbn; lia|reflexivity|exact exo_span].
  exists a, s', n, f. split; [exact Hrun|]. split; [exact Hn|]. split; [exact Hf|exact Hoff].
Defined.
