(* ===== verification/FatRemove.v ===== *)
(** Removal from a FAT32 directory: the entries that are marked, the listing
    without them, and the clusters that become free. *)
From stdpp Require Import functions.
From S2P Require Export FatLookup.
Local Open Scope Z_scope.
Local Open Scope prog_scope.

(** ** The listing without an entry *)

Lemma lfn_step_invalid e st : lf_valid st = false → has (l_order e) 0x40 = false → lfn_step e st = Some st.
Proof. intros Hv Ho. unfold lfn_step. by rewrite Ho, Hv. Qed.
(** The state does not matter where no long name has begun. *)
Lemma listing_invalid n m : ∀ i st1 st2, lf_valid st1 = false → lf_valid st2 = false → listing n m i st1 = listing n m i st2.
Proof.
  induction n as [|n IH]; intros i st1 st2 H1 H2; [done|]. cbn [listing].
  destruct (d_first m i =? 0); [done|]. destruct (d_first m i =? 229); [by apply IH|]. destruct (d_attr m i =? FAT_ATTR_LFN).
  - destruct (has (l_order (lfn_at m i)) 0x40) eqn:Ho.
    + assert (lfn_step (lfn_at m i) st1 = lfn_step (lfn_at m i) st2) as ->; [|done]. unfold lfn_step. by rewrite Ho.
    + rewrite !lfn_step_invalid by done. by apply IH.
  - unfold entry_name. rewrite H1, H2. cbn [andb]. f_equal. change (Some ?a ≫= ?f) with (f a). cbv beta. by rewrite (IH (i + 1) (no_lfn st1) (no_lfn st2)).
Qed.
Lemma listing_same n : ∀ m1 m2 i st, same_entries n m1 i m2 i → listing n m1 i st = listing n m2 i st.
Proof.
  induction n as [|n IH]; intros m1 m2 i st Hs; [done|]. cbn [listing].
  rewrite (same_first n m1 m2 i i Hs), (same_attr n m1 m2 i i Hs), (same_name n m1 m2 i i Hs), (same_lfn n m1 m2 i i Hs).
  apply same_entries_S in Hs. destruct (d_first m2 i =? 0); [done|]. destruct (d_first m2 i =? 229); [by apply IH|].
  destruct (d_attr m2 i =? FAT_ATTR_LFN).
  - destruct (lfn_step (lfn_at m2 i) st); [by apply IH|done].
  - by rewrite (IH m1 m2 (i + 1)).
Qed.

(** No two entries of a listing have the same place. *)
Lemma listing_ge n m : ∀ i st L, listing n m i st = Some L → Forall (λ e, i <= e.1) L ∧ NoDup L.*1.
Proof.
  induction n as [|n IH]; intros i st L HL; cbn [listing] in HL; [injection HL as <-; split; constructor|].
  assert (Hr : ∀ st' L', listing n m (i + 1) st' = Some L' → Forall (λ e, i < e.1) L' ∧ NoDup L'.*1).
  { intros st' L' HL'. destruct (IH _ _ _ HL') as [H1 H2]. split; [|done]. eapply Forall_impl; [exact H1|]. cbn. intros e He. lia. }
  assert (Hw : ∀ L', Forall (λ e, i < e.1) L' ∧ NoDup L'.*1 → Forall (λ e : Z * list Z, i <= e.1) L' ∧ NoDup L'.*1).
  { intros L' [H1 H2]. split; [|done]. eapply Forall_impl; [exact H1|]. cbn. intros e He. lia. }
  destruct (d_first m i =? 0); [injection HL as <-; split; constructor|]. destruct (d_first m i =? 229); [by eapply Hw, Hr|].
  destruct (d_attr m i =? FAT_ATTR_LFN).
  - destruct (lfn_step (lfn_at m i) st) as [st'|]; [|done]. by eapply Hw, Hr.
  - destruct (entry_name st (d_name m i) 255) as [nm|]; [|done]. change (Some nm ≫= ?f) with (f nm) in HL. cbv beta in HL.
    destruct (listing n m (i + 1) (no_lfn st)) as [L'|] eqn:HL'; [|done]. injection HL as <-. destruct (Hr _ _ HL') as [H1 H2]. split.
    + constructor; [done|]. by apply Hw.
    + cbn [fmap list_fmap fst]. apply NoDup_cons. split; [|done]. intros ([j x] & Hj & Hx)%list_elem_of_fmap. cbn in Hj. subst j.
      rewrite Forall_forall in H1. specialize (H1 _ Hx). cbn in H1. lia.
Qed.
Lemma listing_functional n m i st L k nm nm' : listing n m i st = Some L → (k, nm) ∈ L → (k, nm') ∈ L → nm = nm'.
Proof.
  intros HL Hin Hin'. apply listing_ge in HL as [_ Hnd]. apply list_elem_of_lookup in Hin as [a Ha]. apply list_elem_of_lookup in Hin' as [a' Ha'].
  assert (L.*1 !! a = Some k ∧ L.*1 !! a' = Some k) as [H1 H2] by (rewrite !list_lookup_fmap, Ha, Ha'; done).
  pose proof (NoDup_lookup _ _ _ _ Hnd H1 H2). subst a'. congruence.
Qed.
Lemma lookup_scan_nonzero search n m : ∀ i st k nm, lookup_scan n m i search st = Some (ScanFound (k, nm)) → ∀ j, i <= j <= k → d_first m j ≠ 0.
Proof.
  induction n as [|n IH]; intros i st k nm; [done|]. intros Hs j Hj. pose proof (lookup_scan_bound _ _ _ _ _ _ _ Hs) as (_ & Hk & _). revert Hs. cbn [lookup_scan].
  assert (Hr : ∀ st', lookup_scan n m (i + 1) search st' = Some (ScanFound (k, nm)) → d_first m i ≠ 0 → d_first m j ≠ 0).
  { intros st' H H0. destruct (decide (j = i)) as [->|]; [done|]. eapply IH; [exact H|lia]. }
  destruct (Z.eqb_spec (d_first m i) 0); [done|]. destruct (d_first m i =? 229); [intros H; by eapply Hr|]. destruct (d_attr m i =? FAT_ATTR_LFN).
  - destruct (lfn_step (lfn_at m i) st) as [st'|]; [intros H; by eapply Hr|done].
  - destruct (entry_name st (d_name m i) 255) as [nm'|]; [|done]. change (Some nm' ≫= ?f) with (f nm'). cbv beta.
    destruct (strncpy_name nm' 255) as [u|]; [|done]. change (Some u ≫= ?f) with (f u). cbv beta.
    case_decide; [|intros Hx; by eapply Hr]. intros [= -> ->]. by replace j with k by lia.
Qed.

(** The entries [q] to [k]: the long name entries of an entry, and the entry. *)
Record entry_run (m : mem) (q k : Z) : Prop := mk_entry_run {
  er_order : q <= k;
  er_lfn : ∀ j, q <= j < k → d_attr m j = FAT_ATTR_LFN ∧ d_first m j ≠ 0 ∧ d_first m j ≠ 0xE5 ∧ (q < j → has (d_first m j) 0x40 = false);
  er_short : d_attr m k ≠ FAT_ATTR_LFN ∧ d_first m k ≠ 0 ∧ d_first m k ≠ 0xE5;
}.
(** [m'] is [m] with the entries [q] and [k], and perhaps others between them,
    marked as deleted. *)
Record deleted (m m' : mem) (q k n : Z) : Prop := mk_deleted {
  dl_first : d_first m' q = 0xE5;
  dl_last : d_first m' k = 0xE5;
  dl_between : ∀ j, q <= j < k → d_first m' j = 0xE5 ∨ same_entries 1 m' j m j;
  dl_out : ∀ j, 0 <= j < n → (j < q ∨ k < j) → same_entries 1 m' j m j;
}.
Lemma same_entries_from m m' n : ∀ i, (∀ j, i <= j < i + Z.of_nat n → same_entries 1 m' j m j) → same_entries n m' i m i.
Proof.
  intros i Hs x Hx. assert (0 <= x / 32 < Z.of_nat n) by zlia. specialize (Hs (i + x / 32) ltac:(lia) (x mod 32) ltac:(zlia)).
  replace (32 * (i + x / 32) + x mod 32) with (32 * i + x) in Hs by zlia. done.
Qed.
Section removed.
Variables (m m' : mem) (q k : Z) (N : nat).
Hypothesis run : entry_run m q k.
Hypothesis del : deleted m m' q k (Z.of_nat N).
Hypothesis q_pos : 0 <= q.
#[local] Set Default Proof Using "All".

Lemma listing_run n : ∀ i st st' L, q <= i <= k → i + Z.of_nat n = Z.of_nat N → k < Z.of_nat N → i = q ∨ lf_valid st' = false →
  listing n m i st = Some L → ∃ nm L2, L = (k, nm) :: L2 ∧ listing n m' i st' = Some L2.
Proof.
  destruct run as [_ Hl (Hsa & Hs0 & HsE)], del as [Hdq Hdk Hdb Hdo]. induction n as [|n IH]; intros i st st' L Hi Hn HkN Hst HL; [lia|]. cbn [listing] in *.
  destruct (decide (i = k)) as [->|Hne].
  - rewrite (proj2 (Z.eqb_neq (d_first m k) 0)), (proj2 (Z.eqb_neq (d_first m k) 229)), (proj2 (Z.eqb_neq (d_attr m k) _)) in HL by done.
    destruct (entry_name st (d_name m k) 255) as [nm|]; [|done]. change (Some nm ≫= ?f) with (f nm) in HL. cbv beta in HL.
    destruct (listing n m (k + 1) (no_lfn st)) as [L2|] eqn:HL2; [|done]. injection HL as <-. exists nm, L2. split; [done|].
    rewrite Hdk. cbn [Z.eqb Pos.eqb]. rewrite (listing_same n m' m).
    + rewrite <- HL2. by apply listing_invalid.
    + apply same_entries_from. intros j Hj. apply Hdo; lia.
  - destruct (Hl i ltac:(lia)) as (Ha & H0 & HE & Ho). rewrite (proj2 (Z.eqb_neq (d_first m i) 0)), (proj2 (Z.eqb_neq (d_first m i) 229)), Ha in HL by done.
    cbn [Z.eqb FAT_ATTR_LFN Pos.eqb] in HL. destruct (lfn_step (lfn_at m i) st) as [st1|]; [|done]. change (Some st1 ≫= ?f) with (f st1) in HL. cbv beta in HL.
    destruct (Z.eqb_spec (d_first m' i) 0xE5) as [HE'|HE'].
    + rewrite HE'. cbn [Z.eqb]. apply (IH (i + 1) st1 (no_lfn st') L); [lia|lia|done|by right|done].
    + destruct (Hdb i ltac:(lia)) as [|Hsame]; [done|]. destruct Hst as [->|Hst]; [done|].
      rewrite (same_first 0 m' m i i Hsame), (same_attr 0 m' m i i Hsame), (same_lfn 0 m' m i i Hsame), Ha.
      rewrite (proj2 (Z.eqb_neq (d_first m i) 0)) by done. cbn [Z.eqb FAT_ATTR_LFN Pos.eqb].
      assert (i ≠ q) by (intros ->; done). rewrite lfn_step_invalid by (done || apply Ho; lia).
      apply (IH (i + 1) st1 st' L); [lia|lia|done|by right|done].
Qed.
Lemma listing_removed n : ∀ i st L, 0 <= i <= q → i + Z.of_nat n = Z.of_nat N → k < Z.of_nat N → (∀ j, i <= j < q → d_first m j ≠ 0) →
  listing n m i st = Some L → ∃ nm L1 L2, L = L1 ++ (k, nm) :: L2 ∧ listing n m' i st = Some (L1 ++ L2).
Proof.
  induction n as [|n IH]; intros i st L Hi Hn HkN Hz HL.
  { destruct run. lia. }
  destruct (decide (i = q)) as [->|Hne].
  { destruct run as [Hqk _ _]. destruct (listing_run (S n) q st st L) as (nm & L2 & -> & HL2); [lia|lia|done|by left|done|]. by exists nm, [], L2. }
  pose proof del as [_ _ _ Hdo]. assert (Hsame : same_entries 1 m' i m i) by (apply Hdo; lia). cbn [listing] in *.
  rewrite (same_first 0 m' m i i Hsame), (same_attr 0 m' m i i Hsame), (same_name 0 m' m i i Hsame), (same_lfn 0 m' m i i Hsame).
  rewrite (proj2 (Z.eqb_neq (d_first m i) 0)) in HL |- * by (apply Hz; lia).
  assert (Hstep : ∀ st' L', listing n m (i + 1) st' = Some L' → ∃ nm L1 L2, L' = L1 ++ (k, nm) :: L2 ∧ listing n m' (i + 1) st' = Some (L1 ++ L2)).
  { intros st' L' HL'. apply (IH (i + 1) st' L'); [lia|lia|done|intros j Hj; apply Hz; lia|done]. }
  destruct (d_first m i =? 229); [by apply Hstep|]. destruct (d_attr m i =? FAT_ATTR_LFN).
  - destruct (lfn_step (lfn_at m i) st) as [st1|]; [|done]. by apply Hstep.
  - destruct (entry_name st (d_name m i) 255) as [nm|]; [|done]. change (Some nm ≫= ?f) with (f nm) in HL |- *. cbv beta in HL |- *.
    destruct (listing n m (i + 1) (no_lfn st)) as [L'|] eqn:HL'; [|done]. injection HL as <-.
    destruct (Hstep _ _ HL') as (nm' & L1 & L2 & -> & ->). by exists nm', ((i, nm) :: L1), L2.
Qed.
End removed.

(** ** The search of a removal

    It finds what a lookup finds, and the first of its long name entries. *)
Definition lfn_since (m : mem) (q p : Z) : Prop :=
  ∀ j, q <= j < p → d_attr m j = FAT_ATTR_LFN ∧ d_first m j ≠ 0 ∧ d_first m j ≠ 0xE5 ∧ (q < j → has (d_first m j) 0x40 = false).
Definition del_inv fs l (m : mem) (p : Z) (st : del_state) : Prop :=
  lf_valid (de_lfn st) = true → ∃ q, 0 <= q < p ∧ place fs l q = (de_cluster st, de_idx st) ∧ lfn_since m q p.
Lemma lfn_since_snoc m q p : lfn_since m q p → q <= p → d_attr m p = FAT_ATTR_LFN → d_first m p ≠ 0 → d_first m p ≠ 0xE5 →
  (q < p → has (d_first m p) 0x40 = false) → lfn_since m q (p + 1).
Proof. intros Hl Hq ? ? ? ? j Hj. destruct (decide (j = p)) as [->|]; [done|]. apply Hl. lia. Qed.
Lemma lfn_step_valid e st st' : lfn_step e st = Some st' → has (l_order e) 0x40 = false → lf_valid st' = lf_valid st.
Proof.
  intros Hs Ho. unfold lfn_step in Hs. rewrite Ho in Hs. destruct (lf_valid st && _) eqn:Hv.
  - destruct (lfn_extract_chars _ _ _) as [[b x]|]; [|done]. by injection Hs as <-.
  - by injection Hs as <-.
Qed.

Lemma delete_scan_ok fs l V kc c mb search n : l !! kc = Some c → same_entries (epc fs) mb 0 V (Z.of_nat kc * Z.of_nat (epc fs)) →
  ∀ i st r, 0 <= i → i + Z.of_nat n = Z.of_nat (epc fs) → let p := Z.of_nat kc * Z.of_nat (epc fs) + i in
  del_inv fs l V p st → lookup_scan n V p search (de_lfn st) = Some r →
  match r with
  | ScanNext st1 => ∃ st', delete_scan n mb i c search st = Some (ScanNext st') ∧ de_lfn st' = st1 ∧
      del_inv fs l V (Z.of_nat kc * Z.of_nat (epc fs) + Z.of_nat (epc fs)) st'
  | ScanEnd => delete_scan n mb i c search st = Some ScanEnd
  | ScanFound (k, nm) => ∃ q, let '(c1, i1) := place fs l q in
      delete_scan n mb i c search st = Some (ScanFound (k - Z.of_nat kc * Z.of_nat (epc fs), c1, i1)) ∧ 0 <= q ∧ entry_run V q k
  end.
Proof.
  intros Hc Hsame. set (e := Z.of_nat (epc fs)) in *. induction n as [|n IH]; intros i st r Hi Hn p Hinv Hr; cbn [lookup_scan delete_scan] in *.
  { injection Hr as <-. exists st. split; [done|]. split; [done|]. by replace (Z.of_nat kc * e + e) with p by (subst p; lia). }
  assert (H1 : same_entries 1 mb i V p).
  { intros x Hx. specialize (Hsame (32 * i + x) ltac:(lia)). replace (32 * 0 + (32 * i + x)) with (32 * i + x) in Hsame by lia. rewrite Hsame. f_equal. subst p. lia. }
  rewrite (same_first 0 mb V i p H1), (same_attr 0 mb V i p H1), (same_name 0 mb V i p H1), (same_lfn 0 mb V i p H1).
  specialize (IH (i + 1)). assert (Hp1 : Z.of_nat kc * e + (i + 1) = p + 1) by (subst p; lia). cbv zeta in IH. rewrite Hp1 in IH.
  destruct (Z.eqb_spec (d_first V p) 0) as [|H0]; [by injection Hr as <-|].
  destruct (Z.eqb_spec (d_first V p) 0xE5) as [HE|HE]; [apply IH; [lia|lia|by intros H|done]|].
  destruct (Z.eqb_spec (d_attr V p) FAT_ATTR_LFN) as [Ha|Ha].
  - destruct (lfn_step (lfn_at V p) (de_lfn st)) as [lfn|] eqn:Hlfn; [|done]. change (Some lfn ≫= ?f) with (f lfn) in Hr |- *. cbv beta in Hr |- *.
    change (l_order (lfn_at V p)) with (d_first V p).
    destruct (has (d_first V p) 0x40) eqn:Ho; apply IH; [lia|lia| |done|lia|lia| |done].
    + intros _. exists p. split; [subst p; nia|]. cbn [de_cluster de_idx]. split; [subst p; apply place_at; [done|fold e; lia]|].
      intros j Hj. assert (j = p) as -> by lia. split; [done|]. split; [done|]. split; [done|lia].
    + intros Hv. cbn [de_lfn] in Hv. cbn [de_cluster de_idx]. rewrite (lfn_step_valid _ _ _ Hlfn Ho) in Hv. destruct (Hinv Hv) as (q & Hq & Hpl & Hsince).
      exists q. split; [lia|]. split; [done|]. apply lfn_since_snoc; first [done|lia].
  - destruct (entry_name (de_lfn st) (d_name V p) 255) as [nm|] eqn:Hnm; [|done]. change (Some nm ≫= ?f) with (f nm) in Hr |- *. cbv beta zeta in Hr |- *.
    set (st1 := if lf_valid (de_lfn st) && _ then st else _). assert (Hst1 : de_lfn st1 = de_lfn st) by (subst st1; by destruct (_ && _)).
    destruct (strncpy_name nm 255) as [u|]; [|done]. change (Some u ≫= ?f) with (f u) in Hr |- *. cbv beta in Hr |- *.
    destruct (decide (search = to_upper u)).
    + injection Hr as <-. assert (Hrun : ∃ q, place fs l q = (de_cluster st1, de_idx st1) ∧ 0 <= q ∧ entry_run V q p).
      { subst st1. destruct (lf_valid (de_lfn st) && _) eqn:Hv.
        - apply andb_true_iff in Hv as [Hv _]. destruct (Hinv Hv) as (q & Hq & Hpl & Hs). exists q. split; [done|]. split; [lia|]. split; [lia|exact Hs|done].
        - exists p. cbn [de_cluster de_idx]. split; [subst p; apply place_at; [done|fold e; lia]|]. split; [subst p; nia|]. split; [lia|intros j Hj; lia|done]. }
      destruct Hrun as (q & Hpl & Hq & Hrun). exists q. rewrite Hpl. replace (p - Z.of_nat kc * e) with i by (subst p; lia). done.
    + apply IH; [lia|lia|by intros H|by rewrite Hst1].
Qed.
Lemma delete_scan_same search n c : ∀ m1 m2 i st, same_entries n m1 i m2 i → delete_scan n m1 i c search st = delete_scan n m2 i c search st.
Proof.
  induction n as [|n IH]; intros m1 m2 i st Hs; [done|]. cbn [delete_scan].
  rewrite (same_first n m1 m2 i i Hs), (same_attr n m1 m2 i i Hs), (same_name n m1 m2 i i Hs), (same_lfn n m1 m2 i i Hs).
  apply same_entries_S in Hs. destruct (d_first m2 i =? 0); [done|]. destruct (d_first m2 i =? 229); [by apply IH|].
  destruct (d_attr m2 i =? FAT_ATTR_LFN).
  - destruct (lfn_step (lfn_at m2 i) (de_lfn st)); [|done]. by apply IH.
  - destruct (entry_name (de_lfn st) (d_name m2 i) 255) as [nm|]; [|done]. change (Some nm ≫= ?f) with (f nm). cbv beta zeta.
    destruct (strncpy_name nm 255) as [u|]; [|done]. change (Some u ≫= ?f) with (f u). cbv beta. case_decide; [done|by apply IH].
Qed.
Lemma delete_within fs size search : geometry fs size → within fs (λ c buf st, delete_scan (epc fs) buf 0 c search st).
Proof.
  intros Hg c m1 m2 st Heq. destruct (epc_eq fs size Hg) as [Hb _]. apply delete_scan_same. intros x Hx. apply Heq. lia.
Qed.
Lemma delete_chain fs size C l search (V := dir_bytes fs C l) : geometry fs size → ∀ l2 l1 st r, l = l1 ++ l2 →
  let p := Z.of_nat (length l1) * Z.of_nat (epc fs) in
  del_inv fs l V p st → lookup_scan (length l2 * epc fs) V p search (de_lfn st) = Some r →
  match r with
  | ScanFound (k, nm) => ∃ q, 0 <= q ∧ entry_run V q k ∧
      scan_chain (λ c buf st, delete_scan (epc fs) buf 0 c search st) C l2 st = Some (Some ((place fs l k).1, ((place fs l k).2, (place fs l q).1, (place fs l q).2)))
  | _ => scan_chain (λ c buf st, delete_scan (epc fs) buf 0 c search st) C l2 st = Some None
  end.
Proof.
  intros Hg. destruct (epc_eq fs size Hg) as [Hb He]. induction l2 as [|c l2 IH]; intros l1 st r Hl p Hinv Hr; cbn [length Nat.mul scan_chain] in *.
  { by injection Hr as <-. }
  assert (Hc : l !! length l1 = Some c) by (rewrite Hl; by apply list_lookup_middle).
  assert (Hsame : same_entries (epc fs) (C c) 0 V p).
  { intros x Hx. unfold V, dir_bytes. replace (32 * p + x) with (Z.of_nat (length l1) * fs_bytes_per_cluster fs + x) by (subst p; rewrite Hb; lia).
    rewrite (cbyte_at fs C l _ c) by (done || lia). done. }
  rewrite lookup_scan_app in Hr. destruct (lookup_scan (epc fs) V p search (de_lfn st)) as [r1|] eqn:Hr1; [|done].
  pose proof (delete_scan_ok fs l V _ c (C c) search (epc fs) Hc Hsame 0 st r1 ltac:(lia) ltac:(lia)) as Hscan. rewrite !Z.add_0_r in Hscan.
  specialize (Hscan Hinv Hr1). assert (Hp : p + Z.of_nat (epc fs) = Z.of_nat (length (l1 ++ [c])) * Z.of_nat (epc fs)) by (rewrite length_app; cbn [length]; lia).
  destruct r1 as [st1| |[k nm]].
  - destruct Hscan as (st' & -> & Hst1 & Hinv'). rewrite Hp in *. fold p in Hinv'. rewrite Hp in Hinv'. apply (IH (l1 ++ [c])); [by rewrite <- app_assoc|done|by rewrite Hst1].
  - rewrite Hscan. by injection Hr as <-.
  - injection Hr as <-. destruct Hscan as [q Hscan]. exists q. destruct (place fs l q) as [c1 i1]. destruct Hscan as (-> & Hq & Hrun). split; [done|]. split; [done|].
    apply lookup_scan_bound in Hr1 as [Hk _]. pose proof (place_at fs l _ c (k - p) Hc ltac:(lia)) as Hpl. fold p in Hpl.
    replace (p + (k - p)) with k in Hpl by lia. by rewrite Hpl.
Qed.

(** ** What is marked *)

Lemma mark_deleted_at n : ∀ m j x, mark_deleted n m j x = if decide (x mod 32 = 0 ∧ j <= x / 32 < j + Z.of_nat n) then 0xE5 else m x.
Proof.
  induction n as [|n IH]; intros m j x; cbn [mark_deleted]; [by rewrite decide_False by lia|]. rewrite IH.
  destruct (decide (x = 32 * j)) as [->|Hne].
  - replace (32 * j / 32) with j by zlia. replace (32 * j mod 32) with 0 by zlia. rewrite decide_False, decide_True, upd_eq by lia. done.
  - rewrite upd_ne by done. repeat case_decide; try done; exfalso; zlia.
Qed.
Section marked.
Variables (fs : fat32_fs) (size : Z) (C : Z → Z → Z) (l : list Z) (q k : Z).
Hypothesis geo : geometry fs size.
Hypothesis nodup : NoDup l.
Hypothesis range : 0 <= q <= k ∧ k < Z.of_nat (slots fs l).
#[local] Set Default Proof Using "All".
#[local] Notation "'ec'" := (Z.of_nat (epc fs)).

Lemma place_range j : 0 <= j < Z.of_nat (slots fs l) → 0 <= (place fs l j).2 < ec ∧ l !! Z.to_nat (j / ec) = Some (place fs l j).1 ∧ 0 <= j / ec ∧
  j = j / ec * ec + (place fs l j).2.
Proof.
  intros Hj. destruct (epc_eq fs size geo) as [_ He]. unfold place, slots in *. cbn [fst snd]. rewrite Nat2Z.inj_mul in Hj.
  assert (0 <= j / ec < Z.of_nat (length l)) by (split; [apply Z.div_pos; lia|apply Z.div_lt_upper_bound; lia]).
  destruct (lookup_lt_is_Some_2 l (Z.to_nat (j / ec))) as [c Hc]; [lia|]. rewrite (nth_lookup_Some _ _ _ _ Hc). pose proof (Z.mod_pos_bound j ec ltac:(lia)).
  pose proof (Z.div_mod j ec ltac:(lia)). split; [done|]. split; [done|]. split; [lia|lia].
Qed.
Lemma same_cluster j j' : 0 <= j < Z.of_nat (slots fs l) → 0 <= j' < Z.of_nat (slots fs l) → (place fs l j).1 = (place fs l j').1 → j / ec = j' / ec.
Proof.
  intros Hj Hj' Heq. destruct (place_range j Hj) as (_ & H1 & H1' & _). destruct (place_range j' Hj') as (_ & H2 & H2' & _).
  rewrite Heq in H1. pose proof (NoDup_lookup _ _ _ _ nodup H1 H2). lia.
Qed.
(** An entry of the changed clusters. *)
Lemma entry_first C' j : 0 <= j < Z.of_nat (slots fs l) → d_first (dir_bytes fs C' l) j = C' (place fs l j).1 (32 * (place fs l j).2).
Proof.
  intros Hj. pose proof (place_entry fs size C' l j 1 geo Hj ltac:(lia)) as Hp. destruct (place fs l j) as [c i]. destruct Hp as (Hs & _). cbn [fst snd].
  unfold d_first, dir_bytes. specialize (Hs 0 ltac:(lia)). by rewrite !Z.add_0_r in Hs.
Qed.
Lemma entry_same C' j : 0 <= j < Z.of_nat (slots fs l) →
  (∀ x, 0 <= x < 32 → C' (place fs l j).1 (32 * (place fs l j).2 + x) = C (place fs l j).1 (32 * (place fs l j).2 + x)) →
  same_entries 1 (dir_bytes fs C' l) j (dir_bytes fs C l) j.
Proof.
  intros Hj Heq x Hx. pose proof (place_entry fs size C' l j 1 geo Hj ltac:(lia)) as Hp'. pose proof (place_entry fs size C l j 1 geo Hj ltac:(lia)) as Hp.
  destruct (place fs l j) as [c i]. destruct Hp' as (Hs' & _), Hp as (Hs & _). unfold dir_bytes. rewrite <- Hs', <- Hs by done. apply Heq. lia.
Qed.
Lemma marked_same b : let c := (place fs l k).1 in let i := (place fs l k).2 in let i1 := (place fs l q).2 in
  (place fs l q).1 = c → (∀ x, 0 <= x < fs_bytes_per_cluster fs → b x = C c x) →
  deleted (dir_bytes fs C l) (dir_bytes fs (<[c := mark_deleted (Z.to_nat (i - i1)) (upd b (32 * i) 0xE5) i1]> C) l) q k (Z.of_nat (slots fs l)).
Proof.
  intros c i i1 Hc Hb. destruct range as [Hqk Hk]. destruct (epc_eq fs size geo) as [Hbp He].
  destruct (place_range k ltac:(lia)) as (Hi & _ & _ & Hkeq). destruct (place_range q ltac:(lia)) as (Hi1 & _ & _ & Hqeq). fold i in Hi, Hkeq. fold i1 in Hi1, Hqeq.
  pose proof (same_cluster q k ltac:(lia) ltac:(lia) Hc) as Hdiv. rewrite Hdiv in Hqeq. set (buf := mark_deleted _ _ _). set (C' := <[c := buf]> C).
  assert (Hbuf : ∀ j x, 0 <= x < 32 → 0 <= j < ec → buf (32 * j + x) = if decide (x = 0 ∧ i1 <= j <= i) then 0xE5 else C c (32 * j + x)).
  { intros j x Hx Hj. subst buf. rewrite mark_deleted_at. replace ((32 * j + x) mod 32) with x by zlia. replace ((32 * j + x) / 32) with j by zlia.
    unfold upd. destruct (Z.eqb_spec (32 * j + x) (32 * i)); repeat case_decide; try done; try lia. apply Hb. lia. }
  assert (Hat : ∀ j, q <= j <= k → (place fs l j).1 = c ∧ i1 <= (place fs l j).2 <= i).
  { intros j Hj. destruct (place_range j ltac:(lia)) as (Hij & Hl & _ & Hjeq). assert (j / ec = k / ec) as Hd by nia. rewrite Hd in Hl, Hjeq.
    destruct (place_range k ltac:(lia)) as (_ & Hlk & _). rewrite Hlk in Hl. split; [subst c; congruence|lia]. }
  assert (Hmark : ∀ j, q <= j <= k → d_first (dir_bytes fs C' l) j = 0xE5).
  { intros j Hj. rewrite entry_first by lia. destruct (Hat j Hj) as [Hcj Hij]. rewrite Hcj. subst C'. rewrite fn_lookup_insert. rewrite <- (Z.add_0_r (32 * _)).
    rewrite Hbuf, decide_True by lia. done. }
  split; [apply Hmark; lia|apply Hmark; lia|intros j Hj; left; apply Hmark; lia|].
  intros j Hj Hout. apply entry_same; [lia|]. intros x Hx. subst C'. destruct (decide ((place fs l j).1 = c)) as [Hcj|Hcj]; [|by rewrite fn_lookup_insert_ne].
  rewrite Hcj, fn_lookup_insert. destruct (place_range j Hj) as (Hij & _ & _ & Hjeq). pose proof (same_cluster j k Hj ltac:(lia) Hcj) as Hdj. rewrite Hdj in Hjeq.
  rewrite Hbuf, decide_False by lia. done.
Qed.
Lemma marked_apart b b1 : let c := (place fs l k).1 in let i := (place fs l k).2 in let c1 := (place fs l q).1 in let i1 := (place fs l q).2 in
  c1 ≠ c → (∀ x, 0 <= x < fs_bytes_per_cluster fs → b x = C c x) → (∀ x, 0 <= x < fs_bytes_per_cluster fs → b1 x = C c1 x) →
  deleted (dir_bytes fs C l)
    (dir_bytes fs (<[c := upd b (32 * i) 0xE5]> (<[c1 := mark_deleted (Z.to_nat (ec - i1)) b1 i1]> C)) l) q k (Z.of_nat (slots fs l)).
Proof.
  intros c i c1 i1 Hne Hb Hb1. destruct range as [Hqk Hk]. destruct (epc_eq fs size geo) as [Hbp He].
  destruct (place_range k ltac:(lia)) as (Hi & _ & Hdk & Hkeq). destruct (place_range q ltac:(lia)) as (Hi1 & _ & _ & Hqeq). fold i in Hi, Hkeq. fold i1 in Hi1, Hqeq.
  set (buf1 := mark_deleted _ _ _). set (C' := <[c := _]> _).
  assert (HCc : ∀ j x, 0 <= x < 32 → 0 <= j < ec → C' c (32 * j + x) = if decide (x = 0 ∧ j = i) then 0xE5 else C c (32 * j + x)).
  { intros j x Hx Hj. subst C'. rewrite fn_lookup_insert. unfold upd. destruct (Z.eqb_spec (32 * j + x) (32 * i)); case_decide; try done; try lia. apply Hb. lia. }
  assert (HCc1 : ∀ j x, 0 <= x < 32 → 0 <= j < ec → C' c1 (32 * j + x) = if decide (x = 0 ∧ i1 <= j) then 0xE5 else C c1 (32 * j + x)).
  { intros j x Hx Hj. subst C'. rewrite fn_lookup_insert_ne, fn_lookup_insert by done. subst buf1. rewrite mark_deleted_at.
    replace ((32 * j + x) mod 32) with x by zlia. replace ((32 * j + x) / 32) with j by zlia. repeat case_decide; try done; try lia. apply Hb1. lia. }
  assert (Hother : ∀ x y, x ≠ c → x ≠ c1 → C' x y = C x y) by (intros x y H1 H2; subst C'; by rewrite !fn_lookup_insert_ne).
  assert (Hqk' : q < k) by (destruct (decide (q = k)) as [Heq|]; [exfalso; apply Hne; subst c1 c; by rewrite Heq|lia]).
  split.
  - rewrite entry_first by lia. fold c1 i1. rewrite <- (Z.add_0_r (32 * _)). rewrite HCc1, decide_True by lia. done.
  - rewrite entry_first by lia. fold c i. rewrite <- (Z.add_0_r (32 * _)). rewrite HCc, decide_True by lia. done.
  - intros j Hj. destruct (place_range j ltac:(lia)) as (Hij & _ & _ & Hjeq). destruct (decide ((place fs l j).1 = c1)) as [Hcj|Hcj].
    + left. rewrite entry_first, Hcj by lia. rewrite <- (Z.add_0_r (32 * _)). pose proof (same_cluster j q ltac:(lia) ltac:(lia) Hcj) as Hd. rewrite Hd in Hjeq.
      rewrite HCc1, decide_True by lia. done.
    + right. apply entry_same; [lia|]. intros x Hx. destruct (decide ((place fs l j).1 = c)) as [Hcj2|Hcj2]; [|by apply Hother].
      pose proof (same_cluster j k ltac:(lia) ltac:(lia) Hcj2) as Hd. rewrite Hd in Hjeq. rewrite Hcj2, HCc, decide_False by lia. done.
  - intros j Hj Hout. apply entry_same; [lia|]. intros x Hx. destruct (place_range j Hj) as (Hij & _ & _ & Hjeq).
    destruct (decide ((place fs l j).1 = c)) as [Hcj|Hcj].
    + pose proof (same_cluster j k ltac:(lia) ltac:(lia) Hcj) as Hd. rewrite Hd in Hjeq. rewrite Hcj, HCc by lia. rewrite decide_False; [done|].
      intros [_ Heq]. assert (j = k) as -> by lia. lia.
    + destruct (decide ((place fs l j).1 = c1)) as [Hcj1|Hcj1]; [|by apply Hother].
      pose proof (same_cluster j q ltac:(lia) ltac:(lia) Hcj1) as Hd. rewrite Hd in Hjeq. rewrite Hcj1, HCc1 by lia. rewrite decide_False; [done|].
      intros [_ Hge]. assert (k < j) by lia. assert (q / ec = k / ec) as Hqkd; [|apply Hne; subst c1 c].
      { assert (k / ec <= j / ec) by (apply Z.div_le_mono; lia). assert (q / ec <= k / ec) by (apply Z.div_le_mono; lia). lia. }
      destruct (place_range q ltac:(lia)) as (_ & H1 & _). destruct (place_range k ltac:(lia)) as (_ & H2 & _). rewrite Hqkd, H2 in H1. congruence.
Qed.
End marked.

Section tables.
Implicit Types (fs : fat32_fs) (T : Z → Z).
(** A table with no entry that leads out of the file system. *)
Definition table_closed fs T : Prop := ∀ c, valid fs c → T c < 2 ∨ valid fs (T c) ∨ FAT_EOC <= T c.
Definition used fs T : list Z := filter (λ c, T c ≠ 0) (seqZ 2 (fs_total_clusters fs)).
Lemma used_insert fs T c : valid fs c → T c ≠ 0 → (length (used fs (<[c := 0%Z]> T)) < length (used fs T))%nat.
Proof.
  intros Hc HT. assert (Hin : c ∈ used fs T) by (apply list_elem_of_filter; split; [done|apply elem_of_seqZ; unfold valid in Hc; lia]).
  assert (Hsub : c :: used fs (<[c := 0]> T) ⊆+ used fs T).
  { apply NoDup_submseteq.
    - apply NoDup_cons. split; [|apply NoDup_filter, NoDup_seqZ]. intros [Hz _]%list_elem_of_filter. by rewrite fn_lookup_insert in Hz.
    - intros x [->|[Hz Hx]%list_elem_of_filter]%elem_of_cons; [done|]. apply list_elem_of_filter. split; [|done].
      destruct (decide (x = c)) as [->|]; [done|]. by rewrite fn_lookup_insert_ne in Hz. }
  apply submseteq_length in Hsub. cbn [length] in Hsub. lia.
Qed.

End tables.

Section remove.
Context {D : Type} `{!BlockDevice D}.
Implicit Types (s : fatst (D := D)) (d : D) (fs : fat32_fs) (T : Z → Z) (C : Z → Z → Z).
Variable uninit : mem.
#[local] Set Default Proof Using "All".

(** ** Chains become free *)

Definition freed (l : list Z) T T' : Prop := ∀ x, T' x = if decide (x ∈ l) then 0 else T x.
Lemma free_chain_runs fs C n : ∀ s T c l, disk_is (ft_dev s) fs T C → fchain fs T c l → NoDup l → (length l < n)%nat →
  runs_to (free_cluster_chain uninit n fs c) s (λ _ s', ∃ d' T', s' = set_ft_dev d' s ∧ disk_is d' fs T' C ∧ freed l T T').
Proof.
  induction n as [|n IH]; intros s T c l Hd Hl Hnd Hn; [lia|]. cbn [free_cluster_chain]. pose proof (ge_total _ _ (di_geom _ _ _ _ Hd)) as Ht.
  destruct l as [|y l].
  { cbn [fchain] in Hl. rewrite (proj2 (Z.ltb_ge c FAT_EOC)), andb_false_r by lia. apply runs_ret. exists (ft_dev s), T.
    split; [by destruct s|]. split; [done|]. intros x. by rewrite decide_False by apply not_elem_of_nil. }
  pose proof Hl as (-> & Hv & Hl'). apply NoDup_cons in Hnd as [Hy Hnd]. cbn [length] in Hn.
  rewrite (proj2 (Z.leb_le 2 y)), (proj2 (Z.ltb_lt y FAT_EOC)) by (unfold valid in Hv; lia). cbn [andb].
  rstep (get_next_cluster_runs uninit s fs T C y Hd (table_end_valid fs y Hv)). intros nx s1 (-> & d1 & -> & Hd1).
  rstep (set_cluster_value_runs uninit (set_ft_dev d1 s) fs T C y 0 Hd1 (table_end_valid fs y Hv)). intros _ s2 (d2 & -> & Hd2).
  change (Z.land 0 0x0FFFFFFF) with 0 in Hd2.
  rlast (IH (set_ft_dev d2 s) (<[y := 0]> T) (T y) l Hd2); [|done|lia|].
  { eapply fchain_ext; [|exact Hl']. intros x Hx. rewrite fn_lookup_insert_ne; [done|]. intros <-. done. }
  intros _ s3 (d3 & T3 & -> & Hd3 & Hf). exists d3, T3. split; [done|]. split; [done|]. intros x. rewrite Hf.
  destruct (decide (x = y)) as [->|Hne].
  - rewrite (decide_False (P := y ∈ l)), decide_True by (done || left). by rewrite fn_lookup_insert.
  - rewrite fn_lookup_insert_ne by done. destruct (decide (x ∈ l)) as [Hx|Hx].
    + by rewrite decide_True by (by right).
    + rewrite decide_False; [done|]. intros [|]%elem_of_cons; done.
Qed.

(** C38: freeing a chain ends, also when a damaged table has made the chain a
    cycle: every cluster is made free before the next one is read, so that the
    second visit of a cluster ends the loop, within as many passes as there are
    clusters in use, and two.  Only entries of the table become 0. *)
Theorem free_cluster_chain_terminates fs s T C c n : disk_is (ft_dev s) fs T C → table_closed fs T →
  (c < 2 ∨ valid fs c ∨ FAT_EOC <= c) → (length (used fs T) + 2 <= n)%nat →
  runs_to (free_cluster_chain uninit n fs c) s (λ _ s', ∃ T', disk_is (ft_dev s') fs T' C ∧ (valid fs c → T' c = 0) ∧ ∀ x, T' x = 0 ∨ T' x = T x).
Proof.
  revert s T c. induction n as [|n IH]; intros s T c Hd Hclosed Hc Hn; [lia|]. cbn [free_cluster_chain].
  pose proof (ge_total _ _ (di_geom _ _ _ _ Hd)) as Ht. destruct ((2 <=? c) && (c <? FAT_EOC)) eqn:Hcond.
  2:{ apply runs_ret. exists T. split; [done|]. split; [|intros x; by right]. intros Hv. exfalso.
      apply andb_false_iff in Hcond as [H%Z.leb_gt|H%Z.ltb_ge]; unfold valid in Hv; lia. }
  apply andb_true_iff in Hcond as [H2%Z.leb_le HE%Z.ltb_lt]. destruct Hc as [|[Hv|]]; [lia| |lia].
  rstep (get_next_cluster_runs uninit s fs T C c Hd (table_end_valid fs c Hv)). intros nx s1 (-> & d1 & -> & Hd1).
  rstep (set_cluster_value_runs uninit (set_ft_dev d1 s) fs T C c 0 Hd1 (table_end_valid fs c Hv)). intros _ s2 (d2 & -> & Hd2).
  change (Z.land 0 0x0FFFFFFF) with 0 in Hd2.
  destruct (decide (T c = 0)) as [HT|HT].
  - rewrite HT. destruct n as [|n]; [lia|]. cbn [free_cluster_chain]. cbn [Z.leb Z.compare andb]. apply runs_ret. exists (<[c := 0]> T). split; [done|].
    split; [by rewrite fn_lookup_insert|]. intros x. destruct (decide (x = c)) as [->|]; [left; by rewrite fn_lookup_insert|right; by rewrite fn_lookup_insert_ne].
  - pose proof (used_insert fs T c Hv HT). rlast (IH (set_ft_dev d2 s) (<[c := 0]> T) (T c) Hd2); [|by apply Hclosed|lia|].
    { intros x Hx. destruct (decide (x = c)) as [->|]; [left; rewrite fn_lookup_insert; lia|]. rewrite fn_lookup_insert_ne by done. by apply Hclosed. }
    intros _ s3 (T3 & Hd3 & _ & HT3). exists T3. split; [done|]. split.
    + intros _. destruct (HT3 c) as [|Heq]; [done|]. by rewrite Heq, fn_lookup_insert.
    + intros x. destruct (HT3 x) as [|Heq]; [by left|]. rewrite Heq. destruct (decide (x = c)) as [->|]; [left; by rewrite fn_lookup_insert|right; by rewrite fn_lookup_insert_ne].
Qed.

(** ** Removal of a file *)

(** What a removal makes of the entries and of the table. *)
Definition removed fs s' T C l q k lf T' C' : Prop :=
  disk_is (ft_dev s') fs T' C' ∧ deleted (dir_bytes fs C l) (dir_bytes fs C' l) q k (Z.of_nat (slots fs l)) ∧ freed lf T T' ∧ ∀ c, c ∉ l → C' c = C c.
Lemma chain_free fuel fs s T C fc lf : disk_is (ft_dev s) fs T C → (fchain fs T fc lf ∨ (lf = [] ∧ fc < 2)) → (length lf < fuel)%nat →
  runs_to (if 2 <=? fc then free_cluster_chain uninit fuel fs fc else ret tt) s (λ _ s', ∃ d' T', s' = set_ft_dev d' s ∧ disk_is d' fs T' C ∧ freed lf T T').
Proof.
  intros Hd Hl Hf. assert (Hnone : lf = [] → runs_to (ret tt) s (λ _ s', ∃ d' T', s' = set_ft_dev d' s ∧ disk_is d' fs T' C ∧ freed lf T T')).
  { intros ->. apply runs_ret. exists (ft_dev s), T. split; [by destruct s|]. split; [done|]. intros x. by rewrite decide_False by apply not_elem_of_nil. }
  pose proof (ge_total _ _ (di_geom _ _ _ _ Hd)) as [_ Ht]. destruct (Z.leb_spec 2 fc) as [H2|H2].
  - destruct Hl as [Hl|[_ ?]]; [|lia]. eapply free_chain_runs; [done|done|by eapply fchain_NoDup|done].
  - destruct Hl as [Hl|[-> _]]; [|by apply Hnone]. destruct lf as [|x lf]; [by apply Hnone|]. destruct Hl as (-> & Hv & _). unfold valid in Hv. lia.
Qed.
Lemma mark_and_free_runs fuel fs s T C l q k lf buf b1 bufs first : disk_is (ft_dev s) fs T C → fchain fs T first l → 0 <= q <= k → k < Z.of_nat (slots fs l) →
  (∀ x, 0 <= x < fs_bytes_per_cluster fs → buf x = C (place fs l k).1 x) → ft_bufs s = Some b1 :: bufs →
  let fc := u32 (d_cluster (dir_bytes fs C l) k) in (fchain fs T fc lf ∨ (lf = [] ∧ fc < 2)) → (length lf < fuel)%nat →
  runs_to (mark_and_free uninit fuel fs (place fs l k).1 buf (place fs l k).2 (place fs l q).1 (place fs l q).2) s (λ ok s', ok = true ∧
    ∃ d' bufs' T' C', s' = st d' bufs' s ∧ removed fs s' T C l q k lf T' C').
Proof.
  intros Hd Hl Hq Hk Hbuf Hb fc Hlf Hf. pose proof (di_geom _ _ _ _ Hd) as Hg. destruct (ge_total _ _ Hg) as [_ Ht]. pose proof (fchain_NoDup _ _ _ _ Ht Hl) as Hnd.
  assert (Hrange : 0 <= q <= k ∧ k < Z.of_nat (slots fs l)) by lia. destruct (epc_eq fs _ Hg) as [Hbp He].
  destruct (place_range fs _ C l q k Hg Hnd Hrange k ltac:(lia)) as (Hik & Hlk & _ & _). destruct (place_range fs _ C l q k Hg Hnd Hrange q ltac:(lia)) as (Hiq & Hlq & _ & _).
  assert (Hkl : (place fs l k).1 ∈ l) by (by eapply list_elem_of_lookup_2). assert (Hql : (place fs l q).1 ∈ l) by (by eapply list_elem_of_lookup_2).
  pose proof (fchain_valid _ _ _ _ _ Hl Hkl) as Hkv. pose proof (fchain_valid _ _ _ _ _ Hl Hql) as Hqv.
  assert (Hcl : u32 (d_cluster buf (place fs l k).2) = fc).
  { subst fc. pose proof (place_entry fs _ C l k 1 Hg ltac:(lia) ltac:(lia)) as Hp. destruct (place fs l k) as [c i]. destruct Hp as (Hs & _). cbn [fst snd] in *.
    assert (Hse : same_entries 1 buf i (dir_bytes fs C l) k) by (intros x Hx; unfold dir_bytes; rewrite <- (Hs x Hx); apply Hbuf; lia).
    unfold d_cluster, load16. by rewrite !(same_load 0 buf _ i k Hse) by lia. }
  unfold mark_and_free. cbv zeta. rewrite Hcl. destruct (Z.eqb_spec (place fs l q).1 (place fs l k).1) as [Heq|Hne].
  - apply runs_bind; apply runs_ret. pose proof (marked_same fs _ C l q k Hg Hnd Hrange buf Heq Hbuf) as Hdel. set (buf2 := mark_deleted _ _ _) in *.
    rstep (write_cluster_runs s fs T C (place fs l k).1 buf2 Hd Hkv). intros _ s1 (d1 & -> & Hd1).
    rstep (chain_free fuel fs (set_ft_dev d1 s) T _ fc lf Hd1 Hlf Hf). intros _ s2 (d2 & T2 & -> & Hd2 & Hfr). apply runs_ret. split; [done|].
    exists d2, (ft_bufs s), T2, (<[(place fs l k).1 := buf2]> C). split; [by destruct s|]. split; [done|]. split; [exact Hdel|]. split; [done|].
    intros c Hc. rewrite fn_lookup_insert_ne; [done|]. intros <-. done.
  - apply runs_bind. apply runs_bind; eapply runs_Done; [by eapply kmalloc_used_runs|].
    rstep (read_cluster_runs (set_ft_bufs bufs s) fs T C (place fs l q).1 b1 Hd Hqv). intros [r lb] s1 (d1 & -> & Hd1 & _ & Hlb). cbn [snd] in Hlb. cbv beta iota.
    assert (Hlb' : ∀ x, 0 <= x < fs_bytes_per_cluster fs → lb x = C (place fs l q).1 x) by (intros x Hx; by rewrite Hlb, decide_True).
    pose proof (marked_apart fs _ C l q k Hg Hnd Hrange buf lb Hne Hbuf Hlb') as Hdel.
    assert (Hec : entries_per_cluster fs = Z.of_nat (epc fs)) by (unfold entries_per_cluster, ENTRY_SIZE; rewrite Hbp; zlia). rewrite Hec. set (lb2 := mark_deleted _ _ _) in *.
    rstep (write_cluster_runs (set_ft_dev d1 (set_ft_bufs bufs s)) fs T C (place fs l q).1 lb2 Hd1 Hqv). intros _ s2 (d2 & -> & Hd2). apply runs_ret.
    rstep (write_cluster_runs (set_ft_dev d2 (set_ft_bufs bufs s)) fs T _ (place fs l k).1 (upd buf (32 * (place fs l k).2) 0xE5) Hd2 Hkv). intros _ s3 (d3 & -> & Hd3).
    rstep (chain_free fuel fs (set_ft_dev d3 (set_ft_bufs bufs s)) T _ fc lf Hd3 Hlf Hf). intros _ s4 (d4 & T4 & -> & Hd4 & Hfr). apply runs_ret. split; [done|].
    eexists d4, bufs, T4, _. split; [by destruct s|]. split; [exact Hd4|]. split; [exact Hdel|]. split; [done|].
    intros c Hc. rewrite !fn_lookup_insert_ne; [done| |]; intros <-; done.
Qed.
Lemma delete_runs fuel fs s first T C l name k nm lf b b1 bufs : disk_is (ft_dev s) fs T C → fchain fs T first l → (length l < fuel)%nat →
  ft_bufs s = Some b :: Some b1 :: bufs → dir_search fs C l name = Some (ScanFound (k, nm)) →
  let fc := u32 (d_cluster (dir_bytes fs C l) k) in (fchain fs T fc lf ∨ (lf = [] ∧ fc < 2)) → (length lf < fuel)%nat →
  runs_to (delete_dir_entries uninit fuel fs first name) s (λ ok s', ok = true ∧
    ∃ q d' bufs' T' C', s' = st d' bufs' s ∧ 0 <= q ∧ entry_run (dir_bytes fs C l) q k ∧ removed fs s' T C l q k lf T' C').
Proof.
  intros Hd Hl Hf Hb Hs fc Hlf Hlfl. pose proof (di_geom _ _ _ _ Hd) as Hg. unfold dir_search in Hs. pose proof (lookup_scan_bound _ _ _ _ _ _ _ Hs) as (Hk & _).
  destruct (delete_chain fs _ C l (search_of name) Hg l [] (mk_del_state no_name 0 0) _ eq_refl ltac:(done) Hs) as (q & Hq & Hrun & Hscan).
  pose proof (er_order _ _ _ Hrun) as Hqk. unfold delete_dir_entries. apply runs_bind; eapply runs_Done; [by eapply kmalloc_used_runs|].
  change (Z.to_nat (entries_per_cluster fs)) with (epc fs).
  rstep (scan_loop_runs uninit _ fs T C fuel (delete_within fs _ (search_of name) Hg) (set_ft_bufs (Some b1 :: bufs) s) _ l b _ _ Hd Hl Hf Hscan).
  intros o s1 (d1 & -> & Hd1 & Ho). destruct o as [[[c buf] [[i c1] i1]]|]; [|done]. destruct Ho as (-> & [= -> -> ->] & Hbuf).
  eapply runs_mono; [eapply (mark_and_free_runs fuel fs (set_ft_dev d1 (set_ft_bufs (Some b1 :: bufs) s)) T C l q k lf buf b1 bufs first Hd1 Hl); first [done|lia]|].
  intros ok s2 (-> & d2 & bufs2 & T2 & C2 & -> & Hrem). split; [done|]. exists q, d2, bufs2, T2, C2. done.
Qed.

(** The data of the file of the entry [k]: a chain of its own, or none. *)
Definition entry_chain fs T C l k (lf : list Z) : Prop :=
  let fc := u32 (d_cluster (dir_bytes fs C l) k) in (fchain fs T fc lf ∨ (lf = [] ∧ fc < 2)) ∧ ∀ x, x ∈ lf → x ∉ l.
Lemma removed_listing fs s' T C l first q k lf T' C' L nm : removed fs s' T C l q k lf T' C' → fchain fs T first l → 0 <= q → entry_run (dir_bytes fs C l) q k →
  k < Z.of_nat (slots fs l) → (∀ x, x ∈ lf → x ∉ l) → (∀ j, 0 <= j < k → d_first (dir_bytes fs C l) j ≠ 0) →
  listing (slots fs l) (dir_bytes fs C l) 0 no_name = Some L → (k, nm) ∈ L →
  fchain fs T' first l ∧ ∃ L1 L2, L = L1 ++ (k, nm) :: L2 ∧ listing (slots fs l) (dir_bytes fs C' l) 0 no_name = Some (L1 ++ L2).
Proof.
  intros (Hd & Hdel & Hfr & HC) Hl Hq Hrun Hk Hdis Hnz HL Hin. pose proof (er_order _ _ _ Hrun) as Hqk. split.
  - eapply fchain_ext; [|exact Hl]. intros x Hx. rewrite Hfr, decide_False; [done|]. intros Hxf. by apply (Hdis x).
  - destruct (listing_removed _ _ q k (slots fs l) Hrun Hdel Hq (slots fs l) 0 no_name L) as (nm' & L1 & L2 & HLeq & HL'); [lia|lia|lia|intros j Hj; apply Hnz; lia|done|].
    exists L1, L2. split; [|done]. assert ((k, nm') ∈ L) as Hin' by (rewrite HLeq; apply elem_of_app; right; left).
    by rewrite (listing_functional _ _ _ _ _ _ _ _ HL Hin Hin').
Qed.

(** C9: an unlink removes the file: when the name is in the listing of the
    directory and is not a directory, 0 is returned, the listing becomes the old
    one without this entry, the clusters of the file become free and no others,
    and the clusters of other files keep their contents; when the name is not in
    the listing, or is a directory, -1 is returned and the disk is as before. *)
Theorem fat32_unlink_removes fuel fat32_ops device_id fs s parent n f T C l name L lf b1 b2 b3 bufs a1 a2 objs (V := dir_bytes fs C l) :
  fat_dir fs s parent n f T C l → (length l < fuel)%nat → (length lf < fuel)%nat → ft_bufs s = Some b1 :: Some b2 :: Some b3 :: bufs →
  ft_objs s = a1 :: a2 :: objs → a1 ≠ 0 → a2 ≠ 0 → listing (slots fs l) V 0 no_name = Some L → Forall (λ e, times_ok V e.1) L →
  (∀ k nm, find_name name L = Some (k, nm) → entry_chain fs T C l k lf) →
  runs_to (fat32_unlink uninit fuel fat32_ops device_id parent name) s (λ r s',
    match find_name name L with
    | Some (k, nm) =>
        if has (d_attr V k) FAT_ATTR_DIRECTORY then r = -1 ∧ disk_is (ft_dev s') fs T C
        else r = 0 ∧ ∃ T' C' L1 L2, disk_is (ft_dev s') fs T' C' ∧ fchain fs T' (ff_first_cluster f) l ∧ L = L1 ++ (k, nm) :: L2 ∧
          listing (slots fs l) (dir_bytes fs C' l) 0 no_name = Some (L1 ++ L2) ∧ freed lf T T' ∧ ∀ c, c ∉ l → C' c = C c
    | None => r = -1 ∧ disk_is (ft_dev s') fs T C
    end).
Proof.
  intros Hdir Hf Hlff Hb Hobjs Ha1 Ha2 HL Ht Hchain. pose proof Hdir as [Hd Hn Hfi Hfs Hl].
  destruct (lookup_listing name (slots fs l) V 0 no_name L HL) as (r & Hr & Hfind).
  pose proof (lookup_runs uninit fuel fat32_ops device_id fs s parent n f T C l name r b1 (Some b2 :: Some b3 :: bufs) Hdir Hf Hb Hr) as Hrun.
  unfold fat32_unlink. apply runs_bind; eapply runs_Done; [unfold get_node; by rewrite Hn|]. apply runs_bind; eapply runs_Done; [unfold get_ff; by rewrite Hfi|].
  destruct (find_name name L) as [[k nm]|] eqn:Hname.
  2:{ assert (Hnone : runs_to (fat32_lookup uninit fuel fat32_ops device_id parent name) s (λ a s', a = 0 ∧ ∃ d', disk_is d' fs T C ∧ s' = st d' (Some b2 :: Some b3 :: bufs) s)).
      { destruct r as [| |x]; [exact Hrun|exact Hrun|by destruct (Hfind x)]. }
      rstep Hnone. intros a s' (-> & d' & Hd' & ->). apply runs_ret. by split. }
  subst r. pose proof (lookup_scan_bound _ _ _ _ _ _ _ Hr) as (Hk & _). rewrite Z.add_0_l in Hk. assert (Hin : (k, nm) ∈ L).
  { unfold find_name in Hname. destruct (list_find _ L) as [[j x]|] eqn:Hlf; [|done]. cbn in Hname. injection Hname as ->.
    apply list_find_Some in Hlf as (Hj & _). by eapply list_elem_of_lookup_2. }
  assert (Htk : times_ok V k) by (by rewrite Forall_forall in Ht; apply (Ht (k, nm))).
  rstep (Hrun a1 a2 objs Hobjs Ha1 Ha2 Htk). intros a s1 (-> & d1 & Hd1 & ->). rewrite (proj2 (Z.eqb_neq a1 0)) by done. rewrite Hfs.
  set (nd := entry_inode _ _ _ _ _ _ _). set (s1 := set_ft_nodes _ _).
  apply runs_bind; eapply (runs_Done _ _ nd s1); [unfold get_node, s1; cbn [ft_nodes set_ft_nodes]; by rewrite lookup_insert_eq|].
  apply runs_bind; eapply runs_Done; [reflexivity|]. apply runs_bind; eapply runs_Done; [reflexivity|].
  assert (Hfl : has (in_flags nd) FS_DIRECTORY = has (d_attr V k) FAT_ATTR_DIRECTORY) by (unfold nd, entry_inode; cbn [in_flags]; fold V; by destruct (has (d_attr V k) _)).
  rewrite Hfl. destruct (has (d_attr V k) FAT_ATTR_DIRECTORY); [by apply runs_ret|]. set (s2 := set_ft_nodes _ _).
  destruct (Hchain k nm eq_refl) as [Hlf Hdis].
  rstep (delete_runs fuel fs s2 (ff_first_cluster f) T C l name k nm lf b2 b3 bufs Hd1 Hl Hf eq_refl Hr Hlf Hlff).
  intros ok s3 (-> & q & d3 & bufs3 & T3 & C3 & -> & Hq & Hrunq & Hrem). apply runs_ret. split; [done|].
  destruct (removed_listing fs _ T C l _ q k lf T3 C3 L nm Hrem Hl Hq Hrunq ltac:(lia) Hdis) as (Hl3 & L1 & L2 & HLeq & HL3); [|done|done|].
  { intros j Hj. by apply (lookup_scan_nonzero _ _ _ _ _ _ _ Hr); lia. }
  destruct Hrem as (Hd3 & _ & Hfr & HC3). by exists T3, C3, L1, L2.
Qed.
End remove.

(** ** A file of two clusters, [hello.txt], and a directory, [SUB] *)

Definition exu_table (c : Z) : Z := if c =? 3 then 4 else if c =? 5 then 0 else FAT_EOC.
Definition exu_name : list Z := [104; 101; 108; 108; 111; 46; 116; 120; 116].
Definition exu_short : list Z := [72; 69; 76; 76; 79; 32; 32; 32; 84; 88; 84].
Definition exu_data (c o : Z) : Z :=
  if c =? 2 then
    put_short (put_short (put_lfns (λ _, 0) 0 (lfn_entries exu_name (lfn_checksum exu_short))) 1 exu_short FAT_ATTR_ARCHIVE 3 0 0)
      2 [83; 85; 66; 32; 32; 32; 32; 32; 32; 32; 32] FAT_ATTR_DIRECTORY 0 0 0 o
  else 7.
Definition exu_state : fatst (D := ramdisk) :=
  mk_fatst (small_disk exu_table exu_data) {[1 := exk_inode]} {[7 := exk_file]} (replicate 3 (Some exf_zeros)) [100; 200] 1700000000.
Lemma exu_disk_is : disk_is (ft_dev exu_state) exf_fs exu_table exu_data.
Proof. apply small_disk_is. intros c _. unfold exu_table. destruct (c =? 3), (c =? 5); done. Qed.
Lemma exu_dir : fat_dir exf_fs exu_state 1 exk_inode exk_file exu_table exu_data [2].
Proof. split; try done. apply exu_disk_is. Qed.
Lemma fat32_unlink_removes_witness : ∃ s' T', fat32_unlink exf_zeros 3 0 (λ _, 0) 1 exu_name exu_state = Done (0, s') ∧
  freed [3; 4] exu_table T' ∧ ∃ C', disk_is (ft_dev s') exf_fs T' C' ∧ listing 16 (dir_bytes exf_fs C' [2]) 0 no_name = Some [(2, [83; 85; 66])].
Proof.
  pose proof (fat32_unlink_removes exf_zeros 3 0 (λ _, 0) exf_fs exu_state 1 exk_inode exk_file exu_table exu_data [2] exu_name
    [(1, exu_name); (2, [83; 85; 66])] [3; 4] exf_zeros exf_zeros exf_zeros [] 100 200 []
    exu_dir ltac:(cbn; lia) ltac:(cbn; lia) eq_refl eq_refl ltac:(lia) ltac:(lia) ltac:(vm_compute; reflexivity)) as H.
  apply runs_to_inv in H as (r & s' & Hrun & Hpost).
  - assert (find_name exu_name [(1, exu_name); (2, [83; 85; 66])] = Some (1, exu_name)) as Hfind by (vm_compute; reflexivity). rewrite Hfind in Hpost.
    assert (has (d_attr (dir_bytes exf_fs exu_data [2]) 1) FAT_ATTR_DIRECTORY = false) as Hattr by (vm_compute; reflexivity). rewrite Hattr in Hpost.
    destruct Hpost as (-> & T' & C' & L1 & L2 & Hd & _ & HL & HL' & Hfr & _). exists s', T'. split; [exact Hrun|]. split; [exact Hfr|].
    exists C'. split; [exact Hd|]. change (slots exf_fs [2]) with 16%nat in HL'. rewrite HL'. destruct L1 as [|e1 L1]; [by injection HL as <-|].
    destruct L1 as [|e2 L1]; [discriminate|]. by destruct L1.
  - repeat constructor; by eexists.
  - intros k nm Hk. assert (find_name exu_name [(1, exu_name); (2, [83; 85; 66])] = Some (1, exu_name)) as Hfind by (vm_compute; reflexivity).
    rewrite Hfind in Hk. injection Hk as <- <-. unfold entry_chain.
    assert (u32 (d_cluster (dir_bytes exf_fs exu_data [2]) 1) = 3) as -> by (vm_compute; reflexivity). split; [left|].
    + clear. split; [done|]. split; [split; vm_compute; congruence|]. split; [done|]. split; [split; vm_compute; congruence|]. vm_compute. congruence.
    + intros x Hx. rewrite !elem_of_cons, elem_of_nil in Hx. rewrite list_elem_of_singleton. lia.
Defined.
(** A damaged table: the clusters 3 and 4 lead to each other. *)
Definition exc_table (c : Z) : Z := if c =? 3 then 4 else if c =? 4 then 3 else FAT_EOC.
Definition exc_state : fatst (D := ramdisk) := set_ft_dev (small_disk exc_table exu_data) exu_state.
Lemma exc_disk_is : disk_is (ft_dev exc_state) exf_fs exc_table exu_data.
Proof. apply small_disk_is. intros c _. unfold exc_table. destruct (c =? 3), (c =? 4); done. Qed.
Lemma exc_closed : table_closed exf_fs exc_table.
Proof.
  intros c Hc. unfold exc_table, valid in *. change (fs_total_clusters exf_fs) with 4 in *. unfold FAT_EOC. destruct (Z.eqb_spec c 3), (Z.eqb_spec c 4); lia.
Qed.
Lemma exc_valid : valid exf_fs 3.
Proof. split; vm_compute; congruence. Qed.
Lemma free_cluster_chain_terminates_witness : ∃ s' T', free_cluster_chain exf_zeros 6 exf_fs 3 exc_state = Done (tt, s') ∧
  disk_is (ft_dev s') exf_fs T' exu_data ∧ T' 3 = 0.
Proof.
  pose proof (free_cluster_chain_terminates exf_zeros exf_fs exc_state exc_table exu_data 3 6 exc_disk_is exc_closed
    (or_intror (or_introl exc_valid)) ltac:(vm_compute; lia)) as H.
  apply runs_to_inv in H as ([] & s' & Hrun & T' & Hd & H3 & _). exists s', T'. split; [exact Hrun|]. split; [exact Hd|].
  apply H3, exc_valid.
Defined.
