(* ===== verification/FatMount.v ===== *)
(** The mount of a FAT32 file system: the boot sector gives a geometry for which
    the operations on files and directories are correct. *)
From S2P Require Export FatDir.
Local Open Scope Z_scope.
Local Open Scope prog_scope.

Section mount.
Context {D : Type} `{!BlockDevice D}.
Implicit Types (s : fatst (D := D)) (d : D) (fs : fat32_fs).

(** ** The boot sector

    The sector [p] holds the boot sector: sector 0, or the start of the first
    partition. *)
Definition sector_of (b : mem) (p : Z) : mem := λ x, b (512 * p + x).
Record boot_sector (b : mem) (size p : Z) : Prop := mk_boot_sector {
  bs_signature : b 510 = 0x55 ∧ b 511 = 0xAA;
  bs_place : (bpb_bytes_per_sector b = 512 ∧ p = 0) ∨
    (bpb_bytes_per_sector b = 0 ∧ (part_type b = 0x0B ∨ part_type b = 0x0C) ∧ p = part_lba_start b);
  bs_sector : bpb_bytes_per_sector (sector_of b p) = 512;
  bs_inside : 0 <= p ∧ 512 * p + 512 <= size < 2 ^ 32;
}.
(** The fields of the boot sector [b] fit together: the reserved sectors, the
    tables and the clusters are inside the partition, which is inside of the
    device, and a table has an entry for every cluster. *)
Definition fat_size_of (b : mem) : Z := if bpb_sectors_per_fat_32 b =? 0 then bpb_sectors_per_fat_16 b else bpb_sectors_per_fat_32 b.
Definition total_sectors_of (b : mem) : Z := if bpb_total_sectors_32 b =? 0 then bpb_total_sectors_16 b else bpb_total_sectors_32 b.
Record bpb_fits (b : mem) (p size : Z) : Prop := mk_bpb_fits {
  bf_bytes : mem_ok b;
  bf_spc : 0 < bpb_sectors_per_cluster b;
  bf_fats : 0 < bpb_num_fats b;
  bf_inside : 512 * (p + total_sectors_of b) <= size;
  bf_meta : bpb_reserved_sectors b + bpb_num_fats b * fat_size_of b <= total_sectors_of b;
  bf_table : (total_sectors_of b - (bpb_reserved_sectors b + bpb_num_fats b * fat_size_of b)) / bpb_sectors_per_cluster b + 2 <= 128 * fat_size_of b;
}.
Lemma bpb_ranges b : mem_ok b → 0 <= bpb_reserved_sectors b < 2 ^ 16 ∧ 0 <= bpb_sectors_per_cluster b < 256 ∧ 0 <= bpb_num_fats b < 256 ∧
  0 <= fat_size_of b < 2 ^ 32 ∧ 0 <= total_sectors_of b < 2 ^ 32.
Proof.
  intros Hb. assert (H16 : ∀ a, 0 <= load16 b a < 2 ^ 16) by (intros a; apply (load_le_range b a 2 Hb)).
  assert (H32 : ∀ a, 0 <= load32 b a < 2 ^ 32) by (intros a; apply (load_le_range b a 4 Hb)).
  unfold bpb_reserved_sectors, bpb_sectors_per_cluster, bpb_num_fats, fat_size_of, total_sectors_of, bpb_sectors_per_fat_32, bpb_sectors_per_fat_16,
    bpb_total_sectors_32, bpb_total_sectors_16.
  pose proof (H16 22). pose proof (H16 19). split; [apply H16|]. split; [apply Hb|]. split; [apply Hb|]. split; [destruct (_ =? _)|destruct (_ =? _)].
  all: first [apply H32|lia].
Qed.
Lemma fs_of_bpb_geometry a b p size : bpb_fits b p size → 0 <= p → size < 2 ^ 32 → geometry (fs_of_bpb a p b) size.
Proof.
  intros [Hb Hspc Hnf Hin Hmeta Htab] Hp Hsz. destruct (bpb_ranges b Hb) as (HR & HS & HN & HF & HT).
  set (S := bpb_sectors_per_cluster b) in *. set (R := bpb_reserved_sectors b) in *. set (N := bpb_num_fats b) in *.
  assert (HNF : 0 <= N * fat_size_of b) by nia.
  assert (Hfs : fs_of_bpb a p b = mk_fat32_fs a S (S * 512) (p + R) (p + R + N * fat_size_of b) (bpb_root_cluster b)
    ((total_sectors_of b - (R + N * fat_size_of b)) / S)).
  { unfold fs_of_bpb. fold S R N. fold (fat_size_of b). fold (total_sectors_of b). rewrite (u32_id (N * _)), (u32_id (p + R)) by lia.
    rewrite (u32_id (p + R + _)), (u32_id (R + _)) by lia. rewrite u32_id by lia. done. }
  rewrite Hfs. clear Hfs. set (M := R + N * fat_size_of b) in *. set (tot := (total_sectors_of b - M) / S) in *.
  assert (Htot : 0 <= tot ∧ tot * S <= total_sectors_of b - M).
  { unfold tot. split; [apply Z.div_pos; lia|]. pose proof (Z.mul_div_le (total_sectors_of b - M) S Hspc). lia. }
  assert (Hend : 128 * ((4 * (tot + 2) + 511) / 512) <= 128 * fat_size_of b) by zlia.
  split; cbn [fs_sectors_per_cluster fs_bytes_per_cluster fs_fat_begin_lba fs_total_clusters fs_cluster_begin_lba]; unfold FAT_EOC, table_end;
    cbn [fs_total_clusters]; [lia|lia|lia|lia|nia|nia|nia|lia].
Qed.
Lemma sector_bytes b p buf x n : (∀ y, 0 <= y < 512 → buf y = b (512 * p + y)) → 0 <= x → x + Z.of_nat n <= 512 → load_le buf x n = load_le (sector_of b p) x n.
Proof. intros Hb Hx Hn. apply load_le_ext. intros y Hy. unfold sector_of. apply Hb. lia. Qed.
Lemma fs_of_bpb_ext a p b1 b2 : (∀ y, 0 <= y < 512 → b1 y = b2 y) → fs_of_bpb a p b1 = fs_of_bpb a p b2.
Proof.
  intros H. assert (Hl : ∀ x n, 0 <= x → x + Z.of_nat n <= 512 → load_le b1 x n = load_le b2 x n) by (intros x n Hx Hn; apply load_le_ext; intros y Hy; apply H; lia).
  unfold fs_of_bpb, bpb_sectors_per_fat_32, bpb_sectors_per_fat_16, bpb_total_sectors_32, bpb_total_sectors_16, bpb_reserved_sectors, bpb_num_fats,
    bpb_sectors_per_cluster, bpb_root_cluster, load16, load32.
  rewrite !Hl by lia. by rewrite !(H 13), !(H 16) by lia.
Qed.
Lemma find_boot_runs s a p buf (b := dev_byte (ft_dev s) a) (size := dev_size (ft_dev s) a) : dev_ok (ft_dev s) a → boot_sector b size p →
  runs_to (find_boot_sector a buf) s (λ o s', ∃ d' buf', s' = set_ft_dev d' s ∧ o = Some (p, buf') ∧ (∀ x, 0 <= x < 512 → buf' x = sector_of b p x) ∧
    dev_ok d' a ∧ dev_size d' a = size ∧ ∀ x, dev_byte d' a x = b x).
Proof.
  intros Hok [[H510 H511] Hplace Hsec [Hp Hin]]. unfold find_boot_sector.
  destruct (dev_read_ok (ft_dev s) a 0 512 buf Hok ltac:(lia) ltac:(lia) eq_refl eq_refl ltac:(fold size; lia)) as (b1 & d1 & Hr1 & Hok1 & Hsz1 & Hby1 & Hb1).
  fold size in Hsz1. fold b in Hby1, Hb1. rstep (on_dev_runs _ s (λ rb d', rb = (512, b1) ∧ d' = d1) _ _ Hr1 (conj eq_refl eq_refl)).
  intros [r b1'] s1 (? & -> & [= -> ->] & ->). cbv beta iota. rewrite Z.eqb_refl. cbn [negb].
  assert (H0 : ∀ x, 0 <= x < 512 → b1 x = b x) by (intros x Hx; rewrite Hb1, decide_True by done; done).
  rewrite !H0, H510, H511 by lia. cbn [Z.eqb Pos.eqb negb orb].
  assert (Hload : ∀ x n, 0 <= x → x + Z.of_nat n <= 512 → load_le b1 x n = load_le b x n) by (intros x n Hx Hn; apply load_le_ext; intros y Hy; apply H0; lia).
  unfold bpb_bytes_per_sector, part_type, part_lba_start, load16, load32 in *. rewrite !Hload, !H0 by lia.
  destruct Hplace as [[Hbps ->]|(Hbps & Htype & Hpl)]; rewrite Hbps; cbn [Z.eqb Pos.eqb].
  - apply runs_bind; apply runs_ret. rewrite !Hload, Hbps by lia. cbn [Z.eqb Pos.eqb negb]. apply runs_ret. exists d1, b1. split; [done|]. split; [done|]. split; [|done].
    intros x Hx. unfold sector_of. rewrite Z.mul_0_r, Z.add_0_l. by apply H0.
  - assert ((b (0x1BE + 4) =? 0x0B) || (b (0x1BE + 4) =? 0x0C) = true) as -> by (destruct Htype as [-> | ->]; done). rewrite <- Hpl. cbv zeta. apply runs_bind.
    rewrite u32_id by lia.
    destruct (dev_read_ok d1 a (p * 512) 512 b1 Hok1 ltac:(lia) ltac:(lia) ltac:(unfold SECTOR; zlia) eq_refl ltac:(lia)) as (b2 & d2 & Hr2 & Hok2 & Hsz2 & Hby2 & Hb2).
    rstep (on_dev_runs _ (set_ft_dev d1 s) (λ rb d', rb = (512, b2) ∧ d' = d2) _ _ Hr2 (conj eq_refl eq_refl)).
    intros [r b2'] s2 (? & -> & [= -> ->] & ->). cbv beta iota. apply runs_ret.
    assert (H2 : ∀ x, 0 <= x < 512 → b2 x = sector_of b p x) by (intros x Hx; rewrite Hb2, decide_True, Hby1 by done; unfold sector_of; f_equal; lia).
    assert (Hl2 : load_le b2 11 2 = load_le (sector_of b p) 11 2) by (apply load_le_ext; intros y Hy; apply H2; lia). rewrite Hl2, Hsec. cbn [Z.eqb Pos.eqb negb].
    apply runs_ret. exists d2, b2. split; [done|]. split; [done|]. split; [done|]. split; [done|]. split; [congruence|]. intros x. by rewrite Hby2.
Qed.

End mount.

(** ** A disk of 8 sectors with a partition from sector 1 *)

Definition exm_bytes (x : Z) : Z :=
  if x =? 510 then 0x55 else if x =? 511 then 0xAA
  else if x =? 0x1BE + 4 then 0x0C else if x =? 0x1BE + 8 then 1
  else if x =? 512 + 12 then 2 else if x =? 512 + 13 then 1 else if x =? 512 + 14 then 1 else if x =? 512 + 16 then 1
  else if x =? 512 + 19 then 6 else if x =? 512 + 22 then 1 else if x =? 512 + 44 then 2 else 0.
Definition exm_state : fatst (D := ramdisk) := mk_fatst (mk_ramdisk 4096 exm_bytes) ∅ ∅ [Some exf_zeros] [100; 200; 300] 0.
Lemma exm_boot : boot_sector exm_bytes 4096 1.
Proof.
  split.
  - done.
  - right. split; [vm_compute; reflexivity|]. split; [by right|]. vm_compute. reflexivity.
  - vm_compute. reflexivity.
  - lia.
Qed.
Lemma exm_fits : bpb_fits (sector_of exm_bytes 1) 1 4096.
Proof.
  split; try (vm_compute; congruence). intros x. unfold sector_of, exm_bytes. repeat case_match; lia.
Qed.
