(* ===== verification/VirtioDisk.v ===== *)
(** The FAT32 file system on the virtio disk: the driver of [Virtio] implements
    the interface [BlockDevice] that [Fat] and the files above it are verified
    against, so every theorem on the file system holds of a disk behind the
    driver.  The reads and writes are those of a process that may open the
    device: [vfs_read] and [vfs_write] then call the operations of the inode,
    [virtio_blk_fs_read] and [virtio_blk_fs_write], unchanged. *)
From S2P Require Export FatMount Virtio.
Local Open Scope Z_scope.

Section VirtioDisk.
Context {FA D : Type} `{!FrameAllocator FA} `{!VirtioBlk D} (blk_mmio sector_buf : Z).

Definition virtio_ok (s : @vio FA D) : Prop := driver_ok blk_mmio sector_buf s ∧ capacity s * 512 < 2 ^ 64.
Definition virtio_device : BlockDevice (@vio FA D).
Proof using All.
  refine {|
    dev_read _ off n buf := virtio_blk_fs_read blk_mmio sector_buf off n buf;
    dev_write _ off n buf := virtio_blk_fs_write blk_mmio sector_buf off n buf;
    dev_ok s _ := virtio_ok s;
    dev_size s _ := capacity s * 512;
    dev_byte s _ x := disk s x |}.
  - intros s _ off n buf [Hok Hcap] Ho Hn _ _ Hin.
    destruct (virtio_read_bytes blk_mmio sector_buf s off n buf Hok Hcap Ho Hn Hin) as (s' & buf' & Hrun & Hok' & Hcap' & Hd & Hb).
    exists buf', s'. split; [exact Hrun|]. split; [split; [done|by rewrite Hcap']|]. by rewrite Hcap'.
  - intros s _ off n buf [Hok Hcap] Ho Hn _ _ Hin.
    destruct (virtio_write_bytes blk_mmio sector_buf s off n buf Hok Hcap Ho Hn Hin) as (s' & Hrun & Hok' & Hcap' & Hd).
    exists s'. split; [exact Hrun|]. split; [split; [done|by rewrite Hcap']|]. by rewrite Hcap'.
Defined.
End VirtioDisk.
