(* ===== verification/Uaccess.v ===== *)
(** Access to user memory, the first half of [kernel/syscalls/write.c]: the
    kernel walks the page tables of the current process byte by byte and goes
    through the linear map. *)
From S2P Require Export Kernel.
From S2P Require Import KString.
Local Open Scope prog_scope.

(** The physical address of a user byte: [None] when the walk fails or the
    descriptor is not valid.  No other bit of the descriptor is looked at. *)
Definition user_phys (m : mem) (table addr : Z) : option Z :=
  let pte := vmm_get_pte_from_table m (P2V table) (page_down addr) in
  if pte =? 0 then None
  else
    let e := rd64 m pte in
    if has e PT_VALID then Some (entry_phys e + Z.land addr (PAGE_SIZE - 1)) else None.

Section uaccess.
Context {FA : Type} `{!FrameAllocator FA}.

(** [current_task->proc->mm], as the table of the address space. *)
Definition with_mm {A} (e : A) (body : Z → M (kst FA) A) : M (kst FA) A :=
  with_proc e (λ p,
    x <- proc_of p;;
    if p_mm x =? 0 then ret e
    else mm <- on_vm (get_mm (p_mm x));; body (page_table mm)).

(** The loop of [copy_from_user]; [put i v] is [dst[i] = v]. *)
Fixpoint copy_in_loop (n : nat) (put : Z → Z → M (kst FA) unit) (table src i : Z) : M (kst FA) Z :=
  match n with
  | O => ret 0
  | S n' =>
      o <- gets (λ k, user_phys (kram k) table (u64 (src + i)));;
      match o with
      | None => ret (-1)
      | Some phys => v <- kread (P2V phys);; put i v;;; copy_in_loop n' put table src (i + 1)
      end
  end.
Definition copy_from_user_with (put : Z → Z → M (kst FA) unit) (src size : Z) : M (kst FA) Z :=
  with_mm (-1) (λ table,
    o <- gets (λ k, user_phys (kram k) table src);;
    match o with
    | None => ret (-1)
    | Some _ => copy_in_loop (Z.to_nat size) put table src 0
    end).
Definition copy_from_user (dst src size : Z) : M (kst FA) Z :=
  copy_from_user_with (λ i v, kwrite (dst + i) v) src size.

(** The loop of [copy_to_user]; [get i] is [src[i]]. *)
Fixpoint copy_out_loop (n : nat) (get : Z → M (kst FA) Z) (table dst i : Z) : M (kst FA) Z :=
  match n with
  | O => ret 0
  | S n' =>
      o <- gets (λ k, user_phys (kram k) table (u64 (dst + i)));;
      match o with
      | None => ret (-1)
      | Some phys => v <- get i;; kwrite (P2V phys) v;;; copy_out_loop n' get table dst (i + 1)
      end
  end.
Definition copy_to_user_with (get : Z → M (kst FA) Z) (dst size : Z) : M (kst FA) Z :=
  with_mm (-1) (λ table, copy_out_loop (Z.to_nat size) get table dst 0).
Definition copy_to_user (dst src size : Z) : M (kst FA) Z := copy_to_user_with (λ i, kread (src + i)) dst size.

(** The kernel's buffer is a local variable of the caller: its bytes. *)
Definition copy_bytes_to_user (dst : Z) (l : list Z) : M (kst FA) Z :=
  copy_to_user_with (λ i, ret (nth (Z.to_nat i) l 0)) dst (Z.of_nat (length l)).
Fixpoint fetch_loop (n : nat) (table src i : Z) : M (kst FA) (option (list Z)) :=
  match n with
  | O => ret (Some [])
  | S n' =>
      o <- gets (λ k, user_phys (kram k) table (u64 (src + i)));;
      match o with
      | None => ret None
      | Some phys => v <- kread (P2V phys);; l <- fetch_loop n' table src (i + 1);; ret (cons v <$> l)
      end
  end.
Definition copy_bytes_from_user (src size : Z) : M (kst FA) (option (list Z)) :=
  with_mm None (λ table,
    o <- gets (λ k, user_phys (kram k) table src);;
    match o with None => ret None | Some _ => fetch_loop (Z.to_nat size) table src 0 end).

(** ** Pointers of the user that the kernel dereferences itself

    Where the code stores through a pointer it got from the user, or loads from
    it, the address is not tested: one in the kernel's half goes to kernel
    memory.  An address of the user half stands for a page that is mapped with
    the rights the access needs; any other one faults. *)
Definition raw_write (dst : Z) (l : list Z) : M (kst FA) unit :=
  if PHYS_OFFSET <=? dst then modify (λ k, set_kram (put_bytes (kram k) (V2P dst) l) k)
  else r <- copy_bytes_to_user dst l;; if r =? 0 then ret tt else faultM.
Definition raw_read (src n : Z) : M (kst FA) (list Z) :=
  if PHYS_OFFSET <=? src then gets (λ k, bytes_at (kram k) (V2P src) (Z.to_nat n))
  else o <- copy_bytes_from_user src n;; match o with Some l => ret l | None => faultM end.
Fixpoint user_string (fuel : nat) (m : mem) (table p : Z) : option (list Z) :=
  match fuel with
  | O => None
  | S f =>
      phys ← user_phys m table (u64 p);
      let c := m (V2P (P2V phys)) in
      if c =? 0 then Some [] else cons c <$> user_string f m table (p + 1)
  end.
Definition raw_string (p : Z) : M (kst FA) (list Z) :=
  if PHYS_OFFSET <=? p then kstring p
  else
    o <- with_mm None (λ table, gets (λ k, user_string str_fuel (kram k) table p));;
    match o with Some l => ret l | None => faultM end.
End uaccess.

(** ** Translations that a write does not disturb *)

(** The physical addresses of the three descriptors a walk reads. *)
Definition walk_slots (m : mem) (table va : Z) : list Z :=
  let e1 := rd64 m (slot (P2V table) (l1_idx va)) in
  let e2 := rd64 m (slot (P2V (entry_phys e1)) (l2_idx va)) in
  [V2P (slot (P2V table) (l1_idx va)); V2P (slot (P2V (entry_phys e1)) (l2_idx va));
   V2P (slot (P2V (entry_phys e2)) (l3_idx va))].

Lemma rd64_ext m m' p : (∀ x, V2P p <= x < V2P p + 8 → m' x = m x) → rd64 m' p = rd64 m p.
Proof. intros H. apply load_le_ext. intros x Hx. apply H. lia. Qed.

Lemma user_phys_ext m m' table addr :
  (∀ s x, s ∈ walk_slots m table (page_down addr) → s <= x < s + 8 → m' x = m x) →
  user_phys m' table addr = user_phys m table addr.
Proof.
  intros H. unfold walk_slots in H. cbv zeta in H. set (va := page_down addr) in *.
  unfold user_phys, vmm_get_pte_from_table. fold va. cbv zeta. destruct (P2V table =? 0); [done|].
  assert (H1 : rd64 m' (slot (P2V table) (l1_idx va)) = rd64 m (slot (P2V table) (l1_idx va))).
  { apply rd64_ext. intros x Hx. eapply H; [|exact Hx]. by left. }
  rewrite H1. destruct (negb _); [done|].
  set (l2 := P2V (entry_phys (rd64 m (slot (P2V table) (l1_idx va))))) in *.
  assert (H2 : rd64 m' (slot l2 (l2_idx va)) = rd64 m (slot l2 (l2_idx va))).
  { apply rd64_ext. intros x Hx. eapply H; [|exact Hx]. by right; left. }
  rewrite H2. destruct (negb _); [done|]. case_match; [done|].
  rewrite (rd64_ext m m'); [done|]. intros x Hx. eapply H; [|exact Hx]. by right; right; left.
Qed.

Lemma walk_slots_ext m m' table va :
  (∀ s x, s ∈ walk_slots m table va → s <= x < s + 8 → m' x = m x) → walk_slots m' table va = walk_slots m table va.
Proof.
  intros H. unfold walk_slots in *. cbv zeta in *.
  assert (H1 : rd64 m' (slot (P2V table) (l1_idx va)) = rd64 m (slot (P2V table) (l1_idx va))).
  { apply rd64_ext. intros x Hx. eapply H; [|exact Hx]. by left. }
  rewrite H1. set (l2 := P2V (entry_phys (rd64 m (slot (P2V table) (l1_idx va))))) in *.
  assert (H2 : rd64 m' (slot l2 (l2_idx va)) = rd64 m (slot l2 (l2_idx va))).
  { apply rd64_ext. intros x Hx. eapply H; [|exact Hx]. by right; left. }
  by rewrite H2.
Qed.

(** The walk does not look at the offset in the page. *)
Lemma page_down_mod va : page_down va = va - va mod 4096.
Proof. apply (andnot_ones va 12). done. Qed.
Lemma get_pte_page_down m t va : 0 <= va → vmm_get_pte_from_table m t (page_down va) = vmm_get_pte_from_table m t va.
Proof.
  intros Hva. assert (H12 : Z.shiftr (page_down va) 12 = Z.shiftr va 12).
  { rewrite page_down_mod, !Z.shiftr_div_pow2 by done. change (2 ^ 12) with 4096. pose proof (Z.div_mod va 4096 ltac:(done)).
    replace (va - va mod 4096) with (va / 4096 * 4096) by lia. by rewrite Z.div_mul. }
  unfold vmm_get_pte_from_table, l1_idx, l2_idx, l3_idx.
  assert (Hk : ∀ k, 0 <= k → Z.shiftr (page_down va) (12 + k) = Z.shiftr va (12 + k)).
  { intros k Hk. by rewrite <- !Z.shiftr_shiftr, H12 by done. }
  pose proof (Hk 18 ltac:(lia)) as H30. pose proof (Hk 9 ltac:(lia)) as H21.
  change (12 + 18) with 30 in H30. change (12 + 9) with 21 in H21. by rewrite H30, H21, H12.
Qed.
Lemma user_phys_inv m table va ph : 0 <= va → user_phys m table va = Some ph →
  let pte := vmm_get_pte_from_table m (P2V table) va in
  pte ≠ 0 ∧ has (rd64 m pte) PT_VALID = true ∧ ph = entry_phys (rd64 m pte) + Z.land va (PAGE_SIZE - 1).
Proof.
  intros Hva. unfold user_phys. rewrite get_pte_page_down by done. cbv zeta. case_match eqn:H0; [done|].
  case_match; [|done]. intros [= <-]. split; [by apply Z.eqb_neq|done].
Qed.

(** The user bytes at [a], [n] of them, are the physical bytes [f 0, f 1, ...]:
    distinct, and outside the descriptors that map the first [top] bytes. *)
Record user_range (m : mem) (table a n top : Z) (f : Z → Z) : Prop := mk_user_range {
  ur_phys : ∀ i, 0 <= i < n → user_phys m table (u64 (a + i)) = Some (f i);
  ur_small : ∀ i, 0 <= i < n → 0 <= f i < 2 ^ 39;
  ur_inj : ∀ i j, 0 <= i < n → 0 <= j < n → f i = f j → i = j;
  ur_apart : ∀ i j s, 0 <= i < n → 0 <= j < top → s ∈ walk_slots m table (page_down (u64 (a + j))) → ¬ s <= f i < s + 8;
}.

Lemma user_phys_wrote m0 m table a n top f val b i :
  user_range m0 table a n top f → wrote val f b m0 m → b <= n → 0 <= i < top →
  user_phys m table (u64 (a + i)) = user_phys m0 table (u64 (a + i)).
Proof.
  intros Hur [_ Ho] Hb Hi. apply user_phys_ext. intros s x Hs Hx. apply Ho. intros j Hj ->.
  by apply (ur_apart _ _ _ _ _ _ Hur j i s); [lia|lia|..].
Qed.

Lemma user_range_wrote m0 m table a n f val : user_range m0 table a n n f → wrote val f n m0 m →
  user_range m table a n n f.
Proof.
  intros Hur Hw. pose proof Hur as [H1 H2 H3 H4]. split; [|done|done|].
  - intros i Hi. rewrite (user_phys_wrote _ _ _ _ _ _ _ _ _ _ Hur Hw) by lia. by apply H1.
  - intros i j s Hi Hj. rewrite (walk_slots_ext m0 m); [by apply H4|].
    intros s' x Hs' Hx. apply (proj2 Hw). intros i' Hi' ->. by apply (H4 i' j s').
Qed.

(** ** The copies *)

Section facts.
Context {FA : Type} `{!FrameAllocator FA}.
Implicit Types k : kst FA.

(** The current process and its address space. *)
Definition runs_mm k (p : Z) (x : process) (mm : mm_struct) : Prop :=
  runs k p x ∧ p_mm x ≠ 0 ∧ mms (k_vm k) !! p_mm x = Some mm.

Lemma with_mm_runs {A} (e : A) body k p x mm : runs_mm k p x mm → with_mm e body k = body (page_table mm) k.
Proof using Type*.
  intros (Hr & H0 & Hmm). unfold with_mm. rewrite (with_proc_runs _ _ _ _ _ Hr).
  mstep (proc_of_Done _ _ _ (runs_proc _ _ _ Hr)). rewrite (proj2 (Z.eqb_neq _ 0)) by done.
  assert (on_vm (get_mm (p_mm x)) k = Done (mm, k)) as Hget.
  { unfold on_vm, zoom, get_mm. rewrite Hmm. simpl. by destruct k. }
  by mstep Hget.
Qed.

Lemma V2P_P2V_small a : 0 <= a < 2 ^ 39 → V2P (P2V a) = a.
Proof using Type. apply V2P_P2V. Qed.

(** [n] rounds of [copy_to_user] over mapped bytes. *)
Lemma copy_out_steps k table dst n top f get val rest :
  user_range (kram k) table dst n top f → n <= top →
  (∀ i m, 0 <= i < n → wrote val f i (kram k) m → get i (set_kram m k) = Done (val i, set_kram m k)) →
  ∀ c b m, wrote val f b (kram k) m → 0 <= b → b + Z.of_nat c = n →
  ∃ m', copy_out_loop (c + rest) get table dst b (set_kram m k) = copy_out_loop rest get table dst n (set_kram m' k) ∧
    wrote val f n (kram k) m'.
Proof using Type*.
  intros Hur Htop Hget. induction c as [|c IH]; intros b m Hm Hb Hn.
  { exists m. assert (b = n) as -> by lia. done. }
  cbn [copy_out_loop Nat.add]. unfold bind at 1, gets at 1. change (kram (set_kram m k)) with m.
  rewrite (user_phys_wrote _ _ _ _ _ _ _ _ _ b Hur Hm) by lia. rewrite (ur_phys _ _ _ _ _ _ Hur) by lia.
  mstep (Hget b m ltac:(lia) Hm). unfold bind at 1, kwrite, modify at 1.
  change (kram (set_kram m k)) with m. rewrite V2P_P2V by (apply (ur_small _ _ _ _ _ _ Hur); lia).
  change (set_kram (upd m (f b) (val b)) (set_kram m k)) with (set_kram (upd m (f b) (val b)) k).
  apply IH; [|lia|lia]. apply wrote_snoc; [done|done|]. intros i Hi Heq.
  apply (ur_inj _ _ _ _ _ _ Hur) in Heq; lia.
Qed.

Lemma set_kram_id k : set_kram (kram k) k = k.
Proof using Type. by destruct k as [? [[] ? ? ? ?] ? ? ? ? ? ? ?]. Qed.

Lemma copy_to_user_with_ok k p x mm dst size f get val :
  runs_mm k p x mm → user_range (kram k) (page_table mm) dst size size f → 0 <= size →
  (∀ i m, 0 <= i < size → wrote val f i (kram k) m → get i (set_kram m k) = Done (val i, set_kram m k)) →
  ∃ m, copy_to_user_with get dst size k = Done (0, set_kram m k) ∧ wrote val f size (kram k) m.
Proof using Type*.
  intros Hr Hur Hsz Hget. unfold copy_to_user_with. rewrite (with_mm_runs _ _ _ _ _ _ Hr).
  destruct (copy_out_steps k (page_table mm) dst size size f get val 0 Hur ltac:(lia) Hget (Z.to_nat size) 0 (kram k))
    as (m & Hrun & Hm); [apply wrote_0|lia|lia|].
  rewrite set_kram_id, Nat.add_0_r in Hrun. by exists m.
Qed.

Lemma kread_far k m f size src i : PHYS_OFFSET <= src → 0 <= i < size →
  (∀ i j, 0 <= i < size → 0 <= j < size → V2P src + i ≠ f j) →
  wrote (λ i, kram k (V2P src + i)) f i (kram k) m → kread (src + i) (set_kram m k) = Done (kram k (V2P src + i), set_kram m k).
Proof using Type.
  intros Hsrc Hi Hap [_ Ho]. unfold kread, gets. change (kram (set_kram m k)) with m.
  assert (V2P (src + i) = V2P src + i) as -> by (unfold V2P; rewrite !(proj2 (Z.leb_le _ _)) by lia; lia).
  rewrite Ho; [done|]. intros j Hj. apply Hap; lia.
Qed.

Lemma copy_to_user_ok k p x mm dst src size f :
  runs_mm k p x mm → user_range (kram k) (page_table mm) dst size size f → 0 <= size → PHYS_OFFSET <= src →
  (∀ i j, 0 <= i < size → 0 <= j < size → V2P src + i ≠ f j) →
  ∃ m, copy_to_user dst src size k = Done (0, set_kram m k) ∧ moved (λ i, V2P src + i) f size (kram k) m.
Proof using Type*.
  intros Hr Hur Hsz Hsrc Hap. eapply copy_to_user_with_ok; try done. intros i m Hi Hm. by eapply kread_far.
Qed.

(** [n] rounds of [copy_from_user] into a kernel buffer. *)
Lemma copy_in_steps k table src n f dst rest :
  user_range (kram k) table src n n f → PHYS_OFFSET <= dst →
  (∀ i j s, 0 <= i < n → 0 <= j < n → s ∈ walk_slots (kram k) table (page_down (u64 (src + j))) → ¬ s <= V2P dst + i < s + 8) →
  (∀ i j, 0 <= i < n → 0 <= j < n → V2P dst + i ≠ f j) →
  ∀ c b m, moved f (λ i, V2P dst + i) b (kram k) m → 0 <= b → b + Z.of_nat c = n →
  ∃ m', copy_in_loop (c + rest) (λ i v, kwrite (dst + i) v) table src b (set_kram m k) =
      copy_in_loop rest (λ i v, kwrite (dst + i) v) table src n (set_kram m' k) ∧
    moved f (λ i, V2P dst + i) n (kram k) m'.
Proof using Type*.
  intros Hur Hdst Hslots Hap. induction c as [|c IH]; intros b m Hm Hb Hn.
  { exists m. assert (b = n) as -> by lia. done. }
  cbn [copy_in_loop Nat.add]. unfold bind at 1, gets at 1. change (kram (set_kram m k)) with m.
  assert (Hph : user_phys m table (u64 (src + b)) = Some (f b)).
  { rewrite <- (ur_phys _ _ _ _ _ _ Hur) by lia. apply user_phys_ext. intros s y Hs Hy. apply (proj2 Hm).
    intros j Hj ->. by apply (Hslots j b s); [lia|lia|..]. }
  rewrite Hph. unfold kread at 1, gets at 1. unfold bind at 1. change (kram (set_kram m k)) with m.
  rewrite V2P_P2V by (apply (ur_small _ _ _ _ _ _ Hur); lia).
  assert (m (f b) = kram k (f b)) as ->.
  { destruct Hm as [_ Ho]. apply Ho. intros j Hj Heq. apply (Hap j b); [lia|lia|done]. }
  unfold bind at 1, kwrite, modify at 1. change (kram (set_kram m k)) with m.
  assert (V2P (dst + b) = V2P dst + b) as -> by (unfold V2P; rewrite !(proj2 (Z.leb_le _ _)) by lia; lia).
  change (set_kram (upd m (V2P dst + b) (kram k (f b))) (set_kram m k)) with
    (set_kram (upd m (V2P dst + b) (kram k (f b))) k).
  apply IH; [|lia|lia]. apply (wrote_snoc (λ i, kram k (f i)) (λ i, V2P dst + i)); [done|done|lia].
Qed.

Lemma copy_from_user_ok k p x mm src dst size f :
  runs_mm k p x mm → user_range (kram k) (page_table mm) src size size f → 0 < size → 0 <= src < 2 ^ 64 → PHYS_OFFSET <= dst →
  (∀ i j s, 0 <= i < size → 0 <= j < size →
    s ∈ walk_slots (kram k) (page_table mm) (page_down (u64 (src + j))) → ¬ s <= V2P dst + i < s + 8) →
  (∀ i j, 0 <= i < size → 0 <= j < size → V2P dst + i ≠ f j) →
  ∃ m, copy_from_user dst src size k = Done (0, set_kram m k) ∧ moved f (λ i, V2P dst + i) size (kram k) m.
Proof using Type*.
  intros Hr Hur Hsz Hsrc Hdst Hslots Hap. unfold copy_from_user, copy_from_user_with. rewrite (with_mm_runs _ _ _ _ _ _ Hr).
  unfold bind at 1, gets at 1. pose proof (ur_phys _ _ _ _ _ _ Hur 0 ltac:(lia)) as H0.
  unfold u64 in H0. rewrite Z.add_0_r, Z.mod_small in H0 by lia. rewrite H0.
  destruct (copy_in_steps k (page_table mm) src size f dst 0 Hur Hdst Hslots Hap (Z.to_nat size) 0 (kram k))
    as (m & Hrun & Hm); [apply moved_0|lia|lia|].
  rewrite set_kram_id, Nat.add_0_r in Hrun. by exists m.
Qed.
End facts.

(** what [copy_to_user] writes to mapped user memory, [copy_from_user]
    reads back: both succeed and the bytes are those of the kernel's buffer. *)
Theorem copy_user_roundtrip {FA} `{!FrameAllocator FA} (k : kst FA) p x mm dst src back size f :
  runs_mm k p x mm → user_range (kram k) (page_table mm) dst size size f → 0 < size → 0 <= dst < 2 ^ 64 →
  PHYS_OFFSET <= src → PHYS_OFFSET <= back →
  (∀ i j, 0 <= i < size → 0 <= j < size → V2P src + i ≠ f j ∧ V2P back + i ≠ f j) →
  (∀ i j s, 0 <= i < size → 0 <= j < size →
    s ∈ walk_slots (kram k) (page_table mm) (page_down (u64 (dst + j))) → ¬ s <= V2P back + i < s + 8) →
  ∃ k1 k2, copy_to_user dst src size k = Done (0, k1) ∧ copy_from_user back dst size k1 = Done (0, k2) ∧
    ∀ i, 0 <= i < size → kram k2 (V2P back + i) = kram k (V2P src + i).
Proof.
  intros Hr Hur Hsz Hdst Hsrc Hback Hap Hslots.
  destruct (copy_to_user_ok k p x mm dst src size f Hr Hur ltac:(lia) Hsrc) as (m1 & Hrun1 & Hm1).
  { intros i j Hi Hj. by apply Hap. }
  destruct (copy_from_user_ok (set_kram m1 k) p x mm dst back size f) as (m2 & Hrun2 & Hm2); try done.
  - by eapply user_range_wrote.
  - intros i j s Hi Hj. change (kram (set_kram m1 k)) with m1. rewrite (walk_slots_ext (kram k)); [by apply Hslots|].
    intros s' y Hs' Hy. apply (proj2 Hm1). intros i' Hi' ->. by apply (ur_apart _ _ _ _ _ _ Hur i' j s').
  - intros i j Hi Hj. by apply Hap.
  - exists (set_kram m1 k), (set_kram m2 (set_kram m1 k)). split; [done|]. split; [done|].
    intros i Hi. change (kram (set_kram m2 _)) with m2. rewrite (proj1 Hm2) by done. change (kram (set_kram m1 k)) with m1.
    by rewrite (proj1 Hm1).
Qed.

(** [copy_to_user] ignores the copy-on-write marks: a byte it writes is
    seen through every address space that maps the same frame, such as the
    parent's and the child's after a fork, whatever the access rights in the
    two descriptors; no frame is copied and no fault is taken. *)
Theorem copy_to_user_ignores_cow {FA} `{!FrameAllocator FA} (k : kst FA) p x mm dst src size f other b i :
  runs_mm k p x mm → user_range (kram k) (page_table mm) dst size size f → PHYS_OFFSET <= src →
  (∀ i j, 0 <= i < size → 0 <= j < size → V2P src + i ≠ f j) →
  0 <= i < size → user_phys (kram k) other b = Some (f i) →
  (∀ j s, 0 <= j < size → s ∈ walk_slots (kram k) other (page_down b) → ¬ s <= f j < s + 8) →
  ∃ k', copy_to_user dst src size k = Done (0, k') ∧ user_phys (kram k') other b = Some (f i) ∧
    kram k' (f i) = kram k (V2P src + i) ∧ frames (pt (k_vm k')) = frames (pt (k_vm k)).
Proof.
  intros Hr Hur Hsrc Hap Hi Hb Hslots.
  destruct (copy_to_user_ok k p x mm dst src size f Hr Hur ltac:(lia) Hsrc Hap) as (m & Hrun & Hm).
  exists (set_kram m k). split; [done|]. change (kram (set_kram m k)) with m. split; [|split; [by apply (proj1 Hm)|done]].
  rewrite <- Hb. apply user_phys_ext. intros s y Hs Hy. apply (proj2 Hm). intros j Hj ->. by apply (Hslots j s).
Qed.

(** ** Witnesses: the copy-on-write page of [ex_ram] *)

Definition ex_ukst : kst pmm := ex_kst (ex_process 1000 1000 1000 1000 [] None) ∅ ∅ ex_vfs.
Definition ex_uphys (a i : Z) : Z := ex_frame 3 + a + i.

Lemma ex_walk_slots va : 0 <= va < 0x1000 → walk_slots ex_ram (ex_frame 0) (page_down va) =
  [ex_frame 0; ex_frame 1; ex_frame 2].
Proof.
  intros Hva. assert (page_down va = 0) as ->; [|by vm_compute].
  unfold page_down. change (PAGE_SIZE - 1) with (2 ^ 12 - 1). rewrite andnot_ones, Z.mod_small by lia. lia.
Qed.
Lemma ex_user_phys va : 0 <= va < 0x1000 → user_phys ex_ram (ex_frame 0) va = Some (ex_frame 3 + va).
Proof.
  intros Hva. unfold user_phys. assert (page_down va = 0) as ->.
  { unfold page_down. change (PAGE_SIZE - 1) with (2 ^ 12 - 1). rewrite andnot_ones, Z.mod_small by lia. lia. }
  change (PAGE_SIZE - 1) with (2 ^ 12 - 1). rewrite land_ones_mod, Z.mod_small by lia.
  assert (vmm_get_pte_from_table ex_ram (P2V (ex_frame 0)) 0 = P2V (ex_frame 2)) as -> by by vm_compute.
  change (P2V (ex_frame 2) =? 0) with false. cbv iota zeta.
  assert (rd64 ex_ram (P2V (ex_frame 2)) = ex_page) as -> by by vm_compute.
  assert (has ex_page PT_VALID = true) as -> by done. by assert (entry_phys ex_page = ex_frame 3) as -> by done.
Qed.
Lemma ex_user_range a size : 0 <= a → 0 <= size → a + size <= 0x1000 →
  user_range ex_ram (ex_frame 0) a size size (ex_uphys a).
Proof.
  intros Ha Hsz Hend. unfold ex_uphys. split.
  - intros i Hi. unfold u64. rewrite Z.mod_small, ex_user_phys by lia. f_equal. lia.
  - intros i Hi. unfold ex_frame, PHY_RAM_BASE, PAGE_SIZE. lia.
  - intros i j Hi Hj. lia.
  - intros i j s Hi Hj. unfold u64. rewrite Z.mod_small, ex_walk_slots by lia. intros Hs.
    repeat (apply elem_of_cons in Hs as [->|Hs]; [unfold ex_frame, PAGE_SIZE; lia|]). by apply not_elem_of_nil in Hs.
Qed.
Lemma ex_runs_mm : runs_mm ex_ukst 11 (ex_process 1000 1000 1000 1000 [] None) ex_mm.
Proof. split; [apply ex_runs|done]. Qed.
Lemma ex_far i j : 0 <= i < 100 → 0 <= j < 100 → V2P (PHYS_OFFSET + ex_frame 5 + i) + j ≠ ex_uphys 16 0 ∧
  V2P (PHYS_OFFSET + ex_frame 5 + i) = ex_frame 5 + i.
Proof.
  intros Hi Hj. unfold V2P, ex_uphys, ex_frame, PAGE_SIZE, PHYS_OFFSET, PHY_RAM_BASE.
  rewrite (proj2 (Z.leb_le _ _)) by lia. lia.
Qed.

Lemma copy_user_roundtrip_witness : ∃ k1 k2,
  copy_to_user 16 (PHYS_OFFSET + ex_frame 5 + 0) 4 ex_ukst = Done (0, k1) ∧
  copy_from_user (PHYS_OFFSET + ex_frame 5 + 50) 16 4 k1 = Done (0, k2).
Proof.
  destruct (copy_user_roundtrip ex_ukst 11 (ex_process 1000 1000 1000 1000 [] None) ex_mm 16 (PHYS_OFFSET + ex_frame 5 + 0)
    (PHYS_OFFSET + ex_frame 5 + 50) 4 (ex_uphys 16)) as (k1 & k2 & H1 & H2 & _);
    [apply ex_runs_mm|exact (ex_user_range 16 4 ltac:(lia) ltac:(lia) ltac:(lia))|lia|lia|done|done| | |].
  - intros i j Hi Hj. destruct (ex_far 0 0 ltac:(lia) ltac:(lia)) as [_ ->], (ex_far 50 0 ltac:(lia) ltac:(lia)) as [_ ->].
    unfold ex_uphys, ex_frame, PAGE_SIZE. lia.
  - intros i j s Hi Hj. change (kram ex_ukst) with ex_ram. unfold u64. rewrite Z.mod_small, ex_walk_slots by lia. intros Hs.
    destruct (ex_far 50 0 ltac:(lia) ltac:(lia)) as [_ ->].
    repeat (apply elem_of_cons in Hs as [->|Hs]; [unfold ex_frame, PAGE_SIZE; lia|]). by apply not_elem_of_nil in Hs.
  - exists k1, k2. split; [exact H1|exact H2].
Defined.

Lemma copy_to_user_ignores_cow_witness : ∃ k',
  copy_to_user 16 (PHYS_OFFSET + ex_frame 5 + 0) 4 ex_ukst = Done (0, k') ∧
  user_phys (kram k') (ex_frame 0) 18 = Some (ex_frame 3 + 18) ∧ has ex_page PT_SW_COW = true.
Proof.
  destruct (copy_to_user_ignores_cow ex_ukst 11 (ex_process 1000 1000 1000 1000 [] None) ex_mm 16
    (PHYS_OFFSET + ex_frame 5 + 0) 4 (ex_uphys 16) (ex_frame 0) 18 2) as (k' & H1 & H2 & _);
    [apply ex_runs_mm|exact (ex_user_range 16 4 ltac:(lia) ltac:(lia) ltac:(lia))|done| |lia|exact (ex_user_phys 18 ltac:(lia))| |].
  - intros i j Hi Hj. destruct (ex_far 0 0 ltac:(lia) ltac:(lia)) as [_ ->]. unfold ex_uphys, ex_frame, PAGE_SIZE. lia.
  - intros j s Hj. change (kram ex_ukst) with ex_ram. rewrite (ex_walk_slots 18) by lia. unfold ex_uphys. intros Hs.
    repeat (apply elem_of_cons in Hs as [->|Hs]; [unfold ex_frame, PAGE_SIZE; lia|]). by apply not_elem_of_nil in Hs.
  - exists k'. split; [exact H1|split; [exact H2|by vm_compute]].
Defined.
