(* ===== verification/Signal.v ===== *)
(** Signals, [kernel/syscalls/kill.c] and [signal_send_group] of
    [kernel/threading/sched.c]: sending, the choice of the next signal, the
    frame on the user stack and its restoration, the system calls.  The signal
    state of a process is the field [p_signals].  What a pending signal does
    ([signal_check_pending]) is in [Proc], after [sys_exit]. *)
From S2P Require Export Kernel Uaccess.
From S2P Require Import KString.
Local Open Scope prog_scope.

Definition SIGHUP : Z := 1.
Definition SIGKILL : Z := 9.
Definition SIGPIPE : Z := 13.
Definition SIGCHLD : Z := 17.
Definition SIGCONT : Z := 18.
Definition SIGSTOP : Z := 19.
Definition SIGTSTP : Z := 20.
Definition SIGTTIN : Z := 21.
Definition SIGTTOU : Z := 22.
Definition SIG_DFL : Z := 0.
Definition SIG_IGN : Z := 1.
Definition SA_NODEFER : Z := 0x40000000.
Definition SA_RESETHAND : Z := 0x80000000.
Definition SIG_BLOCK : Z := 0.
Definition SIG_UNBLOCK : Z := 1.
Definition SIG_SETMASK : Z := 2.

Definition sigmask (sig : Z) : Z := u32 (Z.shiftl 1 (sig - 1)).
Definition sigaddset (set sig : Z) : Z := Z.lor set (sigmask sig).
Definition sigdelset (set sig : Z) : Z := andnot set (sigmask sig).
Definition SIG_KERNEL_ONLY_MASK : Z := Z.lor (sigmask SIGKILL) (sigmask SIGSTOP).
Definition SIG_STOP_MASK : Z :=
  Z.lor (Z.lor (Z.lor (sigmask SIGSTOP) (sigmask SIGTSTP)) (sigmask SIGTTIN)) (sigmask SIGTTOU).

Inductive sig_action := SIG_ACTION_TERM | SIG_ACTION_IGN | SIG_ACTION_CORE | SIG_ACTION_STOP | SIG_ACTION_CONT.

(** The table; an entry that the source does not initialise is 0, [SIG_ACTION_TERM]. *)
Definition sig_default_action (sig : Z) : sig_action :=
  match sig with
  | 0 | 17 | 23 | 28 => SIG_ACTION_IGN
  | 3 | 4 | 5 | 6 | 7 | 8 | 11 | 24 | 25 | 31 => SIG_ACTION_CORE
  | 18 => SIG_ACTION_CONT
  | 19 | 20 | 21 | 22 => SIG_ACTION_STOP
  | _ => SIG_ACTION_TERM
  end.
Definition signal_get_default_action (sig : Z) : sig_action :=
  if (sig <? 1) || (NSIG <? sig) then SIG_ACTION_IGN else sig_default_action sig.

Definition set_sig_pending v s := mk_signal_struct (sig_actions s) v (sig_blocked s).
Definition set_sig_blocked v s := mk_signal_struct (sig_actions s) (sig_pending s) v.
Definition set_sig_actions v s := mk_signal_struct v (sig_pending s) (sig_blocked s).

(** [signal_dequeue]: the signal and what stays pending. *)
Definition deliverable (s : signal_struct) : Z :=
  Z.lor (andnot (sig_pending s) (sig_blocked s)) (Z.land (sig_pending s) SIG_KERNEL_ONLY_MASK).
Fixpoint first_signal (n : nat) (pending i : Z) : Z :=
  match n with
  | O => 0
  | S n' => if has pending (sigmask i) then i else first_signal n' pending (i + 1)
  end.
Definition signal_dequeue (s : signal_struct) : Z * signal_struct :=
  let pending := deliverable s in
  if pending =? 0 then (0, s)
  else
    let i := first_signal (Z.to_nat NSIG) pending 1 in
    if i =? 0 then (0, s) else (i, set_sig_pending (sigdelset (sig_pending s) i) s).

(** ** The signal frame *)

(** [trapframe_t] up to the processor state: the floating-point registers are
    not touched by the signal code. *)
Record trapframe := mk_trapframe { tf_x : list Z; tf_sp_el0 : Z; tf_elr : Z; tf_spsr : Z }.
Record sigframe := mk_sigframe {
  fr_x : list Z;        (* 31 registers *)
  fr_sp : Z;
  fr_pc : Z;
  fr_pstate : Z;
  fr_old_mask : Z;
  fr_sig : Z;
  fr_retcode : list Z;  (* 2 words of 64 bits *)
}.
Definition SIZEOF_SIGFRAME : Z := 296.
Definition OFFSETOF_RETCODE : Z := 280.

(** The bytes of the structure. *)
Definition sigframe_bytes (f : sigframe) : list Z :=
  concat (map (le_bytes 8) (fr_x f ++ [fr_sp f; fr_pc f; fr_pstate f])) ++
  le_bytes 4 (fr_old_mask f) ++ le_bytes 4 (fr_sig f) ++ concat (map (le_bytes 8) (fr_retcode f)).
(** Word [i], of 8 bytes, of a structure. *)
Definition word_at (l : list Z) (i : nat) : Z := of_le (take 8 (drop (8 * i) l)).
Definition sigframe_of_bytes (l : list Z) : sigframe :=
  mk_sigframe (map (word_at l) (seq 0 31)) (word_at l 31) (word_at l 32) (word_at l 33)
    (of_le (take 4 (drop 272 l))) (of_le (take 4 (drop 276 l))) [word_at l 35; word_at l 36].

Section signal.
Context {FA : Type} `{!FrameAllocator FA}.

Definition new_signals : signal_struct := mk_signal_struct (replicate (Z.to_nat NSIG) (mk_sigaction SIG_DFL 0 0)) 0 0.
Definition signal_create : M (kst FA) (option signal_struct) :=
  a <- kalloc;; ret (if a =? 0 then None else Some new_signals).
Definition signal_copy (old : option signal_struct) : M (kst FA) (option signal_struct) :=
  match old with
  | None => signal_create
  | Some s => a <- kalloc;; ret (if a =? 0 then None else Some (set_sig_pending 0 s))
  end.

(** Changing [proc->signals]. *)
Definition mod_signals (p : Z) (f : signal_struct → signal_struct) : M (kst FA) unit :=
  upd_proc p (λ x, set_p_signals (f <$> p_signals x) x).

Definition wake_process (proc : Z) : M (kst FA) unit :=
  fuel <- gets task_fuel;; on_sched (task_wake_up_process fuel proc).

Definition signal_send (proc sig : Z) : M (kst FA) Z :=
  if (proc =? 0) || (sig <? 1) || (NSIG <? sig) then ret (-1)
  else
    x <- proc_of proc;;
    match p_signals x with
    | None => ret (-1)
    | Some _ =>
        (if sig =? SIGCONT then
           mod_signals proc (λ s, set_sig_pending (andnot (sig_pending s) SIG_STOP_MASK) s);;;
           upd_proc proc (set_p_state PROCESS_ACTIVE);;;
           wake_process proc
         else ret tt);;;
        (if has (sigmask sig) SIG_STOP_MASK then
           mod_signals proc (λ s, set_sig_pending (sigdelset (sig_pending s) SIGCONT) s)
         else ret tt);;;
        mod_signals proc (λ s, set_sig_pending (sigaddset (sig_pending s) sig) s);;;
        ret 0
    end.

Definition lookup_pid (pid : Z) : M (kst FA) Z :=
  fuel <- gets proc_fuel;; on_sched (find_process_by_pid fuel pid).
Definition signal_send_pid (pid sig : Z) : M (kst FA) Z :=
  proc <- lookup_pid pid;;
  if proc =? 0 then ret (-1) else signal_send proc sig.

(** The chain of one bucket in [signal_send_group]. *)
Fixpoint group_chain (fuel : nat) (pgid sig proc count : Z) : M (kst FA) Z :=
  match fuel with
  | O => faultM
  | S f =>
      if proc =? 0 then ret count
      else
        x <- proc_of proc;;
        count <- (if p_pgid x =? pgid then
                    r <- signal_send proc sig;; ret (if r =? 0 then count + 1 else count)
                  else ret count);;
        x <- proc_of proc;;
        group_chain f pgid sig (p_hash_next x) count
  end.
Fixpoint group_buckets (n : nat) (pgid sig i count : Z) : M (kst FA) Z :=
  match n with
  | O => ret count
  | S n' =>
      h <- on_sched (get_hash i);;
      fuel <- gets proc_fuel;;
      count <- group_chain fuel pgid sig h count;;
      group_buckets n' pgid sig (i + 1) count
  end.
Definition signal_send_group (pgid sig : Z) : M (kst FA) Z :=
  if (sig <? 0) || (NSIG <? sig) then ret (-1)
  else
    on_sched sched_acquire;;;
    count <- group_buckets (Z.to_nat PID_HASH_SIZE) pgid sig 0 0;;
    on_sched sched_release;;;
    ret (if 0 <? count then 0 else -1).

(** ** System calls *)

Fixpoint kill_all (n : nat) (i sig count : Z) : M (kst FA) Z :=
  match n with
  | O => ret count
  | S n' =>
      proc <- lookup_pid i;;
      if proc =? 0 then kill_all n' (i + 1) sig count
      else
        r <- signal_send_pid i sig;;
        kill_all n' (i + 1) sig (if r =? 0 then count + 1 else count)
  end.
Definition sys_kill (pid sig : Z) : M (kst FA) Z :=
  if (sig <? 0) || (NSIG <? sig) then ret (-1)
  else if sig =? 0 then
    if 0 <? pid then proc <- lookup_pid pid;; ret (if proc =? 0 then -1 else 0) else ret (-1)
  else if 0 <? pid then signal_send_pid pid sig
  else if pid =? 0 then with_proc (-1) (λ p, x <- proc_of p;; signal_send_group (p_pgid x) sig)
  else if pid =? -1 then
    count <- kill_all 1022 2 sig 0;; ret (if 0 <? count then 0 else -1)
  else signal_send_group (u64 (- pid)) sig.

Definition sigaction_bytes (a : sigaction) : list Z :=
  le_bytes 8 (sa_handler a) ++ le_bytes 4 (sa_mask a) ++ le_bytes 4 (sa_flags a).
Definition sigaction_of_bytes (l : list Z) : sigaction :=
  mk_sigaction (of_le (take 8 l)) (of_le (take 4 (drop 8 l))) (of_le (take 4 (drop 12 l))).

Definition sys_sigaction (sig act oldact : Z) : M (kst FA) Z :=
  if (sig <? 1) || (NSIG <? sig) then ret (-1)
  else if (sig =? SIGKILL) || (sig =? SIGSTOP) then ret (-1)
  else
    with_proc (-1) (λ p,
      x <- proc_of p;;
      match p_signals x with
      | None => ret (-1)
      | Some si =>
          match zget (sig_actions si) (sig - 1) with
          | None => faultM
          | Some sa =>
              ok <- (if negb (oldact =? 0) then copy_bytes_to_user oldact (sigaction_bytes sa) else ret 0);;
              if negb (ok =? 0) then ret (-1)
              else if act =? 0 then ret 0
              else
                o <- copy_bytes_from_user act 16;;
                match o with
                | None => ret (-1)
                | Some l =>
                    let knew := sigaction_of_bytes l in
                    mod_signals p (λ s, set_sig_actions (<[Z.to_nat (sig - 1) :=
                      mk_sigaction (sa_handler knew) (andnot (sa_mask knew) SIG_KERNEL_ONLY_MASK) (sa_flags knew)]>
                      (sig_actions s)) s);;;
                    ret 0
                end
          end
      end).

Definition sys_sigprocmask (how set oldset : Z) : M (kst FA) Z :=
  with_proc (-1) (λ p,
    x <- proc_of p;;
    match p_signals x with
    | None => ret (-1)
    | Some si =>
        ok <- (if negb (oldset =? 0) then copy_bytes_to_user oldset (le_bytes 4 (sig_blocked si)) else ret 0);;
        if negb (ok =? 0) then ret (-1)
        else if set =? 0 then ret 0
        else
          o <- copy_bytes_from_user set 4;;
          match o with
          | None => ret (-1)
          | Some l =>
              let kset := andnot (of_le l) SIG_KERNEL_ONLY_MASK in
              if how =? SIG_BLOCK then mod_signals p (λ s, set_sig_blocked (Z.lor (sig_blocked s) kset) s);;; ret 0
              else if how =? SIG_UNBLOCK then mod_signals p (λ s, set_sig_blocked (andnot (sig_blocked s) kset) s);;; ret 0
              else if how =? SIG_SETMASK then mod_signals p (set_sig_blocked kset);;; ret 0
              else ret (-1)
          end
    end).

Definition sys_sigpending (set : Z) : M (kst FA) Z :=
  if set =? 0 then ret (-1)
  else
    with_proc (-1) (λ p,
      x <- proc_of p;;
      match p_signals x with
      | None => ret (-1)
      | Some si =>
          ok <- copy_bytes_to_user set (le_bytes 4 (sig_pending si));;
          ret (if negb (ok =? 0) then -1 else 0)
      end).

(** ** The frame on the user stack *)

(** [memcpy(p, &frame, ...)] and [memcpy(&frame, p, n)] for a local [frame]. *)
Definition kput_bytes (p : Z) (l : list Z) : M (kst FA) unit :=
  modify (λ k, set_kram (put_bytes (kram k) (V2P p) l) k).
Definition kget_bytes (p n : Z) : M (kst FA) (list Z) := gets (λ k, bytes_at (kram k) (V2P p) (Z.to_nat n)).
Definition kpte (table va : Z) : M (kst FA) Z := gets (λ k, vmm_get_pte_from_table (kram k) (P2V table) va).
Definition kpte_alloc (table va : Z) : M (kst FA) Z := on_vm (on_pt (vmm_get_pte_from_table_alloc (P2V table) va)).
Definition kread64 (p : Z) : M (kst FA) Z := on_vm (on_pt (read64 p)).
Definition kwrite64 (p v : Z) : M (kst FA) unit := on_vm (on_pt (write64 p v)).

(** The descriptor of a stack page mapped for the frame. *)
Definition stack_entry (phys : Z) : Z :=
  let entry := Z.lor (Z.lor (Z.lor (Z.lor phys PT_VALID) PT_AF) PT_PAGE) PT_SH_INNER in
  let entry := Z.lor entry (Z.shiftl MT_NORMAL 2) in
  let entry := Z.lor entry PT_AP_RW_EL0 in
  Z.lor entry PT_UXN.
Definition frame_sp (tf : trapframe) : Z := andnot (u64 (tf_sp_el0 tf - SIZEOF_SIGFRAME)) 15.
(** The instructions of the trampoline, each in a word of 64 bits. *)
Definition RETCODE : list Z := [0xD2800CE8; 0xD4000001].
Definition frame_of_tf (tf : trapframe) (si : signal_struct) (sig : Z) : sigframe :=
  mk_sigframe (take 31 (tf_x tf)) (tf_sp_el0 tf) (tf_elr tf) (tf_spsr tf) (sig_blocked si) sig RETCODE.
Definition handler_tf (tf : trapframe) (sig sp : Z) (act : sigaction) : trapframe :=
  mk_trapframe (<[30%nat := u64 (sp + OFFSETOF_RETCODE)]> (<[0%nat := sig]> (tf_x tf))) sp (sa_handler act) (tf_spsr tf).
Definition in_page (a : Z) : Z := Z.land a (PAGE_SIZE - 1).

(** The frame's bytes through the linear map, one page or two; [next] gives
    the descriptor's address of the second page.  [false] on failure. *)
Definition write_frame (pte sp : Z) (next : Z → M (kst FA) Z) (l : list Z) : M (kst FA) bool :=
  e <- kread64 pte;;
  let frame_phys := entry_phys e + in_page sp in
  let first_page_bytes := PAGE_SIZE - in_page sp in
  if SIZEOF_SIGFRAME <=? first_page_bytes then kput_bytes (P2V frame_phys) l;;; ret true
  else
    kput_bytes (P2V frame_phys) (take (Z.to_nat first_page_bytes) l);;;
    pte <- next (u64 (page_down sp + PAGE_SIZE));;
    if pte =? 0 then ret false
    else
      e <- kread64 pte;;
      if negb (has e PT_VALID) then ret false
      else kput_bytes (P2V (entry_phys e)) (drop (Z.to_nat first_page_bytes) l);;; ret true.
Definition read_frame (pte sp : Z) (next : Z → M (kst FA) Z) : M (kst FA) (option (list Z)) :=
  e <- kread64 pte;;
  let frame_phys := entry_phys e + in_page sp in
  let first_page_bytes := PAGE_SIZE - in_page sp in
  if SIZEOF_SIGFRAME <=? first_page_bytes then l <- kget_bytes (P2V frame_phys) SIZEOF_SIGFRAME;; ret (Some l)
  else
    l1 <- kget_bytes (P2V frame_phys) first_page_bytes;;
    pte <- next (u64 (page_down sp + PAGE_SIZE));;
    if pte =? 0 then ret None
    else
      e <- kread64 pte;;
      if negb (has e PT_VALID) then ret None
      else l2 <- kget_bytes (P2V (entry_phys e)) (SIZEOF_SIGFRAME - first_page_bytes);; ret (Some (l1 ++ l2)).

Definition setup_signal_frame (p : Z) (tf : trapframe) (sig : Z) (act : sigaction) : M (kst FA) (Z * trapframe) :=
  with_mm (-1, tf) (λ table,
    let sp := frame_sp tf in
    pte <- kpte_alloc table sp;;
    if pte =? 0 then ret (-1, tf)
    else
      e <- kread64 pte;;
      mapped <- (if has e PT_VALID then ret true
                 else
                   phys <- on_vm (on_pt alloc_frame);;
                   if phys =? 0 then ret false
                   else
                     on_vm (on_pt (clear_page (P2V phys)));;;
                     kwrite64 pte (stack_entry phys);;;
                     ret true);;
      if negb mapped then ret (-1, tf)
      else
        x <- proc_of p;;
        match p_signals x with
        | None => faultM
        | Some si =>
            ok <- write_frame pte sp (kpte_alloc table) (sigframe_bytes (frame_of_tf tf si sig));;
            if negb ok then ret (-1, tf)
            else
              mod_signals p (λ s, set_sig_blocked (Z.lor (sig_blocked s) (sa_mask act)) s);;;
              (if has (sa_flags act) SA_NODEFER then ret tt
               else mod_signals p (λ s, set_sig_blocked (sigaddset (sig_blocked s) sig) s));;;
              (if has (sa_flags act) SA_RESETHAND then
                 mod_signals p (λ s, set_sig_actions (<[Z.to_nat (sig - 1) :=
                   mk_sigaction SIG_DFL (sa_mask act) (sa_flags act)]> (sig_actions s)) s)
               else ret tt);;;
              ret (0, handler_tf tf sig sp act)
        end).

Definition restored_tf (tf : trapframe) (f : sigframe) : trapframe :=
  mk_trapframe (fr_x f ++ drop 31 (tf_x tf)) (fr_sp f) (fr_pc f) (fr_pstate f).
Definition sys_sigreturn (tf : trapframe) : M (kst FA) (Z * trapframe) :=
  with_proc (-1, tf) (λ p,
    with_mm (-1, tf) (λ table,
      x <- proc_of p;;
      match p_signals x with
      | None => ret (-1, tf)
      | Some _ =>
          let sp := tf_sp_el0 tf in
          pte <- kpte table sp;;
          if pte =? 0 then ret (-1, tf)
          else
            e <- kread64 pte;;
            if negb (has e PT_VALID) then ret (-1, tf)
            else
              o <- read_frame pte sp (kpte table);;
              match o with
              | None => ret (-1, tf)
              | Some l =>
                  let f := sigframe_of_bytes l in
                  let tf' := restored_tf tf f in
                  mod_signals p (set_sig_blocked (andnot (fr_old_mask f) SIG_KERNEL_ONLY_MASK));;;
                  ret (i64 (nth 0 (tf_x tf') 0), tf')
              end
      end)).
End signal.

(** ** The next signal *)

Lemma sigmask_bit sig i : 1 <= sig <= 32 → 0 <= i → Z.testbit (sigmask sig) i = bool_decide (i = sig - 1).
Proof.
  intros Hs Hi. unfold sigmask, u32. rewrite Z.shiftl_1_l, Z.mod_small.
  - destruct (decide (i = sig - 1)) as [->|Hn]; [rewrite Z.pow2_bits_true by lia; by rewrite bool_decide_true|].
    rewrite Z.pow2_bits_false by lia. by rewrite bool_decide_false.
  - split; [apply Z.pow_nonneg; lia|]. apply Z.pow_lt_mono_r; lia.
Qed.
Lemma has_sigmask set sig : 1 <= sig <= 32 → has set (sigmask sig) = Z.testbit set (sig - 1).
Proof.
  intros Hs. unfold sigmask, u32. rewrite Z.shiftl_1_l, Z.mod_small; [apply has_pow2; lia|].
  split; [apply Z.pow_nonneg; lia|]. apply Z.pow_lt_mono_r; lia.
Qed.

Lemma first_signal_spec pending n : ∀ i, 1 <= i → i + Z.of_nat n <= 33 →
  let r := first_signal n pending i in
  (r = 0 ∧ ∀ j, i <= j < i + Z.of_nat n → Z.testbit pending (j - 1) = false) ∨
  (i <= r < i + Z.of_nat n ∧ Z.testbit pending (r - 1) = true ∧ ∀ j, i <= j < r → Z.testbit pending (j - 1) = false).
Proof.
  induction n as [|n IH]; intros i Hi Hn; cbv zeta; cbn [first_signal]; [left; split; [done|lia]|].
  rewrite has_sigmask by lia. destruct (Z.testbit pending (i - 1)) eqn:Hb; [right; split; [lia|split; [done|lia]]|].
  destruct (IH (i + 1) ltac:(lia) ltac:(lia)) as [[H0 H1]|(H0 & H1 & H2)].
  - left. split; [done|]. intros j Hj. destruct (decide (j = i)) as [->|]; [done|]. apply H1. lia.
  - right. split; [lia|]. split; [done|]. intros j Hj. destruct (decide (j = i)) as [->|]; [done|]. apply H2. lia.
Qed.

(** [signal_dequeue] picks the lowest pending signal that is not blocked,
    [SIGKILL] and [SIGSTOP] whatever the mask says, and removes that one only;
    it answers 0 exactly when there is none. *)
Theorem signal_dequeue_lowest s : 0 <= sig_pending s < 2 ^ 32 →
  let can j := Z.testbit (sig_pending s) (j - 1) = true ∧
    (Z.testbit (sig_blocked s) (j - 1) = false ∨ j = SIGKILL ∨ j = SIGSTOP) in
  let r := (signal_dequeue s).1 in
  (r = 0 ∧ (signal_dequeue s).2 = s ∧ ∀ j, 1 <= j <= 32 → ¬ can j) ∨
  (1 <= r <= 32 ∧ can r ∧ (∀ j, 1 <= j < r → ¬ can j) ∧
   (signal_dequeue s).2 = set_sig_pending (Z.clearbit (sig_pending s) (r - 1)) s).
Proof.
  intros Hp can. assert (Hcan : ∀ j, 1 <= j <= 32 → Z.testbit (deliverable s) (j - 1) = true ↔ can j).
  { intros j Hj. unfold deliverable, can, andnot, SIG_KERNEL_ONLY_MASK.
    rewrite Z.lor_spec, !Z.land_spec, Z.lnot_spec, Z.lor_spec, !sigmask_bit by (unfold SIGKILL, SIGSTOP; lia).
    unfold SIGKILL, SIGSTOP. rewrite orb_true_iff, !andb_true_iff, negb_true_iff, orb_true_iff, !bool_decide_eq_true.
    assert (j - 1 = 9 - 1 ↔ j = 9) by lia. assert (j - 1 = 19 - 1 ↔ j = 19) by lia. tauto. }
  unfold signal_dequeue. destruct (Z.eqb_spec (deliverable s) 0) as [H0|H0].
  { left. split; [done|]. split; [done|]. intros j Hj Hc. apply Hcan in Hc; [|done]. by rewrite H0, Z.bits_0 in Hc. }
  destruct (first_signal_spec (deliverable s) 32 1 ltac:(lia) ltac:(lia)) as [[Hr Hno]|(Hr & Hb & Hno)];
    change (Z.to_nat NSIG) with 32%nat; cbv zeta in *.
  - rewrite Hr. left. split; [done|]. split; [done|]. intros j Hj Hc. apply Hcan in Hc; [|done]. rewrite Hno in Hc by lia. done.
  - set (r := first_signal 32 (deliverable s) 1) in *. clearbody r. change (Z.of_nat 32) with 32 in Hr.
    rewrite (proj2 (Z.eqb_neq r 0)) by lia. right. cbn [fst snd]. split; [lia|]. split; [apply Hcan; [lia|done]|]. split.
    + intros j Hj Hc. apply Hcan in Hc; [|lia]. rewrite Hno in Hc by lia. done.
    + f_equal. unfold sigdelset, andnot. rewrite <- Z.ldiff_land. apply Z.bits_inj'. intros i Hi.
      rewrite Z.ldiff_spec, sigmask_bit by lia. rewrite Z.clearbit_eqb. f_equal. f_equal.
      destruct (Z.eqb_spec (r - 1) i); [by rewrite bool_decide_true|by rewrite bool_decide_false by lia].
Qed.

(** ** SIGCONT to a group *)

Section group.
Context {FA : Type} `{!FrameAllocator FA}.
Implicit Types k : kst FA.

Lemma send_cont_stuck k p x si : procs (k_sched k) !! p = Some x → p ≠ 0 → p_signals x = Some si →
  sched_lock (k_sched k) = true → signal_send p SIGCONT k = Stuck.
Proof using Type*.
  intros Hx Hp Hsi Hlock. unfold signal_send. rewrite (proj2 (Z.eqb_neq p 0)) by done. cbn [orb Z.ltb Z.compare SIGCONT].
  change ((SIGCONT <? 1) || (NSIG <? SIGCONT)) with false. cbv iota. mstep (proc_of_Done _ _ _ Hx). rewrite Hsi.
  change (SIGCONT =? SIGCONT) with true. cbv iota. unfold mod_signals.
  set (x1 := set_p_signals ((λ s, set_sig_pending (andnot (sig_pending s) SIG_STOP_MASK) s) <$> p_signals x) x).
  assert (H1 : procs (k_sched (put_proc p x1 k)) !! p = Some x1) by (simpl; apply lookup_insert_eq).
  unfold bind at 1. unfold bind at 1. rewrite (upd_proc_Done _ _ _ _ Hx). fold x1.
  unfold bind at 1. rewrite (upd_proc_Done _ _ _ _ H1). unfold wake_process, bind, gets, on_sched, zoom.
  unfold task_wake_up_process. rewrite (proj2 (Z.eqb_neq p 0)) by done. unfold bind, sched_acquire, spin_acquire.
  simpl. by rewrite Hlock.
Qed.

(** Process [p] of the group would take the signal. *)
Definition member k (pgid p : Z) : Prop :=
  ∃ x si, procs (k_sched k) !! p = Some x ∧ p_pgid x = pgid ∧ p_signals x = Some si.

Lemma send_none k p x sig : procs (k_sched k) !! p = Some x → p_signals x = None → signal_send p sig k = Done (-1, k).
Proof using Type*.
  intros Hx Hn. unfold signal_send. destruct (_ || _); [done|]. mstep (proc_of_Done _ _ _ Hx). by rewrite Hn.
Qed.

Lemma group_chain_cont k pgid l : sched_lock (k_sched k) = true → ∀ fuel h count,
  slist (hlink (k_sched k)) h l → (∀ p, p ∈ l → is_Some (procs (k_sched k) !! p)) → (length l < fuel)%nat →
  ((∃ p, p ∈ l ∧ member k pgid p) ∧ group_chain fuel pgid SIGCONT h count k = Stuck) ∨
  ((∀ p, p ∈ l → ¬ member k pgid p) ∧ group_chain fuel pgid SIGCONT h count k = Done (count, k)).
Proof using Type*.
  intros Hlock. induction l as [|p l IH]; intros fuel h count Hl Hin Hf;
    (destruct fuel as [|fuel]; [simpl in Hf; lia|]); cbn [group_chain].
  - rewrite (sl_head _ _ _ Hl). right. split; [|done]. intros p Hp. by apply not_elem_of_nil in Hp.
  - destruct (slist_tail _ _ _ _ Hl) as (Hl' & <- & _ & Hp0). rewrite (proj2 (Z.eqb_neq p 0)) by done.
    destruct (Hin p ltac:(by left)) as [x Hx]. mstep (proc_of_Done _ _ _ Hx).
    assert (Hnx : hlink (k_sched k) p = p_hash_next x) by (unfold hlink; by rewrite Hx).
    assert (Hrest : ∀ c, ((∃ p, p ∈ l ∧ member k pgid p) ∧ group_chain fuel pgid SIGCONT (p_hash_next x) c k = Stuck) ∨
      ((∀ p, p ∈ l → ¬ member k pgid p) ∧ group_chain fuel pgid SIGCONT (p_hash_next x) c k = Done (c, k))).
    { intros c. rewrite <- Hnx. apply IH; [done|intros q Hq; apply Hin; by right|simpl in Hf; lia]. }
    assert (Hskip : ¬ member k pgid p → ∀ body : M (kst FA) Z, body k = Done (count, k) →
      ((∃ p0, p0 ∈ p :: l ∧ member k pgid p0) ∧
        (count <- body;; x <- proc_of p;; group_chain fuel pgid SIGCONT (p_hash_next x) count) k = Stuck) ∨
      ((∀ p0, p0 ∈ p :: l → ¬ member k pgid p0) ∧
        (count <- body;; x <- proc_of p;; group_chain fuel pgid SIGCONT (p_hash_next x) count) k = Done (count, k))).
    { intros Hnm body Hbody. mstep Hbody. mstep (proc_of_Done _ _ _ Hx).
      destruct (Hrest count) as [[(q & Hq & Hm) Hrun]|[Hno Hrun]]; [left|right]; (split; [|exact Hrun]).
      - exists q. by split; [right|].
      - intros q [->|Hq]%elem_of_cons; [done|by apply Hno]. }
    destruct (Z.eqb_spec (p_pgid x) pgid) as [Hg|Hg].
    + destruct (p_signals x) as [si|] eqn:Hsi.
      * left. split; [exists p; split; [by left|by exists x, si]|].
        unfold bind at 1. unfold bind at 1. by rewrite (send_cont_stuck k p x si Hx Hp0 Hsi Hlock).
      * apply Hskip; [intros (y & si & Hy & _ & Hs); congruence|].
        by mstep (send_none k p x SIGCONT Hx Hsi).
    + apply Hskip; [intros (y & si & Hy & Hg' & _); congruence|done].
Qed.

(** The fuel of a walk along a bucket is enough. *)
Lemma bucket_fuel k H i : hash_ok (k_sched k) H → 0 <= i < PID_HASH_SIZE → (length (H i) < proc_fuel k)%nat.
Proof using Type.
  intros Hh Hi. unfold proc_fuel. destruct (ho_chain _ _ Hh i Hi) as (h & _ & Hl).
  rewrite <- (size_dom (procs (k_sched k))), <- (size_list_to_set (C := gset Z) (H i) (sl_nodup _ _ _ Hl)).
  apply Nat.lt_succ_r, subseteq_size. intros q Hq%elem_of_list_to_set. apply elem_of_dom.
  destruct (ho_pid _ _ Hh i q Hi Hq) as (y & Hy & _). eauto.
Qed.

Lemma group_buckets_cont k pgid H n : hash_ok (k_sched k) H → sched_lock (k_sched k) = true →
  ∀ i count, 0 <= i → i + Z.of_nat n <= PID_HASH_SIZE →
  (∃ j p, i <= j < i + Z.of_nat n ∧ p ∈ H j ∧ member k pgid p) → group_buckets n pgid SIGCONT i count k = Stuck.
Proof using Type*.
  intros Hh Hlock. induction n as [|n IH]; intros i count Hi Hn (j & p & Hj & Hp & Hm); [lia|]. cbn [group_buckets].
  destruct (ho_chain _ _ Hh i) as (h & Hz & Hl); [lia|].
  assert (Hget : on_sched (get_hash i) k = Done (h, k)).
  { unfold on_sched, zoom, get_hash. rewrite Hz. simpl. by destruct k. }
  mstep Hget. unfold bind at 1, gets at 1.
  destruct (group_chain_cont k pgid (H i) Hlock (proc_fuel k) h count Hl) as [[_ Hrun]|[Hno Hrun]];
    [| |unfold bind; by rewrite Hrun|].
  - intros q Hq. destruct (ho_pid _ _ Hh i q) as (y & Hy & _); [lia|done|eauto].
  - apply bucket_fuel; [done|lia].
  - mstep Hrun. apply IH; [lia|lia|]. exists j, p. split; [|done].
    destruct (decide (j = i)) as [->|]; [by apply Hno in Hm|lia].
Qed.
End group.

(** [signal_send_group] with [SIGCONT] never returns when the group has a
    process: it holds [sched_lock] while [signal_send] wakes the process, and
    [task_wake_up_process] acquires the same lock. *)
Theorem signal_group_cont_deadlocks {FA} `{!FrameAllocator FA} (k : kst FA) H pgid i p :
  hash_ok (k_sched k) H → sched_lock (k_sched k) = false →
  0 <= i < PID_HASH_SIZE → p ∈ H i → member k pgid p → signal_send_group pgid SIGCONT k = Stuck.
Proof.
  intros Hh Hlock Hi Hp Hm. unfold signal_send_group. change ((SIGCONT <? 0) || (NSIG <? SIGCONT)) with false. cbv iota.
  unfold bind at 1, on_sched, zoom at 1, sched_acquire, spin_acquire. rewrite Hlock.
  set (k1 := set_k_sched (set_sched_lock true (k_sched k)) k). unfold bind at 1.
  rewrite (group_buckets_cont k1 pgid H (Z.to_nat PID_HASH_SIZE)); [done| |done|lia|lia|].
  - destruct Hh as [H1 H2 H3]. by split.
  - exists i, p. by split; [lia|split].
Qed.

(** ** The frame comes back *)

Lemma in_page_mod va : in_page va = va mod 4096.
Proof. apply (land_ones_mod va 12). done. Qed.
Lemma in_page_step va i : 0 <= i < PAGE_SIZE - in_page va → in_page (va + i) = in_page va + i ∧ page_down (va + i) = page_down va.
Proof.
  rewrite !in_page_mod, !page_down_mod. unfold PAGE_SIZE. intros Hi.
  assert ((va + i) mod 4096 = va mod 4096 + i) as ->; [|lia].
  pose proof (Z.mod_pos_bound va 4096 eq_refl). rewrite Z.add_mod by done. rewrite (Z.mod_small i) by lia. apply Z.mod_small. lia.
Qed.

Section frame.
Context {FA : Type} `{!FrameAllocator FA}.
Implicit Types k : kst FA.

Lemma next_table_mapped (s : vmm FA) t i : has (rd64 (ram s) (slot t i)) PT_VALID = true →
  next_table_alloc t i s = Done (Some (P2V (entry_phys (rd64 (ram s) (slot t i)))), s).
Proof using Type. intros Hv. unfold next_table_alloc, bind, read64, gets. by rewrite Hv. Qed.
Lemma kpte_alloc_mapped k table va : vmm_get_pte_from_table (kram k) (P2V table) va ≠ 0 →
  kpte_alloc table va k = Done (vmm_get_pte_from_table (kram k) (P2V table) va, k).
Proof using Type*.
  unfold vmm_get_pte_from_table. intros H. destruct (P2V table =? 0) eqn:Ht; [done|]. cbv zeta in *.
  destruct (has (rd64 (kram k) (slot (P2V table) (l1_idx va))) PT_VALID) eqn:H1; [|done]. cbn [negb] in *.
  destruct (has (rd64 (kram k) (slot (P2V (entry_phys (rd64 (kram k) (slot (P2V table) (l1_idx va))))) (l2_idx va)))
    PT_VALID) eqn:H2; [|done]. cbn [negb] in *.
  unfold kpte_alloc, on_vm, on_pt, zoom, vmm_get_pte_from_table_alloc. rewrite Ht.
  mstep (next_table_mapped (pt (k_vm k)) _ _ H1). mstep (next_table_mapped (pt (k_vm k)) _ _ H2).
  destruct k as [? [] ? ? ? ? ? ? ?]. done.
Qed.

(** The frame's bytes are mapped: their physical addresses are [f]. *)
Context (k : kst FA) (table sp : Z) (f : Z → Z).
Context (Hur : user_range (kram k) table sp SIZEOF_SIGFRAME SIZEOF_SIGFRAME f).
Context (Hsp : 0 <= sp ∧ sp + SIZEOF_SIGFRAME <= 2 ^ 64).

Lemma pte_at m val b i : wrote val f b (kram k) m → b <= SIZEOF_SIGFRAME → 0 <= i < SIZEOF_SIGFRAME →
  let pte := vmm_get_pte_from_table m (P2V table) (sp + i) in
  pte ≠ 0 ∧ has (rd64 m pte) PT_VALID = true ∧ f i = entry_phys (rd64 m pte) + in_page (sp + i).
Proof using Hur Hsp.
  intros Hw Hb Hi. apply user_phys_inv; [lia|].
  pose proof (user_phys_wrote _ _ _ _ _ _ _ _ _ i Hur Hw Hb Hi) as He. rewrite (ur_phys _ _ _ _ _ _ Hur) in He by done.
  unfold u64 in He. by rewrite Z.mod_small in He by lia.
Qed.
Lemma pte_same_page m i : 0 <= i < PAGE_SIZE - in_page sp →
  vmm_get_pte_from_table m (P2V table) (sp + i) = vmm_get_pte_from_table m (P2V table) sp.
Proof using Hsp.
  intros Hi. rewrite <- (get_pte_page_down _ _ (sp + i)), <- (get_pte_page_down _ _ sp) by lia.
  by rewrite (proj2 (in_page_step sp i Hi)).
Qed.
(** The physical addresses are consecutive within a page. *)
Lemma frame_first i : 0 <= i < PAGE_SIZE - in_page sp → i < SIZEOF_SIGFRAME → f i = f 0 + i.
Proof using Hur Hsp.
  intros Hi Hs. destruct (pte_at (kram k) (λ _, 0) 0 i (wrote_0 _ _ _)) as (_ & _ & ->); [done|lia|].
  destruct (pte_at (kram k) (λ _, 0) 0 0 (wrote_0 _ _ _)) as (_ & _ & ->); [done|unfold SIZEOF_SIGFRAME in *; lia|].
  rewrite Z.add_0_r, pte_same_page by done. rewrite (proj1 (in_page_step sp i Hi)). lia.
Qed.
Definition first_bytes : Z := PAGE_SIZE - in_page sp.
Lemma in_page_range : 0 <= in_page sp < PAGE_SIZE.
Proof using Type. rewrite in_page_mod. by apply Z.mod_pos_bound. Qed.
Lemma second_page : u64 (page_down sp + PAGE_SIZE) = sp + first_bytes ∨ 2 ^ 64 <= sp + first_bytes.
Proof using Hsp.
  destruct (decide (sp + first_bytes < 2 ^ 64)) as [Hlt|]; [left|right; lia].
  assert (page_down sp + PAGE_SIZE = sp + first_bytes) as ->.
  { unfold first_bytes. rewrite page_down_mod, in_page_mod. lia. }
  pose proof in_page_range. unfold u64, first_bytes in *. apply Z.mod_small. lia.
Qed.
Lemma frame_second i : first_bytes <= i < SIZEOF_SIGFRAME → f i = f first_bytes + (i - first_bytes).
Proof using Hur Hsp.
  intros Hi. pose proof in_page_range as Hip.
  assert (Hpage : in_page (sp + first_bytes) = 0).
  { rewrite in_page_mod. unfold first_bytes. rewrite in_page_mod. pose proof (Z.div_mod sp 4096 ltac:(done)).
    replace (sp + (PAGE_SIZE - sp mod 4096)) with ((sp / 4096 + 1) * 4096) by (unfold PAGE_SIZE; lia). by apply Z.mod_mul. }
  assert (Hd : 0 <= i - first_bytes < PAGE_SIZE - in_page (sp + first_bytes)).
  { rewrite Hpage. unfold first_bytes, SIZEOF_SIGFRAME, PAGE_SIZE in *. lia. }
  assert (0 <= first_bytes) by (unfold first_bytes; lia).
  destruct (pte_at (kram k) (λ _, 0) 0 i (wrote_0 _ _ _)) as (_ & _ & ->); [done|lia|].
  destruct (pte_at (kram k) (λ _, 0) 0 first_bytes (wrote_0 _ _ _)) as (_ & _ & ->); [done|lia|].
  replace (sp + i) with (sp + first_bytes + (i - first_bytes)) by lia.
  destruct (in_page_step _ _ Hd) as [-> Hpd].
  rewrite <- (get_pte_page_down _ _ (sp + first_bytes + (i - first_bytes))), Hpd, get_pte_page_down by lia. lia.
Qed.

(** A walk to a mapped page, as [write_frame] and [read_frame] make it. *)
Definition walks (next : Z → M (kst FA) Z) : Prop := ∀ m va, vmm_get_pte_from_table m (P2V table) va ≠ 0 →
  next va (set_kram m k) = Done (vmm_get_pte_from_table m (P2V table) va, set_kram m k).

Lemma kread64_run m p : kread64 p (set_kram m k) = Done (rd64 m p, set_kram m k).
Proof using Type. done. Qed.
Lemma kput_run m p l : kput_bytes p l (set_kram m k) = Done (tt, set_kram (put_bytes m (V2P p) l) k).
Proof using Type. done. Qed.
Lemma kget_run m p n : kget_bytes p n (set_kram m k) = Done (bytes_at m (V2P p) (Z.to_nat n), set_kram m k).
Proof using Type. done. Qed.

Lemma f_small i : 0 <= i < SIZEOF_SIGFRAME → V2P (P2V (f i)) = f i.
Proof using Hur. intros Hi. apply V2P_P2V, (ur_small _ _ _ _ _ _ Hur). done. Qed.

(** The second page, when the frame crosses into it. *)
Lemma next_page next m val b : walks next → wrote val f b (kram k) m → b <= SIZEOF_SIGFRAME → first_bytes < SIZEOF_SIGFRAME →
  ∃ pte, next (u64 (page_down sp + PAGE_SIZE)) (set_kram m k) = Done (pte, set_kram m k) ∧ pte ≠ 0 ∧
    has (rd64 m pte) PT_VALID = true ∧ entry_phys (rd64 m pte) = f first_bytes.
Proof using Hur Hsp.
  intros Hw Hm Hb Hlt. pose proof (in_page_range) as Hip. unfold first_bytes in *.
  destruct (pte_at m val b (PAGE_SIZE - in_page sp) Hm Hb) as (H0 & Hv & Hf); [lia|].
  destruct (second_page) as [Hs|Hs]; unfold first_bytes in Hs; [|lia].
  eexists. split; [rewrite Hs; by apply Hw|]. split; [done|]. split; [done|]. rewrite Hf.
  assert (in_page (sp + (PAGE_SIZE - in_page sp)) = 0) as ->; [|lia].
  rewrite !in_page_mod. pose proof (Z.div_mod sp 4096 ltac:(done)).
  replace (sp + (PAGE_SIZE - sp mod 4096)) with ((sp / 4096 + 1) * 4096) by (unfold PAGE_SIZE; lia). by apply Z.mod_mul.
Qed.

Lemma write_frame_ok next l : walks next → Z.of_nat (length l) = SIZEOF_SIGFRAME →
  ∃ m, write_frame (vmm_get_pte_from_table (kram k) (P2V table) sp) sp next l (set_kram (kram k) k) =
      Done (true, set_kram m k) ∧ wrote (λ i, nth (Z.to_nat i) l 0) f SIZEOF_SIGFRAME (kram k) m.
Proof using Hur Hsp.
  intros Hw Hlen. pose proof (in_page_range) as Hip. unfold write_frame. mstep (kread64_run (kram k) (vmm_get_pte_from_table (kram k) (P2V table) sp)).
  destruct (pte_at (kram k) (λ _, 0) 0 0 (wrote_0 _ _ _)) as (_ & _ & Hf0); [done|done|].
  rewrite Z.add_0_r in Hf0. rewrite <- Hf0. cbv zeta. fold first_bytes.
  assert (Hinj : ∀ i j, 0 <= i < SIZEOF_SIGFRAME → 0 <= j < SIZEOF_SIGFRAME → f i = f j → i = j).
  { apply (ur_inj _ _ _ _ _ _ Hur). }
  assert (H0 : 0 <= 0 < SIZEOF_SIGFRAME) by done.
  destruct (Z.leb_spec SIZEOF_SIGFRAME first_bytes) as [Hle|Hlt].
  - mstep (kput_run (kram k) (P2V (f 0)) l). rewrite f_small by done. eexists. split; [reflexivity|].
    rewrite <- Hlen. apply (put_bytes_wrote (λ i, nth (Z.to_nat i) l 0) f (kram k) l 0); [apply wrote_0|done| |done|].
    + intros i Hi. rewrite Z.add_0_l. apply (frame_first); unfold first_bytes in *; lia.
    + rewrite Hlen. done.
  - set (n1 := first_bytes) in *. assert (Hn1 : 0 < n1) by (unfold n1, first_bytes; lia).
    set (l1 := take (Z.to_nat n1) l). set (l2 := drop (Z.to_nat n1) l).
    assert (Hl1 : Z.of_nat (length l1) = n1) by (unfold l1; rewrite length_take; lia).
    assert (Hl2 : Z.of_nat (length l2) = SIZEOF_SIGFRAME - n1) by (unfold l2; rewrite length_drop; lia).
    mstep (kput_run (kram k) (P2V (f 0)) l1). rewrite f_small by done. set (m1 := put_bytes _ _ l1).
    assert (Hm1 : wrote (λ i, nth (Z.to_nat i) l 0) f n1 (kram k) m1).
    { rewrite <- Hl1. apply (put_bytes_wrote (λ i, nth (Z.to_nat i) l 0) f (kram k) l1 0); [apply wrote_0|done| | |].
      + intros i Hi. rewrite Z.add_0_l. apply (frame_first); fold first_bytes; fold n1; lia.
      + intros i Hi. unfold l1. rewrite Z.add_0_l. rewrite <- (take_drop (Z.to_nat n1) l) at 1. apply app_nth1. fold l1. lia.
      + intros i j Hi Hj. apply Hinj; lia. }
    destruct (next_page next m1 _ n1 Hw Hm1) as (pte & Hrun & Hp0 & Hv & Hph); [lia|done|].
    mstep Hrun. rewrite (proj2 (Z.eqb_neq pte 0)) by done. mstep (kread64_run m1 pte). rewrite Hv. cbn [negb].
    mstep (kput_run m1 (P2V (entry_phys (rd64 m1 pte))) l2). rewrite Hph. fold n1. rewrite f_small by lia.
    eexists. split; [reflexivity|]. replace SIZEOF_SIGFRAME with (n1 + Z.of_nat (length l2)) by lia.
    apply (put_bytes_wrote (λ i, nth (Z.to_nat i) l 0) f (kram k) l2 n1); [exact Hm1|lia| | |].
    + intros i Hi. rewrite (frame_second (n1 + i)) by (fold n1; lia). fold n1. lia.
    + intros i Hi. unfold l2. rewrite <- (take_drop (Z.to_nat n1) l) at 1. rewrite app_nth2 by (fold l1; lia).
      f_equal. fold l1. lia.
    + intros i j Hi Hj. apply Hinj; lia.
Qed.

Lemma read_frame_ok next m val l : walks next → wrote val f SIZEOF_SIGFRAME (kram k) m →
  Z.of_nat (length l) = SIZEOF_SIGFRAME → (∀ i, 0 <= i < SIZEOF_SIGFRAME → m (f i) = nth (Z.to_nat i) l 0) →
  read_frame (vmm_get_pte_from_table m (P2V table) sp) sp next (set_kram m k) = Done (Some l, set_kram m k).
Proof using Hur Hsp.
  intros Hw Hm Hlen Hl. pose proof (in_page_range) as Hip. unfold read_frame. mstep (kread64_run m (vmm_get_pte_from_table m (P2V table) sp)).
  destruct (pte_at m val SIZEOF_SIGFRAME 0 Hm) as (_ & _ & Hf0); [lia|done|].
  rewrite Z.add_0_r in Hf0. rewrite <- Hf0. cbv zeta. fold first_bytes.
  assert (H0 : 0 <= 0 < SIZEOF_SIGFRAME) by done.
  assert (Hpiece : ∀ a n n0, (n0 + n <= length l)%nat → (∀ i, (i < n)%nat → m (a + Z.of_nat i) = nth (n0 + i) l 0) →
    bytes_at m a n = take n (drop n0 l)).
  { intros a n n0 Hn He. apply list_eq. intros i. destruct (decide (i < n)%nat).
    - rewrite bytes_at_lookup, lookup_take_lt, lookup_drop, He by done.
      rewrite nth_lookup. destruct (lookup_lt_is_Some_2 l (n0 + i) ltac:(lia)) as [b ->]. done.
    - rewrite !lookup_ge_None_2; [done|rewrite length_take; lia|rewrite bytes_at_length; lia]. }
  destruct (Z.leb_spec SIZEOF_SIGFRAME first_bytes) as [Hle|Hlt].
  - mstep (kget_run m (P2V (f 0)) SIZEOF_SIGFRAME). rewrite f_small by done. unfold ret. do 3 f_equal.
    rewrite (Hpiece _ _ 0%nat); [rewrite drop_0; apply take_ge; lia|lia|].
    intros i Hi. rewrite <- (frame_first) by (unfold first_bytes in *; lia).
    rewrite Hl by lia. by rewrite Nat2Z.id.
  - set (n1 := first_bytes) in *. assert (Hn1 : 0 < n1) by (unfold n1, first_bytes; lia).
    mstep (kget_run m (P2V (f 0)) n1). rewrite f_small by done.
    destruct (next_page next m val _ Hw Hm) as (pte & Hrun & Hp0 & Hv & Hph); [lia|done|].
    mstep Hrun. rewrite (proj2 (Z.eqb_neq pte 0)) by done. mstep (kread64_run m pte). rewrite Hv. cbn [negb].
    mstep (kget_run m (P2V (entry_phys (rd64 m pte))) (SIZEOF_SIGFRAME - n1)). rewrite Hph. fold n1. rewrite f_small by lia.
    unfold ret. do 3 f_equal. rewrite (Hpiece (f 0) _ 0%nat); [|lia|].
    + rewrite (Hpiece (f n1) _ (Z.to_nat n1)); [|lia|].
      * rewrite drop_0, (take_ge (drop _ l)) by (rewrite length_drop; lia). apply take_drop.
      * intros i Hi. replace (f n1 + Z.of_nat i) with (f (n1 + Z.of_nat i)).
        -- rewrite Hl by lia. f_equal. lia.
        -- rewrite (frame_second (n1 + Z.of_nat i)) by (fold n1; lia). fold n1. lia.
    + intros i Hi. rewrite <- (frame_first) by (fold first_bytes; fold n1; lia).
      rewrite Hl by lia. by rewrite Nat2Z.id.
Qed.
End frame.

(** The structure and its bytes. *)
Definition is_word (w : Z) : Prop := 0 <= w < 2 ^ 64.
Definition words_bytes (ws : list Z) : list Z := concat (map (le_bytes 8) ws).

Lemma words_bytes_length ws : length (words_bytes ws) = (8 * length ws)%nat.
Proof. induction ws as [|w ws IH]; [done|]. unfold words_bytes in *. cbn [map concat]. rewrite length_app, le_bytes_length, IH. simpl. lia. Qed.
Lemma word_at_bytes ws rest : ∀ i, (i < length ws)%nat → Forall is_word ws → word_at (words_bytes ws ++ rest) i = nth i ws 0.
Proof.
  induction ws as [|w ws IH]; intros i Hi Hw; [simpl in Hi; lia|]. apply Forall_cons in Hw as [Hw Hws].
  unfold words_bytes. cbn [map concat]. rewrite <- app_assoc. destruct i as [|i].
  - unfold word_at. rewrite Nat.mul_0_r, drop_0, take_app_length' by (by rewrite le_bytes_length). rewrite of_le_bytes.
    apply Z.mod_small. exact Hw.
  - unfold word_at. replace (8 * S i)%nat with (length (le_bytes 8 w) + 8 * i)%nat by (rewrite le_bytes_length; lia).
    rewrite drop_app_add. apply (IH i); [simpl in Hi; lia|done].
Qed.
Lemma map_nth_seq (l : list Z) n : (n <= length l)%nat → map (λ i, nth i l 0) (seq 0 n) = take n l.
Proof.
  intros Hn. apply list_eq. intros i. destruct (decide (i < n)%nat) as [Hi|Hi].
  - rewrite list_lookup_fmap, lookup_seq_lt, lookup_take_lt by done. simpl. rewrite nth_lookup.
    by destruct (lookup_lt_is_Some_2 l i ltac:(lia)) as [b ->].
  - rewrite !lookup_ge_None_2; [done|rewrite length_take; lia|rewrite length_map, length_seq; lia].
Qed.

Record frame_ok (f : sigframe) : Prop := mk_frame_ok {
  fk_x : length (fr_x f) = 31%nat;
  fk_words : Forall is_word (fr_x f) ∧ is_word (fr_sp f) ∧ is_word (fr_pc f) ∧ is_word (fr_pstate f);
  fk_mask : 0 <= fr_old_mask f < 2 ^ 32;
  fk_code : length (fr_retcode f) = 2%nat;
}.
Lemma sigframe_bytes_length f : frame_ok f → Z.of_nat (length (sigframe_bytes f)) = SIZEOF_SIGFRAME.
Proof.
  intros [Hx _ _ Hc]. unfold sigframe_bytes. fold (words_bytes (fr_x f ++ [fr_sp f; fr_pc f; fr_pstate f])) (words_bytes (fr_retcode f)).
  rewrite !length_app, !words_bytes_length, !length_app, !le_bytes_length, Hx, Hc. done.
Qed.
Lemma sigframe_decode f : frame_ok f →
  let g := sigframe_of_bytes (sigframe_bytes f) in
  fr_x g = fr_x f ∧ fr_sp g = fr_sp f ∧ fr_pc g = fr_pc f ∧ fr_pstate g = fr_pstate f ∧ fr_old_mask g = fr_old_mask f.
Proof.
  intros [Hx (Hw1 & Hw2 & Hw3 & Hw4) Hm Hc]. unfold sigframe_of_bytes, sigframe_bytes. cbv zeta. cbn [fr_x fr_sp fr_pc fr_pstate fr_old_mask].
  set (ws := fr_x f ++ [fr_sp f; fr_pc f; fr_pstate f]). fold (words_bytes ws).
  set (rest := le_bytes 4 (fr_old_mask f) ++ _).
  assert (Hlen : length ws = 34%nat) by (unfold ws; rewrite length_app, Hx; done).
  assert (Hws : Forall is_word ws) by (unfold ws; rewrite Forall_app, !Forall_cons; by split_and!).
  rewrite !word_at_bytes by (done || lia).
  assert (Hn : ∀ j d, nth (31 + j) ws d = nth j [fr_sp f; fr_pc f; fr_pstate f] d).
  { intros j d. unfold ws. rewrite app_nth2 by lia. f_equal. lia. }
  split; [|split; [apply (Hn 0%nat)|split; [apply (Hn 1%nat)|split; [apply (Hn 2%nat)|]]]].
  - transitivity (map (λ i, nth i ws 0) (seq 0 31)).
    + apply map_ext_in. intros i [_ Hi]%in_seq. apply word_at_bytes; [lia|done].
    + rewrite map_nth_seq by lia. unfold ws. by rewrite take_app_length' by done.
  - replace 272%nat with (length (words_bytes ws)) by (by rewrite words_bytes_length, Hlen). rewrite drop_app_length.
    unfold rest. rewrite take_app_length' by (by rewrite le_bytes_length). rewrite of_le_bytes. by apply Z.mod_small.
Qed.

Lemma frame_sp_range tf : 0 <= frame_sp tf.
Proof.
  unfold frame_sp. pose proof (Z.mod_pos_bound (tf_sp_el0 tf - SIZEOF_SIGFRAME) (2 ^ 64) eq_refl) as H.
  change 15 with (2 ^ 4 - 1). rewrite andnot_ones by done. unfold u64.
  pose proof (Z.mod_le ((tf_sp_el0 tf - SIZEOF_SIGFRAME) mod 2 ^ 64) (2 ^ 4)). lia.
Qed.

Section roundtrip.
Context {FA : Type} `{!FrameAllocator FA}.
Implicit Types k : kst FA.

Lemma mod_signals_Done k p x f : procs (k_sched k) !! p = Some x →
  mod_signals p f k = Done (tt, put_proc p (set_p_signals (f <$> p_signals x) x) k).
Proof using Type. intros Hx. exact (upd_proc_Done k p x (λ x, set_p_signals (f <$> p_signals x) x) Hx). Qed.
Lemma put_put k p x y : put_proc p y (put_proc p x k) = put_proc p y k.
Proof using Type. unfold put_proc, set_k_sched, set_procs. simpl. by rewrite insert_insert_eq. Qed.

(** The mask while the handler runs. *)
Definition handler_mask (act : sigaction) (sig : Z) (si : signal_struct) : Z :=
  let b := Z.lor (sig_blocked si) (sa_mask act) in if has (sa_flags act) SA_NODEFER then b else sigaddset b sig.

Lemma put_signals_runs k p x mm si : runs_mm k p x mm →
  runs_mm (put_proc p (set_p_signals (Some si) x) k) p (set_p_signals (Some si) x) mm.
Proof using Type. intros (Hr & H0 & Hm). split; [by eapply runs_put|done]. Qed.

Lemma setup_tail k p x si act sig tf sp : procs (k_sched k) !! p = Some x → p_signals x = Some si →
  ∃ si1, (mod_signals p (λ s, set_sig_blocked (Z.lor (sig_blocked s) (sa_mask act)) s);;;
     (if has (sa_flags act) SA_NODEFER then ret tt
      else mod_signals p (λ s, set_sig_blocked (sigaddset (sig_blocked s) sig) s));;;
     (if has (sa_flags act) SA_RESETHAND then
        mod_signals p (λ s, set_sig_actions (<[Z.to_nat (sig - 1) :=
          mk_sigaction SIG_DFL (sa_mask act) (sa_flags act)]> (sig_actions s)) s)
      else ret tt);;;
     ret (0, handler_tf tf sig sp act)) k = Done ((0, handler_tf tf sig sp act), put_proc p (set_p_signals (Some si1) x) k) ∧
    sig_blocked si1 = handler_mask act sig si ∧ sig_pending si1 = sig_pending si.
Proof using Type*.
  intros Hx Hsi.
  assert (Hmod : ∀ y sj k', procs (k_sched k') !! p = Some y → p_signals y = Some sj → set_p_signals None y = set_p_signals None x →
    ∀ f, mod_signals p f k' = Done (tt, put_proc p (set_p_signals (Some (f sj)) x) k')).
  { intros y sj k' Hy Hsj Heq f. rewrite (mod_signals_Done k' p y f Hy), Hsj. cbn [fmap option_fmap option_map].
    assert (set_p_signals (Some (f sj)) y = set_p_signals (Some (f sj)) x) as ->; [|done].
    change (set_p_signals (Some (f sj)) (set_p_signals None y) = set_p_signals (Some (f sj)) x). by rewrite Heq. }
  assert (Hlook : ∀ y k', procs (k_sched (put_proc p y k')) !! p = Some y) by (intros; apply lookup_insert_eq).
  mstep (Hmod x si k Hx Hsi eq_refl (λ s, set_sig_blocked (Z.lor (sig_blocked s) (sa_mask act)) s)).
  set (s1 := set_sig_blocked (Z.lor (sig_blocked si) (sa_mask act)) si). unfold handler_mask.
  destruct (has (sa_flags act) SA_NODEFER).
  - mret. destruct (has (sa_flags act) SA_RESETHAND).
    + mstep (Hmod (set_p_signals (Some s1) x) s1 _ (Hlook _ k) eq_refl eq_refl (λ s, set_sig_actions (<[Z.to_nat (sig - 1) :=
          mk_sigaction SIG_DFL (sa_mask act) (sa_flags act)]> (sig_actions s)) s)). rewrite put_put. eexists. by split_and!.
    + mret. eexists. by split_and!.
  - mstep (Hmod (set_p_signals (Some s1) x) s1 _ (Hlook _ k) eq_refl eq_refl (λ s, set_sig_blocked (sigaddset (sig_blocked s) sig) s)). rewrite put_put.
    set (s2 := set_sig_blocked (sigaddset (sig_blocked s1) sig) s1). destruct (has (sa_flags act) SA_RESETHAND).
    + mstep (Hmod (set_p_signals (Some s2) x) s2 _ (Hlook _ k) eq_refl eq_refl (λ s, set_sig_actions (<[Z.to_nat (sig - 1) :=
          mk_sigaction SIG_DFL (sa_mask act) (sa_flags act)]> (sig_actions s)) s)). rewrite put_put. eexists. by split_and!.
    + mret. eexists. by split_and!.
Qed.
End roundtrip.

(** A trap frame of the machine: 32 words of registers. *)
Record tf_ok (tf : trapframe) : Prop := mk_tf_ok {
  tk_x : length (tf_x tf) = 32%nat;
  tk_words : Forall is_word (tf_x tf) ∧ is_word (tf_sp_el0 tf) ∧ is_word (tf_elr tf) ∧ is_word (tf_spsr tf);
}.
Lemma frame_of_tf_ok tf si sig : tf_ok tf → 0 <= sig_blocked si < 2 ^ 32 → frame_ok (frame_of_tf tf si sig).
Proof.
  intros [Hx (H1 & H2 & H3 & H4)] Hm. split; [simpl; rewrite length_take; lia| |done|done].
  split; [by apply Forall_take|done].
Qed.
Lemma restored_same tf sig sp act si sg g : tf_ok tf →
  (fr_x g = fr_x (frame_of_tf tf si sg) ∧ fr_sp g = tf_sp_el0 tf ∧ fr_pc g = tf_elr tf ∧ fr_pstate g = tf_spsr tf) →
  restored_tf (handler_tf tf sig sp act) g = tf.
Proof.
  intros [Hx _] (H1 & H2 & H3 & H4). unfold restored_tf, handler_tf. rewrite H1, H2, H3, H4. cbn [fr_x frame_of_tf tf_x].
  rewrite !drop_insert_lt by lia. rewrite take_drop. by destruct tf.
Qed.

(** What [setup_signal_frame] does on a mapped stack: the bytes of the frame are
    stored and only the signal state of the process changes. *)
Lemma setup_frame_ok {FA} `{!FrameAllocator FA} (k : kst FA) p x mm si tf sig act f :
  runs_mm k p x mm → p_signals x = Some si → tf_ok tf → 0 <= sig_blocked si < 2 ^ 32 →
  let sp := frame_sp tf in let l := sigframe_bytes (frame_of_tf tf si sig) in
  user_range (kram k) (page_table mm) sp SIZEOF_SIGFRAME SIZEOF_SIGFRAME f → sp + SIZEOF_SIGFRAME <= 2 ^ 64 →
  ∃ m si1, setup_signal_frame p tf sig act k = Done ((0, handler_tf tf sig sp act), put_proc p (set_p_signals (Some si1) x) (set_kram m k)) ∧
    wrote (λ i, nth (Z.to_nat i) l 0) f SIZEOF_SIGFRAME (kram k) m ∧
    sig_blocked si1 = handler_mask act sig si ∧ sig_pending si1 = sig_pending si.
Proof.
  intros Hr Hsi Htf Hmask sp l Hur Hsp. pose proof Hr as (Hrun & _ & _). pose proof (runs_proc _ _ _ Hrun) as Hx.
  pose proof (frame_sp_range tf) as Hsp0. fold sp in Hsp0. pose proof (frame_of_tf_ok tf si sig Htf Hmask) as Hfr.
  pose proof (sigframe_bytes_length _ Hfr) as Hlen. fold l in Hlen.
  destruct (write_frame_ok k (page_table mm) sp f Hur (conj Hsp0 Hsp) (kpte_alloc (page_table mm)) l) as (m & Hw & Hm); [|done|].
  { intros m va Hva. exact (kpte_alloc_mapped (set_kram m k) _ va Hva). }
  rewrite set_kram_id in Hw. set (k' := set_kram m k) in *.
  destruct (pte_at k (page_table mm) sp f Hur (conj Hsp0 Hsp) (kram k) (λ _, 0) 0 0 (wrote_0 _ _ _)) as (Hp0 & Hv & _);
    [done|done|]. rewrite Z.add_0_r in Hp0, Hv.
  destruct (setup_tail k' p x si act sig tf sp Hx Hsi) as (si1 & Htail & Hmask1 & Hpend).
  exists m, si1. split; [|done].
  unfold setup_signal_frame. rewrite (with_mm_runs _ _ _ _ _ _ Hr). fold sp.
  mstep (kpte_alloc_mapped k (page_table mm) sp Hp0). rewrite (proj2 (Z.eqb_neq _ 0) Hp0).
  assert (Hrd : ∀ q, kread64 q k = Done (rd64 (kram k) q, k)).
  { intros q. unfold kread64, on_vm, on_pt, zoom, read64, gets. by destruct k as [? [] ? ? ? ? ? ? ?]. }
  mstep (Hrd (vmm_get_pte_from_table (kram k) (P2V (page_table mm)) sp)). rewrite Hv. mret. cbn [negb].
  mstep (proc_of_Done _ _ _ Hx). rewrite Hsi. fold l. mstep Hw. exact Htail.
Qed.


(** ** Witnesses *)

Lemma signal_dequeue_lowest_witness :
  let r := (signal_dequeue (mk_signal_struct [] 0x4100 0x100)).1 in r = 0 ∨ 1 <= r <= 32.
Proof.
  destruct (signal_dequeue_lowest (mk_signal_struct [] 0x4100 0x100)) as [(H & _)|(H & _)]; [by split|by left|by right].
Defined.

Definition ex_signals : signal_struct := mk_signal_struct (replicate 32 (mk_sigaction 0x4000 0 0)) 0 0x10100.
Definition ex_sprocess : process := ex_process 1000 1000 1000 1000 [] (Some ex_signals).
Definition ex_sigkst : kst pmm := ex_kst ex_sprocess ∅ ∅ ex_vfs.

Lemma signal_group_cont_deadlocks_witness : signal_send_group 1 SIGCONT ex_sigkst = Stuck.
Proof.
  apply (signal_group_cont_deadlocks ex_sigkst (λ i, if decide (i = 1) then [11] else []) 1 1 11); try done.
  - split; [done| |].
    + intros i Hi. case_decide as H1.
      * subst i. exists 11. split; [by vm_compute|]. split; try done; by apply (bool_decide_unpack _).
      * exists 0. split; [|by split; try done; apply (bool_decide_unpack _)].
        change (pid_hash (k_sched ex_sigkst)) with (<[1%nat := 11]> (replicate 1024 0)).
        unfold zget. rewrite decide_True by lia. rewrite list_lookup_insert_ne by lia.
        apply lookup_replicate_2. unfold PID_HASH_SIZE in Hi. lia.
    + intros i p Hi Hp. case_decide; [|by apply not_elem_of_nil in Hp]. apply list_elem_of_singleton in Hp as ->. subst i.
      by exists ex_sprocess.
  - by left.
  - by exists ex_sprocess, ex_signals.
Defined.

Definition ex_tf : trapframe := mk_trapframe (replicate 32 7) 0x800 0x1000 0.
