(* ===== verification/Tty.v ===== *)
(** Terminals, [kernel/drivers/tty.c]: output with its escape sequences, the
    line discipline that turns the characters of a keyboard into lines, reading
    and writing, job control and [ioctl].

    The state is the kernel's, which holds the terminals, together with the state
    of the output devices, reached through the interface [Console].  A read or a
    write may have to wait: each pass of its loop is an operation, which tells
    whether the task has gone to sleep. *)
From S2P Require Export Signal.
Local Open Scope prog_scope.

Definition SIGINT : Z := 2.
Definition SIGQUIT : Z := 3.
Definition SIGWINCH : Z := 28.
Definition EPERM : Z := 1.
Definition EINTR : Z := 4.
Definition ENOTTY : Z := 25.
Definition BEL : Z := 7.
Definition BS : Z := 8.
Definition TAB : Z := 9.
Definition NL : Z := 10.
Definition CR : Z := 13.
Definition ESC : Z := 27.
Definition SPACE : Z := 32.
Definition CARET : Z := 94.

(** The devices behind the terminals: the [putc] of terminal [a], and the
    frame buffer's cursor, colours and [ramfb_clear]. *)
Class Console (D : Type) := {
  dev_putc : Z → Z → D → D;
  dev_get_cursor : D → Z * Z;
  dev_set_cursor : Z → Z → D → D;
  dev_clear : D → D;
  dev_set_fg : Z → D → D;
  dev_set_bg : Z → D → D;
}.

Definition is_ctrl_char (c : Z) : bool := (c <? 32) || (c =? 127).
Definition char_width (c : Z) (t : tty) : Z :=
  if c =? TAB then 8 - Z.rem (canon_column (tty_in t)) 8
  else if is_ctrl_char c then (if has (tty_lflag t) ECHOCTL then 2 else 0)
  else 1.
Definition input_available (i : tty_input) : Z := Z.rem (read_head i - read_tail i + BUF_SIZE) BUF_SIZE.
Definition read_buf_empty (i : tty_input) : bool := read_head i =? read_tail i.
Definition read_buf_full (i : tty_input) : bool := Z.rem (read_head i + 1) BUF_SIZE =? read_tail i.
(** [None] for an index outside the buffer. *)
Definition read_buf_put (i : tty_input) (c : Z) : option tty_input :=
  if read_buf_full i then Some i
  else
    l ← zset (read_buf i) (read_head i) c;
    Some (set_read_cnt (read_cnt i + 1) (set_read_head (Z.rem (read_head i + 1) BUF_SIZE) (set_read_buf l i))).
Definition read_buf_get (i : tty_input) : option (Z * tty_input) :=
  if read_buf_empty i then Some (0, i)
  else
    c ← zget (read_buf i) (read_tail i);
    Some (c, set_read_cnt (read_cnt i - 1) (set_read_tail (Z.rem (read_tail i + 1) BUF_SIZE) i)).

Definition ramfb_ansi_colors : list Z :=
  [0; 0xFF0000; 0xFF00; 0xFFFF00; 0xFF; 0xFF00FF; 0xFFFF; 0xFFFFFF].
Definition clamp (val min max : Z) : Z := if val <? min then min else if max <? val then max else val.
(** One parameter of a colour sequence. *)
Definition sgr_param (o : tty_output) (param : Z) : tty_output :=
  if param =? 0 then set_bg_color 0 (set_fg_color 7 o)
  else if param =? 1 then (if fg_color o <? 8 then set_fg_color (fg_color o + 8) o else o)
  else if (30 <=? param) && (param <=? 37) then set_fg_color (param - 30) o
  else if param =? 39 then set_fg_color 7 o
  else if (40 <=? param) && (param <=? 47) then set_bg_color (param - 40) o
  else if param =? 49 then set_bg_color 0 o
  else if (90 <=? param) && (param <=? 97) then set_fg_color (param - 90 + 8) o
  else if (100 <=? param) && (param <=? 107) then set_bg_color (param - 100 + 8) o
  else o.

(** The columns after a character that is shown. *)
Definition next_column (c column : Z) : Z :=
  if (c =? NL) || (c =? CR) then 0
  else if c =? TAB then Z.land (column + 8) (-8)
  else if c =? BS then (if 0 <? column then column - 1 else column)
  else if 32 <=? c then column + 1 else column.

Section tty.
Context {FA D : Type} `{!FrameAllocator FA} `{!Console D}.
(** The address of [tty_console]. *)
Context (tty_console : Z).

Definition tty_of (a : Z) : M (kst FA * D) tty := in_kst (get_tty a).
Definition upd_tty (a : Z) (f : tty → tty) : M (kst FA * D) unit := in_kst (mod_tty a f).
Definition upd_in (a : Z) (f : tty_input → tty_input) : M (kst FA * D) unit := upd_tty a (λ t, set_tty_in (f (tty_in t)) t).
Definition upd_out (a : Z) (f : tty_output → tty_output) : M (kst FA * D) unit := upd_tty a (λ t, set_tty_out (f (tty_out t)) t).
Definition device (f : D → D) : M (kst FA * D) unit := in_snd (modify f).
Definition wake (q : Z) : M (kst FA * D) unit := in_kst (on_sched (wake_up q)).
Definition tty_acquire (a : Z) : M (kst FA * D) unit :=
  t <- tty_of a;; if tty_lock t then (λ _, Stuck) else upd_tty a (set_tty_lock true).
Definition tty_release (a : Z) : M (kst FA * D) unit := upd_tty a (set_tty_lock false).

(** ** Output *)

Definition tty_update_color (o : tty_output) : M (kst FA * D) unit :=
  device (λ d,
    let d := if fg_color o <? 8 then dev_set_fg (nth (Z.to_nat (fg_color o)) ramfb_ansi_colors 0) d else d in
    if bg_color o <? 8 then dev_set_bg (nth (Z.to_nat (bg_color o)) ramfb_ansi_colors 0) d else d).
Definition handle_sgr (a : Z) : M (kst FA * D) unit :=
  t <- tty_of a;;
  let o := tty_out t in
  let o' := if csi_param_count o =? 0 then set_bg_color 0 (set_fg_color 7 o)
            else fold_left sgr_param (take (Z.to_nat (csi_param_count o)) (csi_params o)) o in
  upd_out a (λ _, o');;;
  tty_update_color o'.

(** [n] blanks. *)
Definition blanks (a n : Z) (d : D) : D := Nat.iter (Z.to_nat n) (dev_putc a SPACE) d.
(** The loops of the sequence [J]: from the cursor to the end of the screen,
    and from the start of the screen to the cursor. *)
Definition clear_below (a rows cols x y : Z) (d : D) : D :=
  fold_left (λ d l, let start := if l =? y then x else 0 in blanks a (cols - start) (dev_set_cursor start l d))
    (seqZ y (rows - y)) d.
Definition clear_above (a cols x y : Z) (d : D) : D :=
  fold_left (λ d l, let end_ := if l =? y then x else cols - 1 in blanks a (end_ + 1) (dev_set_cursor 0 l d))
    (seqZ 0 (y + 1)) d.
(** What command [c] draws, and where it leaves the cursor; [cols0] is
    [RAMFB_COLS]. *)
Definition csi_effect (a cols0 c p1 p2 p0 rows cols x y : Z) (d : D) : Z * Z * D :=
  if c =? 65 then (x, clamp (y - p1) 0 (rows - 1), d)
  else if c =? 66 then (x, clamp (y + p1) 0 (rows - 1), d)
  else if c =? 67 then (clamp (x + p1) 0 (cols - 1), y, d)
  else if c =? 68 then (clamp (x - p1) 0 (cols - 1), y, d)
  else if (c =? 72) || (c =? 102) then (clamp (p2 - 1) 0 (cols - 1), clamp (p1 - 1) 0 (rows - 1), d)
  else if c =? 74 then
    if p0 =? 2 then (0, 0, dev_clear d)
    else if p0 =? 0 then (x, y, dev_set_cursor x y (clear_below a rows cols x y d))
    else if p0 =? 1 then (x, y, dev_set_cursor x y (clear_above a cols x y d))
    else (x, y, d)
  else if c =? 75 then
    if p0 =? 2 then (x, y, dev_set_cursor x y (blanks tty_console cols0 (dev_set_cursor 0 y d)))
    else if p0 =? 0 then (x, y, dev_set_cursor x y (blanks a (cols - x) (dev_set_cursor x y d)))
    else if p0 =? 1 then (x, y, dev_set_cursor x y (blanks a (x + 1) (dev_set_cursor 0 y d)))
    else (x, y, d)
  else (x, y, d).
Context (RAMFB_COLS : Z).
Definition csi_param (o : tty_output) (i : nat) : Z :=
  if (Z.of_nat i <? csi_param_count o) && (0 <? nth i (csi_params o) 0) then nth i (csi_params o) 0 else 1.
Definition handle_csi_command (a c : Z) : M (kst FA * D) unit :=
  t <- tty_of a;;
  if c =? 109 then handle_sgr a
  else
    let o := tty_out t in
    let p0 := if csi_param_count o =? 0 then 0 else nth 0 (csi_params o) 0 in
    xy <- in_snd (gets dev_get_cursor);;
    d <- in_snd (gets id);;
    let '(x, y, d') := csi_effect a RAMFB_COLS c (csi_param o 0) (csi_param o 1) p0 (ws_row (tty_winsize t)) (ws_col (tty_winsize t)) xy.1 xy.2 d in
    device (λ _, dev_set_cursor x y d');;;
    upd_out a (set_o_column x).

(** The console's escape sequences: [true] when the character belongs to one. *)
Definition escape (a c : Z) : M (kst FA * D) bool :=
  if negb (a =? tty_console) then ret false
  else
    t <- tty_of a;;
    let o := tty_out t in
    match o_state o with
    | TTY_STATE_NORMAL => if c =? ESC then upd_out a (set_o_state TTY_STATE_ESC);;; ret true else ret false
    | TTY_STATE_ESC =>
        if c =? 91 then
          upd_out a (λ o, set_csi_params (<[0%nat := 0]> (csi_params o)) (set_csi_param_count 0 (set_o_state TTY_STATE_CSI o)));;;
          ret true
        else upd_out a (set_o_state TTY_STATE_NORMAL);;; ret false
    | TTY_STATE_CSI =>
        if (48 <=? c) && (c <=? 57) then
          let n := if csi_param_count o =? 0 then 1 else csi_param_count o in
          cur <- of_opt (zget (csi_params o) (n - 1));;
          upd_out a (λ o, set_csi_params (<[Z.to_nat (n - 1) := i32 (cur * 10 + (c - 48))]> (csi_params o)) (set_csi_param_count n o));;;
          ret true
        else if c =? 59 then
          let n := csi_param_count o in
          (if n <? MAX_CSI_PARAMS then
             upd_out a (λ o, set_csi_params (<[Z.to_nat n := 0]> (csi_params o)) (set_csi_param_count (n + 1) o))
           else ret tt);;;
          ret true
        else handle_csi_command a c;;; upd_out a (set_o_state TTY_STATE_NORMAL);;; ret true
    end.
Definition do_output_char (a c : Z) : M (kst FA * D) unit :=
  e <- escape a c;;
  if e : bool then ret tt
  else upd_out a (λ o, set_o_column (next_column c (o_column o)) o);;; device (dev_putc a c).

Definition tty_put_char (a c : Z) : M (kst FA * D) unit :=
  t <- tty_of a;;
  let oflag := c_oflag (tty_termios t) in
  let column := o_column (tty_out t) in
  if has (tty_flags t) TTY_FLUSHING then ret tt
  else if has oflag OPOST then
    if c =? NL then (if has oflag ONLCR then do_output_char a CR else ret tt);;; do_output_char a NL
    else if (c =? CR) && has oflag OCRNL then do_output_char a NL
    else if (c =? CR) && has oflag ONOCR && (column =? 0) then ret tt
    else if (c =? TAB) && has oflag TABDLY then
      for_each (λ _, do_output_char a SPACE) (seqZ 0 (8 - Z.rem column 8))
    else do_output_char a (if has oflag OLCUC && (97 <=? c) && (c <=? 122) then c - 97 + 65 else c)
  else do_output_char a c.
Definition put_chars (a : Z) (l : list Z) : M (kst FA * D) unit := for_each (tty_put_char a) l.
(** [tty_write_string], on the characters of the string. *)
Definition tty_write_string (a : Z) (str : list Z) : M (kst FA * D) unit := put_chars a str.

(** ** Echo *)

Definition tty_echo_char (a c : Z) : M (kst FA * D) unit :=
  t <- tty_of a;;
  let lflag := tty_lflag t in
  if negb (has lflag ECHO) then (if (c =? NL) && has lflag ECHONL then tty_put_char a NL else ret tt)
  else if c =? NL then tty_put_char a NL
  else if c =? TAB then tty_put_char a TAB
  else if is_ctrl_char c then (if has lflag ECHOCTL then put_chars a [CARET; u8 (c + 64)] else ret tt)
  else tty_put_char a c.
(** A backspace over a character on the screen, [n] times. *)
Definition rub_out (a n : Z) : M (kst FA * D) unit := for_each (λ _, put_chars a [BS; SPACE; BS]) (seqZ 0 n).
Definition erase_char (a c : Z) : M (kst FA * D) unit :=
  t <- tty_of a;;
  let lflag := tty_lflag t in
  if negb (has lflag ECHO) then ret tt
  else if negb (has lflag ECHOE) then tty_echo_char a (cc (tty_termios t) VERASE)
  else if c =? TAB then
    let width := 8 - Z.rem (canon_column (tty_in t) - 8) 8 in
    rub_out a (if width =? 0 then 8 else width)
  else if is_ctrl_char c && has lflag ECHOCTL then rub_out a 2
  else rub_out a 1.

(** ** The line being edited *)

(** [while (canon_head > 0 && stop does not hold of the last character)]: drop
    it and erase it. *)
Fixpoint drop_while (n : nat) (a : Z) (go : Z → bool) : M (kst FA * D) unit :=
  match n with
  | O => ret tt
  | S n' =>
      t <- tty_of a;;
      let i := tty_in t in
      if canon_head i <=? 0 then ret tt
      else
        c <- of_opt (zget (canon_buf i) (canon_head i - 1));;
        if go c then
          upd_in a (set_canon_head (canon_head i - 1));;;
          erase_char a c;;;
          drop_while n' a go
        else ret tt
  end.
(** No line is longer than [MAX_CANON]. *)
Definition line_fuel : nat := S (Z.to_nat MAX_CANON).
Definition erase_line (a : Z) : M (kst FA * D) unit :=
  t <- tty_of a;;
  let lflag := tty_lflag t in
  if negb (has lflag ECHO) then ret tt
  else
    (if has lflag ECHOKE then drop_while line_fuel a (λ _, true)
     else if has lflag ECHOK then tty_put_char a NL
     else tty_echo_char a (cc (tty_termios t) VKILL));;;
    upd_in a (λ i, set_canon_column 0 (set_canon_head 0 i)).
Definition reprint_line (a : Z) : M (kst FA * D) unit :=
  t <- tty_of a;;
  if negb (has (tty_lflag t) ECHO) then ret tt
  else
    put_chars a [CARET; 82; NL];;;
    for_each (tty_echo_char a) (take (Z.to_nat (canon_head (tty_in t))) (canon_buf (tty_in t))).

(** ** Signals of the terminal *)

Definition tty_signal_session (a sig : Z) : M (kst FA * D) Z :=
  t <- tty_of a;;
  if 0 <? tty_pgrp t then in_kst (signal_send_group (tty_pgrp t) sig) else ret (-1).

(** The action is looked up at [SIGTTOU], not at [SIGTTOU - 1]. *)
Definition tty_check_change (a : Z) : M (kst FA * D) Z :=
  o <- in_kst current_proc;;
  match o with
  | None => ret 0
  | Some p =>
      x <- in_kst (proc_of p);;
      t <- tty_of a;;
      if p_pgid x =? tty_pgrp t then ret 0
      else if has (tty_lflag t) TOSTOP then
        quiet <- (match p_signals x with
                  | None => ret false
                  | Some si =>
                      act <- of_opt (zget (sig_actions si) SIGTTOU);;
                      ret (has (sig_blocked si) (sigmask SIGTTOU) || (sa_handler act =? SIG_IGN))
                  end);;
        (if (quiet : bool) then ret tt else in_kst (signal_send_group (p_pgid x) SIGTTOU);;; ret tt);;;
        ret (-1)
      else ret 0
  end.

(** ** Characters received *)

(** The line goes to the ring, and the reader is woken. *)
Fixpoint put_line (l : list Z) (i : tty_input) : option tty_input :=
  match l with
  | [] => Some i
  | c :: l' => i ← read_buf_put i c; put_line l' i
  end.
Definition line_of (i : tty_input) : list Z := take (Z.to_nat (canon_head i)) (canon_buf i).
Definition finish_canonical_line (a : Z) : M (kst FA * D) unit :=
  t <- tty_of a;;
  i <- of_opt (put_line (line_of (tty_in t)) (tty_in t));;
  upd_in a (λ _, set_canon_column 0 (set_canon_head 0 (set_canon_lines (canon_lines i + 1) i)));;;
  wake (tty_read_wait t).
(** [canon_buf[canon_head++] = c], if there is room: [false] if not. *)
Definition append_line (a c : Z) : M (kst FA * D) bool :=
  t <- tty_of a;;
  let i := tty_in t in
  if canon_head i <? MAX_CANON - 1 then
    l <- of_opt (zset (canon_buf i) (canon_head i) c);;
    upd_in a (λ i, set_canon_head (canon_head i + 1) (set_canon_buf l i));;;
    ret true
  else ret false.
Definition store_char (a c : Z) : M (kst FA * D) unit :=
  t <- tty_of a;;
  if has (tty_lflag t) ICANON then
    ok <- append_line a c;;
    if (ok : bool) then
      upd_in a (λ i, set_canon_column (canon_column i + char_width c t) i);;;
      tty_echo_char a c
    else if has (c_iflag (tty_termios t)) IMAXBEL then tty_put_char a BEL else ret tt
  else
    i <- of_opt (read_buf_put (tty_in t) c);;
    upd_in a (λ _, i);;;
    tty_echo_char a c;;;
    wake (tty_read_wait t).

(** The character after the input flags, [None] when it is dropped. *)
Definition input_map (t : termios) (c : Z) : option Z :=
  let c := if has (c_iflag t) ISTRIP then Z.land c 0x7F else c in
  let o := if c =? CR then
             if has (c_iflag t) IGNCR then None else if has (c_iflag t) ICRNL then Some NL else Some c
           else if (c =? NL) && has (c_iflag t) INLCR then Some CR else Some c in
  match o with
  | None => None
  | Some c => Some (if has (c_iflag t) IUCLC && (65 <=? c) && (c <=? 90) then c - 65 + 97 else c)
  end.
Definition signal_of (t : termios) (c : Z) : Z :=
  if negb (has (c_lflag t) ISIG) then 0
  else if c =? cc t VINTR then SIGINT
  else if c =? cc t VQUIT then SIGQUIT
  else if c =? cc t VSUSP then SIGTSTP
  else 0.
Definition flush_input (i : tty_input) : tty_input :=
  set_canon_lines 0 (set_canon_head 0 (set_read_cnt 0 (set_read_head (read_tail i) i))).
Definition receive_signal (a c sig : Z) : M (kst FA * D) unit :=
  t <- tty_of a;;
  (if has (tty_lflag t) ECHO then put_chars a [CARET; u8 (c + 64); NL] else ret tt);;;
  (if has (tty_lflag t) NOFLSH then ret tt else upd_in a (λ i, set_canon_column 0 (flush_input i)));;;
  tty_release a;;;
  tty_signal_session a sig;;;
  wake (tty_read_wait t).

(** Flow control: [true] when the character is used up. *)
Definition flow_control (a c : Z) : M (kst FA * D) bool :=
  t <- tty_of a;;
  let m := tty_termios t in
  if negb (has (c_iflag m) IXON) then ret false
  else if c =? cc m VSTOP then upd_tty a (set_tty_flags (Z.lor (tty_flags t) TTY_STOPPED));;; ret true
  else if c =? cc m VSTART then
    upd_tty a (set_tty_flags (andnot (tty_flags t) TTY_STOPPED));;; wake (tty_write_wait t);;; ret true
  else if has (c_iflag m) IXANY && has (tty_flags t) TTY_STOPPED then
    upd_tty a (set_tty_flags (andnot (tty_flags t) TTY_STOPPED));;; wake (tty_write_wait t);;; ret false
  else ret false.

(** The editing characters of the canonical mode: [true] when the character is
    one of them, or ends the line. *)
Definition canonical (a c : Z) : M (kst FA * D) bool :=
  t <- tty_of a;;
  let m := tty_termios t in
  let ext := has (c_lflag m) IEXTEN in
  let echo := has (c_lflag m) ECHO in
  if negb (has (c_lflag m) ICANON) then ret false
  else if ext && (c =? cc m VLNEXT) then
    upd_tty a (set_tty_flags (Z.lor (tty_flags t) TTY_LNEXT));;;
    (if echo then put_chars a [CARET; BS] else ret tt);;;
    ret true
  else if (c =? cc m VERASE) || (c =? BS) || (c =? 127) then
    let i := tty_in t in
    (if 0 <? canon_head i then
       erased <- of_opt (zget (canon_buf i) (canon_head i - 1));;
       let column := canon_column i - char_width erased t in
       upd_in a (λ i, set_canon_column (if column <? 0 then 0 else column) (set_canon_head (canon_head i - 1) i));;;
       erase_char a erased
     else ret tt);;;
    ret true
  else if ext && (c =? cc m VWERASE) then
    drop_while line_fuel a (λ c, c =? SPACE);;;
    drop_while line_fuel a (λ c, negb (c =? SPACE));;;
    ret true
  else if c =? cc m VKILL then erase_line a;;; ret true
  else if ext && (c =? cc m VREPRINT) then reprint_line a;;; ret true
  else if ext && (c =? cc m VDISCARD) then
    upd_tty a (set_tty_flags (Z.lxor (tty_flags t) TTY_FLUSHING));;;
    (if echo then put_chars a [CARET; 79] else ret tt);;;
    ret true
  else if c =? cc m VEOF then
    (if 0 <? canon_head (tty_in t) then finish_canonical_line a
     else upd_in a (λ i, set_canon_lines (canon_lines i + 1) i);;; wake (tty_read_wait t));;;
    ret true
  else if (c =? cc m VEOL) || (ext && (c =? cc m VEOL2)) then
    (if negb (c =? 0) then
       ok <- append_line a c;;
       (if (ok : bool) then tty_echo_char a c else ret tt);;;
       finish_canonical_line a
     else ret tt);;;
    ret true
  else if c =? NL then
    (append_line a NL;;; tty_echo_char a NL;;; finish_canonical_line a);;;
    ret true
  else ret false.

Definition tty_receive_char (a c : Z) : M (kst FA * D) unit :=
  tty_acquire a;;;
  t <- tty_of a;;
  if has (tty_flags t) TTY_LNEXT then
    upd_tty a (set_tty_flags (andnot (tty_flags t) TTY_LNEXT));;;
    store_char a c;;;
    tty_release a
  else
    match input_map (tty_termios t) c with
    | None => tty_release a
    | Some c =>
        let sig := signal_of (tty_termios t) c in
        if negb (sig =? 0) then receive_signal a c sig
        else
          used <- flow_control a c;;
          if (used : bool) then tty_release a
          else
            (used <- canonical a c;; if (used : bool) then ret tt else store_char a c);;;
            tty_release a
    end.
Definition tty_receive_buf (a : Z) (buf : list Z) : M (kst FA * D) unit := for_each (tty_receive_char a) buf.
Definition tty_push_char (c a : Z) : M (kst FA * D) unit := tty_receive_char a (u8 c).
End tty.
