(* ===== verification/Ramfb.v ===== *)
(** The console on the frame buffer, [kernel/arch/aarch64/firmware/ramfb.c]:
    the font, characters drawn as pixels, the cursor, scrolling, and the
    kernel's formatted messages on it; the serial line's
    [firmware/uart.c] messages.

    The frame buffer is a function from the index of a pixel to its colour.
    [behind] is what the memory holds after the font, which is read for the
    characters it does not have.  The screen of a text terminal, a grid of
    cells, is the specification of [ramfb_putc]; it has a margin, the pixels
    below the last row, which scrolling moves into that row. *)
From S2P Require Export UFormat Tty.
Local Open Scope prog_scope.

Definition WIDTH : Z := 1366.
Definition HEIGHT : Z := 768.
Definition CHAR_WIDTH : Z := 8.
Definition CHAR_HEIGHT : Z := 10.
Definition MAX_COLS : Z := WIDTH / CHAR_WIDTH.
Definition MAX_ROWS : Z := HEIGHT / CHAR_HEIGHT.

Definition font8x8_basic : list (list Z) :=
  replicate 32 [0; 0; 0; 0; 0; 0; 0; 0] ++ [
  [0; 0; 0; 0; 0; 0; 0; 0];
  [24; 24; 24; 24; 24; 0; 24; 0];
  [36; 36; 0; 0; 0; 0; 0; 0];
  [36; 36; 126; 36; 126; 36; 36; 0];
  [60; 74; 72; 60; 10; 74; 60; 0];
  [98; 100; 8; 16; 32; 76; 70; 0];
  [24; 36; 36; 24; 37; 66; 61; 0];
  [24; 24; 8; 0; 0; 0; 0; 0];
  [12; 16; 32; 32; 32; 16; 12; 0];
  [48; 8; 4; 4; 4; 8; 48; 0];
  [0; 16; 84; 56; 84; 16; 0; 0];
  [0; 16; 16; 124; 16; 16; 0; 0];
  [0; 0; 0; 0; 0; 24; 24; 8];
  [0; 0; 0; 126; 0; 0; 0; 0];
  [0; 0; 0; 0; 0; 0; 24; 0];
  [0; 2; 4; 8; 16; 32; 64; 0];
  [60; 66; 66; 66; 66; 66; 60; 0];
  [16; 48; 16; 16; 16; 16; 56; 0];
  [60; 66; 2; 12; 48; 64; 126; 0];
  [60; 66; 2; 28; 2; 66; 60; 0];
  [8; 24; 40; 72; 126; 8; 8; 0];
  [126; 64; 124; 2; 2; 66; 60; 0];
  [60; 64; 124; 66; 66; 66; 60; 0];
  [126; 2; 4; 8; 16; 32; 32; 0];
  [60; 66; 66; 60; 66; 66; 60; 0];
  [60; 66; 66; 62; 2; 2; 60; 0];
  [0; 24; 24; 0; 24; 24; 0; 0];
  [0; 24; 24; 0; 24; 24; 8; 0];
  [6; 24; 96; 96; 24; 6; 0; 0];
  [0; 0; 126; 0; 126; 0; 0; 0];
  [96; 24; 6; 6; 24; 96; 0; 0];
  [60; 66; 4; 8; 0; 0; 24; 0];
  [60; 66; 90; 82; 94; 64; 60; 0];
  [24; 36; 66; 66; 126; 66; 66; 0];
  [124; 66; 66; 124; 66; 66; 124; 0];
  [60; 66; 64; 64; 64; 66; 60; 0];
  [120; 68; 66; 66; 66; 68; 120; 0];
  [126; 64; 64; 124; 64; 64; 126; 0];
  [126; 64; 64; 124; 64; 64; 64; 0];
  [60; 66; 64; 78; 66; 66; 60; 0];
  [66; 66; 66; 126; 66; 66; 66; 0];
  [56; 16; 16; 16; 16; 16; 56; 0];
  [30; 4; 4; 4; 68; 68; 56; 0];
  [66; 68; 72; 112; 72; 68; 66; 0];
  [64; 64; 64; 64; 64; 64; 126; 0];
  [66; 102; 90; 66; 66; 66; 66; 0];
  [66; 98; 82; 74; 70; 66; 66; 0];
  [60; 66; 66; 66; 66; 66; 60; 0];
  [124; 66; 66; 124; 64; 64; 64; 0];
  [60; 66; 66; 66; 74; 70; 62; 0];
  [124; 66; 66; 124; 72; 68; 66; 0];
  [60; 66; 64; 60; 2; 66; 60; 0];
  [62; 8; 8; 8; 8; 8; 8; 0];
  [66; 66; 66; 66; 66; 66; 60; 0];
  [66; 66; 66; 36; 36; 24; 24; 0];
  [66; 66; 66; 90; 90; 102; 66; 0];
  [66; 36; 24; 24; 24; 36; 66; 0];
  [66; 36; 24; 24; 24; 24; 24; 0];
  [126; 2; 4; 8; 16; 32; 126; 0];
  [28; 16; 16; 16; 16; 16; 28; 0];
  [0; 64; 32; 16; 8; 4; 2; 0];
  [56; 8; 8; 8; 8; 8; 56; 0];
  [16; 40; 68; 0; 0; 0; 0; 0];
  [0; 0; 0; 0; 0; 0; 0; 255];
  [16; 8; 0; 0; 0; 0; 0; 0];
  [0; 0; 60; 2; 62; 66; 62; 0];
  [64; 64; 92; 98; 66; 98; 92; 0];
  [0; 0; 60; 64; 64; 64; 60; 0];
  [2; 2; 58; 70; 66; 70; 58; 0];
  [0; 0; 60; 66; 126; 64; 60; 0];
  [12; 18; 16; 62; 16; 16; 16; 0];
  [0; 0; 62; 66; 66; 62; 2; 60];
  [64; 64; 92; 98; 66; 66; 66; 0];
  [16; 0; 48; 16; 16; 16; 56; 0];
  [2; 0; 6; 2; 2; 2; 34; 28];
  [64; 64; 68; 72; 112; 72; 68; 0];
  [48; 16; 16; 16; 16; 16; 56; 0];
  [0; 0; 118; 73; 73; 73; 73; 0];
  [0; 0; 92; 98; 66; 66; 66; 0];
  [0; 0; 60; 66; 66; 66; 60; 0];
  [0; 0; 28; 34; 60; 32; 32; 32];
  [0; 0; 56; 68; 60; 4; 4; 4];
  [0; 0; 92; 98; 64; 64; 64; 0];
  [0; 0; 60; 64; 60; 2; 60; 0];
  [16; 16; 62; 16; 16; 18; 12; 0];
  [0; 0; 66; 66; 66; 70; 58; 0];
  [0; 0; 66; 66; 36; 36; 24; 0];
  [0; 0; 66; 66; 90; 90; 36; 0];
  [0; 0; 66; 36; 24; 36; 66; 0];
  [0; 0; 66; 66; 62; 2; 34; 28];
  [0; 0; 60; 4; 8; 16; 60; 0];
  [12; 16; 16; 32; 16; 16; 12; 0];
  [16; 16; 16; 16; 16; 16; 16; 0];
  [48; 8; 8; 4; 8; 8; 48; 0];
  [0; 0; 0; 76; 40; 16; 0; 0];
  [0; 0; 0; 0; 0; 0; 0; 0]].

Record ramfb := mk_ramfb { fb_addr : Z → Z; cursor_x : Z; cursor_y : Z; rf_fg : Z; rf_bg : Z }.
Definition set_fb (f : Z → Z) (s : ramfb) : ramfb := mk_ramfb f (cursor_x s) (cursor_y s) (rf_fg s) (rf_bg s).
Definition ramfb_set_cursor (x y : Z) (s : ramfb) : ramfb := mk_ramfb (fb_addr s) x y (rf_fg s) (rf_bg s).
Definition ramfb_get_cursor (s : ramfb) : Z * Z := (cursor_x s, cursor_y s).
Definition set_fg_color (c : Z) (s : ramfb) : ramfb := mk_ramfb (fb_addr s) (cursor_x s) (cursor_y s) c (rf_bg s).
Definition set_bg_color (c : Z) (s : ramfb) : ramfb := mk_ramfb (fb_addr s) (cursor_x s) (cursor_y s) (rf_fg s) c.

Definition put_pixel (x y color : Z) (s : ramfb) : ramfb :=
  if (x <? 0) || (WIDTH <=? x) || (y <? 0) || (HEIGHT <=? y) then s
  else set_fb (upd (fb_addr s) (y * WIDTH + x) color) s.

(** [for (i = a; i < b; i++)] on a frame buffer. *)
Fixpoint fill_loop (n : nat) (i color : Z) (f : Z → Z) : Z → Z :=
  match n with O => f | S n' => fill_loop n' (i + 1) color (upd f i color) end.
Fixpoint shift_loop (n : nat) (i by_ : Z) (f : Z → Z) : Z → Z :=
  match n with O => f | S n' => shift_loop n' (i + 1) by_ (upd f i (f (i + by_))) end.

Definition ramfb_clear (s : ramfb) : ramfb :=
  ramfb_set_cursor 0 0 (set_fb (fill_loop (Z.to_nat (WIDTH * HEIGHT)) 0 (rf_bg s) (fb_addr s)) s).
Definition ramfb_scroll (s : ramfb) : ramfb :=
  let total_pixels := WIDTH * HEIGHT in
  let scroll_pixels := WIDTH * CHAR_HEIGHT in
  let f := shift_loop (Z.to_nat (total_pixels - scroll_pixels)) 0 scroll_pixels (fb_addr s) in
  set_fb (fill_loop (Z.to_nat scroll_pixels) (total_pixels - scroll_pixels) (rf_bg s) f) s.
Definition draw_loading_bar (percentage : Z) (s : ramfb) : ramfb :=
  let percentage := if 100 <? percentage then 100 else percentage in
  let bar_width := 400 in
  let bar_height := 20 in
  let start_x := (WIDTH - bar_width) / 2 in
  let start_y := (HEIGHT - bar_height) / 2 in
  let filled_width := percentage * bar_width / 100 in
  fold_left (λ s y, fold_left (λ s x, put_pixel (start_x + x) (start_y + y) (if x <? filled_width then 0x00FFFFFF else 0) s)
    (seqZ 0 bar_width) s) (seqZ 0 bar_height) s.

Section Ramfb.
Context (behind : Z → Z).
(** [font8x8_basic[c][row]] *)
Definition glyph_row (c row : Z) : Z :=
  if c <? 128 then nth (Z.to_nat row) (nth (Z.to_nat c) font8x8_basic []) 0 else behind (8 * c + row - 1024).
Definition draw_char_bitmap (x y c fg bg : Z) (s : ramfb) : ramfb :=
  fold_left (λ s row,
    let bits := glyph_row c row in
    fold_left (λ s col,
      let color := if negb (Z.land bits (Z.shiftl 1 (7 - col)) =? 0) then fg else bg in
      put_pixel (i32 (x + col)) (i32 (y + row)) color s) (seqZ 0 8) s) (seqZ 0 8) s.
Fixpoint draw_string_bitmap (x y : Z) (l : list Z) (fg bg : Z) (s : ramfb) : ramfb :=
  match l with [] => s | c :: l => draw_string_bitmap (i32 (x + 8)) y l fg bg (draw_char_bitmap x y c fg bg s) end.

Definition draw_here (c : Z) (s : ramfb) : ramfb :=
  draw_char_bitmap (i32 (cursor_x s * CHAR_WIDTH)) (i32 (cursor_y s * CHAR_HEIGHT)) c (rf_fg s) (rf_bg s) s.
(** The end of [ramfb_putc]: the cursor is brought back to the screen. *)
Definition settle (s : ramfb) : ramfb :=
  let s := if MAX_COLS <=? cursor_x s then ramfb_set_cursor 0 (i32 (cursor_y s + 1)) s else s in
  if MAX_ROWS <=? cursor_y s then
    let s := ramfb_scroll s in ramfb_set_cursor (cursor_x s) (MAX_ROWS - 1) s
  else s.
(** Every character but the tabulator. *)
Definition ramfb_put (c : Z) (s : ramfb) : ramfb :=
  if c =? 10 then settle (ramfb_set_cursor 0 (i32 (cursor_y s + 1)) s)
  else if c =? 8 then
    draw_here 32
      (if 0 <? cursor_x s then ramfb_set_cursor (cursor_x s - 1) (cursor_y s) s
       else if 0 <? cursor_y s then ramfb_set_cursor (MAX_COLS - 1) (cursor_y s - 1) s
       else s)
  else
    let s := draw_here c s in
    settle (ramfb_set_cursor (i32 (cursor_x s + 1)) (cursor_y s) s).
Definition ramfb_putc (c : Z) (s : ramfb) : ramfb :=
  if c =? 9 then Nat.iter 4 (ramfb_put 32) s else ramfb_put c s.
Definition ramfb_kprint (l : list Z) (s : ramfb) : ramfb := fold_left (λ s c, ramfb_putc c s) l s.

(** [do ... while (num > 0 && i < n)]: the digits, the last one first. *)
Definition digit_char (d : Z) : Z := if d <? 10 then u8 (48 + d) else u8 (65 + d - 10).
Fixpoint num_digits (n : nat) (base num : Z) : list Z :=
  match n with
  | O => []
  | S n' => digit_char (Z.rem num base) :: (let num := Z.quot num base in if 0 <? num then num_digits n' base num else [])
  end.
(** The characters of an [int], those of an [unsigned long long]. *)
Definition int_text (base num : Z) : list Z :=
  let neg := num <? 0 in
  let num := if neg then i32 (- num) else num in
  rev (num_digits 15 base num ++ if neg then [45] else []).
Definition ull_text (base num : Z) : list Z := rev (num_digits 31 base num).
Definition ramfb_kprint_num (num : Z) : ramfb → ramfb := ramfb_kprint (int_text 10 num).
Definition ramfb_kprint_ull (num : Z) : ramfb → ramfb := ramfb_kprint (ull_text 10 num).

(** The string at [p]. *)
Fixpoint chars_at (fuel : nat) (m : mem) (p : Z) : option (list Z) :=
  match fuel with O => None | S f => if m p =? 0 then Some [] else l ← chars_at f m (p + 1); Some (m p :: l) end.

(** [(int)num], for a number that fits. *)
Definition int_of_d (num : double) : option Z := z ← long_of_d num; if decide (i32 z = z) then Some z else None.
(** The six decimals of [%f]. *)
Fixpoint fraction_digits (n : nat) (fractional_part : double) : option (list Z) :=
  match n with
  | O => Some []
  | S n' =>
      let x := dmul fractional_part ten in
      digit ← int_of_d x;
      l ← fraction_digits n' (dsub x (d_of_Z digit));
      Some (int_text 10 digit ++ l)
  end.
(** A directive with the character [c]: the characters it prints. *)
Definition kdirective (fuel : nat) (m : mem) (c : Z) (ap : va_list) : M unit (list Z * va_list) :=
  if c =? 100 then r <- va_slot ap;; ret (int_text 10 (i32 r.1), r.2)
  else if c =? 115 then r <- va_slot ap;; l <- of_opt (chars_at fuel m r.1);; ret (l, r.2)
  else if c =? 99 then r <- va_slot ap;; ret ([u8 r.1], r.2)
  else if c =? 120 then r <- va_slot ap;; ret (int_text 16 (i32 r.1), r.2)
  else if c =? 102 then
    r <- va_double ap;;
    int_part <- of_opt (int_of_d r.1);;
    l <- of_opt (fraction_digits 6 (dsub r.1 (d_of_Z int_part)));;
    ret (int_text 10 int_part ++ [46] ++ l, r.2)
  else ret ([37; c], ap).
(** The escape of a colour. *)
Definition color_of (c : Z) : option Z :=
  if c =? 87 then Some 0x00FFFFFF else if c =? 71 then Some 0x0000FF00 else if c =? 67 then Some 0x0000FFFF
  else if c =? 82 then Some 0x00FF0000 else if c =? 66 then Some 0x000000FF else None.
(** [%l] and what follows it at [p]: the characters, and where the last one read is. *)
Definition long_directive (m : mem) (p : Z) (ap : va_list) : M unit (list Z * Z * va_list) :=
  if m (p + 1) =? 108 then
    if m (p + 2) =? 117 then r <- va_slot ap;; ret (ull_text 10 (u64 r.1), p + 2, r.2)
    else if m (p + 2) =? 120 then r <- va_slot ap;; ret (ull_text 16 (u64 r.1), p + 2, r.2)
    else ret ([], p + 2, ap)
  else ret ([], p + 1, ap).
Fixpoint ramfb_kprintf (n fuel : nat) (m : mem) (p : Z) (ap : va_list) (s : ramfb) : option ramfb :=
  match n with
  | O => None
  | S n' =>
      let c := m p in
      if c =? 0 then Some s
      else if c =? 37 then
        if m (p + 1) =? 108 then
          match long_directive m (p + 1) ap tt with
          | Done ((l, p', ap), _) => ramfb_kprintf n' fuel m (p' + 1) ap (ramfb_kprint l s)
          | _ => None
          end
        else
          match kdirective fuel m (m (p + 1)) ap tt with
          | Done ((l, ap), _) => ramfb_kprintf n' fuel m (p + 2) ap (ramfb_kprint l s)
          | _ => None
          end
      else if c =? 91 then
        match color_of (m (p + 1)) with
        | Some col => ramfb_kprintf n' fuel m (p + 2) ap (set_fg_color col s)
        | None => ramfb_kprintf n' fuel m (p + 1) ap (ramfb_putc 91 s)
        end
      else ramfb_kprintf n' fuel m (p + 1) ap (ramfb_putc c s)
  end.
End Ramfb.

(** The serial line: what has been sent. *)
Definition uart_putc (c : Z) (out : list Z) : list Z := out ++ [c].
Definition uart_puts (l : list Z) (out : list Z) : list Z := fold_left (λ out c, uart_putc c out) l out.
Definition uart_kprint_num (num : Z) : list Z → list Z := uart_puts (int_text 10 num).
Definition uart_kprint_ull (num : Z) : list Z → list Z := uart_puts (ull_text 10 num).

Fixpoint uart_kprintf (n fuel : nat) (m : mem) (p : Z) (ap : va_list) (out : list Z) : option (list Z) :=
  match n with
  | O => None
  | S n' =>
      let c := m p in
      if c =? 0 then Some out
      else if c =? 37 then
        if m (p + 1) =? 108 then
          match long_directive m (p + 1) ap tt with
          | Done ((l, p', ap), _) => uart_kprintf n' fuel m (p' + 1) ap (uart_puts l out)
          | _ => None
          end
        else
          match kdirective fuel m (m (p + 1)) ap tt with
          | Done ((l, ap), _) => uart_kprintf n' fuel m (p + 2) ap (uart_puts l out)
          | _ => None
          end
      else uart_kprintf n' fuel m (p + 1) ap (uart_putc c out)
  end.

(** The two terminals of [tty.c] on the two devices. *)
Record cons := mk_cons { con_fb : ramfb; con_uart : list Z }.
Definition on_fb (f : ramfb → ramfb) (d : cons) : cons := mk_cons (f (con_fb d)) (con_uart d).
Definition on_uart (f : list Z → list Z) (d : cons) : cons := mk_cons (con_fb d) (f (con_uart d)).
Definition cons_console (behind : Z → Z) (tty_console : Z) : Console cons := {|
  dev_putc a c d := if a =? tty_console then on_fb (ramfb_putc behind c) d else on_uart (uart_putc c) d;
  dev_get_cursor d := ramfb_get_cursor (con_fb d);
  dev_set_cursor x y := on_fb (ramfb_set_cursor x y);
  dev_clear := on_fb ramfb_clear;
  dev_set_fg c := on_fb (set_fg_color c);
  dev_set_bg c := on_fb (set_bg_color c)
|}.

(** ** Pixels *)

Definition px (s : ramfb) (x y : Z) : Z := fb_addr s (y * WIDTH + x).
Definition on_screen (x y : Z) : Prop := 0 <= x < WIDTH ∧ 0 <= y < HEIGHT.
(** Two frame buffers that differ in pixels only. *)
Definition same_rest (s s' : ramfb) : Prop :=
  cursor_x s' = cursor_x s ∧ cursor_y s' = cursor_y s ∧ rf_fg s' = rf_fg s ∧ rf_bg s' = rf_bg s.
Lemma same_rest_refl s : same_rest s s.
Proof. done. Qed.
Lemma same_rest_trans s1 s2 s3 : same_rest s1 s2 → same_rest s2 s3 → same_rest s1 s3.
Proof. unfold same_rest. intuition congruence. Qed.

Lemma fill_loop_at n : ∀ i c f x, fill_loop n i c f x = if decide (i <= x < i + Z.of_nat n) then c else f x.
Proof.
  induction n as [|n IH]; intros i c f x; cbn [fill_loop]; [by rewrite decide_False by lia|].
  rewrite IH. unfold upd. repeat case_decide; destruct (Z.eqb_spec x i); (done || lia).
Qed.
Lemma shift_loop_at n : ∀ i k f x, 0 < k → shift_loop n i k f x = if decide (i <= x < i + Z.of_nat n) then f (x + k) else f x.
Proof.
  induction n as [|n IH]; intros i k f x Hk; cbn [shift_loop]; [by rewrite decide_False by lia|].
  rewrite IH by done. unfold upd. repeat case_decide; repeat (match goal with |- context [?u =? ?v] => destruct (Z.eqb_spec u v) end); subst; (done || lia).
Qed.
Lemma put_pixel_px x y c s x' y' : on_screen x y → on_screen x' y' →
  px (put_pixel x y c s) x' y' = if decide (x' = x ∧ y' = y) then c else px s x' y'.
Proof.
  unfold on_screen, put_pixel, px, WIDTH, HEIGHT. intros ? ?.
  rewrite (proj2 (Z.ltb_ge x 0)), (proj2 (Z.leb_gt _ x)), (proj2 (Z.ltb_ge y 0)), (proj2 (Z.leb_gt _ y)) by lia. cbn [orb set_fb fb_addr].
  unfold upd. case_decide; destruct (Z.eqb_spec (y' * 1366 + x') (y * 1366 + x)); (done || lia).
Qed.
Lemma put_pixel_rest x y c s : same_rest s (put_pixel x y c s).
Proof. unfold put_pixel. by destruct (_ || _). Qed.

(** A rectangle of pixels, drawn row by row. *)
Definition draw_rect (f g : Z → Z) (color : Z → Z → Z) (rows cols : list Z) (s : ramfb) : ramfb :=
  fold_left (λ s row, fold_left (λ s col, put_pixel (f col) (g row) (color row col) s) cols s) rows s.
Lemma draw_row_px (f : Z → Z) (yy : Z) (color : Z → Z) (cols : list Z) : ∀ s, (∀ col, col ∈ cols → on_screen (f col) yy) →
  let s' := fold_left (λ s col, put_pixel (f col) yy (color col) s) cols s in
  same_rest s s' ∧ ∀ x' y', on_screen x' y' →
    px s' x' y' = px s x' y' ∧ (y' = yy → ∀ col, col ∈ cols → f col ≠ x') ∨ y' = yy ∧ ∃ col, col ∈ cols ∧ f col = x' ∧ px s' x' y' = color col.
Proof.
  induction cols as [|c cols IH]; intros s Hon; cbn [fold_left].
  - split; [done|]. intros. left. split; [done|]. intros _ col Hc. by apply elem_of_nil in Hc.
  - destruct (IH (put_pixel (f c) yy (color c) s)) as [Hr Hp]; [intros; apply Hon; by right|]. split; [eapply same_rest_trans; [apply put_pixel_rest|exact Hr]|].
    intros x' y' Hxy. destruct (Hp x' y' Hxy) as [[Hpx Hno]|(-> & col & Hin & Hf & Hpx)].
    + rewrite Hpx, put_pixel_px by (done || apply Hon; left). case_decide as Hd.
      * destruct Hd as [-> ->]. right. split; [done|]. exists c. split; [left|done].
      * left. split; [done|]. intros Hy col [->|Hin]%elem_of_cons Hc; [apply Hd; done|by apply (Hno Hy col)].
    + right. split; [done|]. exists col. split; [by right|done].
Qed.
Lemma draw_rect_px (f g : Z → Z) (color : Z → Z → Z) (rows : list Z) : ∀ (cols : list Z) s, (∀ col row, col ∈ cols → row ∈ rows → on_screen (f col) (g row)) →
  let s' := draw_rect f g color rows cols s in
  same_rest s s' ∧ ∀ x' y', on_screen x' y' →
    px s' x' y' = px s x' y' ∧ (∀ row col, row ∈ rows → col ∈ cols → ¬ (f col = x' ∧ g row = y')) ∨
    ∃ row col, row ∈ rows ∧ col ∈ cols ∧ f col = x' ∧ g row = y' ∧ px s' x' y' = color row col.
Proof.
  unfold draw_rect. induction rows as [|r rows IH]; intros cols s Hon; cbn [fold_left].
  - split; [done|]. intros. left. split; [done|]. intros row col Hc. by apply elem_of_nil in Hc.
  - destruct (draw_row_px f (g r) (color r) cols s) as [Hr1 Hp1]; [intros; apply Hon; [done|left]|].
    set (s1 := fold_left _ cols s) in *. destruct (IH cols s1) as [Hr2 Hp2]; [intros; apply Hon; [done|by right]|].
    split; [by eapply same_rest_trans|]. intros x' y' Hxy. destruct (Hp2 x' y' Hxy) as [[Hpx Hno]|(row & col & ? & ? & ? & ? & ?)].
    + rewrite Hpx. destruct (Hp1 x' y' Hxy) as [[-> Hno1]|(-> & col & Hin & Hfc & Hpx1)].
      * left. split; [done|]. intros row col [->|Hin]%elem_of_cons Hc [Hx Hy]; [by apply (Hno1 (eq_sym Hy) col)|by apply (Hno row col)].
      * right. exists r, col. split_and!; try done. left.
    + right. exists row, col. split_and!; try done. by right.
Qed.

Lemma ramfb_scroll_px s x y : on_screen x y → px (ramfb_scroll s) x y = if decide (y < 758) then px s x (y + 10) else rf_bg s.
Proof.
  unfold on_screen, WIDTH, HEIGHT. intros [Hx Hy]. unfold px, ramfb_scroll, set_fb. cbn [fb_addr]. unfold WIDTH, HEIGHT, CHAR_HEIGHT.
  rewrite fill_loop_at, shift_loop_at, !Z2Nat.id by lia. repeat case_decide; try lia; try done. f_equal. lia.
Qed.
Lemma ramfb_clear_px s x y : on_screen x y → px (ramfb_clear s) x y = rf_bg s.
Proof.
  unfold on_screen, WIDTH, HEIGHT. intros [Hx Hy]. unfold px, ramfb_clear, set_fb. cbn [fb_addr ramfb_set_cursor]. unfold WIDTH, HEIGHT.
  rewrite fill_loop_at, Z2Nat.id, decide_True by lia. done.
Qed.
Lemma max_cols : MAX_COLS = 170. Proof. reflexivity. Qed.
Lemma max_rows : MAX_ROWS = 76. Proof. reflexivity. Qed.

(** ** The screen as text *)

(** A cell: the character, its colour and the colour behind it. *)
Definition cell : Type := Z * Z * Z.
Record screen := mk_screen { sc_cell : Z → Z → cell; sc_margin : Z; sc_col : Z; sc_row : Z }.
Definition sc_move (col row : Z) (sc : screen) : screen := mk_screen (sc_cell sc) (sc_margin sc) col row.
Definition sc_set (v : cell) (sc : screen) : screen :=
  mk_screen (λ r c, if decide (r = sc_row sc ∧ c = sc_col sc) then v else sc_cell sc r c) (sc_margin sc) (sc_col sc) (sc_row sc).
(** The rows move up; the last one takes the colour of the margin, and the
    margin that of the background. *)
Definition sc_scroll (bg : Z) (sc : screen) : screen :=
  mk_screen (λ r c, if decide (r = MAX_ROWS - 1) then (32, 0, sc_margin sc) else sc_cell sc (r + 1) c) bg (sc_col sc) (sc_row sc).
Definition sc_newline (bg : Z) (sc : screen) : screen :=
  if decide (sc_row sc + 1 < MAX_ROWS) then sc_move 0 (sc_row sc + 1) sc else sc_move 0 (MAX_ROWS - 1) (sc_scroll bg sc).
Definition sc_put (c fg bg : Z) (sc : screen) : screen :=
  if decide (c = 10) then sc_newline bg sc
  else if decide (c = 8) then
    sc_set (32, fg, bg)
      (if decide (0 < sc_col sc) then sc_move (sc_col sc - 1) (sc_row sc) sc
       else if decide (0 < sc_row sc) then sc_move (MAX_COLS - 1) (sc_row sc - 1) sc else sc)
  else
    let sc := sc_set (c, fg, bg) sc in
    if decide (sc_col sc + 1 < MAX_COLS) then sc_move (sc_col sc + 1) (sc_row sc) sc else sc_newline bg sc.
Definition sc_putc (c fg bg : Z) (sc : screen) : screen :=
  if decide (c = 9) then Nat.iter 4 (sc_put 32 fg bg) sc else sc_put c fg bg sc.

Section Screen.
Context (behind : Z → Z).
Definition cell_px (v : cell) (i j : Z) : Z :=
  let '(c, fg, bg) := v in if negb (Z.land (glyph_row behind c i) (Z.shiftl 1 (7 - j)) =? 0) then fg else bg.
Record shows (s : ramfb) (sc : screen) : Prop := {
  sh_cursor : cursor_x s = sc_col sc ∧ cursor_y s = sc_row sc;
  sh_range : 0 <= sc_col sc < MAX_COLS ∧ 0 <= sc_row sc < MAX_ROWS;
  sh_cells r c i j : 0 <= r < MAX_ROWS → 0 <= c < MAX_COLS → 0 <= i < 8 → 0 <= j < 8 → px s (8 * c + j) (10 * r + i) = cell_px (sc_cell sc r c) i j;
  sh_margin x y : 0 <= x < 8 * MAX_COLS → 10 * MAX_ROWS <= y < HEIGHT → px s x y = sc_margin sc
}.
(** The cells and the margin are drawn, wherever the cursor is. *)
Definition drawn (s : ramfb) (sc : screen) : Prop :=
  (∀ r c i j, 0 <= r < MAX_ROWS → 0 <= c < MAX_COLS → 0 <= i < 8 → 0 <= j < 8 → px s (8 * c + j) (10 * r + i) = cell_px (sc_cell sc r c) i j) ∧
  (∀ x y, 0 <= x < 8 * MAX_COLS → 10 * MAX_ROWS <= y < HEIGHT → px s x y = sc_margin sc).
Lemma blank_px fg bg i j : 0 <= i < 8 → cell_px (32, fg, bg) i j = bg.
Proof.
  intros Hi. unfold cell_px. assert (glyph_row behind 32 i = 0) as ->; [|done].
  assert (i ∈ seqZ 0 8) as Hin by (apply elem_of_seqZ; lia). revert i Hi Hin. cbn. intros i _.
  repeat (intros [->|Hin]%elem_of_cons; [reflexivity|]; revert Hin). intros Hin. by apply elem_of_nil in Hin.
Qed.
Lemma draw_char_drawn s sc c fg bg : drawn s sc → 0 <= sc_col sc < MAX_COLS → 0 <= sc_row sc < MAX_ROWS →
  let s' := draw_char_bitmap behind (i32 (sc_col sc * CHAR_WIDTH)) (i32 (sc_row sc * CHAR_HEIGHT)) c fg bg s in
  same_rest s s' ∧ drawn s' (sc_set (c, fg, bg) sc).
Proof.
  rewrite max_cols, max_rows. intros [Hcells Hmargin] Hc Hr s'. unfold CHAR_WIDTH, CHAR_HEIGHT in *.
  set (x := sc_col sc) in *. set (y := sc_row sc) in *.
  set (color := λ row col, if negb (Z.land (glyph_row behind c row) (Z.shiftl 1 (7 - col)) =? 0) then fg else bg).
  destruct (draw_rect_px (λ col, i32 (i32 (x * 8) + col)) (λ row, i32 (i32 (y * 10) + row)) color (seqZ 0 8) (seqZ 0 8) s) as [Hrest Hpx].
  { intros col row Hcol%elem_of_seqZ Hrow%elem_of_seqZ. unfold on_screen, WIDTH, HEIGHT. rewrite !i32_id by (rewrite ?i32_id by lia; lia). lia. }
  change (draw_rect _ _ _ _ _ s) with s' in Hrest, Hpx. split; [exact Hrest|].
  assert (∀ x' y', on_screen x' y' → (8 * x <= x' < 8 * x + 8 ∧ 10 * y <= y' < 10 * y + 8 ∧ px s' x' y' = color (y' - 10 * y) (x' - 8 * x)) ∨
    (¬ (8 * x <= x' < 8 * x + 8 ∧ 10 * y <= y' < 10 * y + 8) ∧ px s' x' y' = px s x' y')) as Hcase.
  { intros x' y' Hxy. destruct (Hpx x' y' Hxy) as [[-> Hno]|(row & col & Hrow%elem_of_seqZ & Hcol%elem_of_seqZ & Hf & Hg & ->)].
    - right. split; [|done]. intros Hin. apply (Hno (y' - 10 * y) (x' - 8 * x)); [apply elem_of_seqZ; lia|apply elem_of_seqZ; lia|].
      rewrite !i32_id by (rewrite ?i32_id by lia; lia). lia.
    - left. cbv beta in Hf, Hg. rewrite !i32_id in Hf, Hg by (rewrite ?i32_id by lia; lia). split; [lia|]. split; [lia|]. f_equal; lia. }
  split.
  - intros r c' i j Hr' Hc' Hi Hj. cbn [sc_cell sc_set]. destruct (Hcase (8 * c' + j) (10 * r + i)) as [(H1 & H2 & ->)|[Hno ->]].
    { unfold on_screen, WIDTH, HEIGHT. rewrite max_cols in *. rewrite max_rows in *. lia. }
    + rewrite decide_True by (unfold x, y in *; lia). replace (10 * r + i - 10 * y) with i by (unfold y in *; lia). replace (8 * c' + j - 8 * x) with j by (unfold x in *; lia). done.
    + rewrite decide_False by (unfold x, y in *; lia). by apply Hcells.
  - intros x' y' Hx' Hy'. cbn [sc_margin sc_set]. destruct (Hcase x' y') as [(H1 & H2 & _)|[_ ->]].
    { unfold on_screen, WIDTH, HEIGHT in *. rewrite max_cols in *. rewrite max_rows in *. lia. }
    + rewrite max_rows in Hy'. lia.
    + by apply Hmargin.
Qed.
Lemma scroll_drawn s sc : drawn s sc → drawn (ramfb_scroll s) (sc_scroll (rf_bg s) sc).
Proof.
  intros [Hcells Hmargin]. rewrite max_cols, max_rows in *. split.
  - intros r c i j Hr Hc Hi Hj. rewrite max_cols in *. rewrite max_rows in *. rewrite ramfb_scroll_px by (unfold on_screen, WIDTH, HEIGHT; lia). rewrite decide_True by lia.
    cbn [sc_cell sc_scroll]. rewrite max_rows. case_decide as Hd.
    + rewrite blank_px by done. apply Hmargin; unfold HEIGHT; lia.
    + replace (10 * r + i + 10) with (10 * (r + 1) + i) by lia. apply Hcells; lia.
  - intros x y Hx Hy. rewrite max_cols in *. rewrite max_rows in *. unfold HEIGHT in *. rewrite ramfb_scroll_px by (unfold on_screen, WIDTH, HEIGHT; lia). by rewrite decide_False by lia.
Qed.
Lemma drawn_move s sc (x y col row : Z) : drawn s sc → drawn (ramfb_set_cursor x y s) (sc_move col row sc).
Proof. done. Qed.
Lemma drawn_cursor s sc (x y : Z) : drawn s sc → drawn (ramfb_set_cursor x y s) sc.
Proof. done. Qed.
Lemma shows_drawn s sc : shows s sc ↔ (cursor_x s = sc_col sc ∧ cursor_y s = sc_row sc) ∧ (0 <= sc_col sc < MAX_COLS ∧ 0 <= sc_row sc < MAX_ROWS) ∧ drawn s sc.
Proof. split; [intros [H1 H2 H3 H4]; exact (conj H1 (conj H2 (conj H3 H4)))|]. intros (H1 & H2 & H3 & H4). by constructor. Qed.

Lemma draw_here_drawn s sc c : drawn s sc → cursor_x s = sc_col sc ∧ cursor_y s = sc_row sc → 0 <= sc_col sc < MAX_COLS → 0 <= sc_row sc < MAX_ROWS →
  same_rest s (draw_here behind c s) ∧ drawn (draw_here behind c s) (sc_set (c, rf_fg s, rf_bg s) sc).
Proof. intros Hd [Hx Hy] Hc Hr. unfold draw_here. rewrite Hx, Hy. by apply draw_char_drawn. Qed.
(** A cursor below the row [row], in the first column. *)
Lemma newline_shows s sc : drawn s sc → cursor_x s = 0 → cursor_y s = sc_row sc + 1 → 0 <= sc_row sc < MAX_ROWS →
  shows (settle s) (sc_newline (rf_bg s) sc) ∧ rf_fg (settle s) = rf_fg s ∧ rf_bg (settle s) = rf_bg s.
Proof.
  intros Hd Hx Hy Hr. pose proof max_cols as HMC. pose proof max_rows as HMR. unfold settle, sc_newline. rewrite Hx, (proj2 (Z.leb_gt MAX_COLS 0)) by lia. rewrite Hy.
  destruct (Z.leb_spec MAX_ROWS (sc_row sc + 1)); [rewrite decide_False by lia|rewrite decide_True by lia]; (split; [|done]); apply shows_drawn;
    (split; [done|]); (split; [cbn [sc_move sc_col sc_row]; lia|]); [exact (drawn_move _ _ _ _ _ _ (scroll_drawn s sc Hd))|exact (drawn_move s sc (cursor_x s) (cursor_y s) _ _ Hd)].
Qed.
Lemma back_drawn s sc : drawn s sc → cursor_x s = sc_col sc ∧ cursor_y s = sc_row sc → 0 <= sc_col sc < MAX_COLS → 0 <= sc_row sc < MAX_ROWS →
  let s1 := if 0 <? cursor_x s then ramfb_set_cursor (cursor_x s - 1) (cursor_y s) s
            else if 0 <? cursor_y s then ramfb_set_cursor (MAX_COLS - 1) (cursor_y s - 1) s else s in
  let sc1 := if decide (0 < sc_col sc) then sc_move (sc_col sc - 1) (sc_row sc) sc
             else if decide (0 < sc_row sc) then sc_move (MAX_COLS - 1) (sc_row sc - 1) sc else sc in
  drawn s1 sc1 ∧ (cursor_x s1 = sc_col sc1 ∧ cursor_y s1 = sc_row sc1) ∧ 0 <= sc_col sc1 < MAX_COLS ∧ 0 <= sc_row sc1 < MAX_ROWS ∧ rf_fg s1 = rf_fg s ∧ rf_bg s1 = rf_bg s.
Proof.
  intros Hd [Hx Hy] Hc Hr s1 sc1. pose proof max_cols as HMC. unfold s1, sc1. rewrite Hx, Hy.
  destruct (Z.ltb_spec 0 (sc_col sc)); [rewrite decide_True by done|rewrite decide_False by lia].
  - split; [exact (drawn_move _ _ _ _ _ _ Hd)|]. cbn [ramfb_set_cursor cursor_x cursor_y rf_fg rf_bg sc_move sc_col sc_row]. split; [done|]. split; [lia|]. split; [lia|done].
  - destruct (Z.ltb_spec 0 (sc_row sc)); [rewrite decide_True by done|rewrite decide_False by lia; done].
    split; [exact (drawn_move _ _ _ _ _ _ Hd)|]. cbn [ramfb_set_cursor cursor_x cursor_y rf_fg rf_bg sc_move sc_col sc_row]. split; [done|]. split; [lia|]. split; [lia|done].
Qed.
Lemma ramfb_put_shows s sc c : shows s sc → c ≠ 9 →
  shows (ramfb_put behind c s) (sc_put c (rf_fg s) (rf_bg s) sc) ∧ rf_fg (ramfb_put behind c s) = rf_fg s ∧ rf_bg (ramfb_put behind c s) = rf_bg s.
Proof.
  intros (Hxy & [Hcol Hrow] & Hd)%shows_drawn Hc9. pose proof max_cols as HMC. pose proof max_rows as HMR. unfold ramfb_put, sc_put.
  destruct (Z.eqb_spec c 10) as [->|Hc10]; [rewrite decide_True by done|rewrite decide_False by done].
  - destruct Hxy as [_ Hy]. apply (newline_shows (ramfb_set_cursor 0 (i32 (cursor_y s + 1)) s) sc); [exact (drawn_cursor _ _ _ _ Hd)|done| |done].
    cbn [ramfb_set_cursor cursor_y]. rewrite Hy, i32_id by lia. done.
  - destruct (Z.eqb_spec c 8) as [->|Hc8]; [rewrite decide_True by done|rewrite decide_False by done].
    + destruct (back_drawn s sc Hd Hxy Hcol Hrow) as (Hd1 & Hxy1 & Hcol1 & Hrow1 & <- & <-).
      destruct (draw_here_drawn _ _ 32 Hd1 Hxy1 Hcol1 Hrow1) as [(Hr1 & Hr2 & Hr3 & Hr4) Hd2]. split; [|done].
      apply shows_drawn. split; [by rewrite Hr1, Hr2|]. split; [done|exact Hd2].
    + destruct (draw_here_drawn s sc c Hd Hxy Hcol Hrow) as [(Hr1 & Hr2 & Hr3 & Hr4) Hd1]. set (s1 := draw_here behind c s) in *. clearbody s1.
      set (sc1 := sc_set _ sc) in *. assert (sc_col sc1 = sc_col sc ∧ sc_row sc1 = sc_row sc) as [Hc1 Hw1] by done. clearbody sc1. destruct Hxy as [Hx Hy].
      rewrite Hr1, Hr2, Hx, Hy, i32_id by lia. rewrite Hc1, Hw1, <- Hr3, <- Hr4. case_decide as Hlast.
      * unfold settle. cbn [ramfb_set_cursor cursor_x cursor_y]. rewrite (proj2 (Z.leb_gt MAX_COLS _)) by lia. cbn [ramfb_set_cursor cursor_x cursor_y].
        rewrite (proj2 (Z.leb_gt MAX_ROWS _)) by lia. split; [|done]. apply shows_drawn. split; [done|]. split; [cbn [sc_move sc_col sc_row]; lia|]. exact (drawn_move _ _ _ _ _ _ Hd1).
      * assert (settle (ramfb_set_cursor (sc_col sc + 1) (sc_row sc) s1) = settle (ramfb_set_cursor 0 (sc_row sc + 1) s1)) as ->.
        { unfold settle. cbn [ramfb_set_cursor cursor_x cursor_y]. rewrite (proj2 (Z.leb_le MAX_COLS _)), (proj2 (Z.leb_gt MAX_COLS 0)) by lia.
          cbn [ramfb_set_cursor cursor_x cursor_y]. rewrite i32_id by lia. done. }
        apply (newline_shows (ramfb_set_cursor 0 (sc_row sc + 1) s1) sc1); [exact (drawn_cursor _ _ _ _ Hd1)|done|by rewrite Hw1|lia].
Qed.
Lemma ramfb_putc_shows s sc c : shows s sc →
  shows (ramfb_putc behind c s) (sc_putc c (rf_fg s) (rf_bg s) sc) ∧ rf_fg (ramfb_putc behind c s) = rf_fg s ∧ rf_bg (ramfb_putc behind c s) = rf_bg s.
Proof.
  intros Hs. unfold ramfb_putc, sc_putc. destruct (Z.eqb_spec c 9) as [->|Hc]; [rewrite decide_True by done|rewrite decide_False by done; by apply ramfb_put_shows].
  generalize 4%nat. intros n. induction n as [|n (IH & IHf & IHb)]; [done|]. cbn [Nat.iter].
  destruct (ramfb_put_shows _ _ 32 IH ltac:(lia)) as (H1 & H2 & H3). rewrite IHf, IHb in H1. exact (conj H1 (conj (eq_trans H2 IHf) (eq_trans H3 IHb))).
Qed.

(** C21: [ramfb_putc] refines a text terminal: on pixels that show a screen of 76
    rows of 170 cells, a character (a byte of any value) leaves pixels that show
    the screen with that character put: in the cell at the cursor with the
    colours of the moment, which moves on and wraps; a newline, a backspace that
    blanks the cell before, a tabulator of four blanks; below the last row the
    rows move up.  The cursor never leaves the screen, and no pixel outside the
    frame buffer is drawn. *)
Theorem ramfb_putc_refines s sc l : shows s sc →
  shows (ramfb_kprint behind l s) (fold_left (λ sc c, sc_putc c (rf_fg s) (rf_bg s) sc) l sc).
Proof.
  intros Hs. assert (∀ l s1 sc1, shows s1 sc1 → rf_fg s1 = rf_fg s → rf_bg s1 = rf_bg s →
    shows (ramfb_kprint behind l s1) (fold_left (λ sc c, sc_putc c (rf_fg s) (rf_bg s) sc) l sc1)) as H; [|by apply H].
  clear. intros l. induction l as [|c l IH]; intros s1 sc1 Hs Hf Hb; [done|]. cbn [ramfb_kprint fold_left].
  destruct (ramfb_putc_shows s1 sc1 c Hs) as (H1 & H2 & H3). rewrite Hf, Hb in *. by apply IH.
Qed.

(** ** The console's escape sequence J *)

Lemma shows_ext s sc sc' : shows s sc → (∀ r c, 0 <= r < MAX_ROWS → 0 <= c < MAX_COLS → sc_cell sc' r c = sc_cell sc r c) → sc_margin sc' = sc_margin sc →
  sc_col sc' = sc_col sc → sc_row sc' = sc_row sc → shows s sc'.
Proof.
  intros [Hxy Hin Hcells Hm] Hc Hm' Hcol Hrow. constructor; [by rewrite Hcol, Hrow|by rewrite Hcol, Hrow| |].
  - intros r c i j Hr Hcc Hi Hj. by rewrite Hc, Hcells.
  - intros. by rewrite Hm', Hm.
Qed.
(** The rows below [row], and [row] from [col] on, blank. *)
Definition sc_erase_row (row col : Z) (v : cell) (sc : screen) : screen :=
  mk_screen (λ r c, if decide (r = row ∧ col <= c) then v else sc_cell sc r c) (sc_margin sc) (sc_col sc) (sc_row sc).
Definition sc_erase_below (row col : Z) (v : cell) (sc : screen) : screen :=
  mk_screen (λ r c, if decide (row < r ∨ r = row ∧ col <= c) then v else sc_cell sc r c) (sc_margin sc) (sc_col sc) (sc_row sc).
(** Blanks from the cursor to the end of its row. *)
Lemma blanks_row n : ∀ s sc, shows s sc → sc_col sc + Z.of_nat (S n) = MAX_COLS →
  let s' := Nat.iter (S n) (ramfb_putc behind 32) s in
  shows s' (sc_newline (rf_bg s) (sc_erase_row (sc_row sc) (sc_col sc) (32, rf_fg s, rf_bg s) sc)) ∧ rf_fg s' = rf_fg s ∧ rf_bg s' = rf_bg s.
Proof.
  induction n as [|n IH]; intros s sc Hs Hn.
  - cbn [Nat.iter]. destruct (ramfb_putc_shows s sc 32 Hs) as (H1 & H2 & H3). split; [|done]. eapply shows_ext; [exact H1|..].
    all: unfold sc_putc, sc_put; rewrite (decide_False (P := 32 = 9)), (decide_False (P := 32 = 10)), (decide_False (P := 32 = 8)) by done.
    all: rewrite decide_False by (cbn [sc_set sc_col]; lia). all: unfold sc_newline; cbn [sc_row sc_set sc_erase_row]; case_decide; try done.
    + intros r c Hr Hc. cbn [sc_move sc_cell sc_set sc_erase_row]. repeat case_decide; (done || lia).
    + intros r c Hr Hc. cbn [sc_move sc_cell sc_set sc_scroll sc_margin sc_erase_row]. case_decide; [done|]. repeat case_decide; (done || lia).
  - cbv zeta. rewrite (Nat.iter_succ_r (S n)). destruct (ramfb_putc_shows s sc 32 Hs) as (H1 & H2 & H3).
    assert (sc_putc 32 (rf_fg s) (rf_bg s) sc = sc_move (sc_col sc + 1) (sc_row sc) (sc_set (32, rf_fg s, rf_bg s) sc)) as He.
    { unfold sc_putc, sc_put. rewrite (decide_False (P := 32 = 9)), (decide_False (P := 32 = 10)), (decide_False (P := 32 = 8)) by done. by rewrite decide_True by (cbn [sc_set sc_col]; lia). }
    rewrite He in H1. destruct (IH _ _ H1) as (H4 & H5 & H6); [cbn [sc_move sc_col]; lia|]. rewrite H2 in H4, H5. rewrite H3 in H4, H6. split; [|exact (conj H5 H6)].
    eapply shows_ext; [exact H4|..]; unfold sc_newline; cbn [sc_row sc_set sc_erase_row sc_move sc_col]; case_decide; try done.
    + intros r c Hr Hc. cbn [sc_move sc_cell sc_set sc_erase_row]. repeat case_decide; (done || lia).
    + intros r c Hr Hc. cbn [sc_move sc_cell sc_set sc_scroll sc_margin sc_erase_row]. case_decide; [done|]. repeat case_decide; (done || lia).
Qed.
End Screen.

Section Erase.
Context (behind : Z → Z) (con : Z).
Local Instance con_console : Console cons := cons_console behind con.

Lemma blanks_fb n d : con_fb (blanks con n d) = Nat.iter (Z.to_nat n) (ramfb_putc behind 32) (con_fb d).
Proof.
  unfold blanks. induction (Z.to_nat n) as [|k IH]; [done|]. rewrite !Nat.iter_succ, <- IH. cbn. by rewrite Z.eqb_refl.
Qed.
(** The rows from [l] on, the first from [x] on: the last cell scrolls the screen. *)
Lemma erase_rows n : ∀ (start : Z → Z) l x d sc, Z.of_nat (S n) + l = MAX_ROWS → 0 <= l → start l = x → 0 <= x < MAX_COLS → (∀ k, l < k → start k = 0) → drawn behind (con_fb d) sc →
  let d' := fold_left (λ d k, blanks con (MAX_COLS - start k) (dev_set_cursor (start k) k d)) (seqZ l (Z.of_nat (S n))) d in
  let v := (32, rf_fg (con_fb d), rf_bg (con_fb d)) in
  shows behind (con_fb d') (sc_move 0 (MAX_ROWS - 1) (sc_scroll (rf_bg (con_fb d)) (sc_erase_below l x v sc))) ∧ con_uart d' = con_uart d.
Proof.
  induction n as [|n IH]; intros start l x d sc Hn Hl <- Hx Hz Hd; rewrite seqZ_cons by lia; cbn [fold_left].
  all: assert (shows behind (con_fb (dev_set_cursor (start l) l d)) (sc_move (start l) l sc)) as Hs
    by (apply shows_drawn; split; [done|]; split; [cbn [sc_move sc_col sc_row]; lia|exact (drawn_move _ _ _ _ _ _ _ Hd)]).
  all: set (d1 := dev_set_cursor (start l) l d) in *; assert (rf_fg (con_fb d1) = rf_fg (con_fb d) ∧ rf_bg (con_fb d1) = rf_bg (con_fb d) ∧ con_uart d1 = con_uart d) as (Hf1 & Hb1 & Hu1) by done.
  all: destruct (blanks_row behind (Z.to_nat (MAX_COLS - start l) - 1) _ _ Hs) as (H1 & H2 & H3); [cbn [sc_move sc_col]; lia|].
  all: replace (S (Z.to_nat (MAX_COLS - start l) - 1)) with (Z.to_nat (MAX_COLS - start l)) in * by lia; rewrite <- blanks_fb in H1, H2, H3.
  all: assert (con_uart (blanks con (MAX_COLS - start l) d1) = con_uart d) as Hu2
    by (unfold blanks; induction (Z.to_nat _) as [|k IHk]; [done|]; rewrite Nat.iter_succ, <- IHk; cbn; by rewrite Z.eqb_refl).
  all: set (d2 := blanks con (MAX_COLS - start l) d1) in *; clearbody d2; rewrite Hf1, Hb1 in *; cbn [sc_move sc_col sc_row] in H1.
  - change (Z.pred 1) with 0. rewrite seqZ_nil by lia. cbn [fold_left]. split; [|done]. unfold sc_newline in H1. rewrite decide_False in H1 by (cbn [sc_erase_row sc_row sc_move]; lia).
    eapply shows_ext; [exact H1|..]; try done. intros r c Hr Hc. cbn [sc_move sc_cell sc_scroll sc_margin sc_erase_row sc_erase_below].
    case_decide; [done|]. repeat case_decide; (done || lia).
  - replace (Z.pred (Z.of_nat (S (S n)))) with (Z.of_nat (S n)) by lia. replace (Z.succ l) with (l + 1) by lia.
    unfold sc_newline in H1. rewrite decide_True in H1 by (cbn [sc_erase_row sc_row sc_move]; lia). cbn [sc_erase_row sc_row sc_move] in H1. apply shows_drawn in H1 as (_ & _ & H1).
    destruct (IH start (l + 1) 0 d2 _ ltac:(lia) ltac:(lia) ltac:(apply Hz; lia) ltac:(pose proof max_cols; lia) ltac:(intros; apply Hz; lia) H1) as [Hr Hu].
    rewrite H2, H3 in Hr. split; [|by rewrite Hu]. eapply shows_ext; [exact Hr|..]; try done. intros r c Hr' Hc. cbn [sc_move sc_cell sc_scroll sc_margin sc_erase_row sc_erase_below].
    case_decide; [done|]. repeat case_decide; (done || lia).
Qed.

(** the escape sequence J (erase from the cursor to the end) of the console,
    whose window has the size of the screen: it blanks the cells from the cursor
    on by printing blanks, and the last of them, in the corner, scrolls.  The
    screen moves up by a row, the row of the cursor with it, while the cursor
    goes back to where it was. *)
Theorem erase_below_scrolls d sc p1 p2 cols0 : shows behind (con_fb d) sc →
  ∃ d', csi_effect con con cols0 74 p1 p2 0 MAX_ROWS MAX_COLS (cursor_x (con_fb d)) (cursor_y (con_fb d)) d = (cursor_x (con_fb d), cursor_y (con_fb d), d') ∧
    con_uart d' = con_uart d ∧
    shows behind (con_fb d') (sc_move (sc_col sc) (sc_row sc)
      (sc_scroll (rf_bg (con_fb d)) (sc_erase_below (sc_row sc) (sc_col sc) (32, rf_fg (con_fb d), rf_bg (con_fb d)) sc))).
Proof.
  intros ([Hx Hy] & [Hc Hr] & Hd)%shows_drawn. rewrite Hx, Hy. unfold csi_effect. cbn [Z.eqb Pos.eqb orb]. eexists. split; [reflexivity|].
  unfold clear_below. set (start := λ l, if l =? sc_row sc then sc_col sc else 0).
  destruct (erase_rows (Z.to_nat (MAX_ROWS - sc_row sc) - 1) start (sc_row sc) (sc_col sc) d sc) as [Hs Hu]; try done.
  - lia.
  - lia.
  - unfold start. by rewrite Z.eqb_refl.
  - intros k Hk. unfold start. by rewrite (proj2 (Z.eqb_neq k _)) by lia.
  - replace (Z.of_nat (S (Z.to_nat (MAX_ROWS - sc_row sc) - 1))) with (MAX_ROWS - sc_row sc) in * by lia. split; [exact Hu|].
    apply shows_drawn in Hs as (_ & _ & Hs). apply shows_drawn. split; [done|]. split; [done|]. exact (drawn_move _ _ _ _ _ _ _ Hs).
Qed.
End Erase.

(** ** Witnesses: a screen just cleared *)
Definition ex_ramfb : ramfb := mk_ramfb (λ _, 0) 0 0 0xFFFFFF 0.
Definition ex_screen : screen := mk_screen (λ _ _, (32, 0xFFFFFF, 0)) 0 0 0.
Lemma ex_shows behind : shows behind ex_ramfb ex_screen.
Proof.
  constructor; [done|split; by vm_compute| |done]. intros r c i j _ _ Hi _. cbn [ex_screen sc_cell]. by rewrite blank_px.
Qed.
Lemma ramfb_putc_refines_witness : shows (λ _, 0) ex_ramfb ex_screen ∧
  shows (λ _, 0) (ramfb_kprint (λ _, 0) [72; 105; 10; 200] ex_ramfb) (fold_left (λ sc c, sc_putc c 0xFFFFFF 0 sc) [72; 105; 10; 200] ex_screen).
Proof. split; [exact (ex_shows _)|]. exact (ramfb_putc_refines (λ _, 0) ex_ramfb ex_screen [72; 105; 10; 200] (ex_shows _)). Defined.
Lemma erase_below_scrolls_witness : shows (λ _, 0) (con_fb (mk_cons ex_ramfb [])) ex_screen ∧
  ∃ d', @csi_effect cons (cons_console (λ _, 0) 5) 5 5 170 74 1 1 0 MAX_ROWS MAX_COLS 0 0 (mk_cons ex_ramfb []) = (0, 0, d') ∧ con_uart d' = [] ∧
    shows (λ _, 0) (con_fb d') (sc_move 0 0 (sc_scroll 0 (sc_erase_below 0 0 (32, 0xFFFFFF, 0) ex_screen))).
Proof. split; [exact (ex_shows _)|]. exact (erase_below_scrolls (λ _, 0) 5 (mk_cons ex_ramfb []) ex_screen 1 1 170 (ex_shows _)). Defined.
