(* ===== verification/TtyIo.v ===== *)
(** Reading, writing and controlling a terminal: the second half of
    [kernel/drivers/tty.c]. *)
From S2P Require Export Tty.
Local Open Scope prog_scope.

Definition TCGETS : Z := 0x5401.
Definition TCSETS : Z := 0x5402.
Definition TCSETSW : Z := 0x5403.
Definition TCSETSF : Z := 0x5404.
Definition TCSBRK : Z := 0x5409.
Definition TCXONC : Z := 0x540A.
Definition TCFLSH : Z := 0x540B.
Definition TIOCEXCL : Z := 0x540C.
Definition TIOCNXCL : Z := 0x540D.
Definition TIOCSCTTY : Z := 0x540E.
Definition TIOCGPGRP : Z := 0x540F.
Definition TIOCSPGRP : Z := 0x5410.
Definition TIOCOUTQ : Z := 0x5411.
Definition TIOCSTI : Z := 0x5412.
Definition TIOCGWINSZ : Z := 0x5413.
Definition TIOCSWINSZ : Z := 0x5414.
Definition FIONREAD : Z := 0x541B.
Definition FIONBIO : Z := 0x5421.
Definition TIOCNOTTY : Z := 0x5422.
Definition TIOCSETD : Z := 0x5423.
Definition TIOCGETD : Z := 0x5424.
Definition TCSBRKP : Z := 0x5425.
Definition TIOCGSID : Z := 0x5429.
Definition TCOOFF : Z := 0.
Definition TCOON : Z := 1.
Definition TCIOFF : Z := 2.
Definition TCION : Z := 3.
Definition TCIFLUSH : Z := 0.
Definition TCOFLUSH : Z := 1.
Definition TCIOFLUSH : Z := 2.

(** How a pass of a read ends: the result; asleep, or asleep with a timeout,
    with [n] characters read so far; or the next pass follows at once. *)
Inductive read_pass := RReturn (r : Z) | RSleep (n : Z) | RTimed (n : Z) | RAgain (n : Z).
(** A write ends, or sleeps with [i] characters written. *)
Inductive write_pass := WReturn (r : Z) | WSleep (i : Z).

Section io.
Context {FA D : Type} `{!FrameAllocator FA} `{!Console D}.
Context (tty_console RAMFB_COLS current_interval : Z).

(** ** [n_tty_read] *)

(** [proc->signals->pending & ~proc->signals->blocked]. *)
Definition interrupted : M (kst FA * D) bool :=
  o <- in_kst current_proc;;
  match o with
  | None => ret false
  | Some p =>
      x <- in_kst (proc_of p);;
      ret (match p_signals x with
           | None => false
           | Some si => negb (andnot (sig_pending si) (sig_blocked si) =? 0)
           end)
  end.

(** The inner loop of the canonical mode, over the characters of the ring, at
    most [n]: the number read, and whether the read ends there. *)
Fixpoint read_line (n : nat) (a buf read_count : Z) : M (kst FA * D) (Z * bool) :=
  match n with
  | O => ret (read_count, false)
  | S n' =>
      t <- tty_of a;;
      if read_buf_empty (tty_in t) then ret (read_count, false)
      else
        g <- of_opt (read_buf_get (tty_in t));;
        upd_in a (λ _, g.2);;;
        let c := g.1 in
        let m := tty_termios t in
        if c =? cc m VEOF then
          upd_in a (λ i, set_canon_lines (canon_lines i - 1) i);;; ret (read_count, true)
        else
          in_kst (kwrite (buf + read_count) c);;;
          if (c =? NL) || (c =? cc m VEOL) || (c =? cc m VEOL2) then
            upd_in a (λ i, set_canon_lines (canon_lines i - 1) i);;; ret (read_count + 1, true)
          else read_line n' a buf (read_count + 1)
  end.
(** [to_read] characters of the other mode. *)
Fixpoint read_chars (n : nat) (a buf read_count : Z) : M (kst FA * D) Z :=
  match n with
  | O => ret read_count
  | S n' =>
      t <- tty_of a;;
      g <- of_opt (read_buf_get (tty_in t));;
      upd_in a (λ _, g.2);;;
      in_kst (kwrite (buf + read_count) g.1);;;
      read_chars n' a buf (read_count + 1)
  end.
Definition read_available (a buf count read_count available : Z) : M (kst FA * D) Z :=
  if 0 <? available then
    read_chars (Z.to_nat (if available <? count - read_count then available else i32 (count - read_count))) a buf read_count
  else ret read_count.
Definition tty_sleep (q : Z) : M (kst FA * D) unit := in_kst (on_sched (sleep_on q (ret tt))).
Definition timeout_ticks (vtime : Z) : Z :=
  let t := vtime * 100 / current_interval in if t =? 0 then 1 else t.
(** [sleep_on_timeout] up to the switch; the test of what woke the task is
    [n_tty_read_timed]. *)
Definition tty_sleep_timeout (q vtime : Z) : M (kst FA * D) unit :=
  in_kst (on_sched (sleep_on_timeout_begin q (timeout_ticks vtime)));;; ret tt.

Definition read_canonical (a buf count read_count : Z) (t : tty) : M (kst FA * D) read_pass :=
  if canon_lines (tty_in t) =? 0 then
    tty_release a;;; tty_sleep (tty_read_wait t);;; ret (RSleep read_count)
  else
    r <- read_line (Z.to_nat (count - read_count)) a buf read_count;;
    tty_release a;;;
    ret (if (r.2 : bool) then RReturn r.1 else RAgain r.1).
(** The end of the non-canonical branch, for [vmin > 0] and no timeout once
    fewer than [vmin] characters were asked for. *)
Definition read_fallback (a buf count read_count available : Z) (t : tty) : M (kst FA * D) read_pass :=
  if 0 <? available then
    r <- read_available a buf count read_count available;;
    tty_release a;;;
    ret (RReturn r)
  else tty_release a;;; tty_sleep (tty_read_wait t);;; ret (RSleep read_count).
Definition read_raw (a buf count read_count : Z) (t : tty) : M (kst FA * D) read_pass :=
  let vmin := cc (tty_termios t) VMIN in
  let vtime := cc (tty_termios t) VTIME in
  let available := input_available (tty_in t) in
  if (vmin =? 0) && (vtime =? 0) then
    r <- read_available a buf count read_count available;;
    tty_release a;;;
    ret (RReturn r)
  else if (0 <? vmin) && (vtime =? 0) then
    if (available <? vmin) && (available <? count - read_count) then
      tty_release a;;; tty_sleep (tty_read_wait t);;; ret (RSleep read_count)
    else
      r <- read_chars (Z.to_nat (if available <? count - read_count then available else i32 (count - read_count))) a buf read_count;;
      if vmin <=? r then tty_release a;;; ret (RReturn r)
      else read_fallback a buf count r available t
  else if vmin =? 0 then
    if 0 <? available then
      r <- read_available a buf count read_count available;;
      tty_release a;;;
      ret (RReturn r)
    else
      tty_release a;;; tty_sleep_timeout (tty_read_wait t) vtime;;; ret (RTimed read_count)
  else
    if (read_count =? 0) && (available =? 0) then
      tty_release a;;; tty_sleep (tty_read_wait t);;; ret (RSleep read_count)
    else
      r <- read_available a buf count read_count available;;
      tty_release a;;;
      if (vmin <=? r) || (count <=? r) then ret (RReturn r)
      else tty_sleep_timeout (tty_read_wait t) vtime;;; ret (RTimed r).

Definition n_tty_read_pass (a buf count read_count : Z) : M (kst FA * D) read_pass :=
  if count <=? read_count then ret (RReturn read_count)
  else
    tty_acquire a;;;
    stop <- interrupted;;
    if (stop : bool) then tty_release a;;; ret (RReturn (if 0 <? read_count then read_count else u64 (- EINTR)))
    else
      t <- tty_of a;;
      if has (tty_lflag t) ICANON then read_canonical a buf count read_count t
      else read_raw a buf count read_count t.
(** The passes that follow one another; [None] when [fuel] is not enough. *)
Fixpoint n_tty_read (fuel : nat) (a buf count read_count : Z) : M (kst FA * D) (option read_pass) :=
  match fuel with
  | O => ret None
  | S f =>
      r <- n_tty_read_pass a buf count read_count;;
      match r with
      | RAgain n => n_tty_read f a buf count n
      | _ => ret (Some r)
      end
  end.
(** After a sleep with a timeout. *)
Definition n_tty_read_timed (a buf count read_count : Z) : M (kst FA * D) read_pass :=
  timed_out <- in_kst (on_sched sleep_on_timeout_end);;
  if timed_out =? 0 then n_tty_read_pass a buf count read_count else ret (RReturn read_count).

(** ** [n_tty_write] *)

(** The loop from character [i], [n] characters before the end. *)
Fixpoint write_loop (n : nat) (a buf i : Z) : M (kst FA * D) write_pass :=
  match n with
  | O => ret (WReturn i)
  | S n' =>
      t <- tty_of a;;
      if has (tty_flags t) TTY_STOPPED then tty_sleep (tty_write_wait t);;; ret (WSleep i)
      else
        c <- in_kst (kread (buf + i));;
        tty_put_char tty_console RAMFB_COLS a c;;;
        write_loop n' a buf (i + 1)
  end.
Definition n_tty_write (a buf count : Z) : M (kst FA * D) write_pass :=
  r <- tty_check_change a;;
  if r <? 0 then ret (WReturn (u64 (- EINTR))) else write_loop (Z.to_nat count) a buf 0.

(** ** The file operations *)

(** The controlling terminal, or the console. *)
Definition this_tty : M (kst FA * D) Z :=
  o <- in_kst current_proc;;
  match o with
  | None => ret tty_console
  | Some p => x <- in_kst (proc_of p);; ret (if p_controlling_tty x =? 0 then tty_console else p_controlling_tty x)
  end.
Definition tty_read (size buffer : Z) : M (kst FA * D) read_pass := a <- this_tty;; n_tty_read_pass a buffer size 0.
Definition tty_write (size buffer : Z) : M (kst FA * D) write_pass := a <- this_tty;; n_tty_write a buffer size.
Definition tty_open : M (kst FA * D) unit :=
  let a := tty_console in
  tty_acquire a;;;
  upd_tty a (λ t, set_tty_count (tty_count t + 1) t);;;
  o <- in_kst current_proc;;
  (match o with
   | None => ret tt
   | Some p =>
       x <- in_kst (proc_of p);;
       if p_session_leader x && (p_controlling_tty x =? 0) then
         in_kst (upd_proc p (set_p_controlling_tty a));;;
         upd_tty a (set_tty_job p (p_sid x) (p_pgid x))
       else ret tt
   end);;;
  tty_release a.
Definition tty_close : M (kst FA * D) unit :=
  let a := tty_console in
  tty_acquire a;;;
  upd_tty a (λ t, set_tty_count (tty_count t - 1) t);;;
  t <- tty_of a;;
  (if (tty_count t =? 0) && negb (tty_session t =? 0) then
     tty_release a;;;
     tty_signal_session a SIGHUP;;;
     tty_acquire a;;;
     upd_tty a (set_tty_job 0 0 0)
   else ret tt);;;
  tty_release a.

(** ** [tty_ioctl] *)

(** A value sent to the user, and one fetched from him into [body]. *)
Definition give (arg : Z) (l : list Z) : M (kst FA * D) Z :=
  r <- in_kst (copy_bytes_to_user arg l);; ret (if negb (r =? 0) then -1 else 0).
Definition take_arg (arg n : Z) (body : list Z → M (kst FA * D) Z) : M (kst FA * D) Z :=
  o <- in_kst (copy_bytes_from_user arg n);; match o with None => ret (-1) | Some l => body l end.
Definition locked_upd (a : Z) (f : tty → tty) : M (kst FA * D) unit := tty_acquire a;;; upd_tty a f;;; tty_release a.
Definition set_termios (a arg : Z) (flush : bool) : M (kst FA * D) Z :=
  take_arg arg SIZEOF_TERMIOS (λ l,
    locked_upd a (λ t, set_tty_termios (termios_of_bytes l) (if flush then set_tty_in (flush_input (tty_in t)) t else t));;;
    ret 0).
Definition set_window (a arg : Z) : M (kst FA * D) Z :=
  t <- tty_of a;;
  take_arg arg 8 (λ l,
    let w := winsize_of_bytes l in
    let old := tty_winsize t in
    locked_upd a (set_tty_winsize w);;;
    (if negb (ws_row old =? ws_row w) || negb (ws_col old =? ws_col w) then tty_signal_session a SIGWINCH;;; ret tt else ret tt);;;
    ret 0).
(** The current process in the session commands, where the task is not
    tested. *)
Definition job_proc : M (kst FA * D) (option (Z * process)) :=
  o <- in_kst current_proc;;
  match o with None => ret None | Some p => x <- in_kst (proc_of p);; ret (Some (p, x)) end.
Definition set_group (a arg : Z) : M (kst FA * D) Z :=
  take_arg arg 8 (λ l,
    tty_acquire a;;;
    t <- tty_of a;;
    o <- job_proc;;
    r <- (match o with
          | None => ret (- ENOTTY)
          | Some (_, x) =>
              if negb (p_sid x =? tty_session_id t) then ret (- ENOTTY) else upd_tty a (set_tty_pgrp (of_le l));;; ret 0
          end);;
    tty_release a;;;
    ret r).
(** The commands that run with the lock held. *)
Definition flow_command (a arg : Z) : M (kst FA * D) Z :=
  t <- tty_of a;;
  if arg =? TCOOFF then upd_tty a (set_tty_flags (Z.lor (tty_flags t) TTY_STOPPED));;; ret 0
  else if arg =? TCOON then
    upd_tty a (set_tty_flags (andnot (tty_flags t) TTY_STOPPED));;; wake (tty_write_wait t);;; ret 0
  else if arg =? TCIOFF then tty_put_char tty_console RAMFB_COLS a (cc (tty_termios t) VSTOP);;; ret 0
  else if arg =? TCION then tty_put_char tty_console RAMFB_COLS a (cc (tty_termios t) VSTART);;; ret 0
  else ret (-1).
Definition locked_command (a request arg : Z) : M (kst FA * D) Z :=
  t <- tty_of a;;
  if request =? TIOCSCTTY then
    o <- job_proc;;
    match o with
    | Some (p, x) =>
        if p_session_leader x then
          upd_tty a (set_tty_job p (p_sid x) (p_pgid x));;;
          in_kst (upd_proc p (set_p_controlling_tty a));;;
          ret 0
        else ret (- EPERM)
    | None => ret (- EPERM)
    end
  else if request =? TIOCNOTTY then
    o <- job_proc;;
    match o with
    | Some (_, x) => (if tty_session_id t =? p_sid x then upd_tty a (set_tty_job 0 0 0) else ret tt);;; ret 0
    | None => ret 0
    end
  else if request =? TIOCEXCL then upd_tty a (set_tty_flags (Z.lor (tty_flags t) TTY_EXCLUSIVE));;; ret 0
  else if request =? TIOCNXCL then upd_tty a (set_tty_flags (andnot (tty_flags t) TTY_EXCLUSIVE));;; ret 0
  else if request =? TCXONC then flow_command a arg
  else if request =? TCFLSH then
    if (arg =? TCIFLUSH) || (arg =? TCIOFLUSH) then upd_in a flush_input;;; ret 0
    else if arg =? TCOFLUSH then ret 0 else ret (-1)
  else if (request =? TCSBRK) || (request =? TCSBRKP) || (request =? FIONBIO) then ret 0
  else ret (- ENOTTY).
Definition tty_ioctl (request arg : Z) : M (kst FA * D) Z :=
  a <- this_tty;;
  tty_acquire a;;;
  t <- tty_of a;;
  if request =? TCGETS then tty_release a;;; give arg (termios_bytes (tty_termios t))
  else if (request =? TCSETS) || (request =? TCSETSW) then tty_release a;;; set_termios a arg false
  else if request =? TCSETSF then tty_release a;;; set_termios a arg true
  else if request =? TIOCGWINSZ then tty_release a;;; give arg (winsize_bytes (tty_winsize t))
  else if request =? TIOCSWINSZ then tty_release a;;; set_window a arg
  else if request =? TIOCGPGRP then tty_release a;;; give arg (le_bytes 8 (tty_pgrp t))
  else if request =? TIOCSPGRP then tty_release a;;; set_group a arg
  else if request =? TIOCGSID then tty_release a;;; give arg (le_bytes 8 (tty_session_id t))
  else if request =? FIONREAD then tty_release a;;; give arg (le_bytes 4 (input_available (tty_in t)))
  else if request =? TIOCOUTQ then tty_release a;;; give arg (le_bytes 4 0)
  else if request =? TIOCSTI then
    tty_release a;;;
    take_arg arg 1 (λ l, tty_receive_char tty_console RAMFB_COLS a (nth 0 l 0);;; ret 0)
  else if request =? TIOCGETD then tty_release a;;; give arg (le_bytes 4 (c_line (tty_termios t)))
  else if request =? TIOCSETD then
    tty_release a;;;
    take_arg arg 4 (λ l, locked_upd a (λ t, set_tty_termios (set_c_line (u8 (of_le l)) (tty_termios t)) t);;; ret 0)
  else
    r <- locked_command a request arg;;
    tty_release a;;;
    ret r.

(** ** Other entry points *)

Definition tty_flush_input (a : Z) : M (kst FA * D) unit := locked_upd a (λ t, set_tty_in (flush_input (tty_in t)) t).
Definition tty_hangup (a : Z) : M (kst FA * D) unit :=
  locked_upd a (λ t, set_tty_in (flush_input (tty_in t)) (set_tty_flags (Z.lor (tty_flags t) TTY_HUPPED) t));;;
  t <- tty_of a;;
  (if 0 <? tty_pgrp t then
     in_kst (signal_send_group (tty_pgrp t) SIGHUP);;;
     t <- tty_of a;;
     in_kst (signal_send_group (tty_pgrp t) SIGCONT);;; ret tt
   else ret tt);;;
  wake (tty_read_wait t);;;
  wake (tty_write_wait t).
Definition tty_set_termios (a : Z) (m : termios) : M (kst FA * D) Z := locked_upd a (set_tty_termios m);;; ret 0.
Definition tty_set_pgrp (a pgrp : Z) : M (kst FA * D) Z := locked_upd a (set_tty_pgrp pgrp);;; ret 0.
Definition tty_get_pgrp (a : Z) : M (kst FA * D) Z := t <- tty_of a;; ret (tty_pgrp t).
(** [tty_init], the two terminals and their wait queues; the console has the
    size of the frame buffer. *)
Definition tty_init (tty_serial width height : Z) (crw cww srw sww : Z) : M (kst FA * D) unit :=
  let console := set_tty_winsize (mk_winsize (height / 10) (width / 8) width height) (init_tty_struct crw cww) in
  in_kst (modify (λ k, set_k_ttys (<[tty_serial := init_tty_struct srw sww]> (<[tty_console := console]> (k_ttys k))) k)).
End io.
