(* ===== verification/TtyLine.v ===== *)
(** The line discipline of a terminal as an editor of lines: what
    [tty_receive_char] does to the line being typed and to the characters ready
    for a reader, and what [n_tty_read] hands over. *)
From S2P Require Export TtyIo Sync.
Local Open Scope prog_scope.

(** ** The editor *)

(** The characters a reader can get, the line being edited, and the number of
    lines the terminal counts. *)
Record line_state := mk_line_state { ls_ready : list Z; ls_line : list Z; ls_count : Z }.

(** The longest queue of characters, and line, that fit. *)
Definition ring_room : nat := Z.to_nat (BUF_SIZE - 1).
Definition line_room (l : list Z) : bool := Z.of_nat (length l) <? MAX_CANON - 1.
Fixpoint drop_prefix (go : Z → bool) (l : list Z) : list Z :=
  match l with [] => [] | c :: l' => if go c then drop_prefix go l' else l end.
(** The line without its last characters that satisfy [go]. *)
Definition strip (go : Z → bool) (l : list Z) : list Z := reverse (drop_prefix go (reverse l)).
Definition chop (l : list Z) : list Z := take (pred (length l)) l.
Definition type_char (c : Z) (l : list Z) : list Z := if line_room l then l ++ [c] else l.
Definition set_ls_line (l : list Z) (s : line_state) : line_state := mk_line_state (ls_ready s) l (ls_count s).
(** The line [l] ends: it becomes ready, as far as there is room. *)
Definition commit (l : list Z) (s : line_state) : line_state :=
  mk_line_state (take ring_room (ls_ready s ++ l)) [] (ls_count s + 1).

(** One character typed, after the mapping of the input flags. *)
Definition edit (m : termios) (c : Z) (s : line_state) : line_state :=
  let ext := has (c_lflag m) IEXTEN in
  let l := ls_line s in
  if (c =? cc m VERASE) || (c =? BS) || (c =? 127) then set_ls_line (chop l) s
  else if ext && (c =? cc m VWERASE) then set_ls_line (strip (λ c, negb (c =? SPACE)) (strip (λ c, c =? SPACE) l)) s
  else if c =? cc m VKILL then (if has (c_lflag m) ECHO then set_ls_line [] s else s)
  else if ext && ((c =? cc m VREPRINT) || (c =? cc m VDISCARD)) then s
  else if c =? cc m VEOF then (if decide (l = []) then mk_line_state (ls_ready s) [] (ls_count s + 1) else commit l s)
  else if (c =? cc m VEOL) || (ext && (c =? cc m VEOL2)) then (if c =? 0 then s else commit (type_char c l) s)
  else if c =? NL then commit (type_char NL l) s
  else set_ls_line (type_char c l) s.

(** The input state [i] holds [s]: a ring of characters and a line buffer. *)
Record holds (i : tty_input) (s : line_state) : Prop := mk_holds {
  h_size : Z.of_nat (length (read_buf i)) = BUF_SIZE;
  h_tail : 0 <= read_tail i < BUF_SIZE;
  h_head : read_head i = (read_tail i + Z.of_nat (length (ls_ready s))) mod BUF_SIZE;
  h_room : (length (ls_ready s) <= ring_room)%nat;
  h_cnt : read_cnt i = Z.of_nat (length (ls_ready s));
  h_bytes : ∀ j v, 0 <= j → ls_ready s !! Z.to_nat j = Some v → zget (read_buf i) ((read_tail i + j) mod BUF_SIZE) = Some v;
  h_canon : Z.of_nat (length (canon_buf i)) = MAX_CANON;
  h_canon_head : canon_head i = Z.of_nat (length (ls_line s));
  h_line : Z.of_nat (length (ls_line s)) < MAX_CANON;
  h_chars : take (length (ls_line s)) (canon_buf i) = ls_line s;
  h_lines : canon_lines i = ls_count s;
}.

(** ** The ring *)

Lemma holds_head i s : holds i s → 0 <= read_head i < BUF_SIZE.
Proof. intros []. rewrite h_head0. by apply Z.mod_pos_bound. Qed.
Lemma holds_full i s : holds i s → read_buf_full i = bool_decide (length (ls_ready s) = ring_room).
Proof.
  intros []. unfold read_buf_full, ring_room, BUF_SIZE in *. rewrite h_head0.
  case_bool_decide; [apply Z.eqb_eq|apply Z.eqb_neq]; zlia.
Qed.
Lemma holds_empty i s : holds i s → read_buf_empty i = bool_decide (ls_ready s = []).
Proof.
  intros []. unfold read_buf_empty, ring_room, BUF_SIZE in *. rewrite h_head0.
  case_bool_decide as H; [rewrite H; apply Z.eqb_eq; simpl; zlia|]. destruct (ls_ready s); [done|]. simpl in *.
  apply Z.eqb_neq; zlia.
Qed.

Lemma put_ok i s c : holds i s →
  ∃ i', read_buf_put i c = Some i' ∧ holds i' (mk_line_state (take ring_room (ls_ready s ++ [c])) (ls_line s) (ls_count s)).
Proof.
  intros H. pose proof (holds_head i s H) as Hh. pose proof (holds_full i s H) as Hf. destruct H.
  unfold read_buf_put. rewrite Hf. case_bool_decide as He.
  - exists i. split; [done|]. rewrite take_app_le, take_ge by lia. by split.
  - rewrite zset_is_Some by lia. eexists. split; [done|]. rewrite take_ge by (rewrite length_app; simpl; lia).
    split; simpl; try done.
    + by rewrite length_insert.
    + rewrite h_head0, length_app, Z.rem_mod_nonneg by (unfold BUF_SIZE; zlia). rewrite Zplus_mod_idemp_l. f_equal. simpl. lia.
    + rewrite length_app. simpl. lia.
    + rewrite length_app. simpl. lia.
    + intros j v Hj Hv. rewrite h_head0, zget_insert; [|rewrite h_size0; by apply Z.mod_pos_bound|by apply Z.mod_pos_bound].
      unfold ring_room in *. pose proof (lookup_lt_Some _ _ _ Hv) as Hlt. rewrite length_app in Hlt. simpl in Hlt.
      destruct (decide (Z.to_nat j = length (ls_ready s))) as [Hj'|Hj'].
      * rewrite lookup_app_r, Hj', Nat.sub_diag in Hv by lia. injection Hv as <-. rewrite decide_True; [done|]. f_equal. lia.
      * rewrite lookup_app_l in Hv by lia. rewrite decide_False; [by apply h_bytes0|]. intros Heq. symmetry in Heq; apply mod_inj in Heq; unfold BUF_SIZE in *; lia.
Qed.
Lemma put_line_ok l : ∀ i s, holds i s →
  ∃ i', put_line l i = Some i' ∧ holds i' (mk_line_state (take ring_room (ls_ready s ++ l)) (ls_line s) (ls_count s)).
Proof.
  induction l as [|c l IH]; intros i s H.
  - exists i. split; [done|]. rewrite app_nil_r, take_ge by apply (h_room i s H). by destruct s.
  - destruct (put_ok i s c H) as (i1 & H1 & Hi1). destruct (IH i1 _ Hi1) as (i2 & H2 & Hi2). exists i2.
    split; [simpl; rewrite H1; exact H2|]. simpl in Hi2. pose proof (h_room i s H) as Hr.
    destruct (decide (length (ls_ready s) = ring_room)) as [He|He].
    + rewrite (take_app_le _ [c]), (take_ge (ls_ready s)), !take_app_le, !take_ge in Hi2 by lia. by rewrite take_app_le, take_ge by lia.
    + rewrite (take_ge (ls_ready s ++ [c])) in Hi2 by (rewrite length_app; simpl; lia). by rewrite <- (app_assoc _ [c]) in Hi2.
Qed.
Lemma get_ok i s c q : holds i s → ls_ready s = c :: q →
  ∃ i', read_buf_get i = Some (c, i') ∧ holds i' (mk_line_state q (ls_line s) (ls_count s)).
Proof.
  intros H Hq. unfold read_buf_get. rewrite (holds_empty i s H), Hq. destruct H. rewrite Hq in *. simpl in *.
  pose proof (h_bytes0 0 c ltac:(lia) eq_refl) as Hc. rewrite Z.add_0_r, Z.mod_small in Hc by done. rewrite Hc.
  eexists. split; [done|]. split; simpl; try done; try lia.
  - rewrite Z.rem_mod_nonneg by lia. by apply Z.mod_pos_bound.
  - rewrite h_head0, Z.rem_mod_nonneg, Zplus_mod_idemp_l by (unfold BUF_SIZE in *; lia). f_equal. lia.
  - intros j v Hj Hv. rewrite Z.rem_mod_nonneg, Zplus_mod_idemp_l, <- Z.add_assoc by (unfold BUF_SIZE in *; lia).
    apply h_bytes0; [lia|]. by replace (Z.to_nat (1 + j)) with (S (Z.to_nat j)) by lia.
Qed.

(** ** The line buffer *)

Lemma chop_snoc l c : chop (l ++ [c]) = l.
Proof. unfold chop. rewrite length_app, Nat.add_comm. simpl. by rewrite take_app_length. Qed.
Lemma holds_last i s l c : holds i s → ls_line s = l ++ [c] → zget (canon_buf i) (canon_head i - 1) = Some c.
Proof.
  intros [] Hl. rewrite Hl, length_app in *. simpl in *. unfold zget. rewrite decide_True by lia.
  replace (Z.to_nat (canon_head i - 1)) with (length l) by lia.
  rewrite <- (lookup_take_lt _ (length l + 1)) by lia. rewrite h_chars0. by rewrite list_lookup_middle.
Qed.
Lemma holds_cut i s n k : holds i s → (n <= length (ls_line s))%nat →
  holds (set_canon_column k (set_canon_head (Z.of_nat n) i)) (set_ls_line (take n (ls_line s)) s).
Proof.
  intros [] Hn. split; simpl; try done; rewrite ?length_take_le by lia; try lia.
  rewrite <- h_chars0, take_take. by rewrite Nat.min_l by lia.
Qed.
Lemma holds_append i s c : holds i s → line_room (ls_line s) = true →
  ∃ l, zset (canon_buf i) (canon_head i) c = Some l ∧
    holds (set_canon_head (canon_head i + 1) (set_canon_buf l i)) (set_ls_line (ls_line s ++ [c]) s).
Proof.
  intros [] Hr. unfold line_room, MAX_CANON in *. apply Z.ltb_lt in Hr. rewrite zset_is_Some by lia. eexists. split; [done|].
  split; simpl; try done; rewrite ?length_insert, ?length_app; simpl; unfold MAX_CANON; try lia.
  rewrite h_canon_head0, Nat2Z.id. rewrite Nat.add_1_r, (take_S_r _ _ c); [|apply list_lookup_insert_eq; lia].
  by rewrite take_insert_ge, h_chars0 by lia.
Qed.

(** ** Output does not fail, and changes nothing that the editor sees *)

Definition out_ok (o : tty_output) : Prop := Z.of_nat (length (csi_params o)) = MAX_CSI_PARAMS ∧ 0 <= csi_param_count o <= MAX_CSI_PARAMS.
(** Terminal [t'] is [t] up to its output. *)
Definition same (t t' : tty) : Prop := ∃ o, out_ok o ∧ t' = set_tty_out o t.

Create HintDb tty.
Section triples.
Context {FA D : Type} `{!FrameAllocator FA} `{!Console D}.
Context (con RAMFB_COLS current_interval : Z).
Implicit Types k : kst FA.

(** State [k] with terminal [a] and the scheduler replaced. *)
Definition tst k (a : Z) (t : tty) (s : sched) (d : D) : kst FA * D := (set_k_ttys (<[a := t]> (k_ttys k)) (set_k_sched s k), d).
Lemma tty_of_tst k a t s d : tty_of a (tst k a t s d) = Done (t, tst k a t s d).
Proof. unfold tty_of, in_kst, zoom, get_tty, tst. cbn. by rewrite lookup_insert_eq. Qed.
Lemma upd_tty_tst k a t s d f : upd_tty a f (tst k a t s d) = Done (tt, tst k a (f t) s d).
Proof. unfold upd_tty, in_kst, zoom, mod_tty, tst. cbn. rewrite lookup_insert_eq. unfold set_k_ttys. cbn. by rewrite insert_insert_eq. Qed.
Lemma device_tst k a t s d f : device f (tst k a t s d) = Done (tt, tst k a t s (f d)).
Proof. done. Qed.
Lemma on_sched_tst {A} k a t s d s' (op : M sched A) r : op s = Done (r, s') →
  in_kst (on_sched op) (tst k a t s d) = Done (r, tst k a t s' d).
Proof. intros H. unfold in_kst, on_sched, zoom, tst. cbn. by rewrite H. Qed.

(** The terminal of [y] is [t] up to its output, the rest is as in [k] up to
    tasks woken and to the devices. *)
Inductive seen k (a : Z) (t : tty) : kst FA * D → Prop :=
| seen_intro t' s d Q W : same t t' → sync_ok s Q W → calm (k_sched k) s → seen k a t (tst k a t' s d).

Lemma seen_tty k a t y : seen k a t y → runs_to (tty_of a) y (λ t' y', same t t' ∧ y' = y).
Proof. intros []. eapply runs_Done; [apply tty_of_tst|done]. Qed.
(** An update of the terminal that does not depend on its output. *)
Lemma seen_upd k a t y f : seen k a t y → (∀ o u, f (set_tty_out o u) = set_tty_out o (f u)) →
  runs_to (upd_tty a f) y (λ _, seen k a (f t)).
Proof.
  intros [t' s d Q W [o [Ho ->]] Hs Hc] Hf. eapply runs_Done; [apply upd_tty_tst|]. econstructor; [|done|done].
  exists o. split; [done|apply Hf].
Qed.
Lemma seen_upd_in k a t y f : seen k a t y → runs_to (upd_in a f) y (λ _, seen k a (set_tty_in (f (tty_in t)) t)).
Proof. intros H. by apply (seen_upd k a t y (λ t, set_tty_in (f (tty_in t)) t)). Qed.
Lemma seen_wake k a t y q : seen k a t y → runs_to (wake q) y (λ _, seen k a t).
Proof.
  intros [t' s d Q W Ht Hs Hc]. destruct (wake_up_sync s Q W q Hs) as (s' & Q' & Hrun & Hs' & Hc' & _).
  eapply runs_Done; [by apply on_sched_tst|]. econstructor; [done|done|]. by etrans.
Qed.

(** Code that only prints. *)
Definition prints {A} (a : Z) (m : M (kst FA * D) A) : Prop :=
  ∀ k t y, seen k a t y → runs_to m y (λ _, seen k a t).
Lemma prints_ret {A} a (x : A) : prints a (ret x).
Proof. by intros k t y H. Qed.
Lemma prints_bind {A B} a (m : M (kst FA * D) A) (f : A → M (kst FA * D) B) : prints a m → (∀ x, prints a (f x)) → prints a (bind m f).
Proof. intros Hm Hf k t y H. rstep Hm; [done|]. intros x y' H'. by apply Hf. Qed.
Lemma prints_tty {A} a (f : tty → M (kst FA * D) A) : (∀ t, out_ok (tty_out t) → prints a (f t)) → prints a (bind (tty_of a) f).
Proof. intros Hf k t y H. rstep seen_tty; [done|]. intros t' y' [[o [Ho ->]] ->]. by apply Hf. Qed.
Lemma prints_upd_out a f : (∀ o, out_ok o → out_ok (f o)) → prints a (upd_out a f).
Proof.
  intros Hf k t y [t' s d Q W [o [Ho ->]] Hs Hc]. eapply runs_Done; [apply upd_tty_tst|]. econstructor; [|done|done].
  exists (f o). auto.
Qed.
Lemma prints_device a f : prints a (device f).
Proof. intros k t y []. eapply runs_Done; [apply device_tst|]. by econstructor. Qed.
Lemma prints_gets {A} a (f : D → A) : prints a (in_snd (gets f)).
Proof. intros k t y []. by econstructor. Qed.
Lemma prints_for_each {A} a (body : A → M (kst FA * D) unit) l : (∀ x, prints a (body x)) → prints a (for_each body l).
Proof. intros Hb k t y H. apply runs_for_each; [|done]. intros x y'. apply Hb. Qed.
Lemma prints_if {A} a (b : bool) (m n : M (kst FA * D) A) : prints a m → prints a n → prints a (if b then m else n).
Proof. by destruct b. Qed.
Lemma prints_of_opt {A} a (x : option A) : is_Some x → prints a (of_opt x).
Proof. intros [v ->] k t y H. done. Qed.
#[local] Hint Resolve prints_ret prints_bind prints_tty prints_device prints_gets prints_for_each prints_if prints_of_opt : tty.

Lemma sgr_param_ok o p : out_ok o → out_ok (sgr_param o p).
Proof. intros Ho. unfold sgr_param. repeat case_match; exact Ho. Qed.
Lemma sgr_params_ok l : ∀ o, out_ok o → out_ok (fold_left sgr_param l o).
Proof. induction l; intros o Ho; [done|]. by apply IHl, sgr_param_ok. Qed.
Lemma prints_csi a c : prints a (handle_csi_command con RAMFB_COLS a c).
Proof.
  unfold handle_csi_command, handle_sgr, tty_update_color. apply prints_tty. intros t Ho. apply prints_if.
  - apply prints_tty. intros u Hu. apply prints_bind; [|intros; apply prints_device]. apply prints_upd_out. intros _ _.
    case_match; [exact Hu|by apply sgr_params_ok].
  - apply prints_bind; [apply prints_gets|]. intros [x y]. apply prints_bind; [apply prints_gets|]. intros d.
    destruct (csi_effect con a RAMFB_COLS _ _ _ _ _ _ _ _ d) as [[x' y'] d'].
    apply prints_bind; [apply prints_device|]. intros _. by apply prints_upd_out.
Qed.
Lemma prints_escape a c : prints a (escape con RAMFB_COLS a c).
Proof.
  unfold escape. apply prints_if; [apply prints_ret|]. apply prints_tty. intros t [Hl Hc].
  assert (Hset : ∀ i v n, 0 <= n <= MAX_CSI_PARAMS → ∀ o, out_ok o → out_ok (set_csi_params (<[i := v]> (csi_params o)) (set_csi_param_count n o))).
  { intros i v n Hn o [? ?]. split; simpl; [by rewrite length_insert|done]. }
  unfold MAX_CSI_PARAMS in *. destruct (o_state (tty_out t)).
  - apply prints_if; [|apply prints_ret]. apply prints_bind; [by apply prints_upd_out|]. intros; apply prints_ret.
  - apply prints_if.
    + apply prints_bind; [|intros; apply prints_ret]. apply prints_upd_out, (Hset 0%nat 0 0). lia.
    + apply prints_bind; [by apply prints_upd_out|]. intros; apply prints_ret.
  - apply prints_if; [|apply prints_if].
    + set (n := if csi_param_count (tty_out t) =? 0 then 1 else csi_param_count (tty_out t)). assert (1 <= n <= 8) by (unfold n; case_match; lia).
      apply prints_bind; [apply prints_of_opt, zget_is_Some; lia|]. intros cur. apply prints_bind; [|intros; apply prints_ret].
      apply prints_upd_out, Hset. lia.
    + apply prints_bind; [|intros; apply prints_ret]. case_match; [|apply prints_ret]. apply prints_upd_out, Hset. lia.
    + apply prints_bind; [apply prints_csi|]. intros _. apply prints_bind; [by apply prints_upd_out|]. intros; apply prints_ret.
Qed.
Lemma prints_out a c : prints a (do_output_char con RAMFB_COLS a c).
Proof.
  unfold do_output_char. apply prints_bind; [apply prints_escape|]. intros []; [apply prints_ret|].
  apply prints_bind; [by apply prints_upd_out|]. intros; apply prints_device.
Qed.
#[local] Hint Resolve prints_out : tty.
(** Structure first, the calls from the hints. *)
Ltac prints := repeat first
  [ progress cbv zeta | solve [eauto 2 with tty] | apply prints_if | apply prints_tty; intros ? ? | apply prints_for_each; intros ?
  | apply prints_bind; [|intros ?] ].
Lemma prints_put a c : prints a (tty_put_char con RAMFB_COLS a c).
Proof. unfold tty_put_char. prints. Qed.
#[local] Hint Resolve prints_put : tty.
Lemma prints_chars a l : prints a (put_chars con RAMFB_COLS a l).
Proof. unfold put_chars. prints. Qed.
#[local] Hint Resolve prints_chars : tty.
Lemma prints_echo a c : prints a (tty_echo_char con RAMFB_COLS a c).
Proof. unfold tty_echo_char. prints. Qed.
Lemma prints_rub a n : prints a (rub_out con RAMFB_COLS a n).
Proof. unfold rub_out. prints. Qed.
#[local] Hint Resolve prints_echo prints_rub : tty.
Lemma prints_erase a c : prints a (erase_char con RAMFB_COLS a c).
Proof. unfold erase_char. prints. Qed.
Lemma prints_reprint a : prints a (reprint_line con RAMFB_COLS a).
Proof. unfold reprint_line. prints. Qed.
#[local] Hint Resolve prints_erase prints_reprint : tty.

(** ** Editing *)

(** The states where the terminal, which was [t], holds [s]. *)
Definition line_now k (a : Z) (t : tty) (s : line_state) (y : kst FA * D) : Prop :=
  ∃ i, holds i s ∧ seen k a (set_tty_in i t) y.
Lemma line_now_intro k a t s y : seen k a t y → holds (tty_in t) s → line_now k a t s y.
Proof. intros Hy Hs. exists (tty_in t). by destruct t. Qed.
Lemma line_now_trans k a t i s y : line_now k a (set_tty_in i t) s y → line_now k a t s y.
Proof. intros (i' & Hs & Hy). by exists i'. Qed.

(** Reading the terminal, up to its output. *)
Ltac rtty H := rstep seen_tty; [exact H|]; intros ? ? [[? [_ ->]] ->];
  cbn [set_tty_out tty_in tty_termios tty_flags tty_lock tty_read_wait tty_write_wait]; cbv zeta.

Lemma drop_while_ok go k a n : ∀ t s y, seen k a t y → holds (tty_in t) s → (length (ls_line s) < n)%nat →
  runs_to (drop_while con RAMFB_COLS n a go) y (λ _, line_now k a t (set_ls_line (strip go (ls_line s)) s)).
Proof.
  induction n as [|n IH]; intros t s y Hy Hs Hn; [lia|]. cbn [drop_while]. rtty Hy. rewrite (h_canon_head _ _ Hs).
  destruct (ls_line s) as [|c l _] eqn:Hl using rev_ind.
  - simpl. apply runs_ret, line_now_intro; [done|].
    destruct s; simpl in *; by subst.
  - assert (Hh : canon_head (tty_in t) = Z.of_nat (length (l ++ [c]))) by (rewrite (h_canon_head _ _ Hs); by rewrite Hl).
    rewrite <- Hh. rewrite length_app in Hh, Hn. simpl in Hh, Hn. rewrite (proj2 (Z.leb_gt _ 0)) by lia.
    apply runs_bind. rewrite (holds_last _ s l c) by done. apply runs_ret. unfold strip. rewrite reverse_snoc. simpl. destruct (go c).
    + set (i := set_canon_head (canon_head (tty_in t) - 1) (tty_in t)).
      rstep seen_upd_in; [exact Hy|]. intros _ y1 Hy1. rstep prints_erase; [exact Hy1|]. intros _ y2 Hy2.
      eapply runs_mono; [eapply IH; [exact Hy2| |]|].
      * apply (holds_cut _ s (length l) (canon_column (tty_in t))) in Hs; [|rewrite Hl, length_app; simpl; lia].
        rewrite Hl, take_app_length in Hs. replace (Z.of_nat (length l)) with (canon_head (tty_in t) - 1) in Hs by lia. exact Hs.
      * simpl. lia.
      * cbv beta. intros _ y3 H3. by apply (line_now_trans _ _ _ i).
    + apply line_now_intro; [done|]. rewrite reverse_cons, reverse_involutive, <- Hl. by destruct s.
Qed.

(** A printing end, and an update of the input. *)
Lemma then_prints k a t s y (m : M (kst FA * D) unit) : prints a m → line_now k a t s y → runs_to m y (λ _, line_now k a t s).
Proof. intros Hm (i & Hs & Hy). eapply runs_mono; [by apply Hm|]. cbv beta. intros _ y' Hy'. by exists i. Qed.
Lemma then_upd_in k a t s y f : seen k a t y → holds (f (tty_in t)) s → runs_to (upd_in a f) y (λ _, line_now k a t s).
Proof. intros Hy Hs. eapply runs_mono; [by apply seen_upd_in|]. cbv beta. intros _ y' Hy'. by exists (f (tty_in t)). Qed.
Lemma then_wake k a t s y q : line_now k a t s y → runs_to (wake q) y (λ _, line_now k a t s).
Proof. intros (i & Hs & Hy). eapply runs_mono; [by apply seen_wake|]. cbv beta. intros _ y' Hy'. by exists i. Qed.

Lemma line_of_holds i s : holds i s → line_of i = ls_line s.
Proof. intros H. unfold line_of. rewrite (h_canon_head _ _ H), Nat2Z.id. apply (h_chars _ _ H). Qed.

Lemma finish_ok k a t s y : seen k a t y → holds (tty_in t) s →
  runs_to (finish_canonical_line a) y (λ _, line_now k a t (commit (ls_line s) s)).
Proof.
  intros Hy Hs. unfold finish_canonical_line. rtty Hy. rewrite (line_of_holds _ s) by done.
  destruct (put_line_ok (ls_line s) _ s Hs) as (i & Hi & Hh). apply runs_bind. rewrite Hi. apply runs_ret.
  rstep (then_upd_in k a t (commit (ls_line s) s)); [exact Hy| |intros _ y' H'; by apply then_wake].
  destruct Hh. split; simpl in *; try done; lia.
Qed.
Lemma append_ok k a t s y c : seen k a t y → holds (tty_in t) s →
  runs_to (append_line a c) y (λ ok, λ y', ok = line_room (ls_line s) ∧ line_now k a t (set_ls_line (type_char c (ls_line s)) s) y').
Proof.
  intros Hy Hs. unfold append_line. rtty Hy. rewrite (h_canon_head _ _ Hs). unfold type_char.
  destruct (line_room (ls_line s)) eqn:Hr; unfold line_room in Hr; rewrite Hr.
  - rewrite <- (h_canon_head _ _ Hs). destruct (holds_append _ s c Hs Hr) as (l & Hl & Hh). apply runs_bind. rewrite Hl. apply runs_ret.
    rstep (then_upd_in k a t (set_ls_line (ls_line s ++ [c]) s)); [exact Hy|exact Hh|]. intros _ y' H'. by apply runs_ret.
  - apply runs_ret. split; [done|]. apply line_now_intro; [done|]. by destruct s.
Qed.
Lemma store_ok k a t s y c : seen k a t y → holds (tty_in t) s → has (tty_lflag t) ICANON = true →
  runs_to (store_char con RAMFB_COLS a c) y (λ _, line_now k a t (set_ls_line (type_char c (ls_line s)) s)).
Proof.
  intros Hy Hs Hc. unfold store_char. rtty Hy. unfold tty_lflag in Hc |- *. cbn [set_tty_out tty_termios]. rewrite Hc.
  rstep append_ok; [exact Hy|exact Hs|]. intros ok y1 [-> (i & Hi & Hy1)]. destruct (line_room _).
  - rstep (then_upd_in k a (set_tty_in i t)); [exact Hy1| |intros _ y2 H2; apply then_prints; [apply prints_echo|by apply line_now_trans in H2]].
    destruct Hi. split; done.
  - apply then_prints; [case_match; [apply prints_put|apply prints_ret]|]. by exists i.
Qed.

Lemma erase_while_ok go k a t s y : seen k a t y → holds (tty_in t) s →
  runs_to (drop_while con RAMFB_COLS line_fuel a go) y (λ _, line_now k a t (set_ls_line (strip go (ls_line s)) s)).
Proof. intros Hy Hs. apply drop_while_ok; [done|done|]. pose proof (h_line _ _ Hs). unfold line_fuel. lia. Qed.
Lemma erase_line_ok k a t s y : seen k a t y → holds (tty_in t) s →
  runs_to (erase_line con RAMFB_COLS a) y (λ _, line_now k a t (if has (tty_lflag t) ECHO then set_ls_line [] s else s)).
Proof.
  intros Hy Hs. unfold erase_line. rtty Hy. unfold tty_lflag. cbn [set_tty_out tty_termios].
  destruct (has _ ECHO); cbn [negb]; cbv iota; [|by apply runs_ret, line_now_intro].
  assert (Hfin : ∀ i s1 y1, holds i s1 → set_ls_line [] s1 = set_ls_line [] s → seen k a (set_tty_in i t) y1 →
    runs_to (upd_in a (λ i, set_canon_column 0 (set_canon_head 0 i))) y1 (λ _, line_now k a t (set_ls_line [] s))).
  { intros i s1 y1 Hi He Hy1. eapply runs_mono; [apply then_upd_in; [exact Hy1|]|cbv beta; intros _ y2; apply line_now_trans].
    rewrite <- He. apply (holds_cut i s1 0 0 Hi). lia. }
  assert (Hpr : ∀ m : M (kst FA * D) unit, prints a m → runs_to (m;;; upd_in a (λ i, set_canon_column 0 (set_canon_head 0 i))) y
    (λ _, line_now k a t (set_ls_line [] s))).
  { intros m Hm. rstep Hm; [exact Hy|]. intros _ y1 H1. apply (Hfin (tty_in t) s); [done|done|by destruct t]. }
  destruct (has _ ECHOKE); [|destruct (has _ ECHOK); apply Hpr; [apply prints_put|apply prints_echo]].
  rstep erase_while_ok; [exact Hy|exact Hs|]. intros _ y1 (i & Hi & H1). by eapply Hfin.
Qed.

(** The states where the terminal, which was [t], holds [s]; its flags may
    have changed, up to [TTY_LNEXT]. *)
Definition typed k (a : Z) (t : tty) (s : line_state) (y : kst FA * D) : Prop :=
  ∃ f, has f TTY_LNEXT = has (tty_flags t) TTY_LNEXT ∧ line_now k a (set_tty_flags f t) s y.
Lemma typed_line k a t s y : line_now k a t s y → typed k a t s y.
Proof. intros H. exists (tty_flags t). split; [done|]. by destruct t. Qed.

Lemma runs_used {X} (m : M X unit) x (P : X → Prop) (Q : bool → X → Prop) :
  (∀ y, P y → Q true y) → runs_to m x (λ _, P) → runs_to (m;;; ret true) x Q.
Proof. intros HPQ Hm. rstep Hm. intros _ y Hy. apply runs_ret. auto. Qed.

Lemma has_lxor_flushing f : has (Z.lxor f TTY_FLUSHING) TTY_LNEXT = has f TTY_LNEXT.
Proof.
  change TTY_LNEXT with (2 ^ 5). change TTY_FLUSHING with (2 ^ 6). rewrite !has_pow2, Z.lxor_spec by lia.
  rewrite Z.pow2_bits_false by lia. by destruct (Z.testbit f 5).
Qed.

(** The end of a branch that uses the character up. *)
Lemma runs_ret_used k a t s s' y : line_now k a t s y → s = s' →
  runs_to (ret true) y (λ used y', if used : bool then typed k a t s' y' else False).
Proof. intros H <-. apply runs_ret. by apply typed_line. Qed.

Lemma chop_ok k a t s y (column : Z → Z) : seen k a t y → holds (tty_in t) s →
  runs_to (if 0 <? canon_head (tty_in t) then
       erased <- of_opt (zget (canon_buf (tty_in t)) (canon_head (tty_in t) - 1));;
       upd_in a (λ i, set_canon_column (column erased) (set_canon_head (canon_head i - 1) i));;;
       erase_char con RAMFB_COLS a erased
     else ret tt) y (λ _, line_now k a t (set_ls_line (chop (ls_line s)) s)).
Proof.
  intros Hy Hs. pose proof (h_canon_head _ _ Hs) as Hh. destruct (ls_line s) as [|c l _] eqn:Hl using rev_ind.
  - rewrite Hh. apply runs_ret, line_now_intro; [done|]. destruct s; simpl in *; by subst.
  - rewrite length_app in Hh. simpl in Hh. rewrite (proj2 (Z.ltb_lt 0 _)) by lia.
    apply runs_bind. rewrite (holds_last _ s l c) by done. apply runs_ret.
    rewrite chop_snoc.
    rstep (then_upd_in k a t (set_ls_line l s)); [exact Hy| |intros _ y1 H1; apply then_prints; [apply prints_erase|done]].
    apply (holds_cut _ s (length l) (column c)) in Hs; [|rewrite Hl, length_app; lia]. rewrite Hl, take_app_length in Hs.
    by replace (canon_head (tty_in t) - 1) with (Z.of_nat (length l)) by lia.
Qed.
Lemma eof_ok k a t s y : seen k a t y → holds (tty_in t) s →
  runs_to (if 0 <? canon_head (tty_in t) then finish_canonical_line a
           else upd_in a (λ i, set_canon_lines (canon_lines i + 1) i);;; wake (tty_read_wait t)) y
    (λ _, line_now k a t (if decide (ls_line s = []) then mk_line_state (ls_ready s) [] (ls_count s + 1) else commit (ls_line s) s)).
Proof.
  intros Hy Hs. rewrite (h_canon_head _ _ Hs). case_decide as Hl.
  - rewrite Hl. rstep (then_upd_in k a t); [exact Hy| |intros _ y1 H1; by apply then_wake].
    destruct Hs. rewrite Hl in *. split; simpl in *; try done; lia.
  - rewrite (proj2 (Z.ltb_lt 0 _)) by (destruct (ls_line s); [done|simpl; lia]). by apply finish_ok.
Qed.
(** A line that ends with [c], which is echoed. *)
Lemma line_end_ok k a t s y (m : bool → M (kst FA * D) unit) c : (∀ b, prints a (m b)) → seen k a t y → holds (tty_in t) s →
  runs_to (ok <- append_line a c;; m ok;;; finish_canonical_line a) y (λ _, line_now k a t (commit (type_char c (ls_line s)) s)).
Proof.
  intros Hm Hy Hs. rstep append_ok; [exact Hy|exact Hs|]. intros ok y1 [_ H1]. rstep then_prints; [apply Hm|exact H1|].
  intros _ y2 (i & Hi & H2). rlast finish_ok; [exact H2|exact Hi|]. intros _ y3 H3. by apply line_now_trans in H3.
Qed.
Lemma canonical_ok k a t s y c : seen k a t y → holds (tty_in t) s → has (tty_lflag t) ICANON = true →
  let m := tty_termios t in has (c_lflag m) IEXTEN && (c =? cc m VLNEXT) = false →
  runs_to (canonical con RAMFB_COLS a c) y (λ used y',
    if used : bool then typed k a t (edit m c s) y' else seen k a t y' ∧ edit m c s = set_ls_line (type_char c (ls_line s)) s).
Proof.
  intros Hy Hs Hc m Hn. unfold canonical. rtty Hy. fold m. unfold tty_lflag in Hc. fold m in Hc. rewrite Hc, Hn. simpl negb. unfold edit.
  set (ext := has (c_lflag m) IEXTEN) in *. cbv iota beta zeta.
  destruct ((c =? cc m VERASE) || (c =? BS) || (c =? 127)) eqn:E1.
  { eapply runs_used; [apply typed_line|]. apply (chop_ok k a t s y (λ e, if _ - char_width e (set_tty_out _ t) <? 0 then 0 else _)); done. }
  destruct (ext && (c =? cc m VWERASE)) eqn:E2.
  { rstep erase_while_ok; [exact Hy|exact Hs|]. intros _ y1 (i & Hi & H1). eapply runs_used; [apply typed_line|].
    rlast erase_while_ok; [exact H1|exact Hi|]. intros _ y2 H2. by apply line_now_trans in H2. }
  destruct (c =? cc m VKILL) eqn:E3.
  { eapply runs_used; [|by apply erase_line_ok]. intros y1 H1. apply typed_line. unfold tty_lflag in H1. fold m in H1. by destruct (has _ ECHO). }
  assert (Hsame : ∀ (n : M (kst FA * D) unit), prints a n → runs_to (n;;; ret true) y (λ used y', if used : bool then typed k a t s y' else False)).
  { intros n Hp. eapply runs_used; [apply typed_line|]. apply then_prints; [done|]. by apply line_now_intro. }
  destruct (ext && (c =? cc m VREPRINT)) eqn:E4.
  { rewrite andb_orb_distrib_r, E4. simpl. eapply runs_mono; [apply Hsame, prints_reprint|]. by intros [] y'. }
  destruct (ext && (c =? cc m VDISCARD)) eqn:E5.
  { rewrite andb_orb_distrib_r, E4, E5. simpl. rstep seen_upd; [exact Hy|done|]. intros _ y1 H1.
    eapply runs_mono with (P := λ used y', if used : bool then line_now k a (set_tty_flags (Z.lxor (tty_flags t) TTY_FLUSHING) t) s y' else False).
    - eapply runs_used; [done|]. apply then_prints; [case_match; [apply prints_chars|apply prints_ret]|]. by apply line_now_intro.
    - intros [] y2 H2; [|done]. exists (Z.lxor (tty_flags t) TTY_FLUSHING). split; [apply has_lxor_flushing|done]. }
  rewrite andb_orb_distrib_r, E4, E5. cbn [orb].
  destruct (c =? cc m VEOF) eqn:E6. { eapply runs_used; [apply typed_line|]. by apply eof_ok. }
  destruct ((c =? cc m VEOL) || (ext && (c =? cc m VEOL2))) eqn:E7.
  { destruct (c =? 0). { eapply runs_mono; [apply (Hsame _ (prints_ret _ _))|]. by intros [] y'. }
    eapply runs_used; [apply typed_line|]. apply line_end_ok; [|done|done]. intros []; [apply prints_echo|apply prints_ret]. }
  destruct (c =? NL) eqn:E8; [|by apply runs_ret].
  eapply runs_used; [apply typed_line|]. apply (line_end_ok _ _ _ _ _ (λ _, tty_echo_char con RAMFB_COLS a NL)); [|done|done].
  intros _. apply prints_echo.
Qed.

(** [tty_receive_char] on a character for the editor. *)
Record for_editor (m : termios) (c : Z) : Prop := mk_for_editor {
  fe_signal : signal_of m c = 0;
  fe_flow : has (c_iflag m) IXON = true → has (c_iflag m) IXANY = false ∧ c ≠ cc m VSTOP ∧ c ≠ cc m VSTART;
  fe_next : has (c_lflag m) IEXTEN = true → c ≠ cc m VLNEXT;
}.
Lemma flow_ok k a t y c : seen k a t y → for_editor (tty_termios t) c →
  runs_to (flow_control a c) y (λ used y', used = false ∧ seen k a t y').
Proof.
  intros Hy Hf. unfold flow_control. rtty Hy. destruct (has _ IXON) eqn:Hx; [|by apply runs_ret].
  destruct (fe_flow _ _ Hf Hx) as (Ha & H1 & H2). rewrite (proj2 (Z.eqb_neq _ _) H1), (proj2 (Z.eqb_neq _ _) H2), Ha. by apply runs_ret.
Qed.
Lemma edit_ok k a t s y c : seen k a t y → holds (tty_in t) s → has (tty_lflag t) ICANON = true → for_editor (tty_termios t) c →
  runs_to (used <- canonical con RAMFB_COLS a c;; if used : bool then ret tt else store_char con RAMFB_COLS a c) y
    (λ _, typed k a t (edit (tty_termios t) c s)).
Proof.
  intros Hy Hs Hc Hf. rstep canonical_ok; [exact Hy|exact Hs|exact Hc| |].
  { destruct (has _ IEXTEN) eqn:He; [|done]. apply Z.eqb_neq, (fe_next _ _ Hf He). }
  intros [] y1 H1; [by apply runs_ret|]. destruct H1 as [H1 ->]. rlast store_ok; [exact H1|exact Hs|exact Hc|]. intros _ y2. apply typed_line.
Qed.
Lemma receive_ok k a t s y c c' : seen k a t y → holds (tty_in t) s → tty_lock t = false → has (tty_flags t) TTY_LNEXT = false →
  has (tty_lflag t) ICANON = true → input_map (tty_termios t) c = Some c' → for_editor (tty_termios t) c' →
  runs_to (tty_receive_char con RAMFB_COLS a c) y (λ _, typed k a t (edit (tty_termios t) c' s)).
Proof.
  intros Hy Hs Hl Hn Hc Hm Hf. unfold tty_receive_char.
  apply runs_bind. unfold tty_acquire. rtty Hy. cbn [set_tty_out tty_lock]. rewrite Hl.
  rlast seen_upd; [exact Hy|done|]. intros _ y1 H1. rtty H1. cbn [set_tty_lock tty_flags tty_termios]. rewrite Hn, Hm, (fe_signal _ _ Hf).
  cbn [negb Z.eqb]. cbv iota. rstep flow_ok; [exact H1|exact Hf|]. intros _ y2 [-> H2].
  rstep edit_ok; [exact H2|exact Hs|exact Hc|exact Hf|]. intros _ y3 (f & Hff & i & Hi & H3).
  rlast seen_upd; [exact H3|done|]. intros _ y4 H4. exists f. split; [done|]. exists i. split; [done|].
  by destruct t; simpl in *; subst.
Qed.

(** A sequence of characters. *)
Lemma typed_seq k a t s cs cs' : ∀ y, typed k a t s y → tty_lock t = false → has (tty_flags t) TTY_LNEXT = false →
  has (tty_lflag t) ICANON = true → let m := tty_termios t in
  Forall2 (λ c c', input_map m c = Some c' ∧ for_editor m c') cs cs' →
  runs_to (tty_receive_buf con RAMFB_COLS a cs) y (λ _, typed k a t (fold_left (λ s c, edit m c s) cs' s)).
Proof.
  intros y Hy Hl Hn Hc m H. revert s y Hy. induction H as [|c c' cs cs' [Hm Hf] _ IH]; intros s y Hy; [done|].
  destruct Hy as (f & Hff & i & Hi & Hy). rstep receive_ok; [exact Hy|exact Hi|exact Hl|by rewrite <- Hn|exact Hc|exact Hm|exact Hf|].
  intros _ y1 (f' & Hff' & Hy1). apply IH. exists f'. split; [|done]. by rewrite Hff'.
Qed.

(** ** Reading *)

Lemma in_kst_Done {A} (m : M (kst FA) A) (y : kst FA * D) r k' : m y.1 = Done (r, k') → in_kst m y = Done (r, (k', y.2)).
Proof. intros H. unfold in_kst, zoom. by rewrite H. Qed.
(** No signal interrupts the current process. *)
Definition undisturbed k : Prop :=
  ∃ p x, runs k p x ∧ ∀ si, p_signals x = Some si → andnot (sig_pending si) (sig_blocked si) = 0.
Lemma interrupted_no k a t s d : undisturbed k → calm (k_sched k) s → interrupted (tst k a t s d) = Done (false, tst k a t s d).
Proof.
  intros (p & x & (c & z & Hc & Hc0 & Hz & Hp & Hp0 & Hx) & Hq) [Hpr Hcu _ Ht].
  destruct (Ht _ _ Hz) as (z' & Hz' & Hp' & _).
  assert (Hr : runs (tst k a t s d).1 p x).
  { exists c, z'. simpl. rewrite Hcu, Hpr. split_and!; try done. congruence. }
  unfold interrupted. mstep (in_kst_Done _ (tst k a t s d) _ _ (current_proc_runs _ _ _ Hr)).
  mstep (in_kst_Done _ (tst k a t s d) _ _ (proc_of_Done _ p x (runs_proc _ _ _ Hr))).
  unfold ret. destruct (p_signals x) as [si|]; [|done]. by rewrite (Hq si).
Qed.
Lemma seen_interrupted k a t y : seen k a t y → undisturbed k → runs_to interrupted y (λ b y', b = false ∧ y' = y).
Proof. intros [] Hu. by eapply runs_Done; [apply interrupted_no|]. Qed.
Lemma seen_kwrite k a t y p v : seen k a t y → runs_to (in_kst (kwrite p v)) y (λ _, seen (set_kram (upd (kram k) (V2P p) v) k) a t).
Proof. intros [t' s d Q W Ht Hs Hc]. eapply runs_Done; [reflexivity|]. exact (seen_intro (set_kram (upd (kram k) (V2P p) v) k) a t t' s d Q W Ht Hs Hc). Qed.
Lemma seen_tst k a t s d Q W : sync_ok s Q W → calm (k_sched k) s → out_ok (tty_out t) → seen k a t (tst k a t s d).
Proof. intros. econstructor; try done. exists (tty_out t). split; [done|by destruct t]. Qed.

(** What one line of at most [n] characters gives a reader: the characters
    stored, what is left, and whether the line ended. *)
Fixpoint take_line (m : termios) (n : nat) (q : list Z) : list Z * list Z * bool :=
  match n, q with
  | S n', c :: q' =>
      if c =? cc m VEOF then ([], q', true)
      else if (c =? NL) || (c =? cc m VEOL) || (c =? cc m VEOL2) then ([c], q', true)
      else let '(l, r, e) := take_line m n' q' in (c :: l, r, e)
  | _, _ => ([], q, false)
  end.
(** The state after [l] was stored at [p]. *)
Definition stored (p : Z) (l : list Z) k : kst FA := set_kram (put_bytes (kram k) (V2P p) l) k.

Lemma read_line_ok a buf n : PHYS_OFFSET <= buf → ∀ k t s y rc, seen k a t y → holds (tty_in t) s → 0 <= rc →
  ∀ l q e, take_line (tty_termios t) n (ls_ready s) = (l, q, e) →
  runs_to (read_line n a buf rc) y (λ r y', r = (rc + Z.of_nat (length l), e) ∧
    line_now (stored (buf + rc) l k) a t (mk_line_state q (ls_line s) (ls_count s - Z.b2z e)) y').
Proof.
  intros Hb. induction n as [|n IH]; intros k t s y rc Hy Hs Hrc l q e; cbn [read_line take_line].
  { intros [= <- <- <-]. apply runs_ret. rewrite Z.add_0_r. split; [done|]. apply line_now_intro.
    - unfold stored. simpl. by rewrite set_kram_id.
    - rewrite Z.sub_0_r. by destruct s. }
  intros Hl. rtty Hy. rewrite (holds_empty _ s) by done. case_bool_decide as Hq.
  { rewrite Hq in Hl. injection Hl as <- <- <-. apply runs_ret. rewrite Z.add_0_r. split; [done|]. apply line_now_intro.
    - unfold stored. simpl. by rewrite set_kram_id.
    - rewrite Z.sub_0_r, <- Hq. by destruct s. }
  destruct (ls_ready s) as [|c q0] eqn:Hr; [done|]. destruct (get_ok _ s c q0 Hs Hr) as (i & Hi & Hh).
  apply runs_bind. rewrite Hi. apply runs_ret.
  rstep (then_upd_in k a t (mk_line_state q0 (ls_line s) (ls_count s))); [exact Hy|exact Hh|]. cbn [fst]. intros _ y1 (i1 & Hi1 & H1).
  assert (Hdec : holds (set_canon_lines (canon_lines i1 - 1) i1) (mk_line_state q0 (ls_line s) (ls_count s - 1))).
  { destruct Hi1. split; simpl in *; try done. lia. }
  destruct (c =? cc _ VEOF).
  { injection Hl as <- <- <-. rstep then_upd_in; [exact H1|exact Hdec|]. intros _ y2 H2%line_now_trans. apply runs_ret.
    rewrite Z.add_0_r. split; [done|]. unfold stored. simpl. by rewrite set_kram_id. }
  rstep seen_kwrite; [exact H1|]. intros _ y2 H2. rewrite V2P_kernel_add in H2 by lia. destruct ((c =? NL) || _ || _).
  { injection Hl as <- <- <-. rstep then_upd_in; [exact H2|exact Hdec|]. intros _ y3 H3%line_now_trans. apply runs_ret.
    split; [done|]. unfold stored. simpl. by rewrite V2P_kernel_add. }
  destruct (take_line _ n q0) as [[l1 q1] e1] eqn:Hl1. injection Hl as <- <- <-.
  rlast IH; [exact H2|exact Hi1|lia|exact Hl1|]. intros r y3 [-> H3%line_now_trans]. split; [f_equal; simpl; lia|].
  unfold stored in *. simpl put_bytes. rewrite !V2P_kernel_add in * by lia. by rewrite <- Z.add_assoc.
Qed.

Lemma read_pass_ok k a t s y buf count rc l q e : seen k a t y → holds (tty_in t) s → tty_lock t = false →
  has (tty_lflag t) ICANON = true → undisturbed k → ls_count s ≠ 0 → 0 <= rc < count → PHYS_OFFSET <= buf →
  take_line (tty_termios t) (Z.to_nat (count - rc)) (ls_ready s) = (l, q, e) →
  runs_to (n_tty_read_pass current_interval a buf count rc) y (λ r y', r = (if e then RReturn else RAgain) (rc + Z.of_nat (length l)) ∧
    line_now (stored (buf + rc) l k) a t (mk_line_state q (ls_line s) (ls_count s - Z.b2z e)) y').
Proof.
  intros Hy Hs Hl Hc Hu Hn Hrc Hb Htl. unfold n_tty_read_pass. rewrite (proj2 (Z.leb_gt _ _)) by lia.
  apply runs_bind. unfold tty_acquire. rtty Hy. cbn [set_tty_out tty_lock]. rewrite Hl.
  rlast seen_upd; [exact Hy|done|]. intros _ y1 H1. rstep seen_interrupted; [exact H1|exact Hu|]. intros _ _ [-> ->]. cbv iota.
  rtty H1. unfold tty_lflag in Hc |- *. cbn [set_tty_out set_tty_lock tty_termios]. rewrite Hc. unfold read_canonical.
  cbn [set_tty_out set_tty_lock tty_in]. rewrite (h_lines _ _ Hs), (proj2 (Z.eqb_neq _ _) Hn).
  rstep read_line_ok; [exact Hb|exact H1|exact Hs|lia|exact Htl|]. intros r y2 [-> (i & Hi & H2)].
  rstep seen_upd; [exact H2|done|]. intros _ y3 H3. apply runs_ret. split; [by destruct e|]. exists i. split; [done|].
  by destruct t; simpl in *; subst.
Qed.

(** ** A terminal in canonical mode *)

(** Terminal [a] of [k] is [t], free, and holds [s]. *)
Record terminal_at k (a : Z) (t : tty) (s : line_state) : Prop := mk_terminal_at {
  ta_tty : k_ttys k !! a = Some t;
  ta_out : out_ok (tty_out t);
  ta_sched : ∃ Q W, sync_ok (k_sched k) Q W;
  ta_lock : tty_lock t = false;
  ta_next : has (tty_flags t) TTY_LNEXT = false;
  ta_canon : has (tty_lflag t) ICANON = true;
  ta_in : holds (tty_in t) s;
}.
(** [k'] is [k] up to terminal [a] and to tasks woken. *)
Definition elsewhere (a : Z) k k' : Prop :=
  ∃ t' s', k' = set_k_ttys (<[a := t']> (k_ttys k)) (set_k_sched s' k) ∧ calm (k_sched k) s'.

Lemma terminal_seen k a t s d : terminal_at k a t s → seen k a t (k, d).
Proof.
  intros [Ht Ho (Q & W & Hs) _ _ _ _]. replace (k, d) with (tst k a t (k_sched k) d) by (unfold tst; rewrite insert_id by done; by destruct k).
  by eapply seen_tst.
Qed.
Lemma seen_terminal k0 k a t0 t s s0 y : terminal_at k0 a t0 s0 → (∃ f i, t = set_tty_flags f (set_tty_in i t0) ∧ has f TTY_LNEXT = false) →
  holds (tty_in t) s → seen k a t y → ∃ t', terminal_at y.1 a t' s ∧ tty_termios t' = tty_termios t0 ∧ elsewhere a k y.1.
Proof.
  intros [Ht Ho _ Hl Hn Hc _] (f & i & -> & Hf) Hi [t' s' d Q W [o [Ho' ->]] Hs Hca].
  exists (set_tty_out o (set_tty_flags f (set_tty_in i t0))). split; [|split; [reflexivity|]].
  - split; try done; [apply lookup_insert_eq|]. by exists Q, W.
  - eexists _, s'. split; [|done]. done.
Qed.
Lemma typed_terminal k a t s s' y : terminal_at k a t s → typed k a t s' y →
  ∃ t', terminal_at y.1 a t' s' ∧ tty_termios t' = tty_termios t ∧ elsewhere a k y.1.
Proof.
  intros Ht (f & Hf & i & Hi & Hy). apply (λ H1 H2, seen_terminal _ _ _ _ _ s' _ _ Ht H1 H2 Hy); [|exact Hi].
  exists f, i. split; [by destruct t|]. rewrite Hf. apply (ta_next _ _ _ _ Ht).
Qed.
Lemma line_terminal k k' a t s s' y : terminal_at k a t s → line_now k' a t s' y →
  ∃ t', terminal_at y.1 a t' s' ∧ tty_termios t' = tty_termios t ∧ elsewhere a k' y.1.
Proof.
  intros Ht (i & Hi & Hy). apply (λ H1 H2, seen_terminal _ _ _ _ _ s' _ _ Ht H1 H2 Hy); [|exact Hi].
  exists (tty_flags t), i. split; [by destruct t|]. apply (ta_next _ _ _ _ Ht).
Qed.
Lemma runs_elsewhere a k k' : elsewhere a k k' → undisturbed k → undisturbed k'.
Proof.
  intros (t' & s' & -> & [Hpr Hcu _ Ht]) (p & x & (c & z & Hc & Hc0 & Hz & Hp & Hp0 & Hx) & Hq).
  destruct (Ht _ _ Hz) as (z' & Hz' & Hp' & _). exists p, x. split; [|done]. exists c, z'. simpl. rewrite Hcu, Hpr.
  split_and!; try done. congruence.
Qed.
End triples.

(** ** The properties *)

Definition no_input : line_state := mk_line_state [] [] 0.
(** A character that neither ends a line nor stands for the end of file. *)
Definition plain (m : termios) (c : Z) : Prop := c ≠ NL ∧ c ≠ cc m VEOF ∧ c ≠ cc m VEOL ∧ c ≠ cc m VEOL2.
Lemma take_line_whole m q l : NL ≠ cc m VEOF → Forall (plain m) l → ∀ n, (length l < n)%nat →
  take_line m n (l ++ NL :: q) = (l ++ [NL], q, true).
Proof.
  intros Hnl H. induction H as [|c l (H1 & H2 & H3 & H4) _ IH]; intros [|n] Hn; cbn [app take_line length] in *; try lia.
  - by rewrite (proj2 (Z.eqb_neq _ _) Hnl).
  - rewrite (proj2 (Z.eqb_neq _ _) H1), (proj2 (Z.eqb_neq _ _) H2), (proj2 (Z.eqb_neq _ _) H3), (proj2 (Z.eqb_neq _ _) H4).
    cbn [orb]. rewrite IH by lia. done.
Qed.
(** The editor takes a newline as the end of the line. *)
Definition newline_ends (m : termios) : Prop :=
  NL ≠ cc m VEOF ∧ ∀ s, edit m NL s = commit (type_char NL (ls_line s)) s.

(** C3: typing edits lines: [tty_receive_char] on a terminal in canonical mode
    returns, and does to the line being typed and to the characters ready for
    readers exactly what the editor [edit] does: ordinary characters are
    appended while the line has room, the erase, word-erase and kill characters
    cut the line, a newline or an end-of-line character makes it ready as far
    as the ring has room.  The settings stay, and nothing else changes but
    the output and the tasks woken. *)
Theorem tty_edits_lines {FA D} `{!FrameAllocator FA} `{!Console D} (con cols : Z) (k : kst FA) (d : D) a t s c c' :
  terminal_at k a t s → input_map (tty_termios t) c = Some c' → for_editor (tty_termios t) c' →
  ∃ k' d' t', tty_receive_char con cols a c (k, d) = Done (tt, (k', d')) ∧
    terminal_at k' a t' (edit (tty_termios t) c' s) ∧ tty_termios t' = tty_termios t ∧ elsewhere a k k'.
Proof.
  intros Ht Hm Hf. pose proof (terminal_seen k a t s d Ht) as Hy.
  destruct (runs_to_inv _ _ _ (receive_ok con cols k a t s (k, d) c c' Hy (ta_in _ _ _ _ Ht) (ta_lock _ _ _ _ Ht) (ta_next _ _ _ _ Ht)
    (ta_canon _ _ _ _ Ht) Hm Hf)) as ([] & [k' d'] & Hrun & Hty).
  destruct (typed_terminal k a t s _ _ Ht Hty) as (t' & H1 & H2 & H3). by exists k', d', t'.
Qed.

Section session.
Context {FA D : Type} `{!FrameAllocator FA} `{!Console D}.
Context (con cols current_interval : Z).
Implicit Types k : kst FA.

(** Characters typed one after the other, and one pass of a read. *)
Lemma terminal_types k (d : D) a t s cs cs' : terminal_at k a t s →
  Forall2 (λ c c', input_map (tty_termios t) c = Some c' ∧ for_editor (tty_termios t) c') cs cs' →
  ∃ k' d' t', tty_receive_buf con cols a cs (k, d) = Done (tt, (k', d')) ∧
    terminal_at k' a t' (fold_left (λ s c, edit (tty_termios t) c s) cs' s) ∧ tty_termios t' = tty_termios t ∧ elsewhere a k k'.
Proof.
  intros Ht Hcs. pose proof (terminal_seen k a t s d Ht) as Hy.
  destruct (runs_to_inv _ _ _ (typed_seq con cols k a t s cs cs' (k, d)
    (typed_line _ _ _ _ _ (line_now_intro _ _ _ _ _ Hy (ta_in _ _ _ _ Ht))) (ta_lock _ _ _ _ Ht) (ta_next _ _ _ _ Ht)
    (ta_canon _ _ _ _ Ht) Hcs)) as ([] & [k' d'] & Hrun & Hty).
  destruct (typed_terminal k a t s _ _ Ht Hty) as (t' & H1 & H2 & H3). by exists k', d', t'.
Qed.
Lemma terminal_read k (d : D) a t s buf count rc l q e : terminal_at k a t s → undisturbed k → ls_count s ≠ 0 → 0 <= rc < count →
  PHYS_OFFSET <= buf → take_line (tty_termios t) (Z.to_nat (count - rc)) (ls_ready s) = (l, q, e) →
  ∃ k' d' t', n_tty_read_pass current_interval a buf count rc (k, d) =
      Done ((if e then RReturn else RAgain) (rc + Z.of_nat (length l)), (k', d')) ∧
    terminal_at k' a t' (mk_line_state q (ls_line s) (ls_count s - Z.b2z e)) ∧ tty_termios t' = tty_termios t ∧
    elsewhere a (stored (buf + rc) l k) k'.
Proof.
  intros Ht Hu Hn Hrc Hb Htl. pose proof (terminal_seen k a t s d Ht) as Hy.
  destruct (runs_to_inv _ _ _ (read_pass_ok current_interval k a t s (k, d) buf count rc l q e Hy (ta_in _ _ _ _ Ht) (ta_lock _ _ _ _ Ht)
    (ta_canon _ _ _ _ Ht) Hu Hn Hrc Hb Htl)) as (r & [k' d'] & Hrun & -> & Hl).
  destruct (line_terminal k _ a t s _ _ Ht Hl) as (t' & H1 & H2 & H3). by exists k', d', t'.
Qed.
End session.

(** C24: a typed line reaches its reader: when a line is typed on a terminal
    in canonical mode, with corrections that leave [l], and ended by a newline,
    a read gets exactly [l] and the newline; the terminal has nothing more to
    read, and the rest of the kernel's memory is as it was. *)
Theorem typed_line_is_read {FA D} `{!FrameAllocator FA} `{!Console D} (con cols interval : Z) (k : kst FA) (d : D) a t cs cs' l nl buf count :
  let m := tty_termios t in
  terminal_at k a t no_input → undisturbed k → newline_ends m → PHYS_OFFSET <= buf →
  Forall2 (λ c c', input_map m c = Some c' ∧ for_editor m c') (cs ++ [nl]) (cs' ++ [NL]) →
  fold_left (λ s c, edit m c s) cs' no_input = mk_line_state [] l 0 →
  line_room l = true → Forall (plain m) l → Z.of_nat (length l) < count →
  ∃ k1 d1 k2 d2 t2, tty_receive_buf con cols a (cs ++ [nl]) (k, d) = Done (tt, (k1, d1)) ∧
    n_tty_read interval 1 a buf count 0 (k1, d1) = Done (Some (RReturn (Z.of_nat (length l) + 1)), (k2, d2)) ∧
    bytes_at (kram k2) (V2P buf) (length l + 1) = l ++ [NL] ∧
    (∀ x, x < V2P buf ∨ V2P buf + Z.of_nat (length l) + 1 <= x → kram k2 x = kram k x) ∧
    terminal_at k2 a t2 no_input.
Proof.
  intros m Ht Hu [Hnl Hne] Hb Hcs Hl Hr Hp Hc.
  destruct (terminal_types con cols k d a t no_input _ _ Ht Hcs) as (k1 & d1 & t1 & H1 & Ht1 & Hm1 & He1). fold m in Hm1, Ht1.
  rewrite fold_left_app, Hl in Ht1. simpl in Ht1. rewrite Hne in Ht1. unfold commit, type_char in Ht1. simpl in Ht1. rewrite Hr in Ht1.
  rewrite take_ge in Ht1 by (rewrite length_app; unfold line_room, MAX_CANON, ring_room, BUF_SIZE in *; apply Z.ltb_lt in Hr; simpl; lia).
  destruct (terminal_read interval k1 d1 a t1 _ buf count 0 (l ++ [NL]) [] true Ht1) as (k2 & d2 & t2 & H2 & Ht2 & _ & He2);
    [by eapply runs_elsewhere|done|lia|done| |].
  { simpl. rewrite Hm1. apply take_line_whole; [done|done|lia]. }
  exists k1, d1, k2, d2, t2. assert (Hmem : kram k2 = put_bytes (kram k) (V2P buf) (l ++ [NL])).
  { destruct He2 as (? & ? & -> & _), He1 as (? & ? & -> & _). unfold stored, kram. simpl. by rewrite Z.add_0_r. }
  split; [done|]. split; [|split; [|split; [|done]]].
  - cbn [n_tty_read]. mstep H2. rewrite length_app. cbn [length]. unfold ret. do 4 f_equal. lia.
  - rewrite Hmem. rewrite <- (bytes_at_put (kram k) (V2P buf) (l ++ [NL])) at 2. by rewrite length_app.
  - intros x Hx. rewrite Hmem, put_bytes_out; [done|]. rewrite length_app. simpl. lia.
Qed.

(** the end of a file is never delivered: on a terminal with the standard
    settings and no input, [^D] counts a line without a character, and
    [n_tty_read] then goes round its loop for ever: it neither returns 0 nor
    sleeps, however many passes it is given. *)
Theorem tty_eof_never_delivered {FA D} `{!FrameAllocator FA} `{!Console D} (con cols interval : Z) (k : kst FA) (d : D) a t buf count :
  terminal_at k a t no_input → tty_termios t = tty_std_termios → undisturbed k → 0 < count → PHYS_OFFSET <= buf →
  ∃ k1 d1, tty_receive_char con cols a 4 (k, d) = Done (tt, (k1, d1)) ∧
    ∀ fuel, ∃ y, n_tty_read interval fuel a buf count 0 (k1, d1) = Done (None, y).
Proof.
  intros Ht Hm Hu Hc Hb.
  destruct (terminal_types con cols k d a t no_input [4] [4] Ht) as (k1 & d1 & t1 & H1 & Ht1 & Hm1 & He1).
  { rewrite Hm. repeat constructor; done. }
  exists k1, d1. split.
  { cbn [tty_receive_buf for_each] in H1. apply bind_inv in H1 as ([] & y & H1 & H). by injection H as ->. }
  pose proof (runs_elsewhere a _ _ He1 Hu) as Hu1. clear H1 He1. rewrite Hm in *. intros fuel. revert k1 d1 t1 Ht1 Hm1 Hu1.
  induction fuel as [|fuel IH]; intros k1 d1 t1 Ht1 Hm1 Hu1; [by eexists|].
  destruct (terminal_read interval k1 d1 a t1 _ buf count 0 [] [] false Ht1) as (k2 & d2 & t2 & H2 & Ht2 & Hm2 & He2);
    [done|done|lia|done|by destruct (Z.to_nat (count - 0))|].
  cbn [n_tty_read]. mstep H2. apply (IH k2 d2 t2); [exact Ht2|congruence|]. eapply runs_elsewhere; [exact He2|].
  destruct Hu1 as (p & x & Hr & Hq). exists p, x. split; [exact Hr|exact Hq].
Qed.

(** ** Witnesses: a new terminal, whose device keeps what was printed *)

#[export] Instance ex_console : Console (list Z) := {|
  dev_putc := λ _ c d, d ++ [c]; dev_get_cursor := λ _, (0, 0); dev_set_cursor := λ _ _ d, d; dev_clear := λ d, d;
  dev_set_fg := λ _ d, d; dev_set_bg := λ _ d, d |}.
Definition ex_line_buf : Z := PHYS_OFFSET + 0x5000.
Definition ex_tty : tty := init_tty_struct 100 108.
Definition ex_tty_kst : kst pmm :=
  set_k_ttys {[50 := ex_tty]} (set_k_sched (ex_run_sched (ex_process 0 0 0 0 [] None)) (ex_kst (ex_process 0 0 0 0 [] None) ∅ ∅ ex_vfs)).
Lemma ex_terminal : terminal_at ex_tty_kst 50 ex_tty no_input.
Proof.
  split; try done.
  - by eexists _, _; apply ex_run_ok.
  - split; try done; try by vm_compute. simpl. lia.
Qed.
Lemma ex_undisturbed : undisturbed ex_tty_kst.
Proof. exists 11, (ex_process 0 0 0 0 [] None). split; [|done]. exists 2, ex_run_task. by split_and!. Qed.
Lemma ex_for_editor c : Forall (λ s, c ≠ s) [3; 28; 26; 17; 19; 22] → for_editor tty_std_termios c.
Proof.
  intros [H1 [H2 [H3 H]%Forall_cons]%Forall_cons]%Forall_cons. repeat (apply Forall_cons in H as [? H]). split.
  - unfold signal_of. change (cc tty_std_termios VINTR) with 3. change (cc tty_std_termios VQUIT) with 28. change (cc tty_std_termios VSUSP) with 26.
    rewrite (proj2 (Z.eqb_neq c 3)), (proj2 (Z.eqb_neq c 28)), (proj2 (Z.eqb_neq c 26)) by done. by case_match.
  - intros _. by split_and!.
  - done.
Qed.

Lemma tty_edits_lines_witness :
  ∃ k' d' t', tty_receive_char 50 80 50 97 (ex_tty_kst, []) = Done (tt, (k', d')) ∧ terminal_at k' 50 t' (mk_line_state [] [97] 0).
Proof.
  destruct (tty_edits_lines 50 80 ex_tty_kst [] 50 ex_tty no_input 97 97 ex_terminal eq_refl) as (k' & d' & t' & H & Ht & _).
  - apply ex_for_editor. repeat constructor; done.
  - exists k', d', t'. split; [exact H|exact Ht].
Defined.
Lemma typed_line_is_read_witness :
  ∃ k1 d1 k2 d2, tty_receive_buf 50 80 50 [97; 98; 127; 99; 13] (ex_tty_kst, []) = Done (tt, (k1, d1)) ∧
    n_tty_read 10 1 50 ex_line_buf 256 0 (k1, d1) = Done (Some (RReturn 3), (k2, d2)) ∧ bytes_at (kram k2) (V2P ex_line_buf) 3 = [97; 99; 10].
Proof.
  destruct (typed_line_is_read 50 80 10 ex_tty_kst [] 50 ex_tty [97; 98; 127; 99] [97; 98; 127; 99] [97; 99] 13 ex_line_buf 256
    ex_terminal ex_undisturbed) as (k1 & d1 & k2 & d2 & t2 & H1 & H2 & H3 & _).
  - split; [done|]. intros s. reflexivity.
  - done.
  - repeat (apply Forall2_cons; split; [split; [reflexivity|apply ex_for_editor; repeat constructor; done]|]). constructor.
  - reflexivity.
  - reflexivity.
  - repeat constructor; done.
  - done.
  - exists k1, d1, k2, d2. split; [exact H1|]. split; [exact H2|exact H3].
Defined.
Lemma tty_eof_never_delivered_witness :
  ∃ k1 d1, tty_receive_char 50 80 50 4 (ex_tty_kst, []) = Done (tt, (k1, d1)) ∧
    ∃ y, n_tty_read 10 100 50 ex_line_buf 256 0 (k1, d1) = Done (None, y).
Proof.
  destruct (tty_eof_never_delivered 50 80 10 ex_tty_kst [] 50 ex_tty ex_line_buf 256 ex_terminal eq_refl ex_undisturbed) as (k1 & d1 & H1 & H2).
  - done.
  - done.
  - exists k1, d1. split; [exact H1|exact (H2 100%nat)].
Defined.
