(* ===== verification/VirtioInput.v ===== *)
(** The input devices: keyboard and mouse, [kernel/arch/aarch64/firmware/virtio.c]
    (the event queues and their interrupt handlers), [drivers/virtio-key.c] and
    [drivers/virtio-mouse.c] (the buffers that processes read).

    The state is the drivers' variables with the devices' registers, and the
    kernel with its console: the queues lie in the kernel's memory, a key goes
    to the console terminal.  A device acts when one of its registers is
    written.  The two queues are the same code in the source; [which] tells
    them apart.  A read that has to wait is a pass that tells so. *)
From S2P Require Import Virtio.
From S2P Require Export TtyLine.
Local Open Scope prog_scope.

Definition VIRTIO_MMIO_DEVICE_FEATURES : Z := 0x010.
Definition VIRTIO_MMIO_DRIVER_FEATURES : Z := 0x020.
Definition VIRTIO_MMIO_INTERRUPT_STATUS : Z := 0x060.
Definition VIRTIO_MMIO_INTERRUPT_ACK : Z := 0x064.
Definition VIRTIO_STATUS_FEAT_OK : Z := 8.
Definition VIRTIO_INPUT_CFG_SELECT : Z := 0x100.
Definition VIRTIO_INPUT_CFG_SUBSEL : Z := 0x101.
Definition VIRTIO_INPUT_CFG_SIZE : Z := 0x102.
Definition VIRTIO_INPUT_CFG_EV_BITS : Z := 0x11.
Definition EV_SYN : Z := 0.
Definition EV_KEY : Z := 1.
Definition EV_REL : Z := 2.
Definition KB_BUFFER_SIZE : Z := 1024.
Definition MOUSE_BUFFER_SIZE : Z := 128.
Definition KEY_LEFTSHIFT : Z := 42.
Definition KEY_RIGHTSHIFT : Z := 54.
Definition KEY_LEFTCTRL : Z := 29.
Definition KEY_RIGHTCTRL : Z := 97.
Definition SYN_REPORT : Z := 0.
Definition REL_X : Z := 0.
Definition REL_Y : Z := 1.
Definition BTN_LEFT : Z := 0x110.
Definition BTN_RIGHT : Z := 0x111.
Definition BTN_MIDDLE : Z := 0x112.
(** [sizeof(mouse_event_t)], its padding included. *)
Definition SIZEOF_MOUSE_EVENT : Z := 12.

Definition key_map : list Z :=
  [0; 0; 49; 50; 51; 52; 53; 54; 55; 56; 57; 48; 45; 61; 8; 9;
   113; 119; 101; 114; 116; 121; 117; 105; 111; 112; 91; 93; 10; 0;
   97; 115; 100; 102; 103; 104; 106; 107; 108; 59; 39; 96; 0; 92;
   122; 120; 99; 118; 98; 110; 109; 44; 46; 47; 0; 42; 0; 32].
Definition key_map_shift : list Z :=
  [0; 0; 33; 64; 35; 36; 37; 94; 38; 42; 40; 41; 95; 43; 8; 9;
   81; 87; 69; 82; 84; 89; 85; 73; 79; 80; 123; 125; 10; 0;
   65; 83; 68; 70; 71; 72; 74; 75; 76; 58; 34; 126; 0; 124;
   90; 88; 67; 86; 66; 78; 77; 60; 62; 63; 0; 42; 0; 32].

(** The registers of the devices, by their addresses; to acknowledge an
    interrupt changes no memory. *)
Class InputDevice (V : Type) := {
  id_read32 : Z → V → Z;
  id_write32 : Z → Z → V * mem → V * mem;
  id_read8 : Z → V → Z;
  id_write8 : Z → Z → V → V;
  id_ack base v d m : (id_write32 (base + VIRTIO_MMIO_INTERRUPT_ACK) v (d, m)).2 = m
}.

(** The pointers of a queue, [input_desc] and so on. *)
Record vqueue := mk_vqueue { q_base : Z; q_desc : Z; q_avail : Z; q_used : Z; q_events : Z; q_last : Z }.
Definition set_q_base v q := mk_vqueue v (q_desc q) (q_avail q) (q_used q) (q_events q) (q_last q).
Definition set_q_ring d a u q := mk_vqueue (q_base q) d a u (q_events q) (q_last q).
Definition set_q_events v q := mk_vqueue (q_base q) (q_desc q) (q_avail q) (q_used q) v (q_last q).
Definition set_q_last v q := mk_vqueue (q_base q) (q_desc q) (q_avail q) (q_used q) (q_events q) v.
(** [mouse_state], and the buffer of the events that processes read. *)
Record mouse := mk_mouse { m_x : Z; m_y : Z; m_rel_x : Z; m_rel_y : Z; m_buttons : Z; mouse_buffer : list (Z * Z * Z); mouse_head : Z; mouse_tail : Z }.
Definition set_m_pos x y ms := mk_mouse x y (m_rel_x ms) (m_rel_y ms) (m_buttons ms) (mouse_buffer ms) (mouse_head ms) (mouse_tail ms).
Definition set_m_rel rx ry ms := mk_mouse (m_x ms) (m_y ms) rx ry (m_buttons ms) (mouse_buffer ms) (mouse_head ms) (mouse_tail ms).
Definition set_m_buttons v ms := mk_mouse (m_x ms) (m_y ms) (m_rel_x ms) (m_rel_y ms) v (mouse_buffer ms) (mouse_head ms) (mouse_tail ms).
Definition set_mouse_buffer v h ms := mk_mouse (m_x ms) (m_y ms) (m_rel_x ms) (m_rel_y ms) (m_buttons ms) v h (mouse_tail ms).
Definition set_mouse_tail v ms := mk_mouse (m_x ms) (m_y ms) (m_rel_x ms) (m_rel_y ms) (m_buttons ms) (mouse_buffer ms) (mouse_head ms) v.
Record inp (V : Type) := mk_inp {
  i_dev : V; i_key : vqueue; i_mouse : vqueue;
  kb_buffer : list Z; kb_head : Z; kb_tail : Z; shifting : bool; ctrl_pressed : bool;
  i_ms : mouse
}.
Arguments mk_inp {V}.
Arguments i_dev {V}.
Arguments i_key {V}.
Arguments i_mouse {V}.
Arguments kb_buffer {V}.
Arguments kb_head {V}.
Arguments kb_tail {V}.
Arguments shifting {V}.
Arguments ctrl_pressed {V}.
Arguments i_ms {V}.
Inductive which := KEYBOARD | MOUSE.

(** [virtio_scancode_to_ascii] *)
Definition virtio_scancode_to_ascii (shift ctrl : bool) (code : Z) : Z :=
  if code =? 1 then 0
  else if (2 <=? code) && (code <? Z.of_nat (length key_map)) then
    let c := nth (Z.to_nat code) (if shift then key_map_shift else key_map) 0 in
    if c =? 0 then 0
    else if ctrl && (97 <=? c) && (c <=? 122) then c - 97 + 1
    else if ctrl && (65 <=? c) && (c <=? 90) then c - 65 + 1
    else c
  else 0.

Section Input.
Context {FA D V : Type} `{!FrameAllocator FA} `{!Console D} `{!InputDevice V}.
(** [tty_console], the columns of the screen, and the queues of the tasks that
    wait for a key and for the mouse. *)
Context (con RAMFB_COLS kb_wait_queue mouse_wait_queue : Z).
Notation st := (inp V * (kst FA * D))%type.
Implicit Types i : inp V.

Definition queue (w : which) i : vqueue := match w with KEYBOARD => i_key i | MOUSE => i_mouse i end.
Definition set_queue (w : which) (q : vqueue) i : inp V :=
  match w with
  | KEYBOARD => mk_inp (i_dev i) q (i_mouse i) (kb_buffer i) (kb_head i) (kb_tail i) (shifting i) (ctrl_pressed i) (i_ms i)
  | MOUSE => mk_inp (i_dev i) (i_key i) q (kb_buffer i) (kb_head i) (kb_tail i) (shifting i) (ctrl_pressed i) (i_ms i)
  end.
Definition set_i_dev (d : V) i : inp V := mk_inp d (i_key i) (i_mouse i) (kb_buffer i) (kb_head i) (kb_tail i) (shifting i) (ctrl_pressed i) (i_ms i).
Definition set_kb (l : list Z) (h t : Z) i : inp V := mk_inp (i_dev i) (i_key i) (i_mouse i) l h t (shifting i) (ctrl_pressed i) (i_ms i).
Definition set_mods (s c : bool) i : inp V := mk_inp (i_dev i) (i_key i) (i_mouse i) (kb_buffer i) (kb_head i) (kb_tail i) s c (i_ms i).
Definition set_i_ms (ms : mouse) i : inp V := mk_inp (i_dev i) (i_key i) (i_mouse i) (kb_buffer i) (kb_head i) (kb_tail i) (shifting i) (ctrl_pressed i) ms.

Definition on_inp (f : inp V → inp V) : M st unit := modify (λ s, (f s.1, s.2)).
Definition on_kd {A} (m : M (kst FA * D) A) : M st A := zoom snd (λ x s, (s.1, x)) m.
Definition smem (s : st) : mem := kram s.2.1.
Definition set_smem (m : mem) (s : st) : st := (s.1, (set_kram m s.2.1, s.2.2)).
Definition ld16 (p : Z) : M st Z := gets (λ s, load16 (smem s) (V2P p)).
Definition ld32 (p : Z) : M st Z := gets (λ s, load32 (smem s) (V2P p)).
Definition st16 (p v : Z) : M st unit := modify (λ s, set_smem (store16 (smem s) (V2P p) v) s).
Definition st32 (p v : Z) : M st unit := modify (λ s, set_smem (store32 (smem s) (V2P p) v) s).
Definition st64 (p v : Z) : M st unit := modify (λ s, set_smem (store64 (smem s) (V2P p) v) s).
Definition mmio_read32 (a : Z) : M st Z := gets (λ s, id_read32 a (i_dev s.1)).
Definition mmio_write32 (a v : Z) : M st unit := modify (λ s,
  let r := id_write32 a v (i_dev s.1, smem s) in set_smem r.2 (set_i_dev r.1 s.1, s.2)).
Definition mmio_read8 (a : Z) : M st Z := gets (λ s, id_read8 a (i_dev s.1)).
Definition mmio_write8 (a v : Z) : M st unit := on_inp (λ i, set_i_dev (id_write8 a v (i_dev i)) i).
Definition queue_of (w : which) : M st vqueue := gets (λ s, queue w s.1).
Definition upd_queue (w : which) (f : vqueue → vqueue) : M st unit := on_inp (λ i, set_queue w (f (queue w i)) i).
(** A frame set to zero. *)
Definition clear_frame : M st Z :=
  page_phys <- on_kd (in_kst (on_vm (on_pt alloc_frame)));;
  modify (λ s, set_smem (zero_page (smem s) (P2V page_phys)) s);;;
  ret page_phys.

(** ** Set-up *)

Definition virtio_input_is_mouse (base : Z) : M st bool :=
  mmio_write8 (base + VIRTIO_INPUT_CFG_SELECT) VIRTIO_INPUT_CFG_EV_BITS;;;
  mmio_write8 (base + VIRTIO_INPUT_CFG_SUBSEL) EV_REL;;;
  size <- mmio_read8 (base + VIRTIO_INPUT_CFG_SIZE);;
  ret (0 <? size).
(** One descriptor and its place in the available ring. *)
Definition put_event_desc (q : vqueue) (i : Z) : M st unit :=
  st64 (q_desc q + 16 * i) (V2P (q_events q + 8 * i));;;
  st32 (q_desc q + 16 * i + 8) 8;;;
  st16 (q_desc q + 16 * i + 12) VRING_DESC_F_WRITE;;;
  st16 (q_desc q + 16 * i + 14) 0;;;
  st16 (q_avail q + 4 + 2 * i) i.
Definition events_init (w : which) (base : Z) : M st unit :=
  upd_queue w (set_q_base base);;;
  mmio_write32 (base + VIRTIO_MMIO_STATUS) 0;;;
  let status := Z.lor VIRTIO_STATUS_ACK VIRTIO_STATUS_DRV in
  mmio_write32 (base + VIRTIO_MMIO_STATUS) status;;;
  features <- mmio_read32 (base + VIRTIO_MMIO_DEVICE_FEATURES);;
  mmio_write32 (base + VIRTIO_MMIO_DRIVER_FEATURES) (andnot features (Z.shiftl 1 29));;;
  mmio_write32 (base + VIRTIO_MMIO_STATUS) (Z.lor status VIRTIO_STATUS_FEAT_OK);;;
  status <- mmio_read32 (base + VIRTIO_MMIO_STATUS);;
  if negb (has status VIRTIO_STATUS_FEAT_OK) then ret tt
  else
    mmio_write32 (base + VIRTIO_MMIO_GUEST_PAGE_SIZE) 4096;;;
    mmio_write32 (base + VIRTIO_MMIO_QUEUE_SEL) 0;;;
    max_queue <- mmio_read32 (base + VIRTIO_MMIO_QUEUE_NUM_MAX);;
    if max_queue =? 0 then ret tt
    else
      mmio_write32 (base + VIRTIO_MMIO_QUEUE_NUM) QUEUE_SIZE;;;
      mmio_write32 (base + VIRTIO_MMIO_QUEUE_ALIGN) 16;;;
      page_phys <- clear_frame;;
      let page_virt := P2V page_phys in
      mmio_write32 (base + VIRTIO_MMIO_QUEUE_PFN) (u32 (Z.shiftr page_phys 12));;;
      let avail := page_virt + QUEUE_SIZE * 16 in
      let used_start := Z.land (avail + (4 + 2 * QUEUE_SIZE) + 15) (Z.lnot 15) in
      upd_queue w (set_q_ring page_virt avail used_start);;;
      event_page_phys <- clear_frame;;
      upd_queue w (set_q_events (P2V event_page_phys));;;
      q <- queue_of w;;
      for_each (put_event_desc q) (seqZ 0 QUEUE_SIZE);;;
      st16 (q_avail q + 2) QUEUE_SIZE;;;
      mmio_write32 (base + VIRTIO_MMIO_QUEUE_NOTIFY) 0;;;
      mmio_write32 (base + VIRTIO_MMIO_STATUS) (Z.lor status VIRTIO_STATUS_DRV_OK).
Definition virtio_input_init (base : Z) : M st unit := events_init KEYBOARD base.
Definition virtio_mouse_init (base : Z) : M st unit := events_init MOUSE base.

(** ** Keys *)

Definition kb_put (c : Z) : M st unit :=
  i <- gets fst;;
  let next_head := Z.rem (kb_head i + 1) KB_BUFFER_SIZE in
  if negb (next_head =? kb_tail i) then
    l <- of_opt (zset (kb_buffer i) (kb_head i) c);;
    on_inp (set_kb l next_head (kb_tail i));;;
    on_kd (wake kb_wait_queue)
  else ret tt.
(** The event at [evt], in [virtio_input_handler]. *)
Definition handle_key (evt : Z) : M st unit :=
  type <- ld16 evt;;
  if type =? EV_KEY then
    code <- ld16 (evt + 2);;
    value <- ld32 (evt + 4);;
    i <- gets fst;;
    if (code =? KEY_LEFTSHIFT) || (code =? KEY_RIGHTSHIFT) then on_inp (set_mods (value =? 1) (ctrl_pressed i))
    else if (code =? KEY_LEFTCTRL) || (code =? KEY_RIGHTCTRL) then on_inp (set_mods (shifting i) (value =? 1))
    else if value =? 1 then
      let c := virtio_scancode_to_ascii (shifting i) (ctrl_pressed i) code in
      (if negb (c =? 0) then kb_put c else ret tt);;;
      on_kd (tty_push_char con RAMFB_COLS c con)
    else ret tt
  else ret tt.
Definition virtio_kb_getchar_nonblock : M st Z :=
  i <- gets fst;;
  if kb_head i =? kb_tail i then ret 0
  else
    c <- of_opt (zget (kb_buffer i) (kb_tail i));;
    on_inp (set_kb (kb_buffer i) (kb_head i) (Z.rem (kb_tail i + 1) KB_BUFFER_SIZE));;;
    ret c.
(** A pass of [virtio_kb_read] with [n] places left: the characters got, and
    whether it is over; otherwise the task sleeps. *)
Fixpoint virtio_kb_read_pass (n : nat) (buf : list Z) : M st (list Z * bool) :=
  match n with
  | O => ret (buf, true)
  | S n' =>
      i <- gets fst;;
      if kb_head i =? kb_tail i then ret (buf, false)
      else
        c <- virtio_kb_getchar_nonblock;;
        if c =? 10 then ret (buf ++ [c], true) else virtio_kb_read_pass n' (buf ++ [c])
  end.

(** ** The mouse *)

Definition on_ms (f : mouse → mouse) : M st unit := on_inp (λ i, set_i_ms (f (i_ms i)) i).
Definition virtio_mouse_push_event : M st unit :=
  ms <- gets (λ s, i_ms s.1);;
  let next_head := Z.rem (mouse_head ms + 1) MOUSE_BUFFER_SIZE in
  if negb (next_head =? mouse_tail ms) then
    l <- of_opt (zset (mouse_buffer ms) (mouse_head ms) (m_rel_x ms, m_rel_y ms, m_buttons ms));;
    on_ms (λ ms, set_m_rel 0 0 (set_mouse_buffer l next_head ms));;;
    on_kd (wake mouse_wait_queue)
  else ret tt.
Definition button_bit (code : Z) : Z :=
  if code =? BTN_LEFT then 1 else if code =? BTN_RIGHT then 2 else if code =? BTN_MIDDLE then 4 else 0.
Definition virtio_mouse_handle_event (evt : Z) : M st unit :=
  type <- ld16 evt;;
  code <- ld16 (evt + 2);;
  value <- ld32 (evt + 4);;
  if type =? EV_REL then
    if code =? REL_X then on_ms (λ ms, set_m_pos (i32 (m_x ms + i32 value)) (m_y ms) (set_m_rel (i32 (m_rel_x ms + i32 value)) (m_rel_y ms) ms))
    else if code =? REL_Y then on_ms (λ ms, set_m_pos (m_x ms) (i32 (m_y ms + i32 value)) (set_m_rel (m_rel_x ms) (i32 (m_rel_y ms + i32 value)) ms))
    else ret tt
  else if type =? EV_KEY then
    let bit := button_bit code in
    if bit =? 0 then ret tt
    else if value =? 1 then on_ms (λ ms, set_m_buttons (Z.lor (m_buttons ms) bit) ms)
    else if value =? 0 then on_ms (λ ms, set_m_buttons (andnot (m_buttons ms) bit) ms)
    else ret tt
  else if (type =? EV_SYN) && (code =? SYN_REPORT) then virtio_mouse_push_event
  else ret tt.

(** The events [virtio_mouse_read] copies, at most [n]. *)
Fixpoint mouse_read_loop (n : nat) (got : list (Z * Z * Z)) : M st (list (Z * Z * Z)) :=
  match n with
  | O => ret got
  | S n' =>
      ms <- gets (λ s, i_ms s.1);;
      if mouse_head ms =? mouse_tail ms then ret got
      else
        e <- of_opt (zget (mouse_buffer ms) (mouse_tail ms));;
        on_ms (λ ms, set_mouse_tail (Z.rem (mouse_tail ms + 1) MOUSE_BUFFER_SIZE) ms);;;
        mouse_read_loop n' (got ++ [e])
  end.
(** [None] when the task has to sleep. *)
Definition virtio_mouse_read (count : Z) : M st (option (list (Z * Z * Z))) :=
  if count <? SIZEOF_MOUSE_EVENT then ret (Some [])
  else
    ms <- gets (λ s, i_ms s.1);;
    if mouse_head ms =? mouse_tail ms then ret None
    else l <- mouse_read_loop (Z.to_nat (count / SIZEOF_MOUSE_EVENT)) [];; ret (Some l).
(** [arg] is dereferenced as it is. *)
Definition virtio_mouse_ioctl (request arg : Z) : M st Z :=
  ms <- gets (λ s, i_ms s.1);;
  if (request =? 1) && negb (arg =? 0) then st32 arg (u32 (m_x ms));;; st32 (arg + 4) (u32 (m_y ms));;; ret 0
  else if (request =? 2) && negb (arg =? 0) then modify (λ s, set_smem (upd (smem s) (V2P arg) (m_buttons ms)) s);;; ret 0
  else if (request =? 3) && negb (arg =? 0) then
    x <- ld32 arg;;
    y <- ld32 (arg + 4);;
    on_ms (set_m_pos (i32 x) (i32 y));;; ret 0
  else ret (-1).

(** ** The interrupt handlers *)

(** [while (last_used_idx != used->idx)]. *)
Fixpoint drain (n : nat) (w : which) (handle : Z → M st unit) : M st unit :=
  match n with
  | O => faultM
  | S n' =>
      q <- queue_of w;;
      idx <- ld16 (q_used q + 2);;
      if q_last q =? idx then ret tt
      else
        id <- ld32 (q_used q + 4 + 8 * (q_last q mod QUEUE_SIZE));;
        handle (q_events q + 8 * id);;;
        avail_idx <- ld16 (q_avail q + 2);;
        st16 (q_avail q + 4 + 2 * (avail_idx mod QUEUE_SIZE)) (u16 id);;;
        st16 (q_avail q + 2) (u16 (avail_idx + 1));;;
        upd_queue w (λ q, set_q_last (u16 (q_last q + 1)) q);;;
        drain n' w handle
  end.
Definition event_handler (n : nat) (w : which) (handle : Z → M st unit) : M st unit :=
  q <- queue_of w;;
  if q_base q =? 0 then ret tt
  else
    status <- mmio_read32 (q_base q + VIRTIO_MMIO_INTERRUPT_STATUS);;
    mmio_write32 (q_base q + VIRTIO_MMIO_INTERRUPT_ACK) status;;;
    drain n w handle;;;
    mmio_write32 (q_base q + VIRTIO_MMIO_QUEUE_NOTIFY) 0.
Definition virtio_input_handler (n : nat) : M st unit := event_handler n KEYBOARD handle_key.
Definition virtio_mouse_input_handler (n : nat) : M st unit := event_handler n MOUSE virtio_mouse_handle_event.
End Input.

(** ** The events of a queue *)

Record event := mk_event { ev_type : Z; ev_code : Z; ev_value : Z }.
Definition event_at (m : mem) (p : Z) (e : event) : Prop :=
  load16 m p = ev_type e ∧ load16 m (p + 2) = ev_code e ∧ load32 m (p + 4) = ev_value e.
(** The rings lie in the frame [f], the buffers of the events in [g]. *)
Record queue_in (q : vqueue) (f g : Z) : Prop := {
  qi_frames : aligned f ∧ aligned g ∧ f ≠ g;
  qi_ptrs : q_avail q = P2V f + 256 ∧ q_used q = P2V f + 304 ∧ q_events q = P2V g;
  qi_last : 0 <= q_last q < 65536
}.
(** The device has filled the buffers [l] with events since the handler's last
    run, when [last] had been handled. *)
Definition pending (m : mem) (f g last : Z) (l : list (Z * event)) : Prop :=
  load16 m (f + 306) = u16 (last + Z.of_nat (length l)) ∧
  ∀ k id e, l !! k = Some (id, e) → load32 m (f + 308 + 8 * ((last + Z.of_nat k) mod 16)) = id ∧ 0 <= id < 16 ∧ event_at m (g + 8 * id) e.
(** The buffers [ids] are given back. *)
Definition slot (f a : Z) : Z := f + 260 + 2 * (a mod 16).
Definition returned (m m' : mem) (f : Z) (ids : list Z) : Prop :=
  let a := load16 m (f + 258) in
  load16 m' (f + 258) = u16 (a + Z.of_nat (length ids)) ∧
  (∀ k id, ids !! k = Some id → load16 m' (slot f (a + Z.of_nat k)) = id) ∧
  (∀ x, (x < f + 258 ∨ f + 260 <= x) → (∀ k, (k < length ids)%nat → x < slot f (a + Z.of_nat k) ∨ slot f (a + Z.of_nat k) + 2 <= x) → m' x = m x).

Lemma u16_mod x : u16 x mod 16 = x mod 16.
Proof. unfold u16. change 65536 with (4096 * 16). zlia. Qed.
Lemma event_at_ext m m' p e : (∀ x, p <= x < p + 8 → m' x = m x) → event_at m p e → event_at m' p e.
Proof.
  intros H (H1 & H2 & H3). unfold event_at, load16, load32 in *. split_and!; [rewrite <- H1|rewrite <- H2|rewrite <- H3]; apply load_le_ext; intros; apply H; lia.
Qed.

Section Drain.
Context {FA D V : Type} `{!FrameAllocator FA} `{!Console D} `{!InputDevice V}.
Notation st := (inp V * (kst FA * D))%type.
Implicit Types s : st.
Local Set Default Proof Using "All".

Lemma smem_set m s : smem (set_smem m s) = m.
Proof. done. Qed.
Lemma queue_set_smem w m s : queue w (set_smem m s).1 = queue w s.1.
Proof. done. Qed.

Lemma st16_twice {B} p1 x1 p2 x2 (k : M st B) s : (st16 p1 x1;;; st16 p2 x2;;; k) s =
  k (set_smem (store16 (store16 (smem s) (V2P p1) x1) (V2P p2) x2) s).
Proof. done. Qed.

(** The memory after a buffer [id] is given back, [a] being the index before. *)
Definition give_back (m : mem) (f a id : Z) : mem := store16 (store16 m (slot f a) (u16 id)) (f + 258) (u16 (a + 1)).
Lemma slot_range f a : f + 260 <= slot f a <= f + 290.
Proof. unfold slot. pose proof (Z.mod_pos_bound a 16). lia. Qed.
Lemma give_back_out m f a id x : (x < f + 258 ∨ f + 260 <= x) → (x < slot f a ∨ slot f a + 2 <= x) → give_back m f a id x = m x.
Proof. intros H1 H2. unfold give_back, store16. by rewrite !store_le_out by lia. Qed.
Lemma give_back_idx m f a id : load16 (give_back m f a id) (f + 258) = u16 (a + 1).
Proof. unfold give_back, load16, store16. rewrite load_store_le. change (256 ^ Z.of_nat 2) with 65536. pose proof (u16_range (a + 1)). by apply Z.mod_small. Qed.
Lemma give_back_slot m f a id : 0 <= id < 16 → load16 (give_back m f a id) (slot f a) = id.
Proof.
  intros Hid. unfold give_back, load16, store16. pose proof (slot_range f a). rewrite load_store_le_ne by lia. rewrite load_store_le.
  change (256 ^ Z.of_nat 2) with 65536. unfold u16. change (2 ^ 16) with 65536. rewrite !Z.mod_small by (rewrite ?Z.mod_small by lia; lia). done.
Qed.
Lemma returned_cons m m' f id ids : 0 <= id < 16 → (length ids < 16)%nat → returned (give_back m f (load16 m (f + 258)) id) m' f ids → returned m m' f (id :: ids).
Proof.
  intros Hid Hl (H1 & H2 & H3). unfold returned. set (a := load16 m (f + 258)) in *. rewrite give_back_idx in *. cbn [length].
  assert (∀ k, slot f (u16 (a + 1) + k) = slot f (a + (1 + k))) as Hs.
  { intros k. unfold slot. do 2 f_equal. rewrite Z.add_mod, u16_mod, <- Z.add_mod by done. f_equal. lia. }
  assert (∀ k, (k < length ids)%nat → slot f a + 2 <= slot f (a + (1 + Z.of_nat k)) ∨ slot f (a + (1 + Z.of_nat k)) + 2 <= slot f a) as Hne.
  { intros k Hk. unfold slot. assert (a mod 16 ≠ (a + (1 + Z.of_nat k)) mod 16) by (intros E; rewrite <- (Z.add_0_r a) in E at 1; apply (mod_inj 16 a 0 (1 + Z.of_nat k)) in E; lia). lia. }
  split; [|split].
  - rewrite H1. unfold u16. rewrite Zplus_mod_idemp_l. f_equal. lia.
  - intros [|k] i Hi.
    + injection Hi as <-. rewrite Z.add_0_r. rewrite <- (give_back_slot m f a id Hid). unfold load16. apply load_le_ext. intros x Hx. pose proof (slot_range f a). apply H3; [lia|].
      intros k Hk. rewrite Hs. pose proof (Hne k Hk). lia.
    + cbn in Hi. rewrite <- (H2 k i Hi), Hs. do 2 f_equal. lia.
  - intros x Hx Hslots. rewrite H3; [|done|].
    + apply give_back_out; [done|]. specialize (Hslots 0%nat ltac:(lia)). by rewrite Z.add_0_r in Hslots.
    + intros k Hk. rewrite Hs. replace (1 + Z.of_nat k) with (Z.of_nat (S k)) by lia. apply Hslots. lia.
Qed.

(** What a handler does with an event, on an abstract state [A]. *)
Context (w : which) (handle : Z → M st unit) {A : Type} (Inv : A → st → Prop) (F : event → A → A) (P : A → event → Prop).
Hypothesis Inv_mem : ∀ a m s, Inv a s → Inv a (set_smem m s).
Hypothesis Inv_queue : ∀ a q s, Inv a s → Inv a (set_queue w q s.1, s.2).
Hypothesis handle_ok : ∀ a s e g o, Inv a s → P a e → 0 <= g < 2 ^ 39 → 0 <= o → event_at (smem s) (g + o) e →
  ∃ s', handle (P2V g + o) s = Done (tt, s') ∧ Inv (F e a) s' ∧ smem s' = smem s ∧ queue w s'.1 = queue w s.1.

Fixpoint all_ok (a : A) (l : list event) : Prop := match l with [] => True | e :: l => P a e ∧ all_ok (F e a) l end.

Lemma drain_runs f g l : ∀ n a s, (length l < n)%nat → (length l <= 16)%nat → Inv a s → all_ok a (map snd l) →
  queue_in (queue w s.1) f g → pending (smem s) f g (q_last (queue w s.1)) l → 0 <= load16 (smem s) (f + 258) < 65536 →
  ∃ s', drain n w handle s = Done (tt, s') ∧ Inv (fold_left (λ a e, F e a) (map snd l) a) s' ∧
    queue w s'.1 = set_q_last (u16 (q_last (queue w s.1) + Z.of_nat (length l))) (queue w s.1) ∧ returned (smem s) (smem s') f (map fst l).
Proof.
  induction l as [|[id e] l IH]; intros [|n] a s Hn Hl HI HP Hq [Hidx Hev] Hav; [cbn in Hn; lia| |cbn in Hn; lia|].
  all: pose proof Hq as [((Hf1 & Hf2) & (Hg1 & Hg2) & Hfg) (Hqa & Hqu & Hqe) Hlast]; set (q := queue w s.1) in *.
  all: cbn [drain]; unfold queue_of; unfold bind at 1, gets at 1; fold q; unfold ld16 at 1; unfold bind at 1, gets at 1.
  all: rewrite Hqu, <- Z.add_assoc, V2P_off by lia; change (304 + 2) with 306; rewrite Hidx; cbn [length].
  - rewrite Z.add_0_r. unfold u16. rewrite Z.mod_small by done. rewrite Z.eqb_refl. exists s. split; [done|]. split; [done|]. split.
    + change (q = set_q_last (q_last q) q). generalize q. by intros [].
    + unfold returned. cbn [length map]. rewrite Z.add_0_r. split; [|split; [done|done]]. unfold u16. by rewrite Z.mod_small.
  - rewrite (proj2 (Z.eqb_neq _ _)) by (cbn [length] in Hl; unfold u16; change (2 ^ 16) with 65536; zlia).
    destruct (Hev 0%nat id e eq_refl) as (Hid & Hid1 & He). rewrite Z.add_0_r in Hid.
    unfold ld32 at 1. unfold bind at 1, gets at 1. rewrite <- !Z.add_assoc, V2P_off by (pose proof (Z.mod_pos_bound (q_last q) 16); unfold QUEUE_SIZE; lia).
    replace (f + (304 + (4 + 8 * (q_last q mod QUEUE_SIZE)))) with (f + 308 + 8 * (q_last q mod 16)) by (unfold QUEUE_SIZE; lia). rewrite Hid, Hqe.
    destruct HP as [HP1 HP]. destruct (handle_ok a s e g (8 * id) HI HP1 ltac:(lia) ltac:(lia) He) as (s1 & Hrun & HI1 & Hm1 & Hq1). mstep Hrun.
    unfold ld16 at 1. unfold bind at 1, gets at 1. rewrite Hm1, Hqa, <- (Z.add_assoc (P2V f) 256 2), V2P_off by lia. change (f + (256 + 2)) with (f + 258). set (av := load16 (smem s) (f + 258)).
    set (m2 := give_back (smem s) f av id).
    assert (∀ s2, s2 = set_smem m2 s1 → ∃ s', (upd_queue w (λ q, set_q_last (u16 (q_last q + 1)) q);;; drain n w handle) s2 = Done (tt, s') ∧ Inv (fold_left (λ a e, F e a) (map snd l) (F e a)) s' ∧
      queue w s'.1 = set_q_last (u16 (q_last q + Z.of_nat (S (length l)))) q ∧ returned m2 (smem s') f (map fst l)) as Hrest.
    { intros s2 ->. set (s3 := (set_queue w (set_q_last (u16 (q_last q + 1)) q) s1.1, (set_smem m2 s1).2)).
      assert (upd_queue w (λ q, set_q_last (u16 (q_last q + 1)) q) (set_smem m2 s1) = Done (tt, s3)) as Hu.
      { unfold upd_queue, on_inp, modify, s3. cbn [fst snd set_smem]. by rewrite Hq1. }
      assert (queue w s3.1 = set_q_last (u16 (q_last q + 1)) q) as Hq3 by (unfold s3; by destruct w).
      assert (smem s3 = m2) as Hm3 by done.
      mstep Hu. destruct (IH n (F e a) s3) as (s' & Hrun' & HI' & Hq' & Hret).
      - cbn in Hn. lia.
      - cbn in Hl. lia.
      - apply (Inv_queue _ _ (set_smem m2 s1)), Inv_mem, HI1.
      - exact HP.
      - rewrite Hq3. constructor; [done|done|apply u16_range].
      - rewrite Hq3, Hm3. assert (∀ x, x < f + 258 ∨ f + 292 <= x → m2 x = smem s x) as Hout.
        { intros x Hx. pose proof (slot_range f av). apply give_back_out; lia. }
        split.
        + assert (load16 m2 (f + 306) = load16 (smem s) (f + 306)) as -> by (unfold load16; apply load_le_ext; intros; apply Hout; lia). rewrite Hidx.
          cbn [length set_q_last q_last]. unfold u16. rewrite Zplus_mod_idemp_l. f_equal. lia.
        + intros k id' e' Hk. destruct (Hev (S k) id' e' Hk) as (H1 & H2 & H3). cbn [set_q_last q_last].
          replace ((u16 (q_last q + 1) + Z.of_nat k) mod 16) with ((q_last q + Z.of_nat (S k)) mod 16).
          2: { rewrite (Z.add_mod (u16 _)), u16_mod, <- Z.add_mod by done. f_equal. lia. }
          split_and!; [|lia|lia|].
          * rewrite <- H1. unfold load32. apply load_le_ext. intros x Hx. apply Hout. pose proof (Z.mod_pos_bound (q_last q + Z.of_nat (S k)) 16). lia.
          * eapply event_at_ext; [|exact H3]. intros x Hx. apply Hout. assert (g <> f) by done. zlia.
      - rewrite Hm3. unfold m2. rewrite give_back_idx. apply u16_range.
      - exists s'. rewrite Hm3 in Hret. split; [done|]. split; [done|]. split; [|done]. rewrite Hq', Hq3. cbn [set_q_last q_last]. unfold set_q_last. cbn.
        f_equal. unfold u16. rewrite Zplus_mod_idemp_l. f_equal. lia. }
    destruct (Hrest (set_smem m2 s1) eq_refl) as (s' & Hrun' & HI' & Hq' & Hret). exists s'. split; [|split; [exact HI'|split; [exact Hq'|]]].
    + rewrite <- Hrun'. unfold m2, give_back. rewrite <- Hm1. rewrite st16_twice.
      assert (V2P (P2V f + 256 + 4 + 2 * (av mod QUEUE_SIZE)) = slot f av) as ->.
      { rewrite <- !Z.add_assoc, V2P_off by (pose proof (Z.mod_pos_bound av 16); unfold QUEUE_SIZE; lia). unfold slot, QUEUE_SIZE. lia. }
      assert (V2P (P2V f + (256 + 2)) = f + 258) as -> by (rewrite V2P_off by lia; lia). done.
    + cbn [map fst]. apply returned_cons; [done|rewrite length_map; cbn in Hl; lia|exact Hret].
Qed.
End Drain.

(** ** The mouse as a queue of reports *)

(** What the driver has: position, motion not yet reported, buttons, reports. *)
Record mouse_spec := mk_mspec { s_x : Z; s_y : Z; s_rel_x : Z; s_rel_y : Z; s_buttons : Z; s_queue : list (Z * Z * Z) }.
Definition mouse_room : nat := Z.to_nat (MOUSE_BUFFER_SIZE - 1).
Definition mouse_step (e : event) (p : mouse_spec) : mouse_spec :=
  let v := i32 (ev_value e) in
  let bit := button_bit (ev_code e) in
  if decide (ev_type e = EV_REL) then
    if decide (ev_code e = REL_X) then mk_mspec (i32 (s_x p + v)) (s_y p) (i32 (s_rel_x p + v)) (s_rel_y p) (s_buttons p) (s_queue p)
    else if decide (ev_code e = REL_Y) then mk_mspec (s_x p) (i32 (s_y p + v)) (s_rel_x p) (i32 (s_rel_y p + v)) (s_buttons p) (s_queue p)
    else p
  else if decide (ev_type e = EV_KEY) then
    if decide (bit ≠ 0 ∧ ev_value e = 1) then mk_mspec (s_x p) (s_y p) (s_rel_x p) (s_rel_y p) (Z.lor (s_buttons p) bit) (s_queue p)
    else if decide (bit ≠ 0 ∧ ev_value e = 0) then mk_mspec (s_x p) (s_y p) (s_rel_x p) (s_rel_y p) (andnot (s_buttons p) bit) (s_queue p)
    else p
  else if decide (ev_type e = EV_SYN ∧ ev_code e = SYN_REPORT) then
    if decide (length (s_queue p) < mouse_room)%nat
    then mk_mspec (s_x p) (s_y p) 0 0 (s_buttons p) (s_queue p ++ [(s_rel_x p, s_rel_y p, s_buttons p)])
    else p
  else p.
(** Motion along the two axes: of an event, and what is not yet read. *)
Definition event_motion (e : event) : Z * Z :=
  if decide (ev_type e = EV_REL ∧ ev_code e = REL_X) then (i32 (ev_value e), 0)
  else if decide (ev_type e = EV_REL ∧ ev_code e = REL_Y) then (0, i32 (ev_value e)) else (0, 0).
Definition sum_x (l : list (Z * Z * Z)) : Z := foldr (λ r a, r.1.1 + a) 0 l.
Definition sum_y (l : list (Z * Z * Z)) : Z := foldr (λ r a, r.1.2 + a) 0 l.
Definition unread (p : mouse_spec) : Z * Z := (sum_x (s_queue p) + s_rel_x p, sum_y (s_queue p) + s_rel_y p).
Definition motions (l : list event) : Z * Z := foldr (λ e a, ((event_motion e).1 + a.1, (event_motion e).2 + a.2)) (0, 0) l.
(** Equal as 32-bit numbers. *)
Definition same32 (a b : Z * Z) : Prop := u32 a.1 = u32 b.1 ∧ u32 a.2 = u32 b.2.

Lemma sum_x_snoc l r : sum_x (l ++ [r]) = sum_x l + r.1.1.
Proof. unfold sum_x. induction l as [|x l IH]; cbn [app foldr]; [lia|]. rewrite IH. lia. Qed.
Lemma sum_y_snoc l r : sum_y (l ++ [r]) = sum_y l + r.1.2.
Proof. unfold sum_y. induction l as [|x l IH]; cbn [app foldr]; [lia|]. rewrite IH. lia. Qed.
Lemma u32_i32_add a x : u32 (a + i32 x) = u32 (a + x).
Proof. unfold u32, i32. change (2 ^ 32) with 4294967296. change (2 ^ 31) with 2147483648. zlia. Qed.
Lemma mouse_step_motion e p : same32 (unread (mouse_step e p)) ((unread p).1 + (event_motion e).1, (unread p).2 + (event_motion e).2).
Proof.
  unfold mouse_step, same32. destruct (decide (ev_type e = EV_REL)) as [Ht|Ht].
  - unfold event_motion. destruct (decide (ev_code e = REL_X)) as [Hc|Hc]; [rewrite decide_True by done|rewrite (decide_False (P := _ ∧ ev_code e = REL_X)) by tauto].
    + cbn [fst snd unread s_queue s_rel_x s_rel_y]. rewrite u32_i32_add. split; f_equal; lia.
    + destruct (decide (ev_code e = REL_Y)) as [Hd|Hd]; [rewrite decide_True by done|rewrite (decide_False (P := _ ∧ ev_code e = REL_Y)) by tauto].
      * cbn [fst snd unread s_queue s_rel_x s_rel_y]. rewrite u32_i32_add. split; f_equal; lia.
      * cbn. by rewrite !Z.add_0_r.
  - assert (event_motion e = (0, 0)) as -> by (unfold event_motion; repeat case_decide; (done || tauto)). cbn [fst snd]. rewrite !Z.add_0_r.
    repeat case_decide; try done. unfold unread. cbn [fst snd s_queue s_rel_x s_rel_y]. rewrite sum_x_snoc, sum_y_snoc. cbn [fst snd]. split; f_equal; lia.
Qed.
Lemma mouse_fold_motion l : ∀ p, same32 (unread (fold_left (λ p e, mouse_step e p) l p)) ((unread p).1 + (motions l).1, (unread p).2 + (motions l).2).
Proof.
  induction l as [|e l IH]; intros p; cbn [fold_left motions foldr].
  - cbn. unfold same32. cbn. by rewrite !Z.add_0_r.
  - fold (motions l). destruct (IH (mouse_step e p)) as [H1 H2], (mouse_step_motion e p) as [H3 H4]. cbn [fst snd] in *. split; cbn [fst snd].
    + rewrite H1. unfold u32 in *. rewrite <- Zplus_mod_idemp_l, H3, Zplus_mod_idemp_l. f_equal. lia.
    + rewrite H2. unfold u32 in *. rewrite <- Zplus_mod_idemp_l, H4, Zplus_mod_idemp_l. f_equal. lia.
Qed.

Record mouse_holds (ms : mouse) (p : mouse_spec) : Prop := {
  mh_state : m_x ms = s_x p ∧ m_y ms = s_y p ∧ m_rel_x ms = s_rel_x p ∧ m_rel_y ms = s_rel_y p ∧ m_buttons ms = s_buttons p;
  mh_size : Z.of_nat (length (mouse_buffer ms)) = MOUSE_BUFFER_SIZE;
  mh_tail : 0 <= mouse_tail ms < MOUSE_BUFFER_SIZE;
  mh_head : mouse_head ms = (mouse_tail ms + Z.of_nat (length (s_queue p))) mod MOUSE_BUFFER_SIZE;
  mh_room : (length (s_queue p) <= mouse_room)%nat;
  mh_reports j v : s_queue p !! j = Some v → zget (mouse_buffer ms) ((mouse_tail ms + Z.of_nat j) mod MOUSE_BUFFER_SIZE) = Some v
}.

Section Mouse.
Context {FA D V : Type} `{!FrameAllocator FA} `{!Console D} `{!InputDevice V} (mouse_wait_queue : Z).
Notation st := (inp V * (kst FA * D))%type.
Implicit Types s : st.
Local Set Default Proof Using "All".

Definition awake s : Prop := ∃ Q W, sync_ok (k_sched s.2.1) Q W.
Lemma on_kd_wake q s : awake s → ∃ s', on_kd (wake q) s = Done (tt, s') ∧ awake s' ∧ s'.1 = s.1 ∧ smem s' = smem s ∧ k_ttys s'.2.1 = k_ttys s.2.1.
Proof.
  intros (Q & W & Hs). destruct (wake_up_sync _ Q W q Hs) as (sc & Q' & Hrun & Hs' & _).
  unfold on_kd, wake, in_kst, on_sched, zoom. rewrite Hrun. eexists. split; [reflexivity|]. split; [by exists Q', (woken_queue W q)|done].
Qed.
Definition mouse_inv (p : mouse_spec) s : Prop := mouse_holds (i_ms s.1) p ∧ awake s.
Lemma push_event_runs p s : mouse_inv p s →
  ∃ s', virtio_mouse_push_event mouse_wait_queue s = Done (tt, s') ∧ mouse_inv (mouse_step (mk_event EV_SYN SYN_REPORT 0) p) s' ∧ smem s' = smem s ∧ queue MOUSE s'.1 = queue MOUSE s.1.
Proof.
  intros [Hm Ha]. pose proof Hm as [(Hx & Hy & Hrx & Hry & Hb) Hsize Htail Hhead Hroom Hrep]. unfold virtio_mouse_push_event. unfold bind at 1, gets at 1.
  set (ms := i_ms s.1) in *. unfold mouse_room, MOUSE_BUFFER_SIZE in *.
  assert (0 <= mouse_head ms < 128) as Hh by (rewrite Hhead; by apply Z.mod_pos_bound).
  rewrite Z.rem_mod_nonneg by lia. unfold mouse_step. cbn [ev_type ev_code]. rewrite (decide_False (P := EV_SYN = EV_REL)), (decide_False (P := EV_SYN = EV_KEY)), (decide_True (P := EV_SYN = EV_SYN ∧ _)) by done.
  destruct (Z.eqb_spec ((mouse_head ms + 1) mod 128) (mouse_tail ms)) as [Hfull|Hfree]; cbn [negb].
  - rewrite decide_False by (unfold mouse_room, MOUSE_BUFFER_SIZE; zlia). by exists s.
  - rewrite decide_True by (unfold mouse_room, MOUSE_BUFFER_SIZE; zlia). rewrite zset_is_Some by lia. unfold bind at 1, of_opt at 1.
    set (ms1 := set_m_rel 0 0 (set_mouse_buffer (<[Z.to_nat (mouse_head ms) := (m_rel_x ms, m_rel_y ms, m_buttons ms)]> (mouse_buffer ms)) ((mouse_head ms + 1) mod 128) ms)).
    set (s1 := (set_i_ms ms1 s.1, s.2)). assert (awake s1) as Ha1 by done.
    destruct (on_kd_wake mouse_wait_queue s1 Ha1) as (s' & Hrun & Ha' & Hi & Hmem & _). exists s'. split; [exact Hrun|]. split; [|split; [by rewrite Hmem|by rewrite Hi]].
    split; [|done]. rewrite Hi. cbn [s1 fst set_i_ms i_ms]. constructor; cbn [ms1 set_m_rel set_mouse_buffer m_x m_y m_rel_x m_rel_y m_buttons mouse_buffer mouse_head mouse_tail s_x s_y s_rel_x s_rel_y s_buttons s_queue]; unfold mouse_room, MOUSE_BUFFER_SIZE.
    + done.
    + by rewrite length_insert.
    + done.
    + rewrite length_app. cbn [length]. rewrite Hhead, Zplus_mod_idemp_l. f_equal. lia.
    + rewrite length_app. cbn [length]. zlia.
    + intros j v Hj. rewrite Hhead, zget_insert by (rewrite ?Hsize; by apply Z.mod_pos_bound). pose proof (lookup_lt_Some _ _ _ Hj) as Hlt. rewrite length_app in Hlt. cbn [length] in Hlt.
      destruct (decide (j = length (s_queue p))) as [->|Hne].
      * rewrite list_lookup_middle in Hj by done. injection Hj as <-. rewrite decide_True by done. by rewrite Hrx, Hry, Hb.
      * rewrite lookup_app_l in Hj by lia. rewrite decide_False; [by apply Hrep|]. intros E. symmetry in E. apply (mod_inj 128) in E; lia.
Qed.
Lemma mouse_event_runs p s e g o : mouse_inv p s → True → 0 <= g < 2 ^ 39 → 0 <= o → event_at (smem s) (g + o) e →
  ∃ s', virtio_mouse_handle_event mouse_wait_queue (P2V g + o) s = Done (tt, s') ∧ mouse_inv (mouse_step e p) s' ∧ smem s' = smem s ∧ queue MOUSE s'.1 = queue MOUSE s.1.
Proof.
  intros [Hm Ha] _ Hg Ho (H1 & H2 & H3). unfold virtio_mouse_handle_event, ld16, ld32. unfold bind at 1, gets at 1. unfold bind at 1, gets at 1. unfold bind at 1, gets at 1.
  rewrite <- !Z.add_assoc, !V2P_off by lia. rewrite !Z.add_assoc, H1, H2, H3. unfold mouse_step.
  pose proof Hm as [(Hx & Hy & Hrx & Hry & Hb) Hsize Htail Hhead Hroom Hrep].
  destruct (Z.eqb_spec (ev_type e) EV_REL) as [Ht|Ht]; [rewrite decide_True by done|rewrite decide_False by done].
  { destruct (Z.eqb_spec (ev_code e) REL_X) as [Hc|Hc]; [rewrite decide_True by done|rewrite decide_False by done].
    { eexists. split; [reflexivity|]. split; [|done]. split; [|done]. constructor; try done. cbn. by rewrite Hx, Hy, Hrx, Hry, Hb. }
    destruct (Z.eqb_spec (ev_code e) REL_Y) as [Hd|Hd]; [rewrite decide_True by done|rewrite decide_False by done; by exists s].
    eexists. split; [reflexivity|]. split; [|done]. split; [|done]. constructor; try done. cbn. by rewrite Hx, Hy, Hrx, Hry, Hb. }
  destruct (Z.eqb_spec (ev_type e) EV_KEY) as [Hk|Hk]; [rewrite decide_True by done|rewrite decide_False by done].
  { cbv zeta. destruct (Z.eqb_spec (button_bit (ev_code e)) 0) as [Hz|Hz]; [rewrite !decide_False by tauto; by exists s|].
    destruct (Z.eqb_spec (ev_value e) 1) as [Hv|Hv]; [rewrite decide_True by done|rewrite (decide_False (P := _ ∧ ev_value e = 1)) by tauto].
    { eexists. split; [reflexivity|]. split; [|done]. split; [|done]. constructor; try done. cbn. by rewrite Hx, Hy, Hrx, Hry, Hb. }
    destruct (Z.eqb_spec (ev_value e) 0) as [Hw|Hw]; [rewrite decide_True by done|rewrite decide_False by tauto; by exists s].
    eexists. split; [reflexivity|]. split; [|done]. split; [|done]. constructor; try done. cbn. by rewrite Hx, Hy, Hrx, Hry, Hb. }
  destruct (Z.eqb_spec (ev_type e) EV_SYN) as [Hs|Hs]; [|cbn [andb]; rewrite decide_False by tauto; by exists s].
  destruct (Z.eqb_spec (ev_code e) SYN_REPORT) as [Hc|Hc]; cbn [andb]; [rewrite decide_True by done|rewrite decide_False by tauto; by exists s].
  destruct (push_event_runs p s (conj Hm Ha)) as (s' & Hrun & Hinv & Hrest). by exists s'.
Qed.
(** The reports that a read takes. *)
Lemma mouse_read_runs n : ∀ p s got, mouse_inv p s →
  ∃ s', mouse_read_loop n got s = Done (got ++ take n (s_queue p), s') ∧
    mouse_inv (mk_mspec (s_x p) (s_y p) (s_rel_x p) (s_rel_y p) (s_buttons p) (drop n (s_queue p))) s' ∧ smem s' = smem s.
Proof.
  induction n as [|n IH]; intros p s got Hinv; cbn [mouse_read_loop].
  - exists s. rewrite take_0, app_nil_r, drop_0. split; [done|]. split; [by destruct p|done].
  - pose proof Hinv as [Hm Ha]. pose proof Hm as [Hst Hsize Htail Hhead Hroom Hrep]. unfold mouse_room, MOUSE_BUFFER_SIZE in *. unfold bind at 1, gets at 1. set (ms := i_ms s.1) in *.
    destruct (s_queue p) as [|r Q] eqn:HQ.
    + assert (mouse_head ms = mouse_tail ms) as -> by (rewrite Hhead; cbn [length]; zlia). rewrite Z.eqb_refl.
      exists s. rewrite app_nil_r. split; [done|]. split; [|done]. cbn [drop]. rewrite <- HQ. by destruct p.
    + cbn [length] in *. rewrite (proj2 (Z.eqb_neq _ _)) by zlia. pose proof (Hrep 0%nat r eq_refl) as Hr. rewrite Z.add_0_r, Z.mod_small in Hr by done. rewrite Hr.
      unfold bind at 1, of_opt at 1. set (s1 := (set_i_ms (set_mouse_tail ((mouse_tail ms + 1) mod 128) ms) s.1, s.2)).
      assert (on_ms (λ ms, set_mouse_tail (Z.rem (mouse_tail ms + 1) 128) ms) s = Done (tt, s1)) as Hs1.
      { unfold on_ms, on_inp, modify, s1. fold ms. rewrite Z.rem_mod_nonneg by lia. done. }
      mstep Hs1. assert (mouse_inv (mk_mspec (s_x p) (s_y p) (s_rel_x p) (s_rel_y p) (s_buttons p) Q) s1) as Hinv1.
      { split; [|done]. cbn [s1 fst set_i_ms i_ms]. constructor; cbn [set_mouse_tail m_x m_y m_rel_x m_rel_y m_buttons mouse_buffer mouse_head mouse_tail s_x s_y s_rel_x s_rel_y s_buttons s_queue]; unfold mouse_room, MOUSE_BUFFER_SIZE; try done.
        - by apply Z.mod_pos_bound.
        - rewrite Hhead, Zplus_mod_idemp_l. f_equal. lia.
        - lia.
        - intros j v Hj. rewrite Zplus_mod_idemp_l, <- (Hrep (S j) v Hj). do 2 f_equal. lia. }
      destruct (IH _ s1 (got ++ [r]) Hinv1) as (s' & Hrun & Hinv' & Hmem). exists s'. cbn [s_queue s_x s_y s_rel_x s_rel_y s_buttons] in *.
      split; [|split; [exact Hinv'|by rewrite Hmem]]. rewrite <- app_assoc in Hrun. exact Hrun.
Qed.
End Mouse.

(** ** The interrupt handlers *)
Section Handlers.
Context {FA D V : Type} `{!FrameAllocator FA} `{!Console D} `{!InputDevice V} (con RAMFB_COLS kb_wait_queue mouse_wait_queue : Z).
Notation st := (inp V * (kst FA * D))%type.
Implicit Types s : st.
Local Set Default Proof Using "Type*".

(** The start of a handler: the acknowledgement reaches the device only. *)
Lemma event_handler_run n w (handle : Z → M st unit) s : q_base (queue w s.1) ≠ 0 →
  ∃ d, event_handler n w handle s =
    (drain n w handle;;; mmio_write32 (q_base (queue w s.1) + VIRTIO_MMIO_QUEUE_NOTIFY) 0) (set_smem (smem s) (set_i_dev d s.1, s.2)).
Proof.
  intros Hb. unfold event_handler, queue_of. unfold bind at 1, gets at 1. rewrite (proj2 (Z.eqb_neq _ 0)) by done.
  unfold mmio_read32. unfold bind at 1, gets at 1. unfold mmio_write32 at 1. unfold bind at 1, modify at 1. rewrite id_ack. eexists. reflexivity.
Qed.

(** C19: the mouse, from the device to its readers: the interrupt handler takes
    the events of the used ring in their order, gives every buffer back once, and
    has then the position, the buttons and the queue of reports that the events
    lead to; a read takes the oldest reports, as many as fit.  When the queue is
    full a report is left out, but not its motion: what is unread and what has
    been read always add up to what the mouse moved. *)
Theorem mouse_driver_refines n s p f g l count :
  queue_in (queue MOUSE s.1) f g → q_base (queue MOUSE s.1) ≠ 0 → pending (smem s) f g (q_last (queue MOUSE s.1)) l →
  0 <= load16 (smem s) (f + 258) < 65536 → (length l <= 16)%nat → (length l < n)%nat → mouse_holds (i_ms s.1) p → awake s → SIZEOF_MOUSE_EVENT <= count →
  let p' := fold_left (λ p e, mouse_step e p) (map snd l) p in
  same32 (unread p') ((unread p).1 + (motions (map snd l)).1, (unread p).2 + (motions (map snd l)).2) ∧
  ∃ s1, virtio_mouse_input_handler mouse_wait_queue n s = mmio_write32 (q_base (queue MOUSE s.1) + VIRTIO_MMIO_QUEUE_NOTIFY) 0 s1 ∧
    mouse_holds (i_ms s1.1) p' ∧ returned (smem s) (smem s1) f (map fst l) ∧
    q_last (queue MOUSE s1.1) = u16 (q_last (queue MOUSE s.1) + Z.of_nat (length l)) ∧
    (s_queue p' ≠ [] → ∃ s2, let k := Z.to_nat (count / SIZEOF_MOUSE_EVENT) in
      virtio_mouse_read count s1 = Done (Some (take k (s_queue p')), s2) ∧
      mouse_holds (i_ms s2.1) (mk_mspec (s_x p') (s_y p') (s_rel_x p') (s_rel_y p') (s_buttons p') (drop k (s_queue p')))).
Proof.
  intros Hq Hb Hp Hav Hl Hn Hm Ha Hc p'. split; [apply mouse_fold_motion|].
  destruct (event_handler_run n MOUSE (virtio_mouse_handle_event mouse_wait_queue) s Hb) as (d & Hrun0). set (s0 := set_smem (smem s) (set_i_dev d s.1, s.2)) in *.
  assert (all_ok mouse_step (λ _ _, True) p (map snd l)) as Hok by (clear; generalize p; induction (map snd l) as [|e es IH]; intros q; [done|split; [done|apply IH]]).
  destruct (drain_runs MOUSE (virtio_mouse_handle_event mouse_wait_queue) mouse_inv mouse_step (λ _ _, True)) with (f := f) (g := g) (l := l) (n := n) (a := p) (s := s0)
    as (s1 & Hrun & [Hm1 Ha1] & Hq1 & Hret); try done.
  { intros a s3 e g' o Hi _ Hg Ho He. by apply (mouse_event_runs mouse_wait_queue a s3 e g' o). }
  fold p' in Hm1. exists s1. unfold virtio_mouse_input_handler. rewrite Hrun0. mstep Hrun. split; [done|]. split; [done|]. split; [done|].
  change (queue MOUSE s0.1) with (queue MOUSE s.1) in Hq1. split; [by rewrite Hq1|].
  intros Hne. pose proof Hm1 as [_ _ Htail Hhead Hroom _]. unfold virtio_mouse_read. rewrite (proj2 (Z.ltb_ge _ _)) by done. unfold bind at 1, gets at 1.
  rewrite (proj2 (Z.eqb_neq _ _)).
  2: { rewrite Hhead. unfold mouse_room, MOUSE_BUFFER_SIZE in *. destruct (s_queue p'); [done|]. cbn [length] in *. zlia. }
  destruct (mouse_read_runs mouse_wait_queue (Z.to_nat (count / SIZEOF_MOUSE_EVENT)) p' s1 [] (conj Hm1 Ha1)) as (s2 & Hread & [Hm2 _] & _).
  exists s2. split; [|exact Hm2]. mstep Hread. done.
Qed.

(** ** The keyboard *)

(** The modifiers held, the characters a process can read from the keyboard,
    and the line editor of the console. *)
Record key_spec := mk_kspec { ks_shift : bool; ks_ctrl : bool; ks_keys : list Z; ks_line : line_state }.
Definition kb_room : nat := Z.to_nat (KB_BUFFER_SIZE - 1).
(** The character of an event, when it is a key pressed that is no modifier. *)
Definition key_char (a : key_spec) (e : event) : option Z :=
  if decide (ev_type e = EV_KEY ∧ ev_value e = 1 ∧ ev_code e ∉ [KEY_LEFTSHIFT; KEY_RIGHTSHIFT; KEY_LEFTCTRL; KEY_RIGHTCTRL])
  then Some (virtio_scancode_to_ascii (ks_shift a) (ks_ctrl a) (ev_code e)) else None.
Definition key_step (m : termios) (e : event) (a : key_spec) : key_spec :=
  match key_char a e with
  | Some c =>
      mk_kspec (ks_shift a) (ks_ctrl a)
        (if decide (c ≠ 0 ∧ (length (ks_keys a) < kb_room)%nat) then ks_keys a ++ [c] else ks_keys a)
        (match input_map m (u8 c) with Some c' => edit m c' (ks_line a) | None => ks_line a end)
  | None =>
      if decide (ev_type e = EV_KEY ∧ ev_code e ∈ [KEY_LEFTSHIFT; KEY_RIGHTSHIFT])
      then mk_kspec (ev_value e =? 1) (ks_ctrl a) (ks_keys a) (ks_line a)
      else if decide (ev_type e = EV_KEY ∧ ev_code e ∈ [KEY_LEFTCTRL; KEY_RIGHTCTRL])
      then mk_kspec (ks_shift a) (ev_value e =? 1) (ks_keys a) (ks_line a) else a
  end.
(** The line editor takes the character. *)
Definition key_ok (m : termios) (a : key_spec) (e : event) : Prop :=
  ∀ c, key_char a e = Some c → ∃ c', input_map m (u8 c) = Some c' ∧ for_editor m c'.
Record kb_holds (i : inp V) (l : list Z) : Prop := {
  kh_size : Z.of_nat (length (kb_buffer i)) = KB_BUFFER_SIZE;
  kh_tail : 0 <= kb_tail i < KB_BUFFER_SIZE;
  kh_head : kb_head i = (kb_tail i + Z.of_nat (length l)) mod KB_BUFFER_SIZE;
  kh_room : (length l <= kb_room)%nat;
  kh_keys j v : l !! j = Some v → zget (kb_buffer i) ((kb_tail i + Z.of_nat j) mod KB_BUFFER_SIZE) = Some v
}.
Definition key_inv (m : termios) (a : key_spec) s : Prop :=
  shifting s.1 = ks_shift a ∧ ctrl_pressed s.1 = ks_ctrl a ∧ kb_holds s.1 (ks_keys a) ∧
  ∃ t, terminal_at s.2.1 con t (ks_line a) ∧ tty_termios t = m.
Lemma terminal_awake s t l : terminal_at s.2.1 con t l → awake s.
Proof. intros [_ _ (Q & W & H) _ _ _ _]. by exists Q, W. Qed.
Lemma terminal_of (k k' : kst FA) t l : terminal_at k con t l → k_ttys k' = k_ttys k → (∃ Q W, sync_ok (k_sched k') Q W) → terminal_at k' con t l.
Proof. intros [H1 H2 H3 H4 H5 H6 H7] Ht Hs. constructor; try done. by rewrite Ht. Qed.
Lemma kb_put_runs c s l t ls : kb_holds s.1 l → terminal_at s.2.1 con t ls →
  ∃ s', kb_put kb_wait_queue c s = Done (tt, s') ∧ kb_holds s'.1 (if decide (length l < kb_room)%nat then l ++ [c] else l) ∧ terminal_at s'.2.1 con t ls ∧ smem s' = smem s ∧
    queue KEYBOARD s'.1 = queue KEYBOARD s.1 ∧ shifting s'.1 = shifting s.1 ∧ ctrl_pressed s'.1 = ctrl_pressed s.1.
Proof.
  intros Hk Ht. pose proof Hk as [Hsize Htail Hhead Hroom Hkeys]. unfold kb_put. unfold bind at 1, gets at 1. unfold kb_room, KB_BUFFER_SIZE in *.
  assert (0 <= kb_head s.1 < 1024) as Hh by (rewrite Hhead; by apply Z.mod_pos_bound). rewrite Z.rem_mod_nonneg by lia.
  destruct (Z.eqb_spec ((kb_head s.1 + 1) mod 1024) (kb_tail s.1)) as [Hfull|Hfree]; cbn [negb].
  - rewrite decide_False by zlia. by exists s.
  - rewrite decide_True by zlia. rewrite zset_is_Some by lia. unfold bind at 1, of_opt at 1.
    set (s1 := (set_kb (<[Z.to_nat (kb_head s.1) := c]> (kb_buffer s.1)) ((kb_head s.1 + 1) mod 1024) (kb_tail s.1) s.1, s.2)).
    destruct (on_kd_wake kb_wait_queue kb_wait_queue s1 (terminal_awake s1 t ls Ht)) as (s' & Hrun & Ha' & Hi & Hmem & Htt).
    exists s'. split; [exact Hrun|]. rewrite Hi. split; [|split; [by eapply (terminal_of s1.2.1)|by rewrite Hmem]].
    constructor; cbn [s1 fst set_kb kb_buffer kb_head kb_tail]; unfold kb_room, KB_BUFFER_SIZE.
    + by rewrite length_insert.
    + done.
    + rewrite length_app. cbn [length]. rewrite Hhead, Zplus_mod_idemp_l. f_equal. lia.
    + rewrite length_app. cbn [length]. zlia.
    + intros j v Hj. rewrite Hhead, zget_insert by (rewrite ?Hsize; by apply Z.mod_pos_bound). pose proof (lookup_lt_Some _ _ _ Hj) as Hlt. rewrite length_app in Hlt. cbn [length] in Hlt.
      destruct (decide (j = length l)) as [->|Hne].
      * rewrite list_lookup_middle in Hj by done. injection Hj as <-. by rewrite decide_True.
      * rewrite lookup_app_l in Hj by lia. rewrite decide_False; [by apply Hkeys|]. intros E. symmetry in E. apply (mod_inj 1024) in E; lia.
Qed.
Lemma push_char_runs c c' s t ls : terminal_at s.2.1 con t ls → input_map (tty_termios t) (u8 c) = Some c' → for_editor (tty_termios t) c' →
  ∃ s' t', on_kd (tty_push_char con RAMFB_COLS c con) s = Done (tt, s') ∧ terminal_at s'.2.1 con t' (edit (tty_termios t) c' ls) ∧ tty_termios t' = tty_termios t ∧ s'.1 = s.1 ∧ smem s' = smem s.
Proof.
  intros Ht Hmap He. destruct s as [i [k d]]. destruct (terminal_types con RAMFB_COLS k d con t ls [u8 c] [c'] Ht) as (k' & d' & t' & Hrun & Ht' & Hm & (t2 & s2 & -> & _)); [constructor; [done|constructor]|].
  unfold tty_receive_buf in Hrun. cbn [for_each] in Hrun. unfold bind, ret in Hrun. unfold on_kd, zoom, tty_push_char. cbn [snd].
  destruct (tty_receive_char con RAMFB_COLS con (u8 c) (k, d)) as [[[] y]| |] eqn:E; try done. injection Hrun as ->. eexists _, t'. split; [reflexivity|]. done.
Qed.
Lemma key_event_runs m a s e g o : key_inv m a s → key_ok m a e → 0 <= g < 2 ^ 39 → 0 <= o → event_at (smem s) (g + o) e →
  ∃ s', handle_key con RAMFB_COLS kb_wait_queue (P2V g + o) s = Done (tt, s') ∧ key_inv m (key_step m e a) s' ∧ smem s' = smem s ∧ queue KEYBOARD s'.1 = queue KEYBOARD s.1.
Proof.
  intros (Hsh & Hct & Hk & t & Ht & Hm) Hok Hg Ho (H1 & H2 & H3). unfold handle_key, ld16, ld32. unfold bind at 1, gets at 1.
  rewrite V2P_off, H1 by lia. unfold key_step. destruct (Z.eqb_spec (ev_type e) EV_KEY) as [Hty|Hty].
  2: { assert (key_char a e = None) as -> by (unfold key_char; rewrite decide_False by tauto; done). rewrite !decide_False by tauto. exists s. split; [done|]. split; [|done]. split_and!; try done. by exists t. }
  unfold bind at 1, gets at 1. unfold bind at 1, gets at 1. unfold bind at 1, gets at 1.
  rewrite <- !Z.add_assoc, !V2P_off by lia. rewrite !Z.add_assoc, H2, H3.
  destruct (decide (ev_code e ∈ [KEY_LEFTSHIFT; KEY_RIGHTSHIFT])) as [Hs|Hs].
  { assert (key_char a e = None) as -> by (unfold key_char; rewrite decide_False; [done|]; intros (_ & _ & Hn); set_solver).
    rewrite (decide_True (P := ev_type e = EV_KEY ∧ _)) by done. assert ((ev_code e =? KEY_LEFTSHIFT) || (ev_code e =? KEY_RIGHTSHIFT) = true) as ->.
    { rewrite !elem_of_cons, elem_of_nil in Hs. destruct Hs as [-> | [-> |[]]]; reflexivity. }
    eexists. split; [reflexivity|]. split; [|done]. split_and!; try done. { by destruct Hk. } by exists t. }
  assert ((ev_code e =? KEY_LEFTSHIFT) || (ev_code e =? KEY_RIGHTSHIFT) = false) as ->.
  { rewrite !elem_of_cons, elem_of_nil in Hs. apply orb_false_iff. rewrite !Z.eqb_neq. tauto. }
  destruct (decide (ev_code e ∈ [KEY_LEFTCTRL; KEY_RIGHTCTRL])) as [Hc|Hc].
  { assert (key_char a e = None) as -> by (unfold key_char; rewrite decide_False; [done|]; intros (_ & _ & Hn); set_solver).
    rewrite decide_False by tauto. rewrite (decide_True (P := ev_type e = EV_KEY ∧ _)) by done. assert ((ev_code e =? KEY_LEFTCTRL) || (ev_code e =? KEY_RIGHTCTRL) = true) as ->.
    { rewrite !elem_of_cons, elem_of_nil in Hc. destruct Hc as [-> | [-> |[]]]; reflexivity. }
    eexists. split; [reflexivity|]. split; [|done]. split_and!; try done. { by destruct Hk. } by exists t. }
  assert ((ev_code e =? KEY_LEFTCTRL) || (ev_code e =? KEY_RIGHTCTRL) = false) as ->.
  { rewrite !elem_of_cons, elem_of_nil in Hc. apply orb_false_iff. rewrite !Z.eqb_neq. tauto. }
  assert (ev_code e ∉ [KEY_LEFTSHIFT; KEY_RIGHTSHIFT; KEY_LEFTCTRL; KEY_RIGHTCTRL]) as Hno by (rewrite !elem_of_cons, elem_of_nil in *; tauto).
  destruct (Z.eqb_spec (ev_value e) 1) as [Hv|Hv].
  2: { assert (key_char a e = None) as -> by (unfold key_char; rewrite decide_False by tauto; done). rewrite !decide_False by tauto. exists s. split; [done|]. split; [|done]. split_and!; try done. by exists t. }
  unfold key_ok in Hok. assert (key_char a e = Some (virtio_scancode_to_ascii (ks_shift a) (ks_ctrl a) (ev_code e))) as Hkc by (unfold key_char; by rewrite decide_True).
  destruct (Hok _ Hkc) as (c' & Hmap & Hed). rewrite Hkc. cbv zeta. rewrite Hsh, Hct. set (c := virtio_scancode_to_ascii _ _ _) in *. rewrite Hmap.
  assert (∃ s1, (if negb (c =? 0) then kb_put kb_wait_queue c else ret tt) s = Done (tt, s1) ∧
    kb_holds s1.1 (if decide (c ≠ 0 ∧ (length (ks_keys a) < kb_room)%nat) then ks_keys a ++ [c] else ks_keys a) ∧ terminal_at s1.2.1 con t (ks_line a) ∧ smem s1 = smem s ∧
    queue KEYBOARD s1.1 = queue KEYBOARD s.1 ∧ shifting s1.1 = shifting s.1 ∧ ctrl_pressed s1.1 = ctrl_pressed s.1) as (s1 & Hrun1 & Hk1 & Ht1 & Hm1 & Hq1 & Hs1 & Hc1).
  { destruct (Z.eqb_spec c 0) as [Hz|Hz]; cbn [negb].
    - rewrite decide_False by tauto. by exists s.
    - destruct (kb_put_runs c s (ks_keys a) t (ks_line a) Hk Ht) as (s1 & Hr & Hkk & Hrest). exists s1. split; [done|]. split; [|done].
      destruct (decide (length (ks_keys a) < kb_room)%nat); [rewrite decide_True by done|rewrite decide_False by tauto]; done. }
  mstep Hrun1. rewrite <- Hm in Hmap, Hed. destruct (push_char_runs c c' s1 t (ks_line a) Ht1 Hmap Hed) as (s2 & t2 & Hrun2 & Ht2 & Hmm & Hi & Hmem).
  exists s2. split; [exact Hrun2|]. split; [|split; [by rewrite Hmem|by rewrite Hi]]. unfold key_inv. cbn [ks_shift ks_ctrl ks_keys ks_line]. rewrite Hi.
  split_and!; [congruence|congruence|done|]. exists t2. rewrite <- Hm. split; [exact Ht2|done].
Qed.

Lemma key_inv_ext m a s s' : kb_buffer s'.1 = kb_buffer s.1 ∧ kb_head s'.1 = kb_head s.1 ∧ kb_tail s'.1 = kb_tail s.1 ∧ shifting s'.1 = shifting s.1 ∧ ctrl_pressed s'.1 = ctrl_pressed s.1 →
  k_ttys s'.2.1 = k_ttys s.2.1 → k_sched s'.2.1 = k_sched s.2.1 → key_inv m a s → key_inv m a s'.
Proof.
  intros (E1 & E2 & E3 & E4 & E5) Htt Hsc (H1 & H2 & [K1 K2 K3 K4 K5] & t & Ht & Hm). unfold key_inv. rewrite E4, E5. split_and!; [done|done| |].
  - constructor; rewrite ?E1, ?E2, ?E3; done.
  - exists t. split; [|done]. eapply terminal_of; [exact Ht|done|]. rewrite Hsc. apply (terminal_awake s t _ Ht).
Qed.

(** C4: the keyboard, from the device to the terminal: the interrupt handler
    takes the events of the used ring in their order and gives every buffer back
    once; a key pressed goes, as the character it has with the shift and control
    keys held, into the line editor of the console and into the keyboard's own
    queue, which leaves out what does not fit. *)
Theorem keyboard_types_lines n s m a f g l :
  queue_in (queue KEYBOARD s.1) f g → q_base (queue KEYBOARD s.1) ≠ 0 → pending (smem s) f g (q_last (queue KEYBOARD s.1)) l →
  0 <= load16 (smem s) (f + 258) < 65536 → (length l <= 16)%nat → (length l < n)%nat → key_inv m a s → all_ok (key_step m) (key_ok m) a (map snd l) →
  let a' := fold_left (λ a e, key_step m e a) (map snd l) a in
  ∃ s1, virtio_input_handler con RAMFB_COLS kb_wait_queue n s = mmio_write32 (q_base (queue KEYBOARD s.1) + VIRTIO_MMIO_QUEUE_NOTIFY) 0 s1 ∧
    kb_holds s1.1 (ks_keys a') ∧ (∃ t, terminal_at s1.2.1 con t (ks_line a')) ∧ returned (smem s) (smem s1) f (map fst l) ∧
    q_last (queue KEYBOARD s1.1) = u16 (q_last (queue KEYBOARD s.1) + Z.of_nat (length l)).
Proof.
  intros Hq Hb Hp Hav Hl Hn Hi Hok a'.
  destruct (event_handler_run n KEYBOARD (handle_key con RAMFB_COLS kb_wait_queue) s Hb) as (d & Hrun0). set (s0 := set_smem (smem s) (set_i_dev d s.1, s.2)) in *.
  assert (key_inv m a s0) as Hi0 by (by apply (key_inv_ext m a s s0)).
  destruct (drain_runs KEYBOARD (handle_key con RAMFB_COLS kb_wait_queue) (key_inv m) (key_step m) (key_ok m)) with (f := f) (g := g) (l := l) (n := n) (a := a) (s := s0)
    as (s1 & Hrun & (_ & _ & Hk1 & t1 & Ht1 & _) & Hq1 & Hret); try done.
  { intros b mm s2 Hi2. by apply (key_inv_ext m b s2). }
  { intros b q s2 Hi2. by apply (key_inv_ext m b s2). }
  { intros b s2 e g' o Hi2 Hok2 Hg Ho He. by apply (key_event_runs m b s2 e g' o). }
  fold a' in Hk1, Ht1. exists s1. unfold virtio_input_handler. rewrite Hrun0. mstep Hrun. split; [done|]. split; [done|]. split; [by exists t1|]. split; [done|]. by rewrite Hq1.
Qed.
End Handlers.

(** ** Witnesses: a device whose registers do nothing *)
#[export] Instance ex_input : InputDevice unit :=
  {| id_read32 := λ _ _, 0; id_write32 := λ _ _ r, r; id_read8 := λ _ _, 0; id_write8 := λ _ _ v, v; id_ack := λ _ _ _ _, eq_refl |}.
Definition ex_ring_frame : Z := 0x10000.
Definition ex_event_frame : Z := 0x11000.
Definition ex_vqueue : vqueue := mk_vqueue 0xa000000 (P2V ex_ring_frame) (P2V ex_ring_frame + 256) (P2V ex_ring_frame + 304) (P2V ex_event_frame) 0.
(** The used ring and the buffers with the events [l]. *)
Definition ex_event_bytes (e : event) : list Z := le_bytes 2 (ev_type e) ++ le_bytes 2 (ev_code e) ++ le_bytes 4 (ev_value e).
Fixpoint ex_events (k : Z) (l : list (Z * event)) (m : mem) : mem :=
  match l with
  | [] => m
  | (id, e) :: l => ex_events (k + 1) l (put_bytes (put_bytes m (ex_ring_frame + 308 + 8 * k) (le_bytes 4 id)) (ex_event_frame + 8 * id) (ex_event_bytes e))
  end.
Definition ex_event_mem (l : list (Z * event)) : mem :=
  ex_events 0 l (put_bytes (λ _, 0) (ex_ring_frame + 306) (le_bytes 2 (Z.of_nat (length l)))).
Definition ex_mouse : mouse := mk_mouse 0 0 0 0 0 (replicate 128 (0, 0, 0)) 0 0.
Definition ex_inp : inp unit := mk_inp tt ex_vqueue ex_vqueue (replicate 1024 0) 0 0 false false ex_mouse.
Definition ex_input_st (l : list (Z * event)) : inp unit * (kst pmm * list Z) := (ex_inp, (set_kram (ex_event_mem l) ex_tty_kst, [])).
Definition ex_moves : list (Z * event) := [(3, mk_event EV_REL REL_X 5); (7, mk_event EV_KEY BTN_LEFT 1); (1, mk_event EV_REL REL_Y 4294967294); (2, mk_event EV_SYN 0 0)].
Definition ex_keys : list (Z * event) := [(0, mk_event EV_KEY 42 1); (1, mk_event EV_KEY 35 1); (2, mk_event EV_KEY 42 0); (3, mk_event EV_KEY 28 1)].

Lemma ex_queue_in : queue_in ex_vqueue ex_ring_frame ex_event_frame.
Proof. split; [split_and!; (done || by vm_compute)|done|done]. Qed.
Ltac pending_at := intros k id e Hk; repeat (destruct k as [|k]; [injection Hk as <- <-; split_and!; (done || reflexivity)|]); done.
Lemma ex_pending_moves : pending (smem (ex_input_st ex_moves)) ex_ring_frame ex_event_frame 0 ex_moves.
Proof. split; [reflexivity|]. pending_at. Qed.
Lemma ex_pending_keys : pending (smem (ex_input_st ex_keys)) ex_ring_frame ex_event_frame 0 ex_keys.
Proof. split; [reflexivity|]. pending_at. Qed.
Lemma ex_terminal_mem l : terminal_at (ex_input_st l).2.1 50 ex_tty no_input.
Proof. apply (terminal_of 50 ex_tty_kst); [exact ex_terminal|done|apply ex_terminal]. Qed.

Lemma mouse_driver_refines_witness :
  let s := ex_input_st ex_moves in
  pending (smem s) ex_ring_frame ex_event_frame 0 ex_moves ∧
  ∃ s1 s2, virtio_mouse_input_handler 200 17 s = mmio_write32 (0xa000000 + VIRTIO_MMIO_QUEUE_NOTIFY) 0 s1 ∧
    virtio_mouse_read 64 s1 = Done (Some [(5, -2, 1)], s2).
Proof.
  cbv zeta. split; [exact ex_pending_moves|].
  destruct (mouse_driver_refines 200 17 (ex_input_st ex_moves) (mk_mspec 0 0 0 0 0 []) ex_ring_frame ex_event_frame ex_moves 64) as (_ & s1 & H1 & _ & _ & _ & H2).
  - exact ex_queue_in.
  - done.
  - exact ex_pending_moves.
  - by vm_compute.
  - cbn. lia.
  - cbn. lia.
  - split; try done; try by vm_compute. cbn. lia.
  - apply (terminal_awake 50 _ ex_tty no_input). apply ex_terminal_mem.
  - by vm_compute.
  - destruct H2 as (s2 & H2 & _); [by vm_compute|]. exists s1, s2. split; [exact H1|exact H2].
Defined.
Lemma keyboard_types_lines_witness :
  let s := ex_input_st ex_keys in
  pending (smem s) ex_ring_frame ex_event_frame 0 ex_keys ∧
  ∃ s1, virtio_input_handler 50 80 100 17 s = mmio_write32 (0xa000000 + VIRTIO_MMIO_QUEUE_NOTIFY) 0 s1 ∧
    kb_holds s1.1 [72; 10] ∧ ∃ t, terminal_at s1.2.1 50 t (mk_line_state [72; 10] [] 1).
Proof.
  cbv zeta. split; [exact ex_pending_keys|].
  destruct (keyboard_types_lines 50 80 100 17 (ex_input_st ex_keys) tty_std_termios (mk_kspec false false [] no_input) ex_ring_frame ex_event_frame ex_keys) as (s1 & H1 & H2 & H3 & _).
  - exact ex_queue_in.
  - done.
  - exact ex_pending_keys.
  - by vm_compute.
  - cbn. lia.
  - cbn. lia.
  - split_and!; [done|done| |exists ex_tty; split; [apply ex_terminal_mem|done]]. split; try done; try by vm_compute. cbn. lia.
  - cbn [ex_keys map snd all_ok]. split_and!; try done; intros c Hc; vm_compute in Hc; try discriminate; injection Hc as <-.
    + exists 72. split; [reflexivity|]. apply ex_for_editor. repeat constructor; done.
    + exists 10. split; [reflexivity|]. apply ex_for_editor. repeat constructor; done.
  - exists s1. split; [exact H1|]. split; [exact H2|exact H3].
Defined.
