(* ===== verification/Fd.v ===== *)
(** File descriptors: [kernel/fs/file.c], [kernel/syscalls/dup.c], the second
    half of [kernel/syscalls/write.c], [kernel/syscalls/ioctl.c] and [sys_close]
    of [kernel/syscalls/open.c]. *)
From S2P Require Export Kernel Uaccess Vfs Signal.
Local Open Scope prog_scope.

Definition SEEK_SET : Z := 0.
Definition SEEK_CUR : Z := 1.
Definition SEEK_END : Z := 2.

Section fd.
Context {FA : Type} `{!FrameAllocator FA} `{!Drivers FA}.

(** ** [file.c] *)

Fixpoint fd_scan (n : nat) (p i : Z) : M (kst FA) Z :=
  match n with
  | O => ret (-1)
  | S n' => v <- read_fd p i;; if v =? 0 then ret i else fd_scan n' p (i + 1)
  end.
Definition fd_alloc : M (kst FA) Z := with_proc (-1) (λ p, fd_scan (Z.to_nat MAX_FD) p 0).
Definition fd_free (fd : Z) : M (kst FA) unit :=
  with_proc tt (λ p, if (fd <? 0) || (MAX_FD <=? fd) then ret tt else write_fd p fd 0).
Definition file_new (inode flags : Z) : M (kst FA) Z :=
  a <- kalloc;;
  if a =? 0 then ret 0
  else new_file a (mk_file inode 0 flags 1);;; vfs_open inode;;; ret a.
Definition file_close (a : Z) : M (kst FA) unit :=
  if a =? 0 then ret tt
  else
    mod_file a (λ f, set_f_ref_count (f_ref_count f - 1) f);;;
    f <- get_file a;;
    if f_ref_count f <=? 0 then vfs_close (f_inode f);;; kfree_file a else ret tt.
Definition fd_get (fd : Z) : M (kst FA) Z :=
  with_proc 0 (λ p, if (fd <? 0) || (MAX_FD <=? fd) then ret 0 else read_fd p fd).

(** ** [dup.c] *)

Definition file_hold (a : Z) : M (kst FA) unit := mod_file a (λ f, set_f_ref_count (f_ref_count f + 1) f).

Definition sys_dup (oldfd : Z) : M (kst FA) Z :=
  with_proc (-1) (λ p,
    a <- fd_get oldfd;;
    if a =? 0 then ret (-1)
    else
      newfd <- fd_alloc;;
      if newfd <? 0 then ret (-1)
      else file_hold a;;; write_fd p newfd a;;; ret newfd).

Definition sys_dup2 (oldfd newfd : Z) : M (kst FA) Z :=
  with_proc (-1) (λ p,
    if (newfd <? 0) || (MAX_FD <? newfd) then ret (-1)
    else
      a <- fd_get oldfd;;
      if a =? 0 then ret (-1)
      else if oldfd =? newfd then ret newfd
      else
        existing <- fd_get newfd;;
        (if existing =? 0 then ret tt else file_close existing;;; write_fd p newfd 0);;;
        file_hold a;;;
        write_fd p newfd a;;;
        ret newfd).

Definition sys_lseek (fd offset whence : Z) : M (kst FA) Z :=
  with_proc (-1) (λ p,
    a <- fd_get fd;;
    if a =? 0 then ret (-1)
    else
      f <- get_file a;;
      n <- get_inode (f_inode f);;
      if has (in_flags n) FS_CHARDEVICE then ret (-1)
      else
        let o := if whence =? SEEK_SET then Some offset
                 else if whence =? SEEK_CUR then Some (i64 (f_offset f + offset))
                 else if whence =? SEEK_END then Some (i64 (in_size n + offset))
                 else None in
        match o with
        | None => ret (-1)
        | Some new_off =>
            if new_off <? 1 then ret (-1)
            else mod_file a (set_f_offset new_off);;; ret new_off
        end).

(** ** [open.c], [ioctl.c] *)

Definition sys_close (fd : Z) : M (kst FA) Z :=
  a <- fd_get fd;;
  if a =? 0 then ret (-1) else fd_free fd;;; file_close a;;; ret 0.

(** [current_task->proc] is dereferenced without a test. *)
Definition sys_ioctl (fd request arg : Z) : M (kst FA) Z :=
  if (fd <? 0) || (MAX_FD <=? fd) then ret (-1)
  else
    o <- current_proc;;
    match o with
    | None => faultM
    | Some p =>
        a <- read_fd p fd;;
        if a =? 0 then ret (-1)
        else
          f <- get_file a;;
          if f_inode f =? 0 then ret (-1)
          else
            n <- get_inode (f_inode f);;
            match op_of ops_ioctl n with
            | Some ioctl => ioctl (f_inode f) request arg
            | None => ret (-1)
            end
    end.

(** ** [write.c] *)

(** The test compares the mode of the inode with a file type, and the action
    is looked up at [sig], not at [sig - 1]. *)
Definition check_tty_access (a : Z) (is_write : bool) : M (kst FA) Z :=
  with_proc 0 (λ p,
    x <- proc_of p;;
    if p_controlling_tty x =? 0 then ret 0
    else
      f <- get_file a;;
      if f_inode f =? 0 then ret 0
      else
        n <- get_inode (f_inode f);;
        if negb (in_mode n =? FS_CHARDEVICE) then ret 0
        else
          t <- get_tty (p_controlling_tty x);;
          if p_pgid x =? tty_pgrp t then ret 0
          else
            let sig := if is_write then SIGTTOU else SIGTTIN in
            ignored <- (match p_signals x with
                        | None => ret false
                        | Some si =>
                            match zget (sig_actions si) sig with
                            | None => faultM
                            | Some act => ret (has (sig_blocked si) (sigmask sig) || (sa_handler act =? SIG_IGN))
                            end
                        end);;
            if ignored then ret (if is_write then 0 else -1)
            else if is_write && negb (has (tty_lflag t) TOSTOP) then ret 0
            else signal_send_group (p_pgid x) sig;;; ret (-1)).

Definition sys_write (fd buf count : Z) : M (kst FA) Z :=
  a <- fd_get (i32 fd);;
  if a =? 0 then ret (-1)
  else
    ok <- check_tty_access a true;;
    if ok <? 0 then ret (-1)
    else
      kbuf <- kalloc;;
      if kbuf =? 0 then ret (-1)
      else
        ok <- copy_from_user kbuf buf count;;
        if negb (ok =? 0) then kfree_bytes kbuf;;; ret (-1)
        else
          f <- get_file a;;
          w <- vfs_write (f_inode f) (f_offset f) count kbuf;;
          mod_file a (λ f, set_f_offset (u64 (f_offset f + w)) f);;;
          kfree_bytes kbuf;;;
          ret (i64 w).

Definition sys_read (fd buf count : Z) : M (kst FA) Z :=
  a <- fd_get (i32 fd);;
  if a =? 0 then ret (-1)
  else
    ok <- check_tty_access a false;;
    if ok <? 0 then ret (-1)
    else
      kbuf <- kalloc;;
      if kbuf =? 0 then ret (-1)
      else
        f <- get_file a;;
        r <- vfs_read (f_inode f) (f_offset f) count kbuf;;
        mod_file a (λ f, set_f_offset (u64 (f_offset f + r)) f);;;
        ok <- (if 0 <? r then copy_to_user buf kbuf r else ret 0);;
        kfree_bytes kbuf;;;
        ret (if negb (ok =? 0) then -1 else i64 r).
End fd.

(** ** A denied read *)

Section read.
Context {FA : Type} `{!FrameAllocator FA} `{!Drivers FA}.
Implicit Types k : kst FA.

Lemma read_fd_Done k p x i a : procs (k_sched k) !! p = Some x → zget (p_fd_table x) i = Some a → read_fd p i k = Done (a, k).
Proof using Type. intros Hx Ha. unfold read_fd. mstep (proc_of_Done _ _ _ Hx). by rewrite Ha. Qed.
Lemma fd_get_Done k p x i a : runs k p x → 0 <= i < MAX_FD → zget (p_fd_table x) i = Some a → fd_get i k = Done (a, k).
Proof using Type.
  intros Hr Hi Ha. unfold fd_get. rewrite (with_proc_runs _ _ _ _ _ Hr).
  rewrite (proj2 (Z.ltb_ge i 0)), (proj2 (Z.leb_gt MAX_FD i)) by lia. cbn [orb].
  by apply (read_fd_Done _ _ _ _ _ (runs_proc _ _ _ Hr)).
Qed.
Lemma kalloc_Done k a rest : allocs (k_vm k) = a :: rest → kalloc k = Done (a, set_k_vm (set_allocs rest (k_vm k)) k).
Proof using Type. intros Ha. unfold kalloc, on_vm, zoom, kmalloc. by rewrite Ha. Qed.
Lemma no_tty k p x a w : runs k p x → p_controlling_tty x = 0 → check_tty_access a w k = Done (0, k).
Proof using Type*.
  intros Hr Ht. unfold check_tty_access. rewrite (with_proc_runs _ _ _ _ _ Hr).
  mstep (proc_of_Done _ _ _ (runs_proc _ _ _ Hr)). by rewrite Ht.
Qed.
Lemma i32_fd i : 0 <= i < MAX_FD → i32 i = i.
Proof using Type. unfold MAX_FD, i32. intros Hi. rewrite Z.mod_small by lia. lia. Qed.

(** [copy_to_user] stopped by the first byte that is not mapped. *)
Lemma copy_to_user_stops k p x mm dst src size n f :
  runs_mm k p x mm → user_range (kram k) (page_table mm) dst n (n + 1) f → 0 <= n < size → PHYS_OFFSET <= src →
  (∀ i j, 0 <= i < n → 0 <= j < n → V2P src + i ≠ f j) → user_phys (kram k) (page_table mm) (u64 (dst + n)) = None →
  ∃ m, copy_to_user dst src size k = Done (-1, set_kram m k) ∧ moved (λ i, V2P src + i) f n (kram k) m.
Proof using Type*.
  intros Hr Hur Hn Hsrc Hap Hnone. unfold copy_to_user, copy_to_user_with. rewrite (with_mm_runs _ _ _ _ _ _ Hr).
  assert (∃ r, Z.to_nat size = (Z.to_nat n + S r)%nat) as [r ->] by (exists (Z.to_nat (size - n - 1)); lia).
  destruct (copy_out_steps k (page_table mm) dst n (n + 1) f (λ i, kread (src + i)) (λ i, kram k (V2P src + i)) (S r) Hur
    ltac:(lia)) with (c := Z.to_nat n) (b := 0) (m := kram k) as (m & Hrun & Hm); [|apply wrote_0|lia|lia|].
  { intros i m Hi Hm. by eapply (kread_far _ _ _ n). }
  rewrite set_kram_id in Hrun. exists m. split; [|exact Hm]. rewrite Hrun. cbn [copy_out_loop].
  unfold bind at 1, gets at 1. change (kram (set_kram m k)) with m.
  rewrite (user_phys_wrote _ _ _ _ _ _ _ _ _ n Hur Hm) by lia. by rewrite Hnone.
Qed.
End read.

(** reading a file one may not read gives the caller kernel memory: the
    -1 of [vfs_read] is taken as a number of bytes, so [sys_read] copies the
    contents of its kernel buffer, and what follows it in memory, to the user
    buffer until the first user page that is not mapped, whatever the [count]
    asked for; the offset of the file moves back by one. *)
Theorem sys_read_denied_leaks {FA} `{!FrameAllocator FA} `{!Drivers FA} (k : kst FA) p x mm fd buf count a f node n kbuf rest len ph :
  runs_mm k p x mm → p_controlling_tty x = 0 → 0 <= fd < MAX_FD → zget (p_fd_table x) fd = Some a → a ≠ 0 →
  k_files k !! a = Some f → f_inode f = node → node ≠ 0 → k_inodes k !! node = Some n → ¬ may_access x n 4 →
  allocs (k_vm k) = kbuf :: rest → PHYS_OFFSET <= kbuf →
  0 <= len < 2 ^ 63 → user_range (kram k) (page_table mm) buf len (len + 1) ph →
  user_phys (kram k) (page_table mm) (u64 (buf + len)) = None →
  (∀ i j, 0 <= i < len → 0 <= j < len → V2P kbuf + i ≠ ph j) →
  ∃ k', sys_read fd buf count k = Done (-1, k') ∧
    (∀ i, 0 <= i < len → kram k' (ph i) = kram k (V2P kbuf + i)) ∧
    k_files k' !! a = Some (set_f_offset (u64 (f_offset f - 1)) f).
Proof.
  intros Hr Htty Hfd Ha Ha0 Hf Hnode Hn0 Hn Hdeny Halloc Hkbuf Hlen Hur Hnone Hap. pose proof Hr as [Hrun Hmm].
  unfold sys_read. rewrite i32_fd by done. mstep (fd_get_Done _ _ _ _ _ Hrun Hfd Ha). rewrite (proj2 (Z.eqb_neq a 0)) by done.
  mstep (no_tty k p x a false Hrun Htty). change (0 <? 0) with false. cbv iota.
  mstep (kalloc_Done k kbuf rest Halloc). rewrite (proj2 (Z.eqb_neq kbuf 0)) by (unfold PHYS_OFFSET in *; lia).
  set (k1 := set_k_vm (set_allocs rest (k_vm k)) k). assert (Hf1 : k_files k1 !! a = Some f) by done.
  mstep (get_file_Done k1 a f Hf1).
  assert (Hread : vfs_read (f_inode f) (f_offset f) count kbuf k1 = Done (u64 (-1), k1)).
  { unfold vfs_read. rewrite Hnode. destruct (vfs_check_permission_spec k1 p x node n 4) as (r & Hp & Hr01 & Hiff); [exact Hrun|done|done|].
    mstep Hp. destruct Hr01 as [-> | ->]; [by destruct Hdeny; apply Hiff|done]. }
  mstep Hread. mstep (mod_file_Done k1 a f (λ f, set_f_offset (u64 (f_offset f + u64 (-1))) f) Hf1).
  set (k2 := set_k_files _ k1). change (0 <? u64 (-1)) with true. cbv iota.
  destruct (copy_to_user_stops k2 p x mm buf kbuf (u64 (-1)) len ph) as (m & Hcopy & Hm); try done.
  { split; [lia|]. change (u64 (-1)) with (2 ^ 64 - 1). lia. }
  mstep Hcopy. exists (set_kram m k2). split; [done|]. split; [exact (proj1 Hm)|].
  change (k_files (set_kram m k2)) with (k_files k2). unfold k2. simpl. rewrite lookup_insert_eq. do 2 f_equal.
  unfold u64. rewrite Zplus_mod_idemp_r. done.
Qed.

(** ** Witness: three bytes before an unmapped page *)

Definition ex_denied : process := ex_process 1000 1000 1000 1000 [70] None.
Definition ex_read_kst : kst pmm :=
  let k := ex_kst ex_denied {[64 := ex_inode 0 0 0x180 4100]} {[70 := mk_file 64 10 0 1]} ex_vfs in
  set_k_vm (set_allocs [ex_buf] (k_vm k)) k.

Lemma ex_range_end : user_range ex_ram (ex_frame 0) 4093 3 4 (ex_uphys 4093).
Proof.
  destruct (ex_user_range 4093 3 ltac:(lia) ltac:(lia) ltac:(lia)) as [H1 H2 H3 H4]. split; try done.
  intros i j s Hi Hj. destruct (decide (j < 3)); [apply H4; lia|]. assert (j = 3) as -> by lia.
  change (u64 (4093 + 3)) with 4096. unfold ex_uphys.
  assert (walk_slots ex_ram (ex_frame 0) (page_down 4096) = [ex_frame 0; ex_frame 1; ex_frame 2 + 8]) as -> by by vm_compute.
  intros Hs. repeat (apply elem_of_cons in Hs as [->|Hs]; [unfold ex_frame, PAGE_SIZE; lia|]). by apply not_elem_of_nil in Hs.
Qed.

Lemma sys_read_denied_leaks_witness : ∃ k', @sys_read pmm _ ex_drivers 0 4093 1 ex_read_kst = Done (-1, k') ∧
  kram k' (ex_uphys 4093 2) = kram ex_read_kst (V2P ex_buf + 2).
Proof.
  destruct (@sys_read_denied_leaks pmm _ ex_drivers ex_read_kst 11 ex_denied ex_mm 0 4093 1 70 (mk_file 64 10 0 1) 64
    (ex_inode 0 0 0x180 4100) ex_buf [] 3 (ex_uphys 4093)) as (k' & Hrun & Hb & _).
  1: { split; [|done]. exists 2, (mk_task 2 0 TASK_RUNNING 2 0 0 0 0 0 0 11 0). by split_and!. }
  1-8: done.
  - intros [H|H]; [done|]. specialize (H 2 ltac:(lia) eq_refl). change (class_shift _ _) with 3 in H || change (class_shift _ _) with 0 in H. discriminate H.
  - done.
  - done.
  - lia.
  - apply ex_range_end.
  - by vm_compute.
  - intros i j Hi Hj. change (V2P ex_buf) with (ex_frame 5). unfold ex_uphys, ex_frame, PAGE_SIZE. lia.
  - exists k'. split; [exact Hrun|]. apply Hb. lia.
Defined.

(** ** Reference counts *)

(** How many descriptors refer to file [a]: in one table, in all of them. *)
Definition holds_in (a : Z) (l : list Z) : nat := length (filter (λ b, b = a) l).
Definition slots {FA} (k : kst FA) (a : Z) : nat :=
  sum_list_with (λ px : Z * process, holds_in a (p_fd_table px.2)) (map_to_list (procs (k_sched k))).

(** Every count is the number of descriptors, none of them dangling. *)
Record fds_ok {FA} (k : kst FA) : Prop := mk_fds_ok {
  fo_count : ∀ a f, k_files k !! a = Some f → a ≠ 0 ∧ f_ref_count f = Z.of_nat (slots k a);
  fo_live : ∀ a, a ≠ 0 → slots k a ≠ 0%nat → is_Some (k_files k !! a);
  fo_len : ∀ p x, procs (k_sched k) !! p = Some x → Z.of_nat (length (p_fd_table x)) = MAX_FD;
}.

Lemma sum_perm {A} (g : A → nat) l l' : l ≡ₚ l' → sum_list_with g l = sum_list_with g l'.
Proof. induction 1; simpl; lia. Qed.
Lemma holds_insert a l i v old : l !! i = Some old →
  (holds_in a (<[i:=v]> l) + (if decide (old = a) then 1 else 0) = holds_in a l + (if decide (v = a) then 1 else 0))%nat.
Proof.
  unfold holds_in. revert i. induction l as [|b l IH]; intros [|i] Hi; simplify_eq/=.
  - rewrite !filter_cons. repeat case_decide; simpl; lia.
  - specialize (IH i Hi). rewrite !filter_cons. repeat case_decide; simpl; lia.
Qed.
Lemma holds_pos a l i : l !! i = Some a → (0 < holds_in a l)%nat.
Proof.
  intros Hi. unfold holds_in. apply list_elem_of_lookup_2 in Hi.
  assert (a ∈ filter (λ b, b = a) l) as Hf by (by apply list_elem_of_filter).
  destruct (filter _ l); [by apply not_elem_of_nil in Hf|simpl; lia].
Qed.

Section refs.
Context {FA : Type} `{!FrameAllocator FA} `{!Drivers FA}.
Implicit Types k : kst FA.

Lemma slots_put k p x y a : procs (k_sched k) !! p = Some x →
  (slots (put_proc p y k) a + holds_in a (p_fd_table x) = slots k a + holds_in a (p_fd_table y))%nat.
Proof using Type.
  intros Hx. unfold slots. change (procs (k_sched (put_proc p y k))) with (<[p:=y]> (procs (k_sched k))).
  rewrite <- (insert_delete_eq (procs (k_sched k)) p y).
  rewrite (sum_perm _ (map_to_list (<[p:=y]> _)) ((p, y) :: map_to_list (delete p (procs (k_sched k)))))
    by (apply map_to_list_insert, lookup_delete_eq).
  rewrite (sum_perm _ (map_to_list (procs (k_sched k))) ((p, x) :: map_to_list (delete p (procs (k_sched k)))))
    by (symmetry; by apply map_to_list_delete).
  simpl. lia.
Qed.
Lemma slots_pos k p x i a : procs (k_sched k) !! p = Some x → zget (p_fd_table x) i = Some a → (0 < slots k a)%nat.
Proof using Type.
  intros Hx Ha. unfold zget in Ha. case_decide; [|done]. pose proof (holds_pos _ _ _ Ha). unfold slots.
  rewrite (sum_perm _ (map_to_list (procs (k_sched k))) ((p, x) :: map_to_list (delete p (procs (k_sched k)))))
    by (symmetry; by apply map_to_list_delete).
  simpl. lia.
Qed.

(** [fd_table[i] = v]. *)
Definition put_fd k p x i v : kst FA := put_proc p (set_p_fd_table (<[Z.to_nat i := v]> (p_fd_table x)) x) k.
Lemma write_fd_Done k p x i v : procs (k_sched k) !! p = Some x → 0 <= i < Z.of_nat (length (p_fd_table x)) →
  write_fd p i v k = Done (tt, put_fd k p x i v).
Proof using Type.
  intros Hx Hi. unfold write_fd. mstep (proc_of_Done _ _ _ Hx). rewrite zset_is_Some by done.
  by apply (upd_proc_Done k p x (set_p_fd_table (<[Z.to_nat i := v]> (p_fd_table x)))).
Qed.
Lemma slots_put_fd k p x i v old a : procs (k_sched k) !! p = Some x → zget (p_fd_table x) i = Some old →
  (slots (put_fd k p x i v) a + (if decide (old = a) then 1 else 0) = slots k a + (if decide (v = a) then 1 else 0))%nat.
Proof using Type.
  intros Hx Ho. unfold zget in Ho. case_decide; [|done]. pose proof (holds_insert a _ _ v _ Ho).
  pose proof (slots_put k p x (set_p_fd_table (<[Z.to_nat i := v]> (p_fd_table x)) x) a Hx). unfold put_fd. simpl in *. lia.
Qed.

Lemma fd_scan_spec k p x : procs (k_sched k) !! p = Some x → Z.of_nat (length (p_fd_table x)) = MAX_FD →
  ∀ n i, 0 <= i → i + Z.of_nat n = MAX_FD → ∃ r, fd_scan n p i k = Done (r, k) ∧
    ((r = -1 ∧ ∀ j, i <= j < MAX_FD → zget (p_fd_table x) j ≠ Some 0) ∨
     (i <= r < MAX_FD ∧ zget (p_fd_table x) r = Some 0 ∧ ∀ j, i <= j < r → zget (p_fd_table x) j ≠ Some 0)).
Proof using Type.
  intros Hx Hlen. induction n as [|n IH]; intros i Hi Hn; cbn [fd_scan]; [exists (-1); split; [done|left; split; [done|lia]]|].
  destruct (zget_is_Some (p_fd_table x) i) as [v Hv]; [lia|]. mstep (read_fd_Done _ _ _ _ _ Hx Hv).
  destruct (Z.eqb_spec v 0) as [->|Hv0]; [exists i; split; [done|right; split; [lia|split; [done|lia]]]|].
  destruct (IH (i + 1) ltac:(lia) ltac:(lia)) as (r & Hrun & Hr). exists r. split; [done|].
  assert (Hi0 : zget (p_fd_table x) i ≠ Some 0) by congruence.
  destruct Hr as [[-> Hno]|(H1 & H2 & Hno)]; [left; split; [done|]|right; split; [lia|split; [done|]]]; intros j Hj;
    (destruct (decide (j = i)) as [->|]; [done|apply Hno; lia]).
Qed.
Lemma fd_alloc_spec k p x : runs k p x → Z.of_nat (length (p_fd_table x)) = MAX_FD → ∃ r, fd_alloc k = Done (r, k) ∧
  ((r = -1 ∧ ∀ j, 0 <= j < MAX_FD → zget (p_fd_table x) j ≠ Some 0) ∨
   (0 <= r < MAX_FD ∧ zget (p_fd_table x) r = Some 0 ∧ ∀ j, 0 <= j < r → zget (p_fd_table x) j ≠ Some 0)).
Proof using Type.
  intros Hr Hlen. unfold fd_alloc. rewrite (with_proc_runs _ _ _ _ _ Hr).
  apply (fd_scan_spec k p x (runs_proc _ _ _ Hr) Hlen); [lia|by vm_compute].
Qed.

(** The invariant with [e a] references to file [a] held by the running code. *)
Record fds_with k (e : Z → Z) : Prop := mk_fds_with {
  fw_count : ∀ a f, k_files k !! a = Some f → a ≠ 0 ∧ f_ref_count f = Z.of_nat (slots k a) + e a;
  fw_live : ∀ a, a ≠ 0 → Z.of_nat (slots k a) + e a ≠ 0 → is_Some (k_files k !! a);
  fw_len : ∀ p x, procs (k_sched k) !! p = Some x → Z.of_nat (length (p_fd_table x)) = MAX_FD;
}.
Definition bump (e : Z → Z) (a d : Z) : Z → Z := λ b, e b + if decide (b = a) then d else 0.

Lemma fds_with_0 k : fds_ok k ↔ fds_with k (λ _, 0).
Proof using Type.
  split; intros [H1 H2 H3]; (split; [| |done]).
  - intros a f Hf. rewrite Z.add_0_r. by apply H1.
  - intros a Ha Hs. apply H2; [done|lia].
  - intros a f Hf. specialize (H1 a f Hf). rewrite Z.add_0_r in H1. done.
  - intros a Ha Hs. apply H2; [done|lia].
Qed.
Lemma fds_with_ext k k' e e' : fds_with k e → k_files k' = k_files k → k_sched k' = k_sched k → (∀ a, a ≠ 0 → e' a = e a) → fds_with k' e'.
Proof using Type.
  intros [H1 H2 H3] Hf Hs He. unfold slots in *. split; rewrite ?Hf, ?Hs; try done.
  - intros a f Ha. destruct (H1 a f Ha) as [Ha0 ->]. split; [done|]. unfold slots. by rewrite Hs, He.
  - intros a Ha. unfold slots. rewrite Hs, He by done. by apply H2.
Qed.

Lemma file_hold_ok k e a : fds_with k e → is_Some (k_files k !! a) →
  ∃ k', file_hold a k = Done (tt, k') ∧ fds_with k' (bump e a 1) ∧ k_sched k' = k_sched k ∧
    k_inodes k' = k_inodes k ∧ k_vfs k' = k_vfs k ∧ ∀ b, k_files k' !! b = (if decide (b = a) then set_f_ref_count (default 0 (f_ref_count <$> k_files k !! a) + 1) <$> k_files k !! a else k_files k !! b).
Proof using Type.
  intros [H1 H2 H3] [f Hf]. unfold file_hold. rewrite (mod_file_Done _ _ _ _ Hf). eexists. split; [reflexivity|].
  split; [|split; [done|split; [done|split; [done|]]]].
  - split; [| |done].
    + intros b g Hg. simpl in Hg. unfold bump. change (slots (set_k_files _ k) b) with (slots k b). destruct (decide (b = a)) as [->|Hb].
      * rewrite lookup_insert_eq in Hg. injection Hg as <-. destruct (H1 a f Hf). split; [done|]. simpl. lia.
      * rewrite lookup_insert_ne in Hg by done. rewrite Z.add_0_r. by apply H1.
    + intros b Hb Hn. simpl. unfold bump in Hn. change (slots (set_k_files _ k) b) with (slots k b) in Hn. rewrite lookup_insert_is_Some'. case_decide; [by left|right].
      apply H2; [done|lia].
  - intros b. simpl. case_decide; subst; [by rewrite lookup_insert_eq, Hf|by rewrite lookup_insert_ne].
Qed.

Lemma put_fd_ok k e p x i old v : fds_with k e → procs (k_sched k) !! p = Some x → zget (p_fd_table x) i = Some old →
  fds_with (put_fd k p x i v) (bump (bump e old 1) v (-1)).
Proof using Type.
  intros [H1 H2 H3] Hx Ho.
  assert (Hsl : ∀ a, Z.of_nat (slots (put_fd k p x i v) a) + bump (bump e old 1) v (-1) a = Z.of_nat (slots k a) + e a).
  { intros a. pose proof (slots_put_fd k p x i v old a Hx Ho). unfold bump. repeat case_decide; subst; try congruence; lia. }
  split.
  - intros a f Hf. rewrite Hsl. by apply H1.
  - intros a Ha. rewrite Hsl. by apply H2.
  - intros q y Hq. unfold put_fd in Hq. simpl in Hq. destruct (decide (q = p)) as [->|].
    + rewrite lookup_insert_eq in Hq. injection Hq as <-. simpl. rewrite length_insert. by eapply H3.
    + rewrite lookup_insert_ne in Hq by done. by eapply H3.
Qed.

(** Closing the inode of an open file leaves files and processes alone. *)
Definition can_close k (node : Z) : Prop := ∀ k', k_inodes k' = k_inodes k → k_vfs k' = k_vfs k →
  ∃ k'', vfs_close node k' = Done (tt, k'') ∧ k_files k'' = k_files k' ∧ k_sched k'' = k_sched k'.

Lemma file_close_ok k e a f : fds_with k e → k_files k !! a = Some f → 0 < Z.of_nat (slots k a) + e a → can_close k (f_inode f) →
  ∃ k', file_close a k = Done (tt, k') ∧ fds_with k' (bump e a (-1)) ∧ k_sched k' = k_sched k ∧
    ∀ b, b ≠ a → k_files k' !! b = k_files k !! b.
Proof using Type*.
  intros [H1 H2 H3] Hf Hpos Hclose. destruct (H1 a f Hf) as [Ha0 Href]. unfold file_close. rewrite (proj2 (Z.eqb_neq a 0)) by done.
  mstep (mod_file_Done k a f (λ f, set_f_ref_count (f_ref_count f - 1) f) Hf).
  set (f' := set_f_ref_count (f_ref_count f - 1) f). set (k1 := set_k_files _ k).
  assert (Hf' : k_files k1 !! a = Some f') by apply lookup_insert_eq. mstep (get_file_Done k1 a f' Hf').
  assert (Hothers : ∀ b, b ≠ a → k_files k1 !! b = k_files k !! b) by (intros; by apply lookup_insert_ne).
  change (f_ref_count f') with (f_ref_count f - 1). destruct (Z.leb_spec (f_ref_count f - 1) 0) as [Hle|Hgt].
  - destruct (Hclose k1 eq_refl eq_refl) as (k2 & Hrun & Hf2 & Hs2). change (f_inode f') with (f_inode f). mstep Hrun.
    eexists. split; [reflexivity|]. split; [|split; [exact Hs2|]].
    + split; cbn [k_files set_k_files k_sched]; rewrite ?Hf2, ?Hs2; try done.
      * intros b g Hg. destruct (decide (b = a)) as [->|Hb]; [by rewrite lookup_delete_eq in Hg|].
        rewrite lookup_delete_ne, Hothers in Hg by done. unfold bump, slots. cbn [k_sched set_k_files]. rewrite Hs2, decide_False by done. rewrite Z.add_0_r.
        by apply (H1 b g).
      * intros b Hb. unfold bump, slots. cbn [k_sched set_k_files]. rewrite Hs2. change (k_sched k1) with (k_sched k). fold (slots k b).
        destruct (decide (b = a)) as [->|Hba]; [intros Hn; lia|]. rewrite lookup_delete_ne, Hothers, Z.add_0_r by done. by apply H2.
    + intros b Hb. cbn [k_files set_k_files]. by rewrite Hf2, lookup_delete_ne, Hothers.
  - eexists. split; [reflexivity|]. split; [|split; [done|done]]. split; [| |done].
    + intros b g Hg. unfold bump. change (slots k1 b) with (slots k b). destruct (decide (b = a)) as [->|Hb].
      * rewrite Hf' in Hg. injection Hg as <-. split; [done|]. simpl. lia.
      * rewrite Hothers in Hg by done. rewrite Z.add_0_r. by apply H1.
    + intros b Hb. unfold bump. change (slots k1 b) with (slots k b). destruct (decide (b = a)) as [->|Hba]; [by eexists|].
      rewrite Hothers, Z.add_0_r by done. by apply H2.
Qed.

Lemma fd_get_cases k p x i : runs k p x → Z.of_nat (length (p_fd_table x)) = MAX_FD →
  (∃ a, 0 <= i < MAX_FD ∧ zget (p_fd_table x) i = Some a ∧ fd_get i k = Done (a, k)) ∨ fd_get i k = Done (0, k).
Proof using Type.
  intros Hr Hlen. destruct (decide (0 <= i < MAX_FD)) as [Hi|Hi].
  - left. destruct (zget_is_Some (p_fd_table x) i) as [a Ha]; [lia|]. exists a. split; [done|]. split; [done|]. by eapply fd_get_Done.
  - right. unfold fd_get. rewrite (with_proc_runs _ _ _ _ _ Hr).
    by replace ((i <? 0) || (MAX_FD <=? i)) with true by (symmetry; apply orb_true_iff; rewrite Z.ltb_lt, Z.leb_le; lia).
Qed.
Lemma held_live k e p x i a : fds_with k e → procs (k_sched k) !! p = Some x → zget (p_fd_table x) i = Some a → a ≠ 0 → 0 <= e a →
  is_Some (k_files k !! a).
Proof using Type. intros [_ Hl _] Hx Ha Ha0 He. pose proof (slots_pos _ _ _ _ _ Hx Ha). apply Hl; [done|lia]. Qed.

(** The references a call takes and gives back cancel out. *)
Lemma fds_with_bumps k e : fds_with k e → (∀ a, a ≠ 0 → e a = 0) → fds_ok k.
Proof using Type. intros H He. apply fds_with_0. eapply fds_with_ext; eauto. intros. by rewrite He. Qed.
End refs.

Ltac bumps := intros; unfold bump; repeat case_decide; subst; try congruence; lia.

(** [dup], [dup2] and [close] as one request. *)
Inductive fd_call := Dup (fd : Z) | Dup2 (oldfd newfd : Z) | Close (fd : Z).
Definition run_fd_call {FA} `{!FrameAllocator FA} `{!Drivers FA} (c : fd_call) : M (kst FA) Z :=
  match c with Dup fd => sys_dup fd | Dup2 o n => sys_dup2 o n | Close fd => sys_close fd end.

Section calls.
Context {FA : Type} `{!FrameAllocator FA} `{!Drivers FA}.
Implicit Types k : kst FA.
Variables (k : kst FA) (p : Z) (x : process).
Hypothesis Hr : runs k p x.
Hypothesis Hok : fds_ok k.
Let Hx : procs (k_sched k) !! p = Some x := runs_proc k p x Hr.
Let Hlen : Z.of_nat (length (p_fd_table x)) = MAX_FD := fo_len k Hok p x Hx.
Let Hw : fds_with k (λ _, 0) := proj1 (fds_with_0 k) Hok.

Lemma sys_dup_ok fd : ∃ r k', sys_dup fd k = Done (r, k') ∧ fds_ok k' ∧
  (0 <= r → zget (p_fd_table x) r = Some 0 ∧ (∀ j, 0 <= j < r → zget (p_fd_table x) j ≠ Some 0)).
Proof using Hok Hr.
  unfold sys_dup. rewrite (with_proc_runs _ _ _ _ _ Hr).
  destruct (fd_get_cases k p x fd Hr Hlen) as [(a & Hfd & Ha & Hg)|Hg]; mstep Hg; [|exists (-1), k; split; [done|split; [done|lia]]].
  destruct (Z.eqb_spec a 0) as [->|Ha0]; [exists (-1), k; split; [done|split; [done|lia]]|].
  destruct (fd_alloc_spec k p x Hr Hlen) as (r & Hal & Hcase). mstep Hal.
  destruct Hcase as [[-> _]|(Hr0 & Hfree & Hmin)]; [exists (-1), k; split; [done|split; [done|lia]]|].
  rewrite (proj2 (Z.ltb_ge r 0)) by lia.
  destruct (file_hold_ok k _ a Hw) as (k1 & Hh & Hw1 & Hs1 & _); [by eapply held_live|]. mstep Hh.
  assert (Hx1 : procs (k_sched k1) !! p = Some x) by by rewrite Hs1.
  mstep (write_fd_Done k1 p x r a Hx1 ltac:(lia)). exists r, (put_fd k1 p x r a). split; [done|]. split; [|done].
  eapply fds_with_bumps; [by apply (put_fd_ok k1 _ p x r 0 a Hw1)|bumps].
Qed.

Lemma sys_close_ok fd : (∀ a f, k_files k !! a = Some f → can_close k (f_inode f)) →
  ∃ r k', sys_close fd k = Done (r, k') ∧ fds_ok k'.
Proof using Hok Hr.
  intros Hcl. unfold sys_close.
  destruct (fd_get_cases k p x fd Hr Hlen) as [(a & Hfd & Ha & Hg)|Hg]; mstep Hg; [|by exists (-1), k].
  destruct (Z.eqb_spec a 0) as [->|Ha0]; [by exists (-1), k|].
  assert (Hfree : fd_free fd k = Done (tt, put_fd k p x fd 0)).
  { unfold fd_free. rewrite (with_proc_runs _ _ _ _ _ Hr), (proj2 (Z.ltb_ge fd 0)), (proj2 (Z.leb_gt MAX_FD fd)) by lia.
    apply write_fd_Done; [done|lia]. }
  mstep Hfree. destruct (held_live k _ p x fd a Hw Hx Ha Ha0) as [f Hf]; [lia|].
  pose proof (put_fd_ok k _ p x fd a 0 Hw Hx Ha) as Hw1.
  assert (Hpos : 0 < Z.of_nat (slots (put_fd k p x fd 0) a) + bump (bump (λ _, 0) a 1) 0 (-1) a).
  { unfold bump. rewrite decide_True, decide_False by done. lia. }
  destruct (file_close_ok (put_fd k p x fd 0) _ a f Hw1 Hf Hpos) as (k2 & Hc & Hw2 & _); [intros k' H1 H2; apply (Hcl a f Hf); [exact H1|exact H2]|].
  mstep Hc. exists 0, k2. split; [done|]. eapply fds_with_bumps; [exact Hw2|bumps].
Qed.

(** [dup2] first empties the new descriptor. *)
Lemma clear_fd_ok n b : 0 <= n < MAX_FD → zget (p_fd_table x) n = Some b → (∀ a f, k_files k !! a = Some f → can_close k (f_inode f)) →
  ∃ k1, (if b =? 0 then ret tt else file_close b;;; write_fd p n 0) k = Done (tt, k1) ∧ fds_with k1 (λ _, 0) ∧
    procs (k_sched k1) !! p = Some (set_p_fd_table (<[Z.to_nat n := 0]> (p_fd_table x)) x).
Proof using Hok Hr.
  intros Hn Hnb Hcl. destruct (Z.eqb_spec b 0) as [->|Hb0].
  - exists k. split; [done|]. split; [done|]. rewrite Hx. f_equal. unfold zget in Hnb. case_decide; [|done].
    rewrite list_insert_id by done. by destruct x.
  - destruct (held_live k _ p x n b Hw Hx Hnb Hb0) as [f Hf]; [lia|].
    destruct (file_close_ok k _ b f Hw Hf) as (k1 & Hc & Hw1 & Hs1 & _).
    { pose proof (slots_pos k p x n b Hx Hnb). lia. }
    { by apply (Hcl b). }
    mstep Hc. assert (Hx1 : procs (k_sched k1) !! p = Some x) by by rewrite Hs1.
    exists (put_fd k1 p x n 0). split; [apply write_fd_Done; [done|lia]|]. split.
    + eapply fds_with_ext; [by apply (put_fd_ok k1 _ p x n b 0 Hw1)|done|done|bumps].
    + apply lookup_insert_eq.
Qed.

Lemma sys_dup2_ok o n : n ≠ MAX_FD → (∀ a f, k_files k !! a = Some f → can_close k (f_inode f)) →
  ∃ r k', sys_dup2 o n k = Done (r, k') ∧ fds_ok k'.
Proof using Hok Hr.
  intros Hn Hcl. unfold sys_dup2. rewrite (with_proc_runs _ _ _ _ _ Hr).
  destruct ((n <? 0) || (MAX_FD <? n)) eqn:Hb; [by exists (-1), k|]. apply orb_false_iff in Hb as [Hb1 Hb2].
  apply Z.ltb_ge in Hb1, Hb2.
  destruct (fd_get_cases k p x o Hr Hlen) as [(a & Hfd & Ha & Hg)|Hg]; mstep Hg; [|by exists (-1), k].
  destruct (Z.eqb_spec a 0) as [->|Ha0]; [by exists (-1), k|]. destruct (Z.eqb_spec o n) as [->|Hon]; [by exists n, k|].
  destruct (zget_is_Some (p_fd_table x) n) as [b Hnb]; [lia|].
  mstep (fd_get_Done k p x n b Hr ltac:(lia) Hnb).
  destruct (clear_fd_ok n b ltac:(lia) Hnb Hcl) as (k1 & Hc & Hw1 & Hx1). mstep Hc.
  set (x1 := set_p_fd_table _ x) in Hx1.
  assert (Ho1 : zget (p_fd_table x1) o = Some a) by (simpl; rewrite zget_insert, decide_False by lia; done).
  assert (Hn1 : zget (p_fd_table x1) n = Some 0) by (simpl; rewrite zget_insert, decide_True by lia; done).
  destruct (file_hold_ok k1 _ a Hw1) as (k2 & Hh & Hw2 & Hs2 & _); [by apply (held_live k1 _ p x1 o a Hw1)|]. mstep Hh.
  assert (Hx2 : procs (k_sched k2) !! p = Some x1) by by rewrite Hs2.
  mstep (write_fd_Done k2 p x1 n a Hx2 ltac:(simpl; rewrite length_insert; lia)). exists n, (put_fd k2 p x1 n a). split; [done|].
  eapply fds_with_bumps; [by apply (put_fd_ok k2 _ p x1 n 0 a Hw2)|bumps].
Qed.
End calls.

(** C6: [dup], [dup2] and [close] keep the reference counts of the open files
    exact: when the count of every file is the number of descriptors, over all
    processes, that refer to it, and no descriptor dangles, each of the calls
    returns, with any arguments, to a state where this holds again; a
    descriptor that [dup] returns is the lowest free one.  [MAX_FD] itself,
    which [dup2] lets through and then stores out of the table, is left out. *)
Theorem fd_refs_preserved {FA} `{!FrameAllocator FA} `{!Drivers FA} (k : kst FA) p x c :
  runs k p x → fds_ok k → (∀ a f, k_files k !! a = Some f → can_close k (f_inode f)) → (∀ o, c ≠ Dup2 o MAX_FD) →
  ∃ r k', run_fd_call c k = Done (r, k') ∧ fds_ok k' ∧
    match c with
    | Dup _ => 0 <= r → zget (p_fd_table x) r = Some 0 ∧ ∀ j, 0 <= j < r → zget (p_fd_table x) j ≠ Some 0
    | _ => True
    end.
Proof.
  intros Hr Hok Hcl Hc. destruct c as [fd|o n|fd].
  - by apply (sys_dup_ok k p x).
  - destruct (sys_dup2_ok k p x Hr Hok o n) as (r & k' & H & H'); [intros ->; by apply (Hc o)|done|by exists r, k'].
  - destruct (sys_close_ok k p x Hr Hok fd Hcl) as (r & k' & H & H'). by exists r, k'.
Qed.

(** ** Witness: closing one of two descriptors of a file *)

Definition ex_fd_process : process := ex_process 0 0 0 0 (70 :: 70 :: replicate 1022 0) None.
Definition ex_fd_kst : kst pmm := ex_kst ex_fd_process {[64 := set_in_ref_count 2 (ex_inode 0 0 0x1A4 100)]} {[70 := mk_file 64 0 0 2]} ex_vfs.

Lemma ex_fds_ok : fds_ok ex_fd_kst.
Proof.
  assert (Hs : ∀ a, slots ex_fd_kst a = holds_in a (p_fd_table ex_fd_process)).
  { intros a. unfold slots. change (procs (k_sched ex_fd_kst)) with ({[11 := ex_fd_process]} : gmap Z process).
    rewrite map_to_list_singleton. simpl. lia. }
  split.
  - intros a f Hf. change (({[70 := mk_file 64 0 0 2]} : gmap Z file) !! a = Some f) in Hf. apply lookup_singleton_Some in Hf as [<- <-]. split; [done|]. rewrite Hs. by vm_compute.
  - intros a Ha Hn. destruct (decide (a = 70)) as [->|Ha70]; [by eexists|]. destruct Hn. rewrite Hs. unfold holds_in.
    change (p_fd_table ex_fd_process) with (70 :: 70 :: replicate 1022 0). rewrite !filter_cons_False by done.
    generalize 1022%nat. intros m. induction m as [|m IH]; [done|]. cbn [replicate]. rewrite filter_cons_False; [exact IH|]. intros H0. by symmetry in H0.
  - intros p y Hp. change (({[11 := ex_fd_process]} : gmap Z process) !! p = Some y) in Hp. apply lookup_singleton_Some in Hp as [<- <-]. by vm_compute.
Qed.
Lemma fd_refs_preserved_witness : ∃ r k', @run_fd_call pmm _ ex_drivers (Close 1) ex_fd_kst = Done (r, k') ∧ fds_ok k'.
Proof.
  destruct (@fd_refs_preserved pmm _ ex_drivers ex_fd_kst 11 ex_fd_process (Close 1)) as (r & k' & H1 & H2 & _).
  - apply ex_runs.
  - apply ex_fds_ok.
  - intros a f Hf k' Hi _. change (({[70 := mk_file 64 0 0 2]} : gmap Z file) !! a = Some f) in Hf. apply lookup_singleton_Some in Hf as [<- <-]. change (f_inode _) with 64. unfold vfs_close. cbn.
    unfold get_inode, mod_inode, bind. rewrite Hi. cbn. eexists. split; [reflexivity|]. done.
  - done.
  - by exists r, k'.
Defined.
