(* ===== verification/Cred.v ===== *)
(** Credentials, sessions and the ownership of files:
    [kernel/syscalls/getuid.c].  [uid_t] and [gid_t] are 32 bits wide, [mode_t]
    is [long]; the calls take the values the dispatcher has converted. *)
From S2P Require Export Fd.
Local Open Scope prog_scope.

Definition u64_minus_1 : Z := 2 ^ 64 - 1.

Section cred.
Context {FA : Type} `{!FrameAllocator FA} `{!Drivers FA}.
(** The parameters of [namei]. *)
Context (devfs_root_node link_buf : Z).

(** A field of the current process. *)
Definition proc_field (f : process → Z) : M (kst FA) Z := with_proc (-1) (λ p, x <- proc_of p;; ret (f x)).
(** A call that stores into the current process if [ok] holds of it. *)
Definition proc_change (ok : process → bool) (f : process → process) : M (kst FA) Z :=
  with_proc (-1) (λ p, x <- proc_of p;; if ok x then upd_proc p f;;; ret 0 else ret (-1)).

Definition sys_getuid : M (kst FA) Z := proc_field p_uid.
Definition sys_geteuid : M (kst FA) Z := proc_field p_euid.
Definition sys_getgid : M (kst FA) Z := proc_field p_gid.
Definition sys_getegid : M (kst FA) Z := proc_field p_egid.
Definition sys_getpgrp : M (kst FA) Z := proc_field p_pgid.
Definition sys_setuid (uid : Z) : M (kst FA) Z :=
  proc_change (λ x, p_euid x =? 0) (λ x, set_p_euid uid (set_p_uid uid x)).
Definition sys_seteuid (euid : Z) : M (kst FA) Z :=
  proc_change (λ x, (p_euid x =? 0) || (euid =? p_uid x)) (set_p_euid euid).
Definition sys_setgid (gid : Z) : M (kst FA) Z :=
  proc_change (λ x, p_euid x =? 0) (λ x, set_p_egid gid (set_p_gid gid x)).
Definition sys_setegid (egid : Z) : M (kst FA) Z :=
  proc_change (λ x, (p_euid x =? 0) || (egid =? p_gid x)) (set_p_egid egid).

Definition sys_setsid : M (kst FA) Z :=
  with_proc (-1) (λ p,
    x <- proc_of p;;
    if p_session_leader x || (p_pgid x =? p_pid x) then ret (-1)
    else
      upd_proc p (λ x, set_p_controlling_tty 0 (set_p_session_leader true (set_p_pgid (p_pid x) (set_p_sid (p_pid x) x))));;;
      ret (p_pid x)).
Definition sys_getsid (pid : Z) : M (kst FA) Z :=
  if pid =? 0 then proc_field p_sid
  else
    target <- lookup_pid pid;;
    if target =? 0 then ret (-1) else x <- proc_of target;; ret (p_sid x).
Definition sys_getpgid (pid : Z) : M (kst FA) Z :=
  if pid =? 0 then proc_field p_pgid
  else
    target <- lookup_pid pid;;
    if target =? 0 then ret (-1) else x <- proc_of target;; ret (p_pgid x).
(** [setpgid] once the process to change, [target], is known. *)
Definition setpgid_target (c : process) (pgid target : Z) : M (kst FA) Z :=
  t <- proc_of target;;
  if p_session_leader t then ret (-1)
  else if negb (p_sid t =? p_sid c) then ret (-1)
  else upd_proc target (λ t, set_p_pgid (if pgid =? 0 then p_pid t else pgid) t);;; ret 0.
Definition sys_setpgid (pid pgid : Z) : M (kst FA) Z :=
  with_proc (-1) (λ caller,
    c <- proc_of caller;;
    if (pid =? 0) || (pid =? p_pid c) then setpgid_target c pgid caller
    else
      target <- lookup_pid pid;;
      if target =? 0 then ret (-1)
      else
        t <- proc_of target;;
        if negb (p_parent t =? caller) then ret (-1) else setpgid_target c pgid target).

Definition gids_bytes (l : list Z) : list Z := concat (map (le_bytes 4) l).
Fixpoint gids_of_bytes (n : nat) (l : list Z) : list Z :=
  match n with O => [] | S n' => of_le (take 4 l) :: gids_of_bytes n' (drop 4 l) end.

Definition sys_getgroups (size list : Z) : M (kst FA) Z :=
  with_proc (-1) (λ p,
    x <- proc_of p;;
    if size =? 0 then ret (p_ngroups x)
    else if size <? p_ngroups x then ret (-1)
    else
      r <- copy_bytes_to_user list (gids_bytes (take (Z.to_nat (p_ngroups x)) (p_groups x)));;
      ret (if r <? 0 then -1 else p_ngroups x)).
(** The groups beyond [size] keep what they held. *)
Definition sys_setgroups (size list : Z) : M (kst FA) Z :=
  with_proc (-1) (λ p,
    x <- proc_of p;;
    if negb (p_euid x =? 0) then ret (-1)
    else if (size <? 0) || (NGROUPS_MAX <? size) then ret (-1)
    else
      o <- copy_bytes_from_user list (size * 4);;
      match o with
      | None => ret (-1)
      | Some l =>
          let new_groups := gids_of_bytes (Z.to_nat size) l in
          upd_proc p (λ x, set_p_ngroups size (set_p_groups (new_groups ++ drop (Z.to_nat size) (p_groups x)) x));;;
          ret 0
      end).

(** ** Files named by a path or by a descriptor *)

(** [kmalloc(256)], [copy_from_user], [namei]: the node a user path leads to. *)
Definition with_path (path : Z) (body : Z → M (kst FA) Z) : M (kst FA) Z :=
  kpath <- kalloc;;
  if kpath =? 0 then ret (-1)
  else
    ok <- copy_from_user kpath path 256;;
    if negb (ok =? 0) then kfree_bytes kpath;;; ret (-1)
    else
      node <- namei devfs_root_node link_buf kpath;;
      kfree_bytes kpath;;;
      if node =? 0 then ret (-1) else body node.
Definition with_fd (fd : Z) (body : Z → M (kst FA) Z) : M (kst FA) Z :=
  a <- fd_get fd;;
  if a =? 0 then ret (-1) else f <- get_file a;; body (f_inode f).

Definition chown_inode (owner group : Z) (n : inode) : inode :=
  let n := if owner =? u64_minus_1 then n else set_in_uid (u32 owner) n in
  if group =? u64_minus_1 then n else set_in_gid (u32 group) n.
Definition chmod_inode (mode : Z) (n : inode) : inode :=
  set_in_mode (Z.lor (Z.land (in_mode n) 0xFFFFF000) (Z.land mode 0xFFF)) n.
Definition chflags_inode (flags : Z) (n : inode) : inode :=
  set_in_flags (Z.lor (Z.land (in_flags n) 0xFFFF0000) (Z.land flags 0xFFFF)) n.

Definition sys_chown (path owner group : Z) : M (kst FA) Z :=
  with_proc (-1) (λ p, with_path path (λ node,
    x <- proc_of p;;
    if negb (p_euid x =? 0) then vfs_close node;;; ret (-1)
    else mod_inode node (chown_inode owner group);;; vfs_close node;;; ret 0)).
Definition sys_fchown (fd owner group : Z) : M (kst FA) Z :=
  with_proc (-1) (λ p, with_fd fd (λ node,
    x <- proc_of p;;
    if negb (p_euid x =? 0) then ret (-1)
    else mod_inode node (chown_inode owner group);;; ret 0)).
Definition sys_chmod (path mode : Z) : M (kst FA) Z :=
  with_proc (-1) (λ p, with_path path (λ node,
    x <- proc_of p;;
    n <- get_inode node;;
    if negb (p_euid x =? 0) && negb (in_uid n =? p_euid x) then vfs_close node;;; ret (-1)
    else mod_inode node (chmod_inode mode);;; vfs_close node;;; ret 0)).
Definition sys_fchmod (fd mode : Z) : M (kst FA) Z :=
  with_proc (-1) (λ p, with_fd fd (λ node,
    x <- proc_of p;;
    n <- get_inode node;;
    if negb (p_euid x =? 0) && negb (in_uid n =? p_euid x) then ret (-1)
    else mod_inode node (chmod_inode mode);;; ret 0)).

(** [flags] holds the type of the node: its owner may change it. *)
Definition sys_chflags (path flags : Z) : M (kst FA) Z :=
  with_proc (-1) (λ p, with_path path (λ node,
    x <- proc_of p;;
    n <- get_inode node;;
    if negb (p_euid x =? 0) then
      if negb (in_uid n =? p_euid x) then vfs_close node;;; ret (-1)
      else if negb (Z.land flags 0xFFFFFFFFFFFF0000 =? 0) then vfs_close node;;; ret (-1)
      else mod_inode node (chflags_inode flags);;; vfs_close node;;; ret 0
    else mod_inode node (set_in_flags (u32 flags));;; vfs_close node;;; ret 0)).
Definition sys_fchflags (fd flags : Z) : M (kst FA) Z :=
  with_proc (-1) (λ p, with_fd fd (λ node,
    x <- proc_of p;;
    n <- get_inode node;;
    if negb (p_euid x =? 0) then
      if negb (in_uid n =? p_euid x) then ret (-1)
      else if negb (Z.land flags 0xFFFFFFFFFFFF0000 =? 0) then ret (-1)
      else mod_inode node (chflags_inode flags);;; ret 0
    else mod_inode node (set_in_flags (u32 flags));;; ret 0)).
End cred.

(** ** Sequences of calls *)

(** The calls that change credentials or, through a descriptor, a file. *)
Inductive cred_call :=
  | Setuid (uid : Z) | Seteuid (euid : Z) | Setgid (gid : Z) | Setegid (egid : Z) | Setgroups (size list : Z)
  | Setsid | Setpgid (pid pgid : Z)
  | Fchown (fd owner group : Z) | Fchmod (fd mode : Z) | Fchflags (fd flags : Z).
(** A call as [syscall_handler] makes it. *)
Definition run_cred_call {FA} `{!FrameAllocator FA} (c : cred_call) : M (kst FA) Z :=
  match c with
  | Setuid u => sys_setuid (u32 u) | Seteuid u => sys_seteuid (u32 u)
  | Setgid g => sys_setgid (u32 g) | Setegid g => sys_setegid (u32 g)
  | Setgroups size list => sys_setgroups (i32 size) list
  | Setsid => sys_setsid | Setpgid pid pgid => sys_setpgid (u64 pid) (u64 pgid)
  | Fchown fd o g => sys_fchown (i32 fd) o g | Fchmod fd m => sys_fchmod (i32 fd) m
  | Fchflags fd f => sys_fchflags (i32 fd) f
  end.
Fixpoint run_cred_calls {FA} `{!FrameAllocator FA} (l : list cred_call) : M (kst FA) unit :=
  match l with [] => ret tt | c :: l' => run_cred_call c;;; run_cred_calls l' end.

(** [y] has the rights of [x], or fewer. *)
Record no_gain (x y : process) : Prop := mk_no_gain {
  ng_uid : p_uid y = p_uid x;
  ng_gid : p_gid y = p_gid x;
  ng_euid : p_euid y = p_euid x ∨ p_euid y = p_uid x;
  ng_egid : p_egid y = p_egid x ∨ p_egid y = p_gid x;
  ng_groups : p_groups y = p_groups x ∧ p_ngroups y = p_ngroups x;
  ng_fd_table : p_fd_table y = p_fd_table x;
  ng_hash : p_pid y = p_pid x ∧ p_hash_next y = p_hash_next x;
}.
#[global] Instance no_gain_preorder : PreOrder no_gain.
Proof.
  split.
  - intros x. split; auto.
  - intros x y z [] []. split; try congruence; [intuition congruence..| |]; split; destruct_and?; congruence.
Qed.

(** [m] is [n], except that an owner among [us] may have changed its mode and its flags. *)
Definition touched (us : list Z) (n m : inode) : Prop :=
  in_uid m = in_uid n ∧ in_gid m = in_gid n ∧ (in_uid n ∉ us → m = n).

Section calls.
Context {FA : Type} `{!FrameAllocator FA}.
Variables (k0 : kst FA) (p : Z) (x : process) (H : Z → list Z).
Hypothesis Hu : p_uid x ≠ 0.
Hypothesis He : p_euid x ≠ 0.

Record confined (k : kst FA) (y : process) : Prop := mk_confined {
  cf_runs : runs k p y;
  cf_gain : no_gain x y;
  cf_hash : hash_ok (k_sched k) H;
  cf_lock : sched_lock (k_sched k) = false;
  cf_files : k_files k = k_files k0;
  cf_inodes : ∀ a n, k_inodes k0 !! a = Some n → ∃ m, k_inodes k !! a = Some m ∧ touched [p_uid x; p_euid x] n m;
}.

Lemma confined_euid k y : confined k y → p_euid y ≠ 0 ∧ p_euid y ∈ [p_uid x; p_euid x].
Proof using Hu He. intros [_ [_ _ [-> | ->] _ _ _ _] _ _ _ _]; split; set_solver. Qed.

Lemma hash_ok_put s t z z' : hash_ok s H → procs s !! t = Some z → p_pid z' = p_pid z → p_hash_next z' = p_hash_next z →
  hash_ok (set_procs (<[t := z']> (procs s)) s) H.
Proof using Type.
  intros [H1 H2 H3] Hz Hp Hn. split; [done| |].
  - intros i Hi. destruct (H2 i Hi) as (h & Hh & Hs). exists h. split; [done|]. eapply slist_ext; [|exact Hs].
    intros q _. unfold hlink. simpl. destruct (decide (q = t)) as [->|]; [by rewrite lookup_insert_eq, Hz|by rewrite lookup_insert_ne].
  - intros i q Hi Hq. destruct (H3 i q Hi Hq) as (w & Hw & Hm). simpl. destruct (decide (q = t)) as [->|].
    + rewrite lookup_insert_eq. exists z'. split; [done|]. congruence.
    + rewrite lookup_insert_ne by done. by exists w.
Qed.

Lemma confined_put k y t z z' : confined k y → procs (k_sched k) !! t = Some z → no_gain z z' →
  ∃ y', confined (put_proc t z' k) y'.
Proof using Type.
  intros [Hr Hg Hh Hl Hf Hi] Hz Hzz. pose proof (ng_hash _ _ Hzz) as [Hp Hn].
  assert (Hh' : hash_ok (k_sched (put_proc t z' k)) H) by by eapply hash_ok_put.
  destruct (decide (t = p)) as [->|Ht].
  - exists z'. split; try done; [by eapply runs_put|]. rewrite (runs_proc _ _ _ Hr) in Hz. simplify_eq. by etransitivity.
  - exists y. split; try done. destruct Hr as (c & w & Hc & Hc0 & Hw & Hpw & Hp0 & Hy). exists c, w. split_and!; try done.
    simpl. by rewrite lookup_insert_ne.
Qed.
Lemma confined_upd k y t z f : confined k y → procs (k_sched k) !! t = Some z → no_gain z (f z) →
  ∃ k' y', upd_proc t f k = Done (tt, k') ∧ confined k' y'.
Proof using Type.
  intros Hc Hz Hg. destruct (confined_put k y t z (f z) Hc Hz Hg) as [y' Hc'].
  exists (put_proc t (f z) k), y'. split; [by apply upd_proc_Done|done].
Qed.
Lemma confined_inode k y a n g : confined k y → k_inodes k !! a = Some n → in_uid n ∈ [p_uid x; p_euid x] →
  in_uid (g n) = in_uid n → in_gid (g n) = in_gid n →
  ∃ k', mod_inode a g k = Done (tt, k') ∧ confined k' y.
Proof using Type.
  intros [Hr Hg Hh Hl Hf Hi] Hn Hown Hgu Hgg. eexists. split; [by apply mod_inode_Done|]. split; try done.
  intros b m Hm. simpl. destruct (Hi b m Hm) as (m' & Hm' & Ht). destruct (decide (b = a)) as [->|].
  - rewrite lookup_insert_eq. exists (g n). split; [done|]. rewrite Hn in Hm'. injection Hm' as <-. destruct Ht as (Htu & Htg & _).
    split; [congruence|]. split; [congruence|]. intros Hno. rewrite <- Htu in Hno. done.
  - rewrite lookup_insert_ne by done. by exists m'.
Qed.
(** Every descriptor of the process leads to an inode. *)
Hypothesis Hlen : Z.of_nat (length (p_fd_table x)) = MAX_FD.
Hypothesis Hfds : ∀ i a, zget (p_fd_table x) i = Some a → a ≠ 0 →
  ∃ f, k_files k0 !! a = Some f ∧ is_Some (k_inodes k0 !! f_inode f).

Lemma lookup_pid_ok k y pid : confined k y → 0 <= pid < 2 ^ 64 →
  ∃ t, lookup_pid pid k = Done (t, k) ∧ (t = 0 ∨ is_Some (procs (k_sched k) !! t)).
Proof using Type.
  intros [_ _ Hh Hl _ _] Hpid. unfold lookup_pid. unfold bind at 1, gets at 1.
  assert (Hb : 0 <= pid mod PID_HASH_SIZE < PID_HASH_SIZE) by by apply Z.mod_pos_bound.
  destruct (ho_chain _ _ Hh _ Hb) as (h & _ & Hs).
  assert (Hfuel : (length (H (pid mod PID_HASH_SIZE)%Z) < proc_fuel k)%nat).
  { unfold proc_fuel. apply le_n_S. rewrite <- (size_list_to_set (C := gset Z) (H (pid mod PID_HASH_SIZE))) by apply Hs.
    rewrite <- size_dom. apply subseteq_size. intros q Hq. apply elem_of_list_to_set in Hq.
    destruct (ho_pid _ _ Hh _ q Hb Hq) as (w & Hw & _). apply elem_of_dom. by exists w. }
  unfold on_sched, zoom. rewrite (find_process_ok (k_sched k) H _ pid Hh Hl Hpid Hfuel). eexists. split; [by destruct k|].
  destruct (filter _ (H (pid mod PID_HASH_SIZE)%Z)) as [|q l] eqn:Hq; [by left|right]. simpl.
  assert (Hin : q ∈ filter (λ p, pid_of (k_sched k) p = pid) (H (pid mod PID_HASH_SIZE))) by (rewrite Hq; by left).
  apply list_elem_of_filter in Hin as [_ Hin]. destruct (ho_pid _ _ Hh _ q Hb Hin) as (w & Hw & _). by exists w.
Qed.

(** A call that returns and leaves the process confined. *)
Definition stays (m : M (kst FA) Z) (k : kst FA) : Prop := ∃ r k' y, m k = Done (r, k') ∧ confined k' y.

Lemma stays_here k y r m : confined k y → m k = Done (r, k) → stays m k.
Proof using Type. intros Hc Hm. by exists r, k, y. Qed.
Lemma proc_change_stays k y ok f : confined k y → (ok y = true → no_gain y (f y)) → stays (proc_change ok f) k.
Proof using Type.
  intros Hc Hf. pose proof (cf_runs _ _ Hc) as Hr. unfold stays, proc_change. rewrite (with_proc_runs _ _ _ _ _ Hr).
  pose proof (runs_proc _ _ _ Hr) as Hy. mstep (proc_of_Done _ _ _ Hy). destruct (ok y); [|by exists (-1), k, y].
  destruct (confined_upd k y p y f Hc Hy) as (k' & y' & Hrun & Hc'); [by apply Hf|]. mstep Hrun. by exists 0, k', y'.
Qed.

Lemma with_fd_stays k y fd body : confined k y →
  (∀ node n, k_inodes k !! node = Some n → stays (body node) k) → stays (with_fd fd body) k.
Proof using Hfds Hlen.
  intros Hc Hb. pose proof Hc as [Hr [_ _ _ _ _ Htab _] _ _ Hf Hi]. unfold stays, with_fd.
  destruct (fd_get_cases k p y fd Hr) as [(a & Hfd & Ha & Hg)|Hg]; [by rewrite Htab|..]; mstep Hg; [|by exists (-1), k, y].
  destruct (Z.eqb_spec a 0) as [->|Ha0]; [by exists (-1), k, y|]. rewrite Htab in Ha.
  destruct (Hfds fd a Ha Ha0) as (f & Hff & [n Hn]). rewrite <- Hf in Hff. mstep (get_file_Done _ _ _ Hff).
  destruct (Hi _ _ Hn) as (m & Hm & _). exact (Hb _ _ Hm).
Qed.
(** A change of mode or flags that is allowed to the owner only. *)
Lemma own_inode_stays k y node n g : confined k y → k_inodes k !! node = Some n → in_uid n = p_euid y →
  in_uid (g n) = in_uid n → in_gid (g n) = in_gid n → stays (mod_inode node g;;; ret 0) k.
Proof using Hu He.
  intros Hc Hn Hok Hgu Hgg. unfold stays. destruct (confined_euid k y Hc) as [_ Hin]. rewrite <- Hok in Hin.
  destruct (confined_inode k y node n g Hc Hn Hin Hgu Hgg) as (k' & Hrun & Hc'). mstep Hrun. by exists 0, k', y.
Qed.

Lemma setpgid_stays k y pid pgid : confined k y → 0 <= pid < 2 ^ 64 → stays (sys_setpgid pid pgid) k.
Proof using Type.
  intros Hc Hpid. pose proof (cf_runs _ _ Hc) as Hr. unfold stays, sys_setpgid. rewrite (with_proc_runs _ _ _ _ _ Hr).
  pose proof (runs_proc _ _ _ Hr) as Hy. mstep (proc_of_Done _ _ _ Hy).
  assert (Hfin : ∀ t z, procs (k_sched k) !! t = Some z → stays (setpgid_target y pgid t) k).
  { intros t z Hz. unfold stays, setpgid_target. mstep (proc_of_Done _ _ _ Hz). destruct (p_session_leader z); [by exists (-1), k, y|].
    destruct (negb (p_sid z =? p_sid y)); [by exists (-1), k, y|].
    destruct (confined_upd k y t z (λ t, set_p_pgid (if pgid =? 0 then p_pid t else pgid) t) Hc Hz) as (k' & y' & Hrun & Hc');
      [split; auto|]. mstep Hrun. by exists 0, k', y'. }
  destruct ((pid =? 0) || (pid =? p_pid y)); [by apply (Hfin p y)|].
  destruct (lookup_pid_ok k y pid Hc Hpid) as (t & Hl & Ht). mstep Hl.
  destruct (Z.eqb_spec t 0); [by exists (-1), k, y|]. destruct Ht as [?|[z Hz]]; [done|]. mstep (proc_of_Done _ _ _ Hz).
  destruct (negb (p_parent z =? p)); [by exists (-1), k, y|]. by apply (Hfin t z).
Qed.

Lemma cred_call_stays k y c : confined k y → stays (run_cred_call c) k.
Proof using Hu He Hfds Hlen.
  intros Hc. pose proof (cf_runs _ _ Hc) as Hr. destruct (confined_euid k y Hc) as [He' _].
  pose proof (proj2 (Z.eqb_neq _ _) He') as Heb. pose proof (proc_of_Done _ _ _ (runs_proc _ _ _ Hr)) as Hpo.
  destruct c as [u|u|g|g|size list| |pid pgid|fd o g|fd m|fd f]; unfold run_cred_call.
  - apply (proc_change_stays k y); [done|congruence].
  - apply (proc_change_stays k y); [done|]. rewrite Heb. intros ->%Z.eqb_eq. split; auto.
  - apply (proc_change_stays k y); [done|congruence].
  - apply (proc_change_stays k y); [done|]. rewrite Heb. intros ->%Z.eqb_eq. split; auto.
  - apply (stays_here k y (-1)); [done|]. unfold sys_setgroups. rewrite (with_proc_runs _ _ _ _ _ Hr). mstep Hpo. by rewrite Heb.
  - unfold stays, sys_setsid. rewrite (with_proc_runs _ _ _ _ _ Hr). mstep Hpo. destruct (_ || _); [by exists (-1), k, y|].
    edestruct (confined_upd k y p y) as (k' & y' & Hrun & Hc'); [done|by apply runs_proc| |mstep Hrun; by eexists _, k', y'].
    split; auto.
  - apply (setpgid_stays k y); [done|]. by apply Z.mod_pos_bound.
  - unfold stays, sys_fchown. rewrite (with_proc_runs _ _ _ _ _ Hr). apply (with_fd_stays k y); [done|]. intros node n Hn.
    apply (stays_here k y (-1)); [done|]. mstep Hpo. by rewrite Heb.
  - unfold stays, sys_fchmod. rewrite (with_proc_runs _ _ _ _ _ Hr). apply (with_fd_stays k y); [done|]. intros node n Hn.
    unfold stays. mstep Hpo. mstep (get_inode_Done _ _ _ Hn). rewrite Heb. cbn [negb andb].
    destruct (Z.eqb_spec (in_uid n) (p_euid y)) as [Hown|]; [|by exists (-1), k, y].
    by apply (own_inode_stays k y node n (chmod_inode m)).
  - unfold stays, sys_fchflags. rewrite (with_proc_runs _ _ _ _ _ Hr). apply (with_fd_stays k y); [done|]. intros node n Hn.
    unfold stays. mstep Hpo. mstep (get_inode_Done _ _ _ Hn). rewrite Heb. cbn [negb].
    destruct (Z.eqb_spec (in_uid n) (p_euid y)) as [Hown|]; [|by exists (-1), k, y]. cbn [negb].
    destruct (negb _); [by exists (-1), k, y|]. by apply (own_inode_stays k y node n (chflags_inode f)).
Qed.
Lemma cred_calls_stay l : ∀ k y, confined k y → ∃ k' y', run_cred_calls l k = Done (tt, k') ∧ confined k' y'.
Proof using Hu He Hfds Hlen.
  induction l as [|c l IH]; intros k y Hc; [by exists k, y|]. cbn [run_cred_calls].
  destruct (cred_call_stays k y c Hc) as (r & k1 & y1 & Hrun & Hc1). mstep Hrun. by apply (IH k1 y1).
Qed.
End calls.

(** C23: a process without privileges cannot gain any by these calls.  Take a
    process whose real and effective user are not root, and any sequence of
    [setuid], [seteuid], [setgid], [setegid], [setgroups], [setsid], [setpgid],
    [fchown], [fchmod] and [fchflags] calls with any arguments.  All of them
    return; at the end the process has the same real user and group and the same
    supplementary groups, its effective ids are among those it had, no file has
    changed its owner or group, and a file of another user is as it was. *)
Theorem unprivileged_confined {FA} `{!FrameAllocator FA} (k : kst FA) p x H l :
  runs k p x → p_uid x ≠ 0 → p_euid x ≠ 0 → hash_ok (k_sched k) H → sched_lock (k_sched k) = false →
  Z.of_nat (length (p_fd_table x)) = MAX_FD →
  (∀ i a, zget (p_fd_table x) i = Some a → a ≠ 0 → ∃ f, k_files k !! a = Some f ∧ is_Some (k_inodes k !! f_inode f)) →
  ∃ k' y, run_cred_calls l k = Done (tt, k') ∧ runs k' p y ∧ no_gain x y ∧ p_euid y ≠ 0 ∧
    ∀ a n, k_inodes k !! a = Some n → ∃ m, k_inodes k' !! a = Some m ∧ touched [p_uid x; p_euid x] n m.
Proof.
  intros Hr Hu He Hh Hl Hlen Hfds. destruct (cred_calls_stay k p x H Hu He Hlen Hfds l k x) as (k' & y & Hrun & Hc).
  - split; try done. intros a n Hn. by exists n.
  - exists k', y. pose proof (confined_euid k p x H Hu He k' y Hc) as [He' _]. by destruct Hc.
Qed.

(** ** Witness *)

Definition ex_user : process := ex_process 1000 1000 1000 1000 (70 :: replicate 1023 0) None.
Definition ex_user_kst : kst pmm := ex_kst ex_user {[64 := ex_inode 1000 0 0x1A4 100]} {[70 := mk_file 64 0 0 1]} ex_vfs.

Lemma ex_user_hash : hash_ok (k_sched ex_user_kst) (λ i, if decide (i = 1) then [11] else []).
Proof.
  split; [done| |].
  - intros i Hi. change (pid_hash (k_sched ex_user_kst)) with (<[1%nat := 11]> (replicate 1024 0)).
    exists (if decide (i = 1) then 11 else 0). split.
    + change (<[1%nat := 11]> (replicate 1024 0)) with (<[Z.to_nat 1 := 11]> (replicate 1024 0)).
      rewrite zget_insert by (rewrite ?length_replicate; lia). repeat case_decide; try done; try lia.
      unfold zget. rewrite decide_True by lia. apply lookup_replicate. unfold PID_HASH_SIZE in Hi. lia.
    + case_decide; split; simpl; try done; try (by apply NoDup_singleton); try (by apply NoDup_nil); set_solver.
  - intros i q Hi Hq. case_decide; [|by apply not_elem_of_nil in Hq]. apply list_elem_of_singleton in Hq as ->. subst. by exists ex_user.
Qed.
Lemma unprivileged_confined_witness : ∃ k' y,
  run_cred_calls [Fchmod 0 0x1FF; Setuid 0; Seteuid 0; Fchown 0 0 0; Setsid] ex_user_kst = Done (tt, k') ∧ runs k' 11 y ∧ p_euid y ≠ 0.
Proof.
  destruct (unprivileged_confined ex_user_kst 11 ex_user _ [Fchmod 0 0x1FF; Setuid 0; Seteuid 0; Fchown 0 0 0; Setsid]
    (ex_runs _ _ _ _) ltac:(done) ltac:(done) ex_user_hash) as (k' & y & H1 & H2 & _ & H3 & _); [done|by vm_compute| |by exists k', y].
  intros i a Ha Ha0. unfold zget in Ha. case_decide; [|done]. destruct (Z.to_nat i) as [|j]; [injection Ha as <-|].
  - exists (mk_file 64 0 0 1). split; [done|by eexists].
  - change (replicate 1023 0 !! j = Some a) in Ha. apply lookup_replicate in Ha as [-> _]. done.
Defined.
