(* ===== verification/Pipe.v ===== *)
(** Pipes, [kernel/syscalls/pipe.c].  A read or a write waits in a loop; one
    pass of the loop is an operation that returns [None] when it has put the
    task to sleep, on the mutex or on the queue of the pipe, and is run again when
    the task is given the CPU. *)
From S2P Require Export Fd.
Local Open Scope prog_scope.

Definition PIPE_BUF_SIZE : Z := 4096.

Definition set_pi_buffer v p := mk_pipe v (pi_read_pos p) (pi_write_pos p) (pi_count p) (pi_readers p)
  (pi_writers p) (pi_lock p) (pi_read_wait p) (pi_write_wait p).
Definition set_pi_read_pos v p := mk_pipe (pi_buffer p) v (pi_write_pos p) (pi_count p) (pi_readers p)
  (pi_writers p) (pi_lock p) (pi_read_wait p) (pi_write_wait p).
Definition set_pi_write_pos v p := mk_pipe (pi_buffer p) (pi_read_pos p) v (pi_count p) (pi_readers p)
  (pi_writers p) (pi_lock p) (pi_read_wait p) (pi_write_wait p).
Definition set_pi_count v p := mk_pipe (pi_buffer p) (pi_read_pos p) (pi_write_pos p) v (pi_readers p)
  (pi_writers p) (pi_lock p) (pi_read_wait p) (pi_write_wait p).
Definition set_pi_readers v p := mk_pipe (pi_buffer p) (pi_read_pos p) (pi_write_pos p) (pi_count p) v
  (pi_writers p) (pi_lock p) (pi_read_wait p) (pi_write_wait p).
Definition set_pi_writers v p := mk_pipe (pi_buffer p) (pi_read_pos p) (pi_write_pos p) (pi_count p) (pi_readers p)
  v (pi_lock p) (pi_read_wait p) (pi_write_wait p).
Definition set_pi_lock v p := mk_pipe (pi_buffer p) (pi_read_pos p) (pi_write_pos p) (pi_count p) (pi_readers p)
  (pi_writers p) v (pi_read_wait p) (pi_write_wait p).

Section pipe.
Context {FA : Type} `{!FrameAllocator FA} `{!Drivers FA}.
(** The addresses of the two tables of operations. *)
Context (pipe_read_ops pipe_write_ops : Z).

Definition get_pipe (a : Z) : M (kst FA) pipe := λ k, of_opt (k_pipes k !! a) k.
Definition mod_pipe (a : Z) (f : pipe → pipe) : M (kst FA) unit := λ k,
  match k_pipes k !! a with
  | Some x => Done (tt, set_k_pipes (<[a := f x]> (k_pipes k)) k)
  | None => Fault
  end.
Definition new_pipe (a : Z) (x : pipe) : M (kst FA) unit := modify (λ k, set_k_pipes (<[a := x]> (k_pipes k)) k).
Definition kfree_pipe (a : Z) : M (kst FA) unit := modify (λ k, set_k_pipes (delete a (k_pipes k)) k).
(** An operation on the mutex of pipe [a]. *)
Definition on_pipe_lock {A} (a : Z) (m : M (sched * mutex) A) : M (kst FA) A := λ k,
  match k_pipes k !! a with
  | None => Fault
  | Some x =>
      match m (k_sched k, pi_lock x) with
      | Done (r, (s, l)) => Done (r, set_k_pipes (<[a := set_pi_lock l x]> (k_pipes k)) (set_k_sched s k))
      | Fault => Fault
      | Stuck => Stuck
      end
  end.

Fixpoint pipe_out (n : nat) (a i buffer : Z) : M (kst FA) unit :=
  match n with
  | O => ret tt
  | S n' =>
      x <- get_pipe a;;
      b <- of_opt (zget (pi_buffer x) (pi_read_pos x));;
      kwrite (buffer + i) b;;;
      mod_pipe a (set_pi_read_pos ((pi_read_pos x + 1) mod PIPE_BUF_SIZE));;;
      pipe_out n' a (i + 1) buffer
  end.
Definition pipe_read_pass (node offset size buffer : Z) : M (kst FA) (option Z) :=
  n <- get_inode node;;
  let a := in_ptr n in
  if a =? 0 then ret (Some 0)
  else
    got <- on_pipe_lock a mutex_acquire_pass;;
    if negb got then ret None
    else
      x <- get_pipe a;;
      if (pi_count x =? 0) && (0 <? pi_writers x) then
        on_pipe_lock a mutex_release;;;
        on_sched (sleep_on (pi_read_wait x) (ret tt));;;
        ret None
      else if (pi_count x =? 0) && (pi_writers x =? 0) then
        on_pipe_lock a mutex_release;;;
        ret (Some 0)
      else
        let to_read := if pi_count x <? size then pi_count x else size in
        pipe_out (Z.to_nat to_read) a 0 buffer;;;
        mod_pipe a (λ x, set_pi_count (pi_count x - to_read) x);;;
        on_sched (wake_up (pi_write_wait x));;;
        on_pipe_lock a mutex_release;;;
        ret (Some to_read).

Fixpoint pipe_in (n : nat) (a i buffer : Z) : M (kst FA) unit :=
  match n with
  | O => ret tt
  | S n' =>
      x <- get_pipe a;;
      b <- kread (buffer + i);;
      l <- of_opt (zset (pi_buffer x) (pi_write_pos x) b);;
      mod_pipe a (set_pi_buffer l);;;
      mod_pipe a (set_pi_write_pos ((pi_write_pos x + 1) mod PIPE_BUF_SIZE));;;
      pipe_in n' a (i + 1) buffer
  end.
(** [signal_send(current_task->proc, SIGPIPE)]. *)
Definition send_sigpipe : M (kst FA) unit :=
  t <- gets (λ k, current_task (k_sched k));;
  x <- on_sched (get_task t);;
  signal_send (t_proc x) SIGPIPE;;; ret tt.
Definition pipe_write_pass (node offset size buffer : Z) : M (kst FA) (option Z) :=
  n <- get_inode node;;
  let a := in_ptr n in
  if a =? 0 then ret (Some 0)
  else
    got <- on_pipe_lock a mutex_acquire_pass;;
    if negb got then ret None
    else
      x <- get_pipe a;;
      if pi_readers x =? 0 then
        on_pipe_lock a mutex_release;;;
        send_sigpipe;;;
        ret (Some (u64 (-1)))
      else if (pi_count x =? PIPE_BUF_SIZE) && (0 <? pi_readers x) then
        on_pipe_lock a mutex_release;;;
        on_sched (sleep_on (pi_write_wait x) (ret tt));;;
        ret None
      else
        let available := u64 (PIPE_BUF_SIZE - pi_count x) in
        if available =? 0 then on_pipe_lock a mutex_release;;; ret (Some 0)
        else
          let to_write := if available <? size then available else size in
          pipe_in (Z.to_nat to_write) a 0 buffer;;;
          mod_pipe a (λ x, set_pi_count (pi_count x + to_write) x);;;
          on_sched (wake_up (pi_read_wait x));;;
          on_pipe_lock a mutex_release;;;
          ret (Some to_write).

(** The end of the two [close] operations. *)
Definition pipe_drop (a : Z) : M (kst FA) bool :=
  x <- get_pipe a;;
  on_pipe_lock a mutex_release;;;
  (if (pi_readers x <=? 0) && (pi_writers x <=? 0) then kfree_pipe a else ret tt);;;
  ret true.
Definition pipe_close_read (node : Z) : M (kst FA) bool :=
  n <- get_inode node;;
  let a := in_ptr n in
  if a =? 0 then ret true
  else
    got <- on_pipe_lock a mutex_acquire_pass;;
    if negb got then ret false
    else
      mod_pipe a (λ x, set_pi_readers (i32 (pi_readers x - 1)) x);;;
      x <- get_pipe a;;
      on_sched (wake_up (pi_write_wait x));;;
      pipe_drop a.
Definition pipe_close_write (node : Z) : M (kst FA) bool :=
  n <- get_inode node;;
  let a := in_ptr n in
  if a =? 0 then ret true
  else
    got <- on_pipe_lock a mutex_acquire_pass;;
    if negb got then ret false
    else
      mod_pipe a (λ x, set_pi_writers (i32 (pi_writers x - 1)) x);;;
      x <- get_pipe a;;
      on_sched (wake_up (pi_read_wait x));;;
      pipe_drop a.

Definition pipe_create_endpoint (a : Z) (is_write : bool) : M (kst FA) Z :=
  node <- kalloc;;
  if node =? 0 then ret 0
  else
    new_inode node (mk_inode ([112; 105; 112; 101; 95] ++ [if is_write then 119 else 114])
      (Z.lor FS_FILE FS_TEMPORARY) 0 0 (Z.lor S_IRUSR S_IWUSR) 0 0 0
      (if is_write then pipe_write_ops else pipe_read_ops) a 1 0 0 no_info);;;
    ret node.

(** The fields of [pipe_t] that are wait queues. *)
Definition lock_wait_of (a : Z) : Z := a + 4136.
Definition read_wait_of (a : Z) : Z := a + 4144.
Definition write_wait_of (a : Z) : Z := a + 4152.

(** [sys_pipe]: the pipe and its two ends. *)
Definition pipe_objects : M (kst FA) (option (Z * Z * Z)) :=
  a <- kalloc;;
  if a =? 0 then ret None
  else
    new_pipe a (mk_pipe (replicate (Z.to_nat PIPE_BUF_SIZE) 0) 0 0 0 1 1 (mk_mutex false false (lock_wait_of a))
      (read_wait_of a) (write_wait_of a));;;
    on_sched (put_wq (read_wait_of a) 0);;;
    on_sched (put_wq (write_wait_of a) 0);;;
    on_pipe_lock a (mutex_init (lock_wait_of a));;;
    read_end <- pipe_create_endpoint a false;;
    write_end <- pipe_create_endpoint a true;;
    if (read_end =? 0) || (write_end =? 0) then
      (if negb (read_end =? 0) then kfree_inode read_end else ret tt);;;
      (if negb (write_end =? 0) then kfree_inode write_end else ret tt);;;
      kfree_pipe a;;;
      ret None
    else ret (Some (a, read_end, write_end)).
(** [sys_pipe]: a descriptor for one end.  A full table makes [fd_alloc] return
    -1, and the store to [fd_table[-1]], which comes before the test, faults
    here; in memory it overwrites [mm]. *)
Definition pipe_fd (p node : Z) : M (kst FA) Z :=
  fd <- fd_alloc;;
  f <- file_new node 1;;
  write_fd p fd f;;;
  ret fd.
Definition sys_pipe (fd : Z) : M (kst FA) Z :=
  with_proc (-1) (λ p,
    o <- pipe_objects;;
    match o with
    | None => ret (-1)
    | Some (a, read_end, write_end) =>
        fd0 <- pipe_fd p read_end;;
        if fd0 <? 0 then kfree_inode read_end;;; kfree_inode write_end;;; kfree_pipe a;;; ret (-1)
        else
          fd1 <- pipe_fd p write_end;;
          if fd1 <? 0 then fd_free fd0;;; kfree_inode write_end;;; kfree_pipe a;;; ret (-1)
          else
            r <- copy_bytes_to_user fd (le_bytes 4 fd0 ++ le_bytes 4 fd1);;
            if negb (r =? 0) then fd_free fd0;;; fd_free fd1;;; ret (-1)
            else ret 0
    end).
End pipe.

(** ** The ring buffer as a queue *)

(** The bytes in the pipe, the oldest first. *)
Record pipe_holds (x : pipe) (q : list Z) : Prop := mk_pipe_holds {
  ph_len : Z.of_nat (length (pi_buffer x)) = PIPE_BUF_SIZE;
  ph_read : 0 <= pi_read_pos x < PIPE_BUF_SIZE;
  ph_write : pi_write_pos x = (pi_read_pos x + Z.of_nat (length q)) mod PIPE_BUF_SIZE;
  ph_count : pi_count x = Z.of_nat (length q) ∧ Z.of_nat (length q) <= PIPE_BUF_SIZE;
  ph_bytes : ∀ i v, 0 <= i → q !! Z.to_nat i = Some v → zget (pi_buffer x) ((pi_read_pos x + i) mod PIPE_BUF_SIZE) = Some v;
}.
Definition free_mutex (m : mutex) : Prop := mx_lock m = false ∧ mx_locked m = false.

Section facts.
Context {FA : Type} `{!FrameAllocator FA}.
Implicit Types k : kst FA.

(** State [k] with pipe [a], the scheduler and the memory replaced. *)
Definition pst k (a : Z) (x : pipe) (s : sched) (m : mem) : kst FA :=
  set_kram m (set_k_pipes (<[a := x]> (k_pipes k)) (set_k_sched s k)).

Lemma get_pipe_pst k a x s m : get_pipe a (pst k a x s m) = Done (x, pst k a x s m).
Proof using Type. unfold get_pipe, pst. cbn. by rewrite lookup_insert_eq. Qed.
Lemma mod_pipe_pst k a x s m f : mod_pipe a f (pst k a x s m) = Done (tt, pst k a (f x) s m).
Proof using Type. unfold mod_pipe, pst. cbn. rewrite lookup_insert_eq. unfold set_k_pipes. cbn. by rewrite insert_insert_eq. Qed.
Lemma on_sched_pst {A} k a x s m s' (op : M sched A) r : op s = Done (r, s') →
  on_sched op (pst k a x s m) = Done (r, pst k a x s' m).
Proof using Type. intros H. unfold on_sched, zoom, pst. cbn. rewrite H. done. Qed.
Lemma on_pipe_lock_pst {A} k a x s m s' l (op : M (sched * mutex) A) r : op (s, pi_lock x) = Done (r, (s', l)) →
  on_pipe_lock a op (pst k a x s m) = Done (r, pst k a (set_pi_lock l x) s' m).
Proof using Type.
  intros H. unfold on_pipe_lock, pst. cbn. rewrite lookup_insert_eq, H. unfold set_k_pipes, set_k_sched, set_kram. cbn.
  by rewrite insert_insert_eq.
Qed.
Lemma pst_same k a x : k_pipes k !! a = Some x → pst k a x (k_sched k) (kram k) = k.
Proof using Type.
  intros H. unfold pst. change (kram k) with (kram (set_k_pipes (<[a:=x]> (k_pipes k)) (set_k_sched (k_sched k) k))).
  rewrite set_kram_id. rewrite insert_id by done. by destruct k.
Qed.

(** [n] rounds of the copying loop of [pipe_read]. *)
Lemma pipe_out_steps k a s m0 val dst buf rp : ∀ c i x m, 0 <= i → pi_read_pos x = (rp + i) mod PIPE_BUF_SIZE →
  (∀ j, i <= j < i + Z.of_nat c → zget (pi_buffer x) ((rp + j) mod PIPE_BUF_SIZE) = Some (val j)) →
  (∀ j, 0 <= j → V2P (buf + j) = dst j) → (∀ j j', dst j = dst j' → j = j') → wrote val dst i m0 m →
  ∃ m', pipe_out c a i buf (pst k a x s m) = Done (tt, pst k a (set_pi_read_pos ((rp + (i + Z.of_nat c)) mod PIPE_BUF_SIZE) x) s m') ∧
    wrote val dst (i + Z.of_nat c) m0 m'.
Proof using Type.
  induction c as [|c IH]; intros i x m Hi Hrp Hv Hd Hinj Hw.
  { exists m. rewrite Z.add_0_r, <- Hrp. split; [by destruct x|done]. }
  cbn [pipe_out]. mstep (get_pipe_pst k a x s m). rewrite Hrp, (Hv i) by lia. erewrite bind_Done by reflexivity.
  unfold bind at 1, kwrite, modify at 1. change (kram (pst k a x s m)) with m. rewrite Hd by lia.
  change (set_kram (upd m (dst i) (val i)) (pst k a x s m)) with (pst k a x s (upd m (dst i) (val i))).
  mstep (mod_pipe_pst k a x s (upd m (dst i) (val i)) (set_pi_read_pos (((rp + i) mod PIPE_BUF_SIZE + 1) mod PIPE_BUF_SIZE))).
  set (x' := set_pi_read_pos _ x).
  destruct (IH (i + 1) x' (upd m (dst i) (val i))) as (m' & Hrun & Hw'); [lia| |..]; try done.
  - simpl. rewrite Zplus_mod_idemp_l. f_equal. lia.
  - intros j Hj. apply Hv. lia.
  - apply wrote_snoc; [done|done|]. intros j Hj Heq. apply Hinj in Heq. lia.
  - exists m'. replace (i + Z.of_nat (S c)) with (i + 1 + Z.of_nat c) by lia. done.
Qed.

(** The same for [pipe_write]. *)
Lemma pipe_in_steps k a s m buf wp : ∀ c i x, 0 <= i → pi_write_pos x = (wp + i) mod PIPE_BUF_SIZE →
  Z.of_nat (length (pi_buffer x)) = PIPE_BUF_SIZE → Z.of_nat c <= PIPE_BUF_SIZE →
  ∃ B, pipe_in c a i buf (pst k a x s m) =
      Done (tt, pst k a (set_pi_write_pos ((wp + (i + Z.of_nat c)) mod PIPE_BUF_SIZE) (set_pi_buffer B x)) s m) ∧
    length B = length (pi_buffer x) ∧
    (∀ j, i <= j < i + Z.of_nat c → zget B ((wp + j) mod PIPE_BUF_SIZE) = Some (m (V2P (buf + j)))) ∧
    (∀ y, 0 <= y → (∀ j, i <= j < i + Z.of_nat c → y ≠ (wp + j) mod PIPE_BUF_SIZE) → zget B y = zget (pi_buffer x) y).
Proof using Type.
  induction c as [|c IH]; intros i x Hi Hwp Hlen Hc.
  { exists (pi_buffer x). rewrite Z.add_0_r, <- Hwp. split; [by destruct x|]. split; [done|]. split; [lia|done]. }
  assert (Hpos : 0 <= (wp + i) mod PIPE_BUF_SIZE < PIPE_BUF_SIZE) by by apply Z.mod_pos_bound.
  cbn [pipe_in]. mstep (get_pipe_pst k a x s m). unfold bind at 1, kread, gets at 1. change (kram (pst k a x s m)) with m.
  rewrite Hwp, zset_is_Some by (rewrite Hlen; done). erewrite bind_Done by reflexivity. set (v := m (V2P (buf + i))).
  set (B0 := <[_ := v]> (pi_buffer x)). mstep (mod_pipe_pst k a x s m (set_pi_buffer B0)).
  mstep (mod_pipe_pst k a (set_pi_buffer B0 x) s m (set_pi_write_pos (((wp + i) mod PIPE_BUF_SIZE + 1) mod PIPE_BUF_SIZE))).
  set (x' := set_pi_write_pos _ _). assert (HB0 : length B0 = length (pi_buffer x)) by apply length_insert.
  destruct (IH (i + 1) x') as (B & Hrun & HlB & Hin & Hout); [lia| | |lia|].
  - simpl. rewrite Zplus_mod_idemp_l. f_equal. lia.
  - simpl. by rewrite HB0.
  - exists B. replace (i + Z.of_nat (S c)) with (i + 1 + Z.of_nat c) by lia. split; [done|].
    split; [simpl in HlB; congruence|]. simpl in Hout. split.
    + intros j Hj. destruct (decide (j = i)) as [->|]; [|apply Hin; lia]. rewrite Hout; [|lia|].
      * unfold B0. rewrite zget_insert, decide_True by lia. done.
      * intros j' Hj' Heq. apply mod_inj in Heq; lia.
    + intros y Hy Hne. rewrite Hout; [|done|intros j Hj; apply Hne; lia]. unfold B0. rewrite zget_insert by lia.
      rewrite decide_False; [done|]. intros Heq. apply (Hne i); [lia|done].
Qed.

(** The mutex of the pipe, and then the waiters. *)
Lemma lock_pst k a x s m : free_mutex (pi_lock x) →
  on_pipe_lock a mutex_acquire_pass (pst k a x s m) = Done (true, pst k a (set_pi_lock (set_mx_locked true (pi_lock x)) x) s m).
Proof using Type. intros [H1 H2]. by apply on_pipe_lock_pst, mutex_acquire_free. Qed.
Lemma lock_here k a x : k_pipes k !! a = Some x → free_mutex (pi_lock x) →
  on_pipe_lock a mutex_acquire_pass k = Done (true, pst k a (set_pi_lock (set_mx_locked true (pi_lock x)) x) (k_sched k) (kram k)).
Proof using Type. intros Hx Hf. pose proof (lock_pst k a x (k_sched k) (kram k) Hf) as H. by rewrite (pst_same k a x Hx) in H. Qed.
Lemma wake_pst k a x s m Q W q : sync_ok s Q W →
  ∃ s' Q', on_sched (wake_up q) (pst k a x s m) = Done (tt, pst k a x s' m) ∧ sync_ok s' Q' (woken_queue W q) ∧ calm s s'.
Proof using Type.
  intros Hs. destruct (wake_up_sync s Q W q Hs) as (s' & Q' & Hrun & Hs' & Hc & _). exists s', Q'. by rewrite (on_sched_pst _ _ _ _ _ _ _ _ Hrun).
Qed.
Lemma unlock_pst k a x s m Q W : sync_ok s Q W → mx_lock (pi_lock x) = false →
  ∃ s' Q', on_pipe_lock a mutex_release (pst k a x s m) = Done (tt, pst k a (set_pi_lock (set_mx_locked false (pi_lock x)) x) s' m) ∧
    sync_ok s' Q' (woken_queue W (mx_wait_list (pi_lock x))) ∧ calm s s'.
Proof using Type.
  intros Hs Hl. destruct (mutex_release_ok s (pi_lock x) Q W Hs Hl) as (s' & Q' & Hrun & Hs' & Hc & _). exists s', Q'.
  by rewrite (on_pipe_lock_pst _ _ _ _ _ _ _ _ _ Hrun).
Qed.

Lemma holds_read x q r : pipe_holds x q → 0 <= r <= Z.of_nat (length q) →
  pipe_holds (set_pi_count (pi_count x - r) (set_pi_read_pos ((pi_read_pos x + r) mod PIPE_BUF_SIZE) x)) (drop (Z.to_nat r) q).
Proof using Type.
  intros [Hl Hr Hw [Hc Hc'] Hb] Hrr. split; simpl.
  - done.
  - by apply Z.mod_pos_bound.
  - rewrite Hw, length_drop, Zplus_mod_idemp_l. f_equal. lia.
  - rewrite length_drop. lia.
  - intros i v Hi Hv. rewrite lookup_drop in Hv. rewrite Zplus_mod_idemp_l, <- Z.add_assoc. apply Hb; [lia|].
    by replace (Z.to_nat (r + i)) with (Z.to_nat r + Z.to_nat i)%nat by lia.
Qed.
Lemma holds_write x q B new : pipe_holds x q → Z.of_nat (length q + length new) <= PIPE_BUF_SIZE → length B = length (pi_buffer x) →
  let r := Z.of_nat (length new) in
  (∀ j v, 0 <= j → new !! Z.to_nat j = Some v → zget B ((pi_write_pos x + j) mod PIPE_BUF_SIZE) = Some v) →
  (∀ y, 0 <= y → (∀ j, 0 <= j < r → y ≠ (pi_write_pos x + j) mod PIPE_BUF_SIZE) → zget B y = zget (pi_buffer x) y) →
  pipe_holds (set_pi_count (pi_count x + r) (set_pi_write_pos ((pi_write_pos x + r) mod PIPE_BUF_SIZE) (set_pi_buffer B x))) (q ++ new).
Proof using Type.
  intros [Hl Hr Hw [Hc Hc'] Hb] Hfit HB r Hin Hout. split; cbn [pi_buffer pi_read_pos pi_write_pos pi_count set_pi_count set_pi_write_pos set_pi_buffer].
  - by rewrite HB.
  - done.
  - rewrite Hw, length_app, Zplus_mod_idemp_l. f_equal. lia.
  - rewrite length_app. lia.
  - intros i v Hi Hv. apply lookup_app_Some in Hv as [Hv|[Hge Hv]].
    + rewrite Hout; [by apply Hb|by apply Z.mod_pos_bound|]. intros j Hj Heq. rewrite Hw, Zplus_mod_idemp_l, <- Z.add_assoc in Heq.
      apply lookup_lt_Some in Hv. symmetry in Heq. assert (Heq' := Heq). symmetry in Heq'. apply mod_inj in Heq'; unfold PIPE_BUF_SIZE in *; lia.
    + rewrite <- (Hin (i - Z.of_nat (length q)) v); [|lia|]; [|by rewrite <- Hv; f_equal; lia].
      f_equal. rewrite Hw, Zplus_mod_idemp_l. f_equal. lia.
Qed.

(** Node [node] is an end of pipe [a]; nobody holds the mutex. *)
Record pipe_at k (node a : Z) (x : pipe) (q : list Z) : Prop := mk_pipe_at {
  pa_node : ∃ n, k_inodes k !! node = Some n ∧ in_ptr n = a;
  pa_nonnull : a ≠ 0;
  pa_pipe : k_pipes k !! a = Some x;
  pa_holds : pipe_holds x q;
  pa_free : free_mutex (pi_lock x);
  pa_sched : ∃ Q W, sync_ok (k_sched k) Q W;
}.
Lemma pst_at k node a x q x' s m q' Q W : pipe_at k node a x q → pipe_holds x' q' → free_mutex (pi_lock x') → sync_ok s Q W →
  pipe_at (pst k a x' s m) node a x' q'.
Proof using Type. intros [Hn Ha _ _ _ _] Hh Hf Hs. split; try done; [apply lookup_insert_eq|by exists Q, W]. Qed.

Lemma pipe_read_ok k node a x q off size buf : pipe_at k node a x q → q ≠ [] → 0 <= size → PHYS_OFFSET <= buf →
  let r := Z.min size (Z.of_nat (length q)) in
  ∃ k' x', pipe_read_pass node off size buf k = Done (Some r, k') ∧ pipe_at k' node a x' (drop (Z.to_nat r) q) ∧
    pi_readers x' = pi_readers x ∧ pi_writers x' = pi_writers x ∧
    wrote (λ i, nth (Z.to_nat i) q 0) (λ i, V2P buf + i) r (kram k) (kram k').
Proof using Type*.
  intros Hat Hq Hsize Hbuf r. pose proof Hat as [[n [Hn Hna]] Ha Hx Hh Hf (Q & W & Hs)]. pose proof Hh as [Hl Hr Hw [Hc Hc'] Hb].
  assert (Hq0 : 0 < Z.of_nat (length q)) by (destruct q; [done|simpl; lia]).
  unfold pipe_read_pass. mstep (get_inode_Done _ _ _ Hn). rewrite Hna. cbv zeta. rewrite (proj2 (Z.eqb_neq a 0)) by done.
  mstep (lock_here k a x Hx Hf). cbn [negb]. set (x1 := set_pi_lock _ x).
  mstep (get_pipe_pst k a x1 (k_sched k) (kram k)). change (pi_count x1) with (pi_count x).
  rewrite (proj2 (Z.eqb_neq (pi_count x) 0)) by lia. cbn [andb].
  assert ((if pi_count x <? size then pi_count x else size) = r) as -> by (unfold r; rewrite Hc; destruct (Z.ltb_spec (Z.of_nat (length q)) size); lia).
  destruct (pipe_out_steps k a (k_sched k) (kram k) (λ i, nth (Z.to_nat i) q 0) (λ i, V2P buf + i) buf (pi_read_pos x) (Z.to_nat r) 0 x1 (kram k))
    as (m & Hout & Hm); [lia| | | |intros; lia|apply wrote_0|].
  - rewrite Z.add_0_r. symmetry. by apply Z.mod_small.
  - intros j Hj. apply Hb; [lia|]. destruct (lookup_lt_is_Some_2 q (Z.to_nat j)) as [v Hv]; [lia|]. rewrite Hv. f_equal.
    symmetry. by apply nth_lookup_Some.
  - intros j Hj. unfold V2P. rewrite !(proj2 (Z.leb_le _ _)) by lia. lia.
  - rewrite !Z.add_0_l, Z2Nat.id in Hout, Hm by lia. mstep Hout. set (x2 := set_pi_read_pos _ x1).
    mstep (mod_pipe_pst k a x2 (k_sched k) m (λ x, set_pi_count (pi_count x - r) x)). set (x3 := set_pi_count _ x2).
    destruct (wake_pst k a x3 (k_sched k) m Q W (pi_write_wait x1) Hs) as (s' & Q' & Hwk & Hs' & _). mstep Hwk.
    destruct (unlock_pst k a x3 s' m _ _ Hs') as (s2 & Q2 & Hul & Hs2 & _); [by destruct Hf|]. mstep Hul.
    eexists _, (set_pi_lock (set_mx_locked false (pi_lock x3)) x3). split; [reflexivity|]. split; [|done]. eapply pst_at; [done| |by destruct Hf|done].
    destruct (holds_read x q r Hh) as [H1 H2 H3 H4 H5]; [lia|]. by split.
Qed.

Lemma pipe_write_ok k node a x q off size buf : pipe_at k node a x q → Z.of_nat (length q) < PIPE_BUF_SIZE → pi_readers x ≠ 0 →
  0 <= size → PHYS_OFFSET <= buf →
  let r := Z.min size (PIPE_BUF_SIZE - Z.of_nat (length q)) in
  ∃ k' x', pipe_write_pass node off size buf k = Done (Some r, k') ∧ pipe_at k' node a x' (q ++ bytes_at (kram k) (V2P buf) (Z.to_nat r)) ∧
    pi_readers x' = pi_readers x ∧ pi_writers x' = pi_writers x ∧ kram k' = kram k.
Proof using Type*.
  intros Hat Hq Hrd Hsize Hbuf r. pose proof Hat as [[n [Hn Hna]] Ha Hx Hh Hf (Q & W & Hs)]. pose proof Hh as [Hl Hr Hw [Hc Hc'] Hb].
  unfold pipe_write_pass. mstep (get_inode_Done _ _ _ Hn). rewrite Hna. cbv zeta. rewrite (proj2 (Z.eqb_neq a 0)) by done.
  mstep (lock_here k a x Hx Hf). cbn [negb]. set (x1 := set_pi_lock _ x).
  mstep (get_pipe_pst k a x1 (k_sched k) (kram k)). change (pi_count x1) with (pi_count x). change (pi_readers x1) with (pi_readers x).
  rewrite (proj2 (Z.eqb_neq (pi_readers x) 0)) by done. rewrite (proj2 (Z.eqb_neq (pi_count x) PIPE_BUF_SIZE)) by lia. cbn [andb].
  assert (u64 (PIPE_BUF_SIZE - pi_count x) = PIPE_BUF_SIZE - Z.of_nat (length q)) as -> by (rewrite Hc; apply u64_id; unfold PIPE_BUF_SIZE in *; lia).
  rewrite (proj2 (Z.eqb_neq _ 0)) by lia.
  match goal with |- context [if ?b <? size then _ else _] => assert ((if b <? size then b else size) = r) as -> by (unfold r; destruct (Z.ltb_spec b size); lia) end.
  destruct (pipe_in_steps k a (k_sched k) (kram k) buf (pi_write_pos x) (Z.to_nat r) 0 x1) as (B & Hin & HlB & HB1 & HB2);
    [lia| |done|lia|].
  - change (pi_write_pos x1) with (pi_write_pos x). rewrite Z.add_0_r, Hw. symmetry. apply Z.mod_small. by apply Z.mod_pos_bound.
  - rewrite !Z.add_0_l, Z2Nat.id in * by lia. mstep Hin. set (x2 := set_pi_write_pos _ _).
    mstep (mod_pipe_pst k a x2 (k_sched k) (kram k) (λ x, set_pi_count (pi_count x + r) x)). set (x3 := set_pi_count _ x2).
    destruct (wake_pst k a x3 (k_sched k) (kram k) Q W (pi_read_wait x1) Hs) as (s' & Q' & Hwk & Hs' & _). mstep Hwk.
    destruct (unlock_pst k a x3 s' (kram k) _ _ Hs') as (s2 & Q2 & Hul & Hs2 & _); [by destruct Hf|]. mstep Hul.
    eexists _, (set_pi_lock (set_mx_locked false (pi_lock x3)) x3). split; [reflexivity|]. split; [|done]. eapply pst_at; [done| |by destruct Hf|done].
    assert (Hlen : Z.of_nat (length (bytes_at (kram k) (V2P buf) (Z.to_nat r))) = r) by (rewrite bytes_at_length; lia).
    destruct (holds_write x q B (bytes_at (kram k) (V2P buf) (Z.to_nat r)) Hh) as [H1 H2 H3 H4 H5]; [lia|done| | |rewrite Hlen in *; by split].
    + intros j v Hj Hv. pose proof (lookup_lt_Some _ _ _ Hv) as Hjr. rewrite bytes_at_length in Hjr. rewrite bytes_at_lookup in Hv by done.
      injection Hv as <-. rewrite HB1 by lia. unfold V2P. rewrite !(proj2 (Z.leb_le _ _)) by lia. do 2 f_equal. lia.
    + intros y Hy Hne. apply HB2; [done|]. intros j Hj. apply Hne. lia.
Qed.
End facts.

(** C18: a pipe is a bounded queue of bytes.  With [q] the bytes in the pipe,
    the oldest first, and no one inside it: a pass of [pipe_read] on a pipe that
    holds something takes the first [min size |q|] bytes, stores them in the
    buffer and leaves the rest in the queue; a pass of [pipe_write] on a pipe
    that is not full appends as many bytes of the buffer as there is room for; a
    read on an empty pipe without writers returns 0.  In each case the ring
    buffer again represents the new queue, the mutex is free, and the scheduler
    stays in order whichever tasks were woken. *)
Theorem pipe_refines_queue {FA} `{!FrameAllocator FA} (k : kst FA) node a x q off size buf :
  pipe_at k node a x q → 0 <= size → PHYS_OFFSET <= buf →
  let room := PIPE_BUF_SIZE - Z.of_nat (length q) in
  (q ≠ [] → ∃ r k' x', pipe_read_pass node off size buf k = Done (Some r, k') ∧ r = Z.min size (Z.of_nat (length q)) ∧
     pipe_at k' node a x' (drop (Z.to_nat r) q) ∧ wrote (λ i, nth (Z.to_nat i) q 0) (λ i, V2P buf + i) r (kram k) (kram k')) ∧
  (0 < room → pi_readers x ≠ 0 → ∃ r k' x', pipe_write_pass node off size buf k = Done (Some r, k') ∧ r = Z.min size room ∧
     pipe_at k' node a x' (q ++ bytes_at (kram k) (V2P buf) (Z.to_nat r)) ∧ kram k' = kram k) ∧
  (q = [] → pi_writers x = 0 → ∃ k' x', pipe_read_pass node off size buf k = Done (Some 0, k') ∧ pipe_at k' node a x' []).
Proof.
  intros Hat Hsize Hbuf room. split; [|split].
  - intros Hq. destruct (pipe_read_ok k node a x q off size buf Hat Hq Hsize Hbuf) as (k' & x' & H1 & H2 & _ & _ & H3). by eexists _, k', x'.
  - intros Hroom Hrd. destruct (pipe_write_ok k node a x q off size buf) as (k' & x' & H1 & H2 & _ & _ & H3); try done; [unfold room in *; lia|].
    by eexists _, k', x'.
  - intros -> Hwr. pose proof Hat as [[n [Hn Hna]] Ha Hx Hh Hf (Q & W & Hs)]. destruct (ph_count _ _ Hh) as [Hc _].
    unfold pipe_read_pass. mstep (get_inode_Done _ _ _ Hn). rewrite Hna. cbv zeta. rewrite (proj2 (Z.eqb_neq a 0)) by done.
    mstep (lock_here k a x Hx Hf). cbn [negb]. set (x1 := set_pi_lock _ x). mstep (get_pipe_pst k a x1 (k_sched k) (kram k)).
    change (pi_count x1) with (pi_count x). change (pi_writers x1) with (pi_writers x). rewrite Hc, Hwr.
    change ((Z.of_nat (length (@nil Z)) =? 0) && (0 <? 0)) with false. change ((Z.of_nat (length (@nil Z)) =? 0) && (0 =? 0)) with true. cbv iota.
    destruct (unlock_pst k a x1 (k_sched k) (kram k) _ _ Hs) as (s2 & Q2 & Hul & Hs2 & _); [by destruct Hf|]. mstep Hul.
    eexists _, (set_pi_lock (set_mx_locked false (pi_lock x1)) x1). split; [reflexivity|].
    eapply pst_at; [done| |by destruct Hf|done]. destruct Hh as [H1 H2 H3 H4 H5]. by split.
Qed.

(** ** Witness: a pipe whose contents wrap around, a writer asleep *)

Definition ex_ring : pipe :=
  mk_pipe (<[4094%nat := 5]> (<[4095%nat := 6]> (<[0%nat := 7]> (replicate 4096 0)))) 4094 1 3 1 1 (mk_mutex false false 300) 301 100.
Definition ex_ring_kst : kst pmm :=
  set_k_pipes {[500 := ex_ring]} (set_k_inodes {[64 := mk_inode [] 0 0 0 0 0 0 0 77 500 1 0 0 no_info]}
    (set_k_sched (ex_run_sched (ex_process 0 0 0 0 [] None)) (ex_kst (ex_process 0 0 0 0 [] None) ∅ ∅ ex_vfs))).
Lemma ex_ring_holds : pipe_holds ex_ring [5; 6; 7].
Proof.
  split; [by vm_compute|done|by vm_compute|done|].
  intros i v Hi Hv. pose proof (lookup_lt_Some _ _ _ Hv) as Hlt. simpl in Hlt.
  assert (i = 0 ∨ i = 1 ∨ i = 2) as [-> |[-> | ->]] by lia; injection Hv as <-; by vm_compute.
Qed.
Lemma pipe_refines_queue_witness : ∃ k' x', pipe_read_pass 64 0 2 ex_buf ex_ring_kst = Done (Some 2, k') ∧ pipe_at k' 64 500 x' [7].
Proof.
  destruct (pipe_refines_queue ex_ring_kst 64 500 ex_ring [5; 6; 7] 0 2 ex_buf) as [H _].
  - split; [by eexists|done|done|apply ex_ring_holds|done|by eexists _, _; apply ex_run_ok].
  - done.
  - done.
  - destruct H as (r & k' & x' & H1 & Hr & H2 & _); [done|]. change (r = 2) in Hr. subst r.
    change (drop (Z.to_nat 2) [5; 6; 7]) with [7] in H2. exists k', x'. split; [exact H1|exact H2].
Defined.

(** ** The reference counts of the ends *)

Section ends.
Context {FA : Type} `{!FrameAllocator FA} `{!Drivers FA}.
Implicit Types k : kst FA.
Variables (pipe_read_ops pipe_write_ops : Z).
(** [pipe_init] sets no [open]. *)
Hypothesis Hrops : pipe_read_ops ≠ 0 ∧ ops_open pipe_read_ops = None.
Hypothesis Hwops : pipe_write_ops ≠ 0 ∧ ops_open pipe_write_ops = None.

Definition fresh_pipe (a : Z) : pipe :=
  mk_pipe (replicate (Z.to_nat PIPE_BUF_SIZE) 0) 0 0 0 1 1 (mk_mutex false false (lock_wait_of a)) (read_wait_of a) (write_wait_of a).
Definition endpoint (a : Z) (is_write : bool) : inode :=
  mk_inode ([112; 105; 112; 101; 95] ++ [if is_write then 119 else 114]) (Z.lor FS_FILE FS_TEMPORARY) 0 0
    (Z.lor S_IRUSR S_IWUSR) 0 0 0 (if is_write then pipe_write_ops else pipe_read_ops) a 1 0 0 no_info.
Definition no_waiters (a : Z) (s : sched) : sched :=
  set_wait_queues (<[lock_wait_of a := 0]> (<[write_wait_of a := 0]> (<[read_wait_of a := 0]> (wait_queues s)))) s.
Definition made k (a nr nw : Z) (rest : list Z) : kst FA :=
  set_k_inodes (<[nw := endpoint a true]> (<[nr := endpoint a false]> (k_inodes k)))
    (set_k_pipes (<[a := fresh_pipe a]> (k_pipes k)) (set_k_sched (no_waiters a (k_sched k)) (set_k_vm (set_allocs rest (k_vm k)) k))).

Lemma create_endpoint_ok k a w node rest : allocs (k_vm k) = node :: rest → node ≠ 0 →
  pipe_create_endpoint pipe_read_ops pipe_write_ops a w k =
    Done (node, set_k_inodes (<[node := endpoint a w]> (k_inodes k)) (set_k_vm (set_allocs rest (k_vm k)) k)).
Proof using Type.
  intros Hal Hn. unfold pipe_create_endpoint. mstep (kalloc_Done k node rest Hal). by rewrite (proj2 (Z.eqb_neq node 0)) by done.
Qed.
Lemma pipe_objects_ok k a nr nw rest : allocs (k_vm k) = a :: nr :: nw :: rest → a ≠ 0 → nr ≠ 0 → nw ≠ 0 →
  pipe_objects pipe_read_ops pipe_write_ops k = Done (Some (a, nr, nw), made k a nr nw rest).
Proof using Type.
  intros Hal Ha Hnr Hnw. unfold pipe_objects. mstep (kalloc_Done k a (nr :: nw :: rest) Hal).
  rewrite (proj2 (Z.eqb_neq a 0)) by done. unfold bind at 1, new_pipe at 1, modify at 1.
  unfold on_sched at 1, put_wq at 1, zoom at 1, modify at 1, bind at 1. unfold on_sched at 1, put_wq at 1, zoom at 1, modify at 1, bind at 1.
  cbn [set_k_pipes set_k_sched k_sched k_pipes k_vm k_inodes set_k_vm]. fold (fresh_pipe a). fold (fresh_pipe a).
  set (k1 := set_k_sched _ _).
  assert (Hinit : on_pipe_lock a (mutex_init (lock_wait_of a)) k1 =
    Done (tt, set_k_pipes (<[a := fresh_pipe a]> (k_pipes k)) (set_k_sched (no_waiters a (k_sched k)) (set_k_vm (set_allocs (nr :: nw :: rest) (k_vm k)) k)))).
  { unfold on_pipe_lock. change (k_pipes k1) with (<[a := fresh_pipe a]> (k_pipes k)). rewrite lookup_insert_eq.
    cbn [mutex_init]. unfold mutex_init, of_obj, of_sched, put_wq, zoom, bind, modify. cbn [fst snd].
    cbn [k_pipes set_k_sched]. change (k_pipes k1) with (<[a := fresh_pipe a]> (k_pipes k)). rewrite insert_insert_eq. done. }
  mstep Hinit. set (k2 := set_k_pipes _ _). mstep (create_endpoint_ok k2 a false nr (nw :: rest) eq_refl Hnr). set (k3 := set_k_inodes _ _).
  mstep (create_endpoint_ok k3 a true nw rest eq_refl Hnw). by rewrite !(proj2 (Z.eqb_neq _ 0)) by done.
Qed.

(** A descriptor for an end whose slot [i] is the lowest free one: the count of
    the end, which its creation has set to 1, becomes 2. *)
Definition with_end k p x (i f node : Z) (n : inode) (rest : list Z) : kst FA :=
  put_fd (set_k_inodes (<[node := set_in_ref_count (in_ref_count n + 1) n]> (k_inodes k))
    (set_k_files (<[f := mk_file node 0 1 1]> (k_files k)) (set_k_vm (set_allocs rest (k_vm k)) k))) p x i f.
Definition lowest_free (x : process) (i : Z) : Prop :=
  0 <= i < MAX_FD ∧ zget (p_fd_table x) i = Some 0 ∧ ∀ j, 0 <= j < i → zget (p_fd_table x) j ≠ Some 0.
Lemma pipe_fd_ok k p x i f node n rest : runs k p x → Z.of_nat (length (p_fd_table x)) = MAX_FD → lowest_free x i →
  allocs (k_vm k) = f :: rest → f ≠ 0 → node ≠ 0 → k_inodes k !! node = Some n → in_ops n ≠ 0 ∧ ops_open (in_ops n) = None →
  pipe_fd p node k = Done (i, with_end k p x i f node n rest).
Proof using Type.
  intros Hr Hlen (Hi & Hfree & Hmin) Hal Hf Hnode Hn [Hops Hopen]. unfold pipe_fd.
  destruct (fd_alloc_spec k p x Hr Hlen) as (r & Hrun & Hcase). mstep Hrun.
  assert (r = i) as ->.
  { destruct Hcase as [[-> Hno]|(Hr0 & Hr1 & Hr2)]; [exfalso; apply (Hno i); [lia|done]|]. destruct (Z.lt_trichotomy r i) as [?|[?|?]]; [exfalso; apply (Hmin r); [lia|done]|done|exfalso; apply (Hr2 i); [lia|done]]. }
  assert (Hnew : file_new node 1 k = Done (f, set_k_inodes (<[node := set_in_ref_count (in_ref_count n + 1) n]> (k_inodes k))
    (set_k_files (<[f := mk_file node 0 1 1]> (k_files k)) (set_k_vm (set_allocs rest (k_vm k)) k)))).
  { unfold file_new. mstep (kalloc_Done k f rest Hal). rewrite (proj2 (Z.eqb_neq f 0)) by done. unfold bind at 1, new_file at 1, modify at 1.
    set (k1 := set_k_files _ _). unfold vfs_open. rewrite (proj2 (Z.eqb_neq node 0)) by done.
    assert (Hn1 : k_inodes k1 !! node = Some n) by done.
    unfold bind at 2. unfold bind at 1. rewrite (mod_inode_Done k1 node n (λ n, set_in_ref_count (in_ref_count n + 1) n) Hn1). set (k2 := set_k_inodes _ k1).
    mstep (get_inode_Done k2 node _ (lookup_insert_eq _ _ _)). unfold op_of. cbn [in_ops set_in_ref_count].
    rewrite (proj2 (Z.eqb_neq _ 0)), Hopen by done. done. }
  mstep Hnew. set (k3 := set_k_inodes _ _). assert (Hx : procs (k_sched k3) !! p = Some x) by apply (runs_proc k p x Hr).
  by mstep (write_fd_Done k3 p x i f Hx ltac:(lia)).
Qed.

(** [sys_pipe] as a whole. *)
Lemma sys_pipe_ok k p x mm ufd ph a nr nw f0 f1 rest i j :
  runs_mm k p x mm → Z.of_nat (length (p_fd_table x)) = MAX_FD → lowest_free x i →
  i < j < MAX_FD → zget (p_fd_table x) j = Some 0 → (∀ l, i < l < j → zget (p_fd_table x) l ≠ Some 0) →
  allocs (k_vm k) = a :: nr :: nw :: f0 :: f1 :: rest → a ≠ 0 → nr ≠ 0 → nw ≠ 0 → f0 ≠ 0 → f1 ≠ 0 → nr ≠ nw →
  user_range (kram k) (page_table mm) ufd 8 8 ph →
  let x1 := set_p_fd_table (<[Z.to_nat i := f0]> (p_fd_table x)) x in
  let k1 := with_end (made k a nr nw (f0 :: f1 :: rest)) p x i f0 nr (endpoint a false) (f1 :: rest) in
  let k2 := with_end k1 p x1 j f1 nw (endpoint a true) rest in
  ∃ m, sys_pipe pipe_read_ops pipe_write_ops ufd k = Done (0, set_kram m k2) ∧
    wrote (λ l, nth (Z.to_nat l) (le_bytes 4 i ++ le_bytes 4 j) 0) ph 8 (kram k) m.
Proof using Type*.
  intros [Hr Hmm] Hlen Hi Hj Hjf Hjm Hal Ha Hnr Hnw Hf0 Hf1 Hne Hur x1 k1 k2. unfold sys_pipe. rewrite (with_proc_runs _ _ _ _ _ Hr).
  mstep (pipe_objects_ok k a nr nw _ Hal Ha Hnr Hnw). set (k0 := made k a nr nw (f0 :: f1 :: rest)) in *.
  assert (Hr0 : runs k0 p x) by exact Hr.
  assert (Hr1 : runs k1 p x1) by apply (runs_put _ _ _ _ Hr0).
  assert (Hr2 : runs_mm k2 p (set_p_fd_table (<[Z.to_nat j := f1]> (p_fd_table x1)) x1) mm) by (split; [apply (runs_put _ _ _ _ Hr1)|exact Hmm]).
  assert (H0 : pipe_fd p nr k0 = Done (i, k1)).
  { apply pipe_fd_ok; try done. unfold k0, made. cbn [k_inodes set_k_inodes]. by rewrite lookup_insert_ne, lookup_insert_eq. }
  mstep H0. destruct Hi as (Hi & Hif & Him). rewrite (proj2 (Z.ltb_ge i 0)) by lia.
  assert (H1 : pipe_fd p nw k1 = Done (j, k2)).
  { apply pipe_fd_ok; try done.
    - simpl. by rewrite length_insert.
    - split; [lia|]. simpl. split; [rewrite zget_insert, decide_False by lia; done|]. intros l Hl.
      rewrite zget_insert by lia. case_decide; [congruence|]. destruct (decide (l < i)); [apply Him; lia|apply Hjm; lia].
    - unfold k1, with_end, put_fd, put_proc. cbn [k_inodes set_k_inodes set_k_sched]. rewrite lookup_insert_ne by done. apply lookup_insert_eq. }
  mstep H1. rewrite (proj2 (Z.ltb_ge j 0)) by lia.
  set (bs := le_bytes 4 i ++ le_bytes 4 j).
  destruct (copy_to_user_with_ok k2 p _ mm ufd 8 ph (λ l, ret (nth (Z.to_nat l) bs 0)) (λ l, nth (Z.to_nat l) bs 0) Hr2 Hur ltac:(lia))
    as (m & Hcopy & Hm); [done|].
  exists m. split; [|exact Hm]. unfold copy_bytes_to_user. change (Z.of_nat (length bs)) with 8. by mstep Hcopy.
Qed.

(** Closing descriptor [j], the only one of file [f] on node [node], whose count is [2]. *)
Lemma sys_close_keeps_end k p x j f node n : runs k p x → Z.of_nat (length (p_fd_table x)) = MAX_FD → 0 <= j < MAX_FD →
  zget (p_fd_table x) j = Some f → f ≠ 0 → k_files k !! f = Some (mk_file node 0 1 1) → node ≠ 0 →
  k_inodes k !! node = Some n → in_ref_count n = 2 →
  ∃ k', sys_close j k = Done (0, k') ∧ k_files k' = delete f (k_files k) ∧ k_pipes k' = k_pipes k ∧
    k_inodes k' = <[node := set_in_ref_count 1 n]> (k_inodes k) ∧
    k_sched k' = k_sched (put_fd k p x j 0).
Proof using Type.
  intros Hr Hlen Hj Hjf Hf Hfile Hnode Hn Hrc. unfold sys_close. mstep (fd_get_Done k p x j f Hr Hj Hjf).
  rewrite (proj2 (Z.eqb_neq f 0)) by done.
  assert (Hfree : fd_free j k = Done (tt, put_fd k p x j 0)).
  { unfold fd_free. rewrite (with_proc_runs _ _ _ _ _ Hr), (proj2 (Z.ltb_ge j 0)), (proj2 (Z.leb_gt MAX_FD j)) by lia.
    apply write_fd_Done; [by apply runs_proc|lia]. }
  mstep Hfree. set (k1 := put_fd k p x j 0).
  set (k2 := set_k_files (<[f := mk_file node 0 1 0]> (k_files k1)) k1).
  set (k3 := set_k_inodes (<[node := set_in_ref_count 1 n]> (k_inodes k2)) k2).
  assert (Hclose : file_close f k1 = Done (tt, set_k_files (delete f (k_files k3)) k3)).
  { unfold file_close. rewrite (proj2 (Z.eqb_neq f 0)) by done.
    mstep (mod_file_Done k1 f _ (λ f, set_f_ref_count (f_ref_count f - 1) f) Hfile). change (set_k_files _ k1) with k2.
    mstep (get_file_Done k2 f (mk_file node 0 1 0) (lookup_insert_eq _ _ _)). cbn [f_ref_count f_inode]. change (0 <=? 0) with true. cbv iota.
    assert (Hv : vfs_close node k2 = Done (tt, k3)).
    { unfold vfs_close. rewrite (proj2 (Z.eqb_neq node 0)) by done.
      mstep (mod_inode_Done k2 node n (λ n, set_in_ref_count (in_ref_count n - 1) n) Hn). rewrite Hrc. change (2 - 1) with 1.
      mstep (get_inode_Done k3 node _ (lookup_insert_eq _ _ _)). done. }
    by mstep Hv. }
  mstep Hclose. eexists. split; [reflexivity|]. split; [|done]. apply delete_insert_eq.
Qed.

(** A reader of a pipe that is empty and has writers goes to sleep. *)
Lemma pipe_read_sleeps k node a off size buf Q W y : let c := current_task (k_sched k) in
  (∃ n, k_inodes k !! node = Some n ∧ in_ptr n = a) → a ≠ 0 → k_pipes k !! a = Some (fresh_pipe a) →
  sync_ok (k_sched k) Q W → W (lock_wait_of a) = [] → W (read_wait_of a) = [] →
  tasks (k_sched k) !! c = Some y → 0 <= t_priority y < COUNT → c ∈ Q (t_priority y) → (∃ i, i ∈ Q IDLE ∧ i ≠ c) →
  ∃ k', pipe_read_pass node off size buf k = Done (None, k') ∧ waiting (k_sched k') (read_wait_of a) [c] ∧
    k_pipes k' = k_pipes k.
Proof using Type.
  intros c [n [Hn Hna]] Ha Hx Hs Hwl Hwr Hy Hyp Hc (i & Hi & Hic). unfold pipe_read_pass. mstep (get_inode_Done _ _ _ Hn).
  rewrite Hna. cbv zeta. rewrite (proj2 (Z.eqb_neq a 0)) by done. mstep (lock_here k a _ Hx (conj eq_refl eq_refl)). cbn [negb].
  set (x1 := set_pi_lock _ _). mstep (get_pipe_pst k a x1 (k_sched k) (kram k)).
  change ((pi_count x1 =? 0) && (0 <? pi_writers x1)) with true. cbv iota.
  mstep (on_pipe_lock_pst k a x1 (k_sched k) (kram k) _ _ _ _ (mutex_release_idle (k_sched k) (pi_lock x1) Q W Hs Hwl eq_refl)).
  set (x2 := set_pi_lock _ x1). change (pi_read_wait x1) with (read_wait_of a). pose proof Hs as [Hso Hl Hw Hp Hd].
  destruct (sleep_on_ok (k_sched k) Q (read_wait_of a) [] y Hso Hl) as (s' & pr & nx & l & z & Hrun & _ & _ & Hw' & _).
  - rewrite <- Hwr. apply Hw.
  - apply not_elem_of_nil.
  - exact Hy.
  - exact Hyp.
  - exact Hc.
  - intros Hnil. assert (Hin : i ∈ qset Q (t_priority y) (filter (λ u, u ≠ c) (Q (t_priority y))) IDLE).
    { unfold qset. case_decide as He; [|done]. apply list_elem_of_filter. by rewrite <- He. }
    unfold c in Hin. rewrite Hnil in Hin. by apply not_elem_of_nil in Hin.
  - mstep (on_sched_pst k a x2 (k_sched k) (kram k) _ _ _ Hrun). eexists. split; [reflexivity|]. split; [exact Hw'|].
    change (<[a := x2]> (k_pipes k) = k_pipes k). apply insert_id. exact Hx.
Qed.
End ends.


(** ** Witness *)

Definition ex_piper : process := ex_process 0 0 0 0 (replicate 1024 0) None.
Definition ex_pipe_kst : kst pmm :=
  let k := ex_kst ex_piper ∅ ∅ ex_vfs in
  set_k_sched (ex_run_sched ex_piper) (set_k_vm (set_allocs [500; 510; 520; 530; 540] (k_vm k)) k).
