(* ===== verification/Proc.v ===== *)
(** Processes, [kernel/syscalls/fork.c]: [task_clone], [fork], [exit], [wait3],
    [nanosleep], and what a pending signal does, [signal_check_pending] of
    [kernel/syscalls/kill.c].  The registers of a task that does not run, the
    name of a process and [kprintf] are left out.  A call that gives up the CPU
    is modelled up to the switch. *)
From S2P Require Export Pipe.
Local Open Scope prog_scope.

(** Offset of [wait_queue] in [process_t]. *)
Definition WAIT_QUEUE_OFFSET : Z := 8928.
Definition SIZEOF_TRAPFRAME : Z := 816.

Section proc.
Context {FA : Type} `{!FrameAllocator FA} `{!Drivers FA}.

Definition current_process : M (kst FA) Z :=
  t <- gets (λ k, current_task (k_sched k));;
  x <- on_sched (get_task t);;
  ret (t_proc x).
Definition get_tasks_lock : M (kst FA) unit := on_sched sched_acquire.
Definition release_tasks_lock : M (kst FA) unit := on_sched sched_release.

(** ** [fork] *)

Definition task_clone (task process : Z) : M (kst FA) Z :=
  new <- kalloc;;
  if new =? 0 then ret 0
  else
    stack <- kalloc;;
    if stack =? 0 then ret 0
    else
      old <- on_sched (get_task task);;
      kmemcpy stack (t_stack_page old) 4096;;;
      get_tasks_lock;;;
      id <- on_sched (gets tid_counter);;
      on_sched (modify (set_tid_counter (u64 (id + 1))));;;
      link <- (if process =? 0 then ret 0 else p <- proc_of process;; ret (p_threads p));;
      on_sched (modify (λ s, set_tasks (<[new := mk_task id 0 (t_state old) (t_priority old) 0 0 (t_next_wait old) link 0 stack
        process 0]> (tasks s)) s));;;
      (if process =? 0 then ret tt else upd_proc process (set_p_threads new));;;
      on_sched (sched_enqueue_task new);;;
      release_tasks_lock;;;
      ret new.

(** A process after [memset]. *)
Definition blank_process (a : Z) : process :=
  mk_process 0 0 0 false (replicate (Z.to_nat NGROUPS_MAX) 0) 0 0 0 0 0 0 (replicate (Z.to_nat MAX_FD) 0) 0 0 0 0
    PROCESS_ACTIVE 0 (a + WAIT_QUEUE_OFFSET) 0 None 0 0.
Definition new_process (a : Z) : M (kst FA) unit :=
  on_sched (modify (λ s, set_procs (<[a := blank_process a]> (procs s)) s));;; on_sched (put_wq (a + WAIT_QUEUE_OFFSET) 0).
Definition kfree_process (a : Z) : M (kst FA) unit := on_sched (modify (λ s, set_procs (delete a (procs s)) s)).

(** The loop over the descriptors. *)
Fixpoint share_fds (n : nat) (parent child i : Z) : M (kst FA) unit :=
  match n with
  | O => ret tt
  | S n' =>
      a <- read_fd parent i;;
      (if a =? 0 then ret tt else write_fd child i a;;; file_hold a);;;
      share_fds n' parent child (i + 1)
  end.
(** The credentials, the groups and the session. *)
Definition inherit (x c : process) : process :=
  let n := Z.to_nat (p_ngroups x) in
  set_p_controlling_tty (p_controlling_tty x) (set_p_session_leader false (set_p_sid (p_sid x) (set_p_pgid (p_pgid x)
    (set_p_groups (take n (p_groups x) ++ drop n (p_groups c)) (set_p_ngroups (p_ngroups x)
    (set_p_egid (p_egid x) (set_p_euid (p_euid x) (set_p_gid (p_gid x) (set_p_uid (p_uid x) c))))))))).

Definition sys_fork (tf : Z) : M (kst FA) Z :=
  parent <- current_process;;
  child <- kalloc;;
  if child =? 0 then ret (-1)
  else
    new_process child;;;
    pid <- gets k_pid_counter;;
    modify (set_k_pid_counter (u64 (pid + 1)));;;
    upd_proc child (set_p_pid pid);;;
    on_sched (pid_hash_insert child);;;
    upd_proc child (set_p_state PROCESS_ACTIVE);;;
    x <- proc_of parent;;
    mm <- on_vm (mm_duplicate (p_mm x));;
    upd_proc child (set_p_mm mm);;;
    if mm =? 0 then kfree_process child;;; ret (-1)
    else
      x <- proc_of parent;;
      upd_proc child (λ c, set_p_sibling (p_child x) (set_p_parent parent c));;;
      upd_proc parent (set_p_child child);;;
      upd_proc child (set_p_child 0);;;
      share_fds (Z.to_nat MAX_FD) parent child 0;;;
      x <- proc_of parent;;
      (if p_cwd x =? 0 then ret tt else upd_proc child (set_p_cwd (p_cwd x));;; vfs_retain (p_cwd x));;;
      failed <- (match p_signals x with
                 | None => ret false
                 | Some si =>
                     o <- signal_copy (Some si);;
                     upd_proc child (set_p_signals o);;;
                     ret (match o with None => true | Some _ => false end)
                 end);;
      if failed then on_vm (mm_destroy mm);;; kfree_process child;;; ret (-1)
      else
        upd_proc child (inherit x);;;
        t <- gets (λ k, current_task (k_sched k));;
        child_task <- task_clone t child;;
        if child_task =? 0 then on_vm (mm_destroy mm);;; kfree_process child;;; ret (-1)
        else
          y <- on_sched (get_task child_task);;
          let child_tf := t_stack_page y + 4096 - SIZEOF_TRAPFRAME in
          kmemcpy child_tf tf SIZEOF_TRAPFRAME;;;
          kwrite64 child_tf 0;;;
          c <- proc_of child;;
          ret (p_pid c).

(** ** [exit] *)

(** A file whose last descriptor this is loses it, but is not closed. *)
Fixpoint drop_fds (n : nat) (p i : Z) : M (kst FA) unit :=
  match n with
  | O => ret tt
  | S n' =>
      a <- read_fd p i;;
      (if a =? 0 then ret tt
       else
         mod_file a (λ f, set_f_ref_count (f_ref_count f - 1) f);;;
         f <- get_file a;;
         if f_ref_count f =? 0 then fd_free i else ret tt);;;
      drop_fds n' p (i + 1)
  end.
Fixpoint reparent (fuel : nat) (child : Z) : M (kst FA) unit :=
  match fuel with
  | O => faultM
  | S f =>
      if child =? 0 then ret tt
      else
        init <- gets k_init;;
        c <- proc_of child;;
        let next := p_sibling c in
        upd_proc child (set_p_parent init);;;
        i <- proc_of init;;
        upd_proc child (set_p_sibling (p_child i));;;
        upd_proc init (set_p_child child);;;
        reparent f next
  end.
Definition wake_waiters (proc : Z) : M (kst FA) unit := x <- proc_of proc;; on_sched (wake_up (p_wait_queue x)).

(** What happens under [sched_lock]. *)
Definition become_zombie (p code : Z) : M (kst FA) unit :=
  get_tasks_lock;;;
  upd_proc p (λ x, set_p_state PROCESS_ZOMBIE (set_p_exit_code code x));;;
  t <- gets (λ k, current_task (k_sched k));;
  on_sched (mod_task t (set_t_state TASK_EXITED));;;
  on_sched (sched_dequeue_task t);;;
  x <- proc_of p;;
  fuel <- gets proc_fuel;;
  reparent fuel (p_child x);;;
  upd_proc p (set_p_child 0);;;
  release_tasks_lock.
(** The session leader gives its terminal up. *)
Definition hang_up (p : Z) : M (kst FA) unit :=
  x <- proc_of p;;
  if p_session_leader x && negb (p_controlling_tty x =? 0) then
    let a := p_controlling_tty x in
    t <- get_tty a;;
    (if 0 <? tty_pgrp t then
       signal_send_group (tty_pgrp t) SIGHUP;;;
       t <- get_tty a;;
       signal_send_group (tty_pgrp t) SIGCONT;;; ret tt
     else ret tt);;;
    mod_tty a (set_tty_job 0 0 0)
  else ret tt.
(** Up to the switch; the task is never switched to again. *)
Definition sys_exit (code : Z) : M (kst FA) unit :=
  p <- current_process;;
  x <- proc_of p;;
  let parent := p_parent x in
  drop_fds (Z.to_nat MAX_FD) p 0;;;
  x <- proc_of p;;
  (if p_cwd x =? 0 then ret tt else vfs_close (p_cwd x);;; upd_proc p (set_p_cwd 0));;;
  upd_proc p (set_p_signals None);;;
  become_zombie p code;;;
  (if parent =? 0 then ret tt else signal_send parent SIGCHLD;;; wake_waiters parent);;;
  hang_up p;;;
  on_sched schedule.

(** ** [wait3] *)

Definition WNOHANG : Z := 1.
Definition WUNTRACED : Z := 2.
Definition W_EXITCODE (r sig : Z) : Z := i32 (Z.lor (Z.shiftl r 8) sig).

Definition wait_matches (pid : Z) (parent c : process) : bool :=
  if 0 <? pid then p_pid c =? pid
  else if pid =? -1 then true
  else if pid =? 0 then p_pgid c =? p_pgid parent
  else p_pgid c =? u64 (- pid).
(** What the walk along the children ends with. *)
Inductive scan_result := ScanZombie (target prev : Z) | ScanStopped (child : Z) | ScanNone (has_matching : bool).
Fixpoint scan_children (fuel : nat) (pid options : Z) (parent : process) (child prev : Z) (found : bool) : M (kst FA) scan_result :=
  match fuel with
  | O => faultM
  | S f =>
      if child =? 0 then ret (ScanNone found)
      else
        c <- proc_of child;;
        if wait_matches pid parent c then
          if decide (p_state c = PROCESS_ZOMBIE) then ret (ScanZombie child prev)
          else if has options WUNTRACED && bool_decide (p_state c = PROCESS_STOPPED) then ret (ScanStopped child)
          else scan_children f pid options parent (p_sibling c) child true
        else scan_children f pid options parent (p_sibling c) child found
  end.
(** The walk to the predecessor of [target]. *)
Fixpoint child_before (fuel : nat) (q pp target : Z) : M (kst FA) Z :=
  match fuel with
  | O => faultM
  | S f => if (q =? 0) || (q =? target) then ret pp else x <- proc_of q;; child_before f (p_sibling x) q target
  end.
Definition unlink_child (p target prev : Z) : M (kst FA) unit :=
  t <- proc_of target;;
  if prev =? 0 then upd_proc p (set_p_child (p_sibling t))
  else
    x <- proc_of p;;
    fuel <- gets proc_fuel;;
    pp <- child_before fuel (p_child x) 0 target;;
    if pp =? 0 then upd_proc p (set_p_child (p_sibling t)) else upd_proc pp (set_p_sibling (p_sibling t)).
(** One pass of the loop; [None] when the task has gone to sleep. *)
Definition sys_wait3_pass (pid status options : Z) : M (kst FA) (option Z) :=
  p <- current_process;;
  if p =? 0 then ret (Some (-1))
  else
    get_tasks_lock;;;
    x <- proc_of p;;
    fuel <- gets proc_fuel;;
    r <- scan_children fuel pid options x (p_child x) 0 false;;
    match r with
    | ScanStopped child =>
        (if status =? 0 then ret tt else raw_write status (le_bytes 4 (Z.lor 0x7f (Z.shiftl SIGSTOP 8))));;;
        release_tasks_lock;;;
        c <- proc_of child;;
        ret (Some (p_pid c))
    | ScanZombie target prev =>
        t <- proc_of target;;
        (if status =? 0 then ret tt else raw_write status (le_bytes 4 (u32 (W_EXITCODE (p_exit_code t) 0))));;;
        unlink_child p target prev;;;
        release_tasks_lock;;;
        on_vm (mm_destroy (p_mm t));;;
        upd_proc target (set_p_signals None);;;
        fuel <- gets proc_fuel;;
        on_sched (pid_hash_remove fuel target);;;
        kfree_process target;;;
        ret (Some (p_pid t))
    | ScanNone false => release_tasks_lock;;; ret (Some (-1))
    | ScanNone true =>
        if has options WNOHANG then release_tasks_lock;;; ret (Some 0)
        else
          release_tasks_lock;;;
          on_sched (sleep_on (p_wait_queue x) (ret tt));;;
          ret None
    end.

(** ** Identity and sleep *)

Definition sys_getpid : M (kst FA) Z :=
  p <- current_process;; if p =? 0 then ret (-1) else x <- proc_of p;; ret (p_pid x).
Definition sys_getppid : M (kst FA) Z :=
  p <- current_process;;
  if p =? 0 then ret (-1)
  else
    x <- proc_of p;;
    if p_parent x =? 0 then ret (-1) else y <- proc_of (p_parent x);; ret (p_pid y).

(** The conversion of a request to timer ticks; [current_interval] is the
    length of a tick in milliseconds.  The signed product may overflow. *)
Definition ticks_of (current_interval sec nsec : Z) : Z :=
  let ms := u64 (i64 (sec * 1000) + nsec / 1000000) in
  let ticks := ms / current_interval in
  if (ticks =? 0) && (0 <? ms) then 1 else ticks.
(** Up to the switch; what follows it stores zeroes in [rem]. *)
Definition sys_nanosleep (current_interval req : Z) : M (kst FA) Z :=
  o <- copy_bytes_from_user req 16;;
  match o with
  | None => ret (-1)
  | Some l =>
      let sec := i64 (of_le (take 8 l)) in
      let nsec := i64 (of_le (drop 8 l)) in
      if (sec <? 0) || (nsec <? 0) || (1000000000 <=? nsec) then ret (-1)
      else
        let ticks := ticks_of current_interval sec nsec in
        (if 0 <? ticks then on_sched (task_sleep_ticks ticks) else ret tt);;;
        ret 0
  end.
Definition sys_nanosleep_end (rem : Z) : M (kst FA) Z :=
  (if rem =? 0 then ret tt else copy_bytes_to_user rem (replicate 16 0);;; ret tt);;; ret 0.

(** ** Pending signals *)

(** What a call of [signal_check_pending], or the part of one up to a switch,
    comes to: it returns with the trap frame to go back to, the process has
    exited, or it is stopped and the loop goes on when the task is switched to. *)
Inductive check_result := CheckDone (tf : trapframe) | CheckExited | CheckStopped.

(** A stop leaves the task in its run queue. *)
Definition stop_current (p : Z) : M (kst FA) unit :=
  upd_proc p (set_p_state PROCESS_STOPPED);;;
  t <- gets (λ k, current_task (k_sched k));;
  on_sched (mod_task t (set_t_state TASK_STOPPED));;;
  x <- proc_of p;;
  (if p_parent x =? 0 then ret tt else signal_send (p_parent x) SIGCHLD;;; wake_waiters (p_parent x));;;
  on_sched schedule.

Fixpoint check_loop (fuel : nat) (p : Z) (tf : trapframe) : M (kst FA) check_result :=
  match fuel with
  | O => faultM
  | S f =>
      x <- proc_of p;;
      match p_signals x with
      | None => faultM
      | Some si =>
          let '(sig, si') := signal_dequeue si in
          mod_signals p (λ _, si');;;
          if sig =? 0 then ret (CheckDone tf)
          else
            act <- of_opt (zget (sig_actions si') (sig - 1));;
            if (sa_handler act =? SIG_IGN) && negb (sig =? SIGKILL) && negb (sig =? SIGSTOP) then check_loop f p tf
            else if sa_handler act =? SIG_DFL then
              match signal_get_default_action sig with
              | SIG_ACTION_TERM | SIG_ACTION_CORE => sys_exit (128 + sig);;; ret CheckExited
              | SIG_ACTION_STOP => stop_current p;;; ret CheckStopped
              | _ => check_loop f p tf
              end
            else
              r <- setup_signal_frame p tf sig act;;
              if r.1 <? 0 then sys_exit (128 + sig);;; ret CheckExited
              else ret (CheckDone r.2)
      end
  end.
(** Every round takes one of the 32 pending bits. *)
Definition signal_check_pending (tf : trapframe) : M (kst FA) check_result :=
  with_proc (CheckDone tf) (λ p,
    x <- proc_of p;;
    match p_signals x with
    | None => ret (CheckDone tf)
    | Some _ => check_loop 33 p tf
    end).
End proc.

(** ** Stopping a process *)

Section stop.
Context {FA : Type} `{!FrameAllocator FA} `{!Drivers FA}.
Implicit Types k : kst FA.

Lemma signal_dequeue_actions s : sig_actions (signal_dequeue s).2 = sig_actions s.
Proof using Type.
  unfold signal_dequeue. destruct (deliverable s =? 0); [reflexivity|]. cbv zeta. destruct (first_signal _ _ _ =? 0); reflexivity.
Qed.

(** Sending SIGCHLD marks it as pending. *)
Lemma send_sigchld k q z si : q ≠ 0 → procs (k_sched k) !! q = Some z → p_signals z = Some si →
  signal_send q SIGCHLD k =
    Done (0, put_proc q (set_p_signals (Some (set_sig_pending (sigaddset (sig_pending si) SIGCHLD) si)) z) k).
Proof using Type.
  intros Hq Hz Hsi. unfold signal_send. rewrite (proj2 (Z.eqb_neq q 0)) by done.
  change (false || (SIGCHLD <? 1) || (NSIG <? SIGCHLD)) with false. cbv iota. mstep (proc_of_Done k q z Hz). rewrite Hsi.
  change (SIGCHLD =? SIGCONT) with false. change (has (sigmask SIGCHLD) SIG_STOP_MASK) with false. cbv iota. mret. mret.
  mstep (mod_signals_Done k q z (λ s, set_sig_pending (sigaddset (sig_pending s) SIGCHLD) s) Hz). by rewrite Hsi.
Qed.

Lemma mod_task_state s t y st : tasks s !! t = Some y → mod_task t (set_t_state st) s = Done (tt, set_tasks (<[t := set_t_state st y]> (tasks s)) s).
Proof using Type. intros H. by rewrite (mod_task_Done _ _ _ _ H). Qed.

(** Changing the state of a task keeps its queue and the queues of the others. *)
Lemma sched_ok_state s Q t y st : sched_ok s Q → tasks s !! t = Some y → sched_ok (set_tasks (<[t := set_t_state st y]> (tasks s)) s) Q.
Proof using Type.
  intros Hs Hy. apply (sched_ok_frame s _ _ Hs); try done. intros p u x _ _ Hx. simpl. destruct (decide (u = t)) as [->|].
  - rewrite lookup_insert_eq. exists (set_t_state st y). split; [done|]. by simplify_eq.
  - rewrite lookup_insert_ne by done. by exists x.
Qed.
Lemma waiting_state s q ws t y st : tasks s !! t = Some y → waiting s q ws → waiting (set_tasks (<[t := set_t_state st y]> (tasks s)) s) q ws.
Proof using Type.
  intros Hy Hw. eapply slist_ext; [|exact Hw]. intros u _. unfold wlink. simpl. destruct (decide (u = t)) as [->|];
    [by rewrite lookup_insert_eq, Hy|by rewrite lookup_insert_ne].
Qed.
Lemma parked_state s Q t y st w : w ≠ t → parked s Q w → parked (set_tasks (<[t := set_t_state st y]> (tasks s)) s) Q w.
Proof using Type. intros Hw [H0 (x & Hx & H)]. split; [done|]. exists x. simpl. by rewrite lookup_insert_ne. Qed.

(** Waking a task of no higher level leaves the head of the highest queue. *)
Lemma highest_append Q p pw w c l : highest Q p → Q p = c :: l → 0 <= pw <= p →
  highest (qset Q pw (Q pw ++ [w])) p ∧ ∃ l', qset Q pw (Q pw ++ [w]) p = c :: l'.
Proof using Type.
  intros (Hp & Hne & Hmax) HQ Hpw. unfold highest, qset. split; [split; [done|split]|].
  - case_decide; [|done]. subst. by rewrite HQ.
  - intros q Hq. rewrite decide_False by lia. by apply Hmax.
  - case_decide; [subst; rewrite HQ; by eexists|by exists l].
Qed.

Lemma on_sched_Done {A} (m : M sched A) k a s : m (k_sched k) = Done (a, s) → on_sched m k = Done (a, set_k_sched s k).
Proof using Type. intros H. unfold on_sched, zoom. by rewrite H. Qed.

(** [stop_current]: the parent is told, the task stays where it is. *)
Lemma stop_current_ok k p x q z si c y Q ws l :
  runs k p x → current_task (k_sched k) = c → tasks (k_sched k) !! c = Some y → p_parent x = q → q ≠ 0 → q ≠ p →
  procs (k_sched k) !! q = Some z → p_signals z = Some si →
  sched_ok (k_sched k) Q → sched_lock (k_sched k) = false → Q IDLE ≠ [] →
  waiting (k_sched k) (p_wait_queue z) ws → Forall (λ w, parked (k_sched k) Q w ∧ 0 <= prio_of (k_sched k) w <= t_priority y) ws →
  highest Q (t_priority y) → Q (t_priority y) = c :: l →
  ∃ k' y', stop_current p k = Done (tt, k') ∧ current_task (k_sched k') = c ∧ tasks (k_sched k') !! c = Some y' ∧
    t_state y' = TASK_STOPPED ∧ p_state <$> procs (k_sched k') !! p = Some PROCESS_STOPPED ∧
    schedule (k_sched k') = Done (tt, k_sched k').
Proof using Type*.
  intros Hr Hc Hy Hq Hq0 Hqp Hz Hsi Hs Hlock Hidle Hw Hws Hh HQ.
  assert (Hc0 : c ≠ 0) by (destruct Hr as (t & ? & <- & ? & _); by subst).
  unfold stop_current. mstep (upd_proc_Done k p x (set_p_state PROCESS_STOPPED) (runs_proc k p x Hr)). set (x1 := set_p_state _ x).
  set (k1 := put_proc p x1 k). unfold bind at 1, gets at 1. change (current_task (k_sched k1)) with (current_task (k_sched k)). rewrite Hc.
  set (y1 := set_t_state TASK_STOPPED y). set (s2 := set_tasks (<[c := y1]> (tasks (k_sched k1))) (k_sched k1)).
  mstep (on_sched_Done (mod_task c (set_t_state TASK_STOPPED)) k1 tt s2 (mod_task_state (k_sched k1) c y TASK_STOPPED Hy)). set (k2 := set_k_sched s2 k1).
  assert (Hx2 : procs (k_sched k2) !! p = Some x1) by apply lookup_insert_eq. mstep (proc_of_Done k2 p x1 Hx2).
  change (p_parent x1) with (p_parent x). rewrite Hq, (proj2 (Z.eqb_neq q 0)) by done.
  assert (Hz2 : procs (k_sched k2) !! q = Some z) by (unfold k2, s2, k1; simpl; by rewrite lookup_insert_ne).
  set (z1 := set_p_signals (Some (set_sig_pending (sigaddset (sig_pending si) SIGCHLD) si)) z). set (k3 := put_proc q z1 k2).
  assert (Hs3 : sched_ok (k_sched k3) Q).
  { apply (sched_ok_frame s2 _ Q); try done; [|intros ? u w _ _ Hu; by exists w]. apply (sched_ok_state (k_sched k1) Q c y); [|done].
    apply (sched_ok_frame (k_sched k) _ Q Hs); try done. intros ? u w _ _ Hu. by exists w. }
  assert (Hne : ∀ w, parked (k_sched k) Q w → w ≠ c).
  { intros w [_ (v & Hv & _ & Hnin)] ->. rewrite Hy in Hv. injection Hv as <-. rewrite HQ in Hnin. apply Hnin. by left. }
  assert (Hpk : Forall (parked (k_sched k3) Q) ws).
  { eapply Forall_impl; [exact Hws|]. intros w [Hw' _]. apply (parked_state (k_sched k1) Q c y TASK_STOPPED w); [by apply Hne|done]. }
  pose proof (wake_up_lifo (k_sched k3) Q (p_wait_queue z) ws Hs3 Hlock (waiting_state (k_sched k1) _ _ c y TASK_STOPPED Hy Hw) Hpk) as Hwk.
  assert (∃ s4 y4 Q4 l4, wake_up (p_wait_queue z) (k_sched k3) = Done (tt, s4) ∧ sched_ok s4 Q4 ∧ sched_lock s4 = false ∧ current_task s4 = c ∧
    tasks s4 !! c = Some y4 ∧ t_state y4 = TASK_STOPPED ∧ procs s4 = procs (k_sched k3) ∧ Q4 IDLE ≠ [] ∧ highest Q4 (t_priority y) ∧ Q4 (t_priority y) = c :: l4)
    as (s4 & y4 & Q4 & l4 & Hwake & Hs4 & Hl4 & Hc4 & Hy4 & Hst4 & Hp4 & Hi4 & Hh4 & HQ4).
  { destruct ws as [|w ws].
    - exists (k_sched k3), y1, Q, l. split_and!; try done. apply lookup_insert_eq.
    - destruct Hwk as (s4 & v & Hrun & _ & Hl4 & Hv & _ & Hs4 & [Ht Hself _ Hpr Hcu _]).
      apply Forall_cons in Hws as [[Hpw Hprio] _]. pose proof (Hne w Hpw) as Hwc. destruct Hpw as [_ (v0 & Hv0 & _)].
      assert (Hv3 : tasks (k_sched k3) !! w = Some v0) by (unfold k3, k2, s2; simpl; by rewrite lookup_insert_ne).
      destruct (Hself v0 Hv3) as (v' & Hv' & _ & Hvp). rewrite Hv in Hv'. injection Hv' as <-.
      unfold prio_of in Hprio. rewrite Hv0 in Hprio. simpl in Hprio. rewrite Hvp in Hs4.
      destruct (highest_append Q (t_priority y) (t_priority v0) w c l Hh HQ Hprio) as [Hh4 [l4 HQ4]].
      assert (Hyc : tasks (k_sched k3) !! c = Some y1) by apply lookup_insert_eq.
      specialize (Ht c (not_eq_sym Hwc)). rewrite Hyc in Ht. destruct (tasks s4 !! c) as [y4|] eqn:Hy4; [|done].
      change (Some (task_core y4) = Some (task_core y1)) in Ht. apply Some_inj, task_core_fields in Ht as (_ & Hst4 & _).
      eexists s4, y4, _, l4. split_and!; try done; [by rewrite Hcu|]. unfold qset. case_decide as He; [|done].
      intros Hnil. by apply app_nil in Hnil as [_ ?]. }
  assert (Htell : (signal_send q SIGCHLD;;; wake_waiters q) k2 = Done (tt, set_k_sched s4 k3)).
  { mstep (send_sigchld k2 q z si Hq0 Hz2 Hsi). unfold wake_waiters.
    mstep (proc_of_Done k3 q z1 (lookup_insert_eq _ _ _)). by apply on_sched_Done. }
  mstep Htell. assert (Hstay : schedule s4 = Done (tt, s4)).
  { apply (schedule_stays s4 Q4 y4 (t_priority y) l4); rewrite ?Hc4; try done. by rewrite Hst4. }
  eexists _, y4. split; [by apply on_sched_Done|]. split; [done|]. split; [done|]. split; [done|]. split; [|exact Hstay].
  simpl. rewrite Hp4. unfold k3. simpl. rewrite lookup_insert_ne by done. by rewrite lookup_insert_eq.
Qed.
End stop.

(** a stop signal stops nobody.  When the next signal of the running
    process is SIGSTOP with its default action, [signal_check_pending] marks
    process and task as stopped and tells the parent, but leaves the task in its
    run queue; as [schedule] only rotates the queue of a task that is RUNNING,
    the stopped task, when it heads the highest queue, keeps the CPU: this call of
    [schedule], and every later one, changes nothing, and the tasks queued behind
    it do not run. *)
Theorem stop_keeps_cpu {FA} `{!FrameAllocator FA} `{!Drivers FA} (k : kst FA) p x tf si si' act q z siz c y Q ws l :
  runs k p x → p_signals x = Some si → signal_dequeue si = (SIGSTOP, si') →
  zget (sig_actions si) (SIGSTOP - 1) = Some act → sa_handler act = SIG_DFL →
  current_task (k_sched k) = c → tasks (k_sched k) !! c = Some y → p_parent x = q → q ≠ 0 → q ≠ p →
  procs (k_sched k) !! q = Some z → p_signals z = Some siz →
  sched_ok (k_sched k) Q → sched_lock (k_sched k) = false → Q IDLE ≠ [] →
  waiting (k_sched k) (p_wait_queue z) ws → Forall (λ w, parked (k_sched k) Q w ∧ 0 <= prio_of (k_sched k) w <= t_priority y) ws →
  highest Q (t_priority y) → Q (t_priority y) = c :: l →
  ∃ k' y', signal_check_pending tf k = Done (CheckStopped, k') ∧
    p_state <$> procs (k_sched k') !! p = Some PROCESS_STOPPED ∧ tasks (k_sched k') !! c = Some y' ∧ t_state y' = TASK_STOPPED ∧
    current_task (k_sched k') = c ∧ schedule (k_sched k') = Done (tt, k_sched k').
Proof.
  intros Hr Hsi Hdq Hact Hdfl Hc Hy Hq Hq0 Hqp Hz Hsiz Hs Hlock Hidle Hw Hws Hh HQ. unfold signal_check_pending.
  rewrite (with_proc_runs _ _ _ _ _ Hr). pose proof (proc_of_Done _ _ _ (runs_proc _ _ _ Hr)) as Hpo. mstep Hpo. rewrite Hsi.
  change 33%nat with (S 32). generalize 32%nat. intros fuel. cbn [check_loop]. mstep Hpo. rewrite Hsi, Hdq.
  mstep (mod_signals_Done k p x (λ _, si') (runs_proc _ _ _ Hr)). set (x1 := set_p_signals _ x). set (k1 := put_proc p x1 k).
  change (SIGSTOP =? 0) with false. cbv iota.
  assert (Hacts : sig_actions si' = sig_actions si).
  { pose proof (signal_dequeue_actions si) as Ha. by rewrite Hdq in Ha. }
  rewrite Hacts, Hact. erewrite bind_Done by reflexivity. rewrite Hdfl. change ((SIG_DFL =? SIG_IGN) && negb (SIGSTOP =? SIGKILL) && negb (SIGSTOP =? SIGSTOP)) with false.
  change (SIG_DFL =? SIG_DFL) with true. cbv iota. change (signal_get_default_action SIGSTOP) with SIG_ACTION_STOP. cbv iota.
  destruct (stop_current_ok k1 p x1 q z siz c y Q ws l) as (k' & y' & Hrun & Hc' & Hy' & Hst & Hps & Hsch); try done.
  - by eapply runs_put.
  - unfold k1. simpl. by rewrite lookup_insert_ne.
  - apply (sched_ok_frame (k_sched k)); try done. intros ? u w _ _ Hu. by exists w.
  - mstep Hrun. by exists k', y'.
Qed.

(** ** Witness: a stopped task ahead of task 3, its parent asleep *)

Definition ex_stopping : process := set_p_parent 12 (ex_process 0 0 0 0 [] (Some (set_sig_pending (sigmask SIGSTOP) new_signals))).
Definition ex_parent : process := mk_process 12 1 1 true [] 0 0 0 0 0 1 [] 0 0 11 0 PROCESS_ACTIVE 0 100 0 (Some new_signals) 0 0.
Definition ex_stop_kst : kst pmm :=
  set_k_sched (set_procs (<[12 := ex_parent]> {[11 := ex_stopping]}) (ex_run_sched ex_stopping)) (ex_kst ex_stopping ∅ ∅ ex_vfs).
Lemma stop_keeps_cpu_witness : ∃ k', @signal_check_pending pmm _ ex_drivers (mk_trapframe [] 0 0 0) ex_stop_kst = Done (CheckStopped, k') ∧
  current_task (k_sched k') = 2 ∧ schedule (k_sched k') = Done (tt, k_sched k').
Proof.
  assert (Hok : sync_ok (k_sched ex_stop_kst) ex_queues ex_wait).
  { apply (sync_ok_frame (ex_run_sched ex_stopping)); try done; [apply ex_run_ok|by left]. }
  destruct (@stop_keeps_cpu pmm _ ex_drivers ex_stop_kst 11 ex_stopping (mk_trapframe [] 0 0 0) (set_sig_pending (sigmask SIGSTOP) new_signals)
    new_signals (mk_sigaction SIG_DFL 0 0) 12 ex_parent new_signals 2 ex_run_task ex_queues [4] [3])
    as (k' & y' & H1 & _ & _ & _ & H2 & H3).
  - exists 2, ex_run_task. by split_and!.
  - done.
  - by vm_compute.
  - done.
  - done.
  - done.
  - done.
  - done.
  - done.
  - done.
  - done.
  - done.
  - apply Hok.
  - done.
  - done.
  - apply (sy_waiting _ _ _ Hok 100).
  - apply Forall_singleton. split; [|by vm_compute]. pose proof (sy_parked _ _ _ Hok 100) as Hp. change (ex_wait 100) with [4] in Hp. by apply Forall_cons in Hp as [Hp _].
  - split; [unfold COUNT; simpl; lia|]. split; [done|]. intros q Hq. unfold COUNT in Hq. simpl in Hq.
    unfold ex_queues. by rewrite !decide_False by lia.
  - done.
  - exists k'. split; [exact H1|split; [exact H2|exact H3]].
Defined.

(** ** The descriptors of a new process *)

Section share.
Context {FA : Type} `{!FrameAllocator FA}.
Implicit Types k : kst FA.

(** The table of the child after [i] rounds. *)
Definition shared (l : list Z) (i : Z) : list Z := take (Z.to_nat i) l ++ replicate (length l - Z.to_nat i) 0.

Lemma shared_step l i a : 0 <= i < Z.of_nat (length l) → zget l i = Some a →
  <[Z.to_nat i := a]> (shared l i) = shared l (i + 1) ∧ zget (shared l i) i = Some 0.
Proof using Type.
  intros Hi Ha. unfold zget in *. rewrite decide_True in * by lia. unfold shared.
  assert (Hlen : length (take (Z.to_nat i) l) = Z.to_nat i) by (rewrite length_take; lia).
  replace (length l - Z.to_nat i)%nat with (S (length l - S (Z.to_nat i))) by lia.
  replace (Z.to_nat (i + 1)) with (S (Z.to_nat i)) by lia. cbn [replicate]. split.
  - rewrite (take_S_r l _ a) by done. rewrite <- app_assoc. rewrite insert_app_r_alt by lia. by rewrite Hlen, Nat.sub_diag.
  - rewrite lookup_app_r by lia. by rewrite Hlen, Nat.sub_diag.
Qed.

Lemma share_fds_steps parent child x c n : ∀ i k, parent ≠ child → 0 <= i → i + Z.of_nat n = MAX_FD →
  fds_with k (λ _, 0) → procs (k_sched k) !! parent = Some x →
  procs (k_sched k) !! child = Some (set_p_fd_table (shared (p_fd_table x) i) c) →
  ∃ k', share_fds n parent child i k = Done (tt, k') ∧ fds_with k' (λ _, 0) ∧ procs (k_sched k') !! parent = Some x ∧
    procs (k_sched k') !! child = Some (set_p_fd_table (p_fd_table x) c) ∧ k_inodes k' = k_inodes k.
Proof using Type*.
  induction n as [|n IH]; intros i k Hpc Hi Hn Hw Hx Hc.
  { exists k. split; [done|]. split; [done|]. split; [done|]. split; [|done]. rewrite Hc. do 2 f_equal. pose proof (fw_len k _ Hw _ _ Hx) as Hl.
    unfold shared. rewrite take_ge by lia. replace (length (p_fd_table x) - Z.to_nat i)%nat with 0%nat by lia. apply app_nil_r. }
  pose proof (fw_len k _ Hw _ _ Hx) as Hl. destruct (zget_is_Some (p_fd_table x) i) as [a Ha]; [lia|].
  destruct (shared_step (p_fd_table x) i a) as [Hstep Hold]; [lia|done|]. set (c0 := set_p_fd_table _ c) in Hc.
  cbn [share_fds]. mstep (read_fd_Done k parent x i a Hx Ha). destruct (Z.eqb_spec a 0) as [->|Ha0].
  - mret. apply IH; try done; [lia|lia|]. rewrite Hc. unfold c0. do 2 f_equal. rewrite <- Hstep.
    unfold zget in Hold. rewrite decide_True in Hold by lia. by rewrite list_insert_id.
  - assert (Hlc : Z.of_nat (length (p_fd_table c0)) = MAX_FD) by by eapply (fw_len k _ Hw).
    set (k1 := put_fd k child c0 i a).
    assert (Hwr : write_fd child i a k = Done (tt, k1)) by (apply write_fd_Done; [done|lia]).
    pose proof (put_fd_ok k _ child c0 i 0 a Hw Hc Hold) as Hw1.
    destruct (held_live k _ parent x i a Hw Hx Ha Ha0) as [f Hf]; [lia|].
    destruct (file_hold_ok k1 _ a Hw1) as (k2 & Hh & Hw2 & Hs2 & Hi2 & _); [by exists f|].
    assert (Hboth : (write_fd child i a;;; file_hold a) k = Done (tt, k2)) by by mstep Hwr.
    mstep Hboth. destruct (IH (i + 1) k2) as (k' & Hrun & Hw' & Hx' & Hc' & Hi'); try done; try lia.
    + eapply fds_with_ext; [exact Hw2|done|done|bumps].
    + rewrite Hs2. unfold k1, put_fd. simpl. by rewrite lookup_insert_ne.
    + rewrite Hs2. unfold k1, put_fd. simpl. rewrite lookup_insert_eq. rewrite <- Hstep. done.
    + exists k'. split; [exact Hrun|]. split; [done|]. split; [done|]. split; [done|]. by rewrite Hi', Hi2.
Qed.
End share.


(** ** Witness: a parent with one open file *)

Definition ex_forker : process := ex_process 0 0 0 0 (70 :: replicate 1023 0) None.
Definition ex_fork_kst : kst pmm :=
  let k := ex_kst ex_forker {[64 := ex_inode 0 0 0x1A4 100]} {[70 := mk_file 64 0 0 1]} ex_vfs in
  set_k_sched (set_procs (<[12 := blank_process 12]> {[11 := ex_forker]}) (k_sched k)) k.

Lemma holds_in_zeros a n : a ≠ 0 → holds_in a (replicate n 0) = 0%nat.
Proof. intros Ha. unfold holds_in. induction n as [|n IH]; [done|]. cbn [replicate]. rewrite filter_cons_False; [exact IH|]. by intros <-. Qed.
Lemma ex_fork_ok : fds_ok ex_fork_kst.
Proof.
  assert (Hs : ∀ a, a ≠ 0 → slots ex_fork_kst a = if decide (a = 70) then 1%nat else 0%nat).
  { intros a Ha. unfold slots. change (procs (k_sched ex_fork_kst)) with (<[12 := blank_process 12]> {[11 := ex_forker]} : gmap Z process).
    rewrite (sum_perm _ _ ((12, blank_process 12) :: map_to_list ({[11 := ex_forker]} : gmap Z process)))
      by (apply map_to_list_insert; by rewrite lookup_singleton_ne).
    rewrite map_to_list_singleton. cbn [sum_list_with snd]. change (p_fd_table (blank_process 12)) with (replicate 1024 0).
    change (p_fd_table ex_forker) with (70 :: replicate 1023 0).
    rewrite holds_in_zeros by done. pose proof (holds_in_zeros a 1023 Ha) as Hz. unfold holds_in in *. rewrite filter_cons.
    repeat case_decide; subst; try done; cbn [length]; rewrite Hz; done. }
  split.
  - intros a f Hf. change (({[70 := mk_file 64 0 0 1]} : gmap Z file) !! a = Some f) in Hf. apply lookup_singleton_Some in Hf as [<- <-].
    split; [done|]. rewrite Hs by done. done.
  - intros a Ha Hn. rewrite Hs in Hn by done. case_decide; [subst; by eexists|done].
  - intros p y Hp. change ((<[12 := blank_process 12]> {[11 := ex_forker]} : gmap Z process) !! p = Some y) in Hp.
    apply lookup_insert_Some in Hp as [[<- <-]|[_ Hp]]; [by vm_compute|]. apply lookup_singleton_Some in Hp as [<- <-]. by vm_compute.
Qed.
