(* ===== verification/Path.v ===== *)
(** Calls on paths: [kernel/syscalls/open.c], [mkdir.c], [chdir.c] and
    [stat.c].  A buffer from [kmalloc] that only the call itself sees is the
    list of its bytes; the allocation that may fail is kept. *)
From S2P Require Export Proc Cred.
From S2P Require Import KString.
Local Open Scope prog_scope.

Definition O_CREAT : Z := 0x100.
Definition SLASH : Z := 47.
Definition DOT : Z := 46.
Definition DT_DIR : Z := 4.
Definition DT_REG : Z := 8.

(** The index of the last slash, [strrchr(s, '/')]. *)
Fixpoint last_slash (s : list Z) : option nat :=
  match s with
  | [] => None
  | c :: s' =>
      match last_slash s' with
      | Some i => Some (S i)
      | None => if c =? SLASH then Some O else None
      end
  end.
(** The parent path and the file name of [sys_open], [sys_unlink] and [sys_symlink]. *)
Definition split_path (s : list Z) : list Z * list Z :=
  match last_slash s with
  | Some O => ([SLASH], drop 1 s)
  | Some i => (take i s, drop (S i) s)
  | None => ([DOT], s)
  end.

Section path.
Context {FA : Type} `{!FrameAllocator FA} `{!Drivers FA}.
Context (devfs_root_node link_buf : Z).

(** [namei] on a string of the kernel. *)
Definition namei_of (s : list Z) : M (kst FA) Z :=
  root <- gets (λ k, vfs_root (k_vfs k));;
  if root =? 0 then ret 0
  else private_copy;;; namei_restart devfs_root_node link_buf (Z.to_nat MAX_SYMLINK_DEPTH) s.

(** [copy_string_from_user], one byte at a time, into a buffer of the kernel. *)
Fixpoint string_loop (n : nat) (src : Z) : M (kst FA) (option (list Z)) :=
  match n with
  | O => ret None
  | S n' =>
      o <- copy_bytes_from_user src 1;;
      match o with
      | Some [c] => if c =? 0 then ret (Some []) else l <- string_loop n' (src + 1);; ret (cons c <$> l)
      | _ => ret None
      end
  end.
Definition copy_string_from_user (src max_len : Z) : M (kst FA) (option (list Z)) := string_loop (Z.to_nat max_len) src.
(** [kmalloc(256)] and [copy_string_from_user]. *)
Definition kpath_of (path : Z) : M (kst FA) (option (list Z)) :=
  a <- kalloc;; if a =? 0 then ret None else copy_string_from_user path 256.

(** ** [open.c] *)

(** The allocation of the two buffers is not tested before they are written. *)
Definition create_at (s : list Z) : M (kst FA) Z :=
  a <- kalloc;;
  b <- kalloc;;
  if (a =? 0) || (b =? 0) then faultM
  else
    let '(dir, name) := split_path s in
    parent <- namei_of dir;;
    if parent =? 0 then ret 0
    else node <- vfs_create parent name;; vfs_close parent;;; ret node.
(** [success:]; the node may be NULL. *)
Definition open_node (node flags : Z) : M (kst FA) Z :=
  fd <- fd_alloc;;
  if fd <? 0 then vfs_close node;;; ret (-1)
  else
    f <- file_new node flags;;
    if f =? 0 then fd_free fd;;; vfs_close node;;; ret (-1)
    else
      p <- current_process;;
      write_fd p fd f;;;
      vfs_close node;;;
      ret fd.
Definition sys_open (path flags : Z) : M (kst FA) Z :=
  if path =? 0 then ret (-1)
  else
    o <- kpath_of path;;
    match o with
    | None => ret (-1)
    | Some s =>
        node <- namei_of s;;
        if (node =? 0) && has flags O_CREAT then node <- create_at s;; open_node node flags
        else if node =? 0 then ret (-1)
        else open_node node flags
    end.

Definition sys_unlink (path : Z) : M (kst FA) Z :=
  if path =? 0 then ret (-1)
  else
    o <- kpath_of path;;
    match o with
    | None => ret (-1)
    | Some s =>
        a <- kalloc;;
        b <- kalloc;;
        if (a =? 0) || (b =? 0) then ret (-1)
        else
          let '(dir, name) := split_path s in
          parent <- namei_of dir;;
          if parent =? 0 then ret (-1)
          else r <- vfs_unlink parent name;; vfs_close parent;;; ret r
    end.
Definition sys_symlink (path1 path2 : Z) : M (kst FA) Z :=
  if (path1 =? 0) || (path2 =? 0) then ret (-1)
  else
    o1 <- kpath_of path1;;
    match o1 with
    | None => ret (-1)
    | Some s1 =>
        o2 <- kpath_of path2;;
        match o2 with
        | None => ret (-1)
        | Some s2 =>
            a <- kalloc;;
            b <- kalloc;;
            if (a =? 0) || (b =? 0) then ret (-1)
            else
              let '(dir, name) := split_path s2 in
              parent <- namei_of dir;;
              if parent =? 0 then ret (-1)
              else
                created <- vfs_symlink parent name s1;;
                (if created =? 0 then ret tt else vfs_close created);;;
                vfs_close parent;;;
                ret (if created =? 0 then -1 else 0)
        end
    end.

(** [resolve_parent_and_name]; the path is read through the user's pointer. *)
Definition resolve_parent_and_name (path : Z) : M (kst FA) (option (Z * list Z)) :=
  s <- raw_string path;;
  private_copy;;;
  let found parent name := if parent =? 0 then ret None else ret (Some (parent, name)) in
  match last_slash s with
  | Some O => root <- gets (λ k, vfs_root (k_vfs k));; vfs_retain root;;; found root (drop 1 s)
  | Some i => parent <- namei_of (take i s);; found parent (drop (S i) s)
  | None =>
      root <- gets (λ k, vfs_root (k_vfs k));;
      parent <- with_proc root (λ p, x <- proc_of p;; ret (if p_cwd x =? 0 then root else p_cwd x));;
      vfs_retain parent;;;
      found parent s
  end.
Definition sys_link (oldpath newpath : Z) : M (kst FA) Z :=
  old <- raw_string oldpath;;
  target <- namei_of old;;
  if target =? 0 then ret (-1)
  else
    o <- resolve_parent_and_name newpath;;
    match o with
    | None => vfs_close target;;; ret (-1)
    | Some (parent, name) =>
        r <- vfs_link parent name target;;
        vfs_close parent;;;
        vfs_close target;;;
        ret r
    end.
Definition sys_mknod (path mode dev : Z) : M (kst FA) Z :=
  o <- resolve_parent_and_name path;;
  match o with
  | None => ret (-1)
  | Some (parent, name) =>
      node <- vfs_mknod parent name mode dev;;
      (if node =? 0 then ret tt else vfs_close node);;;
      vfs_close parent;;;
      ret (if node =? 0 then -1 else 0)
  end.

(** ** [mkdir.c] *)

(** The parent directory and the name of [sys_mkdir] and [sys_rmdir]; [p] is the
    current process. *)
Definition dir_parent (p : Z) (s : list Z) : M (kst FA) (Z * list Z) :=
  match last_slash s with
  | Some O => root <- gets (λ k, vfs_root (k_vfs k));; vfs_retain root;;; ret (root, drop 1 s)
  | Some i => parent <- namei_of (take i s);; ret (parent, drop (S i) s)
  | None =>
      root <- gets (λ k, vfs_root (k_vfs k));;
      x <- proc_of p;;
      let parent := if p_cwd x =? 0 then root else p_cwd x in
      vfs_retain parent;;;
      ret (parent, s)
  end.
Definition sys_mkdir (path mode : Z) : M (kst FA) Z :=
  if path =? 0 then ret (-1)
  else
    p <- current_process;;
    if p =? 0 then ret (-1)
    else
      s <- raw_string path;;
      copy <- kalloc;;
      if copy =? 0 then ret (-1)
      else
        r <- dir_parent p s;;
        let '(parent, name) := r in
        if parent =? 0 then ret (-1)
        else
          n <- get_inode parent;;
          if negb (has (in_flags n) FS_DIRECTORY) then vfs_close parent;;; ret (-1)
          else
            match op_of ops_mkdir n with
            | None => vfs_close parent;;; ret (-1)
            | Some mkdir =>
                new_dir <- mkdir parent name;;
                vfs_close parent;;;
                if new_dir =? 0 then ret (-1) else vfs_close new_dir;;; ret 0
            end.
Definition sys_rmdir (path : Z) : M (kst FA) Z :=
  if path =? 0 then ret (-1)
  else
    p <- current_process;;
    if p =? 0 then ret (-1)
    else
      s <- raw_string path;;
      copy <- kalloc;;
      if copy =? 0 then ret (-1)
      else
        r <- dir_parent p s;;
        let '(parent, name) := r in
        if parent =? 0 then ret (-1)
        else
          n <- get_inode parent;;
          if negb (has (in_flags n) FS_DIRECTORY) then vfs_close parent;;; ret (-1)
          else
            match op_of ops_rmdir n with
            | None => vfs_close parent;;; ret (-1)
            | Some rmdir =>
                if bool_decide (name = [DOT]) || bool_decide (name = [DOT; DOT]) then vfs_close parent;;; ret (-1)
                else r <- rmdir parent name;; vfs_close parent;;; ret r
            end.

(** [dirent_t]: [d_name] is at offset 19. *)
Definition DIRENT_NAME : Z := 19.
(** The entry as it is stored, field by field, through the user's pointer:
    [strncpy] fills all of [d_name]. *)
Definition put_dirent (entry ino off reclen : Z) (is_dir : bool) (name : list Z) : M (kst FA) unit :=
  raw_write entry (le_bytes 8 ino);;;
  raw_write (entry + 8) (le_bytes 8 off);;;
  raw_write (entry + 16) (le_bytes 2 reclen);;;
  raw_write (entry + 18) [if is_dir then DT_DIR else DT_REG];;;
  raw_write (entry + DIRENT_NAME) (take 255 (name ++ replicate 255 0));;;
  raw_write (entry + DIRENT_NAME + 255) [0].
Definition reclen_of (name : list Z) : Z := Z.land (8 * 2 + 2 + 1 + (Z.of_nat (length name) + 1) + 7) (2 ^ 64 - 8).

(** The loop ends at the latest when the buffer is full, each entry being 24
    bytes or more. *)
Fixpoint dir_loop (fuel : nat) (readdir : Z → Z → M (kst FA) (Z * list Z * Z)) (dir id buf nbytes bytes_written index : Z) : M (kst FA) (Z * Z) :=
  match fuel with
  | O => faultM
  | S f =>
      if nbytes <=? bytes_written then ret (bytes_written, index)
      else
        r <- readdir dir index;;
        let '(result, name, is_dir) := r in
        if result =? 0 then ret (bytes_written, index)
        else
          let reclen := reclen_of name in
          if nbytes <? bytes_written + reclen then ret (bytes_written, index)
          else
            put_dirent (buf + bytes_written) (u64 (id + index + 1)) (u64 (index + 1)) (reclen mod 2 ^ 16) (negb (is_dir =? 0)) name;;;
            dir_loop f readdir dir id buf nbytes (bytes_written + reclen) (i32 (index + 1))
  end.
Definition sys_getdirentries (fd buf nbytes basep : Z) : M (kst FA) Z :=
  if (buf =? 0) || (nbytes =? 0) then ret (-1)
  else
    with_proc (-1) (λ p,
      a <- fd_get fd;;
      if a =? 0 then ret (-1)
      else
        f <- get_file a;;
        if f_inode f =? 0 then ret (-1)
        else
          n <- get_inode (f_inode f);;
          if negb (has (in_flags n) FS_DIRECTORY) then ret (-1)
          else
            match op_of ops_readdir n with
            | None => ret (-1)
            | Some readdir =>
                index <- (if basep =? 0 then ret (i32 (f_offset f)) else l <- raw_read basep 8;; ret (i32 (of_le l)));;
                r <- dir_loop (S (Z.to_nat nbytes)) readdir (f_inode f) (in_id n) buf nbytes 0 index;;
                let '(bytes_written, index) := r in
                mod_file a (set_f_offset (u64 index));;;
                (if basep =? 0 then ret tt else raw_write basep (le_bytes 8 (u64 index)));;;
                ret (i64 bytes_written)
            end).

(** ** [chdir.c] *)

(** The path is read again, through the user's pointer. *)
Definition sys_chdir (path : Z) : M (kst FA) Z :=
  if path =? 0 then ret (-1)
  else
    p <- current_process;;
    if p =? 0 then ret (-1)
    else
      kbuf <- kalloc;;
      if kbuf =? 0 then ret (-1)
      else
        ok <- copy_from_user kbuf path 256;;
        if negb (ok =? 0) then kfree_bytes kbuf;;; ret (-1)
        else
          s <- raw_string path;;
          node <- namei_of s;;
          if node =? 0 then ret (-1)
          else
            n <- get_inode node;;
            if negb (has (in_flags n) FS_DIRECTORY) then vfs_close node;;; ret (-1)
            else
              x <- proc_of p;;
              (if p_cwd x =? 0 then ret tt else vfs_close (p_cwd x));;;
              upd_proc p (set_p_cwd node);;;
              kfree_bytes kbuf;;;
              ret 0.
Definition sys_fchdir (fd : Z) : M (kst FA) Z :=
  p <- current_process;;
  if p =? 0 then ret (-1)
  else if (fd <? 0) || (MAX_FD <=? fd) then ret (-1)
  else
    a <- read_fd p fd;;
    if a =? 0 then ret (-1)
    else
      f <- get_file a;;
      if f_inode f =? 0 then ret (-1)
      else
        n <- get_inode (f_inode f);;
        if negb (has (in_flags n) FS_DIRECTORY) then ret (-1)
        else
          vfs_retain (f_inode f);;;
          x <- proc_of p;;
          (if p_cwd x =? 0 then ret tt else vfs_close (p_cwd x));;;
          upd_proc p (set_p_cwd (f_inode f));;;
          ret 0.

(** The nodes from [node] up to the root, exclusive, the lowest first: the two
    loops of [sys_getcwd] walk along them. *)
Fixpoint ancestors (fuel : nat) (node : Z) : M (kst FA) (list inode) :=
  match fuel with
  | O => faultM
  | S f =>
      root <- gets (λ k, vfs_root (k_vfs k));;
      if (node =? 0) || (node =? root) then ret []
      else
        n <- get_inode node;;
        if in_parent n =? 0 then ret [] else l <- ancestors f (in_parent n);; ret (n :: l)
  end.
(** [total_len] *)
Definition names_len (l : list inode) : Z := 1 + fold_right (λ n s, Z.of_nat (length (in_name n)) + 1 + s) 0 l.
(** The bytes the last loop puts in [kbuf]; [l] starts at the root. *)
Fixpoint join_names (l : list inode) : list Z :=
  match l with [] => [] | [n] => in_name n | n :: l' => in_name n ++ SLASH :: join_names l' end.
Definition cwd_bytes (l : list inode) : list Z := SLASH :: join_names (reverse l).

Definition sys_getcwd (buf size : Z) : M (kst FA) Z :=
  if (buf =? 0) || (size =? 0) then ret 0
  else
    with_proc 0 (λ p,
      x <- proc_of p;;
      root <- gets (λ k, vfs_root (k_vfs k));;
      let cwd := if p_cwd x =? 0 then root else p_cwd x in
      if cwd =? 0 then ret 0
      else
        kbuf <- kalloc;;
        if kbuf =? 0 then ret 0
        else
          n <- get_inode cwd;;
          if (cwd =? root) || (in_parent n =? 0) then
            if 2 <=? size then
              kput_bytes kbuf [SLASH; 0];;;
              ok <- copy_to_user buf kbuf 2;;
              ret (if ok =? 0 then i64 buf else 0)
            else ret 0
          else
            fuel <- gets (λ k, S (base.size (k_inodes k)));;
            l <- ancestors fuel cwd;;
            if size <=? names_len l then ret 0
            else
              components <- kalloc;;
              if components =? 0 then ret 0
              else
                kput_bytes kbuf (cwd_bytes l ++ [0]);;;
                ok <- copy_to_user buf kbuf (Z.of_nat (length (cwd_bytes l)) + 1);;
                ret (if ok =? 0 then i64 buf else 0)).

(** ** [stat.c] *)

Definition vfs_flags_to_mode (vfs_flags : Z) : Z :=
  let t := Z.land vfs_flags 0x0F in
  if t =? FS_FILE then S_IFREG
  else if t =? FS_DIRECTORY then S_IFDIR
  else if t =? FS_CHARDEVICE then S_IFCHR
  else if t =? FS_BLOCKDEVICE then S_IFBLK
  else S_IFREG.
(** [fill_stat], as the bytes of [stat_t]. *)
Definition stat_mode (n : inode) : Z :=
  if negb (Z.land (in_mode n) S_IFMT =? 0) then in_mode n
  else Z.lor (vfs_flags_to_mode (in_flags n)) (Z.land (in_mode n) 0xFFF).
Definition stat_blocks (n : inode) : Z :=
  if 0 <? ii_blocks (in_info n) then ii_blocks (in_info n) else u64 (in_size n + 511) / 512.
Definition fill_stat (n : inode) : list Z :=
  le_bytes 8 (ii_dev (in_info n)) ++ le_bytes 8 (in_id n) ++ le_bytes 4 (stat_mode n) ++
  le_bytes 4 (if 0 <? in_nlink n then in_nlink n else 1) ++ le_bytes 4 (in_uid n) ++ le_bytes 4 (in_gid n) ++
  le_bytes 8 (ii_rdev (in_info n)) ++ le_bytes 8 (in_size n) ++
  le_bytes 8 (if 0 <? ii_blksize (in_info n) then ii_blksize (in_info n) else 512) ++ le_bytes 8 (stat_blocks n) ++
  le_bytes 8 (ii_atime (in_info n)) ++ le_bytes 8 (ii_mtime (in_info n)) ++ le_bytes 8 (ii_ctime (in_info n)).

Definition sys_stat (path statbuf : Z) : M (kst FA) Z :=
  if (path =? 0) || (statbuf =? 0) then ret (-1)
  else
    with_proc (-1) (λ p, with_path devfs_root_node link_buf path (λ node,
      n <- get_inode node;;
      vfs_close node;;;
      ok <- copy_bytes_to_user statbuf (fill_stat n);;
      ret (if ok =? 0 then 0 else -1))).
Definition sys_fstat (fd statbuf : Z) : M (kst FA) Z :=
  if statbuf =? 0 then ret (-1)
  else
    with_proc (-1) (λ p,
      a <- fd_get fd;;
      if a =? 0 then ret (-1)
      else
        f <- get_file a;;
        if f_inode f =? 0 then ret (-1)
        else
          n <- get_inode (f_inode f);;
          ok <- copy_bytes_to_user statbuf (fill_stat n);;
          ret (if ok =? 0 then 0 else -1)).
Definition sys_lstat (path statbuf : Z) : M (kst FA) Z := sys_stat path statbuf.
End path.
