(* ===== verification/Exec.v ===== *)
(** Starting a program, [kernel/syscalls/exec.c]: the initial stack of the new
    address space, the standard descriptors, [sys_execve] and [exec_init].  The
    registers loaded by [enter_usermode] are the result of a successful call. *)
From S2P Require Export Elf Devfs Path.
From S2P Require Import KString.
Local Open Scope prog_scope.

Definition AT_NULL : Z := 0.
Definition AT_PHENT : Z := 4.
Definition AT_PHNUM : Z := 5.
Definition AT_PAGESZ : Z := 6.
Definition AT_ENTRY : Z := 9.

(** [-1], or the entry point and the stack pointer given to [enter_usermode]. *)
Inductive exec_result := ExecFails | ExecEnters (entry sp : Z).

Section exec.
Context {FA : Type} `{!FrameAllocator FA} `{!Drivers FA}.
Context (devfs_root_node link_buf : Z).

(** ** The initial stack; [table] is the one of the new address space *)

(** A page of the stack, mapped if it is not; [false] for a failure. *)
Definition stack_page (table addr : Z) : M (kst FA) bool :=
  pte <- kpte_alloc table addr;;
  if pte =? 0 then ret false
  else
    e <- kread64 pte;;
    if has e PT_VALID then ret true
    else
      phys <- on_vm (on_pt alloc_frame);;
      if phys =? 0 then ret false
      else
        on_vm (on_pt (clear_page (P2V phys)));;;
        kwrite64 pte (stack_entry phys);;;
        ret true.
Definition ensure_user_page (table va : Z) : M (kst FA) bool := stack_page table (page_down va).

(** The loop of [copy_string_to_user] over the bytes of the string and its
    terminator. *)
Fixpoint copy_string_loop (l : list Z) (table addr : Z) : M (kst FA) bool :=
  match l with
  | [] => ret true
  | c :: l' =>
      ok <- ensure_user_page table addr;;
      if negb ok then ret false
      else
        o <- gets (λ k, user_phys (kram k) table addr);;
        match o with
        | None => ret false
        | Some phys => kwrite (P2V phys) c;;; copy_string_loop l' table (u64 (addr + 1))
        end
  end.
Definition copy_string_to_user (table : Z) (src : list Z) (dest : Z) : M (kst FA) Z :=
  ok <- copy_string_loop (src ++ [0]) table dest;;
  ret (if (ok : bool) then dest else 0).

(** The strings of one array, at most 32, to [string_ptr]: their addresses in
    [ptrs] and the next free address; [None] for a failure.  [str] reads the
    string at a pointer of the array. *)
Fixpoint copy_strings (n : nat) (str : Z → M (kst FA) (list Z)) (table : Z) (l : list Z) (string_ptr : Z)
    : M (kst FA) (option (list Z * Z)) :=
  match n, l with
  | S n', p :: l' =>
      s <- str p;;
      a <- copy_string_to_user table s string_ptr;;
      if a =? 0 then ret None
      else
        o <- copy_strings n' str table l' (u64 (string_ptr + Z.of_nat (length s) + 1));;
        ret (match o with Some (ptrs, e) => Some (a :: ptrs, e) | None => None end)
  | _, _ => ret (Some ([], string_ptr))
  end.

(** [STACK_PUSH]: the new stack pointer; the store is skipped when the page is
    not mapped. *)
Definition stack_push (table sp val : Z) : M (kst FA) Z :=
  let sp := u64 (sp - 8) in
  o <- gets (λ k, user_phys (kram k) table sp);;
  (match o with Some phys => kwrite64 (P2V phys) val | None => ret tt end);;;
  ret sp.
Fixpoint stack_pushes (table sp : Z) (l : list Z) : M (kst FA) Z :=
  match l with
  | [] => ret sp
  | v :: l' => sp <- stack_push table sp v;; stack_pushes table sp l'
  end.

(** The words pushed, in order: the auxiliary vector, the two arrays, [argc]. *)
Definition stack_words (er : elf_load_result) (argv_ptrs envp_ptrs : list Z) : list Z :=
  [0; AT_NULL; PAGE_SIZE; AT_PAGESZ; er_entry_point er; AT_ENTRY; er_phdr_count er; AT_PHNUM; SIZEOF_PHDR; AT_PHENT; 0] ++
  reverse envp_ptrs ++ [0] ++ reverse argv_ptrs ++ [Z.of_nat (length argv_ptrs)].

(** The four pages below [USER_STACK_TOP]. *)
Fixpoint stack_pages (n : nat) (table i : Z) : M (kst FA) bool :=
  match n with
  | O => ret true
  | S n' =>
      ok <- stack_page table (USER_STACK_TOP - (i + 1) * PAGE_SIZE);;
      if negb ok then ret false else stack_pages n' table (i + 1)
  end.

(** [argv] and [envp] are the pointers before the NULL of each array.  Only 32
    of each are copied, and the loops that push the addresses go through all of
    them: an array of more than 32 is read beyond its end. *)
Definition setup_user_stack (mm : Z) (str : Z → M (kst FA) (list Z)) (argv envp : list Z) (er : elf_load_result) : M (kst FA) Z :=
  m <- on_vm (get_mm mm);;
  let table := page_table m in
  stack_vma <- on_vm (vma_find mm (USER_STACK_TOP - PAGE_SIZE));;
  if stack_vma =? 0 then ret 0
  else
    ok <- stack_pages 4 table 0;;
    if negb ok then ret 0
    else
      let string_area_start := USER_STACK_TOP - 4096 in
      o <- copy_strings 32 str table argv string_area_start;;
      match o with
      | None => ret 0
      | Some (argv_ptrs, string_ptr) =>
          o <- copy_strings 32 str table envp string_ptr;;
          match o with
          | None => ret 0
          | Some (envp_ptrs, string_ptr) =>
              if (32 <? Z.of_nat (length argv)) || (32 <? Z.of_nat (length envp)) then faultM
              else stack_pushes table (andnot string_area_start 15) (stack_words er argv_ptrs envp_ptrs)
          end
      end.

(** ** [setup_standard_fds] *)

(** One of the three descriptors of process [proc]. *)
Definition standard_fd (proc fd flags : Z) (name : list Z) : M (kst FA * devfs) unit :=
  node <- devfs_fetch_device name;;
  if node =? 0 then ret tt
  else
    in_kst (
      f <- file_new node flags;;
      if f =? 0 then ret tt else write_fd proc fd f).
Definition setup_standard_fds (proc : Z) : M (kst FA * devfs) Z :=
  standard_fd proc 0 0 [115; 116; 100; 105; 110];;;
  standard_fd proc 1 1 [115; 116; 100; 111; 117; 116];;;
  standard_fd proc 2 1 [115; 116; 100; 101; 114; 114];;;
  in_kst (
    a <- read_fd proc 0;;
    b <- read_fd proc 1;;
    c <- read_fd proc 2;;
    ret (if (a =? 0) || (b =? 0) || (c =? 0) then -1 else 0)).

(** ** [elf_load_from_file] *)

Definition elf_load_from_file (mm file : Z) : M (kst FA) (option elf_load_result) :=
  if (mm =? 0) || (file =? 0) then ret None
  else
    n <- get_inode file;;
    let file_size := in_size n in
    if (file_size =? 0) || (64 * 1024 * 1024 <? file_size) then ret None
    else
      buffer <- kalloc;;
      if buffer =? 0 then ret None
      else
        bytes_read <- vfs_read file 0 file_size buffer;;
        if negb (bytes_read =? file_size) then kfree_bytes buffer;;; ret None
        else
          r <- on_vm (elf_load mm buffer file_size);;
          kfree_bytes buffer;;;
          ret r.

(** ** [sys_execve] and [exec_init] *)

(** The pointers of an array in kernel memory, up to NULL. *)
Fixpoint ptrs_at (fuel : nat) (m : mem) (a : Z) : option (list Z) :=
  match fuel with
  | O => None
  | S f => if load64 m a =? 0 then Some [] else cons (load64 m a) <$> ptrs_at f m (a + 8)
  end.
Definition kptrs (a : Z) : M (kst FA) (list Z) := λ k, of_opt (ptrs_at str_fuel (kram k) (V2P a)) k.

(** The copy of the arguments after the switch: it reads them in the new
    address space, and its result is not used. *)
Fixpoint reread_args (n : nat) (kargv i : Z) : M (kst FA) unit :=
  match n with
  | O => ret tt
  | S n' =>
      p <- gets (λ k, load64 (kram k) (V2P kargv + 8 * i));;
      if p =? 0 then ret tt
      else
        a <- kalloc;;
        copy_from_user a p 256;;;
        reread_args n' kargv (i + 1)
  end.

(** A kernel buffer of [n] bytes filled from user memory; [None] when either
    fails. *)
Definition fetch_user (p n : Z) : M (kst FA) (option Z) :=
  a <- kalloc;;
  if a =? 0 then ret None
  else
    r <- copy_from_user a p n;;
    if negb (r =? 0) then kfree_bytes a;;; ret None else ret (Some a).

(** The strings of the arguments are in the address space of the caller, which
    is still the current one. *)
Definition exec_image (p file kargv kenvp : Z) : M (kst FA) exec_result :=
  new_mm <- on_vm mm_create;;
  if new_mm =? 0 then vfs_close file;;; ret ExecFails
  else
    o <- elf_load_from_file new_mm file;;
    match o with
    | None => on_vm (mm_destroy new_mm);;; vfs_close file;;; ret ExecFails
    | Some er =>
        vfs_close file;;;
        argv <- kptrs kargv;;
        envp <- kptrs kenvp;;
        user_sp <- setup_user_stack new_mm raw_string argv envp er;;
        if user_sp =? 0 then on_vm (mm_destroy new_mm);;; ret ExecFails
        else
          x <- proc_of p;;
          upd_proc p (set_p_mm new_mm);;;
          reread_args 31 kargv 0;;;
          (if negb (p_mm x =? 0) then on_vm (mm_destroy (p_mm x)) else ret tt);;;
          ret (ExecEnters (er_entry_point er) user_sp)
    end.
Definition sys_execve (path argv envp : Z) : M (kst FA) exec_result :=
  if path =? 0 then ret ExecFails
  else
    o <- fetch_user argv 2048;;
    match o with
    | None => ret ExecFails
    | Some kargv =>
        o <- fetch_user envp 2048;;
        match o with
        | None => ret ExecFails
        | Some kenvp =>
            o <- fetch_user path 256;;
            match o with
            | None => ret ExecFails
            | Some kpath =>
                s <- kstring kpath;;
                file <- namei_of devfs_root_node link_buf s;;
                if file =? 0 then ret ExecFails
                else
                  q <- current_proc;;
                  match q with
                  | None => vfs_close file;;; ret ExecFails
                  | Some p => exec_image p file kargv kenvp
                  end
            end
        end
    end.

(** [path], and the two strings of the environment, are strings of the kernel. *)
Definition exec_init (path path_env home_env : Z) : M (kst FA) exec_result :=
  s <- kstring path;;
  file <- namei_of devfs_root_node link_buf s;;
  if file =? 0 then ret ExecFails
  else
    q <- current_proc;;
    match q with
    | None => vfs_close file;;; ret ExecFails
    | Some p =>
        x <- proc_of p;;
        if p_mm x =? 0 then vfs_close file;;; ret ExecFails
        else
          o <- elf_load_from_file (p_mm x) file;;
          match o with
          | None => vfs_close file;;; ret ExecFails
          | Some er =>
              vfs_close file;;;
              user_sp <- setup_user_stack (p_mm x) kstring [path] [path_env; home_env] er;;
              ret (if user_sp =? 0 then ExecFails else ExecEnters (er_entry_point er) user_sp)
          end
    end.
End exec.
