(* ===== verification/Mmap.v ===== *)
(** [kernel/syscalls/mmap.c] and [kernel/syscalls/time.c].  The cache and TLB
    maintenance of [munmap] is left out; the clocks are parameters. *)
From S2P Require Export Path.
Local Open Scope prog_scope.

Definition PROT_READ : Z := 1.
Definition PROT_WRITE : Z := 2.
Definition PROT_EXEC : Z := 4.
Definition MAP_SHARED : Z := 1.
Definition MAP_PRIVATE : Z := 2.
Definition MAP_FIXED : Z := 0x10.
Definition MAP_ANONYMOUS : Z := 0x20.
Definition EINVAL : Z := 22.
Definition ENOMEM : Z := 12.
Definition EBADF : Z := 9.
Definition EACCES : Z := 13.
Definition O_RDONLY : Z := 1.
Definition O_WRONLY : Z := 2.
Definition O_RDWR : Z := 3.
Definition USER_SPACE_START : Z := 0.
Definition CLOCK_REALTIME : Z := 0.
Definition CLOCK_MONOTONIC : Z := 1.
Definition CLOCK_MONOTONIC_RAW : Z := 4.

(** The flags of the area. *)
Definition mmap_vma_flags (prot flags : Z) : Z :=
  Z.lor (Z.lor (Z.lor (if has prot PROT_READ then VMA_READ else 0) (if has prot PROT_WRITE then VMA_WRITE else 0))
    (if has prot PROT_EXEC then VMA_EXEC else 0)) (if has flags MAP_SHARED then VMA_SHARED else 0).
(** The two tests of the file's flags that give EACCES. *)
Definition mmap_denied (prot flags fflags : Z) : bool :=
  (has prot PROT_READ && negb (has fflags O_RDONLY) && negb (has fflags O_RDWR)) ||
  ((has prot PROT_WRITE && has flags MAP_SHARED) && (negb (has fflags O_WRONLY) && negb (has fflags O_RDWR))).
(** [(x + PAGE_SIZE - 1) & ~(PAGE_SIZE - 1)] *)
Definition page_align (x : Z) : Z := Z.land (u64 (x + 4095)) (2 ^ 64 - 4096).

Section mmap.
Context {FA : Type} `{!FrameAllocator FA} `{!Drivers FA}.

(** [current_task && current_task->proc && current_task->proc->mm] *)
Definition with_mm_ptr (body : Z → Z → M (kst FA) Z) : M (kst FA) Z :=
  with_proc (- EINVAL) (λ p, x <- proc_of p;; if p_mm x =? 0 then ret (- EINVAL) else body p (p_mm x)).

Definition sys_mmap (addr length prot flags fd offset : Z) : M (kst FA) Z :=
  with_mm_ptr (λ p mm,
    if length =? 0 then ret (- EINVAL)
    else
      let aligned_length := page_align length in
      if negb (has flags MAP_ANONYMOUS) && has offset 4095 then ret (- EINVAL)
      else if has flags MAP_SHARED && has flags MAP_PRIVATE then ret (- EINVAL)
      else if negb (has flags MAP_SHARED) && negb (has flags MAP_PRIVATE) then ret (- EINVAL)
      else
        let vma_flags := mmap_vma_flags prot flags in
        let fixed := has flags MAP_FIXED in
        if fixed && (has addr 4095 || (addr <? USER_SPACE_START) || (USER_SPACE_END <? u64 (addr + aligned_length))) then ret (- EINVAL)
        else
          (if fixed then on_vm (vma_unmap mm addr (u64 (addr + aligned_length)));;; ret tt else ret tt);;;
          let map_addr := if fixed then addr else if addr =? 0 then 0 else page_align addr in
          if has flags MAP_ANONYMOUS then
            r <- on_vm (vma_allocate mm map_addr aligned_length vma_flags);;
            ret (if r =? 0 then - ENOMEM else i64 r)
          else if (fd <? 0) || (MAX_FD <=? fd) then ret (- EBADF)
          else
            a <- read_fd p fd;;
            if a =? 0 then ret (- EBADF)
            else
              f <- get_file a;;
              if f_inode f =? 0 then ret (- EBADF)
              else
                n <- get_inode (f_inode f);;
                let type := Z.land (in_flags n) 0x0F in
                match (if (type =? FS_CHARDEVICE) || (type =? FS_BLOCKDEVICE) then op_of ops_mmap n else None) with
                | Some op => op (f_inode f) map_addr aligned_length prot flags offset
                | None =>
                    if mmap_denied prot flags (f_flags f) then ret (- EACCES)
                    else if fixed then
                      new_vma <- on_vm (vma_create map_addr (u64 (map_addr + aligned_length)) vma_flags VMA_FILE);;
                      if new_vma =? 0 then ret (- ENOMEM)
                      else
                        on_vm (mod_vma new_vma (set_vm_file (f_inode f)));;;
                        on_vm (mod_vma new_vma (set_vm_pgoff (u64 offset)));;;
                        r <- on_vm (vma_insert mm new_vma);;
                        if r <? 0 then on_vm (kfree_vma new_vma);;; ret (- ENOMEM) else ret (i64 map_addr)
                    else
                      r <- on_vm (vma_allocate_file mm map_addr aligned_length vma_flags (f_inode f) (u64 offset));;
                      ret (if r =? 0 then - ENOMEM else i64 r)
                end).

Definition sys_munmap (addr length : Z) : M (kst FA) Z :=
  with_mm_ptr (λ p mm,
    if has addr 4095 then ret (- EINVAL)
    else if length =? 0 then ret (- EINVAL)
    else
      let end_ := u64 (addr + page_align length) in
      if (addr <? USER_SPACE_START) || (USER_SPACE_END <? end_) || (end_ <? addr) then ret (- EINVAL)
      else on_vm (vma_unmap mm addr end_)).

(** ** [time.c] *)

(** [get_realtime] and [get_monotonic_time], as seconds and nanoseconds, and
    [pl031_set_time]. *)
Context (realtime monotonic : M (kst FA) (Z * Z)) (pl031_set_time : Z → M (kst FA) unit).

Definition time_bytes (a b : Z) : list Z := le_bytes 8 a ++ le_bytes 8 b.
Definition sys_gettimeofday (tv tz : Z) : M (kst FA) Z :=
  ok <- (if tv =? 0 then ret 0
         else t <- realtime;; copy_bytes_to_user tv (time_bytes t.1 (t.2 / 1000)));;
  if ok <? 0 then ret (-1)
  else
    ok <- (if tz =? 0 then ret 0 else copy_bytes_to_user tz (replicate 8 0));;
    ret (if ok <? 0 then -1 else 0).
Definition sys_settimeofday (tv tz : Z) : M (kst FA) Z :=
  with_proc (-1) (λ p,
    x <- proc_of p;;
    if negb (p_euid x =? 0) then ret (-1)
    else if tv =? 0 then ret 0
    else
      o <- copy_bytes_from_user tv 16;;
      match o with
      | None => ret (-1)
      | Some l => pl031_set_time (u32 (of_le (take 8 l)));;; ret 0
      end).
Definition sys_clock_gettime (clk_id tp : Z) : M (kst FA) Z :=
  if tp =? 0 then ret (-1)
  else
    let finish clock := t <- clock;; ok <- copy_bytes_to_user tp (time_bytes t.1 t.2);; ret (if ok <? 0 then -1 else 0) in
    if clk_id =? CLOCK_REALTIME then finish realtime
    else if (clk_id =? CLOCK_MONOTONIC) || (clk_id =? CLOCK_MONOTONIC_RAW) then finish monotonic
    else ret (-1).
Definition sys_clock_settime (clk_id tp : Z) : M (kst FA) Z :=
  with_proc (-1) (λ p,
    x <- proc_of p;;
    if negb (p_euid x =? 0) then ret (-1)
    else if negb (clk_id =? CLOCK_REALTIME) then ret (-1)
    else
      o <- copy_bytes_from_user tp 16;;
      match o with
      | None => ret (-1)
      | Some l => pl031_set_time (u32 (of_le (take 8 l)));;; ret 0
      end).
Definition sys_clock_getres (clk_id res : Z) : M (kst FA) Z :=
  if res =? 0 then ret 0
  else
    let finish a b := ok <- copy_bytes_to_user res (time_bytes a b);; ret (if ok <? 0 then -1 else 0) in
    if clk_id =? CLOCK_REALTIME then finish 1 0
    else if (clk_id =? CLOCK_MONOTONIC) || (clk_id =? CLOCK_MONOTONIC_RAW) then finish 0 1
    else ret (-1).
Definition sys_time (tloc : Z) : M (kst FA) Z :=
  t <- realtime;;
  ok <- (if tloc =? 0 then ret 0 else copy_bytes_to_user tloc (le_bytes 8 t.1));;
  ret (if ok <? 0 then -1 else i64 t.1).
End mmap.

(** The test of the access mode lets every open mode through: O_RDWR has the
    bits of both other modes, so a file opened for reading only can be mapped
    shared and writable. *)
Lemma mmap_denied_iff prot flags fflags : mmap_denied prot flags fflags = true ↔
  Z.land fflags 3 = 0 ∧ (has prot PROT_READ = true ∨ has prot PROT_WRITE = true ∧ has flags MAP_SHARED = true).
Proof.
  assert (Hsub : ∀ m, Z.land m 3 = m → has fflags m = true → Z.land fflags 3 ≠ 0).
  { intros m Hm Hh H0. unfold has in Hh. apply negb_true_iff, Z.eqb_neq in Hh. apply Hh. by rewrite <- Hm, (Z.land_comm m), Z.land_assoc, H0. }
  assert (H3 : has fflags O_RDWR = true ↔ Z.land fflags 3 ≠ 0).
  { unfold has, O_RDWR. rewrite negb_true_iff, Z.eqb_neq. done. }
  unfold mmap_denied. pose proof (Hsub O_RDONLY eq_refl) as H1. pose proof (Hsub O_WRONLY eq_refl) as H2.
  destruct (has fflags O_RDWR), (has fflags O_RDONLY), (has fflags O_WRONLY), (has prot PROT_READ), (has prot PROT_WRITE), (has flags MAP_SHARED);
    simpl; destruct (decide (Z.land fflags 3 = 0)); intuition congruence.
Qed.
