(* ===== verification/Sysctl.v ===== *)
(** [kernel/syscalls/sysctl.c].  The addresses come from the user and are
    dereferenced as they are: [raw_read] and [raw_write] of [Uaccess]. *)
From S2P Require Export Mmap.
Local Open Scope prog_scope.

Definition CTL_HW : Z := 1.
Definition CTL_KERN : Z := 2.
Definition HW_MEMSIZE : Z := 1.
Definition HW_NCPU : Z := 2.
Definition HW_PAGESIZE : Z := 3.
Definition HW_CPUFREQ : Z := 4.
Definition HW_TBFREQ : Z := 5.
Definition HW_CACHELINE : Z := 6.
Definition HW_MODEL : Z := 7.
Definition HW_MACHINE : Z := 8.
Definition KERN_OSTYPE : Z := 1.
Definition KERN_OSRELEASE : Z := 2.
Definition KERN_VERSION : Z := 3.
Definition KERN_HOSTNAME : Z := 4.
Definition KERN_BOOTTIME : Z := 5.
Definition KERN_MAXPROC : Z := 6.
Definition KERN_MAXFILES : Z := 7.
Definition KERN_NPROCS : Z := 8.
Definition MAX_PROC : Z := 2000.

(** [sysctl_hw_t] and [sysctl_kern_t], the fields that are read; a string is
    its array of characters. *)
Record sysctl_hw := mk_sysctl_hw {
  hw_memsize : Z; hw_ncpu : Z; hw_pagesize : Z; hw_cpufrequency : Z; hw_tbfrequency : Z; hw_cachelinesize : Z;
  hw_model : list Z; hw_machine : list Z;
}.
Record sysctl_kern := mk_sysctl_kern {
  kern_ostype : list Z; kern_osrelease : list Z; kern_version : list Z; kern_hostname : list Z;
  kern_boottime : Z; kern_maxproc : Z; kern_maxfiles : Z; kern_nprocs : Z;
}.
(** [strlen] and the characters before the terminator. *)
Fixpoint c_string (l : list Z) : list Z := match l with [] => [] | c :: l' => if c =? 0 then [] else c :: c_string l' end.
Definition char_array (n : nat) (l : list Z) : list Z := l ++ replicate (n - length l) 0.
(** "valerioedx" *)
Definition OS_NAME : list Z := [118; 97; 108; 101; 114; 105; 111; 101; 100; 120].
Definition OS_RELEASE : list Z := [48; 46; 48; 46; 48].

(** What [dtb.c] and [timer.c] report is a parameter. *)
Definition sysctl_init (memory cpus cpufreq timer_frq boot_time : Z) (model compatible : list Z) : sysctl_hw * sysctl_kern :=
  (mk_sysctl_hw memory cpus 4096 cpufreq timer_frq 64 model compatible,
   mk_sysctl_kern (char_array 32 OS_NAME) (char_array 32 OS_RELEASE) (char_array 128 (OS_NAME ++ 32 :: OS_RELEASE))
     (char_array 64 OS_NAME) boot_time MAX_PROC MAX_FD 0).

Section sysctl.
Context {FA : Type} `{!FrameAllocator FA}.

(** A number of [size] bytes. *)
Definition get_number (size v oldp oldlenp : Z) : M (kst FA) Z :=
  (if (oldp =? 0) || (oldlenp =? 0) then ret tt
   else
     l <- raw_read oldlenp 8;;
     if size <=? of_le l then raw_write oldp (le_bytes (Z.to_nat size) v);;; raw_write oldlenp (le_bytes 8 size) else ret tt);;;
  ret 0.
(** A string; its length is stored even when there is no room. *)
Definition get_text (s : list Z) (oldp oldlenp : Z) : M (kst FA) Z :=
  (if (oldp =? 0) || (oldlenp =? 0) then ret tt
   else
     let len := Z.of_nat (length (c_string s)) + 1 in
     l <- raw_read oldlenp 8;;
     (if len <=? of_le l then raw_write oldp (c_string s ++ [0]) else ret tt);;;
     raw_write oldlenp (le_bytes 8 len));;;
  ret 0.

Definition sysctl_hw_item (hw : sysctl_hw) (item oldp oldlenp : Z) : M (kst FA) Z :=
  if item =? HW_MEMSIZE then get_number 8 (hw_memsize hw) oldp oldlenp
  else if item =? HW_NCPU then get_number 4 (hw_ncpu hw) oldp oldlenp
  else if item =? HW_PAGESIZE then get_number 4 (hw_pagesize hw) oldp oldlenp
  else if item =? HW_CPUFREQ then get_number 8 (hw_cpufrequency hw) oldp oldlenp
  else if item =? HW_TBFREQ then get_number 8 (hw_tbfrequency hw) oldp oldlenp
  else if item =? HW_CACHELINE then get_number 4 (hw_cachelinesize hw) oldp oldlenp
  else if item =? HW_MODEL then get_text (hw_model hw) oldp oldlenp
  else if item =? HW_MACHINE then get_text (hw_machine hw) oldp oldlenp
  else ret (-1).
(** Only the host name can be set. *)
Definition set_hostname (kern : sysctl_kern) (newp newlen : Z) : M (kst FA) sysctl_kern :=
  if negb (newp =? 0) && (0 <? newlen) && (newlen <? 64) then
    l <- raw_read newp newlen;;
    ret (mk_sysctl_kern (kern_ostype kern) (kern_osrelease kern) (kern_version kern)
      (l ++ 0 :: drop (S (Z.to_nat newlen)) (kern_hostname kern)) (kern_boottime kern) (kern_maxproc kern)
      (kern_maxfiles kern) (kern_nprocs kern))
  else ret kern.
Definition sysctl_kern_item (kern : sysctl_kern) (item oldp oldlenp newp newlen : Z) : M (kst FA) (Z * sysctl_kern) :=
  let get m := r <- m;; ret (r, kern) in
  if item =? KERN_OSTYPE then get (get_text (kern_ostype kern) oldp oldlenp)
  else if item =? KERN_OSRELEASE then get (get_text (kern_osrelease kern) oldp oldlenp)
  else if item =? KERN_VERSION then get (get_text (kern_version kern) oldp oldlenp)
  else if item =? KERN_HOSTNAME then
    get_text (kern_hostname kern) oldp oldlenp;;;
    kern' <- set_hostname kern newp newlen;;
    ret (0, kern')
  else if item =? KERN_BOOTTIME then get (get_number 8 (kern_boottime kern) oldp oldlenp)
  else if item =? KERN_MAXPROC then get (get_number 4 (kern_maxproc kern) oldp oldlenp)
  else if item =? KERN_MAXFILES then get (get_number 4 (kern_maxfiles kern) oldp oldlenp)
  else if item =? KERN_NPROCS then get (get_number 4 (kern_nprocs kern) oldp oldlenp)
  else ret (-1, kern).
(** The result and the new contents of [kern]. *)
Definition sys_sysctl (hw : sysctl_hw) (kern : sysctl_kern) (name namelen oldp oldlenp newp newlen : Z) : M (kst FA) (Z * sysctl_kern) :=
  if namelen <? 2 then ret (-1, kern)
  else
    c <- raw_read name 4;;
    i <- raw_read (name + 4) 4;;
    let category := i32 (of_le c) in
    let item := i32 (of_le i) in
    if category =? CTL_HW then r <- sysctl_hw_item hw item oldp oldlenp;; ret (r, kern)
    else if category =? CTL_KERN then sysctl_kern_item kern item oldp oldlenp newp newlen
    else ret (-1, kern).
End sysctl.

(** ** A write to the kernel *)

Section facts.
Context {FA : Type} `{!FrameAllocator FA}.
Implicit Types k : kst FA.

Lemma raw_read_kernel k p n : PHYS_OFFSET <= p → raw_read p n k = Done (bytes_at (kram k) (V2P p) (Z.to_nat n), k).
Proof using Type. intros Hp. unfold raw_read. by rewrite (proj2 (Z.leb_le _ _)). Qed.
Lemma raw_write_kernel k p l : PHYS_OFFSET <= p → raw_write p l k = Done (tt, set_kram (put_bytes (kram k) (V2P p) l) k).
Proof using Type. intros Hp. unfold raw_write. by rewrite (proj2 (Z.leb_le _ _)). Qed.
Lemma put_bytes_away m a l y : (∀ i, 0 <= i < Z.of_nat (length l) → y ≠ a + i) → put_bytes m a l y = m y.
Proof using Type.
  revert m a. induction l as [|c l IH]; intros m a Hy; [done|]. cbn [put_bytes]. rewrite IH.
  - rewrite upd_ne; [done|]. specialize (Hy 0). cbn [length] in Hy. lia.
  - intros i Hi. specialize (Hy (i + 1)). cbn [length] in Hy. lia.
Qed.
End facts.
Lemma c_string_app l r : Forall (λ c, c ≠ 0) l → c_string (l ++ 0 :: r) = l.
Proof.
  induction 1 as [|c l Hc _ IH]; [done|]. cbn [app c_string]. rewrite (proj2 (Z.eqb_neq c 0)) by done. by rewrite IH.
Qed.

(** [sysctl] lets any process write to the kernel's memory.  Nothing tests
    the pointers a process passes, nor its rights: anyone can set the host name
    to up to 63 bytes of his choice, and asked for the host name, [sys_sysctl]
    stores it with its terminator at [oldp], which may be any address of the
    kernel's half whose length word [oldlenp] lies elsewhere. *)
Theorem sysctl_writes_kernel {FA} `{!FrameAllocator FA} (hw : sysctl_hw) kern (k : kst FA) name namelen oldp oldlenp newp l c i :
  2 <= namelen → PHYS_OFFSET <= oldp → PHYS_OFFSET <= oldlenp → newp ≠ 0 →
  raw_read name 4 k = Done (c, k) → of_le c = CTL_KERN → raw_read (name + 4) 4 k = Done (i, k) → of_le i = KERN_HOSTNAME →
  raw_read newp (Z.of_nat (length l)) k = Done (l, k) → Forall (λ c, c ≠ 0) l → (0 < length l < 64)%nat →
  ∃ kern1, sys_sysctl hw kern name namelen 0 0 newp (Z.of_nat (length l)) k = Done ((0, kern1), k) ∧
    (Z.of_nat (length l) < of_le (bytes_at (kram k) (V2P oldlenp) 8) →
     V2P oldlenp + 8 <= V2P oldp ∨ V2P oldp + Z.of_nat (length l) + 1 <= V2P oldlenp →
     ∃ k2, sys_sysctl hw kern1 name namelen oldp oldlenp 0 0 k = Done ((0, kern1), k2) ∧
       bytes_at (kram k2) (V2P oldp) (length l + 1) = l ++ [0]).
Proof.
  intros Hnl Holdp Holdl Hnewp Hrc Hc Hri Hi Hl Hnz Hlen.
  assert (Hhead : ∀ kern a b c d, sys_sysctl hw kern name namelen a b c d k = sysctl_kern_item kern KERN_HOSTNAME a b c d k).
  { intros kern0 a b d e. unfold sys_sysctl. rewrite (proj2 (Z.ltb_ge namelen 2)) by lia. mstep Hrc. mstep Hri. by rewrite Hc, Hi. }
  set (kern1 := mk_sysctl_kern (kern_ostype kern) (kern_osrelease kern) (kern_version kern)
      (l ++ 0 :: drop (S (length l)) (kern_hostname kern)) (kern_boottime kern) (kern_maxproc kern) (kern_maxfiles kern) (kern_nprocs kern)).
  assert (Hset : set_hostname kern newp (Z.of_nat (length l)) k = Done (kern1, k)).
  { unfold set_hostname. rewrite (proj2 (Z.eqb_neq newp 0)) by done.
    rewrite (proj2 (Z.ltb_lt 0 _)), (proj2 (Z.ltb_lt _ 64)) by lia. cbn [negb andb]. mstep Hl.
    by rewrite Nat2Z.id. }
  exists kern1. split.
  - rewrite Hhead. change (sysctl_kern_item kern KERN_HOSTNAME 0 0 newp (Z.of_nat (length l)) k) with
      ((ret tt;;; ret 0;;; kern' <- set_hostname kern newp (Z.of_nat (length l));; ret (0, kern')) k). mret. mret. by mstep Hset.
  - intros Hroom Hdisj. rewrite Hhead. set (m1 := put_bytes (kram k) (V2P oldp) (l ++ [0])).
    set (m2 := put_bytes m1 (V2P oldlenp) (le_bytes 8 (Z.of_nat (length l) + 1))). exists (set_kram m2 k).
    assert (Hstr : c_string (kern_hostname kern1) = l) by (apply c_string_app; exact Hnz).
    assert (Htext : get_text (kern_hostname kern1) oldp oldlenp k = Done (0, set_kram m2 k)).
    { unfold get_text. rewrite Hstr, (proj2 (Z.eqb_neq oldp 0)), (proj2 (Z.eqb_neq oldlenp 0)) by (unfold PHYS_OFFSET in *; lia). cbn [orb]. cbv zeta.
      assert (Hin : (l0 <- raw_read oldlenp 8;; (if Z.of_nat (length l) + 1 <=? of_le l0 then raw_write oldp (l ++ [0]) else ret ());;;
        raw_write oldlenp (le_bytes 8 (Z.of_nat (length l) + 1))) k = Done (tt, set_kram m2 k)).
      { mstep (raw_read_kernel k oldlenp 8 Holdl). change (Z.to_nat 8) with 8%nat. rewrite (proj2 (Z.leb_le _ _)) by lia.
        mstep (raw_write_kernel k oldp (l ++ [0]) Holdp). by rewrite (raw_write_kernel _ oldlenp _ Holdl). }
      by mstep Hin. }
    split.
    + change (sysctl_kern_item kern1 KERN_HOSTNAME oldp oldlenp 0 0 k) with
        ((get_text (kern_hostname kern1) oldp oldlenp;;; kern' <- ret kern1;; ret (0, kern')) k). by mstep Htext.
    + change (kram (set_kram m2 k)) with m2. replace (length l + 1)%nat with (length (l ++ [0])) by (rewrite length_app; done).
      rewrite (bytes_at_ext m1 m2); [apply bytes_at_put|]. intros y Hy. unfold m2. apply put_bytes_away.
      rewrite length_app in Hy. cbn [length] in Hy. intros j Hi'. change (Z.of_nat (length (le_bytes 8 (Z.of_nat (length l) + 1)))) with 8 in Hi'. lia.
Qed.

(** ** Witness: a process of user 1000 *)

Definition ex_sysctl_kst : kst pmm :=
  set_kram (put_bytes (put_bytes (put_bytes ex_ram (ex_frame 5 + 64) (le_bytes 4 CTL_KERN ++ le_bytes 4 KERN_HOSTNAME))
    (ex_frame 5 + 128) [65; 66; 67]) (ex_frame 5 + 256) (le_bytes 8 64)) ex_ukst.
Lemma sysctl_writes_kernel_witness : let '(hw, kern) := sysctl_init 0 0 0 0 0 [] [] in ∃ kern1 k2,
  sys_sysctl hw kern (ex_buf + 64) 2 0 0 (ex_buf + 128) 3 ex_sysctl_kst = Done ((0, kern1), ex_sysctl_kst) ∧
  sys_sysctl hw kern1 (ex_buf + 64) 2 (ex_buf + 512) (ex_buf + 256) 0 0 ex_sysctl_kst = Done ((0, kern1), k2) ∧
  bytes_at (kram k2) (V2P (ex_buf + 512)) 4 = [65; 66; 67; 0].
Proof.
  destruct (sysctl_init 0 0 0 0 0 [] []) as [hw kern] eqn:Hs.
  destruct (sysctl_writes_kernel hw kern ex_sysctl_kst (ex_buf + 64) 2 (ex_buf + 512) (ex_buf + 256) (ex_buf + 128) [65; 66; 67]
    (le_bytes 4 CTL_KERN) (le_bytes 4 KERN_HOSTNAME)) as (kern1 & H1 & H2).
  - lia.
  - by vm_compute.
  - by vm_compute.
  - by vm_compute.
  - rewrite raw_read_kernel by by vm_compute. f_equal. 
  - done.
  - rewrite raw_read_kernel by by vm_compute. f_equal.
  - done.
  - rewrite raw_read_kernel by by vm_compute. f_equal.
  - repeat constructor; done.
  - simpl. lia.
  - destruct H2 as (k2 & H2 & H3); [by vm_compute|left; by vm_compute|]. exists kern1, k2. split; [exact H1|split; [exact H2|exact H3]].
Defined.
