(* ===== verification/Syscall.v ===== *)
(** The dispatcher, [kernel/syscalls/syscalls.c], and the system-call case of
    [el1_sync_handler] in [kernel/arch/aarch64/cpu/exceptions.c].

    The state is the kernel's together with the strings of [sysctl].  The trap
    frame is a value, since only the signal code changes it; [tfp] is its
    address, from which [fork] copies it.  The clocks and the static addresses are
    parameters. *)
From S2P Require Export Exec Mmap Sysctl.
Local Open Scope prog_scope.

Definition MAX_SYSCALLS : Z := 512.
Definition SYS_EXIT : Z := 1.
Definition SYS_FORK : Z := 2.
Definition SYS_READ : Z := 3.
Definition SYS_WRITE : Z := 4.
Definition SYS_OPEN : Z := 5.
Definition SYS_CLOSE : Z := 6.
Definition SYS_WAIT3 : Z := 7.
Definition SYS_LINK : Z := 9.
Definition SYS_UNLINK : Z := 10.
Definition SYS_CHDIR : Z := 12.
Definition SYS_FCHDIR : Z := 13.
Definition SYS_MKNOD : Z := 14.
Definition SYS_CHMOD : Z := 15.
Definition SYS_CHOWN : Z := 16.
Definition SYS_LSEEK : Z := 19.
Definition SYS_GETPID : Z := 20.
Definition SYS_SETUID : Z := 23.
Definition SYS_GETUID : Z := 24.
Definition SYS_GETEUID : Z := 25.
Definition SYS_CHFLAGS : Z := 34.
Definition SYS_FCHFLAGS : Z := 35.
Definition SYS_KILL : Z := 37.
Definition SYS_STAT : Z := 38.
Definition SYS_GETPPID : Z := 39.
Definition SYS_LSTAT : Z := 40.
Definition SYS_DUP : Z := 41.
Definition SYS_PIPE : Z := 42.
Definition SYS_GETEGID : Z := 43.
Definition SYS_SIGACTION : Z := 46.
Definition SYS_GETGID : Z := 47.
Definition SYS_SIGPROCMASK : Z := 48.
Definition SYS_SIGPENDING : Z := 52.
Definition SYS_IOCTL : Z := 54.
Definition SYS_REBOOT : Z := 55.
Definition SYS_SYMLINK : Z := 57.
Definition SYS_EXECVE : Z := 59.
Definition SYS_MUNMAP : Z := 73.
Definition SYS_GETCWD : Z := 76.
Definition SYS_GETGROUPS : Z := 79.
Definition SYS_SETGROUPS : Z := 80.
Definition SYS_GETPGRP : Z := 81.
Definition SYS_SETPGID : Z := 82.
Definition SYS_DUP2 : Z := 90.
Definition SYS_GETTIMEOFDAY : Z := 116.
Definition SYS_SETTIMEOFDAY : Z := 122.
Definition SYS_FCHOWN : Z := 123.
Definition SYS_FCHMOD : Z := 124.
Definition SYS_MKDIR : Z := 136.
Definition SYS_RMDIR : Z := 137.
Definition SYS_SETSID : Z := 147.
Definition SYS_GETPGID : Z := 151.
Definition SYS_SETGID : Z := 181.
Definition SYS_SETEGID : Z := 182.
Definition SYS_SETEUID : Z := 183.
Definition SYS_SIGRETURN : Z := 184.
Definition SYS_FSTAT : Z := 189.
Definition SYS_GETDIRENTRIES : Z := 196.
Definition SYS_MMAP : Z := 197.
Definition SYS_SYSCTL : Z := 202.
Definition SYS_CLOCK_GETTIME : Z := 232.
Definition SYS_CLOCK_SETTIME : Z := 233.
Definition SYS_CLOCK_GETRES : Z := 234.
Definition SYS_NANOSLEEP : Z := 240.
Definition SYS_GETSID : Z := 310.
Definition RB_HALT : Z := 0x08.
Definition RB_POWEROFF : Z := 0x4000.

(** How a call ends: with a result; the task has given up the CPU and the call
    goes on when it is switched to; the process is gone; the machine is halted
    or restarted; the process runs another program. *)
Inductive sys_result := SysRet (r : Z) | SysSwitch | SysExit | SysHalt | SysEnter (entry sp : Z).
(** What the supervisor call does to the processor: return to the program with
    the registers of a trap frame; enter a program at its entry point; give the
    CPU to another task; end the process or the machine. *)
Inductive svc_result := SvcReturns (tf : trapframe) | SvcEnters (entry sp : Z) | SvcSwitches | SvcEnds.

Section syscall.
Context {FA : Type} `{!FrameAllocator FA} `{!Drivers FA}.
Context (devfs_root_node link_buf pipe_read_ops pipe_write_ops current_interval : Z).
Context (realtime monotonic : M (kst FA) (Z * Z)) (pl031_set_time : Z → M (kst FA) unit).
Context (hw : sysctl_hw).

Definition on_kst {A} (m : M (kst FA) A) : M (kst FA * sysctl_kern) A := zoom fst (λ k s, (k, s.2)) m.
Definition sys_not_implemented : M (kst FA) Z := ret 0.
Definition sys_0 : M (kst FA) Z := ret 0.
Definition sys_reboot (howto : Z) : M (kst FA) sys_result :=
  u <- sys_getuid;;
  ret (if negb (u =? 0) then SysRet (-1) else SysHalt).

Definition returns (m : M (kst FA) Z) : M (kst FA * sysctl_kern) sys_result := on_kst (r <- m;; ret (SysRet r)).
Definition waits (m : M (kst FA) (option Z)) : M (kst FA * sysctl_kern) sys_result :=
  on_kst (o <- m;; ret (match o with Some r => SysRet r | None => SysSwitch end)).

(** [sys_sysctl] on the state. *)
Definition sysctl_call (name namelen oldp oldlenp newp newlen : Z) : M (kst FA * sysctl_kern) sys_result := λ s,
  match sys_sysctl hw s.2 name namelen oldp oldlenp newp newlen s.1 with
  | Done ((r, kern), k) => Done (SysRet r, (k, kern))
  | Fault => Fault
  | Stuck => Stuck
  end.
(** A sleep ends later, with [sys_nanosleep_end]; when it returned at once the
    end comes here. *)
Definition sys_nanosleep_pass (req rem : Z) : M (kst FA) (option Z) :=
  t <- gets (λ k, current_task (k_sched k));;
  r <- sys_nanosleep current_interval req;;
  if r <? 0 then ret (Some r)
  else
    t' <- gets (λ k, current_task (k_sched k));;
    if t =? t' then r <- sys_nanosleep_end rem;; ret (Some r) else ret None.

(** The [switch]. *)
Definition syscall_body (tfp num a0 a1 a2 a3 a4 a5 : Z) : M (kst FA * sysctl_kern) sys_result :=
  if num =? 0 then returns sys_0
  else if num =? SYS_EXIT then on_kst (sys_exit (i32 a0);;; ret SysExit)
  else if num =? SYS_FORK then returns (sys_fork tfp)
  else if num =? SYS_READ then returns (sys_read (u32 a0) a1 a2)
  else if num =? SYS_WRITE then returns (sys_write (u32 a0) a1 a2)
  else if num =? SYS_OPEN then returns (sys_open devfs_root_node link_buf a0 (i32 a1))
  else if num =? SYS_CLOSE then returns (sys_close (i32 a0))
  else if num =? SYS_WAIT3 then waits (sys_wait3_pass (i64 a0) a1 (i32 a2))
  else if num =? SYS_LINK then returns (sys_link devfs_root_node link_buf a0 a1)
  else if num =? SYS_UNLINK then returns (sys_unlink devfs_root_node link_buf a0)
  else if num =? SYS_CHDIR then returns (sys_chdir devfs_root_node link_buf a0)
  else if num =? SYS_FCHDIR then returns (sys_fchdir (i32 a0))
  else if num =? SYS_MKNOD then returns (sys_mknod devfs_root_node link_buf a0 (i32 a1) (i32 a2))
  else if num =? SYS_CHMOD then returns (sys_chmod devfs_root_node link_buf a0 (i64 a1))
  else if num =? SYS_CHOWN then returns (sys_chown devfs_root_node link_buf a0 a1 a2)
  else if num =? SYS_LSEEK then returns (sys_lseek (i32 a0) (i64 a1) (i32 a2))
  else if num =? SYS_GETPID then returns sys_getpid
  else if num =? SYS_SETUID then returns (sys_setuid (u32 a0))
  else if num =? SYS_GETUID then returns sys_getuid
  else if num =? SYS_GETEUID then returns sys_geteuid
  else if num =? SYS_CHFLAGS then returns (sys_chflags devfs_root_node link_buf a0 a1)
  else if num =? SYS_FCHFLAGS then returns (sys_fchflags (i32 a0) a1)
  else if num =? SYS_KILL then returns (sys_kill (i64 a0) (i32 a1))
  else if num =? SYS_STAT then returns (sys_stat devfs_root_node link_buf a0 a1)
  else if num =? SYS_GETPPID then returns sys_getppid
  else if num =? SYS_LSTAT then returns (sys_lstat devfs_root_node link_buf a0 a1)
  else if num =? SYS_DUP then returns (sys_dup (i32 a0))
  else if num =? SYS_PIPE then returns (sys_pipe pipe_read_ops pipe_write_ops a0)
  else if num =? SYS_GETEGID then returns sys_getegid
  else if num =? SYS_SIGACTION then returns (sys_sigaction (i32 a0) a1 a2)
  else if num =? SYS_GETGID then returns sys_getgid
  else if num =? SYS_SIGPROCMASK then returns (sys_sigprocmask (i32 a0) a1 a2)
  else if num =? SYS_SIGPENDING then returns (sys_sigpending a0)
  else if num =? SYS_IOCTL then returns (sys_ioctl (i32 a0) a1 a2)
  else if num =? SYS_REBOOT then on_kst (sys_reboot (i32 a0))
  else if num =? SYS_SYMLINK then returns (sys_symlink devfs_root_node link_buf a0 a1)
  else if num =? SYS_EXECVE then
    on_kst (r <- sys_execve devfs_root_node link_buf a0 a1 a2;;
            ret (match r with ExecFails => SysRet (-1) | ExecEnters entry sp => SysEnter entry sp end))
  else if num =? SYS_MUNMAP then returns (sys_munmap a0 a1)
  else if num =? SYS_GETCWD then returns (sys_getcwd a0 a1)
  else if num =? SYS_GETGROUPS then returns (sys_getgroups (i32 a0) a1)
  else if num =? SYS_SETGROUPS then returns (sys_setgroups (i32 a0) a1)
  else if num =? SYS_GETPGRP then returns sys_getpgrp
  else if num =? SYS_SETPGID then returns (sys_setpgid a0 a1)
  else if num =? SYS_DUP2 then returns (sys_dup2 (i32 a0) (i32 a1))
  else if num =? SYS_FCHOWN then returns (sys_fchown (i32 a0) a1 a2)
  else if num =? SYS_FCHMOD then returns (sys_fchmod (i32 a0) (i64 a1))
  else if num =? SYS_MKDIR then returns (sys_mkdir devfs_root_node link_buf a0 (i64 a1))
  else if num =? SYS_RMDIR then returns (sys_rmdir devfs_root_node link_buf a0)
  else if num =? SYS_SETSID then returns sys_setsid
  else if num =? SYS_GETPGID then returns (sys_getpgid a0)
  else if num =? SYS_SETGID then returns (sys_setgid (u32 a0))
  else if num =? SYS_SETEGID then returns (sys_setegid (u32 a0))
  else if num =? SYS_SETEUID then returns (sys_seteuid (u32 a0))
  else if num =? SYS_FSTAT then returns (sys_fstat (i32 a0) a1)
  else if num =? SYS_GETDIRENTRIES then returns (sys_getdirentries (i32 a0) a1 a2 a3)
  else if num =? SYS_MMAP then returns (sys_mmap a0 a1 (i32 a2) (i32 a3) (i32 a4) (i64 a5))
  else if num =? SYS_SYSCTL then sysctl_call a0 (u32 a1) a2 a3 a4 a5
  else if num =? SYS_NANOSLEEP then waits (sys_nanosleep_pass a0 a1)
  else if num =? SYS_GETSID then returns (sys_getsid a0)
  else if num =? SYS_GETTIMEOFDAY then returns (sys_gettimeofday realtime a0 a1)
  else if num =? SYS_SETTIMEOFDAY then returns (sys_settimeofday pl031_set_time a0 a1)
  else if num =? SYS_CLOCK_GETTIME then returns (sys_clock_gettime realtime monotonic (i64 a0) a1)
  else if num =? SYS_CLOCK_SETTIME then returns (sys_clock_settime pl031_set_time (i64 a0) a1)
  else if num =? SYS_CLOCK_GETRES then returns (sys_clock_getres (i64 a0) a1)
  else returns sys_not_implemented.

(** [syscall_handler]: the result and what became of the pending signals. *)
Definition syscall_handler (tfp : Z) (tf : trapframe) (num a0 a1 a2 a3 a4 a5 : Z)
    : M (kst FA * sysctl_kern) (sys_result * check_result) :=
  if MAX_SYSCALLS <=? num then ret (SysRet (-1), CheckDone tf)
  else
    r <- syscall_body tfp num a0 a1 a2 a3 a4 a5;;
    match r with
    | SysRet _ => c <- on_kst (signal_check_pending tf);; ret (r, c)
    | _ => ret (r, CheckDone tf)
    end.

Definition reg (tf : trapframe) (i : nat) : Z := nth i (tf_x tf) 0.
Definition set_reg (i : nat) (v : Z) (tf : trapframe) : trapframe := mk_trapframe (<[i := v]> (tf_x tf)) (tf_sp_el0 tf) (tf_elr tf) (tf_spsr tf).
(** The outcome of [signal_check_pending]. *)
Definition after_signals (c : check_result) : svc_result :=
  match c with CheckDone tf => SvcReturns tf | CheckExited => SvcEnds | CheckStopped => SvcSwitches end.
(** The system call of [el1_sync_handler]. *)
Definition svc (tfp : Z) (tf : trapframe) : M (kst FA * sysctl_kern) svc_result :=
  r <- syscall_handler tfp tf (reg tf 8) (reg tf 0) (reg tf 1) (reg tf 2) (reg tf 3) (reg tf 4) (reg tf 5);;
  match r with
  | (SysRet v, CheckDone tf') => c <- on_kst (signal_check_pending (set_reg 0 (u64 v) tf'));; ret (after_signals c)
  | (SysRet _, c) => ret (after_signals c)
  | (SysSwitch, _) => ret SvcSwitches
  | (SysEnter entry sp, _) => ret (SvcEnters entry sp)
  | (_, _) => ret SvcEnds
  end.
End syscall.

(** ** A signal at the end of a call *)

Section delivery.
Context {FA : Type} `{!FrameAllocator FA} `{!Drivers FA}.
Implicit Types k : kst FA.

Lemma on_kst_Done {A} (m : M (kst FA) A) k k' (kern : sysctl_kern) a : m k = Done (a, k') → on_kst m (k, kern) = Done (a, (k', kern)).
Proof using Type. intros H. unfold on_kst, zoom. simpl. by rewrite H. Qed.
Lemma current_process_runs k p x : runs k p x → current_process k = Done (p, k).
Proof using Type.
  intros (t & y & Ht & _ & Hy & Hp & _ & _). unfold current_process. unfold bind at 1, gets at 1. rewrite Ht.
  assert (Hg : on_sched (get_task t) k = Done (y, k)) by (unfold on_sched, zoom, get_task; rewrite Hy; simpl; by destruct k).
  mstep Hg. by rewrite Hp.
Qed.
Lemma sys_getpid_runs k p x : runs k p x → p ≠ 0 → sys_getpid k = Done (p_pid x, k).
Proof using Type.
  intros Hr Hp. unfold sys_getpid. mstep (current_process_runs k p x Hr). rewrite (proj2 (Z.eqb_neq p 0)) by done.
  by mstep (proc_of_Done k p x (runs_proc k p x Hr)).
Qed.

(** Nothing is pending: the check changes nothing. *)
Lemma check_nothing k p x si tf : runs k p x → p_signals x = Some si → sig_pending si = 0 →
  ∃ k', signal_check_pending tf k = Done (CheckDone tf, k') ∧ kram k' = kram k.
Proof using Type*.
  intros Hr Hsi Hp. unfold signal_check_pending. rewrite (with_proc_runs _ _ _ _ _ Hr).
  pose proof (proc_of_Done _ _ _ (runs_proc _ _ _ Hr)) as Hpo. mstep Hpo. rewrite Hsi.
  change 33%nat with (S 32). generalize 32%nat. intros fuel. cbn [check_loop]. mstep Hpo. rewrite Hsi.
  assert (signal_dequeue si = (0, si)) as ->.
  { unfold signal_dequeue. assert (deliverable si = 0) as ->; [|done]. unfold deliverable. rewrite Hp. done. }
  mstep (mod_signals_Done k p x (λ _, si) (runs_proc _ _ _ Hr)). change (0 =? 0) with true. cbv iota. eexists. by split.
Qed.
(** A signal with a handler. *)
Lemma check_handled k p x mm si si' tf sig act f : runs_mm k p x mm → p_signals x = Some si → signal_dequeue si = (sig, si') → sig ≠ 0 →
  zget (sig_actions si) (sig - 1) = Some act → sa_handler act ≠ SIG_DFL → sa_handler act ≠ SIG_IGN → tf_ok tf → 0 <= sig_blocked si < 2 ^ 32 →
  let sp := frame_sp tf in
  user_range (kram k) (page_table mm) sp SIZEOF_SIGFRAME SIZEOF_SIGFRAME f → sp + SIZEOF_SIGFRAME <= 2 ^ 64 →
  ∃ k' x' si1, signal_check_pending tf k = Done (CheckDone (handler_tf tf sig sp act), k') ∧
    runs k' p x' ∧ p_signals x' = Some si1 ∧ sig_pending si1 = sig_pending si' ∧
    (∀ i, 0 <= i < SIZEOF_SIGFRAME → kram k' (f i) = nth (Z.to_nat i) (sigframe_bytes (frame_of_tf tf si' sig)) 0).
Proof using Type*.
  intros Hr Hsi Hdq Hsig0 Hact Hd Hi Htf Hb sp Hur Hsp. pose proof Hr as [Hrun Hmm]. unfold signal_check_pending.
  rewrite (with_proc_runs _ _ _ _ _ Hrun). pose proof (proc_of_Done _ _ _ (runs_proc _ _ _ Hrun)) as Hpo. mstep Hpo. rewrite Hsi.
  change 33%nat with (S 32). generalize 32%nat. intros fuel. cbn [check_loop]. mstep Hpo. rewrite Hsi, Hdq.
  mstep (mod_signals_Done k p x (λ _, si') (runs_proc _ _ _ Hrun)). rewrite Hsi. set (x1 := set_p_signals _ x). set (k1 := put_proc p x1 k).
  rewrite (proj2 (Z.eqb_neq sig 0)) by done. pose proof (signal_dequeue_actions si) as Ha. rewrite Hdq in Ha. cbn [snd] in Ha.
  rewrite Ha, Hact. erewrite bind_Done by reflexivity. rewrite (proj2 (Z.eqb_neq _ SIG_IGN)), (proj2 (Z.eqb_neq _ SIG_DFL)) by done. cbn [andb].
  assert (Hb' : 0 <= sig_blocked si' < 2 ^ 32).
  { assert (sig_blocked si' = sig_blocked si) as ->; [|done]. pose proof (f_equal snd Hdq) as Hs. cbn [snd] in Hs. rewrite <- Hs.
    unfold signal_dequeue. destruct (deliverable si =? 0); [reflexivity|]. cbv zeta. destruct (first_signal _ _ _ =? 0); reflexivity. }
  assert (Hr1 : runs_mm k1 p x1 mm) by (split; [by eapply runs_put|exact Hmm]).
  destruct (setup_frame_ok k1 p x1 mm si' tf sig act f Hr1 eq_refl Htf Hb' Hur Hsp) as (m & si1 & Hset & Hm & _ & Hpend).
  mstep Hset. change ((0, handler_tf tf sig (frame_sp tf) act).1 <? 0) with false. cbv iota.
  eexists _, _, si1. split; [reflexivity|]. split; [eapply runs_put; exact (proj1 Hr1)|]. split; [done|]. split; [exact Hpend|]. exact (proj1 Hm).
Qed.
End delivery.

(** a handler run at the end of a system call gets the wrong argument, and
    the call loses its result.  [syscall_handler] delivers the signal before its
    caller stores the result: it sets register 0 to the signal number for the
    handler and saves on the user stack the register 0 of the interrupted program,
    still the first argument of the call; [el1_sync_handler] then overwrites
    register 0 with the result.  For a [getpid] with one signal pending: the
    handler is entered with the process id for its argument, and what it returns
    to has the argument of the call where the result should be. *)
Theorem syscall_signal_swaps_result {FA} `{!FrameAllocator FA} `{!Drivers FA} (dr lb ro wo ci : Z) rt mt pst hw kern
    (k : kst FA) p x mm si si' tf tfp sig act f :
  runs_mm k p x mm → p_signals x = Some si → signal_dequeue si = (sig, si') → sig ≠ 0 → sig_pending si' = 0 →
  zget (sig_actions si) (sig - 1) = Some act → sa_handler act ≠ SIG_DFL → sa_handler act ≠ SIG_IGN →
  tf_ok tf → reg tf 8 = SYS_GETPID → 0 <= sig_blocked si < 2 ^ 32 →
  let sp := frame_sp tf in
  user_range (kram k) (page_table mm) sp SIZEOF_SIGFRAME SIZEOF_SIGFRAME f → sp + SIZEOF_SIGFRAME <= 2 ^ 64 →
  ∃ k' tf', svc dr lb ro wo ci rt mt pst hw tfp tf (k, kern) = Done (SvcReturns tf', (k', kern)) ∧
    tf_elr tf' = sa_handler act ∧ reg tf' 0 = u64 (p_pid x) ∧
    (∀ i, 0 <= i < 8 → kram k' (f i) = nth (Z.to_nat i) (le_bytes 8 (reg tf 0)) 0).
Proof.
  intros Hr Hsi Hdq Hsig0 Hp0 Hact Hd Hi Htf Hnum Hb sp Hur Hsp. unfold svc, syscall_handler. rewrite Hnum.
  change (MAX_SYSCALLS <=? SYS_GETPID) with false. cbv iota.
  destruct (check_handled k p x mm si si' tf sig act f) as (k1 & x1 & si1 & Hck & Hr1 & Hs1 & Hp1 & Hbytes); try done.
  destruct (check_nothing k1 p x1 si1 (set_reg 0 (u64 (p_pid x)) (handler_tf tf sig sp act)) Hr1 Hs1 ltac:(congruence)) as (k2 & Hck2 & Hm2).
  exists k2, (set_reg 0 (u64 (p_pid x)) (handler_tf tf sig sp act)). split; [|split; [done|split]].
  - assert (Hpid : p ≠ 0) by (destruct Hr as [(t & y & _ & _ & _ & _ & ? & _) _]; done).
    change (syscall_body dr lb ro wo ci rt mt pst hw tfp SYS_GETPID (reg tf 0) (reg tf 1) (reg tf 2) (reg tf 3) (reg tf 4) (reg tf 5))
      with (@returns FA sys_getpid).
    assert (Hbody : returns sys_getpid (k, kern) = Done (SysRet (p_pid x), (k, kern))).
    { apply on_kst_Done. by mstep (sys_getpid_runs k p x (proj1 Hr) Hpid). }
    assert (Hhand : (r <- returns sys_getpid;; match r with
        | SysRet _ => c <- on_kst (signal_check_pending tf);; ret (r, c) | _ => ret (r, CheckDone tf) end) (k, kern) =
      Done ((SysRet (p_pid x), CheckDone (handler_tf tf sig sp act)), (k1, kern))).
    { mstep Hbody. by mstep (on_kst_Done _ k k1 kern _ Hck). }
    mstep Hhand. by mstep (on_kst_Done _ k1 k2 kern _ Hck2).
  - unfold reg, set_reg. cbn [tf_x handler_tf]. destruct (tf_x tf) as [|c l] eqn:Hx; [by destruct Htf as [Hlen _]; rewrite Hx in Hlen|done].
  - intros i Hi'. rewrite Hm2, Hbytes by (unfold SIZEOF_SIGFRAME; lia). unfold sigframe_bytes, frame_of_tf, reg. cbn [fr_x].
    destruct (tf_x tf) as [|c l] eqn:Hx; [by destruct Htf as [Hlen _]; rewrite Hx in Hlen|].
    change (take 31 (c :: l)) with (c :: take 30 l). cbn [app map concat nth]. rewrite <- app_assoc. apply app_nth1.
    rewrite le_bytes_length. lia.
Qed.

(** ** Witness *)

Definition ex_svc_signals : signal_struct := mk_signal_struct (replicate 32 (mk_sigaction 0x4000 0 0)) (sigmask 15) 0.
Definition ex_svc_process : process := ex_process 1000 1000 1000 1000 [] (Some ex_svc_signals).
Definition ex_svc_kst : kst pmm := ex_kst ex_svc_process ∅ ∅ ex_vfs.
Definition ex_svc_tf : trapframe := mk_trapframe (<[8%nat := 20]> (replicate 32 7)) 0x800 0x1000 0.
Lemma syscall_signal_swaps_result_witness : ∃ k' tf', let no := ret (0, 0) in
  svc (Drivers0 := ex_drivers) 0 0 0 0 10 no no (λ _, ret tt) (mk_sysctl_hw 0 0 0 0 0 0 [] []) 0 ex_svc_tf
    (ex_svc_kst, mk_sysctl_kern [] [] [] [] 0 0 0 0) = Done (SvcReturns tf', k') ∧ reg tf' 0 = 1.
Proof.
  destruct (@syscall_signal_swaps_result pmm _ ex_drivers 0 0 0 0 10 (ret (0, 0)) (ret (0, 0)) (λ _, ret tt)
    (mk_sysctl_hw 0 0 0 0 0 0 [] []) (mk_sysctl_kern [] [] [] [] 0 0 0 0) ex_svc_kst 11 ex_svc_process ex_mm ex_svc_signals (set_sig_pending 0 ex_svc_signals) ex_svc_tf 0 15 (mk_sigaction 0x4000 0 0) (ex_uphys 1744))
    as (k' & tf' & H1 & _ & H2 & _).
  - split; [apply ex_runs|done].
  - done.
  - by vm_compute.
  - done.
  - done.
  - done.
  - done.
  - done.
  - split; [done|]. split; [by apply (bool_decide_unpack _)|by split_and!].
  - done.
  - done.
  - apply (ex_user_range 1744 SIZEOF_SIGFRAME); unfold SIZEOF_SIGFRAME; lia.
  - by vm_compute.
  - eexists _, tf'. split; [exact H1|exact H2].
Defined.
