(* ===== verification/ULibc.v ===== *)
(** The system-call functions of the user C library, [user/src/unistd.c],
    [stat.c], [signal.c], [time.c], [dirent.c], [fcntl.c], [ioctl.c], [mman.c],
    [reboot.c], [sysctl.c], [wait.c] and [termios.c], and their meeting with the
    kernel's dispatcher.

    A function loads registers and executes [svc]: [trap] is given the number in
    x8 and the argument registers.  A register that holds an [int] has an upper
    half the compiler does not define; [hi] gives it, per register, and the
    theorems hold whatever it is.  Constants are loaded by an instruction, which
    clears the upper half.  The results of the functions are those of the
    kernel, [sys_result], since a call may also give up the CPU or not return. *)
From S2P Require Export TtyIo Syscall.
Local Open Scope prog_scope.

Definition TCSANOW : Z := 0.
Definition TCSADRAIN : Z := 1.
Definition TCSAFLUSH : Z := 2.
Definition EINVAL : Z := 22.
Definition SIG_ERR : Z := -1.

Section libc.
Context {S : Type} (trap : Z → list Z → M S sys_result) (hi : nat → Z).
(** Loads and stores of the program in its own memory. *)
Context (uget : Z → Z → M S (list Z)) (uput : Z → list Z → M S unit).

(** The register of the argument [i] when it holds the [int] [v]. *)
Definition w (i : nat) (v : Z) : Z := u32 v + 2 ^ 32 * u32 (hi i).
(** What a function makes of x0. *)
Definition map_ret (f : Z → Z) (r : sys_result) : sys_result := match r with SysRet v => SysRet (f (u64 v)) | r => r end.
Definition call (num : Z) (regs : list Z) (f : Z → Z) : M S sys_result := r <- trap num regs;; ret (map_ret f r).
(** A function that goes on after a call. *)
Definition and_then (m : M S sys_result) (k : Z → M S sys_result) : M S sys_result :=
  r <- m;; match r with SysRet v => k v | r => ret r end.

(** *** [unistd.c] *)
Definition write (fildes buf nbyte : Z) := call 4 [w 0 fildes; buf; nbyte] i32.
Definition read (fildes buf nbyte : Z) := call 3 [w 0 fildes; buf; nbyte] i32.
Definition getcwd (buf size : Z) := call 76 [buf; size] (λ x0, if i64 x0 <? 0 then 0 else buf).
Definition close (fildes : Z) := call 6 [w 0 fildes] i32.
Definition exit_ (status : Z) := call 1 [w 0 status] i32.
Definition getppid := call 39 [0] i32.
Definition getpid := call 20 [0] i32.
Definition fork := call 2 [0] i32.
Definition chdir (path : Z) := call 12 [path] i32.
Definition fchdir (fildes : Z) := call 13 [w 0 fildes] i32.
Definition execve (path argv envp : Z) := call 59 [path; argv; envp] i32.
Definition rmdir (path : Z) := call 137 [path] i32.
Definition unlink (path : Z) := call 10 [path] i32.
Definition setuid (uid : Z) := call 23 [w 0 uid] i32.
Definition setgid (gid : Z) := call 181 [w 0 gid] i32.
Definition seteuid (uid : Z) := call 183 [w 0 uid] i32.
Definition setegid (gid : Z) := call 182 [w 0 gid] i32.
Definition getuid := call 24 [0] i32.
Definition geteuid := call 25 [0] i32.
Definition getgid := call 47 [0] i32.
Definition getegid := call 43 [0] i32.
Definition getpgrp := call 81 [0] i32.
Definition setpgid (pid pgid : Z) := call 82 [w 0 pid; w 1 pgid] i32.
Definition setsid := call 147 [0] i32.
Definition getpgid (pid : Z) := call 151 [w 0 pid] i32.
Definition getsid (pid : Z) := call 310 [w 0 pid] i32.
Definition getgroups (gidsetsize grouplist : Z) := call 79 [w 0 gidsetsize; grouplist] i32.
Definition setgroups (gidsetsize grouplist : Z) := call 80 [w 0 gidsetsize; grouplist] i32.
Definition lseek (fildes offset whence : Z) := call 19 [w 0 fildes; offset; w 2 whence] i32.
Definition symlink (path1 path2 : Z) := call 57 [path1; path2] i32.
Definition dup (fildes : Z) := call 41 [w 0 fildes] i32.
Definition dup2 (fildes fildes2 : Z) := call 90 [w 0 fildes; w 1 fildes2] i32.
Definition chown (path owner group : Z) := call 15 [path; w 1 owner; w 2 group] i32.
Definition fchown (fildes owner group : Z) := call 123 [w 0 fildes; w 1 owner; w 2 group] i32.
Definition link (path1 path2 : Z) := call 9 [path1; path2] i32.
Definition pipe_ (fildes : Z) := call 42 [fildes] i32.

(** *** [stat.c], [dirent.c], [fcntl.c], [ioctl.c]

    [mkdir] and [getdirentries] do not name x8 among the operands of [svc]: the
    number is what the register happens to hold, [x8]. *)
Definition mkdir (x8 path mode : Z) := call x8 [path; mode] i32.
Definition stat (path buf : Z) := call 38 [path; buf] i32.
Definition fstat (fd buf : Z) := call 189 [w 0 fd; buf] i32.
Definition lstat (path buf : Z) := call 40 [path; buf] i32.
Definition chmod (path mode : Z) := call 15 [path; mode] i32.
Definition fchmod (fildes mode : Z) := call 124 [w 0 fildes; mode] i32.
Definition mknod (path mode dev : Z) := call 14 [path; mode; w 2 dev] i32.
Definition chflags (path flags : Z) := call 34 [path; flags] i32.
Definition fchflags (fildes flags : Z) := call 35 [w 0 fildes; flags] i32.
Definition getdirentries (x8 fildes buf nbytes basep : Z) := call x8 [w 0 fildes; buf; nbytes; basep] i32.
Definition open (path oflag : Z) := call 5 [path; w 1 oflag] i32.
Definition ioctl (fd request arg : Z) := call 54 [w 0 fd; request; arg] i32.

(** *** [mman.c], [reboot.c], [sysctl.c], [wait.c], [time.c], [sleep] *)
Definition munmap (addr len : Z) := call 73 [addr; len] i32.
Definition mmap (addr len prot flags fildes off : Z) := call 197 [addr; len; w 2 prot; w 3 flags; w 4 fildes; off] (λ x0, x0).
Definition reboot (howto : Z) := call 55 [w 0 howto] i32.
Definition sysctl (name namelen oldp oldlenp newp newlen : Z) := call 202 [name; w 1 namelen; oldp; oldlenp; newp; newlen] i32.
Definition waitpid (pid stat_loc options : Z) := call 7 [u64 pid; stat_loc; w 2 options] i32.
Definition wait (stat_loc : Z) := waitpid (-1) stat_loc 0.
Definition nanosleep (req rem : Z) := call 240 [req; rem] i32.
Definition sleep (ts seconds : Z) : M S sys_result :=
  uput ts (le_bytes 8 (u32 seconds) ++ le_bytes 8 0);;;
  and_then (nanosleep ts 0) (λ _, ret (SysRet 0)).

(** *** [signal.c] *)
Definition kill (pid sig : Z) := call 37 [w 0 pid; w 1 sig] i32.
Definition sigaction (sig act oldact : Z) := call 46 [w 0 sig; act; oldact] i32.
Definition sigprocmask (how set oldset : Z) := call 48 [w 0 how; set; oldset] i32.
Definition sigpending (set : Z) := call 52 [set] i32.
Definition raise (sig : Z) : M S sys_result := and_then getpid (λ pid, kill pid sig).
(** The structure has 24 bytes; [sa_sigaction], the last 8, is not set. *)
Definition signal (sa old sig handler : Z) : M S sys_result :=
  uput sa (le_bytes 8 handler ++ le_bytes 4 0 ++ le_bytes 4 0);;;
  and_then (sigaction sig sa old) (λ r,
    if r <? 0 then ret (SysRet SIG_ERR)
    else l <- uget old 8;; ret (SysRet (of_le l))).

(** *** [termios.c] *)
Definition tcdrain (fd : Z) : M S sys_result := ret (SysRet 0).
Definition tcsendbreak (fd duration : Z) : M S sys_result := ret (SysRet 0).
Definition tcflow (fd action : Z) := ioctl fd TCXONC (w 2 action).
Definition tcflush (fd queue_selector : Z) := ioctl fd TCFLSH (w 2 queue_selector).
Definition tcgetattr (fd termios_p : Z) := ioctl fd TCGETS termios_p.
(** [cmd] is an [int], the request an [unsigned long]. *)
Definition tcsetattr (set_errno : Z → M S unit) (fd optional_actions termios_p : Z) : M S sys_result :=
  if optional_actions =? TCSANOW then ioctl fd TCSETS termios_p
  else if optional_actions =? TCSADRAIN then ioctl fd TCSETSW termios_p
  else if optional_actions =? TCSAFLUSH then ioctl fd TCSETSF termios_p
  else set_errno EINVAL;;; ret (SysRet (-1)).
Definition tcgetwinsize (fd ws : Z) := ioctl fd TIOCGWINSZ ws.
Definition tcsetwinsize (fd ws : Z) := ioctl fd TIOCSWINSZ ws.
(** The address of the local variable, of four bytes, is [pgrp], [sid]. *)
Definition local_pid (m : M S sys_result) (p : Z) : M S sys_result :=
  and_then m (λ r, if r <? 0 then ret (SysRet (-1)) else l <- uget p 4;; ret (SysRet (i32 (of_le l)))).
Definition tcgetpgrp (pgrp fd : Z) := local_pid (ioctl fd TIOCGPGRP pgrp) pgrp.
Definition tcgetsid (sid fd : Z) := local_pid (ioctl fd TIOCGSID sid) sid.
Definition tcsetpgrp (p fd pgrp : Z) : M S sys_result := uput p (le_bytes 4 (u32 pgrp));;; ioctl fd TIOCSPGRP p.
End libc.

(** [termios.c], the functions on a structure. *)
Definition cfgetispeed (t : termios) : Z := c_ispeed t.
Definition cfgetospeed (t : termios) : Z := c_ospeed t.
Definition cfsetispeed (speed : Z) (t : termios) : termios :=
  mk_termios (c_iflag t) (c_oflag t) (c_cflag t) (c_lflag t) (c_line t) (c_cc t) (c_pad t) speed (c_ospeed t).
Definition cfsetospeed (speed : Z) (t : termios) : termios :=
  mk_termios (c_iflag t) (c_oflag t) (c_cflag t) (c_lflag t) (c_line t) (c_cc t) (c_pad t) (c_ispeed t) speed.
Definition cfsetspeed (speed : Z) (t : termios) : termios := cfsetospeed speed (cfsetispeed speed t).
Definition cfmakeraw (t : termios) : termios :=
  mk_termios (andnot (c_iflag t) (fold_left Z.lor [0x1; 0x2; 0x8; ISTRIP; INLCR; IGNCR; ICRNL; IXON] 0))
    (andnot (c_oflag t) OPOST)
    (Z.lor (andnot (c_cflag t) (Z.lor 0x30 0x100)) CS8)
    (andnot (c_lflag t) (fold_left Z.lor [ECHO; ECHONL; ICANON; ISIG; IEXTEN] 0))
    (c_line t) (<[Z.to_nat VTIME := 0]> (<[Z.to_nat VMIN := 1]> (c_cc t))) (c_pad t) (c_ispeed t) (c_ospeed t).

(** ** The kernel below *)

Lemma i32_u64 x : i32 (u64 x) = i32 x.
Proof. unfold i32, u64. zlia. Qed.
Lemma u32_w hi i v : u32 (w hi i v) = u32 v.
Proof. unfold u32, w, u32. zlia. Qed.
Lemma i32_w hi i v : i32 (w hi i v) = i32 v.
Proof. unfold i32, w, u32. zlia. Qed.

Section kernel.
Context {FA : Type} `{!FrameAllocator FA} `{!Drivers FA}.
Context (devfs_root_node link_buf pipe_read_ops pipe_write_ops current_interval : Z).
Context (realtime monotonic : M (kst FA) (Z * Z)) (pl031_set_time : Z → M (kst FA) unit).
Context (hw : sysctl_hw) (tfp : Z) (hi : nat → Z).
Notation st := (kst FA * sysctl_kern)%type.

(** What the other registers of the program hold. *)
Context (rest : nat → Z) (xs : list Z) (sp elr spsr : Z).

(** The trap frame of [svc] with these registers, and the supervisor call on it. *)
Definition frame (num : Z) (regs : list Z) : trapframe :=
  mk_trapframe (regs ++ map rest (seq (length regs) (8 - length regs)) ++ num :: xs) sp elr spsr.
Definition kernel_trap (num : Z) (regs : list Z) : M st sys_result :=
  c <- svc devfs_root_node link_buf pipe_read_ops pipe_write_ops current_interval realtime monotonic pl031_set_time hw tfp (frame num regs);;
  ret (match c with SvcReturns tf => SysRet (reg tf 0) | SvcEnters entry sp => SysEnter entry sp | SvcSwitches => SysSwitch | SvcEnds => SysExit end).

(** No signal is waiting for the process. *)
Definition quiet (k : kst FA) : Prop := ∀ tf, signal_check_pending tf k = Done (CheckDone tf, k).
(** The function [c] of the library is the operation [m] of the kernel, its
    result cut to an [int]. *)
Definition reaches (c : M st sys_result) (m : M (kst FA) Z) : Prop :=
  ∀ k kern r k', m k = Done (r, k') → quiet k' → c (k, kern) = Done (SysRet (i32 r), (k', kern)).
(** For an operation that may wait. *)
Definition reaches_waiting (c : M st sys_result) (m : M (kst FA) (option Z)) : Prop :=
  ∀ k kern o k', m k = Done (o, k') → quiet k' →
  c (k, kern) = Done (match o with Some r => SysRet (i32 r) | None => SysSwitch end, (k', kern)).

Notation body_of num tf := (syscall_body devfs_root_node link_buf pipe_read_ops pipe_write_ops current_interval realtime monotonic pl031_set_time hw tfp num
  (reg tf 0) (reg tf 1) (reg tf 2) (reg tf 3) (reg tf 4) (reg tf 5)).
Lemma svc_returns tf k kern r k' : reg tf 8 < MAX_SYSCALLS → body_of (reg tf 8) tf (k, kern) = Done (SysRet r, (k', kern)) → quiet k' →
  svc devfs_root_node link_buf pipe_read_ops pipe_write_ops current_interval realtime monotonic pl031_set_time hw tfp tf (k, kern) =
  Done (SvcReturns (set_reg 0 (u64 r) tf), (k', kern)).
Proof.
  intros Hn Hb Hq. unfold svc, syscall_handler. rewrite (proj2 (Z.leb_gt _ _)) by done. rewrite bind_bind. mstep Hb.
  rewrite bind_bind. mstep (on_kst_Done _ _ _ kern _ (Hq tf)). cbn. mstep (on_kst_Done _ _ _ kern _ (Hq (set_reg 0 (u64 r) tf))). done.
Qed.
Lemma trap_returns num regs k kern r k' : nth 8 (tf_x (frame num regs)) 0 = num → num < MAX_SYSCALLS →
  body_of num (frame num regs) (k, kern) = Done (SysRet r, (k', kern)) → quiet k' → kernel_trap num regs (k, kern) = Done (SysRet (u64 r), (k', kern)).
Proof.
  intros Hnum Hn Hb Hq. unfold kernel_trap. assert (reg (frame num regs) 8 = num) as E by done.
  mstep (svc_returns (frame num regs) k kern r k' ltac:(by rewrite E) ltac:(by rewrite E) Hq). unfold ret. do 3 f_equal.
  unfold reg, set_reg, frame. cbn [tf_x]. destruct regs as [|a regs]; done.
Qed.
Lemma call_reaches num regs m : nth 8 (tf_x (frame num regs)) 0 = num → num < MAX_SYSCALLS →
  (∀ s, body_of num (frame num regs) s = returns m s) → reaches (call kernel_trap num regs i32) m.
Proof.
  intros Hnum Hn Hb k kern r k' Hm Hq. unfold call. assert (body_of num (frame num regs) (k, kern) = Done (SysRet r, (k', kern))) as Hr.
  { rewrite Hb. apply on_kst_Done. by mstep Hm. }
  mstep (trap_returns num regs k kern r k' Hnum Hn Hr Hq). unfold ret, map_ret. rewrite (u64_id (u64 r)) by apply u64_range. by rewrite i32_u64.
Qed.
Lemma call_reaches_waiting num regs m : nth 8 (tf_x (frame num regs)) 0 = num → num < MAX_SYSCALLS →
  (∀ s, body_of num (frame num regs) s = waits m s) → reaches_waiting (call kernel_trap num regs i32) m.
Proof.
  intros Hnum Hn Hb k kern [r|] k' Hm Hq; unfold call.
  - assert (body_of num (frame num regs) (k, kern) = Done (SysRet r, (k', kern))) as Hr.
    { rewrite Hb. apply on_kst_Done. by mstep Hm. }
    mstep (trap_returns num regs k kern r k' Hnum Hn Hr Hq). unfold ret, map_ret. rewrite (u64_id (u64 r)) by apply u64_range. by rewrite i32_u64.
  - assert (body_of num (frame num regs) (k, kern) = Done (SysSwitch, (k', kern))) as Hr.
    { rewrite Hb. apply on_kst_Done. by mstep Hm. }
    assert (kernel_trap num regs (k, kern) = Done (SysSwitch, (k', kern))) as Ht; [|by mstep Ht].
    unfold kernel_trap, svc, syscall_handler. assert (reg (frame num regs) 8 = num) as -> by done. rewrite (proj2 (Z.leb_gt _ _)) by done.
    rewrite !bind_bind. mstep Hr. done.
Qed.
(** Nothing is pending for the process. *)
Lemma quiet_pending k p x si : runs k p x → p_signals x = Some si → sig_pending si = 0 → quiet k.
Proof.
  intros Hr Hsi Hp tf. unfold signal_check_pending. rewrite (with_proc_runs _ _ _ _ _ Hr).
  pose proof (proc_of_Done _ _ _ (runs_proc _ _ _ Hr)) as Hpo. mstep Hpo. rewrite Hsi.
  change 33%nat with (S 32). generalize 32%nat. intros fuel. cbn [check_loop]. mstep Hpo. rewrite Hsi.
  assert (signal_dequeue si = (0, si)) as ->.
  { unfold signal_dequeue. assert (deliverable si = 0) as ->; [|done]. unfold deliverable. rewrite Hp. done. }
  mstep (mod_signals_Done k p x (λ _, si) (runs_proc _ _ _ Hr)). change (0 =? 0) with true. cbv iota.
  assert (put_proc p (set_p_signals ((λ _, si) <$> p_signals x) x) k = k) as ->; [|done].
  rewrite Hsi. assert (set_p_signals ((λ _, si) <$> Some si) x = x) as -> by (cbn; rewrite <- Hsi; by destruct x).
  pose proof (runs_proc _ _ _ Hr) as Hx. destruct k as [sc vm ino fl pi vf tt ini pc]. unfold put_proc, set_k_sched. cbn in *.
  destruct sc. unfold set_procs. cbn in *. by rewrite insert_id.
Qed.
End kernel.
(** Runs the dispatcher on a number. *)
Ltac dispatch :=
  first [apply call_reaches | apply call_reaches_waiting]; [reflexivity|reflexivity|];
  intros s; cbv beta iota zeta delta [syscall_body frame reg tf_x app nth Z.eqb Pos.eqb SYS_EXIT SYS_FORK SYS_READ SYS_WRITE SYS_OPEN SYS_CLOSE SYS_WAIT3 SYS_LINK SYS_UNLINK SYS_CHDIR SYS_FCHDIR SYS_MKNOD SYS_CHMOD SYS_CHOWN SYS_LSEEK SYS_GETPID SYS_SETUID SYS_GETUID SYS_GETEUID SYS_CHFLAGS SYS_FCHFLAGS SYS_KILL SYS_STAT SYS_GETPPID SYS_LSTAT SYS_DUP SYS_PIPE SYS_GETEGID SYS_SIGACTION SYS_GETGID SYS_SIGPROCMASK SYS_SIGPENDING SYS_IOCTL SYS_REBOOT SYS_SYMLINK SYS_EXECVE SYS_MUNMAP SYS_GETCWD SYS_GETGROUPS SYS_SETGROUPS SYS_GETPGRP SYS_SETPGID SYS_DUP2 SYS_GETTIMEOFDAY SYS_SETTIMEOFDAY SYS_FCHOWN SYS_FCHMOD SYS_MKDIR SYS_RMDIR SYS_SETSID SYS_GETPGID SYS_SETGID SYS_SETEGID SYS_SETEUID SYS_SIGRETURN SYS_FSTAT SYS_GETDIRENTRIES SYS_MMAP SYS_SYSCTL SYS_CLOCK_GETTIME SYS_CLOCK_SETTIME SYS_CLOCK_GETRES SYS_NANOSLEEP SYS_GETSID];
  rewrite ?u32_w, ?i32_w; reflexivity.
